(* ===== verification/_CoqProject ===== *)
-Q . S2P
Prelude.v
Digits.v
Ring.v
Monad.v
Kbd.v
Console.v
ConsoleProps.v
Mmu.v
Spinlock.v
Mem.v
Cstring.v
Ulib.v
Grep.v
Uprog.v
Uprogs.v
UprogProps.v
Umalloc.v
UmallocProps.v
Sh.v
ShLex.v
ShProps.v
ShRun.v
Kalloc.v
Vm.v
Hw.v
Uvm.v
Space.v
Forkvm.v
FileIface.v
Proc.v
Signal.v
Sysproc.v
Trap.v
SigProps.v
Sched.v
Sleeplock.v
Pipe.v
Disk.v
Ports.v
Boot.v
Ide.v
IdeProps.v
Bio.v
BioThreads.v
Bcache.v
Log.v
LogProps.v
LogCrash.v
LogSpace.v
Fs.v
FsData.v
FsTrans.v
FsAlloc.v
FsFile.v
FsRw.v
FsInode.v
FsWrite.v
FsRefine.v
FsIcache.v
FsDir.v
FsTrunc.v
FsSample.v
Mkfs.v
MkfsProps.v
FsMount.v
File.v
Refs.v
Kfile.v
Exec.v
Bootmain.v
Sysfile.v
RefsFile.v
FdThreads.v
RefsProc.v
Kernel.v
FirstProc.v
Main.v
MainProps.v
MainBoot.v
