(* ===== verification/Prelude.v ===== *)
(** * A verification of xv6 with signals

    The program is the teaching kernel xv6 for the x86 with an extension that
    gives processes Unix-like signals, its boot loader, its user programs and
    the program that builds its file-system image.  This library translates the
    C code into executable Rocq definitions and proves what the code is there
    for: exclusion, crash safety, the accounting of memory and of open files,
    the checks of system call arguments, and the behaviour of files,
    directories, pipes, the console, signals, the shell and its tools.

    ** How C code is modelled

    - A [uint], [ushort] or [uchar] is a [Z] in range, its arithmetic wrapped
      explicitly by [u32], [u16], [u8]; an [int] is the signed reading [s32]
      (this file).
    - Memory the code addresses byte by byte (user memory, page tables, the free
      list of pages, trap frames, the heap of a program) is a finite map from
      addresses to bytes, with little-endian words (Mem.v).  Structures that the
      code only reaches through their fields are records, in lists indexed as
      the C arrays are.
    - Kernel code on a shared state [S] is a value of [M S A] (Monad.v): it ends
      with a result, with [panic], at a [sleep()] with the continuation, or out
      of fuel.  The context carries the spin locks held and the wakeups issued,
      so [release] of a lock that is not held is a panic, as in the source.  The
      predicate [wp] is total: a program that panics, sleeps or runs out of fuel
      does not satisfy it.
    - A user program is the tree of the system calls it makes (Uprog.v), and
      theorems about it hold for every kernel that keeps the laws stated there.
    - Devices are parameters: a type of device states with the results and
      effects of port and register accesses (Ports.v).  What a theorem needs of
      a device is a named hypothesis of its section.
    - Loops over arrays are structural.  A loop that waits takes the number of
      wakeups it can consume as fuel (the class [Fuel]); theorems are about any
      amount of it that is not zero, because a thread alone never waits, or about
      one stretch of code between two sleeps.  Loops that follow pointers take
      the size of the table as fuel, which a list without repetition cannot
      exceed; loops over pages take the number of pages and the parser the
      length of the line; theorems show that this suffices.  Loops that poll a
      device take the number of reads within which the device answers, which is
      a hypothesis on the device.
    - Code that several CPUs or threads run at once is cut at the points where
      another can act, and a step relation interleaves the pieces; invariants are
      proved by induction on the steps.

    ** The parts

    The boot loader (bootmain.c) reads the kernel from the disk and enters
    main(), which sets up memory, processors and devices and makes the first
    process.  The scheduler switches between processes; a process enters the
    kernel through trap(), which dispatches system calls and interrupts and, on
    the way out, checks for signals.  System calls work on processes, on address
    spaces, and through open files on pipes, devices and inodes; the inode layer
    runs on the log, the log on the buffer cache, and that on the disk.

    - Mmu.v, Hw.v: param.h, memlayout.h, mmu.h, and the processor state that
      x86.h and vm.c's [seginit] and [switchuvm] set up.  Ports.v: port and
      register accesses.
    - Cstring.v: string.c.  Digits.v: the digits of printint.  Ring.v: ring
      buffers with free-running 32-bit indexes (pipe.c, console.c).
    - Spinlock.v: spinlock.c, and any number of CPUs contending for locks.
      Sleeplock.v: sleeplock.c, and any number of threads sharing a lock.
    - Kalloc.v: kalloc.c, the free list in the memory of the free pages.
      Vm.v, Uvm.v: vm.c, page tables in byte memory.  Space.v, Forkvm.v: which
      pages an address space owns, as it is built, grown, copied and freed.
    - Proc.v: proc.c.  Sched.v: its scheduler on several CPUs.  Signal.v: the
      signal half of trap.c.  Sysproc.v: the argument checks of syscall.c, and
      sysproc.c.  Trap.v: the dispatch of system calls and trap().  SigProps.v:
      theorems about signals.  FileIface.v is the interface through which
      processes use the file system; File.v has its instance.
    - Disk.v: fs.h, buf.h and the disk in memory of memide.c.  Ide.v,
      IdeProps.v: ide.c, the driver of the real disk, and its requests and
      interrupts interleaved.  Bio.v: bio.c; BioThreads.v: threads sharing
      the cache; Bcache.v: the contract the layers above use.
    - Log.v: log.c.  LogProps.v: its functional specification; LogCrash.v: crash
      and recovery; LogSpace.v: the reservation of log space.
    - Fs.v, FsData.v: fs.c.  FsTrans.v, FsAlloc.v, FsFile.v, FsRw.v, FsInode.v,
      FsWrite.v, FsRefine.v, FsIcache.v, FsDir.v, FsTrunc.v: the refinement of
      the disk to files and directories.  FsSample.v: a concrete disk.
    - Pipe.v, File.v, Kfile.v: pipe.c and file.c.  Exec.v: exec.c.  Sysfile.v:
      sysfile.c.  Kbd.v, Console.v, ConsoleProps.v: kbd.c, uart.c, console.c.
    - FdThreads.v: the system calls that take and drop references to open files,
      on any number of CPUs.  Refs.v, RefsFile.v, RefsProc.v: how every system
      call and process operation as a whole counts these references.  Kernel.v:
      the kernel as one machine on one CPU, whose steps are traps, interrupts, the
      scheduler's switches and the instructions of user programs.
    - Boot.v: mp.c, lapic.c, ioapic.c, picirq.c.  Bootmain.v: bootmain.c.
      Main.v: main.c; MainProps.v: its initialisation of the devices;
      FirstProc.v: the first process; MainBoot.v: the whole of main() with the
      other processors.
    - Ulib.v: ulib.c and printf.c.  Umalloc.v, UmallocProps.v: umalloc.c.
      Grep.v: grep.c.  Sh.v, ShLex.v, ShProps.v, ShRun.v: sh.c.  Uprog.v,
      Uprogs.v, UprogProps.v: wc, ls, cat, echo, init, kill, ln, mkdir, rm and
      zombie.
    - Mkfs.v, MkfsProps.v: mkfs.c.  FsMount.v: the kernel that boots from the
      image mkfs.c makes.

    ** What the theorems show

    - Exclusion: a spin lock has one holder with interrupts off, a process runs
      on one CPU, a page is allocated once, a disk block has one buffer and a
      buffer one user, an inode has one entry of the cache, pids are distinct.
    - Crash safety: whatever prefix of the writes of [commit] reaches the disk,
      recovery restores the state before or after the transaction.  Recovery
      itself may be interrupted, and always terminates.
    - Accounting: however the system calls of any number of processes interleave,
      the count of an open file is the number of its descriptors and of the
      references that calls in progress have, a file in use is never freed, and
      filedup and fileclose do not panic.  Address spaces and the free list share the
      pages between them: [setupkvm], [allocuvm], [copyuvm] and [freevm] build,
      grow, copy and free an address space without touching a page in use.
    - Refinement: the contents of an inode are a byte sequence that [readi] and
      [writei] read, replace and extend, without effect on other files; a
      directory is a map from names to inode numbers for [dirlookup] and
      [dirlink]; [iput] of the last reference to an unlinked file frees its
      blocks.  The console implements an editing line and a queue of committed
      characters; [check_kernel_sigs] implements a specification on sets of
      signals; the traces of calls and returns of the IDE driver are those of a
      disk that serves one request at a time.
    - Signals: delivery to a handler and the return through sigret restore the
      interrupted frame and the saved mask; kill posts one signal to the named process;
      SIGSTOP waits for SIGCONT or SIGKILL.
    - Ordering and liveness: pipes are first-in first-out, sleepers on pipes
      and sleep locks are woken, and no request of the disk is lost.
    - Bounds: argptr and argstr accept exactly the blocks and strings inside the
      process; the string functions write exactly their range.
    - Start: the boot loader loads the segments of the kernel; the kernel reads
      from the image of mkfs the files that were put in; main() brings up every
      processor and reaches the scheduler with each page of memory accounted for
      and the first process ready, in a state where the machine of Kernel.v
      begins.
    - User code: malloc and free keep the heap; the shell's parser reads back
      the text of a command and its runcmd connects the processes as the command
      says; grep prints the lines that match.
    - Defects: log_space_off_by_one, dirlink_own_entry_deadlocks and
      copyuvm_leaks_page exhibit runs in which the code panics, waits for itself
      or loses a page.

    ** What is not modelled

    - The assembly files (entry.S, entryother.S, swtch.S, trapasm.S, usys.S,
      initcode.S, bootasm.S) but for the order of calls in alltraps: the
      machine code of initcode.S and entryother.S is a parameter.
    - The test programs usertests.c, SigSanity.c, forktest.c and stressfs.c,
      which call the system and print what they see; they promise nothing that
      another part relies on.
    - main() of grep.c, which opens the files named on its command line as cat
      does.
    - The messages of [allocuvm] when memory runs out, of [iinit] about the
      superblock and of the shell's parser about leftovers.
    - The timing of devices, and interleaving finer than each step relation has
      it.  Spinlock.v, Sched.v and FdThreads.v interleave CPUs at every access to
      the lock word, at every access to the process table under ptable.lock, and
      at every critical section of ftable.lock.  BioThreads.v, Sleeplock.v,
      Pipe.v, LogSpace.v and IdeProps.v interleave threads at the boundaries of
      critical sections and sleeps.  Kernel.v has one CPU, and a stretch of kernel
      code between two sleeps is not interrupted: its theorem covers every system
      call, but not the interrupts that the kernel takes inside of one.  Theorems
      stated with [wp] are about one thread that is not interrupted. *)
From stdpp Require Export base list gmap strings.
From Stdlib Require Export ZArith Lia.

Open Scope Z_scope.

Create HintDb machine.
Create Rewrite HintDb machine.

(** * Machine integers

    A C [uint] is a [Z] in the range of [is_u32]; the wrap-around of its
    arithmetic is written out with [u32], and the signed reading of a word
    (a C [int]) with [s32]. *)

Definition u8 (z : Z) : Z := z mod 256.
Definition u16 (z : Z) : Z := z mod 65536.
Definition u32 (z : Z) : Z := z mod 4294967296.

Definition s32 (z : Z) : Z :=
  if u32 z <? 2147483648 then u32 z else u32 z - 4294967296.

(** The signed reading of a half word (a C [short]). *)
Definition s16 (z : Z) : Z := if u16 z <? 32768 then u16 z else u16 z - 65536.

Definition is_u8 (z : Z) : Prop := 0 <= z < 256.
Definition is_u16 (z : Z) : Prop := 0 <= z < 65536.
Definition is_u32 (z : Z) : Prop := 0 <= z < 4294967296.

Lemma u32_small z : is_u32 z -> u32 z = z.
Proof. intros H. apply Z.mod_small, H. Qed.

Lemma u32_range z : is_u32 (u32 z).
Proof. apply Z.mod_pos_bound. lia. Qed.

Lemma u32_idem z : u32 (u32 z) = u32 z.
Proof. apply u32_small, u32_range. Qed.

Lemma u32_add_l a b : u32 (u32 a + b) = u32 (a + b).
Proof. unfold u32. now rewrite Zplus_mod_idemp_l. Qed.

Lemma u32_add_r a b : u32 (a + u32 b) = u32 (a + b).
Proof. unfold u32. now rewrite Zplus_mod_idemp_r. Qed.

Lemma u32_sub_l a b : u32 (u32 a - b) = u32 (a - b).
Proof. unfold u32. now rewrite Zminus_mod_idemp_l. Qed.

Lemma u32_sub_r a b : u32 (a - u32 b) = u32 (a - b).
Proof. unfold u32. now rewrite Zminus_mod_idemp_r. Qed.

(** A sum that overflows once wraps to the sum less [2^32]. *)
Lemma u32_wrap z : 4294967296 <= z < 8589934592 -> u32 z = z - 4294967296.
Proof. intros H. unfold u32. symmetry. apply (Z.mod_unique z _ 1); lia. Qed.

(** A difference that underflows once wraps to the difference plus [2^32]. *)
Lemma u32_borrow z : -4294967296 <= z < 0 -> u32 z = z + 4294967296.
Proof. intros H. unfold u32. symmetry. apply (Z.mod_unique z _ (-1)); lia. Qed.

Lemma u8_small z : is_u8 z -> u8 z = z.
Proof. intros H. apply Z.mod_small, H. Qed.

Lemma u8_range z : is_u8 (u8 z).
Proof. apply Z.mod_pos_bound. lia. Qed.

Lemma u16_small z : is_u16 z -> u16 z = z.
Proof. intros H. apply Z.mod_small, H. Qed.

Lemma u16_range z : is_u16 (u16 z).
Proof. apply Z.mod_pos_bound. lia. Qed.

Lemma s32_small z : 0 <= z < 2147483648 -> s32 z = z.
Proof.
  intros H. unfold s32. rewrite u32_small by (unfold is_u32; lia).
  destruct (Z.ltb_spec z 2147483648); lia.
Qed.

Lemma s32_neg z : -2147483648 <= z < 0 -> s32 z = z.
Proof.
  intros H. unfold s32. rewrite u32_borrow by lia.
  destruct (Z.ltb_spec (z + 4294967296) 2147483648); lia.
Qed.

Lemma s32_range z : -2147483648 <= s32 z < 2147483648.
Proof.
  unfold s32. pose proof (u32_range z) as R. unfold is_u32 in R.
  destruct (Z.ltb_spec (u32 z) 2147483648); lia.
Qed.

Lemma u32_s32 z : u32 (s32 z) = u32 z.
Proof.
  unfold s32. pose proof (u32_range z) as R.
  destruct (Z.ltb_spec (u32 z) 2147483648).
  - now rewrite u32_small.
  - unfold u32 at 1. replace (u32 z - 4294967296) with (u32 z + (-1) * 4294967296) by lia.
    rewrite Z_mod_plus_full. now apply u32_small.
Qed.

#[export] Hint Resolve u32_range u16_range u8_range : machine.
#[export] Hint Rewrite u32_idem u32_add_l u32_add_r u32_sub_l u32_sub_r u32_s32 : machine.

(** * Bits of a word *)

(** [1 << n]. *)
Definition bit (n : Z) : Z := Z.shiftl 1 n.

Lemma bit_testbit n i : 0 <= n -> Z.testbit (bit n) i = (i =? n).
Proof.
  intros Hn. unfold bit. destruct (Z.ltb_spec i 0) as [Hi|Hi].
  - rewrite Z.testbit_neg_r by lia. symmetry. apply Z.eqb_neq. lia.
  - rewrite Z.shiftl_1_l, Z.pow2_bits_eqb by lia. apply Z.eqb_sym.
Qed.

Lemma land_bit p n :
  0 <= n -> Z.land p (bit n) = if Z.testbit p n then bit n else 0.
Proof.
  intros Hn. apply Z.bits_inj'. intros i Hi.
  rewrite Z.land_spec, bit_testbit by lia.
  destruct (Z.eqb_spec i n) as [->|Hne].
  - rewrite andb_true_r. destruct (Z.testbit p n) eqn:E.
    + rewrite bit_testbit by lia. now rewrite Z.eqb_refl.
    + now rewrite Z.bits_0.
  - rewrite andb_false_r. destruct (Z.testbit p n); [|now rewrite Z.bits_0].
    rewrite bit_testbit by lia. symmetry. now apply Z.eqb_neq.
Qed.

Lemma bit_pos n : 0 <= n -> 0 < bit n.
Proof. intros Hn. unfold bit. rewrite Z.shiftl_1_l. apply Z.pow_pos_nonneg; lia. Qed.

(** The test [(p & (1 << n)) > 0] of the code reads bit [n]. *)
Lemma land_bit_gt0 p n : 0 <= n -> (0 <? Z.land p (bit n)) = Z.testbit p n.
Proof.
  intros Hn. rewrite land_bit by lia. pose proof (bit_pos n Hn).
  destruct (Z.testbit p n); [apply Z.ltb_lt|apply Z.ltb_ge]; lia.
Qed.

(** Two words are equal when their 32 bits are. *)
Lemma u32_bits_inj a b :
  is_u32 a -> is_u32 b ->
  (forall i, 0 <= i < 32 -> Z.testbit a i = Z.testbit b i) -> a = b.
Proof.
  intros Ha Hb H. apply Z.bits_inj'. intros i Hi.
  destruct (Z.ltb_spec i 32) as [Hlt|Hge]; [apply H; lia|].
  rewrite <- (u32_small a), <- (u32_small b) by assumption. unfold u32.
  change 4294967296 with (2 ^ 32). now rewrite !Z.mod_pow2_bits_high by lia.
Qed.

Lemma is_u32_bits a :
  0 <= a -> (forall i, 32 <= i -> Z.testbit a i = false) -> is_u32 a.
Proof.
  intros H0 H. enough (a mod 2 ^ 32 = a) as <-.
  { apply u32_range. }
  apply Z.bits_inj'. intros i Hi. destruct (Z.ltb_spec i 32).
  - now apply Z.mod_pow2_bits_low.
  - rewrite Z.mod_pow2_bits_high by lia. symmetry. apply H. lia.
Qed.

Lemma u32_testbit_high a i : is_u32 a -> 32 <= i -> Z.testbit a i = false.
Proof.
  intros Ha Hi. rewrite <- (u32_small a Ha). unfold u32.
  change 4294967296 with (2 ^ 32). now apply Z.mod_pow2_bits_high.
Qed.

(** * Lists as arrays *)

(** [a[i]] and [a[i] = v] for a C array.  Every use in the development is in
    range or guarded by the test the source makes. *)
Definition aget {A} (d : A) (l : list A) (i : Z) : A := default d (l !! Z.to_nat i).
Definition aset {A} (l : list A) (i : Z) (v : A) : list A := <[Z.to_nat i := v]> l.

Lemma length_aset {A} (l : list A) i v : length (aset l i v) = length l.
Proof. apply length_insert. Qed.

Lemma aget_aset_eq {A} (d : A) l i v :
  0 <= i < Z.of_nat (length l) -> aget d (aset l i v) i = v.
Proof. intros H. unfold aget, aset. rewrite list_lookup_insert_eq by lia. done. Qed.

Lemma aget_aset_ne {A} (d : A) l i j v :
  0 <= i -> 0 <= j -> i <> j -> aget d (aset l i v) j = aget d l j.
Proof. intros Hi Hj H. unfold aget, aset. rewrite list_lookup_insert_ne by lia. done. Qed.

(** [0, 1, ..., n-1] as the values of a C loop counter. *)
Definition zrange (n : nat) : list Z := Z.of_nat <$> seq 0 n.

Lemma elem_of_zrange n i : i ∈ zrange n <-> 0 <= i < Z.of_nat n.
Proof.
  unfold zrange. rewrite list_elem_of_fmap. setoid_rewrite elem_of_seq. split.
  - intros (k & -> & Hk). lia.
  - intros H. exists (Z.to_nat i). lia.
Qed.

Lemma NoDup_zrange n : NoDup (zrange n).
Proof. unfold zrange. apply NoDup_fmap_2_strong; [lia|apply NoDup_seq]. Qed.

(** Filters that agree on the elements of a list. *)
Lemma list_filter_ext_in {A} (P Q : A -> Prop) `{forall x, Decision (P x), forall x, Decision (Q x)} (l : list A) :
  (forall x, x ∈ l -> P x <-> Q x) -> filter P l = filter Q l.
Proof.
  induction l as [|x l IH]; intros Hl; [done|]. rewrite !filter_cons.
  rewrite IH by (intros y Hy; apply Hl; now right).
  destruct (Hl x ltac:(left)) as [H1 H2]. destruct (decide (P x)), (decide (Q x)); tauto || done.
Qed.

Lemma zrange_S n : zrange (S n) = zrange n ++ [Z.of_nat n].
Proof. unfold zrange. now rewrite seq_S, fmap_app. Qed.

Lemma zrange_lookup n j x : zrange n !! j = Some x -> x = Z.of_nat j /\ (j < n)%nat.
Proof.
  unfold zrange. rewrite list_lookup_fmap, fmap_Some. intros (y & H & ->).
  apply lookup_seq in H as [-> H]. done.
Qed.

Lemma length_zrange n : length (zrange n) = n.
Proof. unfold zrange. now rewrite length_fmap, length_seq. Qed.

(** The bytes before the first NUL. *)
Fixpoint cut0 (l : list Z) : list Z :=
  match l with
  | [] => []
  | c :: l' => if c =? 0 then [] else c :: cut0 l'
  end.

(** * Tactics *)

(** Decide every boolean integer comparison in sight. *)
Ltac zbool :=
  repeat match goal with
  | H : (_ =? _) = true |- _ => apply Z.eqb_eq in H
  | H : (_ =? _) = false |- _ => apply Z.eqb_neq in H
  | H : (_ <? _) = true |- _ => apply Z.ltb_lt in H
  | H : (_ <? _) = false |- _ => apply Z.ltb_ge in H
  | H : (_ <=? _) = true |- _ => apply Z.leb_le in H
  | H : (_ <=? _) = false |- _ => apply Z.leb_gt in H
  | H : negb _ = true |- _ => apply negb_true_iff in H
  | H : negb _ = false |- _ => apply negb_false_iff in H
  | H : (_ && _) = true |- _ => apply andb_true_iff in H; destruct H
  | H : (_ || _) = false |- _ => apply orb_false_iff in H; destruct H
  end.

(** Case on the innermost boolean test of the goal. *)
Ltac case_if :=
  match goal with
  | |- context [if ?b then _ else _] =>
      lazymatch b with
      | context [if _ then _ else _] => fail
      | _ => destruct b eqn:?
      end
  end.

(** Membership in lists given by [::], [++] and [[]], by propositional reasoning. *)
Ltac lmem :=
  repeat match goal with
  | H : context [_ ∈ _ :: _] |- _ => rewrite elem_of_cons in H
  | H : context [_ ∈ _ ++ _] |- _ => rewrite elem_of_app in H
  | H : context [_ ∈ []] |- _ => rewrite elem_of_nil in H
  | H : NoDup (_ :: _) |- _ => apply NoDup_cons in H; destruct H
  | |- context [_ ∈ _ :: _] => rewrite elem_of_cons
  | |- context [_ ∈ _ ++ _] => rewrite elem_of_app
  | |- context [_ ∈ []] => rewrite elem_of_nil
  end;
  intuition (subst; first [assumption | tauto | congruence]).
