(* ===== verification/Digits.v ===== *)
(** The digit loop that printint of console.c and printint of printf.c share,
    and the numeral it writes. *)
From S2P Require Import Prelude.

(** A string of the source as the list of its bytes. *)
Fixpoint bytes (s : string) : list Z :=
  match s with
  | EmptyString => []
  | String a s' => Z.of_nat (Ascii.nat_of_ascii a) :: bytes s'
  end.

(** [do { buf[i++] = digits[x % base]; } while((x /= base) != 0);]: what is
    stored in [buf], in that order, in at most [n] rounds. *)
Fixpoint digit_loop (n : nat) (digits : list Z) (base x : Z) : list Z :=
  match n with
  | O => []
  | S n' =>
      aget 0 digits (x mod base) ::
      (if x / base =? 0 then [] else digit_loop n' digits base (x / base))
  end.

(** The room of [char buf[16]]. *)
Definition DIGITS_BUF : nat := 16.

(** What [printint(xx, base, sign)] puts out: the sign, then the digits of
    [buf] from the last to the first. *)
Definition printint_out (digits : list Z) (xx base : Z) (sign : bool) : list Z :=
  let neg := sign && (xx <? 0) in
  let x := if neg then u32 (- xx) else u32 xx in
  let buf := digit_loop 32 digits base x ++ (if neg then [45] else []) in
  reverse buf.

(** * Reading a numeral back *)

(** The value of a digit character, and of the digits least significant
    first. *)
Definition digit_val (digits : list Z) (c : Z) : Z :=
  default 0 ((fun p => Z.of_nat (fst p)) <$> list_find (eq c) digits).
Fixpoint digits_val (digits : list Z) (base : Z) (l : list Z) : Z :=
  match l with
  | [] => 0
  | c :: l' => digit_val digits c + base * digits_val digits base l'
  end.

Lemma digit_val_aget digits i :
  NoDup digits -> 0 <= i < Z.of_nat (length digits) -> digit_val digits (aget 0 digits i) = i.
Proof.
  intros Hnd Hi. unfold digit_val, aget.
  destruct (lookup_lt_is_Some_2 digits (Z.to_nat i)) as [c Hc]; [lia|]. rewrite Hc. cbn [default id].
  erewrite (proj2 (list_find_Some (eq c) digits (Z.to_nat i) c)); [cbn; lia|].
  split; [done|]. split; [done|]. intros j y Hy Hj ->.
  pose proof (NoDup_lookup _ _ _ _ Hnd Hc Hy). lia.
Qed.

Lemma digit_loop_spec digits base n x :
  NoDup digits -> 2 <= base <= Z.of_nat (length digits) -> 0 <= x < base ^ Z.of_nat n ->
  digits_val digits base (digit_loop n digits base x) = x.
Proof.
  intros Hnd Hb. revert x. induction n as [|n IH]; intros x Hx; cbn [digit_loop digits_val].
  { rewrite Z.pow_0_r in Hx. lia. }
  pose proof (Z.mod_pos_bound x base ltac:(lia)) as Hm.
  pose proof (Z.div_mod x base ltac:(lia)) as Hd.
  rewrite digit_val_aget by (done || lia).
  destruct (Z.eqb_spec (x / base) 0) as [E|E]; [cbn; lia|].
  rewrite IH; [lia|]. split; [apply Z.div_pos; lia|]. apply Z.div_lt_upper_bound; [lia|].
  rewrite Nat2Z.inj_succ, Z.pow_succ_r in Hx by lia. lia.
Qed.

Lemma digit_loop_length digits base n x k :
  2 <= base -> 0 <= x < base ^ Z.of_nat k -> (0 < k)%nat -> (length (digit_loop n digits base x) <= k)%nat.
Proof.
  intros Hb. revert x k. induction n as [|n IH]; intros x k Hx Hk; cbn [digit_loop length]; [lia|].
  destruct k as [|k]; [lia|]. destruct (Z.eqb_spec (x / base) 0) as [E|E]; [cbn; lia|].
  rewrite Nat2Z.inj_succ, Z.pow_succ_r in Hx by lia.
  assert (x / base < base ^ Z.of_nat k) by (apply Z.div_lt_upper_bound; lia).
  assert (0 < x / base) by (pose proof (Z.div_pos x base ltac:(lia) ltac:(lia)); lia).
  destruct k as [|k]; [rewrite Z.pow_0_r in *; lia|]. specialize (IH (x / base) (S k)). lia.
Qed.

(** The last digit stored, the first put out, is not a zero but for the
    number 0 itself. *)
Lemma digit_loop_last digits base n x :
  NoDup digits -> 2 <= base <= Z.of_nat (length digits) -> 0 < x < base ^ Z.of_nat n ->
  exists c, last (digit_loop n digits base x) = Some c /\ digit_val digits c <> 0.
Proof.
  intros Hnd Hb. revert x. induction n as [|n IH]; intros x Hx; cbn [digit_loop].
  { rewrite Z.pow_0_r in Hx. lia. }
  pose proof (Z.mod_pos_bound x base ltac:(lia)) as Hm.
  pose proof (Z.div_mod x base ltac:(lia)) as Hd.
  destruct (Z.eqb_spec (x / base) 0) as [E|E].
  - eexists. split; [done|]. rewrite digit_val_aget by (done || lia). lia.
  - assert (0 < x / base) by (pose proof (Z.div_pos x base ltac:(lia) ltac:(lia)); lia).
    destruct (IH (x / base)) as (c & Hc & Hv).
    { split; [done|]. apply Z.div_lt_upper_bound; [lia|].
      rewrite Nat2Z.inj_succ, Z.pow_succ_r in Hx by lia. lia. }
    exists c. split; [|done]. rewrite last_cons, Hc. done.
Qed.

Lemma digit_loop_elems digits base n x c :
  2 <= base <= Z.of_nat (length digits) -> c ∈ digit_loop n digits base x -> c ∈ digits.
Proof.
  intros Hb. revert x. induction n as [|n IH]; intros x; cbn [digit_loop]; [intros H%elem_of_nil; done|].
  rewrite elem_of_cons. intros [->|Hc].
  - unfold aget. pose proof (Z.mod_pos_bound x base ltac:(lia)).
    destruct (lookup_lt_is_Some_2 digits (Z.to_nat (x mod base))) as [d Hd]; [lia|].
    rewrite Hd. cbn. eapply list_elem_of_lookup_2, Hd.
  - destruct (x / base =? 0); [now apply elem_of_nil in Hc|eauto].
Qed.

(** Read the numeral of a signed number. *)
Definition parse_int (digits : list Z) (base : Z) (l : list Z) : Z :=
  match l with
  | [] => 0
  | c :: l' => if c =? 45 then - digits_val digits base (reverse l') else digits_val digits base (reverse l)
  end.

Lemma parse_int_pos digits base l : 45 ∉ l -> parse_int digits base l = digits_val digits base (reverse l).
Proof.
  destruct l as [|c l]; [done|]. intros Hn. cbn [parse_int].
  destruct (Z.eqb_spec c 45) as [->|]; [|done]. exfalso. apply Hn. constructor.
Qed.

(** printint with base 10 or 16: the numeral reads back as the number, signed
    or not, and fits the buffer. *)
Lemma printint_parse digits xx base sign :
  NoDup digits -> 10 <= base <= Z.of_nat (length digits) -> (45 ∉ digits) ->
  -2147483648 <= xx < 2147483648 ->
  parse_int digits base (printint_out digits xx base sign) = (if sign then xx else u32 xx) /\
  (length (printint_out digits xx base sign) <= 11)%nat.
Proof.
  intros Hnd Hb Hm Hxx. unfold printint_out. set (neg := sign && (xx <? 0)).
  set (x := if neg then u32 (- xx) else u32 xx).
  assert (Hx : is_u32 x) by (unfold x; destruct neg; apply u32_range).
  assert (Hpow : 10 ^ 10 <= base ^ Z.of_nat 10) by (apply Z.pow_le_mono_l; lia).
  assert (Hx10 : 0 <= x < base ^ Z.of_nat 10) by (unfold is_u32 in Hx; lia).
  assert (Hval : digits_val digits base (digit_loop 32 digits base x) = x).
  { apply digit_loop_spec; [done|lia|]. split; [lia|]. eapply Z.lt_le_trans; [apply Hx10|].
    apply Z.pow_le_mono_r; lia. }
  pose proof (digit_loop_length digits base 32 x 10 ltac:(lia) Hx10 ltac:(lia)) as Hlen.
  split; [|rewrite length_reverse, length_app; destruct neg; cbn [length]; lia].
  destruct neg eqn:En.
  - rewrite reverse_snoc. cbn [parse_int]. rewrite Z.eqb_refl, reverse_involutive, Hval. apply andb_true_iff in En as [-> E]. zbool.
    unfold x. rewrite u32_small by (unfold is_u32; lia). lia.
  - rewrite app_nil_r, parse_int_pos, reverse_involutive, Hval.
    + unfold x. destruct sign; [|done]. cbn in En. unfold neg in En. zbool. apply u32_small. unfold is_u32. lia.
    + rewrite elem_of_reverse. intros Hc. apply Hm. eapply digit_loop_elems; [|exact Hc]. lia.
Qed.
