(* ===== verification/Ring.v ===== *)
(** Ring buffers: an array of [size] bytes with free-running 32-bit indexes, as
    the pipe and the console's input buffer have them. *)
From S2P Require Import Prelude.

(** The bytes between the indexes [r] and [w]. *)
Definition rcount (r w : Z) : Z := u32 (w - r).
Definition ring (size : Z) (buf : list Z) (r w : Z) : list Z :=
  (fun j => aget 0 buf ((r + j) mod size)) <$> zrange (Z.to_nat (rcount r w)).

Lemma rcount_range r w : is_u32 (rcount r w).
Proof. apply u32_range. Qed.

Lemma length_ring size buf r w : length (ring size buf r w) = Z.to_nat (rcount r w).
Proof. unfold ring. now rewrite length_fmap, length_zrange. Qed.

Lemma ring_lookup size buf r w i : (i < Z.to_nat (rcount r w))%nat ->
  ring size buf r w !! i = Some (aget 0 buf ((r + Z.of_nat i) mod size)).
Proof.
  intros Hi. unfold ring, zrange. rewrite !list_lookup_fmap, lookup_seq_lt by done. done.
Qed.

Lemma rcount_succ r w : rcount r w + 1 < 4294967296 -> rcount r (u32 (w + 1)) = rcount r w + 1.
Proof.
  intros H. unfold rcount in *. rewrite u32_sub_l. replace (w + 1 - r) with (w - r + 1) by lia.
  rewrite <- u32_add_l. apply u32_small. pose proof (u32_range (w - r)). unfold is_u32 in *. lia.
Qed.

Lemma rcount_pred r w : 0 < rcount r w -> rcount r (u32 (w - 1)) = rcount r w - 1.
Proof.
  intros H. unfold rcount in *. rewrite u32_sub_l. replace (w - 1 - r) with (w - r - 1) by lia.
  rewrite <- u32_sub_l. apply u32_small. pose proof (u32_range (w - r)). unfold is_u32 in *. lia.
Qed.

Lemma rcount_next r w : 0 < rcount r w -> rcount (u32 (r + 1)) w = rcount r w - 1.
Proof.
  intros H. unfold rcount in *. rewrite u32_sub_r. replace (w - (r + 1)) with (w - r - 1) by lia.
  rewrite <- u32_sub_l. apply u32_small. pose proof (u32_range (w - r)). unfold is_u32 in *. lia.
Qed.

Lemma rcount_zero r w : is_u32 r -> is_u32 w -> (r =? w) = (rcount r w =? 0).
Proof.
  intros H1 H2. unfold rcount, is_u32 in *. destruct (Z.ltb_spec w r).
  - rewrite u32_borrow by lia. destruct (Z.eqb_spec r w), (Z.eqb_spec (w - r + 4294967296) 0); lia.
  - rewrite u32_small by (unfold is_u32; lia). destruct (Z.eqb_spec r w), (Z.eqb_spec (w - r) 0); lia.
Qed.

Lemma rcount_is r w n : is_u32 r -> is_u32 w -> is_u32 n -> (w =? u32 (r + n)) = (rcount r w =? n).
Proof.
  intros H1 H2 H3. unfold rcount. destruct (Z.eqb_spec w (u32 (r + n))) as [->|H].
  - rewrite u32_sub_l. replace (r + n - r) with n by lia. rewrite (u32_small n H3). symmetry. apply Z.eqb_refl.
  - symmetry. apply Z.eqb_neq. intros E. apply H. rewrite <- E, u32_add_r.
    replace (r + (w - r)) with w by lia. now rewrite u32_small.
Qed.

Lemma rcount_self r : rcount r r = 0.
Proof. unfold rcount. now rewrite Z.sub_diag. Qed.

Lemma rcount_add r w e : rcount r w <= rcount r e -> rcount w e = rcount r e - rcount r w.
Proof.
  intros H. unfold rcount in *. pose proof (u32_range (w - r)) as R1. pose proof (u32_range (e - r)) as R2.
  unfold is_u32 in *. replace (e - w) with ((e - r) - (w - r)) by lia.
  rewrite <- u32_sub_l, <- u32_sub_r. apply u32_small. unfold is_u32. lia.
Qed.

Section Ring.
Context (size : Z).
Hypothesis size_pos : 0 < size < 4294967296.
Hypothesis size_div : (size | 4294967296).

Lemma u32_mod_size x : u32 x mod size = x mod size.
Proof. unfold u32. now apply Z.mod_mod_divide. Qed.

(** The write index in terms of the read index. *)
Lemma ring_index r w : w mod size = (r + rcount r w) mod size.
Proof.
  unfold rcount. rewrite <- u32_mod_size at 1. rewrite <- (u32_mod_size (r + _)), u32_add_r.
  now replace (r + (w - r)) with w by lia.
Qed.

Lemma ring_push buf r w b :
  length buf = Z.to_nat size -> rcount r w < size ->
  ring size (aset buf (w mod size) b) r (u32 (w + 1)) = ring size buf r w ++ [b].
Proof.
  intros Hl Hc. pose proof (rcount_range r w) as Hr. unfold is_u32 in Hr. unfold ring. rewrite rcount_succ by lia.
  replace (Z.to_nat (rcount r w + 1)) with (S (Z.to_nat (rcount r w))) by lia. rewrite zrange_S, fmap_app.
  f_equal.
  - apply list_fmap_ext. intros i j Hj. apply zrange_lookup in Hj as [-> Hj]. cbn.
    rewrite aget_aset_ne; [done|apply Z.mod_pos_bound; lia..|]. rewrite (ring_index r w). intros E.
    assert (Hd : (r + rcount r w - (r + Z.of_nat i)) mod size = 0).
    { rewrite Zminus_mod, E, Z.sub_diag. apply Z.mod_0_l. lia. }
    rewrite Z.mod_small in Hd by lia. lia.
  - cbn. rewrite Z2Nat.id by lia. rewrite <- ring_index. f_equal. apply aget_aset_eq. rewrite Hl.
    pose proof (Z.mod_pos_bound w size ltac:(lia)). lia.
Qed.

Lemma ring_pop buf r w :
  0 < rcount r w -> ring size buf r w = aget 0 buf (r mod size) :: ring size buf (u32 (r + 1)) w.
Proof.
  intros Hc. unfold ring. rewrite rcount_next by done.
  replace (Z.to_nat (rcount r w)) with (S (Z.to_nat (rcount r w - 1))) by lia.
  unfold zrange. cbn [seq fmap list_fmap]. f_equal; [f_equal; f_equal; lia|].
  rewrite <- fmap_S_seq, <- !list_fmap_compose. apply list_fmap_ext. intros i x _. cbn.
  rewrite <- (u32_mod_size (r + _)), <- (u32_mod_size (u32 _ + _)), u32_add_l. do 3 f_equal. lia.
Qed.

(** Taking back the last byte. *)
Lemma ring_unpush buf r w :
  0 < rcount r w -> ring size buf r w = ring size buf r (u32 (w - 1)) ++ [aget 0 buf (u32 (w - 1) mod size)].
Proof.
  intros Hc. unfold ring at 1. replace (Z.to_nat (rcount r w)) with (S (Z.to_nat (rcount r w - 1))) by lia.
  rewrite zrange_S, fmap_app. unfold ring. rewrite rcount_pred by done. f_equal. cbn.
  rewrite (ring_index r (u32 (w - 1))), rcount_pred by done. do 3 f_equal. lia.
Qed.

Lemma ring_app buf r w e :
  rcount r w <= rcount r e -> ring size buf r e = ring size buf r w ++ ring size buf w e.
Proof.
  intros H. pose proof (rcount_add r w e H) as E. pose proof (rcount_range r w) as Hr.
  pose proof (rcount_range w e) as Hw. unfold is_u32 in *.
  apply list_eq_same_length with (Z.to_nat (rcount r e)); [rewrite length_app, !length_ring; lia|apply length_ring|].
  intros i x y Hi. rewrite lookup_app, !length_ring, ring_lookup by lia. intros [= <-].
  destruct (decide (i < Z.to_nat (rcount r w))%nat).
  - rewrite ring_lookup by lia. now intros [= <-].
  - rewrite (lookup_ge_None_2 (ring size buf r w)) by (rewrite length_ring; lia). rewrite ring_lookup by lia.
    intros [= <-]. f_equal.
    rewrite <- (Z.add_mod_idemp_l w), (ring_index r w), Z.add_mod_idemp_l by lia. f_equal. lia.
Qed.

Lemma ring_nil buf r : ring size buf r r = [].
Proof. unfold ring. now rewrite rcount_self. Qed.
End Ring.
