(* ===== verification/Monad.v ===== *)
(** The monad of kernel code: state, [panic], spin locks held by the running
    CPU, wakeups issued, and [sleep] as a resumption.

    A kernel function that the source writes as C statements on some shared
    data of type [S] is a value of [M S A].  It runs atomically until it
    returns, panics or calls [sleep()]; at a [sleep()] it hands the shared
    state to the other threads and resumes from whatever state they leave.
    The spin locks it takes are tracked, so a function that acquires a lock
    twice, releases one it does not hold, or sleeps with a second lock held
    panics here where the source panics ([acquire], [release], [sched]). *)
From S2P Require Import Prelude.

(** * Names of locks and wait channels *)

(** The sleep locks of the kernel: one per buffer, one per cached inode. *)
Inductive slock : Type :=
| SlBuf (b : nat)
| SlInode (i : nat).

(** The spin locks of the kernel. *)
Inductive lock : Type :=
| LPtable | LTick | LKmem | LIcache | LBcache | LFtable | LLog | LIde | LCons
| LPipe (p : Z)
| LSleep (l : slock).

(** What a thread can sleep on: the address passed to [sleep()]. *)
Inductive chan : Type :=
| ChProc (p : nat)
| ChTicks | ChLog | ChInput
| ChPipeRead (p : Z)
| ChPipeWrite (p : Z)
| ChSleep (l : slock)
| ChBuf (b : nat).

#[global] Instance slock_eq_dec : EqDecision slock.
Proof. solve_decision. Defined.
#[global] Instance lock_eq_dec : EqDecision lock.
Proof. solve_decision. Defined.
#[global] Instance chan_eq_dec : EqDecision chan.
Proof. solve_decision. Defined.

(** * Outcomes *)

(** [Sleep ch w s resume]: the thread gives up the CPU in state [s], having
    woken the channels [w]; it sleeps on [ch], or is still runnable or has
    exited when [ch] is [None]; [resume] is what it does when it is next
    scheduled.

    What the running CPU keeps besides the shared state: the spin locks it
    holds and the channels it has woken since it last gave up the CPU. *)
Record ctx : Type := Ctx { held : list lock; woken : list chan }.

Inductive outcome (S A : Type) : Type :=
| Ret (a : A) (c : ctx) (s : S)
| Panic (msg : string)
| Sleep (ch : option chan) (w : list chan) (s : S) (resume : S -> outcome S A)
| OutOfFuel.
Arguments Ret {S A} a c s.
Arguments Panic {S A} msg.
Arguments Sleep {S A} ch w s resume.
Arguments OutOfFuel {S A}.

Definition M (S A : Type) : Type := ctx -> S -> outcome S A.

Fixpoint obind {S A B} (o : outcome S A) (f : A -> M S B) : outcome S B :=
  match o with
  | Ret a c s => f a c s
  | Panic msg => Panic msg
  | Sleep ch w s k => Sleep ch w s (fun s' => obind (k s') f)
  | OutOfFuel => OutOfFuel
  end.

Definition ret {S A} (a : A) : M S A := fun c s => Ret a c s.
Definition bind {S A B} (m : M S A) (f : A -> M S B) : M S B :=
  fun c s => obind (m c s) f.
Definition panic {S A} (msg : string) : M S A := fun _ _ => Panic msg.
Definition get {S} : M S S := fun c s => Ret s c s.
Definition gets {S A} (f : S -> A) : M S A := fun c s => Ret (f s) c s.
Definition put {S} (s : S) : M S unit := fun c _ => Ret tt c s.
Definition modify {S} (f : S -> S) : M S unit := fun c s => Ret tt c (f s).

Declare Scope kernel_scope.
Delimit Scope kernel_scope with kernel.
Notation "'let*' x ':=' m 'in' k" := (bind m (fun x => k))
  (at level 10, x pattern, m at level 100, k at level 200) : kernel_scope.
Notation "m ;;; k" := (bind m (fun _ => k))
  (at level 100, right associativity) : kernel_scope.
Open Scope kernel_scope.

Definition when {S} (b : bool) (m : M S unit) : M S unit :=
  if b then m else ret tt.

(** A [for] loop over the values [l] of its counter. *)
Fixpoint for_ {S B} (l : list B) (f : B -> M S unit) : M S unit :=
  match l with
  | [] => ret tt
  | b :: l' => f b ;;; for_ l' f
  end.

(** A [for] loop whose body may return from the function: [Some a] leaves
    with [a], [None] goes on; [k] is the code after the loop. *)
Fixpoint forb {S A B} (l : list B) (f : B -> M S (option A)) (k : M S A) : M S A :=
  match l with
  | [] => k
  | b :: l' =>
      let* r := f b in
      match r with
      | Some a => ret a
      | None => forb l' f k
      end
  end.

(** Run an operation of a component of the state. *)
Fixpoint ozoom {K S A} (pt : S -> K -> K) (gt : K -> S) (k : K) (o : outcome S A)
  : outcome K A :=
  match o with
  | Ret a c s => Ret a c (pt s k)
  | Panic msg => Panic msg
  | Sleep ch w s res => Sleep ch w (pt s k) (fun k' => ozoom pt gt k' (res (gt k')))
  | OutOfFuel => OutOfFuel
  end.

Definition zoom {K S A} (gt : K -> S) (pt : S -> K -> K) (m : M S A) : M K A :=
  fun c k => ozoom pt gt k (m c (gt k)).

(** * Locks, sleep and wakeup as kernel code sees them *)

(** [acquire(lk)]: panics when this CPU already holds the lock
    (spinlock.c, acquire); waiting for another CPU is not visible here. *)
Definition acquire {S} (lk : lock) : M S unit :=
  fun c s =>
    if decide (lk ∈ held c) then Panic "acquire"
    else Ret tt (Ctx (lk :: held c) (woken c)) s.

(** Remove one lock from the list of held ones. *)
Fixpoint drop_lock (lk : lock) (l : list lock) : list lock :=
  match l with
  | [] => []
  | x :: l' => if decide (x = lk) then l' else x :: drop_lock lk l'
  end.

Definition release {S} (lk : lock) : M S unit :=
  fun c s =>
    if decide (lk ∈ held c) then Ret tt (Ctx (drop_lock lk (held c)) (woken c)) s
    else Panic "release".

(** [wakeup(chan)] takes and releases [ptable.lock] around [wakeup1]. *)
Definition wakeup {S} (ch : chan) : M S unit :=
  acquire LPtable ;;;
  (fun c s => Ret tt (Ctx (held c) (woken c ++ [ch])) s) ;;;
  release LPtable.

(** [sleep(chan, lk)]: take [ptable.lock], drop [lk], and give up the CPU;
    [sched] panics unless [ptable.lock] is then the only lock held.  When the
    thread runs again it holds [lk] and nothing else. *)
Definition sleep {S} (ch : chan) (lk : lock) : M S unit :=
  (if decide (lk = LPtable) then ret tt else acquire LPtable ;;; release lk) ;;;
  fun c s =>
    if decide (LPtable ∈ held c) then
      if decide (length (held c) = 1%nat) then
        Sleep (Some ch) (woken c) s (fun s' => Ret tt (Ctx [lk] []) s')
      else Panic "sched locks"
    else Panic "sched ptable.lock".

(** A loop that sleeps: [step] runs one stretch of the loop that does not
    sleep and says whether it is done or where to sleep next.  [fuel] bounds
    the number of wakeups. *)
Inductive blk (A L : Type) : Type :=
| Done (a : A)
| Block (ch : chan) (lk : lock) (l : L).
Arguments Done {A L} a.
Arguments Block {A L} ch lk l.

Fixpoint blocks {S A L} (fuel : nat) (step : L -> M S (blk A L)) (l : L) : M S A :=
  match fuel with
  | O => fun _ _ => OutOfFuel
  | Datatypes.S n =>
      let* r := step l in
      match r with
      | Done a => ret a
      | Block ch lk l' => sleep ch lk ;;; blocks n step l'
      end
  end.

(** Run a computation that sleeps, resuming it from the given states in
    turn. *)
Fixpoint resume_with {S A} (o : outcome S A) (ss : list S) : outcome S A :=
  match ss, o with
  | s :: ss', Sleep _ _ _ k => resume_with (k s) ss'
  | _, _ => o
  end.

(** The state a stretch returns. *)
Definition final {S A} (d : S) (o : outcome S A) : S := match o with Ret _ _ s => s | _ => d end.

(** * Reasoning: total correctness of a stretch that does not sleep *)

Definition wp {S A} (m : M S A) (Q : A -> ctx -> S -> Prop) (c : ctx) (s : S) : Prop :=
  match m c s with
  | Ret a c' s' => Q a c' s'
  | _ => False
  end.

Section Wp.
Context {S : Type}.

Lemma wp_ret {A} (a : A) (Q : A -> ctx -> S -> Prop) c s : Q a c s -> wp (ret a) Q c s.
Proof. done. Qed.

Lemma wp_bind {A B} (m : M S A) (f : A -> M S B) Q c s :
  wp m (fun a c' s' => wp (f a) Q c' s') c s -> wp (bind m f) Q c s.
Proof. unfold wp, bind. destruct (m c s); done. Qed.

Lemma wp_get (Q : S -> ctx -> S -> Prop) c s : Q s c s -> wp get Q c s.
Proof. done. Qed.

Lemma wp_gets {A} (f : S -> A) (Q : A -> ctx -> S -> Prop) c s :
  Q (f s) c s -> wp (gets f) Q c s.
Proof. done. Qed.

Lemma wp_put s' (Q : unit -> ctx -> S -> Prop) c s : Q tt c s' -> wp (put s') Q c s.
Proof. done. Qed.

Lemma wp_modify f (Q : unit -> ctx -> S -> Prop) c s :
  Q tt c (f s) -> wp (modify f) Q c s.
Proof. done. Qed.

Lemma wp_mono {A} (m : M S A) (Q Q' : A -> ctx -> S -> Prop) c s :
  wp m Q c s -> (forall a c' s', Q a c' s' -> Q' a c' s') -> wp m Q' c s.
Proof. unfold wp. destruct (m c s); eauto. Qed.

Lemma wp_acquire lk (Q : unit -> ctx -> S -> Prop) c s :
  lk ∉ held c -> Q tt (Ctx (lk :: held c) (woken c)) s -> wp (acquire lk) Q c s.
Proof. intros Hn HQ. unfold wp, acquire. destruct (decide _); done. Qed.

Lemma drop_lock_head lk l : drop_lock lk (lk :: l) = l.
Proof. simpl. destruct (decide (lk = lk)); done. Qed.

Lemma wp_release lk l (Q : unit -> ctx -> S -> Prop) c s :
  held c = lk :: l -> Q tt (Ctx l (woken c)) s -> wp (release lk) Q c s.
Proof.
  intros Hh HQ. unfold wp, release. rewrite Hh, drop_lock_head.
  destruct (decide _) as [_|Hn]; [done|]. exfalso. apply Hn. left.
Qed.

Lemma wp_wakeup ch (Q : unit -> ctx -> S -> Prop) c s :
  LPtable ∉ held c -> Q tt (Ctx (held c) (woken c ++ [ch])) s -> wp (wakeup ch) Q c s.
Proof.
  intros Hn HQ. unfold wakeup. apply wp_bind, wp_acquire; [done|].
  apply wp_bind. unfold wp at 1. simpl. eapply wp_release; done.
Qed.

Lemma wp_and {A} (m : M S A) (Q Q' : A -> ctx -> S -> Prop) c s :
  wp m Q c s -> wp m Q' c s -> wp m (fun a c' s' => Q a c' s' /\ Q' a c' s') c s.
Proof. unfold wp. destruct (m c s); auto. Qed.

(** [wp] determines the outcome. *)
Lemma wp_inv {A} (m : M S A) Q c s :
  wp m Q c s -> exists a c' s', m c s = Ret a c' s' /\ Q a c' s'.
Proof. unfold wp. destruct (m c s) eqn:E; [eauto|done..]. Qed.

Lemma wp_ret_inv {A} (m : M S A) Q c s a c' s' : wp m Q c s -> m c s = Ret a c' s' -> Q a c' s'.
Proof. unfold wp. intros H E. now rewrite E in H. Qed.

Lemma wp_zoom {K A} (gt : K -> S) pt (m : M S A) (Q : A -> ctx -> K -> Prop) c k :
  wp m (fun a c' s' => Q a c' (pt s' k)) c (gt k) -> wp (zoom gt pt m) Q c k.
Proof. unfold wp, zoom. destruct (m c (gt k)); done. Qed.

(** A loop keeps an invariant that its body keeps. *)
Lemma wp_for {B} (l : list B) (f : B -> M S unit) (I : list B -> ctx -> S -> Prop)
    (Q : unit -> ctx -> S -> Prop) c s :
  I l c s ->
  (forall b l' c' s', I (b :: l') c' s' -> wp (f b) (fun _ => I l') c' s') ->
  (forall c' s', I [] c' s' -> Q tt c' s') ->
  wp (for_ l f) Q c s.
Proof.
  intros HI Hstep HQ. revert c s HI. induction l as [|b l IH]; intros c s HI; simpl.
  - apply HQ, HI.
  - apply wp_bind. eapply wp_mono; [apply Hstep, HI|]. simpl. intros _ c' s' H'.
    apply IH, H'.
Qed.

(** A loop [for(i = 0; i < n; i++)] with an invariant on the counter. *)
Lemma wp_for_from (n : nat) (f : Z -> M S unit) (I : nat -> ctx -> S -> Prop)
    (Q : unit -> ctx -> S -> Prop) (m k : nat) c s :
  (k + m = n)%nat -> I k c s ->
  (forall k c s, (k < n)%nat -> I k c s -> wp (f (Z.of_nat k)) (fun _ => I (Datatypes.S k)) c s) ->
  (forall c s, I n c s -> Q tt c s) ->
  wp (for_ (Z.of_nat <$> seq k m) f) Q c s.
Proof.
  intros Hn HI Hstep HQ. revert k c s Hn HI. induction m as [|m IH]; intros k c s Hn HI.
  - apply HQ. now replace n with k by lia.
  - cbn [seq fmap list_fmap for_]. apply wp_bind. eapply wp_mono; [apply Hstep; [lia|exact HI]|].
    intros [] c' s' H'. apply IH; [lia|exact H'].
Qed.

Lemma wp_for_zrange (n : nat) (f : Z -> M S unit) (I : nat -> ctx -> S -> Prop)
    (Q : unit -> ctx -> S -> Prop) c s :
  I 0%nat c s ->
  (forall k c s, (k < n)%nat -> I k c s -> wp (f (Z.of_nat k)) (fun _ => I (Datatypes.S k)) c s) ->
  (forall c s, I n c s -> Q tt c s) ->
  wp (for_ (zrange n) f) Q c s.
Proof. intros HI Hstep HQ. eapply (wp_for_from n); eauto. Qed.

End Wp.

(** * Reasoning: an invariant of the shared state under interference

    [keeps I Q o]: whenever the thread gives up the CPU it leaves a state that
    satisfies [I]; if the other threads keep [I] as well, it goes on the same
    way when resumed; and if it returns, [Q] holds.  A panic stops the machine,
    and running out of fuel bounds the number of wakeups only. *)
Fixpoint keeps {S A} (I : S -> Prop) (Q : A -> ctx -> S -> Prop) (o : outcome S A) : Prop :=
  match o with
  | Ret a c s => Q a c s
  | Sleep _ _ s k => I s /\ forall s', I s' -> keeps I Q (k s')
  | Panic _ | OutOfFuel => True
  end.

Section Keeps.
Context {S : Type} (I : S -> Prop).

Lemma keeps_bind {A B} (m : M S A) (f : A -> M S B) Q c s :
  keeps I (fun a c' s' => keeps I Q (f a c' s')) (m c s) -> keeps I Q (bind m f c s).
Proof.
  unfold bind. generalize (m c s). intros o. induction o as [| |ch w s' k IH|]; simpl; auto.
  intros [H1 H2]. split; [done|]. intros s'' H'. apply IH, H2, H'.
Qed.

Lemma keeps_mono {A} (Q Q' : A -> ctx -> S -> Prop) o :
  keeps I Q o -> (forall a c s, Q a c s -> Q' a c s) -> keeps I Q' o.
Proof.
  intros H HQ. induction o as [| |ch w s' k IH|]; simpl in *; auto.
  destruct H as [H1 H2]. split; [done|]. intros s'' H'. apply IH, H2, H'.
Qed.

(** A stretch that does not sleep. *)
Lemma keeps_wp {A} (m : M S A) Q c s : wp m Q c s -> keeps I Q (m c s).
Proof. unfold wp. destruct (m c s); done. Qed.

Lemma keeps_sleep ch lk (Q : unit -> ctx -> S -> Prop) c s :
  I s -> (forall s', I s' -> Q tt (Ctx [lk] []) s') -> keeps I Q (sleep ch lk c s).
Proof.
  intros HI HQ. unfold sleep. apply keeps_bind.
  assert (G : forall c', keeps I Q ((fun c s =>
    if decide (LPtable ∈ held c) then
      if decide (length (held c) = 1%nat) then
        Sleep (Some ch) (woken c) s (fun s' => Ret tt (Ctx [lk] []) s')
      else Panic "sched locks"
    else Panic "sched ptable.lock") c' s)).
  { intros c'. simpl. repeat destruct (decide _); simpl; auto. }
  destruct (decide (lk = LPtable)); [exact (G c)|].
  unfold bind, acquire, release. destruct (decide (LPtable ∈ held c)); [done|].
  simpl obind. destruct (decide (lk ∈ _)); [|done]. exact (G _).
Qed.

Lemma keeps_blocks {A L} fuel (step : L -> M S (blk A L)) (J : L -> Prop) Q l :
  J l ->
  (forall l c s, J l -> I s -> keeps I (fun r c' s' => I s' /\
     match r with Done a => Q a c' s' | Block _ _ l' => J l' end) (step l c s)) ->
  forall c s, I s -> keeps I Q (blocks fuel step l c s).
Proof.
  intros HJ Hstep. revert l HJ. induction fuel as [|n IH]; intros l HJ c s HI; [done|]. simpl.
  apply keeps_bind. eapply keeps_mono; [apply Hstep; eassumption|]. simpl.
  intros [a|ch lk l'] c' s' [HI' H']; [exact H'|]. apply keeps_bind, keeps_sleep; [done|].
  intros s'' H''. apply IH; done.
Qed.
End Keeps.

(** A lock is not among those held. *)
Ltac not_held :=
  repeat (apply not_elem_of_cons; split; [congruence|]);
  first [assumption | apply not_elem_of_nil | set_solver].

(** Step through straight-line kernel code in the goal [wp m Q c s]. *)
Ltac wp_step :=
  lazymatch goal with
  | |- wp (bind _ _) _ _ _ => apply wp_bind
  | |- wp (ret _) _ _ _ => apply wp_ret
  | |- wp get _ _ _ => apply wp_get
  | |- wp (gets _) _ _ _ => apply wp_gets
  | |- wp (put _) _ _ _ => apply wp_put
  | |- wp (modify _) _ _ _ => apply wp_modify
  | |- wp (acquire _) _ _ _ => apply wp_acquire; [try not_held|]
  | |- wp (release _) _ _ _ => eapply wp_release; [reflexivity|]
  | |- wp (wakeup _) _ _ _ => apply wp_wakeup; [try not_held|]
  | |- wp (when _ _) _ _ _ => unfold when
  end; cbn beta iota.

Ltac wp_steps := repeat (wp_step; simpl held; simpl woken).
