(* ===== verification/Kbd.v ===== *)
(** kbd.c and kbd.h: the keyboard's scan codes and the characters they stand
    for. *)
From S2P Require Import Prelude Monad Digits.

(** * kbd.h *)

Definition NO : Z := 0.
Definition SHIFT : Z := bit 0.
Definition CTL : Z := bit 1.
Definition ALT : Z := bit 2.
Definition CAPSLOCK : Z := bit 3.
Definition NUMLOCK : Z := bit 4.
Definition SCROLLLOCK : Z := bit 5.
Definition E0ESC : Z := bit 6.

Definition KEY_HOME : Z := 0xE0.
Definition KEY_END : Z := 0xE1.
Definition KEY_UP : Z := 0xE2.
Definition KEY_DN : Z := 0xE3.
Definition KEY_LF : Z := 0xE4.
Definition KEY_RT : Z := 0xE5.
Definition KEY_PGUP : Z := 0xE6.
Definition KEY_PGDN : Z := 0xE7.
Definition KEY_INS : Z := 0xE8.
Definition KEY_DEL : Z := 0xE9.

(** An array of 256 [uchar] given by its first elements and by designated
    ones. *)
Definition table (first : list Z) (designated : list (Z * Z)) : list Z :=
  fold_left (fun t d => aset t (fst d) (u8 (snd d))) designated
    (first ++ replicate (256 - length first) NO).

Definition shiftcode : list Z :=
  table [] [(0x1D, CTL); (0x2A, SHIFT); (0x36, SHIFT); (0x38, ALT); (0x9D, CTL); (0xB8, ALT)].

Definition togglecode : list Z := table [] [(0x3A, CAPSLOCK); (0x45, NUMLOCK); (0x46, SCROLLLOCK)].

(** The keys with an E0 prefix other than Enter and slash of the keypad. *)
Definition extended : list (Z * Z) :=
  [(0xC8, KEY_UP); (0xD0, KEY_DN); (0xC9, KEY_PGUP); (0xD1, KEY_PGDN); (0xCB, KEY_LF); (0xCD, KEY_RT);
   (0x97, KEY_HOME); (0xCF, KEY_END); (0xD2, KEY_INS); (0xD3, KEY_DEL)].

(** Rows 0x38 to 0x57 of [normalmap] and [shiftmap]. *)
Definition keypad : list Z :=
  [NO; 32; NO; NO; NO; NO; NO; NO;
   NO; NO; NO; NO; NO; NO; NO] ++ bytes "789-456+1230." ++ [NO; NO; NO; NO].

Definition normalmap : list Z :=
  table ([NO; 0x1B] ++ bytes "1234567890-=" ++ [8; 9] ++
         bytes "qwertyuiop[]" ++ [10; NO] ++ bytes "asdfghjkl;'`" ++ [NO] ++
         bytes "\zxcvbnm,./" ++ [NO; 42] ++ keypad)
    ([(0x9C, 10); (0xB5, 47)] ++ extended).

Definition shiftmap : list Z :=
  table ([NO; 27] ++ bytes "!@#$%^&*()_+" ++ [8; 9] ++
         bytes "QWERTYUIOP{}" ++ [10; NO] ++ bytes "ASDFGHJKL:" ++ [34; 126; NO] ++
         bytes "|ZXCVBNM<>?" ++ [NO; 42] ++ keypad)
    ([(0x9C, 10); (0xB5, 47)] ++ extended).

(** [C('A')] is Control-A. *)
Definition C (x : Z) : Z := x - 64.

Definition ctlmap : list Z :=
  table (replicate 16 NO ++ (C <$> bytes "QWERTYUIOP") ++ [NO; NO; 13; NO] ++ (C <$> bytes "ASDFGHJKL") ++
         [NO; NO; NO; NO] ++ (C <$> bytes "\ZXCVBNM") ++ [NO; NO; u8 (C 47); NO; NO])
    ([(0x9C, 13); (0xB5, C 47)] ++ extended).

(** * kbd.c *)

(** The scan codes the controller has ready (status bit [KBS_DIB] is set while
    there are any) and the static variable [shift] of [kbdgetc]. *)
Record kbd : Type := Kbd { k_data : list Z; k_shift : Z }.

Definition charcode (i : Z) : list Z :=
  if i =? 0 then normalmap else if i =? SHIFT then shiftmap else ctlmap.

(** The character of a scan code, and the next value of [shift]. *)
Definition kbd_key (shift data : Z) : Z * Z :=
  if data =? 0xE0 then (Z.lor shift E0ESC, 0)
  else if negb (Z.land data 0x80 =? 0) then
    let data := if negb (Z.land shift E0ESC =? 0) then data else Z.land data 0x7F in
    (Z.land shift (Z.lnot (Z.lor (aget 0 shiftcode data) E0ESC)), 0)
  else
    let '(shift, data) :=
      if negb (Z.land shift E0ESC =? 0) then (Z.land shift (Z.lnot E0ESC), Z.lor data 0x80)
      else (shift, data) in
    let shift := Z.lor shift (aget 0 shiftcode data) in
    let shift := Z.lxor shift (aget 0 togglecode data) in
    let c := aget 0 (charcode (Z.land shift (Z.lor CTL SHIFT))) data in
    let c :=
      if negb (Z.land shift CAPSLOCK =? 0) then
        if (97 <=? c) && (c <=? 122) then c + (65 - 97)
        else if (65 <=? c) && (c <=? 90) then c + (97 - 65)
        else c
      else c in
    (shift, c).

Definition kbdgetc : M kbd Z :=
  let* k := get in
  match k_data k with
  | [] => ret (-1)
  | data :: rest =>
      let '(shift, c) := kbd_key (k_shift k) data in
      put (Kbd rest shift) ;;;
      ret c
  end.

(** [shift] holds the modifier keys that are down, the locks, and whether the
    last code was the prefix E0: a byte below 0x80, so [charcode] has an entry
    for every value of its low bits, and what is returned is a character. *)
Definition shift_ok (s : Z) : bool := (0 <=? s) && (s <? 128).

Lemma kbd_key_ok_all :
  forallb (fun s => forallb (fun d => let '(s', c) := kbd_key s d in shift_ok s' && (0 <=? c) && (c <? 256))
    (zrange 256)) (zrange 128) = true.
Proof. vm_compute. reflexivity. Qed.

Lemma kbd_key_ok s d : shift_ok s = true -> is_u8 d ->
  shift_ok (fst (kbd_key s d)) = true /\ is_u8 (snd (kbd_key s d)).
Proof.
  intros Hs Hd. pose proof kbd_key_ok_all as H. rewrite forallb_forall in H.
  specialize (H s). rewrite <- list_elem_of_In, elem_of_zrange in H. unfold shift_ok in Hs. zbool.
  specialize (H ltac:(lia)). rewrite forallb_forall in H.
  specialize (H d). rewrite <- list_elem_of_In, elem_of_zrange in H. specialize (H Hd).
  destruct (kbd_key s d) as [s' c]. cbn. zbool. split; [done|]. unfold is_u8. lia.
Qed.
