(* ===== verification/Console.v ===== *)
(** console.c and uart.c: formatted output to the screen and the serial line,
    and the line discipline between the keyboard and readers of the console. *)
From S2P Require Import Prelude Monad Digits Kbd.

(** The screen has 25 rows of 80 cells; [crt] is its memory, one half word per
    cell, and [cr_pos] the cursor of the CRT controller (its registers 14 and
    15). *)
Record cga : Type := Cga { cr_mem : list Z; cr_pos : Z }.

(** The serial port: whether there is one ([uart]), the bytes sent, and the
    bytes received and not read yet. *)
Record serial : Type := Serial { uart : bool; sent : list Z; received : list Z }.

(** [struct input]. *)
Definition INPUT_BUF : Z := 128.
Record input : Type := Input { in_buf : list Z; in_r : Z; in_w : Z; in_e : Z }.

(** The static data of console.c with its devices. *)
Record console : Type := Console {
  panicked : bool;
  locking : bool;
  co_in : input;
  co_cga : cga;
  co_uart : serial;
  co_kbd : kbd
}.
Definition set_in v s := Console (panicked s) (locking s) v (co_cga s) (co_uart s) (co_kbd s).
Definition set_cga v s := Console (panicked s) (locking s) (co_in s) v (co_uart s) (co_kbd s).
Definition set_uart v s := Console (panicked s) (locking s) (co_in s) (co_cga s) v (co_kbd s).
Definition set_kbd v s := Console (panicked s) (locking s) (co_in s) (co_cga s) (co_uart s) v.
Definition set_panicked v s := Console v (locking s) (co_in s) (co_cga s) (co_uart s) (co_kbd s).
Definition set_locking v s := Console (panicked s) v (co_in s) (co_cga s) (co_uart s) (co_kbd s).
Definition set_r v i := Input (in_buf i) v (in_w i) (in_e i).
Definition set_w v i := Input (in_buf i) (in_r i) v (in_e i).
Definition set_e v i := Input (in_buf i) (in_r i) (in_w i) v.
Definition set_buf v i := Input v (in_r i) (in_w i) (in_e i).
Definition inmod (f : input -> input) : M console unit := modify (fun s => set_in (f (co_in s)) s).

(** * uart.c *)

(** [uartputc]: the port is written when it is ready or after 128 tries. *)
Definition uartputc (c : Z) : M console unit :=
  let* u := gets co_uart in
  when (uart u) (modify (set_uart (Serial true (sent u ++ [u8 c]) (received u)))).

Definition uartgetc : M console Z :=
  let* u := gets co_uart in
  if negb (uart u) then ret (-1)
  else
    match received u with
    | [] => ret (-1)
    | b :: rest => modify (set_uart (Serial true (sent u) rest)) ;;; ret b
    end.

(** [present]: the line status is not 0xFF.  The two reads that follow
    acknowledge what is pending, so a byte already received is lost. *)
Definition uartinit (present : bool) : M console unit :=
  when present (
    modify (fun s => set_uart (Serial true (sent (co_uart s)) (drop 1 (received (co_uart s)))) s) ;;;
    for_ (bytes "xv6..." ++ [10]) uartputc).

(** * The screen *)

Definition BACKSPACE : Z := 0x100.

(** [memmove(crt, crt + 80, 2*23*80)] and [memset(crt + pos, 0, 2*(24*80 - pos))]. *)
Definition scroll_up (crt : list Z) : list Z :=
  take (23 * 80) (drop 80 crt) ++ drop (23 * 80) crt.
Definition clear_from (pos : Z) (crt : list Z) : list Z :=
  take (Z.to_nat pos) crt ++ replicate (Z.to_nat (24 * 80 - pos)) 0 ++ drop (Z.to_nat (24 * 80)) crt.

Definition cgaputc (c : Z) : M console unit :=
  let* g := gets co_cga in
  let pos := cr_pos g in
  let '(crt, pos) :=
    if c =? 10 then (cr_mem g, pos + (80 - pos mod 80))
    else if c =? BACKSPACE then (cr_mem g, if 0 <? pos then pos - 1 else pos)
    else (aset (cr_mem g) pos (Z.lor (Z.land c 0xff) 0x0700), pos + 1) in
  if (pos <? 0) || (25 * 80 <? pos) then panic "pos under/overflow"
  else
    let '(crt, pos) :=
      if 24 <=? pos / 80 then (clear_from (pos - 80) (scroll_up crt), pos - 80) else (crt, pos) in
    modify (set_cga (Cga (aset crt pos (Z.lor 32 0x0700)) pos)).

(** When another CPU has panicked this one stops here for ever. *)
Definition consputc (c : Z) : M console unit :=
  let* p := gets panicked in
  if p : bool then fun _ _ => OutOfFuel
  else
    (if c =? BACKSPACE then uartputc 8 ;;; uartputc 32 ;;; uartputc 8
     else uartputc c) ;;;
    cgaputc c.

(** * Formatted output *)

Definition digits : list Z := bytes "0123456789abcdef".

Definition printint (xx base : Z) (sign : bool) : M console unit :=
  for_ (printint_out digits xx base sign) consputc.

(** The loop of [cprintf] over the bytes of the format; [args] are the words
    after [fmt] on the stack (absent ones read as 0), [str] the string at an
    address. *)
Section Format.
Variable str : Z -> list Z.

Fixpoint cprintf_from (fmt : list Z) (args : list Z) {struct fmt} : M console unit :=
  match fmt with
  | [] => ret tt
  | c :: fmt =>
      if negb (c =? 37) then consputc c ;;; cprintf_from fmt args
      else
        match fmt with
        | [] => ret tt
        | c :: fmt =>
            let arg := default 0 (head args) in
            if c =? 100 then printint (s32 arg) 10 true ;;; cprintf_from fmt (tail args)
            else if (c =? 120) || (c =? 112) then printint (s32 arg) 16 false ;;; cprintf_from fmt (tail args)
            else if c =? 115 then
              for_ (if arg =? 0 then bytes "(null)" else str arg) consputc ;;;
              cprintf_from fmt (tail args)
            else if c =? 37 then consputc 37 ;;; cprintf_from fmt args
            else consputc 37 ;;; consputc c ;;; cprintf_from fmt args
        end
  end.

Definition cprintf (fmt : option (list Z)) (args : list Z) : M console unit :=
  let* lk := gets locking in
  when lk (acquire LCons) ;;;
  match fmt with
  | None => panic "null fmt"
  | Some fmt => cprintf_from fmt args ;;; when lk (release LCons)
  end.
End Format.

(** [panic(s)] up to its endless loop.  [pcs] are the ten words that
    [getcallerpcs] finds; [s] is a format without arguments on the stack that
    the source could name. *)
Definition panic_print (lapicid : Z) (s pcs : list Z) : M console unit :=
  modify (set_locking false) ;;;
  cprintf (fun _ => []) (Some (bytes "lapicid %d: panic: ")) [lapicid] ;;;
  cprintf (fun _ => []) (Some s) [] ;;;
  cprintf (fun _ => []) (Some [10]) [] ;;;
  for_ pcs (fun pc => cprintf (fun _ => []) (Some (bytes " %p")) [pc]) ;;;
  modify (set_panicked true).

(** * Input *)

(** The loop of Control-U; the buffer holds at most [INPUT_BUF] characters. *)
Fixpoint kill_line (n : nat) : M console unit :=
  let* i := gets co_in in
  if negb (in_e i =? in_w i) && negb (aget 0 (in_buf i) (u32 (in_e i - 1) mod INPUT_BUF) =? 10) then
    match n with
    | O => fun _ _ => OutOfFuel
    | S n' =>
        inmod (fun i => set_e (u32 (in_e i - 1)) i) ;;;
        consputc BACKSPACE ;;;
        kill_line n'
    end
  else ret tt.

(** One character typed, the [switch] of [consoleintr]: whether to list the
    processes. *)
Definition console_key (c : Z) : M console bool :=
  if c =? C 80 then ret true
  else if c =? C 85 then kill_line (Z.to_nat INPUT_BUF) ;;; ret false
  else if (c =? C 72) || (c =? 127) then
    let* i := gets co_in in
    when (negb (in_e i =? in_w i)) (
      inmod (fun i => set_e (u32 (in_e i - 1)) i) ;;;
      consputc BACKSPACE) ;;;
    ret false
  else
    let* i := gets co_in in
    when (negb (c =? 0) && (u32 (in_e i - in_r i) <? INPUT_BUF)) (
      let c := if c =? 13 then 10 else c in
      inmod (fun i => set_buf (aset (in_buf i) (in_e i mod INPUT_BUF) (u8 c)) i) ;;;
      inmod (fun i => set_e (u32 (in_e i + 1)) i) ;;;
      consputc c ;;;
      let* i := gets co_in in
      when ((c =? 10) || (c =? C 68) || (in_e i =? u32 (in_r i + INPUT_BUF))) (
        inmod (fun i => set_w (in_e i) i) ;;;
        wakeup ChInput)) ;;;
    ret false.

(** The loop of [consoleintr]; a device has a finite number of characters
    ready. *)
Fixpoint consoleintr_from (n : nat) (getc : M console Z) (doprocdump : bool) : M console bool :=
  let* c := getc in
  if 0 <=? c then
    match n with
    | O => fun _ _ => OutOfFuel
    | S n' =>
        let* d := console_key c in
        consoleintr_from n' getc (doprocdump || d)
    end
  else ret doprocdump.

(** The value says whether the caller goes on with [procdump()]. *)
Definition consoleintr (n : nat) (getc : M console Z) : M console bool :=
  acquire LCons ;;;
  let* d := consoleintr_from n getc false in
  release LCons ;;;
  ret d.

Definition kbdintr : M console bool :=
  let* k := gets co_kbd in
  consoleintr (length (k_data k)) (zoom co_kbd set_kbd kbdgetc).

Definition uartintr : M console bool :=
  let* u := gets co_uart in
  consoleintr (length (received u)) uartgetc.

(** * Reading and writing *)

(** The console is part of a larger state, in which the reader's memory and
    whether it was killed are found. *)
Class HasConsole (K : Type) : Type := incons : forall {A}, M console A -> M K A.
#[global] Instance console_self : HasConsole console := fun A m => m.

Section Device.
Context {K : Type} `{HasConsole K}.
Variable killed : M K bool.

(** [while(input.r == input.w)]: true when the process was killed. *)
Fixpoint wait_input (fuel : nat) : M K bool :=
  let* i := incons (gets co_in) in
  if in_r i =? in_w i then
    let* k := killed in
    if k : bool then ret true
    else
      match fuel with
      | O => fun _ _ => OutOfFuel
      | S f => incons (sleep ChInput LCons) ;;; wait_input f
      end
  else ret false.

(** The loop of [consoleread] with [n] bytes to go of [target]; [put l k bs] is
    a store at [dst + k].  The value is [None] for a killed reader, else the
    count that remains. *)
Fixpoint consoleread_from {L} (fuel n : nat) (target : Z) (put : L -> Z -> list Z -> M K L) (l : L)
  : M K (L * option Z) :=
  match n with
  | O => ret (l, Some 0)
  | S n' =>
      let rest := Z.of_nat n in
      let* k := wait_input fuel in
      if k : bool then ret (l, None)
      else
        let* i := incons (gets co_in) in
        let c := aget 0 (in_buf i) (in_r i mod INPUT_BUF) in
        incons (inmod (fun i => set_r (u32 (in_r i + 1)) i)) ;;;
        if c =? C 68 then
          when (rest <? target) (incons (inmod (fun i => set_r (u32 (in_r i - 1)) i))) ;;;
          ret (l, Some rest)
        else
          let* l := put l (target - rest) [c] in
          if c =? 10 then ret (l, Some (rest - 1))
          else consoleread_from fuel n' target put l
  end.

(** [consoleread] between [iunlock] and [ilock]. *)
Definition consoleread_locked {L} (fuel : nat) (put : L -> Z -> list Z -> M K L) (l : L) (n : Z) : M K (L * Z) :=
  incons (acquire LCons) ;;;
  let* (l, r) := consoleread_from fuel (Z.to_nat n) n put l in
  incons (release LCons) ;;;
  ret (l, match r with Some rest => n - (if 0 <? n then rest else n) | None => -1 end).

(** [consolewrite] between [iunlock] and [ilock]; [fetch i 1] reads [buf[i]]. *)
Definition consolewrite_locked (fetch : Z -> Z -> M K (list Z)) (n : Z) : M K Z :=
  incons (acquire LCons) ;;;
  for_ (zrange (Z.to_nat n)) (fun i =>
    let* bs := fetch i 1 in
    incons (consputc (aget 0 bs 0))) ;;;
  incons (release LCons) ;;;
  ret n.
End Device.

Definition consoleinit : M console unit := modify (set_locking true).
