(* ===== verification/ConsoleProps.v ===== *)
(** The console's line discipline against a two-queue specification: characters
    typed go to an editing buffer, and whole lines from there to a queue of
    committed characters, from which readers take them. *)
From S2P Require Import Prelude Monad Digits Ring Kbd Console.

(** * Output *)

Definition cga_ok (g : cga) : Prop := length (cr_mem g) = 2000%nat /\ 0 <= cr_pos g < 1920.

(** What a character sends on the serial line. *)
Definition echo (c : Z) : list Z := if c =? BACKSPACE then [8; 32; 8] else [u8 c].
Definition sending (bs : list Z) (s : console) : console :=
  if uart (co_uart s) then set_uart (Serial true (sent (co_uart s) ++ bs) (received (co_uart s))) s else s.

Lemma wp_uartputc b (Q : unit -> ctx -> console -> Prop) c s :
  Q tt c (sending [u8 b] s) -> wp (uartputc b) Q c s.
Proof.
  intros HQ. unfold uartputc, sending in *. apply wp_bind, wp_gets. unfold when.
  destruct (uart (co_uart s)); [now apply wp_modify|now apply wp_ret].
Qed.

Lemma sending_app a b s : sending b (sending a s) = sending (a ++ b) s.
Proof.
  unfold sending. destruct s as [p l i g [u x y] k]. cbn. destruct u; cbn; [|done]. now rewrite <- app_assoc.
Qed.
Lemma sending_cga bs s : co_cga (sending bs s) = co_cga s.
Proof. unfold sending. now destruct (uart (co_uart s)). Qed.
Lemma sending_in bs s : co_in (sending bs s) = co_in s.
Proof. unfold sending. now destruct (uart (co_uart s)). Qed.
Lemma sending_panicked bs s : panicked (sending bs s) = panicked s.
Proof. unfold sending. now destruct (uart (co_uart s)). Qed.

Lemma length_scroll crt : length crt = 2000%nat -> length (scroll_up crt) = 2000%nat.
Proof. intros H. unfold scroll_up. rewrite length_app, length_take, !length_drop. lia. Qed.
Lemma length_clear pos crt : 0 <= pos <= 1920 -> length crt = 2000%nat -> length (clear_from pos crt) = 2000%nat.
Proof.
  intros Hp H. unfold clear_from. rewrite !length_app, length_take, length_replicate, length_drop. lia.
Qed.

(** The cursor stays on the screen, whatever is printed. *)
Lemma wp_cgaputc ch (Q : unit -> ctx -> console -> Prop) c s :
  cga_ok (co_cga s) -> (forall g, cga_ok g -> Q tt c (set_cga g s)) -> wp (cgaputc ch) Q c s.
Proof.
  intros [Hl Hp] HQ. unfold cgaputc. apply wp_bind, wp_gets. set (g := co_cga s) in *.
  assert (Hmv : exists crt pos, (if ch =? 10 then (cr_mem g, cr_pos g + (80 - cr_pos g mod 80))
    else if ch =? BACKSPACE then (cr_mem g, if 0 <? cr_pos g then cr_pos g - 1 else cr_pos g)
    else (aset (cr_mem g) (cr_pos g) (Z.lor (Z.land ch 0xff) 0x0700), cr_pos g + 1)) = (crt, pos) /\
    length crt = 2000%nat /\ 0 <= pos <= 1920).
  { destruct (ch =? 10); [|destruct (ch =? BACKSPACE)]; do 2 eexists; (split; [reflexivity|]).
    - split; [done|]. pose proof (Z.mod_pos_bound (cr_pos g) 80 ltac:(lia)).
      pose proof (Z.div_mod (cr_pos g) 80 ltac:(lia)).
      assert (cr_pos g / 80 < 24) by (apply Z.div_lt_upper_bound; lia). lia.
    - split; [done|]. destruct (Z.ltb_spec 0 (cr_pos g)); lia.
    - rewrite length_aset. split; [done|lia]. }
  destruct Hmv as (crt & pos & -> & Hcl & Hcp).
  destruct (Z.ltb_spec pos 0); [lia|]. destruct (Z.ltb_spec (25 * 80) pos); [lia|]. cbn [orb].
  destruct (Z.leb_spec 24 (pos / 80)) as [H24|H24].
  - assert (1920 <= pos) by (pose proof (Z.mul_div_le pos 80 ltac:(lia)); lia).
    apply wp_modify, HQ. split; cbn [cr_mem cr_pos]; [|lia]. rewrite length_aset.
    apply length_clear; [lia|]. now apply length_scroll.
  - assert (pos <> 1920) by (intros ->; now cbn in H24).
    apply wp_modify, HQ. split; cbn [cr_mem cr_pos]; [now rewrite length_aset|lia].
Qed.

Lemma wp_consputc ch (Q : unit -> ctx -> console -> Prop) c s :
  panicked s = false -> cga_ok (co_cga s) ->
  (forall g, cga_ok g -> Q tt c (set_cga g (sending (echo ch) s))) -> wp (consputc ch) Q c s.
Proof.
  intros Hp Hg HQ. unfold consputc, echo in *. apply wp_bind, wp_gets. rewrite Hp. apply wp_bind.
  destruct (ch =? BACKSPACE).
  - apply wp_bind, wp_uartputc, wp_bind, wp_uartputc, wp_uartputc. rewrite !sending_app.
    apply wp_cgaputc; [now rewrite sending_cga|done].
  - apply wp_uartputc, wp_cgaputc; [now rewrite sending_cga|done].
Qed.

(** Printing a list of characters. *)
Lemma sending_set_cga bs g s : sending bs (set_cga g s) = set_cga g (sending bs s).
Proof. unfold sending. cbn. now destruct (uart (co_uart s)). Qed.

Lemma wp_consputs l (Q : unit -> ctx -> console -> Prop) c s :
  panicked s = false -> cga_ok (co_cga s) -> (BACKSPACE ∉ l) ->
  (forall g, cga_ok g -> Q tt c (set_cga g (sending (u8 <$> l) s))) -> wp (for_ l consputc) Q c s.
Proof.
  revert s. induction l as [|ch l IH]; intros s Hp Hg Hn HQ; cbn [for_].
  - apply wp_ret. replace s with (set_cga (co_cga s) (sending [] s)); [now apply HQ|].
    unfold sending. destruct s as [p k i g [u x y] kb]. cbn. destruct u; cbn; [now rewrite app_nil_r|done].
  - apply wp_bind, wp_consputc; [done..|]. intros g Hg'. apply IH; [cbn; now rewrite sending_panicked|done|lmem|].
    intros g' Hg2. rewrite sending_set_cga, sending_app. unfold echo.
    destruct (Z.eqb_spec ch BACKSPACE) as [->|]; [exfalso; apply Hn; constructor|].
    destruct s as [p k i g0 u kb]. unfold sending in *. cbn in *.
    specialize (HQ g' Hg2). now destruct (uart u).
Qed.

Lemma digits_nodup : NoDup digits.
Proof. apply (bool_decide_unpack _). vm_compute. exact I. Qed.

(** The bytes printint puts out are digits and the sign. *)
Lemma printint_out_bytes xx base sign c :
  base = 10 \/ base = 16 -> c ∈ printint_out digits xx base sign -> 0 <= c < 256.
Proof.
  intros Hb. unfold printint_out. rewrite elem_of_reverse, elem_of_app. intros [H|H].
  - apply digit_loop_elems in H; [|destruct Hb as [-> | ->]; cbn; lia].
    assert (Hall : Forall (fun c => 0 <= c < 256) digits) by (apply (bool_decide_unpack _); vm_compute; exact I).
    rewrite Forall_forall in Hall. now apply Hall.
  - destruct (sign && _); [apply list_elem_of_singleton in H; lia|now apply elem_of_nil in H].
Qed.

(** Printint of the kernel's console in base 10 or 16 never panics and
    sends a numeral that reads back as the number, signed or unsigned as asked,
    the most negative number included; the numeral has at most 11 characters, so
    the 16-byte buffer of the digit loop is never overrun, and the cursor stays
    on the screen. *)
Theorem printint_numeral xx base sign c s :
  base = 10 \/ base = 16 -> -2147483648 <= xx < 2147483648 ->
  panicked s = false -> cga_ok (co_cga s) -> uart (co_uart s) = true ->
  wp (printint xx base sign)
    (fun _ c' s' => c' = c /\ cga_ok (co_cga s') /\ exists out,
       sent (co_uart s') = sent (co_uart s) ++ out /\
       parse_int digits base out = (if sign then xx else u32 xx) /\
       (length out <= 11)%nat) c s.
Proof.
  intros Hb Hx Hp Hg Hu.
  destruct (printint_parse digits xx base sign) as [Hv Hl];
    [exact digits_nodup|destruct Hb as [-> | ->]; cbn; lia|apply (bool_decide_unpack _); vm_compute; exact I|done|].
  assert (Hby : forall c, c ∈ printint_out digits xx base sign -> 0 <= c < 256)
    by (intros ?; now apply printint_out_bytes).
  unfold printint. apply wp_consputs; [done..|intros H%Hby; unfold BACKSPACE in H; lia|].
  intros g Hg'. split; [done|]. split; [done|]. exists (printint_out digits xx base sign). split; [|done].
  replace (u8 <$> printint_out digits xx base sign) with (printint_out digits xx base sign).
  { unfold sending. rewrite Hu. done. }
  symmetry. rewrite <- (list_fmap_id (printint_out _ _ _ _)) at 2. apply list_fmap_ext.
  intros i x Hi%list_elem_of_lookup_2%Hby. unfold u8, id. now rewrite Z.mod_small.
Qed.

(** * Input *)

Record input_ok (i : input) : Prop := {
  io_len : length (in_buf i) = 128%nat;
  io_r : is_u32 (in_r i);
  io_w : is_u32 (in_w i);
  io_e : is_u32 (in_e i);
  io_rw : rcount (in_r i) (in_w i) <= rcount (in_r i) (in_e i);
  io_re : rcount (in_r i) (in_e i) <= INPUT_BUF
}.

(** The characters committed for readers, and the line being edited. *)
Definition ready (i : input) : list Z := ring INPUT_BUF (in_buf i) (in_r i) (in_w i).
Definition editing (i : input) : list Z := ring INPUT_BUF (in_buf i) (in_w i) (in_e i).

Record con_ok (s : console) : Prop := {
  ok_run : panicked s = false;
  ok_cga : cga_ok (co_cga s);
  ok_in : input_ok (co_in s);
  ok_line : 10 ∉ editing (co_in s)
}.

(** What a character typed does to the two queues, and whether it wakes
    readers. *)
Definition commits (q ed : list Z) (c : Z) : bool :=
  (c =? 10) || (c =? C 68) || (Z.of_nat (length q + length ed) =? INPUT_BUF).
Definition type_char (a : list Z * list Z) (c : Z) : list Z * list Z :=
  let '(q, ed) := a in
  if c =? C 80 then (q, ed)
  else if c =? C 85 then (q, [])
  else if (c =? C 72) || (c =? 127) then (q, take (length ed - 1) ed)
  else if (c =? 0) || (INPUT_BUF <=? Z.of_nat (length q + length ed)) then (q, ed)
  else
    let c := if c =? 13 then 10 else c in
    if commits q (ed ++ [c]) c then (q ++ ed ++ [c], []) else (q, ed ++ [c]).

Lemma INPUT_BUF_pos : 0 < INPUT_BUF < 4294967296.
Proof. unfold INPUT_BUF. lia. Qed.
Lemma INPUT_BUF_div : (INPUT_BUF | 4294967296).
Proof. now exists 33554432. Qed.

Lemma length_queues i : input_ok i ->
  Z.of_nat (length (ready i) + length (editing i)) = rcount (in_r i) (in_e i).
Proof.
  intros [H1 H2 H3 H4 H5 H6]. unfold ready, editing. rewrite !length_ring, (rcount_add (in_r i) (in_w i)) by done.
  pose proof (rcount_range (in_r i) (in_w i)). pose proof (rcount_range (in_r i) (in_e i)). unfold is_u32 in *. lia.
Qed.

(** Taking back the last character of the line. *)
Lemma erase_ok i : input_ok i -> in_e i <> in_w i ->
  let i' := set_e (u32 (in_e i - 1)) i in
  input_ok i' /\ ready i' = ready i /\
  editing i = editing i' ++ [aget 0 (in_buf i) (u32 (in_e i - 1) mod INPUT_BUF)].
Proof.
  intros Hok Hne i'. pose proof Hok as [H1 H2 H3 H4 H5 H6].
  assert (Hc : 0 < rcount (in_w i) (in_e i)).
  { pose proof (rcount_zero (in_w i) (in_e i) H3 H4) as E. pose proof (rcount_range (in_w i) (in_e i)) as R.
    unfold is_u32 in R. destruct (Z.eqb_spec (rcount (in_w i) (in_e i)) 0); [|lia]. zbool. congruence. }
  pose proof (rcount_add _ _ _ H5) as Ha.
  assert (Hr : rcount (in_r i) (u32 (in_e i - 1)) = rcount (in_r i) (in_e i) - 1).
  { apply rcount_pred. pose proof (rcount_range (in_r i) (in_w i)) as R. unfold is_u32 in R. lia. }
  split; [|split; [done|]].
  - split; cbn; try done; [apply u32_range|lia|lia].
  - apply ring_unpush; auto using INPUT_BUF_pos, INPUT_BUF_div.
Qed.

(** What the code leaves alone besides the input buffer: the devices' pending
    characters; the cursor stays on the screen. *)
Record echoed (s s' : console) : Prop := {
  ec_kbd : co_kbd s' = co_kbd s;
  ec_uart : uart (co_uart s') = uart (co_uart s);
  ec_received : received (co_uart s') = received (co_uart s);
  ec_run : panicked s' = panicked s;
  ec_cga : cga_ok (co_cga s')
}.

Lemma echoed_refl s : cga_ok (co_cga s) -> echoed s s.
Proof. now split. Qed.
Lemma echoed_trans s1 s2 s3 : echoed s1 s2 -> echoed s2 s3 -> echoed s1 s3.
Proof. intros [] []. split; congruence || done. Qed.
Lemma echoed_in s s' f : echoed s s' -> echoed s (set_in f s').
Proof. intros []. now split. Qed.

Lemma wp_echo ch (Q : unit -> ctx -> console -> Prop) c s :
  panicked s = false -> cga_ok (co_cga s) ->
  (forall s', echoed s s' -> co_in s' = co_in s -> Q tt c s') -> wp (consputc ch) Q c s.
Proof.
  intros Hp Hg HQ. apply wp_consputc; [done..|]. intros g Hg'. apply HQ; [|cbn; apply sending_in].
  unfold sending. destruct (uart (co_uart s)) eqn:E; split; cbn; congruence || done.
Qed.

(** Taking back a character and erasing it from the screen. *)
Lemma wp_erase (Q : unit -> ctx -> console -> Prop) c s :
  panicked s = false -> cga_ok (co_cga s) -> input_ok (co_in s) -> in_e (co_in s) <> in_w (co_in s) ->
  (forall s', echoed s s' -> co_in s' = set_e (u32 (in_e (co_in s) - 1)) (co_in s) -> Q tt c s') ->
  wp (inmod (fun i => set_e (u32 (in_e i - 1)) i) ;;; consputc BACKSPACE) Q c s.
Proof.
  intros Hp Hg Hok Hne HQ. apply wp_bind, wp_modify, wp_echo; [done..|]. intros s' He Hi.
  apply HQ; [|done]. destruct He. now split.
Qed.

Lemma editing_nil i : input_ok i -> in_e i = in_w i -> editing i = [].
Proof. intros _ E. unfold editing. rewrite E. apply ring_nil. Qed.

Lemma wp_kill_line n (Q : unit -> ctx -> console -> Prop) c s :
  panicked s = false -> cga_ok (co_cga s) -> input_ok (co_in s) -> (10 ∉ editing (co_in s)) ->
  (length (editing (co_in s)) <= n)%nat ->
  (forall s', echoed s s' -> input_ok (co_in s') -> ready (co_in s') = ready (co_in s) ->
     editing (co_in s') = [] -> Q tt c s') ->
  wp (kill_line n) Q c s.
Proof.
  revert s. induction n as [|n IH]; intros s Hp Hg Hok Hnl Hn HQ; cbn [kill_line]; apply wp_bind, wp_gets;
    destruct (Z.eqb_spec (in_e (co_in s)) (in_w (co_in s))) as [E|E]; cbn [negb andb];
    try (apply wp_ret, HQ; [now apply echoed_refl|done|done|now apply editing_nil]);
    destruct (erase_ok _ Hok E) as (Hok' & Hr & He).
  - rewrite He, length_app in Hn. cbn in Hn. lia.
  - destruct (Z.eqb_spec (aget 0 (in_buf (co_in s)) (u32 (in_e (co_in s) - 1) mod INPUT_BUF)) 10) as [E10|E10].
    { exfalso. apply Hnl. rewrite He, E10. apply elem_of_app. right. constructor. }
    cbn [negb]. apply wp_bind, wp_modify, wp_bind.
    apply wp_echo; [done..|]. intros s' Hec Hi. cbn in Hi.
    assert (Hec' : echoed s s') by (destruct Hec; now split).
    apply IH; [rewrite (ec_run _ _ Hec'); done|apply (ec_cga _ _ Hec')|now rewrite Hi|rewrite Hi|rewrite Hi|].
    + intros H10. apply Hnl. rewrite He. apply elem_of_app. now left.
    + rewrite He, length_app in Hn. cbn in Hn. lia.
    + intros s2 He2 Ho2 Hr2 Hd2. apply HQ; [eauto using echoed_trans|done|rewrite Hr2, Hi; done|done].
Qed.

(** Storing a character at the end of the line. *)
Definition store_char (c : Z) (i : input) : input :=
  set_e (u32 (in_e i + 1)) (set_buf (aset (in_buf i) (in_e i mod INPUT_BUF) (u8 c)) i).

Lemma store_char_ok c i : input_ok i -> rcount (in_r i) (in_e i) < INPUT_BUF ->
  let i' := store_char c i in
  input_ok i' /\ rcount (in_r i') (in_e i') = rcount (in_r i) (in_e i) + 1 /\
  ready i' = ready i /\ editing i' = editing i ++ [u8 c].
Proof.
  intros [H1 H2 H3 H4 H5 H6] Hc i'. pose proof (rcount_range (in_r i) (in_w i)) as R1. unfold is_u32 in R1.
  pose proof (rcount_add _ _ _ H5) as Ha. unfold INPUT_BUF in Hc.
  assert (Hs : rcount (in_r i) (u32 (in_e i + 1)) = rcount (in_r i) (in_e i) + 1) by (apply rcount_succ; lia).
  assert (He : editing i' = editing i ++ [u8 c])
    by (apply (ring_push _ INPUT_BUF_pos INPUT_BUF_div (in_buf i) (in_w i) (in_e i)); unfold INPUT_BUF; lia).
  assert (Hall : ring INPUT_BUF (in_buf i') (in_r i) (u32 (in_e i + 1)) =
    ring INPUT_BUF (in_buf i) (in_r i) (in_e i) ++ [u8 c])
    by (apply (ring_push _ INPUT_BUF_pos INPUT_BUF_div); unfold INPUT_BUF; lia).
  split; [split; cbn; try done; try lia; [now rewrite length_aset|apply u32_range|unfold INPUT_BUF; lia]|].
  split; [done|]. split; [|done].
  rewrite (ring_app _ INPUT_BUF_pos INPUT_BUF_div _ _ (in_w i)) in Hall by lia.
  rewrite (ring_app _ INPUT_BUF_pos INPUT_BUF_div (in_buf i) _ (in_w i)) in Hall by lia.
  change (ready i' ++ editing i' = (ready i ++ editing i) ++ [u8 c]) in Hall. rewrite He, app_assoc in Hall.
  now apply app_inv_tail, app_inv_tail in Hall.
Qed.

(** [input.w = input.e]. *)
Lemma commit_ok i : input_ok i ->
  let i' := set_w (in_e i) i in input_ok i' /\ ready i' = ready i ++ editing i /\ editing i' = [].
Proof.
  intros [H1 H2 H3 H4 H5 H6] i'. split; [split; cbn; done || lia|]. split.
  - apply ring_app; auto using INPUT_BUF_pos, INPUT_BUF_div.
  - unfold editing. cbn. apply ring_nil.
Qed.

Definition wakes (a : list Z * list Z) (c : Z) : bool :=
  negb (Nat.eqb (length (fst (type_char a c))) (length (fst a))).
Definition queues (s : console) : list Z * list Z := (ready (co_in s), editing (co_in s)).

(** The queue of committed characters only grows, and readers are woken when it
    does. *)
Lemma type_char_ready a c : wakes a c = false -> fst a = fst (type_char a c).
Proof.
  unfold wakes. destruct a as [q ed]. cbn [fst]. intros H%negb_false_iff%Nat.eqb_eq.
  unfold type_char in *. repeat case_if; cbn [fst] in *; try done;
    rewrite !length_app in H; cbn in H; lia.
Qed.

(** The last part of the [default] case. *)
Lemma wp_console_char ch (Q : unit -> ctx -> console -> Prop) c s :
  con_ok s -> is_u8 ch -> ch <> 0 -> ch <> 13 -> (LPtable ∉ held c) ->
  rcount (in_r (co_in s)) (in_e (co_in s)) < INPUT_BUF ->
  (forall s', echoed s s' -> con_ok s' ->
     queues s' = (if commits (ready (co_in s)) (editing (co_in s) ++ [ch]) ch
                  then (ready (co_in s) ++ editing (co_in s) ++ [ch], [])
                  else (ready (co_in s), editing (co_in s) ++ [ch])) ->
     Q tt (Ctx (held c) (woken c ++ if commits (ready (co_in s)) (editing (co_in s) ++ [ch]) ch
                                    then [ChInput] else [])) s') ->
  wp (inmod (fun i => set_buf (aset (in_buf i) (in_e i mod INPUT_BUF) (u8 ch)) i) ;;;
      inmod (fun i => set_e (u32 (in_e i + 1)) i) ;;;
      consputc ch ;;;
      let* i := gets co_in in
      when ((ch =? 10) || (ch =? C 68) || (in_e i =? u32 (in_r i + INPUT_BUF))) (
        inmod (fun i => set_w (in_e i) i) ;;;
        wakeup ChInput)) Q c s.
Proof.
  intros [Hp Hg Hok Hl] Hu H0 H13 Hlk Hroom HQ.
  destruct (store_char_ok ch _ Hok Hroom) as (Hok1 & Hc1 & Hr1 & He1). rewrite u8_small in He1 by done.
  apply wp_bind, wp_modify, wp_bind, wp_modify, wp_bind, wp_echo; [done..|]. intros s' Hec Hi. cbn in Hi.
  change (co_in s' = store_char ch (co_in s)) in Hi.
  assert (Hec' : echoed s s') by (destruct Hec; now split).
  apply wp_bind, wp_gets. rewrite (rcount_is (in_r _) (in_e _) INPUT_BUF) by
    (rewrite ?Hi; apply Hok1 || (unfold is_u32, INPUT_BUF; lia)).
  assert (Ecom : commits (ready (co_in s)) (editing (co_in s) ++ [ch]) ch =
    (ch =? 10) || (ch =? C 68) || (rcount (in_r (co_in s')) (in_e (co_in s')) =? INPUT_BUF)).
  { unfold commits. rewrite <- He1, <- Hr1, length_queues, Hi by done. done. }
  rewrite <- Ecom. destruct (commits _ _ _) eqn:Eb; unfold when.
  - destruct (commit_ok _ Hok1) as (Hok2 & Hr2 & He2).
    apply wp_bind, wp_modify, wp_wakeup; [done|]. apply HQ; [now apply echoed_in| |].
    + destruct Hec'. split; cbn; rewrite ?Hi, ?He2; congruence || done || apply not_elem_of_nil.
    + unfold queues. cbn. rewrite Hi, He2, Hr2, He1, Hr1. done.
  - apply wp_ret. rewrite (app_nil_r (woken c)) in HQ. destruct c as [h w]. apply HQ; [done| |].
    + destruct Hec'. split; rewrite ?Hi, ?He1; congruence || done || idtac.
      rewrite elem_of_app, list_elem_of_singleton. intros [|E]; [done|].
      unfold commits in Eb. zbool. congruence.
    + unfold queues. rewrite Hi, He1, Hr1. done.
Qed.

(** One character typed acts on the two queues as [type_char] says. *)
Lemma wp_console_key ch (Q : bool -> ctx -> console -> Prop) c s :
  con_ok s -> is_u8 ch -> (LPtable ∉ held c) ->
  (forall s', echoed s s' -> con_ok s' -> queues s' = type_char (queues s) ch ->
     Q (ch =? C 80) (Ctx (held c) (woken c ++ if wakes (queues s) ch then [ChInput] else [])) s') ->
  wp (console_key ch) Q c s.
Proof.
  intros Hok Hu Hlk HQ. pose proof Hok as [Hp Hg Hin Hl].
  pose proof (length_queues _ Hin) as Hlen. destruct c as [h w]. cbn [held woken] in *.
  unfold console_key, wakes, queues in *. unfold type_char in HQ.
  destruct (Z.eqb_spec ch (C 80)) as [E80|E80].
  { apply wp_ret. cbn [fst] in HQ. rewrite Nat.eqb_refl, app_nil_r in HQ. apply HQ; [now apply echoed_refl|done..]. }
  destruct (Z.eqb_spec ch (C 85)) as [E85|E85].
  { cbn [fst] in HQ. rewrite Nat.eqb_refl, app_nil_r in HQ. apply wp_bind, wp_kill_line; try done.
    { pose proof (io_re _ Hin). unfold INPUT_BUF in *. lia. }
    intros s' Hec Hin' Hr He. apply wp_ret, HQ; [done| |now rewrite Hr, He].
    destruct Hec. split; [congruence|done|done|]. rewrite He. apply not_elem_of_nil. }
  destruct (_ || _) eqn:Ebs.
  { cbn [fst] in HQ. rewrite Nat.eqb_refl, app_nil_r in HQ. apply wp_bind, wp_gets, wp_bind. unfold when.
    destruct (Z.eqb_spec (in_e (co_in s)) (in_w (co_in s))) as [E|E]; cbn [negb].
    - apply wp_ret, wp_ret, HQ; [now apply echoed_refl|done|]. rewrite (editing_nil _ Hin E). done.
    - destruct (erase_ok _ Hin E) as (Hin' & Hr & He).
      apply wp_erase; [done..|]. intros s' Hec Hi. apply wp_ret, HQ; [done| |].
      + destruct Hec. split; [congruence|done|now rewrite Hi|]. rewrite Hi. intros H10. apply Hl. rewrite He.
        apply elem_of_app. now left.
      + rewrite Hi, Hr, He, length_app. cbn [length]. rewrite Nat.add_sub, take_app_length. done. }
  apply wp_bind, wp_gets, wp_bind. change (u32 (in_e _ - in_r _)) with (rcount (in_r (co_in s)) (in_e (co_in s))).
  rewrite Hlen in HQ. unfold when.
  destruct (Z.eqb_spec ch 0) as [E0|E0]; cbn [negb andb orb] in *.
  { cbn [fst] in HQ. rewrite Nat.eqb_refl, app_nil_r in HQ.
    apply wp_ret, wp_ret, HQ; [now apply echoed_refl|done..]. }
  destruct (Z.ltb_spec (rcount (in_r (co_in s)) (in_e (co_in s))) INPUT_BUF) as [Hroom|Hroom],
    (Z.leb_spec INPUT_BUF (rcount (in_r (co_in s)) (in_e (co_in s)))); try lia.
  2:{ cbn [fst] in HQ. rewrite Nat.eqb_refl, app_nil_r in HQ.
      apply wp_ret, wp_ret, HQ; [now apply echoed_refl|done..]. }
  set (ch' := if ch =? 13 then 10 else ch) in *.
  apply wp_console_char; [done|..].
  - unfold ch'. destruct (ch =? 13); [unfold is_u8; lia|done].
  - unfold ch'. destruct (ch =? 13); [lia|done].
  - unfold ch'. destruct (Z.eqb_spec ch 13); lia.
  - done.
  - done.
  - intros s' Hec Hok' Hq. apply wp_ret. specialize (HQ s' Hec Hok' Hq). destruct (commits _ _ _); cbn [fst] in HQ.
    + rewrite length_app in HQ. rewrite (proj2 (Nat.eqb_neq _ _)) in HQ; [exact HQ|]. rewrite length_app. cbn. lia.
    + rewrite Nat.eqb_refl in HQ. exact HQ.
Qed.

(** ** The interrupt handlers *)

Inductive device : Type := FromKbd | FromUart.

(** The characters of a sequence of scan codes. *)
Fixpoint kbd_chars (shift : Z) (codes : list Z) : list Z :=
  match codes with
  | [] => []
  | d :: ds => snd (kbd_key shift d) :: kbd_chars (fst (kbd_key shift d)) ds
  end.
Definition typed (d : device) (s : console) : list Z :=
  match d with
  | FromKbd => kbd_chars (k_shift (co_kbd s)) (k_data (co_kbd s))
  | FromUart => if uart (co_uart s) then received (co_uart s) else []
  end.
Definition dev_ok (s : console) : Prop :=
  shift_ok (k_shift (co_kbd s)) = true /\ Forall is_u8 (k_data (co_kbd s)) /\ Forall is_u8 (received (co_uart s)).
Definition intr (d : device) : M console bool := match d with FromKbd => kbdintr | FromUart => uartintr end.
Definition getc (d : device) : M console Z :=
  match d with FromKbd => zoom co_kbd set_kbd kbdgetc | FromUart => uartgetc end.

Lemma echoed_typed d s s' : echoed s s' -> typed d s' = typed d s.
Proof. intros [E1 E2 E3 _ _]. destruct d; cbn; now rewrite ?E1, ?E2, ?E3. Qed.
Lemma echoed_dev s s' : echoed s s' -> dev_ok s -> dev_ok s'.
Proof. intros [E1 E2 E3 _ _] (H1 & H2 & H3). unfold dev_ok. now rewrite E1, E3. Qed.

Lemma wp_getc d (Q : Z -> ctx -> console -> Prop) c s :
  con_ok s -> dev_ok s ->
  match typed d s with
  | [] => Q (-1) c s
  | ch :: cs => is_u8 ch -> forall s', con_ok s' -> dev_ok s' -> typed d s' = cs -> queues s' = queues s -> Q ch c s'
  end -> wp (getc d) Q c s.
Proof.
  intros [H1 H2 H3 H4] (D1 & D2 & D3). destruct d; cbn.
  - unfold wp, zoom, kbdgetc, bind, get. destruct (co_kbd s) as [ds sh] eqn:Ek. cbn in *.
    destruct ds as [|d ds]; cbn; [intros HQ|].
    { unfold ret. cbn. rewrite <- Ek. replace (set_kbd (co_kbd s) s) with s by now destruct s. done. }
    intros HQ. apply Forall_cons in D2 as [Hd Hds]. pose proof (kbd_key_ok sh d D1 Hd) as [Hs Hc].
    destruct (kbd_key sh d) as [sh' ch]. cbn in *. apply HQ; [done|now split|now repeat split|done|done].
  - unfold uartgetc. intros HQ. apply wp_bind, wp_gets. destruct (uart (co_uart s)) eqn:Eu; cbn [negb]; [|now apply wp_ret].
    destruct (received (co_uart s)) as [|b rest]; [now apply wp_ret|]. apply Forall_cons in D3 as [Hb Hr].
    apply wp_bind, wp_modify, wp_ret, HQ; [done|now split|now repeat split|done|done].
Qed.

Lemma wp_consoleintr_from d n b (Q : bool -> ctx -> console -> Prop) c s :
  con_ok s -> dev_ok s -> (LPtable ∉ held c) -> (length (typed d s) <= n)%nat ->
  (forall b' w s', con_ok s' -> dev_ok s' -> typed d s' = [] ->
     queues s' = fold_left type_char (typed d s) (queues s) ->
     (ready (co_in s') <> ready (co_in s) -> ChInput ∈ w) -> (woken c ⊆ w) ->
     Q b' (Ctx (held c) w) s') ->
  wp (consoleintr_from n (getc d) b) Q c s.
Proof.
  revert b c s. induction n as [|n IH]; intros b c s Hok Hd Hlk Hn HQ; cbn [consoleintr_from];
    apply wp_bind, wp_getc; [done|done| |done|done|]; destruct (typed d s) as [|ch cs] eqn:Et; cbn in Hn; try lia.
  1,2: destruct (Z.leb_spec 0 (-1)); [lia|]; apply wp_ret; destruct c as [h w]; cbn in HQ; apply HQ; try done; intros E; now destruct E.
  intros Hu s1 Hok1 Hd1 Et1 Hq1. unfold is_u8 in Hu. destruct (Z.leb_spec 0 ch); [|lia].
  apply wp_bind, wp_console_key; [done..|]. intros s2 Hec Hok2 Hq2.
  pose proof (echoed_typed d _ _ Hec) as Et2. apply IH; [done|exact (echoed_dev _ _ Hec Hd1)|done|rewrite Et2, Et1; lia|].
  intros b' w s' Hok' Hd' Et' Hq' Hw Hsub. cbn [held woken] in *. apply HQ; [done..| | |].
  - rewrite Hq', Hq2, Hq1, Et2, Et1. done.
  - intros Hne. destruct (wakes (queues s1) ch) eqn:Ew; [apply Hsub, elem_of_app; right; constructor|].
    apply Hw. intros E. apply Hne. rewrite E.
    assert (Hr2 : ready (co_in s2) = fst (type_char (queues s1) ch)) by now rewrite <- Hq2.
    rewrite Hr2, <- type_char_ready by exact Ew. exact (f_equal fst Hq1).
  - intros x Hx. apply Hsub, elem_of_app. now left.
Qed.

(** C23: the line discipline.  An interrupt of the keyboard or of the serial
    port takes every character the device has, and acts on the console's input
    exactly as the two-queue specification [type_char] says: characters are
    appended to the line being edited, backspace takes the last one back,
    Control-U the whole line, and newline, Control-D or a full buffer move the
    line to the committed queue, of which readers are then woken; characters that
    do not fit are dropped.  It never panics and never loops. *)
Theorem console_line_discipline d c s :
  con_ok s -> dev_ok s -> (LPtable ∉ held c) -> (LCons ∉ held c) ->
  wp (intr d)
    (fun _ c' s' => con_ok s' /\ dev_ok s' /\ typed d s' = [] /\ held c' = held c /\
       queues s' = fold_left type_char (typed d s) (queues s) /\
       (ready (co_in s') <> ready (co_in s) -> ChInput ∈ woken c')) c s.
Proof.
  intros Hok Hd Hl1 Hl2.
  assert (Hn : forall n, (length (typed d s) <= n)%nat -> wp (consoleintr n (getc d))
    (fun _ c' s' => con_ok s' /\ dev_ok s' /\ typed d s' = [] /\ held c' = held c /\
       queues s' = fold_left type_char (typed d s) (queues s) /\
       (ready (co_in s') <> ready (co_in s) -> ChInput ∈ woken c')) c s).
  { intros n Hn. apply wp_bind, wp_acquire; [done|]. apply wp_bind, wp_consoleintr_from; [done|done|cbn [held]; lmem|done|].
    intros b' w s' H1 H2 H3 H4 H5 H6. apply wp_bind. eapply wp_release; [done|]. now apply wp_ret. }
  destruct d; cbn [intr]; unfold kbdintr, uartintr; apply wp_bind, wp_gets, Hn; cbn.
  - generalize (k_shift (co_kbd s)). induction (k_data (co_kbd s)) as [|x l IH]; intros sh; cbn; [done|].
    specialize (IH (kbd_key sh x).1). lia.
  - destruct (uart (co_uart s)); cbn; lia.
Qed.

(** ** Reading *)

(** What a read of [n] bytes takes from the committed characters: up to and
    including a newline, or up to a Control-D, which is taken only by a read
    that has nothing else ([fresh]). *)
Fixpoint read_line (n : nat) (fresh : bool) (q : list Z) : list Z * list Z :=
  match n, q with
  | S n', c :: q' =>
      if c =? C 68 then ([], if fresh then q' else q)
      else if c =? 10 then ([c], q')
      else let '(o, r) := read_line n' false q' in (c :: o, r)
  | _, _ => ([], q)
  end.

(** A read of [n] bytes finds enough to return. *)
Fixpoint available (n : nat) (q : list Z) : bool :=
  match n, q with
  | O, _ => true
  | S _, [] => false
  | S n', c :: q' => (c =? C 68) || (c =? 10) || available n' q'
  end.

Definition append_out (l : list Z) (_ : Z) (bs : list Z) : M console (list Z) := ret (l ++ bs).

Lemma pop_input i : input_ok i -> ready i <> [] ->
  let i' := set_r (u32 (in_r i + 1)) i in
  (in_r i =? in_w i) = false /\ input_ok i' /\ editing i' = editing i /\
  ready i = aget 0 (in_buf i) (in_r i mod INPUT_BUF) :: ready i'.
Proof.
  intros [H1 H2 H3 H4 H5 H6] Hne i'. pose proof (rcount_range (in_r i) (in_w i)) as R. unfold is_u32 in R.
  assert (Hc : 0 < rcount (in_r i) (in_w i)).
  { destruct (Z.eq_dec (rcount (in_r i) (in_w i)) 0) as [E|]; [|lia]. destruct Hne. unfold ready, ring. now rewrite E. }
  split; [rewrite rcount_zero by done; apply Z.eqb_neq; lia|].
  split; [|split; [done|apply ring_pop; auto using INPUT_BUF_pos, INPUT_BUF_div]].
  split; cbn; try done; [apply u32_range|rewrite !rcount_next by lia; lia|rewrite rcount_next by lia; lia].
Qed.

(** The next character is put back. *)
Lemma unread i : input_ok i -> set_r (u32 (in_r (set_r (u32 (in_r i + 1)) i) - 1)) (set_r (u32 (in_r i + 1)) i) = i.
Proof.
  intros [_ H2 _ _ _ _]. destruct i as [b r w e]. unfold set_r. cbn in *. f_equal.
  rewrite u32_sub_l. replace (r + 1 - 1) with r by lia. now apply u32_small.
Qed.

(** One round of the loop, with a character ready. *)
Lemma wp_read_one kl fuel n target l ch q (Q : list Z * option Z -> ctx -> console -> Prop) c s :
  con_ok s -> ready (co_in s) = ch :: q -> Z.of_nat (S n) <= target ->
  (forall s1, con_ok s1 -> queues s1 = (q, editing (co_in s)) -> co_kbd s1 = co_kbd s -> co_uart s1 = co_uart s ->
     if ch =? C 68 then Q (l, Some (Z.of_nat (S n))) c (if Z.of_nat (S n) =? target then s1 else s)
     else if ch =? 10 then Q (l ++ [ch], Some (Z.of_nat n)) c s1
     else wp (consoleread_from kl fuel n target append_out (l ++ [ch])) Q c s1) ->
  wp (consoleread_from kl fuel (S n) target append_out l) Q c s.
Proof.
  intros Hok Er Hn HQ.
  destruct (pop_input (co_in s)) as (Ene & Hin' & He' & Hr'); [apply Hok|congruence|].
  rewrite Er in Hr'. injection Hr' as Ech Er'.
  set (s1 := set_in (set_r (u32 (in_r (co_in s) + 1)) (co_in s)) s).
  assert (Eback : set_in (set_r (u32 (in_r (co_in s1) - 1)) (co_in s1)) s1 = s).
  { transitivity (set_in (co_in s) s); [|now destruct s]. unfold s1, set_in. cbn. f_equal.
    exact (unread _ (ok_in s Hok)). }
  specialize (HQ s1). cbn [consoleread_from]. apply wp_bind.
  assert (Hw : forall P : bool -> ctx -> console -> Prop, P false c s -> wp (wait_input kl fuel) P c s).
  { intros P HP. destruct fuel; cbn [wait_input]; apply wp_bind, wp_gets; rewrite Ene; now apply wp_ret. }
  apply Hw, wp_bind, wp_gets, wp_bind, wp_modify. rewrite <- Ech. fold s1.
  lapply HQ; [clear HQ; intros HQ|destruct Hok; split; [done..|]; cbn; now rewrite He'].
  lapply HQ; [clear HQ; intros HQ|unfold queues; cbn; now rewrite He', <- Er'].
  specialize (HQ eq_refl eq_refl).
  destruct (ch =? C 68); [|destruct (ch =? 10)].
  - apply wp_bind. unfold when.
    destruct (Z.ltb_spec (Z.of_nat (S n)) target), (Z.eqb_spec (Z.of_nat (S n)) target); try lia.
    + apply wp_modify, wp_ret. now rewrite Eback.
    + now apply wp_ret, wp_ret.
  - apply wp_bind, wp_ret, wp_ret. now replace (Z.of_nat (S n) - 1) with (Z.of_nat n) by lia.
  - now apply wp_bind, wp_ret.
Qed.

Lemma wp_consoleread_from kl fuel n target l (Q : list Z * option Z -> ctx -> console -> Prop) c s :
  con_ok s -> Z.of_nat n <= target -> available n (ready (co_in s)) = true ->
  (forall s', con_ok s' -> let '(out, rest) := read_line n (Z.of_nat n =? target) (ready (co_in s)) in
     queues s' = (rest, editing (co_in s)) -> co_kbd s' = co_kbd s -> co_uart s' = co_uart s ->
     Q (l ++ out, Some (Z.of_nat n - Z.of_nat (length out))) c s') ->
  wp (consoleread_from kl fuel n target append_out l) Q c s.
Proof.
  revert l s. induction n as [|n IH]; intros l s Hok Hn Hav HQ.
  { apply wp_ret. cbn in HQ. rewrite app_nil_r in HQ. now apply HQ. }
  cbn [read_line available] in *. destruct (ready (co_in s)) as [|ch q] eqn:Er; [done|].
  apply (wp_read_one _ _ _ _ _ ch q); [done..|]. intros s1 Hok1 Hq1 Hk1 Hu1.
  destruct (ch =? C 68) eqn:E4; [|destruct (ch =? 10) eqn:E10]; cbn [orb] in Hav.
  - rewrite app_nil_r, Z.sub_0_r in HQ. destruct (Z.of_nat (S n) =? target); apply HQ; try done.
    unfold queues. now rewrite Er.
  - replace (Z.of_nat n) with (Z.of_nat (S n) - Z.of_nat (length [ch])) by (cbn [length]; lia). now apply HQ.
  - pose proof (f_equal fst Hq1 : ready (co_in s1) = q) as Er1. pose proof (f_equal snd Hq1 : editing (co_in s1) = _) as Ee1.
    apply IH; [done|lia|now rewrite Er1|]. intros s' Hok'. rewrite Er1, Ee1, Hk1, Hu1.
    rewrite (proj2 (Z.eqb_neq (Z.of_nat n) target)) by lia. specialize (HQ s' Hok').
    destruct (read_line n false q) as [o r]. intros Hq Hk Hu. rewrite <- app_assoc. cbn [app].
    replace (Z.of_nat n - Z.of_nat (length o)) with (Z.of_nat (S n) - Z.of_nat (length (ch :: o))) by (cbn [length]; lia).
    now apply HQ.
Qed.

(** A character without a meaning of its own. *)
Definition plain_char (c : Z) : bool :=
  (0 <? c) && (c <? 256) && negb (c =? C 80) && negb (c =? C 85) && negb (c =? C 72) && negb (c =? 127) &&
  negb (c =? C 68) && negb (c =? 10) && negb (c =? 13).

Lemma type_plain line ed :
  forallb plain_char line = true -> (length ed + length line <= 127)%nat ->
  fold_left type_char line ([], ed) = ([], ed ++ line).
Proof.
  revert ed. induction line as [|c line IH]; intros ed Hp Hl; cbn [fold_left]; [now rewrite app_nil_r|].
  cbn [forallb length] in *. apply andb_true_iff in Hp as [Hc Hp]. unfold plain_char in Hc. zbool.
  replace (type_char ([], ed) c) with (@nil Z, ed ++ [c]).
  - rewrite IH; [now rewrite <- app_assoc|done|rewrite length_app; cbn; lia].
  - unfold type_char, commits. rewrite !(proj2 (Z.eqb_neq c _)) by (done || lia). cbn [orb length plus].
    rewrite (proj2 (Z.leb_gt INPUT_BUF _)) by (unfold INPUT_BUF; lia).
    rewrite (proj2 (Z.eqb_neq _ INPUT_BUF)); [done|]. rewrite length_app. cbn. unfold INPUT_BUF. lia.
Qed.

Lemma read_plain line n fresh :
  forallb plain_char line = true -> (length line < n)%nat ->
  read_line n fresh (line ++ [10]) = (line ++ [10], []) /\ available n (line ++ [10]) = true.
Proof.
  revert n fresh. induction line as [|c line IH]; intros n fresh Hp Hn; (destruct n as [|n]; [cbn in Hn; lia|]); [done|].
  cbn [forallb length app read_line available] in *. apply andb_true_iff in Hp as [Hc Hp]. unfold plain_char in Hc. zbool.
  destruct (IH n false Hp ltac:(lia)) as [-> ->].
  rewrite !(proj2 (Z.eqb_neq c _)) by done. done.
Qed.

(** Typing and reading.  A line of ordinary characters, received on the
    serial port with a carriage return, is read back by consoleread with a
    newline at its end, and nothing is left: for every line that fits the input
    buffer and every read of enough bytes, the interrupt handler and the read
    neither panic nor sleep, and the read returns the length of the line. *)
Theorem console_roundtrip line n kl fuel c s :
  con_ok s -> dev_ok s -> uart (co_uart s) = true -> queues s = ([], []) ->
  received (co_uart s) = line ++ [13] -> forallb plain_char line = true ->
  (length line <= 127)%nat -> Z.of_nat (length line) < n -> held c = [] ->
  wp (uartintr ;;; consoleread_locked kl fuel append_out [] n)
    (fun r c' s' => r = (line ++ [10], Z.of_nat (length line) + 1) /\ queues s' = ([], []) /\
       typed FromUart s' = [] /\ held c' = []) c s.
Proof.
  intros Hok Hd Hu Hq Hr Hp Hl Hn Hh. apply wp_bind, wp_bind, wp_gets.
  apply wp_bind, wp_acquire; [rewrite Hh; apply not_elem_of_nil|].
  assert (Ht : typed FromUart s = line ++ [13]) by (cbn; now rewrite Hu).
  apply wp_bind, (wp_consoleintr_from FromUart); [done|done|cbn [held]; rewrite Hh; lmem|cbn; now rewrite Hu|].
  intros b w s1 Hok1 Hd1 Et1 Hq1 _ _. apply wp_bind. eapply wp_release; [done|]. apply wp_ret. rewrite Hh.
  assert (Hq1' : queues s1 = (line ++ [10], [])).
  { rewrite Hq1, Ht, Hq, fold_left_app, type_plain by (done || cbn; lia). cbn [fold_left app].
    unfold type_char. cbn [Z.eqb C Z.sub Pos.eqb orb length plus]. rewrite (proj2 (Z.leb_gt _ _)); [done|].
    unfold INPUT_BUF. lia. }
  pose proof (f_equal fst Hq1' : ready (co_in s1) = line ++ [10]) as Er.
  pose proof (f_equal snd Hq1' : editing (co_in s1) = []) as Ee.
  destruct (read_plain line (Z.to_nat n) (Z.of_nat (Z.to_nat n) =? n) Hp ltac:(lia)) as [Hread Hav].
  apply wp_bind, wp_acquire; [apply not_elem_of_nil|].
  apply wp_bind, wp_consoleread_from; [done|lia|now rewrite Er|].
  intros s2 Hok2. rewrite Er, Hread, Ee. intros Hq2 Hk2 Hu2. apply wp_bind. eapply wp_release; [done|]. apply wp_ret.
  destruct (Z.ltb_spec 0 n); [|lia]. rewrite length_app. cbn [length app].
  split; [f_equal; lia|]. split; [done|]. split; [|done]. rewrite <- Et1. cbn. now rewrite Hu2.
Qed.

(** A console with a serial port and an empty screen. *)
Definition sample_console (rx : list Z) : console :=
  Console false true (Input (replicate 128 0) 4294967290 4294967290 4294967290)
    (Cga (replicate 2000 0) 0) (Serial true [] rx) (Kbd [] 0).

Lemma sample_console_ok rx : con_ok (sample_console rx).
Proof.
  split; [done|split; [reflexivity|cbn; lia]| |apply (bool_decide_unpack _); vm_compute; exact I].
  split; cbn; try reflexivity; unfold is_u32; try lia; rewrite ?rcount_self; unfold INPUT_BUF; lia.
Qed.

Lemma printint_numeral_witness :
  wp (printint (-2147483648) 10 true)
    (fun _ c' s' => c' = Ctx [] [] /\ cga_ok (co_cga s') /\ exists out,
       sent (co_uart s') = [] ++ out /\ parse_int digits 10 out = -2147483648 /\
       (length out <= 11)%nat) (Ctx [] []) (sample_console []).
Proof.
  apply (printint_numeral (-2147483648) 10 true (Ctx [] []) (sample_console []));
    [now left|lia|done|apply sample_console_ok|done].
Defined.

Lemma console_line_discipline_witness :
  wp (intr FromUart)
    (fun _ c' s' => con_ok s' /\ dev_ok s' /\ typed FromUart s' = [] /\ held c' = [] /\
       queues s' = ([105; 10], []) /\
       (ready (co_in s') <> [] -> ChInput ∈ woken c')) (Ctx [] []) (sample_console [104; 8; 105; 13]).
Proof.
  apply (console_line_discipline FromUart (Ctx [] []) (sample_console [104; 8; 105; 13]));
    [apply sample_console_ok|split; [done|]; split; [constructor|]; repeat constructor; unfold is_u8; lia|
     apply not_elem_of_nil..].
Defined.

Lemma console_roundtrip_witness :
  wp (uartintr ;;; consoleread_locked (ret false) 0 append_out [] 100)
    (fun r c' s' => r = ([108; 115; 10], 3) /\ queues s' = ([], []) /\ typed FromUart s' = [] /\ held c' = [])
    (Ctx [] []) (sample_console [108; 115; 13]).
Proof.
  apply (console_roundtrip [108; 115] 100 (ret false) 0 (Ctx [] []) (sample_console [108; 115; 13]));
    [apply sample_console_ok|split; [done|]; split; [constructor|]; repeat constructor; unfold is_u8; lia|
     reflexivity|vm_compute; reflexivity|reflexivity|reflexivity|cbn; lia|cbn; lia|reflexivity].
Defined.
