(* ===== verification/Mmu.v ===== *)
(** Constants and macros of param.h, memlayout.h, mmu.h, traps.h, stat.h and fcntl.h: the memory layout,
    the split of a linear address, page rounding, page-table entries, and the
    segment and gate descriptors. *)
From S2P Require Import Prelude.

(** * fs.h, stat.h and fcntl.h: what user programs also use *)

Definition DIRSIZ : Z := 14.
Definition T_DIR : Z := 1.
Definition T_FILE : Z := 2.
Definition T_DEV : Z := 3.

Definition O_RDONLY : Z := 0x000.
Definition O_WRONLY : Z := 0x001.
Definition O_RDWR : Z := 0x002.
Definition O_CREATE : Z := 0x200.

(** * param.h *)
Definition NPROC : nat := 64.
Definition KSTACKSIZE : Z := 4096.
Definition NCPU : nat := 8.
Definition NOFILE : nat := 16.
Definition NFILE : nat := 100.
Definition NINODE : nat := 50.
Definition NDEV : Z := 10.
Definition ROOTDEV : Z := 1.
Definition MAXARG : nat := 32.
Definition MAXOPBLOCKS : Z := 10.
Definition LOGSIZE : Z := MAXOPBLOCKS * 3.
Definition NBUF : nat := 30.
Definition FSSIZE : Z := 1000.

(** * memlayout.h *)
Definition EXTMEM : Z := 0x100000.
Definition PHYSTOP : Z := 0xE000000.
Definition DEVSPACE : Z := 0xFE000000.
Definition KERNBASE : Z := 0x80000000.
Definition KERNLINK : Z := KERNBASE + EXTMEM.
Definition V2P (a : Z) : Z := u32 (a - KERNBASE).
Definition P2V (a : Z) : Z := u32 (a + KERNBASE).

(** * mmu.h: paging *)
Definition PGSIZE : Z := 4096.
Definition NPDENTRIES : nat := 1024.
Definition NPTENTRIES : nat := 1024.
Definition PTXSHIFT : Z := 12.
Definition PDXSHIFT : Z := 22.
Definition PDX (va : Z) : Z := Z.land (Z.shiftr va PDXSHIFT) 0x3FF.
Definition PTX (va : Z) : Z := Z.land (Z.shiftr va PTXSHIFT) 0x3FF.
Definition PGADDR (d t o : Z) : Z :=
  u32 (Z.lor (Z.lor (Z.shiftl d PDXSHIFT) (Z.shiftl t PTXSHIFT)) o).
Definition PGROUNDUP (sz : Z) : Z := Z.land (u32 (sz + PGSIZE - 1)) 0xFFFFF000.
Definition PGROUNDDOWN (a : Z) : Z := Z.land a 0xFFFFF000.

Definition PTE_P : Z := 0x001.
Definition PTE_W : Z := 0x002.
Definition PTE_U : Z := 0x004.
Definition PTE_PS : Z := 0x080.
Definition PTE_ADDR (pte : Z) : Z := Z.land pte 0xFFFFF000.
Definition PTE_FLAGS (pte : Z) : Z := Z.land pte 0xFFF.

(** * mmu.h: segments and gates *)
Definition SEG_KCODE : Z := 1.
Definition SEG_KDATA : Z := 2.
Definition SEG_UCODE : Z := 3.
Definition SEG_UDATA : Z := 4.
Definition SEG_TSS : Z := 5.
Definition DPL_USER : Z := 3.
Definition STA_X : Z := 8.
Definition STA_W : Z := 2.
Definition STA_R : Z := 2.
Definition STS_T32A : Z := 9.
Definition STS_IG32 : Z := 0xE.
Definition STS_TG32 : Z := 0xF.
Definition FL_IF : Z := 0x200.

Record segdesc : Type := Segdesc {
  lim_15_0 : Z; base_15_0 : Z; base_23_16 : Z; sg_type : Z; sg_s : Z; sg_dpl : Z;
  sg_p : Z; lim_19_16 : Z; sg_avl : Z; sg_rsv1 : Z; sg_db : Z; sg_g : Z; base_31_24 : Z
}.

Definition SEG (type base lim dpl : Z) : segdesc :=
  Segdesc (Z.land (Z.shiftr lim 12) 0xffff) (Z.land base 0xffff)
    (Z.land (Z.shiftr base 16) 0xff) type 1 dpl 1
    (Z.shiftr lim 28) 0 0 1 1 (Z.shiftr base 24).
Definition SEG16 (type base lim dpl : Z) : segdesc :=
  Segdesc (Z.land lim 0xffff) (Z.land base 0xffff)
    (Z.land (Z.shiftr base 16) 0xff) type 1 dpl 1
    (Z.shiftr lim 16) 0 0 1 0 (Z.shiftr base 24).

Record gatedesc : Type := Gatedesc {
  off_15_0 : Z; gd_cs : Z; gd_args : Z; gd_rsv1 : Z; gd_type : Z; gd_s : Z; gd_dpl : Z;
  gd_p : Z; off_31_16 : Z
}.

Definition SETGATE (istrap : bool) (sel off d : Z) : gatedesc :=
  Gatedesc (Z.land off 0xffff) sel 0 0 (if istrap then STS_TG32 else STS_IG32) 0 d 1
    (Z.shiftr off 16).

(** * traps.h *)

Definition T_SYSCALL : Z := 64.
Definition T_IRQ0 : Z := 32.
Definition IRQ_TIMER : Z := 0.
Definition IRQ_KBD : Z := 1.
Definition IRQ_COM1 : Z := 4.
Definition IRQ_IDE : Z := 14.
Definition IRQ_ERROR : Z := 19.
Definition IRQ_SPURIOUS : Z := 31.

(** * Arithmetic readings of the bit macros *)

(** Clearing the low twelve bits of a word rounds it down to a page. *)
Lemma land_page a : is_u32 a -> Z.land a 0xFFFFF000 = a - a mod PGSIZE.
Proof.
  intros Ha. assert (E : Z.land a 0xFFFFF000 = Z.shiftl (Z.shiftr a 12) 12).
  { apply Z.bits_inj'. intros i Hi. rewrite Z.land_spec, Z.shiftl_spec by done.
    destruct (Z.ltb_spec i 12) as [H|H].
    - rewrite (Z.testbit_neg_r _ (i - 12)) by lia.
      replace (Z.testbit 0xFFFFF000 i) with false; [now rewrite andb_false_r|].
      assert (Hc : i = 0 \/ i = 1 \/ i = 2 \/ i = 3 \/ i = 4 \/ i = 5 \/ i = 6 \/ i = 7 \/
        i = 8 \/ i = 9 \/ i = 10 \/ i = 11) by lia.
      repeat (destruct Hc as [->|Hc]; [reflexivity|]). subst. reflexivity.
    - rewrite Z.shiftr_spec by lia. replace (i - 12 + 12) with i by lia.
      destruct (Z.ltb_spec i 32).
      + change 0xFFFFF000 with (Z.shiftl (Z.ones 20) 12).
        rewrite Z.shiftl_spec, Z.ones_spec_low by lia. now rewrite andb_true_r.
      + now rewrite u32_testbit_high by done. }
  rewrite E, Z.shiftl_mul_pow2, Z.shiftr_div_pow2 by lia. unfold PGSIZE.
  change (2 ^ 12) with 4096. pose proof (Z_div_mod_eq_full a 4096). lia.
Qed.

Lemma PGROUNDDOWN_eq a : is_u32 a -> PGROUNDDOWN a = a - a mod PGSIZE.
Proof. apply land_page. Qed.

Lemma PGROUNDUP_eq a :
  0 <= a <= 0xFFFFF000 -> PGROUNDUP a = (a + 4095) / PGSIZE * PGSIZE.
Proof.
  intros Ha. unfold PGROUNDUP, PGSIZE in *. rewrite u32_small by (unfold is_u32; lia).
  rewrite land_page by (unfold is_u32; lia). unfold PGSIZE.
  pose proof (Z_div_mod_eq_full (a + 4096 - 1) 4096). replace (a + 4095) with (a + 4096 - 1) by lia.
  lia.
Qed.

Lemma PTE_split pte : is_u32 pte -> PTE_ADDR pte + PTE_FLAGS pte = pte.
Proof.
  intros H. unfold PTE_ADDR, PTE_FLAGS. rewrite land_page by done.
  change 0xFFF with (Z.ones 12). rewrite Z.land_ones by lia. unfold PGSIZE.
  change (2 ^ 12) with 4096. lia.
Qed.

Lemma PDX_eq va : PDX va = (va / 4194304) mod 1024.
Proof.
  unfold PDX, PDXSHIFT. change 0x3FF with (Z.ones 10).
  rewrite Z.land_ones, Z.shiftr_div_pow2 by lia. done.
Qed.

Lemma PTX_eq va : PTX va = (va / 4096) mod 1024.
Proof.
  unfold PTX, PTXSHIFT. change 0x3FF with (Z.ones 10).
  rewrite Z.land_ones, Z.shiftr_div_pow2 by lia. done.
Qed.

(** * A page address or-ed with flags *)

Lemma testbit_small f n i : 0 <= f < 2 ^ n -> n <= i -> Z.testbit f i = false.
Proof.
  intros Hf Hi. destruct (Z.ltb_spec n 0).
  - rewrite Z.pow_neg_r in Hf by lia. lia.
  - rewrite <- (Z.mod_small f (2 ^ n)) by lia. apply Z.mod_pow2_bits_high. lia.
Qed.

Lemma testbit_page x i : x mod PGSIZE = 0 -> i < 12 -> Z.testbit x i = false.
Proof.
  intros Hx Hi. destruct (Z.ltb_spec i 0); [now rewrite Z.testbit_neg_r|].
  rewrite <- (Z.mod_pow2_bits_low x 12 i) by lia. change (2 ^ 12) with PGSIZE.
  rewrite Hx. apply Z.bits_0.
Qed.

Lemma land_page_flags x f : x mod PGSIZE = 0 -> 0 <= f < PGSIZE -> Z.land x f = 0.
Proof.
  intros Hx Hf. apply Z.bits_inj'. intros i Hi. rewrite Z.land_spec, Z.bits_0.
  destruct (Z.ltb_spec i 12).
  - now rewrite testbit_page.
  - rewrite (testbit_small f 12) by (change (2 ^ 12) with PGSIZE; lia). apply andb_false_r.
Qed.

Lemma lor_page_flags x f : x mod PGSIZE = 0 -> 0 <= f < PGSIZE -> Z.lor x f = x + f.
Proof.
  intros Hx Hf. pose proof (land_page_flags x f Hx Hf) as H.
  rewrite Z.add_nocarry_lxor, Z.lxor_lor; done.
Qed.

(** A page-table entry built from a page address and flags gives them back. *)
Lemma PTE_ADDR_lor x f :
  is_u32 x -> x mod PGSIZE = 0 -> 0 <= f < PGSIZE -> PTE_ADDR (Z.lor x f) = x.
Proof.
  intros Hu Hx Hf. unfold PTE_ADDR. rewrite lor_page_flags by done.
  assert (Hle : x + f < 4294967296).
  { unfold is_u32, PGSIZE in *. pose proof (Z_div_mod_eq_full x 4096). lia. }
  rewrite land_page by (unfold is_u32 in *; lia).
  rewrite Z.add_mod, Hx, Z.add_0_l, Z.mod_mod, Z.mod_small by done. lia.
Qed.

Lemma PTE_lor_land x f g :
  x mod PGSIZE = 0 -> 0 <= g < PGSIZE -> Z.land (Z.lor x f) g = Z.land f g.
Proof.
  intros Hx Hg. rewrite Z.land_lor_distr_l, land_page_flags by done. apply Z.lor_0_l.
Qed.

Lemma PTE_FLAGS_lor x f : x mod PGSIZE = 0 -> 0 <= f < PGSIZE -> PTE_FLAGS (Z.lor x f) = f.
Proof.
  intros Hx Hf. unfold PTE_FLAGS. rewrite PTE_lor_land by done.
  change 0xFFF with (Z.ones 12). rewrite Z.land_ones by lia. change (2 ^ 12) with PGSIZE.
  now apply Z.mod_small.
Qed.

Lemma PTE_ADDR_page pte : is_u32 pte -> PTE_ADDR pte mod PGSIZE = 0 /\ is_u32 (PTE_ADDR pte).
Proof.
  intros H. unfold PTE_ADDR. rewrite land_page by done. unfold is_u32, PGSIZE in *.
  pose proof (Z_div_mod_eq_full pte 4096). pose proof (Z.mod_pos_bound pte 4096).
  split; [|lia]. replace (pte - pte mod 4096) with (pte / 4096 * 4096) by lia.
  now rewrite Z.mod_mul.
Qed.

Lemma V2P_small v : KERNBASE <= v < KERNBASE + PHYSTOP -> V2P v = v - KERNBASE.
Proof. intros H. unfold V2P. apply u32_small. unfold is_u32, KERNBASE, PHYSTOP in *. lia. Qed.

Lemma P2V_V2P v : KERNBASE <= v < KERNBASE + PHYSTOP -> P2V (V2P v) = v.
Proof.
  intros H. rewrite V2P_small by done. unfold P2V. rewrite u32_small; [lia|].
  unfold is_u32, KERNBASE, PHYSTOP in *. lia.
Qed.

(** PDX and PTX of an address, and of two addresses. *)
Lemma PDX_range va : 0 <= PDX va < 1024.
Proof. rewrite PDX_eq. apply Z.mod_pos_bound. lia. Qed.

Lemma PTX_range va : 0 <= PTX va < 1024.
Proof. rewrite PTX_eq. apply Z.mod_pos_bound. lia. Qed.

Lemma PDX_PTX_page va : is_u32 va -> va / PGSIZE = PDX va * 1024 + PTX va.
Proof.
  intros H. rewrite PDX_eq, PTX_eq. unfold is_u32, PGSIZE in *.
  rewrite (Z.mod_small (va / 4194304)).
  - change 4194304 with (4096 * 1024). rewrite <- Z.div_div by lia.
    pose proof (Z_div_mod_eq_full (va / 4096) 1024). lia.
  - split; [apply Z.div_pos; lia|]. apply Z.div_lt_upper_bound; lia.
Qed.
