(* ===== verification/Spinlock.v ===== *)
(** spinlock.c and the parts of proc.c and x86.h it needs: the per-CPU state,
    [mycpu], interrupt nesting ([pushcli]/[popcli]), the spin lock built on
    [xchg], the call-stack walk, and a model of several CPUs contending for
    locks as a step relation. *)
From S2P Require Import Prelude Monad Mmu.

(** * State *)

(** struct cpu (proc.h), the fields the lock code and the scheduler use. *)
Record cpu : Type := Cpu {
  c_apicid : Z;
  c_ncli : Z;
  c_intena : Z;
  c_proc : option nat
}.

(** struct spinlock (spinlock.h). *)
Record spinlock : Type := Spinlock {
  l_locked : Z;
  l_name : string;
  l_cpu : option nat;
  l_pcs : list Z
}.

(** One processor as the hardware has it: its local APIC id and the
    interrupt-enable bit of its eflags register. *)
Record core : Type := Core { hw_lapicid : Z; hw_if : bool }.

Record machine : Type := Machine {
  m_cpus : list cpu;
  m_ncpu : nat;
  m_cores : list core;
  m_locks : list spinlock
}.

Definition set_cpus (f : list cpu -> list cpu) (m : machine) : machine :=
  Machine (f (m_cpus m)) (m_ncpu m) (m_cores m) (m_locks m).
Definition set_cores (f : list core -> list core) (m : machine) : machine :=
  Machine (m_cpus m) (m_ncpu m) (f (m_cores m)) (m_locks m).
Definition set_locks (f : list spinlock -> list spinlock) (m : machine) : machine :=
  Machine (m_cpus m) (m_ncpu m) (m_cores m) (f (m_locks m)).

Definition core0 : core := Core 0 false.
Definition cpu0 : cpu := Cpu 0 0 0 None.
Definition lock0 : spinlock := Spinlock 0 "lock" None (replicate 10 0).

Section OnCore.
(** The processor that executes the code. *)
Variable me : nat.

Definition mycore (m : machine) : core := default core0 (m_cores m !! me).

(** * x86.h *)

Definition readeflags : M machine Z :=
  gets (fun m => if hw_if (mycore m) then FL_IF else 0).
Definition set_if (b : bool) (m : machine) : machine :=
  set_cores (alter (fun k => Core (hw_lapicid k) b) me) m.
Definition cli : M machine unit := modify (set_if false).
Definition sti : M machine unit := modify (set_if true).

(** [xchg(addr, newval)] on the word of a lock: store and return the old value,
    in one bus-locked instruction. *)
Definition xchg (lk : nat) (newval : Z) : M machine Z :=
  let* old := gets (fun m => l_locked (default lock0 (m_locks m !! lk))) in
  modify (set_locks (alter (fun l => Spinlock newval (l_name l) (l_cpu l) (l_pcs l)) lk)) ;;;
  ret old.

(** * proc.c: mycpu *)

Fixpoint find_cpu (i : nat) (n : nat) (id : Z) (cpus : list cpu) : option nat :=
  match n with
  | O => None
  | S n' =>
      if c_apicid (default cpu0 (cpus !! i)) =? id then Some i
      else find_cpu (S i) n' id cpus
  end.

Definition mycpu : M machine nat :=
  let* fl := readeflags in
  if negb (Z.land fl FL_IF =? 0) then panic "mycpu called with interrupts enabled"
  else
    let* r := gets (fun m => find_cpu 0 (m_ncpu m) (hw_lapicid (mycore m)) (m_cpus m)) in
    match r with
    | Some i => ret i
    | None => panic "unknown apicid"
    end.

(** [cpuid()] is the index of [mycpu()] in [cpus]. *)
Definition cpuid : M machine nat := mycpu.

Definition cpu_field {A} (f : cpu -> A) : M machine A :=
  let* i := mycpu in
  gets (fun m => f (default cpu0 (m_cpus m !! i))).
Definition cpu_update (f : cpu -> cpu) : M machine unit :=
  let* i := mycpu in
  modify (set_cpus (alter f i)).

Definition with_ncli (n : Z) (c : cpu) : cpu := Cpu (c_apicid c) n (c_intena c) (c_proc c).
Definition with_intena (n : Z) (c : cpu) : cpu := Cpu (c_apicid c) (c_ncli c) n (c_proc c).

(** * Interrupt nesting *)

Definition pushcli : M machine unit :=
  let* eflags := readeflags in
  cli ;;;
  let* n := cpu_field c_ncli in
  (if n =? 0 then cpu_update (with_intena (Z.land eflags FL_IF)) else ret tt) ;;;
  let* n := cpu_field c_ncli in
  cpu_update (with_ncli (n + 1)).

Definition popcli : M machine unit :=
  let* fl := readeflags in
  if negb (Z.land fl FL_IF =? 0) then panic "popcli - interruptible"
  else
    let* n := cpu_field c_ncli in
    cpu_update (with_ncli (n - 1)) ;;;
    if n - 1 <? 0 then panic "popcli"
    else
      let* n := cpu_field c_ncli in
      let* ie := cpu_field c_intena in
      if (n =? 0) && negb (ie =? 0) then sti else ret tt.

(** [myproc()]: the process of this CPU, read with interrupts off. *)
Definition myproc : M machine (option nat) :=
  pushcli ;;;
  let* p := cpu_field c_proc in
  popcli ;;;
  ret p.

(** * The lock *)

Definition initlock (lk : nat) (name : string) : M machine unit :=
  modify (set_locks (alter (fun l => Spinlock 0 name None (l_pcs l)) lk)).

(** Is this CPU holding the lock?  [mycpu()] is evaluated only when the lock
    is taken. *)
Definition holding (lk : nat) : M machine bool :=
  let* l := gets (fun m => default lock0 (m_locks m !! lk)) in
  if l_locked l =? 0 then ret false
  else
    let* i := mycpu in
    ret (bool_decide (l_cpu l = Some i)).

Definition set_lcpu (c : option nat) (l : spinlock) : spinlock :=
  Spinlock (l_locked l) (l_name l) c (l_pcs l).
Definition set_pcs (p : list Z) (l : spinlock) : spinlock :=
  Spinlock (l_locked l) (l_name l) (l_cpu l) p.

(** [getcallerpcs]: follow the saved frame pointers, at most ten frames,
    stopping at a pointer outside the kernel, and fill the rest with zero.
    [ld] reads a word of memory. *)
Fixpoint getcallerpcs_from (ld : Z -> Z) (n : nat) (ebp : Z) : list Z :=
  match n with
  | O => []
  | S n' =>
      if (ebp =? 0) || (ebp <? KERNBASE) || (ebp =? 0xffffffff) then replicate n 0
      else ld (u32 (ebp + 4)) :: getcallerpcs_from ld n' (ld ebp)
  end.
Definition getcallerpcs (ld : Z -> Z) (v : Z) : list Z :=
  getcallerpcs_from ld 10 (u32 (v - 8)).

(** The [while(xchg(&lk->locked, 1) != 0);] loop, [fuel] attempts. *)
Fixpoint spin (fuel : nat) (lk : nat) : M machine unit :=
  match fuel with
  | O => fun _ _ => OutOfFuel
  | S n =>
      let* old := xchg lk 1 in
      if old =? 0 then ret tt else spin n lk
  end.

(** [acquire(lk)].  [frames] is what [getcallerpcs(&lk, lk->pcs)] records. *)
Definition acquire (fuel : nat) (frames : list Z) (lk : nat) : M machine unit :=
  pushcli ;;;
  let* h := holding lk in
  if h then panic "acquire"
  else
    spin fuel lk ;;;
    let* i := mycpu in
    modify (set_locks (alter (set_lcpu (Some i)) lk)) ;;;
    modify (set_locks (alter (set_pcs frames) lk)).

Definition release (lk : nat) : M machine unit :=
  let* h := holding lk in
  if negb h then panic "release"
  else
    modify (set_locks (alter (fun l => set_pcs (<[0%nat := 0]> (l_pcs l)) l) lk)) ;;;
    modify (set_locks (alter (set_lcpu None) lk)) ;;;
    modify (set_locks (alter (fun l => Spinlock 0 (l_name l) (l_cpu l) (l_pcs l)) lk)) ;;;
    popcli.

End OnCore.

(** * Which CPU is running *)

(** Processor [me] is described by [cpus[i]]. *)
Definition runs_as (me i : nat) (m : machine) : Prop :=
  (me < length (m_cores m))%nat /\ (i < length (m_cpus m))%nat /\
  find_cpu 0 (m_ncpu m) (hw_lapicid (mycore me m)) (m_cpus m) = Some i.

(** The processor's interrupts are off. *)
Definition if_off (me : nat) (m : machine) : Prop := hw_if (mycore me m) = false.

Definition the_cpu (i : nat) (m : machine) : cpu := default cpu0 (m_cpus m !! i).

Lemma find_cpu_ext i n id l l' :
  (forall k, c_apicid (default cpu0 (l !! k)) = c_apicid (default cpu0 (l' !! k))) ->
  find_cpu i n id l = find_cpu i n id l'.
Proof.
  intros H. revert i. induction n as [|n IH]; intros i; simpl; [done|].
  rewrite H. case_if; auto.
Qed.

Lemma alter_cpu_apicid f j (l : list cpu) k :
  (forall c, c_apicid (f c) = c_apicid c) ->
  c_apicid (default cpu0 (alter f j l !! k)) = c_apicid (default cpu0 (l !! k)).
Proof.
  intros Hf. destruct (decide (j = k)) as [->|Hne].
  - rewrite list_lookup_alter_eq. destruct (l !! k); simpl; auto.
  - now rewrite list_lookup_alter_ne.
Qed.

Lemma mycore_set_if me b m :
  (me < length (m_cores m))%nat ->
  mycore me (set_if me b m) = Core (hw_lapicid (mycore me m)) b.
Proof.
  intros H. unfold mycore, set_if, set_cores. simpl.
  rewrite list_lookup_alter_eq. apply lookup_lt_is_Some in H as [k ->]. done.
Qed.

Lemma runs_as_set_if me i b m : runs_as me i m -> runs_as me i (set_if me b m).
Proof.
  intros (H1 & H2 & H3). repeat split; simpl; [now rewrite length_alter|done|].
  now rewrite mycore_set_if.
Qed.

Lemma runs_as_set_cpu me i f j m :
  (forall c, c_apicid (f c) = c_apicid c) ->
  runs_as me i m -> runs_as me i (set_cpus (alter f j) m).
Proof.
  intros Hf (H1 & H2 & H3). repeat split; simpl; [done|now rewrite length_alter|].
  rewrite <- H3. apply find_cpu_ext. intros k. now apply alter_cpu_apicid.
Qed.

Lemma runs_as_set_locks me i f m : runs_as me i m -> runs_as me i (set_locks f m).
Proof. done. Qed.

Lemma the_cpu_alter i f m :
  (i < length (m_cpus m))%nat -> the_cpu i (set_cpus (alter f i) m) = f (the_cpu i m).
Proof.
  intros H. unfold the_cpu. simpl. rewrite list_lookup_alter_eq.
  apply lookup_lt_is_Some in H as [k ->]. done.
Qed.

#[export] Hint Resolve runs_as_set_if runs_as_set_cpu runs_as_set_locks : machine.

Lemma wp_mycpu me i Q c m :
  runs_as me i m -> if_off me m -> Q i c m -> wp (mycpu me) Q c m.
Proof.
  intros (_ & _ & Hf) Hoff HQ. unfold mycpu, readeflags. wp_steps.
  rewrite Hoff. simpl. wp_steps. rewrite Hf. apply wp_ret, HQ.
Qed.

Lemma wp_cpu_field {A} me i (f : cpu -> A) Q c m :
  runs_as me i m -> if_off me m -> Q (f (the_cpu i m)) c m -> wp (cpu_field me f) Q c m.
Proof.
  intros Hr Hoff HQ. unfold cpu_field. apply wp_bind. eapply wp_mycpu; eauto.
Qed.

Lemma wp_cpu_update me i f Q c m :
  runs_as me i m -> if_off me m -> Q tt c (set_cpus (alter f i) m) ->
  wp (cpu_update me f) Q c m.
Proof.
  intros Hr Hoff HQ. unfold cpu_update. apply wp_bind. eapply wp_mycpu; eauto.
Qed.

Lemma if_off_set_cpus me f m : if_off me (set_cpus f m) <-> if_off me m.
Proof. done. Qed.

Lemma if_off_set_if me m : (me < length (m_cores m))%nat -> if_off me (set_if me false m).
Proof. intros H. unfold if_off. now rewrite mycore_set_if. Qed.

(** * Functional behaviour of the nesting *)

(** What [pushcli] makes of [cpus[i]]; [b] is the interrupt flag it saw. *)
Definition pushed (b : bool) (c : cpu) : cpu :=
  Cpu (c_apicid c) (c_ncli c + 1)
      (if c_ncli c =? 0 then (if b then FL_IF else 0) else c_intena c) (c_proc c).

Lemma set_cpus_compose i f g m :
  set_cpus (alter f i) (set_cpus (alter g i) m) = set_cpus (alter (f ∘ g) i) m.
Proof.
  unfold set_cpus. simpl. f_equal. apply list_eq. intros k.
  destruct (decide (i = k)) as [<-|Hne]; [|now rewrite !list_lookup_alter_ne].
  rewrite !list_lookup_alter_eq. destruct (m_cpus m !! i); done.
Qed.

Lemma set_cpus_ext i f g m :
  f (the_cpu i m) = g (the_cpu i m) -> set_cpus (alter f i) m = set_cpus (alter g i) m.
Proof.
  intros H. unfold set_cpus. simpl. f_equal. apply list_eq. intros k.
  destruct (decide (i = k)) as [<-|Hne]; [|now rewrite !list_lookup_alter_ne].
  rewrite !list_lookup_alter_eq. unfold the_cpu in H.
  destruct (m_cpus m !! i); simpl in *; congruence.
Qed.

Lemma wp_pushcli me i Q c m :
  runs_as me i m ->
  Q tt c (set_cpus (alter (pushed (hw_if (mycore me m))) i) (set_if me false m)) ->
  wp (pushcli me) Q c m.
Proof.
  intros Hr HQ. unfold pushcli, readeflags, cli. wp_steps.
  pose proof (if_off_set_if me m (proj1 Hr)) as Hoff.
  pose proof (runs_as_set_if me i false m Hr) as Hr1.
  set (m1 := set_if me false m) in *.
  eapply wp_cpu_field; [done..|].
  replace (Z.land _ FL_IF) with (if hw_if (mycore me m) then FL_IF else 0)
    by (destruct (hw_if _); done).
  apply wp_bind. destruct (c_ncli (the_cpu i m1) =? 0) eqn:E.
  - eapply wp_cpu_update; [done..|]. wp_steps.
    eapply wp_cpu_field; [eauto with machine|done|].
    eapply wp_cpu_update; [eauto with machine|done|].
    rewrite set_cpus_compose, the_cpu_alter by apply Hr.
    erewrite set_cpus_ext; [exact HQ|]. unfold pushed. simpl. now rewrite E.
  - wp_steps. eapply wp_cpu_field; [done..|]. eapply wp_cpu_update; [done..|].
    erewrite set_cpus_ext; [exact HQ|]. unfold pushed, with_ncli. now rewrite E.
Qed.

(** What [popcli] makes of the machine when the nesting depth is positive. *)
Definition popped (me i : nat) (m : machine) : machine :=
  let m1 := set_cpus (alter (with_ncli (c_ncli (the_cpu i m) - 1)) i) m in
  if (c_ncli (the_cpu i m) =? 1) && negb (c_intena (the_cpu i m) =? 0)
  then set_if me true m1 else m1.

Lemma wp_popcli me i Q c m :
  runs_as me i m -> if_off me m -> 0 < c_ncli (the_cpu i m) ->
  Q tt c (popped me i m) -> wp (popcli me) Q c m.
Proof.
  intros Hr Hoff Hn HQ. unfold popcli, readeflags. wp_steps. rewrite Hoff. simpl. wp_steps.
  eapply wp_cpu_field; [done..|]. wp_steps. eapply wp_cpu_update; [done..|].
  destruct (Z.ltb_spec (c_ncli (the_cpu i m) - 1) 0); [lia|]. wp_steps.
  eapply wp_cpu_field; [eauto with machine|done|]. wp_steps.
  eapply wp_cpu_field; [eauto with machine|done|].
  rewrite the_cpu_alter by apply Hr. simpl. unfold popped in HQ.
  replace (c_ncli (the_cpu i m) - 1 =? 0) with (c_ncli (the_cpu i m) =? 1)
    by (destruct (Z.eqb_spec (c_ncli (the_cpu i m)) 1), (Z.eqb_spec (c_ncli (the_cpu i m) - 1) 0); lia).
  case_if; [unfold sti|]; wp_steps; exact HQ.
Qed.

(** The interrupt flag agrees with the nesting depth. *)
Definition nest_ok (me i : nat) (m : machine) : Prop :=
  runs_as me i m /\ 0 <= c_ncli (the_cpu i m) /\
  (0 < c_ncli (the_cpu i m) -> if_off me m).

(** A sequence of [pushcli] ([true]) and [popcli] ([false]). *)
Fixpoint cli_ops (me : nat) (ops : list bool) : M machine unit :=
  match ops with
  | [] => ret tt
  | true :: ops' => pushcli me ;;; cli_ops me ops'
  | false :: ops' => popcli me ;;; cli_ops me ops'
  end.

(** The sequence is matched: it brings the depth from [d] to 0 and no
    [popcli] lacks its [pushcli]. *)
Fixpoint matched (d : nat) (ops : list bool) : bool :=
  match ops with
  | [] => Nat.eqb d 0
  | true :: ops' => matched (S d) ops'
  | false :: ops' => match d with O => false | S d' => matched d' ops' end
  end.

Definition with_nest (n v : Z) (c : cpu) : cpu := Cpu (c_apicid c) n v (c_proc c).

(** The machine [d] levels deep, started from [m]. *)
Definition at_depth (me i : nat) (m : machine) (d : nat) (m' : machine) : Prop :=
  exists v,
    ((0 < d)%nat \/ 0 < c_ncli (the_cpu i m) -> v = if c_ncli (the_cpu i m) =? 0
                  then (if hw_if (mycore me m) then FL_IF else 0)
                  else c_intena (the_cpu i m)) /\
    m' = set_cpus (alter (with_nest (c_ncli (the_cpu i m) + Z.of_nat d) v) i)
           (set_if me (match d with O => hw_if (mycore me m) | _ => false end) m).

Lemma set_if_id me b m : hw_if (mycore me m) = b -> set_if me b m = m.
Proof.
  intros Hb. destruct m as [cp n co lo]. unfold set_if, set_cores, mycore in *.
  simpl in *. f_equal. apply list_eq. intros k. destruct (decide (me = k)) as [<-|Hne];
    [|now rewrite list_lookup_alter_ne].
  rewrite list_lookup_alter_eq. destruct (co !! me) as [[ap fl]|]; simpl in *; congruence.
Qed.

Lemma set_if_set_if me b b' m : set_if me b (set_if me b' m) = set_if me b m.
Proof.
  unfold set_if, set_cores. simpl. f_equal. apply list_eq. intros k.
  destruct (decide (me = k)) as [<-|Hne]; [|now rewrite !list_lookup_alter_ne].
  rewrite !list_lookup_alter_eq. destruct (m_cores m !! me); done.
Qed.

Lemma set_if_set_cpus me b f m : set_if me b (set_cpus f m) = set_cpus f (set_if me b m).
Proof. done. Qed.

Lemma at_depth_start me i m : at_depth me i m 0 m.
Proof.
  exists (c_intena (the_cpu i m)). split.
  { intros [H|H]; [lia|]. destruct (Z.eqb_spec (c_ncli (the_cpu i m)) 0); [lia|done]. }
  rewrite set_if_id by done.
  symmetry. destruct m as [cp n co lo]. unfold set_cpus. simpl. f_equal.
  apply list_eq. intros k. destruct (decide (i = k)) as [<-|Hne];
    [|now rewrite list_lookup_alter_ne].
  rewrite list_lookup_alter_eq. unfold the_cpu. simpl.
  destruct (cp !! i) as [[? ? ? ?]|]; simpl; [|done]. unfold with_nest. simpl.
  do 2 f_equal. lia.
Qed.

(** [n] levels deep, [cpus[i]] counts [n] and keeps the saved flag. *)
Lemma at_depth_inv me i m d m' :
  nest_ok me i m -> at_depth me i m d m' ->
  runs_as me i m' /\ c_ncli (the_cpu i m') = c_ncli (the_cpu i m) + Z.of_nat d /\
  hw_if (mycore me m') = match d with O => hw_if (mycore me m) | _ => false end.
Proof.
  intros (Hr & Hn & Hoff) (v & Hv & ->). rewrite the_cpu_alter by apply Hr. simpl.
  split; [|split]; [|done|].
  - apply runs_as_set_cpu; [done|]. now apply runs_as_set_if.
  - change (mycore me (set_cpus ?f ?x)) with (mycore me x).
    now rewrite mycore_set_if by apply Hr.
Qed.

Lemma at_depth_push me i m d m' :
  nest_ok me i m -> at_depth me i m d m' ->
  at_depth me i m (S d)
    (set_cpus (alter (pushed (hw_if (mycore me m'))) i) (set_if me false m')).
Proof.
  intros Hok Hd. destruct (at_depth_inv _ _ _ _ _ Hok Hd) as (_ & En & Eif).
  destruct Hd as (v & Hv & Hm'). destruct Hok as (Hr & Hn & Hoff).
  eexists. split; [intros _; reflexivity|].
  rewrite Eif, Hm', set_if_set_cpus, set_if_set_if, set_cpus_compose.
  apply set_cpus_ext. change (the_cpu i (set_if ?a ?b ?x)) with (the_cpu i x).
  unfold pushed, with_nest. simpl. f_equal; [lia|].
  destruct d as [|d].
  - rewrite Z.add_0_r. destruct (Z.eqb_spec (c_ncli (the_cpu i m)) 0); [done|].
    rewrite Hv by (right; lia). now destruct (Z.eqb_spec (c_ncli (the_cpu i m)) 0).
  - rewrite Hv by lia. destruct (Z.eqb_spec (c_ncli (the_cpu i m) + Z.of_nat (S d)) 0); [lia|done].
Qed.

Lemma at_depth_pop me i m d m' :
  nest_ok me i m -> at_depth me i m (S d) m' -> at_depth me i m d (popped me i m').
Proof.
  intros Hok Hd. destruct (at_depth_inv _ _ _ _ _ Hok Hd) as (Hr' & En & Eif).
  destruct Hd as (v & Hv & Hm'). destruct Hok as (Hr & Hn & Hoff).
  exists v. split; [intros _; apply Hv; lia|]. unfold popped. rewrite En.
  assert (Ei : c_intena (the_cpu i m') = v)
    by (rewrite Hm', the_cpu_alter by apply Hr; done). rewrite Ei.
  assert (Em : set_cpus (alter (with_ncli (c_ncli (the_cpu i m) + Z.of_nat (S d) - 1)) i) m' =
               set_cpus (alter (with_nest (c_ncli (the_cpu i m) + Z.of_nat d) v) i)
                 (set_if me false m)).
  { rewrite Hm', set_cpus_compose. apply set_cpus_ext. unfold with_ncli, with_nest. simpl.
    f_equal. lia. }
  rewrite Em. rewrite Hv in * by lia. clear Em Ei.
  destruct d as [|d].
  - destruct (Z.eqb_spec (c_ncli (the_cpu i m)) 0) as [E0|E0].
    + rewrite E0. simpl. destruct (hw_if (mycore me m)) eqn:Eb; simpl.
      * now rewrite set_if_set_cpus, set_if_set_if.
      * done.
    + destruct (Z.eqb_spec (c_ncli (the_cpu i m) + Z.of_nat 1) 1); [lia|]. simpl.
      now rewrite Hoff by lia.
  - destruct (Z.eqb_spec (c_ncli (the_cpu i m) + Z.of_nat (S (S d))) 1); [lia|done].
Qed.

Lemma cli_ops_depth me i m ops d m' c :
  nest_ok me i m -> at_depth me i m d m' -> matched d ops = true ->
  wp (cli_ops me ops) (fun _ c' m'' => c' = c /\ at_depth me i m 0 m'') c m'.
Proof.
  intros Hok. revert d m'. induction ops as [|[] ops IH]; intros d m' Hd Hm; simpl in *.
  - destruct d; [|done]. now wp_steps.
  - destruct (at_depth_inv _ _ _ _ _ Hok Hd) as (Hr' & _). apply wp_bind.
    eapply wp_pushcli; [done|]. eapply IH; [|done]. now apply at_depth_push.
  - destruct d as [|d]; [done|].
    destruct (at_depth_inv _ _ _ _ _ Hok Hd) as (Hr' & En & Eif). apply wp_bind.
    eapply wp_popcli; [done|exact Eif|destruct Hok as (_ & ? & _); lia|].
    eapply IH; [|done]. now apply at_depth_pop.
Qed.

(** * Behaviour of the lock operations on one CPU *)

Definition the_lock (lk : nat) (m : machine) : spinlock := default lock0 (m_locks m !! lk).

Lemma wp_holding me i lk Q c m :
  runs_as me i m -> if_off me m ->
  Q (negb (l_locked (the_lock lk m) =? 0) && bool_decide (l_cpu (the_lock lk m) = Some i)) c m ->
  wp (holding me lk) Q c m.
Proof.
  intros Hr Hoff HQ. unfold holding. wp_steps. fold (the_lock lk m). case_if; simpl in HQ.
  - now wp_steps.
  - wp_steps. eapply wp_mycpu; eauto.
Qed.

Lemma the_lock_alter lk f m :
  (lk < length (m_locks m))%nat -> the_lock lk (set_locks (alter f lk) m) = f (the_lock lk m).
Proof.
  intros H. unfold the_lock. simpl. rewrite list_lookup_alter_eq.
  apply lookup_lt_is_Some in H as [k ->]. done.
Qed.

Lemma the_lock_set_if lk me b m : the_lock lk (set_if me b m) = the_lock lk m.
Proof. done. Qed.

Definition set_locked (v : Z) (l : spinlock) : spinlock :=
  Spinlock v (l_name l) (l_cpu l) (l_pcs l).

Lemma wp_xchg lk v Q c m :
  Q (l_locked (the_lock lk m)) c (set_locks (alter (set_locked v) lk) m) ->
  wp (xchg lk v) Q c m.
Proof. intros HQ. unfold xchg. wp_steps. exact HQ. Qed.

Lemma set_locks_compose lk f g m :
  set_locks (alter f lk) (set_locks (alter g lk) m) = set_locks (alter (f ∘ g) lk) m.
Proof.
  unfold set_locks. simpl. f_equal. apply list_eq. intros k.
  destruct (decide (lk = k)) as [<-|Hne]; [|now rewrite !list_lookup_alter_ne].
  rewrite !list_lookup_alter_eq. destruct (m_locks m !! lk); done.
Qed.

(** [acquire] of a free lock succeeds at the first attempt: the CPU ends with
    interrupts off, one level deeper, and recorded as the holder. *)
Lemma wp_acquire_free me i lk n frames Q c m :
  runs_as me i m -> l_locked (the_lock lk m) = 0 ->
  Q tt c (set_locks (alter (fun l => Spinlock 1 (l_name l) (Some i) frames) lk)
           (set_cpus (alter (pushed (hw_if (mycore me m))) i) (set_if me false m))) ->
  wp (acquire me (S n) frames lk) Q c m.
Proof.
  intros Hr Hfree HQ. unfold acquire. apply wp_bind. eapply wp_pushcli; [done|].
  set (m1 := set_cpus _ _) in *.
  assert (Hr1 : runs_as me i m1) by (subst m1; auto with machine).
  assert (Hoff1 : if_off me m1) by (apply if_off_set_if, Hr).
  apply wp_bind. eapply wp_holding; [done..|].
  change (the_lock lk m1) with (the_lock lk m). rewrite Hfree. simpl.
  apply wp_bind. apply wp_bind. apply wp_xchg.
  change (the_lock lk m1) with (the_lock lk m). rewrite Hfree. simpl. wp_steps.
  apply (wp_mycpu me i); [auto with machine|done|]. wp_steps. rewrite !set_locks_compose. exact HQ.
Qed.

(** A second [acquire] by the holder panics. *)
Lemma acquire_twice_panics me i lk n frames c m :
  runs_as me i m -> l_locked (the_lock lk m) <> 0 -> l_cpu (the_lock lk m) = Some i ->
  acquire me n frames lk c m = Panic "acquire".
Proof.
  intros Hr Hl Hc. unfold acquire, bind at 1.
  destruct (wp_inv (pushcli me) (fun _ c' m' => c' = c /\ runs_as me i m' /\ if_off me m' /\
     the_lock lk m' = the_lock lk m) c m) as (a & c' & m' & E & -> & Hr' & Hoff' & El).
  { eapply wp_pushcli; [done|]. split; [done|]. split; [|split; [|done]].
    - auto with machine.
    - apply if_off_set_if, Hr. }
  rewrite E. simpl. unfold bind at 1.
  destruct (wp_inv (holding me lk) (fun b c' m'' => b = true) c m')
    as (b & c2 & m2 & E2 & ->).
  { eapply wp_holding; [done..|]. rewrite El, Hc.
    destruct (Z.eqb_spec (l_locked (the_lock lk m)) 0); [done|]. simpl.
    now apply bool_decide_eq_true. }
  rewrite E2. done.
Qed.

(** [release] by the holder frees the lock and undoes one [pushcli]. *)
Lemma wp_release_held me i lk Q c m :
  runs_as me i m -> if_off me m -> 0 < c_ncli (the_cpu i m) ->
  l_locked (the_lock lk m) <> 0 -> l_cpu (the_lock lk m) = Some i ->
  Q tt c (popped me i
           (set_locks (alter (fun l => Spinlock 0 (l_name l) None (<[0%nat := 0]> (l_pcs l))) lk) m)) ->
  wp (release me lk) Q c m.
Proof.
  intros Hr Hoff Hn Hl Hc HQ. unfold release. apply wp_bind. eapply wp_holding; [done..|].
  rewrite Hc. destruct (Z.eqb_spec (l_locked (the_lock lk m)) 0); [done|].
  rewrite bool_decide_eq_true_2 by done. simpl. wp_steps. rewrite !set_locks_compose.
  apply (wp_popcli me i); [auto with machine|done|done|]. exact HQ.
Qed.

(** * Several CPUs *)

(** Where a processor is in [acquire(lk); ...critical section...; release(lk)]. *)
Inductive pc : Type :=
| PIdle       (* outside *)
| PEnter      (* acquire: after pushcli *)
| PSpin       (* acquire: in the xchg loop *)
| PGot        (* acquire: xchg returned 0, lk->cpu not yet set *)
| PCrit       (* between acquire and release *)
| PLeave      (* release: lk->cpu cleared, lk->locked not yet *)
| PUnlocked.  (* release: before popcli *)

#[global] Instance pc_eq_dec : EqDecision pc.
Proof. solve_decision. Defined.

Record smp : Type := Smp { sm : machine; spc : list pc }.

Definition c0 : ctx := Ctx [] [].

(** One step of one processor: an atomic piece of the code above, run on the
    shared machine. *)
Inductive smp_step (lk : nat) : smp -> smp -> Prop :=
| st_enter me m m' p :
    p !! me = Some PIdle -> pushcli me c0 m = Ret tt c0 m' ->
    smp_step lk (Smp m p) (Smp m' (<[me := PEnter]> p))
| st_check me m p :
    p !! me = Some PEnter -> holding me lk c0 m = Ret false c0 m ->
    smp_step lk (Smp m p) (Smp m (<[me := PSpin]> p))
| st_spin me m m' p old :
    p !! me = Some PSpin -> xchg lk 1 c0 m = Ret old c0 m' ->
    smp_step lk (Smp m p) (Smp m' (<[me := if old =? 0 then PGot else PSpin]> p))
| st_own me i m p :
    p !! me = Some PGot -> mycpu me c0 m = Ret i c0 m ->
    smp_step lk (Smp m p)
      (Smp (set_locks (alter (set_lcpu (Some i)) lk) m) (<[me := PCrit]> p))
| st_disown me m p :
    p !! me = Some PCrit -> holding me lk c0 m = Ret true c0 m ->
    smp_step lk (Smp m p)
      (Smp (set_locks (alter (set_lcpu None) lk) m) (<[me := PLeave]> p))
| st_unlock me m p :
    p !! me = Some PLeave ->
    smp_step lk (Smp m p)
      (Smp (set_locks (alter (set_locked 0) lk) m) (<[me := PUnlocked]> p))
| st_leave me m m' p :
    p !! me = Some PUnlocked -> popcli me c0 m = Ret tt c0 m' ->
    smp_step lk (Smp m p) (Smp m' (<[me := PIdle]> p)).

(** The processor is between the [xchg] that took the lock and the store that
    frees it. *)
Definition owns (p : pc) : bool :=
  match p with PGot | PCrit | PLeave => true | _ => false end.

Section Smp.
Variable lk : nat.
(** [idx me] is the entry of [cpus] that describes processor [me]. *)
Variable idx : nat -> nat.
Hypothesis idx_inj : forall a b, idx a = idx b -> a = b.

Definition core_ok (me : nat) (p : pc) (m : machine) : Prop :=
  nest_ok me (idx me) m /\ (p <> PIdle -> 0 < c_ncli (the_cpu (idx me) m)).

Definition cores_ok (s : smp) : Prop :=
  length (spc s) = length (m_cores (sm s)) /\
  forall me p, spc s !! me = Some p -> core_ok me p (sm s).

(** [o] is the processor that owns the lock, if any: the only one past a
    successful [xchg]; lk->cpu names it while it is in the critical section. *)
Definition lock_owner (l : spinlock) (ps : list pc) (o : option nat) : Prop :=
  (forall me p, ps !! me = Some p -> owns p = bool_decide (o = Some me)) /\
  (forall me, o = Some me -> is_Some (ps !! me)) /\
  l_locked l = match o with Some _ => 1 | None => 0 end /\
  l_cpu l = match o with
            | Some me => if bool_decide (ps !! me = Some PCrit) then Some (idx me) else None
            | None => None
            end.

Definition lock_ok (l : spinlock) (ps : list pc) : Prop := exists o, lock_owner l ps o.

Definition smp_inv (s : smp) : Prop :=
  (lk < length (m_locks (sm s)))%nat /\ cores_ok s /\ lock_ok (the_lock lk (sm s)) (spc s).

(** All processors idle, the lock as [initlock] leaves it. *)
Definition smp_init (s : smp) : Prop :=
  (lk < length (m_locks (sm s)))%nat /\ length (spc s) = length (m_cores (sm s)) /\
  (forall me p, spc s !! me = Some p -> p = PIdle /\ nest_ok me (idx me) (sm s)) /\
  l_locked (the_lock lk (sm s)) = 0 /\ l_cpu (the_lock lk (sm s)) = None.

Lemma smp_init_inv s : smp_init s -> smp_inv s.
Proof.
  intros (Hlk & Hlen & Hidle & Hl & Hc). split; [done|]. split; [split; [done|]|].
  - intros me p Hp. destruct (Hidle me p Hp) as [-> ?]. split; done.
  - exists None. split; [|split; [done|split; done]].
    intros me p Hp. destruct (Hidle me p Hp) as [-> _]. done.
Qed.

Lemma mycore_set_if_ne me me' b m : me <> me' -> mycore me' (set_if me b m) = mycore me' m.
Proof. intros H. unfold mycore, set_if, set_cores. simpl. now rewrite list_lookup_alter_ne. Qed.

Lemma the_cpu_alter_ne i j f m : i <> j -> the_cpu j (set_cpus (alter f i) m) = the_cpu j m.
Proof. intros H. unfold the_cpu. simpl. now rewrite list_lookup_alter_ne. Qed.

(** Code that changes only its own CPU leaves the others as they were. *)
Lemma core_ok_other me me' f b p m :
  me <> me' -> (forall c, c_apicid (f c) = c_apicid c) ->
  core_ok me' p m -> core_ok me' p (set_cpus (alter f (idx me)) (set_if me b m)).
Proof.
  intros Hne Hf ((Hr & Hn & Hoff) & Hp).
  assert (Hi : idx me <> idx me') by (intros E; now apply idx_inj in E).
  unfold core_ok, nest_ok, if_off in *. rewrite the_cpu_alter_ne by done.
  change (the_cpu (idx me') (set_if me b m)) with (the_cpu (idx me') m).
  change (mycore me' (set_cpus ?g ?x)) with (mycore me' x). rewrite mycore_set_if_ne by done.
  split; [|done]. split; [|done]. apply runs_as_set_cpu; [done|].
  destruct Hr as (H1 & H2 & H3). split; simpl; [now rewrite length_alter|].
  split; [done|]. now rewrite mycore_set_if_ne.
Qed.

Lemma cores_ok_locks f ps ps' m :
  length ps' = length ps ->
  (forall me p', ps' !! me = Some p' -> exists p, ps !! me = Some p /\ (p' <> PIdle -> p <> PIdle)) ->
  cores_ok (Smp m ps) -> cores_ok (Smp (set_locks f m) ps').
Proof.
  intros El Hps [Hlen H]. split; simpl in *; [congruence|]. intros me p' Hp'.
  destruct (Hps me p' Hp') as (p & Hp & Hi). destruct (H me p Hp) as [Hok Hn].
  split; [exact Hok|]. intros Hne. exact (Hn (Hi Hne)).
Qed.

(** Moving one processor between non-idle places. *)
Lemma busy_move (ps : list pc) me p q :
  ps !! me = Some p -> p <> PIdle ->
  forall me' p', <[me := q]> ps !! me' = Some p' ->
  exists p0, ps !! me' = Some p0 /\ (p' <> PIdle -> p0 <> PIdle).
Proof.
  intros Hp Hb me' p' H. destruct (decide (me = me')) as [<-|Hne].
  - exists p. done.
  - rewrite list_lookup_insert_ne in H by done. eauto.
Qed.

(** A processor that moves from [p] to [q]; [o'] is the owner afterwards. *)
Lemma lock_owner_move l l' (ps : list pc) me p q o o' :
  ps !! me = Some p -> lock_owner l ps o ->
  owns q = bool_decide (o' = Some me) ->
  (forall me', me' <> me -> o = Some me' <-> o' = Some me') ->
  l_locked l' = match o' with Some _ => 1 | None => 0 end ->
  (l_cpu l' = match o' with
     | Some me' => if bool_decide (<[me := q]> ps !! me' = Some PCrit) then Some (idx me') else None
     | None => None end) ->
  lock_owner l' (<[me := q]> ps) o'.
Proof.
  intros Hp (H1 & H2 & _ & _) Hq Ho Hl Hc.
  assert (Hlt : (me < length ps)%nat) by (apply lookup_lt_Some in Hp; done).
  split; [|split; [|split; done]].
  - intros me' p' Hp'. destruct (decide (me = me')) as [<-|Hne].
    + rewrite list_lookup_insert_eq in Hp' by done. congruence.
    + rewrite list_lookup_insert_ne in Hp' by done. rewrite (H1 _ _ Hp').
      apply bool_decide_ext. apply Ho. done.
  - intros me' Hme'. apply lookup_lt_is_Some. rewrite length_insert. destruct (decide (me = me')) as [<-|Hne]; [done|].
    apply lookup_lt_is_Some, H2. apply Ho; done.
Qed.

(** The owner of the lock, read off the place of one processor. *)
Lemma lock_owner_at l (ps : list pc) me p o :
  ps !! me = Some p -> lock_owner l ps o ->
  if owns p then o = Some me else o <> Some me.
Proof.
  intros Hp (H1 & _). specialize (H1 me p Hp). destruct (owns p).
  - symmetry in H1. now apply bool_decide_eq_true in H1.
  - symmetry in H1. now apply bool_decide_eq_false in H1.
Qed.

Lemma lock_ok_quiet l (ps : list pc) me p q :
  ps !! me = Some p -> owns p = false -> owns q = false ->
  lock_ok l ps -> lock_ok l (<[me := q]> ps).
Proof.
  intros Hp Hop Hoq (o & Ho). exists o. pose proof (lock_owner_at _ _ _ _ _ Hp Ho) as Hne.
  rewrite Hop in Hne. eapply lock_owner_move; eauto.
  - rewrite Hoq. symmetry. now apply bool_decide_eq_false.
  - apply Ho.
  - destruct Ho as (_ & _ & _ & ->). destruct o as [me'|]; [|done].
    rewrite list_lookup_insert_ne by congruence. done.
Qed.

(** Equations for the deterministic pieces. *)
Lemma pushcli_eq me i c m :
  runs_as me i m ->
  pushcli me c m = Ret tt c (set_cpus (alter (pushed (hw_if (mycore me m))) i) (set_if me false m)).
Proof.
  intros Hr.
  destruct (wp_inv (pushcli me) (fun _ c' m' => c' = c /\ m' =
     set_cpus (alter (pushed (hw_if (mycore me m))) i) (set_if me false m)) c m)
    as ([] & c' & m' & E & -> & ->); [|done].
  now apply (wp_pushcli me i).
Qed.

Lemma popcli_eq me i c m :
  runs_as me i m -> if_off me m -> 0 < c_ncli (the_cpu i m) ->
  popcli me c m = Ret tt c (popped me i m).
Proof.
  intros Hr Hoff Hn.
  destruct (wp_inv (popcli me) (fun _ c' m' => c' = c /\ m' = popped me i m) c m)
    as ([] & c' & m' & E & -> & ->); [|done].
  now apply (wp_popcli me i).
Qed.

Lemma mycpu_eq me i c m : runs_as me i m -> if_off me m -> mycpu me c m = Ret i c m.
Proof.
  intros Hr Hoff.
  destruct (wp_inv (mycpu me) (fun a c' m' => a = i /\ c' = c /\ m' = m) c m)
    as (a & c' & m' & E & -> & -> & ->); [|done].
  now apply (wp_mycpu me i).
Qed.

Lemma core_ok_pushed me p q m :
  core_ok me p m ->
  core_ok me q (set_cpus (alter (pushed (hw_if (mycore me m))) (idx me)) (set_if me false m)).
Proof.
  intros ((Hr & Hn & Hoff) & _).
  unfold core_ok, nest_ok. rewrite the_cpu_alter by apply Hr. simpl.
  change (the_cpu (idx me) (set_if me false m)) with (the_cpu (idx me) m).
  split; [|lia]. split; [|split; [lia|]]; [auto with machine|].
  intros _. apply if_off_set_if, Hr.
Qed.

Lemma core_ok_popped me p m :
  core_ok me p m -> p <> PIdle -> core_ok me PIdle (popped me (idx me) m).
Proof.
  intros ((Hr & Hn & Hoff) & Hp) Hb. specialize (Hp Hb). unfold popped.
  split; [|done]. unfold nest_ok.
  set (f := with_ncli _). assert (Hf : forall c, c_apicid (f c) = c_apicid c) by done.
  assert (Hc : the_cpu (idx me) (set_cpus (alter f (idx me)) m) = f (the_cpu (idx me) m))
    by (apply the_cpu_alter, Hr).
  destruct (Z.eqb_spec (c_ncli (the_cpu (idx me) m)) 1) as [E|E]; simpl.
  - destruct (negb _); simpl.
    + change (the_cpu (idx me) (set_if me true ?x)) with (the_cpu (idx me) x).
      rewrite Hc. simpl. split; [auto with machine|]. split; [lia|]. intros. lia.
    + rewrite Hc. simpl. split; [auto with machine|]. split; [lia|]. intros. lia.
  - rewrite Hc. simpl. split; [auto with machine|]. split; [lia|]. intros _. now apply Hoff.
Qed.

Lemma popped_shape me i m :
  exists f b, popped me i m = set_cpus (alter f i) (set_if me b m) /\
    (forall c, c_apicid (f c) = c_apicid c).
Proof.
  unfold popped. eexists (with_ncli _). destruct (_ && _).
  - exists true. split; [rewrite set_if_set_cpus; reflexivity|done].
  - exists (hw_if (mycore me m)). rewrite (set_if_id me _ m) by done.
    split; [reflexivity|done].
Qed.

Lemma cores_ok_own me p q f b (ps : list pc) m :
  ps !! me = Some p -> (forall c, c_apicid (f c) = c_apicid c) ->
  let m' := set_cpus (alter f (idx me)) (set_if me b m) in
  core_ok me q m' -> cores_ok (Smp m ps) -> cores_ok (Smp m' (<[me := q]> ps)).
Proof.
  intros Hp Hf m' Hq [Hlen H]. subst m'. split; simpl in *.
  - now rewrite length_insert, length_alter.
  - intros me' p' Hp'. destruct (decide (me = me')) as [<-|Hne].
    + rewrite list_lookup_insert_eq in Hp' by (apply lookup_lt_Some in Hp; done).
      now simplify_eq.
    + rewrite list_lookup_insert_ne in Hp' by done. apply core_ok_other; auto.
Qed.

Lemma popped_core_ok me p m (ps : list pc) :
  ps !! me = Some p -> p <> PIdle -> cores_ok (Smp m ps) ->
  cores_ok (Smp (popped me (idx me) m) (<[me := PIdle]> ps)).
Proof.
  intros Hp Hb Hok. pose proof (core_ok_popped me p m (proj2 Hok me p Hp) Hb) as Hq.
  destruct (popped_shape me (idx me) m) as (f & b & E & Hf). rewrite E in Hq |- *.
  eapply cores_ok_own; eauto.
Qed.

Lemma busy_core me p m (ps : list pc) :
  ps !! me = Some p -> p <> PIdle -> cores_ok (Smp m ps) ->
  runs_as me (idx me) m /\ if_off me m /\ 0 < c_ncli (the_cpu (idx me) m).
Proof.
  intros Hp Hb [_ H]. destruct (H me p Hp) as [(Hr & Hn & Hoff) Hn']. auto.
Qed.

Lemma holding_eq me i c m :
  runs_as me i m -> if_off me m ->
  holding me lk c m =
  Ret (negb (l_locked (the_lock lk m) =? 0) && bool_decide (l_cpu (the_lock lk m) = Some i)) c m.
Proof.
  intros Hr Hoff.
  destruct (wp_inv (holding me lk) (fun a c' m' => a = negb (l_locked (the_lock lk m) =? 0) &&
     bool_decide (l_cpu (the_lock lk m) = Some i) /\ c' = c /\ m' = m) c m)
    as (a & c' & m' & E & -> & -> & ->); [|done].
  now apply (wp_holding me i).
Qed.

Lemma cores_ok_pcs me p q m (ps : list pc) :
  ps !! me = Some p -> p <> PIdle -> cores_ok (Smp m ps) ->
  cores_ok (Smp m (<[me := q]> ps)).
Proof.
  intros Hp Hb. apply (cores_ok_locks id ps); [apply length_insert|].
  eapply busy_move; eauto.
Qed.

(** A processor leaving or entering the owner role changes only [o]. *)
Lemma owner_step me p q l' m (ps : list pc) o o' :
  ps !! me = Some p -> lock_owner (the_lock lk m) ps o -> p <> PIdle ->
  (lk < length (m_locks m))%nat -> cores_ok (Smp m ps) ->
  owns q = bool_decide (o' = Some me) ->
  (forall me', me' <> me -> o = Some me' <-> o' = Some me') ->
  l_locked (l' (the_lock lk m)) = match o' with Some _ => 1 | None => 0 end ->
  (l_cpu (l' (the_lock lk m)) = match o' with
     | Some me' => if bool_decide (<[me := q]> ps !! me' = Some PCrit) then Some (idx me') else None
     | None => None end) ->
  smp_inv (Smp (set_locks (alter l' lk) m) (<[me := q]> ps)).
Proof.
  intros Hp Ho Hb Hlk Hcores Hq Ho' Hl Hc. split; [simpl; now rewrite length_alter|]. split.
  - eapply cores_ok_locks; [apply length_insert|eapply busy_move; eauto|exact Hcores].
  - simpl. rewrite the_lock_alter by done. exists o'. eapply lock_owner_move; eauto.
Qed.

Lemma smp_step_inv s s' : smp_step lk s s' -> smp_inv s -> smp_inv s'.
Proof.
  intros Hstep (Hlk & Hcores & Hlock). destruct Hstep as
    [me m m' p Hp E|me m p Hp E|me m m' p old Hp E|me i m p Hp E|me m p Hp E|me m p Hp|me m m' p Hp E];
    simpl in *.
  - (* pushcli *)
    destruct (proj2 Hcores me _ Hp) as [(Hr & Hn & Hoff) Hx].
    rewrite (pushcli_eq me (idx me)) in E by done. simplify_eq. split; [done|]. split.
    + eapply cores_ok_own; [exact Hp|done| |exact Hcores].
      eapply core_ok_pushed. split; [split; eauto|eauto].
    + now apply (lock_ok_quiet _ p me PIdle PEnter).
  - (* not holding *)
    split; [done|]. split; [now apply (cores_ok_pcs me PEnter)|now apply (lock_ok_quiet _ p me PEnter PSpin)].
  - (* xchg *)
    change (xchg lk 1 c0 m) with (Ret (l_locked (the_lock lk m)) c0
      (set_locks (alter (set_locked 1) lk) m)) in E. injection E as <- <-.
    destruct Hlock as (o & Ho). pose proof (lock_owner_at _ _ _ _ _ Hp Ho) as Hne. simpl in Hne.
    pose proof Ho as (H1 & H2 & Hl & Hc). rewrite Hl. destruct o as [me'|]; simpl.
    + eapply (owner_step me PSpin PSpin _ m p (Some me') (Some me')); eauto; simpl.
      rewrite Hc. now rewrite list_lookup_insert_ne by congruence.
    + eapply (owner_step me PSpin PGot _ m p None (Some me)); eauto; simpl.
      * symmetry. now apply bool_decide_eq_true.
      * intros me' Hme'. split; congruence.
      * rewrite Hc. rewrite list_lookup_insert_eq by (apply lookup_lt_Some in Hp; done). done.
  - (* lk->cpu = mycpu() *)
    destruct (busy_core _ _ _ _ Hp ltac:(done) Hcores) as (Hr & Hoff & _).
    rewrite (mycpu_eq me (idx me)) in E by done. simplify_eq.
    destruct Hlock as (o & Ho). pose proof (lock_owner_at _ _ _ _ _ Hp Ho) as Heq. simpl in Heq.
    subst o. eapply (owner_step me PGot PCrit _ m p (Some me) (Some me)); eauto; simpl.
    + symmetry. now apply bool_decide_eq_true.
    + apply Ho.
    + rewrite list_lookup_insert_eq by (apply lookup_lt_Some in Hp; done).
      now rewrite bool_decide_eq_true_2.
  - (* lk->cpu = 0 *)
    destruct Hlock as (o & Ho). pose proof (lock_owner_at _ _ _ _ _ Hp Ho) as Heq. simpl in Heq.
    subst o. eapply (owner_step me PCrit PLeave _ m p (Some me) (Some me)); eauto; simpl.
    + symmetry. now apply bool_decide_eq_true.
    + apply Ho.
    + rewrite list_lookup_insert_eq by (apply lookup_lt_Some in Hp; done). done.
  - (* lk->locked = 0 *)
    destruct Hlock as (o & Ho). pose proof (lock_owner_at _ _ _ _ _ Hp Ho) as Heq. simpl in Heq.
    subst o. pose proof Ho as (_ & _ & _ & Hc). rewrite Hp in Hc.
    eapply (owner_step me PLeave PUnlocked _ m p (Some me) None); eauto; simpl.
    intros me' Hme'. split; congruence.
  - (* popcli *)
    destruct (busy_core _ _ _ _ Hp ltac:(done) Hcores) as (Hr & Hoff & Hn).
    rewrite (popcli_eq me (idx me)) in E by done. simplify_eq. split; [|split].
    + destruct (popped_shape me (idx me) m) as (f & b & -> & _). done.
    + now apply (popped_core_ok me PUnlocked).
    + destruct (popped_shape me (idx me) m) as (f & b & -> & _).
      now apply (lock_ok_quiet _ p me PUnlocked PIdle).
Qed.

Lemma smp_reach_inv s s' : smp_init s -> rtc (smp_step lk) s s' -> smp_inv s'.
Proof.
  intros H0 H. apply smp_init_inv in H0. induction H; eauto using smp_step_inv.
Qed.
End Smp.

(** * Properties *)

(** Pushcli and popcli nest.  After any matched sequence of them (no popcli
    without its pushcli, all closed) on a CPU whose depth and interrupt flag
    agree, none of them has panicked, and the interrupt flags of all
    processors, the locks, the nesting depth and the running process are what
    they were; when the sequence ran inside an outer pushcli the whole machine
    is. *)
Theorem pushcli_popcli_matched me i ops c m :
  nest_ok me i m -> matched 0 ops = true ->
  wp (cli_ops me ops) (fun _ c' m' =>
    c' = c /\ m_cores m' = m_cores m /\ m_locks m' = m_locks m /\
    c_ncli (the_cpu i m') = c_ncli (the_cpu i m) /\
    c_proc (the_cpu i m') = c_proc (the_cpu i m) /\
    (0 < c_ncli (the_cpu i m) -> m' = m)) c m.
Proof.
  intros Hok Hm. eapply wp_mono; [eapply cli_ops_depth; eauto using at_depth_start|].
  intros _ c' m' [-> (v & Hv & ->)]. cbn iota. rewrite set_if_id by done.
  rewrite the_cpu_alter by apply Hok. simpl. rewrite Z.add_0_r. do 5 (split; [done|]).
  intros Hn. rewrite Hv by (right; exact Hn).
  destruct (Z.eqb_spec (c_ncli (the_cpu i m)) 0); [lia|].
  rewrite (set_cpus_ext i _ id) by (unfold with_nest; now destruct (the_cpu i m)).
  destruct m. unfold set_cpus. simpl. f_equal. apply list_eq. intros k.
  destruct (decide (i = k)) as [<-|Hne]; [|now rewrite list_lookup_alter_ne].
  rewrite list_lookup_alter_eq. now destruct (_ !! i).
Qed.

(** C4: the spin lock gives mutual exclusion.  On any number of processors,
    whatever the interleaving of their atomic steps, at most one is in the
    critical section of a lock; the one inside is the recorded holder, so its
    release does not panic, and a processor entering acquire does not find
    itself the holder, so its acquire does not panic. *)
Theorem spinlock_mutual_exclusion lk idx s s' :
  (forall a b, idx a = idx b -> a = b) ->
  smp_init lk idx s -> rtc (smp_step lk) s s' ->
  (forall a b, spc s' !! a = Some PCrit -> spc s' !! b = Some PCrit -> a = b) /\
  (forall a, spc s' !! a = Some PCrit -> holding a lk c0 (sm s') = Ret true c0 (sm s')) /\
  (forall a, spc s' !! a = Some PEnter -> holding a lk c0 (sm s') = Ret false c0 (sm s')).
Proof.
  intros Hinj H0 Hr. destruct (smp_reach_inv lk idx Hinj s s' H0 Hr) as (_ & Hcores & o & Ho).
  destruct s' as [m ps]. simpl in *. pose proof Ho as (H1 & _ & Hl & Hc). split; [|split].
  - intros a b Ha Hb. pose proof (lock_owner_at _ _ _ _ _ _ Ha Ho) as Ea.
    pose proof (lock_owner_at _ _ _ _ _ _ Hb Ho) as Eb. simpl in *. congruence.
  - intros a Ha. destruct (busy_core idx a PCrit m ps Ha ltac:(discriminate) Hcores) as (Hra & Hoff & _).
    rewrite (holding_eq lk a (idx a)) by done.
    pose proof (lock_owner_at _ _ _ _ _ _ Ha Ho) as Ea. simpl in Ea. subst o.
    rewrite Hl, Hc, Ha. simpl. rewrite !bool_decide_eq_true_2 by done. done.
  - intros a Ha. destruct (busy_core idx a PEnter m ps Ha ltac:(discriminate) Hcores) as (Hra & Hoff & _).
    rewrite (holding_eq lk a (idx a)) by done. f_equal.
    pose proof (lock_owner_at _ _ _ _ _ _ Ha Ho) as Ea. simpl in Ea. rewrite Hl, Hc.
    destruct o as [b|]; [|done]. simpl. destruct (bool_decide (ps !! b = _)); [|done].
    apply bool_decide_eq_false. intros [= E]. apply Hinj in E. congruence.
Qed.

(** A machine of two processors with one lock. *)
Definition two_cpus : machine :=
  Machine [Cpu 4 0 0 None; Cpu 7 0 0 None] 2 [Core 4 true; Core 7 true]
    [Spinlock 0 "ptable" None (replicate 10 0)].

Lemma pushcli_popcli_matched_witness :
  nest_ok 1 1 two_cpus /\
  wp (cli_ops 1 [true; true; false; true; false; false])
    (fun _ c' m' => c' = c0 /\ m_cores m' = m_cores two_cpus /\ m_locks m' = m_locks two_cpus /\
      c_ncli (the_cpu 1 m') = c_ncli (the_cpu 1 two_cpus) /\
      c_proc (the_cpu 1 m') = c_proc (the_cpu 1 two_cpus) /\
      (0 < c_ncli (the_cpu 1 two_cpus) -> m' = two_cpus)) c0 two_cpus.
Proof.
  assert (H : nest_ok 1 1 two_cpus).
  { split; [split; [simpl; lia|split; [simpl; lia|reflexivity]]|].
    split; [vm_compute; discriminate|]. vm_compute. discriminate. }
  split; [exact H|].
  exact (pushcli_popcli_matched 1 1 [true; true; false; true; false; false] c0 two_cpus H eq_refl).
Defined.

(** Processor 0 in the critical section while processor 1 spins. *)
Definition contended : smp :=
  Smp (Machine [Cpu 4 1 FL_IF None; Cpu 7 1 FL_IF None] 2 [Core 4 false; Core 7 false]
         [Spinlock 1 "ptable" (Some 0%nat) (replicate 10 0)]) [PCrit; PSpin].

Lemma contended_reached : rtc (smp_step 0) (Smp two_cpus [PIdle; PIdle]) contended.
Proof.
  eapply rtc_l; [apply (st_enter 0 0); reflexivity|].
  eapply rtc_l; [apply (st_enter 0 1); reflexivity|].
  eapply rtc_l; [apply (st_check 0 1); reflexivity|].
  eapply rtc_l; [apply (st_check 0 0); reflexivity|].
  eapply rtc_l; [eapply (st_spin 0 0); reflexivity|].
  eapply rtc_l; [eapply (st_spin 0 1); reflexivity|].
  eapply rtc_l; [eapply (st_own 0 0); reflexivity|].
  apply rtc_refl.
Qed.

Lemma spinlock_mutual_exclusion_witness :
  holding 0 0 c0 (sm contended) = Ret true c0 (sm contended).
Proof.
  assert (H0 : smp_init 0 id (Smp two_cpus [PIdle; PIdle])).
  { split; [simpl; lia|]. split; [reflexivity|]. split; [|split; reflexivity].
    intros [|[|me]] p Hp; simplify_eq/=; (split; [reflexivity|]);
      (split; [split; [simpl; lia|split; [simpl; lia|reflexivity]]|]);
      (split; [vm_compute; discriminate|]); vm_compute; discriminate. }
  apply (spinlock_mutual_exclusion 0 id _ _ (fun a b E => E) H0 contended_reached).
  reflexivity.
Defined.
