(* ===== verification/Mem.v ===== *)
(** Byte-addressed memory: a finite map from addresses to bytes, absent
    addresses reading as zero, with little-endian words of 2 and 4 bytes. *)
From S2P Require Import Prelude.

Abbreviation mem := (gmap Z Z).

Definition ld (m : mem) (a : Z) : Z := default 0 (m !! a).
Definition st (m : mem) (a v : Z) : mem := <[a := v]> m.

Lemma ld_st_eq m a v : ld (st m a v) a = v.
Proof. unfold ld, st. now rewrite lookup_insert_eq. Qed.

Lemma ld_st_ne m a b v : a <> b -> ld (st m a v) b = ld m b.
Proof. intros H. unfold ld, st. now rewrite lookup_insert_ne. Qed.

Lemma ld_st m a b v : ld (st m a v) b = if b =? a then v else ld m b.
Proof.
  destruct (Z.eqb_spec b a) as [->|H]; [apply ld_st_eq|]. apply ld_st_ne. congruence.
Qed.

(** The [n] bytes from address [a], and storing a list of bytes there. *)
Fixpoint lds (m : mem) (a : Z) (n : nat) : list Z :=
  match n with
  | O => []
  | S n' => ld m a :: lds m (a + 1) n'
  end.

Fixpoint sts (m : mem) (a : Z) (bs : list Z) : mem :=
  match bs with
  | [] => m
  | b :: bs' => sts (st m a b) (a + 1) bs'
  end.

Lemma length_lds m a n : length (lds m a n) = n.
Proof. revert a. induction n; intros a; simpl; [done|]. now rewrite IHn. Qed.

Lemma lds_lookup m a n i : (i < n)%nat -> lds m a n !! i = Some (ld m (a + Z.of_nat i)).
Proof.
  revert a i. induction n as [|n IH]; intros a i Hi; [lia|]. destruct i as [|i]; simpl.
  - now rewrite Z.add_0_r.
  - rewrite IH by lia. do 2 f_equal. lia.
Qed.

(** Two regions with the same bytes read the same. *)
Lemma lds_ext m m' a a' n :
  (forall i, 0 <= i < Z.of_nat n -> ld m (a + i) = ld m' (a' + i)) -> lds m a n = lds m' a' n.
Proof.
  intros H. apply list_eq_same_length with n; rewrite ?length_lds; [done..|].
  intros i x y Hi. rewrite !lds_lookup by done. intros [= <-] [= <-]. apply H. lia.
Qed.

Lemma lds_app m a n k : lds m a (n + k) = lds m a n ++ lds m (a + Z.of_nat n) k.
Proof.
  revert a. induction n as [|n IH]; intros a; simpl; [now rewrite Z.add_0_r|].
  f_equal. rewrite IH. do 2 f_equal. lia.
Qed.

Lemma ld_sts m a bs b :
  ld (sts m a bs) b =
  if (a <=? b) && (b <? a + Z.of_nat (length bs)) then aget 0 bs (b - a) else ld m b.
Proof.
  revert m a. induction bs as [|x bs IH]; intros m a; cbn [sts length].
  - destruct (Z.leb_spec a b), (Z.ltb_spec b (a + Z.of_nat 0)); cbn [andb]; lia || done.
  - rewrite IH, ld_st. unfold aget.
    destruct (Z.leb_spec (a + 1) b), (Z.ltb_spec b (a + 1 + Z.of_nat (length bs))),
      (Z.leb_spec a b), (Z.ltb_spec b (a + Z.of_nat (S (length bs)))), (Z.eqb_spec b a);
      cbn [andb]; try lia; try done.
    + replace (Z.to_nat (b - a)) with (S (Z.to_nat (b - (a + 1)))) by lia. done.
    + subst b. rewrite Z.sub_diag. done.
Qed.

Lemma lds_sts_same m a bs : lds (sts m a bs) a (length bs) = bs.
Proof.
  apply list_eq_same_length with (length bs); rewrite ?length_lds; [done..|].
  intros i x y Hi. rewrite lds_lookup by done. intros [= <-] Hy. rewrite ld_sts.
  destruct (Z.leb_spec a (a + Z.of_nat i)), (Z.ltb_spec (a + Z.of_nat i) (a + Z.of_nat (length bs)));
    simpl; try lia.
  unfold aget. replace (Z.to_nat _) with i by lia. now rewrite Hy.
Qed.

Lemma lds_sts_disj m a bs b n :
  b + Z.of_nat n <= a \/ a + Z.of_nat (length bs) <= b ->
  lds (sts m a bs) b n = lds m b n.
Proof.
  intros H. apply lds_ext. intros i Hi. rewrite ld_sts.
  destruct (Z.leb_spec a (b + i)), (Z.ltb_spec (b + i) (a + Z.of_nat (length bs))); simpl; lia || done.
Qed.

(** * Little-endian words *)

Fixpoint le_bytes (n : nat) (w : Z) : list Z :=
  match n with
  | O => []
  | S n' => w mod 256 :: le_bytes n' (w / 256)
  end.

Fixpoint le_val (bs : list Z) : Z :=
  match bs with
  | [] => 0
  | b :: bs' => b + 256 * le_val bs'
  end.

Lemma length_le_bytes n w : length (le_bytes n w) = n.
Proof. revert w. induction n; intros w; simpl; [done|]. now rewrite IHn. Qed.

Lemma le_bytes_range n w : Forall is_u8 (le_bytes n w).
Proof.
  revert w. induction n; intros w; simpl; constructor; [apply u8_range|done].
Qed.

Lemma le_val_bytes n w : le_val (le_bytes n w) = w mod 256 ^ Z.of_nat n.
Proof.
  revert w. induction n as [|n IH]; intros w; simpl; [now rewrite Z.mod_1_r|].
  rewrite IH. rewrite Nat2Z.inj_succ, Z.pow_succ_r by lia.
  rewrite (Z.rem_mul_r w 256) by lia. lia.
Qed.

Lemma le_val_range bs : Forall is_u8 bs -> 0 <= le_val bs < 256 ^ Z.of_nat (length bs).
Proof.
  induction 1 as [|b bs Hb _ IH]; simpl length; [simpl; lia|].
  rewrite Nat2Z.inj_succ, Z.pow_succ_r by lia. simpl. unfold is_u8 in Hb. lia.
Qed.

Lemma le_bytes_val bs : Forall is_u8 bs -> le_bytes (length bs) (le_val bs) = bs.
Proof.
  induction 1 as [|b bs Hb Hbs IH]; [done|]. cbn [length le_bytes le_val]. unfold is_u8 in Hb.
  replace (b + 256 * le_val bs) with (b + le_val bs * 256) by lia.
  rewrite Z_mod_plus_full, Z.div_add by lia.
  rewrite (Z.mod_small b), (Z.div_small b) by lia. now rewrite Z.add_0_l, IH.
Qed.

Definition ld32 (m : mem) (a : Z) : Z := le_val (lds m a 4).
Definition st32 (m : mem) (a w : Z) : mem := sts m a (le_bytes 4 w).

Lemma ld32_st32_eq m a w : is_u32 w -> ld32 (st32 m a w) a = w.
Proof.
  intros H. unfold ld32, st32.
  rewrite <- (length_le_bytes 4 w) at 2. rewrite lds_sts_same, le_val_bytes.
  change (256 ^ Z.of_nat 4) with 4294967296. now apply Z.mod_small.
Qed.

Lemma ld32_st32_ne m a b w : b + 4 <= a \/ a + 4 <= b -> ld32 (st32 m a w) b = ld32 m b.
Proof.
  intros H. unfold ld32, st32. rewrite lds_sts_disj; [done|]. rewrite length_le_bytes. lia.
Qed.

Lemma ld_st32_ne m a b w : b < a \/ a + 4 <= b -> ld (st32 m a w) b = ld m b.
Proof.
  intros H. unfold st32. rewrite ld_sts, length_le_bytes.
  destruct (Z.leb_spec a b), (Z.ltb_spec b (a + Z.of_nat 4)); simpl; lia || done.
Qed.

Lemma ld32_ext m m' a : (forall i, 0 <= i < 4 -> ld m (a + i) = ld m' (a + i)) -> ld32 m a = ld32 m' a.
Proof. intros H. unfold ld32. f_equal. apply lds_ext. intros i Hi. apply H. lia. Qed.

Lemma ld32_range m a : (forall b, is_u8 (ld m b)) -> is_u32 (ld32 m a).
Proof.
  intros H. unfold ld32, is_u32. pose proof (le_val_range (lds m a 4)) as R.
  rewrite length_lds in R. apply R. apply Forall_lookup. intros i x Hx.
  assert (i < 4)%nat by (apply lookup_lt_Some in Hx; now rewrite length_lds in Hx).
  rewrite lds_lookup in Hx by done. injection Hx as <-. apply H.
Qed.
