(* ===== verification/Cstring.v ===== *)
(** string.c (the kernel's) and the string instructions of x86.h it uses, over
    byte memory. *)
From S2P Require Import Prelude Mem.

(** * x86.h *)

(** [rep stosb]: store the low byte of [data] into [cnt] bytes. *)
Fixpoint stosb (m : mem) (addr data : Z) (cnt : nat) : mem :=
  match cnt with
  | O => m
  | S n => stosb (st m addr (u8 data)) (addr + 1) data n
  end.

(** [rep stosl]: store the word [data] into [cnt] words. *)
Fixpoint stosl (m : mem) (addr data : Z) (cnt : nat) : mem :=
  match cnt with
  | O => m
  | S n => stosl (st32 m addr data) (addr + 4) data n
  end.

(** * string.c *)

Definition memset (m : mem) (dst c n : Z) : mem :=
  if (Z.rem (s32 dst) 4 =? 0) && (n mod 4 =? 0) then
    let c := Z.land c 0xFF in
    stosl m dst
      (u32 (Z.lor (Z.lor (Z.lor (Z.shiftl c 24) (Z.shiftl c 16)) (Z.shiftl c 8)) c))
      (Z.to_nat (n / 4))
  else stosb m dst c (Z.to_nat n).

(** [return *s1 - *s2] at the first difference. *)
Fixpoint memcmp_n (m : mem) (s1 s2 : Z) (n : nat) : Z :=
  match n with
  | O => 0
  | S n' =>
      if ld m s1 =? ld m s2 then memcmp_n m (s1 + 1) (s2 + 1) n'
      else ld m s1 - ld m s2
  end.
Definition memcmp (m : mem) (v1 v2 n : Z) : Z := memcmp_n m v1 v2 (Z.to_nat n).

(** The two loops of [memmove]: [*d++ = *s++] and [*--d = *--s]. *)
Fixpoint copy_up (m : mem) (d s : Z) (n : nat) : mem :=
  match n with
  | O => m
  | S n' => copy_up (st m d (ld m s)) (d + 1) (s + 1) n'
  end.
Fixpoint copy_down (m : mem) (d s : Z) (n : nat) : mem :=
  match n with
  | O => m
  | S n' => copy_down (st m (d - 1) (ld m (s - 1))) (d - 1) (s - 1) n'
  end.
Definition memmove (m : mem) (dst src n : Z) : mem :=
  if (src <? dst) && (dst <? src + n)
  then copy_down m (dst + n) (src + n) (Z.to_nat n)
  else copy_up m dst src (Z.to_nat n).

Definition memcpy (m : mem) (dst src n : Z) : mem := memmove m dst src n.

Fixpoint strncmp_n (m : mem) (p q : Z) (n : nat) : Z :=
  match n with
  | O => 0
  | S n' =>
      if negb (ld m p =? 0) && (ld m p =? ld m q) then strncmp_n m (p + 1) (q + 1) n'
      else ld m p - ld m q
  end.
Definition strncmp (m : mem) (p q n : Z) : Z := strncmp_n m p q (Z.to_nat n).

(** [while(n-- > 0 && ( *s++ = *t++) != 0);] then [while(n-- > 0) *s++ = 0;] *)
Fixpoint zero_fill (m : mem) (s : Z) (n : nat) : mem :=
  match n with
  | O => m
  | S n' => zero_fill (st m s 0) (s + 1) n'
  end.
Fixpoint strncpy_n (m : mem) (s t : Z) (n : nat) : mem :=
  match n with
  | O => m
  | S n' =>
      let c := ld m t in
      let m := st m s c in
      if c =? 0 then zero_fill m (s + 1) n' else strncpy_n m (s + 1) (t + 1) n'
  end.
Definition strncpy (m : mem) (s t n : Z) : mem := strncpy_n m s t (Z.to_nat n).

(** [while(--n > 0 && ( *s++ = *t++) != 0); *s = 0;] with [n'] = n - 1 copies
    left. *)
Fixpoint safestrcpy_n (m : mem) (s t : Z) (n' : nat) : mem :=
  match n' with
  | O => st m s 0
  | S k =>
      let c := ld m t in
      let m := st m s c in
      if c =? 0 then st m (s + 1) 0 else safestrcpy_n m (s + 1) (t + 1) k
  end.
Definition safestrcpy (m : mem) (s t n : Z) : mem :=
  if n <=? 0 then m else safestrcpy_n m s t (Z.to_nat (n - 1)).

(** [strlen] scans for the terminator; [fuel] bounds the scan. *)
Fixpoint strlen_from (fuel : nat) (m : mem) (s n : Z) : option Z :=
  match fuel with
  | O => None
  | S f => if ld m (s + n) =? 0 then Some n else strlen_from f m s (n + 1)
  end.
Definition strlen (fuel : nat) (m : mem) (s : Z) : option Z := strlen_from fuel m s 0.

(** The C string at [p], cut at [n] bytes: what the bounded routines see. *)
Fixpoint cstr (m : mem) (p : Z) (n : nat) : list Z :=
  match n with
  | O => []
  | S n' => if ld m p =? 0 then [] else ld m p :: cstr m (p + 1) n'
  end.

(** * Lemmas *)

Definition within (a n b : Z) : bool := (a <=? b) && (b <? a + n).

Lemma withinP a n b : BoolSpec (a <= b < a + n) (~ a <= b < a + n) (within a n b).
Proof.
  unfold within. destruct (Z.leb_spec a b), (Z.ltb_spec b (a + n)); simpl; constructor; lia.
Qed.

Ltac by_within :=
  repeat match goal with
  | |- context [within ?a ?n ?b] => destruct (withinP a n b)
  | |- context [?x =? ?y] => destruct (Z.eqb_spec x y)
  end; try lia; try done.

Lemma ld_stosb m a d k b : ld (stosb m a d k) b = if within a (Z.of_nat k) b then u8 d else ld m b.
Proof.
  revert m a. induction k as [|k IH]; intros m a; cbn [stosb].
  - by_within.
  - rewrite IH, ld_st. by_within.
Qed.

Lemma ld_stosl m a w k c b :
  le_bytes 4 w = [c; c; c; c] ->
  ld (stosl m a w k) b = if within a (4 * Z.of_nat k) b then c else ld m b.
Proof.
  intros Hw. revert m a. induction k as [|k IH]; intros m a; cbn [stosl].
  - by_within.
  - rewrite IH. unfold st32. rewrite Hw, ld_sts. change (length [c; c; c; c]) with 4%nat.
    fold (within a (Z.of_nat 4) b). by_within.
    unfold aget. assert (Hd : b - a = 0 \/ b - a = 1 \/ b - a = 2 \/ b - a = 3) by lia.
    destruct Hd as [-> | [-> | [-> | ->]]]; reflexivity.
Qed.

(** The word [memset] builds repeats its byte. *)
Lemma memset_word_bytes c :
  is_u8 c ->
  le_bytes 4 (u32 (Z.lor (Z.lor (Z.lor (Z.shiftl c 24) (Z.shiftl c 16)) (Z.shiftl c 8)) c))
  = [c; c; c; c].
Proof.
  intros Hc.
  assert (H : forallb (fun c => bool_decide (le_bytes 4 (u32 (Z.lor (Z.lor (Z.lor (Z.shiftl c 24)
     (Z.shiftl c 16)) (Z.shiftl c 8)) c)) = [c; c; c; c])) (zrange 256) = true)
    by (vm_compute; reflexivity).
  rewrite forallb_forall in H. specialize (H c). apply bool_decide_eq_true in H; [done|].
  apply list_elem_of_In, elem_of_zrange. exact Hc.
Qed.

Lemma ld_copy_up m d s n b :
  d <= s \/ s + Z.of_nat n <= d ->
  ld (copy_up m d s n) b = if within d (Z.of_nat n) b then ld m (s + (b - d)) else ld m b.
Proof.
  revert m d s. induction n as [|n IH]; intros m d s H; cbn [copy_up]; [by_within|].
  destruct (decide (d = s)) as [->|Hne].
  - rewrite IH by lia. rewrite !ld_st. replace (s + 1 + (b - (s + 1))) with (s + (b - s)) by lia.
    by_within; try (f_equal; lia).
  - rewrite IH by lia. rewrite !ld_st. by_within; f_equal; lia.
Qed.

Lemma ld_copy_down m d s n b :
  s <= d -> 
  ld (copy_down m d s n) b =
  if within (d - Z.of_nat n) (Z.of_nat n) b then ld m (b - d + s) else ld m b.
Proof.
  revert m d s. induction n as [|n IH]; intros m d s H; cbn [copy_down]; [by_within|].
  rewrite IH by lia. rewrite !ld_st.
  replace (b - (d - 1) + (s - 1)) with (b - d + s) by lia. by_within; try (f_equal; lia).
Qed.

Lemma length_cstr m p n : (length (cstr m p n) <= n)%nat.
Proof.
  revert p. induction n as [|n IH]; intros p; simpl; [lia|]. case_if; simpl; [lia|].
  specialize (IH (p + 1)). lia.
Qed.

Lemma cstr_ext m m' p n :
  (forall b, p <= b < p + Z.of_nat n -> ld m b = ld m' b) -> cstr m p n = cstr m' p n.
Proof.
  revert p. induction n as [|n IH]; intros p H; simpl; [done|].
  rewrite (H p) by lia. case_if; [done|]. f_equal. apply IH. intros b Hb. apply H. lia.
Qed.

Lemma ld_zero_fill m s n b : ld (zero_fill m s n) b = if within s (Z.of_nat n) b then 0 else ld m b.
Proof.
  revert m s. induction n as [|n IH]; intros m s; cbn [zero_fill]; [by_within|].
  rewrite IH, ld_st. by_within.
Qed.

Lemma aget_cons_0 (x : Z) l : aget 0 (x :: l) 0 = x.
Proof. done. Qed.

Lemma aget_cons_S (x : Z) l i : 0 < i -> aget 0 (x :: l) i = aget 0 l (i - 1).
Proof.
  intros H. unfold aget. replace (Z.to_nat i) with (S (Z.to_nat (i - 1))) by lia. done.
Qed.

(** Reading past the end of a list gives the default. *)
Lemma aget_ge (l : list Z) i : Z.of_nat (length l) <= i -> aget 0 l i = 0.
Proof. intros H. unfold aget. now rewrite lookup_ge_None_2 by lia. Qed.

(** The two regions do not meet. *)
Definition disjoint_regions (a n b k : Z) : Prop := a + n <= b \/ b + k <= a.

Lemma ld_strncpy_n m s t n b :
  disjoint_regions s (Z.of_nat n) t (Z.of_nat n) ->
  ld (strncpy_n m s t n) b =
  if within s (Z.of_nat n) b then aget 0 (cstr m t n) (b - s) else ld m b.
Proof.
  revert m s t. induction n as [|n IH]; intros m s t Hd; cbn [strncpy_n cstr]; [by_within|].
  unfold disjoint_regions in *. destruct (Z.eqb_spec (ld m t) 0) as [E|E].
  - rewrite ld_zero_fill, ld_st. by_within; try (now rewrite aget_ge by (simpl; lia)).
  - rewrite IH by lia. rewrite (cstr_ext (st m s (ld m t)) m) by (intros x Hx; rewrite ld_st; by_within).
    rewrite ld_st. by_within.
    + rewrite aget_cons_S by lia. f_equal. lia.
    + subst b. now rewrite Z.sub_diag.
Qed.

Lemma ld_safestrcpy_n m s t k b :
  disjoint_regions s (Z.of_nat k + 1) t (Z.of_nat k) ->
  let c := cstr m t k in
  (within s (Z.of_nat (length c) + 1) b = true -> ld (safestrcpy_n m s t k) b = aget 0 c (b - s)) /\
  (within s (Z.of_nat k + 1) b = false -> ld (safestrcpy_n m s t k) b = ld m b).
Proof.
  cbn zeta. revert m s t. induction k as [|k IH]; intros m s t Hd; cbn [safestrcpy_n cstr].
  - rewrite ld_st. cbn [length]. split; by_within.
  - unfold disjoint_regions in *. destruct (Z.eqb_spec (ld m t) 0) as [E|E].
    + rewrite !ld_st. cbn [length]. split; by_within.
    + specialize (IH (st m s (ld m t)) (s + 1) (t + 1) ltac:(lia)).
      rewrite (cstr_ext (st m s (ld m t)) m) in IH by (intros x Hx; rewrite ld_st; by_within).
      destruct IH as [IH1 IH2]. cbn [length]. split.
      * destruct (withinP s (Z.of_nat (S (length (cstr m (t + 1) k))) + 1) b); [|done]. intros _.
        destruct (Z.eqb_spec b s) as [->|Hne].
        -- rewrite IH2, ld_st_eq, Z.sub_diag by by_within. done.
        -- rewrite IH1 by by_within. rewrite aget_cons_S by lia. f_equal. lia.
      * intros Hw. destruct (withinP s (Z.of_nat (S k) + 1) b); [done|].
        rewrite IH2 by by_within. apply ld_st_ne. lia.
Qed.

Lemma strlen_from_spec m s n k fuel :
  0 <= k -> (Z.to_nat k < fuel)%nat -> ld m (s + n + k) = 0 ->
  (forall j, 0 <= j < k -> ld m (s + n + j) <> 0) ->
  strlen_from fuel m s n = Some (n + k).
Proof.
  revert n k. induction fuel as [|f IH]; intros n k Hk Hf Hz Hnz; [lia|]. simpl.
  destruct (Z.eqb_spec (ld m (s + n)) 0) as [E|E].
  - destruct (Z.eq_dec k 0) as [->|]; [f_equal; lia|]. exfalso. apply (Hnz 0); [lia|].
    now rewrite Z.add_0_r.
  - destruct (Z.eq_dec k 0) as [->|]; [now rewrite Z.add_0_r in Hz|].
    rewrite (IH (n + 1) (k - 1)); [f_equal; lia|lia|lia| |].
    + rewrite <- Hz. f_equal. lia.
    + intros j Hj. replace (s + (n + 1) + j) with (s + n + (j + 1)) by lia. apply Hnz. lia.
Qed.

Lemma strlen_spec m s k fuel :
  0 <= k -> (Z.to_nat k < fuel)%nat -> ld m (s + k) = 0 ->
  (forall j, 0 <= j < k -> ld m (s + j) <> 0) -> strlen fuel m s = Some k.
Proof.
  intros Hk Hf Hz Hnz. unfold strlen. rewrite (strlen_from_spec m s 0 k); [done..| |].
  - now rewrite Z.add_0_r.
  - intros j Hj. rewrite Z.add_0_r. now apply Hnz.
Qed.

Lemma ld_memset m dst c n b :
  0 <= n -> ld (memset m dst c n) b = if within dst n b then u8 c else ld m b.
Proof.
  intros Hn. unfold memset. destruct (_ && _) eqn:E.
  - apply andb_true_iff in E as [_ E]. apply Z.eqb_eq in E.
    assert (Hc : Z.land c 255 = u8 c) by (exact (Z.land_ones c 8 ltac:(lia))).
    rewrite Hc, (ld_stosl _ _ _ _ (u8 c)) by apply memset_word_bytes, u8_range.
    replace (4 * Z.of_nat (Z.to_nat (n / 4))) with n; [done|].
    rewrite Z2Nat.id by (apply Z.div_pos; lia). rewrite (Z_div_mod_eq_full n 4) at 1. lia.
  - rewrite ld_stosb. now rewrite Z2Nat.id.
Qed.

Lemma ld_memmove m dst src n b :
  0 <= n -> ld (memmove m dst src n) b = if within dst n b then ld m (src + (b - dst)) else ld m b.
Proof.
  intros Hn. unfold memmove. destruct (_ && _) eqn:E.
  - zbool. rewrite ld_copy_down by lia. rewrite Z2Nat.id by done.
    replace (dst + n - n) with dst by lia.
    replace (b - (dst + n) + (src + n)) with (src + (b - dst)) by lia. done.
  - rewrite ld_copy_up by (apply andb_false_iff in E as [E|E]; zbool; lia).
    now rewrite Z2Nat.id.
Qed.

Lemma strncmp_n_zero m p q k : strncmp_n m p q k = 0 <-> cstr m p k = cstr m q k.
Proof.
  revert p q. induction k as [|k IH]; intros p q; cbn [strncmp_n cstr]; [done|].
  destruct (Z.eqb_spec (ld m p) 0), (Z.eqb_spec (ld m q) 0), (Z.eqb_spec (ld m p) (ld m q));
    cbn [negb andb]; try lia; try (split; [lia|intros [=]; lia]); try (split; done || lia).
  rewrite IH. split; [intros ->; congruence|]. now intros [= _ ->].
Qed.

(** * Properties *)

(** Memset(dst, c, n) sets exactly the n bytes from dst to the low byte of
    c, whichever of its two paths (word stores for an aligned region, byte
    stores otherwise) it takes. *)
Theorem memset_fills m dst c n b :
  0 <= n -> ld (memset m dst c n) b = if within dst n b then u8 c else ld m b.
Proof. apply ld_memset. Qed.

(** Memmove(dst, src, n) leaves in the n bytes from dst what the n bytes
    from src held before the call, and every other byte alone, also when the
    two regions overlap in either direction. *)
Theorem memmove_copies m dst src n b :
  0 <= n -> ld (memmove m dst src n) b = if within dst n b then ld m (src + (b - dst)) else ld m b.
Proof. apply ld_memmove. Qed.

(** Safestrcpy(s, t, n) copies the C string t, cut to n-1 bytes, puts a NUL
    after it, and never writes outside the n bytes from s. *)
Theorem safestrcpy_terminates_string m s t n :
  0 < n -> disjoint_regions s n t (n - 1) ->
  let c := cstr m t (Z.to_nat (n - 1)) in
  (forall i, 0 <= i < Z.of_nat (length c) -> ld (safestrcpy m s t n) (s + i) = aget 0 c i) /\
  ld (safestrcpy m s t n) (s + Z.of_nat (length c)) = 0 /\
  (Z.of_nat (length c) < n) /\
  (forall b, ~ s <= b < s + n -> ld (safestrcpy m s t n) b = ld m b).
Proof.
  intros Hn Hd c. unfold safestrcpy. destruct (Z.leb_spec n 0); [lia|].
  pose proof (length_cstr m t (Z.to_nat (n - 1))) as Hl. fold c in Hl.
  assert (Hsp : forall b, _) by
    (intros b; apply (ld_safestrcpy_n m s t (Z.to_nat (n - 1)) b); unfold disjoint_regions in *; lia).
  fold c in Hsp. rewrite !Z2Nat.id in Hsp by lia. split; [|split; [|split; [lia|]]].
  - intros i Hi. rewrite (proj1 (Hsp (s + i))) by by_within. f_equal. lia.
  - rewrite (proj1 (Hsp _)) by by_within. apply aget_ge. lia.
  - intros b Hb. apply (proj2 (Hsp b)). by_within.
Qed.

(** Strncpy(s, t, n) fills the n bytes from s with the C string t cut to n
    bytes and padded with NULs. *)
Theorem strncpy_pads m s t n b :
  0 <= n -> disjoint_regions s n t n ->
  ld (strncpy m s t n) b =
  if within s n b then aget 0 (cstr m t (Z.to_nat n)) (b - s) else ld m b.
Proof.
  intros Hn Hd. unfold strncpy. rewrite ld_strncpy_n; rewrite ?Z2Nat.id by done; done.
Qed.

(** Strncmp(p, q, n) is 0 exactly when the C strings at p and q, cut to n
    bytes, are the same. *)
Theorem strncmp_zero_iff m p q n :
  strncmp m p q n = 0 <-> cstr m p (Z.to_nat n) = cstr m q (Z.to_nat n).
Proof. apply strncmp_n_zero. Qed.

(** A memory with a string at 100 and room for a copy at 200. *)
Definition sample_mem : mem := sts (sts ∅ 100 [108; 115; 0; 88]) 200 [9; 9; 9; 9; 9].

Lemma memset_fills_witness :
  0 <= 8 /\ ld (memset sample_mem 200 0x1FF 8) 207 = 255 /\ ld (memset sample_mem 100 1 3) 102 = 1.
Proof.
  split; [lia|].
  split; rewrite memset_fills by lia; vm_compute; reflexivity.
Defined.

Lemma memmove_copies_witness :
  0 <= 3 /\ ld (memmove sample_mem 101 100 3) 102 = 115 /\ ld (memmove sample_mem 99 100 3) 99 = 108.
Proof.
  split; [lia|].
  split; rewrite memmove_copies by lia; vm_compute; reflexivity.
Defined.

Lemma safestrcpy_terminates_string_witness :
  0 < 2 /\ ld (safestrcpy sample_mem 200 100 2) 201 = 0.
Proof.
  split; [lia|].
  assert (Hd : disjoint_regions 200 2 100 (2 - 1)) by (right; lia).
  exact (proj1 (proj2 (safestrcpy_terminates_string sample_mem 200 100 2 ltac:(lia) Hd))).
Defined.

Lemma strncpy_pads_witness : ld (strncpy sample_mem 200 100 4) 203 = 0.
Proof.
  rewrite strncpy_pads; [vm_compute; reflexivity|lia|right; lia].
Defined.
