(* ===== verification/Ulib.v ===== *)
(** ulib.c and printf.c: the library of user programs, over the byte memory of the
    process.  Loops that run to the end of a string take the number of bytes they
    may look at; [None] means that they did not find it. *)
From S2P Require Import Prelude Mem Cstring Digits.

(** * ulib.c *)

Fixpoint strcpy (n : nat) (m : mem) (s t : Z) : option mem :=
  match n with
  | O => None
  | S n' =>
      let m' := st m s (ld m t) in
      if negb (ld m t =? 0) then strcpy n' m' (s + 1) (t + 1) else Some m'
  end.

(** The difference of the first bytes that differ, as unsigned characters. *)
Fixpoint strcmp (n : nat) (m : mem) (p q : Z) : option Z :=
  match n with
  | O => None
  | S n' =>
      if negb (ld m p =? 0) && (ld m p =? ld m q) then strcmp n' m (p + 1) (q + 1)
      else Some (ld m p - ld m q)
  end.

Fixpoint strlen_from (n : nat) (m : mem) (s i : Z) : option Z :=
  match n with
  | O => None
  | S n' => if negb (ld m (s + i) =? 0) then strlen_from n' m s (i + 1) else Some i
  end.
Definition strlen (n : nat) (m : mem) (s : Z) : option Z := strlen_from n m s 0.

Definition memset (m : mem) (dst c n : Z) : mem := stosb m dst c (Z.to_nat n).

Fixpoint strchr (n : nat) (m : mem) (s c : Z) : option Z :=
  match n with
  | O => None
  | S n' =>
      if negb (ld m s =? 0) then if ld m s =? c then Some s else strchr n' m (s + 1) c
      else Some 0
  end.

(** [gets(buf, max)] with the bytes [inp] that reads of one byte from the standard
    input deliver; the bytes that are left. *)
Fixpoint gets_from (n : nat) (m : mem) (buf max i : Z) (inp : list Z) : option (mem * list Z) :=
  match n with
  | O => None
  | S n' =>
      if i + 1 <? max then
        match inp with
        | [] => Some (st m (buf + i) 0, [])
        | c :: inp' =>
            let m := st m (buf + i) c in
            let i := i + 1 in
            if (c =? 10) || (c =? 13) then Some (st m (buf + i) 0, inp')
            else gets_from n' m buf max i inp'
        end
      else Some (st m (buf + i) 0, inp)
  end.
Definition gets (m : mem) (buf max : Z) (inp : list Z) : option (mem * list Z) :=
  gets_from (S (Z.to_nat max)) m buf max 0 inp.

Fixpoint atoi_from (k : nat) (m : mem) (s n : Z) : option Z :=
  match k with
  | O => None
  | S k' =>
      if (48 <=? ld m s) && (ld m s <=? 57) then atoi_from k' m (s + 1) (s32 (u32 (n * 10 + ld m s - 48)))
      else Some n
  end.
Definition atoi (k : nat) (m : mem) (s : Z) : option Z := atoi_from k m s 0.

(** This one copies from the first byte to the last, always. *)
Fixpoint memmove_from (n : nat) (m : mem) (dst src : Z) : mem :=
  match n with
  | O => m
  | S n' => memmove_from n' (st m dst (ld m src)) (dst + 1) (src + 1)
  end.
Definition memmove (m : mem) (vdst vsrc n : Z) : mem := memmove_from (Z.to_nat n) m vdst vsrc.

(** * printf.c *)

(** [digits] of printint. *)
Definition udigits : list Z := bytes "0123456789ABCDEF".

(** What printint writes. *)
Definition printint (xx base : Z) (sgn : bool) : list Z := printint_out udigits xx base sgn.

(** What the loop of printf writes: [fmt] is the rest of the format, [state] is 0
    or '%', [ap] the arguments that are left; strings in memory have at most [n]
    bytes. *)
Fixpoint printf_from (n : nat) (m : mem) (fmt : list Z) (state : Z) (ap : list Z) : list Z :=
  match fmt with
  | [] => []
  | c :: fmt =>
      if state =? 0 then
        if c =? 37 then printf_from n m fmt 37 ap
        else c :: printf_from n m fmt state ap
      else
        let a := hd 0 ap in
        if c =? 100 then printint (s32 a) 10 true ++ printf_from n m fmt 0 (tl ap)
        else if (c =? 120) || (c =? 112) then printint (s32 a) 16 false ++ printf_from n m fmt 0 (tl ap)
        else if c =? 115 then
          (if a =? 0 then bytes "(null)" else cstr m a n) ++ printf_from n m fmt 0 (tl ap)
        else if c =? 99 then u8 a :: printf_from n m fmt 0 (tl ap)
        else if c =? 37 then c :: printf_from n m fmt 0 ap
        else 37 :: c :: printf_from n m fmt 0 ap
  end.
Definition printf (n : nat) (m : mem) (fmt : list Z) (ap : list Z) : list Z := printf_from n m fmt 0 ap.

(** * atoi reads what printf writes *)

Definition is_digit (c : Z) : bool := (48 <=? c) && (c <=? 57).

(** The value of decimal digits, most significant first, after [n]. *)
Fixpoint dec_val (n : Z) (l : list Z) : Z :=
  match l with
  | [] => n
  | c :: l' => dec_val (n * 10 + (c - 48)) l'
  end.

Lemma dec_val_ge n l : 0 <= n -> Forall (fun c => is_digit c = true) l -> n <= dec_val n l.
Proof.
  intros Hn H. revert n Hn. induction H as [|c l Hc _ IH]; intros n Hn; cbn; [lia|].
  unfold is_digit in Hc. zbool. specialize (IH (n * 10 + (c - 48))). lia.
Qed.

Lemma atoi_digits k m s n l :
  Forall (fun c => is_digit c = true) l -> 0 <= n -> dec_val n l < 2147483648 ->
  lds m s (length l) = l -> is_digit (ld m (s + Z.of_nat (length l))) = false -> (length l < k)%nat ->
  atoi_from k m s n = Some (dec_val n l).
Proof.
  intros Hl. revert k s n. induction Hl as [|c l Hc Hl IH]; intros k s n Hn Hv Hm He Hk;
    (destruct k as [|k]; [cbn in Hk; lia|]); cbn [atoi_from].
  - cbn [length] in He. rewrite Z.add_0_r in He. unfold is_digit in He. now rewrite He.
  - cbn [length lds] in Hm. injection Hm as E Hm. rewrite E. unfold is_digit in Hc. rewrite Hc.
    zbool. cbn [dec_val] in *. pose proof (dec_val_ge (n * 10 + (c - 48)) l ltac:(lia) Hl) as Hge.
    replace (n * 10 + c - 48) with (n * 10 + (c - 48)) by lia.
    rewrite u32_small by (unfold is_u32; lia). rewrite s32_small by lia. apply IH; try done; [lia| |cbn in Hk; lia].
    rewrite <- He. do 2 f_equal. cbn [length]. lia.
Qed.

Lemma udigit_dec c : c ∈ take 10 udigits -> is_digit c = true /\ digit_val udigits c = c - 48.
Proof. intros H. unfold udigits in H. cbn in H. set_unfold in H. now intuition subst. Qed.

Lemma digit_loop_dec n x c : c ∈ digit_loop n udigits 10 x -> c ∈ take 10 udigits.
Proof.
  revert x. induction n as [|n IH]; intros x; cbn [digit_loop]; [intros H%elem_of_nil; done|].
  rewrite elem_of_cons. intros [->|Hc].
  - pose proof (Z.mod_pos_bound x 10 ltac:(lia)). unfold aget.
    assert (Hi : (Z.to_nat (x mod 10) < 10)%nat) by lia.
    destruct (lookup_lt_is_Some_2 udigits (Z.to_nat (x mod 10))) as [d Hd]; [cbn; lia|]. rewrite Hd. cbn [default].
    apply (list_elem_of_lookup_2 _ (Z.to_nat (x mod 10))). rewrite lookup_take_lt by lia. exact Hd.
  - destruct (x / 10 =? 0); [now apply elem_of_nil in Hc|eauto].
Qed.

(** The value of the digits, read from either end. *)
Lemma dec_val_snoc n l c : dec_val n (l ++ [c]) = dec_val n l * 10 + (c - 48).
Proof. revert n. induction l as [|d l IH]; intros n; cbn; [done|apply IH]. Qed.

Lemma dec_val_reverse l :
  Forall (fun c => c ∈ take 10 udigits) l -> dec_val 0 (reverse l) = digits_val udigits 10 l.
Proof.
  induction 1 as [|c l Hc _ IH]; [done|]. rewrite reverse_cons, dec_val_snoc, IH. cbn [digits_val].
  destruct (udigit_dec c Hc) as [_ ->]. lia.
Qed.

(** Atoi reads back what printf writes for %d: for every int that is not
    negative, with any bytes that are not digits after it. *)
Theorem atoi_printf_roundtrip k n m s x :
  0 <= x < 2147483648 ->
  let out := printf n m (bytes "%d") [x] in
  lds m s (length out) = out -> is_digit (ld m (s + Z.of_nat (length out))) = false -> (11 < k)%nat ->
  atoi k m s = Some x.
Proof.
  intros Hx out Hm He Hk.
  assert (Eo : out = printint_out udigits x 10 true).
  { unfold out, printf, printint. cbn [bytes printf_from Ascii.nat_of_ascii]. cbn -[printint_out].
    rewrite app_nil_r, s32_small by lia. done. }
  clearbody out. subst out. pose proof (printint_parse udigits x 10 true) as Hp.
  destruct Hp as [Hp Hlen]; [apply (bool_decide_unpack _); vm_compute; exact I|cbn; lia| |lia|].
  { apply (bool_decide_unpack _). vm_compute. exact I. }
  unfold printint_out in *. rewrite (proj2 (Z.ltb_ge x 0)) in * by lia. cbn [andb] in *. rewrite app_nil_r in *.
  set (l := digit_loop 32 udigits 10 (u32 x)) in *.
  assert (Hd : Forall (fun c => c ∈ take 10 udigits) l) by (apply Forall_forall; intros c Hc; eapply digit_loop_dec, Hc).
  assert (Hv : dec_val 0 (reverse l) = x).
  { rewrite dec_val_reverse by done. transitivity (parse_int udigits 10 (reverse l)); [|exact Hp].
    rewrite parse_int_pos, reverse_involutive; [done|].
    rewrite elem_of_reverse. intros Hc. rewrite Forall_forall in Hd. destruct (udigit_dec _ (Hd _ Hc)) as [E _]. done. }
  unfold atoi. rewrite <- Hv at 1. apply atoi_digits; try done; [|lia..].
  apply Forall_forall. intros c. rewrite elem_of_reverse. intros Hc. rewrite Forall_forall in Hd.
  now destruct (udigit_dec _ (Hd _ Hc)).
Qed.

Lemma atoi_printf_roundtrip_witness : atoi 12 (sts ∅ 100 (bytes "4096")) 100 = Some 4096.
Proof. apply (atoi_printf_roundtrip 12 0); first [lia | vm_compute; reflexivity]. Defined.

(** * memmove *)

Lemma memmove_from_up n m d s : memmove_from n m d s = copy_up m d s n.
Proof. revert m d s. induction n as [|n IH]; intros m d s; [done|]. apply IH. Qed.

Lemma ld_memmove_down m dst src n b :
  0 <= n -> dst <= src -> ld (memmove m dst src n) b = if within dst n b then ld m (src + (b - dst)) else ld m b.
Proof.
  intros Hn Hd. unfold memmove. rewrite memmove_from_up, ld_copy_up by lia. now rewrite Z2Nat.id.
Qed.

Lemma ld_copy_up_below m d s n b : b < d -> ld (copy_up m d s n) b = ld m b.
Proof.
  revert m d s. induction n as [|n IH]; intros m d s Hb; [done|]. cbn. rewrite IH by lia. apply ld_st_ne. lia.
Qed.

(** Copying upwards, each byte written is the byte read at the time. *)
Lemma copy_up_shift m d s n i :
  s < d -> 0 <= i < Z.of_nat n -> ld (copy_up m d s n) (d + i) = ld (copy_up m d s n) (s + i).
Proof.
  revert m d s i. induction n as [|n IH]; intros m d s i Hs Hi; [lia|]. cbn [copy_up].
  destruct (Z.eq_dec i 0) as [->|Hne].
  - rewrite !Z.add_0_r, !ld_copy_up_below by lia. now rewrite ld_st_eq, ld_st_ne by lia.
  - replace (d + i) with (d + 1 + (i - 1)) by lia. replace (s + i) with (s + 1 + (i - 1)) by lia. apply IH; lia.
Qed.

(** Memmove of the user library is a forward copy.  Where the destination does
    not start inside the source it copies the source; where it starts [k] bytes
    into the source, the first [k] bytes are repeated over the whole destination
    and the rest of the source is lost, unlike in the kernel's memmove. *)
Theorem ulib_memmove m dst src n b :
  0 <= n -> dst <= b < dst + n ->
  ld (memmove m dst src n) b =
    if (src <? dst) && (dst <? src + n) then ld m (src + (b - dst) mod (dst - src)) else ld m (src + (b - dst)).
Proof.
  intros Hn Hb. unfold memmove. rewrite memmove_from_up. destruct (_ && _) eqn:E.
  2: { rewrite ld_copy_up by (apply andb_false_iff in E as [E|E]; zbool; lia).
       destruct (withinP dst (Z.of_nat (Z.to_nat n)) b); [done|lia]. }
  apply andb_true_iff in E as [E1 E2]. zbool. set (k := dst - src).
  assert (H : forall j, 0 <= j -> j < n + k -> ld (copy_up m dst src (Z.to_nat n)) (src + j) = ld m (src + j mod k)).
  { intros j Hj. pattern j. apply Zlt_0_ind; [|done]. clear j Hj. intros j IH Hj Hlt.
    destruct (Z.lt_ge_cases j k) as [Hjk|Hjk].
    - rewrite Z.mod_small by lia. apply ld_copy_up_below. lia.
    - replace (src + j) with (dst + (j - k)) by lia. rewrite copy_up_shift by lia. rewrite IH by lia.
      f_equal. f_equal. rewrite <- (Z_mod_plus_full (j - k) 1 k). f_equal. lia. }
  replace b with (src + (b - dst + k)) at 1 by lia. rewrite H by lia. f_equal. f_equal.
  rewrite <- (Z_mod_plus_full (b - dst) 1 k). f_equal. lia.
Qed.

Lemma ulib_memmove_witness : lds (memmove (sts ∅ 100 [1; 2; 3; 4; 5]) 101 100 4) 101 4 = [1; 1; 1; 1].
Proof.
  cbn [lds]. repeat f_equal; rewrite (ulib_memmove _ 101 100 4) by lia; reflexivity.
Defined.
