(* ===== verification/Grep.v ===== *)
(** grep.c: the regular expression matcher against the language of the pattern,
    and the loop that cuts its input into lines. *)
From S2P Require Import Prelude Mem Cstring Digits Ulib.

(** * The matcher

    A C string is the list of its bytes before the NUL; [re+1] is the tail. *)

Definition CARET : Z := 94.
Definition DOLLAR : Z := 36.
Definition STAR : Z := 42.
Definition DOT : Z := 46.

(** [matchstar(c, re, text)], where [here] is [matchhere(re, _)]. *)
Fixpoint matchstar (c : Z) (here : list Z -> bool) (text : list Z) : bool :=
  if here text then true
  else
    match text with
    | [] => false
    | t :: text' => if (t =? c) || (c =? DOT) then matchstar c here text' else false
    end.

Fixpoint matchhere (re text : list Z) : bool :=
  match re with
  | [] => true
  | c :: re1 =>
      match re1 with
      | c1 :: re2 =>
          if c1 =? STAR then matchstar c (matchhere re2) text
          else
            match text with
            | [] => false
            | t :: text' => if (c =? DOT) || (c =? t) then matchhere re1 text' else false
            end
      | [] =>
          if c =? DOLLAR then bool_decide (text = [])
          else
            match text with
            | [] => false
            | t :: text' => if (c =? DOT) || (c =? t) then matchhere re1 text' else false
            end
      end
  end.

(** The loop of match over the suffixes of the text. *)
Fixpoint match_any (re text : list Z) : bool :=
  if matchhere re text then true
  else match text with [] => false | _ :: text' => match_any re text' end.

Definition match_ (re text : list Z) : bool :=
  match re with
  | c :: re' => if c =? CARET then matchhere re' text else match_any re text
  | [] => match_any re text
  end.

(** ** The language of a pattern *)

Inductive item : Type :=
| One (c : Z)
| Many (c : Z)
| Eol.

Fixpoint items (re : list Z) : list item :=
  match re with
  | [] => []
  | c :: re1 =>
      match re1 with
      | c1 :: re2 => if c1 =? STAR then Many c :: items re2 else One c :: items re1
      | [] => if c =? DOLLAR then [Eol] else [One c]
      end
  end.

(** A dot stands for any character. *)
Definition stands (c t : Z) : Prop := c = DOT \/ c = t.

(** [lang ps w rest]: the items match [w] where the text goes on with [rest]. *)
Fixpoint lang (ps : list item) (w rest : list Z) : Prop :=
  match ps with
  | [] => w = []
  | One c :: ps' => exists t w', w = t :: w' /\ stands c t /\ lang ps' w' rest
  | Many c :: ps' => exists w1 w2, w = w1 ++ w2 /\ Forall (stands c) w1 /\ lang ps' w2 rest
  | Eol :: ps' => rest = [] /\ lang ps' w rest
  end.

(** Somewhere in the text, or at its start for a pattern that begins with ^. *)
Definition found (re text : list Z) : Prop :=
  match re with
  | c :: re' =>
      if c =? CARET then exists w rest, text = w ++ rest /\ lang (items re') w rest
      else exists pre w rest, text = pre ++ w ++ rest /\ lang (items re) w rest
  | [] => True
  end.

Lemma stands_iff c t : (c =? DOT) || (c =? t) = true <-> stands c t.
Proof. unfold stands. rewrite orb_true_iff, !Z.eqb_eq. done. Qed.

Lemma matchstar_lang c here ps text :
  (forall text, here text = true <-> exists w rest, text = w ++ rest /\ lang ps w rest) ->
  matchstar c here text = true <-> exists w rest, text = w ++ rest /\ lang (Many c :: ps) w rest.
Proof.
  intros Hh. induction text as [|t text IH]; cbn [matchstar].
  - destruct (here []) eqn:E.
    + split; [intros _|done]. apply Hh in E as (w & rest & E & Hl). exists w, rest. split; [done|].
      now exists [], w.
    + split; [done|]. intros (w & rest & E1 & w1 & w2 & -> & _ & Hl).
      symmetry in E1. apply app_nil in E1 as [[-> ->]%app_nil ->]. rewrite <- E. apply Hh. now exists [], [].
  - destruct (here (t :: text)) eqn:E.
    + split; [intros _|done]. apply Hh in E as (w & rest & E & Hl). exists w, rest. split; [done|]. now exists [], w.
    + assert (Ht : (t =? c) || (c =? DOT) = true <-> stands c t).
      { unfold stands. rewrite orb_true_iff, !Z.eqb_eq. split; intros [?|?]; auto. }
      destruct (_ || _).
      * rewrite IH. split.
        -- intros (w & rest & -> & w1 & w2 & -> & Hw & Hl). exists (t :: w1 ++ w2), rest. split; [done|].
           exists (t :: w1), w2. split; [done|]. split; [|done]. constructor; [now apply Ht|done].
        -- intros (w & rest & E1 & w1 & w2 & -> & Hw & Hl). destruct w1 as [|t1 w1].
           { exfalso. cbn in E1. assert (here (t :: text) = true) by (apply Hh; eauto). congruence. }
           injection E1 as <- ->. inversion Hw; subst. exists (w1 ++ w2), rest. split; [done|]. now exists w1, w2.
      * split; [done|]. intros (w & rest & E1 & w1 & w2 & -> & Hw & Hl). destruct w1 as [|t1 w1].
        { rewrite <- E. apply Hh. eauto. }
        injection E1 as <- ->. inversion Hw; subst. now apply Ht.
Qed.

Lemma one_lang c here ps text :
  (forall text, here text = true <-> exists w rest, text = w ++ rest /\ lang ps w rest) ->
  match text with
  | [] => false
  | t :: text' => if (c =? DOT) || (c =? t) then here text' else false
  end = true <-> exists w rest, text = w ++ rest /\ lang (One c :: ps) w rest.
Proof.
  intros Hh. destruct text as [|t text].
  - split; [done|]. intros (w & rest & E & t & w' & -> & _). done.
  - pose proof (stands_iff c t) as Hs. destruct (_ || _).
    + rewrite Hh. split.
      * intros (w & rest & -> & Hl). exists (t :: w), rest. split; [done|]. exists t, w. split_and!; [done|now apply Hs|done].
      * intros (w & rest & E & t' & w' & -> & Ht & Hl). injection E as <- ->. eauto.
    + split; [done|]. intros (w & rest & E & t' & w' & -> & Ht & Hl). injection E as <- ->. now apply Hs.
Qed.

Lemma matchhere_lang_upto n re text :
  (length re <= n)%nat -> matchhere re text = true <-> exists w rest, text = w ++ rest /\ lang (items re) w rest.
Proof.
  revert re text. induction n as [|n IH]; intros re text Hn.
  { destruct re; [|cbn in Hn; lia]. cbn. split; [intros _; now exists [], text|done]. }
  destruct re as [|c re1]; [cbn; split; [intros _; now exists [], text|done]|]. cbn in Hn.
  destruct re1 as [|c1 re2]; cbn [matchhere items].
  - destruct (Z.eqb_spec c DOLLAR) as [->|Hc].
    + rewrite bool_decide_eq_true. split.
      * intros ->. now exists [], [].
      * intros (w & rest & -> & -> & Hl). cbn in Hl. now subst.
    + apply (one_lang c (matchhere []) []). intros t. apply (IH []). cbn. lia.
  - cbn in Hn. destruct (Z.eqb_spec c1 STAR) as [->|Hc].
    + apply matchstar_lang. intros t. apply IH. lia.
    + apply (one_lang c (matchhere (c1 :: re2))). intros t. apply IH. cbn. lia.
Qed.

Lemma matchhere_lang re text : matchhere re text = true <-> exists w rest, text = w ++ rest /\ lang (items re) w rest.
Proof. now apply (matchhere_lang_upto (length re)). Qed.

Lemma match_any_lang re text :
  match_any re text = true <-> exists pre w rest, text = pre ++ w ++ rest /\ lang (items re) w rest.
Proof.
  induction text as [|t text IH]; cbn [match_any].
  - destruct (matchhere re []) eqn:E.
    + split; [intros _|done]. apply matchhere_lang in E as (w & rest & E & Hl). now exists [], w, rest.
    + split; [done|]. intros (pre & w & rest & E1 & Hl). symmetry in E1. apply app_nil in E1 as [-> E1].
      rewrite <- E. apply matchhere_lang. now exists w, rest.
  - destruct (matchhere re (t :: text)) eqn:E.
    + split; [intros _|done]. apply matchhere_lang in E as (w & rest & E & Hl). now exists [], w, rest.
    + rewrite IH. split.
      * intros (pre & w & rest & -> & Hl). now exists (t :: pre), w, rest.
      * intros (pre & w & rest & E1 & Hl). destruct pre as [|t' pre].
        { exfalso. assert (matchhere re (t :: text) = true) by (apply matchhere_lang; now exists w, rest). congruence. }
        injection E1 as <- ->. eauto.
Qed.

(** C39: grep's matcher finds a pattern in a text exactly when some part of the text
    (a part at its start for a pattern with ^) is in the language of the pattern:
    characters and dots, each possibly starred, with $ at the end standing for the
    end of the text. *)
Theorem match_correct re text : match_ re text = true <-> found re text.
Proof.
  unfold match_, found. destruct re as [|c re].
  - split; [done|intros _]. apply match_any_lang. now exists [], [], text.
  - destruct (c =? CARET); [apply matchhere_lang|apply match_any_lang].
Qed.

(** * The lines of the input *)

Section Loop.
(** How many bytes [read(fd, _, n)] delivers when [inp] is still to come; a number
    that is not positive ends the loop. *)
Variable rd : Z -> list Z -> Z.
(** The address of [buf]. *)
Variable buf : Z.

Definition BUF : Z := 1024.

(** The inner loop: the memory, [p] after it, and what has been written. *)
Fixpoint grep_lines (n : nat) (pattern : list Z) (m : mem) (p : Z) (out : list Z) : option (mem * Z * list Z) :=
  match n with
  | O => None
  | S n' =>
      match strchr (Z.to_nat BUF) m p 10 with
      | None => None
      | Some q =>
          if q =? 0 then Some (m, p, out)
          else
            let m := st m q 0 in
            if match_ pattern (cstr m p (Z.to_nat BUF)) then
              let m := st m q 10 in
              grep_lines n' pattern m (q + 1) (out ++ lds m p (Z.to_nat (q + 1 - p)))
            else grep_lines n' pattern m (q + 1) out
      end
  end.

(** The outer loop; [mm] is the variable [m] of the source. *)
Fixpoint grep_from (n : nat) (pattern : list Z) (m : mem) (mm : Z) (inp out : list Z) : option (list Z) :=
  match n with
  | O => None
  | S n' =>
      let r := rd (BUF - mm - 1) inp in
      if 0 <? r then
        let m := sts m (buf + mm) (take (Z.to_nat r) inp) in
        let inp := drop (Z.to_nat r) inp in
        let mm := mm + r in
        let m := st m (buf + mm) 0 in
        match grep_lines (S (Z.to_nat BUF)) pattern m buf out with
        | None => None
        | Some (m, p, out) =>
            let mm := if p =? buf then 0 else mm in
            if 0 <? mm then
              let mm := mm - (p - buf) in
              grep_from n' pattern (memmove m buf p mm) mm inp out
            else grep_from n' pattern m mm inp out
        end
      else Some out
  end.

Definition grep (pattern : list Z) (m : mem) (inp : list Z) : option (list Z) :=
  grep_from (S (length inp)) pattern m 0 inp [].
End Loop.

(** A file delivers what is asked for, up to its end. *)
Definition read_file (n : Z) (inp : list Z) : Z := Z.min n (Z.of_nat (length inp)).

(** ** Specification *)

Definition unlines (ls : list (list Z)) : list Z := concat ((fun l => l ++ [10]) <$> ls).

(** The lines grep is to write. *)
Definition selected (pattern : list Z) (ls : list (list Z)) : list Z :=
  unlines (filter (fun l => match_ pattern l = true) ls).

(** A line without NUL that fits the buffer with its newline. *)
Definition short_line (l : list Z) : Prop := (10 ∉ l) /\ (0 ∉ l) /\ (length l <= 1022)%nat.

#[global] Instance short_line_dec l : Decision (short_line l).
Proof. unfold short_line. apply _. Defined.

Lemma strchr_found n m p c l rest :
  lds m p (length (l ++ c :: rest)) = l ++ c :: rest -> c ∉ l -> 0 ∉ l -> c <> 0 -> (length l < n)%nat ->
  strchr n m p c = Some (p + Z.of_nat (length l)).
Proof.
  revert n p. induction l as [|x l IH]; intros n p Hm Hc H0 Hne Hn; (destruct n as [|n]; [cbn in Hn; lia|]);
    cbn [app length lds] in Hm; injection Hm as E Hm; cbn [strchr]; rewrite E.
  - rewrite (proj2 (Z.eqb_neq c 0)) by done. cbn [negb]. rewrite Z.eqb_refl. f_equal. cbn. lia.
  - apply not_elem_of_cons in Hc as [Hc1 Hc], H0 as [H01 H0].
    rewrite (proj2 (Z.eqb_neq x 0)) by congruence. cbn [negb]. rewrite (proj2 (Z.eqb_neq x c)) by congruence.
    rewrite IH by (try done; cbn in Hn; lia). f_equal. cbn [length]. lia.
Qed.

Lemma strchr_none n m p c l :
  lds m p (length l) = l -> ld m (p + Z.of_nat (length l)) = 0 -> c ∉ l -> 0 ∉ l -> (length l < n)%nat ->
  strchr n m p c = Some 0.
Proof.
  revert n p. induction l as [|x l IH]; intros n p Hm He Hc H0 Hn; (destruct n as [|n]; [cbn in Hn; lia|]); cbn [strchr].
  - cbn in He. rewrite Z.add_0_r in He. now rewrite He.
  - cbn [length lds] in Hm. injection Hm as E Hm. rewrite E. apply not_elem_of_cons in Hc as [Hc1 Hc], H0 as [H01 H0].
    rewrite (proj2 (Z.eqb_neq x 0)) by congruence. cbn [negb]. rewrite (proj2 (Z.eqb_neq x c)) by congruence.
    apply IH; try done; [|cbn in Hn; lia]. rewrite <- He. f_equal. cbn [length]. lia.
Qed.

Lemma cstr_line m p l n :
  lds m p (length l) = l -> ld m (p + Z.of_nat (length l)) = 0 -> 0 ∉ l -> (length l < n)%nat -> cstr m p n = l.
Proof.
  revert n p. induction l as [|x l IH]; intros n p Hm He H0 Hn; (destruct n as [|n]; [cbn in Hn; lia|]); cbn [cstr].
  - cbn in He. rewrite Z.add_0_r in He. now rewrite He.
  - cbn [length lds] in Hm. injection Hm as E Hm. rewrite E. apply not_elem_of_cons in H0 as [H01 H0].
    rewrite (proj2 (Z.eqb_neq x 0)) by congruence. f_equal. apply IH; try done; [|cbn in Hn; lia].
    rewrite <- He. f_equal. cbn [length]. lia.
Qed.

Lemma lds_st_above m a v b n : b + Z.of_nat n <= a \/ a < b -> lds (st m a v) b n = lds m b n.
Proof. intros H. apply lds_ext. intros i Hi. apply ld_st_ne. lia. Qed.

(** A line of the buffer: the matcher sees it without its newline. *)
Lemma grep_line m p l rest :
  lds m p (length (l ++ 10 :: rest)) = l ++ 10 :: rest -> short_line l ->
  let q := p + Z.of_nat (length l) in
  strchr (Z.to_nat BUF) m p 10 = Some q /\ cstr (st m q 0) p (Z.to_nat BUF) = l /\
  lds (st (st m q 0) q 10) p (Z.to_nat (q + 1 - p)) = l ++ [10].
Proof.
  intros Hm (H10 & H0 & Hlen) q.
  assert (Hl : lds m p (length l) = l).
  { rewrite length_app, lds_app in Hm. now apply app_inj_1 in Hm as [? _]; [|rewrite length_lds]. }
  split_and!.
  - apply (strchr_found _ _ _ _ _ rest); try done. change (Z.to_nat BUF) with 1024%nat. lia.
  - apply cstr_line; [|apply ld_st_eq|done|change (Z.to_nat BUF) with 1024%nat; lia]. rewrite lds_st_above; [done|lia].
  - replace (Z.to_nat (q + 1 - p)) with (length l + 1)%nat by lia. rewrite lds_app, !lds_st_above by lia. rewrite Hl.
    f_equal. cbn. f_equal. apply ld_st_eq.
Qed.

(** The inner loop writes the matching lines of the buffer and stops at the rest. *)
Lemma grep_lines_spec n pattern ls tl m p out :
  Forall short_line ls -> 10 ∉ tl -> 0 ∉ tl -> (length tl < 1024)%nat -> (length ls < n)%nat -> 0 < p ->
  let d := unlines ls ++ tl in
  lds m p (length d) = d -> ld m (p + Z.of_nat (length d)) = 0 ->
  exists m', grep_lines n pattern m p out = Some (m', p + Z.of_nat (length (unlines ls)), out ++ selected pattern ls) /\
    lds m' (p + Z.of_nat (length (unlines ls))) (length tl) = tl.
Proof.
  intros Hls Ht10 Ht0 Htl. revert n m p out. induction Hls as [|l ls Hl Hls IH]; intros n m p out Hn Hp d Hm He;
    (destruct n as [|n]; [cbn in Hn; lia|]); cbn [grep_lines].
  - subst d. cbn [unlines fmap list_fmap concat app] in *. exists m.
    rewrite (strchr_none _ _ _ _ tl) by (try done; change (Z.to_nat BUF) with 1024%nat; lia). rewrite Z.eqb_refl.
    cbn [length]. rewrite Z.add_0_r. split; [|done]. now rewrite app_nil_r.
  - assert (Ed : d = l ++ 10 :: unlines ls ++ tl).
    { unfold d, unlines. cbn. rewrite <- !app_assoc. done. }
    clearbody d. subst d. destruct (grep_line m p l (unlines ls ++ tl) Hm Hl) as (E1 & E2 & E3). cbn zeta in E1, E2, E3.
    rewrite E1. set (q := p + Z.of_nat (length l)) in *. rewrite (proj2 (Z.eqb_neq q 0)) by lia. rewrite E2.
    assert (Hm' : forall m', (forall b, q < b -> ld m' b = ld m b) ->
      lds m' (q + 1) (length (unlines ls ++ tl)) = unlines ls ++ tl /\
      ld m' (q + 1 + Z.of_nat (length (unlines ls ++ tl))) = 0).
    { intros m' Hag. cbn [length] in *. rewrite length_app in Hm, He. cbn [length] in Hm, He. split.
      - change (10 :: unlines ls ++ tl) with ([10] ++ (unlines ls ++ tl)) in Hm. rewrite app_assoc in Hm.
        replace (length l + S (length (unlines ls ++ tl)))%nat with (length (l ++ [10%Z]) + length (unlines ls ++ tl))%nat in Hm
          by (rewrite !length_app; cbn [length]; lia).
        rewrite lds_app in Hm. apply app_inj_1 in Hm as [_ Hm]; [|apply length_lds]. etransitivity; [|exact Hm].
        apply lds_ext. intros i Hi. rewrite Hag by lia. f_equal. rewrite length_app. cbn [length]. lia.
      - rewrite Hag by lia. rewrite <- He. f_equal. lia. }
    assert (El : length (unlines (l :: ls)) = (length l + 1 + length (unlines ls))%nat).
    { unfold unlines. cbn. rewrite !length_app. cbn [length]. lia. }
    rewrite El. replace (p + Z.of_nat (length l + 1 + length (unlines ls))) with (q + 1 + Z.of_nat (length (unlines ls))) by lia.
    cbn in Hn. unfold selected. cbn [filter list_filter]. destruct (match_ pattern l) eqn:Em.
    + rewrite decide_True by done. rewrite E3.
      destruct (Hm' (st (st m q 0) q 10)) as [H1 H2]; [intros b Hb; now rewrite !ld_st_ne by lia|].
      destruct (IH n (st (st m q 0) q 10) (q + 1) (out ++ l ++ [10])) as (m' & Er & Hr); [lia|lia|done|done|].
      exists m'. rewrite Er. split; [|done]. f_equal. f_equal. unfold selected, unlines. cbn. now rewrite <- !app_assoc.
    + rewrite decide_False by congruence.
      destruct (Hm' (st m q 0)) as [H1 H2]; [intros b Hb; now rewrite ld_st_ne by lia|].
      destruct (IH n (st m q 0) (q + 1) out) as (m' & Er & Hr); [lia|lia|done|done|]. exists m'. rewrite Er. split; [reflexivity|exact Hr].
Qed.

(** A part of the input is whole lines and the beginning of another. *)
Lemma split_lines ls d rest :
  Forall short_line ls -> d ++ rest = unlines ls ->
  exists ls1 ls2 tl, ls = ls1 ++ ls2 /\ d = unlines ls1 ++ tl /\ tl ++ rest = unlines ls2 /\
    (10 ∉ tl) /\ (0 ∉ tl) /\ (length tl <= 1022)%nat.
Proof.
  intros Hls. revert d. induction Hls as [|l ls (H10 & H0 & Hlen) Hls IH]; intros d Hd.
  - cbn in Hd. apply app_nil in Hd as [-> ->]. exists [], [], []. split_and!; try done; [apply not_elem_of_nil..|cbn; lia].
  - unfold unlines in Hd. cbn in Hd. fold (unlines ls) in Hd. rewrite <- app_assoc in Hd. cbn in Hd.
    destruct (Nat.le_gt_cases (length d) (length l)) as [Hle|Hgt].
    + exists [], (l :: ls), d. assert (Ed : d = take (length d) l).
      { apply (f_equal (take (length d))) in Hd. rewrite take_app_length in Hd.
        now rewrite take_app_le in Hd by done. }
      split_and!; try done.
      * unfold unlines. cbn. fold (unlines ls). rewrite <- app_assoc. exact Hd.
      * rewrite Ed. intros H. apply H10. eapply subseteq_take, H.
      * rewrite Ed. intros H. apply H0. eapply subseteq_take, H.
      * lia.
    + change (l ++ 10 :: unlines ls) with (l ++ [10] ++ unlines ls) in Hd. rewrite app_assoc in Hd.
      assert (exists d', d = (l ++ [10]) ++ d') as [d' ->].
      { exists (drop (length (l ++ [10])) d). rewrite <- (take_drop (length (l ++ [10])) d) at 1. f_equal.
        apply (f_equal (take (length (l ++ [10])))) in Hd. rewrite take_app_length in Hd.
        rewrite take_app_le in Hd; [done|]. rewrite length_app. cbn. lia. }
      rewrite <- app_assoc in Hd. apply app_inv_head in Hd.
      destruct (IH d' Hd) as (ls1 & ls2 & tl & -> & -> & E & Ht). exists (l :: ls1), ls2, tl. split_and!; try done; [|apply Ht..].
      unfold unlines. cbn. now rewrite <- !app_assoc.
Qed.

(** The first line of what is to come fits the buffer, so a full buffer, or all of
    the input, has a newline in it. *)
Lemma newline_in_buffer ls d rest :
  Forall short_line ls -> ls <> [] -> d ++ rest = unlines ls -> (rest = [] \/ (1023 <= length d)%nat) -> 10 ∈ d.
Proof.
  intros Hls Hne Hd Hr. destruct ls as [|l ls]; [done|]. apply Forall_cons in Hls as [(_ & _ & Hlen) _].
  assert (E : d ++ rest = (l ++ [10]) ++ unlines ls) by exact Hd.
  destruct Hr as [->|Hr].
  - rewrite app_nil_r in E. rewrite E. apply elem_of_app. left. apply elem_of_app. right. left.
  - apply (f_equal (take (length (l ++ [10])))) in E. rewrite take_app_length in E.
    rewrite take_app_le in E by (rewrite length_app; cbn; lia).
    assert (Hin : 10 ∈ take (length (l ++ [10])) d) by (rewrite E; apply elem_of_app; right; left).
    eapply subseteq_take, Hin.
Qed.

Lemma grep_from_spec buf n pattern ls carry m inp out :
  0 < buf -> Forall short_line ls -> carry ++ inp = unlines ls -> (10 ∉ carry) -> (length carry <= 1022)%nat ->
  lds m buf (length carry) = carry -> (length inp < n)%nat ->
  grep_from read_file buf n pattern m (Z.of_nat (length carry)) inp out = Some (out ++ selected pattern ls).
Proof.
  intros Hbuf. revert ls carry m inp out. induction n as [|n IH]; intros ls carry m inp out Hls Hd H10 Hlen Hm Hn; [lia|].
  cbn [grep_from]. set (r := read_file _ inp). destruct (decide (inp = [])) as [->|Hne].
  { assert (r = 0) as -> by (unfold r, read_file, BUF; cbn [length]; lia). rewrite app_nil_r in Hd.
    destruct ls as [|l ls].
    - unfold selected. cbn. now rewrite app_nil_r.
    - exfalso. apply H10. rewrite Hd. unfold unlines. cbn. apply elem_of_app. left. apply elem_of_app. right. left. }
  assert (Hinp : (0 < length inp)%nat) by (destruct inp; [done|cbn; lia]).
  assert (Hr : 0 < r <= Z.of_nat (length inp) /\ r <= 1023 - Z.of_nat (length carry)) by (unfold r, read_file, BUF; lia).
  assert (Hr' : r = Z.of_nat (length inp) \/ r = 1023 - Z.of_nat (length carry)) by (unfold r, read_file, BUF; lia).
  clearbody r.
  rewrite (proj2 (Z.ltb_lt 0 r)) by lia.
  set (chunk := take (Z.to_nat r) inp). set (inp' := drop (Z.to_nat r) inp).
  assert (Hch : length chunk = Z.to_nat r) by (unfold chunk; rewrite length_take; lia).
  assert (Hd' : (carry ++ chunk) ++ inp' = unlines ls) by (rewrite <- app_assoc; unfold chunk, inp'; now rewrite take_drop).
  assert (Hlsne : ls <> []).
  { intros ->. apply app_nil in Hd as [_ ->]. done. }
  assert (Hnl : 10 ∈ carry ++ chunk).
  { apply (newline_in_buffer ls _ inp' Hls Hlsne Hd'). rewrite length_app, Hch.
    destruct Hr' as [->|Hr']; [left|right; lia]. unfold inp'. apply drop_ge. lia. }
  destruct (split_lines ls _ inp' Hls Hd') as (ls1 & ls2 & tl & -> & Ed & Hrest & T10 & T0 & Tlen).
  apply Forall_app in Hls as [Hls1 Hls2].
  assert (Hdl : (length (carry ++ chunk) <= 1023)%nat) by (rewrite length_app, Hch; lia).
  set (m1 := st _ _ 0). assert (Hm1 : lds m1 buf (length (carry ++ chunk)) = carry ++ chunk).
  { unfold m1. rewrite lds_st_above by (left; rewrite length_app, Hch; lia).
    rewrite length_app, lds_app, lds_sts_same. f_equal. rewrite lds_sts_disj; [done|lia]. }
  assert (Hz : ld m1 (buf + Z.of_nat (length (carry ++ chunk))) = 0).
  { unfold m1. rewrite length_app, Hch. replace (buf + Z.of_nat (length carry + Z.to_nat r)) with (buf + (Z.of_nat (length carry) + r)) by lia.
    apply ld_st_eq. }
  rewrite Ed in Hm1, Hz, Hdl.
  assert (Hnls : (length ls1 <= length (unlines ls1))%nat).
  { clear. induction ls1 as [|l ls IH]; [cbn; lia|]. unfold unlines in *. cbn. rewrite !length_app. cbn [length]. lia. }
  destruct (grep_lines_spec (S (Z.to_nat BUF)) pattern ls1 tl m1 buf out) as (m2 & -> & Hm2); try done; [lia| |].
  { change (Z.to_nat BUF) with 1024%nat. rewrite length_app in Hdl. lia. }
  assert (Hpos : 0 < Z.of_nat (length (unlines ls1))).
  { destruct ls1; [|cbn in Hnls |- *; lia]. exfalso. rewrite Ed in Hnl. done. }
  rewrite (proj2 (Z.eqb_neq _ buf)) by lia. rewrite (proj2 (Z.ltb_lt 0 _)) by lia.
  assert (Elen : Z.of_nat (length carry) + r = Z.of_nat (length (unlines ls1)) + Z.of_nat (length tl)).
  { apply (f_equal length) in Ed. rewrite !length_app, Hch in Ed. lia. }
  replace (Z.of_nat (length carry) + r - (buf + Z.of_nat (length (unlines ls1)) - buf)) with (Z.of_nat (length tl)) by lia.
  rewrite (IH ls2 tl).
  - unfold selected. rewrite filter_app. unfold unlines. rewrite fmap_app, concat_app. now rewrite <- app_assoc.
  - done.
  - done.
  - done.
  - done.
  - etransitivity; [|exact Hm2]. apply lds_ext. intros i Hi. rewrite ld_memmove_down by lia.
    destruct (withinP buf (Z.of_nat (length tl)) (buf + i)); [f_equal; lia|lia].
  - unfold inp'. rewrite length_drop. lia.
Qed.

(** C40: grep on a file of lines that end in newlines, have no NUL, and fit the
    buffer (1022 characters) writes exactly the lines that the pattern matches, in
    order and whole, wherever the reads of the file cut the lines; and it ends. *)
Theorem grep_selects_lines buf pattern ls m :
  0 < buf -> Forall short_line ls ->
  grep read_file buf pattern m (unlines ls) = Some (selected pattern ls).
Proof.
  intros Hb Hls. apply (grep_from_spec buf _ pattern ls [] m); try done; [apply not_elem_of_nil|cbn; lia..].
Qed.

Lemma grep_selects_lines_witness :
  grep read_file 4096 (bytes "^a.*c$") ∅ (unlines [bytes "abc"; bytes "bca"; bytes "ac"]) =
  Some (bytes "abc" ++ [10] ++ bytes "ac" ++ [10]).
Proof.
  rewrite (grep_selects_lines 4096 (bytes "^a.*c$") [bytes "abc"; bytes "bca"; bytes "ac"]); [reflexivity|lia|].
  apply (bool_decide_unpack _). vm_compute. exact I.
Defined.

(** What a read delivers is forgotten when the buffer was empty and no newline
    is among it: grep goes on as if it had not been in the input.  So the
    beginning of a line that comes from a pipe or the console in two parts is
    lost, and a last line without a newline is never searched. *)
Theorem grep_drops_partial_line rd buf n pattern m inp out r :
  0 < buf -> rd (BUF - 0 - 1) inp = r -> 0 < r < BUF -> r <= Z.of_nat (length inp) ->
  (10 ∉ take (Z.to_nat r) inp) -> (0 ∉ take (Z.to_nat r) inp) ->
  exists m', grep_from rd buf (S n) pattern m 0 inp out = grep_from rd buf n pattern m' 0 (drop (Z.to_nat r) inp) out.
Proof.
  intros Hb Hrd Hr Hle H10 H0. cbn [grep_from]. rewrite Hrd. rewrite (proj2 (Z.ltb_lt 0 r)) by lia.
  set (chunk := take _ inp) in *. assert (Hc : length chunk = Z.to_nat r) by (unfold chunk; rewrite length_take; lia).
  set (m1 := st _ _ 0). destruct (grep_lines_spec (S (Z.to_nat BUF)) pattern [] chunk m1 buf out) as (m2 & E & _).
  - apply Forall_nil_2.
  - done.
  - done.
  - unfold BUF in Hr. lia.
  - cbn. lia.
  - done.
  - cbn [unlines fmap list_fmap concat app]. unfold m1. rewrite lds_st_above by lia. rewrite Z.add_0_r. apply lds_sts_same.
  - cbn [unlines fmap list_fmap concat app]. unfold m1. rewrite Hc, Z2Nat.id by lia. rewrite !Z.add_0_l. apply ld_st_eq.
  - rewrite E. cbn [unlines fmap list_fmap concat length Z.of_nat]. rewrite Z.add_0_r, Z.eqb_refl. cbn match.
    exists m2. unfold selected. cbn [filter list_filter unlines fmap list_fmap concat]. now rewrite app_nil_r.
Qed.

(** The line abc in two parts: the pattern is in the part that is lost. *)
Lemma grep_drops_partial_line_witness :
  let rd := fun n inp => if Z.of_nat (length inp) =? 4 then 2 else read_file n inp in
  selected (bytes "ab") [bytes "abc"] = bytes "abc" ++ [10] /\
  exists m', grep rd 4096 (bytes "ab") ∅ (bytes "abc" ++ [10]) = grep_from rd 4096 4 (bytes "ab") m' 0 (bytes "c" ++ [10]) [].
Proof.
  intros rd. split; [reflexivity|].
  apply (grep_drops_partial_line rd 4096 4 (bytes "ab") ∅ (bytes "abc" ++ [10]) [] 2);
    first [lia | reflexivity | unfold BUF; lia | cbn; lia | apply (bool_decide_unpack _); vm_compute; exact I].
Defined.
