(* ===== verification/Uprog.v ===== *)
(** User programs as the system calls they make.  A program is a tree: it ends, or
    makes a call and goes on with what the call returns.  The kernel is a parameter,
    with what the programs rely on as the laws of a class; printf is that of the
    user library. *)
From S2P Require Import Prelude Mem Cstring Digits Ulib.

Abbreviation str := (list Z).

(** * System calls *)

Inductive call : Type :=
| Open (path : str) (mode : Z)
| Close (fd : Z)
| Read (fd n : Z)
| Write (fd : Z) (bs : list Z)
| Fstat (fd : Z)
| Dup (fd : Z)
| Mknod (path : str) (major minor : Z)
| Mkdir (path : str)
| Link (old new : str)
| Unlink (path : str)
| Fork
| Exec (path : str) (argv : list str)
| Wait
| Kill (pid sig : Z)
| Sleep (n : Z).

(** What a call returns, and what it stores: the bytes that were read, or the fields
    type, ino and size of a struct stat. *)
Definition reply : Type := Z * list Z.

(** [Stuck] is where a loop of the model has run out of rounds. *)
Inductive prog (A : Type) : Type :=
| Return (a : A)
| Exit
| Stuck
| Sys (c : call) (k : reply -> prog A).
Arguments Return {A}.
Arguments Exit {A}.
Arguments Stuck {A}.
Arguments Sys {A}.

Fixpoint pbind {A B} (p : prog A) (f : A -> prog B) : prog B :=
  match p with
  | Return a => f a
  | Exit => Exit
  | Stuck => Stuck
  | Sys c k => Sys c (fun r => pbind (k r) f)
  end.

Definition ucall (c : call) : prog reply := Sys c Return.

Declare Scope uprog_scope.
Delimit Scope uprog_scope with uprog.
Notation "'do' x <- m ; k" := (pbind m (fun x => k)) (at level 10, x binder, m at level 100, k at level 200) : uprog_scope.
Notation "m ;;> k" := (pbind m (fun _ => k)) (at level 100, k at level 200, right associativity) : uprog_scope.
Open Scope uprog_scope.

(** * The kernel *)

(** The system as the programs see it: [file p] is what a reader of the file named
    [p] gets, [None] if it cannot be opened, and [stats p] its type, ino and size; an
    open descriptor has the name of its file and what is still to be read from it;
    [output fd] is what has been written to [fd].  The descriptors that are written
    to are not files that are read. *)
Record os : Type := Os {
  file : str -> option (list Z);
  stats : str -> option (Z * Z * Z);
  fds : gmap Z (str * list Z);
  output : Z -> list Z
}.

Definition set_fd (fd : Z) (p : str) (c : list Z) (o : os) : os := Os (file o) (stats o) (<[fd := (p, c)]> (fds o)) (output o).
Definition del_fd (fd : Z) (o : os) : os := Os (file o) (stats o) (delete fd (fds o)) (output o).
Definition app_out (fd : Z) (bs : list Z) (o : os) : os :=
  Os (file o) (stats o) (fds o) (fun fd' => if fd' =? fd then output o fd ++ bs else output o fd').

(** A kernel with states [W].  A read returns at least one byte unless the file is
    at its end, and may return fewer than asked for, as a pipe does. *)
Class Kernel (W : Type) : Type := {
  sys : call -> W -> reply * W;
  view : W -> os;
  sys_read fd n w p c : 0 < n -> fds (view w) !! fd = Some (p, c) ->
    exists bs later w', sys (Read fd n) w = ((Z.of_nat (length bs), bs), w') /\ view w' = set_fd fd p later (view w) /\
      c = bs ++ later /\ Z.of_nat (length bs) <= n /\ (bs = [] -> c = []);
  sys_write fd bs w :
    exists x w', sys (Write fd bs) w = ((Z.of_nat (length bs), x), w') /\ view w' = app_out fd bs (view w);
  sys_open p w :
    exists r x w', sys (Open p 0) w = ((r, x), w') /\
      match file (view w) p with
      | None => r < 0 /\ view w' = view w
      | Some c => 2 < r /\ fds (view w) !! r = None /\ view w' = set_fd r p c (view w)
      end;
  sys_close fd w : exists r x w', sys (Close fd) w = ((r, x), w') /\ view w' = del_fd fd (view w);
  sys_fstat fd w p c : fds (view w) !! fd = Some (p, c) ->
    exists r st w', sys (Fstat fd) w = ((r, st), w') /\ view w' = view w /\
      match stats (view w) p with
      | None => r < 0
      | Some (type, ino, size) => r = 0 /\ st = [type; ino; size]
      end
}.

(** Reading from files and directories, which return what was asked for. *)
Class ExactReads (W : Type) `{Kernel W} : Prop :=
  read_exact fd n w p c : 0 < n -> fds (view w) !! fd = Some (p, c) -> 2 < fd ->
    (sys (Read fd n) w).1.1 = Z.min n (Z.of_nat (length c)).

Inductive ending (A W : Type) : Type :=
| Returned (a : A) (w : W)
| Exited (w : W)
| Ranout.
Arguments Returned {A W}.
Arguments Exited {A W}.
Arguments Ranout {A W}.

Section Run.
Context {W : Type} (step : call -> W -> reply * W).

Fixpoint run {A} (p : prog A) (w : W) : ending A W :=
  match p with
  | Return a => Returned a w
  | Exit => Exited w
  | Stuck => Ranout
  | Sys c k => let '(r, w) := step c w in run (k r) w
  end.

(** The calls of a run, each with the state in which it is made. *)
Fixpoint calls {A} (p : prog A) (w : W) : list (call * W) :=
  match p with
  | Sys c k => (c, w) :: let '(r, w) := step c w in calls (k r) w
  | _ => []
  end.

(** [runs p w Q E]: the program returns with [Q], or exits with [E]. *)
Definition runs {A} (p : prog A) (w : W) (Q : A -> W -> Prop) (E : W -> Prop) : Prop :=
  match run p w with Returned a w' => Q a w' | Exited w' => E w' | Ranout => False end.

Lemma run_bind {A B} (p : prog A) (f : A -> prog B) w :
  run (pbind p f) w = match run p w with Returned a w => run (f a) w | Exited w => Exited w | Ranout => Ranout end.
Proof.
  revert w. induction p as [a| | |c k IH]; intros w; cbn; try done. destruct (step c w) as [r w']. apply IH.
Qed.

Lemma runs_bind {A B} (p : prog A) (f : A -> prog B) w Q E :
  runs p w (fun a w' => runs (f a) w' Q E) E -> runs (pbind p f) w Q E.
Proof. unfold runs. rewrite run_bind. now destruct (run p w). Qed.

Lemma runs_mono {A} (p : prog A) w (Q Q' : A -> W -> Prop) (E E' : W -> Prop) :
  runs p w Q E -> (forall a w', Q a w' -> Q' a w') -> (forall w', E w' -> E' w') -> runs p w Q' E'.
Proof. unfold runs. destruct (run p w); auto. Qed.
End Run.

(** * Calls of a kernel *)
Section Calls.
Context {W : Type} `{Kernel W}.
Abbreviation runs := (runs sys).

Lemma runs_write fd bs w (Q : reply -> W -> Prop) E :
  (forall x w', view w' = app_out fd bs (view w) -> Q (Z.of_nat (length bs), x) w') -> runs (ucall (Write fd bs)) w Q E.
Proof. intros HQ. destruct (sys_write fd bs w) as (x & w' & Es & Hv). unfold Uprog.runs. cbn. rewrite Es. now apply HQ. Qed.

Lemma runs_read fd n w p c (Q : reply -> W -> Prop) E :
  0 < n -> fds (view w) !! fd = Some (p, c) ->
  (forall bs later w', c = bs ++ later -> Z.of_nat (length bs) <= n -> (bs = [] -> c = []) -> view w' = set_fd fd p later (view w) ->
    sys (Read fd n) w = ((Z.of_nat (length bs), bs), w') -> Q (Z.of_nat (length bs), bs) w') ->
  runs (ucall (Read fd n)) w Q E.
Proof.
  intros Hn Hfd HQ. destruct (sys_read fd n w p c Hn Hfd) as (bs & later & w' & Es & Hv & Hc & Hle & Hnil).
  unfold Uprog.runs. cbn. rewrite Es. now apply (HQ bs later w').
Qed.

Lemma runs_open p w (Q : reply -> W -> Prop) E :
  (forall r x w', file (view w) p = None -> r < 0 -> view w' = view w -> Q (r, x) w') ->
  (forall r x w' c, file (view w) p = Some c -> 2 < r -> fds (view w) !! r = None -> view w' = set_fd r p c (view w) -> Q (r, x) w') ->
  runs (ucall (Open p 0)) w Q E.
Proof.
  intros H1 H2. destruct (sys_open p w) as (r & x & w' & Es & Hv). unfold Uprog.runs. cbn. rewrite Es.
  destruct (file (view w) p) as [c|]; [destruct Hv as (? & ? & ?); now apply (H2 r x w' c)|destruct Hv; now apply H1].
Qed.

Lemma runs_close fd w (Q : reply -> W -> Prop) E :
  (forall r x w', view w' = del_fd fd (view w) -> Q (r, x) w') -> runs (ucall (Close fd)) w Q E.
Proof. intros HQ. destruct (sys_close fd w) as (r & x & w' & Es & Hv). unfold Uprog.runs. cbn. rewrite Es. now apply HQ. Qed.

Lemma runs_fstat fd w p c (Q : reply -> W -> Prop) E :
  fds (view w) !! fd = Some (p, c) ->
  (forall r x w', stats (view w) p = None -> r < 0 -> view w' = view w -> Q (r, x) w') ->
  (forall t i z w', stats (view w) p = Some (t, i, z) -> view w' = view w -> Q (0, [t; i; z]) w') ->
  runs (ucall (Fstat fd)) w Q E.
Proof.
  intros Hfd H1 H2. destruct (sys_fstat fd w p c Hfd) as (r & st & w' & Es & Hv & Hs). unfold Uprog.runs. cbn. rewrite Es.
  destruct (stats (view w) p) as [[[t i] z]|]; [|now apply H1]. destruct Hs as [-> ->]. now apply H2.
Qed.
End Calls.
