(* ===== verification/Uprogs.v ===== *)
(** The user programs cat, wc, echo, ln, rm, mkdir, kill, zombie, init and ls, as the
    system calls they make. *)
From S2P Require Import Prelude Mem Mmu Cstring Digits Ulib Uprog.

(** printf(fd, ...) of the text [bs]: one call for each byte, like putc. *)
Fixpoint print (fd : Z) (bs : list Z) : prog unit :=
  match bs with
  | [] => Return tt
  | b :: bs' => ucall (Write fd [b]) ;;> print fd bs'
  end.

(** * cat.c *)

Fixpoint cat (n : nat) (fd : Z) : prog unit :=
  match n with
  | O => Stuck
  | S n' =>
      do r <- ucall (Read fd 512);
      if 0 <? r.1 then
        do v <- ucall (Write 1 r.2);
        if negb (v.1 =? r.1) then print 1 (bytes "cat: write error" ++ [10]) ;;> Exit else cat n' fd
      else if r.1 <? 0 then print 1 (bytes "cat: read error" ++ [10]) ;;> Exit
      else Return tt
  end.

(** The loop over the files of the command line, in cat and in wc. *)
Fixpoint each_file (name : string) (body : Z -> str -> prog unit) (argv : list str) : prog unit :=
  match argv with
  | [] => Exit
  | p :: argv' =>
      do r <- ucall (Open p 0);
      if r.1 <? 0 then print 1 (bytes name ++ bytes ": cannot open " ++ p ++ [10]) ;;> Exit
      else
        body r.1 p ;;>
        ucall (Close r.1) ;;>
        each_file name body argv'
  end.

Definition cat_main (n : nat) (argv : list str) : prog unit :=
  if (length argv <=? 1)%nat then cat n 0 ;;> Exit
  else each_file "cat" (fun fd _ => cat n fd) (tl argv).

(** * wc.c *)

(** The characters of the string that wc gives to strchr. *)
Definition isspace (b : Z) : bool := bool_decide (b ∈ [32; 13; 9; 10; 11]).

Record counts : Type := Counts { wl : Z; ww : Z; wc_c : Z; inword : bool }.

Definition wc_byte (s : counts) (b : Z) : counts :=
  let s := Counts (wl s) (ww s) (s32 (u32 (wc_c s + 1))) (inword s) in
  let s := if b =? 10 then Counts (s32 (u32 (wl s + 1))) (ww s) (wc_c s) (inword s) else s in
  if isspace b then Counts (wl s) (ww s) (wc_c s) false
  else if negb (inword s) then Counts (wl s) (s32 (u32 (ww s + 1))) (wc_c s) true
  else s.

(** What is printed for the counts. *)
Definition wc_line (s : counts) (name : str) : list Z :=
  printint (wl s) 10 true ++ [32] ++ printint (ww s) 10 true ++ [32] ++ printint (wc_c s) 10 true ++ [32] ++ name ++ [10].

Fixpoint wc_from (n : nat) (fd : Z) (name : str) (s : counts) : prog unit :=
  match n with
  | O => Stuck
  | S n' =>
      do r <- ucall (Read fd 512);
      if 0 <? r.1 then wc_from n' fd name (foldl wc_byte s r.2)
      else if r.1 <? 0 then print 1 (bytes "wc: read error" ++ [10]) ;;> Exit
      else print 1 (wc_line s name)
  end.

Definition wc (n : nat) (fd : Z) (name : str) : prog unit := wc_from n fd name (Counts 0 0 0 false).

Definition wc_main (n : nat) (argv : list str) : prog unit :=
  if (length argv <=? 1)%nat then wc n 0 [] ;;> Exit
  else each_file "wc" (fun fd p => wc n fd p) (tl argv).

(** * echo.c, ln.c, rm.c, mkdir.c, kill.c, zombie.c *)

Fixpoint echo_from (argv : list str) : prog unit :=
  match argv with
  | [] => Exit
  | a :: argv' => print 1 (a ++ if negb (bool_decide (argv' = [])) then [32] else [10]) ;;> echo_from argv'
  end.

Definition echo_main (argv : list str) : prog unit := echo_from (tl argv).

Definition ln_main (argv : list str) : prog unit :=
  match argv with
  | [_; old; new] =>
      do r <- ucall (Link old new);
      (if r.1 <? 0 then print 2 (bytes "link " ++ old ++ [32] ++ new ++ bytes ": failed" ++ [10]) else Return tt) ;;>
      Exit
  | _ => print 2 (bytes "Usage: ln old new" ++ [10]) ;;> Exit
  end.

Fixpoint rm_from (argv : list str) : prog unit :=
  match argv with
  | [] => Exit
  | p :: argv' =>
      do r <- ucall (Unlink p);
      if r.1 <? 0 then print 2 (bytes "rm: " ++ p ++ bytes " failed to delete" ++ [10]) ;;> Exit
      else rm_from argv'
  end.

Definition rm_main (argv : list str) : prog unit :=
  if (length argv <? 2)%nat then print 2 (bytes "Usage: rm files..." ++ [10]) ;;> Exit
  else rm_from (tl argv).

Fixpoint mkdir_from (argv : list str) : prog unit :=
  match argv with
  | [] => Exit
  | p :: argv' =>
      do r <- ucall (Mkdir p);
      if r.1 <? 0 then print 2 (bytes "mkdir: " ++ p ++ bytes " failed to create" ++ [10]) ;;> Exit
      else mkdir_from argv'
  end.

Definition mkdir_main (argv : list str) : prog unit :=
  if (length argv <? 2)%nat then print 2 (bytes "Usage: mkdir files..." ++ [10]) ;;> Exit
  else mkdir_from (tl argv).

(** The value that atoi reads from a string. *)
Fixpoint atoi_val (n : Z) (s : str) : Z :=
  match s with
  | [] => n
  | b :: s' => if (48 <=? b) && (b <=? 57) then atoi_val (s32 (u32 (n * 10 + b - 48))) s' else n
  end.

(** argv[argc] is the null pointer, and [at0] the string at address 0 of the program. *)
Definition kill_main (at0 : str) (argv : list str) : prog unit :=
  if (length argv <? 2)%nat then print 2 (bytes "usage: kill pid..." ++ [10]) ;;> Exit
  else
    ucall (Kill (atoi_val 0 (default at0 (argv !! 1%nat))) (atoi_val 0 (default at0 (argv !! 2%nat)))) ;;>
    Exit.

Definition zombie_main : prog unit :=
  do r <- ucall Fork;
  (if 0 <? r.1 then ucall (Sleep 5) ;;> Return tt else Return tt) ;;>
  Exit.

(** * init.c *)

(** [while((wpid=wait()) >= 0 && wpid != pid)] *)
Fixpoint reap (n : nat) (pid : Z) : prog unit :=
  match n with
  | O => Stuck
  | S n' =>
      do r <- ucall Wait;
      if (0 <=? r.1) && negb (r.1 =? pid) then print 1 (bytes "zombie!" ++ [10]) ;;> reap n' pid
      else Return tt
  end.

(** [n] rounds of the endless loop, each of at most [k] calls of wait. *)
Fixpoint init_loop (n k : nat) : prog unit :=
  match n with
  | O => Stuck
  | S n' =>
      print 1 (bytes "init: starting sh" ++ [10]) ;;>
      do r <- ucall Fork;
      if r.1 <? 0 then print 1 (bytes "init: fork failed" ++ [10]) ;;> Exit
      else if r.1 =? 0 then
        ucall (Exec (bytes "sh") [bytes "sh"]) ;;>
        print 1 (bytes "init: exec sh failed" ++ [10]) ;;> Exit
      else reap k r.1 ;;> init_loop n' k
  end.

Definition init_main (n k : nat) : prog unit :=
  do r <- ucall (Open (bytes "console") O_RDWR);
  (if r.1 <? 0 then
    ucall (Mknod (bytes "console") 1 1) ;;>
    ucall (Open (bytes "console") O_RDWR) ;;> Return tt
   else Return tt) ;;>
  ucall (Dup 0) ;;>
  ucall (Dup 0) ;;>
  init_loop n k.

(** * ls.c *)

(** [for(p=path+strlen(path); p >= path && *p != '/'; p--)] and [p++]: the place after
    the last slash among the first [k] characters. *)
Fixpoint slash_from (k : nat) (path : str) : nat :=
  match k with
  | O => O
  | S i => if default 0 (path !! i) =? 47 then S i else slash_from i path
  end.

Definition fmtname (path : str) : str :=
  let p := drop (slash_from (S (length path)) path) path in
  if DIRSIZ <=? Z.of_nat (length p) then p else p ++ replicate (Z.to_nat DIRSIZ - length p) 32.

Definition ls_line (path : str) (st : list Z) : list Z :=
  fmtname path ++ [32] ++ printint (s32 (aget 0 st 0)) 10 true ++ [32] ++ printint (s32 (aget 0 st 1)) 10 true ++ [32] ++
  printint (s32 (aget 0 st 2)) 10 true ++ [10].

(** stat of ulib.c. *)
Definition stat (n : str) : prog reply :=
  do fd <- ucall (Open n 0);
  if fd.1 <? 0 then Return (-1, [])
  else
    do r <- ucall (Fstat fd.1);
    ucall (Close fd.1) ;;>
    Return r.

(** The name in an entry: up to [DIRSIZ] characters before a NUL. *)
Definition entry_name (de : list Z) : str := cut0 (take (Z.to_nat DIRSIZ) (drop 2 de)).

(** The loop over the entries of a directory; [buf] is the path with its slash. *)
Fixpoint ls_entries (n : nat) (fd : Z) (buf : str) : prog unit :=
  match n with
  | O => Stuck
  | S n' =>
      do r <- ucall (Read fd 16);
      if negb (r.1 =? 16) then Return tt
      else if le_val (take 2 r.2) =? 0 then ls_entries n' fd buf
      else
        let name := buf ++ entry_name r.2 in
        do s <- stat name;
        if s.1 <? 0 then print 1 (bytes "ls: cannot stat " ++ name ++ [10]) ;;> ls_entries n' fd buf
        else print 1 (ls_line name s.2) ;;> ls_entries n' fd buf
  end.

Definition ls (n : nat) (path : str) : prog unit :=
  do r <- ucall (Open path 0);
  if r.1 <? 0 then print 2 (bytes "ls: cannot open " ++ path ++ [10])
  else
    let fd := r.1 in
    do s <- ucall (Fstat fd);
    if s.1 <? 0 then
      print 2 (bytes "ls: cannot stat " ++ path ++ [10]) ;;>
      ucall (Close fd) ;;> Return tt
    else
      let type := aget 0 s.2 0 in
      (if type =? T_FILE then print 1 (ls_line path s.2)
       else if type =? T_DIR then
         if 512 <? Z.of_nat (length path) + 1 + DIRSIZ + 1 then print 1 (bytes "ls: path too long" ++ [10])
         else ls_entries n fd (path ++ [47])
       else Return tt) ;;>
      ucall (Close fd) ;;> Return tt.

Fixpoint ls_each (n : nat) (argv : list str) : prog unit :=
  match argv with
  | [] => Exit
  | p :: argv' => ls n p ;;> ls_each n argv'
  end.

Definition ls_main (n : nat) (argv : list str) : prog unit :=
  if (length argv <? 2)%nat then ls n (bytes ".") ;;> Exit
  else ls_each n (tl argv).
