(* ===== verification/UprogProps.v ===== *)
(** What the user programs do, on any kernel that keeps the laws of [Kernel]. *)
From S2P Require Import Prelude Mem Mmu Cstring Digits Ulib Uprog Uprogs.

(** * Output *)

(** The system with [bs] more on its standard output. *)
Definition printed (fd : Z) (bs : list Z) (o o' : os) : Prop :=
  file o' = file o /\ stats o' = stats o /\ fds o' = fds o /\
  forall fd', output o' fd' = if fd' =? fd then output o fd ++ bs else output o fd'.

(** * Counting *)

Definition lines (l : list Z) : nat := length (filter (fun b => b = 10) l).

(** The pieces between white space, and the words: the pieces that are not empty. *)
Fixpoint pieces (l : list Z) : list (list Z) :=
  match l with
  | [] => [[]]
  | b :: l' =>
      if isspace b then [] :: pieces l'
      else match pieces l' with [] => [[b]] | x :: xs => (b :: x) :: xs end
  end.

Definition nonempty (xs : list (list Z)) : nat := length (filter (fun x => x <> []) xs).
Definition words (l : list Z) : nat := nonempty (pieces l).

(** The words that start in [l]; the flag is whether a word goes on. *)
Fixpoint starts (inw : bool) (l : list Z) : nat :=
  match l with
  | [] => 0%nat
  | b :: l' => if isspace b then starts false l' else Nat.add (if inw then 0%nat else 1%nat) (starts true l')
  end.

Lemma starts_pieces l : starts false l = nonempty (pieces l) /\ starts true l = nonempty (tl (pieces l)) /\ pieces l <> [].
Proof.
  induction l as [|b l (IH1 & IH2 & IH3)]; [done|]. cbn [starts pieces]. destruct (isspace b); [done|].
  destruct (pieces l) as [|x xs]; [done|]. unfold nonempty in *. cbn [tl] in *. rewrite filter_cons_True by done. cbn [length]. rewrite IH2. done.
Qed.

Lemma starts_le inw l : (starts inw l <= length l)%nat.
Proof.
  revert inw. induction l as [|b l IH]; intros inw; cbn [starts length]; [lia|]. destruct (isspace b), inw;
    specialize (IH true) as H1; specialize (IH false) as H2; lia.
Qed.

Lemma lines_cons b l : lines (b :: l) = Nat.add (if b =? 10 then 1%nat else 0%nat) (lines l).
Proof. unfold lines. rewrite filter_cons. destruct (Z.eqb_spec b 10), (decide (b = 10)); done. Qed.

Lemma s32_succ x : 0 <= x -> x + 1 < 2147483648 -> s32 (u32 (x + 1)) = x + 1.
Proof. intros H1 H2. rewrite u32_small by (unfold is_u32; lia). apply s32_small. lia. Qed.

Lemma wc_fold l s :
  0 <= wl s -> 0 <= ww s -> 0 <= wc_c s -> Z.max (Z.max (wl s) (ww s)) (wc_c s) + Z.of_nat (length l) < 2147483648 ->
  exists inw, foldl wc_byte s l = Counts (wl s + Z.of_nat (lines l)) (ww s + Z.of_nat (starts (inword s) l)) (wc_c s + Z.of_nat (length l)) inw.
Proof.
  revert s. induction l as [|b l IH]; intros [x y z inw]; cbn [wl ww wc_c inword]; intros H1 H2 H3 Hmax.
  - exists inw. cbn. now rewrite !Z.add_0_r.
  - cbn [length] in Hmax. cbn [foldl]. unfold wc_byte at 2. cbn [wl ww wc_c inword]. rewrite lines_cons.
    destruct (b =? 10), (isspace b) eqn:Es, inw; cbn [negb wl ww wc_c inword]; rewrite ?s32_succ by lia;
      (match goal with |- context [foldl wc_byte ?s l] => destruct (IH s) as (inw' & ->); cbn [wl ww wc_c inword]; [lia..|] end);
      exists inw'; cbn [starts length]; rewrite Es; f_equal; lia.
Qed.

(** The line that wc prints for a file. *)
Definition wc_text (p : str) (c : list Z) : list Z :=
  wc_line (Counts (Z.of_nat (lines c)) (Z.of_nat (words c)) (Z.of_nat (length c)) false) p.

Lemma wc_line_fold p c : Z.of_nat (length c) < 2147483648 -> wc_line (foldl wc_byte (Counts 0 0 0 false) c) p = wc_text p c.
Proof.
  intros Hc. destruct (wc_fold c (Counts 0 0 0 false)) as (inw & ->); cbn [wl ww wc_c inword]; [lia..|].
  destruct (starts_pieces c) as (-> & _ & _). done.
Qed.

(** It is what printf makes of the format of wc. *)
Lemma printf_d n m fmt x ap : printf_from n m (37 :: 100 :: fmt) 0 (x :: ap) = printint (s32 x) 10 true ++ printf_from n m fmt 0 ap.
Proof. done. Qed.

Lemma printf_s n m fmt a ap s : a <> 0 -> cstr m a n = s -> printf_from n m (37 :: 115 :: fmt) 0 (a :: ap) = s ++ printf_from n m fmt 0 ap.
Proof. intros Ha <-. cbn -[Z.eqb]. rewrite (proj2 (Z.eqb_neq a 0)) by done. done. Qed.

Lemma printf_c n m fmt b ap : b <> 37 -> printf_from n m (b :: fmt) 0 ap = [b] ++ printf_from n m fmt 0 ap.
Proof. intros Hb. cbn -[Z.eqb]. now rewrite (proj2 (Z.eqb_neq b 37)). Qed.

Lemma wc_text_printf k m a p c :
  Z.of_nat (length c) < 2147483648 -> a <> 0 -> cstr m a k = p ->
  Ulib.printf k m (bytes "%d %d %d %s" ++ [10]) [Z.of_nat (lines c); Z.of_nat (words c); Z.of_nat (length c); a] = wc_text p c.
Proof.
  intros Hc Ha Hp. unfold Ulib.printf, wc_text, wc_line. cbn [wl ww wc_c].
  change (bytes "%d %d %d %s" ++ [10]) with [37; 100; 32; 37; 100; 32; 37; 100; 32; 37; 115; 10].
  assert (Hl : (lines c <= length c)%nat) by apply length_filter.
  assert (Hw : (words c <= length c)%nat) by (unfold words; rewrite <- (proj1 (starts_pieces c)); apply starts_le).
  rewrite !printf_d, !printf_c, printf_d, printf_c, printf_d, printf_c, (printf_s _ _ _ _ _ p), printf_c, !s32_small by (done || lia). done.
Qed.


Section Programs.
Context {W : Type} `{Kernel W}.
Abbreviation runs := (runs sys).

Lemma runs_exits {A} (p : prog A) w (E : W -> Prop) : runs p w (fun _ _ => False) E -> exists w', run sys p w = Exited w' /\ E w'.
Proof. unfold Uprog.runs. destruct (run sys p w); naive_solver. Qed.

Lemma runs_print fd bs w (Q : unit -> W -> Prop) E :
  (forall w', printed fd bs (view w) (view w') -> Q tt w') -> runs (print fd bs) w Q E.
Proof.
  revert w. induction bs as [|b bs IH]; intros w HQ; cbn [print].
  - apply HQ. split_and!; try done. intros fd'. destruct (Z.eqb_spec fd' fd) as [->|]; [now rewrite app_nil_r|done].
  - apply runs_bind, runs_write. intros x w1 E1. apply IH. intros w2 (F1 & F2 & F3 & F4). apply HQ. rewrite E1 in *. cbn in *.
    split_and!; try done. intros fd'. rewrite F4, Z.eqb_refl. destruct (fd' =? fd); [now rewrite <- app_assoc|done].
Qed.

(** ** cat *)

(** A body that reads the descriptor to its end and prints [text] of what it read. *)
Definition consumes (fd : Z) (text : list Z) (o o' : os) : Prop :=
  file o' = file o /\ stats o' = stats o /\ (forall fd', fd' <> fd -> fds o' !! fd' = fds o !! fd') /\
  (exists p, fds o' !! fd = Some (p, [])) /\
  forall fd', output o' fd' = if fd' =? 1 then output o 1 ++ text else output o fd'.

Lemma cat_consumes n fd w p c (Q : unit -> W -> Prop) E :
  fds (view w) !! fd = Some (p, c) -> (length c < n)%nat ->
  (forall w', consumes fd c (view w) (view w') -> Q tt w') -> runs (cat n fd) w Q E.
Proof.
  revert c w. induction n as [|n IH]; intros c w Hfd Hn HQ; [lia|]. cbn [cat].
  apply runs_bind, (runs_read fd 512 w p c); [lia|done|]. intros bs later w1 -> Hle Hnil Hv1 _. cbn [fst snd].
  destruct (Z.ltb_spec 0 (Z.of_nat (length bs))) as [Hpos|Hz].
  - apply runs_bind, runs_write. intros x w2 Hv2. cbn [fst]. rewrite Z.eqb_refl. cbn [negb].
    apply (IH later); [rewrite Hv2, Hv1; cbn; apply lookup_insert_eq|rewrite length_app in Hn; lia|].
    intros w3 (F1 & F2 & F3 & F4 & F5). apply HQ. rewrite Hv2, Hv1 in *. cbn in *. split_and!; try done.
    + intros fd' Hne. rewrite F3, lookup_insert_ne by done. done.
    + intros fd'. rewrite F5. destruct (fd' =? 1) eqn:E1; [now rewrite <- app_assoc|done].
  - destruct bs as [|b bs]; [|cbn in Hz; lia]. pose proof (Hnil eq_refl) as El. cbn [app] in El. subst later. cbn.
    apply HQ. rewrite Hv1. split_and!; try done.
    + intros fd' Hne. cbn. now rewrite lookup_insert_ne.
    + exists p. apply lookup_insert_eq.
    + intros fd'. destruct (Z.eqb_spec fd' 1) as [->|]; [now rewrite app_nil_r|done].
Qed.
(** ** The files of the command line *)

(** What is printed for the files [argv], when [text] is printed for each: up to the
    first one that cannot be opened. *)
Fixpoint files_out (name : string) (text : str -> list Z -> list Z) (o : os) (argv : list str) : list Z :=
  match argv with
  | [] => []
  | p :: argv' =>
      match file o p with
      | None => bytes name ++ bytes ": cannot open " ++ p ++ [10]
      | Some c => text p c ++ files_out name text o argv'
      end
  end.

Lemma files_out_ext name text o o' argv : file o' = file o -> files_out name text o' argv = files_out name text o argv.
Proof. intros E. induction argv as [|p argv IH]; cbn; [done|]. now rewrite E, IH. Qed.

(** The files that can be opened are small enough. *)
Definition readable (P : list Z -> Prop) (o : os) (argv : list str) : Prop :=
  Forall (fun p => forall c, file o p = Some c -> P c) argv.

Lemma runs_each_file name body text P argv w (Q : unit -> W -> Prop) :
  (forall fd p c w (Q : unit -> W -> Prop) E, fds (view w) !! fd = Some (p, c) -> P c ->
    (forall w', consumes fd (text p c) (view w) (view w') -> Q tt w') -> runs (body fd p) w Q E) ->
  readable P (view w) argv ->
  runs (each_file name body argv) w Q (fun w' => output (view w') 1 = output (view w) 1 ++ files_out name text (view w) argv).
Proof.
  intros Hbody. revert w. induction argv as [|p argv IH]; intros w Hr; cbn [each_file files_out].
  - unfold Uprog.runs. cbn. now rewrite app_nil_r.
  - apply Forall_cons in Hr as [Hp Hr]. apply runs_bind, runs_open.
    + intros r x w1 Hf Hneg Hv1. cbn [fst]. rewrite (proj2 (Z.ltb_lt _ _)), Hf by done. apply runs_bind, runs_print.
      intros w2 (_ & _ & _ & F4). unfold Uprog.runs. cbn [run]. rewrite F4, Hv1. done.
    + intros r x w1 c Hf Hpos Hfree Hv1. cbn [fst]. rewrite (proj2 (Z.ltb_ge _ _)), Hf by lia.
      apply runs_bind, (Hbody r p c); [rewrite Hv1; apply lookup_insert_eq|now apply Hp|]. intros w2 (F1 & _ & _ & _ & F5).
      apply runs_bind, runs_close. intros r' x' w3 Hv3.
      assert (Ef : file (view w3) = file (view w)) by (rewrite Hv3; cbn; rewrite F1, Hv1; done).
      eapply runs_mono; [apply IH|done|].
      * eapply Forall_impl; [exact Hr|]. intros q Hq. cbn beta. now rewrite Ef.
      * intros w' ->. rewrite (files_out_ext _ _ _ _ _ Ef), Hv3. cbn. rewrite F5, Hv1. cbn. now rewrite <- app_assoc.
Qed.

(** Cat prints its standard input when it has no arguments, and else its files one
    after the other, up to the first that cannot be opened, which it names; however
    the reads are cut into pieces. *)
Theorem cat_copies (n : nat) (name : str) (argv : list str) (w : W) (p : str) (c : list Z) :
  fds (view w) !! 0 = Some (p, c) -> (length c < n)%nat -> readable (fun c => (length c < n)%nat) (view w) argv ->
  exists w', run sys (cat_main n (name :: argv)) w = Exited w' /\
    output (view w') 1 = output (view w) 1 ++ (if bool_decide (argv = []) then c else files_out "cat" (fun _ c => c) (view w) argv).
Proof.
  intros Hfd Hn Hr. apply runs_exits. unfold cat_main. destruct argv as [|a argv].
  - cbn [length Nat.leb]. apply runs_bind, (cat_consumes n 0 w p c); [done|done|]. intros w' (_ & _ & _ & _ & F5).
    unfold Uprog.runs. cbn. now rewrite F5.
  - cbn [length Nat.leb tl]. rewrite bool_decide_eq_false_2 by done.
    apply (runs_each_file "cat" _ (fun _ c => c) (fun c => (length c < n)%nat)); [|done].
    intros fd q c' w' Q E Hq Hlen HQ. now apply (cat_consumes n fd w' q c').
Qed.
(** ** wc *)

Lemma wc_consumes n fd name s w p c (Q : unit -> W -> Prop) E :
  fds (view w) !! fd = Some (p, c) -> (length c < n)%nat ->
  (forall w', consumes fd (wc_line (foldl wc_byte s c) name) (view w) (view w') -> Q tt w') -> runs (wc_from n fd name s) w Q E.
Proof.
  revert c s w. induction n as [|n IH]; intros c s w Hfd Hn HQ; [lia|]. cbn [wc_from].
  apply runs_bind, (runs_read fd 512 w p c); [lia|done|]. intros bs later w1 -> Hle Hnil Hv1 _. cbn [fst snd].
  destruct (Z.ltb_spec 0 (Z.of_nat (length bs))) as [Hpos|Hz].
  - apply (IH later); [rewrite Hv1; cbn; apply lookup_insert_eq|rewrite length_app in Hn; lia|].
    intros w3 (F1 & F2 & F3 & F4 & F5). apply HQ. rewrite Hv1, foldl_app in *. cbn in *. split_and!; try done.
    intros fd' Hne. rewrite F3, lookup_insert_ne by done. done.
  - destruct bs as [|b bs]; [|cbn in Hz; lia]. pose proof (Hnil eq_refl) as El. cbn [app] in El. subst later. cbn [app length Z.of_nat Z.ltb Z.compare].
    apply runs_print. intros w2 (F1 & F2 & F3 & F4). apply HQ. rewrite Hv1 in *. split_and!; try done.
    + intros fd' Hne. rewrite F3. cbn. now rewrite lookup_insert_ne.
    + exists p. rewrite F3. apply lookup_insert_eq.
Qed.

(** Wc prints, for its standard input or for each of its files up to the first that
    cannot be opened, the number of newlines, the number of words (the longest
    pieces without white space) and the number of bytes; however the reads are cut
    into pieces, also inside a word. *)
Theorem wc_counts (n : nat) (name : str) (argv : list str) (w : W) (p : str) (c : list Z) :
  let small c := (length c < n)%nat /\ Z.of_nat (length c) < 2147483648 in
  fds (view w) !! 0 = Some (p, c) -> small c -> readable small (view w) argv ->
  exists w', run sys (wc_main n (name :: argv)) w = Exited w' /\
    output (view w') 1 = output (view w) 1 ++ (if bool_decide (argv = []) then wc_text [] c else files_out "wc" wc_text (view w) argv).
Proof.
  intros small Hfd [Hn Hc] Hr. apply runs_exits. unfold wc_main. destruct argv as [|a argv].
  - cbn [length Nat.leb]. apply runs_bind, (wc_consumes n 0 [] _ w p c); [done|done|]. intros w' (_ & _ & _ & _ & F5).
    unfold Uprog.runs. cbn [run]. rewrite F5, wc_line_fold by done. done.
  - cbn [length Nat.leb tl]. rewrite bool_decide_eq_false_2 by done.
    apply (runs_each_file "wc" _ wc_text small); [|done].
    intros fd q c' w' Q E Hq [Hlen Hlen'] HQ. apply (wc_consumes n fd q _ w' q c'); [done|done|]. now rewrite wc_line_fold.
Qed.

(** ** echo *)

(** The arguments with a blank between two of them and a newline at the end. *)
Fixpoint joined (argv : list str) : list Z :=
  match argv with
  | [] => []
  | [a] => a ++ [10]
  | a :: argv' => a ++ [32] ++ joined argv'
  end.

Lemma echo_prints name argv w :
  exists w', run sys (echo_main (name :: argv)) w = Exited w' /\ output (view w') 1 = output (view w) 1 ++ joined argv.
Proof.
  apply runs_exits. unfold echo_main. cbn [tl]. revert w. induction argv as [|a argv IH]; intros w; cbn [echo_from].
  - unfold Uprog.runs. cbn. now rewrite app_nil_r.
  - apply runs_bind, runs_print. intros w1 (_ & _ & _ & F4). eapply runs_mono; [apply IH|done|]. intros w' ->. rewrite F4, Z.eqb_refl, <- app_assoc. f_equal.
    destruct argv as [|b argv]; [now rewrite bool_decide_eq_true_2, app_nil_r|].
    rewrite bool_decide_eq_false_2 by done. now rewrite <- app_assoc.
Qed.
End Programs.

(** * ls *)

(** The entries of a directory file; a shorter piece at its end is not one. *)
Fixpoint entries (n : nat) (data : list Z) : list (list Z) :=
  match n with
  | O => []
  | S n' => if (16 <=? length data)%nat then take 16 data :: entries n' (drop 16 data) else []
  end.

(** What is printed for an entry of a directory, [buf] being its path with a slash. *)
Definition entry_text (o : os) (buf : str) (de : list Z) : list Z :=
  if le_val (take 2 de) =? 0 then []
  else
    let name := buf ++ entry_name de in
    match file o name, stats o name with
    | Some _, Some (t, i, z) => ls_line name [t; i; z]
    | _, _ => bytes "ls: cannot stat " ++ name ++ [10]
    end.

(** What is printed on the standard output for a path. *)
Definition ls_text (o : os) (path : str) : list Z :=
  match file o path, stats o path with
  | Some data, Some (t, i, z) =>
      if t =? T_FILE then ls_line path [t; i; z]
      else if t =? T_DIR then
        if 512 <? Z.of_nat (length path) + 1 + DIRSIZ + 1 then bytes "ls: path too long" ++ [10]
        else concat (entry_text o (path ++ [47]) <$> entries (length data) data)
      else []
  | _, _ => []
  end.

Section Ls.
Context {W : Type} `{ExactReads W}.
Abbreviation runs := (runs sys).

Lemma view_reopened fd p c (o : os) : fds o !! fd = None -> del_fd fd (set_fd fd p c o) = o.
Proof. destruct o as [f s m u]. unfold del_fd, set_fd. cbn. intros E. now rewrite delete_insert_id. Qed.

Lemma runs_stat name w (Q : reply -> W -> Prop) E :
  (forall r w', view w' = view w ->
    match file (view w) name, stats (view w) name with Some _, Some (t, i, z) => r = (0, [t; i; z]) | _, _ => r.1 < 0 end -> Q r w') ->
  runs (stat name) w Q E.
Proof.
  intros HQ. unfold stat. apply runs_bind, runs_open.
  - intros r x w1 Hf Hneg Hv1. cbn [fst]. rewrite (proj2 (Z.ltb_lt _ _)) by done. apply HQ; [done|]. rewrite Hf. cbn. lia.
  - intros r x w1 c Hf Hpos Hfree Hv1. cbn [fst]. rewrite (proj2 (Z.ltb_ge _ _)) by lia.
    apply runs_bind, (runs_fstat r w1 name c); [rewrite Hv1; apply lookup_insert_eq| |].
    + intros r2 x2 w2 Hs Hneg Hv2. apply runs_bind, runs_close. intros r3 x3 w3 Hv3. apply HQ.
      * now rewrite Hv3, Hv2, Hv1, view_reopened.
      * rewrite Hf. rewrite Hv1 in Hs. cbn in Hs. now rewrite Hs.
    + intros t i z w2 Hs Hv2. apply runs_bind, runs_close. intros r3 x3 w3 Hv3. apply HQ.
      * now rewrite Hv3, Hv2, Hv1, view_reopened.
      * rewrite Hf. rewrite Hv1 in Hs. cbn in Hs. now rewrite Hs.
Qed.

(** The system with [bs] more on descriptor 1, and the directory read to [later]. *)
Definition listed (fd : Z) (p : str) (bs later : list Z) (o o' : os) : Prop :=
  file o' = file o /\ stats o' = stats o /\ fds o' = <[fd := (p, later)]> (fds o) /\
  forall fd', output o' fd' = if fd' =? 1 then output o 1 ++ bs else output o fd'.

Lemma entry_text_ext o o' buf de : file o' = file o -> stats o' = stats o -> entry_text o' buf de = entry_text o buf de.
Proof. unfold entry_text. now intros -> ->. Qed.

Lemma runs_entry fd p later buf de w1 w k (Q : unit -> W -> Prop) E :
  view w1 = set_fd fd p later (view w) -> 2 < fd ->
  (forall w', listed fd p (entry_text (view w) buf de) later (view w) (view w') -> runs k w' Q E) ->
  runs (if le_val (take 2 de) =? 0 then k
        else
          let name := buf ++ entry_name de in
          do s <- stat name;
          if s.1 <? 0 then print 1 (bytes "ls: cannot stat " ++ name ++ [10]) ;;> k
          else print 1 (ls_line name s.2) ;;> k) w1 Q E.
Proof.
  intros Hv1 Hfd HQ. unfold entry_text in HQ. destruct (le_val (take 2 de) =? 0).
  - apply HQ. rewrite Hv1. split_and!; try done. intros fd'. destruct (Z.eqb_spec fd' 1) as [->|]; [now rewrite app_nil_r|done].
  - cbv zeta in *. apply runs_bind, runs_stat. intros r w2 Hv2 Hr. rewrite Hv1 in Hr. cbn [file stats set_fd] in Hr.
    assert (Hp : forall bs w3, printed 1 bs (view w2) (view w3) -> listed fd p bs later (view w) (view w3)).
    { intros bs w3 (F1 & F2 & F3 & F4). rewrite Hv2, Hv1 in *. split_and!; done. }
    destruct (file (view w) _) as [c|]; [destruct (stats (view w) _) as [[[t i] z]|]|].
    + rewrite Hr. cbn [fst snd Z.ltb Z.compare]. apply runs_bind, runs_print. intros w3 Hw3. now apply HQ, Hp.
    + rewrite (proj2 (Z.ltb_lt _ _)) by done. apply runs_bind, runs_print. intros w3 Hw3. now apply HQ, Hp.
    + rewrite (proj2 (Z.ltb_lt _ _)) by done. apply runs_bind, runs_print. intros w3 Hw3. now apply HQ, Hp.
Qed.
Lemma listed_trans fd p a b l1 l2 o o1 o2 : listed fd p a l1 o o1 -> listed fd p b l2 o1 o2 -> listed fd p (a ++ b) l2 o o2.
Proof.
  intros (F1 & F2 & F3 & F4) (G1 & G2 & G3 & G4). split_and!; [congruence|congruence|rewrite G3, F3; apply insert_insert_eq|].
  intros fd'. rewrite G4, !F4. destruct (fd' =? 1); [now rewrite app_assoc|done].
Qed.

Lemma concat_entry_ext o o' buf l : file o' = file o -> stats o' = stats o -> concat (entry_text o' buf <$> l) = concat (entry_text o buf <$> l).
Proof. intros E1 E2. induction l as [|de l IH]; [done|]. rewrite !fmap_cons. cbn. now rewrite IH, (entry_text_ext o). Qed.

Lemma runs_entries n m fd p buf c w (Q : unit -> W -> Prop) E :
  fds (view w) !! fd = Some (p, c) -> 2 < fd -> (length c < n)%nat -> (length c <= m)%nat ->
  (forall later w', listed fd p (concat (entry_text (view w) buf <$> entries m c)) later (view w) (view w') -> Q tt w') ->
  runs (ls_entries n fd buf) w Q E.
Proof.
  revert m c w. induction n as [|n IH]; intros m c w Hfd Hpos Hn Hm HQ; [lia|]. cbn [ls_entries].
  apply runs_bind, (runs_read fd 16 w p c); [lia|done|]. intros bs later w1 Hc Hle Hnil Hv1 Es. cbn [fst snd].
  pose proof (read_exact fd 16 w p c ltac:(lia) Hfd Hpos) as Hex. rewrite Es in Hex. cbn [fst] in Hex.
  destruct (Z.eqb_spec (Z.of_nat (length bs)) 16) as [E16|E16]; cbn [negb].
  - assert (Hbs : take 16 c = bs /\ drop 16 c = later) by (subst c; rewrite take_app_length', drop_app_length' by lia; done).
    destruct Hbs as [Etake Edrop]. destruct m as [|m]; [subst c; rewrite length_app in Hm; lia|]. cbn [entries] in HQ.
    rewrite (proj2 (Nat.leb_le _ _)), Etake, Edrop in HQ by lia. rewrite fmap_cons in HQ. cbn [concat] in HQ.
    rewrite Hc, length_app in Hn, Hm. apply (runs_entry fd p later buf bs w1 w); [done|done|]. intros w2 Hl.
    apply (IH m later); [rewrite (proj1 (proj2 (proj2 Hl))); apply lookup_insert_eq|done|lia|lia|].
    intros later' w3 Hl'. apply (HQ later'). eapply listed_trans; [exact Hl|].
    rewrite <- (concat_entry_ext _ (view w2)) by apply Hl. exact Hl'.
  - assert (Hlt : (length c < 16)%nat) by lia. apply (HQ later). rewrite Hv1.
    replace (entries m c) with (@nil (list Z)) by (destruct m; cbn [entries]; [done|]; now rewrite (proj2 (Nat.leb_gt _ _))).
    split_and!; try done. intros fd'. cbn. destruct (Z.eqb_spec fd' 1) as [->|]; [now rewrite app_nil_r|done].
Qed.

(** The system with [bs] more on descriptor 1, and perhaps messages on 2. *)
Definition shown (bs : list Z) (o o' : os) : Prop :=
  file o' = file o /\ stats o' = stats o /\ output o' 1 = output o 1 ++ bs.

Lemma runs_ls n path w (Q : unit -> W -> Prop) E :
  (forall data, file (view w) path = Some data -> (length data < n)%nat) ->
  (forall w', shown (ls_text (view w) path) (view w) (view w') -> Q tt w') -> runs (ls n path) w Q E.
Proof.
  intros Hn HQ. unfold ls, ls_text in *. apply runs_bind, runs_open.
  - intros r x w1 Hf Hneg Hv1. cbn [fst]. rewrite (proj2 (Z.ltb_lt _ _)) by done. apply runs_print. intros w2 (F1 & F2 & F3 & F4).
    apply HQ. rewrite Hf. unfold shown. rewrite F1, F2, F4, Hv1, app_nil_r. done.
  - intros fd x w1 c Hf Hpos Hfree Hv1. cbn [fst]. rewrite (proj2 (Z.ltb_ge _ _)) by lia. rewrite Hf in HQ.
    assert (Hfd : fds (view w1) !! fd = Some (path, c)) by (rewrite Hv1; apply lookup_insert_eq).
    apply runs_bind, (runs_fstat fd w1 path c); [done| |]; rewrite Hv1; cbn [stats set_fd].
    + intros r2 x2 w2 Hs Hneg Hv2. cbn [fst]. rewrite (proj2 (Z.ltb_lt _ _)) by done. rewrite Hs in HQ.
      apply runs_bind, runs_print. intros w3 (F1 & F2 & F3 & F4). apply runs_bind, runs_close. intros r4 x4 w4 Hv4. apply HQ.
      unfold shown. rewrite Hv4. cbn. rewrite F1, F2, F4, Hv2, app_nil_r. done.
    + intros t i z w2 Hs Hv2. cbn [fst snd Z.ltb Z.compare aget default list_lookup]. rewrite Hs in HQ.
      change (aget 0 [t; i; z] 0) with t. apply runs_bind.
      assert (Hclose : forall bs w3, file (view w3) = file (view w) -> stats (view w3) = stats (view w) -> output (view w3) 1 = output (view w) 1 ++ bs ->
        (forall w', shown bs (view w) (view w') -> Q tt w') -> runs (ucall (Close fd) ;;> Return tt) w3 Q E).
      { intros bs w3 G1 G2 G3 HQ'. apply runs_bind, runs_close. intros r4 x4 w4 Hv4. apply HQ'. unfold shown. now rewrite Hv4. }
      destruct (t =? T_FILE); [|destruct (t =? T_DIR); [destruct (512 <? _)|]].
      * apply runs_print. intros w3 (F1 & F2 & _ & F4). eapply Hclose; [rewrite F1, Hv2; done|rewrite F2, Hv2; done| |exact HQ]. rewrite F4, Hv2. done.
      * apply runs_print. intros w3 (F1 & F2 & _ & F4). eapply Hclose; [rewrite F1, Hv2; done|rewrite F2, Hv2; done| |exact HQ]. rewrite F4, Hv2. done.
      * apply (runs_entries n (length c) fd path _ c); [rewrite Hv2; apply lookup_insert_eq|done|auto|done|]. rewrite Hv2.
        intros later w3 (F1 & F2 & _ & F4). eapply Hclose; [rewrite F1; done|rewrite F2; done| |exact HQ]. rewrite F4.
        rewrite (concat_entry_ext (view w)) by done. done.
      * eapply Hclose; [rewrite Hv2; done|rewrite Hv2; done| |exact HQ]. now rewrite Hv2, app_nil_r.
Qed.
(** Ls prints, for the current directory or for each of its arguments, one line for
    a file, and for a directory one line for each entry that is in use, with the
    type, the inode number and the size of the file that the entry names; names are
    padded to the width of a directory entry. *)
Theorem ls_lists (n : nat) (name : str) (argv : list str) (w : W) :
  let paths := if bool_decide (argv = []) then [bytes "."] else argv in
  readable (fun c => (length c < n)%nat) (view w) paths ->
  exists w', run sys (ls_main n (name :: argv)) w = Exited w' /\
    output (view w') 1 = output (view w) 1 ++ concat (ls_text (view w) <$> paths).
Proof.
  intros paths Hr. apply runs_exits. unfold ls_main. destruct argv as [|a argv].
  - cbn [length Nat.ltb Nat.leb]. apply Forall_cons in Hr as [Hr _]. apply runs_bind, runs_ls; [exact Hr|].
    intros w' (_ & _ & F). unfold Uprog.runs. cbn [run]. rewrite F. unfold paths. cbn [fmap list_fmap concat]. rewrite bool_decide_eq_true_2 by done.
    cbn [fmap list_fmap concat]. now rewrite app_nil_r.
  - cbn [length Nat.ltb Nat.leb tl]. unfold paths in *. rewrite bool_decide_eq_false_2 in * by done. clear paths.
    revert w Hr. generalize (a :: argv). clear a argv. intros l. induction l as [|p l IH]; intros w Hr; cbn [ls_each].
    + unfold Uprog.runs. cbn. now rewrite app_nil_r.
    + apply Forall_cons in Hr as [Hp Hr]. apply runs_bind, runs_ls; [exact Hp|]. intros w1 (F1 & F2 & F3).
      eapply runs_mono; [apply IH|done|].
      * eapply Forall_impl; [exact Hr|]. intros q Hq. cbn beta. now rewrite F1.
      * intros w' ->. rewrite F3, fmap_cons. cbn [concat]. rewrite <- app_assoc. do 2 f_equal. f_equal.
        apply list_fmap_ext. intros i q _. unfold ls_text. rewrite F1, F2.
        destruct (file (view w) q) as [data|]; [|done]. destruct (stats (view w) q) as [[[t j] z]|]; [|done].
        now rewrite (concat_entry_ext (view w)).
Qed.
End Ls.

(** * init *)

(** A process table as init sees it: [own w] are the children that it forked itself and
    that it has not waited for; wait returns one of its children, forked or adopted,
    or an error when there are none. *)
Class Children {W : Type} (step : call -> W -> reply * W) : Type := {
  own : W -> gset Z;
  step_fork w r x w' : step Fork w = ((r, x), w') -> 0 < r -> own w' = own w ∪ {[r]};
  step_wait w r x w' : step Wait w = ((r, x), w') -> if 0 <=? r then own w' = own w ∖ {[r]} else own w = ∅ /\ own w' = ∅;
  step_other c w : c <> Fork -> c <> Wait -> own (step c w).2 = own w
}.

Section Init.
Context {W : Type} (step : call -> W -> reply * W) `{!Children step}.

(** The forks of the run are made without a child of init's own. *)
Definition alone (cw : call * W) : Prop := cw.1 = Fork -> own cw.2 = ∅.

(** The run makes such forks only, and if it returns then with [Q]. *)
Definition forks {A} (p : prog A) (w : W) (Q : W -> Prop) : Prop :=
  Forall alone (calls step p w) /\ match run step p w with Returned _ w' => Q w' | _ => True end.

Lemma forks_bind {A B} (p : prog A) (f : A -> prog B) w Q :
  Forall alone (calls step p w) ->
  match run step p w with Returned a w' => forks (f a) w' Q | _ => True end -> forks (pbind p f) w Q.
Proof.
  unfold forks. revert w. induction p as [a| | |c k IH]; intros w; cbn; try done.
  destruct (step c w) as [r w']. intros [H1 H2]%Forall_cons H3. destruct (IH r w' H2 H3) as [H4 H5]. split; [now constructor|done].
Qed.

Lemma forks_seq {A B} (p : prog A) (f : A -> prog B) w Q :
  forks p w (fun w' => forall a, forks (f a) w' Q) -> forks (pbind p f) w Q.
Proof. intros [H1 H2]. apply forks_bind; [done|]. destruct (run step p w); [apply H2|done..]. Qed.

Lemma forks_call c w Q : c <> Fork -> c <> Wait -> (forall w', own w' = own w -> Q w') -> forks (ucall c) w Q.
Proof.
  intros H1 H2 HQ. unfold forks. cbn. pose proof (step_other c w H1 H2) as E. destruct (step c w) as [r w']. cbn in *.
  split; [|now apply HQ]. constructor; [|done]. intros ?. done.
Qed.

Lemma forks_return {A} (a : A) w (Q : W -> Prop) : Q w -> forks (Return a) w Q.
Proof. intros HQ. split; [apply Forall_nil_2|exact HQ]. Qed.

Lemma forks_print fd bs w Q : (forall w', own w' = own w -> Q w') -> forks (print fd bs) w Q.
Proof.
  revert w. induction bs as [|b bs IH]; intros w HQ; cbn [print]; [split; [constructor|now apply HQ]|].
  apply forks_seq, forks_call; [done|done|]. intros w1 E1 _. apply IH. intros w2 E2. apply HQ. congruence.
Qed.

Lemma forks_reap n pid w Q : own w = {[pid]} -> (forall w', own w' = ∅ -> Q w') -> forks (reap n pid) w Q.
Proof.
  revert w. induction n as [|n IH]; intros w Hw HQ; cbn [reap]; [split; [constructor|done]|].
  apply forks_bind; [cbn; destruct (step Wait w); repeat constructor; done|]. unfold ucall. cbn [run]. destruct (step Wait w) as [[r x] w1] eqn:E. cbn [fst].
  pose proof (step_wait w r x w1 E) as Hl. destruct (Z.leb_spec 0 r) as [Hr|Hr]; cbn [andb].
  - destruct (Z.eqb_spec r pid) as [->|Hne]; cbn [negb].
    + split; [constructor|]. apply HQ. now rewrite Hl, Hw, difference_diag_L.
    + apply forks_seq, forks_print. intros w2 E2 _. apply IH; [|done]. rewrite E2, Hl, Hw. apply difference_disjoint_L, disjoint_singleton_l. now rewrite elem_of_singleton.
  - split; [constructor|]. now apply HQ.
Qed.

Lemma forks_init_loop n k w : own w = ∅ -> forks (init_loop n k) w (fun _ => True).
Proof.
  revert w. induction n as [|n IH]; intros w Hw; cbn [init_loop]; [split; [constructor|done]|].
  apply forks_seq, forks_print. intros w1 E1 _. apply forks_bind; [cbn; destruct (step Fork w1); repeat constructor; intros _; cbn; congruence|].
  unfold ucall at 1. cbn [run]. destruct (step Fork w1) as [[r x] w2] eqn:E. cbn [fst]. destruct (Z.ltb_spec r 0) as [Hr|Hr].
  - apply forks_seq, forks_print. intros w3 E3 _. split; [constructor|done].
  - destruct (Z.eqb_spec r 0) as [->|Hne].
    + apply forks_seq, forks_call; [done|done|]. intros w3 E3 _. apply forks_seq, forks_print. intros w4 E4 _. split; [constructor|done].
    + pose proof (step_fork w1 r x w2 E ltac:(lia)) as E2. apply forks_seq, forks_reap; [now rewrite E2, E1, Hw, union_empty_l_L|]. intros w3 E3 _. now apply IH.
Qed.

(** Init starts a shell only when the one that it started before has ended: whatever
    the other children that it adopts do, each of its forks is made when no process
    that it forked itself is left. *)
Theorem init_one_shell (n k : nat) (w : W) : own w = ∅ -> Forall alone (calls step (init_main n k) w).
Proof.
  intros Hw. enough (forks (init_main n k) w (fun _ => True)) as [? _] by done. unfold init_main.
  apply forks_bind; [apply (forks_call _ w (fun _ => True)); done|]. unfold ucall at 1. cbn [run].
  pose proof (step_other (Open (bytes "console") O_RDWR) w ltac:(done) ltac:(done)) as E0.
  destruct (step _ w) as [r w0]. cbn [fst snd] in E0 |- *. apply forks_seq.
  assert (Hdup : forall w1, own w1 = own w0 -> unit -> forks (ucall (Dup 0) ;;> ucall (Dup 0) ;;> init_loop n k) w1 (fun _ => True)).
  { intros w1 E1 _. apply forks_seq, forks_call; [done..|]. intros w2 E2 _. apply forks_seq, forks_call; [done..|]. intros w3 E3 _.
    apply forks_init_loop. congruence. }
  destruct (r.1 <? 0); [|apply forks_return, Hdup; done].
  apply forks_seq, forks_call; [done..|]. intros w1 E1 _. apply forks_seq, forks_call; [done..|]. intros w2 E2 _.
  apply forks_return, Hdup. congruence.
Qed.
End Init.

(** * A kernel *)

Module Session.

(** A descriptor that is free. *)
Definition next (m : gmap Z (str * list Z)) : Z := foldr Z.max 2 (map_to_list m).*1 + 1.

Lemma next_free m : 2 < next m /\ m !! next m = None.
Proof.
  unfold next. assert (H : forall l k, k ∈ l -> k <= foldr Z.max 2 l).
  { intros l k. induction l as [|x l IH]; [now intros ?%elem_of_nil|]. rewrite elem_of_cons. cbn. intros [->|Hk]; [lia|]. specialize (IH Hk). lia. }
  assert (H2 : forall l, 2 <= foldr Z.max 2 l) by (induction l as [|x l IH]; cbn; lia).
  split; [specialize (H2 (map_to_list m).*1); lia|]. destruct (m !! _) as [x|] eqn:E; [|done]. exfalso.
  apply elem_of_map_to_list in E. apply (list_elem_of_fmap_2 fst) in E. apply H in E. cbn in E. lia.
Qed.

(** Reading of a descriptor up to 2 gives at most three bytes at a time. *)
Definition simsys (c : call) (o : os) : reply * os :=
  match c with
  | Read fd n =>
      match fds o !! fd with
      | None => ((-1, []), o)
      | Some (p, c) =>
          let k := Z.to_nat (if fd <=? 2 then Z.min n 3 else n) in
          ((Z.of_nat (length (take k c)), take k c), set_fd fd p (drop k c) o)
      end
  | Write fd bs => ((Z.of_nat (length bs), []), app_out fd bs o)
  | Open p _ =>
      match file o p with
      | None => ((-1, []), o)
      | Some c => ((next (fds o), []), set_fd (next (fds o)) p c o)
      end
  | Close fd => ((0, []), del_fd fd o)
  | Fstat fd =>
      match fds o !! fd with
      | None => ((-1, []), o)
      | Some (p, _) => match stats o p with None => ((-1, []), o) | Some (t, i, z) => ((0, [t; i; z]), o) end
      end
  | _ => ((-1, []), o)
  end.

#[local] Instance sim_kernel : Kernel os.
Proof.
  refine {| sys := simsys; view o := o |}.
  - intros fd n o p c Hn Hfd. cbn [simsys]. rewrite Hfd. set (k := Z.to_nat _).
    exists (take k c), (drop k c), (set_fd fd p (drop k c) o). split_and!; [done|done|now rewrite take_drop| |].
    + rewrite length_take. unfold k. destruct (fd <=? 2); lia.
    + destruct c as [|b c]; [done|]. assert (Hk : k <> 0%nat) by (unfold k; destruct (fd <=? 2); lia). now destruct k.
  - intros fd bs o. now exists [], (app_out fd bs o).
  - intros p o. cbn [simsys]. destruct (file o p) as [c|].
    + destruct (next_free (fds o)) as [H1 H2]. now exists (next (fds o)), [], (set_fd (next (fds o)) p c o).
    + now exists (-1), [], o.
  - intros fd o. now exists 0, [], (del_fd fd o).
  - intros fd o p c Hfd. cbn [simsys]. rewrite Hfd. destruct (stats o p) as [[[t i] z]|]; [now exists 0, [t; i; z], o|now exists (-1), [], o].
Defined.

#[local] Instance sim_exact : ExactReads os.
Proof.
  intros fd n o p c Hn Hfd Hpos. cbn -[simsys]. cbn [simsys]. cbn in Hfd. rewrite Hfd. cbn [fst]. rewrite (proj2 (Z.leb_gt fd 2)) by done. rewrite length_take. lia.
Qed.

(** A root directory with one file, and a line on the standard input. *)
Definition text : list Z := bytes "to be  or" ++ [10] ++ bytes "not" ++ [10].
Definition dir : list Z := [0; 0] ++ replicate 14 0 ++ [5; 0] ++ bytes "hamlet" ++ replicate 8 0.
Definition o0 : os :=
  Os (fun p => if decide (p = bytes "hamlet") then Some text else if decide (p = bytes ".") then Some dir
       else if decide (p = bytes "./hamlet") then Some text else None)
     (fun p => if decide (p = bytes ".") then Some (T_DIR, 1, 32) else if decide (p = bytes "./hamlet") then Some (T_FILE, 5, 14) else None)
     {[0 := (bytes "console", bytes "the readiness")]} (fun _ => []).

Lemma cat_copies_witness :
  exists o', run sys (cat_main 20 [bytes "cat"; bytes "hamlet"; bytes "ophelia"]) o0 = Exited o' /\
    output o' 1 = text ++ bytes "cat: cannot open ophelia" ++ [10].
Proof.
  destruct (cat_copies 20 (bytes "cat") [bytes "hamlet"; bytes "ophelia"] o0 (bytes "console") (bytes "the readiness")) as (o' & Hr & Ho).
  - reflexivity.
  - cbn. lia.
  - apply Forall_cons_2; [|apply Forall_cons_2; [|apply Forall_nil_2]]; intros c E; vm_compute in E; [injection E as <-; cbn; lia|discriminate].
  - exists o'. split; [exact Hr|]. etransitivity; [exact Ho|]. vm_compute. reflexivity.
Defined.

Lemma wc_counts_witness :
  exists o', run sys (wc_main 20 [bytes "wc"; bytes "hamlet"]) o0 = Exited o' /\ output o' 1 = bytes "2 4 14 hamlet" ++ [10].
Proof.
  destruct (wc_counts 20 (bytes "wc") [bytes "hamlet"] o0 (bytes "console") (bytes "the readiness")) as (o' & Hr & Ho).
  - reflexivity.
  - cbn. lia.
  - apply Forall_cons_2; [|apply Forall_nil_2]. intros c E; vm_compute in E; injection E as <-; cbn; lia.
  - exists o'. split; [exact Hr|]. etransitivity; [exact Ho|]. vm_compute. reflexivity.
Defined.

Lemma ls_lists_witness :
  exists o', run sys (ls_main 40 [bytes "ls"]) o0 = Exited o' /\ output o' 1 = bytes "hamlet         2 5 14" ++ [10].
Proof.
  destruct (ls_lists 40 (bytes "ls") [] o0) as (o' & Hr & Ho).
  - apply Forall_cons_2; [|apply Forall_nil_2]. intros c E. vm_compute in E. injection E as <-. cbn. lia.
  - exists o'. split; [exact Hr|]. etransitivity; [exact Ho|]. vm_compute. reflexivity.
Defined.

(** Process numbers that count up; wait returns some child. *)
Definition family (c : call) (w : gset Z * Z) : reply * (gset Z * Z) :=
  match c with
  | Fork => ((Z.max 1 w.2, []), (w.1 ∪ {[Z.max 1 w.2]}, Z.max 1 w.2 + 1))
  | Wait => match elements w.1 with [] => ((-1, []), w) | p :: _ => ((Z.abs p, []), (w.1 ∖ {[Z.abs p]}, w.2)) end
  | _ => ((0, []), w)
  end.

#[local] Instance family_children : Children family.
Proof.
  refine {| own := fst |}.
  - intros w r x w' [= <- _ <-] _. done.
  - intros w r x w'. cbn. destruct (elements w.1) as [|p l] eqn:E; intros [= <- _ <-].
    + apply elements_empty_inv in E. cbn. split; now apply leibniz_equiv.
    + rewrite (proj2 (Z.leb_le 0 (Z.abs p))) by lia. done.
  - intros [] w H1 H2; done.
Defined.

Lemma init_one_shell_witness : Forall (alone family) (calls family (init_main 3 3) (∅, 7)).
Proof. apply (init_one_shell family 3 3 (∅, 7)). reflexivity. Defined.
End Session.
