(* ===== verification/Umalloc.v ===== *)
(** umalloc.c: the allocator of user programs (Kernighan and Ritchie's).  The free
    blocks form a circular list in the order of their addresses, threaded through
    the headers in front of the blocks, in the memory of the process. *)
From S2P Require Import Prelude Mem Mmu.

(** union header: the pointer at offset 0 and the size, in headers, at offset 4. *)
Definition sizeof_Header : Z := 8.
Definition hptr (m : mem) (p : Z) : Z := ld32 m p.
Definition hsize (m : mem) (p : Z) : Z := ld32 m (p + 4).
Definition set_hptr (p v : Z) (m : mem) : mem := st32 m p v.
Definition set_hsize (p v : Z) (m : mem) : mem := st32 m (p + 4) v.
(** [p + n] for a [Header] pointer. *)
Definition hplus (p n : Z) : Z := u32 (p + sizeof_Header * n).

(** The memory of the process, the variable [freep], and the end of the memory,
    which sbrk moves. *)
Record uheap : Type := Uheap {
  u_mem : mem;
  freep : Z;
  u_brk : Z
}.

Section Umalloc.
(** The address of [base], and whether the kernel grants an sbrk of [n] bytes when
    the memory ends at [brk]. *)
Variable base : Z.
Variable sbrk_ok : Z -> Z -> bool.

(** sbrk(n): the old end of the memory, or -1. *)
Definition sbrk (n : Z) (s : uheap) : Z * uheap :=
  if sbrk_ok (u_brk s) (s32 n) then (u_brk s, Uheap (u_mem s) (freep s) (u32 (u_brk s + s32 n)))
  else (u32 (-1), s).

(** The loop of free that looks for the place of [bp], starting at [p]; at most [n]
    rounds. *)
Fixpoint free_find (n : nat) (m : mem) (bp p : Z) : option Z :=
  match n with
  | O => None
  | S n' =>
      let q := hptr m p in
      if (p <? bp) && (bp <? q) then Some p
      else if (q <=? p) && ((p <? bp) || (bp <? q)) then Some p
      else free_find n' m bp q
  end.

(** free(ap). *)
Definition free (n : nat) (ap : Z) (s : uheap) : option uheap :=
  let bp := u32 (ap - sizeof_Header) in
  match free_find n (u_mem s) bp (freep s) with
  | None => None
  | Some p =>
      let m := u_mem s in
      let m :=
        if hplus bp (hsize m bp) =? hptr m p then
          let m := set_hsize bp (u32 (hsize m bp + hsize m (hptr m p))) m in
          set_hptr bp (hptr m (hptr m p)) m
        else set_hptr bp (hptr m p) m in
      let m :=
        if hplus p (hsize m p) =? bp then
          let m := set_hsize p (u32 (hsize m p + hsize m bp)) m in
          set_hptr p (hptr m bp) m
        else set_hptr p bp m in
      Some (Uheap m p (u_brk s))
  end.

(** morecore(nu). *)
Definition morecore (n : nat) (nu : Z) (s : uheap) : option (Z * uheap) :=
  let nu := if nu <? 4096 then 4096 else nu in
  let '(p, s) := sbrk (u32 (nu * sizeof_Header)) s in
  if p =? u32 (-1) then Some (0, s)
  else
    let s := Uheap (set_hsize p nu (u_mem s)) (freep s) (u_brk s) in
    match free n (u32 (p + sizeof_Header)) s with
    | None => None
    | Some s => Some (freep s, s)
    end.

(** The loop of malloc, in at most [n] rounds. *)
Fixpoint malloc_loop (n : nat) (nunits prevp p : Z) (s : uheap) : option (Z * uheap) :=
  match n with
  | O => None
  | S n' =>
      let m := u_mem s in
      if nunits <=? hsize m p then
        let '(p, m) :=
          if hsize m p =? nunits then (p, set_hptr prevp (hptr m p) m)
          else
            let m := set_hsize p (u32 (hsize m p - nunits)) m in
            let p := hplus p (hsize m p) in
            (p, set_hsize p nunits m) in
        Some (u32 (p + sizeof_Header), Uheap m prevp (u_brk s))
      else if p =? freep s then
        match morecore n' nunits s with
        | None => None
        | Some (p, s) =>
            if p =? 0 then Some (0, s) else malloc_loop n' nunits p (hptr (u_mem s) p) s
        end
      else malloc_loop n' nunits p (hptr m p) s
  end.

(** The number of headers that hold [nbytes] and the block's own header. *)
Definition units (nbytes : Z) : Z := u32 (nbytes + sizeof_Header - 1) / sizeof_Header + 1.

Definition malloc (n : nat) (nbytes : Z) (s : uheap) : option (Z * uheap) :=
  let nunits := units nbytes in
  let s :=
    if freep s =? 0 then
      Uheap (set_hsize base 0 (set_hptr base base (u_mem s))) base (u_brk s)
    else s in
  malloc_loop n nunits (freep s) (hptr (u_mem s) (freep s)) s.
End Umalloc.
