(* ===== verification/UmallocProps.v ===== *)
(** umalloc.c: malloc hands out blocks that overlap nothing in use, free gives them
    back and joins them with their free neighbours, and no memory is lost. *)
From stdpp Require Import sorting.
From S2P Require Import Prelude Mem Mmu Umalloc.

(** A block: the address of its header, and its size in headers. *)
Abbreviation chunk := (Z * Z)%type.

(** * The list in memory *)

Definition hd_addr (l : list chunk) (e : Z) : Z := match l with c :: _ => c.1 | [] => e end.

(** The headers of [l] are in memory, each linked to the next and the last to [e]. *)
Fixpoint seg (m : mem) (l : list chunk) (e : Z) : Prop :=
  match l with
  | [] => True
  | c :: l' => hptr m c.1 = hd_addr l' e /\ hsize m c.1 = c.2 /\ seg m l' e
  end.

Lemma hd_addr_app l1 l2 e : hd_addr (l1 ++ l2) e = hd_addr l1 (hd_addr l2 e).
Proof. now destruct l1. Qed.

Lemma seg_app m l1 l2 e : seg m (l1 ++ l2) e <-> seg m l1 (hd_addr l2 e) /\ seg m l2 e.
Proof.
  induction l1 as [|c l1 IH]; cbn [app seg]; [tauto|]. rewrite IH, hd_addr_app. tauto.
Qed.

Lemma hptr_set_hptr m p v : is_u32 v -> hptr (set_hptr p v m) p = v.
Proof. apply ld32_st32_eq. Qed.
Lemma hsize_set_hsize m p v : is_u32 v -> hsize (set_hsize p v m) p = v.
Proof. apply ld32_st32_eq. Qed.
Lemma hptr_set_hsize m p v : hptr (set_hsize p v m) p = hptr m p.
Proof. apply ld32_st32_ne. lia. Qed.
Lemma hsize_set_hptr m p v : hsize (set_hptr p v m) p = hsize m p.
Proof. apply ld32_st32_ne. lia. Qed.

(** * Order and overlap *)

(** [y] comes after [x], with room for the header of [x] and, beyond the end of
    [x], at least one header more. *)
Definition before (x y : chunk) : Prop := x.1 + 8 <= y.1 /\ x.1 + 8 * x.2 < y.1.

(** The blocks do not overlap. *)
Definition apart (x y : chunk) : Prop := x.1 + 8 * x.2 <= y.1 \/ y.1 + 8 * y.2 <= x.1.

Lemma apart_sym x y : apart x y -> apart y x.
Proof. unfold apart. tauto. Qed.

Definition disjoint_chunks : list chunk -> Prop := ForallOrdPairs apart.

Lemma disjoint_cons c l : disjoint_chunks (c :: l) <-> Forall (apart c) l /\ disjoint_chunks l.
Proof. split; [now inversion 1|intros []; now constructor]. Qed.

#[global] Instance disjoint_perm : Proper (Permutation ==> iff) disjoint_chunks.
Proof.
  intros l1 l2 H. induction H as [|c l1 l2 Hp IH|c d l|l1 l2 l3 _ IH1 _ IH2]; [done| | |now rewrite IH1].
  - now rewrite !disjoint_cons, IH, Hp.
  - rewrite !disjoint_cons, !Forall_cons. pose proof (apart_sym c d). pose proof (apart_sym d c). tauto.
Qed.

Lemma disjoint_app l1 l2 :
  disjoint_chunks (l1 ++ l2) <->
  disjoint_chunks l1 /\ disjoint_chunks l2 /\ Forall (fun c => Forall (apart c) l2) l1.
Proof.
  induction l1 as [|c l1 IH]; cbn [app].
  - split; [intros; split_and!; auto; constructor|tauto].
  - rewrite !disjoint_cons, Forall_app, Forall_cons, IH. tauto.
Qed.

(** The number of bytes of the blocks. *)
Fixpoint total (l : list chunk) : Z := match l with [] => 0 | c :: l' => 8 * c.2 + total l' end.

Lemma total_app l1 l2 : total (l1 ++ l2) = total l1 + total l2.
Proof. induction l1; cbn; lia. Qed.

(** * The heap *)

Section Heap.
Variables base heap0 : Z.

Definition in_heap (brk : Z) (c : chunk) : Prop := heap0 <= c.1 /\ 1 <= c.2 /\ c.1 + 8 * c.2 <= brk.

(** The state of the allocator with the free blocks [fl], in the order of the
    list, and the blocks [al] that the program has.  The blocks lie in the heap,
    do not overlap, and make up all of it; neighbours are joined ([before] leaves
    a gap between free blocks). *)
Record heap_ok (s : uheap) (fl al : list chunk) : Prop := {
  ho_bounds : 0 < base /\ base + 8 <= heap0 /\ heap0 <= u_brk s <= KERNBASE;
  ho_seg : seg (u_mem s) ((base, 0) :: fl) base;
  ho_sorted : StronglySorted before ((base, 0) :: fl);
  ho_freep : freep s ∈ ((base, 0) :: fl).*1;
  ho_in : Forall (in_heap (u_brk s)) (fl ++ al);
  ho_apart : disjoint_chunks (fl ++ al);
  ho_sizes : Forall (fun c => hsize (u_mem s) c.1 = c.2) al;
  ho_total : total (fl ++ al) = u_brk s - heap0
}.

(** What the program sees of its blocks. *)
Definition kept (al : list chunk) (m m' : mem) : Prop :=
  forall c x, c ∈ al -> c.1 <= x < c.1 + 8 * c.2 -> ld m' x = ld m x.

(** The memory outside the headers of [hs]. *)
Definition frame (hs : list Z) (m m' : mem) : Prop :=
  forall x, Forall (fun h => x < h \/ h + 8 <= x) hs -> ld m' x = ld m x.

Lemma frame_st32 hs m m' a w h :
  frame hs m m' -> h ∈ hs -> (a = h \/ a = h + 4) -> frame hs m (st32 m' a w).
Proof.
  intros Hf Hh Ha x Hx. rewrite ld_st32_ne; [now apply Hf|]. rewrite Forall_forall in Hx. specialize (Hx h Hh). lia.
Qed.

Lemma hframe_refl hs m : frame hs m m.
Proof. done. Qed.

Lemma hframe_trans hs m1 m2 m3 : frame hs m1 m2 -> frame hs m2 m3 -> frame hs m1 m3.
Proof. intros H1 H2 x Hx. now rewrite (H2 x Hx), (H1 x Hx). Qed.

Lemma frame_mono hs hs' m m' : frame hs m m' -> hs ⊆ hs' -> frame hs' m m'.
Proof. intros Hf Hs x Hx. apply Hf. apply Forall_forall. intros h Hh. rewrite Forall_forall in Hx. auto. Qed.

(** Headers outside the frame keep their fields. *)
Definition off (hs : list Z) (a : Z) : Prop := Forall (fun h => a + 8 <= h \/ h + 8 <= a) hs.

Lemma frame_ld32 hs m m' a i : frame hs m m' -> off hs a -> 0 <= i <= 4 -> ld32 m' (a + i) = ld32 m (a + i).
Proof.
  intros Hf Ho Hi. apply ld32_ext. intros j Hj. apply Hf. eapply Forall_impl; [exact Ho|]. cbn. intros h Hh. lia.
Qed.

Lemma frame_hptr hs m m' a : frame hs m m' -> off hs a -> hptr m' a = hptr m a.
Proof. intros Hf Ho. unfold hptr. pose proof (frame_ld32 hs m m' a 0 Hf Ho) as E. rewrite Z.add_0_r in E. apply E. lia. Qed.

Lemma frame_hsize hs m m' a : frame hs m m' -> off hs a -> hsize m' a = hsize m a.
Proof. intros Hf Ho. now apply (frame_ld32 hs). Qed.

Lemma frame_seg hs m m' l e : frame hs m m' -> Forall (fun c => off hs c.1) l -> seg m l e -> seg m' l e.
Proof.
  intros Hf. revert e. induction l as [|c l IH]; intros e Hl; cbn [seg]; [done|]. apply Forall_cons in Hl as [Hc Hl].
  rewrite (frame_hptr hs m m' c.1 Hf Hc), (frame_hsize hs m m' c.1 Hf Hc). intros (H1 & H2 & H3). auto.
Qed.

Lemma frame_kept hs al m m' :
  frame hs m m' -> Forall (fun h => Forall (fun c => c.1 + 8 * c.2 <= h \/ h + 8 <= c.1) al) hs -> kept al m m'.
Proof.
  intros Hf Ha c x Hc Hx. apply Hf. apply Forall_forall. intros h Hh. rewrite Forall_forall in Ha.
  specialize (Ha h Hh). rewrite Forall_forall in Ha. specialize (Ha c Hc). lia.
Qed.

Lemma kept_trans al m1 m2 m3 : kept al m1 m2 -> kept al m2 m3 -> kept al m1 m3.
Proof. intros H1 H2 c x Hc Hx. now rewrite (H2 c x Hc Hx), (H1 c x Hc Hx). Qed.

Lemma kept_size al m m' c : kept al m m' -> c ∈ al -> 1 <= c.2 -> hsize m' c.1 = hsize m c.1.
Proof. intros Hk Hc Hs. apply ld32_ext. intros i Hi. apply (Hk c); [done|lia]. Qed.

(** A heap block is not where the header of [base] is. *)
Lemma in_heap_base brk c : 0 < base /\ base + 8 <= heap0 /\ heap0 <= brk <= KERNBASE -> in_heap brk c -> base + 8 <= c.1.
Proof. unfold in_heap. lia. Qed.

(** ** The place of a block in the list *)

(** Where [b] belongs in a list that starts below it. *)
Lemma find_place l x b :
  x.1 < b -> StronglySorted before (x :: l) -> Forall (fun c => c.1 <> b) l ->
  exists l1 p l2, x :: l = l1 ++ p :: l2 /\ p.1 < b /\ Forall (fun c => b < c.1) l2.
Proof.
  revert x. induction l as [|y l IH]; intros x Hx Hs Hne.
  - now exists [], x, [].
  - apply StronglySorted_inv in Hs as [Hs Hxy]. apply Forall_cons in Hne as [Hy Hne].
    destruct (Z.lt_ge_cases y.1 b) as [Hlt|Hge].
    + destruct (IH y Hlt Hs Hne) as (l1 & p & l2 & E & Hp & Hl). exists (x :: l1), p, l2. rewrite E. done.
    + exists [], x, (y :: l). split_and!; [done|done|]. constructor; [lia|].
      apply StronglySorted_inv in Hs as [_ Hyl]. eapply Forall_impl; [exact Hyl|]. unfold before. intros c Hc. cbn in Hc. lia.
Qed.

Lemma sorted_next l1 x l2 e :
  StronglySorted before (l1 ++ x :: l2) -> l2 <> [] -> x.1 < hd_addr l2 e.
Proof.
  intros Hs Hne. apply StronglySorted_app in Hs as (_ & _ & Hs). destruct l2 as [|y l2]; [done|].
  apply StronglySorted_inv in Hs as [_ Hs]. apply Forall_cons in Hs as [[]]. cbn. lia.
Qed.

Lemma seg_at m l1 c l2 e : seg m (l1 ++ c :: l2) e -> hptr m c.1 = hd_addr l2 e /\ hsize m c.1 = c.2.
Proof. intros H. apply seg_app in H as [_ (H1 & H2 & _)]. done. Qed.

Section Find.
Variables (m : mem) (l1 : list chunk) (p : chunk) (l2 : list chunk) (b : Z).
Let nodes := l1 ++ p :: l2.
Hypothesis Hseg : seg m nodes base.
Hypothesis Hsorted : StronglySorted before nodes.
Hypothesis Hbase : hd_addr nodes base = base.
Hypothesis Hp : p.1 < b.
Hypothesis Hl2 : Forall (fun c => b < c.1) l2.

(** Every node is above [base], but for the first. *)
Lemma node_ge c : c ∈ nodes -> base <= c.1.
Proof.
  clear Hseg Hp Hl2. revert Hsorted Hbase. destruct nodes as [|x l]; [intros _ _ []%not_elem_of_nil|]. cbn.
  intros [_ Hx]%StronglySorted_inv <- [->|Hc]%elem_of_cons; [lia|].
  rewrite Forall_forall in Hx. destruct (Hx c Hc). lia.
Qed.

(** At the place itself the loop stops. *)
Lemma find_here n : free_find (S n) m b p.1 = Some p.1.
Proof.
  destruct (seg_at m l1 p l2 base Hseg) as [E _]. cbn [free_find]. rewrite E, (proj2 (Z.ltb_lt p.1 b)) by done.
  assert (Hge : base <= p.1) by (apply node_ge, elem_of_app; right; left).
  destruct l2 as [|c l]; cbn [hd_addr].
  - destruct (b <? base); [done|]. now rewrite (proj2 (Z.leb_le base p.1)) by done.
  - apply Forall_cons in Hl2 as [Hc _]. now rewrite (proj2 (Z.ltb_lt b c.1)) by done.
Qed.

(** From a node below the place the loop walks up to it. *)
Lemma find_below j1 x j2 n :
  l1 = j1 ++ x :: j2 -> free_find (S (length j2) + S n) m b x.1 = Some p.1.
Proof.
  revert j1 x. induction j2 as [|y j2 IH]; intros j1 x E.
  - assert (En : nodes = j1 ++ x :: [] ++ p :: l2) by (unfold nodes; rewrite E; now rewrite <- app_assoc).
    pose proof Hseg as Hs. rewrite En in Hs. destruct (seg_at m j1 x _ base Hs) as [Ex _]. cbn [hd_addr app] in Ex.
    pose proof Hsorted as Ho. rewrite En in Ho. apply (sorted_next _ _ _ base) in Ho; [|done]. cbn in Ho.
    cbn [length Nat.add free_find]. rewrite Ex.
    rewrite (proj2 (Z.ltb_ge b p.1)), andb_false_r by lia. rewrite (proj2 (Z.leb_gt p.1 x.1)) by lia. apply find_here.
  - assert (En : nodes = j1 ++ x :: (y :: j2) ++ p :: l2) by (unfold nodes; rewrite E; now rewrite <- app_assoc).
    pose proof Hseg as Hs. rewrite En in Hs. destruct (seg_at m j1 x _ base Hs) as [Ex _]. cbn [hd_addr app] in Ex.
    pose proof Hsorted as Ho. rewrite En in Ho.
    assert (Hyp : y.1 < p.1).
    { apply StronglySorted_app_1_r, StronglySorted_inv in Ho as [Ho _]. cbn in Ho.
      apply StronglySorted_inv in Ho as [_ Ho]. rewrite Forall_forall in Ho. destruct (Ho p); [|lia].
      apply elem_of_app. right. left. }
    apply (sorted_next _ _ _ base) in Ho; [|done]. cbn in Ho.
    cbn [length Nat.add free_find]. rewrite Ex.
    rewrite (proj2 (Z.ltb_ge b y.1)), andb_false_r by lia. rewrite (proj2 (Z.leb_gt y.1 x.1)) by lia.
    apply (IH (j1 ++ [x])). now rewrite E, <- app_assoc.
Qed.

(** From a node above the place it walks to the end of the list and around. *)
Lemma find_above j1 x j2 n :
  l2 = j1 ++ x :: j2 -> free_find (S (length j2) + n) m b x.1 = free_find n m b base.
Proof.
  revert j1 x. induction j2 as [|y j2 IH]; intros j1 x E.
  - assert (En : nodes = (l1 ++ p :: j1) ++ x :: []) by (unfold nodes; rewrite E, <- app_assoc; done).
    pose proof Hseg as Hs. rewrite En in Hs. destruct (seg_at m _ x _ base Hs) as [Ex _]. cbn [hd_addr app] in Ex.
    pose proof Hl2 as Hx. rewrite E in Hx. apply Forall_app in Hx as [_ [Hx _]%Forall_cons].
    assert (base <= p.1) by (apply node_ge, elem_of_app; right; left).
    cbn [length Nat.add free_find]. rewrite Ex. rewrite (proj2 (Z.ltb_ge x.1 b)) by lia. cbn [andb orb].
    rewrite (proj2 (Z.ltb_ge b base)), andb_false_r by lia. done.
  - assert (En : nodes = (l1 ++ p :: j1) ++ x :: (y :: j2)) by (unfold nodes; rewrite E, <- app_assoc; done).
    pose proof Hseg as Hs. rewrite En in Hs. destruct (seg_at m _ x _ base Hs) as [Ex _]. cbn [hd_addr app] in Ex.
    pose proof Hl2 as Hx. rewrite E in Hx. apply Forall_app in Hx as [_ [Hx _]%Forall_cons].
    pose proof Hsorted as Ho. rewrite En in Ho. apply (sorted_next _ _ _ base) in Ho; [|done]. cbn in Ho.
    cbn [length Nat.add free_find]. rewrite Ex. rewrite (proj2 (Z.ltb_ge x.1 b)) by lia. cbn [andb].
    rewrite (proj2 (Z.leb_gt y.1 x.1)) by lia. cbn [andb]. apply (IH (j1 ++ [x])). now rewrite E, <- app_assoc.
Qed.

(** From any node the loop finds the place, in as many rounds as there are nodes. *)
Lemma free_find_place n x : x ∈ nodes -> (S (length nodes) <= n)%nat -> free_find n m b x.1 = Some p.1.
Proof.
  intros Hx Hn. assert (Hlen : length nodes = (length l1 + S (length l2))%nat) by (unfold nodes; now rewrite length_app).
  assert (Hfrom : forall k, (S (length l1) <= k)%nat -> free_find k m b base = Some p.1).
  { intros k Hk. assert (El : l1 = [] \/ exists y l, l1 = y :: l) by (destruct l1; eauto).
    pose proof Hbase as Hb. unfold nodes in Hb. destruct El as [El|(y & l & El)]; rewrite El in Hb, Hk; cbn in Hb, Hk.
    - rewrite <- Hb. destruct k; [lia|]. apply find_here.
    - rewrite <- Hb. replace k with (S (length l) + S (k - S (S (length l))))%nat by lia.
      now apply (find_below []). }
  apply elem_of_app in Hx as [Hx|[->|Hx]%elem_of_cons].
  - apply list_elem_of_split in Hx as (j1 & j2 & E). assert (length l1 = length j1 + S (length j2))%nat by now rewrite E, length_app.
    replace n with (S (length j2) + S (n - S (S (length j2))))%nat by lia. now apply (find_below j1).
  - destruct n; [lia|]. apply find_here.
  - apply list_elem_of_split in Hx as (j1 & j2 & E). assert (length l2 = length j1 + S (length j2))%nat by now rewrite E, length_app.
    replace n with (S (length j2) + (n - S (length j2)))%nat by lia. rewrite (find_above j1) by done. apply Hfrom. lia.
Qed.
End Find.

(** ** Joining a block with its neighbours *)

(** An address or a size of the heap is a machine word. *)
Lemma heap_u32 x : 0 <= x <= KERNBASE -> is_u32 x.
Proof. unfold is_u32, KERNBASE. lia. Qed.

(** The first half of free: [bp] takes in the block after it, or points to it. *)
Definition join_right (m : mem) (bp p : Z) : mem :=
  if hplus bp (hsize m bp) =? hptr m p then
    let m := set_hsize bp (u32 (hsize m bp + hsize m (hptr m p))) m in
    set_hptr bp (hptr m (hptr m p)) m
  else set_hptr bp (hptr m p) m.

(** The second: [p] takes in [bp], or points to it. *)
Definition join_left (m : mem) (bp p : Z) : mem :=
  if hplus p (hsize m p) =? bp then
    let m := set_hsize p (u32 (hsize m p + hsize m bp)) m in
    set_hptr p (hptr m bp) m
  else set_hptr p bp m.

(** The list after the first half. *)
Definition right_of (b bs : Z) (l2 : list chunk) : Z * list chunk :=
  match l2 with
  | c :: l2' => if b + 8 * bs =? c.1 then (bs + c.2, l2') else (bs, l2)
  | [] => (bs, [])
  end.

Lemma join_right_ok m b bs p l2 :
  hptr m p = hd_addr l2 base -> p + 8 <= b -> hsize m b = bs -> seg m l2 base -> 0 < base < b -> 1 <= bs -> b + 8 * bs <= KERNBASE ->
  Forall (fun c => b + 8 * bs <= c.1 /\ 1 <= c.2 /\ c.1 + 8 * c.2 <= KERNBASE) l2 ->
  let m1 := join_right m b p in
  let '(bs', l2') := right_of b bs l2 in
  frame [b] m m1 /\ hptr m1 b = hd_addr l2' base /\ hsize m1 b = bs'.
Proof.
  intros Hp Hpb Hb Hseg Hbase Hbs Hk Hl m1. unfold m1, join_right. rewrite Hp, Hb. unfold hplus, sizeof_Header.
  rewrite u32_small by (apply heap_u32; lia).
  assert (Hfr : forall m' a w, frame [b] m m' -> a = b \/ a = b + 4 -> frame [b] m (st32 m' a w)).
  { intros m' a w Hm' Ha. apply (frame_st32 _ _ _ _ _ b); [done|left|done]. }
  destruct l2 as [|c l2]; cbn [right_of hd_addr].
  - rewrite (proj2 (Z.eqb_neq _ base)) by lia. split_and!; [apply Hfr; auto; apply hframe_refl| |].
    + rewrite hptr_set_hptr; [done|apply heap_u32; lia].
    + now rewrite hsize_set_hptr.
  - apply Forall_cons in Hl as [(Hc1 & Hc2 & Hc3) Hl]. destruct Hseg as (E1 & E2 & Hseg).
    destruct (Z.eqb_spec (b + 8 * bs) c.1) as [E|Hne].
    + set (m0 := set_hsize b _ m). assert (Hf0 : frame [b] m m0) by (apply Hfr; auto; apply hframe_refl).
      assert (Ep : hptr m0 p = c.1) by (rewrite (frame_hptr [b] m m0 p Hf0); [done|apply Forall_singleton; lia]).
      assert (Ec : hptr m0 c.1 = hd_addr l2 base).
      { rewrite (frame_hptr [b] m m0 c.1 Hf0); [done|]. apply Forall_singleton. lia. }
      assert (Hh : is_u32 (hd_addr l2 base)).
      { destruct l2 as [|d l2]; [apply heap_u32; cbn; lia|]. apply Forall_cons in Hl as [? _]. apply heap_u32. cbn. lia. }
      split_and!.
      * now apply Hfr; [|left].
      * rewrite Ep, Ec. now rewrite hptr_set_hptr.
      * rewrite hsize_set_hptr. unfold m0. rewrite E2, u32_small by (apply heap_u32; lia).
        rewrite hsize_set_hsize; [done|apply heap_u32; lia].
    + split_and!; [apply Hfr; auto; apply hframe_refl| |].
      * rewrite hptr_set_hptr; [done|apply heap_u32; lia].
      * now rewrite hsize_set_hptr.
Qed.

(** The list after the second half. *)
Definition left_of (p : chunk) (b bs : Z) : list chunk :=
  if p.1 + 8 * p.2 =? b then [(p.1, p.2 + bs)] else [p; (b, bs)].

Lemma join_left_ok m b bs p e :
  hsize m p.1 = p.2 -> hptr m b = e -> hsize m b = bs -> 0 < p.1 -> 0 <= p.2 -> p.1 + 8 <= b -> p.1 + 8 * p.2 <= b ->
  1 <= bs -> b + 8 * bs <= KERNBASE -> is_u32 e ->
  let m2 := join_left m b p.1 in
  frame [p.1] m m2 /\ seg m2 (left_of p b bs) e.
Proof.
  intros Hp Hb1 Hb2 Hp1 Hp2 Hpb Hpe Hbs Hk He m2. unfold m2, join_left, left_of. rewrite Hp. unfold hplus, sizeof_Header.
  rewrite u32_small by (apply heap_u32; lia).
  assert (Hfr : forall m' a w, frame [p.1] m m' -> a = p.1 \/ a = p.1 + 4 -> frame [p.1] m (st32 m' a w)).
  { intros m' a w Hm' Ha. apply (frame_st32 _ _ _ _ _ p.1); [done|left|done]. }
  assert (Hoff : off [p.1] b) by (apply Forall_singleton; lia).
  destruct (Z.eqb_spec (p.1 + 8 * p.2) b) as [E|Hne].
  - set (m0 := set_hsize p.1 _ m). assert (Hf0 : frame [p.1] m m0) by (apply Hfr; auto; apply hframe_refl).
    split; [now apply Hfr; [|left]|]. cbn [seg fst snd hd_addr]. split_and!; [| |done].
    + rewrite (frame_hptr [p.1] m m0 b Hf0 Hoff), Hb1. now apply hptr_set_hptr.
    + rewrite hsize_set_hptr. unfold m0. rewrite Hb2, u32_small by (apply heap_u32; lia).
      apply hsize_set_hsize, heap_u32. lia.
  - assert (Hf : frame [p.1] m (set_hptr p.1 b m)) by (apply Hfr; auto; apply hframe_refl).
    split; [done|]. cbn [seg fst snd hd_addr]. split_and!; [| | | |done].
    + apply hptr_set_hptr, heap_u32. lia.
    + now rewrite hsize_set_hptr.
    + now rewrite (frame_hptr [p.1] m _ b Hf Hoff).
    + now rewrite (frame_hsize [p.1] m _ b Hf Hoff).
Qed.

Lemma apart_join a s1 s2 c : 1 <= c.2 -> apart (a, s1) c -> apart (a + 8 * s1, s2) c -> apart (a, s1 + s2) c.
Proof. unfold apart. cbn. lia. Qed.

Lemma right_of_spec brk b bs l2 bs' l2' :
  right_of b bs l2 = (bs', l2') -> StronglySorted before l2 -> in_heap brk (b, bs) ->
  Forall (fun c => b + 8 * bs <= c.1 /\ in_heap brk c) l2 ->
  Forall (fun c => b + 8 * bs' < c.1 /\ in_heap brk c) l2' /\ StronglySorted before l2' /\ in_heap brk (b, bs') /\ bs <= bs' /\
  8 * bs' + total l2' = 8 * bs + total l2 /\ l2' ⊆ l2 /\ (length l2' <= length l2)%nat /\
  forall c, 1 <= c.2 -> apart (b, bs) c -> Forall (fun d => apart d c) l2 -> apart (b, bs') c.
Proof.
  intros E Hs Hb Hl. unfold in_heap in *. cbn [fst snd] in *. destruct l2 as [|c l2]; cbn [right_of] in E.
  - injection E as <- <-. split_and!; done || lia || apply Forall_nil_2.
  - apply Forall_cons in Hl as [(Hc1 & Hc) Hl]. pose proof Hs as [Hs' Hcl]%StronglySorted_inv.
    destruct (Z.eqb_spec (b + 8 * bs) c.1) as [Ec|Hne]; injection E as <- <-.
    + split_and!; try done; try lia.
      * apply Forall_forall. intros d Hd. rewrite Forall_forall in Hcl, Hl. destruct (Hcl d Hd), (Hl d Hd). lia.
      * cbn. lia.
      * intros d Hd. now right.
      * cbn. lia.
      * intros d Hd H1 [H2 _]%Forall_cons. apply apart_join; [done|done|]. rewrite Ec. now destruct c.
    + split_and!; try done; try lia. constructor; [lia|].
      apply Forall_forall. intros d Hd. rewrite Forall_forall in Hcl, Hl. destruct (Hcl d Hd), (Hl d Hd). lia.
Qed.

(** The new list is in order, in the heap, of the right size, and apart from all
    that the old blocks were apart from. *)
Lemma left_of_spec brk l1 p b bs l2 :
  StronglySorted before (l1 ++ [p]) -> StronglySorted before l2 -> 0 <= p.2 -> p.1 + 8 <= b -> p.1 + 8 * p.2 <= b ->
  1 <= bs -> Forall (fun c => b + 8 * bs < c.1) l2 ->
  StronglySorted before (l1 ++ left_of p b bs ++ l2) /\
  total (left_of p b bs) = 8 * p.2 + 8 * bs /\
  (length (left_of p b bs) <= 2)%nat /\
  (in_heap brk p -> in_heap brk (b, bs) -> Forall (in_heap brk) (left_of p b bs)) /\
  (exists c, c ∈ left_of p b bs /\ bs <= c.2 /\ (p.1 + 8 * p.2 <> b -> c = (b, bs))) /\
  forall c, 1 <= c.2 -> apart p c -> apart (b, bs) c -> Forall (fun d => apart d c) (left_of p b bs).
Proof.
  intros Hs1 Hs2 Hp2 Hp8 Hpb Hbs Hl2. apply StronglySorted_app in Hs1 as (H1 & Hs1 & _).
  assert (H1' : forall x, x ∈ l1 -> before x p) by (intros x Hx; apply H1; [done|left]).
  rewrite Forall_forall in Hl2. unfold left_of. destruct (Z.eqb_spec (p.1 + 8 * p.2) b) as [E|Hne]; split_and!.
  - apply StronglySorted_app_2; [|done|].
    + intros x y Hx [->%list_elem_of_singleton|Hy]%elem_of_app; specialize (H1' x Hx); unfold before in *; cbn; [lia|].
      specialize (Hl2 y Hy). lia.
    + constructor; [done|]. apply Forall_forall. intros y Hy. specialize (Hl2 y Hy). unfold before. cbn. lia.
  - cbn. lia.
  - cbn. lia.
  - intros Hi1 Hi2. apply Forall_singleton. unfold in_heap in *. cbn in *. lia.
  - eexists. split; [left|]. cbn. split; [lia|done].
  - intros c Hc Ha1 Ha2. apply Forall_singleton. apply apart_join; [done|now destruct p|]. now rewrite E.
  - apply StronglySorted_app_2; [|done|].
    + intros x y Hx [Hy|Hy]%elem_of_app; specialize (H1' x Hx); unfold before in *.
      * apply elem_of_cons in Hy as [-> | ->%list_elem_of_singleton]; cbn; lia.
      * specialize (Hl2 y Hy). lia.
    + constructor; [constructor; [done|]|].
      * apply Forall_forall. intros y Hy. specialize (Hl2 y Hy). unfold before. cbn. lia.
      * constructor; [unfold before; cbn; lia|]. apply Forall_forall. intros y Hy. specialize (Hl2 y Hy). unfold before. cbn. lia.
  - cbn. lia.
  - cbn. lia.
  - intros Hi1 Hi2. constructor; [done|]. now apply Forall_singleton.
  - exists (b, bs). split; [right; left|]. split; [cbn; lia|done].
  - intros c Hc Ha1 Ha2. constructor; [done|]. now apply Forall_singleton.
Qed.

Lemma sorted_apart l : Forall (fun c => 0 <= c.2) l -> StronglySorted before l -> disjoint_chunks l.
Proof.
  intros Hl Hs. induction l as [|c l IH]; [constructor|]. apply Forall_cons in Hl as [_ Hl].
  apply StronglySorted_inv in Hs as [Hs Hc]. constructor; [|now apply IH].
  eapply Forall_impl; [exact Hc|]. unfold before, apart. intros d Hd. lia.
Qed.

Lemma free_eq n b s p :
  is_u32 b -> free_find n (u_mem s) b (freep s) = Some p ->
  free n (b + 8) s = Some (Uheap (join_left (join_right (u_mem s) b p) b p) p (u_brk s)).
Proof.
  intros Hb Hf. unfold free, sizeof_Header. replace (b + 8 - 8) with b by lia. rewrite (u32_small b) by done. now rewrite Hf.
Qed.

(** The free list around the place of a block. *)
Lemma split_nodes fl l1 p l2 :
  (base, 0) :: fl = l1 ++ p :: l2 ->
  (l1 = [] /\ p = (base, 0) /\ fl = l2) \/ exists l1', l1 = (base, 0) :: l1' /\ fl = l1' ++ p :: l2.
Proof. destruct l1 as [|x l1]; cbn; intros [= <- ->]; [left|right]; eauto. Qed.

(** What is known around the place [p] of an allocated block. *)
Record place (s : uheap) (fl : list chunk) (b bs : Z) (l1 : list chunk) (p : chunk) (l2 : list chunk) : Prop := {
  pl_split : (base, 0) :: fl = l1 ++ p :: l2;
  pl_block : in_heap (u_brk s) (b, bs);
  pl_size : hsize (u_mem s) b = bs;
  pl_base : 0 < base /\ base + 8 <= heap0 /\ heap0 <= u_brk s <= KERNBASE;
  pl_p : 0 < p.1 /\ 0 <= p.2 /\ p.1 + 8 <= b /\ p.1 + 8 * p.2 <= b;
  pl_l2 : Forall (fun c => b + 8 * bs <= c.1 /\ in_heap (u_brk s) c) l2
}.

Lemma place_exists s fl b bs al :
  heap_ok s fl ((b, bs) :: al) -> exists l1 p l2, place s fl b bs l1 p l2 /\ p.1 < b /\ Forall (fun c => b < c.1) l2.
Proof.
  intros [Hbd Hseg Hs Hfp Hin Hap Hsz Htot].
  apply Forall_app in Hin as [Hinf [Hinb _]%Forall_cons]. apply Forall_cons in Hsz as [Hszb _].
  apply disjoint_app in Hap as (_ & _ & Hapx).
  assert (Hc : forall c, c ∈ fl -> in_heap (u_brk s) c /\ (c.1 + 8 * c.2 <= b \/ b + 8 * bs <= c.1)).
  { intros c Hc. rewrite Forall_forall in Hinf, Hapx. split; [auto|]. specialize (Hapx c Hc).
    now apply Forall_cons in Hapx as [? _]. }
  unfold in_heap in *. cbn [fst snd] in *.
  destruct (find_place fl (base, 0) b) as (l1 & p & l2 & E & Hp & Hl2); [cbn; lia|done| |].
  { apply Forall_forall. intros c H%Hc. lia. }
  exists l1, p, l2. split; [|done]. rewrite Forall_forall in Hl2.
  assert (Hl2' : forall c, c ∈ l2 -> c ∈ fl) by (intros c H; destruct (split_nodes _ _ _ _ E) as [(_ & _ & ->)|(l & _ & ->)];
    [done|apply elem_of_app; right; now right]).
  split; try done.
  - destruct (split_nodes _ _ _ _ E) as [(_ & -> & _)|(l & _ & ->)]; [cbn; lia|].
    destruct (Hc p) as [Hp1 Hp2]; [apply elem_of_app; right; left|]. lia.
  - apply Forall_forall. intros c H. specialize (Hl2 c H). destruct (Hc c (Hl2' c H)). unfold in_heap. lia.
Qed.

Lemma hd_left_of p b bs l e : hd_addr (left_of p b bs ++ l) e = p.1.
Proof. unfold left_of. now destruct (_ =? _). Qed.

(** The list in memory after free. *)
Lemma free_mem s fl b bs l1 p l2 bs' l2' :
  place s fl b bs l1 p l2 -> seg (u_mem s) (l1 ++ p :: l2) base -> StronglySorted before (l1 ++ p :: l2) ->
  right_of b bs l2 = (bs', l2') ->
  let m2 := join_left (join_right (u_mem s) b p.1) b p.1 in
  frame [b; p.1] (u_mem s) m2 /\ seg m2 (l1 ++ left_of p b bs' ++ l2') base.
Proof.
  intros [_ Hb Hsz Hbase Hp Hl2] Hseg Hs E m2. set (m := u_mem s) in *. set (brk := u_brk s) in *.
  apply seg_app in Hseg as [Hseg1 (Hp1 & Hp2 & Hseg2)]. cbn [hd_addr] in Hseg1.
  apply StronglySorted_app in Hs as (Hs12 & _ & [Hs2 _]%StronglySorted_inv).
  destruct (right_of_spec brk b bs l2 bs' l2' E Hs2 Hb Hl2) as (R1 & _ & R3 & R4 & _ & _ & _ & _).
  unfold in_heap in *. cbn [fst snd] in *.
  assert (J : frame [b] m (join_right m b p.1) /\ hptr (join_right m b p.1) b = hd_addr l2' base /\ hsize (join_right m b p.1) b = bs').
  { pose proof (join_right_ok m b bs p.1 l2) as J. cbn zeta in J. rewrite E in J. apply J; try done; try lia.
    eapply Forall_impl; [exact Hl2|]. intros c Hc. cbv beta in Hc. lia. }
  destruct J as (J1 & J2 & J3). set (m1 := join_right m b p.1) in *.
  destruct (join_left_ok m1 b bs' p (hd_addr l2' base)) as [F2 S2]; try done; try lia.
  { rewrite (frame_hsize [b] m m1 p.1 J1); [done|]. apply Forall_singleton. lia. }
  { destruct l2' as [|c l2']; apply heap_u32; cbn; [lia|]. apply Forall_cons in R1 as [? _]. lia. }
  fold m2 in F2, S2.
  assert (F : frame [b; p.1] m m2).
  { eapply hframe_trans; (eapply frame_mono; [first [exact J1|exact F2]|intros h; rewrite !elem_of_cons; tauto]). }
  split; [done|]. apply seg_app. rewrite hd_left_of. split.
  - eapply frame_seg; [exact F| |exact Hseg1]. apply Forall_forall. intros c Hc.
    destruct (Hs12 c p Hc) as [? ?]; [left|]. repeat constructor; lia.
  - apply seg_app. split; [done|]. eapply frame_seg; [exact F| |].
    + eapply Forall_impl; [exact R1|]. intros c Hc. cbv beta in Hc. repeat constructor; lia.
    + destruct l2 as [|c l2]; cbn in E; [injection E as <- <-; done|].
      destruct (_ =? _); injection E as <- <-; [apply Hseg2|exact Hseg2].
Qed.

(** The free list after free, without [base]. *)
Lemma free_list s fl b bs al l1 p l2 bs' l2' :
  heap_ok s fl ((b, bs) :: al) -> place s fl b bs l1 p l2 -> right_of b bs l2 = (bs', l2') ->
  exists fl', (base, 0) :: fl' = l1 ++ left_of p b bs' ++ l2' /\ StronglySorted before ((base, 0) :: fl') /\
    Forall (in_heap (u_brk s)) fl' /\ total fl' = total fl + 8 * bs /\ Forall (fun c => Forall (apart c) al) fl' /\
    (exists c, c ∈ fl' /\ bs <= c.2) /\ (length fl' <= S (length fl))%nat /\ p.1 ∈ ((base, 0) :: fl').*1.
Proof.
  intros [_ _ Hs _ Hin Hap _ _] [E Hinb _ Hbd Hpf Hl2f] Er. set (brk := u_brk s) in *. rewrite E in Hs.
  apply Forall_app in Hin as [Hinf [_ Hina]%Forall_cons].
  apply disjoint_app in Hap as (_ & [Hapb _]%disjoint_cons & Hapx).
  pose proof (StronglySorted_app_1_r _ _ _ Hs) as [Hs2 _]%StronglySorted_inv.
  assert (Hs1 : StronglySorted before (l1 ++ [p])).
  { replace (l1 ++ p :: l2) with ((l1 ++ [p]) ++ l2) in Hs by now rewrite <- app_assoc. eapply StronglySorted_app_1_l, Hs. }
  destruct (right_of_spec brk b bs l2 bs' l2' Er Hs2 Hinb Hl2f) as (R1 & R2 & R3 & R4 & R5 & R6 & R7 & R8).
  destruct (left_of_spec brk l1 p b bs' l2') as (L1 & L2 & L3 & L4 & (c0 & L5 & L5' & L5'') & L6);
    [done|done|apply Hpf..|apply R3|eapply Forall_impl; [exact R1|]; now intros c []|].
  assert (Hfa : forall c, c ∈ fl -> Forall (apart c) al).
  { intros c Hc. rewrite Forall_forall in Hapx. specialize (Hapx c Hc). now apply Forall_cons in Hapx as [_ ?]. }
  assert (Hl2fl : forall c, c ∈ l2 -> c ∈ fl) by (intros c H; destruct (split_nodes _ _ _ _ E) as [(_ & _ & ->)|(l & _ & ->)];
    [done|apply elem_of_app; right; now right]).
  assert (Hal : forall d, d ∈ al -> 1 <= d.2 /\ apart (b, bs') d).
  { intros d Hd. rewrite Forall_forall in Hina, Hapb. destruct (Hina d Hd) as (_ & Hd2 & _). split; [done|].
    apply R8; [done|now apply Hapb|]. apply Forall_forall. intros c Hc%Hl2fl. specialize (Hfa c Hc).
    rewrite Forall_forall in Hfa. auto. }
  assert (Hl2' : Forall (in_heap brk) l2' /\ Forall (fun c => Forall (apart c) al) l2').
  { split; [eapply Forall_impl; [exact R1|]; now intros c []|]. apply Forall_forall. intros c Hc. apply Hfa, Hl2fl, R6, Hc. }
  destruct (split_nodes _ _ _ _ E) as [(-> & -> & ->)|(l & -> & ->)].
  - exists ((b, bs') :: l2'). unfold left_of in *. cbn [fst snd] in *.
    rewrite (proj2 (Z.eqb_neq _ b)) in * by lia. cbn [app] in *. split_and!; try done.
    + constructor; [done|apply Hl2'].
    + cbn. lia.
    + constructor; [|apply Hl2']. apply Forall_forall. intros d Hd. now apply Hal.
    + exists (b, bs'). split; [left|done].
    + cbn. lia.
    + cbn. left.
  - exists (l ++ left_of p b bs' ++ l2'). cbn [app] in *. apply Forall_app in Hinf as [Hinl [Hinp _]%Forall_cons].
    split_and!; try done.
    + rewrite !Forall_app. split_and!; [done|now apply L4|apply Hl2'].
    + rewrite !total_app, L2. cbn [total]. lia.
    + rewrite !Forall_app. split_and!; [|apply Forall_forall; intros c Hc|apply Hl2'].
      * apply Forall_forall. intros c Hc. apply Hfa, elem_of_app. now left.
      * apply Forall_forall. intros d Hd. destruct (Hal d Hd) as [Hd2 Hd3].
        assert (Hpd : apart p d).
        { specialize (Hfa p). rewrite Forall_forall in Hfa. apply Hfa; [|done]. apply elem_of_app. right. left. }
        specialize (L6 d Hd2 Hpd Hd3). rewrite Forall_forall in L6. auto.
    + exists c0. split; [|lia]. apply elem_of_app. right. apply elem_of_app. now left.
    + rewrite !length_app. cbn [length]. lia.
    + cbn [fmap list_fmap]. right. rewrite !fmap_app. apply elem_of_app. right. apply elem_of_app. left.
      unfold left_of. destruct (_ =? _); left.
Qed.

(** free takes a block of the program into the free list. *)
Lemma free_ok n s fl b bs al :
  heap_ok s fl ((b, bs) :: al) -> (S (S (length fl)) <= n)%nat ->
  exists s' fl', free n (b + 8) s = Some s' /\ heap_ok s' fl' al /\ u_brk s' = u_brk s /\
    kept al (u_mem s) (u_mem s') /\ (exists c, c ∈ fl' /\ bs <= c.2) /\ (length fl' <= S (length fl))%nat.
Proof.
  intros Hok Hn. destruct (place_exists s fl b bs al Hok) as (l1 & p & l2 & Hpl & Hp & Hl2).
  destruct (right_of b bs l2) as [bs' l2'] eqn:Er.
  destruct (free_list s fl b bs al l1 p l2 bs' l2' Hok Hpl Er) as (fl' & E' & G1 & G2 & G3 & G4 & G5 & G6 & G7).
  pose proof Hok as [Hbd Hseg Hs Hfp Hin Hap Hsz Htot]. pose proof Hpl as [E Hinb _ _ Hpf Hl2f].
  apply Forall_app in Hin as [Hinf [_ Hina]%Forall_cons]. apply Forall_cons in Hsz as [_ Hsz].
  apply disjoint_app in Hap as (_ & [Hapb Hapa]%disjoint_cons & Hapx).
  pose proof Hseg as Hseg0. rewrite E in Hseg0. pose proof Hs as Hs0. rewrite E in Hs0.
  destruct (free_mem s fl b bs l1 p l2 bs' l2' Hpl Hseg0 Hs0 Er) as [F Hseg']. rewrite <- E' in Hseg'.
  assert (Hfind : free_find n (u_mem s) b (freep s) = Some p.1).
  { apply list_elem_of_fmap in Hfp as (x & -> & Hx). rewrite E in Hx.
    apply (free_find_place (u_mem s) l1 p l2 b); try done; [now rewrite <- E|]. rewrite <- E. cbn. lia. }
  assert (Hkept : kept al (u_mem s) (join_left (join_right (u_mem s) b p.1) b p.1)).
  { apply (frame_kept [b; p.1]); [done|]. rewrite Forall_forall in Hapb, Hina. unfold in_heap in *. cbn [fst snd] in *.
    repeat constructor; apply Forall_forall; intros d Hd; specialize (Hapb d Hd); specialize (Hina d Hd); unfold apart in Hapb;
      cbn in Hapb; [lia|].
    destruct (split_nodes _ _ _ _ E) as [(-> & -> & ->)|(l & -> & ->)]; [cbn; lia|].
    rewrite Forall_forall in Hapx, Hinf. assert (Hpl' : p ∈ l ++ p :: l2) by (apply elem_of_app; right; left).
    specialize (Hapx p Hpl'). specialize (Hinf p Hpl'). apply Forall_cons in Hapx as [_ Hpx]. rewrite Forall_forall in Hpx.
    specialize (Hpx d Hd). unfold apart in Hpx. lia. }
  exists (Uheap (join_left (join_right (u_mem s) b p.1) b p.1) p.1 (u_brk s)), fl'.
  split_and!; try done; [apply free_eq; [apply heap_u32; unfold in_heap in Hinb; cbn in Hinb; lia|done]|].
  split; try done; cbn [u_mem u_brk freep].
  - now apply Forall_app.
  - apply disjoint_app. split_and!; [|done|done]. apply sorted_apart; [|now apply StronglySorted_inv in G1 as [? _]].
    eapply Forall_impl; [exact G2|]. unfold in_heap. intros c Hc. lia.
  - apply Forall_forall. intros d Hd. rewrite Forall_forall in Hsz, Hina. rewrite (kept_size al (u_mem s)); [auto|done|done|].
    apply (Hina d Hd).
  - rewrite total_app in *. cbn [total snd] in Htot. lia.
Qed.

(** ** Taking a block *)

(** A block in two parts: [k] units at its end, and the rest. *)
Lemma disjoint_split p k rest :
  1 <= k < p.2 -> Forall (fun c => 1 <= c.2) rest -> disjoint_chunks (p :: rest) ->
  disjoint_chunks ((p.1, p.2 - k) :: (p.1 + 8 * (p.2 - k), k) :: rest).
Proof.
  intros Hk Hr. rewrite !disjoint_cons, Forall_cons. intros [Hp Hd]. split_and!; [unfold apart; cbn; lia| | |done];
    rewrite !Forall_forall in *; intros c Hc; specialize (Hp c Hc); specialize (Hr c Hc); unfold apart in *; cbn; lia.
Qed.

(** The headers of the free list and the allocated blocks. *)
Lemma header_off s fl al c d :
  heap_ok s fl al -> c ∈ (base, 0) :: fl -> d ∈ al -> d.1 + 8 * d.2 <= c.1 \/ c.1 + 8 <= d.1.
Proof.
  intros [Hbd _ _ _ Hin Hap _ _] Hc Hd. apply Forall_app in Hin as [Hinf Hina]. rewrite Forall_forall in Hinf, Hina.
  destruct (Hina d Hd) as (Hd1 & Hd2 & Hd3). apply elem_of_cons in Hc as [->|Hc]; [cbn; lia|].
  destruct (Hinf c Hc) as (Hc1 & Hc2 & Hc3). apply disjoint_app in Hap as (_ & _ & Hap). rewrite Forall_forall in Hap.
  specialize (Hap c Hc). rewrite Forall_forall in Hap. specialize (Hap d Hd). unfold apart in Hap. lia.
Qed.

Lemma nodes_off s fl al l1 c l2 :
  heap_ok s fl al -> (base, 0) :: fl = l1 ++ c :: l2 ->
  Forall (fun x => x.1 + 8 <= c.1) l1 /\ Forall (fun x => c.1 + 8 <= x.1 /\ c.1 + 8 * c.2 < x.1) l2.
Proof.
  intros [_ _ Hs _ _ _ _ _] E. rewrite E in Hs. apply StronglySorted_app in Hs as (H1 & _ & [_ H2]%StronglySorted_inv). split.
  - apply Forall_forall. intros x Hx. destruct (H1 x c Hx); [left|done].
  - exact H2.
Qed.

Lemma sizes_kept s al m' c :
  Forall (fun d => hsize (u_mem s) d.1 = d.2) al -> hsize m' c.1 = c.2 -> kept al (u_mem s) m' ->
  Forall (in_heap (u_brk s)) al -> Forall (fun d => hsize m' d.1 = d.2) (c :: al).
Proof.
  intros Hsz Hc Hk Hin. constructor; [done|]. apply Forall_forall. intros d Hd. rewrite Forall_forall in Hsz, Hin.
  rewrite (kept_size al (u_mem s)); [auto|done|done|]. apply (Hin d Hd).
Qed.

Lemma take_exact s fl al f1 q p n2 :
  heap_ok s fl al -> (base, 0) :: fl = f1 ++ q :: p :: n2 ->
  let s' := Uheap (set_hptr q.1 (hptr (u_mem s) p.1) (u_mem s)) q.1 (u_brk s) in
  exists fl', heap_ok s' fl' (p :: al) /\ kept al (u_mem s) (u_mem s').
Proof.
  intros Hok E s'. destruct (nodes_off s fl al f1 q (p :: n2) Hok E) as [Hf1 [Hqp Hqn]%Forall_cons].
  destruct (nodes_off s fl al (f1 ++ [q]) p n2 Hok) as [_ Hpn]; [now rewrite E, <- app_assoc|].
  pose proof Hok as [Hbd Hseg Hs Hfp Hin Hap Hsz Htot]. rewrite E in Hseg.
  assert (Eh : hptr (u_mem s) p.1 = hd_addr n2 base).
  { destruct (seg_at (u_mem s) (f1 ++ [q]) p n2 base) as [Eh _]; [now rewrite <- app_assoc|done]. }
  assert (F : frame [q.1] (u_mem s) (u_mem s')) by (apply (frame_st32 _ _ _ _ _ q.1); [apply hframe_refl|left|now left]).
  assert (Hkept : kept al (u_mem s) (u_mem s')).
  { apply (frame_kept [q.1]); [done|]. apply Forall_singleton, Forall_forall. intros d Hd.
    apply (header_off s fl al q d Hok); [rewrite E; apply elem_of_app; right; left|done]. }
  assert (exists g, f1 ++ [q] = (base, 0) :: g /\ fl = g ++ p :: n2) as (g & Eg & ->).
  { destruct f1 as [|x f1]; injection E as <- ->; [exists []|exists (f1 ++ [q])]; split; try done. now rewrite <- app_assoc. }
  exists (g ++ n2). split; [|done]. apply Forall_app in Hin as [[Hing [Hinp Hinn]%Forall_cons]%Forall_app Hina].
  split; try done; cbn [u_mem u_brk freep s'].
  - change ((base, 0) :: g ++ n2) with (((base, 0) :: g) ++ n2). rewrite <- Eg, <- app_assoc. cbn [app].
    apply seg_app in Hseg as [Hs1 (_ & Hs2 & _ & _ & Hs3)]. apply seg_app. cbn [hd_addr] in *. split.
    + eapply frame_seg; [exact F| |exact Hs1]. eapply Forall_impl; [exact Hf1|]. intros x Hx. cbv beta in Hx. apply Forall_singleton. lia.
    + cbn [seg]. split_and!.
      * rewrite Eh. apply hptr_set_hptr. destruct n2 as [|c n2]; apply heap_u32; cbn; [lia|].
        apply Forall_cons in Hinn as [(? & ? & ?) _]. lia.
      * now rewrite hsize_set_hptr.
      * eapply frame_seg; [exact F| |exact Hs3]. eapply Forall_impl; [exact Hqn|]. intros x Hx. apply Forall_singleton. cbv beta in Hx. lia.
  - change ((base, 0) :: g ++ p :: n2) with (((base, 0) :: g) ++ p :: n2) in Hs.
    apply StronglySorted_app in Hs as (H1 & H2 & [H3 _]%StronglySorted_inv).
    apply (StronglySorted_app_2 before ((base, 0) :: g) n2); [|done|done]. intros x y Hx Hy. apply H1; [done|now right].
  - change ((base, 0) :: g ++ n2) with (((base, 0) :: g) ++ n2). rewrite <- Eg, !fmap_app. apply elem_of_app. left.
    apply elem_of_app. right. left.
  - rewrite Forall_app. split; [now apply Forall_app|now constructor].
  - assert (Hp' : (g ++ n2) ++ p :: al ≡ₚ (g ++ p :: n2) ++ al) by solve_Permutation. now rewrite Hp'.
  - apply (sizes_kept s); [done| |done|done].
    apply seg_app in Hseg as [_ (_ & _ & _ & Hs2 & _)]. change (hsize (u_mem s') p.1 = p.2).
    rewrite (frame_hsize [q.1] (u_mem s) _ p.1 F); [done|]. apply Forall_singleton. lia.
  - rewrite !total_app in *. cbn [total] in *. lia.
Qed.

(** The block is cut: its end is handed out. *)
Lemma take_split s fl al f1 q p n2 k :
  heap_ok s fl al -> (base, 0) :: fl = f1 ++ q :: p :: n2 -> 1 <= k < p.2 ->
  let b := p.1 + 8 * (p.2 - k) in
  let s' := Uheap (set_hsize b k (set_hsize p.1 (p.2 - k) (u_mem s))) q.1 (u_brk s) in
  exists fl', heap_ok s' fl' ((b, k) :: al) /\ kept al (u_mem s) (u_mem s').
Proof.
  intros Hok E Hk b s'. destruct (nodes_off s fl al f1 q (p :: n2) Hok E) as [Hf1 [Hqp Hqn]%Forall_cons].
  destruct (nodes_off s fl al (f1 ++ [q]) p n2 Hok) as [Hfp' Hpn]; [now rewrite E, <- app_assoc|].
  pose proof Hok as [Hbd Hseg Hs Hfp Hin Hap Hsz Htot]. rewrite E in Hseg.
  assert (exists g, f1 ++ [q] = (base, 0) :: g /\ fl = g ++ p :: n2) as (g & Eg & ->).
  { destruct f1 as [|x f1]; injection E as <- ->; [exists []|exists (f1 ++ [q])]; split; try done. now rewrite <- app_assoc. }
  apply Forall_app in Hin as [[Hing [Hinp Hinn]%Forall_cons]%Forall_app Hina]. pose proof Hinp as (Hp1 & Hp2 & Hp3).
  assert (F : frame [p.1; b] (u_mem s) (u_mem s')).
  { unfold s'. cbn [u_mem]. apply (frame_st32 _ _ _ _ _ b); [|right; left|now right].
    apply (frame_st32 _ _ _ _ _ p.1); [apply hframe_refl|left|now right]. }
  assert (Hkept : kept al (u_mem s) (u_mem s')).
  { apply (frame_kept [p.1; b]); [done|]. apply disjoint_app in Hap as (_ & _ & Hap). apply Forall_app in Hap as [_ [Hap _]%Forall_cons].
    rewrite Forall_forall in Hap, Hina. repeat constructor; apply Forall_forall; intros d Hd; specialize (Hap d Hd);
      destruct (Hina d Hd) as (? & ? & ?); unfold apart, b in *; lia. }
  assert (Hsizes : hsize (u_mem s') p.1 = p.2 - k /\ hsize (u_mem s') b = k /\ hptr (u_mem s') p.1 = hptr (u_mem s) p.1).
  { unfold s'. cbn [u_mem]. set (m1 := set_hsize p.1 _ _).
    assert (F1 : frame [b] m1 (set_hsize b k m1)) by (apply (frame_st32 _ _ _ _ _ b); [apply hframe_refl|left|now right]).
    assert (O1 : off [b] p.1) by (apply Forall_singleton; unfold b; lia).
    rewrite (frame_hsize [b] m1 _ p.1 F1 O1), (frame_hptr [b] m1 _ p.1 F1 O1). split_and!.
    - apply hsize_set_hsize, heap_u32. lia.
    - apply hsize_set_hsize, heap_u32. lia.
    - apply hptr_set_hsize. }
  destruct Hsizes as (Z1 & Z2 & Z3).
  exists (g ++ (p.1, p.2 - k) :: n2). split; [|done]. split; try done.
  - change ((base, 0) :: g ++ (p.1, p.2 - k) :: n2) with (((base, 0) :: g) ++ (p.1, p.2 - k) :: n2).
    rewrite <- Eg. replace (f1 ++ q :: p :: n2) with ((f1 ++ [q]) ++ p :: n2) in Hseg by now rewrite <- app_assoc.
    apply seg_app in Hseg as [Hs1 (Hs2 & _ & Hs3)]. apply seg_app. cbn [hd_addr fst] in *. split.
    + eapply frame_seg; [exact F| |exact Hs1]. eapply Forall_impl; [exact Hfp'|]. intros x Hx. cbv beta in Hx.
      repeat constructor; unfold b; lia.
    + cbn [seg fst snd]. split_and!; [now rewrite Z3|done|].
      eapply frame_seg; [exact F| |exact Hs3]. eapply Forall_impl; [exact Hpn|]. intros x Hx. cbv beta in Hx.
      repeat constructor; unfold b; lia.
  - change ((base, 0) :: g ++ p :: n2) with (((base, 0) :: g) ++ p :: n2) in Hs.
    apply StronglySorted_app in Hs as (H1 & H2 & [H3 H4]%StronglySorted_inv).
    apply (StronglySorted_app_2 before ((base, 0) :: g)); [|done|].
    + intros x y Hx [-> |Hy]%elem_of_cons; [|apply H1; [done|now right]]. destruct (H1 x p Hx); [left|]. now split.
    + constructor; [done|]. eapply Forall_impl; [exact H4|]. unfold before. cbn. intros x Hx. lia.
  - change ((base, 0) :: g ++ (p.1, p.2 - k) :: n2) with (((base, 0) :: g) ++ (p.1, p.2 - k) :: n2).
    rewrite <- Eg, !fmap_app. apply elem_of_app. left. apply elem_of_app. right. left.
  - rewrite !Forall_app, !Forall_cons. unfold in_heap, b in *. cbn. split_and!; try done; lia.
  - assert (Hp' : (g ++ (p.1, p.2 - k) :: n2) ++ (b, k) :: al ≡ₚ (p.1, p.2 - k) :: (b, k) :: (g ++ n2 ++ al)) by solve_Permutation.
    rewrite Hp'. apply disjoint_split; [done| |].
    + rewrite !Forall_app. split_and!; (eapply Forall_impl; [first [exact Hing|exact Hinn|exact Hina]|]); unfold in_heap; intros c Hc; lia.
    + assert (Hp2' : p :: (g ++ n2 ++ al) ≡ₚ (g ++ p :: n2) ++ al) by solve_Permutation. now rewrite Hp2'.
  - now apply (sizes_kept s).
  - rewrite !total_app in *. cbn [total snd u_brk s'] in *. lia.
Qed.

Lemma seg_size s fl al l1 c l2 : heap_ok s fl al -> (base, 0) :: fl = l1 ++ c :: l2 -> hsize (u_mem s) c.1 = c.2 /\
  hptr (u_mem s) c.1 = hd_addr l2 base.
Proof. intros [_ Hseg _ _ _ _ _ _] E. rewrite E in Hseg. destruct (seg_at _ _ _ _ _ Hseg). done. Qed.

Lemma heap_ok_perm s fl al al' : al ≡ₚ al' -> heap_ok s fl al -> heap_ok s fl al'.
Proof.
  intros Hp [H1 H2 H3 H4 H5 H6 H7 H8]. split; try done; [now rewrite <- Hp..|].
  rewrite <- H8, !total_app. f_equal. clear -Hp. induction Hp; cbn; lia.
Qed.

(** Free of a block that the program has returns, gives the block back, and
    leaves the program's other blocks and their bytes as they were. *)
Theorem free_returns_block (n : nat) (p k : Z) (s : uheap) (fl al1 al2 : list chunk) :
  heap_ok s fl (al1 ++ (p - 8, k) :: al2) -> (S (S (length fl)) <= n)%nat ->
  exists s' fl', free n p s = Some s' /\ heap_ok s' fl' (al1 ++ al2) /\ kept (al1 ++ al2) (u_mem s) (u_mem s') /\
    (exists c, c ∈ fl' /\ k <= c.2).
Proof.
  intros Hok Hn. apply (heap_ok_perm _ _ _ ((p - 8, k) :: al1 ++ al2)) in Hok; [|symmetry; apply Permutation_middle].
  destruct (free_ok n s fl (p - 8) k (al1 ++ al2) Hok Hn) as (s' & fl' & E & H1 & _ & H2 & H3 & _).
  rewrite Z.sub_add in E. exists s', fl'. done.
Qed.

(** Whether the kernel grants an sbrk. *)
Variable sbrk_ok : Z -> Z -> bool.

(** A block that is large enough is taken. *)
Lemma take_ok s fl al f1 q p n2 k n :
  heap_ok s fl al -> (base, 0) :: fl = f1 ++ q :: p :: n2 -> 1 <= k <= p.2 ->
  exists b s' fl', malloc_loop sbrk_ok (S n) k q.1 p.1 s = Some (b + 8, s') /\ heap_ok s' fl' ((b, k) :: al) /\
    kept al (u_mem s) (u_mem s').
Proof.
  intros Hok E Hk. destruct (seg_size s fl al (f1 ++ [q]) p n2 Hok) as [Hsz _]; [now rewrite E, <- app_assoc|].
  assert (Hp : in_heap (u_brk s) p /\ u_brk s <= KERNBASE /\ 0 < heap0).
  { pose proof Hok as [Hbd _ _ _ [Hin _]%Forall_app _ _ _]. split; [|lia]. rewrite Forall_forall in Hin. apply Hin.
    destruct f1 as [|x f1]; injection E as _ ->; [left|]. apply elem_of_app. right. right. left. }
  unfold in_heap in Hp. cbn [malloc_loop]. rewrite Hsz, (proj2 (Z.leb_le k p.2)) by lia. unfold sizeof_Header.
  destruct (Z.eqb_spec p.2 k) as [Ek|Hne].
  - destruct (take_exact s fl al f1 q p n2 Hok E) as (fl' & Hok' & Hkept).
    exists p.1, (Uheap (set_hptr q.1 (hptr (u_mem s) p.1) (u_mem s)) q.1 (u_brk s)), fl'.
    rewrite u32_small by (apply heap_u32; lia). rewrite <- Ek. now destruct p.
  - destruct (take_split s fl al f1 q p n2 k Hok E) as (fl' & Hok' & Hkept); [lia|]. cbn zeta in Hok', Hkept.
    rewrite (u32_small (p.2 - k)) by (apply heap_u32; lia). rewrite hsize_set_hsize by (apply heap_u32; lia).
    unfold hplus, sizeof_Header. rewrite (u32_small (p.1 + _)) by (apply heap_u32; lia).
    rewrite u32_small by (apply heap_u32; lia). eauto 10.
Qed.

(** ** The search *)

Lemma first_fit (k : Z) (l : list chunk) :
  (exists mid p tl, l = mid ++ p :: tl /\ Forall (fun c => c.2 < k) mid /\ k <= p.2) \/ Forall (fun c => c.2 < k) l.
Proof.
  induction l as [|c l IH]; [now right|]. destruct (Z.lt_ge_cases c.2 k) as [Hlt|Hge].
  - destruct IH as [(mid & p & tl & -> & Hm & Hp)|Hl]; [left|right; now constructor].
    exists (c :: mid), p, tl. split_and!; [done|now constructor|done].
  - left. exists [], c, l. done.
Qed.

(** Blocks that are too small are passed over. *)
Lemma scan s fl al k mid f1 q tl n :
  heap_ok s fl al -> (base, 0) :: fl = f1 ++ q :: mid ++ tl ->
  Forall (fun c => c.2 < k) mid -> Forall (fun c => c.1 <> freep s) mid ->
  exists f1' q', f1 ++ q :: mid = f1' ++ [q'] /\
    malloc_loop sbrk_ok (length mid + n) k q.1 (hd_addr (mid ++ tl) base) s = malloc_loop sbrk_ok n k q'.1 (hd_addr tl base) s.
Proof.
  intros Hok. revert f1 q. induction mid as [|c mid IH]; intros f1 q E Hm Hf; [now exists f1, q|].
  apply Forall_cons in Hm as [Hc Hm], Hf as [Hcf Hf].
  destruct (seg_size s fl al (f1 ++ [q]) c (mid ++ tl) Hok) as [Hsz Hpt]; [now rewrite E, <- app_assoc|].
  cbn [length Nat.add app hd_addr malloc_loop]. rewrite Hsz, (proj2 (Z.leb_gt k c.2)) by lia.
  rewrite (proj2 (Z.eqb_neq _ _)) by done. rewrite Hpt.
  destruct (IH (f1 ++ [q]) c) as (f1' & q' & E' & ->); [now rewrite E, <- app_assoc|done|done|].
  exists f1', q'. split; [|done]. now rewrite <- E', <- app_assoc.
Qed.

(** The other nodes have other addresses. *)
Lemma addr_ne s fl al l1 f l2 :
  heap_ok s fl al -> (base, 0) :: fl = l1 ++ f :: l2 -> Forall (fun c => c.1 <> f.1) (l1 ++ l2).
Proof.
  intros Hok E. destruct (nodes_off s fl al l1 f l2 Hok E) as [H1 H2]. apply Forall_app.
  split; (eapply Forall_impl; [eassumption|]); cbv beta; intros c Hc; lia.
Qed.

(** [fits fl k r s]: the search [r] has come to a block that fits. *)
Definition fits (fl : list chunk) (k : Z) (r : option (Z * uheap)) (s : uheap) : Prop :=
  exists f1 q p n2 j, (base, 0) :: fl = f1 ++ q :: p :: n2 /\ k <= p.2 /\ r = malloc_loop sbrk_ok (S j) k q.1 p.1 s.

Lemma scan_list s fl al k l f1 q tl n :
  heap_ok s fl al -> (base, 0) :: fl = f1 ++ q :: l ++ tl -> Forall (fun c => c.1 <> freep s) l -> (length l < n)%nat ->
  let start := malloc_loop sbrk_ok n k q.1 (hd_addr (l ++ tl) base) s in
  fits fl k start s \/
  (Forall (fun c => c.2 < k) l /\ exists f1' q', f1 ++ q :: l = f1' ++ [q'] /\
     start = malloc_loop sbrk_ok (n - length l) k q'.1 (hd_addr tl base) s).
Proof.
  intros Hok E Hne Hn start. destruct (first_fit k l) as [(mid & p & tl' & -> & Hm & Hp)|Hl].
  - left. apply Forall_app in Hne as [Hne _]. rewrite length_app in Hn. cbn in Hn. rewrite <- app_assoc in E.
    destruct (scan s fl al k mid f1 q (p :: tl' ++ tl) (S (n - S (length mid))) Hok E Hm Hne) as (f1' & q' & E' & Hscan).
    exists f1', q', p, (tl' ++ tl), (n - S (length mid))%nat. split_and!; [|done|].
    + etransitivity; [exact E|]. etransitivity; [exact (app_assoc f1 (q :: mid) (p :: tl' ++ tl))|].
      rewrite E'. now rewrite <- app_assoc.
    + cbn [hd_addr] in Hscan. rewrite <- Hscan. unfold start. rewrite <- app_assoc. f_equal. lia.
  - right. split; [done|].
    destruct (scan s fl al k l f1 q tl (n - length l) Hok E Hl Hne) as (f1' & q' & E' & Hscan).
    exists f1', q'. split; [done|]. rewrite <- Hscan. unfold start. f_equal. lia.
Qed.

(** The search from [freep] finds a block that fits, or comes back to
    [freep] after passing every node. *)
Lemma search s fl al k n :
  heap_ok s fl al -> 1 <= k -> (S (length fl) < n)%nat ->
  let start := malloc_loop sbrk_ok n k (freep s) (hptr (u_mem s) (freep s)) s in
  fits fl k start s \/
  (Forall (fun c => c.2 < k) fl /\ hsize (u_mem s) (freep s) < k /\
   exists q j, start = malloc_loop sbrk_ok (S j) k q (freep s) s /\ (n <= j + S (S (length fl)))%nat).
Proof.
  intros Hok Hk Hn start. pose proof Hok as [Hbd _ _ Hfp _ _ _ _].
  apply list_elem_of_fmap in Hfp as (f & Ef & (l1 & l2 & E)%list_elem_of_split).
  pose proof (addr_ne s fl al l1 f l2 Hok E) as Hne. rewrite <- Ef in Hne. apply Forall_app in Hne as [Hne1 Hne2].
  destruct (seg_size s fl al l1 f l2 Hok E) as [Hfs Hfp].
  assert (Hlen : (length l1 + S (length l2) = S (length fl))%nat)
    by (apply (f_equal length) in E; rewrite length_app in E; cbn in E; lia).
  rewrite <- (app_nil_r l2) in E, Hfp. unfold start. rewrite Ef, Hfp.
  destruct (scan_list s fl al k l2 l1 f [] n Hok E Hne2) as [?|(Hl2 & f1' & q' & E' & ->)]; [lia|now left|].
  rewrite app_nil_r in E. cbn [hd_addr].
  destruct (split_nodes _ _ _ _ E) as [(-> & -> & ->)|(l & -> & ->)].
  { right. cbn [fst snd] in *. split_and!; [done|lia|]. exists q'.1, (n - S (length l2))%nat.
    split; [f_equal; lia|]. cbn in Hlen. lia. }
  apply Forall_cons in Hne1 as [Hb Hne1]. cbn [fst] in Hb. cbn [length] in Hlen.
  destruct (seg_size s _ al [] (base, 0) (l ++ f :: l2) Hok) as [Hbs Hbp]; [done|]. cbn [fst snd] in Hbs, Hbp.
  replace (n - length l2)%nat with (S (n - S (length l2))) by lia. cbn [malloc_loop].
  rewrite Hbs, (proj2 (Z.leb_gt k 0)), Hbp by lia. rewrite (proj2 (Z.eqb_neq base _)) by done.
  destruct (scan_list s _ al k l [] (base, 0) (f :: l2) (n - S (length l2)) Hok eq_refl Hne1)
    as [?|(Hl & f1'' & q'' & E'' & Hscan)]; [lia|now left|]. cbn [hd_addr app fst] in *. rewrite Hscan.
  replace (n - S (length l2) - length l)%nat with (S (n - S (length l2) - S (length l))) by lia.
  destruct (Z.le_gt_cases k f.2) as [Hfit|Hno].
  - left. exists f1'', q'', f, l2, (n - S (length l2) - S (length l))%nat. split_and!; [|done|done].
    transitivity (((base, 0) :: l) ++ f :: l2); [reflexivity|]. now rewrite E'', <- app_assoc.
  - right. split_and!; [|lia|].
    + apply Forall_app. split; [done|]. now constructor; [lia|].
    + exists q''.1, (n - S (length l2) - S (length l))%nat. split; [done|]. rewrite length_app. cbn. lia.
Qed.

(** * Growing the heap *)

(** The invariant reads the headers only. *)
Lemma heap_ok_mem s fl al m' :
  heap_ok s fl al -> (forall c i, c ∈ (base, 0) :: fl -> 0 <= i < 8 -> ld m' (c.1 + i) = ld (u_mem s) (c.1 + i)) ->
  (forall c, c ∈ al -> hsize m' c.1 = hsize (u_mem s) c.1) -> heap_ok (Uheap m' (freep s) (u_brk s)) fl al.
Proof.
  intros [H1 H2 H3 H4 H5 H6 H7 H8] Hn Ha. split; cbn [u_mem freep u_brk]; try done.
  - revert H2 Hn. generalize ((base, 0) :: fl). clear. intros l. generalize base. induction l as [|c l IH]; intros e Hs Hn; [done|].
    destruct Hs as (Hp & Hs & Hl). split_and!; [| |apply IH; [done|intros d i Hd; apply Hn; now right]].
    + rewrite <- Hp. unfold hptr. rewrite <- (Z.add_0_r c.1). apply ld32_ext. intros i Hi. rewrite Z.add_0_r.
      apply Hn; [left|lia].
    + rewrite <- Hs. apply ld32_ext. intros i Hi. rewrite <- Z.add_assoc. apply Hn; [left|lia].
  - rewrite Forall_forall in *. intros c Hc. rewrite Ha by done. now apply H7.
Qed.

(** The program may write anywhere in its blocks. *)
Lemma heap_ok_write s fl al c x v :
  heap_ok s fl al -> c ∈ al -> c.1 + 8 <= x < c.1 + 8 * c.2 ->
  heap_ok (Uheap (st (u_mem s) x v) (freep s) (u_brk s)) fl al.
Proof.
  intros Hok Hc Hx. apply heap_ok_mem; [done| |].
  - intros d i Hd Hi. apply ld_st_ne. destruct (header_off s fl al d c Hok Hd Hc); lia.
  - intros d Hd. apply ld32_ext. intros i Hi. apply ld_st_ne. pose proof Hok as [_ _ _ _ [_ Hin]%Forall_app Hap _ _].
    rewrite Forall_forall in Hin. pose proof (Hin c Hc) as (? & ? & ?). pose proof (Hin d Hd) as (? & ? & ?).
    destruct (decide (c = d)) as [->|Hne]; [lia|].
    apply disjoint_app in Hap as (_ & Hap & _). apply list_elem_of_split in Hc as (l1 & l2 & ->).
    rewrite <- Permutation_middle, disjoint_cons, Forall_forall in Hap. destruct Hap as [Hap _].
    specialize (Hap d). unfold apart in Hap. rewrite <- Permutation_middle, elem_of_cons in Hd.
    destruct Hd as [->|Hd]; [done|]. specialize (Hap Hd). lia.
Qed.

(** The memory that sbrk adds is one more block of the program. *)
Lemma heap_ok_grow s fl al k :
  heap_ok s fl al -> 1 <= k -> u_brk s + 8 * k <= KERNBASE ->
  let m' := set_hsize (u_brk s) k (u_mem s) in
  heap_ok (Uheap m' (freep s) (u_brk s + 8 * k)) fl ((u_brk s, k) :: al) /\ kept al (u_mem s) m'.
Proof.
  intros Hok Hk Hb m'. pose proof Hok as [H1 _ H3 H4 H5 H6 H7 H8].
  pose proof H5 as [Hf Ha]%Forall_app. rewrite Forall_forall in Hf, Ha. unfold in_heap in Hf, Ha.
  assert (Hkept : kept al (u_mem s) m').
  { intros c x Hc Hx. apply ld_st32_ne. specialize (Ha c Hc). lia. }
  assert (Hok' : heap_ok (Uheap m' (freep s) (u_brk s)) fl al).
  { apply heap_ok_mem; [done| |].
    - intros c i Hc Hi. apply ld_st32_ne. apply elem_of_cons in Hc as [->|Hc]; [cbn; lia|]. specialize (Hf c Hc). lia.
    - intros c Hc. apply (kept_size al); [done|done|]. specialize (Ha c Hc). lia. }
  split; [|done]. destruct Hok' as [_ G2 _ _ _ _ G7 _]. cbn [u_mem freep u_brk] in *.
  assert (Hin : Forall (in_heap (u_brk s + 8 * k)) (fl ++ al)).
  { eapply Forall_impl; [exact H5|]. unfold in_heap. intros c Hc. lia. }
  split; cbn [u_mem freep u_brk]; try done.
  - lia.
  - rewrite <- Permutation_middle. constructor; [unfold in_heap; cbn; lia|done].
  - rewrite <- Permutation_middle. apply disjoint_cons. split; [|done]. eapply Forall_impl; [exact H5|].
    unfold in_heap, apart. intros c Hc. cbn. lia.
  - constructor; [|done]. apply hsize_set_hsize. apply heap_u32. cbn [snd]. lia.
  - rewrite total_app in *. cbn. lia.
Qed.

(** What malloc relies on of sbrk: the memory stays below the kernel. *)
Hypothesis sbrk_bound : forall brk n, sbrk_ok brk n = true -> brk + n <= KERNBASE.

Definition more (k : Z) : Z := Z.max k 4096.

Lemma freep_pos s fl al : heap_ok s fl al -> freep s <> 0.
Proof.
  intros [Hbd _ _ [->|Hin]%elem_of_cons [Hf _]%Forall_app _ _ _]; [cbn; lia|].
  apply list_elem_of_fmap in Hin as (d & -> & Hd). rewrite Forall_forall in Hf. destruct (Hf d Hd). lia.
Qed.

Lemma morecore_ok s fl al k n :
  heap_ok s fl al -> 1 <= k -> 8 * k < 2147483648 -> (S (S (length fl)) <= n)%nat ->
  (sbrk_ok (u_brk s) (8 * more k) = false /\ morecore sbrk_ok n k s = Some (0, s)) \/
  (exists s' fl', morecore sbrk_ok n k s = Some (freep s', s') /\ freep s' <> 0 /\ heap_ok s' fl' al /\
     kept al (u_mem s) (u_mem s') /\ (exists c, c ∈ fl' /\ k <= c.2) /\ (length fl' <= S (length fl))%nat).
Proof.
  intros Hok Hk Hk8 Hn. pose proof Hok as [Hbd _ _ _ _ _ _ _]. unfold morecore, sbrk, sizeof_Header.
  replace (if k <? 4096 then 4096 else k) with (more k) by (unfold more; destruct (Z.ltb_spec k 4096); lia).
  assert (Hm : k <= more k /\ 4096 <= more k /\ 8 * more k < 2147483648) by (unfold more; lia).
  rewrite (u32_small (more k * 8)) by (unfold is_u32; lia). rewrite s32_small by lia.
  replace (more k * 8) with (8 * more k) by lia.
  destruct (sbrk_ok _ _) eqn:Hs; [right|left; split; [done|]]; [|now rewrite Z.eqb_refl].
  apply sbrk_bound in Hs. destruct (heap_ok_grow s fl al (more k) Hok) as [Hok' Hkept]; [lia|lia|].
  rewrite (proj2 (Z.eqb_neq _ _)) by (change (u32 (-1)) with 4294967295; unfold KERNBASE in *; lia).
  cbn [u_mem freep u_brk]. rewrite !u32_small by (apply heap_u32; unfold KERNBASE in *; lia).
  destruct (free_ok n _ fl (u_brk s) (more k) al Hok' Hn) as (s' & fl' & -> & Hok'' & _ & Hkept' & (c & Hc & Hcs) & Hlen).
  exists s', fl'. split_and!; [done| |done| |exists c; split; [done|lia]|done].
  - now apply (freep_pos s' fl' al).
  - exact (kept_trans _ _ _ _ Hkept Hkept').
Qed.

(** From [freep], in a heap that holds a block that fits. *)
Lemma malloc_found s fl al k n :
  heap_ok s fl al -> 1 <= k -> (S (length fl) < n)%nat -> (exists c, c ∈ fl /\ k <= c.2) ->
  exists b s' fl', malloc_loop sbrk_ok n k (freep s) (hptr (u_mem s) (freep s)) s = Some (b + 8, s') /\
    heap_ok s' fl' ((b, k) :: al) /\ kept al (u_mem s) (u_mem s').
Proof.
  intros Hok Hk Hn (c & Hc & Hcs). destruct (search s fl al k n Hok Hk Hn) as [(f1 & q & p & n2 & j & E & Hp & ->)|(Hall & _)].
  - now apply (take_ok s fl al f1 q p n2).
  - rewrite Forall_forall in Hall. specialize (Hall c Hc). lia.
Qed.

Lemma malloc_loop_ok s fl al k n :
  heap_ok s fl al -> 1 <= k -> 8 * k < 2147483648 -> (2 * length fl + 6 <= n)%nat ->
  exists p s', malloc_loop sbrk_ok n k (freep s) (hptr (u_mem s) (freep s)) s = Some (p, s') /\
    kept al (u_mem s) (u_mem s') /\
    ((p = 0 /\ s' = s /\ Forall (fun c => c.2 < k) fl /\ sbrk_ok (u_brk s) (8 * more k) = false) \/
     (exists fl', heap_ok s' fl' ((p - 8, k) :: al))).
Proof.
  intros Hok Hk Hk8 Hn.
  destruct (search s fl al k n Hok Hk) as [(f1 & q & p & n2 & j & E & Hp & ->)|(Hall & Hf & q & j & -> & Hj)]; [lia| |].
  - destruct (take_ok s fl al f1 q p n2 k j Hok E) as (b & s' & fl' & -> & Hok' & Hkept); [lia|].
    exists (b + 8), s'. split_and!; [done|done|right]. exists fl'. now rewrite Z.add_simpl_r.
  - cbn [malloc_loop]. rewrite (proj2 (Z.leb_gt _ _)), Z.eqb_refl by lia.
    destruct (morecore_ok s fl al k j Hok Hk Hk8) as [[Hs ->]|(s' & fl' & -> & Hne & Hok' & Hkept & Hfit & Hlen)]; [lia| |].
    + exists 0, s. split_and!; [done|done|now left].
    + rewrite (proj2 (Z.eqb_neq _ _)) by done.
      destruct (malloc_found s' fl' al k j Hok' Hk) as (b & s'' & fl'' & -> & Hok'' & Hkept'); [lia|done|].
      exists (b + 8), s''. split_and!; [done| |right; exists fl''; now rewrite Z.add_simpl_r].
      exact (kept_trans _ _ _ _ Hkept Hkept').
Qed.

(** * The operations *)

(** The state of a program: as malloc and free leave it, or before the first
    malloc, when the heap is empty. *)
Definition heap_state (s : uheap) (fl al : list chunk) : Prop :=
  heap_ok s fl al \/
  (freep s = 0 /\ fl = [] /\ al = [] /\ u_brk s = heap0 /\ 0 < base /\ base + 8 <= heap0 <= KERNBASE).

(** The list of one header that malloc starts with. *)
Lemma heap_ok_init m :
  0 < base -> base + 8 <= heap0 <= KERNBASE ->
  heap_ok (Uheap (set_hsize base 0 (set_hptr base base m)) base heap0) [] [].
Proof.
  intros Hb Hh. split; cbn [u_mem freep u_brk]; [lia| | | |constructor..|cbn; lia].
  - split_and!; [|now apply hsize_set_hsize|done]. cbn [fst hd_addr]. rewrite hptr_set_hsize.
    apply hptr_set_hptr, heap_u32. lia.
  - repeat constructor.
  - left.
Qed.

Lemma units_enough nbytes : 0 <= nbytes < 2147483632 ->
  1 <= units nbytes /\ 8 * units nbytes < 2147483648 /\ nbytes <= 8 * (units nbytes - 1).
Proof.
  intros H. unfold units, sizeof_Header. rewrite u32_small by (unfold is_u32; lia).
  pose proof (Z.div_mod (nbytes + 8 - 1) 8). pose proof (Z.mod_pos_bound (nbytes + 8 - 1) 8). lia.
Qed.

(** C35: malloc returns, and hands out a block of its own: the new block holds
    [nbytes] bytes, lies in the heap apart from the free blocks and from every
    block the program has, the program's blocks keep their bytes, and the heap
    is still made up of the free and the allocated blocks; 0 is returned only
    when the kernel refuses to grow the process and no free block fits.  [nbytes]
    is below 2^31 - 16, where the sizes that malloc computes do not wrap. *)
Theorem malloc_allocates (n : nat) (nbytes : Z) (s : uheap) (fl al : list chunk) :
  heap_state s fl al -> 0 <= nbytes < 2147483632 -> (2 * length fl + 6 <= n)%nat ->
  exists p s', malloc base sbrk_ok n nbytes s = Some (p, s') /\ kept al (u_mem s) (u_mem s') /\
    ((p = 0 /\ heap_ok s' fl al /\ Forall (fun c => c.2 < units nbytes) fl /\
        sbrk_ok (u_brk s) (8 * more (units nbytes)) = false) \/
     (exists fl', heap_ok s' fl' ((p - 8, units nbytes) :: al) /\ nbytes <= 8 * (units nbytes - 1))).
Proof.
  intros Hst Hb Hn. destruct (units_enough nbytes Hb) as (Hu & Hu8 & Hfit).
  assert (exists s0, heap_ok s0 fl al /\ kept al (u_mem s) (u_mem s0) /\ u_brk s0 = u_brk s /\
    malloc base sbrk_ok n nbytes s = malloc_loop sbrk_ok n (units nbytes) (freep s0) (hptr (u_mem s0) (freep s0)) s0)
    as (s0 & Hok & Hk0 & Hbrk & ->).
  { unfold malloc. destruct Hst as [Hok|(Hf & -> & -> & Hbrk & Hb0 & Hh)].
    - exists s. split_and!; [done|done|done|]. rewrite (proj2 (Z.eqb_neq _ _)); [done|]. now apply (freep_pos s fl al).
    - exists (Uheap (set_hsize base 0 (set_hptr base base (u_mem s))) base heap0). rewrite Hf, Z.eqb_refl, Hbrk.
      split_and!; [now apply heap_ok_init|now intros c x Hc%elem_of_nil|done|done]. }
  destruct (malloc_loop_ok s0 fl al _ n Hok Hu Hu8 Hn) as (p & s' & -> & Hkept & Hres).
  exists p, s'. split_and!; [done| |].
  - exact (kept_trans _ _ _ _ Hk0 Hkept).
  - rewrite <- Hbrk. destruct Hres as [(-> & -> & ? & ?)|(fl' & ?)]; [left|right; exists fl']; done.
Qed.

End Heap.

(** * A program with its heap at 12288, and a kernel that grants up to 64K *)

Module Program.
Definition grants (brk n : Z) : bool := (0 <=? brk + n) && (brk + n <? 65536).

Lemma grants_bound brk n : grants brk n = true -> brk + n <= KERNBASE.
Proof. unfold grants. rewrite andb_true_iff, Z.ltb_lt. unfold KERNBASE. lia. Qed.

Definition start : uheap := Uheap ∅ 0 12288.

Lemma start_state : heap_state 8192 12288 start [] [].
Proof. right. split_and!; [reflexivity..|lia|lia|unfold KERNBASE; lia]. Qed.

(** The first malloc asks for 4096 headers and takes the upper end. *)
Lemma malloc_allocates_witness :
  exists p s', malloc 8192 grants 8 100 start = Some (p, s') /\ p = 44952 /\
    exists fl', heap_ok 8192 12288 s' fl' [(p - 8, 14)].
Proof.
  destruct (malloc_allocates 8192 12288 grants grants_bound 8 100 start [] [] start_state) as (p & s' & E & _ & Hres); [lia|cbn; lia|].
  exists p, s'. split; [done|]. assert (Hp : p = 44952).
  { apply (f_equal (fmap fst)) in E. vm_compute in E. congruence. }
  split; [done|]. destruct Hres as [[Hp0 _]|(fl' & Hok & _)]; [lia|]. exists fl'. exact Hok.
Defined.

(** The heap after that: one free block, and one of the program. *)
Definition used : uheap :=
  Uheap (set_hsize 44944 14 (set_hsize 12288 4082 (set_hptr 12288 8192 (set_hsize 8192 0 (set_hptr 8192 12288 ∅))))) 8192 45056.

Lemma used_ok : heap_ok 8192 12288 used [(12288, 4082)] [(44944, 14)].
Proof.
  split; [unfold KERNBASE; cbn; lia| | | | | | |reflexivity].
  - split_and!; [vm_compute; reflexivity..|done].
  - repeat constructor; cbn; lia.
  - left.
  - repeat constructor; unfold in_heap; cbn; lia.
  - repeat constructor; unfold apart; cbn; lia.
  - constructor; [vm_compute; reflexivity|constructor].
Qed.

(** free takes the block back. *)
Lemma free_returns_block_witness :
  exists s' fl', free 3 44952 used = Some s' /\ heap_ok 8192 12288 s' fl' [] /\ hsize (u_mem s') 12288 = 4096.
Proof.
  destruct (free_returns_block 8192 12288 3 44952 14 used [(12288, 4082)] [] [] used_ok) as (s' & fl' & E & Hok & _); [cbn; lia|].
  exists s', fl'. split_and!; [done|done|].
  assert (Hs : (fun s => hsize (u_mem s) 12288) <$> free 3 44952 used = Some 4096) by (vm_compute; reflexivity).
  rewrite E in Hs. now injection Hs.
Defined.
End Program.
