(* ===== verification/Sh.v ===== *)
(** sh.c: the shell's tokens and parser, over the line in the memory of the process.
    The parser is written against an interface, [Lexer]: the shell's lexer, which
    moves a pointer over the line, is an instance of it. *)
From S2P Require Import Prelude Mem Mmu Cstring Digits Ulib.

(** * Commands *)

(** A word of the line: where it starts and where it ends. *)
Definition span : Type := Z * Z.

(** struct execcmd (the entries of argv and eargv up to the null pointer), redircmd
    (file and efile, mode, fd), pipecmd, listcmd, backcmd; in the shell a word [W] is
    a [span] of the line. *)
Inductive cmd (W : Type) : Type :=
| EXEC (argv : list W)
| REDIR (c : cmd W) (file : W) (mode fd : Z)
| PIPE (left right : cmd W)
| LIST (left right : cmd W)
| BACK (c : cmd W).
Arguments EXEC {W} argv.
Arguments REDIR {W} c file mode fd.
Arguments PIPE {W} left right.
Arguments LIST {W} left right.
Arguments BACK {W} c.

Definition MAXARGS : nat := 10.

Definition execcmd : cmd span := EXEC [].
Definition redircmd (subcmd : cmd span) (file : span) (mode fd : Z) : cmd span := REDIR subcmd file mode fd.
Definition pipecmd (left right : cmd span) : cmd span := PIPE left right.
Definition listcmd (left right : cmd span) : cmd span := LIST left right.
Definition backcmd (subcmd : cmd span) : cmd span := BACK subcmd.

(** * Parsers *)

(** What a parser does with the rest of the line, of type [L]: return, or print
    a message and exit; [PFuel] when the bound on its steps is reached. *)
Inductive parsed (L A : Type) : Type :=
| POk (a : A) (l : L)
| PPanic (msg : string)
| PFuel.
Arguments POk {L A} a l.
Arguments PPanic {L A} msg.
Arguments PFuel {L A}.

Definition P (L A : Type) : Type := L -> parsed L A.

Definition pret {L A} (a : A) : P L A := fun l => POk a l.
Definition pbind {L A B} (m : P L A) (f : A -> P L B) : P L B :=
  fun l => match m l with POk a l' => f a l' | PPanic msg => PPanic msg | PFuel => PFuel end.
Definition ppanic {L A} (msg : string) : P L A := fun _ => PPanic msg.
Definition pfuel {L A} : P L A := fun _ => PFuel.

Declare Scope sh_scope.
Delimit Scope sh_scope with sh.
Notation "'let!' x ':=' m 'in' k" := (pbind m (fun x => k))
  (at level 10, x pattern, m at level 100, k at level 200) : sh_scope.
Notation "m ';;!' k" := (pbind m (fun _ => k)) (at level 100, right associativity) : sh_scope.
Open Scope sh_scope.

(** What the parser uses of the lexer: [gettoken] returns the kind of the token (0
    at the end of the line, 'a' for a word, '+' for >>, else the symbol) and its
    span, [peek] whether the next character is one of [toks]. *)
Class Lexer (L : Type) : Type := {
  gettoken : P L (Z * span);
  peek : list Z -> P L bool
}.

Definition WORD : Z := 97.
Definition APPEND : Z := 43.

Section Parser.
Context {L : Type} `{Lexer L}.

(** The loop of parseredirs. *)
Fixpoint parseredirs (n : nat) (c : cmd span) : P L (cmd span) :=
  match n with
  | O => pfuel
  | S n' =>
      let! b := peek (bytes "<>") in
      if negb b then pret c
      else
        let! (tok, _) := gettoken in
        let! (tok2, f) := gettoken in
        if negb (tok2 =? WORD) then ppanic "missing file for redirection"
        else
          let c :=
            if tok =? 60 then redircmd c f O_RDONLY 0
            else if tok =? 62 then redircmd c f (Z.lor O_WRONLY O_CREATE) 1
            else if tok =? APPEND then redircmd c f (Z.lor O_WRONLY O_CREATE) 1
            else c in
          parseredirs n' c
  end.

(** [cmd->argv[argc] = q; cmd->eargv[argc] = eq] on the execcmd that the redirections
    made so far are wrapped around. *)
Fixpoint add_arg (w : span) (c : cmd span) : cmd span :=
  match c with
  | EXEC argv => EXEC (argv ++ [w])
  | REDIR c f mode fd => REDIR (add_arg w c) f mode fd
  | _ => c
  end.

(** The loop of parseexec. *)
Fixpoint parseargs (n argc : nat) (r : cmd span) : P L (cmd span) :=
  match n with
  | O => pfuel
  | S n' =>
      let! b := peek (bytes "|)&;") in
      if b then pret r
      else
        let! (tok, w) := gettoken in
        if tok =? 0 then pret r
        else if negb (tok =? WORD) then ppanic "syntax"
        else
          let r := add_arg w r in
          let argc := S argc in
          if (MAXARGS <=? argc)%nat then ppanic "too many args"
          else
            let! r := parseredirs n' r in
            parseargs n' argc r
  end.

(** The loop of parseline over the &. *)
Fixpoint parsebacks (n : nat) (c : cmd span) : P L (cmd span) :=
  match n with
  | O => pfuel
  | S n' =>
      let! b := peek (bytes "&") in
      if b then gettoken ;;! parsebacks n' (backcmd c) else pret c
  end.

(** parseblock, parseexec and parsepipe call parseline for the command in
    parentheses: [line]. *)
Definition parseblock (line : P L (cmd span)) (n : nat) : P L (cmd span) :=
  let! b := peek (bytes "(") in
  if negb b then ppanic "parseblock"
  else
    gettoken ;;!
    let! c := line in
    let! b := peek (bytes ")") in
    if negb b then ppanic "syntax - missing )"
    else
      gettoken ;;!
      parseredirs n c.

Definition parseexec (line : P L (cmd span)) (n : nat) : P L (cmd span) :=
  let! b := peek (bytes "(") in
  if b then parseblock line n
  else
    let! r := parseredirs n execcmd in
    parseargs n 0 r.

Fixpoint parsepipe (line : P L (cmd span)) (n : nat) : P L (cmd span) :=
  match n with
  | O => pfuel
  | S n' =>
      let! c := parseexec line n' in
      let! b := peek (bytes "|") in
      if b then
        gettoken ;;!
        let! r := parsepipe line n' in
        pret (pipecmd c r)
      else pret c
  end.

Fixpoint parseline (n : nat) : P L (cmd span) :=
  match n with
  | O => pfuel
  | S n' =>
      let! c := parsepipe (parseline n') n' in
      let! c := parsebacks n' c in
      let! b := peek (bytes ";") in
      if b then
        gettoken ;;!
        let! r := parseline n' in
        pret (listcmd c r)
      else pret c
  end.
End Parser.

(** * The lexer of the shell *)

(** 32, \t, \r, \n, \v. *)
Definition whitespace : list Z := [32; 9; 13; 10; 11].
Definition symbols : list Z := bytes "<|>&;()".

(** [strchr(s, c)] for a constant string [s]. *)
Definition has (s : list Z) (c : Z) : bool := existsb (Z.eqb c) s.

Section Line.
(** The memory, and the end of the line. *)
Variables (m : mem) (es : Z).

(** [while(s < es && strchr(whitespace, *s)) s++]; [n] is [es - s]. *)
Fixpoint skip_from (n : nat) (s : Z) : Z :=
  match n with
  | O => s
  | S n' => if has whitespace (ld m s) then skip_from n' (s + 1) else s
  end.
Definition skip (s : Z) : Z := skip_from (Z.to_nat (es - s)) s.

(** The same for the characters of a word. *)
Fixpoint word_from (n : nat) (s : Z) : Z :=
  match n with
  | O => s
  | S n' =>
      if negb (has whitespace (ld m s)) && negb (has symbols (ld m s)) then word_from n' (s + 1) else s
  end.
Definition word (s : Z) : Z := word_from (Z.to_nat (es - s)) s.

Definition line_gettoken : P Z (Z * span) := fun ps =>
  let s := skip ps in
  let q := s in
  let c := ld m s in
  let '(r, s) :=
    if c =? 0 then (c, s)
    else if has (bytes "|();&<") c then (c, s + 1)
    else if c =? 62 then
      let s := s + 1 in
      if ld m s =? 62 then (APPEND, s + 1) else (c, s)
    else (WORD, word s) in
  POk (r, (q, s)) (skip s).

Definition line_peek (toks : list Z) : P Z bool := fun ps =>
  let s := skip ps in
  POk (negb (ld m s =? 0) && has toks (ld m s)) s.

Definition line_lexer : Lexer Z := {| gettoken := line_gettoken; peek := line_peek |}.
End Line.

(** * The whole command *)

(** Storing the NUL at the end of each string of the command. *)
Fixpoint nulterminate (c : cmd span) (m : mem) : mem :=
  match c with
  | EXEC argv => foldl (fun m w => st m w.2 0) m argv
  | REDIR c f _ _ => st (nulterminate c m) f.2 0
  | PIPE l r => nulterminate r (nulterminate l m)
  | LIST l r => nulterminate r (nulterminate l m)
  | BACK c => nulterminate c m
  end.

(** parsecmd(s): the command and the memory with its strings terminated.  What it
    prints about the leftovers before the panic is left out: a parser's result
    has no output. *)
Definition parsecmd (n : nat) (m : mem) (s : Z) : parsed mem (cmd span) :=
  match Ulib.strlen n m s with
  | None => PFuel
  | Some len =>
      let es := s + len in
      match @parseline Z (line_lexer m es) n s with
      | POk c s =>
          match line_peek m es [] s with
          | POk _ s => if negb (s =? es) then PPanic "syntax" else POk c (nulterminate c m)
          | PPanic msg => PPanic msg
          | PFuel => PFuel
          end
      | PPanic msg => PPanic msg
      | PFuel => PFuel
      end
  end.
