(* ===== verification/ShLex.v ===== *)
(** The lexer of sh.c: every line has one list of tokens, and the parser behaves on
    the line as it does on the list. *)
From S2P Require Import Prelude Mem Mmu Cstring Digits Ulib Sh.

(** * The parser and two lexers *)

Definition prel {L1 L2 A} (R : L1 -> L2 -> Prop) (x : parsed L1 A) (y : parsed L2 A) : Prop :=
  match x, y with
  | POk a l1, POk b l2 => a = b /\ R l1 l2
  | PPanic m1, PPanic m2 => m1 = m2
  | PFuel, PFuel => True
  | _, _ => False
  end.

Definition sim {L1 L2 A} (R : L1 -> L2 -> Prop) (p1 : P L1 A) (p2 : P L2 A) : Prop :=
  forall l1 l2, R l1 l2 -> prel R (p1 l1) (p2 l2).

Lemma sim_ret {L1 L2 A} (R : L1 -> L2 -> Prop) (a : A) : sim R (pret a) (pret a).
Proof. now intros l1 l2. Qed.

Lemma sim_panic {L1 L2 A} (R : L1 -> L2 -> Prop) msg : sim (A:=A) R (ppanic msg) (ppanic msg).
Proof. now intros l1 l2. Qed.

Lemma sim_fuel {L1 L2 A} (R : L1 -> L2 -> Prop) : sim (A:=A) R pfuel pfuel.
Proof. now intros l1 l2. Qed.

Lemma sim_bind {L1 L2 A B} (R : L1 -> L2 -> Prop) (p1 : P L1 A) (p2 : P L2 A) (f1 : A -> P L1 B) (f2 : A -> P L2 B) :
  sim R p1 p2 -> (forall a, sim R (f1 a) (f2 a)) -> sim R (pbind p1 f1) (pbind p2 f2).
Proof.
  intros Hp Hf l1 l2 Hl. specialize (Hp l1 l2 Hl). unfold pbind.
  destruct (p1 l1), (p2 l2); try done. destruct Hp as [-> Hl']. now apply Hf.
Qed.

Create HintDb sim.
#[export] Hint Resolve sim_ret sim_panic sim_fuel sim_bind : sim.

(** The lists of characters the parser peeks for. *)
Definition peeked (toks : list Z) : Prop := Forall (fun c => has symbols c = true) toks.

(** Two lexers that the parser cannot tell apart. *)
Class LexSim {L1 L2} (X1 : Lexer L1) (X2 : Lexer L2) (R : L1 -> L2 -> Prop) : Prop := {
  sim_gettoken : sim R (@gettoken L1 X1) (@gettoken L2 X2);
  sim_peek toks : peeked toks -> sim R (@peek L1 X1 toks) (@peek L2 X2 toks)
}.

Section Sim.
Context {L1 L2 : Type} {X1 : Lexer L1} {X2 : Lexer L2} {R : L1 -> L2 -> Prop} {HX : LexSim X1 X2 R}.

Ltac sim_step :=
  first [apply sim_ret | apply sim_panic | apply sim_fuel
        | apply sim_bind; [first [apply sim_gettoken | apply sim_peek; repeat constructor | solve [eauto with sim]]|]].

Lemma sim_parseredirs n c : sim R (@parseredirs L1 X1 n c) (@parseredirs L2 X2 n c).
Proof.
  revert c. induction n as [|n IH]; intros c; cbn [parseredirs]; [apply sim_fuel|].
  sim_step. intros [|]; cbn [negb]; [|apply sim_ret].
  sim_step. intros [tok ?].
  sim_step. intros [tok2 f].
  case_match; [apply sim_panic|apply IH].
Qed.

Lemma sim_parseargs n argc c : sim R (@parseargs L1 X1 n argc c) (@parseargs L2 X2 n argc c).
Proof.
  revert argc c. induction n as [|n IH]; intros argc c; cbn [parseargs]; [apply sim_fuel|].
  sim_step. intros [|]; [apply sim_ret|].
  sim_step. intros [tok w].
  case_match; [apply sim_ret|]. case_match; [apply sim_panic|]. cbv zeta. case_match; [apply sim_panic|].
  apply sim_bind; [apply sim_parseredirs|]. intros r. apply IH.
Qed.

Lemma sim_parsebacks n c : sim R (@parsebacks L1 X1 n c) (@parsebacks L2 X2 n c).
Proof.
  revert c. induction n as [|n IH]; intros c; cbn [parsebacks]; [apply sim_fuel|].
  sim_step. intros [|]; [|apply sim_ret].
  sim_step. intros _. apply IH.
Qed.

Section Line.
Context {line1 : P L1 (cmd span)} {line2 : P L2 (cmd span)} (Hline : sim R line1 line2).

Lemma sim_parseblock n : sim R (@parseblock L1 X1 line1 n) (@parseblock L2 X2 line2 n).
Proof.
  unfold parseblock. sim_step. intros [|]; cbn [negb]; [|apply sim_panic]. sim_step. intros _.
  apply sim_bind; [done|]. intros c. sim_step. intros [|]; cbn [negb]; [|apply sim_panic]. sim_step. intros _.
  apply sim_parseredirs.
Qed.

Lemma sim_parseexec n : sim R (@parseexec L1 X1 line1 n) (@parseexec L2 X2 line2 n).
Proof.
  unfold parseexec. sim_step. intros [|]; [apply sim_parseblock|].
  apply sim_bind; [apply sim_parseredirs|]. intros r. apply sim_parseargs.
Qed.

Lemma sim_parsepipe n : sim R (@parsepipe L1 X1 line1 n) (@parsepipe L2 X2 line2 n).
Proof.
  induction n as [|n IH]; cbn [parsepipe]; [apply sim_fuel|]. apply sim_bind; [apply sim_parseexec|]. intros c.
  sim_step. intros [|]; [|apply sim_ret]. sim_step. eauto with sim.
Qed.
End Line.

Lemma sim_parseline n : sim R (@parseline L1 X1 n) (@parseline L2 X2 n).
Proof.
  induction n as [|n IH]; cbn [parseline]; [apply sim_fuel|]. apply sim_bind; [now apply sim_parsepipe|]. intros c.
  apply sim_bind; [apply sim_parsebacks|]. intros c'. sim_step. intros [|]; [|apply sim_ret]. sim_step. eauto with sim.
Qed.
End Sim.

(** * A list of tokens as a lexer *)

(** The kind of a token and its span. *)
Definition tok : Type := Z * span.

(** The character that a token starts with, for the tokens that are not words. *)
Definition first_char (k : Z) : Z := if k =? APPEND then 62 else k.

(** [e] is the end of the line. *)
Definition toks_lexer (e : Z) : Lexer (list tok) := {|
  gettoken := fun ts => match ts with [] => POk (0, (e, e)) [] | t :: ts' => POk t ts' end;
  peek := fun toks ts => POk (match ts with [] => false | t :: _ => has toks (first_char t.1) end) ts
|}.

(** * The line in memory *)

(** A character of a word. *)
Definition plain (c : Z) : bool := negb (c =? 0) && negb (has whitespace c) && negb (has symbols c).

(** What gettoken gives. *)
Definition kinds : list Z := bytes "|();&<>" ++ [APPEND].

Section Line.
(** A line from [s0] to [es], with no NUL in it but the one at its end. *)
Variables (m : mem) (s0 es : Z).
Hypothesis line_text : forall x, s0 <= x < es -> ld m x <> 0.
Hypothesis line_end : ld m es = 0.

Lemma skip_from_spec n s :
  s <= skip_from m n s <= s + Z.of_nat n /\ (forall x, s <= x < skip_from m n s -> has whitespace (ld m x) = true) /\
  (skip_from m n s < s + Z.of_nat n -> has whitespace (ld m (skip_from m n s)) = false).
Proof.
  revert s. induction n as [|n IH]; intros s; cbn [skip_from]; [split_and!; [lia..|lia]|].
  destruct (has whitespace (ld m s)) eqn:E; [|split_and!; [lia|lia|intros x ?; lia|done]].
  destruct (IH (s + 1)) as ([H1 H2] & H3 & H4). split_and!; [lia|lia| |intros; apply H4; lia].
  intros x Hx. destruct (decide (x = s)) as [->|]; [done|]. apply H3. lia.
Qed.

Lemma skip_spec s : s <= es ->
  s <= skip m es s <= es /\ (forall x, s <= x < skip m es s -> has whitespace (ld m x) = true) /\
  (skip m es s < es -> has whitespace (ld m (skip m es s)) = false).
Proof.
  intros Hs. unfold skip. destruct (skip_from_spec (Z.to_nat (es - s)) s) as (H1 & H2 & H3).
  split_and!; [lia|lia|done|intros; apply H3; lia].
Qed.

(** Where the white space ends. *)
Lemma skip_eq s t : s <= t <= es -> (forall x, s <= x < t -> has whitespace (ld m x) = true) ->
  (t < es -> has whitespace (ld m t) = false) -> skip m es s = t.
Proof.
  intros Hst Hws Ht. destruct (skip_spec s) as (H1 & H2 & H3); [lia|].
  destruct (Z.lt_trichotomy (skip m es s) t) as [Hlt|[?|Hgt]]; [|done|].
  - specialize (Hws (skip m es s)). rewrite H3 in Hws by lia. discriminate Hws. lia.
  - specialize (H2 t). rewrite Ht in H2 by lia. discriminate H2. lia.
Qed.

Lemma skip_idem s : s <= es -> skip m es (skip m es s) = skip m es s.
Proof. intros Hs. destruct (skip_spec s Hs) as (H1 & H2 & H3). apply skip_eq; [lia|intros; lia|done]. Qed.

Lemma skip_ws s : s < es -> has whitespace (ld m s) = true -> skip m es s = skip m es (s + 1).
Proof.
  intros Hs Hw. destruct (skip_spec (s + 1)) as (H1 & H2 & H3); [lia|]. apply skip_eq; [lia| |done].
  intros x Hx. destruct (decide (x = s)) as [->|]; [done|]. apply H2. lia.
Qed.

Lemma skip_at s : s <= es -> (s < es -> has whitespace (ld m s) = false) -> skip m es s = s.
Proof. intros Hs Hw. apply skip_eq; [lia|intros; lia|done]. Qed.

(** A word: plain characters, up to one that is not. *)
Definition word_ok (w : span) : Prop :=
  s0 <= w.1 < w.2 /\ w.2 <= es /\ (forall x, w.1 <= x < w.2 -> plain (ld m x) = true) /\ plain (ld m w.2) = false.

Lemma word_from_spec n s :
  s0 <= s -> s + Z.of_nat n <= es ->
  s <= word_from m n s <= s + Z.of_nat n /\ (forall x, s <= x < word_from m n s -> plain (ld m x) = true) /\
  (word_from m n s < s + Z.of_nat n -> plain (ld m (word_from m n s)) = false).
Proof.
  revert s. induction n as [|n IH]; intros s Hs He; cbn [word_from]; [split_and!; [lia..|lia]|].
  assert (Hp : plain (ld m s) = negb (has whitespace (ld m s)) && negb (has symbols (ld m s))).
  { unfold plain. rewrite (proj2 (Z.eqb_neq _ 0)); [done|]. apply line_text. lia. }
  rewrite <- Hp. destruct (plain (ld m s)) eqn:E; [|split_and!; [lia|lia|intros x ?; lia|done]].
  destruct (IH (s + 1)) as ([H1 H2] & H3 & H4); [lia|lia|]. split_and!; [lia|lia| |intros; apply H4; lia].
  intros x Hx. destruct (decide (x = s)) as [->|]; [done|]. apply H3. lia.
Qed.

Lemma plain_end : plain (ld m es) = false.
Proof. now rewrite line_end. Qed.

Lemma word_spec s : s0 <= s < es -> plain (ld m s) = true -> word_ok (s, word m es s).
Proof.
  intros Hs Hp. unfold word. destruct (word_from_spec (Z.to_nat (es - s)) s) as (H1 & H2 & H3); [lia|lia|].
  assert (Hend : plain (ld m (word_from m (Z.to_nat (es - s)) s)) = false).
  { destruct (Z.lt_ge_cases (word_from m (Z.to_nat (es - s)) s) es); [apply H3; lia|].
    replace (word_from _ _ _) with es by lia. apply plain_end. }
  assert (word_from m (Z.to_nat (es - s)) s <> s) by (intros E; congruence).
  unfold word_ok. cbn [fst snd]. split_and!; [lia..|done|done].
Qed.

(** Where a word ends. *)
Lemma word_eq s t : word_ok (s, t) -> word m es s = t.
Proof.
  intros ([H1 H2] & H3 & H4 & H5). cbn [fst snd] in *.
  destruct (word_spec s) as (_ & G3 & G4 & G5); [lia|apply H4; lia|]. cbn [fst snd] in *.
  destruct (Z.lt_trichotomy (word m es s) t) as [Hlt|[?|Hgt]]; [|done|].
  - pose proof (word_spec s ltac:(lia) (H4 s ltac:(lia))) as ([? ?] & _). cbn in *. rewrite H4 in G5 by lia. done.
  - rewrite G4 in H5 by lia. done.
Qed.

(** The token [t] is at [s]. *)
Definition token_at (s : Z) (t : tok) : Prop :=
  t.2.1 = s /\ s < t.2.2 <= es /\ ((t.1 = WORD /\ word_ok t.2) \/ (t.1 ∈ kinds /\ first_char t.1 = ld m s)).

Lemma has_elem l c : has l c = true <-> c ∈ l.
Proof.
  unfold has. rewrite existsb_exists. split; [intros (x & Hx & ->%Z.eqb_eq); now apply list_elem_of_In|].
  intros Hc%list_elem_of_In. exists c. split; [done|apply Z.eqb_refl].
Qed.

Lemma has_elem' l c : has l c = true -> In c l.
Proof. rewrite has_elem. apply list_elem_of_In. Qed.

Lemma single_kind c : has (bytes "|();&<") c = true -> c ∈ kinds /\ first_char c = c.
Proof.
  intros [<-|[<-|[<-|[<-|[<-|[<-|[]]]]]]]%has_elem'; try (split; [now apply has_elem|done]).
Qed.

Lemma symbol_cases c : has symbols c = true -> has (bytes "|();&<") c = true \/ c = 62.
Proof. intros [<-|[<-|[<-|[<-|[<-|[<-|[<-|[]]]]]]]]%has_elem'; try (now left); try (now right). Qed.

Lemma gettoken_spec p :
  s0 <= p <= es -> skip m es p < es ->
  exists t, line_gettoken m es p = POk t (skip m es t.2.2) /\ token_at (skip m es p) t.
Proof.
  intros Hp Hs. destruct (skip_spec p) as (H1 & _ & Hws); [lia|]. specialize (Hws Hs). unfold line_gettoken.
  set (s := skip m es p) in *. clearbody s. pose proof (line_text s ltac:(lia)) as Hnz.
  rewrite (proj2 (Z.eqb_neq _ 0)) by done. destruct (has (bytes "|();&<") (ld m s)) eqn:Hsym.
  { exists (ld m s, (s, s + 1)). split; [done|]. split_and!; [done|cbn; lia|cbn; lia|right]. cbn [fst snd].
    now apply single_kind. }
  destruct (Z.eqb_spec (ld m s) 62) as [Hgt|Hgt].
  - destruct (Z.eqb_spec (ld m (s + 1)) 62) as [E|E].
    + exists (APPEND, (s, s + 1 + 1)). split; [done|]. assert (s + 1 <> es) by (intros E'; rewrite E', line_end in E; lia).
      split_and!; [done|cbn; lia|cbn; lia|right]. cbn [fst]. split; [apply has_elem; done|]. now rewrite Hgt.
    + exists (ld m s, (s, s + 1)). split; [done|]. split_and!; [done|cbn; lia|cbn; lia|right]. cbn [fst]. rewrite Hgt.
      split; [apply has_elem; done|done].
  - exists (WORD, (s, word m es s)). split; [done|]. assert (Hp' : plain (ld m s) = true).
    { unfold plain. rewrite Hws, (proj2 (Z.eqb_neq _ 0)) by done. destruct (has symbols (ld m s)) eqn:E; [|done].
      destruct (symbol_cases _ E); congruence. }
    pose proof (word_spec s ltac:(lia) Hp') as Hw. pose proof Hw as (? & ? & _). cbn [fst snd] in *.
    split_and!; [done|cbn; lia|cbn; lia|now left].
Qed.

(** ** The tokens of the line *)

Inductive lexes : Z -> list tok -> Prop :=
| lexes_end p : skip m es p = es -> lexes p []
| lexes_tok p t ts :
    skip m es p < es -> line_gettoken m es p = POk t (skip m es t.2.2) -> token_at (skip m es p) t ->
    lexes t.2.2 ts -> lexes p (t :: ts).

Lemma lexes_skip p q ts : skip m es p = skip m es q -> lexes p ts -> lexes q ts.
Proof.
  intros E H. destruct H as [p Hs|p t ts Hs Hg Ht Hts]; [constructor; congruence|].
  apply lexes_tok; [congruence| |congruence|done]. rewrite <- Hg. unfold line_gettoken. now rewrite E.
Qed.

(** Every line has tokens, no more than it has characters. *)
Lemma lexes_total n p : s0 <= p <= es -> es - p <= Z.of_nat n -> exists ts, lexes p ts /\ (Z.of_nat (length ts) <= es - p).
Proof.
  revert p. induction n as [|n IH]; intros p Hp Hn.
  - exists []. split; [|cbn; lia]. constructor. destruct (skip_spec p) as (? & _); lia.
  - destruct (skip_spec p) as (H1 & _); [lia|]. destruct (Z.lt_ge_cases (skip m es p) es) as [Hs|Hs].
    2:{ exists []. split; [constructor; lia|cbn; lia]. }
    destruct (gettoken_spec p Hp Hs) as (t & Hg & Ht). pose proof Ht as (_ & Hb & _).
    destruct (IH t.2.2) as (ts & Hts & Hlen); [destruct t as [k [a b]]; cbn in *; lia..|].
    exists (t :: ts). split; [now constructor|]. destruct t as [k [a b]]. cbn in *. lia.
Qed.

(** Only one list. *)
Lemma lexes_det p ts ts' : lexes p ts -> lexes p ts' -> ts = ts'.
Proof.
  intros H. revert ts'. induction H as [p Hs|p t ts Hs Hg Ht _ IH]; intros ts' H'; inversion H' as [|? t' ? ? Hg']; subst; [done|lia|lia|].
  assert (t' = t) as -> by congruence. f_equal. now apply IH.
Qed.

Lemma lexes_words p ts : lexes p ts -> Forall (fun t => t.1 = WORD -> word_ok t.2) ts.
Proof.
  induction 1 as [|p t ts _ _ (_ & _ & [[_ Hw]|[Hk _]]) _ IH]; constructor; [done|done| |done].
  intros E. rewrite E in Hk. apply has_elem in Hk. discriminate Hk.
Qed.

(** The parser on the line and on its tokens. *)
Definition line_rel (p : Z) (ts : list tok) : Prop := s0 <= p <= es /\ lexes p ts.

#[global] Instance line_sim : LexSim (line_lexer m es) (toks_lexer es) line_rel.
Proof.
  split.
  - intros p ts [Hp H]. destruct H as [p Hs|p t ts Hs Hg Ht Hts]; cbn [gettoken line_lexer toks_lexer].
    + unfold line_gettoken. rewrite Hs, line_end. cbn. rewrite skip_at by lia. repeat split; [lia|lia|].
      constructor. apply skip_at; lia.
    + rewrite Hg. destruct t as [k [a b]]. pose proof Ht as (_ & Hb & _). cbn [fst snd] in *. destruct (skip_spec p) as (Hsp & _); [lia|].
      destruct (skip_spec b) as (Hsk & _); [lia|]. repeat split; [lia|lia|].
      eapply lexes_skip; [|exact Hts]. symmetry. apply skip_idem. lia.
  - intros toks Htoks p ts [Hp H]. cbn [peek line_lexer toks_lexer]. unfold line_peek.
    destruct (skip_spec p) as (Hsp & _); [lia|].
    assert (Hr : line_rel (skip m es p) ts).
    { split; [lia|]. eapply lexes_skip; [|exact H]. symmetry. apply skip_idem. lia. }
    split; [|exact Hr]. destruct H as [p Hs|p t ts Hs Hg (Ha & _ & [[Hk Hw]|[Hk Hf]]) Hts].
    + now rewrite Hs, line_end.
    + assert (Hno : forall c, has symbols c = false -> has toks c = false).
      { intros c Hc. destruct (has toks c) eqn:E; [|done]. apply has_elem in E. unfold peeked in Htoks.
        rewrite Forall_forall in Htoks. rewrite Htoks in Hc by done. done. }
      rewrite Hk, (Hno (first_char WORD)) by done. rewrite (Hno (ld m (skip m es p))); [apply andb_false_r|].
      destruct Hw as (Hq & _ & Hpl & _). rewrite Ha in *. specialize (Hpl (skip m es p) ltac:(lia)).
      unfold plain in Hpl. destruct (has symbols _); [|done]. now rewrite andb_false_r in Hpl.
    + rewrite Hf. rewrite (proj2 (Z.eqb_neq _ 0)); [done|]. apply line_text. lia.
Qed.

Lemma parseline_tokens n p ts :
  line_rel p ts -> prel line_rel (@parseline Z (line_lexer m es) n p) (@parseline _ (toks_lexer es) n ts).
Proof. apply sim_parseline. Qed.
End Line.

(** * Text *)

(** The tokens that a text spells: a symbol, or a word. *)
Inductive stok (W : Type) : Type :=
| TSym (k : Z)
| TWord (w : W).
Arguments TSym {W} k.
Arguments TWord {W} w.

(** The text [l] spells the tokens [ts], with white space anywhere between them;
    between two words there is some, since a word ends before a character that is
    not plain. *)
Inductive spells : list (stok (list Z)) -> list Z -> Prop :=
| spells_nil : spells [] []
| spells_ws c ts l : has whitespace c = true -> spells ts l -> spells ts (c :: l)
| spells_sym c ts l : has (bytes "|();&<") c = true -> spells ts l -> spells (TSym c :: ts) (c :: l)
| spells_gt ts l : hd 0 l <> 62 -> spells ts l -> spells (TSym 62 :: ts) (62 :: l)
| spells_append ts l : spells ts l -> spells (TSym APPEND :: ts) (62 :: 62 :: l)
| spells_word w ts l :
    w <> [] -> Forall (fun c => plain c = true) w -> plain (hd 0 l) = false -> spells ts l ->
    spells (TWord w :: ts) (w ++ l).

(** A token of the line is the token of the text. *)
Definition tok_reads (m : mem) (t : stok (list Z)) (u : tok) : Prop :=
  match t with
  | TSym k => u.1 = k /\ k <> WORD
  | TWord w => u.1 = WORD /\ u.2.2 = u.2.1 + Z.of_nat (length w) /\ lds m u.2.1 (length w) = w
  end.

Lemma spells_nonzero ts l : spells ts l -> Forall (fun c => c <> 0) l.
Proof.
  induction 1 as [|c ts l Hc _ IH|c ts l Hc _ IH| | |w ts l _ Hw _ _ IH]; repeat constructor; try done.
  - intros ->. discriminate Hc.
  - intros ->. discriminate Hc.
  - apply Forall_app. split; [|done]. eapply Forall_impl; [exact Hw|]. intros c Hc ->. discriminate Hc.
Qed.

Section Spell.
Variables (m : mem) (s0 es : Z).
Hypothesis line_text : forall x, s0 <= x < es -> ld m x <> 0.
Hypothesis line_end : ld m es = 0.

(** The rest of the line is [l]. *)
Definition text_at (p : Z) (l : list Z) : Prop := s0 <= p /\ es = p + Z.of_nat (length l) /\ lds m p (length l) = l.

Lemma text_cons p c l : text_at p (c :: l) -> ld m p = c /\ text_at (p + 1) l /\ p < es.
Proof.
  intros (Hp & He & Hl). cbn [length lds] in *. unfold text_at. injection Hl as H1 H2. split_and!; [done|lia|lia|done|lia].
Qed.

Lemma text_app p l1 l2 : text_at p (l1 ++ l2) -> lds m p (length l1) = l1 /\ text_at (p + Z.of_nat (length l1)) l2.
Proof.
  intros (Hp & He & Hl). unfold text_at. rewrite length_app, lds_app in *. apply app_inj_1 in Hl as [H1 H2]; [|apply length_lds].
  split_and!; [done|lia|lia|done].
Qed.

Lemma text_hd p l : text_at p l -> ld m p = hd 0 l.
Proof.
  intros H. destruct l as [|c l]; [|now apply text_cons in H]. destruct H as (_ & He & _). cbn in *.
  now replace p with es by lia.
Qed.

Lemma lexes_here p t us :
  s0 <= p < es -> has whitespace (ld m p) = false -> line_gettoken m es p = POk t (skip m es t.2.2) ->
  token_at m s0 es p t -> lexes m s0 es t.2.2 us -> lexes m s0 es p (t :: us).
Proof.
  intros Hp Hw Hg Ht Hus. assert (Hsk : skip m es p = p) by (apply skip_at; [lia|done]).
  apply lexes_tok; rewrite ?Hsk; [lia|done..].
Qed.

Lemma single_token p c : ld m p = c -> has (bytes "|();&<") c = true ->
  has whitespace c = false /\ c <> WORD /\ (p < es -> line_gettoken m es p = POk (c, (p, p + 1)) (skip m es (p + 1))).
Proof.
  intros Hp Hc. assert (H : has whitespace c = false /\ c <> WORD /\ c <> 0).
  { apply has_elem' in Hc. now destruct Hc as [<-|[<-|[<-|[<-|[<-|[<-|[]]]]]]]. }
  destruct H as (Hw & Hne & Hz). split_and!; [done|done|]. intros Hlt. unfold line_gettoken.
  rewrite skip_at by (rewrite ?Hp; lia || done). now rewrite Hp, Hc, (proj2 (Z.eqb_neq _ 0)).
Qed.

Lemma gt_token p : ld m p = 62 -> p < es ->
  line_gettoken m es p =
  if ld m (p + 1) =? 62 then POk (APPEND, (p, p + 2)) (skip m es (p + 2)) else POk (62, (p, p + 1)) (skip m es (p + 1)).
Proof.
  intros Hp Hlt. unfold line_gettoken. rewrite skip_at by (rewrite ?Hp; lia || done). rewrite Hp. cbn.
  rewrite <- Z.add_assoc. now destruct (_ =? _).
Qed.

Lemma word_token p t : word_ok m s0 es (p, t) -> line_gettoken m es p = POk (WORD, (p, t)) (skip m es t).
Proof.
  intros Hw. pose proof (word_eq m s0 es line_text line_end p t Hw) as He. destruct Hw as (Hp & Ht & Hpl & _). cbn [fst snd] in *.
  specialize (Hpl p ltac:(lia)). unfold plain in Hpl. apply andb_true_iff in Hpl as [[Hz Hws]%andb_true_iff Hsy].
  apply negb_true_iff in Hz, Hws, Hsy. unfold line_gettoken. rewrite skip_at by (lia || done). rewrite Hz, He.
  destruct (has (bytes "|();&<") (ld m p)) eqn:E.
  { apply has_elem' in E. now destruct E as [E|[E|[E|[E|[E|[E|[]]]]]]]; rewrite <- E in Hsy. }
  destruct (Z.eqb_spec (ld m p) 62) as [E2|]; [|done]. now rewrite E2 in Hsy.
Qed.

(** The tokens of a text are those of the line. *)
Lemma spells_lexes ts l p :
  spells ts l -> text_at p l -> exists us, lexes m s0 es p us /\ Forall2 (tok_reads m) ts us.
Proof.
  intros H. revert p. induction H as [|c ts l Hc _ IH|c ts l Hc _ IH|ts l Hh _ IH|ts l _ IH|w ts l Hw Hpl Hl _ IH]; intros p Ht.
  - exists []. split; [|constructor]. constructor. destruct Ht as (_ & He & _). cbn in He. rewrite skip_at; lia.
  - apply text_cons in Ht as (Hp & Ht & Hlt). destruct (IH _ Ht) as (us & Hus & Hr). exists us. split; [|done].
    eapply lexes_skip; [|exact Hus]. symmetry. apply skip_ws; [lia|]. now rewrite Hp.
  - pose proof Ht as (Hs0 & _). apply text_cons in Ht as (Hp & Ht & Hlt). destruct (IH _ Ht) as (us & Hus & Hr).
    destruct (single_token p c Hp Hc) as (Hws & Hne & Hg). exists ((c, (p, p + 1)) :: us). split; [|now constructor].
    apply lexes_here; [lia|now rewrite Hp|now apply Hg| |done].
    split_and!; [done|cbn; lia|cbn; lia|right]. cbn [fst]. rewrite Hp. now apply single_kind.
  - pose proof Ht as (Hs0 & _). apply text_cons in Ht as (Hp & Ht & Hlt). destruct (IH _ Ht) as (us & Hus & Hr).
    exists ((62, (p, p + 1)) :: us). split; [|now constructor].
    apply lexes_here; [lia|now rewrite Hp| | |done].
    + rewrite gt_token by done. rewrite (text_hd _ _ Ht). now rewrite (proj2 (Z.eqb_neq _ _)).
    + split_and!; [done|cbn; lia|cbn; lia|right]. cbn [fst]. rewrite Hp. split; [now apply has_elem|done].
  - pose proof Ht as (Hs0 & _). apply text_cons in Ht as (Hp & Ht & Hlt). apply text_cons in Ht as (Hp1 & Ht & Hlt1).
    replace (p + 1 + 1) with (p + 2) in Ht by lia. destruct (IH _ Ht) as (us & Hus & Hr).
    exists ((APPEND, (p, p + 2)) :: us). split; [|now constructor].
    apply lexes_here; [lia|now rewrite Hp| | |done].
    + rewrite gt_token by done. now rewrite Hp1.
    + split_and!; [done|cbn; lia|cbn; lia|right]. cbn [fst]. rewrite Hp. split; [now apply has_elem|done].
  - destruct (text_app _ _ _ Ht) as [Hlw Ht']. destruct (IH _ Ht') as (us & Hus & Hr).
    assert (Hwo : word_ok m s0 es (p, p + Z.of_nat (length w))).
    { destruct Ht as (Hs0 & He & _). rewrite length_app in He. destruct w as [|c w]; [done|]. cbn [length] in *.
      split_and!; cbn [fst snd]; [lia..| |].
      - intros x Hx. rewrite <- Hlw in Hpl. rewrite Forall_lookup in Hpl. apply (Hpl (Z.to_nat (x - p))).
        rewrite lds_lookup by lia. do 2 f_equal. lia.
      - now rewrite (text_hd _ _ Ht'). }
    exists ((WORD, (p, p + Z.of_nat (length w))) :: us). split; [|now repeat constructor].
    pose proof Hwo as (Hb & Hb' & Hpl' & _). cbn [fst snd] in *.
    assert (Hws : has whitespace (ld m p) = false).
    { specialize (Hpl' p ltac:(lia)). unfold plain in Hpl'. destruct (has whitespace (ld m p)); [|done].
      now rewrite andb_false_r in Hpl'. }
    apply lexes_here; [lia|done|now apply word_token| |done].
    split_and!; [done|cbn; lia|cbn; lia|now left].
Qed.
End Spell.
