(* ===== verification/ShProps.v ===== *)
(** The parser of sh.c: it ends on every line, it gives back the command whose text
    the line is, and the strings of the command are in the line. *)
From S2P Require Import Prelude Mem Mmu Cstring Digits Ulib Sh ShLex.

(** * The parser ends *)

(** The words of a command. *)
Fixpoint words {W} (c : cmd W) : list W :=
  match c with
  | EXEC argv => argv
  | REDIR c f _ _ => words c ++ [f]
  | PIPE l r | LIST l r => words l ++ words r
  | BACK c => words c
  end.

Section Ends.
Variable e : Z.
#[local] Instance toks_inst : Lexer (list tok) := toks_lexer e.

(** What holds of the words of the line holds of the words of the command. *)
Variable Q : span -> Prop.
Definition good_words (ts : list tok) : Prop := Forall (fun t => t.1 = WORD -> Q t.2) ts.
Definition good_cmd (c : cmd span) : Prop := Forall Q (words c).

(** Not out of steps, no more tokens left than before, and a good result. *)
Definition ends {A} (Φ : A -> Prop) (ts : list tok) (x : parsed (list tok) A) : Prop :=
  match x with
  | POk a ts' => (length ts' <= length ts)%nat /\ good_words ts' /\ Φ a
  | PPanic _ => True
  | PFuel => False
  end.

Lemma ends_bind {A B} (p : P (list tok) A) (f : A -> P (list tok) B) Φ Ψ ts :
  ends Φ ts (p ts) ->
  (forall a ts', (length ts' <= length ts)%nat -> good_words ts' -> Φ a -> ends Ψ ts (f a ts')) -> ends Ψ ts (pbind p f ts).
Proof. intros Hp Hf. unfold pbind. destruct (p ts) as [a ts'| |]; [|done|done]. destruct Hp as (? & ? & ?). now apply Hf. Qed.

Lemma ends_le {A} (Φ : A -> Prop) ts ts' x : ends Φ ts' x -> (length ts' <= length ts)%nat -> ends Φ ts x.
Proof. destruct x; cbn; [|done|done]. intros (? & ? & ?) ?. split_and!; [lia|done|done]. Qed.

Lemma ends_ret {A} (Φ : A -> Prop) a ts : good_words ts -> Φ a -> ends Φ ts (pret a ts).
Proof. intros Hts Ha. cbn. auto. Qed.

(** A token that was peeked at is there. *)
Lemma peek_cons {A} cs ts (f : bool -> P (list tok) A) (G : parsed (list tok) A -> Prop) :
  G (f false ts) -> (forall t ts', ts = t :: ts' -> G (f true ts)) -> G (pbind (peek cs) f ts).
Proof. intros Hf Ht. unfold pbind. cbn. destruct ts as [|t ts]; [done|]. destruct (has cs _); [now eapply Ht|done]. Qed.

Lemma gettoken_drop {A} t ts (f : Z * span -> P (list tok) A) : pbind gettoken f (t :: ts) = f t ts.
Proof. done. Qed.

Lemma good_add_arg w c : Q w -> good_cmd c -> good_cmd (add_arg w c).
Proof.
  unfold good_cmd. intros Hw. induction c; cbn; rewrite ?Forall_app; try done.
  - intros. split; [done|]. now constructor.
  - intros [? ?]. split; [auto|done].
Qed.

Lemma parseredirs_ends n c ts :
  good_words ts -> good_cmd c -> (length ts < n)%nat -> ends good_cmd ts (parseredirs n c ts).
Proof.
  revert c ts. induction n as [|n IH]; intros c ts Hts Hc Hn; [lia|]. cbn [parseredirs].
  apply peek_cons; [now apply ends_ret|]. intros t ts' ->. cbn [negb]. rewrite gettoken_drop. destruct t as [k w].
  destruct ts' as [|[k2 w2] ts']; [done|]. rewrite gettoken_drop.
  destruct (Z.eqb_spec k2 WORD) as [Hk|]; cbn [negb]; [|done].
  apply Forall_cons in Hts as [_ [Hw Hts]%Forall_cons]. cbn [length fst snd] in *.
  eapply ends_le; [apply IH; [done| |lia]|cbn; lia].
  assert (forall mode fd, good_cmd (redircmd c w2 mode fd)) by (intros; apply Forall_app; repeat constructor; [done|now apply Hw]).
  repeat case_match; done.
Qed.

Lemma parseargs_ends n argc c ts :
  good_words ts -> good_cmd c -> (length ts < n)%nat -> ends good_cmd ts (parseargs n argc c ts).
Proof.
  revert argc c ts. induction n as [|n IH]; intros argc c ts Hts Hc Hn; [lia|]. cbn [parseargs].
  apply peek_cons; [|intros; now apply ends_ret]. destruct ts as [|[k w] ts']; [now apply ends_ret|]. rewrite gettoken_drop.
  apply Forall_cons in Hts as [Hw Hts]. cbn [length fst snd] in *. cbv zeta.
  destruct (Z.eqb_spec k 0) as [|_]; [cbn; auto|]. destruct (Z.eqb_spec k WORD) as [Hk|]; cbn [negb]; [|done].
  case_match; [done|]. eapply ends_le; [eapply ends_bind|cbn; lia].
  - apply parseredirs_ends; [done|apply good_add_arg; [now apply Hw|done]|lia].
  - intros r ts'' Hl Hts' Hr. eapply ends_le; [now apply IH; [..|lia]|done].
Qed.

Lemma parsebacks_ends n c ts :
  good_words ts -> good_cmd c -> (length ts < n)%nat -> ends good_cmd ts (parsebacks n c ts).
Proof.
  revert c ts. induction n as [|n IH]; intros c ts Hts Hc Hn; [lia|]. cbn [parsebacks].
  apply peek_cons; [now apply ends_ret|]. intros t ts' ->. rewrite gettoken_drop. apply Forall_cons in Hts as [_ Hts].
  cbn [length] in *. eapply ends_le; [now apply IH; [..|lia]|cbn; lia].
Qed.

Lemma good_app c1 c2 : good_cmd c1 -> good_cmd c2 -> good_cmd (listcmd c1 c2) /\ good_cmd (pipecmd c1 c2).
Proof. intros H1 H2. split; now apply Forall_app. Qed.

(** The parser of the command in parentheses, where fewer than [k] tokens are left. *)
Definition line_ends (k : nat) (line : P (list tok) (cmd span)) : Prop :=
  forall ts, good_words ts -> (length ts < k)%nat -> ends good_cmd ts (line ts).

Lemma parseblock_ends line n ts :
  line_ends (length ts) line -> good_words ts -> (length ts < n)%nat -> ends good_cmd ts (parseblock line n ts).
Proof.
  intros Hline Hts Hn. unfold parseblock. apply peek_cons; [done|]. intros t ts1 ->. cbn [negb]. rewrite gettoken_drop.
  apply Forall_cons in Hts as [_ Ht1]. cbn [length] in *. eapply (ends_le _ _ ts1); [|cbn; lia].
  eapply ends_bind; [now apply Hline; [|lia]|]. intros c ts2 H2 Ht2 Hc. eapply ends_le; [|exact H2].
  apply peek_cons; [done|]. intros t' ts3 ->. cbn [negb]. rewrite gettoken_drop.
  apply Forall_cons in Ht2 as [_ Ht3]. cbn [length] in *.
  eapply (ends_le _ _ ts3); [now apply parseredirs_ends; [..|lia]|cbn; lia].
Qed.

Lemma parseexec_ends line n ts :
  line_ends (length ts) line -> good_words ts -> (length ts < n)%nat -> ends good_cmd ts (parseexec line n ts).
Proof.
  intros Hline Hts Hn. unfold parseexec. apply peek_cons; [|intros; now apply parseblock_ends].
  eapply ends_bind; [apply parseredirs_ends; [done|constructor|lia]|]. intros r ts1 H1 Ht1 Hr.
  eapply ends_le; [now apply parseargs_ends; [..|lia]|done].
Qed.

Lemma parsepipe_ends line n ts :
  line_ends (length ts) line -> good_words ts -> (S (length ts) < n)%nat -> ends good_cmd ts (parsepipe line n ts).
Proof.
  revert ts. induction n as [|n IH]; intros ts Hline Hts Hn; [lia|]. cbn [parsepipe].
  eapply ends_bind; [now apply parseexec_ends; [..|lia]|]. intros c ts1 H1 Ht1 Hc. eapply ends_le; [|exact H1].
  apply peek_cons; [now apply ends_ret|]. intros t ts3 ->. rewrite gettoken_drop.
  apply Forall_cons in Ht1 as [_ Ht3]. cbn [length] in *. eapply (ends_le _ _ ts3); [|cbn; lia].
  eapply ends_bind; [apply IH; [intros us Hus Hl; apply Hline; [done|lia]|done|lia]|].
  intros r ts4 H4 Ht4 Hr. cbn. split_and!; [done|done|now apply good_app].
Qed.

(** One step for each token is enough. *)
Lemma parseline_ends n ts : good_words ts -> (S (S (length ts)) < n)%nat -> ends good_cmd ts (parseline n ts).
Proof.
  revert ts. induction n as [|n IH]; intros ts Hts Hn; [lia|]. cbn [parseline].
  eapply ends_bind; [apply parsepipe_ends; [intros us Hus Hl; apply IH; [done|lia]|done|lia]|]. intros c ts1 H1 Ht1 Hc.
  eapply ends_le; [|exact H1]. eapply ends_bind; [now apply parsebacks_ends; [..|lia]|]. intros c' ts2 H2 Ht2 Hc'.
  eapply ends_le; [|exact H2]. apply peek_cons; [now apply ends_ret|]. intros t ts3 ->. rewrite gettoken_drop.
  apply Forall_cons in Ht2 as [_ Ht3]. cbn [length] in *. eapply (ends_le _ _ ts3); [|cbn; lia].
  eapply ends_bind; [apply IH; [done|lia]|]. intros r ts4 H4 Ht4 Hr. cbn. split_and!; [done|done|now apply good_app].
Qed.
End Ends.

(** * Text of a command *)

(** The redirections that the parser makes, and their symbols. *)
Definition redir_ok (mode fd : Z) : bool :=
  ((mode =? O_RDONLY) && (fd =? 0)) || ((mode =? Z.lor O_WRONLY O_CREATE) && (fd =? 1)).
Definition redir_sym (fd : Z) : Z := if fd =? 0 then 60 else 62.

(** The commands that can be written: fewer than MAXARGS words, and these
    redirections. *)
Fixpoint cmd_ok {W} (c : cmd W) : Prop :=
  match c with
  | EXEC argv => (length argv < MAXARGS)%nat
  | REDIR c _ mode fd => redir_ok mode fd = true /\ cmd_ok c
  | PIPE l r | LIST l r => cmd_ok l /\ cmd_ok r
  | BACK c => cmd_ok c
  end.

Definition paren {W} (b : bool) (l : list (stok W)) : list (stok W) := if b then TSym 40 :: l ++ [TSym 41] else l.

(** The tokens of a command at the level of parseexec (0), parsepipe (1), the &
    of parseline (2) and parseline (3). *)
Fixpoint print {W} (lvl : nat) (c : cmd W) : list (stok W) :=
  match c with
  | EXEC argv => TWord <$> argv
  | REDIR c f _ fd => print 0 c ++ [TSym (redir_sym fd); TWord f]
  | PIPE l r => paren (lvl <? 1)%nat (print 0 l ++ TSym 124 :: print 1 r)
  | BACK c => paren (lvl <? 2)%nat (print 2 c ++ [TSym 38])
  | LIST l r => paren (lvl <? 3)%nat (print 2 l ++ TSym 59 :: print 3 r)
  end.

(** * The parser reads it back *)

Definition is_tok (t : stok span) (u : tok) : Prop :=
  match t with TSym k => u.1 = k /\ k <> WORD | TWord w => u = (WORD, w) end.

Section Reads.
Variable e : Z.
#[local] Instance toks_inst' : Lexer (list tok) := toks_lexer e.

Lemma pbind_ok {A B} (p : P (list tok) A) (f : A -> P (list tok) B) l a l' : p l = POk a l' -> pbind p f l = f a l'.
Proof. intros E. unfold pbind. now rewrite E. Qed.

Definition starts (cs : list Z) (r : list tok) : bool :=
  match r with [] => false | t :: _ => has cs (first_char t.1) end.

Lemma peek_starts {A} cs r (f : bool -> P (list tok) A) : pbind (peek cs) f r = f (starts cs r) r.
Proof. done. Qed.

Lemma gettoken_cons {A} t r (f : Z * span -> P (list tok) A) : pbind gettoken f (t :: r) = f t r.
Proof. done. Qed.

(** What can follow a simple command. *)
Definition stops (r : list tok) : Prop := r = [] \/ starts (bytes "|)&;") r = true.

Lemma stops_not r cs : stops r -> Forall (fun c => has (bytes "|)&;") c = false) cs -> starts cs r = false.
Proof.
  intros [->|Hr] Hcs; [done|]. destruct r as [|t r]; [done|]. cbn in Hr |- *. destruct (has cs _) eqn:E; [|done].
  apply has_elem in E. rewrite Forall_forall in Hcs. specialize (Hcs _ E). cbn in Hcs. congruence.
Qed.

Lemma stops_redirs r : stops r -> starts (bytes "<>") r = false.
Proof. intros H. now apply (stops_not r _ H); repeat constructor. Qed.

(** ** Redirections *)

(** Redirections around a command, the first one innermost. *)
Definition redir : Type := span * Z * Z.
Fixpoint wrap (rs : list redir) (c : cmd span) : cmd span :=
  match rs with [] => c | (f, mode, fd) :: rs' => wrap rs' (REDIR c f mode fd) end.
Definition redir_toks (rs : list redir) : list (stok span) :=
  rs ≫= fun x => [TSym (redir_sym x.2); TWord x.1.1].
Definition redirs_ok (rs : list redir) : Prop := Forall (fun x => redir_ok x.1.2 x.2 = true) rs.

Lemma parseredirs_reads rs n c us r :
  Forall2 is_tok (redir_toks rs) us -> redirs_ok rs -> starts (bytes "<>") r = false -> (length us < n)%nat ->
  parseredirs n c (us ++ r) = POk (wrap rs c) r.
Proof.
  revert n c us. induction rs as [|[[f mode] fd] rs IH]; intros n c us Hus Hrs Hr Hn; (destruct n as [|n]; [lia|]).
  - apply Forall2_nil_inv_l in Hus as ->. cbn [app parseredirs wrap]. now rewrite peek_starts, Hr.
  - cbn in Hus. apply Forall2_cons_inv_l in Hus as ([k1 w1] & us1 & [Hk _] & Hus & ->).
    apply Forall2_cons_inv_l in Hus as (u2 & us2 & -> & Hus & ->). apply Forall_cons in Hrs as [Hok Hrs].
    cbn [fst snd] in *. cbn [app length] in *. cbn [parseredirs]. rewrite peek_starts.
    assert (Hfd : (fd = 0 /\ mode = O_RDONLY) \/ (fd = 1 /\ mode = Z.lor O_WRONLY O_CREATE)).
    { unfold redir_ok in Hok. rewrite orb_true_iff, !andb_true_iff, !Z.eqb_eq in Hok. tauto. }
    destruct Hfd as [[-> ->]|[-> ->]]; cbn in Hk; subst k1;
      exact (IH n (REDIR c f _ _) us2 Hus Hrs Hr ltac:(lia)).
Qed.

(** ** Simple commands *)

Lemma add_arg_wrap rs w c : add_arg w (wrap rs c) = wrap rs (add_arg w c).
Proof. revert c. induction rs as [|[[f mode] fd] rs IH]; intros c; [done|]. cbn. now rewrite IH. Qed.

Lemma starts_word cs w us : Forall (fun c => has symbols c = true) cs -> starts cs ((WORD, w) :: us) = false.
Proof.
  intros Hcs. cbn. destruct (has cs _) eqn:E; [|done]. apply has_elem in E. rewrite Forall_forall in Hcs.
  specialize (Hcs _ E). discriminate Hcs.
Qed.

Lemma parseredirs_word n c w us : parseredirs (S n) c ((WORD, w) :: us) = POk c ((WORD, w) :: us).
Proof. cbn [parseredirs]. rewrite peek_starts, starts_word; [done|]. now repeat constructor. Qed.

(** The words that are left, after [before], and the redirections. *)
Lemma parseargs_reads ws n before us r rs :
  Forall2 is_tok ((TWord <$> ws) ++ (if ws is [] then [] else redir_toks rs)) us -> redirs_ok rs -> stops r ->
  (length before + length ws < MAXARGS)%nat -> (length us < n)%nat ->
  parseargs n (length before) (if ws is [] then wrap rs (EXEC before) else EXEC before) (us ++ r) =
    POk (wrap rs (EXEC (before ++ ws))) r.
Proof.
  revert n before us. induction ws as [|w ws IH]; intros n before us Hus Hrs Hr Hm Hn; (destruct n as [|n]; [lia|]).
  - apply Forall2_nil_inv_l in Hus as ->. cbn [app parseargs]. rewrite peek_starts, app_nil_r.
    destruct Hr as [->|Hr]; [done|now rewrite Hr].
  - cbn [fmap list_fmap app] in Hus. apply Forall2_cons_inv_l in Hus as (u & us1 & -> & Hus & ->).
    cbn [app length] in *. cbn [parseargs]. rewrite peek_starts, starts_word by (now repeat constructor).
    rewrite gettoken_cons. cbn [add_arg fst snd]. cbn [Z.eqb WORD Pos.eqb negb]. cbv beta iota zeta.
    rewrite (proj2 (Nat.leb_gt MAXARGS (S (length before)))) by lia.
    specialize (IH n (before ++ [w])). rewrite length_app, Nat.add_1_r, <- app_assoc in IH. cbn [app] in IH.
    destruct ws as [|w' ws].
    + unfold pbind. cbn [app fmap list_fmap] in *. destruct n as [|n]; [lia|].
      rewrite (parseredirs_reads rs (S n) _ us1 r); [|done|done|now apply stops_redirs|lia].
      apply (IH []); [constructor|done|done|cbn in Hm |- *; lia|cbn; lia].
    + assert (exists us2, us1 = (WORD, w') :: us2) as (us2 & ->).
      { cbn [fmap list_fmap app] in Hus. apply Forall2_cons_inv_l in Hus as (u & us2 & -> & _ & ->). now exists us2. }
      unfold pbind. destruct n as [|n]; [lia|]. cbn [app]. rewrite parseredirs_word. apply (IH (_ :: us2)); [done|done|done| |lia].
      cbn [length] in *. lia.
Qed.

(** ** The levels of the grammar *)

Definition exec_reads (c : cmd span) : Prop := forall rs k n us r,
  Forall2 is_tok (print 0 c ++ redir_toks rs) us -> redirs_ok rs -> stops r -> (length us < k)%nat -> (length us < n)%nat ->
  parseexec (parseline k) n (us ++ r) = POk (wrap rs c) r.

Definition pipe_reads (c : cmd span) : Prop := forall k n us r,
  Forall2 is_tok (print 1 c) us -> stops r -> starts (bytes "|") r = false -> (length us < k)%nat -> (S (length us) < n)%nat ->
  parsepipe (parseline k) n (us ++ r) = POk c r.

(** parsepipe reads the command, and parsebacks the & after it. *)
Definition backs_read (c : cmd span) : Prop := forall k n us r,
  Forall2 is_tok (print 2 c) us -> stops r -> starts (bytes "|") r = false -> (length us < k)%nat -> (S (length us) < n)%nat ->
  exists c0 us', parsepipe (parseline k) n (us ++ r) = POk c0 (us' ++ r) /\ (length us' <= length us)%nat /\
    forall k, parsebacks (length us' + k) c0 (us' ++ r) = parsebacks k c r.

Definition closes (r : list tok) : Prop := r = [] \/ starts (bytes ")") r = true.

Definition line_reads (c : cmd span) : Prop := forall n us r,
  Forall2 is_tok (print 3 c) us -> closes r -> (S (S (length us)) < n)%nat -> parseline n (us ++ r) = POk c r.

Lemma closes_stops r : closes r -> stops r /\ starts (bytes "|") r = false /\ starts (bytes "&") r = false /\
  starts (bytes ";") r = false.
Proof.
  intros [->|H]; [now split_and!; [left|..]|]. destruct r as [|t r]; [done|]. unfold stops. cbn [starts] in *.
  apply has_elem' in H as [<-|[]]. split_and!; [now right|done..].
Qed.

Lemma exec_EXEC argv : (length argv < MAXARGS)%nat -> exec_reads (EXEC argv).
Proof.
  intros Hm rs k n us r Hus Hrs Hr Hk Hn. cbn [print] in Hus. unfold parseexec. rewrite peek_starts.
  assert (Hp : starts (bytes "(") (us ++ r) = false).
  { destruct argv as [|w argv]; cbn [fmap list_fmap app] in Hus.
    - destruct rs as [|[[f mode] fd] rs].
      + apply Forall2_nil_inv_l in Hus as ->. apply stops_not; [done|now repeat constructor].
      + cbn in Hus. apply Forall2_cons_inv_l in Hus as ([k0 w] & us1 & [Hk0 _] & _ & ->). cbn in Hk0 |- *. subst k0.
        unfold redir_sym. now destruct (fd =? 0).
    - apply Forall2_cons_inv_l in Hus as (u & us1 & -> & _ & ->). apply starts_word. now repeat constructor. }
  rewrite Hp. unfold pbind. destruct argv as [|w argv].
  - rewrite (parseredirs_reads rs); [|done|done|now apply stops_redirs|lia].
    apply (parseargs_reads [] n [] [] r rs); [constructor|done|done|cbn; lia|cbn; lia].
  - assert (exists us2, us = (WORD, w) :: us2) as (us2 & ->).
    { cbn [fmap list_fmap app] in Hus. apply Forall2_cons_inv_l in Hus as (u & us2 & -> & _ & ->). now exists us2. }
    destruct n as [|n]; [lia|]. cbn [app]. unfold execcmd. rewrite parseredirs_word.
    apply (parseargs_reads (w :: argv) (S n) [] (_ :: us2) r rs); [done|done|done|done|lia].
Qed.

(** A command in parentheses. *)
Lemma exec_paren c : print 0 c = paren true (print 3 c) -> line_reads c -> exec_reads c.
Proof.
  intros Hp Hline rs j n us r Hus Hrs Hr Hj Hn. rewrite Hp in Hus. cbn [paren app] in Hus. rewrite <- app_assoc in Hus.
  apply Forall2_cons_inv_l in Hus as ([k w] & us1 & [Hk _] & Hus & ->). cbn in Hk. subst k.
  apply Forall2_app_inv_l in Hus as (us2 & us3 & Hus2 & Hus3 & ->).
  apply Forall2_cons_inv_l in Hus3 as ([k' w'] & us4 & [Hk _] & Hus4 & ->). cbn in Hk. subst k'.
  cbn [length] in Hn, Hj. rewrite length_app in Hn, Hj. cbn [length] in Hn, Hj.
  cbn [app]. rewrite <- app_assoc. cbn [app]. unfold parseexec. rewrite peek_starts. cbn [starts fst].
  change (has (bytes "(") (first_char 40)) with true. cbv iota. unfold parseblock. rewrite peek_starts. cbn [starts fst].
  change (negb (has (bytes "(") (first_char 40))) with false. cbv iota. rewrite gettoken_cons.
  rewrite (pbind_ok _ _ _ _ _ (Hline j us2 ((41, w') :: us4 ++ r) Hus2 (or_intror eq_refl) ltac:(lia))).
  rewrite peek_starts. change (negb (starts _ _)) with false. cbv iota. rewrite gettoken_cons.
  apply parseredirs_reads; [done|done|now apply stops_redirs|lia].
Qed.

Lemma exec_REDIR c f mode fd : redir_ok mode fd = true -> exec_reads c -> exec_reads (REDIR c f mode fd).
Proof.
  intros Hok He rs k n us r Hus Hrs Hr Hk Hn. apply (He ((f, mode, fd) :: rs)); [|now constructor|done..].
  cbn [print] in Hus. now rewrite <- app_assoc in Hus.
Qed.

Lemma pipe_exec c : print 1 c = print 0 c -> exec_reads c -> pipe_reads c.
Proof.
  intros Hp He k n us r Hus Hr Hbar Hk Hn. destruct n as [|n]; [lia|]. cbn [parsepipe].
  rewrite (pbind_ok _ _ _ c r); [now rewrite peek_starts, Hbar|].
  apply (He []); [cbn; now rewrite app_nil_r, <- Hp|constructor|done|lia|lia].
Qed.

Lemma pipe_PIPE l c : exec_reads l -> pipe_reads c -> pipe_reads (PIPE l c).
Proof.
  intros Hl Hc j n us r Hus Hr Hbar Hj Hn. cbn [print paren Nat.ltb Nat.leb] in Hus.
  apply Forall2_app_inv_l in Hus as (us1 & us2 & Hus1 & Hus2 & ->).
  apply Forall2_cons_inv_l in Hus2 as ([k w] & us3 & [Hk _] & Hus3 & ->). cbn in Hk. subst k.
  rewrite length_app in Hn, Hj. cbn [length] in Hn, Hj. destruct n as [|n]; [lia|]. rewrite <- app_assoc. cbn [app parsepipe].
  rewrite (pbind_ok _ _ _ l ((124, w) :: us3 ++ r)); [|apply (Hl []); [cbn; now rewrite app_nil_r|constructor|now right|lia|lia]].
  rewrite peek_starts. change (starts _ ((124, w) :: us3 ++ r)) with true. cbv iota. rewrite gettoken_cons. rewrite (pbind_ok _ _ _ c r); [done|]. apply Hc; [done|done|done|lia|lia].
Qed.

Lemma backs_pipe c : print 2 c = print 1 c -> pipe_reads c -> backs_read c.
Proof.
  intros Hp Hc k n us r Hus Hr Hbar Hk Hn. exists c, []. split_and!; [|cbn; lia|done].
  apply (Hc k n us r); [now rewrite <- Hp|done..].
Qed.

Lemma backs_BACK c : backs_read c -> backs_read (BACK c).
Proof.
  intros Hc j n us r Hus Hr Hbar Hj Hn. cbn [print paren Nat.ltb Nat.leb] in Hus.
  apply Forall2_app_inv_l in Hus as (us1 & us2 & Hus1 & Hus2 & ->).
  apply Forall2_cons_inv_l in Hus2 as ([k w] & us3 & [Hk _] & Hus3 & ->). cbn in Hk. subst k.
  apply Forall2_nil_inv_l in Hus3 as ->. rewrite length_app in Hn, Hj. cbn [length] in Hn, Hj.
  destruct (Hc j n us1 ((38, w) :: r)) as (c0 & us' & E & Hlen & Hb); [done|now right|done|lia|lia|].
  exists c0, (us' ++ [(38, w)]). rewrite <- !app_assoc. cbn [app]. split_and!; [done|rewrite !length_app; cbn; lia|].
  intros k. rewrite length_app, <- Nat.add_assoc, Hb. cbn [length Nat.add parsebacks]. rewrite peek_starts.
  change (starts _ ((38, w) :: r)) with true. cbv iota. now rewrite gettoken_cons.
Qed.

(** parsebacks stops after the &. *)
Lemma backs_stop n c0 c us' r :
  (length us' < n)%nat -> (forall k, parsebacks (length us' + k) c0 (us' ++ r) = parsebacks k c r) ->
  starts (bytes "&") r = false -> parsebacks n c0 (us' ++ r) = POk c r.
Proof.
  intros Hn Hb Hr. replace n with (length us' + S (n - S (length us')))%nat by lia. rewrite Hb. cbn [parsebacks].
  now rewrite peek_starts, Hr.
Qed.

Lemma line_backs c : print 3 c = print 2 c -> backs_read c -> line_reads c.
Proof.
  intros Hp Hc n us r Hus Hr Hn. destruct (closes_stops r Hr) as (Hs & Hbar & Hamp & Hsemi). rewrite Hp in Hus.
  destruct n as [|n]; [lia|]. destruct (Hc n n us r Hus Hs Hbar) as (c0 & us' & E & Hlen & Hb); [lia|lia|].
  cbn [parseline]. rewrite (pbind_ok _ _ _ _ _ E), (pbind_ok _ _ _ c r) by (now apply backs_stop; [lia|..]).
  now rewrite peek_starts, Hsemi.
Qed.

Lemma line_LIST l c : backs_read l -> line_reads c -> line_reads (LIST l c).
Proof.
  intros Hl Hc n us r Hus Hr Hn. cbn [print paren Nat.ltb Nat.leb] in Hus.
  apply Forall2_app_inv_l in Hus as (us1 & us2 & Hus1 & Hus2 & ->).
  apply Forall2_cons_inv_l in Hus2 as ([k w] & us3 & [Hk _] & Hus3 & ->). cbn in Hk. subst k.
  rewrite length_app in Hn. cbn [length] in Hn. destruct n as [|n]; [lia|]. rewrite <- app_assoc. cbn [app parseline].
  destruct (Hl n n us1 ((59, w) :: us3 ++ r)) as (c0 & us' & E & Hlen & Hb); [done|now right|done|lia|lia|].
  rewrite (pbind_ok _ _ _ _ _ E), (pbind_ok _ _ _ l ((59, w) :: us3 ++ r)); [|now apply backs_stop; [lia|..]].
  rewrite peek_starts. change (starts _ ((59, w) :: us3 ++ r)) with true. cbv iota. rewrite gettoken_cons. rewrite (pbind_ok _ _ _ c r); [done|]. apply Hc; [done|done|lia].
Qed.

Lemma levels_read c : cmd_ok c -> exec_reads c /\ pipe_reads c /\ backs_read c /\ line_reads c.
Proof.
  induction c as [argv|c IH f mode fd|l IHl r IHr|l IHl r IHr|c IH]; intros Hok; cbn [cmd_ok] in Hok.
  - pose proof (exec_EXEC argv Hok). assert (pipe_reads (EXEC argv)) by now apply pipe_exec.
    assert (backs_read (EXEC argv)) by now apply backs_pipe. split_and!; [done..|now apply line_backs].
  - destruct Hok as [Hr Hok]. assert (exec_reads (REDIR c f mode fd)) by now apply exec_REDIR, IH.
    assert (pipe_reads (REDIR c f mode fd)) by now apply pipe_exec.
    assert (backs_read (REDIR c f mode fd)) by now apply backs_pipe. split_and!; [done..|now apply line_backs].
  - destruct Hok as [Hl Hr]. assert (pipe_reads (PIPE l r)) by now apply pipe_PIPE; [apply IHl|apply IHr].
    assert (backs_read (PIPE l r)) by now apply backs_pipe. assert (line_reads (PIPE l r)) by now apply line_backs.
    split_and!; [now apply exec_paren|done..].
  - destruct Hok as [Hl Hr]. assert (line_reads (LIST l r)) by now apply line_LIST; [apply IHl|apply IHr].
    assert (exec_reads (LIST l r)) by now apply exec_paren. assert (pipe_reads (LIST l r)) by now apply pipe_exec.
    split_and!; [done|done|now apply backs_pipe|done].
  - assert (backs_read (BACK c)) by now apply backs_BACK, IH. assert (line_reads (BACK c)) by now apply line_backs.
    assert (exec_reads (BACK c)) by now apply exec_paren. split_and!; [done|now apply pipe_exec|done..].
Qed.
End Reads.

(** * The line of a command *)

Lemma strlen_from_text n m s i len :
  (forall x, s + i <= x < s + len -> ld m x <> 0) -> ld m (s + len) = 0 -> i <= len -> len - i < Z.of_nat n ->
  Ulib.strlen_from n m s i = Some len.
Proof.
  revert i. induction n as [|n IH]; intros i Ht He Hi Hn; [lia|]. cbn [Ulib.strlen_from].
  destruct (decide (i = len)) as [->|Hne]; [now rewrite He|].
  rewrite (proj2 (Z.eqb_neq _ 0)) by (apply Ht; lia). cbn [negb]. apply IH; [|done|lia|lia]. intros x Hx. apply Ht. lia.
Qed.

(** ** The terminated strings *)

Lemma ld_foldl_st (l : list span) m x :
  ld (foldl (fun m w => st m w.2 0) m l) x = if bool_decide (x ∈ l.*2) then 0 else ld m x.
Proof.
  revert m. induction l as [|w l IH]; intros m; cbn [foldl fmap list_fmap]; [done|]. rewrite IH, ld_st.
  destruct (Z.eqb_spec x w.2) as [->|Hne].
  - rewrite (bool_decide_eq_true_2 (w.2 ∈ w.2 :: l.*2)) by left. now case_bool_decide.
  - rewrite (bool_decide_ext (x ∈ w.2 :: l.*2) (x ∈ l.*2)); [done|]. rewrite elem_of_cons. intuition.
Qed.

Lemma nulterminate_foldl c m : nulterminate c m = foldl (fun m w => st m w.2 0) m (words c).
Proof.
  revert m. induction c as [argv|c IH f mode fd|l IHl r IHr|l IHl r IHr|c IH]; intros m; cbn [nulterminate words];
    rewrite ?foldl_app; cbn [foldl]; congruence.
Qed.

Lemma ld_nulterminate c m x : ld (nulterminate c m) x = if bool_decide (x ∈ (words c).*2) then 0 else ld m x.
Proof. rewrite nulterminate_foldl. apply ld_foldl_st. Qed.

(** The word [w] of the line is a string of the new memory. *)
Definition string_at (m m' : mem) (s len : Z) (w : span) : Prop :=
  s <= w.1 < w.2 /\ w.2 <= s + len /\ (forall x, w.1 <= x < w.2 -> plain (ld m x) = true /\ ld m' x = ld m x) /\ ld m' w.2 = 0.

Lemma nulterminate_strings m s len c :
  Forall (word_ok m s (s + len)) (words c) ->
  Forall (string_at m (nulterminate c m) s len) (words c) /\
  (forall x, x < s \/ s + len < x -> ld (nulterminate c m) x = ld m x).
Proof.
  intros Hw. rewrite Forall_forall in Hw. split.
  - apply Forall_forall. intros w Hin. pose proof (Hw w Hin) as (H1 & H2 & H3 & H4). split_and!; [lia|lia|done| |].
    + intros x Hx. split; [now apply H3|]. rewrite ld_nulterminate, bool_decide_eq_false_2; [done|].
      intros (v & -> & Hv)%list_elem_of_fmap. destruct (Hw v Hv) as (_ & _ & _ & G4). rewrite H3 in G4 by done. done.
    + rewrite ld_nulterminate, bool_decide_eq_true_2; [done|]. apply list_elem_of_fmap. eauto.
  - intros x Hx. rewrite ld_nulterminate, bool_decide_eq_false_2; [done|].
    intros (v & -> & Hv)%list_elem_of_fmap. destruct (Hw v Hv) as (G1 & G2 & _). lia.
Qed.

(** A C string of [len] bytes at [s]. *)
Definition line_at (m : mem) (s len : Z) : Prop :=
  0 <= len /\ (forall x, s <= x < s + len -> ld m x <> 0) /\ ld m (s + len) = 0.

(** parsecmd on a line and the parser on the tokens of the line. *)
Lemma parsecmd_tokens n m s len ts :
  line_at m s len -> len < Z.of_nat n -> lexes m s (s + len) s ts ->
  parsecmd n m s =
  match @parseline _ (toks_lexer (s + len)) n ts with
  | POk c [] => POk c (nulterminate c m)
  | POk c _ => PPanic "syntax"
  | PPanic msg => PPanic msg
  | PFuel => PFuel
  end.
Proof.
  intros (Hlen & Ht & He) Hn Hts. unfold parsecmd. unfold Ulib.strlen.
  rewrite (strlen_from_text n m s 0 len); [|intros x Hx; apply Ht; lia|done|lia|lia]. cbv zeta.
  pose proof (parseline_tokens m s (s + len) Ht He n s ts) as Hsim.
  assert (Hrel : line_rel m s (s + len) s ts) by (split; [lia|done]). specialize (Hsim Hrel). unfold prel in Hsim.
  destruct (@parseline Z _ n s) as [c p| |], (@parseline (list tok) _ n ts) as [c' ts'| |]; try done; [|now f_equal].
  destruct Hsim as [-> [Hp Hl]]. cbn [line_peek]. unfold line_peek.
  destruct Hl as [p Hs|p t ts'' Hs _ _ _].
  - rewrite Hs. now rewrite Z.eqb_refl.
  - now rewrite (proj2 (Z.eqb_neq _ _)) by lia.
Qed.

(** Parsecmd ends on every line (a C string of [len] bytes, within one step for
    each byte): it returns a command or stops with a syntax error, and each string
    of the command is one of the line's words, terminated by a NUL and otherwise as
    it was typed; nothing outside the line changes. *)
Theorem parsecmd_total (n : nat) (m : mem) (s len : Z) :
  line_at m s len -> len + 3 <= Z.of_nat n ->
  match parsecmd n m s with
  | POk c m' => Forall (string_at m m' s len) (words c) /\ (forall x, x < s \/ s + len < x -> ld m' x = ld m x)
  | PPanic _ => True
  | PFuel => False
  end.
Proof.
  intros Hl Hn. pose proof Hl as (Hlen & Ht & He).
  destruct (lexes_total m s (s + len) Ht He (Z.to_nat len) s) as (ts & Hts & Hc); [lia|lia|].
  rewrite (parsecmd_tokens n m s len ts Hl ltac:(lia) Hts).
  pose proof (parseline_ends (s + len) (word_ok m s (s + len)) n ts (lexes_words m s (s + len) s ts Hts) ltac:(lia)) as He'. destruct (parseline n ts) as [c [|t ts']| |]; [|done..]. destruct He' as (_ & _ & Hw).
  now apply nulterminate_strings.
Qed.

(** * Reading the text of a command *)

(** Commands of the same shape, with related words. *)
Inductive cmd_rel {V W} (R : V -> W -> Prop) : cmd V -> cmd W -> Prop :=
| rel_EXEC a b : Forall2 R a b -> cmd_rel R (EXEC a) (EXEC b)
| rel_REDIR c d f g mode fd : cmd_rel R c d -> R f g -> cmd_rel R (REDIR c f mode fd) (REDIR d g mode fd)
| rel_PIPE a b c d : cmd_rel R a b -> cmd_rel R c d -> cmd_rel R (PIPE a c) (PIPE b d)
| rel_LIST a b c d : cmd_rel R a b -> cmd_rel R c d -> cmd_rel R (LIST a c) (LIST b d)
| rel_BACK c d : cmd_rel R c d -> cmd_rel R (BACK c) (BACK d).
#[export] Hint Constructors cmd_rel : core.

Definition word_reads (m : mem) (w : list Z) (u : span) : Prop :=
  u.2 = u.1 + Z.of_nat (length w) /\ lds m u.1 (length w) = w.

Lemma cmd_rel_ok {V W} (R : V -> W -> Prop) c d : cmd_rel R c d -> cmd_ok c -> cmd_ok d.
Proof. induction 1 as [a b H| | | |]; cbn; [now rewrite (Forall2_length _ _ _ H)|tauto..]. Qed.

Lemma cmd_rel_words {V W} (R R' : V -> W -> Prop) c d :
  cmd_rel R c d -> (forall v w, R v w -> w ∈ words d -> R' v w) -> cmd_rel R' c d.
Proof.
  induction 1 as [a b H|c d f g mode fd H IH Hf|a b c d H1 IH1 H2 IH2|a b c d H1 IH1 H2 IH2|c d H IH]; cbn [words]; intros HR.
  - constructor. induction H; constructor; [apply HR; [done|left]|]. apply IHForall2. intros v w Hv Hw. apply HR; [done|now right].
  - constructor; [apply IH; intros v w Hv Hw|apply HR; [done|]]; [apply HR; [done|]|]; rewrite elem_of_app; [now left|right; left].
  - constructor; [apply IH1|apply IH2]; intros v w Hv Hw; (apply HR; [done|]); rewrite elem_of_app; auto.
  - constructor; [apply IH1|apply IH2]; intros v w Hv Hw; (apply HR; [done|]); rewrite elem_of_app; auto.
  - constructor. apply IH. exact HR.
Qed.

Section Conc.
Variable m : mem.

Lemma reads_sym k u : tok_reads m (TSym k) u -> is_tok (TSym k) u.
Proof. done. Qed.

Lemma reads_word w u : tok_reads m (TWord w) u -> exists v, word_reads m w v /\ is_tok (TWord v) u.
Proof. destruct u as [k v]. intros (Hk & H1 & H2). cbn in Hk. subst k. now exists v. Qed.

Lemma conc_paren b l us :
  Forall2 (tok_reads m) (paren b l) us ->
  exists us', Forall2 (tok_reads m) l us' /\ forall l', Forall2 is_tok l' us' -> Forall2 is_tok (paren b l') us.
Proof.
  destruct b; cbn [paren]; [|intros H; now exists us].
  intros (u & us1 & Hu & (us2 & us3 & H2 & H3 & ->)%Forall2_app_inv_l & ->)%Forall2_cons_inv_l.
  apply Forall2_cons_inv_l in H3 as (v & us4 & Hv & ->%Forall2_nil_inv_l & ->).
  exists us2. split; [done|]. intros l' Hl'. constructor; [done|]. apply Forall2_app; [done|]. now constructor.
Qed.

Lemma conc_pair (l1 l2 : list (stok (list Z))) k us :
  Forall2 (tok_reads m) (l1 ++ TSym k :: l2) us ->
  exists us1 u us2, Forall2 (tok_reads m) l1 us1 /\ is_tok (TSym k) u /\ Forall2 (tok_reads m) l2 us2 /\ us = us1 ++ u :: us2.
Proof.
  intros (us1 & us2 & H1 & (u & us3 & Hu & H3 & ->)%Forall2_cons_inv_l & ->)%Forall2_app_inv_l. now exists us1, u, us3.
Qed.

(** The command with the spans of the line for its words. *)
Lemma conc c lvl us :
  Forall2 (tok_reads m) (print lvl c) us -> exists d, cmd_rel (word_reads m) c d /\ Forall2 is_tok (print lvl d) us.
Proof.
  revert lvl us. induction c as [argv|c IH f mode fd|l IHl r IHr|l IHl r IHr|c IH]; intros lvl us H; cbn [print] in H.
  - enough (exists d, Forall2 (word_reads m) argv d /\ Forall2 is_tok (TWord <$> d) us) as (d & ? & ?) by (exists (EXEC d); auto).
    revert us H. induction argv as [|w argv IH]; intros us H.
    + apply Forall2_nil_inv_l in H as ->. now exists [].
    + apply Forall2_cons_inv_l in H as (u & us1 & (v & Hv & Hu)%reads_word & H & ->). destruct (IH _ H) as (d & Hd & Hus).
      exists (v :: d). split; now constructor.
  - apply conc_pair in H as (us1 & u & us2 & H1 & Hu & H2 & ->).
    apply Forall2_cons_inv_l in H2 as (u2 & us3 & (v & Hv & Hu2)%reads_word & ->%Forall2_nil_inv_l & ->).
    destruct (IH _ _ H1) as (d & Hd & Hus). exists (REDIR d v mode fd). split; [now constructor|]. cbn [print].
    apply Forall2_app; [done|]. constructor; [done|]. now constructor.
  - apply conc_paren in H as (us' & H & Hp). apply conc_pair in H as (us1 & u & us2 & H1 & Hu & H2 & ->).
    destruct (IHl _ _ H1) as (d1 & Hd1 & Hus1), (IHr _ _ H2) as (d2 & Hd2 & Hus2). exists (PIPE d1 d2).
    split; [now constructor|]. apply Hp, Forall2_app; [done|]. now constructor.
  - apply conc_paren in H as (us' & H & Hp). apply conc_pair in H as (us1 & u & us2 & H1 & Hu & H2 & ->).
    destruct (IHl _ _ H1) as (d1 & Hd1 & Hus1), (IHr _ _ H2) as (d2 & Hd2 & Hus2). exists (LIST d1 d2).
    split; [now constructor|]. apply Hp, Forall2_app; [done|]. now constructor.
  - apply conc_paren in H as (us' & H & Hp). apply conc_pair in H as (us1 & u & us2 & H1 & Hu & H2 & ->).
    destruct (IH _ _ H1) as (d & Hd & Hus). apply Forall2_nil_inv_l in H2 as ->. exists (BACK d).
    split; [now constructor|]. apply Hp, Forall2_app; [done|]. now constructor.
Qed.
End Conc.

(** The string [w] is at [u] in the memory, terminated. *)
Definition string_is (m : mem) (w : list Z) (u : span) : Prop := lds m u.1 (length w) = w /\ ld m (u.1 + Z.of_nat (length w)) = 0.

(** The parser on the text of a command. *)
Lemma reads_text (n : nat) (m : mem) (s : Z) (c : cmd (list Z)) (l : list Z) :
  cmd_ok c -> spells (print 3 c) l -> lds m s (length l) = l -> ld m (s + Z.of_nat (length l)) = 0 ->
  (length l + 3 <= n)%nat ->
  exists d m', parsecmd n m s = POk d m' /\ cmd_rel (string_is m') c d.
Proof.
  intros Hc Hsp Hl He Hn.
  assert (Hline : line_at m s (Z.of_nat (length l))).
  { split_and!; [lia| |done]. intros x Hx. pose proof (spells_nonzero _ _ Hsp) as Hz. rewrite <- Hl in Hz.
    rewrite Forall_lookup in Hz. apply (Hz (Z.to_nat (x - s))). rewrite lds_lookup by lia. do 2 f_equal. lia. }
  pose proof Hline as (Hlen & Ht & _).
  destruct (spells_lexes m s _ Ht He _ l s Hsp) as (us & Hus & Hr); [split_and!; [lia|lia|done]|].
  destruct (conc m c 3 us Hr) as (d & Hd & Htoks).
  destruct (lexes_total m s _ Ht He (length l) s) as (us' & Hus' & Hc'); [lia|lia|].
  rewrite (lexes_det _ _ _ _ _ _ Hus' Hus) in Hc'.
  assert (Hp : @parseline _ (toks_lexer (s + Z.of_nat (length l))) n us = POk d []).
  { destruct (levels_read (s + Z.of_nat (length l)) d) as (_ & _ & _ & Hline'); [now apply (cmd_rel_ok _ _ _ Hd)|].
    rewrite <- (app_nil_r us) at 1. apply Hline'; [done|now left|lia]. }
  exists d, (nulterminate d m). rewrite (parsecmd_tokens n m s _ us Hline ltac:(lia) Hus), Hp. split; [done|].
  assert (Hw : Forall (word_ok m s (s + Z.of_nat (length l))) (words d)).
  { pose proof (parseline_ends (s + Z.of_nat (length l)) (word_ok m s (s + Z.of_nat (length l))) n us) as He'.
    specialize (He' (lexes_words m s _ s us Hus) ltac:(lia)). unfold toks_inst in He'. rewrite Hp in He'. apply He'. }
  apply nulterminate_strings in Hw as [Hw _]. rewrite Forall_forall in Hw.
  apply (cmd_rel_words _ _ _ _ Hd). intros w u [Hu2 Hu] Hin. destruct (Hw u Hin) as (H1 & H2 & H3 & H4). split.
  - etransitivity; [|exact Hu]. apply lds_ext. intros i Hi. apply H3. lia.
  - now rewrite <- Hu2.
Qed.

(** C36: The parser reads what is written: for every command [c], whatever the white
    space in its text [l], parsecmd returns [c], each word of it a NUL-terminated
    string of the memory. *)
Theorem parsecmd_reads_text (n : nat) (m : mem) (s : Z) (c : cmd (list Z)) (l : list Z) :
  cmd_ok c -> spells (print 3 c) l -> lds m s (length l) = l -> ld m (s + Z.of_nat (length l)) = 0 ->
  (length l + 3 <= n)%nat ->
  exists d m', parsecmd n m s = POk d m' /\ cmd_rel (string_is m') c d.
Proof. apply reads_text. Qed.

Module Typed.
(** A line as it is typed, and the command it means. *)
Definition text : list Z := bytes "ls | (grep x>out; wc) &" ++ [10].
Definition meaning : cmd (list Z) :=
  BACK (PIPE (EXEC [bytes "ls"])
             (LIST (REDIR (EXEC [bytes "grep"; bytes "x"]) (bytes "out") (Z.lor O_WRONLY O_CREATE) 1) (EXEC [bytes "wc"]))).

Definition line : mem := sts ∅ 100 (text ++ [0]).

Lemma text_spells : spells (print 3 meaning) text.
Proof.
  refine (spells_word (bytes "ls") _ _ _ _ _ _); [done|now repeat constructor|done|].
  apply spells_ws; [done|]. apply spells_sym; [done|]. apply spells_ws; [done|]. apply spells_sym; [done|].
  refine (spells_word (bytes "grep") _ _ _ _ _ _); [done|now repeat constructor|done|]. apply spells_ws; [done|].
  refine (spells_word (bytes "x") _ _ _ _ _ _); [done|now repeat constructor|done|]. apply spells_gt; [done|].
  refine (spells_word (bytes "out") _ _ _ _ _ _); [done|now repeat constructor|done|]. apply spells_sym; [done|].
  apply spells_ws; [done|]. refine (spells_word (bytes "wc") _ _ _ _ _ _); [done|now repeat constructor|done|].
  apply spells_sym; [done|]. apply spells_ws; [done|]. apply spells_sym; [done|]. apply spells_ws; [done|]. apply spells_nil.
Qed.

Lemma parsecmd_reads_text_witness :
  exists d m', parsecmd 100 line 100 = POk d m' /\ cmd_rel (string_is m') meaning d.
Proof.
  apply (parsecmd_reads_text 100 line 100 meaning text); [cbn; repeat split; unfold MAXARGS; lia|exact text_spells|..].
  - vm_compute. reflexivity.
  - vm_compute. reflexivity.
  - vm_compute. lia.
Defined.

(** A line with an error: the closing parenthesis is missing. *)
Definition line2 : mem := sts ∅ 100 (bytes "(ls" ++ [0]).

Lemma line2_at : line_at line2 100 3.
Proof.
  split_and!; [lia| |vm_compute; reflexivity]. intros x Hx.
  assert (x = 100 \/ x = 101 \/ x = 102) as [->|[->| ->]] by lia; vm_compute; discriminate.
Qed.

Lemma parsecmd_total_witness :
  match parsecmd 16 line2 100 with
  | POk c m' => Forall (string_at line2 m' 100 3) (words c) /\ (forall x, x < 100 \/ 100 + 3 < x -> ld m' x = ld line2 x)
  | PPanic _ => True
  | PFuel => False
  end /\ parsecmd 16 line2 100 = PPanic "syntax - missing )".
Proof. split; [apply (parsecmd_total 16 line2 100 3 line2_at); lia|vm_compute; reflexivity]. Defined.
End Typed.
