(* ===== verification/ShRun.v ===== *)
(** sh.c: what the shell does with a command.  runcmd is the tree of the system calls
    that it makes, with a branch for each of their outcomes; each process of the
    tree has its own file descriptors. *)
From S2P Require Import Prelude Mem Mmu Cstring Digits Ulib Sh ShLex ShProps.

(** * Processes *)

Abbreviation str := (list Z).

(** What a file descriptor stands for; a pipe is named by the place of its command
    in the tree. *)
Inductive ofile : Type :=
| Inherited (n : nat)
| Opened (path : str) (mode : Z)
| PipeR (id : list bool)
| PipeW (id : list bool).

(** The open files of a process; [None] is a free descriptor. *)
Abbreviation fdtab := (list (option ofile)).

(** The first free descriptor, as the kernel gives them out. *)
Fixpoint lowest (t : fdtab) : option nat :=
  match t with
  | [] => None
  | None :: _ => Some 0%nat
  | Some _ :: t' => S <$> lowest t'
  end.

Definition close (fd : Z) (t : fdtab) : fdtab := <[Z.to_nat fd := None]> t.

(** dup(fd). *)
Definition dup (fd : nat) (t : fdtab) : fdtab :=
  match mjoin (t !! fd), lowest t with
  | Some f, Some i => <[i := Some f]> t
  | _, _ => t
  end.

(** pipe(p): the two descriptors. *)
Definition pipe (id : list bool) (t : fdtab) : option (nat * nat * fdtab) :=
  match lowest t with
  | None => None
  | Some p0 =>
      let t := <[p0 := Some (PipeR id)]> t in
      match lowest t with
      | None => None
      | Some p1 => Some (p0, p1, <[p1 := Some (PipeW id)]> t)
      end
  end.

(** What a process goes on to do: end; run a program (and, if that fails, what then);
    fork (what the child does, what the parent does, and what it does when there is no
    child); wait for a child; open a file at a descriptor (and, if that fails, what
    then); make a pipe (and, if that fails, what then); print on descriptor 2. *)
Inductive run : Type :=
| Exit
| Exec (argv : list str) (t : fdtab) (failed : run)
| Fork (child parent failed : run)
| Wait (t : fdtab) (k : run)
| Open (path : str) (mode : Z) (fd : nat) (k failed : run)
| Piped (k failed : run)
| Print (text : str) (k : run).

(** sh.c's panic. *)
Definition sh_panic (s : string) : run := Print (bytes s ++ [10]) Exit.

(** fork1, and what the child and the parent do. *)
Definition fork1 (child parent : run) : run := Fork child parent (sh_panic "fork").

(** * runcmd *)

Fixpoint runcmd (c : cmd str) (t : fdtab) (id : list bool) : run :=
  match c with
  | EXEC argv =>
      match argv with
      | [] => Exit
      | path :: _ => Exec argv t (Print (bytes "exec " ++ path ++ bytes " failed" ++ [10]) Exit)
      end
  | REDIR c file mode fd =>
      let t := close fd t in
      let failed := Print (bytes "open " ++ file ++ bytes " failed" ++ [10]) Exit in
      match lowest t with
      | None => failed
      | Some i => Open file mode i (runcmd c (<[i := Some (Opened file mode)]> t) id) failed
      end
  | LIST l r =>
      fork1 (runcmd l t (false :: id)) (Wait t (runcmd r t (true :: id)))
  | PIPE l r =>
      match pipe id t with
      | None => sh_panic "pipe"
      | Some (p0, p1, t) =>
          Piped
            (fork1
              (runcmd l (close (Z.of_nat p1) (close (Z.of_nat p0) (dup p1 (close 1 t)))) (false :: id))
              (fork1
                (runcmd r (close (Z.of_nat p1) (close (Z.of_nat p0) (dup p0 (close 0 t)))) (true :: id))
                (let t := close (Z.of_nat p1) (close (Z.of_nat p0) t) in Wait t (Wait t Exit))))
            (sh_panic "pipe")
      end
  | BACK c => fork1 (runcmd c t (false :: id)) Exit
  end.

(** * getcmd and main *)

(** getcmd(buf, nbuf): the memory, the input that is left, and the result. *)
Definition getcmd (m : mem) (buf nbuf : Z) (inp : list Z) : option (mem * list Z * Z) :=
  match gets (Ulib.memset m buf 0 nbuf) buf nbuf inp with
  | None => None
  | Some (m, inp) => Some (m, inp, if ld m buf =? 0 then -1 else 0)
  end.

(** What main does with a line: change the directory, or run the command in a
    child (that parses the line). *)
Inductive action : Type :=
| Chdir (path : str)
| Run (r : parsed mem (cmd span)).

(** The loop of main, for at most [n] lines. *)
Fixpoint main_loop (n : nat) (m : mem) (buf nbuf : Z) (inp : list Z) : list action :=
  match n with
  | O => []
  | S n' =>
      match getcmd m buf nbuf inp with
      | Some (m, inp, 0) =>
          if (ld m buf =? 99) && (ld m (buf + 1) =? 100) && (ld m (buf + 2) =? 32) then
            match Ulib.strlen (S (Z.to_nat nbuf)) m buf with
            | None => []
            | Some len =>
                let m := st m (buf + len - 1) 0 in
                Chdir (cstr m (buf + 3) (Z.to_nat nbuf)) :: main_loop n' m buf nbuf inp
            end
          else Run (parsecmd (Z.to_nat nbuf + 3) m buf) :: main_loop n' m buf nbuf inp
      | _ => []
      end
  end.

(** The loop of main that makes sure that descriptors 0, 1 and 2 are open. *)
Fixpoint open_consoles (n : nat) (t : fdtab) : fdtab :=
  match n with
  | O => t
  | S n' =>
      match lowest t with
      | None => t
      | Some fd =>
          let t := <[fd := Some (Opened (bytes "console") O_RDWR)]> t in
          if (3 <=? fd)%nat then close (Z.of_nat fd) t else open_consoles n' t
      end
  end.

(** * What the programs of a command are connected to *)

(** The programs that a command runs, each with its standard input and output. *)
Fixpoint programs (c : cmd str) (i o : ofile) (id : list bool) : list (list str * ofile * ofile) :=
  match c with
  | EXEC [] => []
  | EXEC argv => [(argv, i, o)]
  | REDIR c f mode fd => if fd =? 0 then programs c (Opened f mode) o id else programs c i (Opened f mode) id
  | PIPE l r => programs l i (PipeW id) (false :: id) ++ programs r (PipeR id) o (true :: id)
  | LIST l r => programs l i o (false :: id) ++ programs r i o (true :: id)
  | BACK c => programs c i o (false :: id)
  end.

(** The programs that are run when the system calls succeed, with their open files. *)
Fixpoint execs (r : run) : list (list str * fdtab) :=
  match r with
  | Exit => []
  | Exec argv t _ => [(argv, t)]
  | Fork child parent _ => execs child ++ execs parent
  | Wait _ k | Open _ _ _ k _ | Piped k _ | Print _ k => execs k
  end.

(** The open files of the processes that wait for others. *)
Fixpoint waits (r : run) : list fdtab :=
  match r with
  | Exit | Exec _ _ _ => []
  | Fork child parent _ => waits child ++ waits parent
  | Wait t k => t :: waits k
  | Open _ _ _ k _ | Piped k _ | Print _ k => waits k
  end.

(** Descriptors beyond 0 and 1: [rest], of which two are free. *)
Definition two_free (rest : fdtab) : Prop :=
  exists a b, rest !! a = Some None /\ rest !! b = Some None /\ a <> b.

Lemma lowest_spec t k : lowest t = Some k -> t !! k = Some None.
Proof.
  revert k. induction t as [|[f|] t IH]; intros k H; [done| |now injection H as <-].
  cbn in H. destruct (lowest t) as [k'|]; [|done]. injection H as <-. cbn. now apply IH.
Qed.

Lemma lowest_free t a : t !! a = Some None -> exists k, lowest t = Some k.
Proof.
  revert a. induction t as [|[f|] t IH]; intros a H; [done| |now exists 0%nat].
  destruct a as [|a]; [done|]. destruct (IH a H) as (k & E). exists (S k). cbn. now rewrite E.
Qed.

Lemma list_insert_twice {A} (l : list A) k x y : l !! k = Some y -> <[k := y]> (<[k := x]> l) = l.
Proof. intros H. rewrite list_insert_insert_eq. now apply list_insert_id. Qed.

Lemma lowest_cons2 i o t k : lowest t = Some k -> lowest (Some i :: Some o :: t) = Some (S (S k)).
Proof. intros E. cbn. now rewrite E. Qed.

(** pipe takes two free descriptors beyond 0 and 1. *)
Lemma pipe_spec id i o rest :
  two_free rest ->
  exists a b rest', pipe id (Some i :: Some o :: rest) = Some (S (S a), S (S b), Some i :: Some o :: rest') /\
    a <> b /\ rest' !! a = Some (Some (PipeR id)) /\ rest' !! b = Some (Some (PipeW id)) /\
    <[b := None]> (<[a := None]> rest') = rest.
Proof.
  intros (x & y & Hx & Hy & Hne). destruct (lowest_free rest x Hx) as (a & Ea). pose proof (lowest_spec _ _ Ea) as Ha.
  assert (exists z, <[a := Some (PipeR id)]> rest !! z = Some None) as (z & Hz).
  { destruct (decide (a = x)) as [->|]; [exists y|exists x]; rewrite list_lookup_insert_ne; done. }
  destruct (lowest_free _ _ Hz) as (b & Eb). pose proof (lowest_spec _ _ Eb) as Hb.
  assert (Hab : a <> b).
  { intros <-. rewrite list_lookup_insert_eq in Hb; [done|]. now apply lookup_lt_Some in Ha. }
  exists a, b, (<[b := Some (PipeW id)]> (<[a := Some (PipeR id)]> rest)).
  rewrite list_lookup_insert_ne in Hb by done.
  split_and!; [|done| | |].
  - unfold pipe. rewrite (lowest_cons2 i o rest a Ea).
    change (<[S (S a) := Some (PipeR id)]> (Some i :: Some o :: rest)) with (Some i :: Some o :: <[a := Some (PipeR id)]> rest).
    now rewrite (lowest_cons2 i o _ b Eb).
  - rewrite list_lookup_insert_ne by done. apply list_lookup_insert_eq. now apply lookup_lt_Some in Ha.
  - apply list_lookup_insert_eq. rewrite length_insert. now apply lookup_lt_Some in Hb.
  - rewrite (list_insert_insert_ne _ a b) by done. rewrite (list_insert_twice _ b); [now apply list_insert_twice|].
    rewrite list_insert_insert_eq, list_lookup_insert_ne; done.
Qed.

Lemma close_S2 a t i o : close (Z.of_nat (S (S a))) (i :: o :: t) = i :: o :: <[a := None]> t.
Proof. unfold close. rewrite Nat2Z.id. done. Qed.

(** The child of a pipe command after its calls of close and dup. *)
Lemma pipe_left a b i o rest id :
  rest !! b = Some (Some (PipeW id)) ->
  close (Z.of_nat (S (S b))) (close (Z.of_nat (S (S a))) (dup (S (S b)) (close 1 (Some i :: Some o :: rest)))) =
    Some i :: Some (PipeW id) :: <[b := None]> (<[a := None]> rest).
Proof.
  intros Hb. change (close 1 (Some i :: Some o :: rest)) with (Some i :: None :: rest). unfold dup.
  change ((Some i :: None :: rest) !! S (S b)) with (rest !! b). rewrite Hb. cbn [mjoin option_join].
  change (lowest (Some i :: None :: rest)) with (Some 1%nat). cbv iota.
  change (<[1%nat := Some (PipeW id)]> (Some i :: None :: rest)) with (Some i :: Some (PipeW id) :: rest). now rewrite !close_S2.
Qed.

Lemma pipe_right a b i o rest id :
  rest !! a = Some (Some (PipeR id)) ->
  close (Z.of_nat (S (S b))) (close (Z.of_nat (S (S a))) (dup (S (S a)) (close 0 (Some i :: Some o :: rest)))) =
    Some (PipeR id) :: Some o :: <[b := None]> (<[a := None]> rest).
Proof.
  intros Ha. change (close 0 (Some i :: Some o :: rest)) with (None :: Some o :: rest). unfold dup.
  change ((None :: Some o :: rest) !! S (S a)) with (rest !! a). rewrite Ha. cbn [mjoin option_join lowest].
  change (<[0%nat := Some (PipeR id)]> (None :: Some o :: rest)) with (Some (PipeR id) :: Some o :: rest). now rewrite !close_S2.
Qed.

(** C37: runcmd connects the programs of a command as the command says: when the
    system calls succeed, the programs it runs are those of the command, each with
    its standard input and output from the redirections and the pipes around it;
    the other descriptors are those of the shell, so no end of a pipe is left open
    in a program, nor in a process that waits for others, and the readers of a pipe
    see its end. *)
Theorem runcmd_connects (c : cmd str) (i o : ofile) (rest : fdtab) (id : list bool) :
  cmd_ok c -> two_free rest ->
  execs (runcmd c (Some i :: Some o :: rest) id) =
    (fun '(argv, i, o) => (argv, Some i :: Some o :: rest)) <$> programs c i o id /\
  Forall (fun t => exists i o, t = Some i :: Some o :: rest) (waits (runcmd c (Some i :: Some o :: rest) id)).
Proof.
  intros Hok Hrest. revert i o id Hok. induction c as [argv|c IH f mode fd|l IHl r IHr|l IHl r IHr|c IH]; intros i o id Hok; cbn [cmd_ok] in Hok.
  - now destruct argv.
  - destruct Hok as [Hr Hok]. unfold redir_ok in Hr. rewrite orb_true_iff, !andb_true_iff, !Z.eqb_eq in Hr.
    cbn [runcmd programs]. destruct Hr as [[_ ->]|[_ ->]]; [exact (IH _ o id Hok)|exact (IH i _ id Hok)].
  - destruct Hok as [Hl Hr]. destruct (pipe_spec id i o rest Hrest) as (a & b & rest' & E & Hab & Ha & Hb & Hrest').
    cbn [runcmd programs]. rewrite E, (pipe_left a b i o rest' id Hb), (pipe_right a b i o rest' id Ha), !close_S2, Hrest'.
    cbn [fork1 execs waits]. rewrite fmap_app, app_nil_r. destruct (IHl i (PipeW id) (false :: id) Hl) as [-> Hwl],
      (IHr (PipeR id) o (true :: id) Hr) as [-> Hwr]. split; [done|]. rewrite !Forall_app. split_and!; [done|done|].
    repeat constructor; now exists i, o.
  - destruct Hok as [Hl Hr]. cbn [runcmd programs fork1 execs waits]. rewrite fmap_app.
    destruct (IHl i o (false :: id) Hl) as [-> Hwl], (IHr i o (true :: id) Hr) as [-> Hwr]. split; [done|].
    rewrite Forall_app, Forall_cons. split_and!; [done|now exists i, o|done].
  - cbn [runcmd programs fork1 execs waits]. rewrite !app_nil_r. exact (IH i o (false :: id) Hok).
Qed.

(** * The loop of main *)

(** gets reads a line that fits into the buffer. *)
Lemma gets_from_line w n m buf max i rest :
  Forall (fun c => c <> 10 /\ c <> 13) w -> i + Z.of_nat (length w) + 1 < max -> (length w < n)%nat ->
  gets_from n m buf max i (w ++ 10 :: rest) = Some (sts m (buf + i) (w ++ [10; 0]), rest).
Proof.
  revert n m i. induction w as [|c w IH]; intros n m i Hw Hm Hn; (destruct n as [|n]; [cbn in Hn; lia|]); cbn [app gets_from length] in *.
  - rewrite (proj2 (Z.ltb_lt _ _)) by lia. cbn [Z.eqb Pos.eqb orb sts]. now rewrite Z.add_assoc.
  - apply Forall_cons in Hw as [[H1 H2] Hw]. rewrite (proj2 (Z.ltb_lt _ _)) by lia.
    rewrite (proj2 (Z.eqb_neq c 10)), (proj2 (Z.eqb_neq c 13)) by done. cbn [orb].
    rewrite IH; [|done|lia|lia]. cbn [sts]. do 3 f_equal. lia.
Qed.

(** A line that is typed: its text ends at the first newline, and fits. *)
Definition typed (max : Z) (l : str) : Prop :=
  exists w, l = w ++ [10] /\ Forall (fun c => c <> 10 /\ c <> 13) w /\ Z.of_nat (length l) < max.

Lemma getcmd_line m buf nbuf l rest :
  typed nbuf l -> Forall (fun c => c <> 0) l ->
  exists m', getcmd m buf nbuf (l ++ rest) = Some (m', rest, 0) /\ lds m' buf (length l) = l /\ ld m' (buf + Z.of_nat (length l)) = 0.
Proof.
  intros (w & -> & Hw & Hlen) Hnz. rewrite length_app in Hlen. cbn [length] in Hlen.
  set (m0 := Ulib.memset m buf 0 nbuf). exists (sts m0 buf (w ++ [10; 0])).
  assert (Hm : lds (sts m0 buf (w ++ [10; 0])) buf (length ((w ++ [10]) ++ [0])) = (w ++ [10]) ++ [0]).
  { rewrite <- app_assoc. apply lds_sts_same. }
  rewrite length_app, lds_app in Hm. apply app_inj_1 in Hm as [Hl Hz]; [|apply length_lds].
  split_and!; [|exact Hl|now injection Hz].
  unfold getcmd, gets. fold m0. rewrite <- app_assoc. cbn [app].
  rewrite (gets_from_line w) by (done || lia). rewrite Z.add_0_r, (proj2 (Z.eqb_neq _ 0)); [done|].
  assert (Hh : lds (sts m0 buf (w ++ [10; 0])) buf (length (w ++ [10])) !! 0%nat = Some (ld (sts m0 buf (w ++ [10; 0])) buf)).
  { rewrite lds_lookup by (rewrite length_app; cbn; lia). now rewrite Z.add_0_r. }
  rewrite Hl in Hh. rewrite Forall_lookup in Hnz. now apply (Hnz 0%nat).
Qed.

(** The end of the input. *)
Lemma getcmd_eof m buf nbuf : 1 < nbuf -> exists m', getcmd m buf nbuf [] = Some (m', [], -1).
Proof.
  intros Hn. unfold getcmd, gets. cbn [gets_from]. rewrite (proj2 (Z.ltb_lt (0 + 1) nbuf)) by lia. rewrite Z.add_0_r, ld_st_eq.
  eexists. reflexivity.
Qed.

(** The test for cd. *)
Lemma not_cd m buf l :
  lds m buf (length l) = l -> ld m (buf + Z.of_nat (length l)) = 0 -> take 3 l <> bytes "cd " ->
  (ld m buf =? 99) && (ld m (buf + 1) =? 100) && (ld m (buf + 2) =? 32) = false.
Proof.
  intros Hl Hz Hne. apply not_true_iff_false. intros [[H1 H2]%andb_true_iff H3]%andb_true_iff. apply Z.eqb_eq in H1, H2, H3.
  apply Hne. destruct l as [|a [|b [|c l]]]; cbn [length] in Hz.
  { change (Z.of_nat 0) with 0 in Hz. rewrite Z.add_0_r in Hz. congruence. }
  { change (Z.of_nat 1) with 1 in Hz. congruence. }
  { change (Z.of_nat 2) with 2 in Hz. congruence. }
  cbn [lds length] in Hl. injection Hl as <- <- <- _. rewrite <- Z.add_assoc. change (1 + 1) with 2. cbn [take]. now rewrite H1, H2, H3.
Qed.

(** The shell runs the commands that are typed, in their order, up to the end of
    the input: for each line, the text of a command that is not cd, a child parses
    the line and has that command. *)
Theorem main_runs_lines (cs : list (cmd str)) (ls : list str) (m : mem) (buf : Z) :
  Forall2 (fun c l => cmd_ok c /\ spells (print 3 c) l) cs ls -> Forall (typed 100) ls ->
  Forall (fun l => take 3 l <> bytes "cd ") ls ->
  Forall2 (fun c a => exists d m', a = Run (POk d m') /\ cmd_rel (string_is m') c d)
    cs (main_loop (S (length ls)) m buf 100 (mjoin ls)).
Proof.
  intros H. revert m. induction H as [|c l cs ls [Hc Hl] _ IH]; intros m Ht Hcd.
  - destruct (getcmd_eof m buf 100) as (m' & E); [lia|]. cbn [length main_loop mjoin list_join]. rewrite E. constructor.
  - apply Forall_cons in Ht as [Hty Ht], Hcd as [Hne Hcd].
    destruct (getcmd_line m buf 100 l (mjoin ls) Hty (spells_nonzero _ _ Hl)) as (m1 & Hg & Hm & Hz).
    change (mjoin (l :: ls)) with (l ++ mjoin ls). cbn [length]. remember (S (length ls)) as k. cbn [main_loop]. rewrite Hg. cbv iota. subst k.
    destruct Hty as (w & _ & _ & Hlen).
    destruct (reads_text (Z.to_nat 100 + 3) m1 buf c l Hc Hl Hm Hz) as (d & m' & Hp & Hr); [lia|]. rewrite Hp.
    rewrite (not_cd m1 buf l) by done. constructor; [eauto|]. apply IH; done.
Qed.

Module Pipeline.
(** ls | grep x > out, with the shell's three descriptors open. *)
Definition command : cmd str :=
  PIPE (EXEC [bytes "ls"]) (REDIR (EXEC [bytes "grep"; bytes "x"]) (bytes "out") (Z.lor O_WRONLY O_CREATE) 1).
Definition rest : fdtab := Some (Inherited 2) :: replicate 13 None.

Lemma runcmd_connects_witness :
  execs (runcmd command (Some (Inherited 0) :: Some (Inherited 1) :: rest) []) =
    [([bytes "ls"], Some (Inherited 0) :: Some (PipeW []) :: rest);
     ([bytes "grep"; bytes "x"], Some (PipeR []) :: Some (Opened (bytes "out") 0x201) :: rest)].
Proof.
  assert (Hok : cmd_ok command) by (cbn; unfold MAXARGS; repeat split; lia).
  assert (Hfree : two_free rest) by (exists 1%nat, 2%nat; split_and!; done).
  destruct (runcmd_connects command (Inherited 0) (Inherited 1) rest [] Hok Hfree) as [-> _]. reflexivity.
Defined.

(** A session of two lines. *)
Definition lines : list str := [bytes "ls" ++ [10]; bytes "wc x" ++ [10]].
Definition commands : list (cmd str) := [EXEC [bytes "ls"]; EXEC [bytes "wc"; bytes "x"]].

Lemma lines_spell : Forall2 (fun c l => cmd_ok c /\ spells (print 3 c) l) commands lines.
Proof.
  constructor; [|constructor; [|constructor]]; (split; [cbn; unfold MAXARGS; lia|]).
  - refine (spells_word (bytes "ls") _ _ _ _ _ _); [done|now repeat constructor|done|]. apply spells_ws; [done|]. apply spells_nil.
  - refine (spells_word (bytes "wc") _ _ _ _ _ _); [done|now repeat constructor|done|]. apply spells_ws; [done|].
    refine (spells_word (bytes "x") _ _ _ _ _ _); [done|now repeat constructor|done|]. apply spells_ws; [done|]. apply spells_nil.
Qed.

Lemma main_runs_lines_witness :
  Forall2 (fun c a => exists d m', a = Run (POk d m') /\ cmd_rel (string_is m') c d)
    commands (main_loop 3 ∅ 1000 100 (mjoin lines)).
Proof.
  apply (main_runs_lines commands lines ∅ 1000 lines_spell).
  - repeat constructor; eexists; (split_and!; [reflexivity|repeat constructor; discriminate|cbn; lia]).
  - repeat constructor; discriminate.
Defined.
End Pipeline.
