(* ===== verification/Kalloc.v ===== *)
(** kalloc.c: the physical page allocator.  The free list is threaded through
    the free pages themselves, in byte memory. *)
From S2P Require Import Prelude Monad Mem Mmu Cstring.
From Stdlib Require Import Permutation.

(** [kmem], with the memory the free list lives in. *)
Record kmem : Type := Kmem {
  k_mem : mem;
  k_freelist : Z;       (* struct run *freelist; 0 is the null pointer *)
  k_use_lock : bool
}.

Definition set_mem (f : mem -> mem) (k : kmem) : kmem :=
  Kmem (f (k_mem k)) (k_freelist k) (k_use_lock k).
Definition set_freelist (v : Z) (k : kmem) : kmem := Kmem (k_mem k) v (k_use_lock k).
Definition set_use_lock (b : bool) (k : kmem) : kmem := Kmem (k_mem k) (k_freelist k) b.

Section Kalloc.
(** [extern char end[]]: first address after the kernel image, set by the
    linker. *)
Variable kend : Z.

Definition kfree (v : Z) : M kmem unit :=
  if negb (v mod PGSIZE =? 0) || (v <? kend) || (PHYSTOP <=? V2P v) then panic "kfree"
  else
    modify (set_mem (fun m => memset m v 1 PGSIZE)) ;;;
    let* ul := gets k_use_lock in
    when ul (acquire LKmem) ;;;
    let* fl := gets k_freelist in
    modify (set_mem (fun m => st32 m v fl)) ;;;
    modify (set_freelist v) ;;;
    when ul (release LKmem).

Definition kalloc : M kmem Z :=
  let* ul := gets k_use_lock in
  when ul (acquire LKmem) ;;;
  let* r := gets k_freelist in
  when (negb (r =? 0)) (modify (fun k => set_freelist (ld32 (k_mem k) r) k)) ;;;
  when ul (release LKmem) ;;;
  ret r.

(** [for(; p + PGSIZE <= vend; p += PGSIZE) kfree(p);] *)
Fixpoint freerange_from (fuel : nat) (p vend : Z) : M kmem unit :=
  match fuel with
  | O => fun _ _ => OutOfFuel
  | S n =>
      if u32 (p + PGSIZE) <=? vend then
        kfree p ;;; freerange_from n (u32 (p + PGSIZE)) vend
      else ret tt
  end.

(** The fuel is one more than the number of whole pages in the range. *)
Definition freerange (vstart vend : Z) : M kmem unit :=
  freerange_from (Z.to_nat ((vend - PGROUNDUP vstart) / PGSIZE) + 1)%nat (PGROUNDUP vstart) vend.

Definition kinit1 (vstart vend : Z) : M kmem unit :=
  modify (set_use_lock false) ;;;
  freerange vstart vend.

Definition kinit2 (vstart vend : Z) : M kmem unit :=
  freerange vstart vend ;;;
  modify (set_use_lock true).

(** * The free list as a list *)

(** A page address that [kfree] accepts. *)
Definition page_ok (v : Z) : Prop :=
  v mod PGSIZE = 0 /\ kend <= v /\ KERNBASE < v /\ v + PGSIZE <= KERNBASE + PHYSTOP.

(** [l] is the list of free pages, from the head. *)
Fixpoint chain (m : mem) (head : Z) (l : list Z) : Prop :=
  match l with
  | [] => head = 0
  | p :: l' => head = p /\ chain m (ld32 m p) l'
  end.

Definition kmem_ok (k : kmem) (l : list Z) : Prop :=
  chain (k_mem k) (k_freelist k) l /\ Forall page_ok l /\ NoDup l.

Lemma page_ok_u32 v : page_ok v -> is_u32 v /\ v <> 0 /\ v + PGSIZE <= 4294967296.
Proof. unfold page_ok, KERNBASE, PHYSTOP, PGSIZE, is_u32. lia. Qed.

Lemma page_ok_check v :
  page_ok v -> negb (v mod PGSIZE =? 0) || (v <? kend) || (PHYSTOP <=? V2P v) = false.
Proof.
  intros (H1 & H2 & H3 & H4). rewrite H1. unfold V2P.
  rewrite u32_small by (unfold is_u32, KERNBASE, PHYSTOP, PGSIZE in *; lia).
  unfold KERNBASE, PHYSTOP, PGSIZE in *. simpl.
  destruct (Z.ltb_spec v kend), (Z.leb_spec 0xE000000 (v - 0x80000000)); simpl; lia.
Qed.

(** Different pages do not overlap. *)
Lemma pages_apart p q :
  p mod PGSIZE = 0 -> q mod PGSIZE = 0 -> p <> q -> p + PGSIZE <= q \/ q + PGSIZE <= p.
Proof.
  unfold PGSIZE. intros Hp Hq Hne.
  pose proof (Z_div_mod_eq_full p 4096). pose proof (Z_div_mod_eq_full q 4096). lia.
Qed.

Lemma chain_ext m m' head l :
  chain m head l -> (forall p, p ∈ l -> ld32 m' p = ld32 m p) -> chain m' head l.
Proof.
  revert head. induction l as [|p l IH]; intros head; simpl; [done|].
  intros [-> H] He. split; [done|]. rewrite He by set_solver. apply IH; [done|].
  intros q Hq. apply He. set_solver.
Qed.

(** Memory that agrees outside page [v]. *)
Definition same_outside (v : Z) (m m' : mem) : Prop :=
  forall a, ~ v <= a < v + PGSIZE -> ld m' a = ld m a.

Lemma same_outside_ld32 v m m' p :
  same_outside v m m' -> v mod PGSIZE = 0 -> p mod PGSIZE = 0 -> p <> v ->
  ld32 m' p = ld32 m p.
Proof.
  intros H Hv Hp Hne. destruct (pages_apart p v Hp Hv Hne) as [Ha|Ha];
    apply ld32_ext; intros i Hi; apply H; unfold PGSIZE in *; lia.
Qed.

Lemma wp_kfree v l k (Q : unit -> ctx -> kmem -> Prop) c :
  kmem_ok k l -> page_ok v -> v ∉ l -> LKmem ∉ held c ->
  (forall k', kmem_ok k' (v :: l) -> same_outside v (k_mem k) (k_mem k') ->
     k_use_lock k' = k_use_lock k -> Q tt c k') ->
  wp (kfree v) Q c k.
Proof.
  intros (Hch & Hpg & Hnd) Hv Hnin Hlk HQ. unfold kfree. rewrite page_ok_check by done.
  destruct (page_ok_u32 v Hv) as (Hu & _). pose proof Hv as (Hal & _).
  set (k' := Kmem (st32 (memset (k_mem k) v 1 PGSIZE) v (k_freelist k)) v (k_use_lock k)).
  assert (Hso : same_outside v (k_mem k) (k_mem k')).
  { intros a Ha. simpl. rewrite ld_st32_ne by (unfold PGSIZE in *; lia).
    rewrite ld_memset by done. destruct (withinP v PGSIZE a); [lia|done]. }
  assert (Hfl : is_u32 (k_freelist k)).
  { destruct l as [|p l]; simpl in Hch; [rewrite Hch; unfold is_u32; lia|].
    destruct Hch as [-> _]. apply Forall_cons in Hpg as [Hp _]. now apply page_ok_u32. }
  assert (Hok : kmem_ok k' (v :: l)).
  { split; [|split; [now constructor|now constructor]]. simpl. split; [done|].
    rewrite ld32_st32_eq by done. eapply chain_ext; [exact Hch|].
    intros p Hp. eapply same_outside_ld32; [exact Hso|done| |].
    - rewrite Forall_forall in Hpg. now apply Hpg.
    - intros ->. done. }
  destruct c as [h w]. wp_steps. change (k_use_lock (set_mem _ k)) with (k_use_lock k).
  subst k'. destruct k as [m fl []]; simpl in *; wp_steps; apply HQ; done.
Qed.

Lemma wp_kalloc l k (Q : Z -> ctx -> kmem -> Prop) c :
  kmem_ok k l -> LKmem ∉ held c ->
  (match l with
   | [] => Q 0 c k
   | p :: l' => forall k', kmem_ok k' l' -> k_mem k' = k_mem k -> k_use_lock k' = k_use_lock k -> Q p c k'
   end) ->
  wp kalloc Q c k.
Proof.
  intros (Hch & Hpg & Hnd) Hlk HQ. unfold kalloc. destruct c as [h w]. wp_steps.
  destruct l as [|p l']; simpl in Hch.
  - destruct (k_use_lock k) eqn:Eu; wp_steps; rewrite Hch; simpl; wp_steps; exact HQ.
  - destruct Hch as [Efl Hch]. apply Forall_cons in Hpg as [Hp Hpg].
    apply NoDup_cons in Hnd as [Hn Hnd].
    destruct (page_ok_u32 p Hp) as (_ & Hnz & _).
    assert (Hk' : kmem_ok (set_freelist (ld32 (k_mem k) p) k) l') by (split; [|split]; done).
    destruct (k_use_lock k) eqn:Eu; wp_steps; rewrite Efl; (destruct (Z.eqb_spec p 0); [done|]);
      simpl; wp_steps; apply HQ; done.
Qed.

(** The [n] pages from address [s]. *)
Definition pages_from (s : Z) (n : nat) : list Z := (fun i => s + PGSIZE * i) <$> zrange n.

Lemma pages_from_S s n : pages_from s (S n) = s :: pages_from (s + PGSIZE) n.
Proof.
  unfold pages_from, zrange. cbn [seq fmap list_fmap]. f_equal; [unfold PGSIZE; lia|].
  rewrite <- fmap_S_seq, <- !list_fmap_compose. apply list_fmap_ext. intros i x _.
  simpl. unfold PGSIZE. lia.
Qed.

Lemma elem_of_pages_from s n p :
  p ∈ pages_from s n <-> exists i, p = s + PGSIZE * i /\ 0 <= i < Z.of_nat n.
Proof.
  unfold pages_from. rewrite list_elem_of_fmap. setoid_rewrite elem_of_zrange. done.
Qed.

Lemma freerange_from_spec n s vend l k c :
  kmem_ok k l -> LKmem ∉ held c ->
  s mod PGSIZE = 0 -> kend <= s -> KERNBASE < s ->
  s <= vend <= KERNBASE + PHYSTOP ->
  n = Z.to_nat ((vend - s) / PGSIZE) ->
  (forall p, p ∈ l -> p ∉ pages_from s n) ->
  wp (freerange_from (n + 1) s vend)
    (fun _ c' k' => c' = c /\ kmem_ok k' (reverse (pages_from s n) ++ l) /\
       k_use_lock k' = k_use_lock k /\ forall a, ~ s <= a < vend -> ld (k_mem k') a = ld (k_mem k) a) c k.
Proof.
  revert s l k. induction n as [|n IH]; intros s l k Hok Hlk Hal Hke Hkb Hv En Hdis.
  - simpl. rewrite u32_small by (unfold is_u32, KERNBASE, PHYSTOP, PGSIZE in *; lia).
    destruct (Z.leb_spec (s + PGSIZE) vend) as [Hle|Hle].
    + exfalso. assert (1 <= (vend - s) / PGSIZE) by (apply Z.div_le_lower_bound; unfold PGSIZE in *; lia). lia.
    + apply wp_ret. done.
  - assert (Hle : s + PGSIZE <= vend).
    { destruct (Z.le_gt_cases (s + PGSIZE) vend) as [H|H]; [done|]. exfalso.
      rewrite Z.div_small in En by (unfold PGSIZE in *; lia). done. }
    cbn [Nat.add freerange_from].
    rewrite u32_small by (unfold is_u32, KERNBASE, PHYSTOP, PGSIZE in *; lia).
    destruct (Z.leb_spec (s + PGSIZE) vend); [|lia]. apply wp_bind.
    rewrite pages_from_S in Hdis.
    eapply (wp_kfree s l); [done| |intros Hs; apply (Hdis s Hs), elem_of_cons; now left|done|].
    { split; [done|]. split; [done|]. split; [done|lia]. }
    intros k' Hok' Hso Hul.
    assert (Hapart : s ∉ pages_from (s + PGSIZE) n).
    { rewrite elem_of_pages_from. intros (i & Hi & Hr). unfold PGSIZE in *. lia. }
    eapply wp_mono; [apply (IH (s + PGSIZE) (s :: l) k')|]; [done..| | | | | | |].
    + rewrite Z.add_mod, Hal by done. reflexivity.
    + unfold PGSIZE in *. lia.
    + unfold PGSIZE in *. lia.
    + lia.
    + replace (vend - (s + PGSIZE)) with (vend - s + (-1) * PGSIZE) by lia.
      rewrite Z.div_add by done. lia.
    + intros p Hp. apply elem_of_cons in Hp as [->|Hp]; [done|].
      intros Hin. apply (Hdis p Hp), elem_of_cons. now right.
    + simpl. intros _ c' k2 (-> & Hk2 & Hu2 & Hm2). split; [done|]. split; [|split; [congruence|]].
      * rewrite pages_from_S, reverse_cons, <- app_assoc. exact Hk2.
      * intros a Ha. rewrite Hm2, Hso by (unfold PGSIZE in *; lia). done.
Qed.

(** * A client of the allocator *)

(** A client that owns the pages [own] may allocate, write inside its pages and
    free them, in any order. *)
Inductive client_step (c : ctx) : kmem * list Z -> kmem * list Z -> Prop :=
| cs_alloc k k' own p :
    kalloc c k = Ret p c k' -> p <> 0 -> client_step c (k, own) (k', p :: own)
| cs_empty k k' own :
    kalloc c k = Ret 0 c k' -> client_step c (k, own) (k', own)
| cs_free k k' o1 o2 p :
    kfree p c k = Ret tt c k' -> client_step c (k, o1 ++ p :: o2) (k', o1 ++ o2)
| cs_write k own p a v :
    p ∈ own -> p <= a < p + PGSIZE ->
    client_step c (k, own) (set_mem (fun m => st m a v) k, own).

Definition client_inv (pool : list Z) (s : kmem * list Z) : Prop :=
  exists l, kmem_ok s.1 l /\ Permutation (l ++ s.2) pool /\ NoDup pool /\ Forall page_ok pool.

Lemma client_own_page (pool : list Z) (s : kmem * list Z) p : client_inv pool s -> p ∈ s.2 -> page_ok p.
Proof.
  intros (l & _ & Hp & _ & Hf) Hin. rewrite Forall_forall in Hf. apply Hf.
  rewrite <- Hp. set_solver.
Qed.

Lemma client_own_not_free (l own : list Z) p : NoDup (l ++ own) -> p ∈ own -> p ∉ l.
Proof. intros H Hp Hl. apply NoDup_app in H as (_ & H & _). eapply H; eauto. Qed.

Lemma client_step_inv pool c s s' :
  LKmem ∉ held c -> client_inv pool s -> client_step c s s' -> client_inv pool s'.
Proof.
  intros Hlk Hinv Hs. pose proof Hinv as (l & Hok & Hp & Hnd & Hf).
  assert (Hnd' : NoDup (l ++ s.2)) by now rewrite Hp.
  destruct Hs as [k k' own p E Hnz|k k' own E|k k' o1 o2 p E|k own p a v Hin Ha]; simpl in *.
  - destruct (wp_inv kalloc (fun r _ k1 => match l with [] => r = 0 | q :: l' => r = q /\ kmem_ok k1 l' end) c k)
      as (r & c1 & k1 & E1 & H1).
    { eapply wp_kalloc; [done..|]. destruct l; [done|]. auto. }
    rewrite E in E1. injection E1 as <- <- <-. destruct l as [|q l']; [done|].
    destruct H1 as [-> H1]. exists l'. split; [done|]. split; [|done].
    rewrite <- Hp. simpl. now rewrite Permutation_middle.
  - destruct (wp_inv kalloc (fun r _ k1 => match l with [] => k1 = k | q :: l' => r = q end) c k)
      as (r & c1 & k1 & E1 & H1).
    { eapply wp_kalloc; [done..|]. destruct l; [done|]. auto. }
    rewrite E in E1. injection E1 as <- <- <-. destruct l as [|q l'].
    + subst k'. now exists [].
    + rewrite <- H1 in Hok. exfalso. destruct Hok as (_ & Hpg & _). apply Forall_cons in Hpg as [Hpg _].
      apply page_ok_u32 in Hpg as (_ & Hz & _). done.
  - assert (Hpin : p ∈ o1 ++ p :: o2) by set_solver.
    destruct (wp_inv (kfree p) (fun _ _ k1 => kmem_ok k1 (p :: l)) c k) as (r & c1 & k1 & E1 & H1).
    { eapply wp_kfree; [done|exact (client_own_page pool (k, o1 ++ p :: o2) p Hinv Hpin)| |done|auto].
      eapply client_own_not_free; eauto. }
    rewrite E in E1. injection E1 as <- <- <-. exists (p :: l). split; [done|]. split; [|done].
    rewrite <- Hp. simpl. rewrite !app_assoc. apply Permutation_middle.
  - exists l. split; [|done]. destruct Hok as (Hch & Hpg & Hndl). split; [|done]. simpl.
    eapply chain_ext; [exact Hch|]. intros q Hq.
    pose proof (client_own_page pool (k, own) p Hinv Hin) as (Hal & _).
    eapply (same_outside_ld32 p); [|done| |].
    + intros b Hb. apply ld_st_ne. intros ->. done.
    + rewrite Forall_forall in Hpg. now apply Hpg.
    + intros ->. eapply client_own_not_free; eauto.
Qed.

End Kalloc.

(** * Properties *)

Lemma freerange_spec kend vstart vend l k c :
  kmem_ok kend k l -> LKmem ∉ held c ->
  KERNBASE < vstart -> kend <= vstart -> vstart + 4095 < vend -> vend <= KERNBASE + PHYSTOP ->
  (forall p, p ∈ l -> p + PGSIZE <= vstart) ->
  let s := PGROUNDUP vstart in
  wp (freerange kend vstart vend)
    (fun _ c' k' => c' = c /\
       kmem_ok kend k' (reverse (pages_from s (Z.to_nat ((vend - s) / PGSIZE))) ++ l) /\
       k_use_lock k' = k_use_lock k /\ forall a, ~ s <= a < vend -> ld (k_mem k') a = ld (k_mem k) a) c k.
Proof.
  intros Hok Hlk Hkb Hke Hlt Hve Hdis s. unfold freerange. subst s.
  assert (Es : PGROUNDUP vstart = (vstart + 4095) / PGSIZE * PGSIZE)
    by (apply PGROUNDUP_eq; unfold KERNBASE, PHYSTOP in *; lia).
  assert (Hs : vstart <= PGROUNDUP vstart <= vstart + 4095).
  { rewrite Es. unfold PGSIZE. pose proof (Z_div_mod_eq_full (vstart + 4095) 4096).
    pose proof (Z.mod_pos_bound (vstart + 4095) 4096). lia. }
  apply freerange_from_spec; [done..| |lia|lia|lia|done|].
  - rewrite Es. now rewrite Z.mod_mul.
  - intros p Hp Hin. apply elem_of_pages_from in Hin as (i & -> & Hi).
    specialize (Hdis _ Hp). unfold PGSIZE in *. lia.
Qed.

(** The two phases of the allocator's initialisation.  kinit1(vstart, vend)
    on an empty free list puts exactly the whole pages of [vstart, vend) on it;
    kinit2(vstart, vend) adds exactly the whole pages of its range to whatever
    lower pages are free, and turns locking on.  Neither panics, and each loop
    ends within its fuel. *)
Theorem kinit_frees_range kend vstart vend k l c :
  KERNBASE < vstart -> kend <= vstart -> vstart + 4095 < vend -> vend <= KERNBASE + PHYSTOP ->
  LKmem ∉ held c ->
  let s := PGROUNDUP vstart in
  let range := reverse (pages_from s (Z.to_nat ((vend - s) / PGSIZE))) in
  (k_freelist k = 0 ->
     wp (kinit1 kend vstart vend)
       (fun _ c' k' => c' = c /\ kmem_ok kend k' range /\ k_use_lock k' = false) c k) /\
  (kmem_ok kend k l -> (forall p, p ∈ l -> p + PGSIZE <= vstart) ->
     wp (kinit2 kend vstart vend)
       (fun _ c' k' => c' = c /\ kmem_ok kend k' (range ++ l) /\ k_use_lock k' = true) c k).
Proof.
  intros Hkb Hke Hlt Hve Hlk s range. subst s range. split.
  - intros Hfl. unfold kinit1. wp_steps.
    eapply wp_mono; [apply (freerange_spec kend vstart vend []); try done|].
    + split; [exact Hfl|]. split; constructor.
    + intros p Hp. now apply elem_of_nil in Hp.
    + simpl. intros _ c' k' (-> & Hk & Hu & _). rewrite app_nil_r in Hk. done.
  - intros Hok Hdis. unfold kinit2. apply wp_bind.
    eapply wp_mono; [apply (freerange_spec kend vstart vend l); done|].
    simpl. intros _ c' k' (-> & Hk & Hu & _). wp_steps. done.
Qed.

(** C6: the allocator never hands out a page twice.  Whatever a client does with
    the pages it owns (allocate more, write anywhere inside them, free them in
    any order), the pages it owns are distinct, are not on the free list, and
    with the free list make up exactly the pages the allocator started with;
    freeing an owned page does not panic. *)
Theorem kalloc_no_double_allocation kend c k0 pool k own :
  LKmem ∉ held c -> kmem_ok kend k0 pool ->
  rtc (client_step kend c) (k0, []) (k, own) ->
  NoDup own /\
  (exists l, kmem_ok kend k l /\ Permutation (l ++ own) pool /\ NoDup (l ++ own)) /\
  (forall p, p ∈ own -> exists k', kfree kend p c k = Ret tt c k').
Proof.
  intros Hlk Hok Hr.
  assert (Hinv : client_inv kend pool (k, own)).
  { assert (H0 : client_inv kend pool (k0, [])).
    { exists pool. destruct Hok as (? & ? & ?). simpl. rewrite app_nil_r. done. }
    clear Hok. remember (k0, []) as s0. remember (k, own) as s1. clear Heqs0 Heqs1.
    induction Hr; eauto using client_step_inv. }
  pose proof Hinv as (l & Hl & Hp & Hnd & Hf). simpl in *.
  assert (Hnd' : NoDup (l ++ own)) by now rewrite Hp.
  split; [now apply NoDup_app in Hnd' as (_ & _ & ?)|]. split; [now exists l|].
  intros p Hin. destruct (wp_inv (kfree kend p) (fun _ c' _ => c' = c) c k)
    as ([] & c' & k' & E & ->); [|eauto].
  eapply wp_kfree; [done|exact (client_own_page kend pool (k, own) p Hinv Hin)| |done|done].
  eapply client_own_not_free; eauto.
Qed.

(** The first page of the kernel's heap in these examples. *)
Definition heap0 : Z := 0x80116000.

Lemma kinit_frees_range_witness :
  wp (kinit1 0x801154a8 0x801154a8 (P2V (4 * 1024 * 1024)))
    (fun _ c' k' => c' = Ctx [] [] /\
       kmem_ok 0x801154a8 k' (reverse (pages_from heap0 746)) /\ k_use_lock k' = false)
    (Ctx [] []) (Kmem ∅ 0 false) /\
  k_use_lock (Kmem ∅ 0 false) = false.
Proof.
  split; [|reflexivity].
  assert (Hlk : LKmem ∉ held (Ctx [] [])) by (intros H; inversion H).
  exact (proj1 (kinit_frees_range 0x801154a8 0x801154a8 (P2V (4 * 1024 * 1024)) (Kmem ∅ 0 false) []
    (Ctx [] []) eq_refl ltac:(vm_compute; discriminate) eq_refl ltac:(vm_compute; discriminate) Hlk)
    eq_refl).
Defined.

(** A free list of two pages. *)
Definition two_pages : kmem := Kmem (st32 ∅ heap0 (heap0 + PGSIZE)) heap0 true.

Lemma kalloc_no_double_allocation_witness :
  NoDup [heap0 + PGSIZE; heap0].
Proof.
  assert (Hlk : LKmem ∉ held (Ctx [] [])) by (intros H; inversion H).
  assert (Hok : kmem_ok heap0 two_pages [heap0; heap0 + PGSIZE]).
  { split; [vm_compute; auto|]. split.
    - constructor; [|constructor; [|constructor]]; (split; [reflexivity|]);
        (split; [vm_compute; discriminate|]); (split; [reflexivity|]); vm_compute; discriminate.
    - unfold heap0, PGSIZE. constructor; [set_unfold; lia|]. constructor; [set_unfold; lia|constructor]. }
  refine (proj1 (kalloc_no_double_allocation heap0 (Ctx [] []) two_pages _
     (Kmem (k_mem two_pages) 0 true) [heap0 + PGSIZE; heap0] Hlk Hok _)).
  eapply rtc_l; [apply cs_alloc; [reflexivity|vm_compute; discriminate]|].
  eapply rtc_l; [apply cs_alloc; [reflexivity|vm_compute; discriminate]|].
  apply rtc_refl.
Defined.
