(* ===== verification/Vm.v ===== *)
(** vm.c: page tables and user memory.  Page directories and page tables are
    pages of byte memory, as the MMU reads them; the allocator is kalloc.c's. *)
From S2P Require Import Prelude Monad Mem Mmu Cstring Kalloc.

Section Vm.
Variable kend : Z.
(** [extern char data[]]: start of the kernel's writable data, set by the
    linker. *)
Variable kdata : Z.

Definition load (a : Z) : M kmem Z := gets (fun k => ld32 (k_mem k) a).
Definition store (a w : Z) : M kmem unit := modify (set_mem (fun m => st32 m a w)).
Definition fill (a c n : Z) : M kmem unit := modify (set_mem (fun m => memset m a c n)).

(** Address of the PTE for [va] in page table [pgdir]; 0 when there is none and
    [alloc] is false or memory has run out. *)
Definition walkpgdir (pgdir va : Z) (alloc : bool) : M kmem Z :=
  let pde := pgdir + 4 * PDX va in
  let* v := load pde in
  if negb (Z.land v PTE_P =? 0) then ret (P2V (PTE_ADDR v) + 4 * PTX va)
  else if negb alloc then ret 0
  else
    let* pgtab := kalloc in
    if pgtab =? 0 then ret 0
    else
      fill pgtab 0 PGSIZE ;;;
      store pde (Z.lor (Z.lor (Z.lor (V2P pgtab) PTE_P) PTE_W) PTE_U) ;;;
      ret (pgtab + 4 * PTX va).

(** The [for(;;)] of [mappages]: from page [a] to page [last]. *)
Fixpoint mappages_from (fuel : nat) (pgdir a last pa perm : Z) : M kmem Z :=
  match fuel with
  | O => fun _ _ => OutOfFuel
  | S n =>
      let* pte := walkpgdir pgdir a true in
      if pte =? 0 then ret (-1)
      else
        let* v := load pte in
        if negb (Z.land v PTE_P =? 0) then panic "remap"
        else
          store pte (Z.lor (Z.lor pa perm) PTE_P) ;;;
          if a =? last then ret 0
          else mappages_from n pgdir (u32 (a + PGSIZE)) last (u32 (pa + PGSIZE)) perm
  end.

(** The loop runs once per page from [a] to [last], wrapping included. *)
Definition mappages (pgdir va size pa perm : Z) : M kmem Z :=
  let a := PGROUNDDOWN va in
  let last := PGROUNDDOWN (u32 (va + size - 1)) in
  mappages_from (Z.to_nat (u32 (last - a) / PGSIZE) + 1)%nat pgdir a last pa perm.

(** struct kmap and the kernel's four mappings: virt, phys_start, phys_end, perm. *)
Record kmap_entry : Type := Kmap { km_virt : Z; km_start : Z; km_end : Z; km_perm : Z }.
Definition kmap : list kmap_entry :=
  [ Kmap KERNBASE 0 EXTMEM PTE_W;
    Kmap KERNLINK (V2P KERNLINK) (V2P kdata) 0;
    Kmap kdata (V2P kdata) PHYSTOP PTE_W;
    Kmap DEVSPACE DEVSPACE 0 PTE_W ].

(** [for(; a < oldsz; a += PGSIZE)] of [deallocuvm]; a missing page table skips
    to the next directory entry. *)
Fixpoint deallocuvm_from (fuel : nat) (pgdir a oldsz : Z) : M kmem unit :=
  match fuel with
  | O => fun _ _ => OutOfFuel
  | S n =>
      if a <? oldsz then
        let* pte := walkpgdir pgdir a false in
        if pte =? 0 then
          let a := u32 (PGADDR (PDX a + 1) 0 0 - PGSIZE) in
          deallocuvm_from n pgdir (u32 (a + PGSIZE)) oldsz
        else
          let* v := load pte in
          (if negb (Z.land v PTE_P =? 0) then
             let pa := PTE_ADDR v in
             if pa =? 0 then panic "kfree"
             else kfree kend (P2V pa) ;;; store pte 0
           else ret tt) ;;;
          deallocuvm_from n pgdir (u32 (a + PGSIZE)) oldsz
      else ret tt
  end.

Definition deallocuvm (pgdir oldsz newsz : Z) : M kmem Z :=
  if oldsz <=? newsz then ret oldsz
  else
    deallocuvm_from (Z.to_nat (oldsz / PGSIZE) + 2)%nat pgdir (PGROUNDUP newsz) oldsz ;;;
    ret newsz.

Definition freevm (pgdir : Z) : M kmem unit :=
  if pgdir =? 0 then panic "freevm: no pgdir"
  else
    deallocuvm pgdir KERNBASE 0 ;;;
    for_ (zrange NPDENTRIES) (fun i =>
      let* pde := load (pgdir + 4 * i) in
      when (negb (Z.land pde PTE_P =? 0)) (kfree kend (P2V (PTE_ADDR pde)))) ;;;
    kfree kend pgdir.

Definition setupkvm : M kmem Z :=
  let* pgdir := kalloc in
  if pgdir =? 0 then ret 0
  else
    fill pgdir 0 PGSIZE ;;;
    if DEVSPACE <? P2V PHYSTOP then panic "PHYSTOP too high"
    else
      forb kmap (fun k =>
        let* r := mappages pgdir (km_virt k) (u32 (km_end k - km_start k)) (km_start k) (km_perm k) in
        if r <? 0 then freevm pgdir ;;; ret (Some 0) else ret None)
      (ret pgdir).

(** Load the initcode, [len] bytes at [init], at address 0 of [pgdir]. *)
Definition inituvm (pgdir init sz : Z) : M kmem unit :=
  if PGSIZE <=? sz then panic "inituvm: more than a page"
  else
    let* m := kalloc in
    if m =? 0 then panic "trap"    (* memset(0, ...): no page is mapped at address 0 yet *)
    else
    fill m 0 PGSIZE ;;;
    mappages pgdir 0 PGSIZE (V2P m) (Z.lor PTE_W PTE_U) ;;;
    modify (set_mem (fun mm => memmove mm m init sz)).

(** [loaduvm] and [copyout] also reach the file system and the current address
    space, so they run in a state [K] of which the page allocator's is a part. *)
Section Outer.
Context {K : Type} (inkm : forall A, M kmem A -> M K A).
Arguments inkm {A}.

(** [readi a off n] fills the kernel buffer at address [a] with file bytes and
    returns their number. *)
Fixpoint loaduvm_from (fuel : nat) (readi : Z -> Z -> Z -> M K Z) (pgdir addr offset i sz : Z) : M K Z :=
  match fuel with
  | O => fun _ _ => OutOfFuel
  | S f =>
      if i <? sz then
        let* pte := inkm (walkpgdir pgdir (u32 (addr + i)) false) in
        if pte =? 0 then panic "loaduvm: address should exist"
        else
          let* v := inkm (load pte) in
          let pa := PTE_ADDR v in
          let n := if u32 (sz - i) <? PGSIZE then u32 (sz - i) else PGSIZE in
          let* r := readi (P2V pa) (u32 (offset + i)) n in
          if negb (r =? n) then ret (-1)
          else loaduvm_from f readi pgdir addr offset (u32 (i + PGSIZE)) sz
      else ret 0
  end.
Definition loaduvm (readi : Z -> Z -> Z -> M K Z) (pgdir addr offset sz : Z) : M K Z :=
  if negb (addr mod PGSIZE =? 0) then panic "loaduvm: addr must be page aligned"
  else loaduvm_from (Z.to_nat (sz / PGSIZE) + 2)%nat readi pgdir addr offset 0 sz.

(** [uva2ka] reads through the pointer [walkpgdir] returned without testing it;
    [null_word] reads the word at virtual address 0. *)
Definition uva2ka (null_word : M K Z) (pgdir uva : Z) : M K Z :=
  let* pte := inkm (walkpgdir pgdir uva false) in
  let* v := (if pte =? 0 then null_word else inkm (load pte)) in
  if Z.land v PTE_P =? 0 then ret 0
  else if Z.land v PTE_U =? 0 then ret 0
  else ret (P2V (PTE_ADDR v)).

(** [fetch k n] reads the [n] bytes at [p + k]; [tot] of them are copied. *)
Fixpoint copyout_from (fuel : nat) (null_word : M K Z) (fetch : Z -> Z -> M K (list Z)) (pgdir va tot len : Z)
  : M K Z :=
  match fuel with
  | O => fun _ _ => OutOfFuel
  | S f =>
      if 0 <? len then
        let va0 := PGROUNDDOWN va in
        let* pa0 := uva2ka null_word pgdir va0 in
        if pa0 =? 0 then ret (-1)
        else
          let n := PGSIZE - (va - va0) in
          let n := if len <? n then len else n in
          let* bs := fetch tot n in
          inkm (modify (set_mem (fun m => sts m (pa0 + (va - va0)) bs))) ;;;
          copyout_from f null_word fetch pgdir (u32 (va0 + PGSIZE)) (tot + n) (len - n)
      else ret 0
  end.
Definition copyout (null_word : M K Z) (fetch : Z -> Z -> M K (list Z)) (pgdir va len : Z) : M K Z :=
  copyout_from (Z.to_nat (len / PGSIZE) + 3)%nat null_word fetch pgdir va 0 len.
End Outer.

Fixpoint allocuvm_from (fuel : nat) (pgdir a oldsz newsz : Z) : M kmem Z :=
  match fuel with
  | O => fun _ _ => OutOfFuel
  | S n =>
      if a <? newsz then
        let* m := kalloc in
        if m =? 0 then
          deallocuvm pgdir newsz oldsz ;;; ret 0
        else
          fill m 0 PGSIZE ;;;
          let* r := mappages pgdir a PGSIZE (V2P m) (Z.lor PTE_W PTE_U) in
          if r <? 0 then
            deallocuvm pgdir newsz oldsz ;;;
            kfree kend m ;;;
            ret 0
          else allocuvm_from n pgdir (u32 (a + PGSIZE)) oldsz newsz
      else ret newsz
  end.

Definition allocuvm (pgdir oldsz newsz : Z) : M kmem Z :=
  if KERNBASE <=? newsz then ret 0
  else if newsz <? oldsz then ret oldsz
  else allocuvm_from (Z.to_nat (newsz / PGSIZE) + 2)%nat pgdir (PGROUNDUP oldsz) oldsz newsz.

Definition clearpteu (pgdir uva : Z) : M kmem unit :=
  let* pte := walkpgdir pgdir uva false in
  if pte =? 0 then panic "clearpteu"
  else
    let* v := load pte in
    store pte (Z.land v (u32 (Z.lnot PTE_U))).

Fixpoint copyuvm_from (fuel : nat) (pgdir d i sz : Z) : M kmem Z :=
  match fuel with
  | O => fun _ _ => OutOfFuel
  | S n =>
      if i <? sz then
        let* pte := walkpgdir pgdir i false in
        if pte =? 0 then panic "copyuvm: pte should exist"
        else
          let* v := load pte in
          if Z.land v PTE_P =? 0 then panic "copyuvm: page not present"
          else
            let pa := PTE_ADDR v in
            let flags := PTE_FLAGS v in
            let* m := kalloc in
            if m =? 0 then freevm d ;;; ret 0
            else
              modify (set_mem (fun mm => memmove mm m (P2V pa) PGSIZE)) ;;;
              let* r := mappages d i PGSIZE (V2P m) flags in
              if r <? 0 then freevm d ;;; ret 0
              else copyuvm_from n pgdir d (u32 (i + PGSIZE)) sz
      else ret d
  end.

Definition copyuvm (pgdir sz : Z) : M kmem Z :=
  let* d := setupkvm in
  if d =? 0 then ret 0
  else copyuvm_from (Z.to_nat (sz / PGSIZE) + 2)%nat pgdir d 0 sz.

(** * The mapping a page table describes *)

Definition present (v : Z) : bool := negb (Z.land v PTE_P =? 0).
Definition pde_at (m : mem) (pgdir i : Z) : Z := ld32 m (pgdir + 4 * i).
Definition pgtab_of (pde : Z) : Z := P2V (PTE_ADDR pde).

(** The page-table entry the MMU finds for [va]; 0 when the directory entry is
    not present. *)
Definition pte_val (m : mem) (pgdir va : Z) : Z :=
  if present (pde_at m pgdir (PDX va))
  then ld32 m (pgtab_of (pde_at m pgdir (PDX va)) + 4 * PTX va) else 0.

(** [pgdir] is a page directory whose tables are allocated, distinct pages;
    [l] is the free list. *)
Record pgdir_ok (m : mem) (pgdir : Z) (l : list Z) : Prop := {
  po_page : page_ok kend pgdir;
  po_free : pgdir ∉ l;
  po_tab i : 0 <= i < 1024 -> present (pde_at m pgdir i) = true ->
    page_ok kend (pgtab_of (pde_at m pgdir i)) /\ (pgtab_of (pde_at m pgdir i) ∉ l) /\
    pgtab_of (pde_at m pgdir i) <> pgdir;
  po_inj i j : 0 <= i < 1024 -> 0 <= j < 1024 ->
    present (pde_at m pgdir i) = true -> present (pde_at m pgdir j) = true ->
    pgtab_of (pde_at m pgdir i) = pgtab_of (pde_at m pgdir j) -> i = j
}.

(** A page that is neither free nor part of the page table. *)
Definition data_page (m : mem) (pgdir : Z) (l : list Z) (q : Z) : Prop :=
  q mod PGSIZE = 0 /\ (q ∉ l) /\ q <> pgdir /\
  forall i, 0 <= i < 1024 -> present (pde_at m pgdir i) = true -> q <> pgtab_of (pde_at m pgdir i).

(** A word of one page is untouched by a store into another page. *)
Lemma ld32_other_page m p q i j w :
  p mod PGSIZE = 0 -> q mod PGSIZE = 0 -> p <> q -> 0 <= i < 1024 -> 0 <= j < 1024 ->
  ld32 (st32 m (p + 4 * i) w) (q + 4 * j) = ld32 m (q + 4 * j).
Proof.
  intros Hp Hq Hne Hi Hj. apply ld32_st32_ne.
  destruct (pages_apart p q Hp Hq Hne); unfold PGSIZE in *; lia.
Qed.

Lemma ld_other_page m p q i w a :
  p mod PGSIZE = 0 -> q mod PGSIZE = 0 -> p <> q -> 0 <= i < 1024 -> q <= a < q + PGSIZE ->
  ld (st32 m (p + 4 * i) w) a = ld m a.
Proof.
  intros Hp Hq Hne Hi Ha. apply ld_st32_ne.
  destruct (pages_apart p q Hp Hq Hne); unfold PGSIZE in *; lia.
Qed.

Lemma page_aligned p : page_ok kend p -> p mod PGSIZE = 0.
Proof. now intros (H & _). Qed.
Create HintDb vm.
#[local] Hint Resolve page_aligned PDX_range PTX_range : vm.

Lemma pde_at_store_tab m pgdir l t j w i :
  pgdir_ok m pgdir l -> t mod PGSIZE = 0 -> t <> pgdir -> 0 <= j < 1024 -> 0 <= i < 1024 ->
  pde_at (st32 m (t + 4 * j) w) pgdir i = pde_at m pgdir i.
Proof.
  intros Hok Ht Hne Hj Hi. unfold pde_at. apply ld32_other_page; auto.
  apply page_aligned, (po_page _ _ _ Hok).
Qed.

Lemma pgdir_ok_ext m m' pgdir l l' :
  pgdir_ok m pgdir l -> (forall i, 0 <= i < 1024 -> pde_at m' pgdir i = pde_at m pgdir i) ->
  (forall x, x ∈ l' -> x ∈ l) -> pgdir_ok m' pgdir l'.
Proof.
  intros [Hp Hf Ht Hi] He Hl. split; [done|auto| |].
  - intros i H. rewrite He by done. intros Hpr. destruct (Ht i H Hpr) as (? & Hn & ?).
    split; [done|]. split; [|done]. intros Hx. exact (Hn (Hl _ Hx)).
  - intros i j H1 H2. rewrite !He by done. now apply Hi.
Qed.

(** Storing [w] in the entry for [va] changes the mapping of [va]'s page only. *)
Lemma pte_val_store m pgdir l va w va' :
  pgdir_ok m pgdir l -> present (pde_at m pgdir (PDX va)) = true -> is_u32 w ->
  pte_val (st32 m (pgtab_of (pde_at m pgdir (PDX va)) + 4 * PTX va) w) pgdir va' =
  if (PDX va' =? PDX va) && (PTX va' =? PTX va) then w else pte_val m pgdir va'.
Proof.
  intros Hok Hp Hw. destruct (po_tab _ _ _ Hok (PDX va) (PDX_range va) Hp) as (Ht & _ & Hne).
  unfold pte_val. rewrite (pde_at_store_tab m pgdir l) by auto with vm.
  destruct (present (pde_at m pgdir (PDX va'))) eqn:Hp'.
  - destruct (po_tab _ _ _ Hok (PDX va') (PDX_range va') Hp') as (Ht' & _ & _).
    pose proof (PTX_range va) as R1. pose proof (PTX_range va') as R2.
    destruct (Z.eqb_spec (PDX va') (PDX va)) as [->|Hd]; simpl.
    + destruct (Z.eqb_spec (PTX va') (PTX va)) as [->|Hx].
      * now apply ld32_st32_eq.
      * apply ld32_st32_ne. lia.
    + apply ld32_other_page; auto with vm. intros E.
      apply Hd. symmetry. eapply (po_inj _ _ _ Hok); auto with vm.
  - destruct (Z.eqb_spec (PDX va') (PDX va)) as [E|Hd]; [|done]. congruence.
Qed.

(** * walkpgdir *)

Lemma wp_walkpgdir_present pgdir va alloc Q c k :
  present (pde_at (k_mem k) pgdir (PDX va)) = true ->
  Q (pgtab_of (pde_at (k_mem k) pgdir (PDX va)) + 4 * PTX va) c k ->
  wp (walkpgdir pgdir va alloc) Q c k.
Proof.
  intros Hp HQ. unfold walkpgdir, load. wp_steps. fold (pde_at (k_mem k) pgdir (PDX va)).
  fold (present (pde_at (k_mem k) pgdir (PDX va))). rewrite Hp. now apply wp_ret.
Qed.

Lemma wp_walkpgdir_absent pgdir va Q c k :
  present (pde_at (k_mem k) pgdir (PDX va)) = false ->
  Q 0 c k -> wp (walkpgdir pgdir va false) Q c k.
Proof.
  intros Hp HQ. unfold walkpgdir, load. wp_steps. fold (pde_at (k_mem k) pgdir (PDX va)).
  fold (present (pde_at (k_mem k) pgdir (PDX va))). rewrite Hp. now apply wp_ret.
Qed.

(** The directory entry [walkpgdir] writes for a new table. *)
Definition new_pde (t : Z) : Z := Z.lor (Z.lor (Z.lor (V2P t) PTE_P) PTE_W) PTE_U.

Lemma new_pde_facts t :
  page_ok kend t -> is_u32 (new_pde t) /\ present (new_pde t) = true /\ pgtab_of (new_pde t) = t.
Proof.
  intros (Hal & _ & Hkb & Hps).
  assert (Hr : KERNBASE <= t < KERNBASE + PHYSTOP) by (unfold PGSIZE in *; lia).
  assert (E : new_pde t = Z.lor (V2P t) 7) by (unfold new_pde; now rewrite <- !Z.lor_assoc).
  assert (Hm : V2P t mod PGSIZE = 0).
  { rewrite V2P_small by done. rewrite Zminus_mod, Hal. reflexivity. }
  assert (Hu : is_u32 (V2P t)) by (apply u32_range).
  rewrite E. split; [|split].
  - rewrite lor_page_flags by (unfold PGSIZE; done || lia). unfold is_u32 in *.
    rewrite V2P_small in * by done. unfold KERNBASE, PHYSTOP, PGSIZE in *. lia.
  - unfold present, PTE_P. rewrite PTE_lor_land by (unfold PGSIZE; done || lia). reflexivity.
  - unfold pgtab_of. rewrite PTE_ADDR_lor by (unfold PGSIZE; done || lia). now apply P2V_V2P.
Qed.


Lemma ld32_memset_other m t v n a :
  0 <= n -> a + 4 <= t \/ t + n <= a -> ld32 (memset m t v n) a = ld32 m a.
Proof.
  intros Hn H. apply ld32_ext. intros i Hi. rewrite ld_memset by done.
  destruct (withinP t n (a + i)); [lia|done].
Qed.

Lemma ld32_memset_zero m t n a :
  0 <= n -> t <= a -> a + 4 <= t + n -> ld32 (memset m t 0 n) a = 0.
Proof.
  intros Hn H1 H2. unfold ld32. rewrite (lds_ext _ ∅ a a 4); [reflexivity|].
  intros i Hi. rewrite ld_memset by done. destruct (withinP t n (a + i)); [done|lia].
Qed.

(** A table page is added to the directory: nothing is mapped or unmapped. *)
Lemma add_table m pgdir t l va :
  pgdir_ok m pgdir (t :: l) -> page_ok kend t -> t ∉ l ->
  present (pde_at m pgdir (PDX va)) = false ->
  let m' := st32 (memset m t 0 PGSIZE) (pgdir + 4 * PDX va) (new_pde t) in
  (forall i, 0 <= i < 1024 ->
     pde_at m' pgdir i = if i =? PDX va then new_pde t else pde_at m pgdir i) /\
  pgdir_ok m' pgdir l /\
  (forall va', pte_val m' pgdir va' = pte_val m pgdir va') /\
  (forall q a, q mod PGSIZE = 0 -> q <> t -> q <> pgdir -> q <= a < q + PGSIZE -> ld m' a = ld m a).
Proof.
  intros Hok Ht Htl Habs m'. destruct (new_pde_facts t Ht) as (Hnu & Hnp & Hnt).
  pose proof (page_aligned t Ht) as Hta. pose proof (page_aligned _ (po_page _ _ _ Hok)) as Hpa.
  assert (Htp : t <> pgdir) by (intros ->; apply (po_free _ _ _ Hok), elem_of_cons; now left).
  assert (Hpde : forall i, 0 <= i < 1024 ->
     pde_at m' pgdir i = if i =? PDX va then new_pde t else pde_at m pgdir i).
  { intros i Hi. unfold pde_at, m'. destruct (Z.eqb_spec i (PDX va)) as [->|Hne].
    - now apply ld32_st32_eq.
    - rewrite ld32_st32_ne by lia. apply ld32_memset_other; [done|].
      destruct (pages_apart t pgdir Hta Hpa Htp); unfold PGSIZE in *; lia. }
  assert (Htab : forall i, 0 <= i < 1024 -> present (pde_at m pgdir i) = true ->
     pgtab_of (pde_at m pgdir i) <> t).
  { intros i Hi Hp E. destruct (po_tab _ _ _ Hok i Hi Hp) as (_ & Hn & _).
    apply Hn. rewrite E. apply elem_of_cons. now left. }
  split; [done|]. split; [|split].
  - split; [apply Hok|intros Hx; apply (po_free _ _ _ Hok), elem_of_cons; now right| |].
    + intros i Hi. rewrite Hpde by done. destruct (Z.eqb_spec i (PDX va)) as [->|Hne].
      * intros _. rewrite Hnt. auto.
      * intros Hp. destruct (po_tab _ _ _ Hok i Hi Hp) as (? & Hn & ?). split; [done|].
        split; [|done]. intros Hx. apply Hn, elem_of_cons. now right.
    + intros i j Hi Hj. rewrite !Hpde by done.
      destruct (Z.eqb_spec i (PDX va)) as [->|Hi'], (Z.eqb_spec j (PDX va)) as [->|Hj'];
        rewrite ?Hnt; intros Hp Hq E; [done| | |].
      * exfalso. now apply (Htab j).
      * exfalso. now apply (Htab i).
      * eapply (po_inj _ _ _ Hok); eauto.
  - intros va'. unfold pte_val. rewrite Hpde by apply PDX_range.
    pose proof (PTX_range va') as Rx. pose proof (PDX_range va) as Rd.
    destruct (Z.eqb_spec (PDX va') (PDX va)) as [->|Hne].
    + rewrite Hnp, Habs, Hnt. unfold m'. rewrite ld32_other_page by auto.
      apply ld32_memset_zero; unfold PGSIZE; lia.
    + destruct (present (pde_at m pgdir (PDX va'))) eqn:Hp; [|done].
      destruct (po_tab _ _ _ Hok _ (PDX_range va') Hp) as (Hq & _ & Hqp).
      pose proof (Htab _ (PDX_range va') Hp) as Hqt. unfold m'.
      rewrite ld32_other_page by auto with vm. apply ld32_memset_other; [done|].
      destruct (pages_apart t _ Hta (page_aligned _ Hq) (not_eq_sym Hqt)); unfold PGSIZE in *; lia.
  - intros q a Hqa Hqt Hqp Ha. unfold m'. rewrite (ld_other_page _ pgdir q) by auto with vm.
    rewrite ld_memset by done. destruct (withinP t PGSIZE a); [|done].
    destruct (pages_apart t q Hta Hqa); auto; unfold PGSIZE in *; lia.
Qed.

(** Memory outside the free pages, the directory and its tables. *)
Definition data_same (m m' : mem) (pgdir : Z) (l : list Z) : Prop :=
  forall q a, data_page m pgdir l q -> q <= a < q + PGSIZE -> ld m' a = ld m a.

(** The number of tables of the directory. *)
Definition ntab (m : mem) (pgdir : Z) : nat :=
  length (filter (fun i => present (pde_at m pgdir i) = true) (zrange 1024)).

Lemma ntab_ext m m' pgdir :
  (forall i, 0 <= i < 1024 -> present (pde_at m' pgdir i) = present (pde_at m pgdir i)) -> ntab m' pgdir = ntab m pgdir.
Proof.
  intros H. unfold ntab. f_equal. apply list_filter_ext_in. intros i Hi. apply elem_of_zrange in Hi. now rewrite H.
Qed.

Lemma ntab_add m m' pgdir j :
  0 <= j < 1024 -> present (pde_at m pgdir j) = false ->
  (forall i, 0 <= i < 1024 -> present (pde_at m' pgdir i) = if i =? j then true else present (pde_at m pgdir i)) ->
  ntab m' pgdir = S (ntab m pgdir).
Proof.
  intros Hj Ha H. unfold ntab.
  assert (Hin : j ∈ zrange 1024) by (apply elem_of_zrange; lia). apply list_elem_of_split in Hin as (l1 & l2 & E).
  pose proof (NoDup_zrange 1024) as Hnd. rewrite E in Hnd. apply NoDup_app in Hnd as (_ & H1 & H2).
  apply NoDup_cons in H2 as [H2 _].
  assert (Same : forall l : list Z, (forall i, i ∈ l -> i <> j /\ 0 <= i < 1024) ->
    filter (fun i => present (pde_at m' pgdir i) = true) l = filter (fun i => present (pde_at m pgdir i) = true) l).
  { intros l Hl. apply list_filter_ext_in. intros i Hi. destruct (Hl i Hi) as [Hne Hr].
    rewrite H by done. now destruct (Z.eqb_spec i j). }
  assert (Hr : forall i, i ∈ l1 ++ j :: l2 -> 0 <= i < 1024) by (intros i Hi; rewrite <- E, elem_of_zrange in Hi; exact Hi).
  rewrite E, !filter_app, !filter_cons, !length_app. rewrite decide_True by (rewrite H, Z.eqb_refl by lia; done).
  rewrite decide_False by now rewrite Ha. rewrite !Same; [cbn [length]; lia| |].
  - intros i Hi. split; [|apply Hr, elem_of_app; right; now right]. intros ->. now apply H2.
  - intros i Hi. split; [|apply Hr, elem_of_app; now left]. intros ->. apply (H1 j Hi). left.
Qed.

(** Tables for a few indexes only. *)
Lemma ntab_le m pgdir (l : list Z) :
  (forall i, 0 <= i < 1024 -> present (pde_at m pgdir i) = true -> i ∈ l) -> (ntab m pgdir <= length l)%nat.
Proof.
  intros H. unfold ntab. apply submseteq_length, NoDup_submseteq; [apply NoDup_filter, NoDup_zrange|].
  intros i Hi. apply list_elem_of_filter in Hi as [Hp Hi]. apply elem_of_zrange in Hi. now apply H.
Qed.

Lemma ntab_lt m pgdir (l : list Z) j :
  (forall i, 0 <= i < 1024 -> present (pde_at m pgdir i) = true -> i ∈ l) ->
  j ∈ l -> present (pde_at m pgdir j) = false -> (ntab m pgdir < length l)%nat.
Proof.
  intros H Hj Ha. unfold ntab.
  set (x := filter _ _). change (length (j :: x) <= length l)%nat.
  apply submseteq_length, NoDup_submseteq; [constructor; [|apply NoDup_filter, NoDup_zrange]|].
  - intros Hx. apply list_elem_of_filter in Hx as [Hp _]. congruence.
  - intros i Hi. apply elem_of_cons in Hi as [->|Hi]; [done|].
    apply list_elem_of_filter in Hi as [Hp Hi]. apply elem_of_zrange in Hi. now apply H.
Qed.

Lemma ntab_ge m pgdir (l : list Z) :
  NoDup l -> (forall i, i ∈ l -> 0 <= i < 1024 /\ present (pde_at m pgdir i) = true) -> (length l <= ntab m pgdir)%nat.
Proof.
  intros Hnd H. unfold ntab. apply submseteq_length, NoDup_submseteq; [done|]. intros i Hi.
  apply list_elem_of_filter. rewrite elem_of_zrange. destruct (H i Hi). auto.
Qed.

Lemma ntab_mono m m' pgdir :
  (forall i, 0 <= i < 1024 -> present (pde_at m' pgdir i) = true -> present (pde_at m pgdir i) = true) ->
  (ntab m' pgdir <= ntab m pgdir)%nat.
Proof.
  intros H. apply ntab_le. intros i Hi Hp. apply list_elem_of_filter. rewrite elem_of_zrange. auto.
Qed.

(** From [k] to [k'] the page table may have taken pages from the free list,
    one for each table it got, and pages that are in use for something else are
    as before. *)
Definition grows (pgdir : Z) (k : kmem) (l : list Z) (k' : kmem) (l' : list Z) : Prop :=
  kmem_ok kend k' l' /\ pgdir_ok (k_mem k') pgdir l' /\ l' `suffix_of` l /\
  (forall q, data_page (k_mem k) pgdir l q -> data_page (k_mem k') pgdir l' q) /\
  data_same (k_mem k) (k_mem k') pgdir l /\ k_use_lock k' = k_use_lock k /\
  (length l' + ntab (k_mem k') pgdir = length l + ntab (k_mem k) pgdir)%nat.

Lemma grows_refl pgdir k l :
  kmem_ok kend k l -> pgdir_ok (k_mem k) pgdir l -> grows pgdir k l k l.
Proof. intros Hk Hok. unfold grows, data_same. split_and!; auto; reflexivity. Qed.

Lemma grows_trans pgdir k l k1 l1 k2 l2 :
  grows pgdir k l k1 l1 -> grows pgdir k1 l1 k2 l2 -> grows pgdir k l k2 l2.
Proof.
  intros (_ & _ & S1 & D1 & E1 & U1 & N1) (K2 & O2 & S2 & D2 & E2 & U2 & N2).
  split; [done|]. split; [done|]. split; [exact (transitivity S2 S1)|]. split; [auto|]. split; [|split; [congruence|lia]].
  intros q a Hq Ha. rewrite (E2 q a) by auto. now apply (E1 q).
Qed.

(** What [walkpgdir(pgdir, va, 1)] does from a state that satisfies the
    invariant: it fails only with the free list empty, and otherwise returns
    the entry for [va], having changed no mapping. *)
Lemma wp_walkpgdir_alloc pgdir va l Q c k :
  kmem_ok kend k l -> pgdir_ok (k_mem k) pgdir l -> LKmem ∉ held c ->
  (l = [] -> present (pde_at (k_mem k) pgdir (PDX va)) = false -> Q 0 c k) ->
  (forall k' l', grows pgdir k l k' l' ->
     (forall va', pte_val (k_mem k') pgdir va' = pte_val (k_mem k) pgdir va') -> present (pde_at (k_mem k') pgdir (PDX va)) = true ->
     (forall i, 0 <= i < 1024 -> i <> PDX va -> pde_at (k_mem k') pgdir i = pde_at (k_mem k) pgdir i) ->
     Q (pgtab_of (pde_at (k_mem k') pgdir (PDX va)) + 4 * PTX va) c k') ->
  wp (walkpgdir pgdir va true) Q c k.
Proof.
  intros Hk Hok Hlk HQ0 HQ1. destruct (present (pde_at (k_mem k) pgdir (PDX va))) eqn:Hp.
  { apply wp_walkpgdir_present; [done|]. apply (HQ1 k l); [|done..]. now apply grows_refl. }
  unfold walkpgdir, load. wp_steps. fold (pde_at (k_mem k) pgdir (PDX va)).
  fold (present (pde_at (k_mem k) pgdir (PDX va))). rewrite Hp. simpl. apply wp_bind.
  eapply (wp_kalloc kend); [done..|]. destruct l as [|t l]; [now apply wp_ret, HQ0|].
  intros k1 Hk1 Hm1 Hu1. pose proof Hk as (_ & Hpg & Hnd).
  apply Forall_cons in Hpg as [Ht Hpg]. apply NoDup_cons in Hnd as [Htl Hnd].
  destruct (page_ok_u32 kend t Ht) as (_ & Hnz & _). destruct (Z.eqb_spec t 0); [done|].
  destruct (add_table (k_mem k) pgdir t l va Hok Ht Htl Hp) as (Hpde & Hok' & Hval & Hdat).
  unfold fill, store. wp_steps. fold (new_pde t).
  set (k' := set_mem (fun m => st32 m (pgdir + 4 * PDX va) (new_pde t))
               (set_mem (fun m => memset m t 0 PGSIZE) k1)).
  assert (Em : k_mem k' = st32 (memset (k_mem k) t 0 PGSIZE) (pgdir + 4 * PDX va) (new_pde t))
    by (unfold k'; simpl; now rewrite Hm1).
  destruct (new_pde_facts t Ht) as (_ & Hnp & Hnt).
  assert (Epde : pde_at (k_mem k') pgdir (PDX va) = new_pde t).
  { rewrite Em, Hpde by apply PDX_range. now rewrite Z.eqb_refl. }
  rewrite <- Hnt at 1. rewrite <- Epde. apply (HQ1 k' l); [|now rewrite Em|now rewrite Epde|].
  2:{ intros i Hi Hne. rewrite Em, Hpde by done. now destruct (Z.eqb_spec i (PDX va)). }
  assert (Htp : t <> pgdir) by (intros ->; apply (po_free _ _ _ Hok), elem_of_cons; now left).
  rewrite <- Em in *. split.
  { destruct Hk1 as (Hch & Hpg1 & Hnd1). split; [|done].
    change (k_freelist k') with (k_freelist k1). eapply chain_ext; [exact Hch|].
    intros p Hpl. assert (Hpp : page_ok kend p) by (rewrite Forall_forall in Hpg; auto).
    apply ld32_ext. intros i Hi. rewrite Hm1. apply (Hdat p); auto with vm; unfold PGSIZE; try lia.
    - intros ->. done.
    - intros ->. apply (po_free _ _ _ Hok), elem_of_cons. now right. }
  split; [done|]. split; [now exists [t]|]. split; [|split; [|split; [done|]]].
  - intros q (Hqa & Hql & Hqp & Hqt). split; [done|]. split; [intros Hx; apply Hql, elem_of_cons; now right|].
    split; [done|]. intros i Hi. rewrite Hpde by done. destruct (Z.eqb_spec i (PDX va)); [|now apply Hqt].
    intros _. rewrite Hnt. intros ->. apply Hql, elem_of_cons. now left.
  - intros q a (Hqa & Hql & Hqp & Hqt) Ha. apply (Hdat q); auto. intros ->. apply Hql, elem_of_cons. now left.
  - rewrite (ntab_add (k_mem k) (k_mem k') pgdir (PDX va)); [cbn [length]; lia|apply PDX_range|done|].
    intros i Hi. rewrite Hpde by done. destruct (Z.eqb_spec i (PDX va)); [exact Hnp|done].
Qed.

(** * mappages *)

(** The mapping [f] with [n] pages from [a] mapped to the pages from [pa]. *)
Definition mapped (a : Z) (n : nat) (pa perm : Z) (f : Z -> Z) (va : Z) : Z :=
  if within a (PGSIZE * Z.of_nat n) va
  then Z.lor (Z.lor (pa + PGSIZE * ((va - a) / PGSIZE)) perm) PTE_P else f va.

Lemma pte_word pa perm :
  is_u32 pa -> pa mod PGSIZE = 0 -> 0 <= perm < PGSIZE -> is_u32 (Z.lor (Z.lor pa perm) PTE_P).
Proof.
  intros Hu Ha Hp. rewrite <- Z.lor_assoc.
  assert (H : 0 <= Z.lor perm PTE_P < PGSIZE).
  { split; [apply Z.lor_nonneg; unfold PTE_P; lia|]. change PGSIZE with (2 ^ 12).
    apply Z.log2_lt_cancel. rewrite Z.log2_lor, Z.log2_pow2 by (unfold PTE_P; lia).
    apply Z.max_lub_lt; [|done]. destruct (Z.eq_dec perm 0) as [->|]; [done|].
    apply Z.log2_lt_pow2; unfold PGSIZE in *; lia. }
  rewrite lor_page_flags by done. unfold is_u32, PGSIZE in *.
  pose proof (Z_div_mod_eq_full pa 4096). lia.
Qed.

Lemma same_entry va va' :
  is_u32 va -> is_u32 va' ->
  (PDX va' =? PDX va) && (PTX va' =? PTX va) = (va' / PGSIZE =? va / PGSIZE).
Proof.
  intros H H'. rewrite (PDX_PTX_page va), (PDX_PTX_page va') by done.
  pose proof (PTX_range va). pose proof (PTX_range va').
  destruct (Z.eqb_spec (PDX va') (PDX va)), (Z.eqb_spec (PTX va') (PTX va)),
    (Z.eqb_spec (PDX va' * 1024 + PTX va') (PDX va * 1024 + PTX va)); simpl; lia.
Qed.

Lemma page_div a va :
  a mod PGSIZE = 0 -> (va / PGSIZE =? a / PGSIZE) = within a PGSIZE va.
Proof.
  intros Ha. unfold PGSIZE in *. pose proof (Z_div_mod_eq_full a 4096).
  pose proof (Z_div_mod_eq_full va 4096). pose proof (Z.mod_pos_bound va 4096).
  destruct (withinP a 4096 va), (Z.eqb_spec (va / 4096) (a / 4096)); lia.
Qed.

(** Storing an entry in the page table. *)
Lemma grows_store pgdir k l va w :
  kmem_ok kend k l -> pgdir_ok (k_mem k) pgdir l ->
  present (pde_at (k_mem k) pgdir (PDX va)) = true ->
  let pte := pgtab_of (pde_at (k_mem k) pgdir (PDX va)) + 4 * PTX va in
  grows pgdir k l (set_mem (fun m => st32 m pte w) k) l.
Proof.
  intros (Hch & Hpg & Hnd) Hok Hp pte.
  destruct (po_tab _ _ _ Hok _ (PDX_range va) Hp) as (Ht & Htl & Htp).
  assert (Epde : forall i, 0 <= i < 1024 ->
    pde_at (k_mem (set_mem (fun m => st32 m pte w) k)) pgdir i = pde_at (k_mem k) pgdir i).
  { intros i Hi. simpl. apply (pde_at_store_tab _ _ l); auto with vm. }
  split.
  { split; [|done]. simpl. eapply chain_ext; [exact Hch|]. intros p Hpl. rewrite Forall_forall in Hpg.
    apply ld32_ext. intros i Hi. apply (ld_other_page _ _ p); auto with vm; [|unfold PGSIZE; lia].
    intros E. apply Htl. now rewrite E. }
  split; [now apply (pgdir_ok_ext (k_mem k) _ _ l)|]. split; [done|]. split; [|split; [|split; [done|]]].
  - intros q (Hqa & Hql & Hqp & Hqt). split; [done|]. split; [done|]. split; [done|].
    intros i Hi. rewrite Epde by done. now apply Hqt.
  - intros q a (Hqa & Hql & Hqp & Hqt) Ha. simpl. apply (ld_other_page _ _ q); auto with vm.
    intros E. now apply (Hqt (PDX va) (PDX_range va)).
  - f_equal. apply ntab_ext. intros i Hi. now rewrite Epde.
Qed.


Lemma mapped_cons a n pa perm f va :
  a mod PGSIZE = 0 ->
  mapped (a + PGSIZE) n (pa + PGSIZE) perm
    (fun v => if within a PGSIZE v then Z.lor (Z.lor pa perm) PTE_P else f v) va =
  mapped a (S n) pa perm f va.
Proof.
  intros Ha. unfold mapped.
  destruct (withinP (a + PGSIZE) (PGSIZE * Z.of_nat n) va), (withinP a PGSIZE va),
    (withinP a (PGSIZE * Z.of_nat (S n)) va); unfold PGSIZE in *; try lia; try done.
  - f_equal. f_equal. replace (va - a) with ((va - (a + 4096)) + 1 * 4096) by lia.
    rewrite Z.div_add by lia. lia.
  - rewrite Z.div_small by lia. do 2 f_equal. lia.
Qed.

Lemma mapped_ext a n pa perm f g va :
  (forall v, is_u32 v -> f v = g v) -> is_u32 va -> mapped a n pa perm f va = mapped a n pa perm g va.
Proof. intros H Hv. unfold mapped. now rewrite H. Qed.

(** The directory got tables only for the addresses of [n] pages from [a]. *)
Definition tabs_for (pgdir a : Z) (n : nat) (m m' : mem) : Prop :=
  forall i, 0 <= i < 1024 -> present (pde_at m' pgdir i) = true ->
    present (pde_at m pgdir i) = true \/ exists v, within a (PGSIZE * Z.of_nat n) v = true /\ i = PDX v.

Lemma tabs_for_more pgdir a n b j m m' :
  a <= b -> b + PGSIZE * Z.of_nat j <= a + PGSIZE * Z.of_nat n ->
  tabs_for pgdir b j m m' -> tabs_for pgdir a n m m'.
Proof.
  intros H1 H2 H i Hi Hp. destruct (H i Hi Hp) as [|(v & Hv & ->)]; [now left|]. right. exists v. split; [|done].
  revert Hv. destruct (withinP b (PGSIZE * Z.of_nat j) v), (withinP a (PGSIZE * Z.of_nat n) v); try done; lia.
Qed.

Lemma tabs_for_trans pgdir a n m m1 m2 :
  tabs_for pgdir a n m m1 -> tabs_for pgdir a n m1 m2 -> tabs_for pgdir a n m m2.
Proof. intros H1 H2 i Hi Hp. destruct (H2 i Hi Hp) as [|]; [now apply H1|now right]. Qed.

(** The result of mapping [n] pages: all of them, or as many as there were
    pages for their tables. *)
Definition mappages_post (pgdir a : Z) (n : nat) (pa perm : Z) (c : ctx) (k : kmem) (l : list Z)
    (r : Z) (c' : ctx) (k' : kmem) : Prop :=
  c' = c /\ exists l' j, grows pgdir k l k' l' /\
  (r = 0 /\ j = n \/
   r = -1 /\ (j < n)%nat /\ l' = [] /\
   present (pde_at (k_mem k') pgdir (PDX (a + PGSIZE * Z.of_nat j))) = false) /\
  tabs_for pgdir a n (k_mem k) (k_mem k') /\
  forall va, is_u32 va ->
    pte_val (k_mem k') pgdir va = mapped a j pa perm (pte_val (k_mem k) pgdir) va.

(** One iteration of the loop, followed by [rest]. *)
Lemma wp_map_one pgdir a pa perm l rest Q c k :
  kmem_ok kend k l -> pgdir_ok (k_mem k) pgdir l -> LKmem ∉ held c ->
  is_u32 a -> a mod PGSIZE = 0 -> is_u32 pa -> pa mod PGSIZE = 0 -> 0 <= perm < PGSIZE ->
  present (pte_val (k_mem k) pgdir a) = false ->
  (l = [] -> present (pde_at (k_mem k) pgdir (PDX a)) = false -> Q (-1) c k) ->
  (forall k' l', grows pgdir k l k' l' ->
     (forall va, is_u32 va -> pte_val (k_mem k') pgdir va =
        if within a PGSIZE va then Z.lor (Z.lor pa perm) PTE_P else pte_val (k_mem k) pgdir va) ->
     tabs_for pgdir a 1 (k_mem k) (k_mem k') -> wp rest Q c k') ->
  wp (let* pte := walkpgdir pgdir a true in
      if pte =? 0 then ret (-1)
      else let* v := load pte in
           if negb (Z.land v PTE_P =? 0) then panic "remap"
           else store pte (Z.lor (Z.lor pa perm) PTE_P) ;;; rest) Q c k.
Proof.
  intros Hk Hok Hlk Hua Ha Hupa Hpa Hperm Hun HQ0 HQ1.
  apply wp_bind, (wp_walkpgdir_alloc _ _ l); [auto..|intros; now apply wp_ret, HQ0|].
  intros k1 l1 G1 Hval Hp Hrest. pose proof G1 as (Hk1 & Hok1 & _).
  destruct (po_tab _ _ _ Hok1 _ (PDX_range a) Hp) as (Ht & _ & Htp). pose proof Ht as (_ & _ & Hkb & _).
  pose proof (PTX_range a) as Rx.
  destruct (Z.eqb_spec (pgtab_of (pde_at (k_mem k1) pgdir (PDX a)) + 4 * PTX a) 0);
    [unfold KERNBASE in *; lia|].
  assert (Ev : ld32 (k_mem k1) (pgtab_of (pde_at (k_mem k1) pgdir (PDX a)) + 4 * PTX a) =
               pte_val (k_mem k) pgdir a) by (rewrite <- Hval; unfold pte_val; now rewrite Hp).
  unfold load, store. wp_steps. rewrite Ev. fold (present (pte_val (k_mem k) pgdir a)).
  rewrite Hun. wp_steps. eapply (HQ1 _ l1).
  - eapply grows_trans; [exact G1|]. now apply grows_store.
  - intros va Hva. simpl. rewrite (pte_val_store _ _ l1) by (auto; now apply pte_word).
    rewrite same_entry, page_div by done. now rewrite Hval.
  - intros i Hi. simpl. rewrite (pde_at_store_tab _ _ l1) by auto with vm.
    destruct (Z.eq_dec i (PDX a)) as [->|Hne]; [|rewrite Hrest by done; now left].
    intros _. right. exists a. split; [|done]. destruct (withinP a (PGSIZE * Z.of_nat 1) a); [done|unfold PGSIZE in *; lia].
Qed.

Lemma mapped_0 a pa perm f va : mapped a 0 pa perm f va = f va.
Proof. unfold mapped. destruct (withinP a (PGSIZE * Z.of_nat 0) va); [lia|done]. Qed.

Lemma wp_mappages_from n pgdir a pa perm l c k :
  kmem_ok kend k l -> pgdir_ok (k_mem k) pgdir l -> LKmem ∉ held c ->
  a mod PGSIZE = 0 -> 0 <= a -> a + PGSIZE * Z.of_nat (S n) <= 4294967296 ->
  pa mod PGSIZE = 0 -> 0 <= pa -> pa + PGSIZE * Z.of_nat (S n) <= 4294967296 ->
  0 <= perm < PGSIZE ->
  (forall v, within a (PGSIZE * Z.of_nat (S n)) v = true -> present (pte_val (k_mem k) pgdir v) = false) ->
  wp (mappages_from (S n) pgdir a (a + PGSIZE * Z.of_nat n) pa perm)
     (mappages_post pgdir a (S n) pa perm c k l) c k.
Proof.
  revert a pa l k. induction n as [|n IH]; intros a pa l k Hk Hok Hlk Ha Ha0 Ha1 Hpa Hp0 Hp1 Hperm Hun;
    cbn [mappages_from]; (apply (wp_map_one _ _ _ _ l); auto;
      [unfold is_u32, PGSIZE in *; lia|unfold is_u32, PGSIZE in *; lia
      |apply Hun; match goal with |- within ?x ?y ?z = _ => destruct (withinP x y z) end;
       unfold PGSIZE in *; lia
      |intros -> Hab; split; [done|]; exists [], 0%nat; split; [now apply grows_refl|];
       split; [right; split; [done|]; split; [lia|]; split; [done|]; now rewrite Z.mul_0_r, Z.add_0_r|]; split; [now left|]; intros va _; now rewrite mapped_0
      |intros k2 l2 G2 Hv2 T2]).
  - destruct (Z.eqb_spec a (a + PGSIZE * Z.of_nat 0)); [|lia]. apply wp_ret. split; [done|].
    exists l2, 1%nat. split; [done|]. split; [now left|]. split; [done|]. intros va Hva.
    now rewrite Hv2, <- mapped_cons, mapped_0 by done.
  - destruct (Z.eqb_spec a (a + PGSIZE * Z.of_nat (S n))); [unfold PGSIZE in *; lia|].
    rewrite !u32_small by (unfold is_u32, PGSIZE in *; lia).
    replace (a + PGSIZE * Z.of_nat (S n)) with (a + PGSIZE + PGSIZE * Z.of_nat n) by lia.
    pose proof G2 as (Hk2 & Hok2 & _). eapply wp_mono.
    { apply (IH (a + PGSIZE) (pa + PGSIZE) l2 k2); auto; unfold PGSIZE in *;
        try lia; try (rewrite Zplus_mod, ?Ha, ?Hpa; reflexivity).
      intros v Hv. destruct (withinP (a + 4096) (4096 * Z.of_nat (S n)) v); [|done].
      rewrite Hv2 by (unfold is_u32; lia). destruct (withinP a 4096 v); [lia|].
      apply Hun. destruct (withinP a (4096 * Z.of_nat (S (S n))) v); lia. }
    intros r c' k' (-> & l' & j & G3 & Hr & T3 & Hv). split; [done|]. exists l', (S j).
    split; [now apply (grows_trans _ _ _ k2 l2)|]. split; [destruct Hr as [|(-> & Hj & -> & Hab)]; [left; intuition lia|right]|].
    { split; [done|]. split; [lia|]. split; [done|]. rewrite <- Hab. do 3 f_equal. lia. }
    split; [eapply tabs_for_trans; eapply tabs_for_more; [| |exact T2| | |exact T3]; unfold PGSIZE; lia|].
    intros va Hva. rewrite Hv by done. rewrite <- (mapped_cons a) by done. now apply mapped_ext.
Qed.


(** Pages that the [size] bytes from [va] touch. *)
Definition npages (va size : Z) : nat :=
  Z.to_nat ((va + size - 1) / PGSIZE - va / PGSIZE + 1).

Lemma mappages_unfold pgdir va size pa perm :
  0 <= va -> 0 < size -> va + size <= 4294967296 ->
  exists n, npages va size = S n /\
    mappages pgdir va size pa perm =
    mappages_from (S n) pgdir (PGROUNDDOWN va) (PGROUNDDOWN va + PGSIZE * Z.of_nat n) pa perm /\
    PGROUNDDOWN va mod PGSIZE = 0 /\ 0 <= PGROUNDDOWN va /\
    PGROUNDDOWN va + PGSIZE * Z.of_nat (S n) <= 4294967296.
Proof.
  intros H0 Hs H1. unfold npages, mappages. rewrite (u32_small (va + size - 1)) by (unfold is_u32; lia).
  rewrite !PGROUNDDOWN_eq by (unfold is_u32; lia). unfold PGSIZE.
  pose proof (Z_div_mod_eq_full va 4096). pose proof (Z.mod_pos_bound va 4096).
  pose proof (Z_div_mod_eq_full (va + size - 1) 4096). pose proof (Z.mod_pos_bound (va + size - 1) 4096).
  set (x := va / 4096) in *. set (y := (va + size - 1) / 4096) in *.
  assert (x <= y) by lia. exists (Z.to_nat (y - x)).
  replace (va - va mod 4096) with (x * 4096) by lia.
  replace (va + size - 1 - (va + size - 1) mod 4096) with (y * 4096) by lia.
  split; [lia|]. split; [|split; [apply Z.mod_mul; lia|lia]].
  rewrite u32_small by (unfold is_u32; lia). rewrite <- Z.mul_sub_distr_r, Z.div_mul by lia.
  replace (Z.to_nat (y - x) + 1)%nat with (S (Z.to_nat (y - x))) by lia. f_equal; lia.
Qed.

(** The same for [n] whole pages, as the callers of this file ask for. *)
Lemma wp_mappages_pages n pgdir va pa perm l c k :
  kmem_ok kend k l -> pgdir_ok (k_mem k) pgdir l -> LKmem ∉ held c ->
  va mod PGSIZE = 0 -> 0 <= va -> va + PGSIZE * Z.of_nat (S n) <= 4294967296 ->
  pa mod PGSIZE = 0 -> 0 <= pa -> pa + PGSIZE * Z.of_nat (S n) <= 4294967296 ->
  0 <= perm < PGSIZE ->
  (forall v, within va (PGSIZE * Z.of_nat (S n)) v = true -> present (pte_val (k_mem k) pgdir v) = false) ->
  wp (mappages pgdir va (PGSIZE * Z.of_nat (S n)) pa perm) (mappages_post pgdir va (S n) pa perm c k l) c k.
Proof.
  intros Hk Hok Hlk Hva H0 H1 Hpa Hp0 Hp1 Hperm Hun.
  destruct (mappages_unfold pgdir va (PGSIZE * Z.of_nat (S n)) pa perm H0) as (n' & En & -> & _); [unfold PGSIZE; lia|done|].
  rewrite PGROUNDDOWN_eq, Hva, Z.sub_0_r by (unfold is_u32, PGSIZE in *; lia).
  assert (n' = n) as -> by (unfold npages, PGSIZE in *; Z.to_euclidean_division_equations; lia).
  now apply wp_mappages_from.
Qed.

(** Mappages(pgdir, va, size, pa, perm) on a range with no mapping never
    panics: it maps every page of the range to its physical page with the
    permissions asked for and PTE_P, or returns -1, and then the free list is
    empty, an initial part of the range is mapped and the page after it has no
    table; no other mapping, no page
    in use and no lock changes. *)
Theorem mappages_maps pgdir va size pa perm l c k :
  kmem_ok kend k l -> pgdir_ok (k_mem k) pgdir l -> LKmem ∉ held c ->
  0 <= va -> 0 < size -> va + size <= 4294967296 ->
  pa mod PGSIZE = 0 -> 0 <= pa -> pa + PGSIZE * Z.of_nat (npages va size) <= 4294967296 ->
  0 <= perm < PGSIZE ->
  (forall v, within (PGROUNDDOWN va) (PGSIZE * Z.of_nat (npages va size)) v = true ->
     present (pte_val (k_mem k) pgdir v) = false) ->
  wp (mappages pgdir va size pa perm)
     (mappages_post pgdir (PGROUNDDOWN va) (npages va size) pa perm c k l) c k.
Proof.
  intros Hk Hok Hlk H0 Hs H1 Hpa Hp0 Hp1 Hperm Hun.
  destruct (mappages_unfold pgdir va size pa perm H0 Hs H1) as (n & En & -> & Ha & Ha0 & Ha1).
  rewrite En in *. now apply wp_mappages_from.
Qed.

End Vm.

Definition sample_vm : kmem := Kmem (st32 ∅ 0x80401000 0x80402000) 0x80401000 true.

Lemma sample_vm_ok :
  kmem_ok 0x80100000 sample_vm [0x80401000; 0x80402000] /\
  forall a, a + 4 <= 0x80401000 \/ 0x80401004 <= a -> ld32 (k_mem sample_vm) a = 0.
Proof.
  split.
  - split; [vm_compute; auto|]. split; [repeat constructor; vm_compute; intuition discriminate|].
    constructor; [set_unfold; lia|]. constructor; [set_unfold; lia|constructor].
  - intros a Ha. simpl. rewrite ld32_st32_ne by lia. reflexivity.
Qed.

Lemma mappages_maps_witness :
  wp (mappages 0x80400000 5000 4000 0x300000 (Z.lor PTE_W PTE_U))
     (mappages_post 0x80100000 0x80400000 (PGROUNDDOWN 5000) (npages 5000 4000) 0x300000
        (Z.lor PTE_W PTE_U) (Ctx [] []) sample_vm [0x80401000; 0x80402000]) (Ctx [] []) sample_vm.
Proof.
  destruct sample_vm_ok as [Hk Hz].
  assert (Hp : forall i, 0 <= i < 1024 -> present (pde_at (k_mem sample_vm) 0x80400000 i) = false).
  { intros i Hi. unfold pde_at. rewrite Hz by lia. reflexivity. }
  assert (Hok : pgdir_ok 0x80100000 (k_mem sample_vm) 0x80400000 [0x80401000; 0x80402000]).
  { split; [split_and!; (reflexivity || discriminate)|set_unfold; lia| |].
    - intros i Hi. now rewrite Hp.
    - intros i j Hi Hj. now rewrite Hp. }
  assert (Hun : forall v, present (pte_val (k_mem sample_vm) 0x80400000 v) = false).
  { intros v. unfold pte_val. now rewrite Hp by apply PDX_range. }
  apply (mappages_maps 0x80100000); [exact Hk|exact Hok|set_unfold; tauto|lia|lia|lia|reflexivity|lia| | |].
  - vm_compute. discriminate.
  - split; [vm_compute; discriminate|reflexivity].
  - intros v _. apply Hun.
Defined.
