(* ===== verification/Hw.v ===== *)
(** The processor state vm.c sets up (segments, task state, page-table
    register) and the memory a kernel instruction reaches through it: the
    kernel's own addresses directly, user addresses through the page table that
    cr3 names, faulting where nothing is mapped. *)
From S2P Require Import Prelude Monad Mem Mmu Cstring Kalloc Vm.

(** The part of a CPU's registers and of [struct cpu] that vm.c writes. *)
Record hw : Type := Hw {
  h_gdt : list segdesc;      (* c->gdt *)
  h_gdtr : Z * Z;            (* limit and base loaded by lgdt *)
  h_ss0 : Z;                 (* c->ts.ss0 *)
  h_esp0 : Z;                (* c->ts.esp0 *)
  h_iomb : Z;                (* c->ts.iomb *)
  h_tr : Z;                  (* task register *)
  h_cr3 : Z;
  h_idtr : Z * Z             (* limit and base loaded by lidt *)
}.

Definition NSEGS : nat := 6.
(** sizeof(struct segdesc) and sizeof(struct taskstate). *)
Definition SEGDESC_SIZE : Z := 8.
Definition TASKSTATE_SIZE : Z := 104.

Definition set_gdt (i : Z) (d : segdesc) (h : hw) : hw :=
  Hw (aset (h_gdt h) i d) (h_gdtr h) (h_ss0 h) (h_esp0 h) (h_iomb h) (h_tr h) (h_cr3 h) (h_idtr h).
Definition lgdt (p size : Z) (h : hw) : hw :=
  Hw (h_gdt h) (size - 1, u32 p) (h_ss0 h) (h_esp0 h) (h_iomb h) (h_tr h) (h_cr3 h) (h_idtr h).
Definition set_ts (ss0 esp0 iomb : Z) (h : hw) : hw :=
  Hw (h_gdt h) (h_gdtr h) ss0 esp0 iomb (h_tr h) (h_cr3 h) (h_idtr h).
Definition ltr (sel : Z) (h : hw) : hw :=
  Hw (h_gdt h) (h_gdtr h) (h_ss0 h) (h_esp0 h) (h_iomb h) sel (h_cr3 h) (h_idtr h).
Definition lcr3 (v : Z) (h : hw) : hw :=
  Hw (h_gdt h) (h_gdtr h) (h_ss0 h) (h_esp0 h) (h_iomb h) (h_tr h) v (h_idtr h).

(** [lidt(p, size)] splits the address into two half words. *)
Definition lidt (p size : Z) (h : hw) : hw :=
  let pd := [u16 (size - 1); u16 p; u16 (Z.shiftr (u32 p) 16)] in
  Hw (h_gdt h) (h_gdtr h) (h_ss0 h) (h_esp0 h) (h_iomb h) (h_tr h) (h_cr3 h)
    (aget 0 pd 0, Z.lor (aget 0 pd 1) (Z.shiftl (aget 0 pd 2) 16)).

(** [c->gdt] is at [gdt_addr]. *)
Definition seginit (gdt_addr : Z) (h : hw) : hw :=
  lgdt gdt_addr (SEGDESC_SIZE * Z.of_nat NSEGS)
    (set_gdt SEG_UDATA (SEG STA_W 0 0xffffffff DPL_USER)
    (set_gdt SEG_UCODE (SEG (Z.lor STA_X STA_R) 0 0xffffffff DPL_USER)
    (set_gdt SEG_KDATA (SEG STA_W 0 0xffffffff 0)
    (set_gdt SEG_KCODE (SEG (Z.lor STA_X STA_R) 0 0xffffffff 0) h)))).

Definition switchkvm (kpgdir : Z) (h : hw) : hw := lcr3 (V2P kpgdir) h.

(** The task-state descriptor: [SEG16(...)], then [.s = 0]. *)
Definition tss_desc (ts_addr : Z) : segdesc :=
  let d := SEG16 STS_T32A ts_addr (TASKSTATE_SIZE - 1) 0 in
  Segdesc (lim_15_0 d) (base_15_0 d) (base_23_16 d) (sg_type d) 0 (sg_dpl d) (sg_p d)
    (lim_19_16 d) (sg_avl d) (sg_rsv1 d) (sg_db d) (sg_g d) (base_31_24 d).

(** [switchuvm] for a process with kernel stack [kstack] and page table
    [pgdir], on a CPU whose task state is at [ts_addr].  Its [pushcli] and
    [popcli] are a matched pair. *)
Definition switchuvm (ts_addr kstack pgdir : Z) : M hw unit :=
  if kstack =? 0 then panic "switchuvm: no kstack"
  else if pgdir =? 0 then panic "switchuvm: no pgdir"
  else
    modify (set_gdt SEG_TSS (tss_desc ts_addr)) ;;;
    modify (set_ts (Z.shiftl SEG_KDATA 3) (u32 (kstack + KSTACKSIZE)) 0xFFFF) ;;;
    modify (ltr (Z.shiftl SEG_TSS 3)) ;;;
    modify (lcr3 (V2P pgdir)).

(** * Memory as an instruction of the kernel reaches it *)

Section Access.
(** First address of the kernel's writable data. *)
Variable kdata : Z.

(** Where the byte at virtual address [va] is, or [None] when the access
    faults: kernel text is read only, and a user page must be present, and
    writable for a write (entry.S sets CR0_WP). *)
Definition translate (m : mem) (cr3 : Z) (write : bool) (va : Z) : option Z :=
  if KERNBASE <=? va then
    if (va <? KERNBASE + PHYSTOP) && negb (write && (KERNLINK <=? va) && (va <? kdata))
    then Some va else None
  else
    let pte := pte_val m (P2V cr3) va in
    if present pte && (negb write || negb (Z.land pte PTE_W =? 0))
    then Some (P2V (PTE_ADDR pte) + va mod PGSIZE) else None.

Definition vld (m : mem) (cr3 va : Z) : option Z :=
  pa ← translate m cr3 false va; Some (ld m pa).
Definition vst (m : mem) (cr3 va v : Z) : option mem :=
  pa ← translate m cr3 true va; Some (st m pa v).

Fixpoint vlds (m : mem) (cr3 va : Z) (n : nat) : option (list Z) :=
  match n with
  | O => Some []
  | S k => b ← vld m cr3 va; bs ← vlds m cr3 (u32 (va + 1)) k; Some (b :: bs)
  end.
Fixpoint vsts (m : mem) (cr3 va : Z) (bs : list Z) : option mem :=
  match bs with
  | [] => Some m
  | b :: bs' => m' ← vst m cr3 va b; vsts m' cr3 (u32 (va + 1)) bs'
  end.

Definition vld32 (m : mem) (cr3 va : Z) : option Z := le_val <$> vlds m cr3 va 4.
Definition vst32 (m : mem) (cr3 va w : Z) : option mem := vsts m cr3 va (le_bytes 4 w).

(** [memmove] on virtual addresses. *)
Fixpoint vcopy_up (m : mem) (cr3 d s : Z) (n : nat) : option mem :=
  match n with
  | O => Some m
  | S k =>
      b ← vld m cr3 s; m' ← vst m cr3 d b;
      vcopy_up m' cr3 (u32 (d + 1)) (u32 (s + 1)) k
  end.
Fixpoint vcopy_down (m : mem) (cr3 d s : Z) (n : nat) : option mem :=
  match n with
  | O => Some m
  | S k =>
      b ← vld m cr3 (u32 (s - 1)); m' ← vst m cr3 (u32 (d - 1)) b;
      vcopy_down m' cr3 (u32 (d - 1)) (u32 (s - 1)) k
  end.
Definition vmemmove (m : mem) (cr3 dst src n : Z) : option mem :=
  if (src <? dst) && (dst <? u32 (src + n))
  then vcopy_down m cr3 (u32 (dst + n)) (u32 (src + n)) (Z.to_nat n)
  else vcopy_up m cr3 dst src (Z.to_nat n).

End Access.
