(* ===== verification/Uvm.v ===== *)
(** User address spaces: the invariant a process's page table satisfies, and
    what reading and writing memory through it does. *)
From S2P Require Import Prelude Monad Mem Mmu Cstring Kalloc Vm Hw.

Section Uvm.
Variables kend kdata : Z.

(** The kernel address of the page that user address [va] is on. *)
Definition upage (m : mem) (pgdir va : Z) : Z := P2V (PTE_ADDR (pte_val m pgdir va)).

(** Below KERNBASE, present entries map to pages that are in use, are not part
    of the page table, and are mapped once. *)
Record uvm_ok (m : mem) (pgdir : Z) (l : list Z) : Prop := {
  um_dir : pgdir_ok kend m pgdir l;
  um_page va : 0 <= va < KERNBASE -> present (pte_val m pgdir va) = true ->
    page_ok kend (upage m pgdir va) /\ data_page m pgdir l (upage m pgdir va);
  um_inj va va' : 0 <= va < KERNBASE -> 0 <= va' < KERNBASE ->
    present (pte_val m pgdir va) = true -> present (pte_val m pgdir va') = true ->
    upage m pgdir va = upage m pgdir va' -> va / PGSIZE = va' / PGSIZE
}.

(** ** A store to a page in use leaves the page table as it is *)

Lemma ld32_st_data m q a b p i :
  q mod PGSIZE = 0 -> p mod PGSIZE = 0 -> p <> q -> q <= a < q + PGSIZE -> 0 <= i < 1024 ->
  ld32 (st m a b) (p + 4 * i) = ld32 m (p + 4 * i).
Proof.
  intros Hq Hp Hne Ha Hi. apply ld32_ext. intros j Hj. apply ld_st_ne.
  destruct (pages_apart p q Hp Hq Hne); unfold PGSIZE in *; lia.
Qed.

Lemma pde_st_data m pgdir l q a b i :
  pgdir_ok kend m pgdir l -> data_page m pgdir l q -> q <= a < q + PGSIZE -> 0 <= i < 1024 ->
  pde_at (st m a b) pgdir i = pde_at m pgdir i.
Proof.
  intros Hok (Hq & _ & Hne & _) Ha Hi. apply (ld32_st_data _ q); auto.
  apply (page_aligned kend), (po_page _ _ _ _ Hok).
Qed.

Lemma pte_st_data m pgdir l q a b va :
  pgdir_ok kend m pgdir l -> data_page m pgdir l q -> q <= a < q + PGSIZE ->
  pte_val (st m a b) pgdir va = pte_val m pgdir va.
Proof.
  intros Hok Hq Ha. unfold pte_val. rewrite (pde_st_data m pgdir l q) by auto using PDX_range.
  destruct (present (pde_at m pgdir (PDX va))) eqn:Hp; [|done].
  destruct (po_tab _ _ _ _ Hok _ (PDX_range va) Hp) as (Ht & _).
  apply (ld32_st_data _ q); auto using PTX_range.
  - apply Hq.
  - now apply (page_aligned kend).
  - intros E. symmetry in E. revert E. now apply Hq; [apply PDX_range|].
Qed.

Lemma uvm_ok_st m pgdir l q a b :
  uvm_ok m pgdir l -> data_page m pgdir l q -> q <= a < q + PGSIZE -> uvm_ok (st m a b) pgdir l.
Proof.
  intros [Hd Hp Hi] Hq Ha.
  assert (Epte : forall va, pte_val (st m a b) pgdir va = pte_val m pgdir va)
    by (intros; now apply (pte_st_data m pgdir l q)).
  assert (Epde : forall i, 0 <= i < 1024 -> pde_at (st m a b) pgdir i = pde_at m pgdir i)
    by (intros; now apply (pde_st_data m pgdir l q)).
  split.
  - now apply (pgdir_ok_ext kend m _ _ l).
  - intros va Hva. unfold upage. rewrite Epte. intros Hpr. destruct (Hp va Hva Hpr) as (H1 & H2 & H3 & H4 & H5).
    split; [done|]. split; [done|]. split; [done|]. split; [done|]. intros i Hi'. rewrite Epde by done. auto.
  - intros va va' H1 H2. unfold upage. rewrite !Epte. now apply Hi.
Qed.

(** ** Virtual addresses of the user *)

(** Where the byte at a user address is. *)
Lemma translate_user m pgdir w va :
  KERNBASE <= pgdir < KERNBASE + PHYSTOP -> va < KERNBASE ->
  translate kdata m (V2P pgdir) w va =
  (let pte := pte_val m pgdir va in
   if present pte && (negb w || negb (Z.land pte PTE_W =? 0))
   then Some (upage m pgdir va + va mod PGSIZE) else None).
Proof.
  intros Hp Hv. unfold translate. destruct (Z.leb_spec KERNBASE va); [lia|].
  now rewrite P2V_V2P.
Qed.

Lemma translate_kernel m cr3 w va :
  KERNBASE <= va < KERNBASE + PHYSTOP -> (w = true -> kdata <= va) -> translate kdata m cr3 w va = Some va.
Proof.
  intros Hv Hw. unfold translate. destruct (Z.leb_spec KERNBASE va), (Z.ltb_spec va (KERNBASE + PHYSTOP)); try lia.
  simpl. destruct w; simpl; [|done]. destruct (Z.ltb_spec va kdata); [specialize (Hw eq_refl); lia|].
  now rewrite andb_false_r.
Qed.

(** Every byte of a range of user memory can be written. *)
Definition writable (m : mem) (pgdir va n : Z) : Prop :=
  0 <= va /\ va + n <= KERNBASE /\
  forall v, va <= v < va + n ->
    present (pte_val m pgdir v) = true /\ Z.land (pte_val m pgdir v) PTE_W <> 0.

(** Every byte of a range of user memory is mapped. *)
Definition readable (m : mem) (pgdir va n : Z) : Prop :=
  0 <= va /\ va + n <= KERNBASE /\
  forall v, va <= v < va + n -> present (pte_val m pgdir v) = true.

Lemma writable_readable m pgdir va n : writable m pgdir va n -> readable m pgdir va n.
Proof. intros (H0 & H1 & H). split; [done|]. split; [done|]. intros v Hv. now apply H. Qed.

(** The byte a user address reads. *)
Definition ub (m : mem) (pgdir va : Z) : Z := ld m (upage m pgdir va + va mod PGSIZE).

Lemma upage_byte m pgdir l va :
  uvm_ok m pgdir l -> 0 <= va < KERNBASE -> present (pte_val m pgdir va) = true ->
  let q := upage m pgdir va in
  data_page m pgdir l q /\ page_ok kend q /\ q <= q + va mod PGSIZE < q + PGSIZE.
Proof.
  intros Hok Hva Hp q. destruct (um_page _ _ _ Hok va Hva Hp). split; [done|]. split; [done|].
  pose proof (Z.mod_pos_bound va PGSIZE eq_refl). lia.
Qed.

(** Different user addresses are different bytes of memory. *)
Lemma upage_inj m pgdir l va va' :
  uvm_ok m pgdir l -> 0 <= va < KERNBASE -> 0 <= va' < KERNBASE ->
  present (pte_val m pgdir va) = true -> present (pte_val m pgdir va') = true ->
  upage m pgdir va + va mod PGSIZE = upage m pgdir va' + va' mod PGSIZE -> va = va'.
Proof.
  intros Hok Hva Hva' Hp Hp' E.
  destruct (upage_byte _ _ _ _ Hok Hva Hp) as ((Ha & _) & _ & Hr).
  destruct (upage_byte _ _ _ _ Hok Hva' Hp') as ((Ha' & _) & _ & Hr').
  destruct (Z.eq_dec (upage m pgdir va) (upage m pgdir va')) as [Eq|Hne].
  - pose proof (um_inj _ _ _ Hok va va' Hva Hva' Hp Hp' Eq).
    pose proof (Z_div_mod_eq_full va PGSIZE). pose proof (Z_div_mod_eq_full va' PGSIZE). lia.
  - destruct (pages_apart _ _ Ha Ha' Hne); unfold PGSIZE in *; lia.
Qed.

(** The memory after bytes [bs] have been stored at user address [va]: user
    memory changes there only, the page table and every byte that is not on a
    user page stay. *)
Record ustored (m : mem) (pgdir va : Z) (bs : list Z) (m' : mem) : Prop := {
  us_pte v : pte_val m' pgdir v = pte_val m pgdir v;
  us_user v : 0 <= v < KERNBASE -> present (pte_val m pgdir v) = true ->
    ub m' pgdir v = if within va (Z.of_nat (length bs)) v then aget 0 bs (v - va) else ub m pgdir v;
  us_other a : (forall v, 0 <= v < KERNBASE -> present (pte_val m pgdir v) = true ->
      ~ upage m pgdir v <= a < upage m pgdir v + PGSIZE) -> ld m' a = ld m a
}.

Lemma ustored_one m pgdir l va b :
  uvm_ok m pgdir l -> 0 <= va < KERNBASE -> present (pte_val m pgdir va) = true ->
  ustored m pgdir va [b] (st m (upage m pgdir va + va mod PGSIZE) b).
Proof.
  intros Hok Hva Hp. destruct (upage_byte _ _ _ _ Hok Hva Hp) as (Hd & Hpg & Hr).
  assert (Epte : forall v, pte_val (st m (upage m pgdir va + va mod PGSIZE) b) pgdir v = pte_val m pgdir v).
  { intros v. apply (pte_st_data _ _ l (upage m pgdir va)); [apply Hok|done|done]. }
  split.
  - done.
  - intros v Hv Hpv. unfold ub, upage. rewrite Epte. fold (upage m pgdir v). cbn [length].
    destruct (withinP va (Z.of_nat 1) v).
    + assert (v = va) as -> by lia. fold (upage m pgdir va). rewrite ld_st_eq, Z.sub_diag. done.
    + apply ld_st_ne. intros E. apply H. pose proof (upage_inj _ _ _ va v Hok Hva Hv Hp Hpv E). lia.
  - intros a Ha. apply ld_st_ne. intros <-. now apply (Ha va).
Qed.

Lemma ustored_cons m pgdir va b bs m1 m2 :
  ustored m pgdir va [b] m1 -> ustored m1 pgdir (va + 1) bs m2 -> ustored m pgdir va (b :: bs) m2.
Proof.
  intros [E1 U1 O1] [E2 U2 O2]. split.
  - intros v. now rewrite E2, E1.
  - intros v Hv Hp. rewrite U2, U1 by (rewrite ?E1; done). cbn [length].
    destruct (withinP (va + 1) (Z.of_nat (length bs)) v), (withinP va (Z.of_nat 1) v),
      (withinP va (Z.of_nat (S (length bs))) v); try lia; try done.
    + rewrite aget_cons_S by lia. f_equal. lia.
    + replace (v - va) with 0 by lia. now rewrite !aget_cons_0.
  - intros a Ha. rewrite O2, O1; auto. intros v Hv. unfold upage. rewrite E1. intros Hp. now apply Ha.
Qed.


Lemma uvm_dir_range m pgdir l : uvm_ok m pgdir l -> KERNBASE <= pgdir < KERNBASE + PHYSTOP.
Proof.
  intros Hok. destruct (po_page _ _ _ _ (um_dir _ _ _ Hok)) as (_ & _ & H1 & H2). unfold PGSIZE in *. lia.
Qed.

(** One store of the kernel to user memory. *)
Lemma vst_user m pgdir l va b :
  uvm_ok m pgdir l -> writable m pgdir va 1 ->
  exists m', vst kdata m (V2P pgdir) va b = Some m' /\ ustored m pgdir va [b] m' /\ uvm_ok m' pgdir l.
Proof.
  intros Hok (H0 & H1 & Hw). destruct (Hw va ltac:(lia)) as (Hp & Hpw).
  assert (Hva : 0 <= va < KERNBASE) by lia.
  destruct (upage_byte _ _ _ _ Hok Hva Hp) as (Hd & _ & Hr).
  exists (st m (upage m pgdir va + va mod PGSIZE) b). split; [|split].
  - unfold vst. rewrite translate_user by (apply (uvm_dir_range _ _ l Hok) || lia). cbn zeta. rewrite Hp.
    destruct (Z.eqb_spec (Z.land (pte_val m pgdir va) PTE_W) 0); [done|]. reflexivity.
  - now apply (ustored_one _ _ l).
  - now apply (uvm_ok_st _ _ _ (upage m pgdir va)).
Qed.

Lemma vld_user m pgdir l va :
  uvm_ok m pgdir l -> readable m pgdir va 1 -> vld kdata m (V2P pgdir) va = Some (ub m pgdir va).
Proof.
  intros Hok (H0 & H1 & Hw). unfold vld.
  rewrite translate_user by (apply (uvm_dir_range _ _ l Hok) || lia). cbn zeta. now rewrite Hw by lia.
Qed.

Lemma writable_split m pgdir va n k :
  writable m pgdir va n -> 0 <= k <= n -> writable m pgdir va k /\ writable m pgdir (va + k) (n - k).
Proof.
  intros (H0 & H1 & H) Hk. split; (split; [lia|]); (split; [lia|]); intros v Hv; apply H; lia.
Qed.

Lemma writable_ustored m pgdir va bs m' v n :
  ustored m pgdir va bs m' -> writable m pgdir v n -> writable m' pgdir v n.
Proof.
  intros [E _ _] (H0 & H1 & H). split; [done|]. split; [done|]. intros x Hx. rewrite E. now apply H.
Qed.

Lemma u32_user va n : 0 <= va -> va + n <= KERNBASE -> 0 <= n -> u32 (va + n) = va + n.
Proof. intros. apply u32_small. unfold is_u32, KERNBASE in *. lia. Qed.

(** A byte of the kernel that no user page holds. *)
Definition off_user (m : mem) (pgdir a : Z) : Prop :=
  forall v, 0 <= v < KERNBASE -> present (pte_val m pgdir v) = true ->
    ~ upage m pgdir v <= a < upage m pgdir v + PGSIZE.

Lemma off_user_ustored m pgdir va bs m' a :
  ustored m pgdir va bs m' -> off_user m pgdir a -> off_user m' pgdir a.
Proof. intros [E _ _] H v Hv. unfold upage. rewrite E. now apply H. Qed.

Lemma vsts_user m pgdir l va bs :
  uvm_ok m pgdir l -> writable m pgdir va (Z.of_nat (length bs)) ->
  exists m', vsts kdata m (V2P pgdir) va bs = Some m' /\ ustored m pgdir va bs m' /\ uvm_ok m' pgdir l.
Proof.
  revert m va. induction bs as [|b bs IH]; intros m va Hok Hw.
  - exists m. split; [done|]. split; [|done]. split; [done| |done]. intros v Hv Hp. cbn [length].
    destruct (withinP va (Z.of_nat 0) v); [lia|done].
  - cbn [length] in Hw. destruct (writable_split _ _ _ _ 1 Hw) as [Hw1 Hw2]; [lia|].
    destruct (vst_user m pgdir l va b Hok Hw1) as (m1 & E1 & U1 & Ok1).
    destruct (IH m1 (va + 1) Ok1) as (m2 & E2 & U2 & Ok2).
    { eapply writable_ustored; [exact U1|]. replace (Z.of_nat (length bs)) with (Z.of_nat (S (length bs)) - 1) by lia. done. }
    exists m2. split; [|split; [now apply (ustored_cons _ _ _ _ _ m1)|done]].
    simpl. rewrite E1. simpl. destruct Hw as (? & ? & _). now rewrite u32_user by lia.
Qed.

(** [memmove] from kernel memory to user memory. *)
Lemma vcopy_to_user m pgdir l d s n :
  uvm_ok m pgdir l -> writable m pgdir d (Z.of_nat n) ->
  KERNBASE <= s -> s + Z.of_nat n <= KERNBASE + PHYSTOP ->
  (forall a, s <= a < s + Z.of_nat n -> off_user m pgdir a) ->
  exists m', vcopy_up kdata m (V2P pgdir) d s n = Some m' /\
    ustored m pgdir d (lds m s n) m' /\ uvm_ok m' pgdir l.
Proof.
  revert m d s. induction n as [|n IH]; intros m d s Hok Hw Hs0 Hs1 Hoff.
  - exists m. split; [done|]. split; [|done]. split; [done| |done]. intros v Hv Hp. cbn [length lds].
    destruct (withinP d (Z.of_nat 0) v); [lia|done].
  - destruct (writable_split _ _ _ _ 1 Hw) as [Hw1 Hw2]; [lia|].
    destruct (vst_user m pgdir l d (ld m s) Hok Hw1) as (m1 & E1 & U1 & Ok1).
    destruct (IH m1 (d + 1) (s + 1) Ok1) as (m2 & E2 & U2 & Ok2); [|lia|lia| |].
    { eapply writable_ustored; [exact U1|]. replace (Z.of_nat n) with (Z.of_nat (S n) - 1) by lia. done. }
    { intros a Ha. eapply off_user_ustored; [exact U1|]. apply Hoff. lia. }
    assert (El : lds m1 (s + 1) n = lds m (s + 1) n).
    { apply lds_ext. intros i Hi. apply (us_other _ _ _ _ _ U1). apply Hoff. lia. }
    rewrite El in U2. exists m2. split; [|split; [now apply (ustored_cons _ _ _ _ _ m1)|done]].
    cbn [vcopy_up lds]. unfold vld. rewrite translate_kernel by (done || lia). cbn [mbind option_bind].
    rewrite E1. cbn [mbind option_bind]. destruct Hw as (? & ? & _). rewrite u32_user by lia.
    rewrite (u32_small (s + 1)) by (unfold is_u32, KERNBASE, PHYSTOP in *; lia). done.
Qed.

(** [memmove] from user memory to a page of the kernel. *)
Definition ubs (m : mem) (pgdir va : Z) (n : nat) : list Z :=
  (fun i => ub m pgdir (va + i)) <$> zrange n.

Lemma ubs_S m pgdir va n : ubs m pgdir va (S n) = ub m pgdir va :: ubs m pgdir (va + 1) n.
Proof.
  unfold ubs, zrange. cbn [seq fmap list_fmap]. f_equal; [f_equal; lia|].
  rewrite <- fmap_S_seq, <- !list_fmap_compose. apply list_fmap_ext. intros i x _. simpl. f_equal. lia.
Qed.

Lemma vcopy_from_user m pgdir l q d s n :
  uvm_ok m pgdir l -> readable m pgdir s (Z.of_nat n) -> data_page m pgdir l q ->
  q <= d -> d + Z.of_nat n <= q + PGSIZE -> KERNBASE <= q -> q + PGSIZE <= KERNBASE + PHYSTOP -> kdata <= q ->
  (forall a, q <= a < q + PGSIZE -> off_user m pgdir a) ->
  vcopy_up kdata m (V2P pgdir) d s n = Some (sts m d (ubs m pgdir s n)).
Proof.
  revert m d s. induction n as [|n IH]; intros m d s Hok (Hs0 & Hs1 & Hr) Hq Hd0 Hd1 Hk0 Hk1 Hkd Hoff; [done|].
  rewrite ubs_S. cbn [vcopy_up sts].
  rewrite (vld_user _ _ l) by (done || (split; [lia|split; [lia|]]; intros; apply Hr; lia)). cbn [mbind option_bind].
  unfold vst. rewrite translate_kernel by lia. cbn [mbind option_bind].
  rewrite (u32_user s) by lia. rewrite (u32_small (d + 1)) by (unfold is_u32, KERNBASE, PHYSTOP, PGSIZE in *; lia).
  set (m1 := st m d (ub m pgdir s)).
  assert (Epte : forall v, pte_val m1 pgdir v = pte_val m pgdir v).
  { intros v. apply (pte_st_data _ _ l q); [apply Hok|done|lia]. }
  assert (Eub : ubs m1 pgdir (s + 1) n = ubs m pgdir (s + 1) n).
  { apply list_fmap_ext. intros j x Hx. apply zrange_lookup in Hx as [-> Hj]. unfold ub, upage. rewrite Epte.
    apply ld_st_ne. fold (upage m pgdir (s + 1 + Z.of_nat j)). intros E.
    refine (Hoff d ltac:(lia) (s + 1 + Z.of_nat j) ltac:(lia) ltac:(apply Hr; lia) _).
    rewrite E. apply (upage_byte m pgdir l); auto; [lia|apply Hr; lia]. }
  rewrite (IH m1).
  - now rewrite Eub.
  - now apply (uvm_ok_st _ _ _ q); [..|lia].
  - split; [lia|]. split; [lia|]. intros v Hv. rewrite Epte. apply Hr. lia.
  - destruct Hq as (H1 & H2 & H3 & H4). split; [done|]. split; [done|]. split; [done|].
    intros i Hi. unfold m1. rewrite (pde_st_data _ _ l q) by (done || lia || apply Hok). auto.
  - lia.
  - lia.
  - done.
  - done.
  - done.
  - intros a Ha v Hv. unfold upage. rewrite Epte. now apply Hoff.
Qed.


(** ** User memory beside a page of the kernel *)

(** [q] is a kernel page (a kernel stack) that the address space does not
    map. *)
Definition frame (m : mem) (pgdir : Z) (l : list Z) (q : Z) : Prop :=
  uvm_ok m pgdir l /\ data_page m pgdir l q /\ forall a, q <= a < q + PGSIZE -> off_user m pgdir a.

(** From [m] to [m'] the mappings stay; user memory becomes [u], and the page
    [q] becomes [f]. *)
Record changed (m : mem) (pgdir : Z) (l : list Z) (q : Z) (u f : Z -> Z) (m' : mem) : Prop := {
  ch_frame : frame m' pgdir l q;
  ch_pte v : pte_val m' pgdir v = pte_val m pgdir v;
  ch_user v : 0 <= v < KERNBASE -> present (pte_val m pgdir v) = true -> ub m' pgdir v = u v;
  ch_kern a : q <= a < q + PGSIZE -> ld m' a = f a;
  ch_other a : off_user m pgdir a -> ~ q <= a < q + PGSIZE -> ld m' a = ld m a
}.

(** Bytes [bs] at [a], [g] elsewhere. *)
Definition over (a : Z) (bs : list Z) (g : Z -> Z) (v : Z) : Z :=
  if within a (Z.of_nat (length bs)) v then aget 0 bs (v - a) else g v.

Lemma changed_refl m pgdir l q : frame m pgdir l q -> changed m pgdir l q (ub m pgdir) (ld m) m.
Proof. intros H. split; auto. Qed.

Lemma changed_user m pgdir l q u f m1 va bs m2 :
  changed m pgdir l q u f m1 -> ustored m1 pgdir va bs m2 -> uvm_ok m2 pgdir l ->
  changed m pgdir l q (over va bs u) f m2.
Proof.
  intros [(Hok & Hd & Hoff) Hp Hu Hk Ho] U Hok2. split.
  - split; [done|]. split.
    + destruct Hd as (H1 & H2 & H3 & H4). split; [done|]. split; [done|]. split; [done|].
      intros i Hi. assert (E : pde_at m2 pgdir i = pde_at m1 pgdir i).
      { apply ld32_ext. intros j Hj. apply (us_other _ _ _ _ _ U). intros v Hv Hpv.
        destruct (upage_byte _ _ _ v Hok Hv Hpv) as ((A1 & _ & A3 & _) & _).
        destruct (pages_apart pgdir _ (page_aligned kend _ (po_page _ _ _ _ (um_dir _ _ _ Hok))) A1
                    (not_eq_sym A3)); unfold PGSIZE in *; lia. }
      rewrite E. auto.
    + intros a Ha. eapply off_user_ustored; [exact U|]. now apply Hoff.
  - intros v. now rewrite (us_pte _ _ _ _ _ U).
  - intros v Hv Hpv. rewrite (us_user _ _ _ _ _ U) by (rewrite ?Hp; done). unfold over.
    now rewrite Hu.
  - intros a Ha. rewrite (us_other _ _ _ _ _ U); [now apply Hk|]. now apply Hoff.
  - intros a Ha Hq. rewrite (us_other _ _ _ _ _ U); [now apply Ho|]. intros v Hv. unfold upage.
    rewrite Hp. now apply Ha.
Qed.

Lemma changed_st m pgdir l q u f m1 a b :
  changed m pgdir l q u f m1 -> q <= a < q + PGSIZE ->
  changed m pgdir l q u (over a [b] f) (st m1 a b).
Proof.
  intros [(Hok & Hd & Hoff) Hp Hu Hk Ho] Ha.
  assert (Epte : forall v, pte_val (st m1 a b) pgdir v = pte_val m1 pgdir v).
  { intros v. apply (pte_st_data _ _ l q); [apply Hok|done|done]. }
  split.
  - split; [now apply (uvm_ok_st _ _ _ q)|]. split.
    + destruct Hd as (H1 & H2 & H3 & H4). split; [done|]. split; [done|]. split; [done|].
      intros i Hi. rewrite (pde_st_data _ _ l q) by (done || apply Hok). auto.
    + intros x Hx v Hv. unfold upage. rewrite Epte. now apply Hoff.
  - intros v. now rewrite Epte.
  - intros v Hv Hpv. rewrite <- Hu by done. unfold ub, upage. rewrite Epte. apply ld_st_ne.
    fold (upage m1 pgdir v). intros E. apply (Hoff a Ha v Hv); [now rewrite Hp|]. rewrite E.
    apply (upage_byte m1 pgdir l); auto. now rewrite Hp.
  - intros x Hx. rewrite ld_st. unfold over. cbn [length].
    destruct (withinP a (Z.of_nat 1) x), (Z.eqb_spec x a) as [->|]; try lia.
    + now rewrite Z.sub_diag.
    + now apply Hk.
  - intros x Hx Hq. rewrite ld_st_ne by (intros <-; lia). now apply Ho.
Qed.

Lemma over_cons a b bs g v : over (a + 1) bs (over a [b] g) v = over a (b :: bs) g v.
Proof.
  unfold over. cbn [length].
  destruct (withinP (a + 1) (Z.of_nat (length bs)) v), (withinP a (Z.of_nat 1) v),
    (withinP a (Z.of_nat (S (length bs))) v); try lia; try done.
  - rewrite aget_cons_S by lia. f_equal. lia.
  - replace (v - a) with 0 by lia. now rewrite !aget_cons_0.
Qed.

Lemma changed_ext m pgdir l q u f u' f' m1 :
  changed m pgdir l q u f m1 -> (forall v, u v = u' v) -> (forall a, f a = f' a) ->
  changed m pgdir l q u' f' m1.
Proof.
  intros [H1 H2 H3 H4 H5] Eu Ef. split; [done|done| | |done].
  - intros. rewrite <- Eu. auto.
  - intros. rewrite <- Ef. auto.
Qed.

Lemma changed_sts m pgdir l q u f m1 a bs :
  changed m pgdir l q u f m1 -> q <= a -> a + Z.of_nat (length bs) <= q + PGSIZE ->
  changed m pgdir l q u (over a bs f) (sts m1 a bs).
Proof.
  revert m1 a f. induction bs as [|b bs IH]; intros m1 a f Hc H0 H1.
  - simpl. eapply changed_ext; [exact Hc|done|]. intros x. unfold over. cbn [length].
    destruct (withinP a (Z.of_nat 0) x); [lia|done].
  - cbn [sts length] in *. eapply changed_ext; [apply IH|done|].
    + apply changed_st; [exact Hc|lia].
    + lia.
    + lia.
    + intros x. now rewrite over_cons.
Qed.


(** The word at [a] of a memory given as a function. *)
Definition w32 (f : Z -> Z) (a : Z) : Z := le_val [f a; f (a + 1); f (a + 2); f (a + 3)].

Lemma w32_ld m a : w32 (ld m) a = ld32 m a.
Proof. unfold w32, ld32. cbn [lds]. now rewrite <- !Z.add_assoc. Qed.

Lemma changed_ld32 m pgdir l q u f m1 a :
  changed m pgdir l q u f m1 -> q <= a -> a + 4 <= q + PGSIZE -> ld32 m1 a = w32 f a.
Proof.
  intros Hc H0 H1. rewrite <- w32_ld. unfold w32. now rewrite !(ch_kern _ _ _ _ _ _ _ Hc) by lia.
Qed.

Lemma w32_over_eq a w g : is_u32 w -> w32 (over a (le_bytes 4 w) g) a = w.
Proof.
  intros Hw. unfold w32, over. rewrite length_le_bytes.
  destruct (withinP a (Z.of_nat 4) a), (withinP a (Z.of_nat 4) (a + 1)),
    (withinP a (Z.of_nat 4) (a + 2)), (withinP a (Z.of_nat 4) (a + 3)); try lia.
  replace (a - a) with 0 by lia. replace (a + 1 - a) with 1 by lia.
  replace (a + 2 - a) with 2 by lia. replace (a + 3 - a) with 3 by lia.
  change [aget 0 (le_bytes 4 w) 0; aget 0 (le_bytes 4 w) 1; aget 0 (le_bytes 4 w) 2;
          aget 0 (le_bytes 4 w) 3] with (le_bytes 4 w).
  rewrite le_val_bytes. change (256 ^ Z.of_nat 4) with 4294967296. now apply Z.mod_small.
Qed.

Lemma over_ne a bs g v : v < a \/ a + Z.of_nat (length bs) <= v -> over a bs g v = g v.
Proof. intros H. unfold over. destruct (withinP a (Z.of_nat (length bs)) v); [lia|done]. Qed.

Lemma w32_over_ne a bs g b :
  b + 4 <= a \/ a + Z.of_nat (length bs) <= b -> w32 (over a bs g) b = w32 g b.
Proof. intros H. unfold w32. now rewrite !over_ne by lia. Qed.

(** A second write to the same place hides the first. *)
Lemma over_over a bs bs' g v : length bs = length bs' -> over a bs (over a bs' g) v = over a bs g v.
Proof.
  intros E. unfold over. rewrite E. now destruct (within a (Z.of_nat (length bs')) v).
Qed.

Lemma over_swap a bs b bs' g v :
  a + Z.of_nat (length bs) <= b \/ b + Z.of_nat (length bs') <= a ->
  over a bs (over b bs' g) v = over b bs' (over a bs g) v.
Proof.
  intros H. unfold over.
  destruct (withinP a (Z.of_nat (length bs)) v), (withinP b (Z.of_nat (length bs')) v); lia || done.
Qed.

Lemma over_ext a bs g g' v : (forall x, g x = g' x) -> over a bs g v = over a bs g' v.
Proof. intros E. unfold over. now rewrite E. Qed.

(** [memmove] between the two sides, with the direction test. *)
Lemma vmemmove_to_user m pgdir l d s n :
  uvm_ok m pgdir l -> writable m pgdir d n -> 0 <= n ->
  KERNBASE <= s -> s + n <= KERNBASE + PHYSTOP ->
  (forall a, s <= a < s + n -> off_user m pgdir a) ->
  exists m', vmemmove kdata m (V2P pgdir) d s n = Some m' /\
    ustored m pgdir d (lds m s (Z.to_nat n)) m' /\ uvm_ok m' pgdir l.
Proof.
  intros Hok Hw Hn H0 H1 Hoff. unfold vmemmove. destruct Hw as (Hd0 & Hd1 & Hw).
  destruct (Z.ltb_spec s d); [lia|]. cbn [andb]. apply vcopy_to_user; auto; rewrite Z2Nat.id by done; auto.
  split; [done|]. split; done.
Qed.

Lemma vmemmove_from_user m pgdir l q d s n :
  uvm_ok m pgdir l -> readable m pgdir s n -> 0 <= n -> data_page m pgdir l q ->
  q <= d -> d + n <= q + PGSIZE -> KERNBASE <= q -> q + PGSIZE <= KERNBASE + PHYSTOP -> kdata <= q ->
  (forall a, q <= a < q + PGSIZE -> off_user m pgdir a) ->
  vmemmove kdata m (V2P pgdir) d s n = Some (sts m d (ubs m pgdir s (Z.to_nat n))).
Proof.
  intros Hok Hr Hn Hq H0 H1 H2 H3 H4 Hoff. unfold vmemmove. pose proof Hr as (Hs0 & Hs1 & _).
  rewrite (u32_user s) by lia. destruct (Z.ltb_spec d (s + n)); [lia|]. rewrite andb_false_r.
  apply (vcopy_from_user _ _ l q); auto; rewrite Z2Nat.id by done; auto.
Qed.


(** Writes by the kernel through the page table, after earlier ones. *)
Lemma writable_changed m pgdir l q u f m1 va n :
  changed m pgdir l q u f m1 -> writable m pgdir va n -> writable m1 pgdir va n.
Proof.
  intros Hc (H0 & H1 & H). split; [done|]. split; [done|]. intros v Hv.
  rewrite (ch_pte _ _ _ _ _ _ _ Hc). now apply H.
Qed.

Lemma changed_vst32 m pgdir l q u f m1 va w :
  changed m pgdir l q u f m1 -> writable m pgdir va 4 ->
  exists m2, vst32 kdata m1 (V2P pgdir) va w = Some m2 /\
    changed m pgdir l q (over va (le_bytes 4 w) u) f m2.
Proof.
  intros Hc Hw. destruct (ch_frame _ _ _ _ _ _ _ Hc) as (Hok & _).
  destruct (vsts_user m1 pgdir l va (le_bytes 4 w) Hok) as (m2 & E & U & Ok2).
  { rewrite length_le_bytes. eapply writable_changed; eauto. }
  exists m2. split; [exact E|]. now apply (changed_user _ _ _ _ _ _ m1).
Qed.

Lemma changed_memmove m pgdir l q u f m1 d s n :
  changed m pgdir l q u f m1 -> writable m pgdir d n -> 0 <= n ->
  KERNBASE <= s -> s + n <= KERNBASE + PHYSTOP ->
  (forall a, s <= a < s + n -> off_user m pgdir a) ->
  exists m2, vmemmove kdata m1 (V2P pgdir) d s n = Some m2 /\
    changed m pgdir l q (over d (lds m1 s (Z.to_nat n)) u) f m2.
Proof.
  intros Hc Hw Hn H0 H1 Hoff. destruct (ch_frame _ _ _ _ _ _ _ Hc) as (Hok & _).
  destruct (vmemmove_to_user m1 pgdir l d s n Hok) as (m2 & E & U & Ok2); auto.
  { eapply writable_changed; eauto. }
  { intros a Ha v Hv. unfold upage. rewrite (ch_pte _ _ _ _ _ _ _ Hc). now apply Hoff. }
  exists m2. split; [exact E|]. now apply (changed_user _ _ _ _ _ _ m1).
Qed.


(** Reads by the kernel through the page table. *)
Lemma vlds_user m pgdir l va n :
  uvm_ok m pgdir l -> readable m pgdir va (Z.of_nat n) ->
  vlds kdata m (V2P pgdir) va n = Some (ubs m pgdir va n).
Proof.
  intros Hok. revert va. induction n as [|n IH]; intros va (H0 & H1 & Hr); [done|].
  rewrite ubs_S. cbn [vlds].
  rewrite (vld_user _ _ l) by (done || (split; [lia|split; [lia|]]; intros; apply Hr; lia)). cbn [mbind option_bind].
  rewrite u32_user by lia. rewrite IH; [done|]. split; [lia|]. split; [lia|]. intros v Hv. apply Hr. lia.
Qed.

Lemma readable_sub m pgdir va n v k :
  readable m pgdir va n -> va <= v -> v + k <= va + n -> readable m pgdir v k.
Proof. intros (H0 & H1 & Hr) Ha Hb. split; [lia|]. split; [lia|]. intros x Hx. apply Hr. lia. Qed.


(** Storing bytes into a page that is in use. *)
Lemma uvm_ok_sts m pgdir l q a bs :
  uvm_ok m pgdir l -> data_page m pgdir l q -> q <= a -> a + Z.of_nat (length bs) <= q + PGSIZE ->
  uvm_ok (sts m a bs) pgdir l /\
  (forall q', data_page m pgdir l q' -> data_page (sts m a bs) pgdir l q') /\
  forall va, pte_val (sts m a bs) pgdir va = pte_val m pgdir va.
Proof.
  revert m a. induction bs as [|b bs IH]; intros m a Hok Hq H0 H1; [auto|]. cbn [sts length] in *.
  assert (Hd : forall q', data_page m pgdir l q' -> data_page (st m a b) pgdir l q').
  { intros q' (Q1 & Q2 & Q3 & Q4). split; [done|]. split; [done|]. split; [done|].
    intros i Hi. rewrite (pde_st_data _ _ l q) by (done || lia || apply Hok). auto. }
  destruct (IH (st m a b) (a + 1)) as (I1 & I2 & I3); [|auto|lia|lia|].
  - now apply (uvm_ok_st _ _ _ q); [..|lia].
  - split; [done|]. split; [auto|]. intros va. rewrite I3. apply (pte_st_data _ _ l q); [apply Hok|done|lia].
Qed.

End Uvm.
