(* ===== verification/Space.v ===== *)
(** Address spaces as a whole: the pages [freevm] gives back, the kernel part
    that [setupkvm] builds, the pages [allocuvm] adds and the copy [copyuvm]
    makes for a child. *)
From S2P Require Import Prelude Monad Mem Mmu Cstring Kalloc Vm Hw Uvm.

Section Space.
Variables kend kdata : Z.
Local Abbreviation uvm_ok := (uvm_ok kend).
Local Abbreviation pgdir_ok := (pgdir_ok kend).
Local Abbreviation kmem_ok := (kmem_ok kend).

(** ** Changing one page that is not part of the page table *)

Lemma same_outside_word q m m1 p i :
  same_outside q m m1 -> q mod PGSIZE = 0 -> p mod PGSIZE = 0 -> p <> q -> 0 <= i < 1024 ->
  ld32 m1 (p + 4 * i) = ld32 m (p + 4 * i).
Proof.
  intros H Hq Hp Hne Hi. apply ld32_ext. intros j Hj. apply H.
  destruct (pages_apart p q Hp Hq Hne); unfold PGSIZE in *; lia.
Qed.

Lemma same_outside_pde q m m1 pgdir l i :
  same_outside q m m1 -> pgdir_ok m pgdir l -> q mod PGSIZE = 0 -> q <> pgdir -> 0 <= i < 1024 ->
  pde_at m1 pgdir i = pde_at m pgdir i.
Proof.
  intros H Hok Hq Hne Hi. apply (same_outside_word q); auto.
  apply (page_aligned kend), (po_page _ _ _ _ Hok).
Qed.

Lemma same_outside_pte q m m1 pgdir l va :
  same_outside q m m1 -> pgdir_ok m pgdir l -> q mod PGSIZE = 0 -> q <> pgdir ->
  (forall i, 0 <= i < 1024 -> present (pde_at m pgdir i) = true -> q <> pgtab_of (pde_at m pgdir i)) ->
  pte_val m1 pgdir va = pte_val m pgdir va.
Proof.
  intros H Hok Hq Hne Ht. unfold pte_val. rewrite (same_outside_pde q m m1 pgdir l) by auto using PDX_range.
  destruct (present (pde_at m pgdir (PDX va))) eqn:Hp; [|done].
  destruct (po_tab _ _ _ _ Hok _ (PDX_range va) Hp) as (Hpt & _).
  apply (same_outside_word q); auto using PTX_range; [now apply (page_aligned kend)|].
  intros E. symmetry in E. revert E. apply Ht; auto using PDX_range.
Qed.

Lemma uvm_ok_ext m m' pgdir l l' :
  uvm_ok m pgdir l ->
  (forall i, 0 <= i < 1024 -> pde_at m' pgdir i = pde_at m pgdir i) ->
  (forall va, 0 <= va < KERNBASE -> present (pte_val m' pgdir va) = true ->
     pte_val m' pgdir va = pte_val m pgdir va /\ upage m pgdir va ∉ l') ->
  (forall x, x ∈ l' -> x ∈ l \/ data_page m pgdir l x) ->
  uvm_ok m' pgdir l'.
Proof.
  intros [Hd Hp Hi] Epde Epte Hl.
  assert (Ht : forall i, 0 <= i < 1024 -> present (pde_at m pgdir i) = true -> pgtab_of (pde_at m pgdir i) ∉ l').
  { intros i Hi' Hpr Hx. destruct (po_tab _ _ _ _ Hd i Hi' Hpr) as (_ & Hn & _).
    destruct (Hl _ Hx) as [|(_ & _ & _ & Hq)]; [done|]. now apply (Hq i). }
  assert (Hpd : pgdir ∉ l').
  { intros Hx. destruct (Hl _ Hx) as [|(_ & _ & Hq & _)]; [|done]. now apply (po_free _ _ _ _ Hd). }
  split.
  - split; [apply Hd|done| |].
    + intros i Hi' Hpr. rewrite Epde in * by done. destruct (po_tab _ _ _ _ Hd i Hi' Hpr) as (? & _ & ?). auto.
    + intros i j Hi' Hj. rewrite !Epde by done. now apply (po_inj _ _ _ _ Hd).
  - intros va Hva Hpr. destruct (Epte va Hva Hpr) as [E Hn]. unfold upage. rewrite E in *. fold (upage m pgdir va).
    destruct (Hp va Hva Hpr) as (Hpg & Hal & _ & Hne & Htab). split; [done|].
    split; [done|]. split; [done|]. split; [done|]. intros i Hi'. rewrite Epde by done. now apply Htab.
  - intros va va' Hva Hva' Hpr Hpr'. destruct (Epte va Hva Hpr) as [E _]. destruct (Epte va' Hva' Hpr') as [E' _].
    unfold upage. rewrite E, E' in *. now apply Hi.
Qed.

(** One page is unmapped: [m1] is the memory after [kfree] of it. *)
Lemma unmap_page m m1 pgdir l va :
  uvm_ok m pgdir l -> 0 <= va < KERNBASE -> present (pte_val m pgdir va) = true ->
  let q := upage m pgdir va in
  same_outside q m m1 ->
  let m2 := st32 m1 (pgtab_of (pde_at m pgdir (PDX va)) + 4 * PTX va) 0 in
  uvm_ok m2 pgdir (q :: l) /\
  (forall i, 0 <= i < 1024 -> pde_at m2 pgdir i = pde_at m pgdir i) /\
  (forall v, is_u32 v -> pte_val m2 pgdir v = if v / PGSIZE =? va / PGSIZE then 0 else pte_val m pgdir v) /\
  (forall p a, data_page m pgdir l p -> p <> q -> p <= a < p + PGSIZE -> ld m2 a = ld m a).
Proof.
  intros Hok Hva Hpr q Hso m2. destruct (um_page _ _ _ _ Hok va Hva Hpr) as [Hpg Hdp].
  fold q in Hpg, Hdp. pose proof Hdp as (Hqa & Hql & Hqp & Hqt).
  pose proof (um_dir _ _ _ _ Hok) as Hd.
  assert (Hpd : present (pde_at m pgdir (PDX va)) = true).
  { unfold pte_val in Hpr. destruct (present (pde_at m pgdir (PDX va))); [done|discriminate]. }
  assert (Epde1 : forall i, 0 <= i < 1024 -> pde_at m1 pgdir i = pde_at m pgdir i)
    by (intros; now apply (same_outside_pde q m m1 pgdir l)).
  assert (Hd1 : pgdir_ok m1 pgdir l) by (now apply (pgdir_ok_ext kend m m1 pgdir l l)).
  destruct (po_tab _ _ _ _ Hd _ (PDX_range va) Hpd) as (Ht & Htl & Htp).
  assert (Epde : forall i, 0 <= i < 1024 -> pde_at m2 pgdir i = pde_at m pgdir i).
  { intros i Hi. rewrite <- Epde1 by done. unfold m2.
    apply (pde_at_store_tab kend _ _ l); auto using PTX_range. now apply (page_aligned kend). }
  assert (Epte : forall v, is_u32 v -> pte_val m2 pgdir v = if v / PGSIZE =? va / PGSIZE then 0 else pte_val m pgdir v).
  { intros v Hv. unfold m2. rewrite <- (Epde1 (PDX va)) by apply PDX_range.
    rewrite (pte_val_store kend _ _ l); [|done|now rewrite Epde1 by apply PDX_range|unfold is_u32; lia].
    rewrite same_entry by (unfold is_u32, KERNBASE in *; lia). destruct (_ =? _); [done|].
    now apply (same_outside_pte q m m1 pgdir l). }
  split; [|split; [done|split; [done|]]].
  - apply (uvm_ok_ext m _ _ l); [done|done| |].
    + intros v Hv. rewrite Epte by (unfold is_u32, KERNBASE in *; lia).
      destruct (Z.eqb_spec (v / PGSIZE) (va / PGSIZE)) as [|Hne]; [done|]. intros Hpv. split; [done|].
      destruct (um_page _ _ _ _ Hok v Hv Hpv) as [_ (_ & Hvl & _)].
      intros Hx. apply elem_of_cons in Hx as [Hx|Hx]; [|done]. apply Hne. now apply (um_inj _ _ _ _ Hok).
    + intros x Hx. apply elem_of_cons in Hx as [->|Hx]; [now right|now left].
  - intros p a (Hpa & _ & Hpp & Hpt) Hpq Ha. unfold m2. rewrite (ld_other_page _ _ p).
    + apply Hso. destruct (pages_apart p q Hpa Hqa Hpq); unfold PGSIZE in *; lia.
    + now apply (page_aligned kend).
    + done.
    + intros E. symmetry in E. revert E. apply Hpt; auto using PDX_range.
    + apply PTX_range.
    + done.
Qed.

(** ** deallocuvm *)

(** The kernel addresses of the user pages mapped among the [n] pages from [a]. *)
Fixpoint upages (m : mem) (pgdir a : Z) (n : nat) : list Z :=
  match n with
  | O => []
  | S n => (if present (pte_val m pgdir a) then [upage m pgdir a] else []) ++ upages m pgdir (a + PGSIZE) n
  end.

Lemma upages_app m pgdir a i j :
  upages m pgdir a (i + j) = upages m pgdir a i ++ upages m pgdir (a + PGSIZE * Z.of_nat i) j.
Proof.
  revert a. induction i as [|i IH]; intros a; cbn [Nat.add upages].
  - now rewrite Z.mul_0_r, Z.add_0_r.
  - rewrite IH, app_assoc. do 2 f_equal. lia.
Qed.

Lemma upages_ext m m' pgdir a n :
  (forall i, 0 <= i < Z.of_nat n -> pte_val m' pgdir (a + PGSIZE * i) = pte_val m pgdir (a + PGSIZE * i)) ->
  upages m' pgdir a n = upages m pgdir a n.
Proof.
  revert a. induction n as [|n IH]; intros a H; cbn [upages]; [done|].
  pose proof (H 0 ltac:(lia)) as H0. rewrite Z.mul_0_r, Z.add_0_r in H0. unfold upage. rewrite H0. f_equal.
  apply IH. intros i Hi. specialize (H (i + 1) ltac:(lia)). replace (a + PGSIZE + PGSIZE * i) with (a + PGSIZE * (i + 1)) by lia.
  exact H.
Qed.

Lemma upages_none m pgdir a n :
  (forall i, 0 <= i < Z.of_nat n -> present (pte_val m pgdir (a + PGSIZE * i)) = false) -> upages m pgdir a n = [].
Proof.
  revert a. induction n as [|n IH]; intros a H; cbn [upages]; [done|].
  pose proof (H 0 ltac:(lia)) as H0. rewrite Z.mul_0_r, Z.add_0_r in H0. rewrite H0. apply IH.
  intros i Hi. specialize (H (i + 1) ltac:(lia)). now replace (a + PGSIZE + PGSIZE * i) with (a + PGSIZE * (i + 1)) by lia.
Qed.

Lemma elem_of_upages m pgdir a n q :
  q ∈ upages m pgdir a n ->
  exists i, 0 <= i < Z.of_nat n /\ present (pte_val m pgdir (a + PGSIZE * i)) = true /\ q = upage m pgdir (a + PGSIZE * i).
Proof.
  revert a. induction n as [|n IH]; intros a; cbn [upages]; [intros H; now apply elem_of_nil in H|].
  intros [H|H]%elem_of_app.
  - destruct (present (pte_val m pgdir a)) eqn:Hp; [|now apply elem_of_nil in H].
    apply list_elem_of_singleton in H as ->. exists 0. rewrite Z.mul_0_r, Z.add_0_r. split; [lia|done].
  - destruct (IH _ H) as (i & Hi & Hp & ->). exists (i + 1).
    replace (a + PGSIZE * (i + 1)) with (a + PGSIZE + PGSIZE * i) by lia. split; [lia|done].
Qed.

(** The mapping [f] with the [n] pages from [a] unmapped. *)
Definition unmapped (a : Z) (n : nat) (f : Z -> Z) (va : Z) : Z :=
  if within a (PGSIZE * Z.of_nat n) va && present (f va) then 0 else f va.

Lemma within_app a i j va :
  within a (PGSIZE * Z.of_nat (i + j)) va =
  within a (PGSIZE * Z.of_nat i) va || within (a + PGSIZE * Z.of_nat i) (PGSIZE * Z.of_nat j) va.
Proof.
  unfold PGSIZE. destruct (withinP a (4096 * Z.of_nat (i + j)) va), (withinP a (4096 * Z.of_nat i) va),
    (withinP (a + 4096 * Z.of_nat i) (4096 * Z.of_nat j) va); cbn [orb]; lia || done.
Qed.

Record dealloc_post (pgdir a : Z) (n : nat) (k : kmem) (l fl : list Z) (k' : kmem) : Prop := {
  dp_kmem : kmem_ok k' (reverse fl ++ l);
  dp_uvm : uvm_ok (k_mem k') pgdir (reverse fl ++ l);
  dp_pde i : 0 <= i < 1024 -> pde_at (k_mem k') pgdir i = pde_at (k_mem k) pgdir i;
  dp_pte va : is_u32 va -> pte_val (k_mem k') pgdir va = unmapped a n (pte_val (k_mem k) pgdir) va;
  dp_lock : k_use_lock k' = k_use_lock k;
  dp_data q b : data_page (k_mem k) pgdir l q -> q ∉ fl -> q <= b < q + PGSIZE -> ld (k_mem k') b = ld (k_mem k) b
}.

Lemma dealloc_none pgdir a n k l :
  kmem_ok k l -> uvm_ok (k_mem k) pgdir l ->
  (forall v, within a (PGSIZE * Z.of_nat n) v = true -> is_u32 v -> present (pte_val (k_mem k) pgdir v) = false) ->
  dealloc_post pgdir a n k l [] k.
Proof.
  intros Hk Hok H. split; auto. intros va Hva. unfold unmapped.
  destruct (within a (PGSIZE * Z.of_nat n) va) eqn:E; [|done]. now rewrite H.
Qed.

(** Deallocating two ranges, one after the other. *)
Lemma dealloc_trans pgdir a i j k l f1 k1 f2 k2 :
  dealloc_post pgdir a i k l f1 k1 ->
  dealloc_post pgdir (a + PGSIZE * Z.of_nat i) j k1 (reverse f1 ++ l) f2 k2 ->
  dealloc_post pgdir a (i + j) k l (f1 ++ f2) k2.
Proof.
  intros [K1 U1 D1 P1 L1 B1] [K2 U2 D2 P2 L2 B2].
  split; rewrite ?reverse_app, <- ?app_assoc; auto; [intros; now rewrite D2, D1| |congruence|].
  - intros va Hva. rewrite P2 by done. unfold unmapped. rewrite P1 by done. unfold unmapped.
    rewrite (within_app a i j). generalize (pte_val (k_mem k) pgdir va). intros w.
    destruct (within a _ va), (within (a + _) _ va), (present w) eqn:E; cbn [orb andb]; rewrite ?E; try done.
  - intros q b Hq Hn Hb. rewrite not_elem_of_app in Hn. destruct Hn as [Hn1 Hn2].
    rewrite (B2 q b), (B1 q b); auto. destruct Hq as (Ha & Hl & Hne & Ht). split; [done|]. split; [|split; [done|]].
    + rewrite elem_of_app, elem_of_reverse. tauto.
    + intros x Hx. rewrite D1 by done. now apply Ht.
Qed.

Lemma dealloc_widen pgdir a n a' n' k l f k' :
  dealloc_post pgdir a' n' k l f k' ->
  (forall va, is_u32 va -> present (pte_val (k_mem k) pgdir va) = true ->
     within a (PGSIZE * Z.of_nat n) va = within a' (PGSIZE * Z.of_nat n') va) ->
  dealloc_post pgdir a n k l f k'.
Proof.
  intros [K U D P L B] H. split; auto. intros va Hva. rewrite P by done. unfold unmapped.
  destruct (present (pte_val (k_mem k) pgdir va)) eqn:E; [now rewrite H|now rewrite !andb_false_r].
Qed.

(** All addresses of a page have one entry. *)
Lemma pte_val_page m pgdir v a :
  a mod PGSIZE = 0 -> a <= v < a + PGSIZE -> is_u32 v -> is_u32 a -> pte_val m pgdir v = pte_val m pgdir a.
Proof.
  intros Hal Hr Hv Ha.
  assert (E : v / PGSIZE = a / PGSIZE) by (unfold PGSIZE in *; Z.to_euclidean_division_equations; lia).
  assert (PDX v = PDX a /\ PTX v = PTX a) as [E1 E2].
  { pose proof (PDX_PTX_page v Hv). pose proof (PDX_PTX_page a Ha). pose proof (PTX_range v). pose proof (PTX_range a). lia. }
  unfold pte_val. now rewrite E1, E2.
Qed.

(** The body of the loop on a page whose table exists. *)
Lemma wp_dealloc_page {A} pgdir a l (rest : M kmem A) Q c k :
  kmem_ok k l -> uvm_ok (k_mem k) pgdir l -> LKmem ∉ held c -> 0 <= a < KERNBASE -> a mod PGSIZE = 0 ->
  present (pde_at (k_mem k) pgdir (PDX a)) = true ->
  (forall k', dealloc_post pgdir a 1 k l (upages (k_mem k) pgdir a 1) k' -> wp rest Q c k') ->
  wp (let* v := load (pgtab_of (pde_at (k_mem k) pgdir (PDX a)) + 4 * PTX a) in
      (if negb (Z.land v PTE_P =? 0) then
         if PTE_ADDR v =? 0 then panic "kfree"
         else kfree kend (P2V (PTE_ADDR v)) ;;; store (pgtab_of (pde_at (k_mem k) pgdir (PDX a)) + 4 * PTX a) 0
       else ret tt) ;;; rest) Q c k.
Proof.
  intros Hk Hok Hlk Ha Hal Hpd HQ. cbn [upages] in HQ. rewrite app_nil_r in HQ.
  unfold load, store. apply wp_bind, wp_gets.
  assert (Ev : ld32 (k_mem k) (pgtab_of (pde_at (k_mem k) pgdir (PDX a)) + 4 * PTX a) = pte_val (k_mem k) pgdir a)
    by (unfold pte_val; now rewrite Hpd).
  rewrite Ev. fold (present (pte_val (k_mem k) pgdir a)). fold (upage (k_mem k) pgdir a).
  apply wp_bind. destruct (present (pte_val (k_mem k) pgdir a)) eqn:Hpr.
  - destruct (um_page _ _ _ _ Hok a Ha Hpr) as [Hpg Hdp].
    destruct (Z.eqb_spec (PTE_ADDR (pte_val (k_mem k) pgdir a)) 0) as [E0|_].
    { exfalso. destruct Hpg as (_ & _ & Hkb & _). revert Hkb. unfold upage. rewrite E0. vm_compute. done. }
    apply wp_bind. eapply wp_kfree; [done..|apply Hdp|done|]. intros k1 Hk1 Hso Hul. apply wp_modify.
    destruct (unmap_page (k_mem k) (k_mem k1) pgdir l a Hok Ha Hpr Hso) as (U & D & P & B).
    apply HQ. split; cbn [reverse app]; auto.
    + destruct Hk1 as (Hch & Hpgs & Hnd). split; [|done]. eapply chain_ext; [exact Hch|].
      intros p Hp. destruct (po_tab _ _ _ _ (um_dir _ _ _ _ Hok) _ (PDX_range a) Hpd) as (Ht & Htl & Htp).
      rewrite Forall_forall in Hpgs. apply ld32_ext. intros i Hi. simpl.
      apply (ld_other_page _ _ p); [now apply (page_aligned kend)|now apply (page_aligned kend), Hpgs| |apply PTX_range|unfold PGSIZE; lia].
      intros E. apply elem_of_cons in Hp as [->|Hp]; [|now rewrite E in Htl].
      destruct Hdp as (_ & _ & _ & Hqt). symmetry in E. now apply (Hqt (PDX a) (PDX_range a)).
    + intros va Hva. simpl. rewrite P by done. unfold unmapped. rewrite page_div by done.
      replace (PGSIZE * Z.of_nat 1) with PGSIZE by done. destruct (withinP a PGSIZE va) as [Hin|]; [|done].
      cbn [andb]. now rewrite (pte_val_page _ _ va a), Hpr by (unfold is_u32, KERNBASE in *; auto; lia).
    + intros q b Hq Hn Hb. simpl. apply (B q); auto. intros ->. apply Hn. now left.
  - apply wp_ret, HQ. apply dealloc_none; [done..|]. intros v Hv Hu.
    revert Hv. destruct (withinP a (PGSIZE * Z.of_nat 1) v); [|done]. intros _.
    rewrite (pte_val_page _ _ v a); auto; unfold is_u32, KERNBASE in *; lia.
Qed.

(** The number of pages from [a] that begin before [sz]. *)
Definition pages_to (a sz : Z) : nat := Z.to_nat ((sz - a + PGSIZE - 1) / PGSIZE).

Lemma pages_to_0 a sz : sz <= a -> pages_to a sz = 0%nat.
Proof. intros H. unfold pages_to, PGSIZE. Z.to_euclidean_division_equations; lia. Qed.

Lemma pages_to_S a sz : a < sz -> pages_to a sz = S (pages_to (a + PGSIZE) sz).
Proof. intros H. unfold pages_to, PGSIZE. Z.to_euclidean_division_equations; lia. Qed.

Lemma pages_to_add a sz j :
  0 <= j -> a + PGSIZE * j < sz + PGSIZE -> pages_to a sz = (Z.to_nat j + pages_to (a + PGSIZE * j) sz)%nat.
Proof. intros H1 H2. unfold pages_to, PGSIZE in *. Z.to_euclidean_division_equations; lia. Qed.

(** An address with no table: the loop goes on at the next table's first page. *)
Definition next_table (a : Z) : Z := u32 (u32 (PGADDR (PDX a + 1) 0 0 - PGSIZE) + PGSIZE).

Lemma next_table_eq a :
  0 <= a < KERNBASE -> a mod PGSIZE = 0 -> next_table a = a + PGSIZE * (1024 - PTX a) /\ 0 <= 1024 - PTX a.
Proof.
  intros Ha Hal. unfold next_table, PGADDR. rewrite !Z.shiftl_0_l, !Z.lor_0_r, Z.shiftl_mul_pow2 by (unfold PDXSHIFT; lia).
  rewrite PDX_eq, PTX_eq. unfold u32, PDXSHIFT, PGSIZE, KERNBASE in *.
  change (2 ^ 22) with 4194304. change (2 ^ 32) with 4294967296. Z.to_euclidean_division_equations; lia.
Qed.

Lemma pte_val_no_table m pgdir a i :
  0 <= a < KERNBASE -> a mod PGSIZE = 0 -> present (pde_at m pgdir (PDX a)) = false ->
  a <= i < a + PGSIZE * (1024 - PTX a) -> pte_val m pgdir i = 0.
Proof.
  intros Ha Hal Hab Hi. unfold pte_val. assert (PDX i = PDX a) as ->; [|now rewrite Hab].
  revert Hi. rewrite !PDX_eq, PTX_eq. unfold PGSIZE, KERNBASE in *. intros Hi. Z.to_euclidean_division_equations; lia.
Qed.

(** Where there is no table the range to free is that from the next table on. *)
Lemma dealloc_skip pgdir a oldsz k l k' :
  0 <= a < KERNBASE -> a mod PGSIZE = 0 -> oldsz <= KERNBASE -> present (pde_at (k_mem k) pgdir (PDX a)) = false ->
  let b := next_table a in
  dealloc_post pgdir b (pages_to b oldsz) k l (upages (k_mem k) pgdir b (pages_to b oldsz)) k' ->
  dealloc_post pgdir a (pages_to a oldsz) k l (upages (k_mem k) pgdir a (pages_to a oldsz)) k'.
Proof.
  intros Ha Hal Hsz Hab b. destruct (next_table_eq a Ha Hal) as [Eb Hj]. fold b in Eb. intros Hd.
  set (j := 1024 - PTX a) in *.
  assert (Hnp : forall v, a <= v < b -> present (pte_val (k_mem k) pgdir v) = false).
  { intros v Hv. rewrite (pte_val_no_table _ _ a); [done..|]. fold j. lia. }
  assert (E : upages (k_mem k) pgdir a (pages_to a oldsz) = upages (k_mem k) pgdir b (pages_to b oldsz)).
  { destruct (Z.lt_ge_cases b (oldsz + PGSIZE)) as [Hlt|Hge].
    - rewrite (pages_to_add a oldsz j), <- Eb by lia. rewrite upages_app, upages_none, Z2Nat.id, <- Eb by (lia || (intros; apply Hnp; unfold PGSIZE in *; lia)).
      done.
    - rewrite (pages_to_0 b) by (unfold PGSIZE in *; lia). apply upages_none. intros i Hi. apply Hnp.
      unfold pages_to, PGSIZE in *. Z.to_euclidean_division_equations; lia. }
  rewrite E. apply (dealloc_widen _ _ _ b (pages_to b oldsz)); [done|]. intros va Hva Hp.
  assert (Hout : ~ a <= va < b) by (intros Hin; rewrite Hnp in Hp; done).
  match goal with |- within ?x1 ?y1 _ = within ?x2 ?y2 _ => destruct (withinP x1 y1 va), (withinP x2 y2 va) end; try done;
    exfalso; unfold pages_to, PGSIZE in *; Z.to_euclidean_division_equations; lia.
Qed.

Lemma upages_data m pgdir l a n q :
  uvm_ok m pgdir l -> 0 <= a -> a + PGSIZE * Z.of_nat n <= KERNBASE + PGSIZE - 1 -> a mod PGSIZE = 0 -> q ∈ upages m pgdir a n ->
  page_ok kend q /\ data_page m pgdir l q.
Proof.
  intros Hok Ha Hn Hal Hq. apply elem_of_upages in Hq as (i & Hi & Hp & ->). apply (um_page _ _ _ _ Hok); [|done].
  unfold KERNBASE, PGSIZE in *. Z.to_euclidean_division_equations; lia.
Qed.

Lemma wp_deallocuvm_from fuel pgdir a oldsz l c k :
  kmem_ok k l -> uvm_ok (k_mem k) pgdir l -> LKmem ∉ held c -> 0 <= a -> a mod PGSIZE = 0 -> oldsz <= KERNBASE ->
  (pages_to a oldsz < fuel)%nat ->
  wp (deallocuvm_from kend fuel pgdir a oldsz)
    (fun _ c' k' => c' = c /\
       dealloc_post pgdir a (pages_to a oldsz) k l (upages (k_mem k) pgdir a (pages_to a oldsz)) k') c k.
Proof.
  revert a l k. induction fuel as [|fuel IH]; intros a l k Hk Hok Hlk Ha Hal Hsz Hf; [lia|]. cbn [deallocuvm_from].
  destruct (Z.ltb_spec a oldsz) as [Hlt|Hge].
  2:{ apply wp_ret. split; [done|]. rewrite pages_to_0 by done. apply dealloc_none; [done..|].
      intros v. destruct (withinP a (PGSIZE * Z.of_nat 0) v); [lia|done]. }
  apply wp_bind. destruct (present (pde_at (k_mem k) pgdir (PDX a))) eqn:Hpd.
  - apply wp_walkpgdir_present; [done|].
    destruct (po_tab _ _ _ _ (um_dir _ _ _ _ Hok) _ (PDX_range a) Hpd) as ((_ & _ & Hkb & _) & _).
    pose proof (PTX_range a) as Rx. destruct (Z.eqb_spec (pgtab_of (pde_at (k_mem k) pgdir (PDX a)) + 4 * PTX a) 0);
      [unfold KERNBASE in *; lia|].
    apply (wp_dealloc_page _ _ l); auto; [lia|]. intros k1 D1. rewrite u32_small by (unfold is_u32, KERNBASE, PGSIZE in *; lia).
    rewrite (pages_to_S a) in * by done. eapply wp_mono.
    { apply (IH (a + PGSIZE) (reverse (upages (k_mem k) pgdir a 1) ++ l) k1); auto; [apply D1|apply D1|unfold PGSIZE; lia| |lia].
      unfold PGSIZE in *. Z.to_euclidean_division_equations; lia. }
    intros [] c' k' (-> & D2). split; [done|].
    change (S (pages_to (a + PGSIZE) oldsz)) with (1 + pages_to (a + PGSIZE) oldsz)%nat. rewrite upages_app.
    replace (a + PGSIZE * Z.of_nat 1) with (a + PGSIZE) by lia.
    eapply dealloc_trans; [exact D1|]. replace (a + PGSIZE * Z.of_nat 1) with (a + PGSIZE) by lia.
    rewrite <- (upages_ext (k_mem k) (k_mem k1) pgdir (a + PGSIZE)); [exact D2|]. intros i Hi.
    rewrite (dp_pte _ _ _ _ _ _ _ D1).
    + unfold unmapped. destruct (withinP a (PGSIZE * Z.of_nat 1) (a + PGSIZE + PGSIZE * i)); [unfold PGSIZE in *; lia|done].
    + unfold is_u32, pages_to, KERNBASE, PGSIZE in *. Z.to_euclidean_division_equations; lia.
  - apply wp_walkpgdir_absent; [done|]. fold (next_table a). destruct (next_table_eq a) as [Eb Hj]; [lia|done|].
    pose proof (PTX_range a). eapply wp_mono.
    { apply (IH (next_table a) l k); auto; rewrite Eb; [unfold PGSIZE; lia| |].
      - unfold PGSIZE in *. Z.to_euclidean_division_equations; lia.
      - unfold pages_to, PGSIZE in *. Z.to_euclidean_division_equations; lia. }
    intros [] c' k' (-> & D). split; [done|]. apply dealloc_skip; auto. lia.
Qed.

Lemma PGROUNDUP_page sz :
  0 <= sz <= KERNBASE -> PGROUNDUP sz mod PGSIZE = 0 /\ sz <= PGROUNDUP sz < sz + PGSIZE.
Proof.
  intros H. rewrite PGROUNDUP_eq by (unfold is_u32, KERNBASE, PGSIZE in *; lia).
  unfold KERNBASE, PGSIZE in *. Z.to_euclidean_division_equations; lia.
Qed.

Lemma wp_deallocuvm pgdir oldsz newsz l c k :
  kmem_ok k l -> uvm_ok (k_mem k) pgdir l -> LKmem ∉ held c -> 0 <= newsz <= KERNBASE -> 0 <= oldsz <= KERNBASE ->
  let n := pages_to (PGROUNDUP newsz) oldsz in
  wp (deallocuvm kend pgdir oldsz newsz)
    (fun r c' k' => r = Z.min oldsz newsz /\ c' = c /\
       dealloc_post pgdir (PGROUNDUP newsz) n k l (upages (k_mem k) pgdir (PGROUNDUP newsz) n) k') c k.
Proof.
  intros Hk Hok Hlk Hn Ho n. destruct (PGROUNDUP_page newsz Hn) as [Hal Hr]. unfold deallocuvm.
  destruct (Z.leb_spec oldsz newsz) as [Hle|Hlt].
  - apply wp_ret. split; [lia|]. split; [done|]. unfold n. rewrite pages_to_0 by lia. apply dealloc_none; [done..|].
    intros v. destruct (withinP (PGROUNDUP newsz) (PGSIZE * Z.of_nat 0) v); [lia|done].
  - apply wp_bind. eapply wp_mono.
    + apply (wp_deallocuvm_from _ _ _ _ l); auto; [lia|lia|]. unfold pages_to, PGSIZE in *. Z.to_euclidean_division_equations; lia.
    + intros [] c' k' (-> & D). apply wp_ret. split; [lia|]. done.
Qed.

(** ** freevm *)

(** The tables of the first [n] entries of the directory. *)
Definition tables (m : mem) (pgdir : Z) (n : nat) : list Z :=
  (fun i => pgtab_of (pde_at m pgdir i)) <$> filter (fun i => present (pde_at m pgdir i) = true) (zrange n).

Lemma tables_S m pgdir n :
  tables m pgdir (S n) =
  tables m pgdir n ++ if present (pde_at m pgdir (Z.of_nat n)) then [pgtab_of (pde_at m pgdir (Z.of_nat n))] else [].
Proof.
  unfold tables. rewrite zrange_S, filter_app, fmap_app. f_equal. rewrite filter_cons, filter_nil.
  destruct (present (pde_at m pgdir (Z.of_nat n))); [now rewrite decide_True|now rewrite decide_False].
Qed.

Lemma elem_of_tables m pgdir n t :
  t ∈ tables m pgdir n <->
  exists i, 0 <= i < Z.of_nat n /\ present (pde_at m pgdir i) = true /\ t = pgtab_of (pde_at m pgdir i).
Proof.
  unfold tables. rewrite list_elem_of_fmap. split.
  - intros (i & -> & Hi). apply list_elem_of_filter in Hi as [Hp Hi]. apply elem_of_zrange in Hi. eauto.
  - intros (i & Hi & Hp & ->). exists i. split; [done|]. apply list_elem_of_filter. split; [done|]. now apply elem_of_zrange.
Qed.

Lemma length_tables m pgdir : length (tables m pgdir 1024) = ntab m pgdir.
Proof. unfold tables, ntab. apply length_fmap. Qed.

(** The loop that frees the tables. *)
Lemma wp_free_tables pgdir l k c (Q : unit -> ctx -> kmem -> Prop) :
  kmem_ok k l -> pgdir_ok (k_mem k) pgdir l -> LKmem ∉ held c ->
  (forall k', kmem_ok k' (reverse (tables (k_mem k) pgdir 1024) ++ l) -> k_use_lock k' = k_use_lock k ->
     (forall q b, q mod PGSIZE = 0 -> q ∉ tables (k_mem k) pgdir 1024 -> q <= b < q + PGSIZE ->
        ld (k_mem k') b = ld (k_mem k) b) -> Q tt c k') ->
  wp (for_ (zrange NPDENTRIES) (fun i =>
        let* pde := load (pgdir + 4 * i) in
        when (negb (Z.land pde PTE_P =? 0)) (kfree kend (P2V (PTE_ADDR pde))))) Q c k.
Proof.
  intros Hk Hok Hlk HQ. set (m := k_mem k) in *.
  apply (wp_for_zrange _ _ (fun n c' k' => c' = c /\ kmem_ok k' (reverse (tables m pgdir n) ++ l) /\
    k_use_lock k' = k_use_lock k /\
    (forall q b, q mod PGSIZE = 0 -> q ∉ tables m pgdir n -> q <= b < q + PGSIZE -> ld (k_mem k') b = ld m b))).
  - split; [done|]. split; [done|]. split; [done|]. done.
  - intros n c' k1 Hn (-> & Hk1 & Hu1 & Hs1). unfold load, NPDENTRIES in *. apply wp_bind, wp_gets.
    assert (Hd : pgdir ∉ tables m pgdir n).
    { intros Hx. apply elem_of_tables in Hx as (i & Hi & Hp & E). destruct (po_tab _ _ _ _ Hok i ltac:(lia) Hp) as (_ & _ & Hne).
      now rewrite <- E in Hne. }
    assert (E : ld32 (k_mem k1) (pgdir + 4 * Z.of_nat n) = pde_at m pgdir (Z.of_nat n)).
    { apply ld32_ext. intros i Hi. apply (Hs1 pgdir); [apply (page_aligned kend), (po_page _ _ _ _ Hok)|done|unfold PGSIZE; lia]. }
    rewrite E. fold (present (pde_at m pgdir (Z.of_nat n))). fold (pgtab_of (pde_at m pgdir (Z.of_nat n))).
    rewrite tables_S. destruct (present (pde_at m pgdir (Z.of_nat n))) eqn:Hp; cbn [when].
    2:{ rewrite app_nil_r. now apply wp_ret. }
    destruct (po_tab _ _ _ _ Hok (Z.of_nat n) ltac:(lia) Hp) as (Ht & Htl & Htp).
    eapply wp_kfree; [exact Hk1|exact Ht| |done|].
    + rewrite elem_of_app, elem_of_reverse, elem_of_tables. intros [(i & Hi & Hpi & Et)|]; [|done].
      assert (Z.of_nat n = i) by (apply (po_inj _ _ _ _ Hok); auto; lia). lia.
    + intros k2 Hk2 Hso Hu2. split; [done|]. split; [|split; [congruence|]].
      * rewrite reverse_app. exact Hk2.
      * intros q b Hq Hn' Hb. rewrite not_elem_of_app, list_elem_of_singleton in Hn'. destruct Hn' as [Hn1 Hn2].
        rewrite <- (Hs1 q b) by done. apply Hso.
        destruct (pages_apart q _ Hq (page_aligned kend _ Ht) Hn2); unfold PGSIZE in *; lia.
  - intros c' k' (-> & H1 & H2 & H3). apply HQ; auto.
Qed.

(** The pages of an address space, as [freevm] leaves them on the free list:
    the directory, its tables and the user pages. *)
Definition space_pages (m : mem) (pgdir : Z) : list Z :=
  pgdir :: reverse (tables m pgdir 1024) ++ reverse (upages m pgdir 0 (pages_to 0 KERNBASE)).

Lemma tables_ext m m' pgdir n :
  (n <= 1024)%nat -> (forall i, 0 <= i < 1024 -> pde_at m' pgdir i = pde_at m pgdir i) -> tables m' pgdir n = tables m pgdir n.
Proof.
  intros Hn H. induction n as [|n IH]; [done|]. rewrite !tables_S, IH, H by lia. done.
Qed.

Lemma wp_freevm pgdir l k c (Q : unit -> ctx -> kmem -> Prop) :
  kmem_ok k l -> uvm_ok (k_mem k) pgdir l -> LKmem ∉ held c ->
  (forall k', kmem_ok k' (space_pages (k_mem k) pgdir ++ l) -> k_use_lock k' = k_use_lock k ->
     (forall q b, q mod PGSIZE = 0 -> q ∉ space_pages (k_mem k) pgdir -> q ∉ l -> q <= b < q + PGSIZE ->
        ld (k_mem k') b = ld (k_mem k) b) -> Q tt c k') ->
  wp (freevm kend pgdir) Q c k.
Proof.
  intros Hk Hok Hlk HQ. pose proof (po_page _ _ _ _ (um_dir _ _ _ _ Hok)) as Hpg. unfold freevm.
  destruct (Z.eqb_spec pgdir 0) as [->|_]; [destruct Hpg as (_ & _ & Hkb & _); unfold KERNBASE in *; lia|].
  apply wp_bind. eapply wp_mono; [apply (wp_deallocuvm _ _ _ l); auto; unfold KERNBASE; lia|].
  intros _ ? k1 (_ & -> & D). change (PGROUNDUP 0) with 0 in D. set (n := pages_to 0 KERNBASE) in *.
  set (ul := upages (k_mem k) pgdir 0 n) in *. destruct D as [K1 U1 D1 P1 L1 B1].
  apply wp_bind. apply (wp_free_tables _ (reverse ul ++ l)); [done|apply U1|done|]. intros k2 K2 L2 B2.
  assert (Et : tables (k_mem k1) pgdir 1024 = tables (k_mem k) pgdir 1024) by now apply tables_ext.
  rewrite Et in *. eapply (wp_kfree kend); [exact K2|done| |done|].
  - rewrite elem_of_app, elem_of_reverse, <- Et. intros [Hx|Hx]; [|now apply (po_free _ _ _ _ (um_dir _ _ _ _ U1))].
    apply elem_of_tables in Hx as (i & Hi & Hp & E). destruct (po_tab _ _ _ _ (um_dir _ _ _ _ U1) i Hi Hp) as (_ & _ & Hne). congruence.
  - intros k3 K3 Hso L3. apply HQ; [unfold space_pages; fold n ul; cbn [app]; now rewrite <- app_assoc|congruence|].
    intros q b Hq Hn Hql Hb. unfold space_pages in Hn. fold n ul in Hn.
    rewrite not_elem_of_cons, not_elem_of_app, !elem_of_reverse in Hn. destruct Hn as (Hn1 & Hn2 & Hn3).
    rewrite Hso by (destruct (pages_apart q _ Hq (page_aligned kend _ Hpg) Hn1); unfold PGSIZE in *; lia).
    rewrite (B2 q), (B1 q); auto. split; [done|]. split; [done|]. split; [done|].
    intros i Hi Hp ->. apply Hn2, elem_of_tables. eauto.
Qed.

(** ** setupkvm *)

(** A zeroed page is an empty directory. *)
Lemma fresh_dir m p l :
  page_ok kend p -> p ∉ l ->
  let m' := memset m p 0 PGSIZE in
  pgdir_ok m' p l /\ (forall i, 0 <= i < 1024 -> pde_at m' p i = 0).
Proof.
  intros Hp Hl m'.
  assert (E : forall i, 0 <= i < 1024 -> pde_at m' p i = 0).
  { intros i Hi. unfold pde_at, m'. apply ld32_memset_zero; unfold PGSIZE; lia. }
  split; [|done]. split; [done|done| |].
  - intros i Hi. rewrite E by done. discriminate.
  - intros i j Hi Hj. rewrite E by done. discriminate.
Qed.

(** The directory entries of the kernel's part of an address space. *)
Definition kvm_index : list Z := ((fun i => 512 + i) <$> zrange 56) ++ ((fun i => 1016 + i) <$> zrange 8).

Lemma elem_of_kvm_index i : i ∈ kvm_index <-> 512 <= i < 568 \/ 1016 <= i < 1024.
Proof.
  unfold kvm_index. rewrite elem_of_app, !list_elem_of_fmap. setoid_rewrite elem_of_zrange. split.
  - intros [(y & -> & Hy)|(y & -> & Hy)]; lia.
  - intros [H|H]; [left; exists (i - 512)|right; exists (i - 1016)]; lia.
Qed.

Definition kernel_addr (va : Z) : Prop := KERNBASE <= va < KERNBASE + PHYSTOP \/ DEVSPACE <= va < 4294967296.

Lemma PDX_kvm va : kernel_addr va -> PDX va ∈ kvm_index.
Proof.
  intros H. rewrite elem_of_kvm_index, PDX_eq. unfold kernel_addr, KERNBASE, PHYSTOP, DEVSPACE in H.
  Z.to_euclidean_division_equations; lia.
Qed.

(** A directory in which [setupkvm] has mapped part of the kernel, from state
    [k0] in which it was empty. *)
Record kvm_part (pgdir : Z) (k0 : kmem) (l0 : list Z) (k : kmem) (l : list Z) : Prop := {
  kp_grows : grows kend pgdir k0 l0 k l;
  kp_tab i : 0 <= i < 1024 -> present (pde_at (k_mem k) pgdir i) = true -> i ∈ kvm_index;
  kp_user va : 0 <= va < KERNBASE -> pte_val (k_mem k) pgdir va = 0
}.

Lemma kvm_part_uvm pgdir k0 l0 k l : kvm_part pgdir k0 l0 k l -> kmem_ok k l /\ uvm_ok (k_mem k) pgdir l.
Proof.
  intros [(Hk & Hok & _) _ Hu]. split; [done|]. split; [done| |].
  - intros va Hva. rewrite Hu by done. discriminate.
  - intros va va' Hva Hva'. rewrite Hu by done. discriminate.
Qed.

Lemma wp_kvm_map n pgdir va pa perm k0 l0 k l c f :
  kvm_part pgdir k0 l0 k l -> (forall v, is_u32 v -> pte_val (k_mem k) pgdir v = f v) -> LKmem ∉ held c ->
  va mod PGSIZE = 0 -> pa mod PGSIZE = 0 -> 0 <= pa -> pa + PGSIZE * Z.of_nat (S n) <= 4294967296 ->
  0 <= perm < PGSIZE ->
  (forall v, within va (PGSIZE * Z.of_nat (S n)) v = true -> kernel_addr v /\ present (f v) = false) ->
  wp (mappages pgdir va (PGSIZE * Z.of_nat (S n)) pa perm)
    (fun r c' k' => c' = c /\ exists l', kvm_part pgdir k0 l0 k' l' /\
       (r = 0 /\ (forall v, is_u32 v -> pte_val (k_mem k') pgdir v = mapped va (S n) pa perm f v) \/
        r = -1 /\ l' = [] /\ exists i, i ∈ kvm_index /\ present (pde_at (k_mem k') pgdir i) = false)) c k.
Proof.
  intros [G T U] Hf Hlk Hva Hpa Hp0 Hp1 Hperm Hker. pose proof G as (Hk & Hok & _).
  assert (Hin : forall i, 0 <= i < PGSIZE * Z.of_nat (S n) -> kernel_addr (va + i) /\ present (f (va + i)) = false).
  { intros i Hi. apply Hker. destruct (withinP va (PGSIZE * Z.of_nat (S n)) (va + i)); [done|lia]. }
  assert (Hr : 0 <= va /\ va + PGSIZE * Z.of_nat (S n) <= 4294967296).
  { destruct (Hin 0) as [H0 _]; [unfold PGSIZE; lia|]. destruct (Hin (PGSIZE * Z.of_nat (S n) - 1)) as [H1 _]; [unfold PGSIZE; lia|].
    unfold kernel_addr, KERNBASE, PHYSTOP, DEVSPACE, PGSIZE in *. lia. }
  eapply wp_mono.
  { apply (wp_mappages_pages kend n _ _ _ _ l); auto; [apply Hr..|]. intros v Hv. destruct (Hker v Hv) as [Hkv Hpv].
    rewrite Hf; [done|]. unfold is_u32, kernel_addr, KERNBASE, PHYSTOP, DEVSPACE in *. lia. }
  intros r c' k' (-> & l' & j & G' & Hres & Ht & Hpte). split; [done|]. exists l'. split; [split|].
  - now apply (grows_trans kend _ _ _ k l).
  - intros i Hi Hp. destruct (Ht i Hi Hp) as [|(v & Hv & ->)]; [now apply T|]. apply PDX_kvm, Hker, Hv.
  - intros v Hv. rewrite Hpte by (unfold is_u32, KERNBASE in *; lia). unfold mapped.
    destruct (withinP va (PGSIZE * Z.of_nat j) v) as [Hvin|]; [|now apply U].
    destruct (Hin (v - va)) as [Hkv _]; [|rewrite Zplus_minus in Hkv; unfold kernel_addr, KERNBASE, DEVSPACE in *; lia].
    destruct Hres as [[_ ->]|(_ & Hj & _)]; unfold PGSIZE in *; lia.
  - destruct Hres as [[-> ->]|(-> & Hj & -> & Hab)]; [left|right].
    + split; [done|]. intros v Hv. rewrite Hpte by done. now apply mapped_ext.
    + split; [done|]. split; [done|]. eexists. split; [|exact Hab]. apply PDX_kvm, Hin. unfold PGSIZE; lia.
Qed.

Lemma NoDup_kvm_index : NoDup kvm_index.
Proof.
  unfold kvm_index. apply NoDup_app. split; [|split].
  - apply NoDup_fmap_2_strong; [lia|apply NoDup_zrange].
  - intros x H1 H2. apply list_elem_of_fmap in H1 as (y & -> & Hy). apply list_elem_of_fmap in H2 as (z & E & Hz).
    apply elem_of_zrange in Hy, Hz. lia.
  - apply NoDup_fmap_2_strong; [lia|apply NoDup_zrange].
Qed.

(** A directory before its first entry. *)
Record fresh (pgdir : Z) (k : kmem) (l : list Z) : Prop := {
  fr_kmem : kmem_ok k l;
  fr_dir : pgdir_ok (k_mem k) pgdir l;
  fr_pde i : 0 <= i < 1024 -> pde_at (k_mem k) pgdir i = 0
}.

Lemma fresh_pte pgdir k l va : fresh pgdir k l -> pte_val (k_mem k) pgdir va = 0.
Proof. intros H. unfold pte_val. now rewrite (fr_pde _ _ _ H) by apply PDX_range. Qed.

Lemma fresh_ntab pgdir k l : fresh pgdir k l -> ntab (k_mem k) pgdir = 0%nat.
Proof.
  intros H. cut (ntab (k_mem k) pgdir <= length (@nil Z))%nat; [cbn [length]; lia|]. apply ntab_le.
  intros i Hi. now rewrite (fr_pde _ _ _ H).
Qed.

Lemma fresh_data pgdir k l q : fresh pgdir k l -> q mod PGSIZE = 0 -> q ∉ l -> q <> pgdir -> data_page (k_mem k) pgdir l q.
Proof. intros H Hq Hl Hne. split; [done|]. split; [done|]. split; [done|]. intros i Hi. now rewrite (fr_pde _ _ _ H). Qed.

Lemma fresh_part pgdir k l : fresh pgdir k l -> kvm_part pgdir k l k l.
Proof.
  intros H. split; [now apply grows_refl; apply H| |].
  - intros i Hi. now rewrite (fr_pde _ _ _ H).
  - intros va _. now apply (fresh_pte _ _ l).
Qed.

Lemma NoDup_tables m pgdir l : pgdir_ok m pgdir l -> NoDup (tables m pgdir 1024 ++ l) <-> NoDup l.
Proof.
  intros Hok. rewrite NoDup_app. split; [tauto|]. intros Hl. split; [|split; [|done]].
  - unfold tables. apply NoDup_fmap_2_strong; [|apply NoDup_filter, NoDup_zrange].
    intros i j Hi Hj E. apply list_elem_of_filter in Hi as [Hpi Hi], Hj as [Hpj Hj]. apply elem_of_zrange in Hi, Hj.
    now apply (po_inj _ _ _ _ Hok).
  - intros t Ht. apply elem_of_tables in Ht as (i & Hi & Hp & ->). now apply (po_tab _ _ _ _ Hok).
Qed.

(** New tables come from the free list, and nothing else leaves it. *)
Lemma grows_pool pgdir k l k' l' :
  grows kend pgdir k l k' l' -> tables (k_mem k') pgdir 1024 ++ l' ≡ₚ tables (k_mem k) pgdir 1024 ++ l.
Proof.
  intros (Hk' & Hok' & Hsuf & Hdp & _ & _ & Hn). apply submseteq_length_Permutation.
  - apply NoDup_submseteq; [apply (NoDup_tables _ _ _ Hok'), Hk'|].
    intros t [Ht|Ht]%elem_of_app; apply elem_of_app; [|right; destruct Hsuf as [x ->]; apply elem_of_app; now right].
    apply elem_of_tables in Ht as (i & Hi & Hp & ->). destruct (po_tab _ _ _ _ Hok' i Hi Hp) as (Hpg & Htl & Htp).
    set (t := pgtab_of (pde_at (k_mem k') pgdir i)) in *.
    destruct (decide (t ∈ l)) as [|Hl]; [now right|]. destruct (decide (t ∈ tables (k_mem k) pgdir 1024)) as [|Ht]; [now left|].
    exfalso. destruct (Hdp t) as (_ & _ & _ & Hq); [|now apply (Hq i)].
    split; [now apply (page_aligned kend)|]. split; [done|]. split; [done|]. intros j Hj Hpj E. apply Ht, elem_of_tables. eauto.
  - rewrite !length_app, !length_tables. lia.
Qed.

Lemma kvm_part_pages pgdir k0 l0 k l :
  fresh pgdir k0 l0 -> kvm_part pgdir k0 l0 k l -> tables (k_mem k) pgdir 1024 ++ l ≡ₚ l0.
Proof.
  intros Hf Hp. rewrite (grows_pool _ _ _ _ _ (kp_grows _ _ _ _ _ Hp)).
  replace (tables (k_mem k0) pgdir 1024) with (@nil Z); [done|]. symmetry. apply length_zero_iff_nil.
  now rewrite length_tables, (fresh_ntab _ _ _ Hf).
Qed.

(** [k'] has the free pages [l'] and, outside the pages that are free in [k],
    the bytes of [k]. *)
Definition frame_pages (k : kmem) (l : list Z) (k' : kmem) (l' : list Z) : Prop :=
  kmem_ok k' l' /\ k_use_lock k' = k_use_lock k /\
  forall q b, q mod PGSIZE = 0 -> q ∉ l -> q <= b < q + PGSIZE -> ld (k_mem k') b = ld (k_mem k) b.

Lemma upages_user m pgdir :
  (forall va, 0 <= va < KERNBASE -> present (pte_val m pgdir va) = false) -> upages m pgdir 0 (pages_to 0 KERNBASE) = [].
Proof.
  intros H. apply upages_none. intros i Hi. apply H.
  unfold pages_to, KERNBASE, PGSIZE in *. Z.to_euclidean_division_equations; lia.
Qed.

(** Giving up: everything taken goes back to the free list. *)
Lemma wp_kvm_undo pgdir k0 l0 k l c (Q : unit -> ctx -> kmem -> Prop) :
  fresh pgdir k0 l0 -> kvm_part pgdir k0 l0 k l -> LKmem ∉ held c ->
  (forall k' l', l' ≡ₚ pgdir :: l0 -> frame_pages k0 (pgdir :: l0) k' l' -> Q tt c k') ->
  wp (freevm kend pgdir) Q c k.
Proof.
  intros Hf Hp Hlk HQ. destruct (kvm_part_uvm _ _ _ _ _ Hp) as [Hk Hok]. pose proof (kvm_part_pages _ _ _ _ _ Hf Hp) as Hperm.
  apply (wp_freevm _ l); auto. intros k' Hk' Hu Hs.
  assert (E : space_pages (k_mem k) pgdir = pgdir :: reverse (tables (k_mem k) pgdir 1024)).
  { unfold space_pages. rewrite upages_user, reverse_nil, app_nil_r; [done|].
    intros va Hva. now rewrite (kp_user _ _ _ _ _ Hp). }
  rewrite E in *. assert (E2 : (pgdir :: reverse (tables (k_mem k) pgdir 1024)) ++ l ≡ₚ pgdir :: l0).
  { cbn [app]. now rewrite reverse_Permutation, Hperm. }
  apply (HQ _ _ E2). destruct (kp_grows _ _ _ _ _ Hp) as (_ & _ & _ & _ & Hds & Hul & _).
  split; [done|]. split; [congruence|]. intros q b Hq Hn Hb. rewrite not_elem_of_cons in Hn. destruct Hn as [Hn1 Hn2].
  assert (Hnt : (q ∉ tables (k_mem k) pgdir 1024) /\ (q ∉ l)) by (rewrite <- Hperm, not_elem_of_app in Hn2; exact Hn2).
  rewrite (Hs q); [|done| |apply Hnt|done].
  - apply (Hds q); [|done]. now apply fresh_data.
  - rewrite not_elem_of_cons, elem_of_reverse. split; [done|apply Hnt].
Qed.

(** One entry of [kmap]. *)
Lemma wp_kvm_entry n size pgdir va pa perm k0 l0 k l c f :
  fresh pgdir k0 l0 -> kvm_part pgdir k0 l0 k l -> (forall v, is_u32 v -> pte_val (k_mem k) pgdir v = f v) ->
  LKmem ∉ held c -> size = PGSIZE * Z.of_nat n -> 0 < size ->
  va mod PGSIZE = 0 -> pa mod PGSIZE = 0 -> 0 <= pa -> pa + size <= 4294967296 -> 0 <= perm < PGSIZE ->
  (forall v, within va size v = true -> kernel_addr v /\ present (f v) = false) ->
  wp (let* r := mappages pgdir va size pa perm in
      if r <? 0 then freevm kend pgdir ;;; ret (Some 0) else ret None)
    (fun o c' k' => c' = c /\
       match o with
       | None => exists l', kvm_part pgdir k0 l0 k' l' /\
           forall v, is_u32 v -> pte_val (k_mem k') pgdir v = mapped va n pa perm f v
       | Some r => r = 0 /\ (length l0 < 64)%nat /\ exists l', l' ≡ₚ pgdir :: l0 /\ frame_pages k0 (pgdir :: l0) k' l'
       end) c k.
Proof.
  intros Hf Hp Hv Hlk -> Hs Hva Hpa Hp0 Hp1 Hperm Hker. destruct n as [|n]; [lia|]. apply wp_bind. eapply wp_mono.
  { now apply (wp_kvm_map n pgdir va pa perm k0 l0 k l c f). }
  intros r c' k' (-> & l' & Hp' & [[-> Hpte]|(-> & -> & i & Hi & Hab)]).
  - apply wp_ret. split; [done|]. now exists l'.
  - apply wp_bind, (wp_kvm_undo _ k0 l0 _ []); auto. intros k2 l2 H1 H2. apply wp_ret. split; [done|]. split; [done|].
    split; [|now exists l2]. pose proof (ntab_lt _ _ kvm_index i (kp_tab _ _ _ _ _ Hp') Hi Hab) as Hlt.
    destruct (kp_grows _ _ _ _ _ Hp') as (_ & _ & _ & _ & _ & _ & Hn). rewrite (fresh_ntab _ _ _ Hf) in Hn. cbn [length] in Hn.
    change (length kvm_index) with 64%nat in Hlt. lia.
Qed.

(** Where the linker may put [data]: on a page boundary, after the kernel's
    text and inside physical memory. *)
Definition kdata_ok : Prop := kdata mod PGSIZE = 0 /\ KERNLINK < kdata < KERNBASE + PHYSTOP.

(** The entry every address space has for the kernel address [va]: physical
    memory from KERNBASE, read-only between KERNLINK and [data], and the devices
    at the top, mapped to themselves; none of them for the user. *)
Definition kvm_pte (va : Z) : Z :=
  let page := va - va mod PGSIZE in
  if within KERNBASE PHYSTOP va then
    let perm := if within KERNLINK (kdata - KERNLINK) va then 0 else PTE_W in
    Z.lor (Z.lor (page - KERNBASE) perm) PTE_P
  else if DEVSPACE <=? va then Z.lor (Z.lor page PTE_W) PTE_P else 0.

Definition npg (size : Z) : nat := Z.to_nat (size / PGSIZE).

(** The four entries of [kmap], one after the other. *)
Definition kvm_maps (i : nat) : Z -> Z :=
  let f0 := fun _ => 0 in
  let f1 := mapped KERNBASE (npg EXTMEM) 0 PTE_W f0 in
  let f2 := mapped KERNLINK (npg (kdata - KERNLINK)) EXTMEM 0 f1 in
  let f3 := mapped kdata (npg (KERNBASE + PHYSTOP - kdata)) (kdata - KERNBASE) PTE_W f2 in
  let f4 := mapped DEVSPACE (npg (4294967296 - DEVSPACE)) DEVSPACE PTE_W f3 in
  match i with 0 => f0 | 1 => f1 | 2 => f2 | 3 => f3 | _ => f4 end%nat.

Lemma mapped_eq a n pa perm f va :
  mapped a n pa perm f va =
  if within a (PGSIZE * Z.of_nat n) va then Z.lor (Z.lor (pa + PGSIZE * ((va - a) / PGSIZE)) perm) PTE_P else f va.
Proof. done. Qed.

Lemma npg_size size : 0 <= size -> size mod PGSIZE = 0 -> PGSIZE * Z.of_nat (npg size) = size.
Proof. intros H Hm. unfold npg, PGSIZE in *. Z.to_euclidean_division_equations; lia. Qed.

Lemma page_off a va : a mod PGSIZE = 0 -> PGSIZE * ((va - a) / PGSIZE) = va - va mod PGSIZE - a.
Proof. intros H. unfold PGSIZE in *. Z.to_euclidean_division_equations; lia. Qed.

Lemma kvm_maps_pte va : kdata_ok -> is_u32 va -> kvm_maps 4 va = kvm_pte va.
Proof.
  intros (Hal & Hr) Hva. unfold kvm_maps. rewrite !mapped_eq.
  rewrite !npg_size by (unfold KERNLINK, KERNBASE, EXTMEM, PHYSTOP, DEVSPACE, PGSIZE in *; Z.to_euclidean_division_equations; lia).
  rewrite !page_off by (done || reflexivity). unfold kvm_pte, KERNLINK, KERNBASE, EXTMEM, PHYSTOP, DEVSPACE, is_u32 in *.
  set (page := va - va mod PGSIZE).
  repeat match goal with |- context [within ?a ?b va] => destruct (withinP a b va) end;
    destruct (Z.leb_spec 0xFE000000 va); try lia; try done; do 2 f_equal; lia.
Qed.

(** The pages a kernel page table takes: the directory, 56 tables for physical
    memory and 8 for the devices. *)
Definition kvm_pages : nat := 65.

Definition setupkvm_post (k : kmem) (l : list Z) (c : ctx) (r : Z) (c' : ctx) (k' : kmem) : Prop :=
  c' = c /\
  if (kvm_pages <=? length l)%nat then
    exists l', frame_pages k l k' l' /\ uvm_ok (k_mem k') r l' /\
      r :: tables (k_mem k') r 1024 ++ l' ≡ₚ l /\ length l = (kvm_pages + length l')%nat /\
      forall va, is_u32 va -> pte_val (k_mem k') r va = kvm_pte va
  else r = 0 /\ exists l', l' ≡ₚ l /\ frame_pages k l k' l'.

Lemma kvm_done pgdir k0 l0 k l :
  fresh pgdir k0 l0 -> kvm_part pgdir k0 l0 k l -> kdata_ok ->
  (forall v, is_u32 v -> pte_val (k_mem k) pgdir v = kvm_maps 4 v) -> length l0 = (64 + length l)%nat.
Proof.
  intros Hf Hp Hkd Hv. destruct (kp_grows _ _ _ _ _ Hp) as (_ & _ & _ & _ & _ & _ & Hn). rewrite (fresh_ntab _ _ _ Hf) in Hn.
  pose proof (ntab_le _ _ kvm_index (kp_tab _ _ _ _ _ Hp)) as H1.
  assert (H2 : (length kvm_index <= ntab (k_mem k) pgdir)%nat).
  { apply ntab_ge; [apply NoDup_kvm_index|]. intros i Hi. apply elem_of_kvm_index in Hi. split; [lia|].
    assert (Hu : is_u32 (4194304 * i)) by (unfold is_u32; lia). specialize (Hv _ Hu). rewrite kvm_maps_pte in Hv by done.
    assert (PDX (4194304 * i) = i) by (rewrite PDX_eq; Z.to_euclidean_division_equations; lia).
    unfold pte_val in Hv. rewrite H in Hv. destruct (present (pde_at (k_mem k) pgdir i)); [done|]. exfalso.
    revert Hv. unfold kvm_pte. clear -Hi. destruct (withinP KERNBASE PHYSTOP (4194304 * i)), (Z.leb_spec DEVSPACE (4194304 * i));
      unfold KERNBASE, PHYSTOP, DEVSPACE in *; try lia; intros E; symmetry in E; apply Z.lor_eq_0_iff in E as [_ E]; done. }
  change (length kvm_index) with 64%nat in *. lia.
Qed.

(** Nothing is mapped yet where the next entry begins. *)
Definition kvm_next (i : nat) : Z :=
  match i with 0 => KERNBASE | 1 => KERNLINK | 2 => kdata | _ => DEVSPACE end%nat.

Lemma kvm_maps_next i v : kdata_ok -> (i < 4)%nat -> kvm_next i <= v -> kvm_maps i v = 0.
Proof.
  intros (Hal & Hr) Hi Hv. unfold KERNLINK, KERNBASE, EXTMEM, PHYSTOP in Hr.
  destruct i as [|[|[|[|i]]]]; [done| | | |lia]; unfold kvm_maps, kvm_next in *; rewrite !mapped_eq;
    rewrite !npg_size by (unfold KERNLINK, KERNBASE, EXTMEM, PHYSTOP, PGSIZE in *; Z.to_euclidean_division_equations; lia);
    repeat match goal with |- context [within ?a ?b v] => destruct (withinP a b v) end; try done; exfalso;
    unfold KERNLINK, KERNBASE, EXTMEM, PHYSTOP, DEVSPACE in *; lia.
Qed.

Lemma kvm_entry_free i va size v :
  kdata_ok -> (i < 4)%nat -> va = kvm_next i -> (va + size <= KERNBASE + PHYSTOP \/ va = DEVSPACE /\ va + size <= 4294967296) ->
  within va size v = true -> kernel_addr v /\ present (kvm_maps i v) = false.
Proof.
  intros Hkd Hi -> Hs Hv. revert Hv. destruct (withinP (kvm_next i) size v) as [Hv|]; [|done]. intros _.
  rewrite kvm_maps_next by (auto; lia). split; [|done]. pose proof Hkd as [_ Hr].
  assert (KERNBASE <= kvm_next i) by (destruct i as [|[|[|i]]]; cbn [kvm_next]; unfold KERNLINK, KERNBASE, EXTMEM, DEVSPACE in *; lia).
  unfold kernel_addr. lia.
Qed.

Lemma kvm_sizes :
  kdata_ok ->
  u32 (EXTMEM - 0) = EXTMEM /\ u32 (kdata - KERNBASE - EXTMEM) = kdata - KERNLINK /\
  u32 (PHYSTOP - (kdata - KERNBASE)) = KERNBASE + PHYSTOP - kdata /\ u32 (0 - DEVSPACE) = 4294967296 - DEVSPACE.
Proof.
  intros (Hal & Hr). unfold KERNLINK, KERNBASE, EXTMEM, PHYSTOP in Hr.
  split; [done|]. split; [|split; [|done]]; rewrite u32_small; unfold is_u32, KERNLINK, KERNBASE, EXTMEM, PHYSTOP in *; lia.
Qed.

(** The loop over [kmap] from a fresh directory. *)
Definition kvm_loop_post (pgdir : Z) (k0 : kmem) (l0 : list Z) (c : ctx) (r : Z) (c' : ctx) (k' : kmem) : Prop :=
  c' = c /\
  (r = 0 /\ (length l0 < 64)%nat /\ (exists l', l' ≡ₚ pgdir :: l0 /\ frame_pages k0 (pgdir :: l0) k' l') \/
   r = pgdir /\ exists l', kvm_part pgdir k0 l0 k' l' /\ forall v, is_u32 v -> pte_val (k_mem k') pgdir v = kvm_maps 4 v).

Lemma wp_kvm_step i n pgdir va pa perm size k0 l0 c k l (rest : M kmem Z) :
  fresh pgdir k0 l0 -> LKmem ∉ held c -> kdata_ok ->
  kvm_part pgdir k0 l0 k l -> (forall v, is_u32 v -> pte_val (k_mem k) pgdir v = kvm_maps i v) ->
  (i < 4)%nat -> va = kvm_next i -> (va + size <= KERNBASE + PHYSTOP \/ va = DEVSPACE /\ va + size <= 4294967296) ->
  size = PGSIZE * Z.of_nat n -> 0 < size ->
  va mod PGSIZE = 0 -> pa mod PGSIZE = 0 -> 0 <= pa -> pa + size <= 4294967296 -> 0 <= perm < PGSIZE ->
  mapped va n pa perm (kvm_maps i) = kvm_maps (S i) ->
  (forall k' l', kvm_part pgdir k0 l0 k' l' -> (forall v, is_u32 v -> pte_val (k_mem k') pgdir v = kvm_maps (S i) v) ->
     wp rest (kvm_loop_post pgdir k0 l0 c) c k') ->
  wp (let* o := (let* r := mappages pgdir va size pa perm in
        if r <? 0 then freevm kend pgdir ;;; ret (Some 0) else ret None) in
      match o with Some a => ret a | None => rest end) (kvm_loop_post pgdir k0 l0 c) c k.
Proof.
  intros Hf Hlk Hkd Hp Hv Hi Eva Hs Es Hs0 Hva Hpa Hp0 Hp1 Hperm Em Hrest. apply wp_bind. eapply wp_mono.
  { apply (wp_kvm_entry n size pgdir va pa perm k0 l0 k l c (kvm_maps i)); auto. intros v. now apply kvm_entry_free. }
  intros [r|] c' k' (-> & Ho).
  - apply wp_ret. split; [done|]. left. exact Ho.
  - destruct Ho as (l' & Hp' & Hv'). apply (Hrest k' l'); [done|]. now rewrite <- Em.
Qed.

(** Arithmetic on the kernel's memory layout. *)
Ltac layout :=
  unfold KERNLINK, KERNBASE, EXTMEM, PHYSTOP, DEVSPACE, PTE_W, PGSIZE in *; Z.to_euclidean_division_equations; lia.
Ltac kvm_side := solve [assumption | reflexivity | symmetry; apply npg_size; layout | layout].

Lemma wp_kvm_loop pgdir k0 l0 c :
  fresh pgdir k0 l0 -> LKmem ∉ held c -> kdata_ok ->
  wp (forb (kmap kdata) (fun k =>
        let* r := mappages pgdir (km_virt k) (u32 (km_end k - km_start k)) (km_start k) (km_perm k) in
        if r <? 0 then freevm kend pgdir ;;; ret (Some 0) else ret None) (ret pgdir))
    (kvm_loop_post pgdir k0 l0 c) c k0.
Proof.
  intros Hf Hlk Hkd. pose proof Hkd as (Hal & Hr). destruct (kvm_sizes Hkd) as (S1 & S2 & S3 & S4).
  unfold KERNLINK, KERNBASE, EXTMEM, PHYSTOP in Hr. unfold kmap. cbn [forb km_virt km_start km_end km_perm].
  assert (EL : V2P kdata = kdata - KERNBASE) by (apply V2P_small; unfold KERNBASE, PHYSTOP; lia).
  assert (Ek : V2P KERNLINK = EXTMEM) by reflexivity. rewrite EL, Ek.
  rewrite S1, S2, S3, S4.
  apply (wp_kvm_step 0 (npg EXTMEM) _ _ _ _ _ _ _ _ _ l0); try kvm_side; auto using fresh_part.
  { intros v _. now apply (fresh_pte _ _ l0). }
  intros k1 l1 P1 V1. apply (wp_kvm_step 1 (npg (kdata - KERNLINK)) _ _ _ _ _ _ _ _ _ l1); try kvm_side; auto.
  intros k2 l2 P2 V2. apply (wp_kvm_step 2 (npg (KERNBASE + PHYSTOP - kdata)) _ _ _ _ _ _ _ _ _ l2); try kvm_side; auto.
  intros k3 l3 P3 V3. apply (wp_kvm_step 3 (npg (4294967296 - DEVSPACE)) _ _ _ _ _ _ _ _ _ l3); try kvm_side; auto.
  intros k4 l4 P4 V4. apply wp_ret. split; [done|]. right. split; [done|]. now exists l4.
Qed.

Lemma frame_pages_fresh k p l0 k0 k' l' :
  page_ok kend p -> k_mem k0 = memset (k_mem k) p 0 PGSIZE -> k_use_lock k0 = k_use_lock k ->
  frame_pages k0 (p :: l0) k' l' -> frame_pages k (p :: l0) k' l'.
Proof.
  intros Hp Em Hu (Hk & Hul & Hs). split; [done|]. split; [congruence|]. intros q b Hq Hn Hb.
  rewrite (Hs q) by done. rewrite Em, ld_memset by (unfold PGSIZE; lia). destruct (withinP p PGSIZE b); [|done].
  rewrite not_elem_of_cons in Hn. destruct Hn as [Hn _]. destruct (pages_apart q p Hq (page_aligned kend _ Hp) Hn); lia.
Qed.

(** [setupkvm] from a fresh directory in [k0], with [l0] free. *)
Lemma kvm_loop_setup pgdir k0 l0 c r c' k' :
  fresh pgdir k0 l0 -> kdata_ok -> kvm_loop_post pgdir k0 l0 c r c' k' -> setupkvm_post k0 (pgdir :: l0) c r c' k'.
Proof.
  intros Hf Hkd (-> & Hr). split; [done|]. cbn [length]. unfold kvm_pages.
  destruct Hr as [(-> & Hlen & l' & Hperm & Hfr)|(-> & l' & Hp & Hv)].
  - destruct (Nat.leb_spec 65 (S (length l0))); [lia|]. split; [done|]. now exists l'.
  - pose proof (kvm_done _ _ _ _ _ Hf Hp Hkd Hv) as Hlen. destruct (Nat.leb_spec 65 (S (length l0))); [|lia].
    destruct (kvm_part_uvm _ _ _ _ _ Hp) as [Hk Hok]. pose proof (kvm_part_pages _ _ _ _ _ Hf Hp) as Hperm.
    destruct (kp_grows _ _ _ _ _ Hp) as (_ & _ & _ & _ & Hds & Hul & _).
    exists l'. split; [|split; [done|split; [now rewrite Hperm|split; [lia|]]]].
    + split; [done|]. split; [done|]. intros q b Hq Hn Hb. rewrite not_elem_of_cons in Hn. destruct Hn as [Hn1 Hn2].
      apply (Hds q); [|done]. now apply fresh_data.
    + intros va Hva. rewrite Hv, kvm_maps_pte by done. done.
Qed.

Lemma wp_setupkvm k l c :
  kmem_ok k l -> LKmem ∉ held c -> kdata_ok -> wp (setupkvm kend kdata) (setupkvm_post k l c) c k.
Proof.
  intros Hk Hlk Hkd. unfold setupkvm. apply wp_bind. eapply wp_kalloc; [done..|]. destruct l as [|p l].
  { apply wp_ret. split; [done|]. split; [done|]. exists []. split; [done|]. split; done. }
  intros k1 Hk1 Em Hu. pose proof Hk as (_ & Hpg & Hnd). apply Forall_cons in Hpg as [Hp Hpg]. apply NoDup_cons in Hnd as [Hpl Hnd].
  destruct (page_ok_u32 _ p Hp) as (_ & Hnz & _). destruct (Z.eqb_spec p 0); [done|].
  unfold fill. apply wp_bind, wp_modify. change (DEVSPACE <? P2V PHYSTOP) with false. cbn iota.
  set (k0 := set_mem (fun m => memset m p 0 PGSIZE) k1).
  assert (Hf : fresh p k0 l).
  { destruct (fresh_dir (k_mem k1) p l Hp Hpl) as [Hd Hz]. split; [|exact Hd|exact Hz].
    destruct Hk1 as (Hch & Hpg1 & Hnd1). split; [|done]. eapply chain_ext; [exact Hch|]. intros x Hx. rewrite Forall_forall in Hpg.
    apply ld32_memset_other; [unfold PGSIZE; lia|]. assert (Hxp : x <> p) by congruence.
    destruct (pages_apart x p (page_aligned kend _ (Hpg x Hx)) (page_aligned kend _ Hp) Hxp); unfold PGSIZE in *; lia. }
  eapply wp_mono; [apply (wp_kvm_loop p k0 l c Hf Hlk Hkd)|]. intros r c' k' H. apply (kvm_loop_setup _ _ _ _ _ _ _ Hf Hkd) in H.
  assert (E0 : k_mem k0 = memset (k_mem k) p 0 PGSIZE) by (unfold k0; simpl; now rewrite Em).
  destruct H as [-> H]. split; [done|]. destruct (kvm_pages <=? length (p :: l))%nat.
  - destruct H as (l' & Hfr & H). exists l'. split; [|done]. now apply (frame_pages_fresh k p l k0).
  - destruct H as (-> & l' & H1 & Hfr). split; [done|]. exists l'. split; [done|]. now apply (frame_pages_fresh k p l k0).
Qed.

(** ** allocuvm *)

(** A mapping is added to the list of user pages. *)
Lemma upages_insert m m' pgdir a n j q :
  0 <= j < Z.of_nat n ->
  (forall i, 0 <= i < Z.of_nat n -> i <> j -> pte_val m' pgdir (a + PGSIZE * i) = pte_val m pgdir (a + PGSIZE * i)) ->
  present (pte_val m pgdir (a + PGSIZE * j)) = false -> present (pte_val m' pgdir (a + PGSIZE * j)) = true ->
  upage m' pgdir (a + PGSIZE * j) = q ->
  upages m' pgdir a n ≡ₚ q :: upages m pgdir a n.
Proof.
  intros Hj Hs H0 H1 <-. replace n with (Z.to_nat j + (1 + (n - Z.to_nat j - 1)))%nat by lia.
  rewrite !upages_app, Z2Nat.id by lia. cbn [upages]. rewrite H0, H1, !app_nil_r. cbn [app].
  rewrite (upages_ext m m' pgdir a (Z.to_nat j)) by (intros i Hi; apply Hs; lia).
  rewrite (upages_ext m m' pgdir (a + PGSIZE * j + PGSIZE * Z.of_nat 1)).
  - now rewrite Permutation_middle.
  - intros i Hi. replace (a + PGSIZE * j + PGSIZE * Z.of_nat 1 + PGSIZE * i) with (a + PGSIZE * (j + 1 + i)) by lia.
    apply Hs; lia.
Qed.

Lemma pte_entry p perm :
  page_ok kend p -> 0 <= perm < PGSIZE ->
  let w := Z.lor (Z.lor (V2P p) perm) PTE_P in
  present w = true /\ P2V (PTE_ADDR w) = p /\ PTE_FLAGS w = Z.lor perm PTE_P /\ is_u32 w.
Proof.
  intros (Hal & _ & Hkb & Hps) Hperm w.
  assert (Hr : KERNBASE <= p < KERNBASE + PHYSTOP) by (unfold PGSIZE in *; lia).
  assert (Hm : V2P p mod PGSIZE = 0) by (rewrite V2P_small by done; unfold KERNBASE, PGSIZE in *; Z.to_euclidean_division_equations; lia).
  assert (Hf : 0 <= Z.lor perm PTE_P < PGSIZE).
  { split; [apply Z.lor_nonneg; unfold PTE_P; lia|]. change PGSIZE with (2 ^ 12).
    destruct (Z.eq_dec perm 0) as [->|Hz]; [done|]. apply Z.log2_lt_pow2.
    - destruct (Z.eq_dec (Z.lor perm PTE_P) 0) as [E|E]; [apply Z.lor_eq_0_iff in E; lia|].
      pose proof (Z.lor_nonneg perm PTE_P). unfold PTE_P in *. lia.
    - rewrite Z.log2_lor by (unfold PTE_P; lia). apply Z.max_lub_lt; [|done]. apply Z.log2_lt_pow2; unfold PGSIZE in *; lia. }
  assert (E : w = Z.lor (V2P p) (Z.lor perm PTE_P)) by (unfold w; now rewrite Z.lor_assoc). rewrite E.
  split; [|split; [|split]].
  - unfold present. rewrite PTE_lor_land by (done || (unfold PTE_P, PGSIZE; lia)).
    destruct (Z.eqb_spec (Z.land (Z.lor perm PTE_P) PTE_P) 0) as [E0|]; [|done]. exfalso.
    rewrite Z.land_lor_distr_l, Z.land_diag in E0. apply Z.lor_eq_0_iff in E0 as [_ E0]. discriminate.
  - rewrite PTE_ADDR_lor by (done || apply u32_range). now apply P2V_V2P.
  - now apply PTE_FLAGS_lor.
  - rewrite <- E. apply pte_word; [apply u32_range|done|done].
Qed.

(** The page [p], allocated and not yet used, is mapped at [a]. *)
Record new_page (m : mem) (pgdir : Z) (l : list Z) (p : Z) : Prop := {
  np_page : page_ok kend p;
  np_data : data_page m pgdir l p;
  np_unused va : 0 <= va < KERNBASE -> present (pte_val m pgdir va) = true -> upage m pgdir va <> p
}.

Lemma perm_space (d p : Z) (T T' U U' l l' : list Z) :
  T' ++ l' ≡ₚ T ++ l -> U' ≡ₚ p :: U ->
  (d :: reverse T' ++ reverse U') ++ l' ≡ₚ p :: (d :: reverse T ++ reverse U) ++ l.
Proof.
  intros HT HU. cbn [app]. rewrite !reverse_Permutation, <- !app_assoc, HU.
  rewrite (Permutation_app_swap_app T'), HT, (Permutation_app_swap_app T U). apply perm_swap.
Qed.

Lemma map_page pgdir a p perm k l k' l' :
  uvm_ok (k_mem k) pgdir l -> grows kend pgdir k l k' l' -> new_page (k_mem k) pgdir l p ->
  (forall va, is_u32 va -> pte_val (k_mem k') pgdir va = mapped a 1 (V2P p) perm (pte_val (k_mem k) pgdir) va) ->
  0 <= a < KERNBASE -> a mod PGSIZE = 0 -> 0 <= perm < PGSIZE -> present (pte_val (k_mem k) pgdir a) = false ->
  uvm_ok (k_mem k') pgdir l' /\
  (forall va, a <= va < a + PGSIZE -> upage (k_mem k') pgdir va = p) /\
  space_pages (k_mem k') pgdir ++ l' ≡ₚ p :: space_pages (k_mem k) pgdir ++ l.
Proof.
  intros Hok G [Hp Hpd Hpu] Hpte Ha Hal Hperm Hab. destruct (pte_entry p perm Hp Hperm) as (Wp & Wa & _ & _).
  set (w := Z.lor (Z.lor (V2P p) perm) PTE_P) in *.
  assert (Hv : forall va, is_u32 va -> pte_val (k_mem k') pgdir va = if within a PGSIZE va then w else pte_val (k_mem k) pgdir va).
  { intros va Hva. rewrite Hpte by done. unfold mapped. replace (PGSIZE * Z.of_nat 1) with PGSIZE by done.
    destruct (withinP a PGSIZE va); [|done]. rewrite Z.div_small by lia. now rewrite Z.mul_0_r, Z.add_0_r. }
  assert (Hu : forall va, 0 <= va < KERNBASE -> is_u32 va) by (unfold is_u32, KERNBASE; lia).
  assert (Hup : forall va, 0 <= va < KERNBASE -> a <= va < a + PGSIZE -> upage (k_mem k') pgdir va = p).
  { intros va Hr Hva. unfold upage. rewrite Hv by auto. destruct (withinP a PGSIZE va); [done|lia]. }
  assert (Hold : forall va, 0 <= va < KERNBASE -> ~ a <= va < a + PGSIZE -> pte_val (k_mem k') pgdir va = pte_val (k_mem k) pgdir va).
  { intros va Hr Hva. rewrite Hv by auto. destruct (withinP a PGSIZE va); [lia|done]. }
  assert (Hain : forall va, a <= va < a + PGSIZE -> 0 <= va < KERNBASE) by (unfold KERNBASE, PGSIZE in *; Z.to_euclidean_division_equations; lia).
  pose proof G as (Hk' & Hok' & Hsuf & Hdp & _). split; [split; [done| |]|split; [auto|]].
  - intros va Hr Hpr. destruct (decide (a <= va < a + PGSIZE)) as [Hin|Hout]; [rewrite Hup by done; auto|].
    unfold upage. rewrite Hold in * by done. fold (upage (k_mem k) pgdir va).
    destruct (um_page _ _ _ _ Hok va Hr Hpr) as [Hpg Hdat]. auto.
  - assert (Hsame : forall va, a <= va < a + PGSIZE -> va / PGSIZE = a / PGSIZE)
      by (intros va Hin; unfold PGSIZE in *; Z.to_euclidean_division_equations; lia).
    intros va va' Hr Hr' Hpr Hpr' E.
    destruct (decide (a <= va < a + PGSIZE)) as [Hin|Hout], (decide (a <= va' < a + PGSIZE)) as [Hin'|Hout'].
    + now rewrite (Hsame va), (Hsame va').
    + rewrite Hup in E by done. unfold upage in E. rewrite Hold in * by done. exfalso. now apply (Hpu va').
    + rewrite (Hup va') in E by done. unfold upage in E. rewrite Hold in * by done. exfalso. now apply (Hpu va).
    + unfold upage in E. rewrite !Hold in * by done. now apply (um_inj _ _ _ _ Hok).
  - apply perm_space; [now apply grows_pool|]. apply (upages_insert _ _ _ _ _ (a / PGSIZE)).
    + unfold pages_to, KERNBASE, PGSIZE in *. Z.to_euclidean_division_equations; lia.
    + intros i Hi Hne. apply Hold; unfold pages_to, KERNBASE, PGSIZE in *; Z.to_euclidean_division_equations; lia.
    + now replace (0 + PGSIZE * (a / PGSIZE)) with a by (unfold PGSIZE in *; Z.to_euclidean_division_equations; lia).
    + replace (0 + PGSIZE * (a / PGSIZE)) with a by (unfold PGSIZE in *; Z.to_euclidean_division_equations; lia).
      rewrite Hv by auto. destruct (withinP a PGSIZE a); [done|unfold PGSIZE in *; lia].
    + replace (0 + PGSIZE * (a / PGSIZE)) with a by (unfold PGSIZE in *; Z.to_euclidean_division_equations; lia).
      apply Hup; unfold PGSIZE in *; lia.
Qed.

(** From [k] to [k'] the address space may have changed; pages in use for
    anything but its page table have not. *)
Record extends (pgdir : Z) (k : kmem) (l : list Z) (k' : kmem) (l' : list Z) : Prop := {
  ex_kmem : kmem_ok k' l';
  ex_uvm : uvm_ok (k_mem k') pgdir l';
  ex_lock : k_use_lock k' = k_use_lock k;
  ex_free x : x ∈ l' -> x ∈ l;
  ex_data q : data_page (k_mem k) pgdir l q -> data_page (k_mem k') pgdir l' q;
  ex_same : data_same (k_mem k) (k_mem k') pgdir l
}.

Lemma extends_refl pgdir k l : kmem_ok k l -> uvm_ok (k_mem k) pgdir l -> extends pgdir k l k l.
Proof. intros Hk Hok. split; auto. now intros q a. Qed.

Lemma extends_trans pgdir k l k1 l1 k2 l2 :
  extends pgdir k l k1 l1 -> extends pgdir k1 l1 k2 l2 -> extends pgdir k l k2 l2.
Proof.
  intros [K1 U1 L1 F1 D1 S1] [K2 U2 L2 F2 D2 S2]. split; auto; [congruence|].
  intros q a Hq Ha. rewrite (S2 q a) by auto. now apply (S1 q).
Qed.

(** A page is taken from the free list and filled. *)
Lemma take_page pgdir p l k k1 f :
  kmem_ok k (p :: l) -> uvm_ok (k_mem k) pgdir (p :: l) -> kmem_ok k1 l -> k_mem k1 = k_mem k -> k_use_lock k1 = k_use_lock k ->
  same_outside p (k_mem k) (f (k_mem k)) ->
  let k2 := set_mem f k1 in
  extends pgdir k (p :: l) k2 l /\ new_page (k_mem k2) pgdir l p /\
  (forall i, 0 <= i < 1024 -> pde_at (k_mem k2) pgdir i = pde_at (k_mem k) pgdir i) /\
  (forall va, pte_val (k_mem k2) pgdir va = pte_val (k_mem k) pgdir va).
Proof.
  intros (_ & Hpg & Hnd) Hok Hk1 Em Hul Hso k2. apply Forall_cons in Hpg as [Hp Hpg]. apply NoDup_cons in Hnd as [Hpl Hnd].
  assert (E2 : k_mem k2 = f (k_mem k)) by (unfold k2; simpl; now rewrite Em). rewrite E2.
  pose proof (um_dir _ _ _ _ Hok) as Hd. pose proof (page_aligned kend _ Hp) as Hpa.
  assert (Hpd : p <> pgdir) by (intros ->; apply (po_free _ _ _ _ Hd); now left).
  assert (Hpt : forall i, 0 <= i < 1024 -> present (pde_at (k_mem k) pgdir i) = true -> p <> pgtab_of (pde_at (k_mem k) pgdir i)).
  { intros i Hi Hpr E. destruct (po_tab _ _ _ _ Hd i Hi Hpr) as (_ & Hn & _). apply Hn. rewrite <- E. now left. }
  assert (Epde : forall i, 0 <= i < 1024 -> pde_at (f (k_mem k)) pgdir i = pde_at (k_mem k) pgdir i)
    by (intros; now apply (same_outside_pde p _ _ _ (p :: l))).
  assert (Epte : forall va, pte_val (f (k_mem k)) pgdir va = pte_val (k_mem k) pgdir va)
    by (intros; now apply (same_outside_pte p _ _ _ (p :: l))).
  assert (Huv : uvm_ok (f (k_mem k)) pgdir l).
  { apply (uvm_ok_ext (k_mem k) _ _ (p :: l)); [done..| |intros x Hx; left; now right].
    intros va Hva. rewrite Epte. intros Hpr. split; [done|]. destruct (um_page _ _ _ _ Hok va Hva Hpr) as [_ (_ & Hn & _)].
    intros Hx. apply Hn. now right. }
  split; [|split; [|split; [done|done]]].
  - split; [|now rewrite E2|done|intros x Hx; now right| |]; rewrite ?E2.
    + destruct Hk1 as (Hch & Hpg1 & Hnd1). split; [|done]. rewrite E2. eapply chain_ext; [exact Hch|].
      intros x Hx. rewrite Em. rewrite Forall_forall in Hpg. apply (same_outside_ld32 p); auto; [now apply (page_aligned kend), Hpg|congruence].
    + intros q (Hqa & Hql & Hqd & Hqt). rewrite not_elem_of_cons in Hql. split; [done|]. split; [tauto|]. split; [done|].
      intros i Hi. rewrite Epde by done. now apply Hqt.
    + intros q b (Hqa & Hql & _) Hb. rewrite not_elem_of_cons in Hql. apply Hso.
      destruct (pages_apart q p Hqa Hpa); [tauto|unfold PGSIZE in *; lia..].
  - split; [done| |].
    + split; [done|]. split; [done|]. split; [done|]. intros i Hi. rewrite Epde by done. now apply Hpt.
    + intros va Hva. unfold upage. rewrite Epte. intros Hpr E. destruct (um_page _ _ _ _ Hok va Hva Hpr) as [_ (_ & Hn & _)].
      apply Hn. unfold upage. rewrite E. now left.
Qed.

Lemma perm_space_same (d : Z) (T T' U U' l l' : list Z) :
  T' ++ l' ≡ₚ T ++ l -> U' = U ->
  (d :: reverse T' ++ reverse U') ++ l' ≡ₚ (d :: reverse T ++ reverse U) ++ l.
Proof.
  intros HT ->. cbn [app]. rewrite !reverse_Permutation, <- !app_assoc.
  now rewrite (Permutation_app_swap_app T'), HT, (Permutation_app_swap_app T U).
Qed.

Lemma upages_same m m' pgdir a n :
  (forall va, pte_val m' pgdir va = pte_val m pgdir va) -> upages m' pgdir a n = upages m pgdir a n.
Proof. intros H. apply upages_ext. auto. Qed.

(** A page with the bytes that [f] gives it is mapped at [a]. *)
Record page_added (pgdir a perm : Z) (f : mem -> mem) (k : kmem) (l : list Z) (p : Z) (k' : kmem) (l' : list Z) : Prop := {
  pa_ext : extends pgdir k l k' l';
  pa_pool : space_pages (k_mem k') pgdir ++ l' ≡ₚ space_pages (k_mem k) pgdir ++ l;
  pa_pte va : is_u32 va -> pte_val (k_mem k') pgdir va =
    if within a PGSIZE va then Z.lor (Z.lor (V2P p) perm) PTE_P else pte_val (k_mem k) pgdir va;
  pa_page : page_ok kend p;
  pa_data : data_page (k_mem k') pgdir l' p;
  pa_bytes b : p <= b < p + PGSIZE -> ld (k_mem k') b = ld (f (k_mem k)) b
}.

(** There was a page, the last one, but none for its table. *)
Record page_failed (pgdir : Z) (k : kmem) (l : list Z) (p : Z) (k' : kmem) : Prop := {
  pf_last : l = [p];
  pf_ext : extends pgdir k l k' [];
  pf_pool : p :: space_pages (k_mem k') pgdir ≡ₚ space_pages (k_mem k) pgdir ++ l;
  pf_pte va : is_u32 va -> pte_val (k_mem k') pgdir va = pte_val (k_mem k) pgdir va;
  pf_new : new_page (k_mem k') pgdir [] p
}.

Lemma grows_extends pgdir k l k' l' :
  grows kend pgdir k l k' l' -> uvm_ok (k_mem k') pgdir l' -> extends pgdir k l k' l'.
Proof. intros (Hk & Hok & [x ->] & Hd & Hb & Hu & _) H. split; auto. intros y Hy. apply elem_of_app. now right. Qed.

Lemma wp_map_new pgdir a perm f p l k k1 c (B C : M kmem Z) Q :
  kmem_ok k (p :: l) -> uvm_ok (k_mem k) pgdir (p :: l) -> LKmem ∉ held c ->
  kmem_ok k1 l -> k_mem k1 = k_mem k -> k_use_lock k1 = k_use_lock k -> same_outside p (k_mem k) (f (k_mem k)) ->
  0 <= a < KERNBASE -> a mod PGSIZE = 0 -> 0 <= perm < PGSIZE -> present (pte_val (k_mem k) pgdir a) = false ->
  (forall k', page_failed pgdir k (p :: l) p k' -> wp B Q c k') ->
  (forall k' l', page_added pgdir a perm f k (p :: l) p k' l' -> wp C Q c k') ->
  wp (let* r := mappages pgdir a PGSIZE (V2P p) perm in if r <? 0 then B else C) Q c (set_mem f k1).
Proof.
  intros Hk Hok Hlk Hk1 Em Hul Hso Ha Hal Hperm Hab HB HC.
  destruct (take_page pgdir p l k k1 f Hk Hok Hk1 Em Hul Hso) as (X & N & Epde & Epte). set (k2 := set_mem f k1) in *.
  pose proof X as [K2 U2 _ _ _ _]. pose proof N as [Np Nd Nu]. pose proof Np as (Hpal & Hpke & Hpkb & Hptop).
  assert (Hv2p : V2P p = p - KERNBASE) by (apply V2P_small; unfold PGSIZE in *; lia).
  assert (Hu : forall v, within a (PGSIZE * Z.of_nat 1) v = true -> pte_val (k_mem k2) pgdir v = pte_val (k_mem k) pgdir a).
  { intros v. replace (PGSIZE * Z.of_nat 1) with PGSIZE by done. destruct (withinP a PGSIZE v); [|done]. intros _.
    rewrite Epte. apply pte_val_page; auto; unfold is_u32, KERNBASE, PGSIZE in *; Z.to_euclidean_division_equations; lia. }
  apply wp_bind. replace PGSIZE with (PGSIZE * Z.of_nat 1) at 1 by done. eapply wp_mono.
  { apply (wp_mappages_pages kend 0 pgdir a (V2P p) perm l); auto; [apply U2|..];
      try (rewrite ?Hv2p; unfold KERNBASE, PHYSTOP, PGSIZE in *; Z.to_euclidean_division_equations; lia).
    intros v Hv. now rewrite Hu. }
  intros r c' k' (-> & l' & j & G & Hr & Htab & Hpte).
  assert (Hpool2 : p :: space_pages (k_mem k2) pgdir ++ l ≡ₚ space_pages (k_mem k) pgdir ++ p :: l).
  { rewrite <- Permutation_middle. apply perm_skip. unfold space_pages.
    now rewrite (tables_ext _ _ pgdir 1024 ltac:(lia) Epde), (upages_same _ _ pgdir 0 _ Epte). }
  destruct Hr as [[-> ->]|(-> & Hj & -> & Hnt)].
  - destruct (map_page pgdir a p perm k2 l k' l') as (U' & Hup & Hpool); auto; [now rewrite Epte|].
    pose proof (grows_extends _ _ _ _ _ G U') as X'. apply (HC k' l'). split; auto.
    + now apply (extends_trans _ _ _ k2 l).
    + etransitivity; [exact Hpool|]. apply Hpool2.
    + intros va Hva. rewrite Hpte by done. unfold mapped. replace (PGSIZE * Z.of_nat 1) with PGSIZE by done. rewrite Epte.
      destruct (withinP a PGSIZE va); [|done]. rewrite Z.div_small by lia. now rewrite Z.mul_0_r, Z.add_0_r.
    + now apply X'.
    + intros b Hb. rewrite (ex_same _ _ _ _ _ X' p b) by done. unfold k2. simpl. now rewrite Em.
  - assert (j = 0)%nat as -> by lia.
    assert (Ev : forall va, is_u32 va -> pte_val (k_mem k') pgdir va = pte_val (k_mem k2) pgdir va)
      by (intros va Hva; rewrite Hpte by done; apply mapped_0).
    assert (U' : uvm_ok (k_mem k') pgdir []).
    { pose proof G as (_ & Hok' & Hs & Hd & _). split; [done| |].
      - intros va Hva. unfold upage. rewrite Ev by (unfold is_u32, KERNBASE in *; lia). intros Hpr.
        destruct (um_page _ _ _ _ U2 va Hva Hpr) as [Hpg Hdat]. auto.
      - intros va va' Hva Hva'. unfold upage. rewrite !Ev by (unfold is_u32, KERNBASE in *; lia). now apply (um_inj _ _ _ _ U2). }
    pose proof (grows_extends _ _ _ _ _ G U') as X'. apply HB. split.
    + f_equal. apply length_zero_iff_nil. pose proof G as (_ & _ & _ & _ & _ & _ & Hn).
      enough (ntab (k_mem k') pgdir <= ntab (k_mem k2) pgdir)%nat by (cbn [length] in Hn; lia).
      apply ntab_mono. intros i Hi Hpi. destruct (Htab i Hi Hpi) as [|(v & Hv & ->)]; [done|]. exfalso. revert Hpi.
      enough (PDX v = PDX (a + PGSIZE * Z.of_nat 0)) as -> by congruence.
      revert Hv. destruct (withinP a (PGSIZE * Z.of_nat 1) v); [|done]. intros _. rewrite !PDX_eq.
      unfold KERNBASE, PGSIZE in *. Z.to_euclidean_division_equations; lia.
    + now apply (extends_trans _ _ _ k2 l).
    + etransitivity; [|apply Hpool2]. apply perm_skip. rewrite <- (app_nil_r (space_pages (k_mem k') pgdir)).
      apply perm_space_same; [now apply grows_pool|]. apply upages_ext. intros i Hi. apply Ev.
      unfold is_u32, pages_to, KERNBASE, PGSIZE in *. Z.to_euclidean_division_equations; lia.
    + intros va Hva. now rewrite Ev, Epte.
    + split; [done|now apply X'|]. intros va Hva. unfold upage. rewrite Ev by (unfold is_u32, KERNBASE in *; lia). now apply Nu.
Qed.

(** Deallocation moves pages from the address space to the free list. *)
Lemma dealloc_upages pgdir a n i j k l k' :
  dealloc_post pgdir a n k l (upages (k_mem k) pgdir a n) k' ->
  PGSIZE * Z.of_nat i = a -> a + PGSIZE * Z.of_nat (n + j) <= KERNBASE ->
  upages (k_mem k) pgdir 0 (i + (n + j)) ≡ₚ upages (k_mem k) pgdir a n ++ upages (k_mem k') pgdir 0 (i + (n + j)).
Proof.
  intros D Ea Hn.
  assert (Hout : forall v, 0 <= v < KERNBASE -> ~ a <= v < a + PGSIZE * Z.of_nat n -> pte_val (k_mem k') pgdir v = pte_val (k_mem k) pgdir v).
  { intros v Hv Ho. rewrite (dp_pte _ _ _ _ _ _ _ D) by (unfold is_u32, KERNBASE in *; lia). unfold unmapped.
    destruct (withinP a (PGSIZE * Z.of_nat n) v); [lia|done]. }
  rewrite !upages_app, Z.add_0_l, Ea. rewrite (upages_none (k_mem k') _ a n).
  - rewrite (upages_ext (k_mem k) (k_mem k') pgdir 0), (upages_ext (k_mem k) (k_mem k') pgdir (a + PGSIZE * Z.of_nat n)).
    + cbn [app]. apply Permutation_app_swap_app.
    + intros x Hx. apply Hout; unfold PGSIZE in *; lia.
    + intros x Hx. apply Hout; unfold PGSIZE in *; lia.
  - intros x Hx. rewrite (dp_pte _ _ _ _ _ _ _ D) by (unfold is_u32, KERNBASE, PGSIZE in *; lia). unfold unmapped.
    destruct (withinP a (PGSIZE * Z.of_nat n) (a + PGSIZE * x)); [|unfold PGSIZE in *; lia].
    destruct (present (pte_val (k_mem k) pgdir (a + PGSIZE * x))) eqn:E; [done|]. cbn [andb]. exact E.
Qed.

Lemma perm_dealloc (d : Z) (T U U' F l : list Z) :
  U ≡ₚ F ++ U' -> (d :: reverse T ++ reverse U') ++ reverse F ++ l ≡ₚ (d :: reverse T ++ reverse U) ++ l.
Proof.
  intros HU. rewrite !reverse_Permutation, HU. cbn [app]. apply perm_skip. rewrite <- !app_assoc. apply Permutation_app_head.
  apply Permutation_app_swap_app.
Qed.

Lemma dealloc_pool pgdir a n k l k' :
  dealloc_post pgdir a n k l (upages (k_mem k) pgdir a n) k' ->
  0 <= a -> a mod PGSIZE = 0 -> a + PGSIZE * Z.of_nat n <= KERNBASE ->
  space_pages (k_mem k') pgdir ++ reverse (upages (k_mem k) pgdir a n) ++ l ≡ₚ space_pages (k_mem k) pgdir ++ l.
Proof.
  intros D Ha Hal Hn. unfold space_pages.
  rewrite (tables_ext (k_mem k) (k_mem k') pgdir 1024 ltac:(lia) (dp_pde _ _ _ _ _ _ _ D)).
  apply perm_dealloc. assert (Ea : PGSIZE * (a / PGSIZE) = a) by (unfold PGSIZE in *; Z.to_euclidean_division_equations; lia).
  assert (H0 : 0 <= a / PGSIZE) by (unfold PGSIZE in *; Z.to_euclidean_division_equations; lia).
  rewrite (pages_to_add 0 KERNBASE (a / PGSIZE)), Ea, Z.add_0_l by (unfold PGSIZE in *; lia).
  rewrite (pages_to_add a KERNBASE (Z.of_nat n)), Nat2Z.id by (unfold PGSIZE in *; lia).
  apply (dealloc_upages _ _ _ _ _ _ l); [done|now rewrite Z2Nat.id|].
  unfold pages_to, KERNBASE, PGSIZE in *; Z.to_euclidean_division_equations; lia.
Qed.

Lemma space_pages_ext m m' pgdir :
  (forall i, 0 <= i < 1024 -> pde_at m' pgdir i = pde_at m pgdir i) -> (forall va, pte_val m' pgdir va = pte_val m pgdir va) ->
  space_pages m' pgdir = space_pages m pgdir.
Proof.
  intros Epde Epte. unfold space_pages. now rewrite (tables_ext _ _ pgdir 1024 ltac:(lia) Epde), (upages_same _ _ pgdir 0 _ Epte).
Qed.

#[local] Opaque space_pages.

(** The state inside the loop of [allocuvm], after [i] pages from [a]. *)
Record alloc_inv (pgdir a : Z) (i : nat) (k0 : kmem) (l0 : list Z) (k : kmem) (l : list Z) : Prop := {
  ai_ext : extends pgdir k0 l0 k l;
  ai_old va : is_u32 va -> within a (PGSIZE * Z.of_nat i) va = false -> pte_val (k_mem k) pgdir va = pte_val (k_mem k0) pgdir va;
  ai_new va : within a (PGSIZE * Z.of_nat i) va = true ->
    exists p, pte_val (k_mem k) pgdir va = Z.lor (Z.lor (V2P p) (Z.lor PTE_W PTE_U)) PTE_P /\
      page_ok kend p /\ p ∈ l0 /\ forall b, p <= b < p + PGSIZE -> ld (k_mem k) b = 0
}.

Lemma alloc_inv_0 pgdir a k l : kmem_ok k l -> uvm_ok (k_mem k) pgdir l -> alloc_inv pgdir a 0 k l k l.
Proof.
  intros Hk Hok. split; [now apply extends_refl|done|].
  intros va. destruct (withinP a (PGSIZE * Z.of_nat 0) va); [lia|done].
Qed.

Lemma wu_perm : 0 <= Z.lor PTE_W PTE_U < PGSIZE.
Proof. vm_compute. intuition congruence. Qed.

Lemma alloc_inv_step pgdir a i k0 l0 k l p k' l' :
  alloc_inv pgdir a i k0 l0 k l -> p ∈ l -> 0 <= a -> a mod PGSIZE = 0 -> a + PGSIZE * Z.of_nat (S i) <= KERNBASE ->
  page_added pgdir (a + PGSIZE * Z.of_nat i) (Z.lor PTE_W PTE_U) (fun m => memset m p 0 PGSIZE) k l p k' l' ->
  alloc_inv pgdir a (S i) k0 l0 k' l'.
Proof.
  intros [X O N] Hp Ha Hal Hb [PX _ PT PP PD PB].
  assert (Hw : forall va, within a (PGSIZE * Z.of_nat (S i)) va =
      within a (PGSIZE * Z.of_nat i) va || within (a + PGSIZE * Z.of_nat i) PGSIZE va).
  { intros va. rewrite <- Nat.add_1_r, within_app. now replace (PGSIZE * Z.of_nat 1) with PGSIZE by done. }
  split; [now apply (extends_trans _ _ _ k l)| |].
  - intros va Hva. rewrite Hw, orb_false_iff. intros [H1 H2]. rewrite PT, H2 by done. auto.
  - intros va. rewrite Hw. intros Hor.
    assert (Hu : is_u32 va).
    { revert Hor. destruct (withinP a (PGSIZE * Z.of_nat i) va), (withinP (a + PGSIZE * Z.of_nat i) PGSIZE va); try done; intros _;
        unfold is_u32, KERNBASE, PGSIZE in *; lia. }
    rewrite PT by done. destruct (within (a + PGSIZE * Z.of_nat i) PGSIZE va) eqn:E.
    + exists p. split; [done|]. split; [done|]. split; [now apply X|]. intros b Hb'. rewrite PB by done.
      rewrite ld_memset by (unfold PGSIZE; lia). destruct (withinP p PGSIZE b); [done|lia].
    + rewrite orb_false_r in Hor. destruct (N va Hor) as (p' & Ep & Hp' & Hin & Hz). exists p'. split; [done|]. split; [done|].
      split; [done|]. intros b Hb'. rewrite (ex_same _ _ _ _ _ PX p' b); auto.
      destruct (pte_entry p' _ Hp' wu_perm) as (Wp & Wa & _).
      assert (Hva : 0 <= va < KERNBASE).
      { revert Hor. destruct (withinP a (PGSIZE * Z.of_nat i) va); [|done]. intros _. unfold PGSIZE in *; lia. }
      rewrite <- Wa, <- Ep. apply (um_page _ _ _ _ (ex_uvm _ _ _ _ _ X) va Hva). now rewrite Ep.
Qed.

(** Nothing is mapped in the [n] pages from [a]. *)
Definition absent (m : mem) (pgdir a : Z) (n : nat) : Prop :=
  forall va, within a (PGSIZE * Z.of_nat n) va = true -> present (pte_val m pgdir va) = false.

Lemma alloc_undo pgdir a i n k0 l0 k l k' :
  alloc_inv pgdir a i k0 l0 k l -> absent (k_mem k0) pgdir a n -> (i <= n)%nat -> 0 <= a -> a + PGSIZE * Z.of_nat n <= KERNBASE ->
  dealloc_post pgdir a n k l (upages (k_mem k) pgdir a n) k' ->
  absent (k_mem k') pgdir a n /\
  (forall va, is_u32 va -> within a (PGSIZE * Z.of_nat n) va = false -> pte_val (k_mem k') pgdir va = pte_val (k_mem k0) pgdir va) /\
  (forall q, data_page (k_mem k0) pgdir l0 q -> q ∉ upages (k_mem k) pgdir a n).
Proof.
  intros [X O N] Hab Hi Ha Hn D. split; [|split].
  - intros va Hva. assert (Hu : is_u32 va).
    { revert Hva. destruct (withinP a (PGSIZE * Z.of_nat n) va); [|done]. intros _. unfold is_u32, KERNBASE in *. lia. }
    rewrite (dp_pte _ _ _ _ _ _ _ D) by done. unfold unmapped. rewrite Hva.
    destruct (present (pte_val (k_mem k) pgdir va)) eqn:E; [done|]. exact E.
  - intros va Hu Hva. rewrite (dp_pte _ _ _ _ _ _ _ D) by done. unfold unmapped. rewrite Hva. apply O; [done|].
    revert Hva. destruct (withinP a (PGSIZE * Z.of_nat n) va), (withinP a (PGSIZE * Z.of_nat i) va); try done. unfold PGSIZE in *; lia.
  - intros q Hq Hin. apply elem_of_upages in Hin as (x & Hx & Hp & ->).
    assert (Hwn : within a (PGSIZE * Z.of_nat n) (a + PGSIZE * x) = true)
      by (destruct (withinP a (PGSIZE * Z.of_nat n) (a + PGSIZE * x)); [done|unfold PGSIZE in *; lia]).
    destruct (within a (PGSIZE * Z.of_nat i) (a + PGSIZE * x)) eqn:E.
    + destruct (N _ E) as (p & Ep & Hpg & Hpl & _). destruct (pte_entry p _ Hpg wu_perm) as (_ & Wa & _).
      destruct Hq as (_ & Hq & _). apply Hq. unfold upage. now rewrite Ep, Wa.
    + rewrite O in Hp; [|unfold is_u32, KERNBASE, PGSIZE in *; lia|done]. rewrite Hab in Hp by done. discriminate.
Qed.

Lemma alloc_inv_ext pgdir a i k0 l0 k l k' l' :
  alloc_inv pgdir a i k0 l0 k l -> extends pgdir k l k' l' -> 0 <= a -> a + PGSIZE * Z.of_nat i <= KERNBASE ->
  (forall va, is_u32 va -> pte_val (k_mem k') pgdir va = pte_val (k_mem k) pgdir va) -> alloc_inv pgdir a i k0 l0 k' l'.
Proof.
  intros [X O N] X' Ha Hn E. split; [now apply (extends_trans _ _ _ k l)| |].
  - intros va Hu Hva. rewrite E by done. auto.
  - intros va Hva. destruct (N va Hva) as (p & Ep & Hp & Hin & Hz).
    assert (Hr : 0 <= va < KERNBASE) by (revert Hva; destruct (withinP a (PGSIZE * Z.of_nat i) va); [lia|done]).
    destruct (pte_entry p _ Hp wu_perm) as (Wp & Wa & _).
    exists p. rewrite E by (unfold is_u32, KERNBASE in *; lia). split; [done|]. split; [done|]. split; [done|].
    intros b Hb. rewrite (ex_same _ _ _ _ _ X' p b); auto.
    rewrite <- Wa, <- Ep. apply (um_page _ _ _ _ (ex_uvm _ _ _ _ _ X) va Hr). now rewrite Ep.
Qed.

(** Freeing a page that was allocated and not mapped. *)
Lemma wp_kfree_unused pgdir p l k c (Q : unit -> ctx -> kmem -> Prop) :
  kmem_ok k l -> uvm_ok (k_mem k) pgdir l -> new_page (k_mem k) pgdir l p -> LKmem ∉ held c ->
  (forall k', kmem_ok k' (p :: l) -> uvm_ok (k_mem k') pgdir (p :: l) -> k_use_lock k' = k_use_lock k ->
     space_pages (k_mem k') pgdir = space_pages (k_mem k) pgdir ->
     (forall va, pte_val (k_mem k') pgdir va = pte_val (k_mem k) pgdir va) ->
     same_outside p (k_mem k) (k_mem k') -> Q tt c k') ->
  wp (kfree kend p) Q c k.
Proof.
  intros Hk Hok [Np Nd Nu] Hlk HQ. pose proof Nd as (Ha & Hl & Hd & Ht). eapply wp_kfree; [done..|]. intros k' Hk' Hso Hu.
  assert (Epde : forall i, 0 <= i < 1024 -> pde_at (k_mem k') pgdir i = pde_at (k_mem k) pgdir i)
    by (intros; apply (same_outside_pde p _ _ _ l); auto; apply Hok).
  assert (Epte : forall va, pte_val (k_mem k') pgdir va = pte_val (k_mem k) pgdir va)
    by (intros; apply (same_outside_pte p _ _ _ l); auto; apply Hok).
  apply HQ; auto.
  - apply (uvm_ok_ext (k_mem k) _ _ l); [done..| |].
    + intros va Hva. rewrite Epte. intros Hp. split; [done|]. destruct (um_page _ _ _ _ Hok va Hva Hp) as [_ (_ & Hn & _)].
      intros [E|Hx]%elem_of_cons; [|done]. now apply (Nu va).
    + intros x [->|Hx]%elem_of_cons; [now right|now left].
  - now apply space_pages_ext.
Qed.

Definition allocuvm_post (pgdir a : Z) (n : nat) (newsz : Z) (k0 : kmem) (l0 : list Z) (c : ctx)
    (r : Z) (c' : ctx) (k' : kmem) : Prop :=
  c' = c /\ exists l', kmem_ok k' l' /\ uvm_ok (k_mem k') pgdir l' /\ k_use_lock k' = k_use_lock k0 /\
  space_pages (k_mem k') pgdir ++ l' ≡ₚ space_pages (k_mem k0) pgdir ++ l0 /\
  data_same (k_mem k0) (k_mem k') pgdir l0 /\
  (forall va, is_u32 va -> within a (PGSIZE * Z.of_nat n) va = false -> pte_val (k_mem k') pgdir va = pte_val (k_mem k0) pgdir va) /\
  (r = newsz /\ (forall va, within a (PGSIZE * Z.of_nat n) va = true ->
     PTE_FLAGS (pte_val (k_mem k') pgdir va) = Z.lor (Z.lor PTE_W PTE_U) PTE_P /\ ub (k_mem k') pgdir va = 0) \/
   r = 0 /\ absent (k_mem k') pgdir a n).

(** What has been mapped is unmapped again; the pages [x] are still to be freed. *)
Record undone (pgdir a : Z) (n : nat) (k0 : kmem) (l0 x : list Z) (k : kmem) (l : list Z) : Prop := {
  ud_kmem : kmem_ok k l;
  ud_uvm : uvm_ok (k_mem k) pgdir l;
  ud_lock : k_use_lock k = k_use_lock k0;
  ud_pool : x ++ space_pages (k_mem k) pgdir ++ l ≡ₚ space_pages (k_mem k0) pgdir ++ l0;
  ud_same : data_same (k_mem k0) (k_mem k) pgdir l0;
  ud_old va : is_u32 va -> within a (PGSIZE * Z.of_nat n) va = false -> pte_val (k_mem k) pgdir va = pte_val (k_mem k0) pgdir va;
  ud_absent : absent (k_mem k) pgdir a n;
  ud_new : Forall (new_page (k_mem k) pgdir l) x
}.

Lemma new_page_dealloc pgdir a n k l k' p :
  dealloc_post pgdir a n k l (upages (k_mem k) pgdir a n) k' -> 0 <= a -> a mod PGSIZE = 0 -> a + PGSIZE * Z.of_nat n <= KERNBASE ->
  new_page (k_mem k) pgdir l p -> new_page (k_mem k') pgdir (reverse (upages (k_mem k) pgdir a n) ++ l) p.
Proof.
  intros [K U D P L B] Ha Hal Hn [Np (Na & Nl & Nd & Nt) Nu]. split; [done| |].
  - split; [done|]. split; [|split; [done|]].
    + rewrite elem_of_app, elem_of_reverse. intros [Hx|Hx]; [|done]. apply elem_of_upages in Hx as (i & Hi & Hp & E).
      apply (Nu (a + PGSIZE * i)); auto. unfold PGSIZE in *; lia.
    + intros i Hi. rewrite D by done. now apply Nt.
  - intros va Hva. unfold upage. rewrite P by (unfold is_u32, KERNBASE in *; lia). unfold unmapped.
    destruct (_ && _); [done|]. now apply Nu.
Qed.

Lemma wp_alloc_undo pgdir oldsz newsz i x k0 l0 k l c :
  let a := PGROUNDUP oldsz in let n := pages_to a newsz in
  alloc_inv pgdir a i k0 l0 k l -> absent (k_mem k0) pgdir a n -> (i <= n)%nat -> LKmem ∉ held c ->
  0 <= oldsz <= KERNBASE -> 0 <= newsz <= KERNBASE ->
  x ++ space_pages (k_mem k) pgdir ++ l ≡ₚ space_pages (k_mem k0) pgdir ++ l0 ->
  Forall (new_page (k_mem k) pgdir l) x ->
  wp (deallocuvm kend pgdir newsz oldsz) (fun _ c' k' => c' = c /\ exists l', undone pgdir a n k0 l0 x k' l') c k.
Proof.
  intros a n I Hab Hi Hlk Ho Hn Hpool Hx. destruct (PGROUNDUP_page oldsz Ho) as [Hal Hr]. fold a in Hal, Hr.
  assert (Hend : a + PGSIZE * Z.of_nat n <= KERNBASE)
    by (unfold n, pages_to, KERNBASE, PGSIZE in *; Z.to_euclidean_division_equations; lia).
  pose proof I as [X O N]. eapply wp_mono.
  { apply (wp_deallocuvm _ _ _ l); auto; apply X. }
  fold a n. intros _ ? k' (_ & -> & D). split; [done|]. exists (reverse (upages (k_mem k) pgdir a n) ++ l).
  destruct (alloc_undo _ _ _ _ _ _ _ _ _ I Hab Hi ltac:(lia) Hend D) as (A1 & A2 & A3).
  split; [apply D|apply D|rewrite (dp_lock _ _ _ _ _ _ _ D); apply X| | |done|done|].
  - etransitivity; [|exact Hpool]. apply Permutation_app_head. apply dealloc_pool; auto; lia.
  - intros q b Hq Hb. rewrite (dp_data _ _ _ _ _ _ _ D q b); [now apply (ex_same _ _ _ _ _ X q)|now apply X|now apply A3|done].
  - eapply Forall_impl; [exact Hx|]. intros p Hp. apply new_page_dealloc; auto; lia.
Qed.

Lemma undone_post pgdir a n newsz k0 l0 c k l :
  undone pgdir a n k0 l0 [] k l -> allocuvm_post pgdir a n newsz k0 l0 c 0 c k.
Proof.
  intros [K U L P S O A _]. split; [done|]. exists l. split; [exact K|]. split; [exact U|]. split; [exact L|].
  split; [exact P|]. split; [exact S|]. split; [exact O|]. now right.
Qed.

Lemma wp_undone_free pgdir a n k0 l0 p k l c :
  undone pgdir a n k0 l0 [p] k l -> p ∈ l0 -> LKmem ∉ held c ->
  wp (kfree kend p) (fun _ c' k' => c' = c /\ undone pgdir a n k0 l0 [] k' (p :: l)) c k.
Proof.
  intros [K U L P S O A N] Hp Hlk. rewrite Forall_singleton in N.
  apply (wp_kfree_unused pgdir p l); [exact K|exact U|exact N|exact Hlk|]. intros k' K' U' L' S' T' B'. split; [done|]. split; [done|done|congruence| | | | |done].
  - rewrite S'. cbn [app] in *. rewrite <- P. symmetry. apply Permutation_middle.
  - intros q b Hq Hb. rewrite B'; [now apply (S q)|]. pose proof Hq as (Hqa & Hql & _).
    destruct (pages_apart q p Hqa (page_aligned kend _ (np_page _ _ _ _ N))); [congruence|unfold PGSIZE in *; lia..].
  - intros va Hu Hva. rewrite T'. auto.
  - intros va Hva. rewrite T'. auto.
Qed.

Lemma alloc_inv_done pgdir a n newsz k0 l0 c k l :
  alloc_inv pgdir a n k0 l0 k l -> space_pages (k_mem k) pgdir ++ l ≡ₚ space_pages (k_mem k0) pgdir ++ l0 ->
  allocuvm_post pgdir a n newsz k0 l0 c newsz c k.
Proof.
  intros [X O N] P. split; [done|]. exists l. split; [apply X|]. split; [apply X|]. split; [apply X|]. split; [done|].
  split; [apply X|]. split; [done|]. left. split; [done|]. intros va Hva. destruct (N va Hva) as (p & Ep & Hp & _ & Hz).
  destruct (pte_entry p _ Hp wu_perm) as (_ & Wa & Wf & _). rewrite Ep. split; [done|].
  unfold ub, upage. rewrite Ep, Wa. apply Hz. pose proof (Z.mod_pos_bound va PGSIZE). unfold PGSIZE in *; lia.
Qed.

Lemma wp_allocuvm_from fuel i pgdir oldsz newsz k0 l0 k l c :
  let a := PGROUNDUP oldsz in let n := pages_to a newsz in
  alloc_inv pgdir a i k0 l0 k l -> space_pages (k_mem k) pgdir ++ l ≡ₚ space_pages (k_mem k0) pgdir ++ l0 ->
  absent (k_mem k0) pgdir a n -> (i <= n)%nat -> LKmem ∉ held c ->
  0 <= oldsz <= newsz -> newsz < KERNBASE -> (n - i < fuel)%nat ->
  wp (allocuvm_from kend fuel pgdir (a + PGSIZE * Z.of_nat i) oldsz newsz) (allocuvm_post pgdir a n newsz k0 l0 c) c k.
Proof.
  intros a n. revert i k l. induction fuel as [|fuel IH]; intros i k l I P Hab Hi Hlk Ho Hn Hf; [lia|].
  cbn [allocuvm_from]. destruct (PGROUNDUP_page oldsz ltac:(lia)) as [Hal Hr]. fold a in Hal, Hr.
  destruct (Z.ltb_spec (a + PGSIZE * Z.of_nat i) newsz) as [Hlt|Hge].
  2:{ assert (i = n) as -> by (unfold n, pages_to, PGSIZE in *; Z.to_euclidean_division_equations; lia).
      apply wp_ret. now apply (alloc_inv_done _ _ _ _ _ _ _ _ l). }
  assert (Hin : (i < n)%nat) by (unfold n, pages_to, PGSIZE in *; Z.to_euclidean_division_equations; lia).
  assert (Hend : a + PGSIZE * Z.of_nat (S i) <= KERNBASE)
    by (unfold KERNBASE, PGSIZE in *; Z.to_euclidean_division_equations; lia).
  pose proof I as [X O N]. pose proof X as [K U _ F _ _]. apply wp_bind. eapply wp_kalloc; [done..|]. destruct l as [|p l].
  - apply wp_bind. eapply wp_mono; [apply (wp_alloc_undo _ _ _ i [] k0 l0 _ []); auto; lia|].
    fold a n. intros r c' k' (-> & l' & Hu). apply wp_ret. now apply (undone_post _ _ _ _ _ _ _ _ l').
  - intros k1 K1 E1 L1. pose proof K as (_ & Hpg & _). apply Forall_cons in Hpg as [Hp _].
    destruct (page_ok_u32 _ p Hp) as (_ & Hnz & _). destruct (Z.eqb_spec p 0); [done|]. unfold fill. apply wp_bind, wp_modify.
    apply (wp_map_new pgdir _ _ (fun m => memset m p 0 PGSIZE) p l k k1); auto.
    + intros b Hb. rewrite ld_memset by (unfold PGSIZE; lia). destruct (withinP p PGSIZE b); [lia|done].
    + unfold KERNBASE, PGSIZE in *. lia.
    + unfold PGSIZE in *. Z.to_euclidean_division_equations; lia.
    + apply wu_perm.
    + rewrite O; [apply Hab|unfold is_u32, KERNBASE, PGSIZE in *; lia|].
      * destruct (withinP a (PGSIZE * Z.of_nat n) (a + PGSIZE * Z.of_nat i)); [done|unfold PGSIZE in *; lia].
      * destruct (withinP a (PGSIZE * Z.of_nat i) (a + PGSIZE * Z.of_nat i)); [lia|done].
    + intros kB [_ FX FP FT FN]. apply wp_bind. eapply wp_mono.
      { apply (wp_alloc_undo _ _ _ i [p] k0 l0 kB []); auto; try lia.
        - apply (alloc_inv_ext _ _ _ _ _ k (p :: l)); auto; [lia|unfold PGSIZE in *; lia].
        - rewrite app_nil_r. cbn [app]. rewrite FP. exact P. }
      fold a n. intros r c' k' (-> & l' & Hu). apply wp_bind. eapply wp_mono.
      { apply (wp_undone_free _ _ _ _ _ _ _ _ _ Hu); auto. apply F. now left. }
      intros [] ? k3 (-> & Hu3). apply wp_ret. now apply (undone_post _ _ _ _ _ _ _ _ (p :: l')).
    + intros k' l' PA. rewrite u32_small by (unfold is_u32, KERNBASE, PGSIZE in *; lia).
      replace (a + PGSIZE * Z.of_nat i + PGSIZE) with (a + PGSIZE * Z.of_nat (S i)) by lia.
      apply (IH (S i) k' l'); auto; [|now rewrite (pa_pool _ _ _ _ _ _ _ _ _ PA)|lia].
      apply (alloc_inv_step _ _ _ _ _ k (p :: l) p); auto; [now left|lia].
Qed.

(** C24: freevm(pgdir) of a well-formed address space never panics and gives back
    every page of it: the free list gets the directory, all its page tables and
    all the user pages mapped below KERNBASE, each once, and no byte of a page
    outside the address space and the free list changes. *)
Theorem freevm_frees pgdir l c k :
  kmem_ok k l -> uvm_ok (k_mem k) pgdir l -> LKmem ∉ held c ->
  wp (freevm kend pgdir)
    (fun _ c' k' => c' = c /\ k_use_lock k' = k_use_lock k /\ kmem_ok k' (space_pages (k_mem k) pgdir ++ l) /\
       forall q b, q mod PGSIZE = 0 -> q ∉ space_pages (k_mem k) pgdir -> q ∉ l -> q <= b < q + PGSIZE ->
         ld (k_mem k') b = ld (k_mem k) b) c k.
Proof. intros Hk Hok Hlk. apply (wp_freevm _ l); auto. Qed.

(** C28: setupkvm() builds the kernel's part of an address space exactly when 65
    pages are free: then the new directory maps physical memory at KERNBASE,
    read-only for the kernel's text, and the devices at the top, for the kernel
    only, and nothing else, in 65 of those pages; otherwise it returns 0 and
    the free list has the pages it had.  No page in use changes. *)
Theorem setupkvm_maps k l c :
  kmem_ok k l -> LKmem ∉ held c -> kdata_ok -> wp (setupkvm kend kdata) (setupkvm_post k l c) c k.
Proof. apply wp_setupkvm. Qed.

(** C27: allocuvm(pgdir, oldsz, newsz) on a range that is not mapped either maps
    all of it to pages of zeroes that the user may read and write, or returns 0
    with nothing of it mapped; in both cases no other mapping and no page in use
    changes, and the address space and the free list together have the pages
    they had. *)
Theorem allocuvm_grows pgdir oldsz newsz l c k :
  kmem_ok k l -> uvm_ok (k_mem k) pgdir l -> LKmem ∉ held c -> 0 <= oldsz <= newsz -> newsz < KERNBASE ->
  let a := PGROUNDUP oldsz in let n := pages_to a newsz in
  absent (k_mem k) pgdir a n ->
  wp (allocuvm kend pgdir oldsz newsz) (allocuvm_post pgdir a n newsz k l c) c k.
Proof.
  intros Hk Hok Hlk Ho Hn a n Hab. unfold allocuvm.
  destruct (Z.leb_spec KERNBASE newsz), (Z.ltb_spec newsz oldsz); try lia. fold a.
  rewrite <- (Z.add_0_r a) at 1. change 0 with (PGSIZE * Z.of_nat 0) at 1.
  apply (wp_allocuvm_from _ 0 pgdir oldsz newsz k l k l); auto using alloc_inv_0; [lia|].
  destruct (PGROUNDUP_page oldsz ltac:(lia)) as [_ Hr]. fold a in Hr.
  fold n. unfold n, pages_to, PGSIZE in *. Z.to_euclidean_division_equations; lia.
Qed.

(** [growproc(-n)] and [freevm] use it: the pages from [newsz] up go back to the
    free list. *)
Lemma deallocuvm_pool pgdir oldsz newsz l c k :
  kmem_ok k l -> uvm_ok (k_mem k) pgdir l -> LKmem ∉ held c -> 0 <= newsz <= KERNBASE -> 0 <= oldsz <= KERNBASE ->
  wp (deallocuvm kend pgdir oldsz newsz)
    (fun r c' k' => r = Z.min oldsz newsz /\ c' = c /\ exists l', kmem_ok k' l' /\ uvm_ok (k_mem k') pgdir l' /\
       space_pages (k_mem k') pgdir ++ l' ≡ₚ space_pages (k_mem k) pgdir ++ l) c k.
Proof.
  intros Hk Hok Hlk Hn Ho. destruct (PGROUNDUP_page newsz Hn) as [Hal Hr].
  eapply wp_mono; [now apply (wp_deallocuvm _ _ _ l)|].
  intros r c' k' (-> & -> & D). split; [done|]. split; [done|]. eexists. split; [apply D|]. split; [apply D|].
  apply dealloc_pool; auto; [lia|]. unfold pages_to, KERNBASE, PGSIZE in *. Z.to_euclidean_division_equations; lia.
Qed.

End Space.

(** ** An address space with one user page, and [n] free pages *)

Fixpoint link (l : list Z) (m : mem) : mem :=
  match l with [] => m | p :: r => st32 (link r m) p (default 0 (head r)) end.

Definition sample_base : mem := st32 (st32 (st ∅ 0x80402005 42) 0x80401000 0x402007) 0x80400000 0x401007.
Definition sample_free (n : nat) : list Z := pages_from 0x80403000 n.
Definition sample_space (n : nat) : kmem := Kmem (link (sample_free n) sample_base) (default 0 (head (sample_free n))) true.

Lemma link_other l m q i :
  Forall (page_ok 0x80110000) l -> q mod PGSIZE = 0 -> q ∉ l -> 0 <= i < 1024 ->
  ld32 (link l m) (q + 4 * i) = ld32 m (q + 4 * i).
Proof.
  intros Hl Hq. induction l as [|p l IH]; intros Hn Hi; [done|]. cbn [link].
  apply Forall_cons in Hl as [Hp Hl]. apply not_elem_of_cons in Hn as [Hne Hn].
  rewrite <- IH by done. replace p with (p + 4 * 0) by lia.
  apply ld32_other_page; auto; [now apply (page_aligned 0x80110000)|lia].
Qed.

Lemma chain_link l m : Forall (page_ok 0x80110000) l -> NoDup l -> chain (link l m) (default 0 (head l)) l.
Proof.
  induction l as [|p l IH]; intros Hl Hnd; [done|]. cbn [link chain head default]. split; [done|].
  apply Forall_cons in Hl as [Hp Hl]. apply NoDup_cons in Hnd as [Hn Hnd].
  rewrite ld32_st32_eq.
  - eapply chain_ext; [now apply IH|]. intros x Hx. rewrite Forall_forall in Hl.
    replace p with (p + 4 * 0) by lia. replace x with (x + 4 * 0) by lia.
    apply ld32_other_page; try lia; [now apply (page_aligned 0x80110000)|now apply (page_aligned 0x80110000), Hl|congruence].
  - destruct l as [|x l]; cbn [head default]; [unfold is_u32; lia|]. apply Forall_cons in Hl as [Hx _]. now apply (page_ok_u32 0x80110000).
Qed.

Lemma sample_free_pages n : (n <= 1000)%nat -> Forall (page_ok 0x80110000) (sample_free n) /\ NoDup (sample_free n).
Proof.
  intros Hn. split.
  - apply Forall_forall. intros p Hp. apply elem_of_pages_from in Hp as (i & -> & Hi).
    unfold page_ok, KERNBASE, PHYSTOP, PGSIZE. Z.to_euclidean_division_equations; lia.
  - unfold sample_free, pages_from. apply NoDup_fmap_2_strong; [unfold PGSIZE; lia|apply NoDup_zrange].
Qed.

Lemma sample_kmem n : (n <= 1000)%nat -> kmem_ok 0x80110000 (sample_space n) (sample_free n).
Proof.
  intros Hn. destruct (sample_free_pages n Hn) as [H1 H2]. split; [|done]. now apply chain_link.
Qed.

Lemma sample_words n q i :
  (n <= 1000)%nat -> q mod PGSIZE = 0 -> q < 0x80403000 -> 0 <= i < 1024 ->
  ld32 (k_mem (sample_space n)) (q + 4 * i) = ld32 sample_base (q + 4 * i).
Proof.
  intros Hn Hq Hr Hi. apply link_other; auto; [now apply sample_free_pages|].
  intros Hx. apply elem_of_pages_from in Hx as (j & E & Hj). unfold PGSIZE in *. lia.
Qed.

Lemma ld32_st_empty x v a : x < a \/ a + 4 <= x -> ld32 (st ∅ x v) a = 0.
Proof.
  intros H. unfold ld32. rewrite (lds_ext _ ∅ a a 4); [reflexivity|]. intros i Hi. rewrite ld_st_ne by lia. done.
Qed.

Lemma sample_pde n i :
  (n <= 1000)%nat -> 0 <= i < 1024 -> pde_at (k_mem (sample_space n)) 0x80400000 i = if i =? 0 then 0x401007 else 0.
Proof.
  intros Hn Hi. unfold pde_at. rewrite sample_words by (done || lia). unfold sample_base. destruct (Z.eqb_spec i 0) as [->|Hne].
  - apply ld32_st32_eq. unfold is_u32. lia.
  - rewrite !ld32_st32_ne by lia. apply ld32_st_empty. lia.
Qed.

Lemma sample_pte n va :
  (n <= 1000)%nat -> is_u32 va -> pte_val (k_mem (sample_space n)) 0x80400000 va = if within 0 PGSIZE va then 0x402007 else 0.
Proof.
  intros Hn Hu. unfold pte_val. rewrite sample_pde by (auto using PDX_range). pose proof (PDX_PTX_page va Hu) as E.
  pose proof (PTX_range va) as Rx. destruct (Z.eqb_spec (PDX va) 0) as [E0|Hne].
  - change (present 0x401007) with true. cbn iota. change (pgtab_of 0x401007) with 0x80401000.
    rewrite sample_words by (done || lia). unfold sample_base. rewrite ld32_st32_ne by lia. rewrite E0 in E.
    destruct (withinP 0 PGSIZE va).
    + replace (PTX va) with 0 by (unfold PGSIZE in *; Z.to_euclidean_division_equations; lia). apply ld32_st32_eq. unfold is_u32. lia.
    + rewrite ld32_st32_ne by (unfold is_u32, PGSIZE in *; Z.to_euclidean_division_equations; lia).
      apply ld32_st_empty. lia.
  - change (present 0) with false. cbn iota. destruct (withinP 0 PGSIZE va); [|done].
    exfalso. apply Hne. unfold PGSIZE, is_u32 in *. Z.to_euclidean_division_equations; lia.
Qed.

Lemma sample_uvm n : (n <= 1000)%nat -> uvm_ok 0x80110000 (k_mem (sample_space n)) 0x80400000 (sample_free n).
Proof.
  intros Hn.
  assert (Hnf : forall q, q < 0x80403000 -> q ∉ sample_free n)
    by (intros q Hq Hx; apply elem_of_pages_from in Hx as (j & E & Hj); unfold PGSIZE in *; lia).
  assert (Hva : forall va, 0 <= va < KERNBASE -> present (pte_val (k_mem (sample_space n)) 0x80400000 va) = true ->
      0 <= va < PGSIZE /\ upage (k_mem (sample_space n)) 0x80400000 va = 0x80402000).
  { intros va Hr. unfold upage. rewrite sample_pte by (auto; unfold is_u32, KERNBASE in *; lia).
    destruct (withinP 0 PGSIZE va); [now split|discriminate]. }
  split; [split| |].
  - split; [done|]. vm_compute. intuition congruence.
  - apply Hnf. lia.
  - intros i Hi. rewrite sample_pde by done. destruct (Z.eqb_spec i 0); [|discriminate]. intros _.
    change (pgtab_of 0x401007) with 0x80401000. split; [vm_compute; intuition congruence|]. split; [apply Hnf; lia|lia].
  - intros i j Hi Hj. rewrite !sample_pde by done. destruct (Z.eqb_spec i 0), (Z.eqb_spec j 0); congruence || discriminate.
  - intros va Hr Hp. destruct (Hva va Hr Hp) as [_ ->]. split; [vm_compute; intuition congruence|].
    split; [done|]. split; [apply Hnf; lia|]. split; [lia|]. intros i Hi. rewrite sample_pde by done.
    destruct (Z.eqb_spec i 0); [|discriminate]. intros _. change (pgtab_of 0x401007) with 0x80401000. lia.
  - intros va va' Hr Hr' Hp Hp' _. destruct (Hva va Hr Hp) as [H1 _], (Hva va' Hr' Hp') as [H2 _].
    now rewrite !Z.div_small.
Qed.

Lemma sample_no_lock : LKmem ∉ held (Ctx [] []).
Proof. apply not_elem_of_nil. Qed.

Lemma freevm_frees_witness :
  wp (freevm 0x80110000 0x80400000)
    (fun _ c' k' => c' = Ctx [] [] /\ k_use_lock k' = true /\
       kmem_ok 0x80110000 k' (space_pages (k_mem (sample_space 2)) 0x80400000 ++ sample_free 2) /\
       forall q b, q mod PGSIZE = 0 -> q ∉ space_pages (k_mem (sample_space 2)) 0x80400000 -> q ∉ sample_free 2 ->
         q <= b < q + PGSIZE -> ld (k_mem k') b = ld (k_mem (sample_space 2)) b) (Ctx [] []) (sample_space 2).
Proof.
  apply (freevm_frees 0x80110000 0x80400000 (sample_free 2) (Ctx [] []) (sample_space 2)).
  - apply sample_kmem. lia.
  - apply sample_uvm. lia.
  - apply sample_no_lock.
Defined.

Lemma sample_kdata : kdata_ok 0x80108000.
Proof. vm_compute. intuition congruence. Qed.

Lemma setupkvm_maps_witness :
  wp (setupkvm 0x80110000 0x80108000) (setupkvm_post 0x80110000 0x80108000 (sample_space 65) (sample_free 65) (Ctx [] []))
    (Ctx [] []) (sample_space 65).
Proof.
  apply (setupkvm_maps 0x80110000 0x80108000 (sample_space 65) (sample_free 65) (Ctx [] [])).
  - apply sample_kmem. lia.
  - apply sample_no_lock.
  - apply sample_kdata.
Defined.

(** From one page to three and a half. *)
Lemma allocuvm_grows_witness :
  wp (allocuvm 0x80110000 0x80400000 4000 14000)
    (allocuvm_post 0x80110000 0x80400000 4096 (pages_to 4096 14000) 14000 (sample_space 2) (sample_free 2) (Ctx [] []))
    (Ctx [] []) (sample_space 2).
Proof.
  apply (allocuvm_grows 0x80110000 0x80400000 4000 14000 (sample_free 2) (Ctx [] []) (sample_space 2)).
  - apply sample_kmem. lia.
  - apply sample_uvm. lia.
  - apply sample_no_lock.
  - lia.
  - reflexivity.
  - intros va Hva. change (PGROUNDUP 4000) with 4096 in Hva. change (pages_to 4096 14000) with 3%nat in Hva.
    destruct (withinP 4096 (PGSIZE * Z.of_nat 3) va); [|done]. rewrite sample_pte by (unfold is_u32, PGSIZE in *; lia).
    destruct (withinP 0 PGSIZE va); [unfold PGSIZE in *; lia|reflexivity].
Defined.
