(* ===== verification/Forkvm.v ===== *)
(** The copy of an address space that [fork] makes: [copyuvm] gives the child
    the parent's pages, byte for byte, in pages of its own; when memory runs out
    it gives back what it took, but for one page. *)
From S2P Require Import Prelude Monad Mem Mmu Cstring Kalloc Vm Hw Uvm Space.

Section Forkvm.
Variables kend kdata : Z.
Local Abbreviation uvm_ok := (uvm_ok kend).
Local Abbreviation kmem_ok := (kmem_ok kend).

(** ** The parent's address space while the child's is built *)

(** Memory [m'] has the bytes of [m] on all pages that are not in [l]. *)
Definition kept (m : mem) (l : list Z) (m' : mem) : Prop :=
  forall q b, q mod PGSIZE = 0 -> q ∉ l -> q <= b < q + PGSIZE -> ld m' b = ld m b.

Lemma kept_word m l m' q i :
  kept m l m' -> q mod PGSIZE = 0 -> q ∉ l -> 0 <= i < 1024 -> ld32 m' (q + 4 * i) = ld32 m (q + 4 * i).
Proof. intros H Hq Hl Hi. apply ld32_ext. intros j Hj. apply (H q); auto. unfold PGSIZE. lia. Qed.

Lemma kept_pde m pgdir l m' i :
  pgdir_ok kend m pgdir l -> kept m l m' -> 0 <= i < 1024 -> pde_at m' pgdir i = pde_at m pgdir i.
Proof.
  intros Hok H Hi. apply (kept_word m l); auto; [|apply Hok]. apply (page_aligned kend), (po_page _ _ _ _ Hok).
Qed.

Lemma kept_pte m pgdir l m' va : pgdir_ok kend m pgdir l -> kept m l m' -> pte_val m' pgdir va = pte_val m pgdir va.
Proof.
  intros Hok H. unfold pte_val. rewrite (kept_pde m pgdir l) by auto using PDX_range.
  destruct (present (pde_at m pgdir (PDX va))) eqn:Hp; [|done].
  destruct (po_tab _ _ _ _ Hok _ (PDX_range va) Hp) as (Ht & Htl & _).
  apply (kept_word m l); auto using PTX_range. now apply (page_aligned kend).
Qed.

Lemma kept_uvm m pgdir l m' l' : uvm_ok m pgdir l -> kept m l m' -> (forall x, x ∈ l' -> x ∈ l) -> uvm_ok m' pgdir l'.
Proof.
  intros Hok H Hl. apply (uvm_ok_ext kend m _ _ l); [done| | |auto].
  - intros i Hi. apply (kept_pde m pgdir l); auto. apply Hok.
  - intros va Hva. rewrite (kept_pte m pgdir l) by (auto; apply Hok). intros Hp. split; [done|].
    destruct (um_page _ _ _ _ Hok va Hva Hp) as [_ (_ & Hn & _)]. auto.
Qed.

(** ** The loop *)

(** The child [d] has the first [i] pages of the parent [pgdir], whose memory is
    that of [k0]; [l0] was the free list, [k1] and [l1] are from after [setupkvm]. *)
Record copy_inv (pgdir d : Z) (i : nat) (k0 : kmem) (l0 : list Z) (k1 : kmem) (l1 : list Z) (k : kmem) (l : list Z) : Prop := {
  ci_ext : extends kend d k1 l1 k l;
  ci_pool : space_pages (k_mem k) d ++ l ≡ₚ l0;
  ci_old va : is_u32 va -> within 0 (PGSIZE * Z.of_nat i) va = false -> pte_val (k_mem k) d va = pte_val (k_mem k1) d va;
  ci_new va : within 0 (PGSIZE * Z.of_nat i) va = true ->
    exists p, pte_val (k_mem k) d va = Z.lor (Z.lor (V2P p) (PTE_FLAGS (pte_val (k_mem k0) pgdir va))) PTE_P /\
      page_ok kend p /\ forall b, 0 <= b < PGSIZE -> ld (k_mem k) (p + b) = ld (k_mem k0) (upage (k_mem k0) pgdir va + b)
}.

Lemma flags_range pte : 0 <= PTE_FLAGS pte < PGSIZE.
Proof. unfold PTE_FLAGS. change 0xFFF with (Z.ones 12). rewrite Z.land_ones by lia. unfold PGSIZE. apply Z.mod_pos_bound. lia. Qed.

(** The flags of a present entry, with PTE_P added, are the same flags. *)
Lemma flags_present pte : present pte = true -> Z.lor (PTE_FLAGS pte) PTE_P = PTE_FLAGS pte.
Proof.
  unfold present. destruct (Z.eqb_spec (Z.land pte PTE_P) 0) as [|Hne]; [done|]. intros _.
  assert (E : Z.land pte PTE_P = PTE_P).
  { unfold PTE_P in *. change 1 with (Z.ones 1) in *. rewrite Z.land_ones in * by lia. change (2 ^ 1) with 2 in *.
    change (Z.ones 1) with 1. pose proof (Z.mod_pos_bound pte 2). lia. }
  unfold PTE_FLAGS. change PTE_P with (Z.land PTE_P 0xFFF) at 1. rewrite <- Z.land_lor_distr_l. f_equal.
  apply Z.bits_inj'. intros n Hn. rewrite Z.lor_spec. rewrite <- E, Z.land_spec. now destruct (Z.testbit pte n), (Z.testbit PTE_P n).
Qed.

Lemma copy_inv_step pgdir d i k0 l0 k1 l1 k l p k' l' :
  let va0 := PGSIZE * Z.of_nat i in
  uvm_ok (k_mem k0) pgdir l0 -> kept (k_mem k0) l0 (k_mem k) ->
  copy_inv pgdir d i k0 l0 k1 l1 k l -> PGSIZE * Z.of_nat (S i) <= KERNBASE ->
  present (pte_val (k_mem k0) pgdir va0) = true ->
  page_added kend d va0 (PTE_FLAGS (pte_val (k_mem k0) pgdir va0))
    (fun m => memmove m p (upage (k_mem k0) pgdir va0) PGSIZE) k l p k' l' ->
  copy_inv pgdir d (S i) k0 l0 k1 l1 k' l'.
Proof.
  intros va0 Hok Hkeep [X P O N] Hb Hpr [PX PP PT PG PD PB].
  assert (Hw : forall va, within 0 (PGSIZE * Z.of_nat (S i)) va = within 0 (PGSIZE * Z.of_nat i) va || within va0 PGSIZE va).
  { intros va. rewrite <- Nat.add_1_r, within_app. now replace (PGSIZE * Z.of_nat 1) with PGSIZE by done. }
  split; [now apply (extends_trans kend _ _ _ k l)|now rewrite PP| |].
  - intros va Hva. rewrite Hw, orb_false_iff. intros [H1 H2]. rewrite PT, H2 by done. auto.
  - intros va. rewrite Hw. intros Hor.
    assert (Hr : 0 <= va < KERNBASE).
    { revert Hor. unfold va0. destruct (withinP 0 (PGSIZE * Z.of_nat i) va), (withinP (PGSIZE * Z.of_nat i) PGSIZE va); try done; intros _;
        unfold KERNBASE, PGSIZE in *; lia. }
    rewrite PT by (unfold is_u32, KERNBASE in *; lia). destruct (within va0 PGSIZE va) eqn:E.
    + assert (Ev : pte_val (k_mem k0) pgdir va = pte_val (k_mem k0) pgdir va0).
      { revert E. destruct (withinP va0 PGSIZE va); [|done]. intros _. unfold va0 in *.
        apply pte_val_page; unfold is_u32, KERNBASE, PGSIZE in *; Z.to_euclidean_division_equations; lia. }
      unfold upage. rewrite Ev. fold (upage (k_mem k0) pgdir va0). exists p. split; [done|]. split; [done|]. intros b Hb'.
      rewrite PB by lia. rewrite ld_memmove by (unfold PGSIZE; lia). destruct (withinP p PGSIZE (p + b)); [|lia].
      replace (p + b - p) with b by lia. destruct (um_page _ _ _ _ Hok va0 ltac:(unfold va0, PGSIZE in *; lia) Hpr) as [_ (Ha & Hl & _)].
      apply (Hkeep _ _ Ha Hl). lia.
    + rewrite orb_false_r in Hor. destruct (N va Hor) as (p' & Ep & Hp' & Hz). exists p'. split; [done|]. split; [done|].
      intros b Hb'. rewrite (ex_same _ _ _ _ _ _ PX p'); [now apply Hz| |lia].
      destruct (pte_entry kend p' _ Hp' (flags_range (pte_val (k_mem k0) pgdir va))) as (Wp & Wa & _).
      rewrite <- Wa, <- Ep. apply (um_page _ _ _ _ (ex_uvm _ _ _ _ _ _ X) va Hr). now rewrite Ep.
Qed.

(** ** What [setupkvm] left *)

(** [d] is a new kernel page table in [k1], with [l1] free, made from pages of [l0]. *)
Record kvm_new (d : Z) (k0 : kmem) (l0 : list Z) (k1 : kmem) (l1 : list Z) : Prop := {
  kn_frame : frame_pages kend k0 l0 k1 l1;
  kn_uvm : uvm_ok (k_mem k1) d l1;
  kn_pool : d :: tables (k_mem k1) d 1024 ++ l1 ≡ₚ l0;
  kn_length : length l0 = (kvm_pages + length l1)%nat;
  kn_pte va : is_u32 va -> pte_val (k_mem k1) d va = kvm_pte kdata va
}.

Lemma kvm_pte_user va : 0 <= va < KERNBASE -> kvm_pte kdata va = 0.
Proof.
  intros H. unfold kvm_pte. destruct (withinP KERNBASE PHYSTOP va), (Z.leb_spec DEVSPACE va); unfold KERNBASE, DEVSPACE in *; lia || done.
Qed.

Lemma kvm_new_upages d k0 l0 k1 l1 : kvm_new d k0 l0 k1 l1 -> upages (k_mem k1) d 0 (pages_to 0 KERNBASE) = [].
Proof.
  intros H. apply upages_user. intros va Hva. rewrite (kn_pte _ _ _ _ _ H) by (unfold is_u32, KERNBASE in *; lia).
  now rewrite kvm_pte_user.
Qed.

Lemma perm_kvm (d : Z) (T l : list Z) : (d :: reverse T ++ reverse []) ++ l ≡ₚ d :: T ++ l.
Proof. rewrite reverse_nil, app_nil_r. cbn [app]. now rewrite reverse_Permutation. Qed.

Lemma kvm_new_space d k0 l0 k1 l1 : kvm_new d k0 l0 k1 l1 -> space_pages (k_mem k1) d ++ l1 ≡ₚ l0.
Proof.
  intros H. unfold space_pages. rewrite (kvm_new_upages _ _ _ _ _ H).
  etransitivity; [apply perm_kvm|exact (kn_pool _ _ _ _ _ H)].
Qed.

Lemma kvm_new_inv pgdir d k0 l0 k1 l1 : kvm_new d k0 l0 k1 l1 -> copy_inv pgdir d 0 k0 l0 k1 l1 k1 l1.
Proof.
  intros H. split; [apply extends_refl; apply H|now apply (kvm_new_space _ k0)|done|].
  intros va. destruct (withinP 0 (PGSIZE * Z.of_nat 0) va); [lia|done].
Qed.

(** The parent's pages, and all others that were in use, are as they were. *)
Lemma kvm_new_kept d k0 l0 k1 l1 k l : kvm_new d k0 l0 k1 l1 -> extends kend d k1 l1 k l -> kept (k_mem k0) l0 (k_mem k).
Proof.
  intros [(_ & _ & F) U P _ _] X q b Hq Hl Hb. rewrite (ex_same _ _ _ _ _ _ X q b); [now apply (F q)| |done].
  rewrite <- P, not_elem_of_cons, not_elem_of_app in Hl. destruct Hl as (Hd & Ht & Hl1).
  split; [done|]. split; [done|]. split; [done|]. intros i Hi Hp ->. apply Ht, elem_of_tables. eauto.
Qed.

(** ** Giving up *)

Definition copyuvm_post (pgdir : Z) (n : nat) (k0 : kmem) (l0 : list Z) (c : ctx) (r : Z) (c' : ctx) (k' : kmem) : Prop :=
  c' = c /\ k_use_lock k' = k_use_lock k0 /\
  exists l', kmem_ok k' l' /\ uvm_ok (k_mem k') pgdir l' /\ kept (k_mem k0) l0 (k_mem k') /\
  (r = 0 /\ (exists x, x ++ l' ≡ₚ l0 /\ (length x <= 1)%nat) \/
   r <> 0 /\ uvm_ok (k_mem k') r l' /\ space_pages (k_mem k') r ++ l' ≡ₚ l0 /\
   (forall va, is_u32 va -> within 0 (PGSIZE * Z.of_nat n) va = false -> pte_val (k_mem k') r va = kvm_pte kdata va) /\
   (forall va, within 0 (PGSIZE * Z.of_nat n) va = true ->
      PTE_FLAGS (pte_val (k_mem k') r va) = PTE_FLAGS (pte_val (k_mem k0) pgdir va) /\
      ub (k_mem k') r va = ub (k_mem k0) pgdir va)).

(** Freeing the child's address space when [x] is lost. *)
Lemma wp_copy_fail pgdir d k0 l0 k1 l1 k l x c n :
  uvm_ok (k_mem k0) pgdir l0 -> kvm_new d k0 l0 k1 l1 -> extends kend d k1 l1 k l -> LKmem ∉ held c ->
  x ++ space_pages (k_mem k) d ++ l ≡ₚ l0 -> (length x <= 1)%nat ->
  wp (freevm kend d ;;; ret 0)
    (fun r c' k' => copyuvm_post pgdir n k0 l0 c r c' k' /\ r = 0 /\ exists l', kmem_ok k' l' /\ x ++ l' ≡ₚ l0) c k.
Proof.
  intros Hok Hn X Hlk P Hx. pose proof (kvm_new_kept _ _ _ _ _ _ _ Hn X) as Hk. apply wp_bind.
  apply (wp_freevm kend _ l); [apply X|apply X|done|]. intros k' K' L' S'. apply wp_ret.
  generalize dependent (space_pages (k_mem k) d). intros sp P K' S'.
  assert (Hk' : kept (k_mem k0) l0 (k_mem k')).
  { intros q b Hq Hl Hb. rewrite <- P, !not_elem_of_app in Hl. destruct Hl as (Hlx & Hls & Hll).
    rewrite (S' q b) by done. apply (Hk q b Hq); [|done]. rewrite <- P, !not_elem_of_app. auto. }
  split; [|split; [done|now exists (sp ++ l)]].
  split; [done|]. split; [rewrite L', (ex_lock _ _ _ _ _ _ X); apply Hn|]. eexists. split; [exact K'|].
  split; [|split; [done|]].
  - apply (kept_uvm (k_mem k0) pgdir l0); auto. intros y Hy. rewrite <- P. apply elem_of_app. now right.
  - left. split; [done|]. now exists x.
Qed.

Lemma length_space_pages m d :
  (65 <= ntab m d)%nat -> (1 <= length (upages m d 0 (pages_to 0 KERNBASE)))%nat -> (67 <= length (space_pages m d))%nat.
Proof.
  unfold space_pages. cbn [length]. rewrite length_app, !length_reverse, length_tables.
  generalize (length (upages m d 0 (pages_to 0 KERNBASE))), (ntab m d). lia.
Qed.

Lemma kvm_pte_present va : kernel_addr va -> present (kvm_pte kdata va) = true.
Proof.
  intros H. assert (E : forall x, present (Z.lor x PTE_P) = true).
  { intros x. unfold present. destruct (Z.eqb_spec (Z.land (Z.lor x PTE_P) PTE_P) 0) as [E|]; [|done].
    rewrite Z.land_lor_distr_l, Z.land_diag in E. now apply Z.lor_eq_0_iff in E as [_ E]. }
  unfold kvm_pte. destruct (withinP KERNBASE PHYSTOP va); [apply E|]. destruct (Z.leb_spec DEVSPACE va); [apply E|].
  unfold kernel_addr in H. lia.
Qed.

#[local] Opaque space_pages.

(** ** copyuvm *)

Lemma copy_inv_done pgdir d n k0 l0 k1 l1 k l c :
  uvm_ok (k_mem k0) pgdir l0 -> kvm_new d k0 l0 k1 l1 -> copy_inv pgdir d n k0 l0 k1 l1 k l ->
  (forall va, within 0 (PGSIZE * Z.of_nat n) va = true -> present (pte_val (k_mem k0) pgdir va) = true) ->
  copyuvm_post pgdir n k0 l0 c d c k.
Proof.
  intros Hok Hn [X P O N] Hpr. pose proof (kvm_new_kept _ _ _ _ _ _ _ Hn X) as Hk.
  split; [done|]. split; [rewrite (ex_lock _ _ _ _ _ _ X); apply Hn|]. exists l. split; [apply X|].
  split; [apply (kept_uvm (k_mem k0) pgdir l0); auto; intros y Hy; rewrite <- P; apply elem_of_app; now right|].
  split; [done|]. right. split; [|split; [apply X|split; [done|split]]].
  - pose proof (po_page _ _ _ _ (um_dir _ _ _ _ (kn_uvm _ _ _ _ _ Hn))) as Hpg. now destruct (page_ok_u32 kend d Hpg) as (_ & ? & _).
  - intros va Hu Hva. rewrite O by done. now apply (kn_pte _ _ _ _ _ Hn).
  - intros va Hva. destruct (N va Hva) as (p & Ep & Hp & Hb).
    destruct (pte_entry kend p _ Hp (flags_range (pte_val (k_mem k0) pgdir va))) as (_ & Wa & Wf & _).
    rewrite Ep, Wf. split; [now apply flags_present, Hpr|]. unfold ub. fold (upage (k_mem k0) pgdir va). unfold upage at 1. rewrite Ep, Wa.
    apply Hb. apply Z.mod_pos_bound. unfold PGSIZE. lia.
Qed.

(** The body of the loop, for the parent's page at [va]. *)
Lemma wp_copy_page pgdir d va k0 l0 k l c (A B C : M kmem Z) Q :
  uvm_ok (k_mem k0) pgdir l0 -> kept (k_mem k0) l0 (k_mem k) -> kmem_ok k l -> uvm_ok (k_mem k) d l -> LKmem ∉ held c ->
  0 <= va < KERNBASE -> va mod PGSIZE = 0 ->
  present (pte_val (k_mem k0) pgdir va) = true -> present (pte_val (k_mem k) d va) = false ->
  (l = [] -> wp A Q c k) ->
  (forall p l2 k', l = p :: l2 -> page_failed kend d k l p k' -> wp B Q c k') ->
  (forall p l2 k' l', l = p :: l2 ->
     page_added kend d va (PTE_FLAGS (pte_val (k_mem k0) pgdir va))
       (fun m => memmove m p (upage (k_mem k0) pgdir va) PGSIZE) k l p k' l' -> wp C Q c k') ->
  wp (let* pte := walkpgdir pgdir va false in
      if pte =? 0 then panic "copyuvm: pte should exist"
      else
        let* v := load pte in
        if Z.land v PTE_P =? 0 then panic "copyuvm: page not present"
        else
          let pa := PTE_ADDR v in
          let flags := PTE_FLAGS v in
          let* m := kalloc in
          if m =? 0 then A
          else
            modify (set_mem (fun mm => memmove mm m (P2V pa) PGSIZE)) ;;;
            let* r := mappages d va PGSIZE (V2P m) flags in
            if r <? 0 then B else C) Q c k.
Proof.
  intros Hok Hk K U Hlk Hva Hal Hp Hab HA HB HC.
  assert (Hpte : pte_val (k_mem k) pgdir va = pte_val (k_mem k0) pgdir va) by (apply (kept_pte _ _ l0); [apply Hok|done]).
  assert (Hpd : present (pde_at (k_mem k) pgdir (PDX va)) = true).
  { rewrite <- Hpte in Hp. unfold pte_val in Hp. destruct (present (pde_at (k_mem k) pgdir (PDX va))); [done|discriminate]. }
  apply wp_bind, wp_walkpgdir_present; [done|].
  pose proof (kept_pde _ _ _ _ _ (um_dir _ _ _ _ Hok) Hk (PDX_range va)) as Epd. rewrite Epd in *.
  destruct (po_tab _ _ _ _ (um_dir _ _ _ _ Hok) _ (PDX_range va) Hpd) as ((_ & _ & Hkb & _) & _).
  pose proof (PTX_range va) as Rx.
  destruct (Z.eqb_spec (pgtab_of (pde_at (k_mem k0) pgdir (PDX va)) + 4 * PTX va) 0); [unfold KERNBASE in *; lia|].
  unfold load. apply wp_bind, wp_gets.
  assert (Ev : ld32 (k_mem k) (pgtab_of (pde_at (k_mem k0) pgdir (PDX va)) + 4 * PTX va) = pte_val (k_mem k0) pgdir va)
    by (rewrite <- Hpte; unfold pte_val; now rewrite Epd, Hpd).
  rewrite Ev. pose proof Hp as Hp2. unfold present in Hp2. destruct (Z.land (pte_val (k_mem k0) pgdir va) PTE_P =? 0); [done|].
  cbn zeta. fold (upage (k_mem k0) pgdir va). apply wp_bind. eapply wp_kalloc; [done..|]. destruct l as [|p l]; [now apply HA|].
  intros k1 K1 E1 L1. pose proof K as (_ & Hpg & _). apply Forall_cons in Hpg as [Hpp _].
  destruct (page_ok_u32 _ p Hpp) as (_ & Hnz & _). destruct (Z.eqb_spec p 0); [done|]. apply wp_bind, wp_modify.
  apply (wp_map_new kend d _ _ (fun m => memmove m p (upage (k_mem k0) pgdir va) PGSIZE) p l k k1); auto using flags_range.
  - intros b Hb. rewrite ld_memmove by (unfold PGSIZE; lia). destruct (withinP p PGSIZE b); [lia|done].
  - intros k'. now apply (HB p l).
  - intros k' l'. now apply (HC p l).
Qed.

(** All the parent's pages below [n] are there. *)
Definition all_present (m : mem) (pgdir : Z) (n : nat) : Prop :=
  forall va, within 0 (PGSIZE * Z.of_nat n) va = true -> present (pte_val m pgdir va) = true.

Lemma wp_copyuvm_from fuel i pgdir d sz k0 l0 k1 l1 k l c :
  let n := pages_to 0 sz in
  uvm_ok (k_mem k0) pgdir l0 -> kvm_new d k0 l0 k1 l1 -> copy_inv pgdir d i k0 l0 k1 l1 k l ->
  all_present (k_mem k0) pgdir n -> LKmem ∉ held c -> (i <= n)%nat -> 0 <= sz <= KERNBASE -> (n - i < fuel)%nat ->
  wp (copyuvm_from kend fuel pgdir d (PGSIZE * Z.of_nat i) sz) (copyuvm_post pgdir n k0 l0 c) c k.
Proof.
  intros n Hok Hn. revert i k l. induction fuel as [|fuel IH]; intros i k l I Hpr Hlk Hi Hsz Hf; [lia|].
  cbn [copyuvm_from]. destruct (Z.ltb_spec (PGSIZE * Z.of_nat i) sz) as [Hlt|Hge].
  2:{ assert (i = n) as -> by (unfold n, pages_to, PGSIZE in *; Z.to_euclidean_division_equations; lia).
      apply wp_ret. now apply (copy_inv_done _ _ _ _ _ k1 l1 _ l). }
  assert (Hin : (i < n)%nat) by (unfold n, pages_to, PGSIZE in *; Z.to_euclidean_division_equations; lia).
  assert (Hend : PGSIZE * Z.of_nat (S i) <= KERNBASE) by (unfold KERNBASE, PGSIZE in *; Z.to_euclidean_division_equations; lia).
  set (va := PGSIZE * Z.of_nat i) in *. pose proof I as [X P O N]. pose proof (kvm_new_kept _ _ _ _ _ _ _ Hn X) as Hk.
  assert (Hva : 0 <= va < KERNBASE) by (unfold va, KERNBASE, PGSIZE in *; lia).
  assert (Hp : present (pte_val (k_mem k0) pgdir va) = true).
  { apply Hpr. destruct (withinP 0 (PGSIZE * Z.of_nat n) va); [done|unfold va, PGSIZE in *; lia]. }
  assert (Hab : present (pte_val (k_mem k) d va) = false).
  { rewrite O, (kn_pte _ _ _ _ _ Hn), kvm_pte_user; auto; [unfold is_u32, KERNBASE in *; lia..|].
    destruct (withinP 0 (PGSIZE * Z.of_nat i) va); [unfold va in *; lia|done]. }
  apply (wp_copy_page pgdir d va k0 l0 k l); auto; [apply X|apply X|unfold va, PGSIZE; now rewrite Z.mul_comm, Z.mod_mul| | |].
  - intros ->. eapply wp_mono; [apply (wp_copy_fail pgdir d k0 l0 k1 l1 k [] [] c n); auto; first [exact P|cbn [length]; lia]|]. now intros r c' k' [H _].
  - intros p l2 k' -> [_ FX FP FT FN]. eapply wp_mono; [apply (wp_copy_fail pgdir d k0 l0 k1 l1 k' [] [p] c n); auto|now intros r c' k2 [H _]].
    + now apply (extends_trans kend _ _ _ k (p :: l2)).
    + rewrite app_nil_r. cbn [app]. now rewrite FP.
  - intros p l2 k' l' -> PA. rewrite u32_small by (unfold va, is_u32, KERNBASE, PGSIZE in *; lia).
    replace (va + PGSIZE) with (PGSIZE * Z.of_nat (S i)) by (unfold va; lia).
    apply (IH (S i) k' l'); auto; [|lia]. now apply (copy_inv_step _ _ _ _ _ _ _ k (p :: l2) p).
Qed.

Lemma setupkvm_new k0 l0 c r c' k1 :
  setupkvm_post kend kdata k0 l0 c r c' k1 -> (kvm_pages <= length l0)%nat -> exists l1, kvm_new r k0 l0 k1 l1.
Proof.
  intros [_ H] Hl. destruct (Nat.leb_spec kvm_pages (length l0)); [|lia].
  destruct H as (l1 & F & U & P & L & T). exists l1. now split.
Qed.

Lemma setupkvm_failed pgdir n k0 l0 c r c' k1 :
  uvm_ok (k_mem k0) pgdir l0 -> setupkvm_post kend kdata k0 l0 c r c' k1 -> (length l0 < kvm_pages)%nat ->
  c' = c /\ r = 0 /\ copyuvm_post pgdir n k0 l0 c 0 c k1.
Proof.
  intros Hok [-> H] Hl. destruct (Nat.leb_spec kvm_pages (length l0)); [lia|].
  destruct H as (-> & l' & P & (K & L & F)). split; [done|]. split; [done|]. split; [done|]. split; [done|]. exists l'.
  split; [done|]. split; [apply (kept_uvm (k_mem k0) pgdir l0); auto; intros x Hx; now rewrite <- P|]. split; [done|].
  left. split; [done|]. exists []. split; [done|]. cbn [length]. lia.
Qed.

Lemma kvm_new_nz d k0 l0 k1 l1 : kvm_new d k0 l0 k1 l1 -> d <> 0.
Proof.
  intros Hn. pose proof (po_page _ _ _ _ (um_dir _ _ _ _ (kn_uvm _ _ _ _ _ Hn))) as Hpg. now destruct (page_ok_u32 kend d Hpg) as (_ & ? & _).
Qed.

(** C25: copyuvm(pgdir, sz) of an address space whose pages below sz are all
    mapped never panics.  If it returns a page table, every one of those pages
    has in it the same permissions and the same bytes, in a page of its own, and
    the kernel is mapped as everywhere; the parent's address space and every
    other page in use are unchanged.  If it returns 0, the free list is as
    before but for at most one page. *)
Theorem copyuvm_copies pgdir sz l c k :
  kmem_ok k l -> uvm_ok (k_mem k) pgdir l -> LKmem ∉ held c -> kdata_ok kdata -> 0 <= sz <= KERNBASE ->
  all_present (k_mem k) pgdir (pages_to 0 sz) ->
  wp (copyuvm kend kdata pgdir sz) (copyuvm_post pgdir (pages_to 0 sz) k l c) c k.
Proof.
  intros Hk Hok Hlk Hkd Hsz Hpr. unfold copyuvm. apply wp_bind.
  eapply wp_mono; [now apply (wp_setupkvm kend kdata k l c)|]. intros d c' k1 Hs.
  destruct (Nat.lt_ge_cases (length l) kvm_pages) as [Hlt|Hge].
  - destruct (setupkvm_failed pgdir (pages_to 0 sz) _ _ _ _ _ _ Hok Hs Hlt) as (-> & -> & Hp). now apply wp_ret.
  - destruct (setupkvm_new _ _ _ _ _ _ Hs Hge) as (l1 & Hn). destruct Hs as [-> _].
    destruct (Z.eqb_spec d 0) as [E|_]; [now apply kvm_new_nz in Hn|]. change 0 with (PGSIZE * Z.of_nat 0) at 1.
    apply (wp_copyuvm_from _ 0 pgdir d sz k l k1 l1 k1 l1); auto using kvm_new_inv; [lia|].
    unfold pages_to, PGSIZE in *. Z.to_euclidean_division_equations; lia.
Qed.

(** ** The page that is lost *)

(** With a user page mapped at 0, an address space takes 67 pages. *)
Lemma space_with_page d k l p k1 l1 k0 l0 perm f :
  kvm_new d k0 l0 k1 l1 -> kdata_ok kdata -> page_added kend d 0 perm f k1 l1 p k l -> 0 <= perm < PGSIZE ->
  (67 + length l <= length l0)%nat.
Proof.
  intros Hn Hkd [X P T G D B] Hperm. destruct (pte_entry kend p perm G Hperm) as (Wp & Wa & _).
  assert (T0 : pte_val (k_mem k) d 0 = Z.lor (Z.lor (V2P p) perm) PTE_P) by now rewrite T by (unfold is_u32; lia).
  assert (Hpd : forall va, present (pte_val (k_mem k) d va) = true -> present (pde_at (k_mem k) d (PDX va)) = true).
  { intros va. unfold pte_val. now destruct (present (pde_at (k_mem k) d (PDX va))). }
  assert (Htab : (65 <= ntab (k_mem k) d)%nat).
  { change 65%nat with (length (0 :: kvm_index)). apply ntab_ge.
    - constructor; [rewrite elem_of_kvm_index; lia|apply NoDup_kvm_index].
    - intros i [->|Hi]%elem_of_cons; [split; [lia|]; apply (Hpd 0); now rewrite T0|].
      apply elem_of_kvm_index in Hi. split; [lia|].
      replace i with (PDX (4194304 * i)) by (rewrite PDX_eq; Z.to_euclidean_division_equations; lia). apply Hpd.
      rewrite T, (kn_pte _ _ _ _ _ Hn) by (unfold is_u32; lia). destruct (withinP 0 PGSIZE (4194304 * i)); [unfold PGSIZE in *; lia|].
      apply kvm_pte_present. unfold kernel_addr, KERNBASE, PHYSTOP, DEVSPACE. lia. }
  assert (Hup : (1 <= length (upages (k_mem k) d 0 (pages_to 0 KERNBASE)))%nat).
  { rewrite (pages_to_S 0 KERNBASE) by (unfold KERNBASE; lia). cbn [upages]. rewrite T0, Wp. cbn [app length]. lia. }
  apply Permutation_length in P. pose proof (Permutation_length (kvm_new_space _ _ _ _ _ Hn)) as P2. rewrite P2 in P.
  rewrite <- P. clear -Htab Hup. rewrite length_app. apply Nat.add_le_mono_r. now apply length_space_pages.
Qed.

(** C26: copyuvm loses a page: with 66 pages free and a parent that has its first
    page, the kernel part takes 65 and the copy of the first page the last one;
    mappages then finds no page for a table, copyuvm goes to bad without
    freeing the copy, and returns 0 with 65 pages free.  No reference to the
    66th is left. *)
Theorem copyuvm_leaks_page pgdir sz l c k :
  kmem_ok k l -> uvm_ok (k_mem k) pgdir l -> LKmem ∉ held c -> kdata_ok kdata -> 0 < sz <= KERNBASE ->
  present (pte_val (k_mem k) pgdir 0) = true -> length l = S kvm_pages ->
  wp (copyuvm kend kdata pgdir sz)
    (fun r c' k' => r = 0 /\ c' = c /\ exists l' p, kmem_ok k' l' /\ p :: l' ≡ₚ l) c k.
Proof.
  intros Hk Hok Hlk Hkd Hsz Hpr Hl. unfold copyuvm. apply wp_bind.
  eapply wp_mono; [now apply (wp_setupkvm kend kdata k l c)|]. intros d c' k1 Hs.
  destruct (setupkvm_new _ _ _ _ _ _ Hs ltac:(lia)) as (l1 & Hn). destruct Hs as [-> _].
  destruct (Z.eqb_spec d 0) as [E|_]; [now apply kvm_new_nz in Hn|].
  pose proof (kn_length _ _ _ _ _ Hn) as Hlen. pose proof (kvm_new_inv pgdir _ _ _ _ _ Hn) as [X P _ _].
  rewrite Nat.add_comm. cbn [Nat.add copyuvm_from]. destruct (Z.ltb_spec 0 sz); [|lia].
  apply (wp_copy_page pgdir d 0 k l k1 l1); auto; [now apply (kvm_new_kept d k l k1 l1 k1 l1)|apply X|apply X|unfold KERNBASE; lia| | | |].
  - now rewrite (kn_pte _ _ _ _ _ Hn), kvm_pte_user by (unfold is_u32, KERNBASE; lia).
  - intros ->. cbn [length] in Hlen. lia.
  - intros p l2 k' -> [_ FX FP FT FN]. eapply wp_mono.
    { apply (wp_copy_fail pgdir d k l k1 (p :: l2) k' [] [p] c 0); auto. cbn [app]. now rewrite app_nil_r, FP. }
    intros r c' k2 ((-> & _) & -> & l' & K' & P'). split; [done|]. split; [done|]. now exists l', p.
  - intros p l2 k' l' -> PA. exfalso. pose proof (space_with_page _ _ _ _ _ _ _ _ _ _ Hn Hkd PA (flags_range _)).
    unfold kvm_pages in *. lia.
Qed.

End Forkvm.

Lemma copyuvm_copies_witness :
  wp (copyuvm 0x80110000 0x80108000 0x80400000 3000)
    (copyuvm_post 0x80110000 0x80108000 0x80400000 (pages_to 0 3000) (sample_space 70) (sample_free 70) (Ctx [] []))
    (Ctx [] []) (sample_space 70).
Proof.
  apply (copyuvm_copies 0x80110000 0x80108000 0x80400000 3000 (sample_free 70) (Ctx [] []) (sample_space 70)).
  - apply sample_kmem. lia.
  - apply sample_uvm. lia.
  - apply sample_no_lock.
  - apply sample_kdata.
  - unfold KERNBASE. lia.
  - intros va Hva. change (pages_to 0 3000) with 1%nat in Hva. destruct (withinP 0 (PGSIZE * Z.of_nat 1) va); [|done].
    rewrite sample_pte by (unfold is_u32, PGSIZE in *; lia). destruct (withinP 0 PGSIZE va); [reflexivity|unfold PGSIZE in *; lia].
Defined.

Lemma copyuvm_leaks_page_witness :
  wp (copyuvm 0x80110000 0x80108000 0x80400000 3000)
    (fun r c' k' => r = 0 /\ c' = Ctx [] [] /\ exists l' p, kmem_ok 0x80110000 k' l' /\ p :: l' ≡ₚ sample_free 66)
    (Ctx [] []) (sample_space 66).
Proof.
  apply (copyuvm_leaks_page 0x80110000 0x80108000 0x80400000 3000 (sample_free 66) (Ctx [] []) (sample_space 66)).
  - apply sample_kmem. lia.
  - apply sample_uvm. lia.
  - apply sample_no_lock.
  - apply sample_kdata.
  - unfold KERNBASE. lia.
  - rewrite sample_pte by (unfold is_u32; lia). reflexivity.
  - reflexivity.
Defined.
