(* ===== verification/FileIface.v ===== *)
(** The interface between processes (proc.c) and the file system (file.c, fs.c,
    log.c): the operations the process code calls, as a class over the file
    system's state [F].  They may allocate and free pages (a pipe's buffer is a
    page), so they run on the page allocator's state as well, and they may
    sleep. *)
From S2P Require Import Prelude Monad Mem Kalloc.

(** Files are indexes into [ftable.file], inodes indexes into
    [icache.inode]. *)
Class FileOps (F : Type) : Type := {
  filedup : nat -> M (kmem * F) nat;
  fileclose : nat -> M (kmem * F) unit;
  idup : nat -> M (kmem * F) nat;
  iput : nat -> M (kmem * F) unit;
  namei : list Z -> M (kmem * F) (option nat);
  begin_op : M (kmem * F) unit;
  end_op : M (kmem * F) unit;
  iinit : Z -> M (kmem * F) unit;
  initlog : Z -> M (kmem * F) unit
}.

(** A file system without files, for examples. *)
Definition no_files : FileOps unit := {|
  filedup f := ret f;
  fileclose _ := ret tt;
  idup i := ret i;
  iput _ := ret tt;
  namei _ := ret None;
  begin_op := ret tt;
  end_op := ret tt;
  iinit _ := ret tt;
  initlog _ := ret tt
|}.
