(* ===== verification/Proc.v ===== *)
(** proc.c and proc.h: the process table, process creation and exit, sleep and
    wakeup, and the signal system calls.  Trap frames and kernel stacks are in
    byte memory at the addresses the process structure holds. *)
From S2P Require Import Prelude Monad Mem Mmu Cstring Kalloc Vm Hw FileIface.

(** * proc.h *)

(** Signals; SIG_DFL is -1 in the kernel, stored as a pointer. *)
Definition SIG_DFL : Z := 0xffffffff.
Definition SIG_IGN : Z := 1.
Definition SIGKILL : Z := 9.
Definition SIGSTOP : Z := 17.
Definition SIGCONT : Z := 19.

Inductive procstate : Type := UNUSED | EMBRYO | SLEEPING | RUNNABLE | RUNNING | ZOMBIE.
#[global] Instance procstate_eq_dec : EqDecision procstate.
Proof. solve_decision. Defined.

(** struct proc.  A pointer to another process is its index in the table; the
    trap frame, the context, the page directory and the kernel stack are
    addresses. *)
Record proc : Type := Proc {
  sz : Z;
  pgdir : Z;
  kstack : Z;
  state : procstate;
  pid : Z;
  parent : option nat;
  tf : Z;
  context : Z;
  p_chan : option chan;
  killed : Z;
  ofile : list (option nat);
  cwd : option nat;
  name : list Z;
  pending : Z;
  mask : Z;
  mask_backup : Z;
  handlers : list Z;
  trap_backup : Z
}.

(** The process table is zero-initialised storage. *)
Definition proc0 : proc :=
  Proc 0 0 0 UNUSED 0 None 0 0 None 0 (replicate NOFILE None) None (replicate 16 0)
    0 0 0 (replicate 32 0) 0.

Definition set_sz v p := Proc v (pgdir p) (kstack p) (state p) (pid p) (parent p) (tf p) (context p) (p_chan p) (killed p) (ofile p) (cwd p) (name p) (pending p) (mask p) (mask_backup p) (handlers p) (trap_backup p).
Definition set_pgdir v p := Proc (sz p) v (kstack p) (state p) (pid p) (parent p) (tf p) (context p) (p_chan p) (killed p) (ofile p) (cwd p) (name p) (pending p) (mask p) (mask_backup p) (handlers p) (trap_backup p).
Definition set_kstack v p := Proc (sz p) (pgdir p) v (state p) (pid p) (parent p) (tf p) (context p) (p_chan p) (killed p) (ofile p) (cwd p) (name p) (pending p) (mask p) (mask_backup p) (handlers p) (trap_backup p).
Definition set_state v p := Proc (sz p) (pgdir p) (kstack p) v (pid p) (parent p) (tf p) (context p) (p_chan p) (killed p) (ofile p) (cwd p) (name p) (pending p) (mask p) (mask_backup p) (handlers p) (trap_backup p).
Definition set_pid v p := Proc (sz p) (pgdir p) (kstack p) (state p) v (parent p) (tf p) (context p) (p_chan p) (killed p) (ofile p) (cwd p) (name p) (pending p) (mask p) (mask_backup p) (handlers p) (trap_backup p).
Definition set_parent v p := Proc (sz p) (pgdir p) (kstack p) (state p) (pid p) v (tf p) (context p) (p_chan p) (killed p) (ofile p) (cwd p) (name p) (pending p) (mask p) (mask_backup p) (handlers p) (trap_backup p).
Definition set_tf v p := Proc (sz p) (pgdir p) (kstack p) (state p) (pid p) (parent p) v (context p) (p_chan p) (killed p) (ofile p) (cwd p) (name p) (pending p) (mask p) (mask_backup p) (handlers p) (trap_backup p).
Definition set_context v p := Proc (sz p) (pgdir p) (kstack p) (state p) (pid p) (parent p) (tf p) v (p_chan p) (killed p) (ofile p) (cwd p) (name p) (pending p) (mask p) (mask_backup p) (handlers p) (trap_backup p).
Definition set_chan v p := Proc (sz p) (pgdir p) (kstack p) (state p) (pid p) (parent p) (tf p) (context p) v (killed p) (ofile p) (cwd p) (name p) (pending p) (mask p) (mask_backup p) (handlers p) (trap_backup p).
Definition set_killed v p := Proc (sz p) (pgdir p) (kstack p) (state p) (pid p) (parent p) (tf p) (context p) (p_chan p) v (ofile p) (cwd p) (name p) (pending p) (mask p) (mask_backup p) (handlers p) (trap_backup p).
Definition set_ofile v p := Proc (sz p) (pgdir p) (kstack p) (state p) (pid p) (parent p) (tf p) (context p) (p_chan p) (killed p) v (cwd p) (name p) (pending p) (mask p) (mask_backup p) (handlers p) (trap_backup p).
Definition set_cwd v p := Proc (sz p) (pgdir p) (kstack p) (state p) (pid p) (parent p) (tf p) (context p) (p_chan p) (killed p) (ofile p) v (name p) (pending p) (mask p) (mask_backup p) (handlers p) (trap_backup p).
Definition set_name v p := Proc (sz p) (pgdir p) (kstack p) (state p) (pid p) (parent p) (tf p) (context p) (p_chan p) (killed p) (ofile p) (cwd p) v (pending p) (mask p) (mask_backup p) (handlers p) (trap_backup p).
Definition set_pending v p := Proc (sz p) (pgdir p) (kstack p) (state p) (pid p) (parent p) (tf p) (context p) (p_chan p) (killed p) (ofile p) (cwd p) (name p) v (mask p) (mask_backup p) (handlers p) (trap_backup p).
Definition set_mask v p := Proc (sz p) (pgdir p) (kstack p) (state p) (pid p) (parent p) (tf p) (context p) (p_chan p) (killed p) (ofile p) (cwd p) (name p) (pending p) v (mask_backup p) (handlers p) (trap_backup p).
Definition set_mask_backup v p := Proc (sz p) (pgdir p) (kstack p) (state p) (pid p) (parent p) (tf p) (context p) (p_chan p) (killed p) (ofile p) (cwd p) (name p) (pending p) (mask p) v (handlers p) (trap_backup p).
Definition set_handlers v p := Proc (sz p) (pgdir p) (kstack p) (state p) (pid p) (parent p) (tf p) (context p) (p_chan p) (killed p) (ofile p) (cwd p) (name p) (pending p) (mask p) (mask_backup p) v (trap_backup p).

(** * x86.h: the trap frame *)

(** Offsets of the fields of struct trapframe that the kernel uses, and its
    size. *)
Definition TF_EAX : Z := 28.
Definition TF_ES : Z := 40.
Definition TF_DS : Z := 44.
Definition TF_TRAPNO : Z := 48.
Definition TF_ERR : Z := 52.
Definition TF_EIP : Z := 56.
Definition TF_CS : Z := 60.
Definition TF_EFLAGS : Z := 64.
Definition TF_ESP : Z := 68.
Definition TF_SS : Z := 72.
Definition TF_SIZE : Z := 76.
(** struct context (proc.h). *)
Definition CONTEXT_EIP : Z := 16.
Definition CONTEXT_SIZE : Z := 20.

(** [lock; cmpxchgl]: store [newval] if the cell holds [expected]. *)
Definition cas {S A} `{EqDecision A} (rd : S -> A) (wr : A -> S -> S) (expected newval : A) : M S bool :=
  fun c s => if decide (rd s = expected) then Ret true c (wr newval s) else Ret false c s.

(** * Kernel state *)

(** The globals of proc.c ([ptable], [initproc], [nextpid], [first] of forkret)
    and trap.c ([ticks]), with the page allocator, the registers of the CPU the
    code runs on, and the file system. *)
Record kst (F : Type) : Type := Kst {
  ks_km : kmem;
  ks_hw : hw;
  ptable : list proc;
  nextpid : Z;
  initproc : option nat;
  ticks : Z;
  first : bool;
  ks_fs : F
}.
Arguments Kst {F}.
Arguments ks_km {F}. Arguments ks_hw {F}. Arguments ptable {F}. Arguments nextpid {F}.
Arguments initproc {F}. Arguments ticks {F}. Arguments first {F}. Arguments ks_fs {F}.

Section Setters.
Context {F : Type}.
Implicit Types k : kst F.
Definition set_km v k := Kst v (ks_hw k) (ptable k) (nextpid k) (initproc k) (ticks k) (first k) (ks_fs k).
Definition set_hw v k := Kst (ks_km k) v (ptable k) (nextpid k) (initproc k) (ticks k) (first k) (ks_fs k).
Definition set_ptable v k := Kst (ks_km k) (ks_hw k) v (nextpid k) (initproc k) (ticks k) (first k) (ks_fs k).
Definition set_nextpid v k := Kst (ks_km k) (ks_hw k) (ptable k) v (initproc k) (ticks k) (first k) (ks_fs k).
Definition set_initproc v k := Kst (ks_km k) (ks_hw k) (ptable k) (nextpid k) v (ticks k) (first k) (ks_fs k).
Definition set_ticks v k := Kst (ks_km k) (ks_hw k) (ptable k) (nextpid k) (initproc k) v (first k) (ks_fs k).
Definition set_first v k := Kst (ks_km k) (ks_hw k) (ptable k) (nextpid k) (initproc k) (ticks k) v (ks_fs k).
Definition set_fs (v : F) k := Kst (ks_km k) (ks_hw k) (ptable k) (nextpid k) (initproc k) (ticks k) (first k) v.

(** Process [i], and an assignment to its fields. *)
Definition pget (i : nat) k : proc := default proc0 (ptable k !! i).
Definition pset (i : nat) (f : proc -> proc) k : kst F := set_ptable (alter f i (ptable k)) k.
Definition pmod (i : nat) (f : proc -> proc) : M (kst F) unit := modify (pset i f).

(** Operations of the page allocator and page tables, and of the CPU's
    registers. *)
Definition inkm {A} (m : M kmem A) : M (kst F) A := zoom ks_km set_km m.
Definition inhw {A} (m : M hw A) : M (kst F) A := zoom ks_hw set_hw m.
End Setters.

(** * wakeup1 *)

(** [for(p = ptable.proc; ...) if(p->state == SLEEPING && p->chan == chan)
    p->state = RUNNABLE;] *)
Definition wake_one (ch : option chan) (p : proc) : proc :=
  if decide (state p = SLEEPING /\ p_chan p = ch) then set_state RUNNABLE p else p.
Definition wakeup1 {F} (ch : option chan) (k : kst F) : kst F :=
  set_ptable (wake_one ch <$> ptable k) k.

(** * File-system code run by process [cur]

    Its wakeups are [wakeup1] on the table and its sleeps put [cur] to sleep in
    the table. *)
Section Lift.
Context {F : Type}.
Variable cur : nat.

Definition wake_all (w : list chan) (k : kst F) : kst F :=
  fold_left (fun k ch => wakeup1 (Some ch) k) w k.
Definition fs_get (k : kst F) : kmem * F := (ks_km k, ks_fs k).
Definition fs_put (s : kmem * F) (k : kst F) : kst F := set_fs s.2 (set_km s.1 k).

Fixpoint olift {A} (k : kst F) (o : outcome (kmem * F) A) : outcome (kst F) A :=
  match o with
  | Ret a c s => Ret a (Ctx (held c) []) (wake_all (woken c) (fs_put s k))
  | Panic msg => Panic msg
  | Sleep ch w s res =>
      Sleep ch []
        (pset cur (fun p => set_state SLEEPING (set_chan ch p)) (wake_all w (fs_put s k)))
        (fun k' => let k' := pset cur (set_chan None) k' in olift k' (res (fs_get k')))
  | OutOfFuel => OutOfFuel
  end.
Definition lift {A} (m : M (kmem * F) A) : M (kst F) A :=
  fun c k => olift k (m c (fs_get k)).
End Lift.

(** * proc.c *)

Section Ops.
Context {F : Type} `{FileOps F}.
Abbreviation K := (M (kst F)).

(** Symbols set by the linker: the end of the kernel, its writable data, the
    entry points forkret and trapret, the per-CPU task state, and the initial
    program. *)
Variables kend kdata trapret_addr forkret_addr ts_addr initcode_start initcode_size : Z.

(** ** Allocation *)

(** The loop retries when another CPU changed [nextpid] in between; [fuel]
    bounds the retries. *)
Fixpoint allocpid_from (fuel : nat) : K Z :=
  match fuel with
  | O => fun _ _ => OutOfFuel
  | S n =>
      let* local_pid := gets nextpid in
      let* ok := cas nextpid set_nextpid local_pid (s32 (local_pid + 1)) in
      if ok : bool then ret (s32 (local_pid + 1)) else allocpid_from n
  end.
Definition allocpid : K Z := allocpid_from 1.

(** A store to kernel memory, as through [p->tf] or [p->context]. *)
Definition kstore (a w : Z) : K unit := inkm (store a w).
Definition kload (a : Z) : K Z := inkm (load a).
(** A 16-bit store. *)
Definition kstore16 (a w : Z) : K unit :=
  modify (fun k => set_km (set_mem (fun m => sts m a (le_bytes 2 w)) (ks_km k)) k).

(** What [allocproc] does once it has taken slot [i]. *)
Definition allocproc_found (i : nat) : K (option nat) :=
  let* id := allocpid in
  pmod i (set_pid id) ;;;
  let* ks := inkm kalloc in
  pmod i (set_kstack ks) ;;;
  if ks =? 0 then pmod i (set_state UNUSED) ;;; ret None
  else
    let sp := ks + KSTACKSIZE in
    let sp := sp - TF_SIZE in
    pmod i (set_tf sp) ;;;
    let sp := sp - 4 in
    kstore sp trapret_addr ;;;
    let sp := sp - CONTEXT_SIZE in
    pmod i (set_context sp) ;;;
    inkm (fill sp 0 CONTEXT_SIZE) ;;;
    kstore (sp + CONTEXT_EIP) forkret_addr ;;;
    ret (Some i).

Definition allocproc : K (option nat) :=
  forb (seq 0 NPROC) (fun i =>
    let* ok := cas (fun k => state (pget i k)) (fun v => pset i (set_state v)) UNUSED EMBRYO in
    if ok : bool then let* r := allocproc_found i in ret (Some r) else ret None)
  (ret None).

(** [safestrcpy(dst, src, n)] on a name buffer of 16 bytes: string.c's routine
    on a scratch memory that holds both. *)
Definition name_copy (dst src : list Z) (n : Z) : list Z :=
  lds (safestrcpy (sts (sts ∅ 0 dst) 16 src) 0 16 n) 0 16.

(** "initcode" and "/", with their terminators. *)
Definition str_initcode : list Z := [105; 110; 105; 116; 99; 111; 100; 101; 0].
Definition str_root : list Z := [47; 0].

Definition userinit : K unit :=
  let* r := allocproc in
  modify (set_initproc r) ;;;
  match r with
  | None => panic "trap"     (* p->pgdir through a null pointer *)
  | Some p =>
      let* pd := inkm (setupkvm kend kdata) in
      pmod p (set_pgdir pd) ;;;
      if pd =? 0 then panic "userinit: out of memory?"
      else
        inkm (inituvm pd initcode_start initcode_size) ;;;
        pmod p (set_sz PGSIZE) ;;;
        let* t := gets (fun k => tf (pget p k)) in
        inkm (fill t 0 TF_SIZE) ;;;
        kstore16 (t + TF_CS) (Z.lor (Z.shiftl SEG_UCODE 3) DPL_USER) ;;;
        let ds := Z.lor (Z.shiftl SEG_UDATA 3) DPL_USER in
        kstore16 (t + TF_DS) ds ;;;
        kstore16 (t + TF_ES) ds ;;;
        kstore16 (t + TF_SS) ds ;;;
        kstore (t + TF_EFLAGS) FL_IF ;;;
        kstore (t + TF_ESP) PGSIZE ;;;
        kstore (t + TF_EIP) 0 ;;;
        pmod p (set_mask 0xffffffff) ;;;
        pmod p (set_pending 0) ;;;
        pmod p (fun q => set_name (name_copy (name q) str_initcode 16) q) ;;;
        let* d := lift p (namei str_root) in
        pmod p (set_cwd d) ;;;
        acquire LPtable ;;;
        (* memset of 32 pointers to the byte -1 *)
        pmod p (set_handlers (replicate 32 (le_val (replicate 4 (u8 (-1)))))) ;;;
        pmod p (set_state RUNNABLE) ;;;
        release LPtable
  end.

(** ** Growing a process *)

Definition p_switchuvm (p : nat) : K unit :=
  let* q := gets (pget p) in inhw (switchuvm ts_addr (kstack q) (pgdir q)).

(** [n] is an [int]; [sz + n] is an unsigned sum. *)
Definition growproc (cur : nat) (n : Z) : K Z :=
  let* q := gets (pget cur) in
  let* r :=
    (if 0 <? n then
       let* s := inkm (allocuvm kend (pgdir q) (sz q) (u32 (sz q + n))) in
       ret (if s =? 0 then None else Some s)
     else if n <? 0 then
       let* s := inkm (deallocuvm kend (pgdir q) (sz q) (u32 (sz q + n))) in
       ret (if s =? 0 then None else Some s)
     else ret (Some (sz q))) in
  match r with
  | None => ret (-1)
  | Some s => pmod cur (set_sz s) ;;; p_switchuvm cur ;;; ret 0
  end.

(** ** Switching *)

(** [sched]: [mycpu()->ncli] is the number of locks held.  The thread resumes
    holding [ptable.lock], which the scheduler held when it switched to it. *)
Definition sched (cur : nat) : K unit :=
  fun c k =>
    if negb (bool_decide (LPtable ∈ held c)) then Panic "sched ptable.lock"
    else if negb (bool_decide (length (held c) = 1%nat)) then Panic "sched locks"
    else if bool_decide (state (pget cur k) = RUNNING) then Panic "sched running"
    else Sleep (p_chan (pget cur k)) [] k (fun k' => Ret tt (Ctx [LPtable] []) k').

Definition yield (cur : nat) : K unit :=
  acquire LPtable ;;;
  pmod cur (set_state RUNNABLE) ;;;
  sched cur ;;;
  release LPtable.

Definition forkret (cur : nat) : K unit :=
  release LPtable ;;;
  let* f := gets first in
  when f (modify (set_first false) ;;; lift cur (iinit ROOTDEV) ;;; lift cur (initlog ROOTDEV)).

Definition sleep (cur : nat) (ch : chan) (lk : lock) : K unit :=
  when (negb (bool_decide (lk = LPtable))) (acquire LPtable ;;; release lk) ;;;
  pmod cur (set_chan (Some ch)) ;;;
  pmod cur (set_state SLEEPING) ;;;
  sched cur ;;;
  pmod cur (set_chan None) ;;;
  when (negb (bool_decide (lk = LPtable))) (release LPtable ;;; acquire lk).

Definition wakeup (ch : chan) : K unit :=
  acquire LPtable ;;; modify (wakeup1 (Some ch)) ;;; release LPtable.

(** ** fork, exit, wait *)

(** Duplicate [cur]'s open files into [np]. *)
Definition fork_files (cur np : nat) : K unit :=
  for_ (seq 0 NOFILE) (fun i =>
    let* f := gets (fun k => ofile (pget cur k) !! i) in
    match f with
    | Some (Some f) =>
        let* g := lift cur (filedup f) in
        pmod np (fun q => set_ofile (<[i := Some g]> (ofile q)) q)
    | _ => ret tt
    end).

(** [inode] pointers of the process are dereferenced without a test. *)
Definition deref {A} (o : option A) : K A :=
  match o with Some a => ret a | None => panic "trap" end.

Definition fork (cur : nat) : K Z :=
  let* r := allocproc in
  match r with
  | None => ret (-1)
  | Some np =>
      let* q := gets (pget cur) in
      let* pd := inkm (copyuvm kend kdata (pgdir q) (sz q)) in
      pmod np (set_pgdir pd) ;;;
      if pd =? 0 then
        let* ks := gets (fun k => kstack (pget np k)) in
        inkm (kfree kend ks) ;;;
        pmod np (set_kstack 0) ;;;
        pmod np (set_state UNUSED) ;;;
        ret (-1)
      else
        pmod np (set_sz (sz q)) ;;;
        pmod np (set_parent (Some cur)) ;;;
        let* t := gets (fun k => tf (pget np k)) in
        inkm (modify (set_mem (fun m => memmove m t (tf q) TF_SIZE))) ;;;
        kstore (t + TF_EAX) 0 ;;;
        fork_files cur np ;;;
        let* d := gets (fun k => cwd (pget cur k)) in
        let* d := deref d in
        let* d := lift cur (idup d) in
        pmod np (set_cwd (Some d)) ;;;
        let* n := gets (fun k => name (pget cur k)) in
        pmod np (fun q => set_name (name_copy (name q) n 16) q) ;;;
        let* id := gets (fun k => pid (pget np k)) in
        acquire LPtable ;;;
        let* c := gets (pget cur) in
        pmod np (set_handlers (handlers c)) ;;;
        pmod np (set_mask (mask c)) ;;;
        pmod np (set_pending 0) ;;;
        pmod np (set_state RUNNABLE) ;;;
        release LPtable ;;;
        ret id
  end.

Definition exit_files (cur : nat) : K unit :=
  for_ (seq 0 NOFILE) (fun fd =>
    let* f := gets (fun k => ofile (pget cur k) !! fd) in
    match f with
    | Some (Some f) =>
        lift cur (fileclose f) ;;;
        pmod cur (fun q => set_ofile (<[fd := None]> (ofile q)) q)
    | _ => ret tt
    end).

(** Pass abandoned children to init. *)
Definition exit_children (cur : nat) : K unit :=
  for_ (seq 0 NPROC) (fun i =>
    let* p := gets (pget i) in
    when (bool_decide (parent p = Some cur))
      (let* ip := gets initproc in
       pmod i (set_parent ip) ;;;
       when (bool_decide (state p = ZOMBIE)) (modify (wakeup1 (ChProc <$> ip))))).

Definition exit {A} (cur : nat) : K A :=
  let* ip := gets initproc in
  if bool_decide (ip = Some cur) then panic "init exiting"
  else
    exit_files cur ;;;
    lift cur begin_op ;;;
    let* d := gets (fun k => cwd (pget cur k)) in
    let* d := deref d in
    lift cur (iput d) ;;;
    lift cur end_op ;;;
    pmod cur (set_cwd None) ;;;
    acquire LPtable ;;;
    let* par := gets (fun k => parent (pget cur k)) in
    modify (wakeup1 (ChProc <$> par)) ;;;
    exit_children cur ;;;
    pmod cur (set_state ZOMBIE) ;;;
    sched cur ;;;
    panic "zombie exit".

(** Release what the exited child [i] still holds. *)
Definition wait_reap (i : nat) : K Z :=
  let* p := gets (pget i) in
  inkm (kfree kend (kstack p)) ;;;
  pmod i (set_kstack 0) ;;;
  inkm (freevm kend (pgdir p)) ;;;
  pmod i (set_pid 0) ;;;
  pmod i (set_parent None) ;;;
  pmod i (fun q => set_name (<[0%nat := 0]> (name q)) q) ;;;
  pmod i (set_killed 0) ;;;
  pmod i (set_state UNUSED) ;;;
  release LPtable ;;;
  ret (pid p).

(** One pass of [wait]'s [for(;;)]: [Some r] returns [r], [None] sleeps. *)
Fixpoint wait_scan (cur : nat) (l : list nat) (havekids : bool) : K (option Z) :=
  match l with
  | i :: l' =>
      let* p := gets (pget i) in
      if negb (bool_decide (parent p = Some cur)) then wait_scan cur l' havekids
      else if bool_decide (state p = ZOMBIE) then let* r := wait_reap i in ret (Some r)
      else wait_scan cur l' true
  | [] =>
      let* kl := gets (fun k => killed (pget cur k)) in
      if negb havekids || negb (kl =? 0) then release LPtable ;;; ret (Some (-1))
      else ret None
  end.

(** [fuel] bounds the number of times the process is woken. *)
Fixpoint wait_from (fuel cur : nat) : K Z :=
  match fuel with
  | O => fun _ _ => OutOfFuel
  | S n =>
      let* r := wait_scan cur (seq 0 NPROC) false in
      match r with
      | Some v => ret v
      | None => sleep cur (ChProc cur) LPtable ;;; wait_from n cur
      end
  end.
Definition wait (fuel cur : nat) : K Z := acquire LPtable ;;; wait_from fuel cur.

(** ** Signals *)

Definition kill (id signum : Z) : K Z :=
  if (0 <=? signum) && (signum <=? 31) then
    acquire LPtable ;;;
    forb (seq 0 NPROC) (fun i =>
      let* p := gets (pget i) in
      if pid p =? id then
        pmod i (set_pending (Z.lor (pending p) (bit signum))) ;;;
        release LPtable ;;;
        ret (Some 0)
      else ret None)
    (release LPtable ;;; ret (-1))
  else ret (-1).

(** [me] is [myproc()], null when no process runs on this CPU. *)
Definition sigprocmask (me : option nat) (sigmask : Z) : K Z :=
  match me with
  | Some cur =>
      let* oldmask := gets (fun k => mask (pget cur k)) in
      pmod cur (set_mask sigmask) ;;;
      ret oldmask
  | None => ret 0
  end.

Definition signal (me : option nat) (signum handler : Z) : K Z :=
  match me with
  | Some cur =>
      if (0 <=? signum) && (signum <=? 31) then
        let* oldHandler := gets (fun k => aget 0 (handlers (pget cur k)) signum) in
        pmod cur (fun q => set_handlers (aset (handlers q) signum handler) q) ;;;
        ret oldHandler
      else ret (u32 (-2))
  | None => ret (u32 (-2))
  end.

(** [memmove] on addresses of the current address space; a fault in the kernel
    panics (trap). *)
Definition kmemmove (dst src n : Z) : K unit :=
  fun c k =>
    match vmemmove kdata (k_mem (ks_km k)) (h_cr3 (ks_hw k)) dst src n with
    | Some m => Ret tt c (set_km (set_mem (fun _ => m) (ks_km k)) k)
    | None => Panic "trap"
    end.

Definition sigret (me : option nat) : K unit :=
  match me with
  | Some cur =>
      let* q := gets (pget cur) in
      kmemmove (tf q) (trap_backup q) TF_SIZE ;;;
      pmod cur (fun q => set_mask (mask_backup q) q)
  | None => ret tt
  end.

(** ** procdump *)

Definition state_name (s : procstate) : string :=
  match s with
  | UNUSED => "unused" | EMBRYO => "embryo" | SLEEPING => "sleep "
  | RUNNABLE => "runble" | RUNNING => "run   " | ZOMBIE => "zombie"
  end.

(** The lines it prints: pid, state and name of every slot in use (the call
    stack of a sleeping process is spinlock.c's [getcallerpcs]). *)
Definition procdump (k : kst F) : list (Z * string * list Z) :=
  omap (fun p => if decide (state p = UNUSED) then None
                 else Some (pid p, state_name (state p), name p)) (ptable k).

End Ops.

(** * Stepping through process code *)

Section KstWp.
Context {F : Type}.
Implicit Types k : kst F.

(** Memory of the kernel state, and the state with its memory replaced. *)
Definition kmemof k : mem := k_mem (ks_km k).
Definition kwith (m : mem) k : kst F := set_km (set_mem (fun _ => m) (ks_km k)) k.

Lemma wp_kload a (Q : Z -> ctx -> kst F -> Prop) c k :
  Q (ld32 (kmemof k) a) c k -> wp (kload a) Q c k.
Proof. intros HQ. apply wp_zoom, wp_gets. destruct k; exact HQ. Qed.

Lemma wp_kstore a w (Q : unit -> ctx -> kst F -> Prop) c k :
  Q tt c (kwith (st32 (kmemof k) a w) k) -> wp (kstore a w) Q c k.
Proof. intros HQ. now apply wp_zoom, wp_modify. Qed.

Lemma wp_kmemmove kdata d s n m (Q : unit -> ctx -> kst F -> Prop) c k :
  vmemmove kdata (kmemof k) (h_cr3 (ks_hw k)) d s n = Some m ->
  Q tt c (kwith m k) -> wp (kmemmove kdata d s n) Q c k.
Proof. intros E HQ. unfold wp, kmemmove. fold (kmemof k). now rewrite E. Qed.

Lemma wp_pmod i f (Q : unit -> ctx -> kst F -> Prop) c k : Q tt c (pset i f k) -> wp (pmod i f) Q c k.
Proof. apply wp_modify. Qed.

Lemma wp_gets_eq {A} (g : kst F -> A) a (Q : A -> ctx -> kst F -> Prop) c k :
  g k = a -> Q a c k -> wp (gets g) Q c k.
Proof. intros <-. apply wp_gets. Qed.

(** The process after an update of the table. *)
Lemma pget_pset_eq i f k p : ptable k !! i = Some p -> pget i (pset i f k) = f p.
Proof. intros E. unfold pget, pset. simpl. rewrite list_lookup_alter_eq, E. done. Qed.

Lemma pget_pset_ne i j f k : i <> j -> pget i (pset j f k) = pget i k.
Proof. intros Hne. unfold pget, pset. simpl. now rewrite list_lookup_alter_ne by congruence. Qed.

Lemma pget_lookup i k p : ptable k !! i = Some p -> pget i k = p.
Proof. unfold pget. now intros ->. Qed.

Lemma pset_lookup i f k p : ptable k !! i = Some p -> ptable (pset i f k) !! i = Some (f p).
Proof. intros E. unfold pset. simpl. now rewrite list_lookup_alter_eq, E. Qed.

Lemma pset_pset i f g k : pset i f (pset i g k) = pset i (fun p => f (g p)) k.
Proof.
  unfold pset, set_ptable. simpl. f_equal. apply list_eq. intros j.
  destruct (decide (i = j)) as [->|Hne].
  - rewrite !list_lookup_alter_eq. now destruct (ptable k !! j).
  - now rewrite !list_lookup_alter_ne.
Qed.

(** An assignment that changes nothing. *)
Lemma pset_id i f k p : ptable k !! i = Some p -> f p = p -> pset i f k = k.
Proof.
  intros E Hf. destruct k as [a b pt d e g h fs]. unfold pset, set_ptable. simpl in *. f_equal.
  apply list_eq. intros j. destruct (decide (i = j)) as [->|Hne].
  - rewrite list_lookup_alter_eq, E. simpl. now rewrite Hf.
  - now rewrite list_lookup_alter_ne.
Qed.

Lemma pset_ext i f g k p : ptable k !! i = Some p -> f p = g p -> pset i f k = pset i g k.
Proof.
  intros E Hf. unfold pset, set_ptable. simpl. f_equal.
  apply list_eq. intros j. destruct (decide (i = j)) as [->|Hne].
  - rewrite !list_lookup_alter_eq, E. simpl. now rewrite Hf.
  - now rewrite !list_lookup_alter_ne.
Qed.

(** The state with process [i] replaced. *)
Definition with_proc (i : nat) (p : proc) k : kst F := pset i (fun _ => p) k.

Lemma with_proc_same i k p : ptable k !! i = Some p -> with_proc i p k = k.
Proof. intros E. now apply (pset_id _ _ _ p). Qed.

Lemma pget_with i p k : is_Some (ptable k !! i) -> pget i (with_proc i p k) = p.
Proof. intros [q E]. exact (pget_pset_eq _ _ _ q E). Qed.

Lemma pset_with i f p k : pset i f (with_proc i p k) = with_proc i (f p) k.
Proof. apply pset_pset. Qed.

Lemma with_with i p q k : with_proc i p (with_proc i q k) = with_proc i p k.
Proof. apply pset_pset. Qed.

Lemma with_lookup i p k : is_Some (ptable k !! i) -> ptable (with_proc i p k) !! i = Some p.
Proof. intros [q E]. exact (pset_lookup _ _ _ q E). Qed.
End KstWp.

Ltac kst_step :=
  lazymatch goal with
  | |- wp (bind _ _) _ _ _ => apply wp_bind
  | |- wp (ret _) _ _ _ => apply wp_ret
  | |- wp (gets _) _ _ _ => apply wp_gets
  | |- wp (pmod _ _) _ _ _ => apply wp_pmod
  | |- wp (kload _) _ _ _ => apply wp_kload
  | |- wp (kstore _ _) _ _ _ => apply wp_kstore
  | |- wp (acquire _) _ _ _ => apply wp_acquire; [try not_held|]
  | |- wp (release _) _ _ _ => eapply wp_release; [reflexivity|]
  | |- wp (when _ _) _ _ _ => unfold when
  end; cbn beta iota zeta.
Ltac kst_steps := repeat (kst_step; cbn [held woken]).

(** * sleep *)

Section SleepRefines.
Context {F : Type} `{FileOps F}.

(** What the file-system code assumes of sleep() is what proc.c's does.
    Called with one lock [lk] held, sleep(chan, lk) puts the process to sleep on
    the channel in the process table and gives up the CPU with the lock
    released; when it runs again its channel is cleared and it holds exactly
    [lk].  The abstract [Monad.sleep], run for the process, has the same
    outcome. *)
Theorem sleep_refines cur ch lk (k : kst F) :
  is_Some (ptable k !! cur) ->
  exists s res res',
    sleep cur ch lk (Ctx [lk] []) k = Sleep (Some ch) [] s res /\
    lift cur (Monad.sleep ch lk) (Ctx [lk] []) k = Sleep (Some ch) [] s res' /\
    state (pget cur s) = SLEEPING /\ p_chan (pget cur s) = Some ch /\
    forall s', res s' = res' s' /\ res s' = Ret tt (Ctx [lk] []) (pset cur (set_chan None) s').
Proof.
  intros [p Hp].
  set (s := pset cur (fun p => set_state SLEEPING (set_chan (Some ch) p)) k).
  assert (Hs : sched cur (Ctx [LPtable] []) s = Sleep (Some ch) [] s (fun k' => Ret tt (Ctx [LPtable] []) k')).
  { unfold sched. rewrite bool_decide_eq_true_2 by constructor. rewrite bool_decide_eq_true_2 by done.
    unfold s. rewrite (pget_pset_eq _ _ _ p Hp). rewrite bool_decide_eq_false_2 by (now destruct p).
    cbn [negb]. now destruct p. }
  assert (Hcur : state (pget cur s) = SLEEPING /\ p_chan (pget cur s) = Some ch).
  { unfold s. rewrite (pget_pset_eq _ _ _ p Hp). now destruct p. }
  assert (Hpre : forall S (x : S), lk <> LPtable ->
    bind (acquire LPtable) (fun _ => release lk) (Ctx [lk] []) x = Ret tt (Ctx [LPtable] []) x).
  { intros S x Hne. unfold bind, acquire, release. cbn [held woken].
    rewrite decide_False by (intros [E|E%elem_of_nil]%elem_of_cons; [congruence|done]). cbn [obind held woken drop_lock].
    rewrite decide_True by (do 2 constructor). rewrite decide_False by congruence. now rewrite decide_True. }
  assert (Hfs : fs_put (fs_get k) k = k) by now destruct k.
  exists s. destruct (decide (lk = LPtable)) as [->|Hne].
  - do 2 eexists. split; [|split; [|split; [apply Hcur|split; [apply Hcur|]]]].
    + unfold sleep. rewrite bool_decide_eq_true_2 by done. cbn [negb when]. unfold bind, ret, pmod, modify.
      cbn [obind]. rewrite pset_pset. fold s. rewrite Hs. cbn [obind]. reflexivity.
    + unfold lift, Monad.sleep. rewrite decide_True by done. unfold bind, ret. cbn [obind].
      rewrite decide_True by constructor. rewrite decide_True by done. cbn [olift].
      unfold wake_all. cbn [fold_left]. rewrite Hfs. reflexivity.
    + intros s'. split; reflexivity.
  - do 2 eexists. split; [|split; [|split; [apply Hcur|split; [apply Hcur|]]]].
    + unfold sleep. rewrite bool_decide_eq_false_2 by done. cbn [negb when]. unfold bind at 1. rewrite Hpre by done.
      cbn [obind]. unfold bind, pmod, modify. cbn [obind]. rewrite pset_pset. fold s. rewrite Hs. cbn [obind]. reflexivity.
    + unfold lift, Monad.sleep. rewrite decide_False by done. unfold bind at 1. rewrite Hpre by done. cbn [obind].
      rewrite decide_True by constructor. rewrite decide_True by done. cbn [olift].
      unfold wake_all. cbn [fold_left]. rewrite Hfs. reflexivity.
    + intros s'. unfold bind, pmod, modify. cbn -[acquire release decide].
      assert (Er : forall x : kst F, obind (release LPtable (Ctx [LPtable] []) x) (fun _ => acquire lk) =
                Ret tt (Ctx [lk] []) x).
      { intros x. unfold release. cbn [held woken drop_lock]. rewrite decide_True by constructor.
        rewrite decide_True by done. cbn [obind]. unfold acquire. cbn [held woken].
        rewrite decide_False by apply not_elem_of_nil. done. }
      rewrite Er. split; reflexivity.
Qed.
End SleepRefines.

Lemma sleep_refines_witness :
  exists s res res',
    sleep 0 ChTicks LTick (Ctx [LTick] []) (Kst (Kmem ∅ 0 true) (Hw [] (0, 0) 0 0 0 0 0 (0, 0)) [proc0] 1 None 0 false tt) =
      Sleep (Some ChTicks) [] s res /\
    lift 0 (Monad.sleep ChTicks LTick) (Ctx [LTick] [])
      (Kst (Kmem ∅ 0 true) (Hw [] (0, 0) 0 0 0 0 0 (0, 0)) [proc0] 1 None 0 false tt) = Sleep (Some ChTicks) [] s res' /\
    state (pget 0 s) = SLEEPING /\ p_chan (pget 0 s) = Some ChTicks /\
    forall s', res s' = res' s' /\ res s' = Ret tt (Ctx [LTick] []) (pset 0 (set_chan None) s').
Proof.
  apply (sleep_refines 0 ChTicks LTick). cbn. eauto.
Defined.
