(* ===== verification/Signal.v ===== *)
(** The signal half of trap.c: which signals are pending and unblocked, the
    kernel's own handlers, and [check_kernel_sigs], which every return to user
    space runs (trapasm.S). *)
From S2P Require Import Prelude Monad Mem Mmu Cstring Kalloc Vm Hw Uvm FileIface Proc.

Section Signals.
Context {F : Type} `{FileOps F}.
Abbreviation K := (M (kst F)).
(** Linker symbols: the kernel's data and the two ends of the code that
    trapasm.S keeps for injection into user stacks. *)
Variables kdata call_sigret_syscall end_sigret_syscall : Z.

Definition hasSignal (p : proc) (signum : Z) : bool := 0 <? Z.land (pending p) (bit signum).

Definition isBlocked (me : option nat) (signum : Z) : K bool :=
  match me with
  | Some cur =>
      let* p := gets (pget cur) in
      ret (negb (0 <? Z.land (mask p) (bit signum)))
  | None => ret true
  end.

Definition cancelSignal (p : nat) (signum : Z) : K unit :=
  when ((0 <=? signum) && (signum <=? 31))
    (pmod p (fun q => set_pending (Z.lxor (pending q) (bit signum)) q)).

(** [fuel] bounds the number of times the stopped process is scheduled. *)
Fixpoint handle_SIGSTOP (fuel : nat) (curproc : nat) : K unit :=
  match fuel with
  | O => fun _ _ => OutOfFuel
  | S n =>
      let* p := gets (pget curproc) in
      if negb (hasSignal p SIGCONT) && negb (hasSignal p SIGKILL)
      then yield curproc ;;; handle_SIGSTOP n curproc
      else ret tt
  end.

Definition handle_SIGKILL (curproc : nat) : K unit :=
  pmod curproc (set_killed 1) ;;;
  let* p := gets (pget curproc) in
  when (bool_decide (state p = SLEEPING)) (pmod curproc (set_state RUNNABLE)).

Definition handle_SIGCONT (curproc : nat) : K unit :=
  let* p := gets (pget curproc) in
  when (hasSignal p SIGSTOP) (cancelSignal curproc SIGSTOP) ;;;
  cancelSignal curproc SIGCONT.

(** [handlers[i]] of the process. *)
Definition handler (p : proc) (i : Z) : Z := aget 0 (handlers p) i.

(** A store to a user address. *)
Definition ustore (va w : Z) : K unit :=
  fun c k =>
    match vst32 kdata (k_mem (ks_km k)) (h_cr3 (ks_hw k)) va w with
    | Some m => Ret tt c (set_km (set_mem (fun _ => m) (ks_km k)) k)
    | None => Panic "trap"
    end.

(** Deliver signal [i] to its user handler: save the trap frame, push the
    sigret code, the signal number and the return address, and point eip at
    the handler. *)
Definition deliver (cur : nat) (i : Z) : K unit :=
  let* p := gets (pget cur) in
  let t := tf p in
  kmemmove kdata (trap_backup p) t TF_SIZE ;;;
  let handler_pointer := handler p i in
  let sigret_size := u32 (end_sigret_syscall - call_sigret_syscall) in
  let* esp := kload (t + TF_ESP) in
  kstore (t + TF_ESP) (u32 (esp - sigret_size)) ;;;
  let* injected_pointer := kload (t + TF_ESP) in
  let* esp := kload (t + TF_ESP) in
  kmemmove kdata esp call_sigret_syscall sigret_size ;;;
  let* esp := kload (t + TF_ESP) in
  kstore (t + TF_ESP) (u32 (esp - 4)) ;;;
  let* esp := kload (t + TF_ESP) in
  ustore esp i ;;;
  kstore (t + TF_EIP) handler_pointer ;;;
  let* esp := kload (t + TF_ESP) in
  kstore (t + TF_ESP) (u32 (esp - 4)) ;;;
  let* esp := kload (t + TF_ESP) in
  ustore esp injected_pointer ;;;
  cancelSignal cur i.

(** The first [switch]: signals that take the kernel's default handling. *)
Definition default_handling (fuel cur : nat) (i : Z) : K unit :=
  let* p := gets (pget cur) in
  let h := handler p i in
  if i =? SIGKILL then when ((h =? SIG_DFL) || (h =? SIGKILL)) (handle_SIGKILL cur)
  else if i =? SIGCONT then when ((h =? SIG_DFL) || (h =? SIGCONT)) (handle_SIGCONT cur)
  else if i =? SIGSTOP then when ((h =? SIG_DFL) || (h =? SIGSTOP)) (handle_SIGSTOP fuel cur)
  else when (h =? SIG_DFL) (handle_SIGKILL cur).

(** The code after it; [true] when the function returns. *)
Definition custom_handling (fuel cur : nat) (i : Z) : K bool :=
  let* p := gets (pget cur) in
  let h := handler p i in
  if h =? SIG_IGN then cancelSignal cur i ;;; ret false
  else if negb (h =? SIG_DFL) then
    if h =? SIGKILL then handle_SIGKILL cur ;;; ret false
    else if h =? SIGCONT then handle_SIGCONT cur ;;; ret false
    else if h =? SIGSTOP then handle_SIGSTOP fuel cur ;;; ret false
    else deliver cur i ;;; ret true
  else ret false.

(** One iteration of the loop over the signals. *)
Definition check_one (fuel cur : nat) (i : Z) : K (option unit) :=
  let* p := gets (pget cur) in
  let* b := isBlocked (Some cur) i in
  if negb (hasSignal p i && negb b) then ret None
  else
    pmod cur (fun q => set_mask_backup (mask q) q) ;;;
    pmod cur (set_mask 0) ;;;
    default_handling fuel cur i ;;;
    let* done := custom_handling fuel cur i in
    if done : bool then ret (Some tt)
    else pmod cur (fun q => set_mask (mask_backup q) q) ;;; ret None.

Definition check_kernel_sigs (fuel : nat) (me : option nat) : K unit :=
  match me with
  | None => ret tt
  | Some cur =>
      let* p := gets (pget cur) in
      if (mask p =? 0) || (pending p =? 0) then ret tt
      else forb (zrange 32) (check_one fuel cur) (ret tt)
  end.

(** * Delivery *)

Variable kend : Z.

Definition sigret_size : Z := u32 (end_sigret_syscall - call_sigret_syscall).
(** The user stack pointer in the trap frame of process [cur]. *)
Definition user_esp (k : kst F) (cur : nat) : Z := ld32 (kmemof k) (tf (pget cur k) + TF_ESP).

(** Process [cur] runs in the kernel, on its own stack and page table, and
    both the area [trap_backup] points at and the part of the user stack the
    handler's frame goes to can be written. *)
Record deliverable (k : kst F) (cur : nat) (l : list Z) : Prop := {
  dv_cur : is_Some (ptable k !! cur);
  dv_cr3 : h_cr3 (ks_hw k) = V2P (pgdir (pget cur k));
  dv_frame : frame kend (kmemof k) (pgdir (pget cur k)) l (kstack (pget cur k));
  dv_kstack : page_ok kend (kstack (pget cur k)) /\ kdata <= kstack (pget cur k);
  dv_tf : tf (pget cur k) = kstack (pget cur k) + KSTACKSIZE - TF_SIZE;
  dv_code : KERNBASE <= call_sigret_syscall /\
    call_sigret_syscall + sigret_size <= KERNBASE + PHYSTOP /\
    forall a, call_sigret_syscall <= a < call_sigret_syscall + sigret_size ->
      off_user (kmemof k) (pgdir (pget cur k)) a /\
      ~ kstack (pget cur k) <= a < kstack (pget cur k) + PGSIZE;
  dv_backup : writable (kmemof k) (pgdir (pget cur k)) (trap_backup (pget cur k)) TF_SIZE;
  dv_stack : writable (kmemof k) (pgdir (pget cur k)) (user_esp k cur - sigret_size - 8) (sigret_size + 8)
}.

(** User memory and the kernel stack page after delivery of signal [i] to
    handler [h]: the trap frame saved in [trap_backup]; the sigret code, the
    signal number and the return address on the user stack; esp and eip of the
    trap frame set. *)
Definition delivered_user (k : kst F) (cur : nat) (i : Z) : Z -> Z :=
  let p := pget cur k in
  let sp := user_esp k cur - sigret_size in
  over (sp - 8) (le_bytes 4 sp)
    (over (sp - 4) (le_bytes 4 i)
      (over sp (lds (kmemof k) call_sigret_syscall (Z.to_nat sigret_size))
        (over (trap_backup p) (lds (kmemof k) (tf p) (Z.to_nat TF_SIZE)) (ub (kmemof k) (pgdir p))))).
Definition delivered_kstack (k : kst F) (cur : nat) (h : Z) : Z -> Z :=
  let t := tf (pget cur k) in
  over (t + TF_ESP) (le_bytes 4 (user_esp k cur - sigret_size - 8))
    (over (t + TF_EIP) (le_bytes 4 h) (ld (kmemof k))).

Lemma wp_ustore va w m (Q : unit -> ctx -> kst F -> Prop) c k :
  vst32 kdata (kmemof k) (h_cr3 (ks_hw k)) va w = Some m ->
  Q tt c (kwith m k) -> wp (ustore va w) Q c k.
Proof. intros E HQ. unfold wp, ustore. fold (kmemof k). now rewrite E. Qed.


Lemma wp_cancelSignal cur i (Q : unit -> ctx -> kst F -> Prop) c k :
  0 <= i <= 31 ->
  Q tt c (pset cur (fun q => set_pending (Z.lxor (pending q) (bit i)) q) k) ->
  wp (cancelSignal cur i) Q c k.
Proof.
  intros Hi HQ. unfold cancelSignal.
  destruct (Z.leb_spec 0 i), (Z.leb_spec i 31); try lia. cbn [andb when]. now apply wp_pmod.
Qed.

(** [tf->esp -= 4; *(int* )tf->esp = w;] followed by [rest]. *)
Lemma wp_push m pd l q u f m1 t e w rest (Q : unit -> ctx -> kst F -> Prop) c k :
  changed kend m pd l q u f m1 -> h_cr3 (ks_hw k) = V2P pd ->
  q <= t + TF_ESP -> t + TF_ESP + 4 <= q + PGSIZE ->
  w32 f (t + TF_ESP) = e -> writable m pd (e - 4) 4 ->
  (forall m2, changed kend m pd l q (over (e - 4) (le_bytes 4 w) u)
                (over (t + TF_ESP) (le_bytes 4 (e - 4)) f) m2 -> wp rest Q c (kwith m2 k)) ->
  wp (let* esp := kload (t + TF_ESP) in
      kstore (t + TF_ESP) (u32 (esp - 4)) ;;;
      let* esp := kload (t + TF_ESP) in
      ustore esp w ;;; rest) Q c (kwith m1 k).
Proof.
  intros C1 Hcr3 H0 H1 He Hw HQ. kst_steps. change (kmemof (kwith m1 k)) with m1.
  rewrite (changed_ld32 _ _ _ _ _ _ _ _ _ C1), He by lia. pose proof Hw as (Hw0 & Hw1 & _).
  rewrite u32_small by (unfold is_u32, KERNBASE in *; lia).
  set (m2 := st32 m1 (t + TF_ESP) (e - 4)).
  pose proof (changed_sts kend _ _ _ _ _ _ m1 (t + TF_ESP) (le_bytes 4 (e - 4)) C1 H0
    ltac:(rewrite length_le_bytes; lia)) as C2.
  fold (st32 m1 (t + TF_ESP) (e - 4)) in C2. fold m2 in C2.
  change (kmemof (kwith m2 (kwith m1 k))) with m2.
  rewrite (changed_ld32 _ _ _ _ _ _ _ _ _ C2), w32_over_eq by (unfold is_u32, KERNBASE in *; lia).
  destruct (changed_vst32 kend kdata _ _ _ _ _ _ m2 (e - 4) w C2 Hw) as (m3 & E3 & C3).
  eapply wp_ustore; [change (h_cr3 _) with (h_cr3 (ks_hw k)); rewrite Hcr3; exact E3|]. now apply HQ.
Qed.

(** Of the three writes to the esp field only the last one shows. *)
Lemma over_esp a b w1 w2 w3 h g v :
  length w1 = 4%nat -> length w2 = 4%nat -> length w3 = 4%nat -> length h = 4%nat ->
  b + Z.of_nat (length h) <= a ->
  over a w1 (over b h (over a w2 (over a w3 g))) v = over a w1 (over b h g) v.
Proof.
  intros L1 L2 L3 Lh Hab. unfold over. rewrite L1, L2, L3, Lh in *.
  destruct (withinP a (Z.of_nat 4) v); [done|]. now destruct (withinP b (Z.of_nat 4) v).
Qed.

Lemma wp_deliver cur i l (Q : unit -> ctx -> kst F -> Prop) c k :
  deliverable k cur l -> 0 <= i <= 31 -> is_u32 (handler (pget cur k) i) ->
  (forall m', changed kend (kmemof k) (pgdir (pget cur k)) l (kstack (pget cur k))
       (delivered_user k cur i) (delivered_kstack k cur (handler (pget cur k) i)) m' ->
     Q tt c (pset cur (fun q => set_pending (Z.lxor (pending q) (bit i)) q) (kwith m' k))) ->
  wp (deliver cur i) Q c k.
Proof.
  intros [Hcur Hcr3 Hfr (Hks & Hkd) Htf (Hc0 & Hc1 & Hcode) Hbk Hst] Hi Hh HQ.
  unfold delivered_user, delivered_kstack in HQ. revert HQ.
  unfold user_esp in *. set (p := pget cur k) in *. set (t := tf p) in *. set (m := kmemof k) in *.
  set (esp := ld32 m (t + TF_ESP)) in *. set (sz := sigret_size) in *.
  intros HQ. unfold deliver. fold p. kst_steps. fold p t.
  change (u32 (end_sigret_syscall - call_sigret_syscall)) with sz.
  assert (Hszu : is_u32 sz) by apply u32_range.
  pose proof Hst as (Hs0 & Hs1 & _). destruct Hks as (Hka & _ & Hkb & Hkp).
  assert (Hoff : forall a, kstack p <= a < kstack p + PGSIZE -> off_user m (pgdir p) a) by apply Hfr.
  pose proof (changed_refl kend m (pgdir p) l (kstack p) Hfr) as C0.
  assert (Ht0 : kstack p <= t) by (unfold KSTACKSIZE, TF_SIZE in Htf; lia).
  assert (Ht1 : t + TF_SIZE = kstack p + PGSIZE) by (unfold KSTACKSIZE, PGSIZE in *; lia).
  assert (Hl : forall w, length (le_bytes 4 w) = 4%nat) by apply length_le_bytes.
  (* the trap frame is saved *)
  destruct (changed_memmove kend kdata _ _ _ _ _ _ m (trap_backup p) t TF_SIZE C0) as (m1 & E1 & C1);
    [done|done|lia|lia|intros a Ha; apply Hoff; lia|].
  eapply wp_kmemmove; [rewrite Hcr3; exact E1|]. kst_steps.
  change (kmemof (kwith m1 k)) with m1.
  rewrite (changed_ld32 _ _ _ _ _ _ _ _ _ C1), w32_ld by (unfold TF_ESP, TF_SIZE in *; lia). fold esp.
  rewrite (u32_small (esp - sz)) by (unfold is_u32, KERNBASE in *; lia).
  match goal with |- context [kwith (st32 m1 ?a ?w) _] => set (m2 := st32 m1 a w) end.
  assert (B : kstack p <= t + TF_ESP /\ t + TF_ESP + 4 <= kstack p + PGSIZE /\
              kstack p <= t + TF_EIP /\ t + TF_EIP + 4 <= kstack p + PGSIZE)
    by (unfold TF_ESP, TF_EIP, TF_SIZE in *; lia).
  destruct B as (B1 & B2 & B3 & B4).
  (* the code of the sigret call is pushed *)
  pose proof (changed_sts kend _ _ _ _ _ _ m1 (t + TF_ESP) (le_bytes 4 (esp - sz)) C1 B1 ltac:(rewrite Hl; lia)) as C2.
  fold (st32 m1 (t + TF_ESP) (esp - sz)) in C2. fold m2 in C2.
  assert (Hu : forall x, 0 <= x <= 8 -> is_u32 (esp - sz - x)) by (intros; unfold is_u32, KERNBASE in *; lia).
  assert (E2 : ld32 m2 (t + TF_ESP) = esp - sz).
  { rewrite (changed_ld32 _ _ _ _ _ _ _ _ _ C2) by lia. apply w32_over_eq.
    rewrite <- (Z.sub_0_r (esp - sz)). apply Hu. lia. }
  change (kmemof (kwith m2 (kwith m1 k))) with m2. rewrite E2.
  destruct (writable_split _ _ _ _ 8 Hst) as [Hst8 Hcodew]; [unfold is_u32 in Hszu; lia|].
  replace (esp - sz - 8 + 8) with (esp - sz) in Hcodew by lia.
  replace (sz + 8 - 8) with sz in Hcodew by lia.
  destruct (changed_memmove kend kdata _ _ _ _ _ _ m2 (esp - sz) call_sigret_syscall sz C2) as (m3 & E3 & C3);
    [done|unfold is_u32 in Hszu; lia|lia|lia|intros a Ha; now apply Hcode|].
  assert (El : lds m2 call_sigret_syscall (Z.to_nat sz) = lds m call_sigret_syscall (Z.to_nat sz)).
  { apply lds_ext. intros j Hj. apply (ch_other _ _ _ _ _ _ _ _ C2); apply Hcode; lia. }
  rewrite El in C3. eapply wp_kmemmove; [change (h_cr3 _) with (h_cr3 (ks_hw k)); rewrite Hcr3; exact E3|].
  (* the signal number, the handler's address, and the return address *)
  assert (Hw4 : forall x, x = 4 \/ x = 8 -> writable m (pgdir p) (esp - sz - x) 4).
  { intros x Hx. destruct (writable_split _ _ _ _ 4 Hst8) as [W1 W2]; [lia|].
    replace (esp - sz - 8 + 4) with (esp - sz - 4) in W2 by lia. destruct Hx as [->| ->]; done. }
  change (kwith m3 (kwith m2 (kwith m1 k))) with (kwith m3 k).
  apply (wp_push _ _ _ _ _ _ m3 t (esp - sz) i _ _ _ _ C3); auto.
  { apply w32_over_eq. rewrite <- (Z.sub_0_r (esp - sz)). apply Hu. lia. }
  intros m5 C5. apply wp_bind, wp_kstore.
  pose proof (changed_sts kend _ _ _ _ _ _ m5 (t + TF_EIP) (le_bytes 4 (handler p i)) C5 B3 ltac:(rewrite Hl; lia)) as C6.
  change (kwith (st32 (kmemof (kwith m5 k)) (t + TF_EIP) (handler p i)) (kwith m5 k))
    with (kwith (sts m5 (t + TF_EIP) (le_bytes 4 (handler p i))) k).
  apply (wp_push _ _ _ _ _ _ _ t (esp - sz - 4) (esp - sz) _ _ _ _ C6); auto.
  { rewrite w32_over_ne by (rewrite Hl; unfold TF_EIP, TF_ESP; lia). apply w32_over_eq, Hu. lia. }
  { replace (esp - sz - 4 - 4) with (esp - sz - 8) by lia. auto. }
  intros m8 C8. replace (esp - sz - 4 - 4) with (esp - sz - 8) in C8 by lia.
  apply wp_cancelSignal; [done|]. apply HQ. eapply changed_ext; [exact C8|done|].
  intros a. apply over_esp; [apply Hl..|unfold TF_EIP, TF_ESP; rewrite Hl; lia].
Qed.


(** * What one signal does to the process *)

(** Signal [i] has arrived and is not masked out. *)
Definition active (p : proc) (i : Z) : bool := hasSignal p i && (0 <? Z.land (mask p) (bit i)).

(** The process may leave [handle_SIGSTOP]. *)
Definition may_run (p : proc) : bool := hasSignal p SIGCONT || hasSignal p SIGKILL.
Definition awake (cur : nat) (k : kst F) : bool := may_run (pget cur k).

(** The process after [handle_SIGCONT], which toggles the bit of SIGCONT. *)
Definition continued (p : proc) : proc :=
  set_pending (Z.lxor (if hasSignal p SIGSTOP then Z.lxor (pending p) (bit SIGSTOP) else pending p)
                 (bit SIGCONT)) p.

(** How the loop goes on after a signal: with the next one, into the user
    handler of signal [i], or waiting in [handle_SIGSTOP] because of signal [i]. *)
Inductive verdict : Type :=
| Through
| Handler (i : Z)
| Stopped (i : Z).

(** The action [h] for signal [i] is to stop. *)
Definition stops (h i : Z) : bool := (h =? SIGSTOP) || (i =? SIGSTOP) && (h =? SIG_DFL).

(** The process after the iteration for signal [i], or at the point where it
    enters its user handler or waits. *)
Definition sig_step (p : proc) (i : Z) : proc * verdict :=
  if active p i then
    let h := handler p i in
    let q := set_mask_backup (mask p) p in
    if stops h i then if may_run p then (q, Through) else (set_mask 0 q, Stopped i)
    else if h =? SIG_IGN then (set_pending (Z.lxor (pending p) (bit i)) q, Through)
    else if h =? SIG_DFL then if i =? SIGCONT then (continued q, Through) else (set_killed 1 q, Through)
    else if h =? SIGKILL then (set_killed 1 q, Through)
    else if h =? SIGCONT then (if i =? SIGCONT then continued (continued q) else continued q, Through)
    else (set_mask 0 (set_pending (Z.lxor (pending p) (bit i)) q), Handler i)
  else (p, Through).

Ltac at_proc := rewrite ?pset_with, ?pget_with by done.
Ltac sig_steps := repeat (kst_step; cbn [held woken]; at_proc).

Lemma wp_handle_SIGKILL cur p (Q : unit -> ctx -> kst F -> Prop) c k :
  is_Some (ptable k !! cur) -> state p <> SLEEPING ->
  Q tt c (with_proc cur (set_killed 1 p) k) -> wp (handle_SIGKILL cur) Q c (with_proc cur p k).
Proof.
  intros Hc Hs HQ. unfold handle_SIGKILL. sig_steps.
  rewrite bool_decide_eq_false_2 by (destruct p; exact Hs). now apply wp_ret.
Qed.

Lemma wp_cancel cur i p (Q : unit -> ctx -> kst F -> Prop) c k :
  0 <= i <= 31 -> Q tt c (with_proc cur (set_pending (Z.lxor (pending p) (bit i)) p) k) ->
  wp (cancelSignal cur i) Q c (with_proc cur p k).
Proof. intros Hi HQ. apply wp_cancelSignal; [done|]. at_proc. exact HQ. Qed.

Lemma wp_handle_SIGCONT cur p (Q : unit -> ctx -> kst F -> Prop) c k :
  is_Some (ptable k !! cur) ->
  Q tt c (with_proc cur (continued p) k) -> wp (handle_SIGCONT cur) Q c (with_proc cur p k).
Proof.
  intros Hc HQ. unfold continued in HQ. unfold handle_SIGCONT. kst_steps. at_proc. destruct (hasSignal p SIGSTOP).
  - apply wp_cancel; [done|]. apply wp_cancel; [done|]. destruct p; exact HQ.
  - apply wp_ret. apply wp_cancel; [done|exact HQ].
Qed.

(** A process with SIGCONT or SIGKILL pending does not wait. *)
Lemma wp_handle_SIGSTOP n cur (Q : unit -> ctx -> kst F -> Prop) c k :
  awake cur k = true -> Q tt c k -> wp (handle_SIGSTOP (S n) cur) Q c k.
Proof.
  intros Ha HQ. cbn [handle_SIGSTOP]. kst_steps. rewrite <- negb_orb. unfold awake, may_run in Ha. rewrite Ha.
  now apply wp_ret.
Qed.

(** Delivery depends on these fields of the process only. *)
Definition same_frame (p q : proc) : Prop :=
  tf p = tf q /\ trap_backup p = trap_backup q /\ pgdir p = pgdir q /\ kstack p = kstack q.

Lemma deliverable_proc cur l p q k :
  is_Some (ptable k !! cur) -> same_frame p q ->
  deliverable (with_proc cur p k) cur l -> deliverable (with_proc cur q k) cur l.
Proof.
  intros Hc (E1 & E2 & E3 & E4) [H1 H2 H3 H4 H5 H6 H7 H8]. unfold user_esp in H8.
  rewrite pget_with in H2, H3, H4, H5, H6, H7, H8 by done. rewrite E1, E2, E3, E4 in *.
  split; unfold user_esp; rewrite ?pget_with by done; auto.
  rewrite with_lookup by done. eauto.
Qed.

Lemma delivered_proc cur p q k i h :
  is_Some (ptable k !! cur) -> same_frame p q ->
  delivered_user (with_proc cur p k) cur i = delivered_user (with_proc cur q k) cur i /\
  delivered_kstack (with_proc cur p k) cur h = delivered_kstack (with_proc cur q k) cur h.
Proof.
  intros Hc (E1 & E2 & E3 & E4). unfold delivered_user, delivered_kstack, user_esp.
  rewrite !pget_with by done. now rewrite E1, E2, E3.
Qed.

(** The process a delivery leaves behind in memory [m']. *)
Definition delivered (k : kst F) (cur : nat) (l : list Z) (i : Z) (m' : mem) : Prop :=
  changed kend (kmemof k) (pgdir (pget cur k)) l (kstack (pget cur k))
    (delivered_user k cur i) (delivered_kstack k cur (handler (pget cur k) i)) m'.

(** The default switch on a signal that does not stop the process. *)
Lemma wp_default_handling fuel cur i p (Q : unit -> ctx -> kst F -> Prop) c k :
  is_Some (ptable k !! cur) -> state p <> SLEEPING -> stops (handler p i) i = false ->
  Q tt c (with_proc cur
    (if (i =? SIGCONT) && ((handler p i =? SIG_DFL) || (handler p i =? SIGCONT)) then continued p
     else if (handler p i =? SIG_DFL) || (i =? SIGKILL) && (handler p i =? SIGKILL) then set_killed 1 p
     else p) k) ->
  wp (default_handling fuel cur i) Q c (with_proc cur p k).
Proof.
  intros Hc Hs Hst HQ. unfold stops in Hst. apply orb_false_iff in Hst as [S1 S2].
  unfold default_handling. sig_steps. unfold when. cbn zeta.
  destruct (Z.eqb_spec i SIGKILL) as [->|Hk].
  { change (SIGKILL =? SIGCONT) with false in HQ. cbn [andb orb] in HQ.
    destruct (_ || _); [now apply wp_handle_SIGKILL|now apply wp_ret]. }
  destruct (Z.eqb_spec i SIGCONT) as [->|Hco].
  { cbn [andb orb] in HQ. destruct (handler p SIGCONT =? SIG_DFL); cbn [orb andb] in *;
      [|destruct (handler p SIGCONT =? SIGCONT)];
      first [now apply wp_handle_SIGCONT|now apply wp_ret]. }
  cbn [andb orb] in HQ. rewrite orb_false_r in HQ. destruct (Z.eqb_spec i SIGSTOP) as [->|Hp].
  { cbn [andb] in S2. rewrite S1, S2 in *. now apply wp_ret. }
  destruct (handler p i =? SIG_DFL); [now apply wp_handle_SIGKILL|now apply wp_ret].
Qed.

(** The code after it, on a signal without a user handler. *)
Definition custom_proc (p : proc) (i : Z) : proc :=
  let h := handler p i in
  if h =? SIG_IGN then set_pending (Z.lxor (pending p) (bit i)) p
  else if h =? SIGKILL then set_killed 1 p
  else if h =? SIGCONT then continued p
  else p.

Lemma wp_custom_handling fuel cur i p (Q : bool -> ctx -> kst F -> Prop) c k :
  is_Some (ptable k !! cur) -> 0 <= i <= 31 -> state p <> SLEEPING -> handler p i <> SIGSTOP ->
  handler p i ∈ [SIG_IGN; SIG_DFL; SIGKILL; SIGCONT] ->
  Q false c (with_proc cur (custom_proc p i) k) ->
  wp (custom_handling fuel cur i) Q c (with_proc cur p k).
Proof.
  intros Hc Hi Hs Hst Hin HQ. unfold custom_handling, custom_proc in *. sig_steps. cbn zeta in *.
  destruct (Z.eqb_spec (handler p i) SIG_IGN) as [E|E1]; [apply wp_bind, wp_cancel; [done|]; now apply wp_ret|].
  destruct (Z.eqb_spec (handler p i) SIG_DFL) as [E|E2]; cbn [negb].
  { rewrite E in HQ. now apply wp_ret. }
  destruct (Z.eqb_spec (handler p i) SIGKILL) as [E|E3];
    [apply wp_bind, wp_handle_SIGKILL; [done..|]; now apply wp_ret|].
  destruct (Z.eqb_spec (handler p i) SIGCONT) as [E|E4];
    [apply wp_bind, wp_handle_SIGCONT; [done..|]; now apply wp_ret|].
  exfalso. set_solver.
Qed.

(** One iteration on a pending and unmasked signal: the mask is saved and set to
    0 around the handling. *)
Lemma wp_check_active fuel cur i p (Q : option unit -> ctx -> kst F -> Prop) c k :
  is_Some (ptable k !! cur) -> active p i = true ->
  wp (default_handling fuel cur i)
    (fun _ => wp (custom_handling fuel cur i)
       (fun done c' k' => if done : bool then Q (Some tt) c' k'
          else Q None c' (pset cur (fun q => set_mask (mask_backup q) q) k'))) c
    (with_proc cur (set_mask 0 (set_mask_backup (mask p) p)) k) ->
  wp (check_one fuel cur i) Q c (with_proc cur p k).
Proof.
  intros Hc Ha HQ. unfold check_one, isBlocked. sig_steps. rewrite negb_involutive. fold (active p i). rewrite Ha.
  cbn [negb]. sig_steps. eapply wp_mono; [exact HQ|]. cbn. intros [] c1 k1 H1.
  apply wp_bind. eapply wp_mono; [exact H1|]. cbn. intros [] c2 k2 H2; [now apply wp_ret|]. kst_steps. exact H2.
Qed.

(** A signal that stops the process while SIGCONT or SIGKILL is pending. *)
Lemma wp_check_awake n cur i p (Q : option unit -> ctx -> kst F -> Prop) c k :
  is_Some (ptable k !! cur) -> active p i = true -> stops (handler p i) i = true -> may_run p = true ->
  Q None c (with_proc cur (set_mask_backup (mask p) p) k) ->
  wp (check_one (S n) cur i) Q c (with_proc cur p k).
Proof.
  intros Hc Ha Hs Hm HQ. apply wp_check_active; [done|done|].
  set (p1 := set_mask 0 (set_mask_backup (mask p) p)).
  assert (Eh : handler p1 i = handler p i) by done.
  assert (Haw : awake cur (with_proc cur p1 k) = true) by (unfold awake; at_proc; exact Hm).
  assert (E1 : pset cur (fun q => set_mask (mask_backup q) q) (with_proc cur p1 k) =
    with_proc cur (set_mask_backup (mask p) p) k) by (at_proc; f_equal; unfold p1; now destruct p).
  assert (Hcu : wp (custom_handling (S n) cur i)
    (fun done c' k' => if done : bool then Q (Some tt) c' k'
          else Q None c' (pset cur (fun q => set_mask (mask_backup q) q) k')) c (with_proc cur p1 k)).
  { unfold custom_handling. sig_steps. rewrite Eh. unfold stops in Hs. cbn zeta.
    destruct (Z.eqb_spec (handler p i) SIGSTOP) as [->|Hn].
    - cbn [Z.eqb negb orb]. apply wp_bind, wp_handle_SIGSTOP; [done|]. apply wp_ret. now rewrite E1.
    - cbn [orb] in Hs. apply andb_true_iff in Hs as [_ ->%Z.eqb_eq]. apply wp_ret. now rewrite E1. }
  unfold default_handling. sig_steps. rewrite Eh. unfold when. cbn zeta.
  unfold stops in Hs. destruct (Z.eqb_spec i SIGSTOP) as [->|Hi].
  - change (SIGSTOP =? SIGKILL) with false. change (SIGSTOP =? SIGCONT) with false. cbn match.
    match goal with |- wp (if ?b then _ else _) _ _ _ => destruct b end; [now apply wp_handle_SIGSTOP|now apply wp_ret].
  - cbn [andb] in Hs. rewrite orb_false_r in Hs. apply Z.eqb_eq in Hs. rewrite Hs. cbn [Z.eqb orb].
    change (SIGSTOP =? SIG_DFL) with false. change (SIGSTOP =? SIGKILL) with false. change (SIGSTOP =? SIGCONT) with false.
    cbn [orb]. destruct (i =? SIGKILL), (i =? SIGCONT); now apply wp_ret.
Qed.

(** A signal whose action the kernel takes at once. *)
Lemma wp_check_taken fuel cur i p (Q : option unit -> ctx -> kst F -> Prop) c k :
  is_Some (ptable k !! cur) -> 0 <= i <= 31 -> state p <> SLEEPING -> active p i = true ->
  stops (handler p i) i = false -> handler p i ∈ [SIG_IGN; SIG_DFL; SIGKILL; SIGCONT] ->
  Q None c (with_proc cur (sig_step p i).1 k) ->
  wp (check_one fuel cur i) Q c (with_proc cur p k).
Proof.
  intros Hc Hi Hs Ha Hst Hin HQ. apply wp_check_active; [done|done|].
  set (p1 := set_mask 0 (set_mask_backup (mask p) p)).
  assert (Eh : handler p1 i = handler p i) by done.
  assert (Hns : handler p i <> SIGSTOP).
  { unfold stops in Hst. apply orb_false_iff in Hst as [?%Z.eqb_neq _]. done. }
  apply wp_default_handling; [done|done|done|]. rewrite Eh.
  match goal with |- context [with_proc cur ?q k] => set (p2 := q) end.
  assert (Eh2 : handler p2 i = handler p i) by (unfold p2; repeat case_match; done).
  apply wp_custom_handling; [done|done|unfold p2; repeat case_match; done|now rewrite Eh2|now rewrite Eh2|].
  at_proc. replace (set_mask _ _) with (sig_step p i).1; [exact HQ|].
  unfold sig_step, custom_proc. rewrite Ha, Hst, Eh2. unfold p2. clear HQ p2 Eh2 Eh Ha Hst.
  set_unfold. destruct Hin as [E|[E|[E|[E|[]]]]]; rewrite E;
    destruct (i =? SIGCONT), (i =? SIGKILL); now destruct p.
Qed.

(** A signal with a user handler. *)
Lemma wp_check_handler fuel cur i l p (Q : option unit -> ctx -> kst F -> Prop) c k :
  is_Some (ptable k !! cur) -> 0 <= i <= 31 -> is_u32 (handler p i) -> active p i = true ->
  handler p i ∉ [SIG_IGN; SIG_DFL; SIGKILL; SIGCONT; SIGSTOP] ->
  state p <> SLEEPING -> deliverable (with_proc cur p k) cur l ->
  (forall m', delivered (with_proc cur p k) cur l i m' ->
     Q (Some tt) c (with_proc cur (set_mask 0 (set_pending (Z.lxor (pending p) (bit i)) (set_mask_backup (mask p) p)))
                     (kwith m' k))) ->
  wp (check_one fuel cur i) Q c (with_proc cur p k).
Proof.
  intros Hc Hi Hh Ha Hin Hs Hdv HQ. apply wp_check_active; [done|done|].
  set (p1 := set_mask 0 (set_mask_backup (mask p) p)).
  assert (Eh : handler p1 i = handler p i) by done.
  assert (Hne : forall x, x ∈ [SIG_IGN; SIG_DFL; SIGKILL; SIGCONT; SIGSTOP] -> (handler p i =? x) = false).
  { intros x Hx. apply Z.eqb_neq. intros E. apply Hin. now rewrite E. }
  apply wp_default_handling; [done|done| |].
  { rewrite Eh. unfold stops. rewrite !Hne by set_solver. now rewrite andb_false_r. }
  rewrite Eh, !Hne by set_solver. rewrite !andb_false_r. cbn [orb].
  unfold custom_handling. sig_steps. cbn zeta. rewrite Eh, !Hne by set_solver. cbn [negb].
  assert (Hsf : same_frame p p1) by done. apply wp_bind, (wp_deliver _ _ l); [|done|now rewrite pget_with|].
  { eapply deliverable_proc; [done|exact Hsf|done]. }
  intros m' Hch. destruct (delivered_proc cur p p1 k i (handler p i) Hc Hsf) as [Eu Ek].
  sig_steps. change (kwith m' (with_proc cur p1 k)) with (with_proc cur p1 (kwith m' k)).
  at_proc. apply HQ. unfold delivered. rewrite !pget_with in * by done. now rewrite Eu, Ek.
Qed.

(** One iteration that does not wait. *)
Lemma wp_check_one n cur i l p (Q : option unit -> ctx -> kst F -> Prop) c k :
  is_Some (ptable k !! cur) -> 0 <= i <= 31 -> state p <> SLEEPING -> is_u32 (handler p i) ->
  ((sig_step p i).2 = Handler i -> deliverable (with_proc cur p k) cur l) ->
  (sig_step p i).2 <> Stopped i ->
  ((sig_step p i).2 = Through -> Q None c (with_proc cur (sig_step p i).1 k)) ->
  (forall m', (sig_step p i).2 = Handler i -> delivered (with_proc cur p k) cur l i m' ->
     Q (Some tt) c (with_proc cur (sig_step p i).1 (kwith m' k))) ->
  wp (check_one (S n) cur i) Q c (with_proc cur p k).
Proof.
  intros Hc Hi Hs Hh Hdv Hns H0 H1. destruct (active p i) eqn:Ha.
  2:{ unfold sig_step in *. rewrite Ha in *. unfold check_one, isBlocked. sig_steps.
      rewrite negb_involutive. fold (active p i). rewrite Ha. now apply wp_ret, H0. }
  destruct (stops (handler p i) i) eqn:Hst.
  { unfold sig_step in *. rewrite Ha, Hst in *. cbn zeta in *. destruct (may_run p) eqn:Hm; [|done].
    apply wp_check_awake; auto. }
  destruct (decide (handler p i ∈ [SIG_IGN; SIG_DFL; SIGKILL; SIGCONT])) as [Hin|Hout].
  { apply wp_check_taken; try done. apply H0. unfold sig_step. rewrite Ha, Hst. clear -Hin.
    set_unfold. destruct Hin as [->|[->|[->|[->|[]]]]]; cbn; try done. now destruct (i =? SIGCONT). }
  assert (E : sig_step p i =
    (set_mask 0 (set_pending (Z.lxor (pending p) (bit i)) (set_mask_backup (mask p) p)), Handler i)).
  { unfold sig_step. rewrite Ha, Hst. cbn zeta. set_unfold.
    rewrite !(proj2 (Z.eqb_neq (handler p i) _)) by tauto. done. }
  rewrite E in *. cbn [fst snd] in *.
  apply (wp_check_handler _ _ _ l); auto.
  unfold stops in Hst. apply orb_false_iff in Hst as [?%Z.eqb_neq _]. set_unfold. tauto.
Qed.

(** ** Waiting *)

Ltac stop_consts :=
  change (SIGSTOP =? SIG_IGN) with false; change (SIGSTOP =? SIG_DFL) with false;
  change (SIGSTOP =? SIGKILL) with false; change (SIGSTOP =? SIGCONT) with false;
  change (SIGSTOP =? SIGSTOP) with true; cbn match.

(** What a stopped process does, in state [k] and in the states it is scheduled
    in: it gives up the CPU, runnable and with no lock; scheduled with neither
    SIGCONT nor SIGKILL pending it gives it up again; and the first time it is
    scheduled with one of them pending, in a state [k'] with [P k'], it goes on
    as [g k'].  This holds for [n] times. *)
Inductive waits {B} (cur : nat) (P : kst F -> Prop) (g : kst F -> outcome (kst F) B) :
  nat -> kst F -> outcome (kst F) B -> Prop :=
| waits_O k o : waits cur P g 0 k o
| waits_S n k ch res :
    (forall k', is_Some (ptable k' !! cur) -> awake cur k' = true -> P k' -> res k' = g k') ->
    (forall k', is_Some (ptable k' !! cur) -> awake cur k' = false -> waits cur P g n k' (res k')) ->
    waits cur P g (S n) k (Sleep ch [] (pset cur (set_state RUNNABLE) k) res).

Lemma yield_switches cur w (k : kst F) :
  is_Some (ptable k !! cur) ->
  yield cur (Ctx [] w) k =
  Sleep (p_chan (pget cur k)) [] (pset cur (set_state RUNNABLE) k) (fun k' => Ret tt (Ctx [] []) k').
Proof.
  intros [p Hp]. unfold yield, bind, acquire. rewrite decide_False by (cbn; set_solver). cbn [obind].
  unfold pmod, modify. cbn [obind]. unfold sched.
  rewrite bool_decide_eq_true_2 by (cbn; set_solver). rewrite bool_decide_eq_true_2 by done. cbn [negb].
  rewrite (pget_pset_eq _ _ _ p Hp). rewrite bool_decide_eq_false_2 by (now destruct p). cbn [obind].
  rewrite (pget_lookup _ _ p Hp). now destruct p.
Qed.

Lemma handle_SIGSTOP_step n cur w (k : kst F) :
  is_Some (ptable k !! cur) ->
  handle_SIGSTOP (S n) cur (Ctx [] w) k =
  if awake cur k then Ret tt (Ctx [] w) k
  else Sleep (p_chan (pget cur k)) [] (pset cur (set_state RUNNABLE) k)
         (fun k' => handle_SIGSTOP n cur (Ctx [] []) k').
Proof.
  intros Hc. cbn [handle_SIGSTOP]. unfold bind at 1, gets. cbn [obind]. unfold awake, may_run. rewrite <- negb_orb.
  destruct (_ || _); [done|]. cbn [negb]. unfold bind. rewrite yield_switches by eauto. done.
Qed.

Lemma waits_handle_SIGSTOP cur n w k :
  is_Some (ptable k !! cur) -> awake cur k = false ->
  waits cur (fun _ => True) (fun k' => Ret tt (Ctx [] []) k') n k (handle_SIGSTOP (S n) cur (Ctx [] w) k).
Proof.
  revert w k. induction n as [|n IH]; intros w k Hc Ha; [apply waits_O|].
  rewrite handle_SIGSTOP_step, Ha by done. apply waits_S.
  - intros k' Hc' Ha' _. now rewrite handle_SIGSTOP_step, Ha'.
  - intros k' Hc' Ha'. now apply IH.
Qed.

Lemma waits_obind {A B} cur (P P' : kst F -> Prop) (g : kst F -> outcome (kst F) A) (g' : kst F -> outcome (kst F) B) f n k o :
  (forall k', is_Some (ptable k' !! cur) -> awake cur k' = true -> P' k' -> P k' /\ obind (g k') f = g' k') ->
  waits cur P g n k o -> waits cur P' g' n k (obind o f).
Proof.
  intros Hg Hw. induction Hw as [k o|n k ch res H1 H2 IH]; [apply waits_O|]. cbn [obind]. apply waits_S.
  - intros k' Hc Ha Hp. destruct (Hg k' Hc Ha Hp) as [Hp' <-]. now rewrite (H1 k' Hc Ha Hp').
  - exact IH.
Qed.

(** What follows the default switch, for a signal that stops the process, once
    the process may run. *)
Lemma stop_tail n cur i p (k : kst F) :
  is_Some (ptable k !! cur) -> awake cur k = true -> stops (handler p i) i = true ->
  handler (pget cur k) i = handler p i ->
  (let* done := custom_handling (S n) cur i in
   if done : bool then ret (Some tt) else pmod cur (fun q => set_mask (mask_backup q) q) ;;; ret None)
    (Ctx [] []) k = Ret None (Ctx [] []) (pset cur (fun q => set_mask (mask_backup q) q) k).
Proof.
  intros Hc Ha Hst Eh. unfold bind at 1, custom_handling. unfold bind at 1, gets at 1. cbn [obind]. rewrite Eh.
  cbn zeta. unfold stops in Hst. destruct (Z.eqb_spec (handler p i) SIGSTOP) as [->|_].
  - stop_consts. cbn [negb]. unfold bind at 1. rewrite handle_SIGSTOP_step, Ha by done. reflexivity.
  - cbn [orb] in Hst. apply andb_true_iff in Hst as [_ ->%Z.eqb_eq]. reflexivity.
Qed.

(** The iteration for a signal that makes the process wait, followed by [f]. *)
Lemma check_one_waits {B} n cur i p w (f : option unit -> K B) k :
  is_Some (ptable k !! cur) -> (sig_step p i).2 = Stopped i ->
  waits cur (fun k' => handler (pget cur k') i = handler p i)
    (fun k' => f None (Ctx [] []) (pset cur (fun q => set_mask (mask_backup q) q) k')) n
    (with_proc cur (sig_step p i).1 k) (bind (check_one (S n) cur i) f (Ctx [] w) (with_proc cur p k)).
Proof.
  intros Hc Hv. unfold sig_step in *. destruct (active p i) eqn:Ha; [|done].
  destruct (stops (handler p i) i) eqn:Hst; [|repeat case_match; done].
  destruct (may_run p) eqn:Hm; [done|]. clear Hv. cbn [fst].
  set (p1 := set_mask 0 (set_mask_backup (mask p) p)). set (k1 := with_proc cur p1 k).
  assert (Hp1 : pget cur k1 = p1) by (unfold k1; now rewrite pget_with).
  assert (Eh : handler p1 i = handler p i) by done.
  assert (Hc1 : is_Some (ptable k1 !! cur)) by (unfold k1; rewrite with_lookup by done; eauto).
  assert (Haw : awake cur k1 = false) by (unfold awake; rewrite Hp1; exact Hm).
  assert (E : check_one (S n) cur i (Ctx [] w) (with_proc cur p k) =
    obind (default_handling (S n) cur i (Ctx [] w) k1) (fun _ =>
      let* done := custom_handling (S n) cur i in
      if done : bool then ret (Some tt) else pmod cur (fun q => set_mask (mask_backup q) q) ;;; ret None)).
  { unfold check_one, isBlocked, bind at 1, gets at 1. cbn [obind]. unfold bind at 1 2, gets at 1. cbn [obind].
    rewrite pget_with by done. unfold ret at 1. cbn [obind]. rewrite negb_involutive. fold (active p i). rewrite Ha.
    cbn [negb]. unfold bind at 1, pmod at 1, modify at 1. cbn [obind]. unfold bind at 1, pmod at 1, modify at 1. cbn [obind].
    rewrite !pset_with. reflexivity. }
  pose (PH := fun k' : kst F => handler (pget cur k') i = handler p i).
  pose (G0 := fun k' : kst F => Ret false (Ctx [] []) k').
  pose (G := fun k' : kst F =>
    Ret (@None unit) (Ctx [] []) (pset cur (fun q => set_mask (mask_backup q) q) k')).
  unfold bind at 1. rewrite E. clear E. pose proof (waits_handle_SIGSTOP cur n w k1 Hc1 Haw) as Hw.
  unfold default_handling. unfold bind at 1, gets at 1. cbn [obind]. rewrite Hp1, Eh. cbn zeta. unfold when.
  destruct (Z.eqb_spec i SIGSTOP) as [->|Hi].
  - change (SIGSTOP =? SIGKILL) with false. change (SIGSTOP =? SIGCONT) with false. cbn match.
    replace ((handler p SIGSTOP =? SIG_DFL) || (handler p SIGSTOP =? SIGSTOP)) with true
      by (unfold stops in Hst; cbn [andb] in Hst; now rewrite orb_comm).
    eapply (waits_obind _ _ _ _ _ f); [|eapply (waits_obind _ _ PH _ G); [|exact Hw]].
    + intros k' Hc' Ha' Hp'. split; [exact Hp'|]. reflexivity.
    + intros k' Hc' Ha' Hp'. split; [done|]. cbn [obind]. now rewrite (stop_tail n cur SIGSTOP p).
  - assert (Hh : handler p i = SIGSTOP).
    { unfold stops in Hst. rewrite (proj2 (Z.eqb_neq i SIGSTOP)), andb_false_l, orb_false_r in Hst by done. now apply Z.eqb_eq. }
    rewrite Hh. stop_consts. cbn [orb].
    replace ((if i =? SIGKILL then _ else _) (Ctx [] w) k1) with (Ret tt (Ctx [] w) k1 : outcome (kst F) unit)
      by (now destruct (i =? SIGKILL), (i =? SIGCONT)).
    cbn [obind]. unfold bind at 1, custom_handling. unfold bind at 1, gets at 1. cbn [obind]. rewrite Hp1, Eh, Hh.
    cbn zeta. stop_consts. cbn [negb]. unfold bind at 1.
    eapply (waits_obind _ _ _ _ _ f); [|eapply (waits_obind _ _ PH _ G); [|eapply (waits_obind _ _ PH _ G0); [|exact Hw]]].
    + intros k' Hc' Ha' Hp'. split; [unfold PH; congruence|]. reflexivity.
    + intros k' Hc' Ha' Hp'. split; [exact Hp'|]. reflexivity.
    + intros k' Hc' Ha' Hp'. split; [done|]. reflexivity.
Qed.

(** * The whole scan *)

(** The loop over the signals [l]: the process it leaves, and how it ends. *)
Fixpoint sig_scan (l : list Z) (p : proc) : proc * verdict :=
  match l with
  | [] => (p, Through)
  | i :: l' =>
      match sig_step p i with
      | (p', Through) => sig_scan l' p'
      | r => r
      end
  end.

(** The fields that handling signals changes: pending, killed, mask and
    mask_backup. *)
Definition same_but_signals (p p' : proc) : Prop :=
  p' = set_pending (pending p') (set_killed (killed p') (set_mask (mask p') (set_mask_backup (mask_backup p') p))).

Lemma same_but_signals_trans p q r : same_but_signals p q -> same_but_signals q r -> same_but_signals p r.
Proof. unfold same_but_signals. destruct p, q, r. cbn. intros [=] [=]. subst. reflexivity. Qed.

Lemma same_but_signals_frame p q :
  same_but_signals p q -> same_frame p q /\ handlers q = handlers p /\ state q = state p.
Proof. unfold same_but_signals. destruct p, q. cbn. intros [=]. subst. done. Qed.

Lemma sig_step_same p i : same_but_signals p (sig_step p i).1.
Proof. unfold sig_step, continued. destruct p. repeat case_match; reflexivity. Qed.

(** The masks after a step. *)
Lemma sig_step_masks p i :
  mask (sig_step p i).1 = match (sig_step p i).2 with Through => mask p | _ => 0 end /\
  mask_backup (sig_step p i).1 = if active p i then mask p else mask_backup p.
Proof. unfold sig_step, continued. destruct (active p i); [|done]. cbn zeta. repeat case_match; done. Qed.

Lemma sig_step_verdict p i : (sig_step p i).2 = Through \/ (sig_step p i).2 = Handler i \/ (sig_step p i).2 = Stopped i.
Proof. unfold sig_step. cbn zeta. repeat case_match; auto. Qed.

Lemma sig_scan_same js p : same_but_signals p (sig_scan js p).1.
Proof.
  revert p. induction js as [|i js IH]; intros p; [now destruct p|]. cbn [sig_scan].
  pose proof (sig_step_same p i) as Hs. destruct (sig_step p i) as [p1 []]; cbn [fst] in *; try done.
  eapply same_but_signals_trans; [exact Hs|apply IH].
Qed.

(** The mask is saved as soon as a signal is handled; it is what it was unless
    the loop ends in a handler or waiting. *)
Lemma sig_scan_masks js p :
  mask (sig_scan js p).1 = match (sig_scan js p).2 with Through => mask p | _ => 0 end /\
  mask_backup (sig_scan js p).1 = if existsb (active p) js then mask p else mask_backup p.
Proof.
  revert p. induction js as [|i js IH]; intros p; [done|]. cbn [sig_scan existsb].
  destruct (sig_step_masks p i) as [M1 M2]. destruct (active p i) eqn:Ha; cbn [orb].
  - destruct (sig_step p i) as [p1 []]; cbn [fst snd] in *; try done.
    destruct (IH p1) as [-> ->]. rewrite M1, M2. now destruct (existsb _ _).
  - assert (E : sig_step p i = (p, Through)) by (unfold sig_step; now rewrite Ha).
    rewrite E. apply IH.
Qed.

(** A user handler starts for a signal that is active. *)
Lemma scan_handler_saves js p i : (sig_scan js p).2 = Handler i -> existsb (active p) js = true.
Proof.
  revert p. induction js as [|j js IH]; intros p; [done|]. cbn [sig_scan existsb].
  destruct (active p j) eqn:Ha; [done|]. unfold sig_step. rewrite Ha. apply IH.
Qed.

(** What the loop needs of the process: it does not sleep, and its handlers are
    words. *)
Record scan_ok (p : proc) : Prop := {
  so_state : state p <> SLEEPING;
  so_handlers i : is_u32 (handler p i)
}.

Lemma scan_ok_same p q : same_but_signals p q -> scan_ok p -> scan_ok q.
Proof.
  intros (_ & Eh & Es)%same_but_signals_frame [H1 H2]. split; [now rewrite Es|].
  intros i. unfold handler. rewrite Eh. apply H2.
Qed.

Lemma delivered_with cur l i m' p q k :
  is_Some (ptable k !! cur) -> same_frame p q -> handlers p = handlers q ->
  delivered (with_proc cur q k) cur l i m' -> delivered (with_proc cur p k) cur l i m'.
Proof.
  intros Hc Hf Eh. unfold delivered. destruct (delivered_proc cur p q k i (handler q i) Hc Hf) as [-> Ek].
  rewrite !pget_with by done. replace (handler p i) with (handler q i) by (unfold handler; now rewrite Eh).
  rewrite Ek. destruct Hf as (_ & _ & -> & ->). done.
Qed.

(** How the loop over the signals [js] ends. *)
Definition loop_ends (n cur : nat) (l js : list Z) (w : list chan) (p : proc) (k : kst F)
    (o : outcome (kst F) unit) : Prop :=
  let p' := (sig_scan js p).1 in
  match (sig_scan js p).2 with
  | Through => o = Ret tt (Ctx [] w) (with_proc cur p' k)
  | Handler i => exists m', delivered (with_proc cur p k) cur l i m' /\
      o = Ret tt (Ctx [] w) (with_proc cur p' (kwith m' k))
  | Stopped i => exists pre js', js = pre ++ i :: js' /\
      waits cur (fun k' => handler (pget cur k') i = handler p i)
        (fun k' => forb js' (check_one (S n) cur) (ret tt) (Ctx [] []) (pset cur (fun q => set_mask (mask_backup q) q) k'))
        n (with_proc cur p' k) o
  end.

(** The loop goes on with the next signal. *)
Lemma loop_ends_next n cur l i js w p p1 k o :
  is_Some (ptable k !! cur) -> sig_step p i = (p1, Through) ->
  loop_ends n cur l js w p1 k o -> loop_ends n cur l (i :: js) w p k o.
Proof.
  intros Hc E Hl. unfold loop_ends in *. cbn [sig_scan]. rewrite E.
  pose proof (sig_step_same p i) as Hs. rewrite E in Hs. apply same_but_signals_frame in Hs as (Hf & Eh & _).
  cbn [fst] in Hf, Eh. destruct (sig_scan js p1) as [p' [|j|j]]; cbn [fst snd] in *; [done| |].
  - destruct Hl as (m' & Hd & Ho). exists m'. split; [|done]. now apply (delivered_with _ _ _ _ _ p1).
  - destruct Hl as (pre & js' & -> & Hw). exists (i :: pre), js'. split; [done|].
    replace (handler p j) with (handler p1 j) by (unfold handler; now rewrite Eh). exact Hw.
Qed.

Lemma check_loop n cur l js w p k :
  is_Some (ptable k !! cur) -> Forall (fun i => 0 <= i <= 31) js -> scan_ok p ->
  (forall i, (sig_scan js p).2 = Handler i -> deliverable (with_proc cur p k) cur l) ->
  loop_ends n cur l js w p k (forb js (check_one (S n) cur) (ret tt) (Ctx [] w) (with_proc cur p k)).
Proof.
  intros Hc Hjs. revert p. induction Hjs as [|i js Hi Hjs IH]; intros p Hok Hdv; [done|].
  cbn [forb]. set (f := fun r : option unit => _). pose proof (sig_step_same p i) as Hs.
  destruct (sig_step_verdict p i) as [V|[V|V]].
  - destruct (sig_step p i) as [p1 v] eqn:E. cbn [fst snd] in *. subst v.
    pose proof (same_but_signals_frame _ _ Hs) as (Hf & _).
    destruct (wp_inv _ _ _ _ (wp_check_one n cur i l p (fun r c' k' => r = None /\ c' = Ctx [] w /\ k' = with_proc cur p1 k)
      (Ctx [] w) k Hc Hi (so_state _ Hok) (so_handlers _ Hok i)
      ltac:(rewrite E; done) ltac:(rewrite E; done) ltac:(rewrite E; done) ltac:(intros m'; rewrite E; done)))
      as (r & c' & k' & Ec & -> & -> & ->).
    apply (loop_ends_next _ _ _ _ _ _ _ p1); [done|done|]. unfold bind. rewrite Ec. cbn [obind f].
    apply IH; [now apply (scan_ok_same p)|]. intros j Hj. eapply deliverable_proc; [done|exact Hf|].
    apply (Hdv j). cbn [sig_scan]. now rewrite E.
  - assert (Es : sig_scan (i :: js) p = sig_step p i).
    { cbn [sig_scan]. destruct (sig_step p i) as [p1 []]; done. }
    unfold loop_ends. rewrite Es, V in *.
    destruct (wp_inv _ _ _ _ (wp_check_one n cur i l p (fun r c' k' => r = Some tt /\ c' = Ctx [] w /\
        exists m', delivered (with_proc cur p k) cur l i m' /\ k' = with_proc cur (sig_step p i).1 (kwith m' k))
      (Ctx [] w) k Hc Hi (so_state _ Hok) (so_handlers _ Hok i)
      (fun _ => Hdv i eq_refl) ltac:(rewrite V; done) ltac:(rewrite V; done)
      (fun m' _ Hd => conj eq_refl (conj eq_refl (ex_intro _ m' (conj Hd eq_refl))))))
      as (r & c' & k' & Ec & -> & -> & m' & Hd & ->).
    exists m'. split; [done|]. unfold bind. rewrite Ec. reflexivity.
  - assert (Es : sig_scan (i :: js) p = sig_step p i).
    { cbn [sig_scan]. destruct (sig_step p i) as [p1 []]; done. }
    unfold loop_ends. rewrite Es, V in *. exists [], js. split; [done|]. exact (check_one_waits n cur i p w f k Hc V).
Qed.

(** ** The sets of signals *)

(** The signals whose bit is set in a word. *)
Definition sigset (w : Z) : gset Z := list_to_set (filter (fun i => Z.testbit w i = true) (zrange 32)).

Lemma elem_of_sigset w i : i ∈ sigset w <-> 0 <= i < 32 /\ Z.testbit w i = true.
Proof.
  unfold sigset. rewrite elem_of_list_to_set, list_elem_of_filter, elem_of_zrange.
  change (Z.of_nat 32) with 32. tauto.
Qed.

Definition toggle (x : Z) (X : gset Z) : gset Z := if decide (x ∈ X) then X ∖ {[x]} else {[x]} ∪ X.

(** The specification: pending signals as a set, whether the process is to die,
    and how the scan goes on.  [hs] are the handlers, [ms] the unmasked
    signals. *)
Definition spec_step (hs : Z -> Z) (ms : gset Z) (i : Z) (st : gset Z * bool) : gset Z * bool * verdict :=
  let '(pend, kl) := st in
  if decide (i ∈ pend /\ i ∈ ms) then
    if decide (hs i = SIGSTOP \/ i = SIGSTOP /\ hs i = SIG_DFL) then
      if decide (SIGCONT ∈ pend \/ SIGKILL ∈ pend) then (pend, kl, Through) else (pend, kl, Stopped i)
    else if decide (hs i = SIG_IGN) then (pend ∖ {[i]}, kl, Through)
    else if decide (hs i = SIG_DFL) then
      if decide (i = SIGCONT) then (pend ∖ {[SIGSTOP; SIGCONT]}, kl, Through)
      else (pend, true, Through)
    else if decide (hs i = SIGKILL) then (pend, true, Through)
    else if decide (hs i = SIGCONT) then
      if decide (i = SIGCONT) then (pend ∖ {[SIGSTOP]}, kl, Through)
      else (toggle SIGCONT (pend ∖ {[SIGSTOP]}), kl, Through)
    else (pend ∖ {[i]}, kl, Handler i)
  else (pend, kl, Through).

Fixpoint spec_scan (hs : Z -> Z) (ms : gset Z) (l : list Z) (st : gset Z * bool) : gset Z * bool * verdict :=
  match l with
  | [] => (st, Through)
  | i :: l' =>
      match spec_step hs ms i st with
      | (st', Through) => spec_scan hs ms l' st'
      | r => r
      end
  end.

Definition sig_abs (p : proc) : gset Z * bool := (sigset (pending p), negb (killed p =? 0)).

Lemma active_bits p i : 0 <= i -> active p i = Z.testbit (pending p) i && Z.testbit (mask p) i.
Proof. intros Hi. unfold active, hasSignal. now rewrite !land_bit_gt0. Qed.

Lemma active_sets p i : 0 <= i <= 31 -> active p i = true <-> i ∈ sigset (pending p) /\ i ∈ sigset (mask p).
Proof.
  intros Hi. rewrite active_bits, !elem_of_sigset, andb_true_iff by lia. intuition lia.
Qed.

Lemma hasSignal_set p i : 0 <= i <= 31 -> hasSignal p i = bool_decide (i ∈ sigset (pending p)).
Proof.
  intros Hi. unfold hasSignal. rewrite land_bit_gt0 by lia. apply eq_true_iff_eq.
  rewrite bool_decide_eq_true, elem_of_sigset. intuition lia.
Qed.

Lemma sigset_toggle w i : 0 <= i <= 31 -> sigset (Z.lxor w (bit i)) = toggle i (sigset w).
Proof.
  intros Hi. apply set_eq. intros j. rewrite elem_of_sigset, Z.lxor_spec, bit_testbit by lia. unfold toggle.
  destruct (Z.eqb_spec j i) as [->|Hne].
  - rewrite xorb_true_r. destruct (decide (i ∈ sigset w)) as [Hin|Hin].
    + pose proof Hin as [_ ->]%elem_of_sigset. set_solver.
    + rewrite elem_of_sigset in Hin. destruct (Z.testbit w i); [exfalso; apply Hin; lia|]. split; [set_solver|]. intros _. lia.
  - rewrite xorb_false_r, <- elem_of_sigset. destruct (decide (i ∈ sigset w)); set_solver.
Qed.

Lemma sigset_clear w i : 0 <= i <= 31 -> i ∈ sigset w -> sigset (Z.lxor w (bit i)) = sigset w ∖ {[i]}.
Proof. intros Hi Hin. rewrite sigset_toggle by done. unfold toggle. now rewrite decide_True. Qed.

Lemma sigset_continued p : sigset (pending (continued p)) = toggle SIGCONT (sigset (pending p) ∖ {[SIGSTOP]}).
Proof.
  unfold continued. cbn [pending set_pending]. rewrite sigset_toggle by (unfold SIGCONT; lia). f_equal.
  rewrite hasSignal_set by (unfold SIGSTOP; lia). case_bool_decide as Hin; [apply sigset_clear; [unfold SIGSTOP; lia|done]|].
  set_solver.
Qed.

Lemma toggle_toggle x (X : gset Z) : x ∈ X -> toggle x (toggle x X) = X.
Proof.
  intros Hx. unfold toggle. rewrite (decide_True (P := x ∈ X)) by done. rewrite decide_False by set_solver.
  apply set_eq. intros y. destruct (decide (y = x)); set_solver.
Qed.

(** What SIGCONT does to the pending signals, by default and as an explicit
    handler of SIGCONT, where it runs twice. *)
Lemma sigset_cont_once p :
  SIGCONT ∈ sigset (pending p) -> sigset (pending (continued p)) = sigset (pending p) ∖ {[SIGSTOP; SIGCONT]}.
Proof.
  intros Hin. rewrite sigset_continued. unfold toggle. rewrite decide_True by (unfold SIGCONT, SIGSTOP in *; set_solver).
  apply set_eq. intros y. set_solver.
Qed.

Lemma sigset_cont_twice p :
  SIGCONT ∈ sigset (pending p) -> sigset (pending (continued (continued p))) = sigset (pending p) ∖ {[SIGSTOP]}.
Proof.
  intros Hin. rewrite !sigset_continued.
  replace (toggle SIGCONT (sigset (pending p) ∖ {[SIGSTOP]}) ∖ {[SIGSTOP]})
    with (toggle SIGCONT (sigset (pending p) ∖ {[SIGSTOP]})).
  - apply toggle_toggle. unfold SIGCONT, SIGSTOP in *. set_solver.
  - unfold toggle. rewrite decide_True by (unfold SIGCONT, SIGSTOP in *; set_solver). set_solver.
Qed.

Lemma may_run_set p :
  may_run p = bool_decide (SIGCONT ∈ sigset (pending p) \/ SIGKILL ∈ sigset (pending p)).
Proof.
  unfold may_run. rewrite !hasSignal_set by (unfold SIGCONT, SIGKILL; lia).
  repeat case_bool_decide; try done; tauto.
Qed.

Lemma stops_spec h i : stops h i = bool_decide (h = SIGSTOP \/ i = SIGSTOP /\ h = SIG_DFL).
Proof.
  unfold stops. case_bool_decide as E.
  - destruct E as [->|[-> ->]]; [done|]. now rewrite orb_true_r.
  - apply orb_false_iff. rewrite andb_false_iff, !Z.eqb_neq. destruct (decide (i = SIGSTOP)); tauto.
Qed.

Lemma decide_eqb (x y : Z) {A} (a b : A) : (if decide (x = y) then a else b) = if x =? y then a else b.
Proof. destruct (decide (x = y)) as [->|]; [now rewrite Z.eqb_refl|]. now rewrite (proj2 (Z.eqb_neq x y)). Qed.

(** One iteration of the code is one step of the specification. *)
Lemma sig_step_refines p i :
  0 <= i <= 31 ->
  spec_step (handler p) (sigset (mask p)) i (sig_abs p) = (sig_abs (sig_step p i).1, (sig_step p i).2).
Proof.
  intros Hi. pose proof (active_sets p i Hi) as Ha. unfold spec_step, sig_abs.
  destruct (decide (i ∈ sigset (pending p) /\ i ∈ sigset (mask p))) as [Hin|Hout].
  2:{ assert (E : active p i = false) by (destruct (active p i); [exfalso; tauto|done]).
      unfold sig_step. now rewrite E. }
  apply Ha in Hin as Hact. destruct Hin as [Hin _]. unfold sig_step. rewrite Hact. clear Hact Ha. cbn zeta.
  rewrite stops_spec, may_run_set, !decide_eqb.
  destruct (decide (handler p i = SIGSTOP \/ i = SIGSTOP /\ handler p i = SIG_DFL)) as [Hs|Hs].
  { rewrite bool_decide_true by done. destruct (decide (SIGCONT ∈ _ \/ _)); [now rewrite bool_decide_true|].
    now rewrite bool_decide_false. }
  rewrite bool_decide_false by done.
  destruct (handler p i =? SIG_IGN); [cbn [fst snd pending set_pending]; now rewrite sigset_clear|].
  set (q := set_mask_backup (mask p) p). assert (Eq : pending q = pending p) by done.
  destruct (handler p i =? SIG_DFL).
  { destruct (Z.eqb_spec i SIGCONT) as [->|]; [|done]. cbn [fst snd].
    rewrite sigset_cont_once by now rewrite Eq. now rewrite Eq. }
  destruct (handler p i =? SIGKILL); [done|]. destruct (handler p i =? SIGCONT).
  { destruct (Z.eqb_spec i SIGCONT) as [->|]; cbn [fst snd].
    - rewrite sigset_cont_twice by now rewrite Eq. now rewrite Eq.
    - now rewrite sigset_continued, Eq. }
  cbn [fst snd pending set_pending set_mask]. now rewrite sigset_clear.
Qed.

Lemma sig_scan_refines js p :
  Forall (fun i => 0 <= i <= 31) js ->
  spec_scan (handler p) (sigset (mask p)) js (sig_abs p) = (sig_abs (sig_scan js p).1, (sig_scan js p).2).
Proof.
  intros Hjs. revert p. induction Hjs as [|i js Hi Hjs IH]; intros p; [done|].
  cbn [spec_scan sig_scan]. rewrite sig_step_refines by done.
  pose proof (sig_step_same p i) as (_ & Eh & _)%same_but_signals_frame. destruct (sig_step_masks p i) as [Hm _].
  destruct (sig_step p i) as [p1 []]; cbn [fst snd] in *; try done.
  specialize (IH p1). rewrite Hm in IH. replace (handler p) with (handler p1) by (unfold handler; now rewrite Eh).
  exact IH.
Qed.

(** The signals from [j] on, and the loop of check_kernel_sigs from there. *)
Definition signals_from (j : nat) : list Z := drop j (zrange 32).
Definition check_from (fuel cur j : nat) : K unit := forb (signals_from j) (check_one fuel cur) (ret tt).

Lemma signals_range j : Forall (fun i => 0 <= i <= 31) (signals_from j).
Proof. apply Forall_drop, Forall_forall. intros i Hi. apply elem_of_zrange in Hi. lia. Qed.

Lemma signals_split j pre i js : signals_from j = pre ++ i :: js -> js = signals_from (S (Z.to_nat i)).
Proof.
  unfold signals_from. intros E. assert (Ez : exists hd, zrange 32 = hd ++ i :: js).
  { exists (take j (zrange 32) ++ pre). rewrite <- app_assoc, <- E. symmetry. apply take_drop. }
  destruct Ez as [hd Ez]. assert (Hi : zrange 32 !! length hd = Some i) by (rewrite Ez; now apply list_lookup_middle).
  apply zrange_lookup in Hi as [-> _]. rewrite Nat2Z.id, Ez.
  rewrite cons_middle, app_assoc, drop_app_length'; [done|]. rewrite length_app. cbn. lia.
Qed.

(** Nothing active: the loop changes nothing. *)
Lemma check_idle n cur js p c k :
  ptable k !! cur = Some p -> (forall i, i ∈ js -> active p i = false) ->
  forb js (check_one n cur) (ret tt) c k = Ret tt c k.
Proof.
  intros Hp. induction js as [|i js IH]; intros Ha; [done|]. cbn [forb].
  assert (E : check_one n cur i c k = Ret None c k).
  { unfold check_one, isBlocked, bind, gets, ret. cbn [obind]. rewrite (pget_lookup _ _ p Hp).
    rewrite negb_involutive. fold (active p i). rewrite (Ha i) by (left; done). reflexivity. }
  unfold bind. rewrite E. cbn [obind]. apply IH. intros j Hj. apply Ha. now right.
Qed.

(** check_kernel_sigs is the loop from 0 on: its test only saves time. *)
Lemma check_kernel_sigs_loop n cur p c k :
  ptable k !! cur = Some p -> check_kernel_sigs n (Some cur) c k = check_from n cur 0 c k.
Proof.
  intros Hp. unfold check_kernel_sigs, check_from, bind, gets. cbn [obind]. rewrite (pget_lookup _ _ p Hp).
  destruct ((mask p =? 0) || (pending p =? 0)) eqn:E; [|done].
  symmetry. apply (check_idle n cur _ p); [done|]. intros i Hi.
  pose proof (signals_range 0) as R. rewrite Forall_forall in R. specialize (R i Hi).
  rewrite active_bits by lia. apply orb_true_iff in E as [->%Z.eqb_eq| ->%Z.eqb_eq];
    rewrite Z.testbit_0_l; [now rewrite andb_false_r|done].
Qed.

(** A scan that starts a user handler. *)
Lemma wp_check_kernel_sigs n cur l p i w k (Q : unit -> ctx -> kst F -> Prop) :
  ptable k !! cur = Some p -> scan_ok p -> deliverable k cur l ->
  (sig_scan (signals_from 0) p).2 = Handler i ->
  (forall m', delivered k cur l i m' -> Q tt (Ctx [] w) (with_proc cur (sig_scan (signals_from 0) p).1 (kwith m' k))) ->
  wp (check_kernel_sigs (S n) (Some cur)) Q (Ctx [] w) k.
Proof.
  intros Hp Hok Hdv Hs HQ.
  pose proof (check_loop n cur l (signals_from 0) w p k ltac:(rewrite Hp; eauto) (signals_range 0) Hok) as Hl.
  rewrite (with_proc_same _ _ _ Hp) in Hl. specialize (Hl (fun _ _ => Hdv)). unfold loop_ends in Hl.
  rewrite (with_proc_same _ _ _ Hp), Hs in Hl. destruct Hl as (m1 & Hd & Eo).
  unfold wp. rewrite (check_kernel_sigs_loop _ _ p) by done. unfold check_from. rewrite Eo. now apply HQ.
Qed.

(** * sigret *)

Lemma wp_sigret cur l p (Q : unit -> ctx -> kst F -> Prop) c k :
  ptable k !! cur = Some p -> h_cr3 (ks_hw k) = V2P (pgdir p) ->
  frame kend (kmemof k) (pgdir p) l (kstack p) -> page_ok kend (kstack p) -> kdata <= kstack p ->
  tf p = kstack p + KSTACKSIZE - TF_SIZE -> readable (kmemof k) (pgdir p) (trap_backup p) TF_SIZE ->
  Q tt c (with_proc cur (set_mask (mask_backup p) p)
            (kwith (sts (kmemof k) (tf p) (ubs (kmemof k) (pgdir p) (trap_backup p) (Z.to_nat TF_SIZE))) k)) ->
  wp (sigret kdata (Some cur)) Q c k.
Proof.
  intros Hp Hcr3 (Hok & Hd & Hoff) (_ & _ & Hk0 & Hk1) Hkd Htf Hr HQ. unfold sigret. kst_steps.
  rewrite (pget_lookup _ _ p Hp). eapply wp_kmemmove.
  { rewrite Hcr3. eapply (vmemmove_from_user kend kdata _ _ l (kstack p)); auto; try lia;
      unfold KSTACKSIZE, TF_SIZE, PGSIZE in *; lia. }
  kst_steps. set (m' := sts _ _ _). unfold with_proc in HQ. erewrite pset_ext; [exact HQ|exact Hp|done].
Qed.

(** The saved frame, as user memory holds it after delivery. *)
Lemma delivered_backup k cur l i m' :
  delivered k cur l i m' -> deliverable k cur l ->
  trap_backup (pget cur k) + TF_SIZE <= user_esp k cur - sigret_size - 8 \/
    user_esp k cur <= trap_backup (pget cur k) ->
  ubs m' (pgdir (pget cur k)) (trap_backup (pget cur k)) (Z.to_nat TF_SIZE) =
  lds (kmemof k) (tf (pget cur k)) (Z.to_nat TF_SIZE).
Proof.
  intros Hd Hv Hdis. destruct (dv_backup _ _ _ Hv) as (H0 & H1 & Hw). unfold delivered in Hd.
  assert (Hsz : 0 <= sigret_size) by (unfold sigret_size; apply u32_range).
  apply list_eq_same_length with (Z.to_nat TF_SIZE).
  - now rewrite length_lds.
  - unfold ubs. now rewrite length_fmap, length_zrange.
  - intros j x y Hj Hx Hy. unfold ubs in Hx. apply list_lookup_fmap_Some in Hx as (z & -> & Hz).
    apply zrange_lookup in Hz as [-> _]. change (Z.to_nat TF_SIZE) with 76%nat in Hj.
    rewrite (ch_user _ _ _ _ _ _ _ _ Hd) by (unfold TF_SIZE in *; lia || (apply Hw; lia)).
    unfold delivered_user. set (tb := trap_backup _) in *.
    rewrite !over_ne by (rewrite ?length_le_bytes, ?length_lds; unfold TF_SIZE in *; lia).
    unfold over. rewrite length_lds. destruct (withinP tb (Z.of_nat (Z.to_nat TF_SIZE)) (tb + Z.of_nat j));
      [|unfold TF_SIZE in *; lia].
    unfold aget. replace (Z.to_nat (tb + Z.of_nat j - tb)) with j by lia. now rewrite Hy.
Qed.


(** The handler's address is in the trap frame's eip after delivery. *)
Lemma delivered_eip k cur l i m' :
  delivered k cur l i m' -> deliverable k cur l -> is_u32 (handler (pget cur k) i) ->
  ld32 m' (tf (pget cur k) + TF_EIP) = handler (pget cur k) i.
Proof.
  intros Hd Hv Hh. unfold delivered in Hd. pose proof (dv_tf _ _ _ Hv) as Ht.
  assert (B : kstack (pget cur k) <= tf (pget cur k) + TF_EIP /\
              tf (pget cur k) + TF_EIP + 4 <= kstack (pget cur k) + PGSIZE)
    by (rewrite Ht; unfold KSTACKSIZE, TF_SIZE, TF_EIP, PGSIZE; lia).
  rewrite (changed_ld32 _ _ _ _ _ _ _ _ _ Hd) by apply B. unfold delivered_kstack.
  rewrite w32_over_ne by (rewrite length_le_bytes; unfold TF_EIP, TF_ESP; lia). now apply w32_over_eq.
Qed.

End Signals.
