(* ===== verification/Sysproc.v ===== *)
(** syscall.c's fetching of arguments from user memory, and sysproc.c. *)
From S2P Require Import Prelude Monad Mem Mmu Cstring Kalloc Vm Hw Uvm FileIface Proc Signal.

Section Args.
Context {F : Type} `{FileOps F}.
Abbreviation K := (M (kst F)).
Variable kdata : Z.

(** * syscall.c: arguments *)

(** A load from a user address; a fault in the kernel panics. *)
Definition uload (va : Z) : K Z :=
  fun c k =>
    match vld32 kdata (k_mem (ks_km k)) (h_cr3 (ks_hw k)) va with
    | Some w => Ret w c k
    | None => Panic "trap"
    end.
Definition uload8 (va : Z) : K Z :=
  fun c k =>
    match vld kdata (k_mem (ks_km k)) (h_cr3 (ks_hw k)) va with
    | Some b => Ret b c k
    | None => Panic "trap"
    end.

(** [None] is the error return -1; an [int] is kept as its 32-bit word. *)
Definition fetchint (cur : nat) (addr : Z) : K (option Z) :=
  let* p := gets (pget cur) in
  if (sz p <=? addr) || (sz p <? u32 (addr + 4)) then ret None
  else let* w := uload addr in ret (Some w).

(** The scan of [fetchstr] from [s] to [ep]; [n] = ep - s. *)
Fixpoint fetchstr_from (n : nat) (s addr : Z) : K (option (Z * Z)) :=
  match n with
  | O => ret None
  | S n' =>
      let* b := uload8 s in
      if b =? 0 then ret (Some (addr, s - addr)) else fetchstr_from n' (s + 1) addr
  end.
(** The pointer and the length of the string. *)
Definition fetchstr (cur : nat) (addr : Z) : K (option (Z * Z)) :=
  let* p := gets (pget cur) in
  if sz p <=? addr then ret None
  else fetchstr_from (Z.to_nat (sz p - addr)) addr addr.

Definition argint (cur : nat) (n : Z) : K (option Z) :=
  let* t := gets (fun k => tf (pget cur k)) in
  let* esp := kload (t + TF_ESP) in
  fetchint cur (u32 (esp + 4 + 4 * n)).

Definition argptr (cur : nat) (n size : Z) : K (option Z) :=
  let* r := argint cur n in
  match r with
  | None => ret None
  | Some i =>
      let* p := gets (pget cur) in
      if (size <? 0) || (sz p <=? i) || (sz p <? u32 (i + size)) then ret None
      else ret (Some i)
  end.

Definition argstr (cur : nat) (n : Z) : K (option (Z * Z)) :=
  let* r := argint cur n in
  match r with
  | None => ret None
  | Some addr => fetchstr cur addr
  end.

(** * sysproc.c *)

Variables kend trapret_addr forkret_addr ts_addr : Z.

Definition sys_fork (cur : nat) : K Z := fork kend kdata trapret_addr forkret_addr cur.

Definition sys_exit (cur : nat) : K Z := (exit cur : K unit) ;;; ret 0.

Definition sys_wait (fuel cur : nat) : K Z := wait kend fuel cur.

Definition sys_kill (cur : nat) : K Z :=
  let* id := argint cur 0 in
  match id with
  | None => ret (-1)
  | Some id =>
      let* signum := argint cur 1 in
      match signum with
      | None => ret (-1)
      | Some signum => kill (s32 id) (s32 signum)
      end
  end.

Definition sys_getpid (cur : nat) : K Z := gets (fun k => pid (pget cur k)).

Definition sys_sbrk (cur : nat) : K Z :=
  let* n := argint cur 0 in
  match n with
  | None => ret (-1)
  | Some n =>
      let* addr := gets (fun k => sz (pget cur k)) in
      let* r := growproc kend ts_addr cur (s32 n) in
      if r <? 0 then ret (-1) else ret addr
  end.

(** [while(ticks - ticks0 < n)]: the comparison is unsigned. *)
Fixpoint sys_sleep_from (fuel cur : nat) (ticks0 n : Z) : K Z :=
  match fuel with
  | O => fun _ _ => OutOfFuel
  | S f =>
      let* t := gets ticks in
      if u32 (t - ticks0) <? u32 n then
        let* p := gets (pget cur) in
        let* b := isBlocked (Some cur) SIGKILL in
        if negb (killed p =? 0) || (hasSignal p SIGKILL && negb b) then
          release LTick ;;; ret (-1)
        else sleep cur ChTicks LTick ;;; sys_sleep_from f cur ticks0 n
      else release LTick ;;; ret 0
  end.
Definition sys_sleep (fuel cur : nat) : K Z :=
  let* n := argint cur 0 in
  match n with
  | None => ret (-1)
  | Some n =>
      acquire LTick ;;;
      let* ticks0 := gets ticks in
      sys_sleep_from fuel cur ticks0 n
  end.

Definition sys_uptime : K Z :=
  acquire LTick ;;;
  let* xticks := gets ticks in
  release LTick ;;;
  ret xticks.

Definition sys_sigprocmask (cur : nat) : K Z :=
  let* sigmask := argint cur 0 in
  match sigmask with
  | None => ret (-1)
  | Some m => sigprocmask (Some cur) m
  end.

Definition sys_signal (cur : nat) : K Z :=
  let* signum := argint cur 0 in
  match signum with
  | None => ret (-1)
  | Some signum =>
      let* h := argint cur 1 in
      match h with
      | None => ret (-1)
      | Some h => signal (Some cur) (s32 signum) h
      end
  end.

Definition sys_sigret (cur : nat) : K Z := sigret kdata (Some cur) ;;; ret 1.

End Args.

(** * Arguments are in bounds *)

Section ArgProps.
Context {F : Type} `{FileOps F}.
Variables kend kdata : Z.

(** Process [cur] runs on its own page table, which maps all of its memory,
    [0, sz). *)
Record user_ready (k : kst F) (cur : nat) (l : list Z) : Prop := {
  ur_cr3 : h_cr3 (ks_hw k) = V2P (pgdir (pget cur k));
  ur_uvm : uvm_ok kend (kmemof k) (pgdir (pget cur k)) l;
  ur_mapped : readable (kmemof k) (pgdir (pget cur k)) 0 (sz (pget cur k))
}.

(** The word and the byte at a user address. *)
Definition uword (k : kst F) (cur : nat) (va : Z) : Z := le_val (ubs (kmemof k) (pgdir (pget cur k)) va 4).
Definition ubyte (k : kst F) (cur : nat) (va : Z) : Z := ub (kmemof k) (pgdir (pget cur k)) va.

Lemma wp_fetchint k cur l addr (Q : option Z -> ctx -> kst F -> Prop) c :
  user_ready k cur l -> 0 <= addr ->
  Q (if addr + 4 <=? sz (pget cur k) then Some (uword k cur addr) else None) c k ->
  wp (fetchint kdata cur addr) Q c k.
Proof.
  intros [Hcr3 Hok Hr] Ha HQ. unfold fetchint. kst_steps. set (p := pget cur k) in *.
  pose proof Hr as (_ & Hs & _). cbn [Z.add] in Hs.
  destruct (Z.leb_spec (sz p) addr); cbn [orb].
  { destruct (Z.leb_spec (addr + 4) (sz p)); [lia|]. now apply wp_ret. }
  rewrite u32_small by (unfold is_u32, KERNBASE in *; lia).
  destruct (Z.ltb_spec (sz p) (addr + 4)), (Z.leb_spec (addr + 4) (sz p)); try lia; [now apply wp_ret|].
  apply wp_bind. unfold wp at 1, uload. fold (kmemof k). rewrite Hcr3. unfold vld32.
  rewrite (vlds_user kend kdata _ _ l) by (done || (eapply readable_sub; [exact Hr|lia|lia])).
  now apply wp_ret.
Qed.

(** The address of the nth argument. *)
Definition arg_addr (k : kst F) (cur : nat) (n : Z) : Z := u32 (user_esp k cur + 4 + 4 * n).

Lemma wp_argint k cur l n (Q : option Z -> ctx -> kst F -> Prop) c :
  user_ready k cur l ->
  Q (if arg_addr k cur n + 4 <=? sz (pget cur k) then Some (uword k cur (arg_addr k cur n)) else None) c k ->
  wp (argint kdata cur n) Q c k.
Proof.
  intros Hr HQ. unfold argint. kst_steps. apply (wp_fetchint _ _ l); [done|apply u32_range|exact HQ].
Qed.

(** C34: argptr(n, pp, size) never faults, changes nothing, and succeeds exactly
    when the argument word lies inside the process and the block of [size] bytes
    it points at does, with no wrap-around; it then yields that pointer. *)
Theorem argptr_in_bounds k cur l n size c :
  user_ready k cur l -> size < 2147483648 -> is_u32 (uword k cur (arg_addr k cur n)) ->
  wp (argptr kdata cur n size)
    (fun r c' k' => c' = c /\ k' = k /\
       let a := uword k cur (arg_addr k cur n) in
       let s := sz (pget cur k) in
       r = if (arg_addr k cur n + 4 <=? s) && (0 <=? size) && (a <? s) && (a + size <=? s)
           then Some a else None) c k.
Proof.
  intros Hr Hsz Hw. unfold argptr. pose proof (ur_mapped _ _ _ Hr) as (_ & Hs & _). cbn [Z.add] in Hs.
  apply wp_bind, (wp_argint _ _ l); [done|].
  destruct (Z.leb_spec (arg_addr k cur n + 4) (sz (pget cur k))); cbn [andb]; [|now apply wp_ret].
  kst_steps. set (a := uword _ _ _) in *. set (s := sz (pget cur k)) in *.
  destruct (Z.ltb_spec size 0), (Z.leb_spec 0 size); try lia; cbn [orb andb]; [now apply wp_ret|].
  destruct (Z.leb_spec s a), (Z.ltb_spec a s); try lia; cbn [orb andb]; [now apply wp_ret|].
  rewrite u32_small by (unfold is_u32, KERNBASE in *; lia).
  destruct (Z.ltb_spec s (a + size)), (Z.leb_spec (a + size) s); try lia; now apply wp_ret.
Qed.

Lemma wp_fetchstr_from k cur l n s addr (Q : option (Z * Z) -> ctx -> kst F -> Prop) c :
  user_ready k cur l -> 0 <= s -> s + Z.of_nat n <= sz (pget cur k) ->
  (forall j, 0 <= j < Z.of_nat n -> ubyte k cur (s + j) = 0 ->
     (forall i, 0 <= i < j -> ubyte k cur (s + i) <> 0) -> Q (Some (addr, s + j - addr)) c k) ->
  ((forall j, 0 <= j < Z.of_nat n -> ubyte k cur (s + j) <> 0) -> Q None c k) ->
  wp (fetchstr_from kdata n s addr) Q c k.
Proof.
  intros Hr. revert s. induction n as [|n IH]; intros s H0 H1 HS HN; cbn [fetchstr_from].
  { apply wp_ret, HN. lia. }
  destruct Hr as [Hcr3 Hok Hrd]. apply wp_bind. unfold wp at 1, uload8. fold (kmemof k). rewrite Hcr3.
  rewrite (vld_user kend kdata _ _ l) by (done || (eapply readable_sub; [exact Hrd|lia|lia])).
  fold (ubyte k cur s). destruct (Z.eqb_spec (ubyte k cur s) 0) as [E|E].
  - apply wp_ret. specialize (HS 0). rewrite Z.add_0_r in HS. apply HS; [lia|done|lia].
  - apply IH; [lia|lia| |].
    + intros j Hj Hz Hnz. replace (s + 1 + j) with (s + (j + 1)) in * by lia. apply HS; [lia|done|].
      intros i Hi. destruct (Z.eq_dec i 0) as [->|]; [now rewrite Z.add_0_r|].
      replace (s + i) with (s + 1 + (i - 1)) by lia. apply Hnz. lia.
    + intros Hnz. apply HN. intros j Hj. destruct (Z.eq_dec j 0) as [->|]; [now rewrite Z.add_0_r|].
      replace (s + j) with (s + 1 + (j - 1)) by lia. apply Hnz. lia.
Qed.

(** Argstr(n, pp) never faults and changes nothing.  When it succeeds, the
    pointer it yields is the argument, the string it points at ends with a NUL
    inside the process's memory, and the length returned is the distance to the
    first NUL; it fails only if the argument is outside the process's memory or
    no NUL follows before its end. *)
Theorem argstr_terminated k cur l n c :
  user_ready k cur l -> is_u32 (uword k cur (arg_addr k cur n)) ->
  wp (argstr kdata cur n)
    (fun r c' k' => c' = c /\ k' = k /\
       let a := uword k cur (arg_addr k cur n) in
       match r with
       | Some (p, len) =>
           p = a /\ 0 <= len /\ a + len < sz (pget cur k) /\ ubyte k cur (a + len) = 0 /\
           forall i, 0 <= i < len -> ubyte k cur (a + i) <> 0
       | None => sz (pget cur k) < arg_addr k cur n + 4 \/
           forall v, a <= v < sz (pget cur k) -> ubyte k cur v <> 0
       end) c k.
Proof.
  intros Hr Hw. unfold argstr. apply wp_bind, (wp_argint _ _ l); [done|].
  destruct (Z.leb_spec (arg_addr k cur n + 4) (sz (pget cur k))).
  2:{ apply wp_ret. split; [done|]. split; [done|]. now left. }
  unfold fetchstr. kst_steps. set (a := uword _ _ _) in *. set (s := sz (pget cur k)) in *.
  destruct (Z.leb_spec s a).
  { apply wp_ret. split; [done|]. split; [done|]. right. lia. }
  unfold is_u32 in Hw. apply (wp_fetchstr_from k cur l); [done|lia|fold s; lia| |].
  - intros j Hj Hz Hnz. split; [done|]. split; [done|]. cbn zeta.
    replace (a + j - a) with j by lia. split; [done|]. split; [lia|]. split; [lia|]. done.
  - intros Hnz. split; [done|]. split; [done|]. right. intros v Hv.
    replace v with (a + (v - a)) by lia. apply Hnz. lia.
Qed.

End ArgProps.
