(* ===== verification/Trap.v ===== *)
(** syscall.c's dispatch and trap.c's [trap]: what the kernel does on a system
    call, a device interrupt, or a fault. *)
From S2P Require Import Prelude Monad Mem Mmu Digits Cstring Kalloc Vm Hw FileIface Proc Signal Sysproc.

(** * syscall.h *)

Inductive sysno : Type :=
| SYS_fork | SYS_exit | SYS_wait | SYS_pipe | SYS_read | SYS_kill | SYS_exec | SYS_fstat
| SYS_chdir | SYS_dup | SYS_getpid | SYS_sbrk | SYS_sleep | SYS_uptime | SYS_open | SYS_write
| SYS_mknod | SYS_unlink | SYS_link | SYS_mkdir | SYS_close | SYS_sigprocmask | SYS_signal
| SYS_sigret.

(** [syscalls[num]], by number; [None] for a number without an entry. *)
Definition syscalls : list (option sysno) :=
  [None; Some SYS_fork; Some SYS_exit; Some SYS_wait; Some SYS_pipe; Some SYS_read;
   Some SYS_kill; Some SYS_exec; Some SYS_fstat; Some SYS_chdir; Some SYS_dup;
   Some SYS_getpid; Some SYS_sbrk; Some SYS_sleep; Some SYS_uptime; Some SYS_open;
   Some SYS_write; Some SYS_mknod; Some SYS_unlink; Some SYS_link; Some SYS_mkdir;
   Some SYS_close; Some SYS_sigprocmask; Some SYS_signal; Some SYS_sigret].

(** * trap.c: the interrupt table *)

(** sizeof(idt): 256 gates of 8 bytes. *)
Definition IDT_SIZE : Z := 256 * 8.

(** [tvinit] fills [idt] from the 256 entry points of vectors.S. *)
Definition tvinit (vectors : list Z) : list gatedesc :=
  aset ((fun i => SETGATE false (Z.shiftl SEG_KCODE 3) (aget 0 vectors i) 0) <$> zrange 256)
    T_SYSCALL (SETGATE true (Z.shiftl SEG_KCODE 3) (aget 0 vectors T_SYSCALL) DPL_USER).

(** [idtinit]: [idt] is at [idt_addr]. *)
Definition idtinit (idt_addr : Z) (h : hw) : hw := lidt idt_addr IDT_SIZE h.

Section Trap.
Context {F : Type} `{FileOps F}.
Abbreviation K := (M (kst F)).
Variables kdata kend trapret_addr forkret_addr ts_addr : Z.
(** The system calls of sysfile.c, and the interrupt handlers of ide.c, kbd.c,
    uart.c and lapic.c. *)
Variable sys_file : sysno -> nat -> K Z.
Variables ideintr kbdintr uartintr lapiceoi : K unit.
(** console.c's [cprintf]: the string at an address, the format and its
    arguments. *)
Variable cprintf : (Z -> list Z) -> list Z -> list Z -> K unit.
(** Bound on the sleeps of [wait] and [sleep]. *)
Variable fuel : nat.

(** The function [syscalls] holds for each number. *)
Definition sys_call (n : sysno) (cur : nat) : K Z :=
  match n with
  | SYS_fork => sys_fork kdata kend trapret_addr forkret_addr cur
  | SYS_exit => sys_exit cur
  | SYS_wait => sys_wait kend fuel cur
  | SYS_kill => sys_kill kdata cur
  | SYS_getpid => sys_getpid cur
  | SYS_sbrk => sys_sbrk kdata kend ts_addr cur
  | SYS_sleep => sys_sleep kdata fuel cur
  | SYS_uptime => sys_uptime
  | SYS_sigprocmask => sys_sigprocmask kdata cur
  | SYS_signal => sys_signal kdata cur
  | SYS_sigret => sys_sigret kdata cur
  | _ => sys_file n cur
  end.

(** The messages have at most one string among their arguments, the name of a
    process, which is not at address 0. *)
Definition no_str (a : Z) : list Z := [].
Definition NAME : Z := 1.

Definition syscall (cur : nat) : K unit :=
  let* t := gets (fun k => tf (pget cur k)) in
  let* num := kload (t + TF_EAX) in
  let num := s32 num in
  match (if (0 <? num) && (num <? Z.of_nat (length syscalls))
         then aget None syscalls num else None) with
  | Some n =>
      let* r := sys_call n cur in
      let* t := gets (fun k => tf (pget cur k)) in
      kstore (t + TF_EAX) (u32 r)
  | None =>
      let* p := gets (pget cur) in
      cprintf (fun _ => cut0 (name p)) (bytes "%d %s: unknown sys call %d" ++ [10]) [pid p; NAME; num] ;;;
      kstore (t + TF_EAX) (u32 (-1))
  end.

(** [if(myproc() && myproc()->killed && (tf->cs & 3) == DPL_USER) exit();] *)
Definition exit_if_killed (me : option nat) (tfa : Z) : K unit :=
  match me with
  | None => ret tt
  | Some cur =>
      let* kl := gets (fun k => killed (pget cur k)) in
      let* cs := kload (tfa + TF_CS) in
      when (negb (kl =? 0) && (Z.land cs 3 =? DPL_USER)) (exit cur)
  end.

Definition kill_message : list Z :=
  bytes "pid %d %s: trap %d err %d on cpu %d eip 0x%x addr 0x%x--kill proc" ++ [10].

(** The [switch] on the trap number; [cr2] is the address of the last fault. *)
Definition trap_switch (me : option nat) (cpuid cr2 tfa trapno : Z) : K unit :=
  if trapno =? T_IRQ0 + IRQ_TIMER then
    when (cpuid =? 0)
      (acquire LTick ;;;
       modify (fun k => set_ticks (u32 (ticks k + 1)) k) ;;;
       wakeup ChTicks ;;;
       release LTick) ;;;
    lapiceoi
  else if trapno =? T_IRQ0 + IRQ_IDE then ideintr ;;; lapiceoi
  else if trapno =? T_IRQ0 + IRQ_IDE + 1 then ret tt
  else if trapno =? T_IRQ0 + IRQ_KBD then kbdintr ;;; lapiceoi
  else if trapno =? T_IRQ0 + IRQ_COM1 then uartintr ;;; lapiceoi
  else if (trapno =? T_IRQ0 + 7) || (trapno =? T_IRQ0 + IRQ_SPURIOUS) then
    let* cs := kload (tfa + TF_CS) in
    let* eip := kload (tfa + TF_EIP) in
    cprintf no_str (bytes "cpu%d: spurious interrupt at %x:%x" ++ [10]) [cpuid; Z.land cs 0xffff; eip] ;;;
    lapiceoi
  else
    let* cs := kload (tfa + TF_CS) in
    let* eip := kload (tfa + TF_EIP) in
    match (if Z.land cs 3 =? 0 then None else me) with
    | None =>
        cprintf no_str (bytes "unexpected trap %d from cpu %d eip %x (cr2=0x%x)" ++ [10])
          [trapno; cpuid; eip; cr2] ;;;
        panic "trap"
    | Some cur =>
        let* p := gets (pget cur) in
        let* now := kload (tf p + TF_EIP) in
        cprintf no_str (bytes "NOW EIP IS: %d" ++ [10]) [now] ;;;
        let* err := kload (tfa + TF_ERR) in
        cprintf (fun _ => cut0 (name p)) kill_message [pid p; NAME; trapno; err; cpuid; eip; cr2] ;;;
        pmod cur (set_killed 1)
    end.

(** [trap(tf)] on CPU [cpuid] with [me] = myproc(). *)
Definition trap (me : option nat) (cpuid cr2 tfa : Z) : K unit :=
  let* trapno := kload (tfa + TF_TRAPNO) in
  if trapno =? T_SYSCALL then
    match me with
    | None => panic "trap"          (* myproc()->killed through a null pointer *)
    | Some cur =>
        let* kl := gets (fun k => killed (pget cur k)) in
        when (negb (kl =? 0)) (exit cur) ;;;
        pmod cur (set_tf tfa) ;;;
        syscall cur ;;;
        let* kl := gets (fun k => killed (pget cur k)) in
        when (negb (kl =? 0)) (exit cur)
    end
  else
    trap_switch me cpuid cr2 tfa trapno ;;;
    exit_if_killed me tfa ;;;
    (match me with
     | Some cur =>
         let* st := gets (fun k => state (pget cur k)) in
         when (bool_decide (st = RUNNING) && (trapno =? T_IRQ0 + IRQ_TIMER)) (yield cur)
     | None => ret tt
     end) ;;;
    exit_if_killed me tfa.

(** trapasm.S: [alltraps] calls [trap] and then, in [trapret],
    [check_kernel_sigs]. *)
Definition alltraps (call_sigret_syscall end_sigret_syscall : Z) (me : option nat) (cpuid cr2 tfa : Z) : K unit :=
  trap me cpuid cr2 tfa ;;;
  check_kernel_sigs kdata call_sigret_syscall end_sigret_syscall fuel me.

End Trap.
