(* ===== verification/SigProps.v ===== *)
(** The properties of signals: posting ([kill]), handling at the return to user
    space ([check_kernel_sigs]), the way back ([sigret]), and stopping. *)
From S2P Require Import Prelude Monad Mem Mmu Cstring Kalloc Vm Hw Uvm FileIface Proc Signal.
From S2P Require Import Sysproc Trap.

(** * Posting a signal *)

Section Kill.
Context {F : Type} `{FileOps F}.

Lemma kill_loop id signum j n c (k : kst F) :
  held c = [LPtable] -> (j + n = length (ptable k))%nat ->
  (forall i p, (i < j)%nat -> ptable k !! i = Some p -> pid p <> id) ->
  wp (forb (seq j n) (fun i =>
        let* p := gets (pget i) in
        if pid p =? id then
          pmod i (set_pending (Z.lor (pending p) (bit signum))) ;;;
          release LPtable ;;;
          ret (Some 0)
        else ret None)
      (release LPtable ;;; ret (-1)))
    (fun r c' k' => held c' = [] /\ woken c' = woken c /\
       match list_find (fun p => pid p = id) (ptable k) with
       | Some (i, p) => r = 0 /\ k' = with_proc i (set_pending (Z.lor (pending p) (bit signum)) p) k
       | None => r = -1 /\ k' = k
       end) c k.
Proof.
  intros Hh. revert j. induction n as [|n IH]; intros j Hn Hno; cbn [seq forb].
  - apply wp_bind. eapply wp_release; [exact Hh|]. apply wp_ret. split; [done|]. split; [done|].
    replace (list_find _ _) with (@None (nat * proc)); [done|]. symmetry. apply list_find_None, Forall_lookup.
    intros i p Hp. apply (Hno i p); [|done]. apply lookup_lt_Some in Hp. lia.
  - destruct (lookup_lt_is_Some_2 (ptable k) j) as [p Hp]; [lia|]. apply wp_bind. kst_steps.
    rewrite (pget_lookup _ _ p Hp). destruct (Z.eqb_spec (pid p) id) as [E|E].
    + kst_steps. eapply wp_release; [exact Hh|]. kst_steps. split; [done|]. split; [done|].
      replace (list_find _ _) with (Some (j, p)).
      * split; [done|]. unfold with_proc. now apply (pset_ext _ _ _ _ p).
      * symmetry. apply list_find_Some. split; [done|]. split; [done|]. intros i y Hy Hi. now apply (Hno i y).
    + kst_steps. apply IH; [lia|]. intros i q Hi Hq. destruct (decide (i = j)) as [->|]; [congruence|].
      apply (Hno i q); [lia|done].
Qed.

(** C32: kill(pid, signum) with a legal signal number sets that signal's bit in
    the first process of the table with that pid, changes nothing else, and
    returns 0; with no such process, or with an illegal number, it changes
    nothing and returns -1.  The table lock is free again afterwards. *)
Theorem kill_posts_signal id signum c (k : kst F) :
  held c = [] -> length (ptable k) = NPROC ->
  wp (kill id signum)
    (fun r c' k' => c' = c /\
       match (if (0 <=? signum) && (signum <=? 31)
              then list_find (fun p => pid p = id) (ptable k) else None) with
       | Some (i, p) =>
           r = 0 /\ exists p', k' = with_proc i p' k /\ p' = set_pending (pending p') p /\
             forall j, 0 <= j <= 31 -> hasSignal p' j = hasSignal p j || (j =? signum)
       | None => r = -1 /\ k' = k
       end) c k.
Proof.
  intros Hh Hlen. unfold kill. destruct c as [h w]. cbn [held] in Hh. subst h.
  destruct (Z.leb_spec 0 signum), (Z.leb_spec signum 31); cbn [andb]; try (now apply wp_ret).
  apply wp_bind, wp_acquire; [set_solver|].
  eapply wp_mono; [apply (kill_loop id signum 0 NPROC); [done|now rewrite Hlen|lia]|].
  intros r [h' w'] k' (Eh & Ew & Hr). cbn in Eh, Ew. subst. split; [done|].
  destruct (list_find _ _) as [[i p]|]; [|done]. destruct Hr as [-> ->]. split; [done|]. eexists. split; [done|].
  split; [now destruct p|]. intros j Hj. unfold hasSignal. cbn [pending set_pending].
  rewrite !land_bit_gt0, Z.lor_spec, bit_testbit by lia. done.
Qed.
End Kill.

(** * Stopping *)

Section Stop.
Context {F : Type} `{FileOps F}.

(** C33: a process in handle_SIGSTOP gives up the CPU, runnable and with no lock
    held, each time it finds neither SIGCONT nor SIGKILL pending, and returns
    the first time it is scheduled with one of them pending, in the state it
    finds then: whatever the states [ks] it is resumed in, it returns in the
    first one of the sequence k :: ks that is [awake], and if none is it is still
    waiting. *)
Theorem handle_SIGSTOP_waits fuel cur w (ks : list (kst F)) (k : kst F) :
  (length ks < fuel)%nat ->
  (forall k', k' ∈ k :: ks -> is_Some (ptable k' !! cur)) ->
  match list_find (fun k => awake cur k = true) (k :: ks) with
  | Some (0%nat, _) => handle_SIGSTOP fuel cur (Ctx [] w) k = Ret tt (Ctx [] w) k
  | Some (_, k') =>
      resume_with (handle_SIGSTOP fuel cur (Ctx [] w) k) ks = Ret tt (Ctx [] []) k'
  | None => exists ch s res,
      resume_with (handle_SIGSTOP fuel cur (Ctx [] w) k) ks = Sleep ch [] s res /\
      state (pget cur s) = RUNNABLE
  end.
Proof.
  revert w k ks. induction fuel as [|fuel IH]; intros w k ks Hlen Hcur; [lia|].
  rewrite handle_SIGSTOP_step by (apply Hcur, elem_of_cons; now left). cbn [list_find]. destruct (awake cur k) eqn:Ea; cbn.
  { rewrite decide_True by done. done. }
  rewrite decide_False by done. destruct ks as [|k1 ks].
  - cbn. do 3 eexists. split; [done|]. destruct (Hcur k) as [p Hp]; [apply elem_of_cons; now left|].
    now rewrite (pget_pset_eq _ _ _ p Hp).
  - cbn [resume_with]. cbn [length] in Hlen.
    specialize (IH [] k1 ks ltac:(lia) (fun k' H => Hcur k' (proj2 (elem_of_cons _ _ _) (or_intror H)))).
    destruct (list_find (fun k => awake cur k = true) (k1 :: ks)) as [[[|i] k']|] eqn:El; cbn [fmap option_fmap option_map prod_map].
    + rewrite IH. apply list_find_Some in El as (E & Ha & _). injection E as <-. now destruct ks.
    + exact IH.
    + exact IH.
Qed.
End Stop.

(** * Handling and returning *)

Section Handling.
Context {F : Type} `{FileOps F}.
Variables kdata call_sigret_syscall end_sigret_syscall kend : Z.
Abbreviation deliverable := (deliverable kdata call_sigret_syscall end_sigret_syscall kend).
Abbreviation delivered := (delivered call_sigret_syscall end_sigret_syscall kend).
Abbreviation check_kernel_sigs := (check_kernel_sigs kdata call_sigret_syscall end_sigret_syscall).
Abbreviation check_from := (check_from kdata call_sigret_syscall end_sigret_syscall).

(** C3: check_kernel_sigs of a process that runs with no lock held, and its loop
    from any signal [j] on, implement the specification [spec_scan].  With the
    pending signals read as a set, the signals are taken in increasing order; a
    pending one that is not masked is dropped if it is ignored; SIGCONT by default
    drops SIGSTOP and SIGCONT; an explicit SIGCONT drops SIGSTOP and toggles
    SIGCONT (twice, for signal 19 itself); a stop (SIGSTOP by default, or
    explicitly) does nothing when SIGCONT or SIGKILL is pending; any other
    default, and an explicit SIGKILL, mark the process killed; and a user handler
    ends the scan, with memory changed exactly as [delivered] says (which needs
    [deliverable]).  A stop with neither SIGCONT nor SIGKILL pending gives up the
    CPU until the process is scheduled with one of them pending, and then goes on
    with the next signal, with the mask restored from mask_backup.  All signals
    are masked while a handler or a stop is entered; otherwise the mask and the
    memory are as before.  mask_backup holds the mask if a signal was handled at
    all.  Of the process only pending, killed, mask and mask_backup change (and
    the state, to RUNNABLE, while it is stopped), and nothing else of the kernel's
    state does. *)
Theorem check_kernel_sigs_refines n cur j l p w (k : kst F) :
  ptable k !! cur = Some p -> scan_ok p ->
  (forall i, (spec_scan (handler p) (sigset (mask p)) (signals_from j) (sig_abs p)).2 = Handler i ->
     deliverable k cur l) ->
  let o := check_from (S n) cur j (Ctx [] w) k in
  (j = 0%nat -> check_kernel_sigs (S n) (Some cur) (Ctx [] w) k = o) /\
  exists p',
    let '(st, d) := spec_scan (handler p) (sigset (mask p)) (signals_from j) (sig_abs p) in
    sig_abs p' = st /\ same_but_signals p p' /\
    mask_backup p' = (if existsb (active p) (signals_from j) then mask p else mask_backup p) /\
    match d with
    | Through => o = Ret tt (Ctx [] w) (with_proc cur p' k) /\ mask p' = mask p
    | Handler i => mask p' = 0 /\
        exists m', delivered k cur l i m' /\ o = Ret tt (Ctx [] w) (with_proc cur p' (kwith m' k))
    | Stopped i => mask p' = 0 /\
        waits cur (fun k' => handler (pget cur k') i = handler p i)
          (fun k' => check_from (S n) cur (S (Z.to_nat i)) (Ctx [] [])
                       (pset cur (fun q => set_mask (mask_backup q) q) k'))
          n (with_proc cur p' k) o
    end.
Proof.
  intros Hp Hok Hdv o. split; [intros ->; now apply (check_kernel_sigs_loop _ _ _ _ _ p)|].
  pose proof (sig_scan_refines (signals_from j) p (signals_range j)) as E. rewrite E in *. cbn [snd] in Hdv.
  destruct (sig_scan_masks (signals_from j) p) as [M1 M2].
  pose proof (sig_scan_same (signals_from j) p) as Hs.
  assert (Hc : is_Some (ptable k !! cur)) by (rewrite Hp; eauto).
  pose proof (check_loop kdata call_sigret_syscall end_sigret_syscall kend n cur l (signals_from j) w p k Hc
    (signals_range j) Hok) as Hl.
  rewrite (with_proc_same _ _ _ Hp) in Hl. specialize (Hl Hdv). unfold loop_ends in Hl.
  rewrite (with_proc_same _ _ _ Hp) in Hl. fold (check_from (S n) cur j (Ctx [] w) k) in Hl. fold o in Hl.
  exists (sig_scan (signals_from j) p).1. split; [done|]. split; [done|]. split; [done|].
  destruct (sig_scan (signals_from j) p) as [p' [|i|i]]; cbn [fst snd] in *; [done|done|].
  split; [done|]. destruct Hl as (pre & js' & ->%signals_split & Hw). exact Hw.
Qed.

(** What user code leaves for sigret to find: the process on its page table and
    kernel stack, and the bytes at [trap_backup] as they were.  Its masks are not
    part of it. *)
Record handler_ran (k1 k2 : kst F) (cur : nat) (l : list Z) : Prop := {
  hr_cur : is_Some (ptable k2 !! cur);
  hr_cr3 : h_cr3 (ks_hw k2) = V2P (pgdir (pget cur k1));
  hr_frame : frame kend (kmemof k2) (pgdir (pget cur k1)) l (kstack (pget cur k1));
  hr_same : same_frame (pget cur k1) (pget cur k2);
  hr_readable : readable (kmemof k2) (pgdir (pget cur k1)) (trap_backup (pget cur k1)) TF_SIZE;
  hr_backup : ubs (kmemof k2) (pgdir (pget cur k1)) (trap_backup (pget cur k1)) (Z.to_nat TF_SIZE) =
              ubs (kmemof k1) (pgdir (pget cur k1)) (trap_backup (pget cur k1)) (Z.to_nat TF_SIZE)
}.

Variables trapret_addr forkret_addr ts_addr : Z.
Variable sys_file : sysno -> nat -> M (kst F) Z.
Variable cprintf : (Z -> list Z) -> list Z -> list Z -> M (kst F) unit.
Variable fuel : nat.
Abbreviation syscall := (syscall kdata kend trapret_addr forkret_addr ts_addr sys_file cprintf fuel).

(** The system call sigret: the frame comes from [trap_backup], then the result
    1 of the call goes to eax. *)
Lemma wp_syscall_sigret cur l p (Q : unit -> ctx -> kst F -> Prop) c (k : kst F) :
  ptable k !! cur = Some p -> h_cr3 (ks_hw k) = V2P (pgdir p) ->
  frame kend (kmemof k) (pgdir p) l (kstack p) -> page_ok kend (kstack p) -> kdata <= kstack p ->
  tf p = kstack p + KSTACKSIZE - TF_SIZE -> readable (kmemof k) (pgdir p) (trap_backup p) TF_SIZE ->
  ld32 (kmemof k) (tf p + TF_EAX) = 24 ->
  Q tt c (with_proc cur (set_mask (mask_backup p) p)
           (kwith (st32 (sts (kmemof k) (tf p) (ubs (kmemof k) (pgdir p) (trap_backup p) (Z.to_nat TF_SIZE)))
                     (tf p + TF_EAX) 1) k)) ->
  wp (syscall cur) Q c k.
Proof.
  intros Hp Hcr3 Hfr Hks Hkd Htf Hr Heax HQ. unfold Trap.syscall. kst_steps. rewrite (pget_lookup _ _ p Hp), Heax.
  cbn [s32]. change (s32 24) with 24. cbn [Z.ltb Z.compare Pos.compare Pos.compare_cont andb].
  change (24 <? Z.of_nat (length syscalls)) with true. cbn [andb].
  change (aget None syscalls 24) with (Some SYS_sigret). cbn [sys_call]. unfold sys_sigret.
  apply wp_bind, wp_bind. eapply (wp_sigret kdata kend cur l p); try done. kst_steps.
  rewrite pget_with by (cbn; rewrite Hp; eauto). exact HQ.
Qed.


(** A 76-byte frame [bs] stored at [t], then eax overwritten. *)
Lemma frame_bytes m t bs :
  length bs = 76%nat ->
  let m' := st32 (sts m t bs) (t + TF_EAX) 1 in
  lds m' t 28 = take 28 bs /\ ld32 m' (t + TF_EAX) = 1 /\ lds m' (t + 32) 44 = drop 32 bs.
Proof.
  intros Hl m'. subst m'. unfold TF_EAX. split; [|split].
  - unfold st32. rewrite lds_sts_disj by lia. rewrite <- (firstn_skipn 28 bs) at 1.
    pose proof (lds_sts_same m t bs) as E. rewrite Hl in E. change 76%nat with (28 + 48)%nat in E.
    rewrite lds_app in E. rewrite firstn_skipn. rewrite <- E at 2. now rewrite take_app_length' by now rewrite length_lds.
  - apply ld32_st32_eq. unfold is_u32. lia.
  - unfold st32. rewrite lds_sts_disj by (rewrite length_le_bytes; lia).
    pose proof (lds_sts_same m t bs) as E. rewrite Hl in E. change 76%nat with (32 + 44)%nat in E.
    rewrite lds_app in E. rewrite <- E at 2. change (Z.of_nat 32) with 32.
    now rewrite drop_app_length' by now rewrite length_lds.
Qed.

(** C2: delivery and sigret are inverse, but for eax.  Let check_kernel_sigs start
    the user handler of signal i, where the handler's frame can be written (the
    conditions of [deliverable]) and does not overlap the area trap_backup.  The
    process enters the handler with the interrupted trap frame and mask saved and
    all signals masked, and as long as they are masked check_kernel_sigs changes
    nothing.  In any later state [k2] in which the process is on the same page
    table and kernel stack and the bytes at trap_backup are unchanged
    ([handler_ran]), the system call sigret restores every byte of the interrupted
    trap frame except the register eax, which is left with the result 1 of the
    call, and sets the mask to the process's mask_backup: the interrupted mask,
    unless the handler has unmasked signals and one was handled since. *)
Theorem signal_roundtrip n cur l p i w (k : kst F) :
  ptable k !! cur = Some p -> scan_ok p -> deliverable k cur l ->
  (spec_scan (handler p) (sigset (mask p)) (signals_from 0) (sig_abs p)).2 = Handler i ->
  trap_backup p + TF_SIZE <= user_esp k cur - sigret_size call_sigret_syscall end_sigret_syscall - 8 \/
    user_esp k cur <= trap_backup p ->
  wp (check_kernel_sigs (S n) (Some cur))
    (fun _ _ k1 =>
       ld32 (kmemof k1) (tf p + TF_EIP) = handler p i /\
       mask (pget cur k1) = 0 /\ mask_backup (pget cur k1) = mask p /\
       (forall (k2 : kst F) c2, is_Some (ptable k2 !! cur) -> mask (pget cur k2) = 0 ->
          check_kernel_sigs (S n) (Some cur) c2 k2 = Ret tt c2 k2) /\
       forall k2 c2, handler_ran k1 k2 cur l -> ld32 (kmemof k2) (tf p + TF_EAX) = 24 ->
         wp (syscall cur)
           (fun _ _ k3 => mask (pget cur k3) = mask_backup (pget cur k2) /\
              lds (kmemof k3) (tf p) 28 = lds (kmemof k) (tf p) 28 /\
              ld32 (kmemof k3) (tf p + TF_EAX) = 1 /\
              lds (kmemof k3) (tf p + 32) 44 = lds (kmemof k) (tf p + 32) 44) c2 k2) (Ctx [] w) k.
Proof.
  intros Hp Hok Hdv Hs Hdis. pose proof (pget_lookup _ _ p Hp) as Eg.
  rewrite (sig_scan_refines (signals_from 0) p (signals_range 0)) in Hs. cbn [snd] in Hs.
  assert (Hk : is_Some (ptable k !! cur)) by (rewrite Hp; eauto).
  destruct (sig_scan_masks (signals_from 0) p) as [M1 M2]. rewrite Hs in M1.
  pose proof (sig_scan_same (signals_from 0) p) as (Hf & _)%same_but_signals_frame.
  pose proof (scan_handler_saves _ _ _ Hs) as Hsv. rewrite Hsv in M2.
  apply (wp_check_kernel_sigs kdata call_sigret_syscall end_sigret_syscall kend n cur l p i w k); [done..|]. intros m1 Hd.
  set (p1 := (sig_scan (signals_from 0) p).1) in *. clearbody p1.
  assert (Hc : is_Some (ptable (kwith m1 k) !! cur)) by exact Hk.
  change (kmemof (with_proc cur p1 (kwith m1 k))) with m1. rewrite (pget_with _ _ _ Hc). split.
  { pose proof (delivered_eip _ _ _ _ _ _ _ _ _ Hd Hdv) as Ee. rewrite Eg in Ee. now apply Ee, Hok. }
  split; [done|]. split; [done|]. split.
  { intros k2 c2 [q Hq] Hm. unfold Signal.check_kernel_sigs, bind, gets. cbn [obind]. now rewrite Hm. }
  intros k2 c2 [[p2 Hp2] Hcr3 Hfr Hsf Hrd Hbk] Heax. rewrite pget_with in * by done.
  rewrite (pget_lookup _ _ p2 Hp2) in *. change (kmemof (with_proc cur p1 (kwith m1 k))) with m1 in Hbk.
  destruct Hf as (F1 & F2 & F3 & F4), Hsf as (S1 & S2 & S3 & S4).
  pose proof (delivered_backup _ _ _ _ _ _ _ _ _ Hd Hdv) as Eb. rewrite Eg in Eb.
  specialize (Eb Hdis). pose proof (dv_kstack _ _ _ _ _ _ _ Hdv) as [Hks Hkd].
  pose proof (dv_tf _ _ _ _ _ _ _ Hdv) as Htf. rewrite Eg in *.
  rewrite F1, F2, F3, F4 in *. rewrite S1, S2, S3, S4 in *.
  apply (wp_syscall_sigret cur l p2); try done.
  rewrite pget_with by (cbn; rewrite Hp2; eauto). rewrite Hbk, Eb.
  destruct (frame_bytes (kmemof k2) (tf p2) (lds (kmemof k) (tf p2) 76)) as (B1 & B2 & B3);
    [now rewrite length_lds|].
  split; [done|]. change (Z.to_nat TF_SIZE) with 76%nat.
  split; [|split].
  - etransitivity; [exact B1|]. change 76%nat with (28 + 48)%nat. rewrite lds_app.
    now rewrite take_app_length' by now rewrite length_lds.
  - exact B2.
  - etransitivity; [exact B3|]. change 76%nat with (32 + 44)%nat. rewrite lds_app.
    now rewrite drop_app_length' by now rewrite length_lds.
Qed.

End Handling.

(** * A concrete process *)

#[local] Existing Instance no_files.

(** One user page at address 0, a kernel stack, and the injected code, with the
    user stack pointer at the top of the page. *)
Module Sample.
Definition kend : Z := 0x80115000.
Definition kdata : Z := 0x80108000.
Definition call_sigret : Z := 0x80106000.
Definition end_sigret : Z := 0x80106007.
Definition D : Z := 0x80400000.
Definition T : Z := 0x80401000.
Definition U : Z := 0x80402000.
Definition KS : Z := 0x80403000.
Definition m0 : mem :=
  sts (st32 (st32 (st32 ∅ D 0x401007) T 0x402007) (KS + 4088) 4096)
    call_sigret [0xb8; 24; 0; 0; 0; 0xcd; 64].

(** Signal 2 is pending and has a user handler at address 100. *)
Definition p0 : proc :=
  Proc 4096 D KS RUNNING 5 None (KS + 4020) 0 None 0 (replicate NOFILE None) None (replicate 16 0)
    4 0xffffffff 0 (<[2%nat := 100]> (replicate 32 SIG_DFL)) 0.
Definition k0 : kst unit :=
  Kst (Kmem m0 0 true) (Hw [] (0, 0) 0 0 0 0 0x400000 (0, 0)) (p0 :: replicate 63 proc0) 5 None 0 false tt.

Lemma ld32_far a :
  (a + 4 <= call_sigret \/ call_sigret + 7 <= a) -> (a + 4 <= KS + 4088 \/ KS + 4092 <= a) ->
  ld32 m0 a = ld32 (st32 (st32 ∅ D 0x401007) T 0x402007) a.
Proof.
  intros H1 H2. unfold m0, ld32. rewrite lds_sts_disj by (cbn; lia).
  apply (ld32_st32_ne (st32 (st32 ∅ D 0x401007) T 0x402007) (KS + 4088) a 4096). lia.
Qed.

Lemma pde_m0 i : 0 <= i < 1024 -> pde_at m0 D i = if i =? 0 then 0x401007 else 0.
Proof.
  intros Hi. unfold pde_at. rewrite ld32_far by (unfold D, KS, call_sigret; lia).
  rewrite ld32_st32_ne by (unfold D, T; lia). destruct (Z.eqb_spec i 0) as [->|].
  - apply ld32_st32_eq. unfold is_u32. lia.
  - rewrite ld32_st32_ne by (unfold D; lia). reflexivity.
Qed.

Lemma pte_m0 va : is_u32 va -> pte_val m0 D va = if va / PGSIZE =? 0 then 0x402007 else 0.
Proof.
  intros Hva. unfold pte_val. pose proof (PDX_range va) as R1. pose proof (PTX_range va) as R2.
  rewrite (PDX_PTX_page va), pde_m0 by done.
  destruct (Z.eqb_spec (PDX va) 0) as [E|E].
  - cbn [present]. change (present 0x401007) with true. change (pgtab_of 0x401007) with T. cbn iota.
    rewrite ld32_far by (unfold T, KS, call_sigret; lia).
    destruct (Z.eqb_spec (PDX va * 1024 + PTX va) 0) as [E'|E'].
    + replace (PTX va) with 0 by lia. apply ld32_st32_eq. unfold is_u32. lia.
    + rewrite ld32_st32_ne by (unfold T; lia). rewrite ld32_st32_ne by (unfold D, T; lia). reflexivity.
  - change (present 0) with false. cbn iota. destruct (Z.eqb_spec (PDX va * 1024 + PTX va) 0); [lia|done].
Qed.

Lemma page_in a : a = D \/ a = T \/ a = U \/ a = KS -> page_ok kend a.
Proof. intros H. repeat destruct H as [->|H]; try subst a; split_and!; (reflexivity || discriminate). Qed.

Lemma data_in q : q = U \/ q = KS -> data_page m0 D [] q.
Proof.
  intros Hq. split; [destruct Hq as [->| ->]; reflexivity|]. split; [set_solver|].
  split; [destruct Hq as [->| ->]; discriminate|]. intros i Hi. rewrite pde_m0 by done.
  destruct (Z.eqb_spec i 0) as [->|]; [|discriminate]. intros _. destruct Hq as [->| ->]; discriminate.
Qed.

Lemma user_small va : 0 <= va < KERNBASE -> is_u32 va.
Proof. unfold is_u32, KERNBASE. lia. Qed.

Lemma upage_m0 va : 0 <= va < KERNBASE -> present (pte_val m0 D va) = true ->
  va / PGSIZE = 0 /\ upage m0 D va = U.
Proof.
  intros Hva. unfold upage. rewrite pte_m0 by now apply user_small.
  destruct (Z.eqb_spec (va / PGSIZE) 0); [done|discriminate].
Qed.

Lemma frame_m0 : frame kend m0 D [] KS.
Proof.
  split; [split|split; [apply data_in; now right|]].
  - split; [apply page_in; now left|set_solver| |].
    + intros i Hi. rewrite pde_m0 by done. destruct (Z.eqb_spec i 0); [|discriminate]. intros _.
      split; [apply page_in; right; left; reflexivity|]. split; [set_solver|discriminate].
    + intros i j Hi Hj. rewrite !pde_m0 by done.
      destruct (Z.eqb_spec i 0), (Z.eqb_spec j 0); try discriminate. intros; congruence.
  - intros va Hva Hp. destruct (upage_m0 va Hva Hp) as [_ ->].
    split; [apply page_in; auto|apply data_in; now left].
  - intros va va' H1 H2 P1 P2 _. destruct (upage_m0 va H1 P1) as [-> _]. now destruct (upage_m0 va' H2 P2) as [-> _].
  - intros a Ha v Hv Hp. destruct (upage_m0 v Hv Hp) as [_ ->]. unfold KS, U, PGSIZE in *. lia.
Qed.

Lemma writable_m0 va n : 0 <= va -> 0 <= n -> va + n <= PGSIZE -> writable m0 D va n.
Proof.
  intros H0 Hn H1. split; [done|]. split; [unfold KERNBASE, PGSIZE in *; lia|]. intros v Hv.
  rewrite pte_m0 by (unfold is_u32, PGSIZE in *; lia). rewrite Z.div_small by lia. split; [reflexivity|discriminate].
Qed.

Lemma esp_m0 : user_esp k0 0 = 4096.
Proof. vm_compute. reflexivity. Qed.

Lemma deliverable_k0 : deliverable kdata call_sigret end_sigret kend k0 0 [].
Proof.
  split.
  - eauto.
  - reflexivity.
  - exact frame_m0.
  - split; [apply page_in; auto|discriminate].
  - reflexivity.
  - split; [discriminate|]. split; [vm_compute; discriminate|]. intros a Ha. split.
    + intros v Hv Hp. destruct (upage_m0 v Hv Hp) as [_ E]. change (kmemof k0) with m0.
      change (pgdir (pget 0 k0)) with D. rewrite E. change (sigret_size call_sigret end_sigret) with 7 in Ha.
      unfold U, call_sigret, PGSIZE in *. lia.
    + change (sigret_size call_sigret end_sigret) with 7 in Ha. change (kstack (pget 0 k0)) with KS.
      unfold KS, call_sigret, PGSIZE in *. lia.
  - apply writable_m0; vm_compute; discriminate.
  - rewrite esp_m0. apply writable_m0; vm_compute; discriminate.
Qed.

Lemma handlers_p0 i : is_u32 (handler p0 i) /\ (handler p0 i = SIG_DFL \/ handler p0 i = 100 \/ handler p0 i = 0).
Proof.
  unfold handler, aget. destruct (handlers p0 !! Z.to_nat i) as [h|] eqn:E; [|cbn; unfold is_u32; lia]. change (default 0 (Some h)) with h.
  unfold p0 in E. cbn [handlers] in E.
  assert (Hh : h = SIG_DFL \/ h = 100).
  { apply list_lookup_insert_Some in E as [(_ & <- & _)|(_ & E)]; [now right|left].
    now apply lookup_replicate in E as [-> _]. }
  unfold is_u32, SIG_DFL in *. lia.
Qed.

Lemma scan_ok_p0 : scan_ok p0.
Proof. split; [discriminate|intros i; apply handlers_p0]. Qed.

(** The same process with SIGSTOP pending instead. *)
Definition p_stop : proc := set_pending (bit SIGSTOP) p0.
Definition k_stop : kst unit := with_proc 0 p_stop k0.
End Sample.

Lemma kill_posts_signal_witness :
  wp (kill 5 9) (fun r _ k' => r = 0 /\ hasSignal (pget 0 k') 9 = true) (Ctx [] []) Sample.k0.
Proof.
  eapply wp_mono; [exact (kill_posts_signal 5 9 (Ctx [] []) Sample.k0 eq_refl eq_refl)|].
  cbn -[hasSignal with_proc]. intros r c' k' (_ & -> & p' & -> & _ & Hs). split; [done|].
  rewrite pget_with by (cbn; eauto). now rewrite Hs by lia.
Defined.

Lemma handle_SIGSTOP_waits_witness :
  resume_with (handle_SIGSTOP 3 0 (Ctx [] []) Sample.k0)
    [Sample.k0; pset 0 (set_pending (bit SIGCONT)) Sample.k0] =
  Ret tt (Ctx [] []) (pset 0 (set_pending (bit SIGCONT)) Sample.k0).
Proof.
  refine (handle_SIGSTOP_waits 3 0 [] [Sample.k0; pset 0 (set_pending (bit SIGCONT)) Sample.k0] Sample.k0 _ _).
  - cbn. lia.
  - intros k' Hk. repeat (apply elem_of_cons in Hk as [->|Hk]); [cbn; eauto..|set_solver].
Defined.

(** A handler starts for signal 2; with SIGSTOP pending the process gives up the
    CPU. *)
Lemma check_kernel_sigs_refines_witness :
  (exists p' m', check_kernel_sigs Sample.kdata Sample.call_sigret Sample.end_sigret 2 (Some 0%nat) (Ctx [] []) Sample.k0 =
     Ret tt (Ctx [] []) (with_proc 0 p' (kwith m' Sample.k0)) /\
     sig_abs p' = (∅, false) /\ mask p' = 0 /\ mask_backup p' = 0xffffffff) /\
  (exists ch s res, check_kernel_sigs Sample.kdata Sample.call_sigret Sample.end_sigret 2 (Some 0%nat) (Ctx [] []) Sample.k_stop =
     Sleep ch [] s res).
Proof.
  split.
  - destruct (check_kernel_sigs_refines Sample.kdata Sample.call_sigret Sample.end_sigret Sample.kend
      1 0 0 [] Sample.p0 [] Sample.k0 eq_refl Sample.scan_ok_p0 (fun _ _ => Sample.deliverable_k0)) as (E0 & p' & Hp).
    rewrite (E0 eq_refl).
    replace (spec_scan (handler Sample.p0) (sigset (mask Sample.p0)) (signals_from 0) (sig_abs Sample.p0))
      with ((∅ : gset Z), false, Handler 2) in Hp by (vm_compute; reflexivity).
    destruct Hp as (Ea & _ & Eb & Em & m' & _ & Eo). exists p', m'. split; [exact Eo|]. split; [exact Ea|].
    split; [exact Em|]. rewrite Eb. vm_compute. reflexivity.
  - assert (Ev : spec_scan (handler Sample.p_stop) (sigset (mask Sample.p_stop)) (signals_from 0) (sig_abs Sample.p_stop) =
      ({[SIGSTOP]}, false, Stopped SIGSTOP)) by (vm_compute; reflexivity).
    destruct (check_kernel_sigs_refines Sample.kdata Sample.call_sigret Sample.end_sigret Sample.kend
      1 0 0 [] Sample.p_stop [] Sample.k_stop eq_refl) as (E0 & p' & Hp).
    + split; [discriminate|intros i; apply Sample.handlers_p0].
    + intros i. rewrite Ev. discriminate.
    + rewrite (E0 eq_refl). rewrite Ev in Hp. destruct Hp as (_ & _ & _ & _ & Hw). inversion Hw. eauto.
Defined.

(** Delivery of signal 2 to the handler at 100, then sigret with the frame the
    handler left but for the call number in eax. *)
Lemma signal_roundtrip_witness :
  wp (check_kernel_sigs Sample.kdata Sample.call_sigret Sample.end_sigret 1 (Some 0%nat))
    (fun _ _ k1 => ld32 (kmemof k1) (tf Sample.p0 + TF_EIP) = 100 /\
       exists k2, ld32 (kmemof k2) (tf Sample.p0 + TF_EAX) = 24 /\
         wp (syscall Sample.kdata Sample.kend 0 0 0 (fun _ _ => ret 0) (fun _ _ _ => ret tt) 1 0)
           (fun _ _ k3 => mask (pget 0 k3) = 0xffffffff /\
              lds (kmemof k3) (tf Sample.p0 + 32) 44 = lds Sample.m0 (tf Sample.p0 + 32) 44) (Ctx [] []) k2)
    (Ctx [] []) Sample.k0.
Proof.
  eapply wp_mono; [apply wp_and; [
    exact (signal_roundtrip Sample.kdata Sample.call_sigret Sample.end_sigret Sample.kend 0 0 0
      (fun _ _ => ret 0) (fun _ _ _ => ret tt) 1 0 0 [] Sample.p0 2 [] Sample.k0 eq_refl Sample.scan_ok_p0 Sample.deliverable_k0
      ltac:(vm_compute; reflexivity) ltac:(left; rewrite Sample.esp_m0; vm_compute; discriminate))
  |exact (wp_check_kernel_sigs Sample.kdata Sample.call_sigret Sample.end_sigret Sample.kend 0 0 [] Sample.p0 2 []
      Sample.k0 (fun _ _ k1 => exists m', delivered Sample.call_sigret Sample.end_sigret Sample.kend Sample.k0 0 [] 2 m' /\
        k1 = with_proc 0 (sig_scan (signals_from 0) Sample.p0).1 (kwith m' Sample.k0)) eq_refl Sample.scan_ok_p0 Sample.deliverable_k0 ltac:(vm_compute; reflexivity)
      (fun m' Hd => ex_intro _ m' (conj Hd eq_refl)))]|].
  intros [] c1 k1 [(Heip & _ & _ & _ & Hret) (m1 & Hd & ->)]. split; [exact Heip|].
  set (p1 := (sig_scan (signals_from 0) Sample.p0).1) in *. vm_compute in p1.
  unfold delivered in Hd.
  pose proof (changed_sts _ _ _ _ _ _ _ _ (tf Sample.p0 + TF_EAX) (le_bytes 4 24) Hd
    ltac:(vm_compute; discriminate) ltac:(vm_compute; discriminate)) as Hd2.
  set (m2 := sts m1 (tf Sample.p0 + TF_EAX) (le_bytes 4 24)) in *.
  assert (Hpg : pget 0 (with_proc 0 p1 (kwith m1 Sample.k0)) = p1) by reflexivity.
  exists (with_proc 0 p1 (kwith m2 Sample.k0)). split; [now apply ld32_st32_eq|].
  eapply wp_mono; [apply Hret|].
  - split; rewrite ?Hpg.
    + cbn. eauto.
    + reflexivity.
    + apply Hd2.
    + now split_and!.
    + apply writable_readable, (writable_changed _ _ _ _ _ _ _ _ _ _ Hd2), Sample.writable_m0; vm_compute; discriminate.
    + apply list_fmap_ext. intros j x Hx. apply zrange_lookup in Hx as [-> Hj].
      change (Z.to_nat TF_SIZE) with 76%nat in Hj.
      assert (Hw : writable Sample.m0 Sample.D 0 76) by (apply Sample.writable_m0; vm_compute; discriminate).
      destruct Hw as (_ & _ & Hw). change (trap_backup p1) with 0.
      etransitivity; [exact (ch_user _ _ _ _ _ _ _ _ Hd2 (0 + Z.of_nat j) ltac:(unfold KERNBASE; lia) (proj1 (Hw (0 + Z.of_nat j) ltac:(lia))))|].
      symmetry. exact (ch_user _ _ _ _ _ _ _ _ Hd (0 + Z.of_nat j) ltac:(unfold KERNBASE; lia) (proj1 (Hw (0 + Z.of_nat j) ltac:(lia)))).
  - now apply ld32_st32_eq.
  - intros [] c3 k3 (Hm & _ & _ & Hl). split; [exact Hm|exact Hl].
Defined.

(** * System-call arguments of the concrete process *)

(** The same process with its stack pointer at 16, a first argument 40, and the
    string "hi" at 40. *)
Definition arg_bytes : list Z := replicate 20 0 ++ le_bytes 4 40 ++ replicate 16 0 ++ [104; 105; 0].
Definition arg_mem : mem := sts (sts Sample.m0 Sample.U arg_bytes) (Sample.KS + 4088) (le_bytes 4 16).
Definition arg_state16 : kst unit := kwith arg_mem Sample.k0.

Lemma arg_state_ready : user_ready Sample.kend arg_state16 0 [].
Proof.
  destruct Sample.frame_m0 as (Hok & Hks & _).
  destruct (uvm_ok_sts Sample.kend Sample.m0 Sample.D [] Sample.U Sample.U arg_bytes)
    as (Ok1 & D1 & P1); [done|apply Sample.data_in; now left|vm_compute; discriminate..|].
  destruct (uvm_ok_sts Sample.kend _ Sample.D [] Sample.KS (Sample.KS + 4088) (le_bytes 4 16) Ok1 (D1 _ Hks))
    as (Ok2 & _ & P2); [vm_compute; discriminate..|].
  split; [reflexivity|exact Ok2|].
  split; [reflexivity|]. split; [vm_compute; discriminate|]. intros v Hv.
  change (pget 0 arg_state16) with Sample.p0 in *. change (sz Sample.p0) with 4096 in Hv.
  change (kmemof arg_state16) with arg_mem. change (pgdir Sample.p0) with Sample.D. unfold arg_mem. rewrite P2, P1.
  rewrite Sample.pte_m0 by (unfold is_u32; lia). rewrite Z.div_small by (unfold PGSIZE; lia). reflexivity.
Qed.

Lemma arg_word : uword arg_state16 0 (arg_addr arg_state16 0 0) = 40.
Proof. vm_compute. reflexivity. Qed.

Lemma argptr_in_bounds_witness :
  wp (argptr Sample.kdata 0 0 100) (fun r _ _ => r = Some 40) (Ctx [] []) arg_state16.
Proof.
  eapply wp_mono; [apply (argptr_in_bounds Sample.kend Sample.kdata arg_state16 0 [] 0 100 (Ctx [] [])
    arg_state_ready eq_refl); rewrite arg_word; split; [discriminate|reflexivity]|].
  intros r c' k' (_ & _ & E). cbn zeta in E. rewrite arg_word in E. rewrite E. vm_compute. reflexivity.
Defined.

Lemma argstr_terminated_witness :
  wp (argstr Sample.kdata 0 0)
    (fun r _ _ => exists len, r = Some (40, len) /\ ubyte arg_state16 0 (40 + len) = 0) (Ctx [] []) arg_state16.
Proof.
  eapply wp_mono; [apply (argstr_terminated Sample.kend Sample.kdata arg_state16 0 [] 0 (Ctx [] [])
    arg_state_ready); rewrite arg_word; split; [discriminate|reflexivity]|].
  intros r c' k' (_ & _ & E). cbn zeta in E. rewrite arg_word in E. destruct r as [[a len]|].
  - destruct E as (-> & _ & _ & Hz & _). exists len. split; [reflexivity|exact Hz].
  - exfalso. destruct E as [E|E].
    + vm_compute in E. discriminate.
    + apply (E 42); [change (sz (pget 0 arg_state16)) with 4096; lia|]. vm_compute. reflexivity.
Defined.
