(* ===== verification/Sched.v ===== *)
(** proc.c's [scheduler] on several CPUs, with the interrupts they take: a step
    relation between the process table, [ptable.lock] and what each CPU is
    executing, at the granularity of the accesses to them, and the invariant that a process runs on at most one
    CPU. *)
From S2P Require Import Prelude Monad Mmu Kalloc Hw FileIface Proc.

(** What a CPU executes.  [i] is the index of the scheduler's loop, which its
    stack keeps while a process runs. *)
Inductive cpc : Type :=
| Idle                        (* in [scheduler], before [acquire], interrupts on *)
| Intr                        (* an interrupt taken there, in [wakeup] with the lock *)
| Scan (i : nat)              (* in the loop over the table, holding the lock *)
| User (p i : nat)            (* process [p], without the lock *)
| Locked (p i : nat)          (* process [p], holding the lock *)
| Leaving (p i : nat).        (* back in [scheduler] from [p], holding the lock *)

(** A CPU: what it executes, and its [c->proc]. *)
Record scpu : Type := Scpu { pc : cpc; curr : option nat }.
Record sys : Type := Sys { procs : list proc; lock_of : option nat; cpus : list scpu }.

Definition set_st (q : nat) (v : procstate) (ps : list proc) : list proc := alter (set_state v) q ps.

(** The processes a CPU at a given point runs. *)
Definition runs (x : cpc) : option nat :=
  match x with User p _ | Locked p _ => Some p | _ => None end.
Definition has_lock (x : cpc) : bool :=
  match x with Intr | Scan _ | Locked _ _ | Leaving _ _ => true | _ => false end.

(** One step of CPU [c]: from its state and the shared state to the next. *)
Inductive cpu_step (c : nat) : list proc * option nat * scpu -> list proc * option nat * scpu -> Prop :=
(* scheduler *)
| st_acquire ps : cpu_step c (ps, None, Scpu Idle None) (ps, Some c, Scpu (Scan 0) None)
| st_skip ps i p : ps !! i = Some p -> state p <> RUNNABLE ->
    cpu_step c (ps, Some c, Scpu (Scan i) None) (ps, Some c, Scpu (Scan (S i)) None)
| st_switch ps i p : ps !! i = Some p -> state p = RUNNABLE ->
    cpu_step c (ps, Some c, Scpu (Scan i) None) (set_st i RUNNING ps, Some c, Scpu (Locked i i) (Some i))
| st_end ps i : (length ps <= i)%nat ->
    cpu_step c (ps, Some c, Scpu (Scan i) None) (ps, None, Scpu Idle None)
| st_back ps p i :
    cpu_step c (ps, Some c, Scpu (Leaving p i) (Some p)) (ps, Some c, Scpu (Scan (S i)) None)
(* an interrupt of the timer, the disk or the keyboard between sti and acquire:
   its handler calls wakeup, with no current process *)
| st_intr ps : cpu_step c (ps, None, Scpu Idle None) (ps, Some c, Scpu Intr None)
| st_intr_wakeup ps ch :
    cpu_step c (ps, Some c, Scpu Intr None) (wake_one ch <$> ps, Some c, Scpu Intr None)
| st_intr_end ps : cpu_step c (ps, Some c, Scpu Intr None) (ps, None, Scpu Idle None)
(* the process, or an interrupt that it takes: taking and releasing ptable.lock *)
| st_release ps p i :
    cpu_step c (ps, Some c, Scpu (Locked p i) (Some p)) (ps, None, Scpu (User p i) (Some p))
| st_lock ps p i :
    cpu_step c (ps, None, Scpu (User p i) (Some p)) (ps, Some c, Scpu (Locked p i) (Some p))
(* yield, sleep and exit, up to the switch in sched *)
| st_yield ps p i :
    cpu_step c (ps, Some c, Scpu (Locked p i) (Some p)) (set_st p RUNNABLE ps, Some c, Scpu (Leaving p i) (Some p))
| st_sleep ps p i ch :
    cpu_step c (ps, Some c, Scpu (Locked p i) (Some p))
      (alter (fun q => set_state SLEEPING (set_chan (Some ch) q)) p ps, Some c, Scpu (Leaving p i) (Some p))
| st_exit ps p i :
    cpu_step c (ps, Some c, Scpu (Locked p i) (Some p)) (set_st p ZOMBIE ps, Some c, Scpu (Leaving p i) (Some p))
(* wakeup1, wait's reaping of a zombie, fork's last assignment *)
| st_wakeup ps p i ch :
    cpu_step c (ps, Some c, Scpu (Locked p i) (Some p)) (wake_one ch <$> ps, Some c, Scpu (Locked p i) (Some p))
| st_reap ps p i q z : ps !! q = Some z -> state z = ZOMBIE ->
    cpu_step c (ps, Some c, Scpu (Locked p i) (Some p)) (set_st q UNUSED ps, Some c, Scpu (Locked p i) (Some p))
| st_publish ps p i q z : ps !! q = Some z -> state z = EMBRYO ->
    cpu_step c (ps, Some c, Scpu (Locked p i) (Some p)) (set_st q RUNNABLE ps, Some c, Scpu (Locked p i) (Some p))
(* allocproc's cas and its failure path, without the lock *)
| st_alloc ps l p i q z : ps !! q = Some z -> state z = UNUSED ->
    cpu_step c (ps, l, Scpu (User p i) (Some p)) (set_st q EMBRYO ps, l, Scpu (User p i) (Some p))
| st_free ps l p i q z : ps !! q = Some z -> state z = EMBRYO ->
    cpu_step c (ps, l, Scpu (User p i) (Some p)) (set_st q UNUSED ps, l, Scpu (User p i) (Some p)).

Inductive sys_step : sys -> sys -> Prop :=
| sys_cpu c x ps l cs ps' l' x' :
    cs !! c = Some x -> cpu_step c (ps, l, x) (ps', l', x') ->
    sys_step (Sys ps l cs) (Sys ps' l' (<[c := x']> cs)).

(** All CPUs enter [scheduler] with nothing running. *)
Definition sys_init (s : sys) : Prop :=
  lock_of s = None /\ Forall (fun x => x = Scpu Idle None) (cpus s) /\
  Forall (fun p => state p <> RUNNING) (procs s).

(** * The invariant *)

Definition stat (ps : list proc) (p : nat) : option procstate := state <$> ps !! p.

Record sys_inv (s : sys) : Prop := {
  (* the lock is held by the CPU that thinks so *)
  si_lock c x : cpus s !! c = Some x -> (has_lock (pc x) = true <-> lock_of s = Some c);
  (* c->proc is the process the CPU runs or is leaving *)
  si_curr c x : cpus s !! c = Some x ->
    curr x = match pc x with User p _ | Locked p _ | Leaving p _ => Some p | _ => None end;
  (* a running process is RUNNING, one being left is not *)
  si_running c x p : cpus s !! c = Some x -> runs (pc x) = Some p -> stat (procs s) p = Some RUNNING;
  si_leaving c x p i : cpus s !! c = Some x -> pc x = Leaving p i -> stat (procs s) p <> Some RUNNING;
  (* and conversely *)
  si_cover p : stat (procs s) p = Some RUNNING -> exists c x, cpus s !! c = Some x /\ runs (pc x) = Some p;
  (* no process runs on two CPUs *)
  si_once c c' x x' p : cpus s !! c = Some x -> cpus s !! c' = Some x' ->
    runs (pc x) = Some p -> runs (pc x') = Some p -> c = c'
}.

Lemma sys_init_inv s : sys_init s -> sys_inv s.
Proof.
  destruct s as [ps l cs]. intros (Hl & Hc & Hp). cbn in *. subst l.
  rewrite Forall_lookup in Hc. rewrite Forall_lookup in Hp.
  split; cbn.
  - intros c x Hx. rewrite (Hc _ _ Hx). done.
  - intros c x Hx. rewrite (Hc _ _ Hx). done.
  - intros c x p Hx. rewrite (Hc _ _ Hx). done.
  - intros c x p i Hx. rewrite (Hc _ _ Hx). done.
  - intros p Hs. unfold stat in Hs. apply fmap_Some in Hs as (q & Hq & E). now destruct (Hp _ _ Hq).
  - intros c c' x x' p Hx. rewrite (Hc _ _ Hx). done.
Qed.

Lemma stat_alter_eq f p ps q : ps !! p = Some q -> stat (alter f p ps) p = Some (state (f q)).
Proof. intros E. unfold stat. now rewrite list_lookup_alter_eq, E. Qed.

Lemma stat_alter_ne f p q ps : p <> q -> stat (alter f p ps) q = stat ps q.
Proof. intros E. unfold stat. now rewrite list_lookup_alter_ne. Qed.

Lemma stat_wake ch ps p : stat (wake_one ch <$> ps) p = Some RUNNING <-> stat ps p = Some RUNNING.
Proof.
  unfold stat. rewrite list_lookup_fmap. destruct (ps !! p) as [q|]; [|done]. cbn.
  unfold wake_one. destruct (decide _) as [[E _]|]; [|done]. destruct q; cbn in *. subst. split; intros; discriminate.
Qed.

Lemma state_set v p : state (set_state v p) = v.
Proof. now destruct p. Qed.

(** How a step of CPU [c] from [x] to [x'] keeps the invariant: the set of
    RUNNING processes changes by what [c] stops and starts running. *)
Lemma inv_update ps l cs c x ps' l' x' :
  sys_inv (Sys ps l cs) -> cs !! c = Some x ->
  (has_lock (pc x') = true <-> l' = Some c) -> (forall c', c' <> c -> l' = Some c' <-> l = Some c') ->
  curr x' = match pc x' with User p _ | Locked p _ | Leaving p _ => Some p | _ => None end ->
  (forall q, stat ps' q = Some RUNNING <->
     (stat ps q = Some RUNNING /\ runs (pc x) <> Some q) \/ runs (pc x') = Some q) ->
  (forall q, runs (pc x') = Some q -> runs (pc x) = Some q \/ stat ps q <> Some RUNNING) ->
  (forall p i, pc x' = Leaving p i -> stat ps' p <> Some RUNNING) ->
  (l = Some c \/ forall q, stat ps' q = Some RUNNING -> stat ps q = Some RUNNING) ->
  sys_inv (Sys ps' l' (<[c := x']> cs)).
Proof.
  intros [Il Ic Ir Iv Io Iu] Hx Hl Hl' Hcur HR Hnew Hlv Hmono. cbn in *.
  assert (Hc : (c < length cs)%nat) by (apply lookup_lt_Some in Hx; done).
  assert (Hlook : forall c' y, <[c := x']> cs !! c' = Some y -> c' = c /\ y = x' \/ c' <> c /\ cs !! c' = Some y).
  { intros c' y Hy. apply list_lookup_insert_Some in Hy as [(-> & -> & _)|(Hne & Hy)]; auto. }
  split; cbn.
  - intros c' y Hy. destruct (Hlook c' y Hy) as [(-> & ->)|(Hne & Hy')]; [done|]. rewrite Hl' by done. auto.
  - intros c' y Hy. destruct (Hlook c' y Hy) as [(-> & ->)|(Hne & Hy')]; [done|]. eauto.
  - intros c' y q Hy Hq. apply HR. destruct (Hlook c' y Hy) as [(-> & ->)|(Hne & Hy')]; [now right|left].
    split; [eauto|]. intros E. apply Hne. eauto.
  - intros c' y q i Hy Hq. destruct (Hlook c' y Hy) as [(-> & ->)|(Hne & Hy')]; [eauto|].
    intros HR'. apply (Iv c' y q i Hy' Hq). destruct Hmono as [El|Hm]; [|auto].
    exfalso. assert (Hlk : has_lock (pc y) = true) by (rewrite Hq; done). apply (Il c' y Hy') in Hlk. congruence.
  - intros q Hq. apply HR in Hq as [[Hq Hnq]|Hq].
    + destruct (Io q Hq) as (c' & y & Hy & Hr). assert (Hne : c' <> c) by (intros ->; congruence).
      exists c', y. split; [now rewrite list_lookup_insert_ne|done].
    + exists c, x'. split; [now apply list_lookup_insert_eq|done].
  - intros c1 c2 y1 y2 q H1 H2 R1 R2.
    destruct (Hlook c1 y1 H1) as [(-> & ->)|(N1 & H1')], (Hlook c2 y2 H2) as [(-> & ->)|(N2 & H2')]; [done| | |eauto].
    + destruct (Hnew q R1) as [E|E]; [now apply (Iu c c2 x y2 q)|]. exfalso. apply E. eauto.
    + destruct (Hnew q R2) as [E|E]; [now apply (Iu c1 c y1 x q)|]. exfalso. apply E. eauto.
Qed.

(** A change of state between two states other than RUNNING. *)
Lemma stat_alter_other f q z ps r :
  ps !! q = Some z -> state z <> RUNNING -> state (f z) <> RUNNING ->
  stat (alter f q ps) r = Some RUNNING <-> stat ps r = Some RUNNING.
Proof.
  intros Hq H1 H2. destruct (decide (q = r)) as [<-|Hne]; [|now rewrite stat_alter_ne].
  rewrite (stat_alter_eq _ _ _ z Hq). unfold stat. rewrite Hq. cbn. split; intros [= E]; done.
Qed.

(** The process a CPU runs stops running. *)
Lemma stat_alter_stop f p z ps r :
  ps !! p = Some z -> state (f z) <> RUNNING ->
  stat (alter f p ps) r = Some RUNNING <-> stat ps r = Some RUNNING /\ p <> r.
Proof.
  intros Hp H1. destruct (decide (p = r)) as [<-|Hne]; [|rewrite stat_alter_ne by done; tauto].
  rewrite (stat_alter_eq _ _ _ z Hp). split; [intros [= E]; done|tauto].
Qed.

Lemma stat_Some ps p v : stat ps p = Some v -> exists z, ps !! p = Some z /\ state z = v.
Proof. unfold stat. intros H. apply fmap_Some in H as (z & Hz & ->). eauto. Qed.

(** Leaving the CPU: the three ways [sched] is entered. *)
Lemma inv_leave ps cs c p i f :
  (forall z, state (f z) <> RUNNING) ->
  sys_inv (Sys ps (Some c) cs) -> cs !! c = Some (Scpu (Locked p i) (Some p)) ->
  sys_inv (Sys (alter f p ps) (Some c) (<[c := Scpu (Leaving p i) (Some p)]> cs)).
Proof.
  intros Hf Hi Hx. destruct (stat_Some ps p RUNNING) as (z & Hz & Ez); [exact (si_running _ Hi c _ p Hx eq_refl)|].
  eapply inv_update; [exact Hi|exact Hx|done|done|done| |done| |now left].
  - intros q. rewrite (stat_alter_stop f p z) by auto. cbn. split; [intros [? ?]; left; split; [done|congruence]|].
    intros [[? ?]|?]; [|done]. split; [done|congruence].
  - intros q j [= -> ->]. rewrite (stat_alter_eq _ _ _ z Hz). intros [= E]. now apply (Hf z).
Qed.

(** A step that changes no RUNNING state and keeps what runs. *)
Lemma inv_keep ps l cs c x ps' l' x' :
  sys_inv (Sys ps l cs) -> cs !! c = Some x ->
  (has_lock (pc x') = true <-> l' = Some c) -> (forall c', c' <> c -> l' = Some c' <-> l = Some c') ->
  curr x' = match pc x' with User p _ | Locked p _ | Leaving p _ => Some p | _ => None end ->
  runs (pc x') = runs (pc x) -> (forall p i, pc x' <> Leaving p i) ->
  (forall q, stat ps' q = Some RUNNING <-> stat ps q = Some RUNNING) ->
  sys_inv (Sys ps' l' (<[c := x']> cs)).
Proof.
  intros Hi Hx H1 H2 H3 Er Hnl HR. eapply inv_update; [exact Hi|exact Hx|done|done|done| | | |].
  - intros q. rewrite HR, Er. split.
    + intros Hq. destruct (decide (runs (pc x) = Some q)); tauto.
    + intros [[? _]|E]; [done|]. exact (si_running _ Hi c x q Hx E).
  - intros q E. left. congruence.
  - intros p i E. now destruct (Hnl p i).
  - right. intros q. apply HR.
Qed.

Lemma sys_step_inv s s' : sys_step s s' -> sys_inv s -> sys_inv s'.
Proof.
  intros [c x ps l cs ps' l' x' Hx Hs] Hi. inversion Hs; subst.
  all: try (eapply inv_keep; [exact Hi|exact Hx|done| |done|done|done|done]; intros; split; congruence).
  all: try (apply inv_leave; [intros z; rewrite ?state_set; done|done|done]).
  all: try (eapply inv_keep; [exact Hi|exact Hx|done|done|done|done|done|]; intros; apply stat_wake).
  all: try (eapply inv_keep; [exact Hi|exact Hx| |done|done|done|done|];
            [|intros r; eapply stat_alter_other; [eassumption|congruence|rewrite state_set; done]];
            first [done | exact (si_lock _ Hi c _ Hx)]).
  (* the switch to process [i] *)
  match goal with Hp : ps !! i = Some ?q, Hr : state ?q = RUNNABLE |- _ => rename q into z, Hp into Hz, Hr into Ez end.
  assert (Hst : stat ps i = Some RUNNABLE) by (unfold stat; rewrite Hz; cbn; now rewrite Ez).
  eapply inv_update; [exact Hi|exact Hx|done|done|done| | |done|now left].
  - intros q. unfold set_st. destruct (decide (i = q)) as [<-|Hne].
    + rewrite (stat_alter_eq _ _ _ z Hz), state_set. cbn. tauto.
    + rewrite stat_alter_ne by done. cbn. split; [intros; left; done|]. intros [[? _]|[= ?]]; done.
  - intros q [= <-]. right. rewrite Hst. done.
Qed.

(** C5: the scheduler on any number of CPUs, in any interleaving of its steps
    with yields, sleeps, exits, forks, reaping, and wakeups by processes and by
    the interrupts that running and idle CPUs take: at every moment a
    process is current on at most one CPU, it is in state RUNNING exactly when
    some CPU runs it (so no CPU picks it up a second time), and at most one CPU
    is inside ptable.lock. *)
Theorem scheduler_exclusive s s' :
  sys_init s -> rtc sys_step s s' ->
  (forall p, stat (procs s') p = Some RUNNING <->
     exists c x, cpus s' !! c = Some x /\ runs (pc x) = Some p) /\
  (forall c c' x x' p, cpus s' !! c = Some x -> cpus s' !! c' = Some x' ->
     curr x = Some p -> curr x' = Some p -> c = c') /\
  (forall c c' x x', cpus s' !! c = Some x -> cpus s' !! c' = Some x' ->
     has_lock (pc x) = true -> has_lock (pc x') = true -> c = c').
Proof.
  intros H0 Hr. assert (Hi : sys_inv s').
  { apply sys_init_inv in H0. induction Hr; eauto using sys_step_inv. }
  pose proof Hi as [Il Ic Ir Iv Io Iu]. split; [|split].
  - intros p. split; [apply Io|]. intros (c & x & Hx & E). eauto.
  - assert (Hcase : forall c x p, cpus s' !! c = Some x -> curr x = Some p ->
      runs (pc x) = Some p \/ stat (procs s') p <> Some RUNNING /\ lock_of s' = Some c).
    { intros c x p Hx Hc. rewrite (Ic c x Hx) in Hc. destruct (pc x) eqn:E; try done; injection Hc as ->; auto.
      right. split; [now apply (Iv c x p i Hx)|]. apply (Il c x Hx). now rewrite E. }
    intros c c' x x' p Hx Hx' E E'.
    destruct (Hcase c x p Hx E) as [R|[N L]], (Hcase c' x' p Hx' E') as [R'|[N' L']].
    + eauto.
    + exfalso. apply N'. eauto.
    + exfalso. apply N. eauto.
    + congruence.
  - intros c c' x x' Hx Hx' E E'. apply (Il c x Hx) in E. apply (Il c' x' Hx') in E'. congruence.
Qed.

(** Two CPUs and one runnable process: the first CPU picks it up and enters user
    space, the second finds nothing to run. *)
Definition two_cpus : sys :=
  Sys [set_state RUNNABLE proc0] None [Scpu Idle None; Scpu Idle None].
Definition one_busy : sys :=
  Sys [set_state RUNNING (set_state RUNNABLE proc0)] None [Scpu (User 0 0) (Some 0%nat); Scpu Idle None].

Lemma two_cpus_run : rtc sys_step two_cpus one_busy.
Proof.
  eapply rtc_l; [eapply (sys_cpu 0); [reflexivity|apply st_acquire]|].
  eapply rtc_l; [eapply (sys_cpu 0); [reflexivity|apply (st_switch _ _ _ (set_state RUNNABLE proc0)); reflexivity]|].
  eapply rtc_l; [eapply (sys_cpu 0); [reflexivity|apply st_release]|].
  eapply rtc_l; [eapply (sys_cpu 1); [reflexivity|apply st_acquire]|].
  eapply rtc_l; [eapply (sys_cpu 1); [reflexivity|
    apply (st_skip _ _ _ (set_state RUNNING (set_state RUNNABLE proc0))); [reflexivity|discriminate]]|].
  eapply rtc_l; [eapply (sys_cpu 1); [reflexivity|apply st_end; cbn; lia]|]. apply rtc_refl.
Qed.

Lemma scheduler_exclusive_witness :
  stat (procs one_busy) 0 = Some RUNNING <->
  exists c x, cpus one_busy !! c = Some x /\ runs (pc x) = Some 0%nat.
Proof.
  apply (scheduler_exclusive two_cpus one_busy).
  - split; [reflexivity|]. split; repeat constructor. discriminate.
  - exact two_cpus_run.
Defined.

(** * allocpid on several CPUs *)

(** A thread in [allocpid]: before the read of [nextpid], between the read and
    the [cas], or back with a pid. *)
Inductive pid_pc : Type := PStart | PRead (local_pid : Z) | PDone (pid : Z).

Inductive pid_step : Z * list pid_pc -> Z * list pid_pc -> Prop :=
| pid_read next ts t : ts !! t = Some PStart -> pid_step (next, ts) (next, <[t := PRead next]> ts)
| pid_cas_ok next ts t : ts !! t = Some (PRead next) ->
    pid_step (next, ts) (s32 (next + 1), <[t := PDone (s32 (next + 1))]> ts)
| pid_cas_fail next ts t v : ts !! t = Some (PRead v) -> v <> next ->
    pid_step (next, ts) (next, <[t := PStart]> ts).

Definition done_pid (x : pid_pc) : option Z := match x with PDone v => Some v | _ => None end.

(** The pids handed out. *)
Fixpoint dones (ts : list pid_pc) : list Z :=
  match ts with
  | [] => []
  | x :: ts' => match done_pid x with Some v => v :: dones ts' | None => dones ts' end
  end.

Definition pid_inv (n0 : Z) (s : Z * list pid_pc) : Prop :=
  s.1 = n0 + Z.of_nat (length (dones s.2)) /\
  (forall t v, s.2 !! t = Some (PDone v) -> n0 < v <= s.1) /\
  (forall t t' v, s.2 !! t = Some (PDone v) -> s.2 !! t' = Some (PDone v) -> t = t').

Lemma dones_insert_same (ts : list pid_pc) t x y :
  ts !! t = Some x -> done_pid x = done_pid y -> dones (<[t := y]> ts) = dones ts.
Proof.
  revert t. induction ts as [|z ts IH]; intros [|t] Ht E; [done|done| |].
  - injection Ht as ->. change (<[0%nat := y]> (x :: ts)) with (y :: ts). cbn [dones]. now rewrite E.
  - change (<[S t := y]> (z :: ts)) with (z :: <[t := y]> ts). cbn [dones]. now rewrite (IH t Ht E).
Qed.

Lemma dones_insert_done (ts : list pid_pc) t x v :
  ts !! t = Some x -> done_pid x = None -> length (dones (<[t := PDone v]> ts)) = S (length (dones ts)).
Proof.
  revert t. induction ts as [|z ts IH]; intros [|t] Ht E; [done|done| |].
  - injection Ht as ->. change (<[0%nat := PDone v]> (x :: ts)) with (PDone v :: ts). cbn [dones]. now rewrite E.
  - change (<[S t := PDone v]> (z :: ts)) with (z :: <[t := PDone v]> ts). cbn [dones].
    specialize (IH t Ht E). destruct (done_pid z); cbn [length]; now rewrite IH.
Qed.

Lemma length_dones_le (ts : list pid_pc) : (length (dones ts) <= length ts)%nat.
Proof. induction ts as [|z ts IH]; cbn in *; [lia|]. destruct (done_pid z); cbn; lia. Qed.

Lemma insert_done_inv (ts : list pid_pc) t y t' v :
  <[t := y]> ts !! t' = Some (PDone v) -> t = t' /\ y = PDone v \/ t <> t' /\ ts !! t' = Some (PDone v).
Proof. intros H. apply list_lookup_insert_Some in H as [(? & ? & _)|[? ?]]; auto. Qed.

Lemma pid_step_inv n0 s s' :
  0 <= n0 -> n0 + Z.of_nat (length s.2) < 2147483648 -> pid_inv n0 s -> pid_step s s' ->
  pid_inv n0 s' /\ length s'.2 = length s.2.
Proof.
  intros Hn Hb (Hc & Hr & Hu) Hs. destruct Hs as [next ts t Ht|next ts t Ht|next ts t v Ht Hne]; cbn in *;
    rewrite length_insert; (split; [|done]).
  1,3: (split; cbn; [now rewrite (dones_insert_same _ _ _ _ Ht)|]);
    split; [intros t' v' H; apply insert_done_inv in H as [[_ ?]|[_ H]]; [done|eauto]
           |intros t1 t2 v' H1 H2; apply insert_done_inv in H1 as [[_ ?]|[_ H1]], H2 as [[_ ?]|[_ H2]]; eauto; done].
  pose proof (length_dones_le (<[t := PDone 0]> ts)) as Hle.
  rewrite (dones_insert_done _ _ _ _ Ht), length_insert in Hle by done.
  rewrite s32_small by lia. split; cbn.
  - rewrite (dones_insert_done _ _ _ _ Ht) by done. lia.
  - split.
    + intros t' v' H. apply insert_done_inv in H as [[_ [= <-]]|[_ H]]; [lia|]. specialize (Hr _ _ H). lia.
    + intros t1 t2 v' H1 H2. apply insert_done_inv in H1 as [[<- E1]|[_ H1]], H2 as [[<- E2]|[_ H2]]; eauto.
      * injection E1 as <-. specialize (Hr _ _ H2). lia.
      * injection E2 as <-. specialize (Hr _ _ H1). lia.
Qed.

(** C31: allocpid() gives distinct pids.  However many CPUs run it at once and
    however their reads of nextpid and their compare-and-swap instructions
    interleave, no two calls return the same pid, and every pid returned is
    above the initial nextpid (as long as the counter does not pass the largest
    int). *)
Theorem allocpid_distinct n0 n next ts :
  0 <= n0 -> n0 + Z.of_nat n < 2147483648 ->
  rtc pid_step (n0, replicate n PStart) (next, ts) ->
  (forall t v, ts !! t = Some (PDone v) -> n0 < v <= next) /\
  (forall t t' v, ts !! t = Some (PDone v) -> ts !! t' = Some (PDone v) -> t = t').
Proof.
  intros Hn Hb Hr.
  assert (Hi : pid_inv n0 (next, ts) /\ length ts = n); [|destruct Hi as [(_ & H1 & H2) _]; auto].
  assert (H0 : pid_inv n0 (n0, replicate n PStart)).
  { split; cbn; [|split; intros t ? ?; try intros ?; exfalso; repeat match goal with
      H : replicate _ _ !! _ = Some _ |- _ => apply lookup_replicate in H as [H _]; discriminate end].
    replace (dones (replicate n PStart)) with (@nil Z); [cbn; lia|]. clear. induction n; [done|]. exact IHn. }
  assert (Hl : length (n0, replicate n PStart).2 = n) by (cbn; now rewrite length_replicate).
  revert H0 Hl. remember (n0, replicate n PStart) as s0 eqn:E0. clear E0. remember (next, ts) as s1 eqn:E1.
  change ts with (next, ts).2. rewrite <- E1. clear E1.
  induction Hr as [s|s s1' s2 Hs Hr IH]; intros Hi Hl; [done|].
  destruct (pid_step_inv n0 s s1' Hn) as [Hi' Hl']; [rewrite Hl; done|done|done|]. apply IH; [done|congruence].
Qed.

Lemma allocpid_distinct_witness :
  1 < 3 <= 3.
Proof.
  refine (proj1 (allocpid_distinct 1 2 3 [PDone 2; PDone 3] _ _ _) 1%nat 3 eq_refl); [lia|lia|].
  eapply rtc_l; [apply (pid_read _ _ 0); reflexivity|].
  eapply rtc_l; [apply (pid_read _ _ 1); reflexivity|].
  eapply rtc_l; [apply (pid_cas_ok _ _ 0); reflexivity|].
  eapply rtc_l; [apply (pid_cas_fail _ _ 1 1); [reflexivity|discriminate]|].
  eapply rtc_l; [apply (pid_read _ _ 1); reflexivity|].
  eapply rtc_l; [apply (pid_cas_ok _ _ 1); reflexivity|]. apply rtc_refl.
Defined.
