(* ===== verification/Sleeplock.v ===== *)
(** sleeplock.c: long-term locks, whose waiters sleep; and a model of several
    threads using one, with the invariant that no wakeup is lost. *)
From S2P Require Import Prelude Monad.

(** A state that keeps the [locked] word of every sleep lock.  (The [pid] of
    struct sleeplock is for debugging and is never read.) *)
Class SleepLocks (S : Type) : Type := {
  sl_locked : slock -> S -> bool;
  sl_set : slock -> bool -> S -> S
}.

Section Sleeplock.
Context {S : Type} `{SleepLocks S}.

Definition initsleeplock (lk : slock) : M S unit := modify (sl_set lk false).

(** From the test of [while(lk->locked)] to the next sleep or to the end. *)
Definition acquiresleep_step (lk : slock) (_ : unit) : M S (blk unit unit) :=
  let* l := gets (sl_locked lk) in
  if l : bool then ret (Block (ChSleep lk) (LSleep lk) tt)
  else modify (sl_set lk true) ;;; release (LSleep lk) ;;; ret (Done tt).

(** [fuel] bounds the number of times the thread is woken to find the lock
    taken again. *)
Definition acquiresleep (fuel : nat) (lk : slock) : M S unit :=
  acquire (LSleep lk) ;;; blocks fuel (acquiresleep_step lk) tt.

Definition releasesleep (lk : slock) : M S unit :=
  acquire (LSleep lk) ;;;
  modify (sl_set lk false) ;;;
  wakeup (ChSleep lk) ;;;
  release (LSleep lk).

Definition holdingsleep (lk : slock) : M S bool :=
  acquire (LSleep lk) ;;;
  let* r := gets (sl_locked lk) in
  release (LSleep lk) ;;;
  ret r.

(** ** A lock that is free, or held by the caller *)

Lemma wp_acquiresleep fuel lk (Q : unit -> ctx -> S -> Prop) c s :
  LSleep lk ∉ held c -> sl_locked lk s = false -> Q tt c (sl_set lk true s) ->
  wp (acquiresleep (Datatypes.S fuel) lk) Q c s.
Proof.
  intros Hh Hl HQ. unfold acquiresleep. destruct c as [h w]. wp_steps. cbn [blocks].
  unfold acquiresleep_step. wp_steps. rewrite Hl. wp_steps. exact HQ.
Qed.

Lemma wp_releasesleep lk (Q : unit -> ctx -> S -> Prop) c s :
  LSleep lk ∉ held c -> LPtable ∉ held c ->
  Q tt (Ctx (held c) (woken c ++ [ChSleep lk])) (sl_set lk false s) -> wp (releasesleep lk) Q c s.
Proof.
  intros Hh Hp HQ. unfold releasesleep. destruct c as [h w]. wp_steps. exact HQ.
Qed.

Lemma wp_holdingsleep lk (Q : bool -> ctx -> S -> Prop) c s :
  LSleep lk ∉ held c -> Q (sl_locked lk s) c s -> wp (holdingsleep lk) Q c s.
Proof. intros Hh HQ. unfold holdingsleep. destruct c as [h w]. wp_steps. exact HQ. Qed.
End Sleeplock.

(** * Several threads and one lock *)

(** The [locked] word alone. *)
#[global] Instance one_lock : SleepLocks bool := {|
  sl_locked _ b := b;
  sl_set _ v _ := v
|}.

Definition the_lock : slock := SlBuf 0.

(** A thread: outside, ready to run [acquiresleep] (from its start, or woken
    up), asleep in it, or holding the lock. *)
Inductive slt : Type := Outside | Ready | Asleep | Holds.

(** All threads asleep on the lock's channel become ready. *)
Definition wake_slt (w : list chan) (t : slt) : slt :=
  match t with
  | Asleep => if decide (ChSleep the_lock ∈ w) then Ready else Asleep
  | _ => t
  end.

(** Thread [i] runs one stretch of the code: [acquiresleep] up to its next sleep
    or its end, or [releasesleep]. *)
Inductive sl_step : bool * list slt -> bool * list slt -> Prop :=
| sl_call b ts i : ts !! i = Some Outside -> sl_step (b, ts) (b, <[i := Ready]> ts)
| sl_get b ts i c b' : ts !! i = Some Ready ->
    acquiresleep_step the_lock tt (Ctx [LSleep the_lock] []) b = Ret (Done tt) c b' ->
    sl_step (b, ts) (b', <[i := Holds]> ts)
| sl_block b ts i c b' ch lk : ts !! i = Some Ready ->
    acquiresleep_step the_lock tt (Ctx [LSleep the_lock] []) b = Ret (Block ch lk tt) c b' ->
    sl_step (b, ts) (b', <[i := Asleep]> ts)
| sl_put b ts i c b' : ts !! i = Some Holds ->
    releasesleep the_lock (Ctx [] []) b = Ret tt c b' ->
    sl_step (b, ts) (b', wake_slt (woken c) <$> <[i := Outside]> ts).

Definition sl_inv (s : bool * list slt) : Prop :=
  (forall i : nat, s.2 !! i = Some Holds -> s.1 = true) /\
  (forall i j : nat, s.2 !! i = Some Holds -> s.2 !! j = Some Holds -> i = j) /\
  (s.1 = true -> exists i : nat, s.2 !! i = Some Holds) /\
  (forall i : nat, s.2 !! i = Some Asleep -> s.1 = true).

Lemma acquire_step_eq (b : bool) :
  acquiresleep_step the_lock tt (Ctx [LSleep the_lock] []) b =
  if b then Ret (Block (ChSleep the_lock) (LSleep the_lock) tt) (Ctx [LSleep the_lock] []) b
  else Ret (Done tt) (Ctx [] []) true.
Proof. now destruct b. Qed.

Lemma releasesleep_eq (b : bool) :
  releasesleep the_lock (Ctx [] []) b = Ret tt (Ctx [] [ChSleep the_lock]) false.
Proof. now destruct b. Qed.

Lemma insert_slt (ts : list slt) i j x y :
  <[i := x]> ts !! j = Some y -> i = j /\ x = y \/ i <> j /\ ts !! j = Some y.
Proof. intros E. apply list_lookup_insert_Some in E as [(? & ? & _)|[? ?]]; auto. Qed.

Lemma sl_step_inv s s' : sl_step s s' -> sl_inv s -> sl_inv s'.
Proof.
  intros Hs (I1 & I2 & I3 & I4).
  destruct Hs as [b ts i Hi|b ts i c b' Hi E|b ts i c b' ch lk Hi E|b ts i c b' Hi E]; cbn [fst snd] in *.
  - split_and!; cbn.
    + intros j Hj. apply insert_slt in Hj as [[_ ?]|[_ Hj]]; [done|eauto].
    + intros j k Hj Hk. apply insert_slt in Hj as [[_ ?]|[_ Hj]], Hk as [[_ ?]|[_ Hk]]; try done. eauto.
    + intros Hb. destruct (I3 Hb) as [j Hj]. exists j. rewrite list_lookup_insert_ne; [done|congruence].
    + intros j Hj. apply insert_slt in Hj as [[_ ?]|[_ Hj]]; [done|eauto].
  - rewrite acquire_step_eq in E. destruct b; [done|]. injection E as _ <-.
    assert (Hno : forall j, ts !! j <> Some Holds) by (intros j Hj; now specialize (I1 _ Hj)).
    split_and!; cbn; try done.
    + intros j k Hj Hk. apply insert_slt in Hj as [[<- _]|[_ Hj]], Hk as [[<- _]|[_ Hk]]; try done;
        exfalso; eapply Hno; eauto.
    + intros _. exists i. apply list_lookup_insert_eq. now apply lookup_lt_Some in Hi.
  - rewrite acquire_step_eq in E. destruct b; [|done]. injection E as _ _ _ <-. split_and!; cbn; try done.
    + intros j k Hj Hk. apply insert_slt in Hj as [[_ ?]|[_ Hj]], Hk as [[_ ?]|[_ Hk]]; try done. eauto.
    + intros _. destruct (I3 eq_refl) as [j Hj]. exists j. rewrite list_lookup_insert_ne; [done|congruence].
  - rewrite releasesleep_eq in E. injection E as <- <-. cbn [woken].
    assert (Hno : forall j x, (wake_slt [ChSleep the_lock] <$> <[i := Outside]> ts) !! j = Some x ->
      x <> Holds /\ x <> Asleep).
    { intros j x Hj. rewrite list_lookup_fmap in Hj. apply fmap_Some in Hj as (y & Hy & ->).
      apply insert_slt in Hy as [[_ <-]|[Hne Hy]]; [done|]. destruct y; cbn; try done.
      exfalso. apply Hne. eauto. }
    split_and!; cbn; try done.
    + intros j Hj. now destruct (Hno _ _ Hj).
    + intros j k Hj. now destruct (Hno _ _ Hj).
    + intros j Hj. now destruct (Hno _ _ Hj).
Qed.

(** Several threads sharing a sleep lock, in any interleaving of their
    stretches of acquiresleep and releasesleep: at most one holds the lock, and
    no wakeup is lost: as long as some thread is asleep waiting for the lock,
    another thread holds it (and its releasesleep will wake the sleeper). *)
Theorem sleeplock_no_lost_wakeup n b ts :
  rtc sl_step (false, replicate n Outside) (b, ts) ->
  (forall i j, ts !! i = Some Holds -> ts !! j = Some Holds -> i = j) /\
  (forall i, ts !! i = Some Asleep -> exists j, ts !! j = Some Holds).
Proof.
  intros Hr. assert (Hi : sl_inv (b, ts)).
  { assert (H0 : sl_inv (false, replicate n Outside)).
    { split_and!; cbn; try done; intros i ?; try intros ?; exfalso; repeat match goal with
        H : replicate _ _ !! _ = Some _ |- _ => apply lookup_replicate in H as [H _]; discriminate end. }
    revert H0. remember (false, replicate n Outside) as s0. remember (b, ts) as s1. clear Heqs0 Heqs1.
    induction Hr; eauto using sl_step_inv. }
  destruct Hi as (I1 & I2 & I3 & I4). cbn in *. split; [exact I2|]. intros i Hi. apply I3. eauto.
Qed.

(** Two threads: one holds the lock, the other sleeps. *)
Lemma sleeplock_no_lost_wakeup_witness :
  exists j : nat, [Holds; Asleep] !! j = Some Holds.
Proof.
  refine (proj2 (sleeplock_no_lost_wakeup 2 true [Holds; Asleep] _) 1%nat eq_refl).
  eapply rtc_l; [apply (sl_call _ _ 0); reflexivity|].
  eapply rtc_l; [apply (sl_call _ _ 1); reflexivity|].
  eapply rtc_l; [eapply (sl_get _ _ 0); reflexivity|].
  eapply rtc_l; [eapply (sl_block _ _ 1); reflexivity|]. apply rtc_refl.
Defined.
