(* ===== verification/Pipe.v ===== *)
(** pipe.c: the ring buffer, reading, writing and closing as the stretches of
    code between sleeps, and several threads using one pipe: bytes come out in
    the order they went in, and no wakeup is lost. *)
From S2P Require Import Prelude Ring Monad.

Definition PIPESIZE : Z := 512.

(** struct pipe; its spin lock is [LPipe] of its address. *)
Record pipe : Type := Pipe {
  p_data : list Z;
  p_nread : Z;
  p_nwrite : Z;
  p_readopen : bool;
  p_writeopen : bool
}.

(** What [pipealloc] stores in a fresh page, whose bytes are [junk]. *)
Definition pipe_init (junk : list Z) : pipe := Pipe junk 0 0 true true.

Definition set_data (f : list Z -> list Z) (p : pipe) : pipe :=
  Pipe (f (p_data p)) (p_nread p) (p_nwrite p) (p_readopen p) (p_writeopen p).
Definition set_nread (v : Z) (p : pipe) : pipe := Pipe (p_data p) v (p_nwrite p) (p_readopen p) (p_writeopen p).
Definition set_nwrite (v : Z) (p : pipe) : pipe := Pipe (p_data p) (p_nread p) v (p_readopen p) (p_writeopen p).
Definition set_readopen (v : bool) (p : pipe) : pipe := Pipe (p_data p) (p_nread p) (p_nwrite p) v (p_writeopen p).
Definition set_writeopen (v : bool) (p : pipe) : pipe := Pipe (p_data p) (p_nread p) (p_nwrite p) (p_readopen p) v.

Section Pipe.
(** The pipe's address. *)
Variable pa : Z.

(** [pipewrite], from the loop with the bytes [rem] left to write: stops at the
    end, at an error, or at [sleep].  [kl] is [myproc()->killed].  The result is
    the returned value and the bytes that were not written. *)
Fixpoint pipewrite_step (kl : bool) (n : Z) (rem : list Z) : M pipe (blk (Z * list Z) (list Z)) :=
  match rem with
  | b :: rem' =>
      let* full := gets (fun p => p_nwrite p =? u32 (p_nread p + PIPESIZE)) in
      if full : bool then
        let* ro := gets p_readopen in
        if negb ro || kl then release (LPipe pa) ;;; ret (Done (-1, rem))
        else wakeup (ChPipeRead pa) ;;; ret (Block (ChPipeWrite pa) (LPipe pa) rem)
      else
        modify (fun p => set_data (fun d => aset d (p_nwrite p mod PIPESIZE) b) p) ;;;
        modify (fun p => set_nwrite (u32 (p_nwrite p + 1)) p) ;;;
        pipewrite_step kl n rem'
  | [] =>
      wakeup (ChPipeRead pa) ;;;
      release (LPipe pa) ;;;
      ret (Done (n, []))
  end.

(** The copy loop of [piperead], for at most [n] bytes. *)
Fixpoint piperead_copy (n : nat) : M pipe (list Z) :=
  match n with
  | O => ret []
  | S n' =>
      let* empty := gets (fun p => p_nread p =? p_nwrite p) in
      if empty : bool then ret []
      else
        let* b := gets (fun p => aget 0 (p_data p) (p_nread p mod PIPESIZE)) in
        modify (fun p => set_nread (u32 (p_nread p + 1)) p) ;;;
        let* bs := piperead_copy n' in
        ret (b :: bs)
  end.

(** [piperead] up to its next sleep or its end: the value returned and the bytes
    stored at [addr]. *)
Definition piperead_step (kl : bool) (n : Z) (_ : unit) : M pipe (blk (Z * list Z) unit) :=
  let* wait := gets (fun p => (p_nread p =? p_nwrite p) && p_writeopen p) in
  if wait : bool then
    if kl then release (LPipe pa) ;;; ret (Done (-1, []))
    else ret (Block (ChPipeRead pa) (LPipe pa) tt)
  else
    let* bs := piperead_copy (Z.to_nat n) in
    wakeup (ChPipeWrite pa) ;;;
    release (LPipe pa) ;;;
    ret (Done (Z.of_nat (length bs), bs)).

(** [pipeclose]; [true] when the page is to be freed, which the caller does
    after the lock is released. *)
Definition pipeclose (writable : bool) : M pipe bool :=
  acquire (LPipe pa) ;;;
  (if writable then modify (set_writeopen false) ;;; wakeup (ChPipeRead pa)
   else modify (set_readopen false) ;;; wakeup (ChPipeWrite pa)) ;;;
  let* both := gets (fun p => negb (p_readopen p) && negb (p_writeopen p)) in
  release (LPipe pa) ;;;
  ret both.

(** * The ring as a queue *)

Definition count (p : pipe) : Z := rcount (p_nread p) (p_nwrite p).

Record pipe_ok (p : pipe) : Prop := {
  po_len : length (p_data p) = 512%nat;
  po_nread : is_u32 (p_nread p);
  po_nwrite : is_u32 (p_nwrite p);
  po_count : count p <= PIPESIZE
}.

(** The bytes in the pipe, oldest first. *)
Definition content (p : pipe) : list Z := ring PIPESIZE (p_data p) (p_nread p) (p_nwrite p).

Lemma length_content p : length (content p) = Z.to_nat (count p).
Proof. apply length_ring. Qed.

Lemma count_pos p : 0 <= count p.
Proof. apply rcount_range. Qed.

Lemma PIPESIZE_pos : 0 < PIPESIZE < 4294967296.
Proof. unfold PIPESIZE. lia. Qed.
Lemma PIPESIZE_div : (PIPESIZE | 4294967296).
Proof. now exists 8388608. Qed.

(** The ring is full, or has room. *)
Lemma full_test p : pipe_ok p -> (p_nwrite p =? u32 (p_nread p + PIPESIZE)) = (count p =? PIPESIZE).
Proof. intros [_ H1 H2 _]. apply rcount_is; [done..|]. unfold is_u32, PIPESIZE. lia. Qed.

Lemma empty_test p : pipe_ok p -> (p_nread p =? p_nwrite p) = (count p =? 0).
Proof. intros [_ H1 H2 _]. now apply rcount_zero. Qed.

Definition push (b : Z) (p : pipe) : pipe :=
  set_nwrite (u32 (p_nwrite p + 1)) (set_data (fun d => aset d (p_nwrite p mod PIPESIZE) b) p).
Definition pop (p : pipe) : pipe := set_nread (u32 (p_nread p + 1)) p.

Lemma count_push b p : pipe_ok p -> count p < PIPESIZE -> count (push b p) = count p + 1.
Proof. intros _ Hc. unfold count, push in *. cbn. apply rcount_succ. unfold PIPESIZE in Hc. lia. Qed.

Lemma count_pop p : pipe_ok p -> 0 < count p -> count (pop p) = count p - 1.
Proof. intros _ Hc. now apply rcount_next. Qed.

Lemma push_ok b p : pipe_ok p -> count p < PIPESIZE -> pipe_ok (push b p).
Proof.
  intros Hok Hc. pose proof (count_push b p Hok Hc). destruct Hok as [H1 H2 H3 H4].
  split; cbn; [now rewrite length_aset|done|apply u32_range|lia].
Qed.

Lemma pop_ok p : pipe_ok p -> 0 < count p -> pipe_ok (pop p).
Proof.
  intros Hok Hc. pose proof (count_pop p Hok Hc). destruct Hok as [H1 H2 H3 H4].
  split; cbn; [done|apply u32_range|done|lia].
Qed.

Lemma content_push b p : pipe_ok p -> count p < PIPESIZE -> content (push b p) = content p ++ [b].
Proof. intros Hok Hc. apply ring_push; auto using PIPESIZE_pos, PIPESIZE_div. apply (po_len p Hok). Qed.

Lemma content_pop p : pipe_ok p -> 0 < count p ->
  content p = aget 0 (p_data p) (p_nread p mod PIPESIZE) :: content (pop p).
Proof. intros _ Hc. apply ring_pop; auto using PIPESIZE_pos, PIPESIZE_div. Qed.

(** ** The stretches of code *)

(** How one run of [pipewrite]'s loop ends: [s] was written, [r] was not. *)
Definition write_end (kl : bool) (n : Z) (c : ctx) (h : list lock) (p : pipe) (s r : list Z)
    (res : blk (Z * list Z) (list Z)) (c' : ctx) (p' : pipe) : Prop :=
  pipe_ok p' /\ content p' = content p ++ s /\
  p_readopen p' = p_readopen p /\ p_writeopen p' = p_writeopen p /\
  ((r = [] /\ res = Done (n, []) /\ c' = Ctx h (woken c ++ [ChPipeRead pa])) \/
   (r <> [] /\ count p' = PIPESIZE /\ (p_readopen p = false \/ kl = true) /\
    res = Done (-1, r) /\ c' = Ctx h (woken c)) \/
   (r <> [] /\ count p' = PIPESIZE /\ p_readopen p = true /\ kl = false /\
    res = Block (ChPipeWrite pa) (LPipe pa) r /\ c' = Ctx (LPipe pa :: h) (woken c ++ [ChPipeRead pa]))).

Lemma wp_pipewrite_step kl n rem c h p :
  held c = LPipe pa :: h -> LPtable ∉ h -> pipe_ok p ->
  wp (pipewrite_step kl n rem) (fun res c' p' => exists s r, rem = s ++ r /\ write_end kl n c h p s r res c' p') c p.
Proof.
  intros Hh Hn. destruct c as [h' w]. cbn in Hh. subst h'. revert p.
  induction rem as [|b rem IH]; intros p Hok; cbn [pipewrite_step].
  - wp_steps. exists [], []. split; [done|]. unfold write_end. rewrite app_nil_r. auto 10.
  - wp_steps. rewrite full_test by done. destruct (Z.eqb_spec (count p) PIPESIZE) as [Ef|Ef].
    + wp_steps. destruct (negb (p_readopen p) || kl) eqn:E; wp_steps; exists [], (b :: rem);
        (split; [done|]); unfold write_end; rewrite app_nil_r; (split; [done|]); (split; [done|]);
        (split; [done|]); (split; [done|]); right.
      * left. split; [done|]. split; [done|]. split; [|done].
        apply orb_true_iff in E as [E|E]; [left; now destruct (p_readopen p)|now right].
      * right. apply orb_false_iff in E as [E ->]. apply negb_false_iff in E. auto 10.
    + assert (Hroom : count p < PIPESIZE) by (pose proof (po_count p Hok); lia).
      wp_steps. fold (push b p). eapply wp_mono; [apply (IH (push b p)); now apply push_ok|].
      intros res c' p' (s & r & -> & Hok' & Hc & Hr & Hw & Hend). exists (b :: s), r. split; [done|].
      split; [done|]. split; [|done]. rewrite Hc, content_push by done. now rewrite <- app_assoc.
Qed.

Lemma wp_piperead_copy n c p :
  pipe_ok p ->
  wp (piperead_copy n) (fun bs c' p' => c' = c /\ pipe_ok p' /\ content p = bs ++ content p' /\
    length bs = Nat.min n (Z.to_nat (count p)) /\
    p_readopen p' = p_readopen p /\ p_writeopen p' = p_writeopen p) c p.
Proof.
  revert p. induction n as [|n IH]; intros p Hok; cbn [piperead_copy]; [now apply wp_ret|].
  wp_steps. rewrite empty_test by done. destruct (Z.eqb_spec (count p) 0) as [E|E].
  - wp_steps. rewrite E. cbn. done.
  - pose proof (count_pos p). assert (Hc : 0 < count p) by lia. wp_steps. fold (pop p).
    eapply wp_mono; [apply (IH (pop p)); now apply pop_ok|].
    intros bs c' p' (-> & Hok' & Hcont & Hl & Hr & Hw). wp_steps. split; [done|]. split; [done|].
    rewrite content_pop, Hcont by done. split; [done|]. rewrite count_pop in Hl by done. cbn [length].
    split; [lia|done].
Qed.

(** How one run of [piperead] ends. *)
Definition read_end (kl : bool) (n : Z) (c : ctx) (h : list lock) (p : pipe)
    (res : blk (Z * list Z) unit) (c' : ctx) (p' : pipe) : Prop :=
  (count p = 0 /\ p_writeopen p = true /\ p' = p /\
     (kl = true /\ res = Done (-1, []) /\ c' = Ctx h (woken c) \/
      kl = false /\ res = Block (ChPipeRead pa) (LPipe pa) tt /\ c' = c)) \/
  ((count p = 0 -> p_writeopen p = false) /\ exists bs,
     res = Done (Z.of_nat (length bs), bs) /\ pipe_ok p' /\ content p = bs ++ content p' /\
     length bs = Nat.min (Z.to_nat n) (Z.to_nat (count p)) /\
     p_readopen p' = p_readopen p /\ p_writeopen p' = p_writeopen p /\
     c' = Ctx h (woken c ++ [ChPipeWrite pa])).

Lemma wp_piperead_step kl n c h p :
  held c = LPipe pa :: h -> LPtable ∉ h -> pipe_ok p ->
  wp (piperead_step kl n tt) (read_end kl n c h p) c p.
Proof.
  intros Hh Hn Hok. destruct c as [h' w]. cbn in Hh. subst h'. unfold piperead_step. wp_steps.
  rewrite empty_test by done. destruct (Z.eqb_spec (count p) 0) as [E|E].
  - destruct (p_writeopen p) eqn:Ew; cbn [andb].
    + destruct kl; wp_steps; left; auto 10.
    + apply wp_bind. eapply wp_mono; [now apply wp_piperead_copy|].
      intros bs c' p' (-> & Hok' & Hc & Hl & Hr & Hw). wp_steps. right. split; [done|]. exists bs. auto 10.
  - cbn [andb]. apply wp_bind. eapply wp_mono; [now apply wp_piperead_copy|].
    intros bs c' p' (-> & Hok' & Hc & Hl & Hr & Hw). wp_steps. right. split; [done|]. exists bs. auto 10.
Qed.

End Pipe.

(** * Several threads and one pipe *)

(** A thread: outside the pipe code; about to run [pipewrite] (from the start or
    woken up) with bytes left, or asleep in it; the same for [piperead]. *)
Inductive pthread : Type :=
| TIdle
| TWrite (n : Z) (rem : list Z)
| TWAsleep (n : Z) (rem : list Z)
| TRead (n : Z)
| TRAsleep (n : Z).

Definition wake_thread (pa : Z) (w : list chan) (t : pthread) : pthread :=
  match t with
  | TWAsleep n rem => if decide (ChPipeWrite pa ∈ w) then TWrite n rem else t
  | TRAsleep n => if decide (ChPipeRead pa ∈ w) then TRead n else t
  | _ => t
  end.

(** The pipe, the threads, and the bytes that have gone in and come out. *)
Record psys : Type := Psys {
  ps_pipe : pipe;
  ps_threads : list pthread;
  ps_sent : list Z;
  ps_rcvd : list Z
}.

Section PipeSys.
Variable pa : Z.
Abbreviation lctx := (Ctx [LPipe pa] []).

(** The thread is inside [pipewrite] ([w] true) or [piperead] ([w] false). *)
Definition uses (w : bool) (t : pthread) : bool :=
  match t with
  | TIdle => false
  | TWrite _ _ | TWAsleep _ _ => w
  | TRead _ | TRAsleep _ => negb w
  end.

(** Thread [i] runs one stretch of code under the pipe's lock; the label says
    whether a killed writer gave up.  A thread inside the pipe holds a reference
    to the end it uses, so that end is open and is not closed meanwhile. *)
Inductive pipe_step : bool -> psys -> psys -> Prop :=
| ps_call_write p ts s r i n bs : ts !! i = Some TIdle -> p_writeopen p = true ->
    pipe_step false (Psys p ts s r) (Psys p (<[i := TWrite n bs]> ts) s r)
| ps_call_read p ts s r i n : ts !! i = Some TIdle -> p_readopen p = true ->
    pipe_step false (Psys p ts s r) (Psys p (<[i := TRead n]> ts) s r)
| ps_write_done p ts s r i kl n rem p' c v out rest : ts !! i = Some (TWrite n rem) ->
    pipewrite_step pa kl n rem lctx p = Ret (Done (v, rest)) c p' -> rem = out ++ rest ->
    pipe_step (kl && negb (bool_decide (rest = []))) (Psys p ts s r)
      (Psys p' (wake_thread pa (woken c) <$> <[i := TIdle]> ts) (s ++ out) r)
| ps_write_block p ts s r i kl n rem p' c ch lk out rest : ts !! i = Some (TWrite n rem) ->
    pipewrite_step pa kl n rem lctx p = Ret (Block ch lk rest) c p' -> rem = out ++ rest ->
    pipe_step false (Psys p ts s r)
      (Psys p' (wake_thread pa (woken c) <$> <[i := TWAsleep n rest]> ts) (s ++ out) r)
| ps_read_done p ts s r i kl n p' c v bs : ts !! i = Some (TRead n) ->
    piperead_step pa kl n tt lctx p = Ret (Done (v, bs)) c p' ->
    pipe_step false (Psys p ts s r)
      (Psys p' (wake_thread pa (woken c) <$> <[i := TIdle]> ts) s (r ++ bs))
| ps_read_block p ts s r i kl n p' c ch lk l : ts !! i = Some (TRead n) ->
    piperead_step pa kl n tt lctx p = Ret (Block ch lk l) c p' ->
    pipe_step false (Psys p ts s r)
      (Psys p' (wake_thread pa (woken c) <$> <[i := TRAsleep n]> ts) s r)
| ps_close p ts s r w p' c b : (forall (j : nat) t, ts !! j = Some t -> uses w t = false) ->
    pipeclose pa w (Ctx [] []) p = Ret b c p' ->
    pipe_step false (Psys p ts s r) (Psys p' (wake_thread pa (woken c) <$> ts) s r).

(** Bytes in order: what went in is what came out followed by what is in the
    ring. *)
Definition fifo (x : psys) : Prop :=
  pipe_ok (ps_pipe x) /\ ps_sent x = ps_rcvd x ++ content (ps_pipe x).

(** Who sleeps has a reason to, and the ends in use are open. *)
Definition reason (p : pipe) (t : pthread) : Prop :=
  match t with
  | TRAsleep _ => count p = 0 /\ p_writeopen p = true
  | TWAsleep _ _ => count p = PIPESIZE /\ p_readopen p = true
  | _ => True
  end.
Definition open_for (p : pipe) (t : pthread) : Prop :=
  (uses true t = true -> p_writeopen p = true) /\ (uses false t = true -> p_readopen p = true).
Definition sleepers (x : psys) : Prop :=
  forall (i : nat) t, ps_threads x !! i = Some t -> reason (ps_pipe x) t /\ open_for (ps_pipe x) t.

Lemma write_result kl n rem p res c p' :
  pipe_ok p -> pipewrite_step pa kl n rem lctx p = Ret res c p' ->
  exists s r, rem = s ++ r /\ write_end pa kl n lctx [] p s r res c p'.
Proof.
  intros Hok E. refine (wp_ret_inv _ _ _ _ _ _ _ (wp_pipewrite_step pa kl n rem lctx [] p eq_refl _ Hok) E).
  apply not_elem_of_nil.
Qed.

Lemma read_result kl n p res c p' :
  pipe_ok p -> piperead_step pa kl n tt lctx p = Ret res c p' -> read_end pa kl n lctx [] p res c p'.
Proof.
  intros Hok E. refine (wp_ret_inv _ _ _ _ _ _ _ (wp_piperead_step pa kl n lctx [] p eq_refl _ Hok) E).
  apply not_elem_of_nil.
Qed.

Lemma close_result w p : 
  exists b, pipeclose pa w (Ctx [] []) p =
    Ret b (Ctx [] [if w then ChPipeRead pa else ChPipeWrite pa])
      (if w then set_writeopen false p else set_readopen false p).
Proof.
  destruct (wp_inv (pipeclose pa w) (fun _ c' p' => c' = Ctx [] [if w then ChPipeRead pa else ChPipeWrite pa] /\
    p' = if w then set_writeopen false p else set_readopen false p) (Ctx [] []) p)
    as (b & c' & p' & E & -> & ->); [|eauto].
  unfold pipeclose. destruct w; wp_steps; done.
Qed.

Lemma fifo_step b x x' : pipe_step b x x' -> fifo x -> fifo x'.
Proof.
  intros Hs [Hok Hf]. destruct Hs as [| |p ts s r i kl n rem p' c v out rest Hi E Er
    |p ts s r i kl n rem p' c ch lk out rest Hi E Er|p ts s r i kl n p' c v bs Hi E|p ts s r i kl n p' c ch lk l Hi E
    |p ts s r w p' c b Hu E]; cbn in *; try done; unfold fifo; cbn.
  - destruct (write_result _ _ _ _ _ _ _ Hok E) as (o & q & E2 & Hok' & Hc & _ & _ & Hend).
    assert (Eq : q = rest).
    { destruct Hend as [(-> & [= _ <-] & _)|[(_ & _ & _ & [= _ ->] & _)|(_ & _ & _ & _ & H & _)]]; done. }
    subst q. assert (o = out) as -> by (apply (app_inv_tail rest); congruence).
    split; [done|]. now rewrite Hc, Hf, <- app_assoc.
  - destruct (write_result _ _ _ _ _ _ _ Hok E) as (o & q & E2 & Hok' & Hc & _ & _ & Hend).
    assert (Eq : q = rest).
    { destruct Hend as [(_ & H & _)|[(_ & _ & _ & H & _)|(_ & _ & _ & _ & [= _ _ ->] & _)]]; done. }
    subst q. assert (o = out) as -> by (apply (app_inv_tail rest); congruence).
    split; [done|]. now rewrite Hc, Hf, <- app_assoc.
  - destruct (read_result _ _ _ _ _ _ Hok E) as [(_ & _ & -> & [(_ & [= _ ->] & _)|(_ & H & _)])|(_ & bs' & [= _ ->] & Hok' & Hc & _)].
    + rewrite app_nil_r. done.
    + done.
    + split; [done|]. now rewrite Hf, Hc, app_assoc.
  - destruct (read_result _ _ _ _ _ _ Hok E) as [(_ & _ & -> & _)|(_ & bs' & H & _)]; done.
  - destruct (close_result w p) as [b' E']. rewrite E' in E. injection E as <- <- <-.
    destruct w; (split; [|exact Hf]); destruct Hok; split; done.
Qed.

Lemma wake_asleep w (ts : list pthread) i t :
  (wake_thread pa w <$> ts) !! i = Some t ->
  match t with
  | TRAsleep n => ts !! i = Some t /\ ChPipeRead pa ∉ w
  | TWAsleep n rem => ts !! i = Some t /\ ChPipeWrite pa ∉ w
  | _ => True
  end.
Proof.
  rewrite list_lookup_fmap. intros E. apply fmap_Some in E as (u & Hu & ->).
  destruct u; cbn; try done; destruct (decide _); done.
Qed.

Lemma insert_thread (ts : list pthread) i j x y :
  <[i := x]> ts !! j = Some y -> i = j /\ x = y \/ i <> j /\ ts !! j = Some y.
Proof. intros E. apply list_lookup_insert_Some in E as [(? & ? & _)|[? ?]]; auto. Qed.


Lemma uses_wake w b t : uses b (wake_thread pa w t) = uses b t.
Proof. destruct t; cbn; try done; destruct (decide _); done. Qed.

(** Threads after a stretch of thread [i]: [i] itself, or another one that was
    there before and that the wakeups did not touch if it sleeps. *)
Lemma after_step (ts : list pthread) i x w j t :
  (wake_thread pa w <$> <[i := x]> ts) !! j = Some t ->
  (t = wake_thread pa w x) \/
  (exists u, ts !! j = Some u /\ t = wake_thread pa w u).
Proof.
  rewrite list_lookup_fmap. intros E. apply fmap_Some in E as (u & Hu & ->).
  apply insert_thread in Hu as [[_ <-]|[_ Hu]]; eauto.
Qed.

Lemma open_for_ext p p' t t' :
  (forall b, uses b t' = uses b t) -> p_readopen p' = p_readopen p -> p_writeopen p' = p_writeopen p ->
  open_for p t -> open_for p' t'.
Proof. intros Hu Hr Hw [H1 H2]. unfold open_for. rewrite !Hu, Hr, Hw. auto. Qed.

(** Whoever still sleeps after the wakeups [w] slept before. *)
Lemma reason_wake p p' w u :
  reason p u ->
  (ChPipeRead pa ∈ w \/ (count p = 0 -> p_writeopen p = true -> count p' = 0 /\ p_writeopen p' = true)) ->
  (ChPipeWrite pa ∈ w \/ (count p = PIPESIZE -> p_readopen p = true -> count p' = PIPESIZE /\ p_readopen p' = true)) ->
  reason p' (wake_thread pa w u).
Proof.
  intros Hr H1 H2. destruct u; cbn in *; try done.
  - destruct (decide (ChPipeWrite pa ∈ w)); [done|]. destruct H2 as [|H2]; [done|]. destruct Hr. now apply H2.
  - destruct (decide (ChPipeRead pa ∈ w)); [done|]. destruct H1 as [|H1]; [done|]. destruct Hr. now apply H1.
Qed.

Lemma count_app_full p p' s : pipe_ok p -> pipe_ok p' -> content p' = content p ++ s ->
  count p' = count p + Z.of_nat (length s).
Proof.
  intros H1 H2 E. apply (f_equal length) in E. rewrite length_app, !length_content in E.
  pose proof (count_pos p). pose proof (count_pos p'). lia.
Qed.

Lemma sleepers_step x x' : pipe_step false x x' -> fifo x -> sleepers x -> sleepers x'.
Proof.
  intros Hs [Hok _] Hsl. remember false as lb eqn:El.
  destruct Hs as [p ts s r i n bs Hi Ho|p ts s r i n Hi Ho|p ts s r i kl n rem p' c v out rest Hi E Er
    |p ts s r i kl n rem p' c ch lk out rest Hi E Er|p ts s r i kl n p' c v bs Hi E|p ts s r i kl n p' c ch lk l Hi E
    |p ts s r w p' c b Hu E]; unfold sleepers in *; cbn [ps_pipe ps_threads] in *; intros j t Hj.
  - apply insert_thread in Hj as [[_ <-]|[_ Hj]]; [|exact (Hsl _ _ Hj)]. split; [done|]. split; done.
  - apply insert_thread in Hj as [[_ <-]|[_ Hj]]; [|exact (Hsl _ _ Hj)]. split; [done|]. split; done.
  - destruct (write_result _ _ _ _ _ _ _ Hok E) as (o & q & E2 & Hok' & Hc & Hro & Hwo & Hend).
    pose proof (count_app_full p p' o Hok Hok' Hc) as Hcnt. pose proof (po_count p' Hok') as Hle.
    apply after_step in Hj as [->|(u & Hu & ->)]; [done|]. destruct (Hsl j u Hu) as [Hr Hopen].
    split; [|eapply open_for_ext; [intros; apply uses_wake|done|done|done]].
    destruct Hend as [(-> & _ & ->)|[(Hne & Hf & Hor & [= _ <-] & ->)|(_ & _ & _ & _ & Hx & _)]]; [| |done].
    + apply (reason_wake p); [done|left; cbn; constructor|right]. rewrite Hro. intros; split; [lia|done].
    + assert (Hrf : p_readopen p = false).
      { destruct Hor as [|Hk]; [done|]. subst kl. rewrite bool_decide_eq_false_2 in El by done. done. }
      destruct u; cbn in *; try done.
      * destruct Hr. congruence.
      * destruct Hopen as [_ Hopen]. specialize (Hopen eq_refl). congruence.
  - destruct (write_result _ _ _ _ _ _ _ Hok E) as (o & q & E2 & Hok' & Hc & Hro & Hwo & Hend).
    destruct Hend as [(_ & Hx & _)|[(_ & _ & _ & Hx & _)|(Hne & Hf & Hr' & _ & _ & ->)]]; [done|done|].
    apply after_step in Hj as [->|(u & Hu & ->)].
    + destruct (Hsl i _ Hi) as [_ Hopen].
      split; [|apply (open_for_ext p _ (TWrite n rem)); [intros; now rewrite uses_wake|done|done|exact Hopen]].
      cbn. destruct (decide _); [done|]. split; [done|congruence].
    + destruct (Hsl j u Hu) as [Hr Hopen].
      split; [|eapply open_for_ext; [intros; apply uses_wake|done|done|done]].
      apply (reason_wake p); [done|left; cbn; constructor|right]. rewrite Hro. done.
  - destruct (read_result _ _ _ _ _ _ Hok E) as [(Hc & Hw & -> & [(_ & [= _ _] & ->)|(_ & Hx & _)])|(Himp & bs' & [= _ ->] & Hok' & Hc & Hl & Hro & Hwo & ->)]; [|done|].
    + apply after_step in Hj as [->|(u & Hu & ->)]; [done|]. destruct (Hsl j u Hu) as [Hr Hopen].
      split; [|eapply open_for_ext; [intros; apply uses_wake|done|done|done]].
      apply (reason_wake p); [done|right; auto..].
    + apply after_step in Hj as [->|(u & Hu & ->)]; [done|]. destruct (Hsl j u Hu) as [Hr Hopen].
      split; [|eapply open_for_ext; [intros; apply uses_wake|done|done|done]].
      apply (reason_wake p); [done|right|left; cbn; constructor]. intros H0 H1. rewrite (Himp H0) in H1. done.
  - destruct (read_result _ _ _ _ _ _ Hok E) as [(Hc & Hw & -> & [(_ & Hx & _)|(_ & _ & ->)])|(Himp & bs' & Hx & _)]; [done| |done].
    apply after_step in Hj as [->|(u & Hu & ->)].
    + destruct (Hsl i _ Hi) as [_ Hopen].
      split; [|apply (open_for_ext p _ (TRead n)); [intros; now rewrite uses_wake|done|done|exact Hopen]].
      cbn. destruct (decide _); done.
    + destruct (Hsl j u Hu) as [Hr Hopen].
      split; [|eapply open_for_ext; [intros; apply uses_wake|done|done|done]].
      apply (reason_wake p); [done|right; auto..].
  - destruct (close_result w p) as [b' E']. rewrite E' in E. injection E as <- <- <-. cbn [woken] in Hj.
    rewrite list_lookup_fmap in Hj. apply fmap_Some in Hj as (u & Hju & ->). destruct (Hsl j u Hju) as [Hr [O1 O2]].
    specialize (Hu j u Hju). destruct w; cbn in Hu.
    + split; [apply (reason_wake p); [done|left; constructor|]|].
      * right. destruct u; cbn in *; try done; auto.
      * unfold open_for. rewrite !uses_wake, Hu. split; [done|]. cbn. auto.
    + split; [apply (reason_wake p); [done| |left; constructor]|].
      * right. destruct u; cbn in *; try done; auto.
      * unfold open_for. rewrite !uses_wake, Hu. split; [|done]. cbn. auto.
Qed.

End PipeSys.

Definition pipe_run (pa : Z) (x x' : psys) : Prop := exists b, pipe_step pa b x x'.

(** A fresh pipe and idle threads. *)
Definition pipe_start (junk : list Z) (n : nat) : psys := Psys (pipe_init junk) (replicate n TIdle) [] [].

Lemma pipe_start_ok junk n : length junk = 512%nat -> fifo (pipe_start junk n) /\ sleepers (pipe_start junk n).
Proof.
  intros Hl. split.
  - split; [|reflexivity]. split; cbn; [done|unfold is_u32; lia|unfold is_u32; lia|]. vm_compute. discriminate.
  - intros i t Hi. apply lookup_replicate in Hi as [-> _]. split; [done|]. split; done.
Qed.

(** C29: a pipe is a queue.  However many readers and writers use it and however
    their stretches of code, sleeps, wakeups and closes interleave, at every
    moment the bytes written so far are exactly the bytes read so far, in the
    same order, followed by the at most 512 bytes in the ring. *)
Theorem pipe_fifo pa junk n x :
  length junk = 512%nat -> rtc (pipe_run pa) (pipe_start junk n) x ->
  ps_sent x = ps_rcvd x ++ content (ps_pipe x) /\ (length (content (ps_pipe x)) <= 512)%nat.
Proof.
  intros Hl Hr. assert (Hf : fifo x).
  { destruct (pipe_start_ok junk n Hl) as [H0 _]. revert H0. induction Hr as [|a b c [lb Hs] _ IH]; [done|].
    intros H0. apply IH. eapply fifo_step; eauto. }
  destruct Hf as [Hok E]. split; [done|]. rewrite length_content. pose proof (po_count _ Hok). unfold PIPESIZE in *. lia.
Qed.

(** C30: no wakeup on a pipe is lost, as long as no writer gives up because it
    was killed: a reader sleeps only while the pipe is empty and the write end
    open, a writer only while it is full and the read end open, so a reader and a
    writer never sleep at the same time. *)
Theorem pipe_no_lost_wakeup pa junk n x :
  length junk = 512%nat -> rtc (pipe_step pa false) (pipe_start junk n) x ->
  (forall i m, ps_threads x !! i = Some (TRAsleep m) ->
     content (ps_pipe x) = [] /\ p_writeopen (ps_pipe x) = true) /\
  (forall i m rem, ps_threads x !! i = Some (TWAsleep m rem) ->
     length (content (ps_pipe x)) = 512%nat /\ p_readopen (ps_pipe x) = true) /\
  (forall i j m m' rem, ps_threads x !! i = Some (TRAsleep m) ->
     ps_threads x !! j = Some (TWAsleep m' rem) -> False).
Proof.
  intros Hl Hr. assert (Hf : fifo x /\ sleepers x).
  { destruct (pipe_start_ok junk n Hl) as [H0 H1]. revert H0 H1. induction Hr as [|a b c Hs _ IH]; [done|].
    intros H0 H1. apply IH; [eapply fifo_step|eapply sleepers_step]; eauto. }
  destruct Hf as [[Hok _] Hsl].
  assert (H1 : forall i m, ps_threads x !! i = Some (TRAsleep m) -> count (ps_pipe x) = 0 /\ p_writeopen (ps_pipe x) = true).
  { intros i m Hi. now destruct (Hsl _ _ Hi). }
  assert (H2 : forall i m rem, ps_threads x !! i = Some (TWAsleep m rem) -> count (ps_pipe x) = PIPESIZE /\ p_readopen (ps_pipe x) = true).
  { intros i m rem Hi. now destruct (Hsl _ _ Hi). }
  split_and!.
  - intros i m Hi. destruct (H1 _ _ Hi) as [E ?]. split; [|done]. apply nil_length_inv. now rewrite length_content, E.
  - intros i m rem Hi. destruct (H2 _ _ _ Hi) as [E ?]. split; [|done]. now rewrite length_content, E.
  - intros i j m m' rem Hi Hj. destruct (H1 _ _ Hi) as [E _], (H2 _ _ _ Hj) as [E' _]. rewrite E in E'. discriminate.
Qed.

(** A reader asleep, then a writer that fills the pipe and is killed. *)
Definition asleep_reader : psys := Psys (pipe_init (replicate 512 0)) [TRAsleep 1; TIdle] [] [].

Lemma reader_sleeps : rtc (pipe_step 7 false) (pipe_start (replicate 512 0) 2) asleep_reader.
Proof.
  eapply rtc_l; [apply (ps_call_read _ _ _ _ _ 0 1); reflexivity|].
  eapply rtc_l; [eapply (ps_read_block _ _ _ _ _ 0 false); [reflexivity|vm_compute; reflexivity]|]. apply rtc_refl.
Qed.

Definition full_pipe : psys :=
  Psys (Pipe (replicate 512 1) 0 512 true true) [TRAsleep 1; TIdle] (replicate 512 1) [].

Lemma killed_writer_run : rtc (pipe_run 7) (pipe_start (replicate 512 0) 2) full_pipe.
Proof.
  etransitivity; [eapply (rtc_congruence id); [|exact reader_sleeps]; intros a b Hab; now exists false|].
  eapply rtc_l; [exists false; apply (ps_call_write _ _ _ _ _ 1 513 (replicate 513 1)); reflexivity|].
  eapply rtc_l; [|apply rtc_refl]. exists true.
  exact (ps_write_done 7 (pipe_init (replicate 512 0)) [TRAsleep 1; TWrite 513 (replicate 513 1)] [] [] 1 true 513
    (replicate 513 1) (Pipe (replicate 512 1) 0 512 true true) (Ctx [] []) (-1) (replicate 512 1) [1]
    eq_refl ltac:(vm_compute; reflexivity) eq_refl).
Qed.

(** The writer's early return at a killed process (pipe.c, pipewrite) skips the
    wakeup: the pipe is full and the reader still asleep. *)
Lemma killed_writer_loses_wakeup :
  exists x, rtc (pipe_run 7) (pipe_start (replicate 512 0) 2) x /\
    ps_threads x !! 0%nat = Some (TRAsleep 1) /\ length (content (ps_pipe x)) = 512%nat.
Proof. exists full_pipe. split; [exact killed_writer_run|]. split; [reflexivity|]. vm_compute. reflexivity. Qed.

Lemma pipe_fifo_witness : replicate 512 1 = [] ++ content (Pipe (replicate 512 1) 0 512 true true).
Proof. exact (proj1 (pipe_fifo 7 (replicate 512 0) 2 full_pipe eq_refl killed_writer_run)). Defined.

Lemma pipe_no_lost_wakeup_witness :
  content (ps_pipe asleep_reader) = [] /\ p_writeopen (ps_pipe asleep_reader) = true.
Proof.
  apply (proj1 (pipe_no_lost_wakeup 7 (replicate 512 0) 2 asleep_reader eq_refl reader_sleeps) 0%nat 1).
  reflexivity.
Defined.
