(* ===== verification/Disk.v ===== *)
(** fs.h, buf.h and memide.c: disk blocks, the buffers of the cache with the
    disk behind them, and the disk driver that keeps the disk in memory. *)
From S2P Require Import Prelude Monad Mem Mmu Sleeplock.

(** * Blocks (fs.h) *)

Definition BSIZE : Z := 512.
Abbreviation block := (list Z).

Definition block_ok (d : block) : Prop := length d = 512%nat /\ Forall is_u8 d.

(** [memmove] to and from the data of a buffer: the [n] bytes at [off], and
    storing bytes there. *)
Definition bytes_at (d : block) (off n : Z) : list Z := take (Z.to_nat n) (drop (Z.to_nat off) d).
Definition set_bytes (d : block) (off : Z) (bs : list Z) : block := list_inserts (Z.to_nat off) bs d.

(** Little-endian words in a block. *)
Definition rd16 (d : block) (off : Z) : Z := le_val (bytes_at d off 2).
Definition rd32 (d : block) (off : Z) : Z := le_val (bytes_at d off 4).
Definition wr16 (d : block) (off w : Z) : block := set_bytes d off (le_bytes 2 w).
Definition wr32 (d : block) (off w : Z) : block := set_bytes d off (le_bytes 4 w).

Lemma length_set_bytes d off bs : length (set_bytes d off bs) = length d.
Proof. apply length_inserts. Qed.

Lemma set_bytes_ok d off bs : block_ok d -> Forall is_u8 bs -> block_ok (set_bytes d off bs).
Proof.
  intros [Hl Hd] Hb. split; [now rewrite length_set_bytes|]. apply Forall_lookup. intros i x.
  unfold set_bytes. rewrite list_lookup_inserts_Some. rewrite Forall_lookup in Hd, Hb.
  intros [[_ H]|(_ & _ & H)]; eauto.
Qed.

Lemma wr32_ok d off w : block_ok d -> block_ok (wr32 d off w).
Proof. intros H. apply set_bytes_ok; [done|]. apply le_bytes_range. Qed.

Lemma bytes_at_ok d off n : Forall is_u8 d -> Forall is_u8 (bytes_at d off n).
Proof. intros H. apply Forall_take, Forall_drop, H. Qed.

Lemma bytes_at_lookup d off n (i : nat) :
  0 <= off -> bytes_at d off n !! i = if decide (i < Z.to_nat n)%nat then d !! (Z.to_nat off + i)%nat else None.
Proof.
  intros H0. unfold bytes_at. destruct (decide _).
  - rewrite lookup_take_lt by done. apply lookup_drop.
  - apply lookup_take_ge. lia.
Qed.

Lemma length_bytes_at d off n :
  0 <= off -> 0 <= n -> off + n <= Z.of_nat (length d) -> length (bytes_at d off n) = Z.to_nat n.
Proof. intros. unfold bytes_at. rewrite length_take, length_drop. lia. Qed.

(** Reading what was just written, and reading elsewhere. *)
Lemma bytes_at_set_eq d off bs :
  0 <= off -> off + Z.of_nat (length bs) <= Z.of_nat (length d) ->
  bytes_at (set_bytes d off bs) off (Z.of_nat (length bs)) = bs.
Proof.
  intros H0 Hl. apply list_eq_same_length with (length bs).
  - done.
  - rewrite length_bytes_at; rewrite ?length_set_bytes; lia.
  - intros i x y Hi. rewrite bytes_at_lookup by done. destruct (decide _); [|lia]. unfold set_bytes.
    rewrite list_lookup_inserts by lia.
    replace (Z.to_nat off + i - Z.to_nat off)%nat with i by lia. congruence.
Qed.

Lemma bytes_at_set_ne d off bs off' n :
  0 <= off -> 0 <= off' -> 0 <= n -> off' + n <= off \/ off + Z.of_nat (length bs) <= off' ->
  bytes_at (set_bytes d off bs) off' n = bytes_at d off' n.
Proof.
  intros H0 H1 H2 Hd. apply list_eq. intros i. rewrite !bytes_at_lookup by done. destruct (decide _); [|done].
  unfold set_bytes. destruct Hd.
  - apply list_lookup_inserts_lt. lia.
  - apply list_lookup_inserts_ge. lia.
Qed.

Lemma rd32_wr32_eq d off w :
  0 <= off -> off + 4 <= Z.of_nat (length d) -> rd32 (wr32 d off w) off = u32 w.
Proof.
  intros H0 Hl. unfold rd32, wr32. pose proof (bytes_at_set_eq d off (le_bytes 4 w)) as E.
  rewrite length_le_bytes in E. change (Z.of_nat 4) with 4 in E. rewrite E by lia. now rewrite le_val_bytes.
Qed.

Lemma rd32_wr32_ne d off w off' :
  0 <= off -> 0 <= off' -> off' + 4 <= off \/ off + 4 <= off' -> rd32 (wr32 d off w) off' = rd32 d off'.
Proof.
  intros H0 H1 H. unfold rd32, wr32. rewrite bytes_at_set_ne; [done..|]. rewrite length_le_bytes. lia.
Qed.

Lemma rd32_range d off : Forall is_u8 d -> 0 <= off -> off + 4 <= Z.of_nat (length d) -> is_u32 (rd32 d off).
Proof.
  intros Hd H0 Hl. unfold rd32, is_u32. pose proof (le_val_range _ (bytes_at_ok d off 4 Hd)) as R.
  rewrite length_bytes_at in R by lia. exact R.
Qed.

(** * Buffers (buf.h) *)

Definition B_VALID : Z := 0x2.
Definition B_DIRTY : Z := 0x4.

(** struct buf.  A pointer to a buffer is its index in [bcache.buf]; the index
    [HEAD] is [&bcache.head].  [b_locked] is the word of its sleep lock. *)
Record buf : Type := Buf {
  b_flags : Z;
  b_dev : Z;
  b_blockno : Z;
  b_locked : bool;
  b_refcnt : Z;
  b_prev : nat;
  b_next : nat;
  b_data : block
}.

Definition HEAD : nat := NBUF.
Definition buf0 : buf := Buf 0 0 0 false 0 0 0 (replicate 512 0).

Definition set_flags v b := Buf v (b_dev b) (b_blockno b) (b_locked b) (b_refcnt b) (b_prev b) (b_next b) (b_data b).
Definition set_dev v b := Buf (b_flags b) v (b_blockno b) (b_locked b) (b_refcnt b) (b_prev b) (b_next b) (b_data b).
Definition set_blockno v b := Buf (b_flags b) (b_dev b) v (b_locked b) (b_refcnt b) (b_prev b) (b_next b) (b_data b).
Definition set_locked v b := Buf (b_flags b) (b_dev b) (b_blockno b) v (b_refcnt b) (b_prev b) (b_next b) (b_data b).
Definition set_refcnt v b := Buf (b_flags b) (b_dev b) (b_blockno b) (b_locked b) v (b_prev b) (b_next b) (b_data b).
Definition set_prev v b := Buf (b_flags b) (b_dev b) (b_blockno b) (b_locked b) (b_refcnt b) v (b_next b) (b_data b).
Definition set_next v b := Buf (b_flags b) (b_dev b) (b_blockno b) (b_locked b) (b_refcnt b) (b_prev b) v (b_data b).
Definition set_data v b := Buf (b_flags b) (b_dev b) (b_blockno b) (b_locked b) (b_refcnt b) (b_prev b) (b_next b) v.

Definition valid (b : buf) : bool := negb (Z.land (b_flags b) B_VALID =? 0).
Definition dirty (b : buf) : bool := negb (Z.land (b_flags b) B_DIRTY =? 0).

(** * The buffer cache with its disk

    [bufs] is [bcache.buf] followed by [bcache.head].  [disk] is the image of the
    disk, block by block.  [trace] is not in the source: it records the blocks
    written to the disk, oldest first, so that the disk a crash leaves behind is
    the result of some prefix of them. *)
Record bst : Type := Bst {
  bufs : list buf;
  disk : list block;
  trace : list (Z * block)
}.

Definition set_bufs f s := Bst (f (bufs s)) (disk s) (trace s).
Definition bufof (i : nat) (s : bst) : buf := default buf0 (bufs s !! i).
Definition bset (i : nat) (f : buf -> buf) (s : bst) : bst := set_bufs (alter f i) s.
Definition bmod (i : nat) (f : buf -> buf) : M bst unit := modify (bset i f).

#[global] Instance bst_locks : SleepLocks bst := {|
  sl_locked lk s := match lk with SlBuf b => b_locked (bufof b s) | SlInode _ => false end;
  sl_set lk v s := match lk with SlBuf b => bset b (set_locked v) s | SlInode _ => s end
|}.

Definition dwrite (bno : Z) (d : block) (s : bst) : bst :=
  Bst (bufs s) (aset (disk s) bno d) (trace s ++ [(bno, d)]).

Lemma bufof_bset_eq i f s : (i < length (bufs s))%nat -> bufof i (bset i f s) = f (bufof i s).
Proof.
  intros H. unfold bufof, bset, set_bufs; cbn. rewrite list_lookup_alter_eq.
  destruct (lookup_lt_is_Some_2 _ _ H) as [x ->]. done.
Qed.

Lemma bufof_bset_ne i j f s : i <> j -> bufof j (bset i f s) = bufof j s.
Proof. intros H. unfold bufof, bset, set_bufs; cbn. now rewrite list_lookup_alter_ne. Qed.

Lemma length_bset i f s : length (bufs (bset i f s)) = length (bufs s).
Proof. apply length_alter. Qed.

(** * memide.c *)

(** [memdisk] is the start of the image, [disksize] its number of blocks. *)
Definition disksize (s : bst) : Z := Z.of_nat (length (disk s)).

(** The interrupt handler does nothing. *)
Definition ideintr : M bst unit := ret tt.

Definition iderw (b : nat) : M bst unit :=
  let* h := holdingsleep (SlBuf b) in
  if negb h then panic "iderw: buf not locked"
  else
    let* q := gets (bufof b) in
    let* n := gets disksize in
    if Z.land (b_flags q) (Z.lor B_VALID B_DIRTY) =? B_VALID then panic "iderw: nothing to do"
    else if negb (b_dev q =? 1) then panic "iderw: request not for disk 1"
    else if n <=? b_blockno q then panic "iderw: block out of range"
    else
      (if negb (Z.land (b_flags q) B_DIRTY =? 0) then
         bmod b (set_flags (Z.land (b_flags q) (Z.lnot B_DIRTY))) ;;;
         modify (dwrite (b_blockno q) (b_data q))
       else
         let* d := gets (fun s => aget [] (disk s) (b_blockno q)) in
         bmod b (set_data d)) ;;;
      bmod b (fun q => set_flags (Z.lor (b_flags q) B_VALID) q).
