(* ===== verification/Ports.v ===== *)
(** The port instructions of x86.h and the registers of devices that are mapped
    into memory, as the drivers use them: the devices have a state [D], which
    reading and writing them changes. *)
From S2P Require Import Prelude Monad.

(** [insl] and [outsl] move [cnt] words of four bytes; [mmio_ld] and [mmio_st] load
    and store the word at an address. *)
Class IO (D : Type) : Type := {
  inb : Z -> D -> Z * D;
  outb : Z -> Z -> D -> D;
  insl : Z -> nat -> D -> list Z * D;
  outsl : Z -> list Z -> D -> D;
  mmio_ld : Z -> D -> Z * D;
  mmio_st : Z -> Z -> D -> D
}.

(** A state with devices in it. *)
Class HasDev (D S : Type) : Type := {
  dev : S -> D;
  set_devs : D -> S -> S
}.

Section Ports.
Context {D S : Type} `{IO D, HasDev D S}.

Definition io {A} (f : D -> A * D) : M S A :=
  fun c s => let r := f (dev s) in Ret r.1 c (set_devs r.2 s).

Definition out (f : D -> D) : M S unit := modify (fun s => set_devs (f (dev s)) s).

Lemma wp_io {A} (f : D -> A * D) (Q : A -> ctx -> S -> Prop) c s :
  Q (f (dev s)).1 c (set_devs (f (dev s)).2 s) -> wp (io f) Q c s.
Proof. done. Qed.

Lemma wp_out f (Q : unit -> ctx -> S -> Prop) c s : Q tt c (set_devs (f (dev s)) s) -> wp (out f) Q c s.
Proof. done. Qed.
End Ports.
