(* ===== verification/Boot.v ===== *)
(** mp.c, lapic.c, ioapic.c and picirq.c: finding the processors in the tables the
    firmware leaves in memory, and programming the interrupt controllers. *)
From S2P Require Import Prelude Monad Mem Mmu Digits Ports.

(** * ioapic.c *)

Definition IOAPIC : Z := 0xFEC00000.
Definition REG_ID : Z := 0x00.
Definition REG_VER : Z := 0x01.
Definition REG_TABLE : Z := 0x10.
Definition INT_DISABLED : Z := 0x00010000.

(** The registers of struct ioapic: [reg] at offset 0, [data] after the padding. *)
Definition IOAPIC_DATA : Z := IOAPIC + 16.

Section Ioapic.
Context {D S : Type} `{IO D, HasDev D S}.

Definition ioapicread (reg : Z) : M S Z :=
  out (mmio_st IOAPIC reg) ;;; io (mmio_ld IOAPIC_DATA).

Definition ioapicwrite (reg data : Z) : M S unit :=
  out (mmio_st IOAPIC reg) ;;; out (mmio_st IOAPIC_DATA data).

(** The result says whether the message about the identifier is printed. *)
Definition ioapicinit (ioapicid : Z) : M S bool :=
  let* ver := ioapicread REG_VER in
  let maxintr := Z.land (Z.shiftr ver 16) 0xFF in
  let* v := ioapicread REG_ID in
  let id := Z.shiftr v 24 in
  for_ (zrange (Z.to_nat (maxintr + 1))) (fun i =>
    ioapicwrite (REG_TABLE + 2 * i) (Z.lor INT_DISABLED (T_IRQ0 + i)) ;;;
    ioapicwrite (REG_TABLE + 2 * i + 1) 0) ;;;
  ret (negb (id =? ioapicid)).

Definition ioapicenable (irq cpunum : Z) : M S unit :=
  ioapicwrite (REG_TABLE + 2 * irq) (T_IRQ0 + irq) ;;;
  ioapicwrite (REG_TABLE + 2 * irq + 1) (u32 (Z.shiftl cpunum 24)).

(** * picirq.c *)

Definition IO_PIC1 : Z := 0x20.
Definition IO_PIC2 : Z := 0xA0.

Definition picinit : M S unit :=
  out (outb (IO_PIC1 + 1) 0xFF) ;;;
  out (outb (IO_PIC2 + 1) 0xFF).
End Ioapic.

(** * mp.h: the firmware's tables

    The offsets of the fields, and the sizes of the structures. *)

Definition MP_physaddr : Z := 4.
Definition MP_imcrp : Z := 12.
Definition sizeof_mp : Z := 16.

Definition MPC_length : Z := 4.
Definition MPC_version : Z := 6.
Definition MPC_lapicaddr : Z := 36.
Definition sizeof_mpconf : Z := 44.

Definition MPPROC_apicid : Z := 1.
Definition sizeof_mpproc : Z := 20.
Definition MPIOAPIC_apicno : Z := 1.
Definition sizeof_mpioapic : Z := 8.

Definition MPPROC : Z := 0x00.
Definition MPBUS : Z := 0x01.
Definition MPIOAPIC : Z := 0x02.
Definition MPIOINTR : Z := 0x03.
Definition MPLINTR : Z := 0x04.

(** * mp.c *)

(** The sum is kept in an [int] and returned as a [uchar]. *)
Fixpoint sum_from (m : mem) (addr : Z) (len : nat) (acc : Z) : Z :=
  match len with
  | O => u8 acc
  | Datatypes.S n => sum_from m (addr + 1) n (s32 (u32 (acc + ld m addr)))
  end.

Definition sum (m : mem) (addr len : Z) : Z := sum_from m addr (Z.to_nat len) 0.

(** [memcmp(p, sig, 4) == 0] for a literal [sig]. *)
Definition has_sig (m : mem) (p : Z) (sig : string) : bool := bool_decide (lds m p 4 = bytes sig).

(** A null pointer is 0, as in the source; [None] when the steps run out. *)
Fixpoint mpsearch1_from (n : nat) (m : mem) (p e : Z) : option Z :=
  match n with
  | O => None
  | Datatypes.S n' =>
      if p <? e then
        if has_sig m p "_MP_" && (sum m p sizeof_mp =? 0) then Some p
        else mpsearch1_from n' m (u32 (p + sizeof_mp)) e
      else Some 0
  end.

(** There are [len / 16] places to look at, and the end of the range. *)
Definition mpsearch1 (m : mem) (a len : Z) : option Z :=
  let addr := P2V a in
  mpsearch1_from (Datatypes.S (Z.to_nat ((len + 15) / 16))) m addr (u32 (addr + len)).

Definition mpsearch (m : mem) : option Z :=
  let bda := P2V 0x400 in
  let p := Z.shiftl (Z.lor (Z.shiftl (ld m (bda + 0x0F)) 8) (ld m (bda + 0x0E))) 4 in
  let last := mpsearch1 m 0xF0000 0x10000 in
  let first :=
    if negb (p =? 0) then mpsearch1 m p 1024
    else
      let p := Z.lor (Z.shiftl (ld m (bda + 0x14)) 8) (ld m (bda + 0x13)) * 1024 in
      mpsearch1 m (u32 (p - 1024)) 1024 in
  match first with
  | None => None
  | Some mp => if negb (mp =? 0) then Some mp else last
  end.

(** The table and [*pmp], or [Some None] for the null pointer. *)
Definition mpconfig (m : mem) : option (option (Z * Z)) :=
  match mpsearch m with
  | None => None
  | Some mp =>
      if (mp =? 0) || (ld32 m (mp + MP_physaddr) =? 0) then Some None
      else
        let conf := P2V (ld32 m (mp + MP_physaddr)) in
        let version := ld m (conf + MPC_version) in
        if negb (has_sig m conf "PCMP") then Some None
        else if negb (version =? 1) && negb (version =? 4) then Some None
        else if negb (sum m conf (le_val (lds m (conf + MPC_length) 2)) =? 0) then Some None
        else Some (Some (conf, mp))
  end.

(** What the boot code sets up: memory, the devices, [cpus[i].apicid] of each CPU,
    [ncpu], [ioapicid] and the address [lapic]. *)
Record boot (D : Type) : Type := Boot {
  bt_mem : mem;
  bt_dev : D;
  apicids : list Z;
  ncpu : Z;
  ioapicid : Z;
  lapic : Z
}.
Arguments Boot {D}.
Arguments bt_mem {D}.
Arguments bt_dev {D}.
Arguments apicids {D}.
Arguments ncpu {D}.
Arguments ioapicid {D}.
Arguments lapic {D}.

#[global] Instance boot_devices {D} : HasDev D (boot D) := {|
  dev := bt_dev;
  set_devs d s := Boot (bt_mem s) d (apicids s) (ncpu s) (ioapicid s) (lapic s)
|}.

Section Mp.
Context {D : Type} `{IO D}.
Abbreviation bt := (boot D).

Definition set_lapic (a : Z) (s : bt) : bt :=
  Boot (bt_mem s) (bt_dev s) (apicids s) (ncpu s) (ioapicid s) a.
Definition set_ioapicid (a : Z) (s : bt) : bt :=
  Boot (bt_mem s) (bt_dev s) (apicids s) (ncpu s) a (lapic s).
Definition add_cpu (id : Z) (s : bt) : bt :=
  if ncpu s <? Z.of_nat NCPU then
    Boot (bt_mem s) (bt_dev s) (aset (apicids s) (ncpu s) id) (ncpu s + 1) (ioapicid s) (lapic s)
  else s.

(** The loop over the entries; the result is [ismp].  The [break] of the default
    case leaves the [switch] only. *)
Fixpoint mp_entries (n : nat) (p e ismp : Z) : M bt Z :=
  match n with
  | O => fun _ _ => OutOfFuel
  | Datatypes.S n' =>
      if p <? e then
        let* m := gets bt_mem in
        let ty := ld m p in
        if ty =? MPPROC then
          modify (add_cpu (ld m (p + MPPROC_apicid))) ;;;
          mp_entries n' (u32 (p + sizeof_mpproc)) e ismp
        else if ty =? MPIOAPIC then
          modify (set_ioapicid (ld m (p + MPIOAPIC_apicno))) ;;;
          mp_entries n' (u32 (p + sizeof_mpioapic)) e ismp
        else if (ty =? MPBUS) || (ty =? MPIOINTR) || (ty =? MPLINTR) then
          mp_entries n' (u32 (p + 8)) e ismp
        else mp_entries n' p e 0
      else ret ismp
  end.

Definition mpinit (n : nat) : M bt unit :=
  let* m := gets bt_mem in
  match mpconfig m with
  | None => fun _ _ => OutOfFuel
  | Some None => panic "Expect to run on an SMP"
  | Some (Some (conf, mp)) =>
      modify (set_lapic (ld32 m (conf + MPC_lapicaddr))) ;;;
      let e := u32 (conf + le_val (lds m (conf + MPC_length) 2)) in
      let* ismp := mp_entries n (u32 (conf + sizeof_mpconf)) e 1 in
      if ismp =? 0 then panic "Didn't find a suitable machine"
      else
        when (negb (ld m (mp + MP_imcrp) =? 0))
          (out (outb 0x22 0x70) ;;;
           let* v := io (inb 0x23) in
           out (outb 0x23 (Z.lor v 1)))
  end.
End Mp.

(** * lapic.c *)

(** Register numbers: indexes into the array of words at [lapic]. *)
Definition L_ID : Z := 0x0020 / 4.
Definition L_VER : Z := 0x0030 / 4.
Definition L_TPR : Z := 0x0080 / 4.
Definition L_EOI : Z := 0x00B0 / 4.
Definition L_SVR : Z := 0x00F0 / 4.
Definition ENABLE : Z := 0x00000100.
Definition L_ESR : Z := 0x0280 / 4.
Definition ICRLO : Z := 0x0300 / 4.
Definition INIT : Z := 0x00000500.
Definition STARTUP : Z := 0x00000600.
Definition DELIVS : Z := 0x00001000.
Definition ASSERT : Z := 0x00004000.
Definition LEVEL : Z := 0x00008000.
Definition BCAST : Z := 0x00080000.
Definition ICRHI : Z := 0x0310 / 4.
Definition TIMER : Z := 0x0320 / 4.
Definition X1 : Z := 0x0000000B.
Definition PERIODIC : Z := 0x00020000.
Definition PCINT : Z := 0x0340 / 4.
Definition LINT0 : Z := 0x0350 / 4.
Definition LINT1 : Z := 0x0360 / 4.
Definition L_ERROR : Z := 0x0370 / 4.
Definition MASKED : Z := 0x00010000.
Definition TICR : Z := 0x0380 / 4.
Definition TDCR : Z := 0x03E0 / 4.

Definition CMOS_PORT : Z := 0x70.
Definition CMOS_RETURN : Z := 0x71.
Definition CMOS_STATA : Z := 0x0a.
Definition CMOS_STATB : Z := 0x0b.
Definition CMOS_UIP : Z := Z.shiftl 1 7.
Definition SECS : Z := 0x00.
Definition MINS : Z := 0x02.
Definition HOURS : Z := 0x04.
Definition DAY : Z := 0x07.
Definition MONTH : Z := 0x08.
Definition YEAR : Z := 0x09.

(** date.h *)
Record rtcdate : Type := Rtcdate {
  second : Z;
  minute : Z;
  hour : Z;
  day : Z;
  month : Z;
  year : Z
}.

#[global] Instance rtcdate_eq_dec : EqDecision rtcdate.
Proof. solve_decision. Defined.

Section Lapic.
Context {D : Type} `{IO D}.
Abbreviation bt := (boot D).

Definition lapicr (index : Z) : M bt Z :=
  let* a := gets lapic in io (mmio_ld (a + 4 * index)).

Definition lapicw (index value : Z) : M bt unit :=
  let* a := gets lapic in
  out (mmio_st (a + 4 * index) (u32 value)) ;;;
  let* _ := lapicr L_ID in
  ret tt.

(** [while(lapic[ICRLO] & DELIVS)]. *)
Fixpoint wait_delivered (n : nat) : M bt unit :=
  match n with
  | O => fun _ _ => OutOfFuel
  | Datatypes.S n' =>
      let* v := lapicr ICRLO in
      if negb (Z.land v DELIVS =? 0) then wait_delivered n' else ret tt
  end.

Definition lapicinit (spins : nat) : M bt unit :=
  let* a := gets lapic in
  if a =? 0 then ret tt
  else
    lapicw L_SVR (Z.lor ENABLE (T_IRQ0 + IRQ_SPURIOUS)) ;;;
    lapicw TDCR X1 ;;;
    lapicw TIMER (Z.lor PERIODIC (T_IRQ0 + IRQ_TIMER)) ;;;
    lapicw TICR 10000000 ;;;
    lapicw LINT0 MASKED ;;;
    lapicw LINT1 MASKED ;;;
    let* v := lapicr L_VER in
    when (4 <=? Z.land (Z.shiftr v 16) 0xFF) (lapicw PCINT MASKED) ;;;
    lapicw L_ERROR (T_IRQ0 + IRQ_ERROR) ;;;
    lapicw L_ESR 0 ;;;
    lapicw L_ESR 0 ;;;
    lapicw L_EOI 0 ;;;
    lapicw ICRHI 0 ;;;
    lapicw ICRLO (Z.lor (Z.lor BCAST INIT) LEVEL) ;;;
    wait_delivered spins ;;;
    lapicw L_TPR 0.

Definition lapicid : M bt Z :=
  let* a := gets lapic in
  if a =? 0 then ret 0
  else let* v := lapicr L_ID in ret (Z.shiftr v 24).

Definition lapiceoi : M bt unit :=
  let* a := gets lapic in
  when (negb (a =? 0)) (lapicw L_EOI 0).

Definition microdelay (us : Z) : M bt unit := ret tt.

(** [*a = v] for a [ushort]. *)
Definition store16 (a v : Z) : M bt unit :=
  modify (fun s => Boot (sts (bt_mem s) a (le_bytes 2 v)) (bt_dev s) (apicids s) (ncpu s) (ioapicid s) (lapic s)).

Definition lapicstartap (apicid addr : Z) : M bt unit :=
  out (outb CMOS_PORT 0xF) ;;;
  out (outb (CMOS_PORT + 1) 0x0A) ;;;
  let wrv := P2V (Z.lor (Z.shiftl 0x40 4) 0x67) in
  store16 wrv 0 ;;;
  store16 (wrv + 2) (Z.shiftr addr 4) ;;;
  lapicw ICRHI (Z.shiftl apicid 24) ;;;
  lapicw ICRLO (Z.lor (Z.lor INIT LEVEL) ASSERT) ;;;
  microdelay 200 ;;;
  lapicw ICRLO (Z.lor INIT LEVEL) ;;;
  microdelay 100 ;;;
  for_ (zrange 2) (fun _ =>
    lapicw ICRHI (Z.shiftl apicid 24) ;;;
    lapicw ICRLO (Z.lor STARTUP (Z.shiftr addr 12)) ;;;
    microdelay 200).

Definition cmos_read (reg : Z) : M bt Z :=
  out (outb CMOS_PORT (u8 reg)) ;;;
  microdelay 200 ;;;
  io (inb CMOS_RETURN).

Definition fill_rtcdate : M bt rtcdate :=
  let* s := cmos_read SECS in
  let* mi := cmos_read MINS in
  let* h := cmos_read HOURS in
  let* d := cmos_read DAY in
  let* mo := cmos_read MONTH in
  let* y := cmos_read YEAR in
  ret (Rtcdate s mi h d mo y).

(** The macro [CONV]. *)
Definition CONV (x : Z) : Z := u32 (Z.shiftr x 4 * 10 + Z.land x 0xf).

(** The loop that reads the clock until two readings agree. *)
Fixpoint read_clock (n : nat) : M bt rtcdate :=
  match n with
  | O => fun _ _ => OutOfFuel
  | Datatypes.S n' =>
      let* t1 := fill_rtcdate in
      let* a := cmos_read CMOS_STATA in
      if negb (Z.land a CMOS_UIP =? 0) then read_clock n'
      else
        let* t2 := fill_rtcdate in
        if bool_decide (t1 = t2) then ret t1 else read_clock n'
  end.

Definition cmostime (n : nat) : M bt rtcdate :=
  let* sb := cmos_read CMOS_STATB in
  let bcd := Z.land sb (Z.shiftl 1 2) =? 0 in
  let* t1 := read_clock n in
  let t1 :=
    if bcd then
      Rtcdate (CONV (second t1)) (CONV (minute t1)) (CONV (hour t1))
              (CONV (day t1)) (CONV (month t1)) (CONV (year t1))
    else t1 in
  ret (Rtcdate (second t1) (minute t1) (hour t1) (day t1) (month t1) (u32 (year t1 + 2000))).
End Lapic.

(** * The table of processors

    The entries of a table as data, and their layout in memory. *)
Inductive mpentry : Type :=
| MEproc (apicid : Z) (rest : list Z)
| MEioapic (apicno : Z) (rest : list Z)
| MEother (ty : Z) (rest : list Z).

Definition enc (x : mpentry) : list Z :=
  match x with
  | MEproc id rest => MPPROC :: id :: rest
  | MEioapic no rest => MPIOAPIC :: no :: rest
  | MEother ty rest => ty :: rest
  end.

Definition entry_ok (x : mpentry) : bool :=
  match x with
  | MEproc _ rest => bool_decide (length rest = 18%nat)
  | MEioapic _ rest => bool_decide (length rest = 6%nat)
  | MEother ty rest => bool_decide (length rest = 7%nat) && bool_decide (ty ∈ [MPBUS; MPIOINTR; MPLINTR])
  end.

Definition proc_id (x : mpentry) : list Z := match x with MEproc id _ => [id] | _ => [] end.
Definition ioapic_no (x : mpentry) : list Z := match x with MEioapic no _ => [no] | _ => [] end.

Section Table.
Context {D : Type} `{IO D}.
Abbreviation bt := (boot D).

(** What an entry does to the state. *)
Definition entry_eff (x : mpentry) (s : bt) : bt :=
  match x with
  | MEproc id _ => add_cpu id s
  | MEioapic no _ => set_ioapicid no s
  | MEother _ _ => s
  end.

Fixpoint table_eff (es : list mpentry) (s : bt) : bt :=
  match es with
  | [] => s
  | x :: es' => table_eff es' (entry_eff x s)
  end.

Lemma entry_eff_mem x (s : bt) : bt_mem (entry_eff x s) = bt_mem s.
Proof. destruct x; cbn; try done. unfold add_cpu. now destruct (_ <? _). Qed.

Lemma table_eff_mem es (s : bt) : bt_mem (table_eff es s) = bt_mem s.
Proof. revert s. induction es as [|x es IH]; intros s; [done|]. cbn. now rewrite IH, entry_eff_mem. Qed.

(** The loop takes one step for each well-formed entry. *)
Lemma mp_entry_step n x p e ismp c (s : bt) :
  entry_ok x = true -> lds (bt_mem s) p (length (enc x)) = enc x ->
  0 <= p -> p + Z.of_nat (length (enc x)) <= e < 4294967296 ->
  mp_entries (Datatypes.S n) p e ismp c s =
  mp_entries n (p + Z.of_nat (length (enc x))) e ismp c (entry_eff x s).
Proof.
  intros Hok Hm Hp He. assert (Hpe : p < e) by (destruct x; cbn [enc length] in He; lia).
  cbn [mp_entries]. rewrite (proj2 (Z.ltb_lt _ _)) by done. unfold bind, gets, modify; cbn [obind].
  destruct x as [id rest|no rest|ty rest]; cbn [entry_ok] in Hok; cbn [enc length] in *.
  - apply bool_decide_eq_true in Hok. rewrite Hok in *. cbn [lds] in Hm. injection Hm as E0 E1 _.
    rewrite E0. change (MPPROC =? MPPROC) with true. cbn match. cbn [obind].
    change (p + MPPROC_apicid) with (p + 1). rewrite E1, u32_small by (unfold is_u32, sizeof_mpproc; lia). done.
  - apply bool_decide_eq_true in Hok. rewrite Hok in *. cbn [lds] in Hm. injection Hm as E0 E1 _.
    rewrite E0. change (MPIOAPIC =? MPPROC) with false. change (MPIOAPIC =? MPIOAPIC) with true. cbn match. cbn [obind].
    change (p + MPIOAPIC_apicno) with (p + 1). rewrite E1, u32_small by (unfold is_u32, sizeof_mpioapic; lia). done.
  - apply andb_true_iff in Hok as [Hr Ht]. apply bool_decide_eq_true in Hr, Ht. rewrite Hr in *.
    cbn [lds] in Hm. injection Hm as E0 _. rewrite E0. pose proof (u32_small (p + 8)) as Hu.
    set_unfold in Ht. destruct Ht as [->|[->|[->|[]]]]; cbn; rewrite Hu by (unfold is_u32; lia); done.
Qed.

Lemma mp_entries_app n es p e ismp c (s : bt) :
  Forall (fun x => entry_ok x = true) es -> lds (bt_mem s) p (length (concat (enc <$> es))) = concat (enc <$> es) ->
  0 <= p -> p + Z.of_nat (length (concat (enc <$> es))) <= e < 4294967296 ->
  mp_entries (length es + n) p e ismp c s =
  mp_entries n (p + Z.of_nat (length (concat (enc <$> es)))) e ismp c (table_eff es s).
Proof.
  revert p s. induction es as [|x es IH]; intros p s Hok Hm Hp He.
  - cbn. now rewrite Z.add_0_r.
  - apply Forall_cons in Hok as [Hx Hes]. cbn [fmap list_fmap concat] in *.
    rewrite length_app in *. rewrite lds_app in Hm. apply app_inj_1 in Hm as [Hm1 Hm2]; [|now rewrite length_lds].
    cbn [length Nat.add]. rewrite (mp_entry_step _ x) by (try done; lia). cbn [table_eff].
    rewrite IH; [f_equal; lia|done|now rewrite entry_eff_mem|lia|lia].
Qed.

Lemma table_eff_cpus es (s : bt) :
  length (apicids s) = NCPU -> 0 <= ncpu s <= Z.of_nat NCPU ->
  let s' := table_eff es s in
  length (apicids s') = NCPU /\
  ncpu s' = (Z.max (ncpu s) (Z.min (Z.of_nat NCPU) (ncpu s + Z.of_nat (length (concat (proc_id <$> es)))))) /\
  take (Z.to_nat (ncpu s')) (apicids s') =
    take (Z.to_nat (ncpu s')) (take (Z.to_nat (ncpu s)) (apicids s) ++ concat (proc_id <$> es)) /\
  ioapicid s' = default (ioapicid s) (last (concat (ioapic_no <$> es))) /\
  lapic s' = lapic s.
Proof.
  revert s. induction es as [|x es IH]; intros s Hl Hn; cbn zeta.
  { cbn. rewrite Z.add_0_r, app_nil_r. split_and!; try done; [lia|]. now rewrite take_take, Nat.min_id. }
  cbn [table_eff fmap list_fmap concat]. destruct x as [id rest|no rest|ty rest]; cbn [proc_id ioapic_no app length].
  - unfold entry_eff, add_cpu. destruct (Z.ltb_spec (ncpu s) (Z.of_nat NCPU)) as [Hlt|Hge].
    + destruct (IH (Boot (bt_mem s) (bt_dev s) (aset (apicids s) (ncpu s) id) (ncpu s + 1) (ioapicid s) (lapic s)))
        as (I1 & I2 & I3 & I4 & I5); cbn [apicids ncpu ioapicid lapic] in *; [now rewrite length_aset|lia|].
      split_and!; try done; [lia|]. rewrite I3. f_equal.
      replace (Z.to_nat (ncpu s + 1)) with (Datatypes.S (Z.to_nat (ncpu s))) by lia.
      unfold aset. rewrite (take_S_r _ _ id) by (apply list_lookup_insert_eq; lia).
      rewrite take_insert_ge by lia. now rewrite <- app_assoc.
    + destruct (IH s) as (I1 & I2 & I3 & I4 & I5); [done|done|]. split_and!; try done; [lia|].
      rewrite I3, I2. rewrite !take_app_le; [done|rewrite length_take; lia..].
  - destruct (IH (set_ioapicid no s)) as (I1 & I2 & I3 & I4 & I5); [done|done|].
    split_and!; try done. cbn [entry_eff]. rewrite I4. destruct (concat (ioapic_no <$> es)) eqn:E; [done|].
    rewrite last_cons_cons. cbn [set_ioapicid ioapicid]. now destruct (last_is_Some (z :: l)) as [_ [y ->]].
  - destruct (IH s) as (I1 & I2 & I3 & I4 & I5); done.
Qed.

(** ** The memory that the search reads *)

Lemma sum_from_ext m m' a n acc : (forall b, a <= b < a + Z.of_nat n -> ld m' b = ld m b) -> sum_from m' a n acc = sum_from m a n acc.
Proof.
  revert a acc. induction n as [|n IH]; intros a acc Hag; [done|]. cbn [sum_from]. rewrite Hag by lia. apply IH. intros b Hb. apply Hag. lia.
Qed.

Lemma has_sig_ext m m' a sig : (forall b, a <= b < a + 4 -> ld m' b = ld m b) -> has_sig m' a sig = has_sig m a sig.
Proof. intros Hag. unfold has_sig. f_equal. now rewrite (lds_ext m' m a a 4) by (intros i Hi; apply Hag; lia). Qed.

Lemma mpsearch1_from_ext n m m' p e :
  (e - p) mod 16 = 0 -> 0 <= p -> e + 16 < 4294967296 -> (forall b, p <= b < e -> ld m' b = ld m b) ->
  mpsearch1_from n m' p e = mpsearch1_from n m p e.
Proof.
  revert p. induction n as [|n IH]; intros p Ha Hp He Hag; [done|]. cbn [mpsearch1_from]. destruct (Z.ltb_spec p e) as [Hlt|]; [|done].
  assert (p + 16 <= e) by (Z.to_euclidean_division_equations; lia).
  rewrite (has_sig_ext m m') by (intros; apply Hag; lia). unfold sum, sizeof_mp.
  rewrite (sum_from_ext m m') by (intros; apply Hag; lia). rewrite u32_small by (unfold is_u32; lia). destruct (_ && _); [done|].
  apply IH; [Z.to_euclidean_division_equations; lia|lia|done|]. intros b Hb. apply Hag. lia.
Qed.

Lemma mpsearch1_ext m m' a len :
  len mod 16 = 0 -> 0 <= a -> 0 <= len -> KERNBASE + a + len + 16 < 4294967296 ->
  (forall b, KERNBASE + a <= b < KERNBASE + a + len -> ld m' b = ld m b) -> mpsearch1 m' a len = mpsearch1 m a len.
Proof.
  intros Hm Ha Hl Hb Hag. unfold mpsearch1. assert (E : P2V a = KERNBASE + a) by (unfold P2V; rewrite u32_small; unfold is_u32, KERNBASE in *; lia).
  rewrite E, u32_small by (unfold is_u32, KERNBASE in *; lia). apply mpsearch1_from_ext; auto.
  - now replace (KERNBASE + a + len - (KERNBASE + a)) with len by lia.
  - unfold KERNBASE. lia.
Qed.

(** The extended BIOS data area that the firmware names. *)
Definition ebda (m : mem) : Z :=
  Z.shiftl (Z.lor (Z.shiftl (ld m (P2V 0x400 + 0x0F)) 8) (ld m (P2V 0x400 + 0x0E))) 4.

Lemma mpconfig_ext top m m' conf mp :
  (forall b, b < top -> ld m' b = ld m b) -> 0 < ebda m -> KERNBASE + ebda m + 1024 <= top < 4294967280 -> KERNLINK <= top ->
  mpconfig m = Some (Some (conf, mp)) -> mp + sizeof_mp <= top -> conf + sizeof_mpconf <= top ->
  conf + le_val (lds m (conf + MPC_length) 2) <= top ->
  mpconfig m' = Some (Some (conf, mp)).
Proof.
  intros Hag Hp Ht Hl E Hmp Hcf Hlen.
  assert (Es : mpsearch m' = mpsearch m).
  { unfold mpsearch. change (P2V 0x400) with (KERNBASE + 0x400).
    rewrite !(Hag (KERNBASE + 0x400 + _)) by (unfold KERNLINK, KERNBASE, EXTMEM in *; lia).
    change (KERNBASE + 0x400) with (P2V 0x400). fold (ebda m). destruct (Z.eqb_spec (ebda m) 0); [lia|]. cbn [negb].
    rewrite (mpsearch1_ext m m' 0xF0000), (mpsearch1_ext m m' (ebda m)); try done; try lia.
    - intros b Hb. apply Hag. lia.
    - intros b Hb. apply Hag. unfold KERNLINK, KERNBASE, EXTMEM in *. lia. }
  unfold mpconfig in *. rewrite Es. destruct (mpsearch m) as [mp'|]; [|done].
  destruct ((mp' =? 0) || _) eqn:Ez; [done|]. apply orb_false_iff in Ez as [Ez1 Ez2].
  set (cf := P2V (ld32 m (mp' + MP_physaddr))) in *.
  destruct (negb (has_sig m cf "PCMP")) eqn:E1; [done|]. destruct (_ && _) eqn:E2 in E; [done|].
  destruct (negb (sum m cf _ =? 0)) eqn:E3 in E; [done|]. injection E as <- <-. unfold sizeof_mp, sizeof_mpconf in *.
  assert (Ea : ld32 m' (mp' + MP_physaddr) = ld32 m (mp' + MP_physaddr)) by (apply ld32_ext; intros i Hi; apply Hag; unfold MP_physaddr; lia).
  rewrite Ea, Ez1, Ez2. cbn [orb]. fold cf.
  assert (Elen : lds m' (cf + MPC_length) 2 = lds m (cf + MPC_length) 2) by (apply lds_ext; intros i Hi; apply Hag; unfold MPC_length; lia).
  rewrite (has_sig_ext m m') by (intros; apply Hag; lia). rewrite E1, (Hag (cf + MPC_version)) by (unfold MPC_version; lia). rewrite E2, Elen.
  replace (sum m' cf (le_val (lds m (cf + MPC_length) 2))) with (sum m cf (le_val (lds m (cf + MPC_length) 2))); [now rewrite E3|].
  unfold sum. symmetry. apply sum_from_ext. intros b Hb. apply Hag. lia.
Qed.

(** A table of the entries [es] for the [n] bytes after the header at [conf]. *)
Definition table_at (m : mem) (conf : Z) (es : list mpentry) : Prop :=
  Forall (fun x => entry_ok x = true) es /\
  lds m (conf + sizeof_mpconf) (length (concat (enc <$> es))) = concat (enc <$> es).

(** Mpinit on a table of well-formed entries registers the first NCPU
    processors of the table in its order, the last I/O APIC, and the address of
    the local APIC, leaves memory alone, and returns. *)
Theorem mpinit_registers n es conf mp c (s : bt) :
  mpconfig (bt_mem s) = Some (Some (conf, mp)) -> table_at (bt_mem s) conf es ->
  le_val (lds (bt_mem s) (conf + MPC_length) 2) = sizeof_mpconf + Z.of_nat (length (concat (enc <$> es))) ->
  0 <= conf -> conf + sizeof_mpconf + Z.of_nat (length (concat (enc <$> es))) < 4294967296 ->
  length (apicids s) = NCPU -> ncpu s = 0 -> (length es < n)%nat ->
  wp (mpinit n)
    (fun _ c' s' => c' = c /\
       ncpu s' = Z.min (Z.of_nat NCPU) (Z.of_nat (length (concat (proc_id <$> es)))) /\
       take (Z.to_nat (ncpu s')) (apicids s') = take NCPU (concat (proc_id <$> es)) /\
       ioapicid s' = default (ioapicid s) (last (concat (ioapic_no <$> es))) /\
       lapic s' = ld32 (bt_mem s) (conf + MPC_lapicaddr) /\ bt_mem s' = bt_mem s) c s.
Proof.
  intros Hc [Hok Hm] Hlen H0 He Hl Hn Hfuel. unfold mpinit. wp_steps. rewrite Hc. wp_steps. rewrite Hlen.
  set (k := length (concat (enc <$> es))) in *. unfold sizeof_mpconf in *.
  rewrite !u32_small by (unfold is_u32; lia). set (s1 := set_lapic _ s).
  assert (E : mp_entries n (conf + 44) (conf + (44 + Z.of_nat k)) 1 c s1 = Ret 1 c (table_eff es s1)).
  { replace n with (length es + (n - length es))%nat by lia. rewrite mp_entries_app by (try done; lia).
    fold k. destruct (n - length es)%nat eqn:En; [lia|]. cbn [mp_entries]. rewrite (proj2 (Z.ltb_ge _ _)) by lia. done. }
  unfold wp at 1. rewrite E. cbn -[NCPU].
  destruct (table_eff_cpus es s1) as (I1 & I2 & I3 & I4 & I5); [done|cbn; lia|].
  change (ncpu s1) with (ncpu s) in *. rewrite Hn in *.
  change (Z.to_nat 0) with 0%nat in I3. rewrite take_0, app_nil_l in I3.
  set (s2 := table_eff es s1) in *.
  assert (G : ncpu s2 = Z.min (Z.of_nat NCPU) (Z.of_nat (length (concat (proc_id <$> es)))) /\
    take (Z.to_nat (ncpu s2)) (apicids s2) = take NCPU (concat (proc_id <$> es)) /\
    ioapicid s2 = default (ioapicid s) (last (concat (ioapic_no <$> es))) /\
    lapic s2 = ld32 (bt_mem s) (conf + MPC_lapicaddr) /\ bt_mem s2 = bt_mem s).
  { split_and!; [lia| |done|done|exact (table_eff_mem es s1)]. rewrite I3. destruct (Nat.le_ge_cases (length (concat (proc_id <$> es))) NCPU).
    - rewrite !take_ge by lia. done.
    - f_equal. lia. }
  unfold when. destruct (negb _); [|done]. wp_steps. done.
Qed.

Lemma mp_entries_stuck n p e ismp c (s : bt) :
  p < e -> ld (bt_mem s) p ∉ [MPPROC; MPBUS; MPIOAPIC; MPIOINTR; MPLINTR] ->
  mp_entries n p e ismp c s = OutOfFuel.
Proof.
  intros Hp Hty. revert ismp. induction n as [|n IH]; intros ismp; [done|]. cbn [mp_entries].
  rewrite (proj2 (Z.ltb_lt _ _)) by done. unfold bind, gets; cbn [obind].
  repeat rewrite (proj2 (Z.eqb_neq (ld (bt_mem s) p) _)) by set_solver. cbn [orb]. apply IH.
Qed.

(** Mpinit never ends when the table has an entry of an unknown type: the
    break of the default case leaves the switch, not the loop, and the pointer
    does not move, so the check for an unsuitable machine after the loop is not
    reached, whatever number of rounds the loop is given. *)
Theorem mpinit_unknown_entry_hangs n es conf mp c (s : bt) :
  mpconfig (bt_mem s) = Some (Some (conf, mp)) -> table_at (bt_mem s) conf es ->
  let k := Z.of_nat (length (concat (enc <$> es))) in
  0 <= conf -> conf + sizeof_mpconf + k < conf + le_val (lds (bt_mem s) (conf + MPC_length) 2) < 4294967296 ->
  ld (bt_mem s) (conf + sizeof_mpconf + k) ∉ [MPPROC; MPBUS; MPIOAPIC; MPIOINTR; MPLINTR] ->
  mpinit n c s = OutOfFuel.
Proof.
  intros Hc [Hok Hm] k H0 Hk Hty. unfold mpinit, bind, gets. cbn [obind]. rewrite Hc. unfold modify. cbn [obind].
  rewrite !u32_small by (unfold is_u32, sizeof_mpconf in *; lia). set (s1 := set_lapic _ s).
  set (e := conf + le_val _) in *. enough (E : mp_entries n (conf + sizeof_mpconf) e 1 c s1 = OutOfFuel) by now rewrite E.
  destruct (Nat.le_gt_cases (length es) n) as [Hn|Hn].
  - replace n with (length es + (n - length es))%nat by lia.
    rewrite mp_entries_app by (try done; unfold sizeof_mpconf in *; lia).
    apply mp_entries_stuck; [exact (proj1 Hk)|]. now rewrite table_eff_mem.
  - assert (Ek : k = Z.of_nat (length (concat (enc <$> take n es)) + length (concat (enc <$> drop n es)))).
    { unfold k. rewrite <- (take_drop n es) at 1. now rewrite fmap_app, concat_app, length_app. }
    rewrite <- (take_drop n es) in Hm, Hok. rewrite fmap_app, concat_app, length_app in Hm.
    rewrite lds_app in Hm. apply app_inj_1 in Hm as [Hm _]; [|now rewrite length_lds].
    apply Forall_app in Hok as [Hok _]. replace n with (length (take n es) + 0)%nat at 1 by (rewrite length_take; lia).
    rewrite mp_entries_app by (try done; unfold sizeof_mpconf in *; lia). done.
Qed.
End Table.

(** ** A machine with two processors *)
Module Machine.

#[local] Instance no_io : IO unit := {|
  inb _ d := (0, d);
  outb _ _ d := d;
  insl _ n d := (replicate (4 * n) 0, d);
  outsl _ _ d := d;
  mmio_ld _ d := (0, d);
  mmio_st _ _ d := d
|}.

Definition entries : list mpentry :=
  [MEproc 0 (replicate 18 0); MEproc 1 (replicate 18 0); MEioapic 7 (replicate 6 0)].

(** The floating pointer, and the table with its checksum [ck] and a last entry of
    type [ty]. *)
Definition tables (ck ty : Z) : mem :=
  sts (sts (sts ∅ (P2V 0x40E) [0xC0; 0x9F])
    (P2V 0x9FC00) (bytes "_MP_" ++ [0x10; 0xFC; 0x09; 0; 1; 4; 11; 0; 128; 0; 0; 0]))
    (P2V 0x9FC10) (bytes "PCMP" ++ [100; 0; 4; ck] ++ replicate 26 0 ++ [4; 0; 0; 0; 0xE0; 0xFE; 0; 0; 0; 0]
      ++ concat (enc <$> entries) ++ enc (MEother ty (replicate 7 0))).

Definition cold (m : mem) : boot unit := Boot m tt (replicate NCPU 0) 0 0 0.

Lemma mpinit_registers_witness :
  wp (mpinit 5) (fun _ _ s' => ncpu s' = 2 /\ take 2 (apicids s') = [0; 1] /\ ioapicid s' = 7)
    (Ctx [] []) (cold (tables 123 MPBUS)).
Proof.
  eapply wp_mono.
  - apply (mpinit_registers 5 (entries ++ [MEother MPBUS (replicate 7 0)]) (P2V 0x9FC10) (P2V 0x9FC00));
      first [vm_compute; reflexivity | split; [repeat constructor | vm_compute; reflexivity] | vm_compute; discriminate | cbn; lia].
  - intros _ c' s' (_ & H1 & H2 & H3 & _). cbn in H1, H3. rewrite H1 in H2. auto.
Defined.

Lemma mpinit_unknown_entry_hangs_witness :
  mpinit 1000 (Ctx [] []) (cold (tables 115 9)) = OutOfFuel.
Proof.
  apply (mpinit_unknown_entry_hangs 1000 entries (P2V 0x9FC10) (P2V 0x9FC00)).
  - vm_compute. reflexivity.
  - split; [repeat constructor|vm_compute; reflexivity].
  - vm_compute. discriminate.
  - vm_compute. done.
  - apply (bool_decide_unpack _). vm_compute. exact I.
Defined.
End Machine.
