(* ===== verification/Ide.v ===== *)
(** ide.c: the driver of the IDE disk.  Requests wait in a queue linked through
    the buffers; the head of the queue is the one the disk works on, and the
    interrupt handler finishes it and starts the next.  The disk itself is a
    parameter, with the part of the ATA interface that the driver relies on. *)
From S2P Require Import Prelude Monad Mem Mmu Sleeplock Disk Ports Boot.

Definition SECTOR_SIZE : Z := 512.
Definition IDE_BSY : Z := 0x80.
Definition IDE_DRDY : Z := 0x40.
Definition IDE_DF : Z := 0x20.
Definition IDE_ERR : Z := 0x01.

Definition IDE_CMD_READ : Z := 0x20.
Definition IDE_CMD_WRITE : Z := 0x30.
Definition IDE_CMD_RDMUL : Z := 0xc4.
Definition IDE_CMD_WRMUL : Z := 0xc5.

(** * The driver *)

(** The buffers, with the field [qnext] of each in a list of its own ([None] is
    the null pointer), the head of the queue, and the controller. *)
Record ide (D : Type) : Type := MkIde {
  ibufs : list buf;
  qnext : list (option nat);
  idequeue : option nat;
  havedisk1 : bool;
  idev : D
}.
Arguments MkIde {D}.
Arguments ibufs {D}.
Arguments qnext {D}.
Arguments idequeue {D}.
Arguments havedisk1 {D}.
Arguments idev {D}.

Section Ide.
Context {D : Type} `{IO D}.
Abbreviation st := (ide D).

Definition ibuf (b : nat) (s : st) : buf := default buf0 (ibufs s !! b).
Definition iset (b : nat) (f : buf -> buf) (s : st) : st :=
  MkIde (alter f b (ibufs s)) (qnext s) (idequeue s) (havedisk1 s) (idev s).
Definition imod (b : nat) (f : buf -> buf) : M st unit := modify (iset b f).
Definition nextof (b : nat) (s : st) : option nat := default None (qnext s !! b).
Definition set_qnext (b : nat) (p : option nat) (s : st) : st :=
  MkIde (ibufs s) (<[b := p]> (qnext s)) (idequeue s) (havedisk1 s) (idev s).
Definition set_idequeue (p : option nat) (s : st) : st :=
  MkIde (ibufs s) (qnext s) p (havedisk1 s) (idev s).
Definition set_havedisk1 (v : bool) (s : st) : st :=
  MkIde (ibufs s) (qnext s) (idequeue s) v (idev s).

#[global] Instance ide_devices : HasDev D st := {|
  dev := idev;
  set_devs d s := MkIde (ibufs s) (qnext s) (idequeue s) (havedisk1 s) d
|}.

#[global] Instance ide_locks : SleepLocks st := {|
  sl_locked lk s := match lk with SlBuf b => b_locked (ibuf b s) | SlInode _ => false end;
  sl_set lk v s := match lk with SlBuf b => iset b (set_locked v) s | SlInode _ => s end
|}.

(** How often the status register may have to be read before the disk is ready. *)
Variable spins : nat.

Fixpoint idewait_from (n : nat) (checkerr : bool) : M st Z :=
  match n with
  | O => fun _ _ => OutOfFuel
  | S n' =>
      let* r := io (inb 0x1f7) in
      if negb (Z.land r (Z.lor IDE_BSY IDE_DRDY) =? IDE_DRDY) then idewait_from n' checkerr
      else if checkerr && negb (Z.land r (Z.lor IDE_DF IDE_ERR) =? 0) then ret (-1)
      else ret 0
  end.

Definition idewait (checkerr : bool) : M st Z := idewait_from spins checkerr.

Definition ideinit (ncpu : Z) : M st unit :=
  ioapicenable IRQ_IDE (ncpu - 1) ;;;
  let* _ := idewait false in
  out (outb 0x1f6 (Z.lor 0xe0 (Z.shiftl 1 4))) ;;;
  forb (zrange 1000)
    (fun _ =>
       let* r := io (inb 0x1f7) in
       if negb (r =? 0) then modify (set_havedisk1 true) ;;; ret (Some tt) else ret None)
    (ret tt) ;;;
  out (outb 0x1f6 (Z.lor 0xe0 (Z.shiftl 0 4))).

Definition idestart (p : option nat) : M st unit :=
  match p with
  | None => panic "idestart"
  | Some b =>
      let* q := gets (ibuf b) in
      if FSSIZE <=? b_blockno q then panic "incorrect blockno"
      else
        let sector_per_block := BSIZE / SECTOR_SIZE in
        let sector := s32 (u32 (b_blockno q * sector_per_block)) in
        let read_cmd := if sector_per_block =? 1 then IDE_CMD_READ else IDE_CMD_RDMUL in
        let write_cmd := if sector_per_block =? 1 then IDE_CMD_WRITE else IDE_CMD_WRMUL in
        if 7 <? sector_per_block then panic "idestart"
        else
          let* _ := idewait false in
          out (outb 0x3f6 0) ;;;
          out (outb 0x1f2 (u8 sector_per_block)) ;;;
          out (outb 0x1f3 (Z.land sector 0xff)) ;;;
          out (outb 0x1f4 (Z.land (Z.shiftr sector 8) 0xff)) ;;;
          out (outb 0x1f5 (Z.land (Z.shiftr sector 16) 0xff)) ;;;
          out (outb 0x1f6 (u8 (Z.lor (Z.lor 0xe0 (Z.shiftl (Z.land (b_dev q) 1) 4))
                                     (Z.land (Z.shiftr sector 24) 0x0f)))) ;;;
          if negb (Z.land (b_flags q) B_DIRTY =? 0) then
            out (outb 0x1f7 write_cmd) ;;;
            out (outsl 0x1f0 (b_data q))
          else
            out (outb 0x1f7 read_cmd)
  end.

Definition ideintr : M st unit :=
  acquire LIde ;;;
  let* p := gets idequeue in
  match p with
  | None => release LIde
  | Some b =>
      let* n := gets (nextof b) in
      modify (set_idequeue n) ;;;
      let* q := gets (ibuf b) in
      (if negb (negb (Z.land (b_flags q) B_DIRTY =? 0)) then
         let* r := idewait true in
         when (0 <=? r)
           (let* d := io (insl 0x1f0 (Z.to_nat (BSIZE / 4))) in
            imod b (set_data d))
       else ret tt) ;;;
      imod b (fun q => set_flags (Z.lor (b_flags q) B_VALID) q) ;;;
      imod b (fun q => set_flags (Z.land (b_flags q) (Z.lnot B_DIRTY)) q) ;;;
      wakeup (ChBuf b) ;;;
      let* n := gets idequeue in
      when (negb (bool_decide (n = None))) (idestart n) ;;;
      release LIde
  end.

(** The loop that follows the queue to its end and puts [b] there: [pp] is the
    address of [idequeue] ([None]) or of the [qnext] of a buffer.  The walk visits
    each buffer once at most. *)
Fixpoint append_from (n : nat) (pp : option nat) (b : nat) : M st unit :=
  match n with
  | O => fun _ _ => OutOfFuel
  | S n' =>
      let* p := gets (fun s => match pp with None => idequeue s | Some x => nextof x s end) in
      match p with
      | Some x => append_from n' (Some x) b
      | None =>
          match pp with
          | None => modify (set_idequeue (Some b))
          | Some x => modify (set_qnext x (Some b))
          end
      end
  end.

(** From the call to the loop that waits for the request. *)
Definition iderw_start (b : nat) : M st unit :=
  let* h := holdingsleep (SlBuf b) in
  if negb h then panic "iderw: buf not locked"
  else
    let* q := gets (ibuf b) in
    let* h1 := gets havedisk1 in
    if Z.land (b_flags q) (Z.lor B_VALID B_DIRTY) =? B_VALID then panic "iderw: nothing to do"
    else if negb (b_dev q =? 0) && negb h1 then panic "iderw: ide disk 1 not present"
    else
      acquire LIde ;;;
      modify (set_qnext b None) ;;;
      let* l := gets (fun s => length (ibufs s)) in
      append_from (S l) None b ;;;
      let* p := gets idequeue in
      when (bool_decide (p = Some b)) (idestart (Some b)).

(** One round of [while((b->flags & (B_VALID|B_DIRTY)) != B_VALID)]. *)
Definition iderw_step (b : nat) (_ : unit) : M st (blk unit unit) :=
  let* q := gets (ibuf b) in
  if negb (Z.land (b_flags q) (Z.lor B_VALID B_DIRTY) =? B_VALID) then ret (Block (ChBuf b) LIde tt)
  else release LIde ;;; ret (Done tt).

Definition iderw (fuel : nat) (b : nat) : M st unit :=
  iderw_start b ;;; blocks fuel (iderw_step b) tt.
End Ide.
