(* ===== verification/IdeProps.v ===== *)
(** The driver ide.c with several threads and the interrupts of the disk: its
    traces of calls and returns are those of a disk whose requests take effect
    one at a time, each once between its call and its return, and no request is
    forgotten. *)
From S2P Require Import Prelude Monad Mem Mmu Sleeplock Disk Ports Boot Ide.

(** * The ATA interface

    What the disk is doing: nothing, reading a sector, waiting for the sector it
    read to be fetched, waiting for the sector to write, or writing it. *)
Inductive phase : Type :=
| PIdle
| PRead (dr sec : Z)
| PData (dr sec : Z)
| PSend (dr sec : Z)
| PWrite (dr sec : Z) (d : block).

Definition image : Type := Z -> Z -> block.

(** The task file registers, the phase, and the contents of the two drives. *)
Record ata : Type := Ata {
  r_count : Z;
  r_lba0 : Z;
  r_lba1 : Z;
  r_lba2 : Z;
  r_drive : Z;
  r_phase : phase;
  r_img : image
}.

Definition set_phase (p : phase) (a : ata) : ata :=
  Ata (r_count a) (r_lba0 a) (r_lba1 a) (r_lba2 a) (r_drive a) p (r_img a).

Definition put_sector (dr sec : Z) (d : block) (img : image) : image :=
  fun dr' sec' => if (dr' =? dr) && (sec' =? sec) then d else img dr' sec'.

(** Writing a register; the command register starts a transfer of one sector. *)
Definition ata_outb (port v : Z) (a : ata) : ata :=
  let dr := Z.land (Z.shiftr (r_drive a) 4) 1 in
  let sec := r_lba0 a + 256 * r_lba1 a + 65536 * r_lba2 a + 16777216 * Z.land (r_drive a) 0xf in
  if port =? 0x1f2 then Ata v (r_lba0 a) (r_lba1 a) (r_lba2 a) (r_drive a) (r_phase a) (r_img a)
  else if port =? 0x1f3 then Ata (r_count a) v (r_lba1 a) (r_lba2 a) (r_drive a) (r_phase a) (r_img a)
  else if port =? 0x1f4 then Ata (r_count a) (r_lba0 a) v (r_lba2 a) (r_drive a) (r_phase a) (r_img a)
  else if port =? 0x1f5 then Ata (r_count a) (r_lba0 a) (r_lba1 a) v (r_drive a) (r_phase a) (r_img a)
  else if port =? 0x1f6 then Ata (r_count a) (r_lba0 a) (r_lba1 a) (r_lba2 a) v (r_phase a) (r_img a)
  else if (port =? 0x1f7) && (v =? IDE_CMD_READ) && (r_count a =? 1) then set_phase (PRead dr sec) a
  else if (port =? 0x1f7) && (v =? IDE_CMD_WRITE) && (r_count a =? 1) then set_phase (PSend dr sec) a
  else a.

Definition ata_outsl (d : block) (a : ata) : ata :=
  match r_phase a with PSend dr sec => set_phase (PWrite dr sec d) a | _ => a end.

(** The transfer ends; the disk then raises its interrupt. *)
Definition ata_finish (a : ata) : ata :=
  match r_phase a with
  | PRead dr sec => set_phase (PData dr sec) a
  | PWrite dr sec d =>
      Ata (r_count a) (r_lba0 a) (r_lba1 a) (r_lba2 a) (r_drive a) PIdle (put_sector dr sec d (r_img a))
  | _ => a
  end.

Definition working (a : ata) : bool :=
  match r_phase a with PRead _ _ | PWrite _ _ _ => true | _ => false end.

(** The [k]-th reading of the status register. *)
Fixpoint status {D} `{IO D} (k : nat) (d : D) : Z :=
  match k with
  | O => (inb 0x1f7 d).1
  | S k' => status k' (inb 0x1f7 d).2
  end.

Definition ready (r : Z) : Prop := Z.land r (Z.lor IDE_BSY IDE_DRDY) = IDE_DRDY.

(** A disk without defects behind the ports: [view] is what its state means, and
    [finish] the end of a transfer.  When it is not working it becomes ready
    within [spins] readings of its status, and then reports no error. *)
Class AtaDisk (D : Type) `{IO D} (spins : nat) : Type := {
  view : D -> ata;
  finish : D -> D;
  view_outb p v d : p ∈ [0x1f2; 0x1f3; 0x1f4; 0x1f5; 0x1f6; 0x1f7; 0x3f6] -> view (outb p v d) = ata_outb p v (view d);
  view_outsl bs d : length bs = 512%nat -> view (outsl 0x1f0 bs d) = ata_outsl bs (view d);
  view_inb d : view (inb 0x1f7 d).2 = view d;
  view_insl dr sec d : r_phase (view d) = PData dr sec ->
    (insl 0x1f0 128 d).1 = r_img (view d) dr sec /\ view (insl 0x1f0 128 d).2 = set_phase PIdle (view d);
  view_finish d : view (finish d) = ata_finish (view d);
  status_ready d : working (view d) = false -> exists k, (k < spins)%nat /\ ready (status k d);
  status_ok d k : working (view d) = false -> ready (status k d) ->
    Z.land (status k d) (Z.lor IDE_DF IDE_ERR) = 0
}.

(** * Traces

    The runs of a step relation whose steps are labelled with what can be seen of
    them. *)
Inductive trace {S E : Type} (step : S -> list E -> S -> Prop) : S -> list E -> S -> Prop :=
| tr_nil x : trace step x [] x
| tr_step x e y tr z : step x e y -> trace step y tr z -> trace step x (e ++ tr) z.

(** What is seen of the driver: thread [i] calls iderw on buffer [b], whose
    fields are [q] at that moment; it comes back from it with the fields [q]. *)
Inductive event : Type :=
| Called (i b : nat) (q : buf)
| Returned (i b : nat) (q : buf).

(** * Requests *)

Definition drive (q : buf) : Z := Z.land (b_dev q) 1.

(** The buffer when its request has been served by a disk with contents [img]. *)
Definition served (img : image) (q : buf) : buf :=
  let q := if dirty q then q else set_data (img (drive q) (b_blockno q)) q in
  set_flags (Z.land (Z.lor (b_flags q) B_VALID) (Z.lnot B_DIRTY)) q.

(** The disk when it has served the request. *)
Definition after (q : buf) (img : image) : image :=
  if dirty q then put_sector (drive q) (b_blockno q) (b_data q) img else img.

(** What the disk does for a request: [irq] is set once it has finished. *)
Definition work (irq : bool) (q : buf) : phase :=
  if dirty q then if irq then PIdle else PWrite (drive q) (b_blockno q) (b_data q)
  else if irq then PData (drive q) (b_blockno q) else PRead (drive q) (b_blockno q).

(** What iderw asks of a buffer. *)
Definition request (disk1 : bool) (q : buf) : Prop :=
  b_locked q = true /\ Z.land (b_flags q) (Z.lor B_VALID B_DIRTY) <> B_VALID /\
  0 <= b_blockno q < FSSIZE /\ (b_dev q = 0 \/ disk1 = true) /\ length (b_data q) = 512%nat.

Definition complete (q : buf) : Prop := Z.land (b_flags q) (Z.lor B_VALID B_DIRTY) = B_VALID.

Lemma served_complete img q : complete (served img q).
Proof.
  unfold complete, served. set (q' := if dirty q then _ else _). cbn [b_flags set_flags].
  apply Z.bits_inj'. intros n Hn. rewrite !Z.land_spec, !Z.lor_spec, Z.lnot_spec by done.
  change B_VALID with (2 ^ 1). change B_DIRTY with (2 ^ 2). rewrite !Z.pow2_bits_eqb by lia.
  destruct (Z.testbit (b_flags q') n), (Z.eqb_spec 1 n), (Z.eqb_spec 2 n); try done; lia.
Qed.

(** * The queue *)

Fixpoint chain (nx : list (option nat)) (p : option nat) (l : list nat) : Prop :=
  match l with
  | [] => p = None
  | b :: l' => p = Some b /\ chain nx (default None (nx !! b)) l'
  end.

Lemma chain_head nx p l : chain nx p l -> p = head l.
Proof. destruct l; cbn; [done|]. now intros [-> _]. Qed.

Lemma chain_insert nx p l b v : b ∉ l -> chain nx p l -> chain (<[b := v]> nx) p l.
Proof.
  revert p. induction l as [|x l IH]; intros p Hb; cbn; [done|]. apply not_elem_of_cons in Hb as [Hne Hb].
  intros [-> H]. split; [done|]. rewrite list_lookup_insert_ne by done. now apply IH.
Qed.

Lemma chain_snoc nx p l x b :
  NoDup (l ++ [x]) -> (x < length nx)%nat -> x <> b -> nx !! b = Some None ->
  chain nx p (l ++ [x]) -> chain (<[x := Some b]> nx) p ((l ++ [x]) ++ [b]).
Proof.
  intros Hnd Hx Hne Hb. revert p. induction l as [|y l IH]; intros p; cbn.
  - intros [-> _]. split; [done|]. rewrite list_lookup_insert_eq by done. cbn. split; [done|].
    rewrite list_lookup_insert_ne by done. now rewrite Hb.
  - cbn in Hnd. apply NoDup_cons in Hnd as [Hy Hnd]. intros [-> H]. split; [done|].
    rewrite list_lookup_insert_ne by set_solver. now apply IH.
Qed.

(** * The driver's code *)

Ltac is_port := apply (bool_decide_unpack _); vm_compute; exact I.

Section Driver.
Context {D : Type} `{HD : AtaDisk D spins}.
Abbreviation st := (ide D).

(** The same state with another state of the disk. *)
Definition with_dev (d : D) (s : st) : st := MkIde (ibufs s) (qnext s) (idequeue s) (havedisk1 s) d.

Lemma wp_idewait_from ce (Q : Z -> ctx -> st -> Prop) n c s :
  (exists k, (k < n)%nat /\ ready (status k (idev s))) ->
  (forall k, ready (status k (idev s)) -> Z.land (status k (idev s)) (Z.lor IDE_DF IDE_ERR) = 0) ->
  (forall d, view d = view (idev s) -> Q 0 c (with_dev d s)) -> wp (idewait_from n ce) Q c s.
Proof.
  revert s. induction n as [|n IH]; intros s (k & Hk & Hr) Hok HQ; [lia|]. cbn [idewait_from].
  apply wp_bind, wp_io. cbn [dev ide_devices set_devs].
  destruct (Z.eqb_spec (Z.land (inb 0x1f7 (idev s)).1 (Z.lor IDE_BSY IDE_DRDY)) IDE_DRDY) as [E|E]; cbn [negb].
  - rewrite (Hok 0%nat E : Z.land (inb 0x1f7 (idev s)).1 _ = 0). cbn [Z.eqb negb]. rewrite andb_false_r.
    apply wp_ret, HQ, view_inb.
  - destruct k as [|k]; [done|]. apply IH; cbn [idev].
    + exists k. split; [lia|exact Hr].
    + intros j. exact (Hok (S j)).
    + intros d Hd. apply (HQ d). now rewrite Hd, view_inb.
Qed.

(** The disk does not make the driver wait forever. *)
Lemma wp_idewait ce (Q : Z -> ctx -> st -> Prop) c s :
  working (view (idev s)) = false -> (forall d, view d = view (idev s) -> Q 0 c (with_dev d s)) ->
  wp (idewait spins ce) Q c s.
Proof.
  intros Hw HQ. apply wp_idewait_from; [now apply status_ready|intros k; now apply status_ok|exact HQ].
Qed.

(** The registers name the drive and the sector of the buffer. *)
Lemma task_file bno dr :
  0 <= bno < FSSIZE -> 0 <= dr <= 1 ->
  let v := u8 (Z.lor (Z.lor 0xe0 (Z.shiftl dr 4)) (Z.land (Z.shiftr bno 24) 0x0f)) in
  Z.land (Z.shiftr v 4) 1 = dr /\
  Z.land bno 0xff + 256 * Z.land (Z.shiftr bno 8) 0xff + 65536 * Z.land (Z.shiftr bno 16) 0xff +
    16777216 * Z.land v 0xf = bno.
Proof.
  intros Hb Hdr. unfold FSSIZE in Hb. cbn zeta. rewrite !Z.shiftr_div_pow2 by lia.
  rewrite (Z.div_small bno (2 ^ 24)), (Z.div_small bno (2 ^ 16)) by (cbn; lia).
  change 0xff with (Z.ones 8). rewrite !Z.land_ones by lia.
  rewrite (Z.mod_small (bno / 2 ^ 8)) by (split; [apply Z.div_pos; lia|apply Z.div_lt_upper_bound; lia]).
  pose proof (Z_div_mod_eq_full bno (2 ^ 8)) as Hbno. change (2 ^ 8) with 256 in *. rewrite Z.mod_0_l by lia.
  set (x := bno / 256) in *. set (y := bno mod 256) in *. clearbody x y.
  assert (dr = 0 \/ dr = 1) as [->| ->] by lia; (split; [reflexivity|]);
    match goal with |- context [16777216 * ?t] => replace t with 0 by reflexivity end; lia.
Qed.

Lemma drive_range q : 0 <= drive q <= 1.
Proof.
  unfold drive. pose proof (Z.land_ones (b_dev q) 1) as E. change (Z.ones 1) with 1 in E. rewrite E by lia.
  pose proof (Z.mod_pos_bound (b_dev q) (2 ^ 1)). lia.
Qed.

Lemma wp_idestart b (Q : unit -> ctx -> st -> Prop) c s :
  request (havedisk1 s) (ibuf b s) -> r_phase (view (idev s)) = PIdle ->
  (forall d, r_phase (view d) = work false (ibuf b s) -> r_img (view d) = r_img (view (idev s)) ->
     Q tt c (with_dev d s)) ->
  wp (idestart spins (Some b)) Q c s.
Proof.
  intros (_ & _ & Hb & _ & Hlen) Hph HQ. unfold idestart. wp_steps.
  rewrite (proj2 (Z.leb_gt _ _)) by lia. change (BSIZE / SECTOR_SIZE) with 1. cbn [Z.eqb Pos.eqb].
  change (7 <? 1) with false. cbn match. set (q := ibuf b s) in *.
  rewrite Z.mul_1_r, u32_small by (unfold is_u32, FSSIZE in *; lia).
  rewrite s32_small by (unfold FSSIZE in *; lia).
  destruct (task_file (b_blockno q) (drive q) Hb (drive_range q)) as [E1 E2]. cbn zeta in E1, E2.
  apply wp_bind, wp_idewait; [unfold working; now rewrite Hph|]. intros d Hd.
  do 6 apply wp_bind, wp_out. cbn [dev set_devs ide_devices with_dev idev]. fold (drive q).
  set (v := u8 _) in *. fold (dirty q).
  destruct (dirty q) eqn:Edirty.
  - apply wp_bind, wp_out, wp_out. cbn [dev set_devs ide_devices idev].
    apply HQ; (rewrite view_outsl by done); rewrite !view_outb by is_port; rewrite Hd; cbn; [|done].
    unfold work. now rewrite Edirty, E1, E2.
  - apply wp_out. cbn [dev set_devs ide_devices idev].
    apply HQ; rewrite !view_outb by is_port; rewrite Hd; cbn; [|done]. unfold work. now rewrite Edirty, E1, E2.
Qed.

(** [pp] after the walk: where the new buffer goes. *)
Definition put_at (pp : option nat) (b : nat) (s : st) : st :=
  match pp with None => set_idequeue (Some b) s | Some x => set_qnext x (Some b) s end.

Lemma append_from_eq n pp b l c (s : st) :
  chain (qnext s) (match pp with None => idequeue s | Some x => nextof x s end) l -> (length l < n)%nat ->
  append_from n pp b c s = Ret tt c (put_at (match last l with Some x => Some x | None => pp end) b s).
Proof.
  revert n pp. induction l as [|x l IH]; intros n pp Hc Hn; (destruct n as [|n]; [cbn in Hn; lia|]);
    cbn [append_from]; unfold bind, gets; cbn [obind].
  - cbn in Hc. rewrite Hc. destruct pp; reflexivity.
  - destruct Hc as [-> Hc]. rewrite (IH n (Some x)) by (try exact Hc; cbn in Hn; lia).
    destruct l; [done|]. rewrite last_cons_cons. now destruct (last_is_Some (n0 :: l)) as [_ [y ->]].
Qed.

Definition queued (s : st) (l : list nat) : Prop :=
  length (qnext s) = length (ibufs s) /\ chain (qnext s) (idequeue s) l /\ NoDup l /\
  Forall (fun b => b < length (ibufs s))%nat l.

Lemma queued_length s l : queued s l -> (length l <= length (ibufs s))%nat.
Proof.
  intros (_ & _ & Hnd & Hl). rewrite <- (length_seq (length (ibufs s)) 0).
  apply NoDup_incl_length.
  - now apply NoDup_ListNoDup.
  - intros x Hx. apply list_elem_of_In in Hx. rewrite Forall_forall in Hl. apply in_seq. specialize (Hl x Hx). lia.
Qed.

(** Appending a buffer to the queue. *)
Lemma queued_append b (s : st) l :
  queued s l -> b ∉ l -> (b < length (ibufs s))%nat ->
  let s' := put_at (last l) b (set_qnext b None s) in
  queued s' (l ++ [b]).
Proof.
  intros (Hq & Hc & Hnd & Hl) Hb Hlt s'. split_and!.
  - unfold s', put_at. destruct (last l); cbn; rewrite ?length_insert; done.
  - unfold s'. destruct l as [|y l _] using rev_ind; cbn [last put_at].
    + cbn. rewrite list_lookup_insert_eq by lia. done.
    + rewrite last_snoc. cbn [put_at set_qnext qnext idequeue].
      apply chain_snoc; [done| |set_solver|apply list_lookup_insert_eq; lia|now apply chain_insert].
      rewrite length_insert. apply Forall_app in Hl as [_ Hl]. inversion Hl. lia.
  - apply NoDup_app. split_and!; [done| |apply NoDup_singleton]. now intros x Hx ->%list_elem_of_singleton.
  - apply Forall_app. split.
    + eapply Forall_impl; [exact Hl|]. intros x. unfold s', put_at. now destruct (last l).
    + apply Forall_singleton. unfold s', put_at. now destruct (last l).
Qed.

(** iderw from its call to its first wait. *)
Lemma wp_iderw_call b l (Q : blk unit unit -> ctx -> st -> Prop) c s :
  held c = [] -> queued s l -> b ∉ l -> (b < length (ibufs s))%nat -> request (havedisk1 s) (ibuf b s) ->
  (l = [] -> r_phase (view (idev s)) = PIdle) ->
  (forall nx d, let s' := MkIde (ibufs s) nx (Some (hd b l)) (havedisk1 s) d in
     queued s' (l ++ [b]) -> r_img (view d) = r_img (view (idev s)) ->
     r_phase (view d) = match l with [] => work false (ibuf b s) | _ => r_phase (view (idev s)) end ->
     Q (Block (ChBuf b) LIde tt) (Ctx [LIde] (woken c)) s') ->
  wp (iderw_start spins b ;;; iderw_step b tt) Q c s.
Proof.
  intros Hh Hq Hb Hlt Hreq Hph HQ. destruct c as [h w]. cbn [held woken] in *. subst h.
  pose proof Hreq as (Hlk & Hfl & Hbn & Hdev & Hlen). unfold iderw_start. apply wp_bind. wp_step.
  apply wp_holdingsleep; [not_held|]. cbn [sl_locked ide_locks]. rewrite Hlk. cbn [negb]. wp_steps.
  rewrite (proj2 (Z.eqb_neq _ _)) by done.
  replace (negb (b_dev (ibuf b s) =? 0) && negb (havedisk1 s)) with false
    by (destruct Hdev as [-> | ->]; [done|now rewrite andb_false_r]).
  wp_steps. set (s1 := set_qnext b None s).
  assert (Hq1 : chain (qnext s1) (idequeue s1) l) by now apply chain_insert, Hq.
  pose proof (queued_length s l Hq) as Hll. pose proof (queued_append b s l Hq Hb Hlt) as Hq2. cbn zeta in Hq2.
  unfold wp at 1. rewrite (append_from_eq _ None b l) by (exact Hq1 || cbn; lia).
  replace (match last l with Some x => Some x | None => None end) with (last l) by now destruct (last l).
  fold s1 in Hq2. set (s2 := put_at (last l) b s1) in *.
  assert (Es2 : s2 = MkIde (ibufs s) (qnext s2) (Some (hd b l)) (havedisk1 s) (idev s)).
  { pose proof (chain_head _ _ _ (proj1 (proj2 Hq2))) as E. unfold s2, put_at in *.
    destruct l as [|x l]; [done|]. cbn [hd]. destruct (last (x :: l)) eqn:El; [|now apply last_None in El].
    change (idequeue s = Some x) in E. unfold s1, set_qnext. cbn [ibufs qnext idequeue havedisk1 idev].
    now rewrite E. }
  clearbody s2. remember (qnext s2) as nx eqn:Enx. clear Enx. subst s2. wp_steps. unfold when. cbn [idequeue].
  destruct l as [|x l]; cbn [hd] in *.
  - rewrite bool_decide_true by done. apply wp_idestart; [exact Hreq|now apply Hph|].
    intros d Hd1 Hd2. unfold iderw_step. wp_steps. cbn [with_dev ibuf ibufs]. fold (ibuf b s).
    rewrite (proj2 (Z.eqb_neq _ _)) by done. cbn [negb]. apply wp_ret. now apply HQ.
  - rewrite bool_decide_false by (intros [= ->]; apply Hb; left). wp_steps. unfold iderw_step. wp_steps.
    cbn [ibuf ibufs]. fold (ibuf b s). rewrite (proj2 (Z.eqb_neq _ _)) by done. cbn [negb]. apply wp_ret. now apply HQ.
Qed.

Lemma ibuf_alter b f (s : st) : (b < length (ibufs s))%nat -> ibuf b (iset b f s) = f (ibuf b s).
Proof.
  intros Hb. unfold ibuf, iset. cbn. rewrite list_lookup_alter_eq. now destruct (lookup_lt_is_Some_2 _ _ Hb) as [x ->].
Qed.

Lemma alter_const {A} (f : A -> A) b (l : list A) x : l !! b = Some x -> alter f b l = <[b := f x]> l.
Proof.
  intros Hb. apply list_eq. intros i. destruct (decide (b = i)) as [<-|Hne].
  - rewrite list_lookup_alter_eq, Hb, list_lookup_insert_eq; [done|]. now apply lookup_lt_Some in Hb.
  - now rewrite list_lookup_alter_ne, list_lookup_insert_ne.
Qed.

(** The part of ideintr that fetches the data of a read. *)
Lemma wp_fetch b q (R : unit -> ctx -> st -> Prop) c s :
  ibufs s !! b = Some q -> r_phase (view (idev s)) = work true q ->
  (forall d, r_phase (view d) = PIdle -> r_img (view d) = r_img (view (idev s)) ->
     R tt c (MkIde (<[b := if dirty q then q else set_data (r_img (view (idev s)) (drive q) (b_blockno q)) q]> (ibufs s))
       (qnext s) (idequeue s) (havedisk1 s) d)) ->
  wp (if negb (negb (Z.land (b_flags q) B_DIRTY =? 0)) then
        let* r := idewait spins true in
        when (0 <=? r) (let* d := io (insl 0x1f0 (Z.to_nat (BSIZE / 4))) in imod b (set_data d))
      else ret tt) R c s.
Proof.
  intros Eq Hph HR. fold (dirty q). unfold work in Hph. destruct (dirty q); cbn [negb].
  - apply wp_ret. rewrite list_insert_id in HR by done. specialize (HR (idev s) Hph eq_refl). now destruct s.
  - apply wp_bind, wp_idewait; [unfold working; now rewrite Hph|]. intros d Hd.
    unfold when. change (0 <=? 0) with true. cbn match. apply wp_bind, wp_io. unfold imod. wp_step.
    cbn [dev set_devs ide_devices with_dev idev]. change (Z.to_nat (BSIZE / 4)) with 128%nat.
    destruct (view_insl (drive q) (b_blockno q) d) as [E1 E2]; [now rewrite Hd|].
    unfold iset. cbn [ibufs qnext idequeue havedisk1 idev]. rewrite (alter_const _ _ _ q Eq), E1, Hd.
    apply HR; rewrite E2; cbn; now rewrite ?Hd.
Qed.

(** The interrupt handler serves the head of the queue and starts the next request. *)
Lemma wp_ideintr b l (Q : unit -> ctx -> st -> Prop) c s :
  held c = [] -> queued s (b :: l) -> r_phase (view (idev s)) = work true (ibuf b s) ->
  Forall (fun b' => request (havedisk1 s) (ibuf b' s)) l ->
  (forall d, let s' := MkIde (<[b := served (r_img (view (idev s))) (ibuf b s)]> (ibufs s)) (qnext s) (head l) (havedisk1 s) d in
     queued s' l -> r_img (view d) = r_img (view (idev s)) ->
     r_phase (view d) = match l with [] => PIdle | b' :: _ => work false (ibuf b' s) end ->
     Q tt (Ctx [] (woken c ++ [ChBuf b])) s') ->
  wp (ideintr spins) Q c s.
Proof.
  intros Hh Hq Hph Hreq HQ. destruct c as [h w]. cbn [held woken] in *. subst h.
  pose proof Hq as (Hqn & [Hhd Hch] & Hnd & Hlt). apply NoDup_cons in Hnd as [Hb Hnd].
  apply Forall_cons in Hlt as [Hbl Hlt]. destruct (lookup_lt_is_Some_2 _ _ Hbl) as [q Eq].
  assert (Eib : ibuf b s = q) by (unfold ibuf; now rewrite Eq). rewrite Eib in *.
  unfold ideintr. wp_steps. rewrite Hhd. wp_steps. pose proof (chain_head _ _ _ Hch) as En. fold (nextof b s) in En.
  set (s1 := set_idequeue (nextof b s) s). assert (Eib1 : ibuf b s1 = q) by exact Eib. rewrite Eib1.
  set (img := r_img (view (idev s))) in *.
  apply (wp_fetch b q); [exact Eq|exact Hph|].
  change (idev s1) with (idev s). change (ibufs s1) with (ibufs s). change (qnext s1) with (qnext s).
  change (idequeue s1) with (nextof b s). change (havedisk1 s1) with (havedisk1 s). rewrite En. fold img.
  intros d Hd1 Hd2. set (q1 := if dirty q then _ else _) in *. unfold imod. wp_steps.
  set (s2 := MkIde _ _ _ _ d).
  assert (Es3 : iset b (fun q0 => set_flags (Z.land (b_flags q0) (Z.lnot B_DIRTY)) q0)
      (iset b (fun q0 => set_flags (Z.lor (b_flags q0) B_VALID) q0) s2) =
    MkIde (<[b := served img q]> (ibufs s)) (qnext s) (head l) (havedisk1 s) d).
  { unfold iset, s2. cbn [ibufs qnext idequeue havedisk1 idev]. f_equal.
    rewrite (alter_const _ b (<[b := q1]> (ibufs s)) q1) by now apply list_lookup_insert_eq.
    rewrite list_insert_insert_eq, (alter_const _ b _ (set_flags (Z.lor (b_flags q1) B_VALID) q1))
      by now apply list_lookup_insert_eq.
    now rewrite list_insert_insert_eq. }
  rewrite Es3. clear Es3 s2. set (bs := <[b := _]> _) in *.
  assert (Hq' : forall d', queued (MkIde bs (qnext s) (head l) (havedisk1 s) d') l).
  { intros d'. split_and!; cbn; [unfold bs; now rewrite length_insert| |done|unfold bs; now rewrite length_insert].
    unfold nextof in En. now rewrite <- En. }
  cbn [idequeue]. destruct l as [|b' l]; cbn [head] in *.
  - rewrite bool_decide_true by done. cbn [negb when]. wp_steps. now apply HQ.
  - rewrite bool_decide_false by done. cbn [negb]. apply Forall_cons in Hreq as [Hreq _].
    assert (Eb' : forall d' : D, ibuf b' (MkIde bs (qnext s) (Some b') (havedisk1 s) d') = ibuf b' s).
    { intros d'. unfold ibuf, bs. cbn [ibufs]. rewrite list_lookup_insert_ne; [done|]. intros ->. apply Hb. left. }
    unfold when. apply wp_idestart; [rewrite Eb'; exact Hreq|done|]. intros d' H1 H2. wp_steps. apply HQ; [done| |].
    + now rewrite H2.
    + now rewrite H1, Eb'.
Qed.

(** * Threads and interrupts

    A thread is elsewhere; has locked a buffer and calls iderw; sleeps in it; has
    been woken up; or has come back from it with the buffer. *)
Inductive ithread : Type :=
| IOut
| ICall (b : nat)
| IAsleep (b : nat)
| IReady (b : nat)
| IBack (b : nat).

Definition uses (b : nat) (t : ithread) : bool :=
  match t with
  | IOut => false
  | ICall b' | IAsleep b' | IReady b' | IBack b' => bool_decide (b' = b)
  end.

(** The driver, the threads, and the interrupt line of the disk. *)
Record idesys : Type := Idesys {
  y_ide : st;
  y_threads : list ithread;
  y_irq : bool
}.

Definition iwake (w : list chan) (t : ithread) : ithread :=
  match t with
  | IAsleep b => if decide (ChBuf b ∈ w) then IReady b else t
  | _ => t
  end.

Definition with_buf (b : nat) (q : buf) (s : st) : st :=
  MkIde (<[b := q]> (ibufs s)) (qnext s) (idequeue s) (havedisk1 s) (idev s).

(** The steps: a thread prepares a request in a buffer that no other thread uses
    (bio.c sees to that with the buffer's lock); it calls iderw, which runs until
    it sleeps; the disk finishes a transfer and raises its interrupt; the
    interrupt handler runs; a thread that was woken up looks at its buffer again;
    and a thread that is back gives the buffer up.  The labels are the calls of
    iderw and its returns. *)
Inductive ide_step : idesys -> list event -> idesys -> Prop :=
| is_prepare s ts irq i b q :
    ts !! i = Some IOut -> (b < length (ibufs s))%nat -> existsb (uses b) ts = false ->
    request (havedisk1 s) q ->
    ide_step (Idesys s ts irq) [] (Idesys (with_buf b q s) (<[i := ICall b]> ts) irq)
| is_sleep s ts irq i b ch lk c s' :
    ts !! i = Some (ICall b) ->
    (iderw_start spins b ;;; iderw_step b tt) (Ctx [] []) s = Ret (Block ch lk tt) c s' ->
    ide_step (Idesys s ts irq) [Called i b (ibuf b s)] (Idesys s' (<[i := IAsleep b]> ts) irq)
| is_direct s ts irq i b c s' :
    ts !! i = Some (ICall b) ->
    (iderw_start spins b ;;; iderw_step b tt) (Ctx [] []) s = Ret (Done tt) c s' ->
    ide_step (Idesys s ts irq) [Called i b (ibuf b s); Returned i b (ibuf b s')] (Idesys s' (<[i := IBack b]> ts) irq)
| is_finish s ts :
    working (view (idev s)) = true ->
    ide_step (Idesys s ts false) [] (Idesys (with_dev (finish (idev s)) s) ts true)
| is_intr s ts c s' :
    ideintr spins (Ctx [] []) s = Ret tt c s' ->
    ide_step (Idesys s ts true) [] (Idesys s' (iwake (woken c) <$> ts) false)
| is_resume s ts irq i b ch lk c s' :
    ts !! i = Some (IReady b) ->
    iderw_step b tt (Ctx [LIde] []) s = Ret (Block ch lk tt) c s' ->
    ide_step (Idesys s ts irq) [] (Idesys s' (<[i := IAsleep b]> ts) irq)
| is_return s ts irq i b c s' :
    ts !! i = Some (IReady b) ->
    iderw_step b tt (Ctx [LIde] []) s = Ret (Done tt) c s' ->
    ide_step (Idesys s ts irq) [Returned i b (ibuf b s')] (Idesys s' (<[i := IBack b]> ts) irq)
| is_give_up s ts irq i b :
    ts !! i = Some (IBack b) ->
    ide_step (Idesys s ts irq) [] (Idesys s (<[i := IOut]> ts) irq).

(** * The specification: requests served one at a time *)

Inductive athread : Type :=
| AOut
| ACall (b : nat) (q : buf)
| ADone (b : nat) (q : buf).

(** A request is the buffer as it was when iderw was called on it; it is served
    once, and comes back as the disk served it. *)
Inductive abs_step : image * list athread -> list event -> image * list athread -> Prop :=
| as_call img ts i b q :
    ts !! i = Some AOut -> abs_step (img, ts) [Called i b q] (img, <[i := ACall b q]> ts)
| as_serve img ts i b q :
    ts !! i = Some (ACall b q) -> abs_step (img, ts) [] (after q img, <[i := ADone b (served img q)]> ts)
| as_return img ts i b q :
    ts !! i = Some (ADone b q) -> abs_step (img, ts) [Returned i b q] (img, <[i := AOut]> ts).

(** The state of the specification that a state of the driver stands for: the
    request at the head of the queue is served when the disk finishes it. *)
Definition athread_of (s : st) (irq : bool) (t : ithread) : athread :=
  match t with
  | IOut | ICall _ | IBack _ => AOut
  | IAsleep b =>
      if irq && bool_decide (idequeue s = Some b) then ADone b (served (r_img (view (idev s))) (ibuf b s))
      else ACall b (ibuf b s)
  | IReady b => ADone b (ibuf b s)
  end.

Definition ide_abs (x : idesys) : image * list athread :=
  (r_img (view (idev (y_ide x))), athread_of (y_ide x) (y_irq x) <$> y_threads x).

(** * The invariant *)

(** What holds of each thread, with the buffers [l] in the queue. *)
Definition thread_ok (s : st) (l : list nat) (t : ithread) : Prop :=
  match t with
  | IOut => True
  | ICall b => (b ∉ l) /\ (b < length (ibufs s))%nat /\ request (havedisk1 s) (ibuf b s)
  | IAsleep b => b ∈ l /\ (b < length (ibufs s))%nat /\ request (havedisk1 s) (ibuf b s)
  | IReady b | IBack b => (b ∉ l) /\ (b < length (ibufs s))%nat /\ complete (ibuf b s)
  end.

(** A buffer has one user. *)
Definition one_user (ts : list ithread) : Prop :=
  forall i j ti tj b, ts !! i = Some ti -> ts !! j = Some tj -> uses b ti = true -> uses b tj = true -> i = j.

Definition ide_inv (x : idesys) : Prop :=
  let s := y_ide x in
  exists l, queued s l /\
    Forall (thread_ok s l) (y_threads x) /\
    one_user (y_threads x) /\
    (forall b, b ∈ l -> exists i : nat, y_threads x !! i = Some (IAsleep b)) /\
    r_phase (view (idev s)) = (match l with [] => PIdle | b :: _ => work (y_irq x) (ibuf b s) end) /\
    (l = [] -> y_irq x = false).

(** ** Helpers *)

(** Changing the state of a thread, but not its buffer. *)
Lemma one_user_insert ts i t t' :
  one_user ts -> ts !! i = Some t -> (forall b, uses b t' = true -> uses b t = true) -> one_user (<[i := t']> ts).
Proof.
  intros Hu Hi Ht j k tj tk b Hj Hk Uj Uk.
  apply list_lookup_insert_Some in Hj as [(<- & <- & _)|[Hj1 Hj]], Hk as [(<- & <- & _)|[Hk1 Hk]]; eauto.
Qed.

Lemma unused_all b ts : existsb (uses b) ts = false -> forall i t, ts !! i = Some t -> uses b t = false.
Proof.
  intros E i t Hi. destruct (uses b t) eqn:Et; [|done]. rewrite <- E. symmetry. apply existsb_exists.
  exists t. split; [apply list_elem_of_In; eapply list_elem_of_lookup_2; exact Hi|exact Et].
Qed.

Lemma one_user_prepare ts i b :
  one_user ts -> existsb (uses b) ts = false -> one_user (<[i := ICall b]> ts).
Proof.
  intros Hu Hb j k tj tk b' Hj Hk Uj Uk. pose proof (unused_all b ts Hb) as Hn.
  apply list_lookup_insert_Some in Hj as [(<- & <- & _)|[Hj1 Hj]], Hk as [(<- & <- & _)|[Hk1 Hk]]; eauto; cbn in Uj, Uk;
    apply bool_decide_eq_true in Uj || apply bool_decide_eq_true in Uk; subst b'; exfalso.
  - rewrite (Hn _ _ Hk) in Uk. done.
  - rewrite (Hn _ _ Hj) in Uj. done.
Qed.

(** A thread's invariant and meaning depend only on its own buffer. *)
Lemma thread_ok_frame s s' l l' t :
  (forall b, uses b t = true -> ibuf b s' = ibuf b s /\ (b ∈ l' <-> b ∈ l)) ->
  length (ibufs s') = length (ibufs s) -> havedisk1 s' = havedisk1 s ->
  thread_ok s l t -> thread_ok s' l' t.
Proof.
  intros Hf Hl Hd. destruct t as [|b|b|b|b]; cbn; [done|..];
    (destruct (Hf b) as [-> ->]; [cbn; now rewrite bool_decide_true|]); now rewrite Hl, ?Hd.
Qed.

Lemma served_after img q : served (after q img) q = served img q.
Proof. unfold served, after. now destruct (dirty q). Qed.

Lemma fmap_insert_eq (f g : ithread -> athread) (ts : list ithread) (i : nat) t x :
  ts !! i = Some t -> f x = g t -> (forall j t', j <> i -> ts !! j = Some t' -> f t' = g t') ->
  f <$> <[i := x]> ts = g <$> ts.
Proof.
  intros Hi Hx Ho. apply list_eq. intros j. rewrite !list_lookup_fmap. destruct (decide (i = j)) as [<-|Hne].
  - rewrite list_lookup_insert_eq by now apply lookup_lt_Some in Hi. rewrite Hi. cbn. now rewrite Hx.
  - rewrite list_lookup_insert_ne by done. destruct (ts !! j) eqn:Ej; cbn; [|done]. f_equal. eauto.
Qed.

Lemma fmap_insert_step (f g : ithread -> athread) (ts : list ithread) (i : nat) t x y :
  ts !! i = Some t -> f x = y -> (forall j t', j <> i -> ts !! j = Some t' -> f t' = g t') ->
  f <$> <[i := x]> ts = <[i := y]> (g <$> ts).
Proof.
  intros Hi Hx Ho. apply list_eq. intros j. rewrite list_lookup_fmap. destruct (decide (i = j)) as [<-|Hne].
  - apply lookup_lt_Some in Hi. rewrite !list_lookup_insert_eq by now rewrite ?length_fmap. cbn. now rewrite Hx.
  - rewrite !list_lookup_insert_ne, list_lookup_fmap by done. destruct (ts !! j) eqn:Ej; cbn; [|done]. f_equal. eauto.
Qed.

(** What a step does: it keeps the invariant, and is a step of the specification
    or none. *)
Definition good_step (x : idesys) (e : list event) (x' : idesys) : Prop :=
  ide_inv x' /\ (e = [] /\ ide_abs x' = ide_abs x \/ abs_step (ide_abs x) e (ide_abs x')).

Lemma good_prepare s ts irq i b q :
  ide_inv (Idesys s ts irq) ->
  ts !! i = Some IOut -> (b < length (ibufs s))%nat -> existsb (uses b) ts = false -> request (havedisk1 s) q ->
  good_step (Idesys s ts irq) [] (Idesys (with_buf b q s) (<[i := ICall b]> ts) irq).
Proof.
  intros (l & Hq & Hts & Hone & Hl & Hph & Hirq) Hi Hb Hun Hreq. cbn [y_ide y_threads y_irq] in *.
  pose proof (unused_all b ts Hun) as Hn.
  assert (Hbl : b ∉ l). { intros [j Hj]%Hl. apply Hn in Hj. cbn in Hj. now apply bool_decide_eq_false in Hj. }
  assert (Hne : forall b', b' <> b -> ibuf b' (with_buf b q s) = ibuf b' s).
  { intros b' Hb'. unfold ibuf, with_buf. cbn [ibufs]. now rewrite list_lookup_insert_ne. }
  assert (Heq : ibuf b (with_buf b q s) = q) by (unfold ibuf, with_buf; cbn [ibufs]; now rewrite list_lookup_insert_eq).
  assert (Hother : forall j t b', ts !! j = Some t -> uses b' t = true -> b' <> b).
  { intros j t b' Hj Hu ->. rewrite (Hn _ _ Hj) in Hu. done. }
  split.
  - exists l. cbn [y_ide y_threads y_irq]. split_and!; try done.
    + destruct Hq as (Q1 & Q2 & Q3 & Q4). split_and!; try done; cbn; now rewrite length_insert.
    + apply Forall_insert.
      * apply Forall_lookup. intros j t Hj. rewrite Forall_lookup in Hts.
        apply (thread_ok_frame s _ l); [|cbn; apply length_insert|done|eauto].
        intros b' Hu. split; [|done]. eapply Hne, Hother; eauto.
      * cbn. rewrite Heq, length_insert. done.
    + now apply one_user_prepare.
    + intros b' Hb'. destruct (Hl b' Hb') as [j Hj]. exists j. rewrite list_lookup_insert_ne; [done|congruence].
    + change (idev (with_buf b q s)) with (idev s). rewrite Hph. destruct l as [|b' l]; [done|]. rewrite Hne; [done|]. intros ->. apply Hbl. left.
  - left. split; [done|]. unfold ide_abs. cbn [y_ide y_threads y_irq]. f_equal.
    apply (fmap_insert_eq _ _ _ _ IOut); [done|done|].
    intros j t _ Hj. destruct t as [|b'|b'|b'|b']; cbn; try done;
        (rewrite Hne by (eapply Hother; [exact Hj|cbn; now rewrite bool_decide_true])); done.
Qed.

Lemma good_sleep s ts irq i b r c s' :
  ide_inv (Idesys s ts irq) -> ts !! i = Some (ICall b) ->
  (iderw_start spins b ;;; iderw_step b tt) (Ctx [] []) s = Ret r c s' ->
  r = Block (ChBuf b) LIde tt /\
  good_step (Idesys s ts irq) [Called i b (ibuf b s)] (Idesys s' (<[i := IAsleep b]> ts) irq).
Proof.
  intros (l & Hq & Hts & Hone & Hl & Hph & Hirq) Hi E. cbn [y_ide y_threads y_irq] in *.
  pose proof (Forall_lookup_1 _ _ _ _ Hts Hi) as (Hb & Hblt & Hreq).
  apply (wp_ret_inv _ (fun r _ s' => r = Block (ChBuf b) LIde tt /\
    good_step (Idesys s ts irq) [Called i b (ibuf b s)] (Idesys s' (<[i := IAsleep b]> ts) irq)) _ _ _ _ _) with (2 := E).
  apply (wp_iderw_call b l _ (Ctx [] []) s eq_refl Hq Hb Hblt Hreq); [intros ->; exact Hph|].
  intros nx d s1 Hq' Himg Hph'. cbn [woken]. split; [done|].
  assert (Hone' : one_user (<[i := IAsleep b]> ts)) by (eapply one_user_insert; [exact Hone|exact Hi|done]).
  split.
  - exists (l ++ [b]). cbn [y_ide y_threads y_irq]. split_and!; try done.
    + apply Forall_lookup. intros j t Hj. apply list_lookup_insert_Some in Hj as [(<- & <- & _)|[Hne Hj]].
      * split_and!; [set_solver|done|done].
      * apply (thread_ok_frame s _ l); [|done|done|exact (Forall_lookup_1 _ _ _ _ Hts Hj)].
        intros b' Hu. split; [done|]. rewrite elem_of_app, list_elem_of_singleton. split; [|tauto].
        intros [?| ->]; [done|]. exfalso. apply Hne. eapply (Hone i j); [exact Hi|exact Hj| |exact Hu].
        cbn. now rewrite bool_decide_true.
    + intros b' Hb'. apply elem_of_app in Hb' as [Hb'| ->%list_elem_of_singleton].
      * destruct (Hl b' Hb') as [j Hj]. exists j. rewrite list_lookup_insert_ne; [done|congruence].
      * exists i. apply list_lookup_insert_eq. now apply lookup_lt_Some in Hi.
    + cbn [s1 idev]. rewrite Hph'. destruct l as [|x l]; cbn [app]; [now rewrite Hirq|done].
    + destruct l; done.
  - right. unfold ide_abs. cbn [y_ide y_threads y_irq s1 idev]. rewrite Himg.
    pose proof (chain_head _ _ _ (proj1 (proj2 Hq))) as Ehd.
    rewrite (fmap_insert_step _ (athread_of s irq) _ _ (ICall b) _ (ACall b (ibuf b s)));
      [apply as_call; now rewrite list_lookup_fmap, Hi|done| |].
    + cbn. destruct l as [|x l]; [now rewrite Hirq|]. cbn [hd]. rewrite bool_decide_false by (intros [= ->]; apply Hb; left).
      now rewrite andb_false_r.
    + intros j t _ Hj. destruct t as [|b'|b'|b'|b']; try done. cbn. rewrite Ehd, Himg.
      pose proof (Forall_lookup_1 _ _ _ _ Hts Hj) as (Hb' & _). destruct l; [now apply not_elem_of_nil in Hb'|done].
Qed.

(** The disk finishes the request at the head of the queue. *)
Lemma good_finish s ts :
  ide_inv (Idesys s ts false) -> working (view (idev s)) = true ->
  good_step (Idesys s ts false) [] (Idesys (with_dev (finish (idev s)) s) ts true).
Proof.
  intros (l & Hq & Hts & Hone & Hl & Hph & Hirq) Hw. cbn [y_ide y_threads y_irq] in *.
  destruct l as [|b l]; [unfold working in Hw; now rewrite Hph in Hw|].
  set (s' := with_dev _ s). set (q := ibuf b s) in *.
  assert (Hv : r_phase (view (idev s')) = work true q /\ r_img (view (idev s')) = after q (r_img (view (idev s)))).
  { cbn [s' with_dev idev]. rewrite view_finish. unfold ata_finish. rewrite Hph. unfold work, after.
    destruct (dirty q); done. }
  destruct Hv as [Hp' Hi']. destruct (Hl b) as [i Hi]; [left|].
  split.
  - exists (b :: l). cbn [y_ide y_threads y_irq]. split_and!; done.
  - right. unfold ide_abs. cbn [y_ide y_threads y_irq]. rewrite Hi'.
    pose proof (chain_head _ _ _ (proj1 (proj2 Hq))) as Ehd. cbn [head] in Ehd.
    replace (athread_of s' true <$> ts) with (<[i := ADone b (served (r_img (view (idev s))) q)]> (athread_of s false <$> ts)).
    { apply as_serve. now rewrite list_lookup_fmap, Hi. }
    symmetry. rewrite <- (list_insert_id ts i _ Hi) at 1. eapply fmap_insert_step; [exact Hi| |].
    + cbn [athread_of andb]. rewrite bool_decide_true by exact Ehd. f_equal. rewrite Hi'. apply served_after.
    + intros j t Hne Hj. destruct t as [|b'|b'|b'|b']; try done. cbn [athread_of andb].
      rewrite bool_decide_false; [done|]. change (idequeue s') with (idequeue s). rewrite Ehd. intros [= <-].
      apply Hne. eapply (Hone j i); [exact Hj|exact Hi|cbn; now rewrite bool_decide_true..].
Qed.

(** The users of the buffer at the head of the queue: the one thread that sleeps. *)
Lemma head_user ts i b j t :
  one_user ts -> ts !! i = Some (IAsleep b) -> ts !! j = Some t -> t = IAsleep b \/ uses b t = false.
Proof.
  intros Hone Hi Hj. destruct (uses b t) eqn:Hu; [left|now right].
  assert (j = i) as -> by (eapply (Hone j i); [exact Hj|exact Hi|exact Hu|cbn; now rewrite bool_decide_true]).
  congruence.
Qed.

Lemma iwake_uses w b t : uses b (iwake w t) = uses b t.
Proof. destruct t; cbn; try done. now destruct (decide _). Qed.

Lemma iwake_other b t : t = IAsleep b \/ iwake [ChBuf b] t = t.
Proof.
  destruct t as [|b'|b'|b'|b']; cbn; auto. destruct (decide _) as [[= ->]%list_elem_of_singleton|]; auto.
Qed.

Lemma iwake_self b : iwake [ChBuf b] (IAsleep b) = IReady b.
Proof. cbn. destruct (decide _) as [|Hn]; [done|]. exfalso. apply Hn. left. Qed.

Lemma good_intr s ts c s' :
  ide_inv (Idesys s ts true) -> ideintr spins (Ctx [] []) s = Ret tt c s' ->
  good_step (Idesys s ts true) [] (Idesys s' (iwake (woken c) <$> ts) false).
Proof.
  intros (l & Hq & Hts & Hone & Hl & Hph & Hirq) E. cbn [y_ide y_threads y_irq] in *.
  destruct l as [|b l]; [now specialize (Hirq eq_refl)|]. destruct (Hl b) as [i Hi]; [left|].
  revert E. apply (wp_ret_inv _ (fun _ c s' => good_step (Idesys s ts true) [] (Idesys s' (iwake (woken c) <$> ts) false))).
  apply (wp_ideintr b l _ (Ctx [] []) s eq_refl Hq Hph).
  { apply Forall_forall. intros b' Hb'. destruct (Hl b') as [j Hj]; [now right|].
    now destruct (Forall_lookup_1 _ _ _ _ Hts Hj) as (_ & _ & ?). }
  set (img := r_img (view (idev s))). intros d s1 Hq1 Himg Hp1. cbn [woken app].
  pose proof (Forall_lookup_1 _ _ _ _ Hts Hi) as (_ & Hblt & _).
  assert (Hbl : b ∉ l) by (destruct Hq as (_ & _ & [? _]%NoDup_cons & _); done).
  assert (Hne : forall b', b' <> b -> ibuf b' s1 = ibuf b' s).
  { intros b' Hb'. unfold ibuf, s1. cbn [ibufs]. now rewrite list_lookup_insert_ne. }
  assert (Hself : ibuf b s1 = served img (ibuf b s)) by (unfold ibuf at 1, s1; cbn [ibufs]; now rewrite list_lookup_insert_eq).
  assert (Hin : forall b', b' ∈ l -> b' <> b) by (intros b' Hb' ->; done).
  assert (Hcase : forall j t, ts !! j = Some t ->
    t = IAsleep b \/ iwake [ChBuf b] t = t /\ forall b', uses b' t = true -> b' <> b).
  { intros j t Hj. destruct (head_user ts i b j t Hone Hi Hj) as [->|Hu]; [now left|]. right. split.
    - destruct (iwake_other b t) as [-> |]; [|done]. cbn in Hu. now rewrite bool_decide_true in Hu.
    - intros b' Hb' ->. congruence. }
  split.
  - exists l. cbn [y_ide y_threads y_irq]. split_and!; try done.
    + apply Forall_fmap, Forall_lookup. intros j t Hj. cbn. destruct (Hcase j t Hj) as [->|[-> Hu]].
      * rewrite iwake_self. cbn [thread_ok]. rewrite Hself. split_and!; [done| |apply served_complete].
        unfold s1. cbn [ibufs]. now rewrite length_insert.
      * apply (thread_ok_frame s _ (b :: l)); [|cbn; apply length_insert|done|exact (Forall_lookup_1 _ _ _ _ Hts Hj)].
        intros b' Hb'. specialize (Hu b' Hb'). split; [now apply Hne|]. rewrite elem_of_cons. tauto.
    + intros j k tj tk b' Hj Hk Uj Uk. rewrite list_lookup_fmap in Hj, Hk.
      apply fmap_Some in Hj as (tj0 & Hj & ->), Hk as (tk0 & Hk & ->). rewrite iwake_uses in Uj, Uk. eauto.
    + intros b' Hb'. destruct (Hl b') as [j Hj]; [now right|]. exists j. rewrite list_lookup_fmap, Hj. cbn [fmap option_fmap option_map].
      f_equal. destruct (iwake_other b (IAsleep b')) as [[= ->]|]; [|done]. now exfalso.
    + cbn [s1 idev]. rewrite Hp1. destruct l as [|b' l]; [done|]. rewrite Hne; [done|]. apply Hin. left.
  - left. split; [done|]. unfold ide_abs. cbn [y_ide y_threads y_irq s1 idev]. rewrite Himg. fold img. f_equal. apply list_eq. intros j.
    rewrite !list_lookup_fmap. destruct (ts !! j) as [t|] eqn:Hj; [|done]. cbn [fmap option_fmap option_map]. f_equal.
    pose proof (chain_head _ _ _ (proj1 (proj2 Hq))) as Ehd. cbn [head] in Ehd.
    destruct (Hcase j t Hj) as [->|[-> Hu]].
    + rewrite iwake_self. cbn [athread_of andb]. rewrite bool_decide_true by done. f_equal. exact Hself.
    + destruct t as [|b'|b'|b'|b']; cbn [athread_of andb]; try done;
        (assert (Hb' : b' <> b) by (apply Hu; cbn; now rewrite bool_decide_true)); rewrite (Hne b' Hb'); try done.
      rewrite bool_decide_false; [done|]. rewrite Ehd. congruence.
Qed.

(** A thread that runs again finds its request served. *)
Lemma good_return s ts irq i b r c s' :
  ide_inv (Idesys s ts irq) -> ts !! i = Some (IReady b) ->
  iderw_step b tt (Ctx [LIde] []) s = Ret r c s' ->
  r = Done tt /\ good_step (Idesys s ts irq) [Returned i b (ibuf b s')] (Idesys s' (<[i := IBack b]> ts) irq).
Proof.
  intros (l & Hq & Hts & Hone & Hl & Hph & Hirq) Hi E. cbn [y_ide y_threads y_irq] in *.
  pose proof (Forall_lookup_1 _ _ _ _ Hts Hi) as Hok. pose proof Hok as (_ & _ & Hco).
  unfold iderw_step, bind, gets in E. cbn [obind] in E. unfold complete in Hco. rewrite Hco, Z.eqb_refl in E.
  cbn in E. injection E as <- _ <-. split; [done|]. split.
  - exists l. cbn [y_ide y_threads y_irq]. split_and!; try done.
    + now apply Forall_insert.
    + eapply one_user_insert; [exact Hone|exact Hi|done].
    + intros b' Hb'. destruct (Hl b' Hb') as [j Hj]. exists j. rewrite list_lookup_insert_ne; [done|congruence].
  - right. unfold ide_abs. cbn [y_ide y_threads y_irq].
    rewrite (fmap_insert_step _ (athread_of s irq) _ _ (IReady b) _ AOut) by done.
    apply as_return. now rewrite list_lookup_fmap, Hi.
Qed.

Lemma good_give_up s ts irq i b :
  ide_inv (Idesys s ts irq) -> ts !! i = Some (IBack b) ->
  good_step (Idesys s ts irq) [] (Idesys s (<[i := IOut]> ts) irq).
Proof.
  intros (l & Hq & Hts & Hone & Hl & Hph & Hirq) Hi. cbn [y_ide y_threads y_irq] in *. split.
  - exists l. cbn [y_ide y_threads y_irq]. split_and!; try done.
    + now apply Forall_insert.
    + eapply one_user_insert; [exact Hone|exact Hi|done].
    + intros b' Hb'. destruct (Hl b' Hb') as [j Hj]. exists j. rewrite list_lookup_insert_ne; [done|congruence].
  - left. split; [done|]. unfold ide_abs. cbn [y_ide y_threads y_irq]. f_equal.
    now apply (fmap_insert_eq _ _ _ _ (IBack b)).
Qed.

Lemma ide_step_good x e x' : ide_step x e x' -> ide_inv x -> good_step x e x'.
Proof.
  intros Hs Hi. destruct Hs.
  - now apply good_prepare.
  - eapply good_sleep; eauto.
  - exfalso. eapply good_sleep in H1 as [? _]; eauto. done.
  - now apply good_finish.
  - now apply good_intr.
  - exfalso. eapply good_return in H1 as [? _]; eauto. done.
  - eapply good_return; eauto.
  - eapply good_give_up; eauto.
Qed.

(** The driver with nothing to do. *)
Definition ide_idle (s : st) : Prop :=
  length (qnext s) = length (ibufs s) /\ idequeue s = None /\ r_phase (view (idev s)) = PIdle.

Lemma ide_idle_inv s n : ide_idle s -> ide_inv (Idesys s (replicate n IOut) false).
Proof.
  intros (Hl & Hq & Hp). exists []. cbn [y_ide y_threads y_irq]. split_and!; try done.
  - split_and!; [done|done|apply NoDup_nil_2|apply Forall_nil_2].
  - now apply Forall_replicate.
  - intros i j ti tj b [-> _]%lookup_replicate. done.
  - intros b []%not_elem_of_nil.
Qed.

Lemma ide_run_good x tr x' :
  trace ide_step x tr x' -> ide_inv x -> ide_inv x' /\ trace abs_step (ide_abs x) tr (ide_abs x').
Proof.
  induction 1 as [x|x e y tr z Hs _ IH]; intros Hi; [split; [done|apply tr_nil]|].
  destruct (ide_step_good x e y Hs Hi) as [Hy Habs]. destruct (IH Hy) as [Hz Hr]. split; [done|].
  destruct Habs as [[-> <-]|Habs]; [exact Hr|]. eapply tr_step; eassumption.
Qed.

(** C11: the IDE driver with any number of threads, in any interleaving of their
    calls of iderw with the interrupts of the disk, refines a disk that serves
    requests one at a time: the sequence of calls (with the buffer as the caller
    passed it) and returns (with the buffer as the caller finds it), and the
    contents of the disk with it, are those of a specification that serves each
    request that was called exactly once before it returns and nothing else, a
    write by storing the buffer's data in its sector, a read by filling the
    buffer with the sector's contents at that moment, and returns it valid and
    clean.  The disk follows the ATA interface and reports no error; a thread
    calls iderw on a buffer that it alone uses, with a request that iderw
    accepts. *)
Theorem ide_refines s n tr x :
  ide_idle s -> trace ide_step (Idesys s (replicate n IOut) false) tr x ->
  trace abs_step (r_img (view (idev s)), replicate n AOut) tr (ide_abs x).
Proof.
  intros Hs Hr. destruct (ide_run_good _ _ _ Hr (ide_idle_inv s n Hs)) as [_ Ha].
  unfold ide_abs at 1 in Ha. cbn [y_ide y_threads y_irq] in Ha. now rewrite fmap_replicate in Ha.
Qed.

(** C12: no request is forgotten: while a thread sleeps in iderw the disk is working
    or its interrupt is pending; the interrupt handler then returns, having woken a
    thread that sleeps; and neither a thread that calls iderw on a request nor one
    that has been woken up panics or waits for the disk to become ready forever,
    and the latter returns. *)
Theorem ide_no_lost_request s n tr x :
  ide_idle s -> trace ide_step (Idesys s (replicate n IOut) false) tr x ->
  let s' := y_ide x in
  (forall i b, y_threads x !! i = Some (IAsleep b) -> y_irq x = true \/ working (view (idev s')) = true) /\
  (y_irq x = true -> wp (ideintr spins)
     (fun _ c _ => exists i b, y_threads x !! i = Some (IAsleep b) /\ ChBuf b ∈ woken c) (Ctx [] []) s') /\
  (forall i b, y_threads x !! i = Some (ICall b) ->
     wp (iderw_start spins b ;;; iderw_step b tt) (fun _ _ _ => True) (Ctx [] []) s') /\
  (forall i b, y_threads x !! i = Some (IReady b) ->
     wp (iderw_step b tt) (fun r _ s'' => r = Done tt /\ s'' = s') (Ctx [LIde] []) s').
Proof.
  intros Hs Hr. destruct (ide_run_good _ _ _ Hr (ide_idle_inv s n Hs)) as [(l & Hq & Hts & Hone & Hl & Hph & Hirq) _].
  cbn zeta. split_and!.
  - intros i b Hi. destruct (Forall_lookup_1 _ _ _ _ Hts Hi) as (Hb & _).
    destruct l as [|b' l]; [now apply not_elem_of_nil in Hb|]. destruct (y_irq x); [now left|right].
    unfold working. rewrite Hph. unfold work. now destruct (dirty _).
  - intros Hi. destruct l as [|b l]; [now rewrite Hirq in Hi|]. destruct (Hl b) as [i Hb]; [left|]. rewrite Hi in Hph.
    apply (wp_ideintr b l _ (Ctx [] []) _ eq_refl Hq Hph).
    + apply Forall_forall. intros b' Hb'. destruct (Hl b') as [j Hj]; [now right|].
      now destruct (Forall_lookup_1 _ _ _ _ Hts Hj) as (_ & _ & ?).
    + intros d s1 _ _ _. exists i, b. split; [done|]. left.
  - intros i b Hi. destruct (Forall_lookup_1 _ _ _ _ Hts Hi) as (Hb & Hlt & Hreq).
    eapply wp_iderw_call; try done. intros ->. exact Hph.
  - intros i b Hi. destruct (Forall_lookup_1 _ _ _ _ Hts Hi) as (_ & _ & Hco). unfold complete in Hco.
    unfold iderw_step. wp_steps. rewrite Hco. wp_steps. done.
Qed.
End Driver.

(** * An error of the disk *)

(** When the disk reports that it could not read the block (the error bits of
    its status), ideintr leaves the old contents in the buffer and marks it valid
    all the same: iderw then returns, and bread hands out a block that was never
    read. *)
Theorem ide_read_error_ignored {D} `{IO D} spins b c (s : ide D) :
  held c = [] -> idequeue s = Some b -> nextof b s = None -> (b < length (ibufs s))%nat ->
  dirty (ibuf b s) = false ->
  ready (status 0 (idev s)) -> Z.land (status 0 (idev s)) (Z.lor IDE_DF IDE_ERR) <> 0 ->
  wp (ideintr (S spins))
    (fun _ _ s' => b_data (ibuf b s') = b_data (ibuf b s) /\ complete (ibuf b s') /\
       forall w, wp (iderw_step b tt) (fun r _ _ => r = Done tt) (Ctx [LIde] w) s') c s.
Proof.
  intros Hh Hq Hn Hb Hd Hr He. destruct c as [h w]. cbn [held] in Hh. subst h.
  unfold ideintr. wp_steps. rewrite Hq. wp_steps. rewrite Hn. change (ibuf b (set_idequeue None s)) with (ibuf b s).
  fold (dirty (ibuf b s)). rewrite Hd. cbn [negb]. unfold idewait. cbn [idewait_from]. repeat apply wp_bind. apply wp_io.
  unfold ready in Hr. cbn [status] in Hr, He. cbn [dev set_devs ide_devices idev set_idequeue].
  rewrite Hr, Z.eqb_refl. cbn [negb andb]. rewrite (proj2 (Z.eqb_neq _ _)) by done. cbn [negb]. wp_steps.
  change (0 <=? -1) with false. wp_steps. unfold imod. wp_steps. set (s1 := MkIde _ _ _ _ _).
  set (s2 := iset b _ s1). set (s3 := iset b _ s2).
  assert (E2 : ibuf b s2 = set_flags (Z.lor (b_flags (ibuf b s)) B_VALID) (ibuf b s)) by (unfold s2; now rewrite ibuf_alter).
  assert (E3 : ibuf b s3 = served (fun _ _ => b_data (ibuf b s)) (ibuf b s)).
  { unfold s3. rewrite ibuf_alter by (cbn; now rewrite length_alter). rewrite E2. unfold served. rewrite Hd.
    now destruct (ibuf b s). }
  change (idequeue s3) with (@None nat). rewrite bool_decide_true by done. cbn [negb]. wp_steps.
  assert (Hc : complete (ibuf b s3)) by (rewrite E3; apply served_complete). split_and!; [|done|].
  - rewrite E3. unfold served. now rewrite Hd.
  - intros w'. unfold iderw_step. wp_steps. unfold complete in Hc. rewrite Hc. wp_steps. done.
Qed.

(** * A disk

    A disk that follows the ATA interface, ready after one reading of its status. *)
Module SimDisk.

#[local] Instance sim_io : IO (ata * bool) := {|
  inb (_ : Z) (d : ata * bool) := if working d.1 then (IDE_BSY, d) else if d.2 then (IDE_DRDY, (d.1, false)) else (IDE_BSY, (d.1, true));
  outb p v d := (ata_outb p v d.1, d.2);
  insl _ n d :=
    match r_phase d.1 with
    | PData dr sec => (r_img d.1 dr sec, (set_phase PIdle d.1, d.2))
    | _ => (replicate (4 * n) 0, d)
    end;
  outsl _ bs d := (ata_outsl bs d.1, d.2);
  mmio_ld _ d := (0, d);
  mmio_st _ _ d := d
|}.

Lemma sim_status (d : ata * bool) k : working d.1 = false -> status k d = if Nat.even k then (if d.2 then IDE_DRDY else IDE_BSY) else
  (if d.2 then IDE_BSY else IDE_DRDY).
Proof.
  intros Hw. revert d Hw. induction k as [|k IH]; intros [a r] Hw; cbn [fst snd] in Hw.
  - cbn. rewrite Hw. now destruct r.
  - cbn [status]. cbn [inb sim_io fst snd]. rewrite Hw. rewrite Nat.even_succ, <- Nat.negb_even.
    destruct r; rewrite IH by done; cbn; now destruct (Nat.even k).
Qed.

#[local] Instance sim_ata : AtaDisk (ata * bool) 2.
Proof.
  refine {| view d := d.1; finish d := (ata_finish d.1, d.2) |}.
  - done.
  - done.
  - intros [a r]. cbn. destruct (working a), r; done.
  - intros dr sec [a r] Hp. cbn in *. now rewrite Hp.
  - done.
  - intros [a r] Hw. destruct r.
    + exists 0%nat. split; [lia|]. now rewrite sim_status.
    + exists 1%nat. split; [lia|]. now rewrite sim_status.
  - intros [a r] k Hw. rewrite sim_status by done. unfold ready.
    destruct (Nat.even k), r; cbn; done.
Defined.

Definition blank : image := fun _ _ => replicate 512 0.
Definition s0 : ide (ata * bool) :=
  MkIde (replicate 2 buf0) (replicate 2 None) None true (Ata 0 0 0 0 0 PIdle blank, false).

(** A request to write sector 5 of disk 1. *)
Definition req : buf := Buf B_DIRTY 1 5 true 1 0 0 (replicate 512 7).

Definition x1 : idesys := Idesys (with_buf 1 req s0) [ICall 1] false.
Definition s2 : ide (ata * bool) :=
  final s0 ((iderw_start 2 1 ;;; iderw_step 1 tt) (Ctx [] []) (y_ide x1)).
Definition s3 : ide (ata * bool) := with_dev (finish (idev s2)) s2.
Definition s4 : ide (ata * bool) := final s0 (ideintr 2 (Ctx [] []) s3).
Definition x5 : idesys := Idesys s4 [IBack 1] false.

Lemma run_to_3 :
  trace ide_step (Idesys s0 (replicate 1 IOut) false) [Called 0 1 req] (Idesys s3 [IAsleep 1] true).
Proof.
  apply (tr_step _ _ [] x1).
  { apply (is_prepare s0 [IOut] false 0 1 req); [done|cbn; lia|done|]. split_and!; vm_compute; auto; discriminate. }
  apply (tr_step _ _ [Called 0 1 req] (Idesys s2 [IAsleep 1] false)).
  { apply (is_sleep (y_ide x1) [ICall 1] false 0 1 (ChBuf 1) LIde (Ctx [LIde] []) s2); [done|]. vm_compute. reflexivity. }
  apply (tr_step _ _ [] (Idesys s3 [IAsleep 1] true)); [apply (is_finish s2 [IAsleep 1]); vm_compute; reflexivity|].
  apply tr_nil.
Qed.

(** The request as it was served: valid, and no longer dirty. *)
Definition req_done : buf := Buf B_VALID 1 5 true 1 0 0 (replicate 512 7).

Lemma run_to_5 :
  trace ide_step (Idesys s0 (replicate 1 IOut) false) [Called 0 1 req; Returned 0 1 req_done] x5.
Proof.
  apply (tr_step _ _ [] x1).
  { apply (is_prepare s0 [IOut] false 0 1 req); [done|cbn; lia|done|]. split_and!; vm_compute; auto; discriminate. }
  apply (tr_step _ _ [Called 0 1 req] (Idesys s2 [IAsleep 1] false)).
  { apply (is_sleep (y_ide x1) [ICall 1] false 0 1 (ChBuf 1) LIde (Ctx [LIde] []) s2); [done|]. vm_compute. reflexivity. }
  apply (tr_step _ _ [] (Idesys s3 [IAsleep 1] true)); [apply (is_finish s2 [IAsleep 1]); vm_compute; reflexivity|].
  apply (tr_step _ _ [] (Idesys s4 [IReady 1] false)).
  { apply (is_intr s3 [IAsleep 1] (Ctx [] [ChBuf 1]) s4). vm_compute. reflexivity. }
  apply (tr_step _ _ [Returned 0 1 req_done] x5); [|apply tr_nil].
  apply (is_return s4 [IReady 1] false 0 1 (Ctx [] []) s4); vm_compute; reflexivity.
Qed.

Lemma s0_idle : ide_idle s0.
Proof. done. Qed.

Lemma ide_refines_witness :
  trace abs_step (blank, [AOut]) [Called 0 1 req; Returned 0 1 req_done] (ide_abs x5) /\
  (ide_abs x5).1 1 5 = replicate 512 7.
Proof. split; [exact (ide_refines s0 1 _ x5 s0_idle run_to_5)|vm_compute; reflexivity]. Defined.

Lemma ide_no_lost_request_witness :
  wp (ideintr 2) (fun _ c _ => exists (i : nat) b, [IAsleep 1] !! i = Some (IAsleep b) /\ ChBuf b ∈ woken c) (Ctx [] []) s3.
Proof.
  exact (proj1 (proj2 (ide_no_lost_request s0 1 _ (Idesys s3 [IAsleep 1] true) s0_idle run_to_3)) eq_refl).
Defined.
End SimDisk.

(** A disk that always reports an error. *)
Module BrokenDisk.
#[local] Instance broken_io : IO unit := {|
  inb _ d := (Z.lor IDE_DRDY IDE_ERR, d);
  outb _ _ d := d;
  insl _ n d := (replicate (4 * n) 0, d);
  outsl _ _ d := d;
  mmio_ld _ d := (0, d);
  mmio_st _ _ d := d
|}.

Definition old : buf := Buf 0 1 5 true 1 0 0 (replicate 512 9).
Definition s0 : ide unit := MkIde [old] [None] (Some 0%nat) true tt.

Lemma ide_read_error_ignored_witness :
  wp (ideintr 1) (fun _ _ s' => b_data (ibuf 0 s') = replicate 512 9) (Ctx [] []) s0.
Proof.
  eapply wp_mono; [apply (ide_read_error_ignored 0 0 (Ctx [] []) s0); try done; cbn; lia|].
  cbn. intros _ _ s' (H & _). exact H.
Defined.
End BrokenDisk.
