(* ===== verification/Bio.v ===== *)
(** bio.c: the buffer cache.  The LRU list is kept at the level of its [prev] and
    [next] pointers; the lemmas relate it to a list of buffers, most recently
    used first. *)
From S2P Require Import Prelude Monad Mem Mmu Sleeplock Disk.

(** How many times a thread that waits for a sleep lock, or for room in the log,
    is woken up in vain before the model gives up on it. *)
Class Fuel : Type := wakeups : nat.

Section Bio.
Context `{Fuel}.

Definition binit : M bst unit :=
  bmod HEAD (set_prev HEAD) ;;;
  bmod HEAD (set_next HEAD) ;;;
  for_ (seq 0 NBUF) (fun b =>
    let* n := gets (fun s => b_next (bufof HEAD s)) in
    bmod b (set_next n) ;;;
    bmod b (set_prev HEAD) ;;;
    initsleeplock (SlBuf b) ;;;
    let* n := gets (fun s => b_next (bufof HEAD s)) in
    bmod n (set_prev b) ;;;
    bmod HEAD (set_next b)).

(** [for(b = bcache.head.next; b != &bcache.head; b = b->next)] up to the first
    match, and the same backwards; [n] bounds the length of the list. *)
Fixpoint find_next (n : nat) (p : buf -> bool) (b : nat) : M bst (option nat) :=
  match n with
  | O => fun _ _ => OutOfFuel
  | S n' =>
      if (b =? HEAD)%nat then ret None
      else
        let* q := gets (bufof b) in
        if p q then ret (Some b) else find_next n' p (b_next q)
  end.
Fixpoint find_prev (n : nat) (p : buf -> bool) (b : nat) : M bst (option nat) :=
  match n with
  | O => fun _ _ => OutOfFuel
  | S n' =>
      if (b =? HEAD)%nat then ret None
      else
        let* q := gets (bufof b) in
        if p q then ret (Some b) else find_prev n' p (b_prev q)
  end.

Definition is_block (dev blockno : Z) (q : buf) : bool := (b_dev q =? dev) && (b_blockno q =? blockno).
Definition unused (q : buf) : bool := (b_refcnt q =? 0) && (Z.land (b_flags q) B_DIRTY =? 0).

(** The part of [bget] under [bcache.lock]. *)
Definition bget_find (dev blockno : Z) : M bst nat :=
  acquire LBcache ;;;
  let* first := gets (fun s => b_next (bufof HEAD s)) in
  let* r := find_next (S NBUF) (is_block dev blockno) first in
  match r with
  | Some b =>
      bmod b (fun q => set_refcnt (u32 (b_refcnt q + 1)) q) ;;;
      release LBcache ;;;
      ret b
  | None =>
      let* last := gets (fun s => b_prev (bufof HEAD s)) in
      let* r := find_prev (S NBUF) unused last in
      match r with
      | Some b =>
          bmod b (set_dev dev) ;;;
          bmod b (set_blockno blockno) ;;;
          bmod b (set_flags 0) ;;;
          bmod b (set_refcnt 1) ;;;
          release LBcache ;;;
          ret b
      | None => panic "bget: no buffers"
      end
  end.

Definition bget (dev blockno : Z) : M bst nat :=
  let* b := bget_find dev blockno in
  acquiresleep wakeups (SlBuf b) ;;;
  ret b.

Definition bread (dev blockno : Z) : M bst nat :=
  let* b := bget dev blockno in
  let* q := gets (bufof b) in
  when (Z.land (b_flags q) B_VALID =? 0) (iderw b) ;;;
  ret b.

Definition bwrite (b : nat) : M bst unit :=
  let* h := holdingsleep (SlBuf b) in
  if negb h then panic "bwrite"
  else
    bmod b (fun q => set_flags (Z.lor (b_flags q) B_DIRTY) q) ;;;
    iderw b.

(** Unlink [b] and put it at the front of the list. *)
Definition move_front (b : nat) : M bst unit :=
  let* q := gets (bufof b) in
  bmod (b_next q) (set_prev (b_prev q)) ;;;
  let* q := gets (bufof b) in
  bmod (b_prev q) (set_next (b_next q)) ;;;
  let* h := gets (bufof HEAD) in
  bmod b (set_next (b_next h)) ;;;
  bmod b (set_prev HEAD) ;;;
  let* h := gets (bufof HEAD) in
  bmod (b_next h) (set_prev b) ;;;
  bmod HEAD (set_next b).

(** The part of [brelse] under [bcache.lock]. *)
Definition brelse_ref (b : nat) : M bst unit :=
  acquire LBcache ;;;
  bmod b (fun q => set_refcnt (u32 (b_refcnt q - 1)) q) ;;;
  let* q := gets (bufof b) in
  when (b_refcnt q =? 0) (move_front b) ;;;
  release LBcache.

Definition brelse (b : nat) : M bst unit :=
  let* h := holdingsleep (SlBuf b) in
  if negb h then panic "brelse"
  else releasesleep (SlBuf b) ;;; brelse_ref b.
End Bio.

(** Step through cache code, assignments to buffers included. *)
Ltac bio_step :=
  lazymatch goal with
  | |- wp (bmod _ _) _ _ _ => apply wp_modify
  | _ => wp_step
  end; cbn beta iota.
Ltac bio_steps := repeat (bio_step; simpl held; simpl woken).

(** * The linked list *)

(** [chain nx pv x l y]: from [x] the pointers [nx] lead through [l] to [y], and
    the pointers [pv] lead back. *)
Fixpoint chain (nx pv : nat -> nat) (x : nat) (l : list nat) (y : nat) : Prop :=
  match l with
  | [] => nx x = y /\ pv y = x
  | z :: l' => nx x = z /\ pv z = x /\ chain nx pv z l' y
  end.

Definition fupd (f : nat -> nat) (a v : nat) : nat -> nat := fun i => if (i =? a)%nat then v else f i.

Lemma fupd_eq f a v : fupd f a v a = v.
Proof. unfold fupd. now rewrite Nat.eqb_refl. Qed.
Lemma fupd_ne f a v i : i <> a -> fupd f a v i = f i.
Proof. intros Hne. unfold fupd. apply Nat.eqb_neq in Hne. now rewrite Hne. Qed.

Lemma links_ext nx pv nx' pv' x l y :
  (forall i, i ∈ x :: l -> nx' i = nx i) -> (forall i, i ∈ l ++ [y] -> pv' i = pv i) ->
  chain nx pv x l y -> chain nx' pv' x l y.
Proof.
  revert x. induction l as [|z l IH]; intros x Hn Hp; simpl.
  - rewrite (Hn x), (Hp y) by lmem. done.
  - rewrite (Hn x), (Hp z) by lmem. intros (? & ? & Hc). split_and!; try done.
    apply IH; try done; intros i Hi; [apply Hn|apply Hp]; lmem.
Qed.

Lemma links_app nx pv x l1 z l2 y :
  chain nx pv x (l1 ++ z :: l2) y <-> chain nx pv x l1 z /\ chain nx pv z l2 y.
Proof.
  revert x. induction l1 as [|a l1 IH]; intros x; simpl; [tauto|]. rewrite IH. tauto.
Qed.

Lemma chain_pred nx pv x l y : chain nx pv x l y -> pv y ∈ x :: l.
Proof.
  revert x. induction l as [|z l IH]; intros x; simpl.
  - intros [_ ->]. left.
  - intros (_ & _ & Hc). right. now apply IH.
Qed.

Lemma chain_succ nx pv x l y : chain nx pv x l y -> nx x ∈ l ++ [y].
Proof. destruct l as [|z l]; simpl; [intros [-> _]; left|intros (-> & _); left]. Qed.

(** The list without [b], and the list with [b] in front. *)
Lemma chain_unlink nx pv x l1 b l2 y :
  NoDup (x :: l1 ++ b :: l2) -> NoDup (l1 ++ b :: l2 ++ [y]) ->
  chain nx pv x (l1 ++ b :: l2) y ->
  chain (fupd nx (pv b) (nx b)) (fupd pv (nx b) (pv b)) x (l1 ++ l2) y.
Proof.
  intros N1 N2 Hc. revert x N1 N2 Hc. induction l1 as [|a l1 IH]; intros x N1 N2 Hc.
  - cbn [app chain] in *. destruct Hc as (Hx & Hb & Hc). rewrite Hb.
    destruct l2 as [|z l2]; cbn [chain app] in *.
    + destruct Hc as [-> _]. now rewrite !fupd_eq.
    + destruct Hc as (-> & _ & Hc). rewrite !fupd_eq. split_and!; try done.
      eapply links_ext; [| |exact Hc]; intros i Hi; apply fupd_ne; intros ->.
      * lmem.
      * lmem.
  - cbn [app chain] in *. destruct Hc as (Hx & Ha & Hc).
    apply NoDup_cons in N1 as [Nx N1]. apply NoDup_cons in N2 as [Na N2].
    pose proof (proj1 (links_app _ _ _ _ _ _ _) Hc) as [C1 C2].
    pose proof (chain_pred _ _ _ _ _ C1) as P1. pose proof (chain_succ _ _ _ _ _ C2) as P2.
    rewrite (fupd_ne nx), (fupd_ne pv); [|lmem..]. split_and!; try done. apply IH; done.
Qed.

Lemma chain_push nx pv x l b y :
  b ∉ l -> b <> x -> b <> y -> NoDup (x :: l) -> NoDup (l ++ [y]) ->
  chain nx pv x l y ->
  chain (fupd (fupd nx b (nx x)) x b) (fupd (fupd pv b x) (nx x) b) x (b :: l) y.
Proof.
  intros Hb Hbx Hby N1 N2 Hc. cbn [chain]. rewrite fupd_eq. split; [done|].
  apply NoDup_cons in N1 as [Nx N1].
  assert (Hs : nx x <> b).
  { pose proof (chain_succ _ _ _ _ _ Hc). lmem. }
  rewrite fupd_ne, fupd_eq by done. split; [done|].
  destruct l as [|z l]; cbn [chain] in *.
  - destruct Hc as [Hn _]. rewrite fupd_ne, fupd_eq by done. rewrite Hn, fupd_eq. done.
  - destruct Hc as (Hn & Hp & Hc). rewrite (fupd_ne _ x), !fupd_eq by done. rewrite Hn, fupd_eq.
    split_and!; try done. eapply links_ext; [| |exact Hc]; intros i Hi.
    + rewrite !fupd_ne; [done|lmem..].
    + cbn [app] in N2. apply NoDup_cons in N2 as [Nz N2]. rewrite !fupd_ne; [done|lmem..].
Qed.

Lemma chain_rev nx pv x l y : chain nx pv x l y -> chain pv nx y (rev l) x.
Proof.
  revert x. induction l as [|z l IH]; intros x; cbn [chain rev].
  - tauto.
  - intros (H1 & H2 & Hc). apply links_app. split; [now apply IH|]. now split.
Qed.

(** * The list of the cache *)

Definition nxt (s : bst) (i : nat) : nat := b_next (bufof i s).
Definition prv (s : bst) (i : nat) : nat := b_prev (bufof i s).

(** [l] lists the buffers, most recently used first. *)
Record lru (s : bst) (l : list nat) : Prop := {
  lru_len : length (bufs s) = S NBUF;
  lru_perm : l ≡ₚ seq 0 NBUF;
  lru_chain : chain (nxt s) (prv s) HEAD l HEAD
}.

Lemma lru_elem s l b : lru s l -> b ∈ l <-> (b < NBUF)%nat.
Proof. intros Hl. rewrite (lru_perm _ _ Hl), elem_of_seq. lia. Qed.

Lemma lru_nodup s l : lru s l -> NoDup (HEAD :: l) /\ NoDup (l ++ [HEAD]).
Proof.
  intros Hl. assert (N : NoDup (HEAD :: l)).
  { rewrite (lru_perm _ _ Hl). apply NoDup_cons. split; [|apply NoDup_seq].
    rewrite elem_of_seq. unfold HEAD. lia. }
  split; [done|]. rewrite (Permutation_app_comm l [HEAD]). exact N.
Qed.

(** Two states whose buffers differ in their links only. *)
Definition nolinks (q : buf) : buf := set_prev 0 (set_next 0 q).
Record same_bufs (s s' : bst) : Prop := {
  sb_buf : forall i, nolinks (bufof i s') = nolinks (bufof i s);
  sb_len : length (bufs s') = length (bufs s);
  sb_disk : disk s' = disk s;
  sb_trace : trace s' = trace s
}.

Lemma same_bufs_refl s : same_bufs s s.
Proof. now split. Qed.

Lemma same_bufs_trans s1 s2 s3 : same_bufs s1 s2 -> same_bufs s2 s3 -> same_bufs s1 s3.
Proof. intros [A1 A2 A3 A4] [B1 B2 B3 B4]. split; try congruence. Qed.

(** A change of a buffer that keeps its links, and one of its links alone. *)
Definition keeps_links (f : buf -> buf) : Prop := forall q, b_next (f q) = b_next q /\ b_prev (f q) = b_prev q.

Lemma lru_bset s l b f : keeps_links f -> lru s l -> lru (bset b f s) l.
Proof.
  intros Hf Hl. assert (E : forall i, nxt (bset b f s) i = nxt s i /\ prv (bset b f s) i = prv s i).
  { intros i. unfold nxt, prv. destruct (decide (b = i)) as [->|Hne]; [|now rewrite bufof_bset_ne].
    destruct (decide (i < length (bufs s))%nat).
    - rewrite bufof_bset_eq by done. apply Hf.
    - unfold bufof, bset, set_bufs; cbn. rewrite list_lookup_alter_eq.
      now rewrite lookup_ge_None_2 by lia. }
  split; [rewrite length_bset; apply Hl|apply Hl|].
  eapply links_ext; [| |apply (lru_chain _ _ Hl)]; intros i _; apply E.
Qed.

Lemma links_bset s b v :
  (b < length (bufs s))%nat ->
  (forall i, nxt (bset b (set_next v) s) i = fupd (nxt s) b v i) /\
  (forall i, prv (bset b (set_next v) s) i = prv s i) /\
  (forall i, prv (bset b (set_prev v) s) i = fupd (prv s) b v i) /\
  (forall i, nxt (bset b (set_prev v) s) i = nxt s i) /\
  same_bufs s (bset b (set_next v) s) /\ same_bufs s (bset b (set_prev v) s).
Proof.
  intros Hb. unfold nxt, prv, fupd.
  split_and!; try (intros i; destruct (Nat.eqb_spec i b) as [->|Hne];
    [now rewrite bufof_bset_eq|now rewrite bufof_bset_ne by congruence]);
  (split; [|apply length_bset|done..]); intros i; (destruct (decide (b = i)) as [->|Hne];
    [now rewrite bufof_bset_eq|now rewrite bufof_bset_ne]).
Qed.

(** * Searching *)

(** The first buffer of [l] with the property. *)
Fixpoint ffind (s : bst) (p : buf -> bool) (l : list nat) : option nat :=
  match l with
  | [] => None
  | b :: l' => if p (bufof b s) then Some b else ffind s p l'
  end.

Lemma ffind_Some s p l b : ffind s p l = Some b -> b ∈ l /\ p (bufof b s) = true.
Proof.
  induction l as [|x l IH]; simpl; [done|]. destruct (p (bufof x s)) eqn:E.
  - intros [= ->]. split; [left|done].
  - intros Hf. apply IH in Hf as [? ?]. split; [now right|done].
Qed.

Lemma ffind_None s p l : ffind s p l = None <-> forall b, b ∈ l -> p (bufof b s) = false.
Proof.
  induction l as [|x l IH]; simpl.
  - split; [|done]. intros _ b Hb. now apply elem_of_nil in Hb.
  - destruct (p (bufof x s)) eqn:E.
    + split; [done|]. intros Hn. rewrite Hn in E by left. done.
    + rewrite IH. split.
      * intros Hn b Hb. apply elem_of_cons in Hb as [->|Hb]; auto.
      * intros Hn b Hb. apply Hn. now right.
Qed.

Lemma wp_find_next n p x l pv s (Q : option nat -> ctx -> bst -> Prop) c :
  chain (nxt s) pv x l HEAD -> (HEAD ∉ l) -> (length l < n)%nat ->
  Q (ffind s p l) c s -> wp (find_next n p (nxt s x)) Q c s.
Proof.
  revert x l. induction n as [|n IH]; intros x l Hc Hh Hn HQ; [lia|]. cbn [find_next].
  destruct l as [|z l]; cbn [chain] in Hc.
  - destruct Hc as [-> _]. rewrite Nat.eqb_refl. exact HQ.
  - destruct Hc as (-> & _ & Hc). apply not_elem_of_cons in Hh as [Hz Hh].
    destruct (Nat.eqb_spec z HEAD); [congruence|]. wp_steps. cbn [ffind] in HQ.
    destruct (p (bufof z s)); [exact HQ|]. apply (IH z l); [done..| |done]. simpl in Hn. lia.
Qed.

Lemma wp_find_prev n p x l nx s (Q : option nat -> ctx -> bst -> Prop) c :
  chain (prv s) nx x l HEAD -> (HEAD ∉ l) -> (length l < n)%nat ->
  Q (ffind s p l) c s -> wp (find_prev n p (prv s x)) Q c s.
Proof.
  revert x l. induction n as [|n IH]; intros x l Hc Hh Hn HQ; [lia|]. cbn [find_prev].
  destruct l as [|z l]; cbn [chain] in Hc.
  - destruct Hc as [-> _]. rewrite Nat.eqb_refl. exact HQ.
  - destruct Hc as (-> & _ & Hc). apply not_elem_of_cons in Hh as [Hz Hh].
    destruct (Nat.eqb_spec z HEAD); [congruence|]. wp_steps. cbn [ffind] in HQ.
    destruct (p (bufof z s)); [exact HQ|]. apply (IH z l); [done..| |done]. simpl in Hn. lia.
Qed.

(** * The operations on the list *)

Definition unlink_state (b : nat) (s : bst) : bst :=
  let s1 := bset (nxt s b) (set_prev (prv s b)) s in
  bset (prv s1 b) (set_next (nxt s1 b)) s1.

Definition push_state (b : nat) (s : bst) : bst :=
  let s3 := bset b (set_next (nxt s HEAD)) s in
  let s4 := bset b (set_prev HEAD) s3 in
  let s5 := bset (nxt s4 HEAD) (set_prev b) s4 in
  bset HEAD (set_next b) s5.

Lemma wp_move_front b s (Q : unit -> ctx -> bst -> Prop) c :
  Q tt c (push_state b (unlink_state b s)) -> wp (move_front b) Q c s.
Proof. done. Qed.

(** Unlinking [b]. *)
Lemma unlink_lru s l1 b l2 :
  lru s (l1 ++ b :: l2) ->
  let s2 := unlink_state b s in
  chain (nxt s2) (prv s2) HEAD (l1 ++ l2) HEAD /\ same_bufs s s2.
Proof.
  intros Hl s2. set (s1 := bset (nxt s b) (set_prev (prv s b)) s). destruct (lru_nodup _ _ Hl) as [N1 N2]. pose proof (lru_chain _ _ Hl) as Hc.
  assert (Hlt : forall i, i ∈ HEAD :: l1 ++ b :: l2 -> (i < length (bufs s))%nat).
  { intros i Hi. rewrite (lru_len _ _ Hl). apply elem_of_cons in Hi as [->|Hi]; [unfold HEAD; lia|].
    apply (lru_elem _ _ _ Hl) in Hi. lia. }
  destruct (proj1 (links_app _ _ _ _ _ _ _) Hc) as [C1 C2].
  pose proof (chain_pred _ _ _ _ _ C1) as P1. pose proof (chain_succ _ _ _ _ _ C2) as P2.
  destruct (links_bset s (nxt s b) (prv s b)) as (_ & _ & E1 & E2 & _ & S1); [apply Hlt; lmem|].
  fold s1 in E1, E2, S1.
  assert (Hnb : nxt s b <> b).
  { rewrite <- app_assoc in N2. apply NoDup_app in N2 as (_ & _ & N2). cbn [app] in N2. lmem. }
  assert (Ep : prv s1 b = prv s b) by (rewrite E1; apply fupd_ne; congruence).
  destruct (links_bset s1 (prv s1 b) (nxt s1 b)) as (E3 & E4 & _ & _ & S2 & _).
  { rewrite Ep, (sb_len _ _ S1). apply Hlt. lmem. }
  change (bset (prv s1 b) _ s1) with s2 in E3, E4, S2.
  split; [|eapply same_bufs_trans; eassumption].
  rewrite <- app_assoc in N2. cbn [app] in N2.
  eapply links_ext; [| |apply (chain_unlink _ _ _ _ _ _ _ N1 N2 Hc)]; intros i _; cbv beta.
  - rewrite E3, Ep, E2. unfold fupd. now rewrite E2.
  - now rewrite E4, E1.
Qed.

(** Putting [b] in front. *)
Lemma push_lru s l b :
  chain (nxt s) (prv s) HEAD l HEAD -> length (bufs s) = S NBUF ->
  b ∉ l -> (b < NBUF)%nat -> NoDup l -> (forall i, i ∈ l -> (i < NBUF)%nat) ->
  let s' := push_state b s in
  chain (nxt s') (prv s') HEAD (b :: l) HEAD /\ same_bufs s s'.
Proof.
  intros Hc Hlen Hbl Hb Hnd Hlt. assert (Hbh : b <> HEAD) by (unfold HEAD; lia).
  assert (Hh : HEAD ∉ l) by (intros Hin; apply Hlt in Hin; unfold HEAD in Hin; lia).
  assert (M2 : NoDup (l ++ [HEAD])).
  { rewrite (Permutation_app_comm l [HEAD]). now apply NoDup_cons. }
  assert (Hn2 : (nxt s HEAD < length (bufs s))%nat).
  { pose proof (chain_succ _ _ _ _ _ Hc) as P. rewrite Hlen.
    assert (nxt s HEAD ∈ l \/ nxt s HEAD = HEAD) as [P'| ->] by lmem; [|unfold HEAD; lia].
    apply Hlt in P'. lia. }
  unfold push_state. destruct (links_bset s b (nxt s HEAD)) as (A1 & A2 & _ & _ & S3 & _); [lia|].
  set (s3 := bset b _ s) in *.
  destruct (links_bset s3 b HEAD) as (_ & _ & B1 & B2 & _ & S4); [rewrite (sb_len _ _ S3); lia|].
  set (s4 := bset b _ s3) in *.
  assert (E4 : nxt s4 HEAD = nxt s HEAD) by (rewrite B2, A1; apply fupd_ne; congruence).
  rewrite E4. destruct (links_bset s4 (nxt s HEAD) b) as (_ & _ & D1 & D2 & _ & S5).
  { rewrite (sb_len _ _ S4), (sb_len _ _ S3). lia. }
  set (s5 := bset (nxt s HEAD) _ s4) in *.
  destruct (links_bset s5 HEAD b) as (G1 & G2 & _ & _ & S6 & _).
  { rewrite (sb_len _ _ S5), (sb_len _ _ S4), (sb_len _ _ S3), Hlen. unfold HEAD; lia. }
  cbv zeta. set (s6 := bset HEAD _ s5) in *. split; [|eauto 8 using same_bufs_trans].
  eapply links_ext; [| |apply (chain_push (nxt s) (prv s) HEAD l b HEAD); try done; now apply NoDup_cons];
    intros i _.
  - rewrite G1. unfold fupd. destruct (i =? HEAD)%nat; [done|]. now rewrite D2, B2, A1.
  - rewrite G2, D1. unfold fupd. destruct (i =? nxt s HEAD)%nat; [done|]. rewrite B1. unfold fupd.
    destruct (i =? b)%nat; [done|]. apply A2.
Qed.

Lemma move_front_lru s l1 b l2 :
  lru s (l1 ++ b :: l2) ->
  let s' := push_state b (unlink_state b s) in
  lru s' (b :: l1 ++ l2) /\ same_bufs s s'.
Proof.
  intros Hl. destruct (unlink_lru _ _ _ _ Hl) as [Hc S2]. destruct (lru_nodup _ _ Hl) as [N1 _].
  assert (Hp : l1 ++ b :: l2 ≡ₚ b :: l1 ++ l2) by (symmetry; apply Permutation_middle).
  rewrite Hp in N1. apply NoDup_cons in N1 as [Nh N1]. apply NoDup_cons in N1 as [Nb N1].
  destruct (push_lru (unlink_state b s) (l1 ++ l2) b) as [C' S']; try done.
  - rewrite (sb_len _ _ S2). apply Hl.
  - apply (lru_elem _ _ _ Hl). lmem.
  - intros i Hi. apply (lru_elem _ _ _ Hl). lmem.
  - cbv zeta in *. split; [|eapply same_bufs_trans; eassumption]. split.
    + rewrite (sb_len _ _ S'), (sb_len _ _ S2). apply Hl.
    + rewrite <- Hp. apply Hl.
    + exact C'.
Qed.

(** What [bget_find] does to the buffer it takes: one more reference to a
    cached block, or a recycled buffer. *)
Definition addref (q : buf) : buf := set_refcnt (u32 (b_refcnt q + 1)) q.
Definition recycle (dev blockno : Z) (q : buf) : buf :=
  set_refcnt 1 (set_flags 0 (set_blockno blockno (set_dev dev q))).

Lemma bset_bset b f g s : bset b f (bset b g s) = bset b (fun q => f (g q)) s.
Proof.
  unfold bset, set_bufs; cbn. f_equal. apply list_eq. intros i.
  destruct (decide (b = i)) as [->|Hne].
  - rewrite !list_lookup_alter_eq. now destruct (bufs s !! i).
  - now rewrite !list_lookup_alter_ne.
Qed.

(** The buffer that [bget_find] chooses: the one that caches the block, else the
    least recently used one that is unused. *)
Definition bget_choice (dev blockno : Z) (s : bst) (l : list nat) : option (nat * bst) :=
  match ffind s (is_block dev blockno) l with
  | Some b => Some (b, bset b addref s)
  | None =>
      match ffind s unused (rev l) with
      | Some b => Some (b, bset b (recycle dev blockno) s)
      | None => None
      end
  end.

Lemma wp_bget_find dev blockno s l (Q : nat -> ctx -> bst -> Prop) c b s' :
  lru s l -> LBcache ∉ held c -> bget_choice dev blockno s l = Some (b, s') -> Q b c s' ->
  wp (bget_find dev blockno) Q c s.
Proof.
  intros Hl Hc E HQ. destruct (lru_nodup _ _ Hl) as [N1 _]. apply NoDup_cons in N1 as [Nh _].
  assert (Hlen : length l = NBUF) by (rewrite (lru_perm _ _ Hl); apply length_seq).
  destruct c as [h w]. unfold bget_find. bio_steps.
  eapply wp_find_next; [apply (lru_chain _ _ Hl)|done|lia|]. unfold bget_choice in E.
  destruct (ffind s (is_block dev blockno) l) as [b'|].
  { injection E as -> <-. bio_steps. exact HQ. }
  bio_steps. eapply wp_find_prev.
  - apply chain_rev, (lru_chain _ _ Hl).
  - intros Hin. apply Nh. apply list_elem_of_In. apply in_rev. now apply list_elem_of_In.
  - rewrite length_rev. lia.
  - destruct (ffind s unused (rev l)) as [b'|]; [|done]. injection E as -> <-.
    bio_steps. rewrite !bset_bset. exact HQ.
Qed.

(** [brelse_ref] drops a reference, and moves the buffer to the front when that
    was the last one. *)
Definition dropref (q : buf) : buf := set_refcnt (u32 (b_refcnt q - 1)) q.
Definition brelse_state (b : nat) (s : bst) : bst :=
  let s1 := bset b dropref s in
  if b_refcnt (bufof b s1) =? 0 then push_state b (unlink_state b s1) else s1.

Lemma wp_brelse_ref b s (Q : unit -> ctx -> bst -> Prop) c :
  LBcache ∉ held c -> Q tt c (brelse_state b s) -> wp (brelse_ref b) Q c s.
Proof.
  intros Hc HQ. destruct c as [h w]. unfold brelse_ref. bio_steps. fold dropref. unfold brelse_state in HQ.
  destruct (b_refcnt (bufof b (bset b dropref s)) =? 0).
  - apply wp_move_front. bio_steps. exact HQ.
  - bio_steps. exact HQ.
Qed.

Lemma brelse_lru b s l :
  lru s l -> (b < NBUF)%nat ->
  (exists l', lru (brelse_state b s) l') /\ same_bufs (bset b dropref s) (brelse_state b s).
Proof.
  intros Hl Hb. unfold brelse_state. set (s1 := bset b dropref s).
  assert (H1 : lru s1 l) by now apply lru_bset.
  destruct (_ =? 0); [|split; [eauto|apply same_bufs_refl]].
  assert (Hin : b ∈ l) by now apply (lru_elem _ _ _ H1).
  apply list_elem_of_split in Hin as (l1 & l2 & ->).
  destruct (move_front_lru _ _ _ _ H1) as [? ?]. eauto.
Qed.

(** ** binit *)

(** One round of the loop of [binit]. *)
Definition binit_step (b : nat) (s : bst) : bst := push_state b (bset b (set_locked false) s).

Lemma rev_seq_S k : rev (seq 0 (S k)) = k :: rev (seq 0 k).
Proof. rewrite seq_S, rev_app_distr. done. Qed.

Lemma elem_of_rev_seq i k : i ∈ rev (seq 0 k) <-> (i < k)%nat.
Proof. rewrite list_elem_of_In, <- in_rev, in_seq. lia. Qed.

Lemma nodup_rev_seq k : NoDup (rev (seq 0 k)).
Proof. rewrite <- Permutation_rev. apply NoDup_seq. Qed.

(** After [k] rounds. *)
Definition binit_inv (s0 : bst) (k : nat) (s : bst) : Prop :=
  chain (nxt s) (prv s) HEAD (rev (seq 0 k)) HEAD /\ length (bufs s) = S NBUF /\
  disk s = disk s0 /\ trace s = trace s0 /\
  forall i, (i < NBUF)%nat -> nolinks (bufof i s) =
    nolinks (if (i <? k)%nat then set_locked false (bufof i s0) else bufof i s0).

Lemma binit_step_inv s0 k s : (k < NBUF)%nat -> binit_inv s0 k s -> binit_inv s0 (S k) (binit_step k s).
Proof.
  intros Hk (Hc & Hlen & Hd & Ht & Hb). unfold binit_step. set (s1 := bset k (set_locked false) s).
  assert (H1 : chain (nxt s1) (prv s1) HEAD (rev (seq 0 k)) HEAD).
  { eapply links_ext; [| |exact Hc]; intros i _; unfold nxt, prv, s1;
      (destruct (decide (k = i)) as [->|Hne]; [rewrite bufof_bset_eq by lia|rewrite bufof_bset_ne by done]; done). }
  destruct (push_lru s1 (rev (seq 0 k)) k H1) as [C' S'].
  - unfold s1. now rewrite length_bset.
  - rewrite elem_of_rev_seq. lia.
  - done.
  - apply nodup_rev_seq.
  - intros i. rewrite elem_of_rev_seq. lia.
  - cbv zeta in *. split_and!.
    + now rewrite rev_seq_S.
    + rewrite (sb_len _ _ S'). unfold s1. now rewrite length_bset.
    + now rewrite (sb_disk _ _ S').
    + now rewrite (sb_trace _ _ S').
    + intros i Hi. rewrite (sb_buf _ _ S'). unfold s1. specialize (Hb i Hi).
      destruct (decide (k = i)) as [->|Hne].
      * rewrite bufof_bset_eq by lia. rewrite (proj2 (Nat.ltb_lt _ _)) by lia.
        rewrite (proj2 (Nat.ltb_ge _ _)) in Hb by lia.
        destruct (bufof i s), (bufof i s0). unfold nolinks, set_locked, set_prev, set_next in *. cbn in *. congruence.
      * rewrite bufof_bset_ne, Hb by done.
        destruct (Nat.ltb_spec i k), (Nat.ltb_spec i (S k)); lia || done.
Qed.

Lemma wp_binit_loop s0 n k s c :
  (k + n = NBUF)%nat -> binit_inv s0 k s ->
  wp (for_ (seq k n) (fun b =>
    let* n := gets (fun s => b_next (bufof HEAD s)) in
    bmod b (set_next n) ;;;
    bmod b (set_prev HEAD) ;;;
    initsleeplock (SlBuf b) ;;;
    let* n := gets (fun s => b_next (bufof HEAD s)) in
    bmod n (set_prev b) ;;;
    bmod HEAD (set_next b))) (fun _ c' s' => c' = c /\ binit_inv s0 NBUF s') c s.
Proof.
  revert k s. induction n as [|n IH]; intros k s Hk HI.
  - replace k with NBUF in HI by lia. done.
  - cbn [for_ seq]. unfold initsleeplock. bio_steps. cbn [sl_set bst_locks].
    match goal with |- wp _ _ _ ?s' => replace s' with (binit_step k s) end.
    { apply IH; [lia|]. apply binit_step_inv; [lia|done]. }
    unfold binit_step, push_state. rewrite !bset_bset. unfold nxt.
    assert (E : b_next (bufof HEAD (bset k (set_locked false) s)) = b_next (bufof HEAD s)).
    { rewrite bufof_bset_ne; [done|unfold HEAD; lia]. }
    now rewrite E.
Qed.

Lemma wp_binit s c :
  length (bufs s) = S NBUF ->
  wp binit (fun _ c' s' => c' = c /\ lru s' (rev (seq 0 NBUF)) /\ binit_inv s NBUF s') c s.
Proof.
  intros Hlen. unfold binit. bio_steps. eapply wp_mono; [apply (wp_binit_loop s); [done|]|].
  - rewrite bset_bset. split_and!.
    + cbn. unfold nxt, prv. rewrite bufof_bset_eq by (rewrite Hlen; unfold HEAD; lia). done.
    + now rewrite length_bset.
    + done.
    + done.
    + intros i Hi. rewrite bufof_bset_ne by (unfold HEAD; lia). done.
  - intros _ c' s' [-> HI]. split_and!; try done. destruct HI as (Hc & Hl & _). split; try done.
    apply Permutation_sym, Permutation_rev.
Qed.

(** The zeroed memory of the cache, on a machine with disk [d]. *)
Definition boot_bufs (d : list block) : bst := Bst (replicate (S NBUF) buf0) d [].

Lemma bufof_boot i d : bufof i (boot_bufs d) = buf0.
Proof.
  unfold bufof, boot_bufs; cbn [bufs]. destruct (replicate (S NBUF) buf0 !! i) eqn:E; [|done].
  now apply lookup_replicate in E as [-> _].
Qed.
