(* ===== verification/BioThreads.v ===== *)
(** Several threads using the buffer cache (bio.c): their code is cut at the
    points where another thread can run, and the invariant shows that a block has
    one buffer and a buffer one user at a time. *)
From S2P Require Import Prelude Monad Mem Mmu Sleeplock Disk Bio.

(** A thread outside the cache; with a reference to buffer [b] obtained for
    block [bno] of [dev], waiting for its lock; holding the lock; or having
    released it in [brelse] with the reference still to drop. *)
Inductive bthread : Type :=
| BIdle
| BWait (b : nat) (dev bno : Z)
| BHold (b : nat) (dev bno : Z)
| BDrop (b : nat) (dev bno : Z).

(** The reference a thread has. *)
Definition bref (t : bthread) : option (nat * Z * Z) :=
  match t with
  | BIdle => None
  | BWait b d n | BHold b d n | BDrop b d n => Some (b, d, n)
  end.

(** One stretch of one thread: [bget] up to [acquiresleep], [acquiresleep] when
    the lock is free, [bwrite] or the read of [bread] or a change of the data or
    of the dirty flag (log_write) under the lock, and the two halves of
    [brelse]. *)
Inductive bio_move : bst -> bthread -> bst -> bthread -> Prop :=
| bm_get s dev bno b c s' : dev <> 0 ->
    bget_find dev bno (Ctx [] []) s = Ret b c s' -> bio_move s BIdle s' (BWait b dev bno)
| bm_lock s b dev bno c s' :
    acquiresleep_step (SlBuf b) tt (Ctx [LSleep (SlBuf b)] []) s = Ret (Done tt) c s' ->
    bio_move s (BWait b dev bno) s' (BHold b dev bno)
| bm_read s b dev bno c s' :
    iderw b (Ctx [] []) s = Ret tt c s' -> bio_move s (BHold b dev bno) s' (BHold b dev bno)
| bm_write s b dev bno c s' :
    bwrite b (Ctx [] []) s = Ret tt c s' -> bio_move s (BHold b dev bno) s' (BHold b dev bno)
| bm_data s b dev bno d :
    bio_move s (BHold b dev bno) (bset b (set_data d) s) (BHold b dev bno)
| bm_dirty s b dev bno :
    bio_move s (BHold b dev bno) (bset b (fun q => set_flags (Z.lor (b_flags q) B_DIRTY) q) s) (BHold b dev bno)
| bm_unlock s b dev bno c s' :
    releasesleep (SlBuf b) (Ctx [] []) s = Ret tt c s' -> bio_move s (BHold b dev bno) s' (BDrop b dev bno)
| bm_drop s b dev bno c s' :
    brelse_ref b (Ctx [] []) s = Ret tt c s' -> bio_move s (BDrop b dev bno) s' BIdle.

Inductive bio_step : bst * list bthread -> bst * list bthread -> Prop :=
| bio_step_i s ts i t s' t' : ts !! i = Some t -> bio_move s t s' t' ->
    bio_step (s, ts) (s', <[i := t']> ts).

(** * Counting references *)

Definition has_ref (b : nat) (t : bthread) : Z :=
  match bref t with
  | Some (b', _, _) => if decide (b' = b) then 1 else 0
  | None => 0
  end.
Fixpoint refs (b : nat) (ts : list bthread) : Z :=
  match ts with
  | [] => 0
  | t :: ts' => has_ref b t + refs b ts'
  end.

Lemma has_ref_range b t : 0 <= has_ref b t <= 1.
Proof. unfold has_ref. destruct (bref t) as [[[b' ?] ?]|]; [destruct (decide _)|]; lia. Qed.

Lemma refs_range b ts : 0 <= refs b ts <= Z.of_nat (length ts).
Proof. induction ts as [|t ts IH]; simpl; [lia|]. pose proof (has_ref_range b t). lia. Qed.

Lemma refs_insert b ts (i : nat) t t' :
  ts !! i = Some t -> refs b (<[i := t']> ts) = refs b ts - has_ref b t + has_ref b t'.
Proof.
  revert i. induction ts as [|x ts IH]; intros i Hi; [done|]. destruct i as [|i]; simpl in *.
  - injection Hi as ->. lia.
  - rewrite (IH i) by done. lia.
Qed.

Lemma refs_lookup b ts (i : nat) t : ts !! i = Some t -> has_ref b t <= refs b ts.
Proof.
  revert i. induction ts as [|x ts IH]; intros i Hi; [done|]. destruct i as [|i]; simpl in *.
  - injection Hi as ->. pose proof (refs_range b ts). lia.
  - specialize (IH _ Hi). pose proof (has_ref_range b x). lia.
Qed.

(** * The invariant *)

Record bio_inv (s : bst) (ts : list bthread) : Prop := {
  bi_lru : exists l, lru s l;
  bi_uniq : forall i j, (i < NBUF)%nat -> (j < NBUF)%nat -> b_dev (bufof i s) <> 0 ->
    b_dev (bufof i s) = b_dev (bufof j s) -> b_blockno (bufof i s) = b_blockno (bufof j s) -> i = j;
  bi_refs : forall b, (b < NBUF)%nat -> b_refcnt (bufof b s) = refs b ts;
  bi_key : forall (i : nat) t b dev bno, ts !! i = Some t -> bref t = Some (b, dev, bno) ->
    (b < NBUF)%nat /\ dev <> 0 /\ b_dev (bufof b s) = dev /\ b_blockno (bufof b s) = bno;
  bi_lock : forall (i : nat) b dev bno, ts !! i = Some (BHold b dev bno) -> b_locked (bufof b s) = true;
  bi_excl : forall (i j : nat) b d1 n1 d2 n2,
    ts !! i = Some (BHold b d1 n1) -> ts !! j = Some (BHold b d2 n2) -> i = j
}.

(** Two cache states that agree on what the invariant reads but for the words of
    the lock and of the reference count of buffer [b]. *)
Record quiet (b : nat) (s s' : bst) : Prop := {
  qu_lru : exists l, lru s' l;
  qu_key : forall i, b_dev (bufof i s') = b_dev (bufof i s) /\ b_blockno (bufof i s') = b_blockno (bufof i s);
  qu_rest : forall i, i <> b ->
    b_refcnt (bufof i s') = b_refcnt (bufof i s) /\ b_locked (bufof i s') = b_locked (bufof i s)
}.

Lemma quiet_bset b f s l :
  lru s l -> keeps_links f -> (forall q, b_dev (f q) = b_dev q /\ b_blockno (f q) = b_blockno q) ->
  quiet b s (bset b f s).
Proof.
  intros Hl Hf Hk. split.
  - exists l. now apply lru_bset.
  - intros i. destruct (decide (b = i)) as [->|]; [|now rewrite bufof_bset_ne].
    destruct (decide (i < length (bufs s))%nat); [rewrite bufof_bset_eq by done; apply Hk|].
    unfold bufof, bset, set_bufs; cbn. rewrite list_lookup_alter_eq. now rewrite lookup_ge_None_2 by lia.
  - intros i Hi. now rewrite bufof_bset_ne by done.
Qed.

Definition holds (t : bthread) : bool := match t with BHold _ _ _ => true | _ => false end.

(** The word of the lock of [b] when a thread goes from [t] to [t']. *)
Definition lock_moves (t t' : bthread) (l l' : bool) : Prop :=
  match holds t, holds t' with
  | true, true => l' = true
  | false, true => l = false /\ l' = true
  | true, false => True
  | false, false => l' = l
  end.

Lemma has_ref_other b b' t : (forall x d n, bref t = Some (x, d, n) -> x = b) -> b' <> b -> has_ref b' t = 0.
Proof.
  intros Ht Hne. unfold has_ref. destruct (bref t) as [[[x d] n]|]; [|done].
  rewrite (Ht x d n) by done. destruct (decide _); congruence.
Qed.

Lemma lookup_insert_cases {A} (l : list A) (i j : nat) x y :
  <[i := x]> l !! j = Some y -> i = j /\ x = y \/ i <> j /\ l !! j = Some y.
Proof. intros E. apply list_lookup_insert_Some in E as [(? & ? & _)|[? ?]]; auto. Qed.

(** A thread moves within the references it has to one buffer. *)
Lemma inv_quiet s ts (i : nat) t s' t' b :
  bio_inv s ts -> ts !! i = Some t -> quiet b s s' ->
  (forall x d n, bref t = Some (x, d, n) -> x = b) ->
  (forall x d n, bref t' = Some (x, d, n) ->
     x = b /\ (b < NBUF)%nat /\ d <> 0 /\ b_dev (bufof b s) = d /\ b_blockno (bufof b s) = n) ->
  ((b < NBUF)%nat -> b_refcnt (bufof b s') = b_refcnt (bufof b s) - has_ref b t + has_ref b t') ->
  lock_moves t t' (b_locked (bufof b s)) (b_locked (bufof b s')) ->
  bio_inv s' (<[i := t']> ts).
Proof.
  intros [Il Iu Ir Ik Io Ie] Hi [Ql Qk Qr] Ht Ht' Hr Hl. split.
  - exact Ql.
  - intros x y Hx Hy. destruct (Qk x) as [-> ->], (Qk y) as [-> ->]. now apply Iu.
  - intros x Hx. rewrite (refs_insert _ _ _ _ _ Hi). destruct (decide (x = b)) as [->|Hne].
    + rewrite Hr, Ir by done. done.
    + rewrite (proj1 (Qr x Hne)), Ir by done. rewrite (has_ref_other b x t) by done.
      rewrite (has_ref_other b x t'); [lia| |done]. intros ? ? ? E. now apply Ht' in E.
  - intros j t1 x d n Hj E. apply lookup_insert_cases in Hj as [[<- <-]|[Hne Hj]].
    + apply Ht' in E as (-> & ? & ? & ? & ?). destruct (Qk b) as [-> ->]. done.
    + destruct (Ik _ _ _ _ _ Hj E) as (? & ? & ? & ?). destruct (Qk x) as [-> ->]. done.
  - intros j x d n Hj. apply lookup_insert_cases in Hj as [[<- ->]|[Hne Hj]].
    + destruct (Ht' _ _ _ eq_refl) as [-> _]. unfold lock_moves in Hl. cbn in Hl. destruct (holds t); tauto.
    + destruct (decide (x = b)) as [->|Hxb]; [|rewrite (proj2 (Qr x Hxb)); eauto].
      unfold lock_moves in Hl. pose proof (Io _ _ _ _ Hj) as L.
      destruct (holds t) eqn:E1, (holds t') eqn:E2; try tauto; [|congruence].
      exfalso. apply Hne. destruct t as [|?|b1 d1 n1|?]; try done.
      rewrite (Ht _ _ _ eq_refl) in Hi. symmetry. eapply Ie; eauto.
  - intros j k x d1 n1 d2 n2 Hj Hk.
    apply lookup_insert_cases in Hj as [[<- ->]|[Hne Hj]], Hk as [[<- E]|[Hne' Hk]]; try done.
    + exfalso. destruct (Ht' _ _ _ eq_refl) as [-> _]. unfold lock_moves in Hl. cbn in Hl.
      pose proof (Io _ _ _ _ Hk) as L. destruct (holds t) eqn:E1; [|destruct Hl; congruence].
      destruct t as [|?|b1 ? ?|?]; try done. rewrite (Ht _ _ _ eq_refl) in Hi. apply Hne'. eapply Ie; eauto.
    + exfalso. subst t'. destruct (Ht' _ _ _ eq_refl) as [-> _]. unfold lock_moves in Hl. cbn in Hl.
      pose proof (Io _ _ _ _ Hj) as L. destruct (holds t) eqn:E1; [|destruct Hl; congruence].
      destruct t as [|?|b1 ? ?|?]; try done. rewrite (Ht _ _ _ eq_refl) in Hi. apply Hne. eapply Ie; eauto.
    + eapply Ie; eauto.
Qed.

(** A thread takes an unused buffer for a block that no buffer caches. *)
Lemma inv_recycle s ts (i : nat) dev bno b l :
  bio_inv s ts -> ts !! i = Some BIdle -> lru s l -> (b < NBUF)%nat -> unused (bufof b s) = true ->
  dev <> 0 -> (forall j, (j < NBUF)%nat -> is_block dev bno (bufof j s) = false) ->
  bio_inv (bset b (recycle dev bno) s) (<[i := BWait b dev bno]> ts).
Proof.
  intros [Il Iu Ir Ik Io Ie] Hi Hl Hb Hun Hdev Hno. unfold unused in Hun. zbool.
  pose proof (lru_len _ _ Hl) as Hlen.
  assert (E : bufof b (bset b (recycle dev bno) s) = recycle dev bno (bufof b s)) by (apply bufof_bset_eq; lia).
  assert (Hfree : forall (j : nat) t x d n, ts !! j = Some t -> bref t = Some (x, d, n) -> x <> b).
  { intros j t x d n Hj E1 ->. pose proof (refs_lookup b _ _ _ Hj) as R. rewrite <- Ir in R by done.
    unfold has_ref in R. rewrite E1 in R. destruct (decide (b = b)); [lia|done]. }
  assert (Hnk : forall j, (j < NBUF)%nat -> b_dev (bufof j s) = dev -> b_blockno (bufof j s) = bno -> False).
  { intros j Hj <- <-. specialize (Hno j Hj). unfold is_block in Hno. now rewrite !Z.eqb_refl in Hno. }
  split.
  - exists l. now apply lru_bset.
  - intros x y Hx Hy. destruct (decide (x = b)) as [->|], (decide (y = b)) as [->|]; [done|..];
      rewrite ?E, ?bufof_bset_ne by done; cbn; intros H1 H2 H3; 
      [exfalso; eapply (Hnk y); eauto|exfalso; eapply (Hnk x); eauto|now apply Iu].
  - intros x Hx. rewrite (refs_insert _ _ _ _ _ Hi). unfold has_ref at 1 2; cbn [bref].
    destruct (decide (b = x)) as [<-|]; [|rewrite bufof_bset_ne, Ir by done; lia].
    rewrite E, <- Ir by done. cbn. lia.
  - intros j t x d n Hj E1. apply lookup_insert_cases in Hj as [[<- <-]|[Hne Hj]].
    + cbn in E1. injection E1 as <- <- <-. rewrite E. done.
    + rewrite bufof_bset_ne; [eapply Ik; eauto|]. intros ->. eapply Hfree; eauto.
  - intros j x d n Hj. apply lookup_insert_cases in Hj as [[<- ?]|[Hne Hj]]; [done|].
    rewrite bufof_bset_ne; [eapply Io; eauto|]. intros ->. eapply Hfree; [exact Hj|done|done].
  - intros j k x d1 n1 d2 n2 Hj Hk.
    apply lookup_insert_cases in Hj as [[<- ?]|[_ Hj]], Hk as [[<- ?]|[_ Hk]]; try done. eapply Ie; eauto.
Qed.

(** * What each stretch does *)

Lemma find_next_eq n p x l pv s c :
  chain (nxt s) pv x l HEAD -> (HEAD ∉ l) -> (length l < n)%nat ->
  find_next n p (nxt s x) c s = Ret (ffind s p l) c s.
Proof.
  intros Hc Hh Hn.
  destruct (wp_inv _ _ _ _ (wp_find_next n p x l pv s (fun a c' s' => a = ffind s p l /\ c' = c /\ s' = s) c Hc Hh Hn
    (conj eq_refl (conj eq_refl eq_refl)))) as (a & c' & s' & E & -> & -> & ->). exact E.
Qed.

Lemma find_prev_eq n p x l nx s c :
  chain (prv s) nx x l HEAD -> (HEAD ∉ l) -> (length l < n)%nat ->
  find_prev n p (prv s x) c s = Ret (ffind s p l) c s.
Proof.
  intros Hc Hh Hn.
  destruct (wp_inv _ _ _ _ (wp_find_prev n p x l nx s (fun a c' s' => a = ffind s p l /\ c' = c /\ s' = s) c Hc Hh Hn
    (conj eq_refl (conj eq_refl eq_refl)))) as (a & c' & s' & E & -> & -> & ->). exact E.
Qed.

Lemma bget_find_inv dev bno s l b c s' :
  lru s l -> bget_find dev bno (Ctx [] []) s = Ret b c s' -> bget_choice dev bno s l = Some (b, s').
Proof.
  intros Hl E. destruct (bget_choice dev bno s l) as [[b1 s1]|] eqn:Ec.
  - pose proof (wp_bget_find dev bno s l (fun a _ s'' => a = b1 /\ s'' = s1) (Ctx [] []) b1 s1 Hl) as W.
    apply (fun H => wp_ret_inv _ _ _ _ _ _ _ H E) in W; [|apply not_elem_of_nil|done|done].
    destruct W as [-> ->]. done.
  - exfalso. destruct (lru_nodup _ _ Hl) as [N1 _]. apply NoDup_cons in N1 as [Nh _].
    assert (Hlen : length l = NBUF) by (rewrite (lru_perm _ _ Hl); apply length_seq).
    unfold bget_choice in Ec. destruct (ffind s (is_block dev bno) l) eqn:F1; [done|].
    destruct (ffind s unused (rev l)) eqn:F2; [done|].
    unfold bget_find, bind, acquire, gets in E. cbn [held] in E.
    destruct (decide _) in E; [done|]. cbn [obind] in E.
    change (b_next (bufof HEAD s)) with (nxt s HEAD) in E.
    rewrite (find_next_eq _ _ _ l (prv s)) in E; [|apply (lru_chain _ _ Hl)|done|lia].
    cbn [obind] in E. rewrite F1 in E. cbn [obind] in E.
    change (b_prev (bufof HEAD s)) with (prv s HEAD) in E.
    rewrite (find_prev_eq _ _ _ (rev l) (nxt s)) in E.
    + cbn [obind] in E. rewrite F2 in E. done.
    + apply chain_rev, (lru_chain _ _ Hl).
    + intros Hin. apply Nh. apply list_elem_of_In. apply in_rev. now apply list_elem_of_In.
    + rewrite length_rev. lia.
Qed.

(** A change of one buffer that leaves its links, key, count and lock alone. *)
Definition mild (f : buf -> buf) : Prop :=
  keeps_links f /\ forall q, b_dev (f q) = b_dev q /\ b_blockno (f q) = b_blockno q /\
    b_refcnt (f q) = b_refcnt q /\ b_locked (f q) = b_locked q.

Lemma iderw_mild b s c s' :
  iderw b (Ctx [] []) s = Ret tt c s' -> exists f, mild f /\ bufs s' = bufs (bset b f s).
Proof.
  unfold iderw, holdingsleep, bind, acquire, release, gets. cbn [held].
  destruct (decide _); [done|]. cbn [obind held]. destruct (decide _); [|done]. cbn [obind].
  destruct (sl_locked (SlBuf b) s); [|done]. cbn [negb obind ret]. unfold ret, panic. cbn [obind].
  destruct (Z.land _ _ =? B_VALID); [done|]. cbn [obind]. destruct (negb (_ =? 1)); [done|].
  destruct (_ <=? _); [done|]. destruct (negb _); unfold bmod, modify; cbn [obind]; intros [= _ <-].
  - eexists. split; [|etransitivity; [match goal with
      |- bufs (bset b ?f (dwrite _ _ ?s1)) = _ => exact (eq_refl (bufs (bset b f s1))) end
      |rewrite bset_bset; reflexivity]]. now split.
  - eexists. split; [|rewrite bset_bset; reflexivity]. now split.
Qed.

Lemma bwrite_mild b s c s' :
  bwrite b (Ctx [] []) s = Ret tt c s' -> exists f, mild f /\ bufs s' = bufs (bset b f s).
Proof.
  unfold bwrite, holdingsleep, bind, acquire, release, gets. cbn [held].
  destruct (decide _); [done|]. cbn [obind held]. destruct (decide _); [|done]. cbn [obind].
  destruct (sl_locked (SlBuf b) s); [|done]. cbn [negb obind ret]. unfold ret, bmod, modify. cbn [obind].
  rewrite drop_lock_head. intros E. apply iderw_mild in E as (f & [F1 F2] & E). cbn [bufs] in E. rewrite bset_bset in E.
  eexists. split; [|exact E]. split; intros q; [apply (F1 (set_flags _ q))|apply (F2 (set_flags _ q))].
Qed.

Lemma quiet_bufs b s s1 s' : bufs s' = bufs s1 -> quiet b s s1 -> quiet b s s'.
Proof.
  intros E [[l Ql] Qk Qr]. assert (B : forall i, bufof i s' = bufof i s1) by (intros i; unfold bufof; now rewrite E).
  split.
  - exists l. destruct Ql as [L1 L2 L3]. split; [now rewrite E|done|].
    eapply links_ext; [| |exact L3]; intros i _; unfold nxt, prv; now rewrite B.
  - intros i. rewrite B. apply Qk.
  - intros i Hi. rewrite B. now apply Qr.
Qed.

(** A stretch under the lock that changes flags, data or the disk. *)
Lemma inv_mild s ts (i : nat) b dev bno s' f :
  bio_inv s ts -> ts !! i = Some (BHold b dev bno) -> mild f -> bufs s' = bufs (bset b f s) ->
  bio_inv s' (<[i := BHold b dev bno]> ts).
Proof.
  intros HI Hi [F1 F2] E. destruct (bi_lru _ _ HI) as [l Hl].
  destruct (bi_key _ _ HI _ _ _ _ _ Hi eq_refl) as (Hb & Hd & K1 & K2).
  assert (B : bufof b s' = f (bufof b s)).
  { unfold bufof at 1. rewrite E. fold (bufof b (bset b f s)). apply bufof_bset_eq. rewrite (lru_len _ _ Hl). lia. }
  eapply (inv_quiet s ts i (BHold b dev bno) s' _ b); try done.
  - eapply quiet_bufs; [exact E|]. eapply quiet_bset; [done..|]. intros q. split; apply F2.
  - intros x d n [= -> _ _]. done.
  - intros x d n [= -> <- <-]. done.
  - intros _. rewrite B. rewrite (proj1 (proj2 (proj2 (F2 _)))). lia.
  - unfold lock_moves; cbn. rewrite B. rewrite (proj2 (proj2 (proj2 (F2 _)))). eapply bi_lock; eauto.
Qed.

Lemma inv_get s ts (i : nat) dev bno b c s' :
  bio_inv s ts -> Z.of_nat (length ts) < 4294967296 -> ts !! i = Some BIdle -> dev <> 0 ->
  bget_find dev bno (Ctx [] []) s = Ret b c s' -> bio_inv s' (<[i := BWait b dev bno]> ts).
Proof.
  intros HI Hn Hi Hd E. destruct (bi_lru _ _ HI) as [l Hl].
  apply (bget_find_inv _ _ _ _ _ _ _ Hl) in E. unfold bget_choice in E.
  destruct (ffind s (is_block dev bno) l) as [b1|] eqn:F1.
  - injection E as -> <-. apply ffind_Some in F1 as [F1 F2]. unfold is_block in F2. zbool.
    apply (lru_elem _ _ _ Hl) in F1.
    eapply (inv_quiet s ts i BIdle _ _ b); try done.
    + eapply quiet_bset; [done..|]. done.
    + intros x d n [= -> <- <-]. split_and!; done.
    + intros _. rewrite bufof_bset_eq by (rewrite (lru_len _ _ Hl); lia). cbn [addref set_refcnt b_refcnt].
      pose proof (refs_range b (<[i := BWait b dev bno]> ts)) as R.
      rewrite length_insert, (refs_insert _ _ _ _ _ Hi), <- (bi_refs _ _ HI b F1) in R.
      pose proof (refs_range b ts) as R'. rewrite <- (bi_refs _ _ HI b F1) in R'.
      unfold has_ref in *; cbn [bref] in *. destruct (decide (b = b)); [|done].
      rewrite u32_small by (unfold is_u32; lia). lia.
    + unfold lock_moves; cbn. rewrite bufof_bset_eq by (rewrite (lru_len _ _ Hl); lia). done.
  - destruct (ffind s unused (rev l)) as [b1|] eqn:F2; [|done]. injection E as -> <-.
    apply ffind_Some in F2 as [F2 F3]. rewrite list_elem_of_In, <- in_rev, <- list_elem_of_In in F2.
    apply (lru_elem _ _ _ Hl) in F2. eapply inv_recycle; try done.
    intros j Hj. eapply ffind_None; [exact F1|]. now apply (lru_elem _ _ _ Hl).
Qed.

Lemma inv_drop s ts (i : nat) b dev bno c s' :
  bio_inv s ts -> Z.of_nat (length ts) < 4294967296 -> ts !! i = Some (BDrop b dev bno) ->
  brelse_ref b (Ctx [] []) s = Ret tt c s' -> bio_inv s' (<[i := BIdle]> ts).
Proof.
  intros HI Hn Hi E. destruct (bi_lru _ _ HI) as [l Hl].
  destruct (bi_key _ _ HI _ _ _ _ _ Hi eq_refl) as (Hb & Hd & K1 & K2).
  assert (s' = brelse_state b s) as ->.
  { apply (wp_ret_inv _ (fun _ _ s'' => s'' = brelse_state b s) _ _ _ _ _
      (wp_brelse_ref b s (fun _ _ s'' => s'' = brelse_state b s) (Ctx [] []) (not_elem_of_nil _) eq_refl) E). }
  destruct (brelse_lru b s l Hl Hb) as [[l' Hl'] [Sb _ _ _]].
  pose proof (lru_len _ _ Hl) as Hlen.
  assert (Q1 : quiet b s (bset b dropref s)) by now apply (quiet_bset _ _ _ l).
  assert (F : forall x, b_dev (bufof x (brelse_state b s)) = b_dev (bufof x (bset b dropref s)) /\
    b_blockno (bufof x (brelse_state b s)) = b_blockno (bufof x (bset b dropref s)) /\
    b_refcnt (bufof x (brelse_state b s)) = b_refcnt (bufof x (bset b dropref s)) /\
    b_locked (bufof x (brelse_state b s)) = b_locked (bufof x (bset b dropref s))).
  { intros x. specialize (Sb x). unfold nolinks, set_prev, set_next in Sb. cbn in Sb. split_and!; congruence. }
  destruct Q1 as [_ Qk Qr]. eapply (inv_quiet s ts i _ _ _ b HI Hi).
  - split; [eauto| |]; intros x; destruct (F x) as (F1 & F2 & F3 & F4);
      [rewrite F1, F2|rewrite F3, F4]; auto.
  - intros x d n [= -> _ _]. done.
  - done.
  - intros _. destruct (F b) as (_ & _ & -> & _). rewrite bufof_bset_eq by lia.
    cbn [dropref set_refcnt b_refcnt]. pose proof (refs_lookup b _ _ _ Hi) as R.
    pose proof (refs_range b ts) as R'. rewrite (bi_refs _ _ HI b Hb).
    unfold has_ref in *; cbn [bref] in *. destruct (decide (b = b)); [|done].
    rewrite u32_small by (unfold is_u32; lia). lia.
  - unfold lock_moves; cbn. destruct (F b) as (_ & _ & _ & ->). rewrite bufof_bset_eq by lia. done.
Qed.

Lemma bio_move_inv s ts (i : nat) t s' t' :
  bio_inv s ts -> Z.of_nat (length ts) < 4294967296 -> ts !! i = Some t ->
  bio_move s t s' t' -> bio_inv s' (<[i := t']> ts).
Proof.
  intros HI Hn Hi Hm.
  destruct Hm as [s dev bno b c s' Hd E|s b dev bno c s' E|s b dev bno c s' E|s b dev bno c s' E
    |s b dev bno d|s b dev bno|s b dev bno c s' E|s b dev bno c s' E].
  - eapply inv_get; eauto.
  - destruct (bi_key _ _ HI _ _ _ _ _ Hi eq_refl) as (Hb & Hd & K1 & K2). destruct (bi_lru _ _ HI) as [l Hl].
    unfold acquiresleep_step, bind, gets in E. cbn [obind] in E.
    destruct (sl_locked (SlBuf b) s) eqn:L; [done|]. unfold modify, release in E. cbn [obind held] in E.
    destruct (decide _) in E; [|done]. cbn [obind ret] in E. injection E as <- <-. cbn [sl_set bst_locks].
    eapply (inv_quiet s ts i _ _ _ b HI Hi).
    + now apply (quiet_bset _ _ _ l).
    + intros x d n [= -> _ _]. done.
    + intros x d n [= -> <- <-]. done.
    + intros _. rewrite bufof_bset_eq by (rewrite (lru_len _ _ Hl); lia). cbn. lia.
    + unfold lock_moves; cbn. rewrite bufof_bset_eq by (rewrite (lru_len _ _ Hl); lia). done.
  - apply iderw_mild in E as (f & Hf & E). eapply inv_mild; eauto.
  - apply bwrite_mild in E as (f & Hf & E). eapply inv_mild; eauto.
  - eapply inv_mild; [done..| |reflexivity]. now split.
  - eapply inv_mild; [done..| |reflexivity]. now split.
  - destruct (bi_key _ _ HI _ _ _ _ _ Hi eq_refl) as (Hb & Hd & K1 & K2). destruct (bi_lru _ _ HI) as [l Hl].
    assert (s' = bset b (set_locked false) s) as ->.
    { apply (wp_ret_inv _ (fun _ _ s'' => s'' = bset b (set_locked false) s) _ _ _ _ _
        (@wp_releasesleep bst bst_locks (SlBuf b) (fun _ _ s'' => s'' = bset b (set_locked false) s) (Ctx [] []) s
          (not_elem_of_nil _) (not_elem_of_nil _) eq_refl) E). }
    eapply (inv_quiet s ts i _ _ _ b HI Hi).
    + now apply (quiet_bset _ _ _ l).
    + intros x d n [= -> _ _]. done.
    + intros x d n [= -> <- <-]. done.
    + intros _. rewrite bufof_bset_eq by (rewrite (lru_len _ _ Hl); lia). cbn. lia.
    + done.
  - eapply inv_drop; eauto.
Qed.

Lemma refs_idle b n : refs b (replicate n BIdle) = 0.
Proof. induction n as [|n IH]; [done|]. cbn [replicate refs]. rewrite IH. done. Qed.

Lemma bio_inv_boot d c s n : binit (Ctx [] []) (boot_bufs d) = Ret tt c s -> bio_inv s (replicate n BIdle).
Proof.
  intros E. assert (L : length (bufs (boot_bufs d)) = S NBUF) by apply length_replicate.
  destruct (wp_ret_inv _ _ _ _ _ _ _ (wp_binit (boot_bufs d) (Ctx [] []) L) E) as (_ & Hl & (_ & _ & _ & _ & Hb)).
  assert (B : forall i, (i < NBUF)%nat -> nolinks (bufof i s) = nolinks buf0).
  { intros i Hi. rewrite Hb by done. rewrite bufof_boot. now destruct (i <? NBUF)%nat. }
  assert (Hf : forall i, (i < NBUF)%nat -> b_dev (bufof i s) = 0 /\ b_refcnt (bufof i s) = 0).
  { intros i Hi. specialize (B i Hi). unfold nolinks, set_prev, set_next in B. cbn in B. split; congruence. }
  split.
  - eauto.
  - intros i j Hi Hj Hd. now destruct (Hf i Hi).
  - intros b Hb'. rewrite refs_idle. now apply Hf.
  - intros i t b dev bno Hi Hr. apply lookup_replicate in Hi as [-> _]. done.
  - intros i b dev bno Hi. apply lookup_replicate in Hi as [Hi _]. done.
  - intros i j b d1 n1 d2 n2 Hi. apply lookup_replicate in Hi as [Hi _]. done.
Qed.

(** C7: in any interleaving of [n] threads that use the buffer cache from its
    initialisation on, for blocks of a device other than 0 (the device number of
    the buffers that have never been used), a block has at most one copy among
    all the buffers of the cache, in use or not; a thread that has a buffer
    locked for a block has the buffer that caches this very block (it was not
    recycled while the thread slept); and no two threads have a buffer of the
    same block locked: only one process at a time can use a buffer. *)
Theorem bcache_exclusive n d c s0 s ts :
  Z.of_nat n < 4294967296 -> binit (Ctx [] []) (boot_bufs d) = Ret tt c s0 ->
  rtc bio_step (s0, replicate n BIdle) (s, ts) ->
  (forall b b', (b < NBUF)%nat -> (b' < NBUF)%nat -> b_dev (bufof b s) <> 0 ->
     b_dev (bufof b s) = b_dev (bufof b' s) -> b_blockno (bufof b s) = b_blockno (bufof b' s) -> b = b') /\
  (forall (i : nat) b dev bno, ts !! i = Some (BHold b dev bno) ->
     (b < NBUF)%nat /\ b_dev (bufof b s) = dev /\ b_blockno (bufof b s) = bno /\ b_locked (bufof b s) = true) /\
  (forall (i j : nat) b b' dev bno,
     ts !! i = Some (BHold b dev bno) -> ts !! j = Some (BHold b' dev bno) -> i = j).
Proof.
  intros Hn E Hr. apply (bio_inv_boot _ _ _ n) in E.
  assert (HI : bio_inv s ts /\ length ts = n).
  { assert (L : length (replicate n BIdle) = n) by apply length_replicate.
    change (bio_inv (s, ts).1 (s, ts).2 /\ length (s, ts).2 = n).
    change (bio_inv (s0, replicate n BIdle).1 (s0, replicate n BIdle).2) in E.
    change (length (s0, replicate n BIdle).2 = n) in L.
    induction Hr as [x|x y z Hs _ IH]; [done|]. destruct Hs as [s1 ts1 i t s1' t' Hi Hm]. cbn [fst snd] in *.
    apply IH; [eapply bio_move_inv; eauto; lia|]. now rewrite length_insert. }
  destruct HI as [[Il Iu Ir Ik Io Ie] _]. split; [exact Iu|split].
  - intros i b dev bno Hi. destruct (Ik _ _ _ _ _ Hi eq_refl) as (? & _ & ? & ?). split_and!; eauto.
  - intros i j b b' dev bno Hi Hj. destruct (Ik _ _ _ _ _ Hi eq_refl) as (B1 & D1 & <- & <-).
    destruct (Ik _ _ _ _ _ Hj eq_refl) as (B2 & _ & K1 & K2).
    assert (b = b') as <- by (apply Iu; congruence). eapply Ie; eauto.
Qed.

Definition sample0 : bst := final (boot_bufs []) (binit (Ctx [] []) (boot_bufs [])).
Definition sample1 : bst := final sample0 (bget_find 1 5 (Ctx [] []) sample0).
Definition sample2 : bst := final sample1 (bget_find 1 5 (Ctx [] []) sample1).
Definition sample3 : bst := final sample2 (acquiresleep_step (SlBuf 0) tt (Ctx [LSleep (SlBuf 0)] []) sample2).

(** Two threads that want block 5: one has it, the other waits. *)
Lemma bcache_exclusive_witness :
  (0 < NBUF)%nat /\ b_dev (bufof 0 sample3) = 1 /\ b_blockno (bufof 0 sample3) = 5 /\ b_locked (bufof 0 sample3) = true.
Proof.
  refine (proj1 (proj2 (bcache_exclusive 2 [] (Ctx [] []) sample0 sample3 [BHold 0 1 5; BWait 0 1 5] _ _ _)) 0%nat 0%nat 1 5 _).
  - reflexivity.
  - vm_compute. reflexivity.
  - eapply rtc_l; [apply (bio_step_i _ _ 0 BIdle sample1 (BWait 0 1 5)); [reflexivity|]|].
    { eapply bm_get; [lia|]. vm_compute. reflexivity. }
    eapply rtc_l; [apply (bio_step_i _ _ 1 BIdle sample2 (BWait 0 1 5)); [reflexivity|]|].
    { eapply bm_get; [lia|]. vm_compute. reflexivity. }
    eapply rtc_l; [apply (bio_step_i _ _ 0 (BWait 0 1 5) sample3 (BHold 0 1 5)); [reflexivity|]|].
    { eapply bm_lock. vm_compute. reflexivity. }
    apply rtc_refl.
  - reflexivity.
Defined.
