(* ===== verification/Bcache.v ===== *)
(** The contract of the buffer cache (bio.c over memide.c) for one thread that
    meets no contention: the cache shows the block contents [V], the blocks [D]
    are changed in the cache only, and the thread holds the buffers [H].  The
    log and the file system are verified against these specifications. *)
From S2P Require Import Prelude Monad Mem Mmu Sleeplock Disk Bio.

(** Block contents, and a change of one block. *)
Definition vset (V : Z -> block) (n : Z) (d : block) : Z -> block := fun m => if m =? n then d else V m.

Lemma vset_eq V n d : vset V n d n = d.
Proof. unfold vset. now rewrite Z.eqb_refl. Qed.
Lemma vset_ne V n d m : m <> n -> vset V n d m = V m.
Proof. intros Hne. unfold vset. apply Z.eqb_neq in Hne. now rewrite Hne. Qed.

Record brep (s : bst) (V : Z -> block) (D : gset Z) (H : list (nat * Z)) : Prop := {
  br_lru : exists l, lru s l;
  br_uniq : forall i j, (i < NBUF)%nat -> (j < NBUF)%nat -> b_dev (bufof i s) = 1 ->
    b_dev (bufof j s) = 1 -> b_blockno (bufof i s) = b_blockno (bufof j s) -> i = j;
  br_dirty : forall b, (b < NBUF)%nat -> dirty (bufof b s) = true ->
    b_dev (bufof b s) = 1 /\ valid (bufof b s) = true /\ b_blockno (bufof b s) ∈ D;
  br_cached : forall n, n ∈ D -> exists b, (b < NBUF)%nat /\ b_dev (bufof b s) = 1 /\
    b_blockno (bufof b s) = n /\ dirty (bufof b s) = true;
  br_range : forall n, n ∈ D -> 0 <= n < disksize s;
  br_nodup : NoDup H.*1;
  br_held : forall b n, (b, n) ∈ H -> (b < NBUF)%nat /\ b_dev (bufof b s) = 1 /\ b_blockno (bufof b s) = n /\
    b_locked (bufof b s) = true /\ b_refcnt (bufof b s) = 1 /\ valid (bufof b s) = true /\
    block_ok (b_data (bufof b s)) /\ 0 <= n < disksize s;
  br_free : forall b, (b < NBUF)%nat -> (b ∉ H.*1) ->
    b_locked (bufof b s) = false /\ b_refcnt (bufof b s) = 0 /\
    (b_dev (bufof b s) = 1 -> valid (bufof b s) = true -> b_data (bufof b s) = V (b_blockno (bufof b s)));
  br_disk : forall n, 0 <= n < disksize s -> block_ok (V n) /\ (n ∉ D -> disk s !! Z.to_nat n = Some (V n))
}.

Lemma brep_perm s V D H H' : H ≡ₚ H' -> brep s V D H -> brep s V D H'.
Proof.
  intros Hp [A1 A2 A3 A4 A5 A6 A7 A8 A9]. split; try done.
  - now rewrite <- Hp.
  - intros b n Hin. apply A7. now rewrite Hp.
  - intros b Hb Hin. apply A8; [done|]. now rewrite Hp.
Qed.

(** The cache reads [bufs] and [disk] only. *)
Lemma brep_ext s s' V D H : bufs s' = bufs s -> disk s' = disk s -> brep s V D H -> brep s' V D H.
Proof.
  destruct s as [bu di tr], s' as [bu' di' tr']; cbn. intros -> -> [[l [L1 L2 L3]] A2 A3 A4 A5 A6 A7 A8 A9].
  split; try done. exists l. now split.
Qed.

(** * Flags *)

Lemma valid_testbit q : valid q = Z.testbit (b_flags q) 1.
Proof. unfold valid. change B_VALID with (bit 1). rewrite land_bit by lia. now destruct (Z.testbit _ _). Qed.
Lemma dirty_testbit q : dirty q = Z.testbit (b_flags q) 2.
Proof. unfold dirty. change B_DIRTY with (bit 2). rewrite land_bit by lia. now destruct (Z.testbit _ _). Qed.

Lemma flags_test q :
  (Z.land (b_flags q) (Z.lor B_VALID B_DIRTY) =? B_VALID) = valid q && negb (dirty q).
Proof.
  rewrite valid_testbit, dirty_testbit. apply eq_true_iff_eq. rewrite Z.eqb_eq. split.
  - intros E. assert (E1 := f_equal (fun z => Z.testbit z 1) E). assert (E2 := f_equal (fun z => Z.testbit z 2) E).
    cbv beta in E1, E2. rewrite !Z.land_spec in E1, E2.
    change (Z.testbit (Z.lor B_VALID B_DIRTY) 1) with true in E1.
    change (Z.testbit (Z.lor B_VALID B_DIRTY) 2) with true in E2.
    rewrite andb_true_r in E1, E2. now rewrite E1, E2.
  - intros E. apply andb_true_iff in E as [E1 E2]. apply negb_true_iff in E2.
    apply Z.bits_inj'. intros i Hi. rewrite Z.land_spec. change (Z.lor B_VALID B_DIRTY) with (Z.lor (bit 1) (bit 2)).
    change B_VALID with (bit 1). rewrite Z.lor_spec, !bit_testbit by lia.
    destruct (Z.eqb_spec i 1) as [->|]; [now rewrite E1|].
    destruct (Z.eqb_spec i 2) as [->|]; [now rewrite E2|]. now rewrite andb_false_r.
Qed.

Lemma flags_or_valid q v : b_flags q = Z.lor v B_VALID -> valid q = true /\ dirty q = Z.testbit v 2.
Proof.
  intros E. rewrite valid_testbit, dirty_testbit, E, !Z.lor_spec.
  change (Z.testbit B_VALID 1) with true. change (Z.testbit B_VALID 2) with false.
  now rewrite orb_true_r, orb_false_r.
Qed.
Lemma flags_or_dirty q v : b_flags q = Z.lor v B_DIRTY -> valid q = Z.testbit v 1 /\ dirty q = true.
Proof.
  intros E. rewrite valid_testbit, dirty_testbit, E, !Z.lor_spec.
  change (Z.testbit B_DIRTY 1) with false. change (Z.testbit B_DIRTY 2) with true.
  now rewrite orb_true_r, orb_false_r.
Qed.

(** * An unused buffer *)

Lemma unused_eq q : unused q = (b_refcnt q =? 0) && negb (dirty q).
Proof. unfold unused, dirty. now rewrite negb_involutive. Qed.

(** With fewer dirty blocks and held buffers than buffers, one can be recycled. *)
Lemma unused_exists s V D H :
  brep s V D H -> (size D + length H < NBUF)%nat ->
  exists b, (b < NBUF)%nat /\ unused (bufof b s) = true.
Proof.
  intros R Hroom. destruct (decide (Exists (fun b => unused (bufof b s) = true) (seq 0 NBUF))) as [HE|HE].
  { apply Exists_exists in HE as (b & Hb & Hu). apply elem_of_seq in Hb. exists b. split; [lia|done]. }
  exfalso. set (L := filter (fun b => b ∉ H.*1) (seq 0 NBUF)).
  assert (HL : forall b, b ∈ L -> (b < NBUF)%nat /\ (b ∉ H.*1) /\ dirty (bufof b s) = true).
  { intros b Hb. apply list_elem_of_filter in Hb as [Hn Hb]. apply elem_of_seq in Hb.
    split_and!; [lia|done|]. destruct (br_free _ _ _ _ R b ltac:(lia) Hn) as (_ & Hr & _).
    destruct (dirty (bufof b s)) eqn:E; [done|]. exfalso. apply HE. apply Exists_exists.
    exists b. split; [apply elem_of_seq; lia|]. now rewrite unused_eq, Hr, E. }
  assert (N1 : NoDup ((fun b => b_blockno (bufof b s)) <$> L)).
  { apply NoDup_fmap_2_strong; [|apply NoDup_filter, NoDup_seq]. intros x y Hx Hy E.
    apply HL in Hx as (? & _ & Hx), Hy as (? & _ & Hy).
    apply (br_dirty _ _ _ _ R) in Hx as [? _], Hy as [? _]; try done. eapply br_uniq; eauto. }
  assert (S1 : (length L <= size D)%nat).
  { rewrite <- (length_fmap (fun b => b_blockno (bufof b s)) L). rewrite <- (size_list_to_set (C := gset Z)) by done.
    apply subseteq_size. intros x Hx. apply elem_of_list_to_set, list_elem_of_fmap in Hx as (b & -> & Hb).
    apply HL in Hb as (? & _ & Hb). now apply (br_dirty _ _ _ _ R) in Hb as (_ & _ & ?). }
  assert (S2 : (NBUF <= length H + length L)%nat).
  { rewrite <- (length_fmap fst H), <- length_app. rewrite <- (length_seq NBUF 0) at 1.
    apply submseteq_length, NoDup_submseteq; [apply NoDup_seq|]. intros x Hx. apply elem_of_app.
    destruct (decide (x ∈ H.*1)); [by left|right]. apply list_elem_of_filter. done. }
  lia.
Qed.

(** * The driver *)

Lemma wp_iderw_read b s (Q : unit -> ctx -> bst -> Prop) c d :
  held c = [] -> b_locked (bufof b s) = true -> valid (bufof b s) = false -> dirty (bufof b s) = false ->
  b_dev (bufof b s) = 1 -> b_blockno (bufof b s) < disksize s ->
  aget [] (disk s) (b_blockno (bufof b s)) = d ->
  Q tt c (bset b (fun q => set_flags (Z.lor (b_flags q) B_VALID) (set_data d q)) s) -> wp (iderw b) Q c s.
Proof.
  intros Hc Hl Hv Hd Hdev Hn Hd' HQ. destruct c as [h w]. cbn in Hc. subst h. unfold iderw. bio_step.
  apply wp_holdingsleep; [apply not_elem_of_nil|]. cbn [sl_locked bst_locks]. rewrite Hl. cbn [negb]. bio_steps.
  rewrite flags_test, Hv, Hdev. cbn [andb negb]. rewrite Z.eqb_refl. cbn [negb].
  rewrite (proj2 (Z.leb_gt _ _)) by done. unfold dirty in Hd. rewrite Hd. bio_steps.
  rewrite bset_bset, Hd'. exact HQ.
Qed.

Lemma wp_iderw_write b s (Q : unit -> ctx -> bst -> Prop) c :
  held c = [] -> b_locked (bufof b s) = true -> dirty (bufof b s) = true ->
  b_dev (bufof b s) = 1 -> b_blockno (bufof b s) < disksize s ->
  (forall f, f = (fun q => set_flags (Z.lor (b_flags q) B_VALID) q) ->
   Q tt c (bset b f (dwrite (b_blockno (bufof b s)) (b_data (bufof b s))
     (bset b (set_flags (Z.land (b_flags (bufof b s)) (Z.lnot B_DIRTY))) s)))) -> wp (iderw b) Q c s.
Proof.
  intros Hc Hl Hd Hdev Hn HQ. destruct c as [h w]. cbn in Hc. subst h. unfold iderw. bio_step.
  apply wp_holdingsleep; [apply not_elem_of_nil|]. cbn [sl_locked bst_locks]. rewrite Hl. cbn [negb]. bio_steps.
  rewrite flags_test, Hd, Hdev. cbn [negb]. rewrite andb_false_r, Z.eqb_refl. cbn [negb].
  rewrite (proj2 (Z.leb_gt _ _)) by done. unfold dirty in Hd. rewrite Hd. bio_steps. now apply HQ.
Qed.

(** * Taking a buffer *)

(** Everything but buffer [b] (and the links) is the same. *)
Record only (b : nat) (s s' : bst) : Prop := {
  on_lru : exists l, lru s' l;
  on_buf : forall i, i <> b -> nolinks (bufof i s') = nolinks (bufof i s);
  on_disk : disk s' = disk s
}.

Lemma only_fields b s s' i : only b s s' -> i <> b ->
  b_flags (bufof i s') = b_flags (bufof i s) /\ b_dev (bufof i s') = b_dev (bufof i s) /\
  b_blockno (bufof i s') = b_blockno (bufof i s) /\ b_locked (bufof i s') = b_locked (bufof i s) /\
  b_refcnt (bufof i s') = b_refcnt (bufof i s) /\ b_data (bufof i s') = b_data (bufof i s) /\
  valid (bufof i s') = valid (bufof i s) /\ dirty (bufof i s') = dirty (bufof i s).
Proof.
  intros Ho Hi. pose proof (on_buf _ _ _ Ho i Hi) as E. unfold nolinks, set_prev, set_next in E. cbn in E.
  unfold valid, dirty. injection E as E1 E2 E3 E4 E5 E6. rewrite E1, E2, E3, E4, E5, E6. done.
Qed.

Lemma only_bset b f s l : lru s l -> keeps_links f -> only b s (bset b f s).
Proof.
  intros Hl Hf. split; [eauto using lru_bset| |done]. intros i Hi. now rewrite bufof_bset_ne by done.
Qed.

Lemma brep_take s s' V D H b n :
  brep s V D H -> only b s s' -> (b < NBUF)%nat -> (b ∉ H.*1) -> 0 <= n < disksize s ->
  (b_dev (bufof b s) = 1 /\ b_blockno (bufof b s) = n \/
   dirty (bufof b s) = false /\
   forall j, (j < NBUF)%nat -> b_dev (bufof j s) = 1 -> b_blockno (bufof j s) <> n) ->
  (let q := bufof b s' in
   b_dev q = 1 /\ b_blockno q = n /\ b_locked q = true /\ b_refcnt q = 1 /\ valid q = true /\
   (dirty q = true <-> n ∈ D) /\ b_data q = V n) ->
  brep s' V D ((b, n) :: H).
Proof.
  intros R Ho Hb HbH Hn Hkey (Q1 & Q2 & Q3 & Q4 & Q5 & Q6 & Q7).
  assert (F : forall i, i <> b -> _) by exact (fun i => only_fields b s s' i Ho).
  assert (Ds : disksize s' = disksize s) by (unfold disksize; now rewrite (on_disk _ _ _ Ho)).
  assert (Huniq : forall j, (j < NBUF)%nat -> j <> b -> b_dev (bufof j s) = 1 -> b_blockno (bufof j s) <> n).
  { intros j Hj Hne Hdj E. destruct Hkey as [[K1 K2]|[_ K]]; [|now apply (K j)].
    apply Hne. apply (br_uniq _ _ _ _ R); congruence. }
  split.
  - apply (on_lru _ _ _ Ho).
  - intros i j Hi Hj. destruct (decide (i = b)) as [->|Ni], (decide (j = b)) as [->|Nj]; [done|..].
    + destruct (F j Nj) as (_ & -> & -> & _). intros _ Hdj E. exfalso. apply (Huniq j); congruence.
    + destruct (F i Ni) as (_ & -> & -> & _). intros Hdi _ E. exfalso. apply (Huniq i); congruence.
    + destruct (F i Ni) as (_ & -> & -> & _), (F j Nj) as (_ & -> & -> & _). now apply (br_uniq _ _ _ _ R).
  - intros i Hi. destruct (decide (i = b)) as [->|Ni].
    + rewrite Q1, Q2, Q5. intros Hd. split_and!; try done. now apply Q6.
    + destruct (F i Ni) as (_ & -> & -> & _ & _ & _ & -> & ->). now apply (br_dirty _ _ _ _ R).
  - intros m Hm. destruct (br_cached _ _ _ _ R m Hm) as (x & Hx & X1 & X2 & X3).
    destruct (decide (x = b)) as [->|Nx].
    + assert (m = n) as ->. { destruct Hkey as [[_ K2]|[K _]]; congruence. }
      exists b. split_and!; try done. now apply Q6.
    + exists x. destruct (F x Nx) as (_ & -> & -> & _ & _ & _ & _ & ->). done.
  - intros m Hm. rewrite Ds. now apply (br_range _ _ _ _ R).
  - cbn. apply NoDup_cons. split; [done|apply R].
  - intros i m Hin. rewrite Ds. apply elem_of_cons in Hin as [[= -> ->]|Hin].
    + split_and!; try done; [rewrite Q7; now apply (br_disk _ _ _ _ R)|lia..].
    + assert (Ni : i <> b). { intros ->. apply HbH. apply list_elem_of_fmap. exists (b, m). done. }
      destruct (F i Ni) as (_ & -> & -> & -> & -> & -> & -> & _). now apply (br_held _ _ _ _ R).
  - intros i Hi Hin. cbn in Hin. apply not_elem_of_cons in Hin as [Ni Hin].
    destruct (F i Ni) as (_ & -> & -> & -> & -> & -> & -> & _). now apply (br_free _ _ _ _ R).
  - intros m. rewrite Ds, (on_disk _ _ _ Ho). apply (br_disk _ _ _ _ R).
Qed.

(** What the rest of the cache sees of an operation: held buffers keep their
    data, the disk and its history are unchanged. *)
Record calm (H : list (nat * Z)) (s s' : bst) : Prop := {
  ca_data : forall x, x ∈ H.*1 -> b_data (bufof x s') = b_data (bufof x s);
  ca_disk : disk s' = disk s;
  ca_trace : trace s' = trace s
}.

Lemma calm_bset b f H s : (b ∉ H.*1) -> calm H s (bset b f s).
Proof.
  intros Hb. split; try done. intros x Hx. rewrite bufof_bset_ne; [done|]. intros ->. done.
Qed.

Section Specs.
Context {fuel : Fuel}.
Hypothesis fuel_pos : (0 < wakeups)%nat.

Lemma wp_acquire_buf b (Q : unit -> ctx -> bst -> Prop) c s :
  held c = [] -> b_locked (bufof b s) = false -> Q tt c (bset b (set_locked true) s) ->
  wp (acquiresleep wakeups (SlBuf b)) Q c s.
Proof.
  intros Hc Hl HQ. destruct wakeups as [|f]; [lia|].
  apply wp_acquiresleep; [rewrite Hc; apply not_elem_of_nil|exact Hl|exact HQ].
Qed.

(** [bread] once [bget] has chosen buffer [b] and made the change [f]. *)
Lemma bread_tail s V D H n c b f l (Q : nat -> ctx -> bst -> Prop) :
  held c = [] -> brep s V D H -> lru s l -> 0 <= n < disksize s -> (b < NBUF)%nat -> (b ∉ H.*1) ->
  keeps_links f ->
  (b_dev (bufof b s) = 1 /\ b_blockno (bufof b s) = n \/
   dirty (bufof b s) = false /\
   forall j, (j < NBUF)%nat -> b_dev (bufof j s) = 1 -> b_blockno (bufof j s) <> n) ->
  (let q := f (bufof b s) in b_dev q = 1 /\ b_blockno q = n /\ b_locked q = false /\ b_refcnt q = 1 /\
    (dirty q = true -> valid q = true) /\ (dirty q = true <-> n ∈ D) /\ (valid q = true -> b_data q = V n)) ->
  (forall s', brep s' V D ((b, n) :: H) -> b_data (bufof b s') = V n -> calm H s s' -> Q b c s') ->
  wp (acquiresleep wakeups (SlBuf b) ;;; ret b)
    (fun b => wp (let* q := gets (bufof b) in
                  when (Z.land (b_flags q) B_VALID =? 0) (iderw b) ;;; ret b) Q) c (bset b f s).
Proof.
  intros Hc R Hl Hn Hb HbH Hf Hkey (Q1 & Q2 & Q3 & Q4 & Q5 & Q6 & Q7) HQ.
  assert (Hlen : (b < length (bufs s))%nat) by (rewrite (lru_len _ _ Hl); lia).
  apply wp_bind, wp_acquire_buf; [done|now rewrite bufof_bset_eq|]. rewrite bset_bset. bio_steps.
  set (g := fun q => set_locked true (f q)).
  assert (Eg : bufof b (bset b g s) = g (bufof b s)) by now apply bufof_bset_eq.
  assert (Hg : keeps_links g) by exact Hf. rewrite Eg.
  change (Z.land (b_flags (g (bufof b s))) B_VALID =? 0) with (Z.land (b_flags (f (bufof b s))) B_VALID =? 0).
  rewrite <- (negb_involutive (_ =? 0)). change (negb (Z.land (b_flags (f (bufof b s))) B_VALID =? 0)) with (valid (f (bufof b s))).
  destruct (valid (f (bufof b s))) eqn:Ev; cbn [negb].
  - bio_steps. apply HQ; [|rewrite Eg; now apply Q7|now apply calm_bset].
    eapply brep_take; try done; [eapply only_bset; eauto|]. rewrite Eg. split_and!; try done. now apply Q7.
  - assert (Hdq : dirty (f (bufof b s)) = false).
    { destruct (dirty (f (bufof b s))); [|done]. now specialize (Q5 eq_refl). }
    assert (HnD : n ∉ D) by (rewrite <- Q6; congruence).
    assert (Hd : aget [] (disk s) n = V n).
    { unfold aget. now rewrite (proj2 (br_disk _ _ _ _ R n Hn) HnD). }
    assert (Qn : b_blockno (g (bufof b s)) = n) by exact Q2.
    eapply (wp_iderw_read b _ _ _ (V n)); rewrite ?Eg, ?Qn; try done; [apply Hn|].
    { bio_steps. rewrite bset_bset. set (h := fun q => _).
      assert (Eh : bufof b (bset b h s) = h (bufof b s)) by now apply bufof_bset_eq.
      destruct (flags_or_valid (h (bufof b s)) _ eq_refl) as [Hv Hdy].
      apply HQ; [|now rewrite Eh|now apply calm_bset]. eapply brep_take; try done.
      * eapply only_bset; [exact Hl|]. exact Hf.
      * rewrite Eh. split_and!; try done. rewrite Hdy.
        change (Z.testbit (b_flags (f (bufof b s))) 2 = true <-> n ∈ D).
        now rewrite <- dirty_testbit, Hdq, <- Q6, Hdq. }
Qed.

Lemma not_held_buf s V D H b n :
  brep s V D H -> b_blockno (bufof b s) = n -> (n ∉ H.*2) -> (b ∉ H.*1).
Proof.
  intros R E Hn Hb. apply list_elem_of_fmap in Hb as ([b' m] & -> & Hin). cbn in *.
  destruct (br_held _ _ _ _ R _ _ Hin) as (_ & _ & E' & _). apply Hn. apply list_elem_of_fmap.
  exists (b', m). split; [cbn; congruence|done].
Qed.

Lemma wp_bread s V D H n c (Q : nat -> ctx -> bst -> Prop) :
  held c = [] -> brep s V D H -> (n ∉ H.*2) -> 0 <= n < disksize s ->
  n ∈ D \/ (size D + length H < NBUF)%nat ->
  (forall b s', brep s' V D ((b, n) :: H) -> b_data (bufof b s') = V n -> calm H s s' -> Q b c s') ->
  wp (bread 1 n) Q c s.
Proof.
  intros Hc R HnH Hn Hroom HQ. destruct (br_lru _ _ _ _ R) as [l Hl]. unfold bread, bget.
  assert (Hchoice : exists b s1, bget_choice 1 n s l = Some (b, s1)).
  { unfold bget_choice. destruct (ffind s (is_block 1 n) l) as [b|] eqn:F; [eauto|].
    destruct (ffind s unused (rev l)) as [b|] eqn:F'; [eauto|exfalso].
    destruct Hroom as [HD|Hroom].
    - destruct (br_cached _ _ _ _ R n HD) as (b & Hb & E1 & E2 & _).
      rewrite ffind_None in F. specialize (F b). rewrite (lru_elem _ _ _ Hl) in F. specialize (F Hb).
      unfold is_block in F. now rewrite E1, E2, !Z.eqb_refl in F.
    - destruct (unused_exists _ _ _ _ R Hroom) as (b & Hb & Hu). rewrite ffind_None in F'.
      rewrite (F' b) in Hu; [done|]. apply list_elem_of_In, in_rev. rewrite rev_involutive.
      now apply list_elem_of_In, (lru_elem _ _ _ Hl). }
  destruct Hchoice as (b & s1 & Hch). apply wp_bind, wp_bind.
  eapply wp_bget_find; [done|rewrite Hc; apply not_elem_of_nil|exact Hch|]. unfold bget_choice in Hch.
  destruct (ffind s (is_block 1 n) l) as [b0|] eqn:F.
  - injection Hch as -> <-. apply ffind_Some in F as [Hb F]. apply (lru_elem _ _ _ Hl) in Hb.
    unfold is_block in F. zbool. assert (HbH : b ∉ H.*1) by (eapply not_held_buf; eauto).
    destruct (br_free _ _ _ _ R b Hb HbH) as (F1 & F2 & F3).
    eapply (bread_tail s V D H n c b addref l Q); try done; [by left| |exact (HQ b)].
    cbn. split_and!; try done.
    + now rewrite F2.
    + intros Hd. now apply (br_dirty _ _ _ _ R) in Hd as (_ & ? & _).
    + change (dirty (addref (bufof b s))) with (dirty (bufof b s)). split.
      * intros Hd. apply (br_dirty _ _ _ _ R) in Hd as (_ & _ & ?); congruence.
      * intros HD. destruct (br_cached _ _ _ _ R n HD) as (x & Hx & X1 & X2 & X3).
        assert (x = b) as -> by (eapply br_uniq; eauto; congruence). done.
    + intros Hv. rewrite F3; [congruence|done|exact Hv].
  - destruct (ffind s unused (rev l)) as [b0|] eqn:F2; [|done]. injection Hch as -> <-.
    apply ffind_Some in F2 as [Hb F2]. rewrite list_elem_of_In, <- in_rev, <- list_elem_of_In in Hb.
    apply (lru_elem _ _ _ Hl) in Hb. rewrite unused_eq in F2. zbool.
    assert (Hno : forall j, (j < NBUF)%nat -> b_dev (bufof j s) = 1 -> b_blockno (bufof j s) <> n).
    { intros j Hj E1 E2. rewrite ffind_None in F. specialize (F j). rewrite (lru_elem _ _ _ Hl) in F.
      specialize (F Hj). unfold is_block in F. now rewrite E1, E2, !Z.eqb_refl in F. }
    assert (HnD : n ∉ D).
    { intros HD. destruct (br_cached _ _ _ _ R n HD) as (x & Hx & X1 & X2 & _). now apply (Hno x). }
    assert (HbH : b ∉ H.*1).
    { intros Hin. apply list_elem_of_fmap in Hin as ([b' m] & -> & Hin). cbn in *.
      destruct (br_held _ _ _ _ R _ _ Hin) as (_ & _ & _ & _ & E & _). congruence. }
    destruct (br_free _ _ _ _ R b Hb HbH) as (G1 & G2 & G3).
    eapply (bread_tail s V D H n c b (recycle 1 n) l Q); try done; [by right|exact (HQ b)].
Qed.

End Specs.

(** * Releasing a buffer *)

Lemma brep_put s s' V D H b n :
  brep s V D ((b, n) :: H) -> only b s s' -> b_data (bufof b s) = V n ->
  (let q := bufof b s' in b_flags q = b_flags (bufof b s) /\ b_dev q = 1 /\ b_blockno q = n /\
    b_locked q = false /\ b_refcnt q = 0 /\ b_data q = b_data (bufof b s)) ->
  brep s' V D H.
Proof.
  intros R Ho Hdat (Q1 & Q2 & Q3 & Q4 & Q5 & Q6).
  assert (F : forall i, i <> b -> _) by exact (fun i => only_fields b s s' i Ho).
  assert (Ds : disksize s' = disksize s) by (unfold disksize; now rewrite (on_disk _ _ _ Ho)).
  destruct (br_held _ _ _ _ R b n ltac:(left)) as (Hb & H1 & H2 & H3 & H4 & H5 & H6 & H7).
  assert (G : forall i, b_dev (bufof i s') = b_dev (bufof i s) /\ b_blockno (bufof i s') = b_blockno (bufof i s) /\
    dirty (bufof i s') = dirty (bufof i s) /\ valid (bufof i s') = valid (bufof i s) /\
    b_data (bufof i s') = b_data (bufof i s)).
  { intros i. destruct (decide (i = b)) as [->|Ni].
    - unfold dirty, valid. rewrite Q1, Q6. split_and!; congruence.
    - destruct (F i Ni) as (_ & ? & ? & _ & _ & ? & ? & ?). done. }
  pose proof (br_nodup _ _ _ _ R) as Nd. cbn in Nd. apply NoDup_cons in Nd as [Nb Nd]. split.
  - apply (on_lru _ _ _ Ho).
  - intros i j Hi Hj. destruct (G i) as (-> & -> & _), (G j) as (-> & -> & _). now apply (br_uniq _ _ _ _ R).
  - intros i Hi. destruct (G i) as (-> & -> & -> & -> & _). now apply (br_dirty _ _ _ _ R).
  - intros m Hm. destruct (br_cached _ _ _ _ R m Hm) as (x & Hx). exists x.
    destruct (G x) as (-> & -> & -> & _). exact Hx.
  - intros m Hm. rewrite Ds. now apply (br_range _ _ _ _ R).
  - done.
  - intros i m Hin. rewrite Ds.
    assert (Ni : i <> b). { intros ->. apply Nb. apply list_elem_of_fmap. exists (b, m). done. }
    destruct (F i Ni) as (_ & -> & -> & -> & -> & -> & -> & _). apply (br_held _ _ _ _ R). now right.
  - intros i Hi Hin. destruct (decide (i = b)) as [->|Ni].
    + split_and!; try done. intros _ _. now rewrite Q3, Q6.
    + destruct (F i Ni) as (_ & -> & -> & -> & -> & -> & -> & _). apply (br_free _ _ _ _ R); [done|].
      cbn. now apply not_elem_of_cons.
  - intros m. rewrite Ds, (on_disk _ _ _ Ho). apply (br_disk _ _ _ _ R).
Qed.

Lemma brelse_state_fields b s l :
  lru s l -> (b < NBUF)%nat -> only b s (brelse_state b s) /\ trace (brelse_state b s) = trace s /\
  nolinks (bufof b (brelse_state b s)) = nolinks (dropref (bufof b s)).
Proof.
  intros Hl Hb. destruct (brelse_lru b s l Hl Hb) as [Hl' [S1 S2 S3 S4]]. split_and!.
  - split; [done| |done]. intros i Hi. rewrite S1. now rewrite bufof_bset_ne by done.
  - now rewrite S4.
  - rewrite S1, bufof_bset_eq; [done|]. rewrite (lru_len _ _ Hl). lia.
Qed.

Lemma wp_brelse s V D H b n c (Q : unit -> ctx -> bst -> Prop) :
  held c = [] -> brep s V D ((b, n) :: H) -> b_data (bufof b s) = V n ->
  (forall c' s', held c' = [] -> brep s' V D H -> calm H s s' -> Q tt c' s') ->
  wp (brelse b) Q c s.
Proof.
  intros Hc R Hdat HQ. destruct (br_held _ _ _ _ R b n ltac:(left)) as (Hb & H1 & H2 & H3 & H4 & H5 & H6 & H7).
  destruct (br_lru _ _ _ _ R) as [l Hl]. assert (Hlen : (b < length (bufs s))%nat) by (rewrite (lru_len _ _ Hl); lia).
  unfold brelse. bio_step. apply wp_holdingsleep; [rewrite Hc; apply not_elem_of_nil|].
  cbn [sl_locked bst_locks]. rewrite H3. cbn [negb].
  apply wp_bind, wp_releasesleep; [rewrite Hc; apply not_elem_of_nil..|]. cbn [sl_set bst_locks].
  set (s1 := bset b (set_locked false) s). assert (Hl1 : lru s1 l) by now apply lru_bset.
  destruct (brelse_state_fields b s1 l Hl1 Hb) as (Ho & Ht & E).
  assert (Es1 : bufof b s1 = set_locked false (bufof b s)) by now apply bufof_bset_eq. rewrite Es1 in E.
  apply wp_brelse_ref; [cbn; rewrite Hc; apply not_elem_of_nil|].
  assert (Ho' : only b s (brelse_state b s1)).
  { destruct Ho as [O1 O2 O3]. split; [done| |done]. intros i Hi. rewrite O2 by done.
    unfold s1. now rewrite bufof_bset_ne by done. }
  pose proof (br_nodup _ _ _ _ R) as Nd. cbn in Nd. apply NoDup_cons in Nd as [Nb Nd]. apply HQ.
  - exact Hc.
  - eapply brep_put; [exact R|exact Ho'|done|]. clearbody s1.
    unfold nolinks, dropref, set_prev, set_next, set_locked, set_refcnt in E. cbn in E.
    injection E as E1 E2 E3 E4 E5 E6. cbv zeta. rewrite E1, E2, E3, E4, E5, E6, H4. done.
  - split; [|apply Ho'|exact Ht]. intros x Hx.
    assert (Nx : x <> b) by (intros ->; done). apply (only_fields _ _ _ _ Ho' Nx).
Qed.

(** * Changing a held buffer *)

Lemma brep_upd s s' V V' D D' H b n :
  brep s V D H -> (b, n) ∈ H -> (exists l, lru s' l) ->
  (forall i, i <> b -> bufof i s' = bufof i s) -> disksize s' = disksize s ->
  (let q := bufof b s' in b_dev q = 1 /\ b_blockno q = n /\ b_locked q = true /\ b_refcnt q = 1 /\
    valid q = true /\ block_ok (b_data q) /\ (dirty q = true <-> n ∈ D')) ->
  (forall m, m <> n -> V' m = V m /\ (m ∈ D' <-> m ∈ D) /\ (disk s' !! Z.to_nat m = disk s !! Z.to_nat m \/ m < 0)) ->
  block_ok (V' n) -> (n ∉ D' -> disk s' !! Z.to_nat n = Some (V' n)) ->
  brep s' V' D' H.
Proof.
  intros R Hin Hl' F Ds (Q1 & Q2 & Q3 & Q4 & Q5 & Q6 & Q7) Hm HV Hdn.
  destruct (br_held _ _ _ _ R b n Hin) as (Hb & H1 & H2 & H3 & H4 & H5 & H6 & H7).
  assert (Hk : forall i, b_dev (bufof i s') = b_dev (bufof i s) /\ b_blockno (bufof i s') = b_blockno (bufof i s)).
  { intros i. destruct (decide (i = b)) as [->|Ni]; [split; congruence|now rewrite F]. }
  assert (Hne : forall i, (i < NBUF)%nat -> i <> b -> b_dev (bufof i s) = 1 -> b_blockno (bufof i s) <> n).
  { intros i Hi Ni Hd E. apply Ni. eapply br_uniq; eauto. congruence. }
  split.
  - done.
  - intros i j Hi Hj. destruct (Hk i) as [-> ->], (Hk j) as [-> ->]. now apply (br_uniq _ _ _ _ R).
  - intros i Hi. destruct (decide (i = b)) as [->|Ni]; [rewrite Q1, Q2, Q5; tauto|]. rewrite F by done.
    intros Hd. destruct (br_dirty _ _ _ _ R i Hi Hd) as (D1 & D2 & D3). split_and!; try done.
    apply Hm; [now apply Hne|done].
  - intros m HmD. destruct (decide (m = n)) as [->|Nm].
    + exists b. tauto.
    + apply Hm in HmD; [|done]. destruct (br_cached _ _ _ _ R m HmD) as (x & Hx & X1 & X2 & X3). exists x.
      rewrite F by congruence. done.
  - intros m HmD. rewrite Ds. destruct (decide (m = n)) as [->|Nm]; [done|].
    apply (br_range _ _ _ _ R). now apply Hm.
  - apply R.
  - intros i m Him. rewrite Ds. destruct (decide (i = b)) as [->|Ni].
    + assert (m = n) as ->. { apply (br_held _ _ _ _ R) in Him as (_ & _ & ? & _). congruence. } done.
    + rewrite F by done. now apply (br_held _ _ _ _ R).
  - intros i Hi Hn. assert (Ni : i <> b).
    { intros ->. apply Hn. apply list_elem_of_fmap. now exists (b, n). }
    rewrite F by done. destruct (br_free _ _ _ _ R i Hi Hn) as (F1 & F2 & F3). split_and!; try done.
    intros Hd Hv. rewrite F3 by done. symmetry. apply Hm. now apply Hne.
  - intros m Hr. rewrite Ds in Hr. destruct (decide (m = n)) as [->|Nm]; [done|].
    destruct (Hm m Nm) as (-> & E & E'). destruct (br_disk _ _ _ _ R m Hr) as [? Hdk]. split; [done|].
    intros HmD. destruct E' as [-> | ?]; [|lia]. apply Hdk. now rewrite <- E.
Qed.

Lemma brep_data s V D H b n d :
  brep s V D H -> (b, n) ∈ H -> block_ok d -> brep (bset b (set_data d) s) V D H.
Proof.
  intros R Hin Hd. destruct (br_held _ _ _ _ R b n Hin) as (Hb & H1 & H2 & H3 & H4 & H5 & H6 & H7).
  destruct (br_lru _ _ _ _ R) as [l Hl]. assert (Hlen : (b < length (bufs s))%nat) by (rewrite (lru_len _ _ Hl); lia).
  eapply brep_upd; [exact R|exact Hin|..]; try done.
  - exists l. now apply lru_bset.
  - intros i Hi. now apply bufof_bset_ne.
  - rewrite bufof_bset_eq by done. cbn. split_and!; try done. change (dirty (set_data d (bufof b s))) with (dirty (bufof b s)).
    split; [intros Hd'; apply (br_dirty _ _ _ _ R) in Hd' as (_ & _ & ?); congruence|].
    intros HD. destruct (br_cached _ _ _ _ R n HD) as (x & Hx & X1 & X2 & X3).
    assert (x = b) as -> by (eapply br_uniq; eauto; congruence). done.
  - intros m Hm. split_and!; try done. by left.
  - apply (br_disk _ _ _ _ R n H7).
  - apply (br_disk _ _ _ _ R n H7).
Qed.

(** [b->flags |= B_DIRTY] makes the data the contents of the block. *)
Lemma brep_mark s V D H b n :
  brep s V D H -> (b, n) ∈ H ->
  brep (bset b (fun q => set_flags (Z.lor (b_flags q) B_DIRTY) q) s)
    (vset V n (b_data (bufof b s))) ({[n]} ∪ D) H.
Proof.
  intros R Hin. destruct (br_held _ _ _ _ R b n Hin) as (Hb & H1 & H2 & H3 & H4 & H5 & H6 & H7).
  destruct (br_lru _ _ _ _ R) as [l Hl]. assert (Hlen : (b < length (bufs s))%nat) by (rewrite (lru_len _ _ Hl); lia).
  eapply brep_upd; [exact R|exact Hin|..]; try done.
  - exists l. now apply lru_bset.
  - intros i Hi. now apply bufof_bset_ne.
  - rewrite bufof_bset_eq by done. cbv zeta. set (q' := set_flags _ _).
    destruct (flags_or_dirty q' _ eq_refl) as [Hv Hd]. rewrite Hv, Hd, <- valid_testbit.
    split_and!; try done. split; [|done]. intros _. apply elem_of_union_l, elem_of_singleton_2. done.
  - intros m Hm. split_and!; [now apply vset_ne| |by left]. rewrite elem_of_union, elem_of_singleton. tauto.
  - rewrite vset_eq. done.
  - intros Hn. exfalso. apply Hn. apply elem_of_union_l, elem_of_singleton_2. done.
Qed.

Lemma wp_bwrite s V D H b n c (Q : unit -> ctx -> bst -> Prop) :
  held c = [] -> brep s V D H -> (b, n) ∈ H ->
  (forall s', brep s' (vset V n (b_data (bufof b s))) (D ∖ {[n]}) H ->
     (forall x, b_data (bufof x s') = b_data (bufof x s)) ->
     disk s' = aset (disk s) n (b_data (bufof b s)) ->
     trace s' = trace s ++ [(n, b_data (bufof b s))] -> Q tt c s') ->
  wp (bwrite b) Q c s.
Proof.
  intros Hc R Hin HQ. destruct (br_held _ _ _ _ R b n Hin) as (Hb & H1 & H2 & H3 & H4 & H5 & H6 & H7).
  destruct (br_lru _ _ _ _ R) as [l Hl]. assert (Hlen : (b < length (bufs s))%nat) by (rewrite (lru_len _ _ Hl); lia).
  unfold bwrite. bio_step. apply wp_holdingsleep; [rewrite Hc; apply not_elem_of_nil|].
  cbn [sl_locked bst_locks]. rewrite H3. cbn [negb]. bio_steps.
  set (f := fun q => set_flags (Z.lor (b_flags q) B_DIRTY) q).
  assert (Ef : bufof b (bset b f s) = f (bufof b s)) by now apply bufof_bset_eq.
  destruct (flags_or_dirty (f (bufof b s)) _ eq_refl) as [Hv Hd].
  apply wp_iderw_write; rewrite ?Ef; try done; [cbn; rewrite H2; apply H7|]. intros g Eg.
  cbn [f set_flags b_blockno b_data b_flags]. rewrite H2, bset_bset.
  set (s' := bset b g (dwrite n _ _)).
  assert (Eb : forall i, bufof i s' = bufof i (bset b (fun q => g (set_flags (Z.land (Z.lor (b_flags (bufof b s)) B_DIRTY)
    (Z.lnot B_DIRTY)) (f q))) s)).
  { intros i. unfold bufof. f_equal. etransitivity; [|rewrite <- (bset_bset b g); reflexivity]. done. }
  assert (Ebb : bufof b s' = g (set_flags (Z.land (Z.lor (b_flags (bufof b s)) B_DIRTY)
    (Z.lnot B_DIRTY)) (f (bufof b s)))) by (rewrite Eb; now apply bufof_bset_eq).
  assert (Hdisk : disk s' = aset (disk s) n (b_data (bufof b s))) by done.
  assert (Hds : disksize s' = disksize s).
  { unfold disksize. rewrite Hdisk. now rewrite length_aset. }
  apply HQ; [|intros x|done|done].
  - eapply brep_upd; [exact R|exact Hin|..]; try done.
    + exists l. apply lru_bset; [now subst g|]. pose proof (lru_bset s l b f ltac:(done) Hl) as L1.
      pose proof (lru_bset s l b (fun q => set_flags (Z.land (Z.lor (b_flags (bufof b s)) B_DIRTY) (Z.lnot B_DIRTY)) (f q))
        ltac:(done) Hl) as [G1 G2 G3]. split; [exact G1|exact G2|exact G3].
    + intros i Hi. rewrite Eb. now apply bufof_bset_ne.
    + rewrite Ebb. subst g. cbv zeta.
      match goal with |- context [valid ?q] => destruct (flags_or_valid q _ eq_refl) as [-> ->] end.
      cbn [set_flags b_flags b_dev b_blockno b_locked b_refcnt b_data f]. split_and!; try done.
      rewrite Z.land_spec, Z.lnot_spec by lia. change (Z.testbit B_DIRTY 2) with true. rewrite andb_false_r.
      split; [done|]. intros E. apply elem_of_difference in E as [_ E]. exfalso. apply E. now apply elem_of_singleton.
    + intros m Hm. split_and!; [now apply vset_ne|rewrite elem_of_difference, elem_of_singleton; tauto|].
      destruct (Z.ltb_spec m 0); [by right|left]. rewrite Hdisk. unfold aset. apply list_lookup_insert_ne. lia.
    + now rewrite vset_eq.
    + intros _. rewrite vset_eq, Hdisk. unfold aset. apply list_lookup_insert_eq. unfold disksize in H7. lia.
  - rewrite Eb. destruct (decide (b = x)) as [<-|Hne]; [rewrite bufof_bset_eq by done; now subst g|].
    now rewrite bufof_bset_ne.
Qed.

(** * After binit *)

(** The empty cache shows the disk, and anything beyond its end. *)
Lemma brep_boot_view d V c s :
  Forall block_ok d -> (forall n, 0 <= n < Z.of_nat (length d) -> V n = aget [] d n) -> binit (Ctx [] []) (boot_bufs d) = Ret tt c s ->
  held c = [] /\ brep s V ∅ [] /\ disk s = d /\ trace s = [].
Proof.
  intros Hd HV E. assert (L : length (bufs (boot_bufs d)) = S NBUF) by apply length_replicate.
  destruct (wp_ret_inv _ _ _ _ _ _ _ (wp_binit (boot_bufs d) (Ctx [] []) L) E)
    as (-> & Hl & (_ & _ & Ed & Et & Hb)). split_and!; try done.
  assert (Hf : forall i, (i < NBUF)%nat -> b_dev (bufof i s) = 0 /\ b_refcnt (bufof i s) = 0 /\
    b_locked (bufof i s) = false /\ b_flags (bufof i s) = 0).
  { intros i Hi. specialize (Hb i Hi). rewrite bufof_boot in Hb. replace (i <? NBUF)%nat with true in Hb.
    - unfold nolinks, set_prev, set_next in Hb. cbn in Hb. split_and!; congruence.
    - symmetry. now apply Nat.ltb_lt. }
  split.
  - eauto.
  - intros i j Hi _ E1. destruct (Hf i Hi) as [E2 _]. congruence.
  - intros b Hb' Hdt. unfold dirty in Hdt. destruct (Hf b Hb') as (_ & _ & _ & E1). now rewrite E1 in Hdt.
  - intros n Hn. now apply elem_of_empty in Hn.
  - intros n Hn. now apply elem_of_empty in Hn.
  - constructor.
  - intros b n Hin. now apply elem_of_nil in Hin.
  - intros b Hb' _. destruct (Hf b Hb') as (E1 & E2 & E3 & _). split_and!; try done. congruence.
  - intros n Hn. unfold disksize in Hn. rewrite Ed in Hn |- *. cbn [disk boot_bufs] in *.
    destruct (lookup_lt_is_Some_2 d (Z.to_nat n)) as [x Hx]; [lia|]. rewrite HV by done. unfold aget. rewrite Hx. split; [|done].
    eapply Forall_lookup in Hd; eauto.
Qed.

Lemma brep_boot d c s :
  Forall block_ok d -> binit (Ctx [] []) (boot_bufs d) = Ret tt c s ->
  held c = [] /\ brep s (aget [] d) ∅ [] /\ disk s = d /\ trace s = [].
Proof. intros Hd. now apply brep_boot_view. Qed.
