(* ===== verification/Log.v ===== *)
(** log.c, with the superblock of fs.h and readsb of fs.c: the redo log that makes
    the updates of a group of file-system calls atomic with respect to crashes. *)
From S2P Require Import Prelude Monad Mem Mmu Sleeplock Disk Bio.

(** * The superblock *)

Record superblock : Type := Superblock {
  sb_size : Z;
  sb_nblocks : Z;
  sb_ninodes : Z;
  sb_nlog : Z;
  sb_logstart : Z;
  sb_inodestart : Z;
  sb_bmapstart : Z
}.

(** [memmove(sb, bp->data, sizeof( *sb))]. *)
Definition superblock_of (d : block) : superblock :=
  Superblock (rd32 d 0) (rd32 d 4) (rd32 d 8) (rd32 d 12) (rd32 d 16) (rd32 d 20) (rd32 d 24).

(** * log.c *)

(** struct log; [lh_n] and [lh_block] are [log.lh], and [lg_bio] is the buffer
    cache below. *)
Record logst : Type := Logst {
  lg_bio : bst;
  lg_start : Z;
  lg_size : Z;
  lg_outstanding : Z;
  lg_committing : bool;
  lg_dev : Z;
  lh_n : Z;
  lh_block : list Z
}.

Definition set_bio v g := Logst v (lg_start g) (lg_size g) (lg_outstanding g) (lg_committing g) (lg_dev g) (lh_n g) (lh_block g).
Definition set_start v g := Logst (lg_bio g) v (lg_size g) (lg_outstanding g) (lg_committing g) (lg_dev g) (lh_n g) (lh_block g).
Definition set_size v g := Logst (lg_bio g) (lg_start g) v (lg_outstanding g) (lg_committing g) (lg_dev g) (lh_n g) (lh_block g).
Definition set_outstanding v g := Logst (lg_bio g) (lg_start g) (lg_size g) v (lg_committing g) (lg_dev g) (lh_n g) (lh_block g).
Definition set_committing v g := Logst (lg_bio g) (lg_start g) (lg_size g) (lg_outstanding g) v (lg_dev g) (lh_n g) (lh_block g).
Definition set_ldev v g := Logst (lg_bio g) (lg_start g) (lg_size g) (lg_outstanding g) (lg_committing g) v (lh_n g) (lh_block g).
Definition set_n v g := Logst (lg_bio g) (lg_start g) (lg_size g) (lg_outstanding g) (lg_committing g) (lg_dev g) v (lh_block g).
Definition set_block v g := Logst (lg_bio g) (lg_start g) (lg_size g) (lg_outstanding g) (lg_committing g) (lg_dev g) (lh_n g) v.

(** The zeroed memory of [log] on a machine whose cache is [s]. *)
Definition log0 (s : bst) : logst := Logst s 0 0 0 false 0 0 (replicate 30 0).

Definition inbio {A} (m : M bst A) : M logst A := zoom lg_bio set_bio m.

(** [b->data] and an assignment to it. *)
Definition data (b : nat) : M logst block := gets (fun g => b_data (bufof b (lg_bio g))).
Definition put_data (b : nat) (d : block) : M logst unit := inbio (bmod b (set_data d)).

(** Words of the header block: [n], then the block numbers. *)
Definition HDR_BLOCK (i : Z) : Z := 4 + 4 * i.

Section Log.
Context {fuel : Fuel}.

Definition readsb (dev : Z) : M logst superblock :=
  let* bp := inbio (bread dev 1) in
  let* d := data bp in
  inbio (brelse bp) ;;;
  ret (superblock_of d).

Definition install_trans : M logst unit :=
  let* n := gets lh_n in
  for_ (zrange (Z.to_nat n)) (fun tail =>
    let* g := get in
    let* lbuf := inbio (bread (lg_dev g) (u32 (lg_start g + tail + 1))) in
    let* dbuf := inbio (bread (lg_dev g) (u32 (aget 0 (lh_block g) tail))) in
    let* ld := data lbuf in
    let* dd := data dbuf in
    put_data dbuf (set_bytes dd 0 (bytes_at ld 0 BSIZE)) ;;;
    inbio (bwrite dbuf) ;;;
    inbio (brelse lbuf) ;;;
    inbio (brelse dbuf)).

Definition read_head : M logst unit :=
  let* g := get in
  let* buf := inbio (bread (lg_dev g) (u32 (lg_start g))) in
  let* d := data buf in
  modify (set_n (s32 (rd32 d 0))) ;;;
  let* n := gets lh_n in
  for_ (zrange (Z.to_nat n)) (fun i =>
    modify (fun g => set_block (aset (lh_block g) i (s32 (rd32 d (HDR_BLOCK i)))) g)) ;;;
  inbio (brelse buf).

Definition write_head : M logst unit :=
  let* g := get in
  let* buf := inbio (bread (lg_dev g) (u32 (lg_start g))) in
  let* d := data buf in
  put_data buf (wr32 d 0 (lh_n g)) ;;;
  for_ (zrange (Z.to_nat (lh_n g))) (fun i =>
    let* d := data buf in
    put_data buf (wr32 d (HDR_BLOCK i) (aget 0 (lh_block g) i))) ;;;
  inbio (bwrite buf) ;;;
  inbio (brelse buf).

Definition recover_from_log : M logst unit :=
  read_head ;;;
  install_trans ;;;
  modify (set_n 0) ;;;
  write_head.

(** sizeof(struct logheader) is 4 + 4 * LOGSIZE. *)
Definition initlog (dev : Z) : M logst unit :=
  if BSIZE <=? 4 + 4 * LOGSIZE then panic "initlog: too big logheader"
  else
    let* sb := readsb dev in
    modify (set_start (s32 (sb_logstart sb))) ;;;
    modify (set_size (s32 (sb_nlog sb))) ;;;
    modify (set_ldev dev) ;;;
    recover_from_log.

(** [begin_op] from the test of its loop to the next sleep or the end. *)
Definition begin_op_step (_ : unit) : M logst (blk unit unit) :=
  let* g := get in
  if lg_committing g then ret (Block ChLog LLog tt)
  else if LOGSIZE <? lh_n g + (lg_outstanding g + 1) * MAXOPBLOCKS then ret (Block ChLog LLog tt)
  else
    modify (set_outstanding (lg_outstanding g + 1)) ;;;
    release LLog ;;;
    ret (Done tt).

Definition begin_op : M logst unit := acquire LLog ;;; blocks wakeups begin_op_step tt.

Definition write_log : M logst unit :=
  let* n := gets lh_n in
  for_ (zrange (Z.to_nat n)) (fun tail =>
    let* g := get in
    let* to := inbio (bread (lg_dev g) (u32 (lg_start g + tail + 1))) in
    let* from := inbio (bread (lg_dev g) (u32 (aget 0 (lh_block g) tail))) in
    let* fd := data from in
    let* td := data to in
    put_data to (set_bytes td 0 (bytes_at fd 0 BSIZE)) ;;;
    inbio (bwrite to) ;;;
    inbio (brelse from) ;;;
    inbio (brelse to)).

Definition commit : M logst unit :=
  let* n := gets lh_n in
  when (0 <? n) (
    write_log ;;;
    write_head ;;;
    install_trans ;;;
    modify (set_n 0) ;;;
    write_head).

(** The part of [end_op] before [commit]: whether to commit. *)
Definition end_op_start : M logst bool :=
  acquire LLog ;;;
  modify (fun g => set_outstanding (lg_outstanding g - 1) g) ;;;
  let* g := get in
  if lg_committing g then panic "log.committing"
  else if lg_outstanding g =? 0 then
    modify (set_committing true) ;;; release LLog ;;; ret true
  else wakeup ChLog ;;; release LLog ;;; ret false.

(** The part after it. *)
Definition end_op_finish : M logst unit :=
  acquire LLog ;;;
  modify (set_committing false) ;;;
  wakeup ChLog ;;;
  release LLog.

Definition end_op : M logst unit :=
  let* do_commit := end_op_start in
  when do_commit (commit ;;; end_op_finish).

(** [for(i = 0; i < log.lh.n; i++) if(log.lh.block[i] == b->blockno) break;] *)
Fixpoint log_index (blocks : list Z) (blockno : Z) (i : Z) (n : nat) : Z :=
  match n with
  | O => i
  | S n' => if u32 (aget 0 blocks i) =? blockno then i else log_index blocks blockno (i + 1) n'
  end.

Definition log_write (b : nat) : M logst unit :=
  let* g := get in
  if (LOGSIZE <=? lh_n g) || (lg_size g - 1 <=? lh_n g) then panic "too big a transaction"
  else if lg_outstanding g <? 1 then panic "log_write outside of trans"
  else
    acquire LLog ;;;
    let* blockno := gets (fun g => b_blockno (bufof b (lg_bio g))) in
    let* g := get in
    let i := log_index (lh_block g) blockno 0 (Z.to_nat (lh_n g)) in
    modify (set_block (aset (lh_block g) i (s32 blockno))) ;;;
    when (i =? lh_n g) (modify (set_n (lh_n g + 1))) ;;;
    inbio (bmod b (fun q => set_flags (Z.lor (b_flags q) B_DIRTY) q)) ;;;
    release LLog.
End Log.
