(* ===== verification/LogProps.v ===== *)
(** The crash safety of log.c: whatever prefix of the disk writes of [commit] a
    crash lets through, recovery at the next boot restores the disk before the
    transaction or the disk after it; and recovery can itself be interrupted. *)
From S2P Require Import Prelude Monad Mem Mmu Sleeplock Disk Bio Bcache Log.

(** * Sequences of disk writes *)

Definition dapply (d : list block) (ws : list (Z * block)) : list block :=
  fold_left (fun d w => aset d w.1 w.2) ws d.
Definition vapply (V : Z -> block) (ws : list (Z * block)) : Z -> block :=
  fold_left (fun V w => vset V w.1 w.2) ws V.

Lemma dapply_app d ws ws' : dapply d (ws ++ ws') = dapply (dapply d ws) ws'.
Proof. apply fold_left_app. Qed.
Lemma vapply_app V ws ws' : vapply V (ws ++ ws') = vapply (vapply V ws) ws'.
Proof. apply fold_left_app. Qed.

Lemma length_dapply d ws : length (dapply d ws) = length d.
Proof. revert d. induction ws as [|w ws IH]; intros d; [done|].
  cbn [dapply fold_left]. fold (dapply (aset d w.1 w.2) ws). rewrite IH. apply length_aset.
Qed.

Lemma vapply_notin V ws m : (m ∉ ws.*1) -> vapply V ws m = V m.
Proof.
  revert V. induction ws as [|[n d] ws IH]; intros V Hm; [done|].
  cbn [vapply fold_left fmap list_fmap fst snd] in *. fold (vapply (vset V n d) ws).
  apply not_elem_of_cons in Hm as [H1 H2]. rewrite IH by done. now apply vset_ne.
Qed.

Lemma vapply_in V ws m d : NoDup ws.*1 -> (m, d) ∈ ws -> vapply V ws m = d.
Proof.
  revert V. induction ws as [|[n d'] ws IH]; intros V Hn Hin; [now apply elem_of_nil in Hin|].
  cbn [vapply fold_left fmap list_fmap fst snd] in *. fold (vapply (vset V n d') ws).
  apply NoDup_cons in Hn as [H1 H2]. apply elem_of_cons in Hin as [[= <- <-]|Hin].
  - rewrite vapply_notin by done. apply vset_eq.
  - now apply IH.
Qed.

(** The disk as a function of the block number. *)
Definition blk_at (d : list block) (n : Z) : block := aget [] d n.

Lemma vapply_ext V V' ws m : V m = V' m -> vapply V ws m = vapply V' ws m.
Proof.
  revert V V'. induction ws as [|[n d] ws IH]; intros V V' E; [done|].
  cbn [vapply fold_left]. apply IH. cbn [fst snd].
  unfold vset. now destruct (m =? n).
Qed.

Lemma blk_dapply d ws m :
  0 <= m -> (forall w, w ∈ ws -> 0 <= w.1 < Z.of_nat (length d)) ->
  blk_at (dapply d ws) m = vapply (blk_at d) ws m.
Proof.
  intros Hm. revert d. induction ws as [|[n x] ws IH]; intros d Hw; [done|]. cbn [dapply vapply fold_left fst snd].
  fold (dapply (aset d n x) ws). fold (vapply (vset (blk_at d) n x) ws). rewrite IH.
  - apply vapply_ext. unfold blk_at, vset. specialize (Hw (n, x) ltac:(left)). cbn in Hw.
    destruct (Z.eqb_spec m n) as [->|Hne]; [apply aget_aset_eq; lia|apply aget_aset_ne; lia].
  - intros w Hin. rewrite length_aset. apply Hw. now right.
Qed.

Lemma dapply_ok d ws : Forall block_ok d -> Forall block_ok ws.*2 -> Forall block_ok (dapply d ws).
Proof.
  revert d. induction ws as [|[n x] ws IH]; intros d Hd Hw; [done|].
  cbn [dapply fold_left fmap list_fmap fst snd] in *. apply Forall_cons in Hw as [H1 H2]. apply IH; [|done]. now apply Forall_insert.
Qed.

(** * The header block *)

Definition hdr_n (d : block) : Z := s32 (rd32 d 0).
Definition hdr_blocks (d : block) : list Z :=
  (fun i => rd32 d (HDR_BLOCK i)) <$> zrange (Z.to_nat (hdr_n d)).

(** The header block [write_head] writes: [n] and the block numbers [l]. *)
Definition hdr_fill (l : list Z) (k : nat) (d : block) : block :=
  fold_left (fun d i => wr32 d (HDR_BLOCK i) (aget 0 l i)) (zrange k) d.

Lemma hdr_fill_S l k d : hdr_fill l (S k) d = wr32 (hdr_fill l k d) (HDR_BLOCK (Z.of_nat k)) (aget 0 l (Z.of_nat k)).
Proof. unfold hdr_fill. rewrite zrange_S, fold_left_app. done. Qed.

Lemma hdr_fill_ok l k d : block_ok d -> block_ok (hdr_fill l k d).
Proof. intros Hd. induction k as [|k IH]; [done|]. rewrite hdr_fill_S. now apply wr32_ok. Qed.

Lemma hdr_fill_rd l k d i :
  block_ok d -> (k <= 127)%nat ->
  rd32 (hdr_fill l k d) 0 = rd32 d 0 /\
  (0 <= i < Z.of_nat k -> rd32 (hdr_fill l k d) (HDR_BLOCK i) = u32 (aget 0 l i)).
Proof.
  intros Hd. unfold HDR_BLOCK. induction k as [|k IH]; intros Hk; [split; [done|lia]|].
  destruct IH as [IH1 IH2]; [lia|]. rewrite hdr_fill_S. unfold HDR_BLOCK. destruct (hdr_fill_ok l k d Hd) as [Hlen _].
  split.
  - rewrite rd32_wr32_ne by lia. done.
  - intros Hi. destruct (decide (i = Z.of_nat k)) as [->|Hne].
    + rewrite rd32_wr32_eq by lia. done.
    + rewrite rd32_wr32_ne by lia. apply IH2. lia.
Qed.

(** What the header says after it was written. *)
Lemma hdr_written l n d :
  block_ok d -> 0 <= n <= 127 ->
  hdr_n (hdr_fill l (Z.to_nat n) (wr32 d 0 n)) = n /\
  hdr_blocks (hdr_fill l (Z.to_nat n) (wr32 d 0 n)) = (fun i => u32 (aget 0 l i)) <$> zrange (Z.to_nat n).
Proof.
  intros Hd Hn. pose proof (wr32_ok d 0 n Hd) as Hd'.
  assert (E : hdr_n (hdr_fill l (Z.to_nat n) (wr32 d 0 n)) = n).
  { unfold hdr_n. rewrite (proj1 (hdr_fill_rd l (Z.to_nat n) _ 0 Hd' ltac:(lia))). destruct Hd as [Hl _].
    rewrite rd32_wr32_eq by lia. rewrite (u32_small n), s32_small by (unfold is_u32; lia). done. }
  split; [done|]. unfold hdr_blocks. rewrite E. apply list_fmap_ext. intros j x Hx.
  apply zrange_lookup in Hx as [-> Hj]. apply hdr_fill_rd; [done|lia|lia].
Qed.

(** * One block at a time *)

Lemma copy_block d1 d2 : block_ok d1 -> block_ok d2 -> set_bytes d1 0 (bytes_at d2 0 BSIZE) = d2.
Proof.
  intros [H1 _] [H2 _]. apply list_eq. intros i. unfold set_bytes, bytes_at.
  change (Z.to_nat 0) with 0%nat. change (Z.to_nat BSIZE) with 512%nat. rewrite drop_0, take_ge by lia. destruct (decide (i < 512)%nat).
  - rewrite list_lookup_inserts by lia. f_equal. lia.
  - rewrite list_lookup_inserts_ge by lia. rewrite !lookup_ge_None_2 by lia. done.
Qed.

Record wrote (ws : list (Z * block)) (s s' : bst) : Prop := {
  wr_disk : disk s' = dapply (disk s) ws;
  wr_trace : trace s' = trace s ++ ws
}.

Lemma wrote_nil s s' : disk s' = disk s -> trace s' = trace s -> wrote [] s s'.
Proof. intros E1 E2. split; [done|]. now rewrite app_nil_r. Qed.

Lemma wrote_app ws ws' s1 s2 s3 : wrote ws s1 s2 -> wrote ws' s2 s3 -> wrote (ws ++ ws') s1 s3.
Proof. intros [A1 A2] [B1 B2]. split; [now rewrite B1, A1, dapply_app|now rewrite B2, A2, app_assoc]. Qed.

Lemma wrote_disksize ws s s' : wrote ws s s' -> disksize s' = disksize s.
Proof. intros [E _]. unfold disksize. now rewrite E, length_dapply. Qed.

Section LogSpecs.
Context {fuel : Fuel}.
Hypothesis fuel_pos : (0 < wakeups)%nat.

(** The copy of block [n2], changed in the cache only, to block [n1]: a round of
    write_log. *)
Lemma wp_write_log_one g V D n1 n2 c :
  held c = [] -> brep (lg_bio g) V D [] -> n2 ∈ D -> n1 <> n2 ->
  0 <= n1 < disksize (lg_bio g) -> 0 <= n2 < disksize (lg_bio g) -> (size D < NBUF)%nat ->
  wp (let* to := inbio (bread 1 n1) in
      let* from := inbio (bread 1 n2) in
      let* fd := data from in
      let* td := data to in
      put_data to (set_bytes td 0 (bytes_at fd 0 BSIZE)) ;;;
      inbio (bwrite to) ;;; inbio (brelse from) ;;; inbio (brelse to))
    (fun _ c' g' => held c' = [] /\ exists s', g' = set_bio s' g /\
       brep s' (vset V n1 (V n2)) (D ∖ {[n1]}) [] /\ wrote [(n1, V n2)] (lg_bio g) s') c g.
Proof.
  intros Hc R H2 Hne Hr1 Hr2 Hsz. apply wp_bind, wp_zoom.
  eapply wp_bread; [done|done|exact R|apply not_elem_of_nil|done|right; cbn; lia|].
  intros to s1 R1 E1 C1. apply wp_bind, wp_zoom. cbn [lg_bio set_bio].
  assert (D1 : disksize s1 = disksize (lg_bio g)) by (unfold disksize; now rewrite (ca_disk _ _ _ C1)).
  eapply wp_bread; [done|done|exact R1|cbn; lmem|lia|by left|].
  intros from s2 R2 E2 C2. unfold data, put_data. wp_steps. cbn [lg_bio set_bio].
  assert (Ht2 : b_data (bufof to s2) = V n1).
  { rewrite (ca_data _ _ _ C2) by (cbn; left). exact E1. }
  pose proof (br_held _ _ _ _ R2 from n2 ltac:(left)) as Hf.
  pose proof (br_held _ _ _ _ R2 to n1 ltac:(right; left)) as Hto.
  rewrite copy_block by (apply Hf || apply Hto). rewrite E2. apply wp_zoom. bio_steps. cbn [lg_bio set_bio].
  pose proof (brep_data s2 V D _ to n1 (V n2) R2 ltac:(right; left)
    (proj1 (br_disk _ _ _ _ R n2 Hr2))) as R3.
  set (s3 := bset to (set_data (V n2)) s2) in *.
  assert (Hlen : (to < length (bufs s2))%nat).
  { destruct (br_lru _ _ _ _ R2) as [l Hl]. rewrite (lru_len _ _ Hl). destruct Hto as [? _]. lia. }
  assert (E3 : b_data (bufof to s3) = V n2) by (unfold s3; now rewrite bufof_bset_eq).
  assert (Hft : from <> to).
  { pose proof (br_nodup _ _ _ _ R2) as Nd. cbn in Nd. lmem. }
  assert (E3' : b_data (bufof from s3) = V n2) by (unfold s3; now rewrite bufof_bset_ne by congruence).
  apply wp_zoom. cbn [lg_bio set_bio].
  eapply wp_bwrite; [done|exact R3|right; left|]. intros s4 R4 F4 K4 T4. rewrite E3 in *.
  apply wp_bind, wp_zoom. cbn [lg_bio set_bio].
  eapply wp_brelse; [done|exact R4|rewrite F4, E3'; now rewrite vset_ne by congruence|].
  intros c5 s5 Hc5 R5 C5. apply wp_zoom. cbn [lg_bio set_bio].
  eapply wp_brelse; [done|exact R5| |].
  { rewrite (ca_data _ _ _ C5) by (cbn; left). now rewrite F4, E3, vset_eq. }
  intros c6 s6 Hc6 R6 C6. split; [done|]. exists s6. split_and!; [done|exact R6|]. split.
  - rewrite (ca_disk _ _ _ C6), (ca_disk _ _ _ C5), K4. cbn.
    unfold s3. cbn [disk bset set_bufs]. now rewrite (ca_disk _ _ _ C2), (ca_disk _ _ _ C1).
  - rewrite (ca_trace _ _ _ C6), (ca_trace _ _ _ C5), T4.
    unfold s3. cbn [trace bset set_bufs]. now rewrite (ca_trace _ _ _ C2), (ca_trace _ _ _ C1).
Qed.

(** The copy of the log block [n1] to its home [n2]: a round of install_trans. *)
Lemma wp_install_one g V D n1 n2 c :
  held c = [] -> brep (lg_bio g) V D [] -> n1 <> n2 ->
  0 <= n1 < disksize (lg_bio g) -> 0 <= n2 < disksize (lg_bio g) -> (size D < NBUF)%nat ->
  n2 ∈ D \/ (size D + 1 < NBUF)%nat ->
  wp (let* lbuf := inbio (bread 1 n1) in
      let* dbuf := inbio (bread 1 n2) in
      let* ld := data lbuf in
      let* dd := data dbuf in
      put_data dbuf (set_bytes dd 0 (bytes_at ld 0 BSIZE)) ;;;
      inbio (bwrite dbuf) ;;; inbio (brelse lbuf) ;;; inbio (brelse dbuf))
    (fun _ c' g' => held c' = [] /\ exists s', g' = set_bio s' g /\
       brep s' (vset V n2 (V n1)) (D ∖ {[n2]}) [] /\ wrote [(n2, V n1)] (lg_bio g) s') c g.
Proof.
  intros Hc R Hne Hr1 Hr2 Hsz Hroom. apply wp_bind, wp_zoom.
  eapply wp_bread; [done|done|exact R|apply not_elem_of_nil|done|right; cbn; lia|].
  intros lb s1 R1 E1 C1. apply wp_bind, wp_zoom. cbn [lg_bio set_bio].
  assert (D1 : disksize s1 = disksize (lg_bio g)) by (unfold disksize; now rewrite (ca_disk _ _ _ C1)).
  eapply wp_bread; [done|done|exact R1|cbn; lmem|lia|cbn; destruct Hroom; [by left|right; lia]|].
  intros db s2 R2 E2 C2. unfold data, put_data. wp_steps. cbn [lg_bio set_bio].
  assert (Hl2 : b_data (bufof lb s2) = V n1).
  { rewrite (ca_data _ _ _ C2) by (cbn; left). exact E1. }
  pose proof (br_held _ _ _ _ R2 db n2 ltac:(left)) as Hd.
  pose proof (br_held _ _ _ _ R2 lb n1 ltac:(right; left)) as Hl.
  rewrite copy_block by (apply Hd || apply Hl). rewrite Hl2. apply wp_zoom. bio_steps. cbn [lg_bio set_bio].
  pose proof (brep_data s2 V D _ db n2 (V n1) R2 ltac:(left) (proj1 (br_disk _ _ _ _ R n1 Hr1))) as R3.
  set (s3 := bset db (set_data (V n1)) s2) in *.
  assert (Hlen : (db < length (bufs s2))%nat).
  { destruct (br_lru _ _ _ _ R2) as [l Hlr]. rewrite (lru_len _ _ Hlr). destruct Hd as [? _]. lia. }
  assert (E3 : b_data (bufof db s3) = V n1) by (unfold s3; now rewrite bufof_bset_eq).
  assert (Hft : db <> lb).
  { pose proof (br_nodup _ _ _ _ R2) as Nd. cbn in Nd. lmem. }
  assert (E3' : b_data (bufof lb s3) = V n1) by (unfold s3; now rewrite bufof_bset_ne by congruence).
  apply wp_zoom. cbn [lg_bio set_bio].
  eapply wp_bwrite; [done|exact R3|left|]. intros s4 R4 F4 K4 T4. rewrite E3 in *.
  apply wp_bind, wp_zoom. cbn [lg_bio set_bio].
  eapply wp_brelse; [done|eapply brep_perm; [|exact R4]; apply Permutation_swap
    |rewrite F4, E3'; now rewrite vset_ne by congruence|].
  intros c5 s5 Hc5 R5 C5. apply wp_zoom. cbn [lg_bio set_bio].
  eapply wp_brelse; [done|exact R5| |].
  { rewrite (ca_data _ _ _ C5) by (cbn; left). now rewrite F4, E3, vset_eq. }
  intros c6 s6 Hc6 R6 C6. split; [done|]. exists s6. split_and!; [done|exact R6|]. split.
  - rewrite (ca_disk _ _ _ C6), (ca_disk _ _ _ C5), K4. cbn.
    unfold s3. cbn [disk bset set_bufs]. now rewrite (ca_disk _ _ _ C2), (ca_disk _ _ _ C1).
  - rewrite (ca_trace _ _ _ C6), (ca_trace _ _ _ C5), T4.
    unfold s3. cbn [trace bset set_bufs]. now rewrite (ca_trace _ _ _ C2), (ca_trace _ _ _ C1).
Qed.

(** [write_head] writes one block: the header. *)
Definition hdr_of (g : logst) (d : block) : block :=
  hdr_fill (lh_block g) (Z.to_nat (lh_n g)) (wr32 d 0 (lh_n g)).

Lemma wp_write_head g V D c :
  held c = [] -> brep (lg_bio g) V D [] -> lg_dev g = 1 -> 0 <= lg_start g < disksize (lg_bio g) ->
  disksize (lg_bio g) < 2147483648 -> (size D < NBUF)%nat ->
  wp write_head (fun _ c' g' => held c' = [] /\ exists s', g' = set_bio s' g /\
     brep s' (vset V (lg_start g) (hdr_of g (V (lg_start g)))) (D ∖ {[lg_start g]}) [] /\
     wrote [(lg_start g, hdr_of g (V (lg_start g)))] (lg_bio g) s') c g.
Proof.
  intros Hc R Hdev Hst Hds Hsz. unfold write_head. wp_steps. rewrite Hdev.
  rewrite u32_small by (unfold is_u32; lia). apply wp_zoom.
  eapply wp_bread; [done|done|exact R|apply not_elem_of_nil|done|right; cbn; lia|].
  intros b s1 R1 E1 C1. unfold data, put_data. wp_steps. apply wp_zoom. bio_steps. cbn [lg_bio set_bio].
  rewrite E1. set (n := lg_start g) in *. set (d0 := wr32 (V n) 0 (lh_n g)).
  assert (Hok : block_ok (V n)) by apply (br_disk _ _ _ _ R n Hst).
  assert (Hlen : (b < length (bufs s1))%nat).
  { destruct (br_lru _ _ _ _ R1) as [l Hlr]. rewrite (lru_len _ _ Hlr).
    destruct (br_held _ _ _ _ R1 b n ltac:(left)) as [? _]. lia. }
  apply (wp_for_zrange _ _ (fun k c' g' => held c' = [] /\
    g' = set_bio (bset b (set_data (hdr_fill (lh_block g) k d0)) s1) g)).
  - split; [done|]. done.
  - intros k c' g' Hk [Hc' ->]. wp_steps. cbn [lg_bio set_bio]. apply wp_zoom. bio_steps. split; [done|].
    cbn [lg_bio set_bio]. rewrite bufof_bset_eq by done. cbn [b_data set_data].
    rewrite hdr_fill_S, bset_bset. done.
  - intros c' g' [Hc' ->]. fold d0. fold (hdr_of g (V n)). set (s2 := bset b _ s1).
    assert (R2 : brep s2 V D [(b, n)]).
    { eapply brep_data; [exact R1|left|]. now apply hdr_fill_ok, wr32_ok. }
    assert (E2 : b_data (bufof b s2) = hdr_of g (V n)) by (unfold s2; now rewrite bufof_bset_eq).
    apply wp_bind, wp_zoom. cbn [lg_bio set_bio].
    eapply wp_bwrite; [done|exact R2|left|]. intros s4 R4 F4 K4 T4. rewrite E2 in *.
    apply wp_zoom. cbn [lg_bio set_bio]. eapply wp_brelse; [done|exact R4|rewrite F4, E2; now rewrite vset_eq|].
    intros c6 s6 Hc6 R6 C6. split; [done|]. exists s6. split_and!; [done|exact R6|]. split.
    + rewrite (ca_disk _ _ _ C6), K4. cbn. unfold s2. cbn [disk bset set_bufs]. now rewrite (ca_disk _ _ _ C1).
    + rewrite (ca_trace _ _ _ C6), T4. unfold s2. cbn [trace bset set_bufs]. now rewrite (ca_trace _ _ _ C1).
Qed.

End LogSpecs.

(** * The loops *)

(** The log holds the blocks [bs]: they are distinct, on the disk, outside the
    log's own blocks, and fit in the log and in the cache. *)
Record log_shape (g : logst) (bs : list Z) : Prop := {
  ls_dev : lg_dev g = 1;
  ls_n : lh_n g = Z.of_nat (length bs);
  ls_len : length (lh_block g) = 30%nat;
  ls_block : forall i, 0 <= i < Z.of_nat (length bs) -> aget 0 (lh_block g) i = aget 0 bs i;
  ls_start : 0 <= lg_start g;
  ls_end : lg_start g + lg_size g <= disksize (lg_bio g);
  ls_small : disksize (lg_bio g) < 2147483648;
  ls_fits : Z.of_nat (length bs) < lg_size g;
  ls_cache : (length bs < NBUF)%nat;
  ls_nodup : NoDup bs;
  ls_range : forall x, x ∈ bs -> 0 <= x < disksize (lg_bio g) /\ ~ (lg_start g <= x < lg_start g + lg_size g)
}.

Lemma log_shape_bio g bs s : disksize s = disksize (lg_bio g) -> log_shape g bs -> log_shape (set_bio s g) bs.
Proof. intros E [? ? ? ? ? ? ? ? ? ? ?]. split; cbn [set_bio lg_bio lg_dev lh_n lh_block lg_start lg_size]; rewrite ?E; done. Qed.

(** The first [k] writes of write_log and of install_trans. *)
Definition lws (g : logst) (bs : list Z) (V : Z -> block) (k : nat) : list (Z * block) :=
  (fun i => (lg_start g + i + 1, V (aget 0 bs i))) <$> zrange k.
Definition iws (g : logst) (bs : list Z) (V : Z -> block) (k : nat) : list (Z * block) :=
  (fun i => (aget 0 bs i, V (lg_start g + i + 1))) <$> zrange k.

Lemma lws_S g bs V k : lws g bs V (S k) =
  lws g bs V k ++ [(lg_start g + Z.of_nat k + 1, V (aget 0 bs (Z.of_nat k)))].
Proof. unfold lws. now rewrite zrange_S, fmap_app. Qed.
Lemma iws_S g bs V k : iws g bs V (S k) =
  iws g bs V k ++ [(aget 0 bs (Z.of_nat k), V (lg_start g + Z.of_nat k + 1))].
Proof. unfold iws. now rewrite zrange_S, fmap_app. Qed.

Lemma aget_in (bs : list Z) k : (k < length bs)%nat -> aget 0 bs (Z.of_nat k) ∈ bs.
Proof.
  intros Hk. unfold aget. rewrite Nat2Z.id. destruct (lookup_lt_is_Some_2 bs k Hk) as [x E]. rewrite E.
  now apply list_elem_of_lookup_2 in E.
Qed.

Lemma lws_keys g bs V k m : m ∈ (lws g bs V k).*1 -> lg_start g < m <= lg_start g + Z.of_nat k.
Proof.
  intros H. apply list_elem_of_fmap in H as ([a b] & -> & H). apply list_elem_of_fmap in H as (i & [= -> ->] & H).
  apply elem_of_zrange in H. cbn. lia.
Qed.

Lemma iws_keys g bs V k m : (k <= length bs)%nat -> m ∈ (iws g bs V k).*1 -> m ∈ bs.
Proof.
  intros Hk H. apply list_elem_of_fmap in H as ([a b] & -> & H). apply list_elem_of_fmap in H as (i & [= -> ->] & H).
  apply elem_of_zrange in H. cbn. replace i with (Z.of_nat (Z.to_nat i)) by lia. apply aget_in. lia.
Qed.

Lemma diff_take_S (D : gset Z) (bs : list Z) (k : nat) x :
  bs !! k = Some x -> D ∖ list_to_set (take (S k) bs) = D ∖ list_to_set (take k bs) ∖ {[x]}.
Proof.
  intros E. apply set_eq. intros y. rewrite (take_S_r _ _ _ E).
  rewrite !elem_of_difference, !elem_of_list_to_set, elem_of_singleton, elem_of_app, elem_of_cons, elem_of_nil. tauto.
Qed.

Section LogLoops.
Context {fuel : Fuel}.
Hypothesis fuel_pos : (0 < wakeups)%nat.

Lemma wp_write_log g bs V c :
  held c = [] -> log_shape g bs -> brep (lg_bio g) V (list_to_set bs) [] ->
  wp write_log (fun _ c' g' => held c' = [] /\ exists s', g' = set_bio s' g /\
     brep s' (vapply V (lws g bs V (length bs))) (list_to_set bs) [] /\
     wrote (lws g bs V (length bs)) (lg_bio g) s') c g.
Proof.
  intros Hc L R. unfold write_log. wp_steps. rewrite (ls_n _ _ L), Nat2Z.id.
  apply (wp_for_zrange _ _ (fun k c' g' => held c' = [] /\ exists s', g' = set_bio s' g /\
    brep s' (vapply V (lws g bs V k)) (list_to_set bs) [] /\ wrote (lws g bs V k) (lg_bio g) s')).
  - split; [done|]. exists (lg_bio g). split_and!; [now destruct g|done|now apply wrote_nil].
  - intros k c' g' Hk (Hc' & s' & -> & Rk & Wk). apply wp_bind, wp_get. cbn [set_bio lg_dev lg_start lh_block].
    pose proof (wrote_disksize _ _ _ Wk) as Ds. pose proof (ls_end _ _ L). pose proof (ls_small _ _ L).
    pose proof (ls_fits _ _ L). pose proof (ls_start _ _ L).
    rewrite (ls_dev _ _ L), (ls_block _ _ L) by lia.
    pose proof (aget_in bs k Hk) as Hin. destruct (ls_range _ _ L _ Hin) as [Hr Ho].
    rewrite (u32_small (lg_start g + _ + 1)), (u32_small (aget _ _ _)) by (unfold is_u32; lia).
    set (n1 := lg_start g + Z.of_nat k + 1). set (n2 := aget 0 bs (Z.of_nat k)) in *.
    eapply wp_mono; [apply (wp_write_log_one fuel_pos (set_bio s' g) (vapply V (lws g bs V k)) (list_to_set bs) n1 n2)|]; try done.
    + now apply elem_of_list_to_set.
    + lia.
    + cbn. rewrite Ds. lia.
    + cbn. rewrite Ds. lia.
    + rewrite size_list_to_set by apply L. apply L.
    + intros _ c1 g1 (Hc1 & s1 & -> & R1 & W1). split; [done|]. exists s1. split; [done|].
      assert (EV : vapply V (lws g bs V k) n2 = V n2).
      { apply vapply_notin. intros Hi. apply lws_keys in Hi. lia. }
      rewrite EV in *. rewrite lws_S, vapply_app. fold n1 n2. split.
      * replace (list_to_set bs : gset Z) with (list_to_set bs ∖ {[n1]} : gset Z); [exact R1|].
        apply difference_disjoint_L, disjoint_singleton_r. rewrite elem_of_list_to_set. intros Hi.
        apply (ls_range _ _ L) in Hi. lia.
      * eapply wrote_app; eassumption.
  - intros c' g' H. exact H.
Qed.

Lemma wp_install_trans g bs V D c :
  held c = [] -> log_shape g bs -> brep (lg_bio g) V D [] -> (size D < NBUF)%nat ->
  (forall x, x ∈ bs -> x ∈ D) \/ (size D + 1 < NBUF)%nat ->
  wp install_trans (fun _ c' g' => held c' = [] /\ exists s', g' = set_bio s' g /\
     brep s' (vapply V (iws g bs V (length bs))) (D ∖ list_to_set bs) [] /\
     wrote (iws g bs V (length bs)) (lg_bio g) s') c g.
Proof.
  intros Hc L R Hsz Hroom. unfold install_trans. wp_steps. rewrite (ls_n _ _ L), Nat2Z.id.
  apply (wp_for_zrange _ _ (fun k c' g' => held c' = [] /\ exists s', g' = set_bio s' g /\
    brep s' (vapply V (iws g bs V k)) (D ∖ list_to_set (take k bs)) [] /\ wrote (iws g bs V k) (lg_bio g) s')).
  - split; [done|]. exists (lg_bio g). split_and!; [now destruct g| |now apply wrote_nil].
    change (list_to_set (take 0 bs)) with (∅ : gset Z). now rewrite difference_empty_L.
  - intros k c' g' Hk (Hc' & s' & -> & Rk & Wk). apply wp_bind, wp_get. cbn [set_bio lg_dev lg_start lh_block].
    pose proof (wrote_disksize _ _ _ Wk) as Ds. pose proof (ls_end _ _ L). pose proof (ls_small _ _ L).
    pose proof (ls_fits _ _ L). pose proof (ls_start _ _ L).
    rewrite (ls_dev _ _ L), (ls_block _ _ L) by lia.
    pose proof (aget_in bs k Hk) as Hin. destruct (ls_range _ _ L _ Hin) as [Hr Ho].
    rewrite (u32_small (lg_start g + _ + 1)), (u32_small (aget _ _ _)) by (unfold is_u32; lia).
    set (n1 := lg_start g + Z.of_nat k + 1). set (n2 := aget 0 bs (Z.of_nat k)) in *.
    assert (Elk : bs !! k = Some n2).
    { unfold n2, aget. rewrite Nat2Z.id. now destruct (lookup_lt_is_Some_2 bs k Hk) as [x ->]. }
    assert (Hsz' : (size (D ∖ list_to_set (take k bs)) <= size D)%nat) by apply subseteq_size, subseteq_difference_l, reflexivity.
    eapply wp_mono; [apply (wp_install_one fuel_pos (set_bio s' g) (vapply V (iws g bs V k)) (D ∖ list_to_set (take k bs)) n1 n2)|];
      try done; cbn [lg_bio set_bio]; rewrite ?Ds; try lia.
    + destruct Hroom as [Hall|Hroom]; [left|right; lia]. apply elem_of_difference. split; [now apply Hall|].
      rewrite elem_of_list_to_set. intros Hi. apply list_elem_of_lookup in Hi as [j Ej]. apply lookup_take_Some in Ej as [Ej Hj].
      pose proof (NoDup_lookup _ _ _ _ (ls_nodup _ _ L) Elk Ej). lia.
    + intros _ c1 g1 (Hc1 & s1 & -> & R1 & W1). split; [done|]. exists s1. split; [done|].
      assert (EV : vapply V (iws g bs V k) n1 = V n1).
      { apply vapply_notin. intros Hi. apply iws_keys in Hi; [|lia]. apply (ls_range _ _ L) in Hi. lia. }
      rewrite EV in *. rewrite iws_S, vapply_app. fold n1 n2. split; [|eapply wrote_app; eassumption].
      now rewrite (diff_take_S _ _ _ _ Elk).
  - intros c' g' (Hc' & s' & -> & Rk & Wk). rewrite firstn_all in Rk. split; [done|]. eauto.
Qed.

End LogLoops.

(** * commit *)

(** The writes of [commit]: the changed blocks to the log, the header, the blocks
    to their homes, the empty header. *)
Definition home_ws (bs : list Z) (V : Z -> block) : list (Z * block) := (fun x => (x, V x)) <$> bs.
Definition commit_ws (g : logst) (bs : list Z) (V : Z -> block) : list (Z * block) :=
  let h1 := hdr_of g (V (lg_start g)) in
  lws g bs V (length bs) ++ (lg_start g, h1) :: home_ws bs V ++ [(lg_start g, wr32 h1 0 0)].

Lemma home_keys bs V : (home_ws bs V).*1 = bs.
Proof. unfold home_ws. rewrite <- list_fmap_compose. apply list_fmap_id. Qed.

Lemma zrange_map {A} (f : Z -> A) (bs : list Z) :
  (fun i => f (aget 0 bs i)) <$> zrange (length bs) = f <$> bs.
Proof.
  apply list_eq. intros i. rewrite !list_lookup_fmap. destruct (decide (i < length bs)%nat) as [Hi|Hi].
  - destruct (lookup_lt_is_Some_2 bs i Hi) as [x E]. rewrite E.
    destruct (lookup_lt_is_Some_2 (zrange (length bs)) i) as [y Ey]; [now rewrite length_zrange|].
    rewrite Ey. apply zrange_lookup in Ey as [-> _]. cbn. unfold aget. now rewrite Nat2Z.id, E.
  - rewrite !lookup_ge_None_2; [done|lia|rewrite length_zrange; lia].
Qed.

(** The log blocks hold the new contents, in the order of the header. *)
Lemma lws_nodup g bs V k : NoDup (lws g bs V k).*1.
Proof.
  unfold lws. rewrite <- list_fmap_compose. apply NoDup_fmap_2_strong.
  - cbn. intros x y _ _ E. lia.
  - apply NoDup_zrange.
Qed.

Lemma lws_in g bs V i :
  0 <= i < Z.of_nat (length bs) -> (lg_start g + i + 1, V (aget 0 bs i)) ∈ lws g bs V (length bs).
Proof. intros Hi. apply list_elem_of_fmap. exists i. split; [done|]. now apply elem_of_zrange. Qed.

Section Commit.
Context {fuel : Fuel}.
Hypothesis fuel_pos : (0 < wakeups)%nat.

Lemma wp_commit g bs V c :
  held c = [] -> log_shape g bs -> brep (lg_bio g) V (list_to_set bs) [] -> bs <> [] ->
  wp commit (fun _ c' g' => held c' = [] /\ exists s', g' = set_n 0 (set_bio s' g) /\
     brep s' (vapply V (commit_ws g bs V)) ∅ [] /\ wrote (commit_ws g bs V) (lg_bio g) s') c g.
Proof.
  intros Hc L R Hne. unfold commit. apply wp_bind, wp_gets. rewrite (ls_n _ _ L).
  rewrite (proj2 (Z.ltb_lt 0 _)) by (destruct bs; [done|cbn; lia]). cbn [when].
  pose proof (ls_end _ _ L). pose proof (ls_small _ _ L). pose proof (ls_fits _ _ L). pose proof (ls_start _ _ L).
  set (st := lg_start g) in *.
  assert (HstD : (list_to_set bs : gset Z) ∖ {[st]} = list_to_set bs).
  { apply difference_disjoint_L, disjoint_singleton_r. rewrite elem_of_list_to_set. intros Hi.
    apply (ls_range _ _ L) in Hi. fold st in Hi. lia. }
  assert (Hsz : (size (list_to_set bs : gset Z) < NBUF)%nat) by (rewrite size_list_to_set by apply L; apply L).
  apply wp_bind. eapply wp_mono; [apply (wp_write_log fuel_pos g bs V); done|].
  intros _ c1 g1 (Hc1 & s1 & -> & R1 & W1). set (V1 := vapply V (lws g bs V (length bs))) in *.
  pose proof (wrote_disksize _ _ _ W1) as D1.
  apply wp_bind. eapply wp_mono; [apply (wp_write_head fuel_pos (set_bio s1 g) V1); cbn [set_bio lg_bio lg_dev lg_start];
    fold st; try done; [apply L|rewrite D1; lia|lia]|].
  cbn [set_bio lg_bio lg_start]. fold st.
  assert (EV1 : V1 st = V st) by (apply vapply_notin; intros Hi; apply lws_keys in Hi; fold st in Hi; lia).
  rewrite EV1. change (hdr_of (set_bio s1 g) (V st)) with (hdr_of g (V st)). set (h1 := hdr_of g (V st)).
  intros _ c2 g2 (Hc2 & s2 & -> & R2 & W2). rewrite HstD in R2. pose proof (wrote_disksize _ _ _ W2) as D2.
  change (set_bio s2 (set_bio s1 g)) with (set_bio s2 g).
  apply wp_bind. eapply wp_mono; [eapply (wp_install_trans fuel_pos (set_bio s2 g) bs); [done| |exact R2|done|]|].
  { apply log_shape_bio; [lia|done]. }
  { left. intros x Hx. now apply elem_of_list_to_set. }
  assert (Ei : iws (set_bio s2 g) bs (vset V1 st h1) (length bs) = home_ws bs V).
  { unfold home_ws. rewrite <- zrange_map. unfold iws. apply list_fmap_ext. intros j x Hx.
    apply zrange_lookup in Hx as [-> Hj]. cbn [set_bio lg_start]. fold st. f_equal.
    rewrite vset_ne by lia. eapply vapply_in; [apply lws_nodup|]. apply (lws_in g bs V). lia. }
  rewrite Ei. intros _ c3 g3 (Hc3 & s3 & -> & R3 & W3). pose proof (wrote_disksize _ _ _ W3) as D3.
  cbn [set_bio lg_bio] in W3, D3. rewrite difference_diag_L in R3. wp_steps.
  change (set_n 0 (set_bio s3 (set_bio s2 g))) with (set_bio s3 (set_n 0 g)).
  set (V3 := vapply (vset V1 st h1) (home_ws bs V)) in *.
  assert (EV3 : V3 st = h1).
  { unfold V3. rewrite vapply_notin; [apply vset_eq|]. rewrite home_keys. intros Hi.
    apply (ls_range _ _ L) in Hi. fold st in Hi. lia. }
  eapply wp_mono; [apply (wp_write_head fuel_pos (set_bio s3 (set_n 0 g)) V3 ∅);
    cbn [set_bio set_n lg_bio lg_dev lg_start]; fold st; try done; [apply L|lia|lia|rewrite size_empty; unfold NBUF; lia]|].
  cbn [set_bio set_n lg_bio lg_start]. fold st. rewrite EV3.
  change (hdr_of (set_bio s3 (set_n 0 g)) h1) with (wr32 h1 0 0).
  intros _ c4 g4 (Hc4 & s4 & -> & R4 & W4). split; [done|]. exists s4. split; [done|].
  assert (EW : commit_ws g bs V = ((lws g bs V (length bs) ++ [(st, h1)]) ++ home_ws bs V) ++ [(st, wr32 h1 0 0)]).
  { unfold commit_ws. fold st h1. now rewrite <- !app_assoc. }
  rewrite EW. split; [|eauto using wrote_app].
  rewrite !vapply_app. replace (∅ : gset Z) with (∅ ∖ {[st]} : gset Z); [exact R4|]. apply set_eq. intros x.
  rewrite elem_of_difference, elem_of_empty. tauto.
Qed.
End Commit.

(** * begin_op and log_write *)

Section Ops.
Context {fuel : Fuel}.
Hypothesis fuel_pos : (0 < wakeups)%nat.

Lemma wp_begin_op g (Q : unit -> ctx -> logst -> Prop) c :
  held c = [] -> lg_committing g = false -> lh_n g + (lg_outstanding g + 1) * MAXOPBLOCKS <= LOGSIZE ->
  Q tt c (set_outstanding (lg_outstanding g + 1) g) -> wp begin_op Q c g.
Proof.
  intros Hc Hcm Hroom HQ. unfold begin_op. destruct c as [h w]. cbn in Hc. subst h. wp_steps.
  destruct wakeups as [|f]; [lia|]. cbn [blocks]. unfold begin_op_step. wp_steps. rewrite Hcm.
  rewrite (proj2 (Z.ltb_ge _ _)) by done. wp_steps. exact HQ.
Qed.
End Ops.

Definition bs_add (n : Z) (bs : list Z) : list Z := if decide (n ∈ bs) then bs else bs ++ [n].

Lemma log_index_spec blocks bs n :
  (forall i, 0 <= i < Z.of_nat (length bs) -> aget 0 blocks i = aget 0 bs i) ->
  (forall x, x ∈ bs -> is_u32 x) ->
  forall m k, (k + m = length bs)%nat -> (forall j, (j < k)%nat -> bs !! j <> Some n) ->
  let i := log_index blocks n (Z.of_nat k) m in
  (n ∈ bs /\ 0 <= i < Z.of_nat (length bs) /\ aget 0 bs i = n) \/ (n ∉ bs) /\ i = Z.of_nat (length bs).
Proof.
  intros Hb Hu. induction m as [|m IH]; intros k Hk Hno; cbn [log_index].
  - right. split; [|lia]. intros Hin. apply list_elem_of_lookup in Hin as [j Hj].
    apply (Hno j); [|done]. apply lookup_lt_Some in Hj. lia.
  - pose proof (aget_in bs k ltac:(lia)) as Hin. rewrite Hb, u32_small by (lia || now apply Hu).
    destruct (Z.eqb_spec (aget 0 bs (Z.of_nat k)) n) as [E|E].
    + left. rewrite <- E at 1. split_and!; [done|lia|lia|done].
    + replace (Z.of_nat k + 1) with (Z.of_nat (S k)) by lia. apply IH; [lia|]. intros j Hj Hjn.
      destruct (decide (j = k)) as [->|]; [|apply (Hno j); [lia|done]]. apply E. unfold aget. now rewrite Nat2Z.id, Hjn.
Qed.

(** [log_write] adds the block to the log, once, and its data to the contents. *)
Lemma wp_log_write g bs V H b n c (Q : unit -> ctx -> logst -> Prop) :
  held c = [] -> log_shape g bs -> brep (lg_bio g) V (list_to_set bs) H -> (b, n) ∈ H ->
  1 <= lg_outstanding g -> Z.of_nat (length bs) < LOGSIZE - 1 -> Z.of_nat (length bs) < lg_size g - 1 ->
  ~ (lg_start g <= n < lg_start g + lg_size g) ->
  (forall g', log_shape g' (bs_add n bs) ->
     brep (lg_bio g') (vset V n (b_data (bufof b (lg_bio g)))) (list_to_set (bs_add n bs)) H ->
     lg_outstanding g' = lg_outstanding g -> lg_start g' = lg_start g -> lg_size g' = lg_size g ->
     lg_committing g' = lg_committing g -> disk (lg_bio g') = disk (lg_bio g) ->
     (forall x, b_data (bufof x (lg_bio g')) = b_data (bufof x (lg_bio g))) -> Q tt c g') ->
  wp (log_write b) Q c g.
Proof.
  intros Hc L R Hin Hout Hn1 Hn2 Hlog HQ. unfold log_write. wp_steps. rewrite (ls_n _ _ L).
  rewrite (proj2 (Z.leb_gt LOGSIZE _)) by lia. rewrite (proj2 (Z.leb_gt (lg_size g - 1) _)) by lia. cbn [orb].
  rewrite (proj2 (Z.ltb_ge _ _)) by lia. destruct c as [h w]. cbn in Hc. subst h.
  destruct (br_held _ _ _ _ R b n Hin) as (Hb & K1 & K2 & K3 & K4 & K5 & K6 & K7).
  wp_steps. rewrite K2, (ls_n _ _ L), Nat2Z.id.
  assert (Hu : forall x, x ∈ bs -> is_u32 x).
  { intros x Hx. apply (ls_range _ _ L) in Hx. pose proof (ls_small _ _ L). unfold is_u32. lia. }
  pose proof (log_index_spec _ bs n (ls_block _ _ L) Hu (length bs) 0%nat ltac:(lia) ltac:(lia)) as Hi.
  change (Z.of_nat 0) with 0 in Hi. set (i := log_index _ _ _ _) in *. cbv zeta in Hi.
  pose proof (ls_small _ _ L) as Hsm. rewrite s32_small by lia. unfold LOGSIZE, MAXOPBLOCKS in *.
  assert (G : forall m' Q', (forall g', g' = set_bio (bset b (fun q => set_flags (Z.lor (b_flags q) B_DIRTY) q) (lg_bio g))
      (set_n m' (set_block (aset (lh_block g) i n) g)) -> Q' tt (Ctx [LLog] w) g') ->
    wp (inbio (bmod b (fun q => set_flags (Z.lor (b_flags q) B_DIRTY) q))) Q' (Ctx [LLog] w)
      (set_n m' (set_block (aset (lh_block g) i n) g))).
  { intros m' Q' HQ'. apply wp_zoom. bio_steps. now apply HQ'. }
  pose proof (brep_mark _ _ _ _ b n R Hin) as R'.
  assert (Hdat : forall x, b_data (bufof x (bset b (fun q => set_flags (Z.lor (b_flags q) B_DIRTY) q) (lg_bio g))) =
    b_data (bufof x (lg_bio g))).
  { intros x. destruct (decide (b = x)) as [<-|]; [|now rewrite bufof_bset_ne].
    destruct (br_lru _ _ _ _ R) as [l Hl]. rewrite bufof_bset_eq by (rewrite (lru_len _ _ Hl); lia). done. }
  destruct Hi as [(Hnb & Hi & Ei)|[Hnb Ei]].
  - rewrite (proj2 (Z.eqb_neq _ _)) by lia. wp_steps.
    replace (set_block (aset (lh_block g) i n) g) with (set_n (lh_n g) (set_block (aset (lh_block g) i n) g)) by now destruct g.
    apply G. intros g' ->. wp_steps. apply HQ; try done.
    + unfold bs_add. rewrite decide_True by done. destruct L. split; try done.
      * cbn. now rewrite length_aset.
      * intros j Hj. cbn. destruct (decide (j = i)) as [->|Hne].
        -- rewrite aget_aset_eq by lia. congruence.
        -- rewrite aget_aset_ne by lia. auto.
    + unfold bs_add. rewrite decide_True by done.
      replace (list_to_set bs : gset Z) with ({[n]} ∪ list_to_set bs : gset Z); [exact R'|].
      apply subseteq_union_1_L, singleton_subseteq_l. now apply elem_of_list_to_set.
  - rewrite (proj2 (Z.eqb_eq i _)) by done. wp_steps. apply G. intros g' ->. wp_steps. apply HQ; try done.
    + unfold bs_add. rewrite decide_False by done. destruct L as [L1 L2 L3 L4 L5 L6 L7 L8 L9 L10 L11].
      split; cbn [lg_dev lh_n lh_block lg_start lg_size lg_bio set_bio set_n set_block].
      * done.
      * rewrite length_app. cbn. lia.
      * now rewrite length_aset.
      * rewrite length_app. cbn [length]. intros j Hj. destruct (decide (j = i)) as [->|Hne].
        -- rewrite aget_aset_eq by lia. unfold aget. rewrite Ei, Nat2Z.id.
           rewrite lookup_app_r by lia. rewrite Nat.sub_diag. done.
        -- rewrite aget_aset_ne by lia. rewrite L4 by lia. unfold aget. rewrite lookup_app_l by lia. done.
      * done.
      * done.
      * done.
      * rewrite length_app. cbn. lia.
      * rewrite length_app. cbn. unfold NBUF. lia.
      * apply NoDup_app. split_and!; [done| |apply NoDup_singleton]. intros x Hx Hx'. lmem.
      * intros x Hx. apply elem_of_app in Hx as [Hx|Hx]; [now apply L11|].
        apply elem_of_cons in Hx as [->|Hx]; [|now apply elem_of_nil in Hx]. done.
    + unfold bs_add. rewrite decide_False by done.
      replace (list_to_set (bs ++ [n]) : gset Z) with ({[n]} ∪ list_to_set bs : gset Z); [exact R'|].
      apply set_eq. intros x. rewrite elem_of_union, !elem_of_list_to_set, elem_of_app, elem_of_singleton, elem_of_cons, elem_of_nil. tauto.
Qed.
