(* ===== verification/LogCrash.v ===== *)
(** Crashes: the disk that any prefix of the writes of [commit] leaves, and what
    [initlog] makes of it at the next boot. *)
From S2P Require Import Prelude Monad Mem Mmu Sleeplock Disk Bio Bcache Log LogProps.

(** * The contents a disk stands for *)

Fixpoint index_of (x : Z) (l : list Z) : option nat :=
  match l with
  | [] => None
  | y :: l' => if y =? x then Some 0%nat else S <$> index_of x l'
  end.

Lemma index_of_Some x l i : index_of x l = Some i -> l !! i = Some x.
Proof.
  revert i. induction l as [|y l IH]; intros i; simpl; [done|]. destruct (Z.eqb_spec y x) as [->|].
  - intros [= <-]. done.
  - destruct (index_of x l) as [j|]; [|done]. intros [= <-]. now apply IH.
Qed.

Lemma index_of_None x l : index_of x l = None <-> x ∉ l.
Proof.
  induction l as [|y l IH]; simpl.
  - split; [intros _; apply not_elem_of_nil|done].
  - rewrite not_elem_of_cons, <- IH. destruct (Z.eqb_spec y x) as [->|]; [split; [done|tauto]|].
    destruct (index_of x l); cbn; [split; [done|intros [_ ?]; done]|].
    split; [intros _; split; [congruence|done]|done].
Qed.

(** A block listed in the header of a committed transaction is in the log, every
    other block is at its place. *)
Definition logical (start : Z) (d : list block) (x : Z) : block :=
  match index_of x (hdr_blocks (blk_at d start)) with
  | Some i => blk_at d (start + Z.of_nat i + 1)
  | None => blk_at d x
  end.

(** A disk with a superblock and a log, whose header lists distinct blocks of the
    file system. *)
Record disk_ok (start size : Z) (d : list block) : Prop := {
  dk_blocks : Forall block_ok d;
  dk_len : Z.of_nat (length d) < 2147483648;
  dk_super : sb_logstart (superblock_of (blk_at d 1)) = start /\ sb_nlog (superblock_of (blk_at d 1)) = size;
  dk_range : 1 < start /\ 0 < size /\ start + size <= Z.of_nat (length d);
  dk_n : 0 <= hdr_n (blk_at d start) < 30;
  dk_fits : hdr_n (blk_at d start) < size;
  dk_nodup : NoDup (hdr_blocks (blk_at d start));
  dk_home : forall x, x ∈ hdr_blocks (blk_at d start) ->
    1 < x < Z.of_nat (length d) /\ ~ (start <= x < start + size)
}.

Lemma length_hdr_blocks d : length (hdr_blocks d) = Z.to_nat (hdr_n d).
Proof. unfold hdr_blocks. now rewrite length_fmap, length_zrange. Qed.

(** Writes that keep a disk well formed: they leave the superblock alone, and the
    header they leave lists proper blocks. *)
Lemma disk_ok_writes start size d ws :
  disk_ok start size d -> Forall block_ok ws.*2 -> (1 ∉ ws.*1) ->
  (forall w, w ∈ ws -> 0 <= w.1 < Z.of_nat (length d)) ->
  (let h := vapply (blk_at d) ws start in
   0 <= hdr_n h < 30 /\ hdr_n h < size /\ NoDup (hdr_blocks h) /\
   forall x, x ∈ hdr_blocks h -> 1 < x < Z.of_nat (length d) /\ ~ (start <= x < start + size)) ->
  disk_ok start size (dapply d ws).
Proof.
  intros [K1 K2 K3 K4 K5 K6 K7 K8] Hok H1 Hr (H2 & H3 & H4 & H5).
  assert (E1 : blk_at (dapply d ws) 1 = blk_at d 1) by (rewrite blk_dapply by (done || lia); now apply vapply_notin).
  assert (E2 : blk_at (dapply d ws) start = vapply (blk_at d) ws start) by (apply blk_dapply; [lia|done]).
  split; rewrite ?length_dapply, ?E1, ?E2; try done. now apply dapply_ok.
Qed.

(** * Every prefix of the writes of commit *)

Section Prefix.
Variables (g : logst) (bs : list Z) (V : Z -> block) (d : list block) (size : Z).
Let st := lg_start g.
Hypothesis Hd : disk_ok st size d.
Hypothesis Hsize : lg_size g = size.
Hypothesis Hempty : hdr_blocks (blk_at d st) = [].
Hypothesis Hlen : (length bs < 30)%nat.
Hypothesis Hfits : Z.of_nat (length bs) < size.
Hypothesis Hnd : NoDup bs.
Hypothesis Hhome : forall x, x ∈ bs -> 1 < x < Z.of_nat (length d) /\ ~ (st <= x < st + size).
Hypothesis Hn : lh_n g = Z.of_nat (length bs).
Hypothesis Hblk : forall i, 0 <= i < Z.of_nat (length bs) -> aget 0 (lh_block g) i = aget 0 bs i.
Hypothesis HVok : forall x, 0 <= x < Z.of_nat (length d) -> block_ok (V x).
Hypothesis HV : forall x, 0 <= x < Z.of_nat (length d) -> (x ∉ bs) -> V x = blk_at d x.

Let n := length bs.
Let lw := lws g bs V n.
Let h1 := hdr_of g (V st).
Let h0 := wr32 h1 0 0.
Let hw := home_ws bs V.

Lemma st_ok : block_ok (V st).
Proof. apply HVok. destruct (dk_range _ _ _ Hd) as (? & ? & ?). lia. Qed.

Lemma h1_hdr : hdr_n h1 = Z.of_nat n /\ hdr_blocks h1 = bs /\ block_ok h1.
Proof.
  unfold h1, hdr_of. rewrite Hn. pose proof st_ok as Hs.
  destruct (hdr_written (lh_block g) (Z.of_nat (length bs)) (V st) Hs ltac:(lia)) as [E1 E2].
  split_and!; [exact E1| |now apply hdr_fill_ok, wr32_ok]. rewrite E2, Nat2Z.id.
  transitivity ((fun i => id (aget 0 bs i)) <$> zrange (length bs)); [|rewrite (zrange_map id); apply list_fmap_id].
  apply list_fmap_ext. intros j x Hx.
  apply zrange_lookup in Hx as [-> Hj]. rewrite Hblk by lia. unfold id. apply u32_small.
  pose proof (dk_len _ _ _ Hd). destruct (Hhome _ (aget_in bs j Hj)) as [? _]. unfold is_u32. lia.
Qed.

Lemma h0_hdr : hdr_n h0 = 0 /\ hdr_blocks h0 = [] /\ block_ok h0.
Proof.
  destruct h1_hdr as (_ & _ & Hok). destruct (hdr_written [] 0 h1 Hok ltac:(lia)) as [E1 E2].
  change (hdr_fill [] (Z.to_nat 0) (wr32 h1 0 0)) with h0 in E1, E2.
  split_and!; [done| |now apply wr32_ok]. rewrite E2. done.
Qed.

Lemma lw_keys m : m ∈ lw.*1 -> st < m < st + size.
Proof. intros Hm. apply lws_keys in Hm. fold st in Hm. subst n. lia. Qed.

Lemma ws_eq : commit_ws g bs V = lw ++ (st, h1) :: hw ++ [(st, h0)].
Proof. done. Qed.

Lemma length_lw : length lw = n.
Proof. unfold lw, lws. now rewrite length_fmap, length_zrange. Qed.
Lemma length_hw : length hw = n.
Proof. unfold hw, home_ws. now rewrite length_fmap. Qed.

(** The prefixes: part of the log writes; those and the header and part of the
    home writes; all of them. *)
Lemma prefix_cases k :
  (k <= n)%nat /\ take k (commit_ws g bs V) = take k lw \/
  (exists j, (n < k)%nat /\ take k (commit_ws g bs V) = lw ++ (st, h1) :: take j hw) \/
  (n < k)%nat /\ take k (commit_ws g bs V) = lw ++ (st, h1) :: hw ++ [(st, h0)].
Proof.
  rewrite ws_eq. destruct (decide (k <= n)%nat) as [Hk|Hk].
  - left. split; [done|]. rewrite take_app_le; [done|]. rewrite length_lw. lia.
  - right. rewrite take_app_ge by (rewrite length_lw; lia). rewrite length_lw.
    destruct (k - n)%nat as [|j] eqn:E; [lia|]. cbn [take].
    destruct (decide (j <= n)%nat) as [Hj|Hj].
    + left. exists j. split; [lia|]. rewrite take_app_le; [done|]. rewrite length_hw. lia.
    + right. split; [lia|]. rewrite take_ge; [done|]. rewrite length_app, length_hw. cbn. lia.
Qed.

Lemma in_range k w : w ∈ take k (commit_ws g bs V) -> 0 <= w.1 < Z.of_nat (length d).
Proof.
  intros Hw. apply list_elem_of_lookup in Hw as [i Hi]. apply lookup_take_Some in Hi as [Hi _].
  apply list_elem_of_lookup_2 in Hi. rewrite ws_eq in Hi. destruct (dk_range _ _ _ Hd) as (? & ? & ?).
  apply elem_of_app in Hi as [Hi|Hi].
  - apply (list_elem_of_fmap_2 fst) in Hi. apply lw_keys in Hi. lia.
  - apply elem_of_cons in Hi as [->|Hi]; [cbn; lia|]. apply elem_of_app in Hi as [Hi|Hi].
    + apply (list_elem_of_fmap_2 fst) in Hi. unfold hw in Hi. rewrite home_keys in Hi. apply Hhome in Hi. lia.
    + apply elem_of_cons in Hi as [->|Hi]; [cbn; lia|]. now apply elem_of_nil in Hi.
Qed.

Lemma take_elem {A} k (l : list A) x : x ∈ take k l -> x ∈ l.
Proof.
  intros Hw. apply list_elem_of_lookup in Hw as [i Hi]. apply lookup_take_Some in Hi as [Hi _].
  now apply list_elem_of_lookup_2 in Hi.
Qed.

Lemma values_ok k : Forall block_ok (take k (commit_ws g bs V)).*2.
Proof.
  apply Forall_forall. intros x Hx. apply list_elem_of_fmap in Hx as ([a b] & -> & Hx). apply take_elem in Hx.
  destruct h1_hdr as (_ & _ & O1), h0_hdr as (_ & _ & O0).
  rewrite ws_eq in Hx. apply elem_of_app in Hx as [Hx|Hx].
  { apply list_elem_of_fmap in Hx as (i & [= -> ->] & Hx). apply elem_of_zrange in Hx. cbn. apply HVok.
    replace i with (Z.of_nat (Z.to_nat i)) by lia.
    destruct (Hhome _ (aget_in bs (Z.to_nat i) ltac:(subst n; lia))) as [? _]. lia. }
  apply elem_of_cons in Hx as [[= -> ->]|Hx]; [done|]. apply elem_of_app in Hx as [Hx|Hx].
  { apply list_elem_of_fmap in Hx as (i & [= -> ->] & Hx). cbn. apply HVok. destruct (Hhome _ Hx) as [? _]. lia. }
  apply elem_of_cons in Hx as [[= -> ->]|Hx]; [done|]. now apply elem_of_nil in Hx.
Qed.

Lemma key_not_one k : 1 ∉ (take k (commit_ws g bs V)).*1.
Proof.
  intros Hx. apply list_elem_of_fmap in Hx as ([a b] & E & Hx). cbn in E. subst a. apply take_elem in Hx.
  destruct (dk_range _ _ _ Hd) as (? & ? & ?). rewrite ws_eq in Hx.
  apply (list_elem_of_fmap_2 fst) in Hx. rewrite fmap_app in Hx. cbn [fmap list_fmap fst] in Hx.
  rewrite elem_of_app, elem_of_cons in Hx. destruct Hx as [Hx|[Hx|Hx]]; [apply lw_keys in Hx; lia|lia|].
  change (list_fmap _ _ fst (hw ++ [(st, h0)])) with ((hw ++ [(st, h0)]).*1) in Hx.
  rewrite fmap_app in Hx. unfold hw in Hx. rewrite home_keys in Hx.
  apply elem_of_app in Hx as [Hx|Hx]; [apply Hhome in Hx; lia|].
  apply elem_of_cons in Hx as [Hx|Hx]; [cbn in Hx; lia|now apply elem_of_nil in Hx].
Qed.

Abbreviation outside x := (0 <= x < Z.of_nat (length d) /\ ~ (st <= x < st + size)).
Let F := blk_at d.

(** What the blocks hold in the three cases. *)
Lemma case_log k m : m = st \/ outside m -> vapply F (take k lw) m = F m.
Proof.
  intros Hm. apply vapply_notin. intros Hi.
  apply list_elem_of_fmap in Hi as (w & -> & Hi). apply take_elem in Hi.
  apply (list_elem_of_fmap_2 fst) in Hi. apply lw_keys in Hi. destruct Hm as [Hm|Hm]; lia.
Qed.

Lemma take_hw_key j m : m ∈ (take j hw).*1 -> m ∈ bs.
Proof.
  intros Hi. apply list_elem_of_fmap in Hi as (w & -> & Hi). apply take_elem in Hi.
  apply (list_elem_of_fmap_2 fst) in Hi. unfold hw in Hi. now rewrite home_keys in Hi.
Qed.

Lemma case_mid j :
  let G := vapply F (lw ++ (st, h1) :: take j hw) in
  G st = h1 /\ (forall i, 0 <= i < Z.of_nat n -> G (st + i + 1) = V (aget 0 bs i)) /\
  (forall x, outside x -> (x ∉ bs) -> G x = F x).
Proof.
  cbv zeta. rewrite vapply_app. cbn [vapply fold_left fst snd]. fold (vapply F lw).
  set (V1 := vset (vapply F lw) st h1). change (fold_left _ (take j hw) V1) with (vapply V1 (take j hw)).
  destruct (dk_range _ _ _ Hd) as (? & ? & ?). split_and!.
  - rewrite vapply_notin; [apply vset_eq|]. intros Hi. apply take_hw_key, Hhome in Hi. lia.
  - intros i Hi. rewrite vapply_notin.
    + unfold V1. rewrite vset_ne by lia. eapply vapply_in; [apply lws_nodup|]. now apply lws_in.
    + intros Hj. apply take_hw_key, Hhome in Hj. subst n. lia.
  - intros x Hx Hb. rewrite vapply_notin; [|intros Hj; now apply take_hw_key in Hj].
    unfold V1. rewrite vset_ne by lia. apply vapply_notin. intros Hi. apply lw_keys in Hi. lia.
Qed.

Lemma case_end :
  let G := vapply F (lw ++ (st, h1) :: hw ++ [(st, h0)]) in
  G st = h0 /\ forall x, outside x -> G x = V x.
Proof.
  cbv zeta. rewrite vapply_app. change ((st, h1) :: hw ++ [(st, h0)]) with (((st, h1) :: hw) ++ [(st, h0)]).
  rewrite vapply_app. cbn [vapply fold_left fst snd]. split; [apply vset_eq|]. intros x Hx.
  rewrite vset_ne by lia. fold (vapply F lw). set (V1 := vset (vapply F lw) st h1).
  change (fold_left _ hw V1) with (vapply V1 hw). destruct (decide (x ∈ bs)) as [Hb|Hb].
  - apply vapply_in; [unfold hw; rewrite home_keys; exact Hnd|]. apply list_elem_of_fmap. eauto.
  - rewrite vapply_notin by (unfold hw; now rewrite home_keys). unfold V1. rewrite vset_ne by lia.
    rewrite vapply_notin; [symmetry; apply HV; [lia|done]|]. intros Hi. apply lw_keys in Hi. lia.
Qed.

(** A crash after [k] of the writes: the header and the superblock are sound, and
    the disk stands for the old contents up to the write of the header and for
    the new ones from it on. *)
Lemma prefix_logical k :
  disk_ok st size (dapply d (take k (commit_ws g bs V))) /\
  (forall x, outside x -> logical st (dapply d (take k (commit_ws g bs V))) x =
     if (k <=? n)%nat then blk_at d x else V x).
Proof.
  pose proof (in_range k) as Hr. destruct (dk_range _ _ _ Hd) as (? & ? & ?).
  destruct h1_hdr as (N1 & B1 & _), h0_hdr as (N0 & B0 & _).
  assert (Eb : forall m, 0 <= m -> blk_at (dapply d (take k (commit_ws g bs V))) m = vapply F (take k (commit_ws g bs V)) m).
  { intros m Hm. now apply blk_dapply. }
  pose proof (fun h => disk_ok_writes st size d _ Hd (values_ok k) (key_not_one k) Hr h) as Hok. cbv zeta in Hok.
  unfold logical. rewrite Eb by lia.
  destruct (prefix_cases k) as [[Hk E]|[(j & Hk & E)|[Hk E]]]; rewrite E in *; clear E.
  - rewrite (proj2 (Nat.leb_le _ _)) by lia. fold F in Hok. rewrite (case_log k st) in * by by left.
    split; [apply Hok; pose proof Hd as [? ? ? ? ? ? ? ?]; done|]. intros x Hx. unfold F at 1. rewrite Hempty. cbn [index_of]. rewrite Eb by lia. apply case_log. by right.
  - rewrite (proj2 (Nat.leb_gt _ _)) by lia. destruct (case_mid j) as (G1 & G2 & G3). cbv zeta in *.
    fold F in Hok. rewrite G1 in *. rewrite B1 in *. split; [apply Hok; rewrite N1; subst n; split_and!; try lia; done|].
    intros x Hx. destruct (index_of x bs) as [i|] eqn:Ei.
    + apply index_of_Some in Ei. pose proof (lookup_lt_Some _ _ _ Ei) as Hi. rewrite Eb by lia.
      rewrite G2 by (subst n; lia). unfold aget. now rewrite Nat2Z.id, Ei.
    + apply index_of_None in Ei. rewrite Eb by lia. rewrite G3 by done. symmetry. apply HV; [lia|done].
  - rewrite (proj2 (Nat.leb_gt _ _)) by lia. destruct case_end as [G1 G2]. cbv zeta in *.
    fold F in Hok. rewrite G1 in *. rewrite B0 in *.
    split; [apply Hok; rewrite N0; split_and!; try lia; [constructor|intros x Hx; now apply elem_of_nil in Hx]|].
    intros x Hx. cbn [index_of]. rewrite Eb by lia. now apply G2.
Qed.
End Prefix.

(** * Recovery *)

Section Recovery.
Context {fuel : Fuel}.
Hypothesis fuel_pos : (0 < wakeups)%nat.

Lemma wp_readsb g V c :
  held c = [] -> brep (lg_bio g) V ∅ [] -> 1 < disksize (lg_bio g) ->
  wp (readsb 1) (fun r c' g' => held c' = [] /\ r = superblock_of (V 1) /\
    exists s', g' = set_bio s' g /\ brep s' V ∅ [] /\ wrote [] (lg_bio g) s') c g.
Proof.
  intros Hc R Hsz. unfold readsb. apply wp_bind, wp_zoom.
  eapply wp_bread; [done|done|exact R|apply not_elem_of_nil|lia|right; rewrite size_empty; cbn; unfold NBUF; lia|].
  intros b s1 R1 E1 C1. unfold data. wp_steps. cbn [lg_bio set_bio]. rewrite E1. apply wp_zoom. cbn [lg_bio set_bio].
  eapply wp_brelse; [done|exact R1|done|]. intros c2 s2 Hc2 R2 C2. wp_steps. split_and!; [done|done|].
  exists s2. split_and!; [done|done|]. apply wrote_nil.
  - now rewrite (ca_disk _ _ _ C2), (ca_disk _ _ _ C1).
  - now rewrite (ca_trace _ _ _ C2), (ca_trace _ _ _ C1).
Qed.

Lemma wp_read_head g V c :
  held c = [] -> brep (lg_bio g) V ∅ [] -> lg_dev g = 1 -> 0 <= lg_start g < disksize (lg_bio g) ->
  disksize (lg_bio g) < 2147483648 -> length (lh_block g) = 30%nat ->
  0 <= hdr_n (V (lg_start g)) < 30 ->
  (forall x, x ∈ hdr_blocks (V (lg_start g)) -> 0 <= x < 2147483648) ->
  let n := hdr_n (V (lg_start g)) in
  wp read_head (fun _ c' g' => held c' = [] /\ exists s' bl,
    g' = set_bio s' (set_block bl (set_n n g)) /\ brep s' V ∅ [] /\ wrote [] (lg_bio g) s' /\
    length bl = 30%nat /\ forall i, 0 <= i < n -> aget 0 bl i = aget 0 (hdr_blocks (V (lg_start g))) i) c g.
Proof.
  intros Hc R Hdev Hst Hds Hlen Hn Hx n. unfold read_head. apply wp_bind, wp_get. rewrite Hdev.
  rewrite u32_small by (unfold is_u32; lia). apply wp_bind, wp_zoom.
  eapply wp_bread; [done|done|exact R|apply not_elem_of_nil|done|right; rewrite size_empty; cbn; unfold NBUF; lia|].
  intros b s1 R1 E1 C1. unfold data. wp_steps. cbn [lg_bio set_bio set_n lh_n]. rewrite E1.
  set (h := V (lg_start g)) in *. change (s32 (rd32 h 0)) with n.
  apply (wp_for_zrange _ _ (fun k c' g' => held c' = [] /\ exists bl,
    g' = set_bio s1 (set_block bl (set_n n g)) /\ length bl = 30%nat /\
    forall i, 0 <= i < Z.of_nat k -> aget 0 bl i = aget 0 (hdr_blocks h) i)).
  - split; [done|]. exists (lh_block g). split_and!; [done|done|lia].
  - intros k c' g' Hk (Hc' & bl & -> & Hbl & Hi). wp_steps. split; [done|]. cbn [set_bio set_block lh_block].
    exists (aset bl (Z.of_nat k) (s32 (rd32 h (HDR_BLOCK (Z.of_nat k))))).
    split_and!; [done|now rewrite length_aset|].
    assert (Eh : aget 0 (hdr_blocks h) (Z.of_nat k) = rd32 h (HDR_BLOCK (Z.of_nat k))).
    { unfold aget, hdr_blocks. rewrite Nat2Z.id, list_lookup_fmap.
      destruct (lookup_lt_is_Some_2 (zrange (Z.to_nat (hdr_n h))) k) as [y Ey]; [now rewrite length_zrange|].
      rewrite Ey. now apply zrange_lookup in Ey as [-> _]. }
    intros i Hi'. destruct (decide (i = Z.of_nat k)) as [->|Hne].
    + rewrite aget_aset_eq by (subst n; lia). rewrite Eh. apply s32_small. apply Hx. rewrite <- Eh.
      apply aget_in. rewrite length_hdr_blocks. exact Hk.
    + rewrite aget_aset_ne by lia. apply Hi. lia.
  - intros c' g' (Hc' & bl & -> & Hbl & Hi). apply wp_zoom. cbn [lg_bio set_bio].
    eapply wp_brelse; [done|exact R1|done|]. intros c2 s2 Hc2 R2 C2. split; [done|]. exists s2, bl.
    split_and!; [done|done| |done|intros i Hi'; apply Hi; lia]. apply wrote_nil.
    + now rewrite (ca_disk _ _ _ C2), (ca_disk _ _ _ C1).
    + now rewrite (ca_trace _ _ _ C2), (ca_trace _ _ _ C1).
Qed.

(** The writes of recovery: the logged blocks to their homes, the empty header. *)
Definition recover_ws (st : Z) (d : list block) : list (Z * block) :=
  let bs := hdr_blocks (blk_at d st) in
  ((fun i => (aget 0 bs i, blk_at d (st + i + 1))) <$> zrange (length bs)) ++ [(st, wr32 (blk_at d st) 0 0)].

(** [V] is what the cache shows: the disk, and anything beyond its end. *)
Lemma wp_initlog_view st size d V s c :
  held c = [] -> disk_ok st size d -> (forall n, 0 <= n < Z.of_nat (length d) -> V n = blk_at d n) ->
  brep s V ∅ [] -> disk s = d -> trace s = [] ->
  wp (initlog 1) (fun _ c' g' => held c' = [] /\ lg_start g' = st /\ lg_size g' = size /\ lh_n g' = 0 /\
    disk (lg_bio g') = dapply d (recover_ws st d) /\ trace (lg_bio g') = recover_ws st d /\
    brep (lg_bio g') (vapply V (recover_ws st d)) ∅ [] /\
    log_shape g' [] /\ lg_outstanding g' = 0 /\ lg_committing g' = false) c (log0 s).
Proof.
  intros Hc Hd HV R Ed Et. destruct (dk_range _ _ _ Hd) as (H1 & H2 & H3). pose proof (dk_len _ _ _ Hd) as H4.
  assert (Ds : disksize s = Z.of_nat (length d)) by (unfold disksize; now rewrite Ed).
  destruct (dk_super _ _ _ Hd) as [S1 S2].
  assert (HVst : V st = blk_at d st) by (apply HV; lia). unfold initlog. change (BSIZE <=? _) with false. cbv iota.
  apply wp_bind. eapply wp_mono; [apply (wp_readsb (log0 s) V); [done|done|cbn; lia]|].
  intros sb c1 g1 (Hc1 & -> & s1 & -> & R1 & W1). pose proof (wrote_disksize _ _ _ W1) as D1.
  cbn [log0 lg_bio] in D1, W1. wp_steps. rewrite (HV 1), S1, S2, !s32_small by lia.
  set (g2 := set_ldev 1 _).
  assert (Hrange : forall x, x ∈ hdr_blocks (blk_at d st) -> 0 <= x < 2147483648).
  { intros x Hx. apply (dk_home _ _ _ Hd) in Hx. lia. }
  unfold recover_from_log. apply wp_bind. eapply wp_mono; [apply (wp_read_head g2 V); cbn [g2 set_ldev set_size
    set_start set_bio lg_bio lg_dev lg_start lh_block log0]; rewrite ?HVst; try done; [lia|lia|apply (dk_n _ _ _ Hd)]|].
  cbn [g2 set_ldev set_size set_start set_bio lg_start log0]. rewrite HVst. set (bs := hdr_blocks (blk_at d st)) in *.
  intros _ c3 g3 (Hc3 & s3 & bl & -> & R3 & W3 & Hlen & Hbl). change (lg_bio g2) with s1 in W3.
  pose proof (wrote_disksize _ _ _ W3) as D3. set (g3 := set_bio s3 _).
  assert (Hlb : Z.of_nat (length bs) = hdr_n (blk_at d st)).
  { unfold bs. rewrite length_hdr_blocks. pose proof (dk_n _ _ _ Hd). lia. }
  pose proof (dk_n _ _ _ Hd). pose proof (dk_fits _ _ _ Hd).
  assert (L3 : log_shape g3 bs).
  { split; unfold g3, g2; cbn [set_ldev set_n set_block set_size set_start set_bio lg_bio lg_dev lg_start lg_size lh_n lh_block log0].
    - done.
    - now rewrite Hlb.
    - exact Hlen.
    - rewrite Hlb. exact Hbl.
    - lia.
    - lia.
    - lia.
    - lia.
    - unfold NBUF. lia.
    - apply (dk_nodup _ _ _ Hd).
    - intros x Hx. apply (dk_home _ _ _ Hd) in Hx as [? ?]. split; [lia|done]. }
  apply wp_bind. eapply wp_mono; [apply (wp_install_trans fuel_pos g3 bs V ∅); [done|done|done|
    rewrite size_empty; unfold NBUF; lia|right; rewrite size_empty; unfold NBUF; lia]|].
  set (iw := iws g3 bs V (length bs)).
  intros _ c4 g4 (Hc4 & s4 & -> & R4 & W4). change (lg_bio g3) with s3 in W4. pose proof (wrote_disksize _ _ _ W4) as D4.
  replace (∅ ∖ list_to_set bs : gset Z) with (∅ : gset Z) in R4
    by (apply set_eq; intros x; rewrite elem_of_difference, elem_of_empty; tauto).
  wp_steps. set (g4 := set_n 0 _).
  assert (Est : vapply V iw st = blk_at d st).
  { rewrite <- HVst. apply vapply_notin. intros Hi. apply iws_keys in Hi; [|lia]. apply (dk_home _ _ _ Hd) in Hi. lia. }
  eapply wp_mono; [apply (wp_write_head fuel_pos g4 (vapply V iw) ∅);
    cbn [g4 g3 g2 set_ldev set_n set_block set_size set_start set_bio lg_bio lg_dev lg_start log0]; try done;
    [lia|lia|rewrite size_empty; unfold NBUF; lia]|].
  cbn [g4 g3 g2 set_ldev set_n set_block set_size set_start set_bio lg_bio lg_dev lg_start log0]. rewrite Est.
  change (hdr_of g4 (blk_at d st)) with (wr32 (blk_at d st) 0 0).
  intros _ c5 g5 (Hc5 & s5 & -> & R5 & W5).
  assert (EW : recover_ws st d = iw ++ [(st, wr32 (blk_at d st) 0 0)]).
  { unfold recover_ws. f_equal. apply list_fmap_ext. intros k i [-> Hk]%zrange_lookup. fold bs in Hk. rewrite HV; [done|].
    change (lg_start g3) with st. lia. }
  assert (W : wrote (recover_ws st d) s s5).
  { rewrite EW. change (iw ++ [(st, wr32 (blk_at d st) 0 0)]) with ([] ++ [] ++ iw ++ [(st, wr32 (blk_at d st) 0 0)]).
    eauto using wrote_app. }
  replace (∅ ∖ {[st]} : gset Z) with (∅ : gset Z) in R5
    by (apply set_eq; intros x; rewrite elem_of_difference, elem_of_empty; tauto).
  split_and!; try done.
  - cbn [lg_bio set_bio]. rewrite (wr_disk _ _ _ W). now rewrite Ed.
  - cbn [lg_bio set_bio]. rewrite (wr_trace _ _ _ W). now rewrite Et.
  - cbn [lg_bio set_bio]. rewrite EW, vapply_app. exact R5.
  - pose proof (wrote_disksize _ _ _ W) as D5. split; cbn [g4 g3 g2 set_ldev set_n set_block set_size set_start set_bio lg_bio lg_dev
      lg_start lg_size lh_n lh_block log0 length Z.of_nat]; try done; try lia; try (unfold NBUF; lia).
    + constructor.
    + intros x Hx%elem_of_nil. done.
Qed.

Lemma wp_initlog st size d s c :
  held c = [] -> disk_ok st size d -> brep s (aget [] d) ∅ [] -> disk s = d -> trace s = [] ->
  wp (initlog 1) (fun _ c' g' => held c' = [] /\ lg_start g' = st /\ lg_size g' = size /\ lh_n g' = 0 /\
    disk (lg_bio g') = dapply d (recover_ws st d) /\ trace (lg_bio g') = recover_ws st d) c (log0 s).
Proof.
  intros Hc Hd R Ed Et. eapply wp_mono; [apply (wp_initlog_view st size d (aget [] d)); done|].
  intros _ c' g' (H1 & H2 & H3 & H4 & H5 & H6 & _). done.
Qed.
End Recovery.

(** * Every prefix of the writes of recovery *)

Section RecoverPrefix.
Variables (st size : Z) (d : list block).
Hypothesis Hd : disk_ok st size d.
Let bs := hdr_blocks (blk_at d st).
Let F := blk_at d.
Let iw : list (Z * block) := (fun i => (aget 0 bs i, F (st + i + 1))) <$> zrange (length bs).
Let h0 := wr32 (F st) 0 0.
Abbreviation home x := (0 <= x < Z.of_nat (length d) /\ ~ (st <= x < st + size)).

Lemma F_ok x : 0 <= x < Z.of_nat (length d) -> block_ok (F x).
Proof.
  intros Hx. unfold F, blk_at, aget. destruct (lookup_lt_is_Some_2 d (Z.to_nat x)) as [y E]; [lia|]. rewrite E.
  pose proof (dk_blocks _ _ _ Hd) as Hf. rewrite Forall_lookup in Hf. eauto.
Qed.

Lemma h0_empty : hdr_n h0 = 0 /\ hdr_blocks h0 = [] /\ block_ok h0.
Proof.
  destruct (dk_range _ _ _ Hd) as (? & ? & ?). pose proof (F_ok st ltac:(lia)) as Hok.
  destruct (hdr_written [] 0 (F st) Hok ltac:(lia)) as [E1 E2].
  change (hdr_fill [] (Z.to_nat 0) (wr32 (F st) 0 0)) with h0 in E1, E2.
  split_and!; [done| |now apply wr32_ok]. rewrite E2. done.
Qed.

Lemma len_bs : Z.of_nat (length bs) < size.
Proof. unfold bs. rewrite length_hdr_blocks. pose proof (dk_n _ _ _ Hd). pose proof (dk_fits _ _ _ Hd). lia. Qed.

Lemma iw_elem w : w ∈ iw -> w.1 ∈ bs /\ block_ok w.2.
Proof.
  intros Hw. apply list_elem_of_fmap in Hw as (i & -> & Hi). apply elem_of_zrange in Hi. cbn [fst snd]. split.
  - replace i with (Z.of_nat (Z.to_nat i)) by lia. apply aget_in. lia.
  - apply F_ok. pose proof len_bs. destruct (dk_range _ _ _ Hd) as (? & ? & ?). lia.
Qed.

Lemma iw_keys : iw.*1 = bs.
Proof.
  unfold iw. rewrite <- list_fmap_compose.
  transitivity ((fun i => id (aget 0 bs i)) <$> zrange (length bs)); [done|]. rewrite (zrange_map id). apply list_fmap_id.
Qed.

(** The home blocks among the first writes hold what the log holds. *)
Lemma iw_value k x : home x -> vapply F (take k iw) x = F x \/
  exists i, index_of x bs = Some i /\ vapply F (take k iw) x = F (st + Z.of_nat i + 1).
Proof.
  intros Hx. assert (Hnd : NoDup (take k iw).*1).
  { rewrite fmap_take, iw_keys. eapply sublist_NoDup; [apply (dk_nodup _ _ _ Hd)|apply sublist_take]. }
  destruct (decide (x ∈ (take k iw).*1)) as [Hi|Hi]; [|left; now apply vapply_notin].
  right. apply list_elem_of_fmap in Hi as ([a v] & -> & Hi). cbn [fst].
  pose proof (take_elem _ _ _ Hi) as Hin. apply list_elem_of_fmap in Hin as (i & [= -> ->] & Hin).
  apply elem_of_zrange in Hin. destruct (index_of (aget 0 bs i) bs) as [j|] eqn:Ej.
  - exists j. split; [done|]. rewrite (vapply_in _ _ _ _ Hnd Hi). apply index_of_Some in Ej.
    destruct (lookup_lt_is_Some_2 bs (Z.to_nat i)) as [y Ey]; [lia|]. unfold aget in Ej. rewrite Ey in Ej. cbn in Ej.
    pose proof (NoDup_lookup _ _ _ _ (dk_nodup _ _ _ Hd) Ey Ej) as E. do 2 f_equal. lia.
  - exfalso. apply index_of_None in Ej. apply Ej. replace i with (Z.of_nat (Z.to_nat i)) by lia. apply aget_in. lia.
Qed.

Lemma iw_all x : home x -> vapply F iw x = logical st d x.
Proof.
  intros Hx. unfold logical. change (hdr_blocks (blk_at d st)) with bs. fold F. destruct (index_of x bs) as [j|] eqn:Ej.
  - destruct (iw_value (length iw) x Hx) as [_|(i & Ei & E)].
    + apply vapply_in; [rewrite iw_keys; apply (dk_nodup _ _ _ Hd)|]. apply list_elem_of_fmap.
      apply index_of_Some in Ej as Ej'. exists (Z.of_nat j). split.
      * unfold aget. now rewrite Nat2Z.id, Ej'.
      * apply elem_of_zrange. apply lookup_lt_Some in Ej'. lia.
    + rewrite firstn_all in E. congruence.
  - apply vapply_notin. rewrite iw_keys. now apply index_of_None.
Qed.

Lemma iw_off k m : st <= m < st + size \/ m = 1 -> vapply F (take k iw) m = F m.
Proof.
  intros Hm. apply vapply_notin. intros Hi. apply list_elem_of_fmap in Hi as (w & -> & Hi). apply take_elem in Hi.
  apply iw_elem in Hi as [Hi _]. apply (dk_home _ _ _ Hd) in Hi. lia.
Qed.

Lemma recover_ws_eq : recover_ws st d = iw ++ [(st, h0)].
Proof. done. Qed.

Lemma recover_range k w : w ∈ take k (recover_ws st d) -> 0 <= w.1 < Z.of_nat (length d).
Proof.
  intros Hw. apply take_elem in Hw. rewrite recover_ws_eq in Hw. destruct (dk_range _ _ _ Hd) as (? & ? & ?).
  apply elem_of_app in Hw as [Hw|Hw].
  - apply iw_elem in Hw as [Hw _]. apply (dk_home _ _ _ Hd) in Hw. lia.
  - apply elem_of_cons in Hw as [->|Hw]; [cbn; lia|now apply elem_of_nil in Hw].
Qed.

(** A crash of recovery after [k] of its writes leaves a disk that stands for the
    same contents. *)
Lemma recover_prefix k :
  disk_ok st size (dapply d (take k (recover_ws st d))) /\
  (forall x, home x -> logical st (dapply d (take k (recover_ws st d))) x = logical st d x).
Proof.
  pose proof (recover_range k) as Hr. destruct (dk_range _ _ _ Hd) as (? & ? & ?).
  destruct h0_empty as (N0 & B0 & O0). pose proof len_bs as Hlb.
  assert (Eb : forall m, 0 <= m -> blk_at (dapply d (take k (recover_ws st d))) m = vapply F (take k (recover_ws st d)) m).
  { intros m Hm. now apply blk_dapply. }
  assert (Hv : Forall block_ok (take k (recover_ws st d)).*2).
  { apply Forall_forall. intros x Hx. apply list_elem_of_fmap in Hx as (w & -> & Hx). apply take_elem in Hx.
    rewrite recover_ws_eq in Hx. apply elem_of_app in Hx as [Hx|Hx]; [now apply iw_elem|].
    apply elem_of_cons in Hx as [->|Hx]; [done|now apply elem_of_nil in Hx]. }
  assert (Hk1 : 1 ∉ (take k (recover_ws st d)).*1).
  { intros Hx. apply list_elem_of_fmap in Hx as (w & E & Hx). apply take_elem in Hx.
    rewrite recover_ws_eq in Hx. apply elem_of_app in Hx as [Hx|Hx].
    - apply iw_elem in Hx as [Hx _]. apply (dk_home _ _ _ Hd) in Hx. lia.
    - apply elem_of_cons in Hx as [->|Hx]; [cbn in E; lia|now apply elem_of_nil in Hx]. }
  pose proof (fun h => disk_ok_writes st size d _ Hd Hv Hk1 Hr h) as Hok. cbv zeta in Hok. fold F in Hok.
  rewrite recover_ws_eq in *. destruct (decide (k <= length iw)%nat) as [Hk|Hk].
  - rewrite take_app_le in * by done. unfold logical at 1. rewrite Eb by lia.
    rewrite (iw_off k st) in * by lia. split; [apply Hok; pose proof Hd as [? ? ? ? ? ? ? ?]; done|]. intros x Hx.
    unfold logical. change (hdr_blocks (blk_at d st)) with bs.
    change (hdr_blocks (F st)) with bs. fold F. destruct (index_of x bs) as [i|] eqn:Ei.
    + apply index_of_Some, lookup_lt_Some in Ei. rewrite Eb by lia. apply iw_off. lia.
    + rewrite Eb by lia. apply vapply_notin. intros Hi. apply list_elem_of_fmap in Hi as (w & -> & Hi).
      apply take_elem, iw_elem in Hi as [Hi _]. apply index_of_None in Ei. done.
  - rewrite take_ge in * by (rewrite length_app; cbn; lia).
    assert (Es : vapply F (iw ++ [(st, h0)]) st = h0) by (rewrite vapply_app; apply vset_eq).
    unfold logical at 1. rewrite Eb by lia. rewrite Es in *. rewrite B0 in *. cbn [index_of].
    split; [apply Hok; rewrite N0; split_and!; try lia; [constructor|intros x Hx; now apply elem_of_nil in Hx]|].
    intros x Hx. rewrite Eb by lia. rewrite vapply_app. cbn [vapply fold_left fst snd].
    rewrite vset_ne by lia. now apply iw_all.
Qed.

Lemma recover_final :
  hdr_n (blk_at (dapply d (recover_ws st d)) st) = 0 /\
  (forall x, home x -> blk_at (dapply d (recover_ws st d)) x = logical st d x).
Proof.
  destruct (dk_range _ _ _ Hd) as (? & ? & ?). destruct h0_empty as (N0 & B0 & O0).
  assert (Eb : forall m, 0 <= m -> blk_at (dapply d (recover_ws st d)) m = vapply F (recover_ws st d) m).
  { intros m Hm. apply blk_dapply; [done|]. intros w Hw. apply (recover_range (length (recover_ws st d))).
    now rewrite firstn_all. }
  split.
  - rewrite Eb by lia. rewrite recover_ws_eq, vapply_app. cbn [vapply fold_left fst snd]. now rewrite vset_eq.
  - intros x Hx. rewrite Eb by lia. rewrite recover_ws_eq, vapply_app. cbn [vapply fold_left fst snd].
    rewrite vset_ne by lia. now apply iw_all.
Qed.
End RecoverPrefix.

(** * The theorems *)

(** C8: on a disk whose log may hold a committed transaction, [initlog] at boot
    puts every block of that transaction in its place and empties the log; and if
    the machine crashes after any number [k] of the writes of this recovery, the
    disk still stands for the same contents, so that the next boot recovers
    them. *)
Theorem log_recovery (fuel : Fuel) st size d c s :
  (0 < wakeups)%nat -> disk_ok st size d -> binit (Ctx [] []) (boot_bufs d) = Ret tt c s ->
  wp (initlog 1) (fun _ _ g' =>
    hdr_n (blk_at (disk (lg_bio g')) st) = 0 /\
    (forall x, 0 <= x < Z.of_nat (length d) -> ~ (st <= x < st + size) ->
       blk_at (disk (lg_bio g')) x = logical st d x) /\
    disk (lg_bio g') = dapply d (trace (lg_bio g')) /\
    (forall k, disk_ok st size (dapply d (take k (trace (lg_bio g')))) /\
       forall x, 0 <= x < Z.of_nat (length d) -> ~ (st <= x < st + size) ->
         logical st (dapply d (take k (trace (lg_bio g')))) x = logical st d x)) c (log0 s).
Proof.
  intros Hf Hd Hb. destruct (brep_boot d c s (dk_blocks _ _ _ Hd) Hb) as (Hc & R & Ed & Et).
  eapply wp_mono; [apply (wp_initlog Hf st size d); done|].
  intros _ c' g' (_ & _ & _ & _ & E1 & E2). rewrite E1, E2. destruct (recover_final st size d Hd) as [F1 F2].
  split; [exact F1|]. split; [intros x Hx Ho; apply F2; auto|]. split; [reflexivity|].
  intros k. destruct (recover_prefix st size d Hd k) as [P1 P2]. split; [exact P1|]. intros x Hx Ho. apply P2; auto.
Qed.

(** C1: a transaction is atomic with respect to crashes.  The cache shows the
    contents [V], which differ from the disk [d] in the logged blocks [bs] only.
    [commit] writes a sequence [ws] of blocks, and if the machine crashes after
    any number [k] of these writes, the next boot ([binit] and [initlog]) leaves
    every block outside the log with its old contents if the header was not yet
    written, and with its new contents if it was: all of the transaction or none
    of it. *)
Theorem commit_crash_atomic (fuel : Fuel) g bs V d c :
  (0 < wakeups)%nat -> held c = [] -> log_shape g bs -> bs <> [] ->
  brep (lg_bio g) V (list_to_set bs) [] -> disk (lg_bio g) = d ->
  disk_ok (lg_start g) (lg_size g) d -> hdr_n (blk_at d (lg_start g)) = 0 ->
  (forall x, x ∈ bs -> 1 < x) ->
  wp commit (fun _ _ g' => exists ws,
    trace (lg_bio g') = trace (lg_bio g) ++ ws /\ disk (lg_bio g') = dapply d ws /\
    forall k c1 s1, binit (Ctx [] []) (boot_bufs (dapply d (take k ws))) = Ret tt c1 s1 ->
      wp (initlog 1) (fun _ _ g1 =>
        forall x, 0 <= x < Z.of_nat (length d) -> ~ (lg_start g <= x < lg_start g + lg_size g) ->
          blk_at (disk (lg_bio g1)) x = if (k <=? length bs)%nat then blk_at d x else V x) c1 (log0 s1)) c g.
Proof.
  intros Hf Hc L Hne R Ed Hd Hh H1. eapply wp_mono; [apply (wp_commit Hf g bs V); done|].
  intros _ c' g' (_ & s' & -> & R' & W). exists (commit_ws g bs V).
  split; [apply W|]. split; [rewrite <- Ed; apply W|]. intros k c1 s1 Hb.
  assert (Ds : disksize (lg_bio g) = Z.of_nat (length d)) by (unfold disksize; now rewrite Ed).
  destruct (prefix_logical g bs V d (lg_size g)) with (k := k) as [P1 P2]; try done.
  - unfold hdr_blocks. now rewrite Hh.
  - apply L.
  - apply L.
  - apply L.
  - intros x Hx. pose proof (ls_range _ _ L x Hx). pose proof (H1 x Hx). rewrite <- Ds. split; [lia|tauto].
  - apply L.
  - apply L.
  - intros x Hx. apply (br_disk _ _ _ _ R). lia.
  - intros x Hx Hxb. destruct (br_disk _ _ _ _ R x ltac:(lia)) as [_ E]. rewrite Ed in E.
    unfold blk_at, aget. rewrite E; [done|]. now rewrite elem_of_list_to_set.
  - destruct (brep_boot _ _ _ (dk_blocks _ _ _ P1) Hb) as (Hc1 & R1 & Ed1 & Et1).
    eapply wp_mono; [apply (wp_initlog Hf (lg_start g) (lg_size g)); done|].
    intros _ c2 g2 (_ & _ & _ & _ & E1 & _). intros x Hx Ho. rewrite E1.
    destruct (recover_final _ _ _ P1) as [_ F2]. rewrite length_dapply in F2.
    etransitivity; [apply F2; auto|apply P2; auto].
Qed.

(** * Examples *)

Module Sample.
#[local] Instance fuel : Fuel := 1%nat.

Definition zero : block := replicate 512 0.
Definition seven : block := replicate 512 7.
(** Two log blocks from block 2. *)
Definition super : block := wr32 (wr32 zero 12 2) 16 2.
Definition header : block := wr32 (wr32 zero 0 1) 4 4.
(** A disk with an empty log, and one with a committed change of block 4. *)
Definition disk0 : list block := [zero; super; zero; zero; zero; zero].
Definition disk1 : list block := [zero; super; header; seven; zero; zero].

Lemma const_ok v : is_u8 v -> block_ok (replicate 512 v).
Proof. intros Hv. split; [apply length_replicate|now apply Forall_replicate]. Qed.

Lemma zero_ok : block_ok zero.
Proof. apply const_ok. unfold is_u8. lia. Qed.
Lemma seven_ok : block_ok seven.
Proof. apply const_ok. unfold is_u8. lia. Qed.

Lemma disk0_ok : disk_ok 2 2 disk0.
Proof.
  split.
  - repeat apply Forall_cons_2; try apply Forall_nil_2; try apply zero_ok. apply wr32_ok, wr32_ok, zero_ok.
  - reflexivity.
  - split; vm_compute; reflexivity.
  - cbn; lia.
  - vm_compute; split; [discriminate|reflexivity].
  - vm_compute; reflexivity.
  - assert (E : hdr_blocks (blk_at disk0 2) = []) by (vm_compute; reflexivity). rewrite E. constructor.
  - assert (E : hdr_blocks (blk_at disk0 2) = []) by (vm_compute; reflexivity). rewrite E.
    intros x Hx. now apply elem_of_nil in Hx.
Qed.

Lemma disk1_ok : disk_ok 2 2 disk1.
Proof.
  assert (E : hdr_blocks (blk_at disk1 2) = [4]) by (vm_compute; reflexivity). split; rewrite ?E.
  - repeat apply Forall_cons_2; try apply Forall_nil_2; try apply zero_ok; try apply seven_ok;
      apply wr32_ok, wr32_ok, zero_ok.
  - reflexivity.
  - split; vm_compute; reflexivity.
  - cbn; lia.
  - vm_compute; split; [discriminate|reflexivity].
  - vm_compute; reflexivity.
  - apply NoDup_singleton.
  - intros x Hx. apply elem_of_cons in Hx as [->|Hx]; [cbn; lia|now apply elem_of_nil in Hx].
Qed.

Definition boot (d : list block) : bst := final (boot_bufs d) (binit (Ctx [] []) (boot_bufs d)).

Lemma boot_eq0 : binit (Ctx [] []) (boot_bufs disk0) = Ret tt (Ctx [] []) (boot disk0).
Proof. vm_compute. reflexivity. Qed.
Lemma boot_eq1 : binit (Ctx [] []) (boot_bufs disk1) = Ret tt (Ctx [] []) (boot disk1).
Proof. vm_compute. reflexivity. Qed.

(** An open transaction that writes block 4. *)
Definition open_log : logst := Logst (boot disk0) 2 2 1 false 1 0 (replicate 30 0).
Definition tx : M logst unit :=
  let* b := inbio (bread 1 4) in
  put_data b seven ;;;
  log_write b ;;;
  inbio (brelse b).
Definition V1 : Z -> block := vset (aget [] disk0) 4 seven.

Lemma tx_ok : wp tx (fun _ c g => held c = [] /\ log_shape g [4] /\ brep (lg_bio g) V1 (list_to_set [4]) [] /\
  disk (lg_bio g) = disk0 /\ lg_start g = 2 /\ lg_size g = 2) (Ctx [] []) open_log.
Proof.
  destruct (brep_boot disk0 _ _ (dk_blocks _ _ _ disk0_ok) boot_eq0) as (_ & R & Ed & _).
  unfold tx. apply wp_bind, wp_zoom. change (lg_bio open_log) with (boot disk0).
  assert (Ds : disksize (boot disk0) = 6) by (unfold disksize; rewrite Ed; reflexivity).
  eapply wp_bread; [unfold wakeups, fuel; lia|done|exact R|apply not_elem_of_nil|lia|right; rewrite size_empty; cbn; unfold NBUF; lia|].
  intros b s1 R1 E1 C1. assert (D1 : disksize s1 = 6) by (unfold disksize; rewrite (ca_disk _ _ _ C1); exact Ds).
  unfold put_data. apply wp_bind, wp_zoom. bio_steps. cbn [lg_bio set_bio]. set (s2 := bset b (set_data seven) s1).
  assert (R2 : brep s2 (aget [] disk0) (list_to_set []) [(b, 4)]) by (eapply brep_data; [exact R1|left|apply seven_ok]).
  set (g2 := set_bio s2 _). apply wp_bind. eapply (wp_log_write g2 []); [done| |exact R2|left|unfold g2, LOGSIZE, MAXOPBLOCKS; cbn; lia..|].
  - change (lg_bio g2) with s2. assert (D2 : disksize s2 = 6) by exact D1.
    split; change (lg_bio g2) with s2; rewrite ?D2.
    + reflexivity.
    + reflexivity.
    + reflexivity.
    + intros i Hi. cbn in Hi. lia.
    + cbn. lia.
    + cbn. lia.
    + lia.
    + cbn. lia.
    + cbn. unfold NBUF. lia.
    + constructor.
    + intros x Hx. now apply elem_of_nil in Hx.
  - intros g3 L3 R3 _ Hst Hsz _ Hdk Hdat. change (bs_add 4 []) with [4] in *.
    destruct (br_held _ _ _ _ R1 b 4 ltac:(left)) as [Hb _]. destruct (br_lru _ _ _ _ R1) as [l Hl].
    assert (E2 : b_data (bufof b (lg_bio g2)) = seven).
    { change (lg_bio g2) with s2. unfold s2. rewrite bufof_bset_eq; [done|]. rewrite (lru_len _ _ Hl). lia. }
    rewrite E2 in R3. apply wp_zoom. eapply wp_brelse; [done|exact R3|rewrite Hdat, E2; now rewrite vset_eq|].
    intros c4 s4 Hc4 R4 C4. split; [exact Hc4|]. split; [|split; [exact R4|split; [|split; [exact Hst|exact Hsz]]]].
    + apply log_shape_bio; [|exact L3]. unfold disksize. now rewrite (ca_disk _ _ _ C4).
    + cbn [lg_bio set_bio]. rewrite (ca_disk _ _ _ C4), Hdk. change (disk (lg_bio g2)) with (disk s1).
      rewrite (ca_disk _ _ _ C1). exact Ed.
Qed.

(** The transaction commits, and a crash leaves block 4 as it was or changed. *)
Lemma commit_crash_atomic_witness :
  wp (tx ;;; commit) (fun _ _ g' => exists ws, disk (lg_bio g') = dapply disk0 ws /\
    forall k c1 s1, binit (Ctx [] []) (boot_bufs (dapply disk0 (take k ws))) = Ret tt c1 s1 ->
      wp (initlog 1) (fun _ _ g1 => blk_at (disk (lg_bio g1)) 4 = if (k <=? 1)%nat then zero else seven)
        c1 (log0 s1)) (Ctx [] []) open_log.
Proof.
  apply wp_bind. eapply wp_mono; [apply tx_ok|]. intros _ c g (Hc & L & R & Ed & Est & Esz).
  eapply wp_mono; [apply (commit_crash_atomic fuel g [4] V1 disk0 c)|].
  - unfold wakeups, fuel. lia.
  - exact Hc.
  - exact L.
  - discriminate.
  - exact R.
  - exact Ed.
  - rewrite Est, Esz. exact disk0_ok.
  - rewrite Est. vm_compute. reflexivity.
  - intros x Hx. apply elem_of_cons in Hx as [->|Hx]; [lia|now apply elem_of_nil in Hx].
  - intros _ _ g' (ws & _ & E & H). exists ws. split; [exact E|]. intros k c1 s1 Hb. eapply wp_mono; [apply (H k c1 s1 Hb)|].
    intros [] c2 g1 H1. cbv beta in H1. rewrite Est, Esz in H1. etransitivity; [apply H1; [cbn; lia|lia]|].
    change (length [4]) with 1%nat. destruct (k <=? 1)%nat; reflexivity.
Defined.

(** The committed change of block 4 is installed. *)
Lemma log_recovery_witness :
  wp (initlog 1) (fun _ _ g' => blk_at (disk (lg_bio g')) 4 = seven) (Ctx [] []) (log0 (boot disk1)).
Proof.
  eapply wp_mono; [apply (log_recovery fuel 2 2 disk1)|].
  - unfold wakeups, fuel. lia.
  - exact disk1_ok.
  - exact boot_eq1.
  - intros _ _ g' (_ & H & _). etransitivity; [apply H; [cbn; lia|lia]|]. vm_compute. reflexivity.
Defined.
End Sample.
