(* ===== verification/LogSpace.v ===== *)
(** log.c: the space of the log.  [begin_op] admits an operation when the log has
    room for [MAXOPBLOCKS] blocks of it and of every operation in progress; the
    reservation is kept by any interleaving of operations that log at most that
    many blocks each.  Whether [log_write] may then still panic depends on the size
    of the log on the disk. *)
From S2P Require Import Prelude Monad Mmu Sleeplock Disk Bio Log.

(** * Threads *)

(** A thread: outside of an operation, inside one that has added [u] blocks to the
    log, or committing. *)
Inductive opt : Type := LIdle | LIn (u : Z) | LCommit.

Inductive act : Type := ABegin (i : nat) | AWrite (i b : nat) | AEnd (i : nat) | ACommit (i : nat).

Abbreviation ctx0 := (Ctx [] []).

Section Exec.
Context {fuel : Fuel}.

(** One action of a thread.  An operation adds at most [MAXOPBLOCKS] blocks. *)
Definition exec1 (a : act) (gt : logst * list opt) : option (logst * list opt) :=
  let (g, ts) := gt in
  match a with
  | ABegin i =>
      match ts !! i with
      | Some LIdle =>
          match begin_op_step tt (Ctx [LLog] []) g with
          | Ret (Done _) _ g' => Some (g', <[i := LIn 0]> ts)
          | _ => None
          end
      | _ => None
      end
  | AWrite i b =>
      match ts !! i with
      | Some (LIn u) =>
          match log_write b ctx0 g with
          | Ret _ _ g' =>
              let u' := u + (lh_n g' - lh_n g) in
              if u' <=? MAXOPBLOCKS then Some (g', <[i := LIn u']> ts) else None
          | _ => None
          end
      | _ => None
      end
  | AEnd i =>
      match ts !! i with
      | Some (LIn _) =>
          match end_op_start ctx0 g with
          | Ret do_commit _ g' => Some (g', <[i := if do_commit : bool then LCommit else LIdle]> ts)
          | _ => None
          end
      | _ => None
      end
  | ACommit i =>
      match ts !! i with
      | Some LCommit =>
          match (commit ;;; end_op_finish) ctx0 g with
          | Ret _ _ g' => Some (g', <[i := LIdle]> ts)
          | _ => None
          end
      | _ => None
      end
  end.

Definition log_step (gt gt' : logst * list opt) : Prop := exists a, exec1 a gt = Some gt'.

(** * Fields that code leaves alone *)

Definition pres {A B} (f : logst -> B) (m : M logst A) : Prop :=
  forall c g a c' g', m c g = Ret a c' g' -> f g' = f g.

Lemma pres_bind {A B C} (f : logst -> C) (m : M logst A) (k : A -> M logst B) :
  pres f m -> (forall a, pres f (k a)) -> pres f (bind m k).
Proof.
  intros Hm Hk c g a c' g'. unfold bind. destruct (m c g) as [a1 c1 g1| | |] eqn:E; cbn [obind]; try done.
  intros E'. rewrite (Hk a1 _ _ _ _ _ E'). exact (Hm _ _ _ _ _ E).
Qed.
Lemma pres_for {B C} (f : logst -> C) (l : list B) (k : B -> M logst unit) :
  (forall b, pres f (k b)) -> pres f (for_ l k).
Proof.
  intros Hk. induction l as [|b l IH]; cbn [for_]; [intros c g a c' g' E; now injection E as _ _ <-|]. now apply pres_bind.
Qed.
Lemma pres_read {A C} (f : logst -> C) (h : ctx -> logst -> A) : pres f (fun c g => Ret (h c g) c g).
Proof. intros c g a c' g' E. now injection E as _ _ <-. Qed.
Lemma pres_modify {C} (f : logst -> C) h : (forall g, f (h g) = f g) -> pres f (modify h).
Proof. intros H c g a c' g' E. injection E as _ _ <-. apply H. Qed.
Lemma pres_inbio {A C} (f : logst -> C) (m : M bst A) : (forall s g, f (set_bio s g) = f g) -> pres f (inbio m).
Proof.
  intros H c g a c' g'. unfold inbio, zoom. destruct (m c (lg_bio g)); cbn [ozoom]; try done.
  intros E. injection E as _ _ <-. apply H.
Qed.
Lemma pres_acquire {C} (f : logst -> C) lk : pres f (acquire lk).
Proof. intros c g a c' g'. unfold acquire. destruct (decide _); [done|]. intros E. now injection E as _ _ <-. Qed.
Lemma pres_release {C} (f : logst -> C) lk : pres f (release lk).
Proof. intros c g a c' g'. unfold release. destruct (decide _); [|done]. intros E. now injection E as _ _ <-. Qed.
Lemma pres_wakeup {C} (f : logst -> C) ch : pres f (wakeup ch).
Proof. apply pres_bind; [apply pres_acquire|]. intros _. apply pres_bind; [|intros _; apply pres_release]. intros c g a c' g' E. now injection E as _ _ <-. Qed.

(** The loops of [commit] leave every field but the buffers alone. *)
Lemma pres_copies {C} (f : logst -> C) :
  (forall s g, f (set_bio s g) = f g) -> pres f write_log /\ pres f install_trans /\ pres f write_head.
Proof.
  intros H. split_and!; unfold write_log, install_trans, write_head, get, gets, data, put_data;
    repeat (intros; first [apply pres_bind | apply pres_for | now apply pres_inbio | apply pres_read]).
Qed.

(** After [commit] and the end of [end_op]. *)
Lemma commit_effect c g a c' g' :
  0 <= lh_n g -> (commit ;;; end_op_finish) c g = Ret a c' g' ->
  lh_n g' = 0 /\ lg_outstanding g' = lg_outstanding g /\ lg_size g' = lg_size g /\ lg_committing g' = false.
Proof.
  intros Hn. unfold bind at 1. destruct (commit c g) as [[] c1 g1| | |] eqn:E; cbn [obind]; try done.
  assert (H1 : lh_n g1 = 0 /\ lg_outstanding g1 = lg_outstanding g /\ lg_size g1 = lg_size g).
  { unfold commit, bind at 1, gets at 1 in E. cbn [obind] in E. unfold when in E. destruct (Z.ltb_spec 0 (lh_n g)).
    - assert (Hsame : forall C (f : logst -> C), (forall s g, f (set_bio s g) = f g) -> (forall n g, f (set_n n g) = f g) -> f g1 = f g).
      { intros C f F1 F2. destruct (pres_copies f F1) as (P1 & P2 & P3). revert E.
        apply (pres_bind f _ _ P1); intros _. apply (pres_bind f _ _ P3); intros _. apply (pres_bind f _ _ P2); intros _.
        apply pres_bind; [now apply pres_modify|intros _; exact P3]. }
      split; [|split; apply Hsame; done]. revert E. unfold bind.
      destruct (write_log c g) as [? ? ?| | |]; cbn [obind]; try done. destruct (write_head _ _) as [? ? ?| | |]; cbn [obind]; try done.
      destruct (install_trans _ _) as [? ? g4| | |]; cbn [obind modify]; try done. intros E.
      destruct (pres_copies lh_n ltac:(done)) as (_ & _ & P3). now rewrite (P3 _ _ _ _ _ E).
    - injection E as _ <-. split_and!; [lia|done|done]. }
  intros E2. assert (Hf : forall C (f : logst -> C), (forall b g, f (set_committing b g) = f g) -> f g' = f g1).
  { intros C f F1. revert E2. unfold end_op_finish. apply pres_bind; [apply pres_acquire|intros _].
    apply pres_bind; [now apply pres_modify|intros _]. apply pres_bind; [apply pres_wakeup|intros _; apply pres_release]. }
  rewrite (Hf _ lh_n), (Hf _ lg_outstanding), (Hf _ lg_size) by done. split_and!; try apply H1.
  revert E2. unfold end_op_finish, bind at 1. destruct (acquire LLog c1 g1) as [? ? ?| | |]; cbn [obind modify bind]; try done.
  intros E2. assert (P : pres lg_committing (wakeup ChLog ;;; release LLog)).
  { apply pres_bind; [apply pres_wakeup|intros _; apply pres_release]. }
  unfold bind, modify in E2. cbn [obind] in E2. exact (P _ _ _ _ _ E2).
Qed.

Lemma begin_effect g r c' g' :
  begin_op_step tt (Ctx [LLog] []) g = Ret (Done r) c' g' ->
  lg_committing g = false /\ lh_n g + (lg_outstanding g + 1) * MAXOPBLOCKS <= LOGSIZE /\
  g' = set_outstanding (lg_outstanding g + 1) g.
Proof.
  unfold begin_op_step, bind, get. cbn [obind]. destruct (lg_committing g); [done|].
  destruct (Z.ltb_spec LOGSIZE (lh_n g + (lg_outstanding g + 1) * MAXOPBLOCKS)); [done|]. cbn. intros E. injection E as _ _ <-. done.
Qed.

(** [log_write] returns when the log is not full, and adds at most one block. *)
Lemma write_effect g b :
  0 <= lh_n g < LOGSIZE -> lh_n g < lg_size g - 1 -> 1 <= lg_outstanding g ->
  exists g', log_write b ctx0 g = Ret tt ctx0 g'.
Proof.
  intros Hn Hs Ho. unfold log_write, bind, get. cbn [obind]. rewrite (proj2 (Z.leb_gt LOGSIZE _)) by lia.
  rewrite (proj2 (Z.leb_gt (lg_size g - 1) _)) by lia. cbn [orb]. rewrite (proj2 (Z.ltb_ge _ _)) by lia.
  cbn -[log_index Z.eqb]. unfold when. change (acquire LLog ctx0 g) with (@Ret logst unit tt (Ctx [LLog] []) g). cbn [obind].
  match goal with |- context [if ?x then _ else _] => destruct x end; cbn; eauto.
Qed.

Lemma log_index_range l n k m : k <= log_index l n k m <= k + Z.of_nat m.
Proof.
  revert k. induction m as [|m IH]; intros k; cbn [log_index]; [lia|]. destruct (_ =? n); [lia|]. specialize (IH (k + 1)). lia.
Qed.

Lemma write_counts g b c c' g' :
  log_write b c g = Ret tt c' g' ->
  lh_n g < LOGSIZE /\ lh_n g < lg_size g - 1 /\ 1 <= lg_outstanding g /\ lh_n g <= lh_n g' <= lh_n g + 1 /\
  lg_outstanding g' = lg_outstanding g /\ lg_committing g' = lg_committing g /\ lg_size g' = lg_size g.
Proof.
  unfold log_write, bind at 1, get at 1. cbn [obind].
  destruct (Z.leb_spec LOGSIZE (lh_n g)); [done|]. destruct (Z.leb_spec (lg_size g - 1) (lh_n g)); [done|]. cbn [orb].
  destruct (Z.ltb_spec (lg_outstanding g) 1); [done|]. unfold bind, acquire. destruct (decide _); [done|]. cbn -[log_index release Z.eqb].
  unfold when. match goal with |- context [if ?x then _ else _] => destruct x end; cbn -[log_index release]; unfold release; (destruct (decide _); [|done]); intros E;
    injection E as _ <-; cbn; split_and!; done || lia.
Qed.

Lemma end_effect g c c' b g' :
  end_op_start c g = Ret b c' g' ->
  lg_committing g = false /\ lg_outstanding g' = lg_outstanding g - 1 /\ lh_n g' = lh_n g /\ lg_size g' = lg_size g /\
  b = (lg_outstanding g - 1 =? 0) /\ lg_committing g' = b.
Proof.
  unfold end_op_start. unfold bind at 1. destruct (acquire LLog c g) as [[] c1 g1| | |] eqn:Ea; cbn [obind]; try done.
  assert (g1 = g) as -> by (revert Ea; unfold acquire; destruct (decide _); [done|]; intros E; now injection E).
  unfold bind at 1, modify at 1. cbn [obind]. unfold bind at 1, get at 1. cbn [obind lg_committing set_outstanding lg_outstanding].
  destruct (lg_committing g) eqn:Ec; [done|]. destruct (Z.eqb_spec (lg_outstanding g - 1) 0); intros E.
  - unfold bind, modify in E. cbn [obind] in E. unfold release in E. destruct (decide _) in E; [|done]. injection E as <- _ <-. cbn. done.
  - assert (Hp : forall C (f : logst -> C), pres f (wakeup ChLog ;;; release LLog ;;; ret false)).
    { intros C f. apply pres_bind; [apply pres_wakeup|intros _]. apply pres_bind; [apply pres_release|intros _; apply pres_read]. }
    assert (Eb : b = false).
    { revert E. unfold bind. destruct (wakeup _ _ _) as [? ? ?| | |]; cbn [obind]; try done.
      destruct (release _ _ _) as [? ? ?| | |]; cbn [obind]; try done. intros E. now injection E. }
    rewrite (Hp _ lg_outstanding _ _ _ _ _ E), (Hp _ lh_n _ _ _ _ _ E), (Hp _ lg_size _ _ _ _ _ E), (Hp _ lg_committing _ _ _ _ _ E).
    cbn. split_and!; congruence.
Qed.
End Exec.

(** * The reservation *)

Fixpoint total (f : opt -> Z) (ts : list opt) : Z :=
  match ts with
  | [] => 0
  | t :: ts' => f t + total f ts'
  end.
(** Threads inside an operation, threads committing, and blocks still reserved. *)
Definition inside (t : opt) : Z := match t with LIn _ => 1 | _ => 0 end.
Definition commits (t : opt) : Z := match t with LCommit => 1 | _ => 0 end.
Definition reserved (t : opt) : Z := match t with LIn u => MAXOPBLOCKS - u | _ => 0 end.

Lemma total_insert f ts i t t' : ts !! i = Some t -> total f (<[i := t']> ts) = total f ts - f t + f t'.
Proof.
  revert i. induction ts as [|x ts IH]; intros [|i]; cbn; [done|done|intros [= ->]; lia|]. intros Hi. rewrite IH by done. lia.
Qed.
Lemma total_ge f ts i t : (forall x, 0 <= f x) -> ts !! i = Some t -> f t <= total f ts.
Proof.
  intros Hf. revert i. induction ts as [|x ts IH]; intros [|i]; cbn; [done|done| |].
  - intros [= ->]. assert (0 <= total f ts); [|lia]. clear -Hf. induction ts as [|y ts IH]; cbn; [lia|]. specialize (Hf y). lia.
  - intros Hi. specialize (IH i Hi). specialize (Hf x). lia.
Qed.

(** No operation has used more than its share. *)
Definition shares (ts : list opt) : Prop := forall i u, ts !! i = Some (LIn u) -> 0 <= u <= MAXOPBLOCKS.

Lemma reserved_bound ts : shares ts -> 0 <= total reserved ts <= MAXOPBLOCKS * total inside ts.
Proof.
  induction ts as [|x ts IH]; intros H; cbn; [lia|].
  assert (Hs : shares ts) by (intros i u Hi; exact (H (S i) u Hi)). specialize (IH Hs).
  destruct x; cbn; [lia| |lia]. specialize (H 0%nat u eq_refl). lia.
Qed.

Record log_inv (size : Z) (gt : logst * list opt) : Prop := {
  li_size : lg_size gt.1 = size;
  li_n : 0 <= lh_n gt.1;
  li_out : lg_outstanding gt.1 = total inside gt.2;
  li_commit : total commits gt.2 = if lg_committing gt.1 then 1 else 0;
  li_alone : lg_committing gt.1 = true -> total inside gt.2 = 0;
  li_shares : shares gt.2;
  li_room : lh_n gt.1 + total reserved gt.2 <= LOGSIZE
}.

Lemma shares_insert ts i t : shares ts -> (forall u, t = LIn u -> 0 <= u <= MAXOPBLOCKS) -> shares (<[i := t]> ts).
Proof.
  intros H Ht j u Hj. apply list_lookup_insert_Some in Hj as [(-> & E & _)|[_ Hj]]; [now apply Ht|now apply (H j)].
Qed.

Lemma inside_nonneg x : 0 <= inside x.
Proof. destruct x; cbn; lia. Qed.
Lemma commits_nonneg x : 0 <= commits x.
Proof. destruct x; cbn; lia. Qed.

Section Inv.
Context {fuel : Fuel}.

Lemma exec1_inv size a gt gt' : log_inv size gt -> exec1 a gt = Some gt' -> log_inv size gt'.
Proof.
  intros I E. destruct gt as [g ts]. destruct I as [I1 I2 I3 I4 I5 I6 I7]. cbn in I1, I2, I3, I4, I5, I6, I7.
  pose proof (reserved_bound ts I6) as Hres. unfold LOGSIZE, MAXOPBLOCKS in *.
  destruct a as [i|i b|i|i]; cbn [exec1] in E; destruct (ts !! i) as [[|u|]|] eqn:Ei; try done.
  - destruct (begin_op_step tt (Ctx [LLog] []) g) as [[[]|] c' g'| | |] eqn:Eb; try done. injection E as <-.
    apply begin_effect in Eb as (Hc & Hr & ->). unfold LOGSIZE, MAXOPBLOCKS in *.
    split; cbn [fst snd lg_size lh_n lg_outstanding lg_committing set_outstanding]; rewrite ?(total_insert _ _ _ _ _ Ei); cbn [inside commits reserved].
    + done.
    + done.
    + lia.
    + rewrite Hc in *. lia.
    + congruence.
    + apply shares_insert; [done|]. intros u [= <-]. unfold MAXOPBLOCKS. lia.
    + unfold LOGSIZE, MAXOPBLOCKS. lia.
  - destruct (log_write b ctx0 g) as [[] c' g'| | |] eqn:Eb; try done.
    apply write_counts in Eb as (W1 & W2 & W3 & W4 & W5 & W6 & W7). unfold MAXOPBLOCKS in E.
    destruct (Z.leb_spec (u + (lh_n g' - lh_n g)) 10); [|done]. injection E as <-. pose proof (I6 i u Ei) as Hu.
    split; cbn [fst snd]; rewrite ?(total_insert _ _ _ _ _ Ei), ?W5, ?W6, ?W7; cbn [inside commits reserved]; try done; try lia.
    + intros Hc. specialize (I5 Hc). lia.
    + apply shares_insert; [done|]. intros v [= <-]. unfold MAXOPBLOCKS. lia.
    + unfold LOGSIZE, MAXOPBLOCKS. lia.
  - destruct (end_op_start ctx0 g) as [d c' g'| | |] eqn:Eb; try done. injection E as <-. pose proof (I6 i u Ei) as Hu.
    apply end_effect in Eb as (E1 & E2 & E3 & E4 & E5 & E6). rewrite E1 in I4.
    assert (Hd : inside (if d then LCommit else LIdle) = 0 /\ commits (if d then LCommit else LIdle) = (if d then 1 else 0) /\
      reserved (if d then LCommit else LIdle) = 0) by (now destruct d). destruct Hd as (D1 & D2 & D3).
    split; cbn [fst snd]; rewrite ?(total_insert _ _ _ _ _ Ei), ?E2, ?E3, ?E4, ?E6, ?D1, ?D2, ?D3; cbn [inside commits reserved]; try done; try lia.
    + intros Hd. rewrite Hd in E5. symmetry in E5. apply Z.eqb_eq in E5. lia.
    + apply shares_insert; [done|]. intros v. now destruct d.
    + unfold LOGSIZE, MAXOPBLOCKS in *. lia.
  - destruct ((commit ;;; end_op_finish) ctx0 g) as [[] c' g'| | |] eqn:Eb; try done. injection E as <-.
    apply commit_effect in Eb as (E1 & E2 & E3 & E4); [|done].
    pose proof (total_ge commits ts i LCommit commits_nonneg Ei) as Hc. cbn in Hc.
    assert (Hct : lg_committing g = true) by (destruct (lg_committing g); [done|lia]). rewrite Hct in I4. specialize (I5 Hct).
    split; cbn [fst snd]; rewrite ?(total_insert _ _ _ _ _ Ei), ?E1, ?E2, ?E3, ?E4; cbn [inside commits reserved]; try done; try lia.
    + apply shares_insert; [done|]. done.
    + unfold LOGSIZE, MAXOPBLOCKS. lia.
Qed.

Lemma steps_inv size gt gt' : log_inv size gt -> rtc log_step gt gt' -> log_inv size gt'.
Proof. intros I H. induction H as [|x y z [a E] _ IH]; [done|]. eauto using exec1_inv. Qed.

(** An empty log and [k] threads outside of operations. *)
Definition idle_log (size : Z) (gt : logst * list opt) : Prop :=
  lg_size gt.1 = size /\ lh_n gt.1 = 0 /\ lg_outstanding gt.1 = 0 /\ lg_committing gt.1 = false /\ Forall (fun t => t = LIdle) gt.2.

Lemma idle_inv size gt : idle_log size gt -> log_inv size gt.
Proof.
  destruct gt as [g ts]. intros (E1 & E2 & E3 & E4 & Hts). cbn in *.
  assert (Hz : forall f, f LIdle = 0 -> total f ts = 0).
  { intros f Hf. induction Hts as [|x ts -> _ IH]; cbn; [done|]. rewrite Hf, IH. done. }
  split; cbn; rewrite ?E2, ?E3, ?E4, ?Hz; try done.
  intros i u Hi. rewrite Forall_lookup in Hts. now apply Hts in Hi.
Qed.
End Inv.

(** C17: However operations interleave, an operation that has logged less than its
    [MAXOPBLOCKS] blocks can log another block without [log_write] panicking, when
    the log on the disk has room for [LOGSIZE] blocks besides its header. *)
Theorem log_space_reserved `{fuel : Fuel} size gt0 g ts i u b :
  LOGSIZE + 1 <= size -> idle_log size gt0 -> rtc log_step gt0 (g, ts) -> ts !! i = Some (LIn u) -> u < MAXOPBLOCKS ->
  exists g', log_write b ctx0 g = Ret tt ctx0 g'.
Proof.
  intros Hsize Hidle Hs Hi Hu. pose proof (steps_inv size gt0 (g, ts) (idle_inv _ _ Hidle) Hs) as [I1 I2 I3 I4 I5 I6 I7].
  cbn in *. pose proof (total_ge inside ts i _ inside_nonneg Hi) as Hin. cbn in Hin.
  assert (Hres : MAXOPBLOCKS - u <= total reserved ts).
  { clear -I6 Hi. revert i Hi I6. induction ts as [|x ts IH]; intros [|i]; cbn; [done|done| |].
    - intros [= ->] H. pose proof (reserved_bound ts (fun j v Hj => H (S j) v Hj)). cbn. lia.
    - intros Hi H. specialize (IH i Hi (fun j v Hj => H (S j) v Hj)).
      assert (0 <= reserved x); [|lia]. destruct x; cbn; [lia| |lia]. specialize (H 0%nat u0 eq_refl). lia. }
  apply write_effect; lia.
Qed.

(** * Three operations at once *)

Module Three.
#[local] Instance fuel : Fuel := 1%nat.

(** Buffers of 30 different blocks. *)
Definition cache : bst := Bst ((fun i => Buf B_VALID 1 (100 + i) true 1 0 0 []) <$> zrange 30) [] [].
Definition start (size : Z) : logst * list opt :=
  (Logst cache 2 size 0 false 1 0 (replicate 30 0), [LIdle; LIdle; LIdle]).

Fixpoint run (l : list act) (gt : logst * list opt) : option (logst * list opt) :=
  match l with
  | [] => Some gt
  | a :: l' => match exec1 a gt with Some gt' => run l' gt' | None => None end
  end.
Lemma run_steps l gt gt' : run l gt = Some gt' -> rtc log_step gt gt'.
Proof.
  revert gt. induction l as [|a l IH]; intros gt; cbn [run]; [intros [= ->]; apply rtc_refl|].
  destruct (exec1 a gt) as [gt1|] eqn:E; [|done]. intros H. eapply rtc_l; [exists a; exact E|now apply IH].
Qed.

(** Three operations begin; the first two log ten blocks each, the third nine. *)
Definition acts : list act :=
  [ABegin 0; ABegin 1; ABegin 2] ++ (AWrite 0 <$> seq 0 10) ++ (AWrite 1 <$> seq 10 10) ++ (AWrite 2 <$> seq 20 9).
Definition state (size : Z) : logst * list opt := default (start size) (run acts (start size)).

Lemma start_idle size : idle_log size (start size).
Proof. split_and!; try done. repeat constructor. Qed.

Lemma state_steps : rtc log_step (start 31) (state 31) /\ rtc log_step (start 30) (state 30).
Proof. split; apply (run_steps acts); vm_compute; reflexivity. Qed.
Lemma state_third : (state 31).2 !! 2%nat = Some (LIn 9) /\ (state 30).2 !! 2%nat = Some (LIn 9).
Proof. vm_compute. done. Qed.

(** With 31 blocks on the disk the thirtieth block is logged. *)
Lemma log_space_reserved_witness : exists g', log_write 29 ctx0 (state 31).1 = Ret tt ctx0 g'.
Proof.
  apply (log_space_reserved 31 (start 31) (state 31).1 (state 31).2 2 9 29).
  - unfold LOGSIZE, MAXOPBLOCKS. lia.
  - apply start_idle.
  - destruct (state 31) eqn:E. cbn [fst snd]. rewrite <- E. apply state_steps.
  - apply state_third.
  - unfold MAXOPBLOCKS. lia.
Defined.

(** C18: mkfs gives the log [LOGSIZE] blocks, the header included, so three operations
    that stay within what [begin_op] reserved for them can make [log_write] panic:
    the thirtieth block does not fit. *)
Theorem log_space_off_by_one :
  exists gt0 g ts i u b,
    idle_log LOGSIZE gt0 /\ rtc log_step gt0 (g, ts) /\ ts !! i = Some (LIn u) /\ u < MAXOPBLOCKS /\
    log_write b ctx0 g = Panic "too big a transaction".
Proof.
  exists (start 30), (state 30).1, (state 30).2, 2%nat, 9, 29%nat. split_and!.
  - apply start_idle.
  - destruct (state 30) eqn:E. cbn [fst snd]. rewrite <- E. apply state_steps.
  - apply state_third.
  - unfold MAXOPBLOCKS. lia.
  - vm_compute. reflexivity.
Qed.
End Three.
