(* ===== verification/Fs.v ===== *)
(** fs.c: block allocation, inodes, file contents, directories and path names,
    over the log and the buffer cache. *)
From S2P Require Import Prelude Monad Mem Mmu Cstring Sleeplock Disk Bio Log.

(** * fs.h, file.h *)

Definition ROOTINO : Z := 1.
Definition NDIRECT : Z := 12.
Definition NINDIRECT : Z := BSIZE / 4.
Definition MAXFILE : Z := NDIRECT + NINDIRECT.
Definition DINODE_SIZE : Z := 64.
Definition IPB : Z := BSIZE / DINODE_SIZE.
Definition IBLOCK (i : Z) (sb : superblock) : Z := u32 (i / IPB + sb_inodestart sb).
Definition BPB : Z := BSIZE * 8.
Definition BBLOCK (b : Z) (sb : superblock) : Z := u32 (b / BPB + sb_bmapstart sb).
Definition DIRENT_SIZE : Z := 16.

(** struct inode.  [i_locked] is the word of its sleep lock. *)
Record inode : Type := Inode {
  i_dev : Z;
  i_inum : Z;
  i_ref : Z;
  i_locked : bool;
  i_valid : bool;
  i_type : Z;
  i_major : Z;
  i_minor : Z;
  i_nlink : Z;
  i_size : Z;
  i_addrs : list Z
}.
Definition inode0 : inode := Inode 0 0 0 false false 0 0 0 0 0 (replicate 13 0).

Definition iset_key dev inum p := Inode dev inum (i_ref p) (i_locked p) (i_valid p) (i_type p) (i_major p) (i_minor p) (i_nlink p) (i_size p) (i_addrs p).
Definition iset_ref v p := Inode (i_dev p) (i_inum p) v (i_locked p) (i_valid p) (i_type p) (i_major p) (i_minor p) (i_nlink p) (i_size p) (i_addrs p).
Definition iset_locked v p := Inode (i_dev p) (i_inum p) (i_ref p) v (i_valid p) (i_type p) (i_major p) (i_minor p) (i_nlink p) (i_size p) (i_addrs p).
Definition iset_valid v p := Inode (i_dev p) (i_inum p) (i_ref p) (i_locked p) v (i_type p) (i_major p) (i_minor p) (i_nlink p) (i_size p) (i_addrs p).
Definition iset_type v p := Inode (i_dev p) (i_inum p) (i_ref p) (i_locked p) (i_valid p) v (i_major p) (i_minor p) (i_nlink p) (i_size p) (i_addrs p).
Definition iset_dev_nums major minor p := Inode (i_dev p) (i_inum p) (i_ref p) (i_locked p) (i_valid p) (i_type p) major minor (i_nlink p) (i_size p) (i_addrs p).
Definition iset_nlink v p := Inode (i_dev p) (i_inum p) (i_ref p) (i_locked p) (i_valid p) (i_type p) (i_major p) (i_minor p) v (i_size p) (i_addrs p).
Definition iset_size v p := Inode (i_dev p) (i_inum p) (i_ref p) (i_locked p) (i_valid p) (i_type p) (i_major p) (i_minor p) (i_nlink p) v (i_addrs p).
Definition iset_addrs v p := Inode (i_dev p) (i_inum p) (i_ref p) (i_locked p) (i_valid p) (i_type p) (i_major p) (i_minor p) (i_nlink p) (i_size p) v.

(** The fields of the on-disk inode (struct dinode) at [off] in a block. *)
Definition dinode_load (d : block) (off : Z) (p : inode) : inode :=
  Inode (i_dev p) (i_inum p) (i_ref p) (i_locked p) (i_valid p)
    (s16 (rd16 d off)) (s16 (rd16 d (off + 2))) (s16 (rd16 d (off + 4))) (s16 (rd16 d (off + 6)))
    (rd32 d (off + 8)) ((fun k => rd32 d (off + 12 + 4 * k)) <$> zrange 13).

Definition dinode_store (d : block) (off : Z) (p : inode) : block :=
  let d := wr16 d off (i_type p) in
  let d := wr16 d (off + 2) (i_major p) in
  let d := wr16 d (off + 4) (i_minor p) in
  let d := wr16 d (off + 6) (i_nlink p) in
  let d := wr32 d (off + 8) (i_size p) in
  fold_left (fun d k => wr32 d (off + 12 + 4 * k) (aget 0 (i_addrs p) k)) (zrange 13) d.

Definition dinode_off (inum : Z) : Z := inum mod IPB * DINODE_SIZE.

(** struct stat. *)
Record stat : Type := Stat { st_type : Z; st_dev : Z; st_ino : Z; st_nlink : Z; st_size : Z }.

(** * State *)

(** The superblock [sb] and the inode cache of fs.c, over the log. *)
Record fsst : Type := Fsst {
  fs_log : logst;
  fs_sb : superblock;
  icache : list inode
}.
Definition set_log v s := Fsst v (fs_sb s) (icache s).
Definition set_sb v s := Fsst (fs_log s) v (icache s).
Definition iof (i : nat) (s : fsst) : inode := default inode0 (icache s !! i).
Definition iset (i : nat) (f : inode -> inode) (s : fsst) : fsst := Fsst (fs_log s) (fs_sb s) (alter f i (icache s)).
Definition imod (i : nat) (f : inode -> inode) : M fsst unit := modify (iset i f).

Definition inlog {A} (m : M logst A) : M fsst A := zoom fs_log set_log m.

#[global] Instance fsst_locks : SleepLocks fsst := {|
  sl_locked lk s :=
    match lk with
    | SlBuf _ => sl_locked lk (lg_bio (fs_log s))
    | SlInode i => i_locked (iof i s)
    end;
  sl_set lk v s :=
    match lk with
    | SlBuf _ => set_log (set_bio (sl_set lk v (lg_bio (fs_log s))) (fs_log s)) s
    | SlInode i => iset i (iset_locked v) s
    end
|}.

(** * Blocks *)

Section Fs.
Context {fuel : Fuel}.

Definition fbread (dev n : Z) : M fsst nat := inlog (inbio (bread dev n)).
Definition fbrelse (b : nat) : M fsst unit := inlog (inbio (brelse b)).
Definition flog_write (b : nat) : M fsst unit := inlog (log_write b).
Definition fdata (b : nat) : M fsst block := inlog (data b).
Definition fput (b : nat) (d : block) : M fsst unit := inlog (put_data b d).

Definition bzero (dev bno : Z) : M fsst unit :=
  let* bp := fbread dev bno in
  let* d := fdata bp in
  fput bp (set_bytes d 0 (replicate 512 0)) ;;;
  flog_write bp ;;;
  fbrelse bp.

(** The inner loop of [balloc]: the first clear bit of the block among the bits
    [bi], ..., [bi + n - 1], [b + bi < size]. *)
Fixpoint first_free (d : block) (b size bi : Z) (n : nat) : option Z :=
  match n with
  | O => None
  | S n' =>
      if b + bi <? size then
        if Z.land (aget 0 d (bi / 8)) (bit (bi mod 8)) =? 0 then Some bi
        else first_free d b size (bi + 1) n'
      else None
  end.

Definition balloc (dev : Z) : M fsst Z :=
  let* sb := gets fs_sb in
  forb ((fun i => i * BPB) <$> zrange (Z.to_nat ((sb_size sb + BPB - 1) / BPB))) (fun b =>
    let* sb := gets fs_sb in
    let* bp := fbread dev (BBLOCK b sb) in
    let* d := fdata bp in
    match first_free d b (sb_size sb) 0 (Z.to_nat BPB) with
    | Some bi =>
        fput bp (aset d (bi / 8) (Z.lor (aget 0 d (bi / 8)) (bit (bi mod 8)))) ;;;
        flog_write bp ;;;
        fbrelse bp ;;;
        bzero dev (b + bi) ;;;
        ret (Some (b + bi))
    | None => fbrelse bp ;;; ret None
    end)
  (panic "balloc: out of blocks").

Definition bfree (dev b : Z) : M fsst unit :=
  let* sb := inlog (readsb dev) in
  modify (set_sb sb) ;;;
  let* bp := fbread dev (BBLOCK b sb) in
  let bi := b mod BPB in
  let m := bit (bi mod 8) in
  let* d := fdata bp in
  if Z.land (aget 0 d (bi / 8)) m =? 0 then panic "freeing free block"
  else
    fput bp (aset d (bi / 8) (Z.land (aget 0 d (bi / 8)) (Z.lnot m))) ;;;
    flog_write bp ;;;
    fbrelse bp.

(** * Inodes *)

(** The message about the superblock is left out: the file system's state has no
    console. *)
Definition iinit (dev : Z) : M fsst unit :=
  for_ (seq 0 NINODE) (fun i => initsleeplock (SlInode i)) ;;;
  let* sb := inlog (readsb dev) in
  modify (set_sb sb).

(** The loop of [iget]: the entry of the inode, or else the first free one. *)
Fixpoint iget_find (dev inum : Z) (l : list inode) (i : nat) (empty : option nat) : nat + option nat :=
  match l with
  | [] => inr empty
  | p :: l' =>
      if (0 <? i_ref p) && (i_dev p =? dev) && (i_inum p =? inum) then inl i
      else
        let empty := match empty with None => if i_ref p =? 0 then Some i else None | _ => empty end in
        iget_find dev inum l' (S i) empty
  end.

Definition iget (dev inum : Z) : M fsst nat :=
  acquire LIcache ;;;
  let* l := gets icache in
  match iget_find dev inum l 0 None with
  | inl i => imod i (fun p => iset_ref (i_ref p + 1) p) ;;; release LIcache ;;; ret i
  | inr None => panic "iget: no inodes"
  | inr (Some i) =>
      imod i (fun p => iset_valid false (iset_ref 1 (iset_key dev inum p))) ;;;
      release LIcache ;;;
      ret i
  end.

Definition ialloc (dev type : Z) : M fsst nat :=
  let* sb := gets fs_sb in
  forb ((fun i => i + 1) <$> zrange (Z.to_nat (sb_ninodes sb - 1))) (fun inum =>
    let* sb := gets fs_sb in
    let* bp := fbread dev (IBLOCK inum sb) in
    let* d := fdata bp in
    let off := dinode_off inum in
    if rd16 d off =? 0 then
      fput bp (wr16 (set_bytes d off (replicate 64 0)) off type) ;;;
      flog_write bp ;;;
      fbrelse bp ;;;
      let* i := iget dev inum in
      ret (Some i)
    else fbrelse bp ;;; ret None)
  (panic "ialloc: no inodes").

Definition iupdate (i : nat) : M fsst unit :=
  let* p := gets (iof i) in
  let* sb := gets fs_sb in
  let* bp := fbread (i_dev p) (IBLOCK (i_inum p) sb) in
  let* d := fdata bp in
  fput bp (dinode_store d (dinode_off (i_inum p)) p) ;;;
  flog_write bp ;;;
  fbrelse bp.

Definition idup (i : nat) : M fsst nat :=
  acquire LIcache ;;;
  imod i (fun p => iset_ref (i_ref p + 1) p) ;;;
  release LIcache ;;;
  ret i.

Definition ilock (i : nat) : M fsst unit :=
  let* p := gets (iof i) in
  if i_ref p <? 1 then panic "ilock"
  else
    acquiresleep wakeups (SlInode i) ;;;
    let* p := gets (iof i) in
    if i_valid p then ret tt
    else
      let* sb := gets fs_sb in
      let* bp := fbread (i_dev p) (IBLOCK (i_inum p) sb) in
      let* d := fdata bp in
      imod i (dinode_load d (dinode_off (i_inum p))) ;;;
      fbrelse bp ;;;
      imod i (iset_valid true) ;;;
      let* p := gets (iof i) in
      if i_type p =? 0 then panic "ilock: no type" else ret tt.

Definition iunlock (i : nat) : M fsst unit :=
  let* h := holdingsleep (SlInode i) in
  let* p := gets (iof i) in
  if negb h || (i_ref p <? 1) then panic "iunlock"
  else releasesleep (SlInode i).

(** ** Contents *)

Definition bmap (i : nat) (bn : Z) : M fsst Z :=
  let* p := gets (iof i) in
  if bn <? NDIRECT then
    let addr := aget 0 (i_addrs p) bn in
    if addr =? 0 then
      let* addr := balloc (i_dev p) in
      imod i (fun p => iset_addrs (aset (i_addrs p) bn addr) p) ;;;
      ret addr
    else ret addr
  else
    let bn := bn - NDIRECT in
    if bn <? NINDIRECT then
      let addr := aget 0 (i_addrs p) NDIRECT in
      let* addr :=
        (if addr =? 0 then
           let* addr := balloc (i_dev p) in
           imod i (fun p => iset_addrs (aset (i_addrs p) NDIRECT addr) p) ;;;
           ret addr
         else ret addr) in
      let* bp := fbread (i_dev p) addr in
      let* d := fdata bp in
      let addr := rd32 d (4 * bn) in
      let* addr :=
        (if addr =? 0 then
           let* addr := balloc (i_dev p) in
           let* d := fdata bp in
           fput bp (wr32 d (4 * bn) addr) ;;;
           flog_write bp ;;;
           ret addr
         else ret addr) in
      fbrelse bp ;;;
      ret addr
    else panic "bmap: out of range".

Definition itrunc (i : nat) : M fsst unit :=
  for_ (zrange 12) (fun k =>
    let* p := gets (iof i) in
    let addr := aget 0 (i_addrs p) k in
    when (negb (addr =? 0)) (
      bfree (i_dev p) addr ;;;
      imod i (fun p => iset_addrs (aset (i_addrs p) k 0) p))) ;;;
  let* p := gets (iof i) in
  let ind := aget 0 (i_addrs p) NDIRECT in
  when (negb (ind =? 0)) (
    let* bp := fbread (i_dev p) ind in
    for_ (zrange (Z.to_nat NINDIRECT)) (fun j =>
      let* d := fdata bp in
      let a := rd32 d (4 * j) in
      when (negb (a =? 0)) (bfree (i_dev p) a)) ;;;
    fbrelse bp ;;;
    bfree (i_dev p) ind ;;;
    imod i (fun p => iset_addrs (aset (i_addrs p) NDIRECT 0) p)) ;;;
  imod i (iset_size 0) ;;;
  iupdate i.

Definition iput (i : nat) : M fsst unit :=
  acquiresleep wakeups (SlInode i) ;;;
  let* p := gets (iof i) in
  when (i_valid p && (i_nlink p =? 0)) (
    acquire LIcache ;;;
    let* r := gets (fun s => i_ref (iof i s)) in
    release LIcache ;;;
    when (r =? 1) (
      itrunc i ;;;
      imod i (iset_type 0) ;;;
      iupdate i ;;;
      imod i (iset_valid false))) ;;;
  releasesleep (SlInode i) ;;;
  acquire LIcache ;;;
  imod i (fun p => iset_ref (i_ref p - 1) p) ;;;
  release LIcache.

Definition iunlockput (i : nat) : M fsst unit := iunlock i ;;; iput i.

Definition stati (i : nat) : M fsst stat :=
  let* p := gets (iof i) in
  ret (Stat (i_type p) (i_dev p) (i_inum p) (i_nlink p) (i_size p)).
End Fs.
