(* ===== verification/FsData.v ===== *)
(** fs.c, continued: reading and writing the contents of an inode, directories,
    and path names.  This code copies bytes from and to places outside the file
    system (user memory, local variables), so it runs in a larger state [K] of
    which the file system is a part. *)
From S2P Require Import Prelude Monad Mem Mmu Cstring Sleeplock Disk Bio Log Fs.

(** Code of the file system, run in [K]. *)
Class HasFs (K : Type) : Type := infs : forall {A}, M fsst A -> M K A.
#[global] Instance fs_self : HasFs fsst := fun A m => m.

(** [devsw]: the functions of a device.  They take the index of the inode, where
    to put or fetch bytes, and the count, like [readi] and [writei] below. *)
Class Devices (K : Type) : Type := {
  dev_read : Z -> option (forall L, nat -> (L -> Z -> list Z -> M K L) -> L -> Z -> M K (L * Z));
  dev_write : Z -> option (nat -> (Z -> Z -> M K (list Z)) -> Z -> M K Z)
}.

Section Content.
Context {fuel : Fuel} {K : Type} `{HasFs K} `{Devices K}.

(** The loop of [readi].  [put l tot bs] is [memmove(dst + tot, bs, m)]; the
    destination's own state is [l].  [rounds] bounds the number of blocks. *)
Fixpoint readi_from {L} (rounds : nat) (put : L -> Z -> list Z -> M K L) (l : L) (i : nat) (tot off n : Z)
  : M K L :=
  if tot <? n then
    match rounds with
    | O => fun _ _ => OutOfFuel
    | S r =>
        let* p := infs (gets (iof i)) in
        let* addr := infs (bmap i (off / BSIZE)) in
        let* bp := infs (fbread (i_dev p) addr) in
        let m := Z.min (n - tot) (BSIZE - off mod BSIZE) in
        let* d := infs (fdata bp) in
        let* l := put l tot (bytes_at d (off mod BSIZE) m) in
        infs (fbrelse bp) ;;;
        readi_from r put l i (tot + m) (off + m) n
    end
  else ret l.

(** Enough rounds for [n] bytes at any offset. *)
Definition rounds (n : Z) : nat := (Z.to_nat (n / BSIZE) + 2)%nat.

Definition readi {L} (i : nat) (put : L -> Z -> list Z -> M K L) (l : L) (off n : Z) : M K (L * Z) :=
  let* p := infs (gets (iof i)) in
  if i_type p =? T_DEV then
    if (i_major p <? 0) || (NDEV <=? i_major p) then ret (l, -1)
    else
      match dev_read (i_major p) with
      | None => ret (l, -1)
      | Some f => f L i put l n
      end
  else if (i_size p <? off) || (u32 (off + n) <? off) then ret (l, -1)
  else
    let n := if i_size p <? u32 (off + n) then i_size p - off else n in
    let* l := readi_from (rounds n) put l i 0 off n in
    ret (l, n).

(** The loop of [writei]; [fetch tot m] reads the [m] bytes at [src + tot]. *)
Fixpoint writei_from (rounds : nat) (fetch : Z -> Z -> M K (list Z)) (i : nat) (tot off n : Z) : M K Z :=
  if tot <? n then
    match rounds with
    | O => fun _ _ => OutOfFuel
    | S r =>
        let* p := infs (gets (iof i)) in
        let* addr := infs (bmap i (off / BSIZE)) in
        let* bp := infs (fbread (i_dev p) addr) in
        let m := Z.min (n - tot) (BSIZE - off mod BSIZE) in
        let* bs := fetch tot m in
        let* d := infs (fdata bp) in
        infs (fput bp (set_bytes d (off mod BSIZE) bs)) ;;;
        infs (flog_write bp) ;;;
        infs (fbrelse bp) ;;;
        writei_from r fetch i (tot + m) (off + m) n
    end
  else ret off.

Definition writei (i : nat) (fetch : Z -> Z -> M K (list Z)) (off n : Z) : M K Z :=
  let* p := infs (gets (iof i)) in
  if i_type p =? T_DEV then
    if (i_major p <? 0) || (NDEV <=? i_major p) then ret (-1)
    else
      match dev_write (i_major p) with
      | None => ret (-1)
      | Some f => f i fetch n
      end
  else if (i_size p <? off) || (u32 (off + n) <? off) then ret (-1)
  else if MAXFILE * BSIZE <? u32 (off + n) then ret (-1)
  else
    let* off := writei_from (rounds n) fetch i 0 off n in
    let* p := infs (gets (iof i)) in
    when ((0 <? n) && (i_size p <? off)) (
      infs (imod i (iset_size off)) ;;;
      infs (iupdate i)) ;;;
    ret n.

(** ** Directories *)

(** The bytes of a local variable as destination and as source. *)
Definition to_local (l : list Z) (tot : Z) (bs : list Z) : M K (list Z) := ret (set_bytes l tot bs).
Definition from_local (l : list Z) (tot m : Z) : M K (list Z) := ret (bytes_at l tot m).

(** [strncmp] on two buffers, side by side in a scratch memory. *)
Definition namecmp (s t : list Z) : Z := strncmp (sts (sts ∅ 0 (take 16 s)) 16 (take 16 t)) 0 16 DIRSIZ.

(** struct dirent: [inum], then [name]. *)
Definition de_inum (de : list Z) : Z := rd16 de 0.
Definition de_name (de : list Z) : list Z := bytes_at de 2 DIRSIZ.

(** The loop of [dirlookup], over the entries from offset [off]; [k] bounds
    their number. *)
Fixpoint dirlookup_from (k : nat) (dp : nat) (name : list Z) (off : Z) : M K (option (nat * Z)) :=
  let* p := infs (gets (iof dp)) in
  if off <? i_size p then
    match k with
    | O => fun _ _ => OutOfFuel
    | S k' =>
        let* (de, r) := readi dp to_local (replicate 16 0) off DIRENT_SIZE in
        if negb (r =? DIRENT_SIZE) then panic "dirlookup read"
        else if de_inum de =? 0 then dirlookup_from k' dp name (off + DIRENT_SIZE)
        else if namecmp name (de_name de) =? 0 then
          let* ip := infs (iget (i_dev p) (de_inum de)) in
          ret (Some (ip, off))
        else dirlookup_from k' dp name (off + DIRENT_SIZE)
    end
  else ret None.

(** The number of entries that fit in a file. *)
Definition entries (size : Z) : nat := (Z.to_nat (size / DIRENT_SIZE) + 1)%nat.

(** The inode found and, for [*poff], the offset of its entry. *)
Definition dirlookup (dp : nat) (name : list Z) : M K (option (nat * Z)) :=
  let* p := infs (gets (iof dp)) in
  if negb (i_type p =? T_DIR) then panic "dirlookup not DIR"
  else dirlookup_from (entries (i_size p)) dp name 0.

(** The loop of [dirlink] that looks for an empty entry: the offset where it
    stops. *)
Fixpoint dirlink_from (k : nat) (dp : nat) (off : Z) : M K Z :=
  let* p := infs (gets (iof dp)) in
  if off <? i_size p then
    match k with
    | O => fun _ _ => OutOfFuel
    | S k' =>
        let* (de, r) := readi dp to_local (replicate 16 0) off DIRENT_SIZE in
        if negb (r =? DIRENT_SIZE) then panic "dirlink read"
        else if de_inum de =? 0 then ret off
        else dirlink_from k' dp (off + DIRENT_SIZE)
    end
  else ret off.

(** The entry: [strncpy(de.name, name, DIRSIZ)] and [de.inum = inum]. *)
Definition dirent (name : list Z) (inum : Z) : list Z :=
  le_bytes 2 inum ++ lds (strncpy (sts ∅ 16 (take 16 name)) 0 16 DIRSIZ) 0 14.

Definition dirlink (dp : nat) (name : list Z) (inum : Z) : M K Z :=
  let* r := dirlookup dp name in
  match r with
  | Some (ip, _) => infs (iput ip) ;;; ret (-1)
  | None =>
      let* p := infs (gets (iof dp)) in
      let* off := dirlink_from (entries (i_size p)) dp 0 in
      let* r := writei dp (from_local (dirent name inum)) off DIRENT_SIZE in
      if negb (r =? DIRENT_SIZE) then panic "dirlink" else ret 0
  end.

(** ** Paths *)

Definition SLASH : Z := 47.

(** A C string is the list of its bytes, without the terminator. *)
Fixpoint skip_slashes (path : list Z) : list Z :=
  match path with
  | c :: path' => if c =? SLASH then skip_slashes path' else path
  | [] => []
  end.
(** The bytes up to the next slash, and the rest. *)
Fixpoint span_elem (path : list Z) : list Z * list Z :=
  match path with
  | c :: path' => if c =? SLASH then ([], path) else let (s, r) := span_elem path' in (c :: s, r)
  | [] => ([], [])
  end.

(** The path after its first element, and the buffer [name] of [DIRSIZ] bytes
    after the element was copied into it. *)
Definition skipelem (path name : list Z) : option (list Z * list Z) :=
  match skip_slashes path with
  | [] => None
  | s =>
      let (el, rest) := span_elem s in
      let len := Z.of_nat (length el) in
      let name :=
        if DIRSIZ <=? len then set_bytes name 0 (take 14 el)
        else aset (set_bytes name 0 el) len 0 in
      Some (skip_slashes rest, name)
  end.

(** The loop of [namex]; each round takes at least one byte of the path. *)
Fixpoint namex_from (k : nat) (ip : nat) (path : list Z) (nameiparent : bool) (name : list Z)
  : M K (option (nat * list Z)) :=
  match skipelem path name with
  | None =>
      if nameiparent then infs (iput ip) ;;; ret None
      else ret (Some (ip, name))
  | Some (path, name) =>
      match k with
      | O => fun _ _ => OutOfFuel
      | S k' =>
          infs (ilock ip) ;;;
          let* p := infs (gets (iof ip)) in
          if negb (i_type p =? T_DIR) then infs (iunlockput ip) ;;; ret None
          else if nameiparent && (match path with [] => true | _ => false end) then
            infs (iunlock ip) ;;; ret (Some (ip, name))
          else
            let* next := dirlookup ip name in
            match next with
            | None => infs (iunlockput ip) ;;; ret None
            | Some (next, _) => infs (iunlockput ip) ;;; namex_from k' next path nameiparent name
            end
      end
  end.

(** [cwd] is [myproc()->cwd]. *)
Definition namex (cwd : option nat) (path : list Z) (nameiparent : bool) (name : list Z)
  : M K (option (nat * list Z)) :=
  let* ip :=
    (match path with
     | c :: _ =>
         if c =? SLASH then infs (iget ROOTDEV ROOTINO)
         else match cwd with Some d => infs (idup d) | None => panic "trap" end
     | [] => match cwd with Some d => infs (idup d) | None => panic "trap" end
     end) in
  namex_from (length path) ip path nameiparent name.

Definition namei (cwd : option nat) (path : list Z) : M K (option nat) :=
  let* r := namex cwd path false (replicate 14 0) in
  ret (fst <$> r).

Definition nameiparent (cwd : option nat) (path name : list Z) : M K (option (nat * list Z)) :=
  namex cwd path true name.
End Content.
