(* ===== verification/FsTrans.v ===== *)
(** The file system inside a transaction: what its code sees of the log and the
    buffer cache is a function from block numbers to contents, the list of blocks
    in the log, and the buffers it holds. *)
From S2P Require Import Prelude Monad Mem Mmu Sleeplock Disk Bio Bcache Log LogProps Fs.

(** A held buffer: its index, its block, and the data in it now. *)
Abbreviation hbuf := (nat * Z * block)%type.
Definition hkeys (H : list hbuf) : list (nat * Z) := H.*1.
Definition hblocks (H : list hbuf) : list Z := H.*1.*2.

Abbreviation bio_of s := (lg_bio (fs_log s)).

Record tr (s : fsst) (bs : list Z) (V : Z -> block) (H : list hbuf) : Prop := {
  tr_log : log_shape (fs_log s) bs;
  tr_bio : brep (bio_of s) V (list_to_set bs) (hkeys H);
  tr_data : forall b n d, (b, n, d) ∈ H -> b_data (bufof b (bio_of s)) = d;
  tr_out : 1 <= lg_outstanding (fs_log s)
}.

(** What operations on blocks leave alone. *)
Record frame (s s' : fsst) : Prop := {
  fr_sb : fs_sb s' = fs_sb s;
  fr_icache : icache s' = icache s;
  fr_start : lg_start (fs_log s') = lg_start (fs_log s);
  fr_size : lg_size (fs_log s') = lg_size (fs_log s);
  fr_out : lg_outstanding (fs_log s') = lg_outstanding (fs_log s);
  fr_commit : lg_committing (fs_log s') = lg_committing (fs_log s);
  fr_disk : disksize (bio_of s') = disksize (bio_of s)
}.

Lemma frame_refl s : frame s s.
Proof. now split. Qed.
Lemma frame_trans s1 s2 s3 : frame s1 s2 -> frame s2 s3 -> frame s1 s3.
Proof. intros [] []. split; congruence. Qed.
#[export] Hint Resolve frame_refl : core.

(** The layout of the disk: boot block, superblock, log, inodes, bitmap, data;
    one block of bitmap, as mkfs makes it (FSSIZE is 1000). *)
Record layout (s : fsst) : Prop := {
  lo_disk : disksize (bio_of s) = sb_size (fs_sb s);
  lo_one : sb_size (fs_sb s) <= BPB;
  lo_super : 2 <= lg_start (fs_log s);
  lo_log : lg_start (fs_log s) + lg_size (fs_log s) <= sb_inodestart (fs_sb s);
  lo_logsize : LOGSIZE <= lg_size (fs_log s);
  lo_ninodes : 0 < sb_ninodes (fs_sb s);
  lo_inodes : sb_inodestart (fs_sb s) + sb_ninodes (fs_sb s) / IPB < sb_bmapstart (fs_sb s);
  lo_bmap : sb_bmapstart (fs_sb s) < sb_size (fs_sb s)
}.

Lemma layout_frame s s' : frame s s' -> layout s -> layout s'.
Proof.
  intros [E1 _ E3 E4 _ _ E7] []. split; rewrite ?E1, ?E3, ?E4, ?E7; done.
Qed.

Definition bmapblock (s : fsst) : Z := sb_bmapstart (fs_sb s).

Lemma BBLOCK_one s n : layout s -> 0 <= n < sb_size (fs_sb s) -> BBLOCK n (fs_sb s) = bmapblock s.
Proof.
  intros L Hn. unfold BBLOCK, bmapblock. pose proof (lo_one s L). rewrite (Z.div_small n BPB) by lia.
  pose proof (lo_bmap s L). pose proof (lo_inodes s L). pose proof (lo_log s L). pose proof (lo_super s L).
  pose proof (lo_logsize s L). pose proof (Z.div_pos (sb_ninodes (fs_sb s)) IPB ltac:(pose proof (lo_ninodes s L); lia) ltac:(done)).
  unfold LOGSIZE, MAXOPBLOCKS, BPB, BSIZE in *. apply u32_small. unfold is_u32. lia.
Qed.

Lemma NoDup_incl_length (l L : list Z) : NoDup l -> l ⊆ L -> (length l <= length L)%nat.
Proof. intros Hn Hs. apply submseteq_length, NoDup_submseteq; [done|]. intros x Hx. now apply Hs. Qed.

Lemma bs_add_sub n bs L : bs ⊆ L -> n ∈ L -> bs_add n bs ⊆ L.
Proof.
  intros Hs Hn x Hx. unfold bs_add in Hx. destruct (decide (n ∈ bs)); [now apply Hs|].
  apply elem_of_app in Hx as [Hx|Hx]; [now apply Hs|]. apply list_elem_of_singleton in Hx as ->. done.
Qed.
Lemma bs_add_mono n bs : bs ⊆ bs_add n bs.
Proof. intros x Hx. unfold bs_add. destruct (decide _); [done|]. apply elem_of_app. now left. Qed.
Lemma bs_add_in n bs : n ∈ bs_add n bs.
Proof. unfold bs_add. destruct (decide _); [done|]. apply elem_of_app. right. constructor. Qed.
Lemma bs_add_length n bs : (length bs <= length (bs_add n bs) <= length bs + 1)%nat.
Proof. unfold bs_add. destruct (decide _); [lia|]. rewrite length_app. cbn. lia. Qed.
Lemma bs_add_NoDup n bs : NoDup bs -> NoDup (bs_add n bs).
Proof.
  intros H. unfold bs_add. destruct (decide _); [done|]. apply NoDup_app. split_and!; [done| |apply NoDup_singleton].
  intros x Hx ->%list_elem_of_singleton. done.
Qed.

Section Blocks.
Context {fuel : Fuel}.

Lemma wp_fbread (fuel_pos : (0 < wakeups)%nat) s bs V H n (Q : nat -> ctx -> fsst -> Prop) c :
  held c = [] -> tr s bs V H -> (n ∉ hblocks H) -> 0 <= n < disksize (bio_of s) ->
  n ∈ bs \/ (length bs + length H < NBUF)%nat ->
  (forall b s', tr s' bs V ((b, n, V n) :: H) -> frame s s' -> Q b c s') ->
  wp (fbread 1 n) Q c s.
Proof.
  intros Hc T Hn Hr Hroom HQ. destruct T as [T1 T2 T3 T4]. apply wp_zoom, wp_zoom.
  eapply wp_bread; [done|done|exact T2|done|done| |].
  { destruct Hroom; [left; now apply elem_of_list_to_set|right].
    rewrite size_list_to_set by apply T1. unfold hkeys. now rewrite length_fmap. }
  intros b s' R E C. assert (Ed : disksize s' = disksize (bio_of s)) by (unfold disksize; now rewrite (ca_disk _ _ _ C)).
  apply HQ.
  - split; cbn [fs_log set_log lg_bio set_bio lg_outstanding]; [now apply log_shape_bio|done| |done].
    intros b' n' d Hin. apply elem_of_cons in Hin as [[= -> -> ->]|Hin]; [done|].
    rewrite (ca_data _ _ _ C); [exact (T3 b' n' d Hin)|]. unfold hkeys. apply list_elem_of_fmap. exists (b', n').
    split; [done|]. apply list_elem_of_fmap. now exists (b', n', d).
  - split; try done.
Qed.

Lemma wp_fbrelse s bs V H b n d (Q : unit -> ctx -> fsst -> Prop) c :
  held c = [] -> tr s bs V ((b, n, d) :: H) -> d = V n ->
  (forall c' s', held c' = [] -> tr s' bs V H -> frame s s' -> Q tt c' s') ->
  wp (fbrelse b) Q c s.
Proof.
  intros Hc T Hd HQ. destruct T as [T1 T2 T3 T4]. apply wp_zoom, wp_zoom.
  assert (Hb : b_data (bufof b (bio_of s)) = V n) by (rewrite (T3 b n d); [done|left]).
  eapply wp_brelse; [done|exact T2|done|].
  intros c' s' Hc' R C. assert (Ed : disksize s' = disksize (bio_of s)) by (unfold disksize; now rewrite (ca_disk _ _ _ C)).
  apply HQ; [done| |].
  - split; cbn [fs_log set_log lg_bio set_bio lg_outstanding]; [now apply log_shape_bio|done| |done].
    intros b' n' d' Hin. rewrite (ca_data _ _ _ C); [apply (T3 b' n' d'); now right|]. unfold hkeys. apply list_elem_of_fmap. exists (b', n').
    split; [done|]. apply list_elem_of_fmap. now exists (b', n', d').
  - split; try done.
Qed.

Lemma wp_fdata s bs V H b n d (Q : block -> ctx -> fsst -> Prop) c :
  tr s bs V H -> (b, n, d) ∈ H -> Q d c s -> wp (fdata b) Q c s.
Proof.
  intros T Hin HQ. apply wp_zoom, wp_gets. rewrite (tr_data _ _ _ _ T _ _ _ Hin).
  replace (set_log (fs_log s) s) with s by now destruct s. done.
Qed.

Lemma wp_fput s bs V H b n d d' (Q : unit -> ctx -> fsst -> Prop) c :
  tr s bs V ((b, n, d) :: H) -> block_ok d' ->
  (forall s', tr s' bs V ((b, n, d') :: H) -> frame s s' -> Q tt c s') ->
  wp (fput b d') Q c s.
Proof.
  intros T Hok HQ. destruct T as [T1 T2 T3 T4]. apply wp_zoom, wp_zoom, wp_modify.
  pose proof (br_held _ _ _ _ T2 b n ltac:(left)) as (Hb & _).
  destruct (br_lru _ _ _ _ T2) as [l Hl]. assert (Hlen : (b < length (bufs (bio_of s)))%nat) by (rewrite (lru_len _ _ Hl); lia).
  pose proof (brep_data _ _ _ _ b n d' T2 ltac:(left) Hok) as R.
  pose proof (br_nodup _ _ _ _ T2) as Hnd. cbn in Hnd. apply NoDup_cons in Hnd as [Hnd _].
  apply HQ.
  - split; cbn [fs_log set_log lg_bio set_bio lg_outstanding]; [now apply log_shape_bio|done| |done].
    intros b' n' dd Hin. apply elem_of_cons in Hin as [[= -> -> ->]|Hin]; [now rewrite bufof_bset_eq|].
    rewrite bufof_bset_ne; [apply (T3 b' n' dd); now right|]. intros Eb. apply Hnd.
    apply list_elem_of_fmap. exists (b', n'). split; [cbn; congruence|]. apply list_elem_of_fmap. now exists (b', n', dd).
  - split; try done.
Qed.

Lemma wp_flog_write s bs V H b n d (Q : unit -> ctx -> fsst -> Prop) c :
  held c = [] -> tr s bs V ((b, n, d) :: H) -> LOGSIZE <= lg_size (fs_log s) ->
  Z.of_nat (length bs) < LOGSIZE - 1 ->
  ~ (lg_start (fs_log s) <= n < lg_start (fs_log s) + lg_size (fs_log s)) ->
  (forall s', tr s' (bs_add n bs) (vset V n d) ((b, n, d) :: H) -> frame s s' -> Q tt c s') ->
  wp (flog_write b) Q c s.
Proof.
  intros Hc T Hsz Hbs Hlog HQ. destruct T as [T1 T2 T3 T4]. apply wp_zoom.
  assert (Hb : b_data (bufof b (bio_of s)) = d) by (apply (T3 b n d); left).
  eapply wp_log_write; [done|exact T1|exact T2|left|done|done|lia|done|].
  intros g' L' R' E1 E2 E3 E4 E5 E6. rewrite Hb in R'.
  assert (Ed : disksize (lg_bio g') = disksize (bio_of s)) by (unfold disksize; now rewrite E5).
  apply HQ.
  - split; cbn [fs_log set_log]; [done|done| |lia]. intros b' n' d' Hin. rewrite E6. exact (T3 b' n' d' Hin).
  - split; cbn [fs_log set_log]; done.
Qed.
End Blocks.
