(* ===== verification/FsAlloc.v ===== *)
(** fs.c: the allocation of disk blocks.  [balloc] hands out a block that was
    free, zeroed, and [bfree] gives it back; no other bit of the bitmap
    changes. *)
From S2P Require Import Prelude Monad Mem Mmu Sleeplock Disk Bio Bcache Log LogProps Fs FsTrans.

(** * The bitmap *)

Implicit Types d : block.

Definition bit_of (d : block) (n : Z) : bool := Z.testbit (aget 0 d (n / 8)) (n mod 8).
Definition used (s : fsst) (V : Z -> block) (n : Z) : bool := bit_of (V (bmapblock s)) n.

Lemma bit_test d n : 0 <= n -> (Z.land (aget 0 d (n / 8)) (bit (n mod 8)) =? 0) = negb (bit_of d n).
Proof.
  intros Hn. unfold bit_of. pose proof (Z.mod_pos_bound n 8 ltac:(lia)). rewrite land_bit by lia.
  destruct (Z.testbit _ _); [|done]. pose proof (bit_pos (n mod 8)). apply Z.eqb_neq. lia.
Qed.

Definition set_bit (d : block) (n : Z) : block := aset d (n / 8) (Z.lor (aget 0 d (n / 8)) (bit (n mod 8))).
Definition clear_bit (d : block) (n : Z) : block := aset d (n / 8) (Z.land (aget 0 d (n / 8)) (Z.lnot (bit (n mod 8)))).

Lemma bit_index d n : length d = 512%nat -> 0 <= n < BPB -> 0 <= n / 8 < Z.of_nat (length d).
Proof. intros -> Hn. unfold BPB, BSIZE in Hn. split; [apply Z.div_pos; lia|]. apply Z.div_lt_upper_bound; lia. Qed.

Lemma bit_of_aset d n m v :
  length d = 512%nat -> 0 <= n < BPB -> 0 <= m ->
  bit_of (aset d (n / 8) v) m = if m / 8 =? n / 8 then Z.testbit v (m mod 8) else bit_of d m.
Proof.
  intros Hl Hn Hm. pose proof (bit_index d n Hl Hn). unfold bit_of.
  destruct (Z.eqb_spec (m / 8) (n / 8)) as [E|E]; [rewrite E, aget_aset_eq by done; done|].
  rewrite aget_aset_ne; [done|lia|apply Z.div_pos; lia|congruence].
Qed.

Lemma same_bit n m : 0 <= n -> 0 <= m -> (m =? n) = (m / 8 =? n / 8) && (m mod 8 =? n mod 8).
Proof.
  intros Hn Hm. pose proof (Z.div_mod n 8 ltac:(lia)). pose proof (Z.div_mod m 8 ltac:(lia)).
  destruct (Z.eqb_spec m n), (Z.eqb_spec (m / 8) (n / 8)), (Z.eqb_spec (m mod 8) (n mod 8)); cbn; try done; congruence || lia.
Qed.

Lemma bit_of_set d n m : length d = 512%nat -> 0 <= n < BPB -> 0 <= m ->
  bit_of (set_bit d n) m = bit_of d m || (m =? n).
Proof.
  intros Hl Hn Hm. unfold set_bit. rewrite bit_of_aset, (same_bit n m) by (done || lia).
  destruct (Z.eqb_spec (m / 8) (n / 8)) as [E|E]; cbn [andb]; [|now rewrite orb_false_r].
  pose proof (Z.mod_pos_bound n 8 ltac:(lia)). rewrite Z.lor_spec, bit_testbit by lia. unfold bit_of. now rewrite E.
Qed.

Lemma bit_of_clear d n m : length d = 512%nat -> 0 <= n < BPB -> 0 <= m ->
  bit_of (clear_bit d n) m = bit_of d m && negb (m =? n).
Proof.
  intros Hl Hn Hm. unfold clear_bit. rewrite bit_of_aset, (same_bit n m) by (done || lia).
  destruct (Z.eqb_spec (m / 8) (n / 8)) as [E|E]; cbn [andb negb]; [|now rewrite andb_true_r].
  pose proof (Z.mod_pos_bound n 8 ltac:(lia)). pose proof (Z.mod_pos_bound m 8 ltac:(lia)).
  rewrite Z.land_spec, Z.lnot_spec, bit_testbit by lia. unfold bit_of. now rewrite E.
Qed.

Lemma u8_lor a b : is_u8 a -> is_u8 b -> is_u8 (Z.lor a b).
Proof.
  intros Ha Hb. unfold is_u8 in *. assert (0 <= Z.lor a b) by (apply Z.lor_nonneg; lia). split; [done|].
  destruct (Z.eq_dec (Z.lor a b) 0); [lia|]. change 256 with (2 ^ 8). apply Z.log2_lt_pow2; [lia|].
  rewrite Z.log2_lor by lia. apply Z.max_lub_lt.
  - destruct (Z.eq_dec a 0); [subst; cbn; lia|apply Z.log2_lt_pow2; lia].
  - destruct (Z.eq_dec b 0); [subst; cbn; lia|apply Z.log2_lt_pow2; lia].
Qed.

Lemma u8_land a b : is_u8 a -> is_u8 (Z.land a b).
Proof.
  intros Ha. unfold is_u8 in *. assert (H0 : 0 <= Z.land a b) by (apply Z.land_nonneg; lia). split; [done|].
  destruct (Z.eq_dec (Z.land a b) 0); [lia|]. assert (a <> 0) by (intros ->; now rewrite Z.land_0_l in *).
  change 256 with (2 ^ 8). apply Z.log2_lt_pow2; [lia|].
  assert (Z.log2 a < 8) by (apply Z.log2_lt_pow2; lia).
  destruct (Z.ltb_spec b 0).
  - assert (Hle : Z.land a b <= a); [|pose proof (Z.log2_le_mono _ _ Hle); lia].
    apply Z.ldiff_le; [lia|]. apply Z.bits_inj'. intros i Hi. rewrite Z.ldiff_spec, Z.land_spec, Z.bits_0.
    destruct (Z.testbit a i); cbn; [now rewrite andb_false_r|done].
  - pose proof (Z.log2_land a b ltac:(lia) ltac:(lia)). lia.
Qed.

Lemma aget_u8 d i : Forall is_u8 d -> is_u8 (aget 0 d i).
Proof.
  intros Hd. unfold aget. destruct (d !! Z.to_nat i) eqn:E; [|cbn; unfold is_u8; lia].
  rewrite Forall_lookup in Hd. cbn. eauto.
Qed.

Lemma aset_ok d i v : block_ok d -> is_u8 v -> block_ok (aset d i v).
Proof.
  intros [Hl Hd] Hv. split; [now rewrite length_aset|]. unfold aset. now apply Forall_insert.
Qed.

Lemma bit_u8 k : 0 <= k < 8 -> is_u8 (bit k).
Proof.
  intros Hk. unfold bit. rewrite Z.shiftl_1_l. split; [apply Z.pow_nonneg; lia|].
  change 256 with (2 ^ 8). apply Z.pow_lt_mono_r; lia.
Qed.

Lemma set_bit_ok d n : block_ok d -> block_ok (set_bit d n).
Proof.
  intros Hd. apply aset_ok; [done|]. apply u8_lor; [apply aget_u8, Hd|]. apply bit_u8, Z.mod_pos_bound. lia.
Qed.
Lemma clear_bit_ok d n : block_ok d -> block_ok (clear_bit d n).
Proof. intros Hd. apply aset_ok; [done|]. apply u8_land, aget_u8, Hd. Qed.

(** The loop of [balloc] finds the first clear bit. *)
Lemma first_free_Some d size n bi k :
  0 <= bi -> first_free d 0 size bi n = Some k ->
  bi <= k < size /\ k < bi + Z.of_nat n /\ bit_of d k = false.
Proof.
  revert bi. induction n as [|n IH]; intros bi Hb; cbn [first_free]; [done|].
  destruct (Z.ltb_spec (0 + bi) size); [|done]. rewrite bit_test by done.
  destruct (bit_of d bi) eqn:E; cbn [negb].
  - intros Hk. apply IH in Hk as (? & ? & ?); [|lia]. split_and!; lia || done.
  - intros [= <-]. split_and!; lia || done.
Qed.

Lemma first_free_None d size n bi k :
  0 <= bi -> first_free d 0 size bi n = None -> bi <= k < bi + Z.of_nat n -> k < size -> bit_of d k = true.
Proof.
  revert bi. induction n as [|n IH]; intros bi Hb; cbn [first_free]; [lia|].
  destruct (Z.ltb_spec (0 + bi) size); [|lia]. rewrite bit_test by done.
  destruct (bit_of d bi) eqn:E; cbn [negb]; [|done]. intros Hn Hk Hs.
  destruct (Z.eq_dec k bi) as [->|]; [done|]. apply (IH (bi + 1)); lia || done.
Qed.

(** * The operations *)

Definition zeros : block := replicate 512 0.
Lemma zeros_ok : block_ok zeros.
Proof. split; [reflexivity|]. apply Forall_replicate. unfold is_u8. lia. Qed.

Lemma set_bytes_all d bs : length d = length bs -> set_bytes d 0 bs = bs.
Proof.
  intros Hl. unfold set_bytes. cbn [Z.to_nat]. apply list_eq. intros i.
  destruct (decide (i < length bs)%nat) as [Hi|Hi].
  - rewrite list_lookup_inserts by lia. f_equal. lia.
  - rewrite list_lookup_inserts_ge by lia. rewrite !lookup_ge_None_2 by lia. done.
Qed.

(** Data blocks come after the bitmap, so they are not in the log. *)
Lemma after_bmap s n : layout s -> bmapblock s <= n ->
  ~ (lg_start (fs_log s) <= n < lg_start (fs_log s) + lg_size (fs_log s)).
Proof.
  intros L Hn. pose proof (lo_log s L). pose proof (lo_inodes s L). unfold bmapblock in Hn.
  pose proof (Z.div_pos (sb_ninodes (fs_sb s)) IPB ltac:(pose proof (lo_ninodes s L); lia) ltac:(done)). lia.
Qed.
Lemma bmap_nonneg s : layout s -> 0 < bmapblock s < disksize (bio_of s).
Proof.
  intros L. rewrite (lo_disk s L). pose proof (lo_bmap s L). pose proof (lo_log s L). pose proof (lo_inodes s L).
  pose proof (lo_super s L). pose proof (lo_logsize s L). unfold bmapblock.
  pose proof (Z.div_pos (sb_ninodes (fs_sb s)) IPB ltac:(pose proof (lo_ninodes s L); lia) ltac:(done)).
  unfold LOGSIZE, MAXOPBLOCKS in *. lia.
Qed.

Lemma tr_block_ok s bs V H n : tr s bs V H -> 0 <= n < disksize (bio_of s) -> block_ok (V n).
Proof. intros T Hn. apply (br_disk _ _ _ _ (tr_bio _ _ _ _ T) n Hn). Qed.

Lemma free_data_block s V n :
  (forall m, 0 <= m <= bmapblock s -> used s V m = true) -> 0 <= n -> used s V n = false -> bmapblock s < n.
Proof.
  intros Hm Hn Hu. destruct (Z.ltb_spec (bmapblock s) n); [done|]. rewrite Hm in Hu by lia. done.
Qed.

Section Alloc.
Context {fuel : Fuel}.
Hypothesis fuel_pos : (0 < wakeups)%nat.

Lemma wp_bzero s bs V H n (Q : unit -> ctx -> fsst -> Prop) c :
  held c = [] -> tr s bs V H -> layout s -> (n ∉ hblocks H) -> bmapblock s <= n < disksize (bio_of s) ->
  (length bs + length H < NBUF)%nat -> (length bs <= 28)%nat ->
  (forall c' s', held c' = [] -> tr s' (bs_add n bs) (vset V n zeros) H -> frame s s' -> Q tt c' s') ->
  wp (bzero 1 n) Q c s.
Proof.
  intros Hc T L Hn Hr Hroom Hbs HQ. pose proof (bmap_nonneg s L). unfold bzero.
  apply wp_bind. eapply wp_fbread; [done|done|exact T|done|lia|now right|]. intros b s1 T1 F1.
  apply wp_bind. eapply wp_fdata; [exact T1|left|].
  destruct (tr_block_ok _ _ _ _ n T ltac:(lia)) as [Hl _].
  rewrite set_bytes_all by (rewrite length_replicate; exact Hl). fold zeros.
  apply wp_bind. eapply wp_fput; [exact T1|exact zeros_ok|]. intros s2 T2 F2.
  assert (F12 : frame s s2) by eauto using frame_trans.
  apply wp_bind. eapply wp_flog_write; [done|exact T2| | | |].
  { rewrite (fr_size _ _ F12). apply L. }
  { unfold LOGSIZE, MAXOPBLOCKS. lia. }
  { rewrite (fr_start _ _ F12), (fr_size _ _ F12). apply after_bmap; [done|lia]. }
  intros s3 T3 F3. eapply wp_fbrelse; [done|exact T3|now rewrite vset_eq|].
  intros c' s4 Hc' T4 F4. apply HQ; eauto using frame_trans.
Qed.

(** [balloc]: the block was free, and is now used and zeroed; nothing else
    changes. *)
Lemma wp_balloc s bs V H (Q : Z -> ctx -> fsst -> Prop) c :
  held c = [] -> tr s bs V H -> layout s -> (bmapblock s ∉ hblocks H) ->
  (forall n, n ∈ hblocks H -> used s V n = true) -> (forall m, 0 <= m <= bmapblock s -> used s V m = true) ->
  (exists n, 0 <= n < disksize (bio_of s) /\ used s V n = false) ->
  (length (bs_add (bmapblock s) bs) + length H < NBUF)%nat -> (length (bs_add (bmapblock s) bs) <= 28)%nat ->
  (forall n c' s', bmapblock s < n < disksize (bio_of s) -> used s V n = false -> held c' = [] ->
     tr s' (bs_add n (bs_add (bmapblock s) bs))
       (vset (vset V (bmapblock s) (set_bit (V (bmapblock s)) n)) n zeros) H ->
     frame s s' -> Q n c' s') ->
  wp (balloc 1) Q c s.
Proof.
  intros Hc T L Hb Hheld Hmeta (m & Hm & Hfree) Hroom Hbs HQ. pose proof (bmap_nonneg s L) as HB.
  pose proof (lo_disk s L) as Hd. pose proof (lo_one s L) as Hone.
  pose proof (bs_add_length (bmapblock s) bs) as Hlen.
  unfold balloc. apply wp_bind, wp_gets.
  replace (Z.to_nat ((sb_size (fs_sb s) + BPB - 1) / BPB)) with 1%nat.
  2:{ replace (sb_size (fs_sb s) + BPB - 1) with (sb_size (fs_sb s) - 1 + 1 * BPB) by lia.
      rewrite Z.div_add by done. rewrite Z.div_small by lia. reflexivity. }
  cbn [zrange seq fmap list_fmap forb]. change (Z.of_nat 0 * BPB) with 0. apply wp_bind, wp_bind, wp_gets.
  rewrite (BBLOCK_one s 0 L) by lia.
  apply wp_bind. eapply wp_fbread; [done|done|exact T|done|lia|right; lia|]. intros b s1 T1 F1.
  apply wp_bind. eapply wp_fdata; [exact T1|left|]. set (d := V (bmapblock s)) in *.
  destruct (tr_block_ok _ _ _ _ (bmapblock s) T ltac:(lia)) as [Hl Hd8]. fold d in Hl, Hd8.
  destruct (first_free d 0 (sb_size (fs_sb s)) 0 (Z.to_nat BPB)) as [n|] eqn:Ef.
  2:{ exfalso. pose proof (first_free_None d _ _ 0 m ltac:(lia) Ef) as Hx. unfold used in Hfree. fold d in Hfree.
      rewrite Hx in Hfree; [done|rewrite Z2Nat.id by done; lia|lia]. }
  apply first_free_Some in Ef as (Hn1 & _ & Hn2); [|lia].
  assert (Hn3 : used s V n = false) by exact Hn2.
  pose proof (free_data_block s V n Hmeta ltac:(lia) Hn3) as Hn4.
  fold (set_bit d n). rewrite Z.add_0_l.
  apply wp_bind. eapply wp_fput; [exact T1|now apply set_bit_ok|]. intros s2 T2 F2.
  assert (F12 : frame s s2) by eauto using frame_trans.
  apply wp_bind. eapply wp_flog_write; [done|exact T2| | | |].
  { rewrite (fr_size _ _ F12). apply L. }
  { unfold LOGSIZE, MAXOPBLOCKS. lia. }
  { rewrite (fr_start _ _ F12), (fr_size _ _ F12). apply after_bmap; [done|lia]. }
  intros s3 T3 F3. assert (F13 : frame s s3) by eauto using frame_trans.
  apply wp_bind. eapply wp_fbrelse; [done|exact T3|now rewrite vset_eq|]. intros c4 s4 Hc4 T4 F4.
  assert (F14 : frame s s4) by eauto using frame_trans.
  assert (EB : bmapblock s4 = bmapblock s) by (unfold bmapblock; now rewrite (fr_sb _ _ F14)).
  apply wp_bind. eapply wp_bzero; [done|exact T4|exact (layout_frame _ _ F14 L)| | |lia|lia|].
  { intros Hin. rewrite Hheld in Hn3; done. }
  { rewrite EB, (fr_disk _ _ F14). lia. }
  intros c5 s5 Hc5 T5 F5. apply wp_ret, wp_ret. apply HQ; [lia|done|done|exact T5|eauto using frame_trans].
Qed.

Lemma wp_inlog_readsb s bs V H (Q : superblock -> ctx -> fsst -> Prop) c :
  held c = [] -> tr s bs V H -> layout s -> (1 ∉ hblocks H) -> (length bs + length H < NBUF)%nat ->
  (forall c' s', held c' = [] -> tr s' bs V H -> frame s s' -> Q (superblock_of (V 1)) c' s') ->
  wp (inlog (readsb 1)) Q c s.
Proof.
  intros Hc T L H1 Hroom HQ. pose proof (bmap_nonneg s L) as HB. pose proof (lo_super s L).
  pose proof (lo_log s L). pose proof (lo_inodes s L). pose proof (lo_logsize s L).
  pose proof (Z.div_pos (sb_ninodes (fs_sb s)) IPB ltac:(pose proof (lo_ninodes s L); lia) ltac:(done)).
  assert (Hr : wp (let* bp := fbread 1 1 in let* d := fdata bp in fbrelse bp ;;; ret (superblock_of d)) Q c s).
  { apply wp_bind. eapply wp_fbread; [done|done|exact T|done| |now right|].
    { unfold bmapblock, LOGSIZE, MAXOPBLOCKS in *. lia. }
    intros b s1 T1 F1. apply wp_bind. eapply wp_fdata; [exact T1|left|].
    apply wp_bind. eapply wp_fbrelse; [done|exact T1|done|]. intros c' s2 Hc' T2 F2.
    apply wp_ret, HQ; eauto using frame_trans. }
  revert Hr. clear. unfold wp, readsb, fbread, fdata, fbrelse, inlog, inbio, data, zoom, bind.
  destruct (bread 1 1 c (bio_of s)) as [b c1 s1| | |]; cbn [ozoom obind]; try done.
  cbn [gets ozoom obind fs_log set_log lg_bio set_bio]. destruct (brelse b c1 s1); cbn [ozoom obind]; done.
Qed.

(** [bfree]: the block was used and is now free; nothing else changes. *)
Lemma wp_bfree s bs V H n (Q : unit -> ctx -> fsst -> Prop) c :
  held c = [] -> tr s bs V H -> layout s -> superblock_of (V 1) = fs_sb s ->
  (1 ∉ hblocks H) -> (bmapblock s ∉ hblocks H) ->
  0 <= n < disksize (bio_of s) -> used s V n = true ->
  (length bs + length H < NBUF)%nat -> (length bs <= 28)%nat ->
  (forall c' s', held c' = [] ->
     tr s' (bs_add (bmapblock s) bs) (vset V (bmapblock s) (clear_bit (V (bmapblock s)) n)) H ->
     frame s s' -> Q tt c' s') ->
  wp (bfree 1 n) Q c s.
Proof.
  intros Hc T L Hsb H1 HB Hn Hu Hroom Hbs HQ. pose proof (lo_disk s L) as Hd. pose proof (lo_one s L) as Hone.
  pose proof (bmap_nonneg s L) as HB0. unfold bfree.
  apply wp_bind. eapply wp_inlog_readsb; [done|exact T|done|done|done|]. intros c1 s1 Hc1 T1 F1.
  apply wp_bind, wp_modify. rewrite Hsb. assert (Es1 : set_sb (fs_sb s) s1 = s1).
  { rewrite <- (fr_sb _ _ F1). now destruct s1. }
  rewrite Es1, BBLOCK_one by (done || lia).
  apply wp_bind. eapply wp_fbread; [done|done|exact T1|done|rewrite (fr_disk _ _ F1); lia|now right|].
  intros b s2 T2 F2. apply wp_bind. eapply wp_fdata; [exact T2|left|].
  rewrite (Z.mod_small n BPB), bit_test by lia. unfold used in Hu. rewrite Hu. cbn [negb].
  set (d := V (bmapblock s)) in *. fold (clear_bit d n).
  destruct (tr_block_ok _ _ _ _ (bmapblock s) T ltac:(lia)) as [Hl Hd8]. fold d in Hl, Hd8.
  apply wp_bind. eapply wp_fput; [exact T2|now apply clear_bit_ok|]. intros s3 T3 F3.
  assert (F13 : frame s s3) by eauto using frame_trans.
  apply wp_bind. eapply wp_flog_write; [done|exact T3| | | |].
  { rewrite (fr_size _ _ F13). apply L. }
  { unfold LOGSIZE, MAXOPBLOCKS. lia. }
  { rewrite (fr_start _ _ F13), (fr_size _ _ F13). apply after_bmap; [done|lia]. }
  intros s4 T4 F4. eapply wp_fbrelse; [done|exact T4|now rewrite vset_eq|].
  intros c5 s5 Hc5 T5 F5. apply HQ; eauto using frame_trans.
Qed.
End Alloc.
