(* ===== verification/FsFile.v ===== *)
(** fs.c: the contents of a file.  [bmap] gives a file its blocks, and [readi] and
    [writei] act on the file as on an array of bytes. *)
From S2P Require Import Prelude Monad Mem Mmu Sleeplock Disk Bio Bcache Log LogProps Fs FsTrans.
From S2P Require Import FsAlloc FsData.

(** * The blocks of a file

    [B] is the block of the bitmap and [N] the number of blocks of the disk.  [A]
    gives the disk block of each block of the file, 0 for a hole; [ind] is the
    indirect block, or 0. *)

Definition is_data (B N : Z) (V : Z -> block) (n : Z) : Prop := B < n < N /\ bit_of (V B) n = true.

Record fmap_ok (B N : Z) (V : Z -> block) (A : Z -> Z) (ind : Z) : Prop := {
  fm_data bn : 0 <= bn < MAXFILE -> A bn <> 0 -> is_data B N V (A bn);
  fm_inj bn bn' : 0 <= bn < MAXFILE -> 0 <= bn' < MAXFILE -> A bn <> 0 -> A bn = A bn' -> bn = bn';
  fm_ind : ind <> 0 -> is_data B N V ind;
  fm_ind_ne bn : 0 <= bn < MAXFILE -> ind <> 0 -> A bn <> ind
}.

(** Byte [k] of the file. *)
Definition fb (V : Z -> block) (A : Z -> Z) (k : Z) : Z :=
  if A (k / BSIZE) =? 0 then 0 else aget 0 (V (A (k / BSIZE))) (k mod BSIZE).

Lemma fmap_used B N V V' A ind :
  (forall m, bit_of (V B) m = true -> bit_of (V' B) m = true) -> fmap_ok B N V A ind -> fmap_ok B N V' A ind.
Proof.
  intros Hu [H1 H2 H3 H4]. split; [|exact H2| |exact H4].
  - intros bn Hb Hz. destruct (H1 bn Hb Hz). split; auto.
  - intros Hz. destruct (H3 Hz). split; auto.
Qed.

Lemma fmap_ext B N V A A' ind :
  (forall bn, 0 <= bn < MAXFILE -> A' bn = A bn) -> fmap_ok B N V A ind -> fmap_ok B N V A' ind.
Proof.
  intros E [H1 H2 H3 H4]. split.
  - intros bn Hb. rewrite E by done. now apply H1.
  - intros bn bn' Hb Hb'. rewrite !E by done. now apply H2.
  - done.
  - intros bn Hb. rewrite E by done. now apply H4.
Qed.

Definition fresh (V : Z -> block) (A : Z -> Z) (ind n : Z) : Prop :=
  n <> 0 /\ n <> ind /\ forall bn, 0 <= bn < MAXFILE -> A bn <> n.

Lemma fmap_add B N V A ind bn0 n :
  fmap_ok B N V A ind -> is_data B N V n -> fresh V A ind n -> 0 <= bn0 < MAXFILE ->
  fmap_ok B N V (fun bn => if bn =? bn0 then n else A bn) ind.
Proof.
  intros [H1 H2 H3 H4] Hd (F0 & F1 & F2) Hb0. split.
  - intros bn Hb. destruct (bn =? bn0); [done|now apply H1].
  - intros bn bn' Hb Hb'. destruct (Z.eqb_spec bn bn0), (Z.eqb_spec bn' bn0); subst; intros Hz E.
    + done.
    + symmetry in E. now apply F2 in E.
    + now apply F2 in E.
    + now apply H2.
  - done.
  - intros bn Hb Hi. destruct (bn =? bn0); [done|now apply H4].
Qed.

Lemma fmap_new_ind B N V A n :
  fmap_ok B N V A 0 -> is_data B N V n -> fresh V A 0 n -> fmap_ok B N V A n.
Proof. intros [H1 H2 H3 H4] Hd (F0 & F1 & F2). split; auto. Qed.

(** A free block is not one of the file's. *)
Lemma free_fresh B N V A ind n :
  0 < B -> fmap_ok B N V A ind -> B < n -> bit_of (V B) n = false -> fresh V A ind n.
Proof.
  intros HB [H1 H2 H3 H4] Hn Hf. split; [lia|]. split.
  - intros ->. destruct H3 as [_ E]; [lia|]. congruence.
  - intros bn Hb E. destruct (H1 bn Hb) as [_ E']; [lia|]. congruence.
Qed.

(** * Allocation seen from a file *)

(** The contents after [balloc] gave out block [n]. *)
Definition alloc_V (B : Z) (V : Z -> block) (n : Z) : Z -> block :=
  vset (vset V B (set_bit (V B) n)) n zeros.

Lemma alloc_V_bmap B V n : n <> B -> alloc_V B V n B = set_bit (V B) n.
Proof. intros H. unfold alloc_V. rewrite vset_ne by congruence. apply vset_eq. Qed.
Lemma alloc_V_new B V n : alloc_V B V n n = zeros.
Proof. apply vset_eq. Qed.
Lemma alloc_V_other B V n m : m <> n -> m <> B -> alloc_V B V n m = V m.
Proof. intros H1 H2. unfold alloc_V. now rewrite !vset_ne by congruence. Qed.

Lemma alloc_used B V n m :
  length (V B) = 512%nat -> 0 <= n < BPB -> n <> B -> 0 <= m ->
  bit_of (alloc_V B V n B) m = bit_of (V B) m || (m =? n).
Proof. intros. rewrite alloc_V_bmap by done. now apply bit_of_set. Qed.

Lemma alloc_fmap B N V A ind n :
  0 < B -> N <= BPB -> length (V B) = 512%nat -> B < n < N -> fmap_ok B N V A ind ->
  fmap_ok B N (alloc_V B V n) A ind /\ is_data B N (alloc_V B V n) n.
Proof.
  intros HB HN Hl Hn Hf.
  assert (Hbit : forall m, 0 <= m -> bit_of (alloc_V B V n B) m = bit_of (V B) m || (m =? n)).
  { intros m Hm. apply alloc_used; lia || done. }
  split.
  - destruct Hf as [H1 H2 H3 H4]. split; try done.
    + intros bn Hb Hz. destruct (H1 bn Hb Hz) as [R1 R2]. split; [done|]. rewrite Hbit by lia. now rewrite R2.
    + intros Hz. destruct (H3 Hz) as [R1 R2]. split; [done|]. rewrite Hbit by lia. now rewrite R2.
  - split; [done|]. rewrite Hbit by lia. rewrite Z.eqb_refl. apply orb_true_r.
Qed.

(** The bytes do not change. *)
Lemma alloc_fb B N V A ind n k :
  fmap_ok B N V A ind -> fresh V A ind n -> 0 <= k < MAXFILE * BSIZE -> fb (alloc_V B V n) A k = fb V A k.
Proof.
  intros [H1 _ _ _] (F0 & F1 & F2) Hk. unfold fb.
  assert (Hb : 0 <= k / BSIZE < MAXFILE).
  { split; [apply Z.div_pos; unfold BSIZE; lia|]. apply Z.div_lt_upper_bound; unfold BSIZE in *; lia. }
  destruct (Z.eqb_spec (A (k / BSIZE)) 0) as [|Hz]; [done|].
  destruct (H1 _ Hb Hz) as [R1 _]. rewrite alloc_V_other; [done|now apply F2|lia].
Qed.

(** Giving a hole a zeroed block does not change the bytes either. *)
Lemma add_fb V A bn0 n k :
  0 < n -> A bn0 = 0 -> V n = zeros -> fb V (fun bn => if bn =? bn0 then n else A bn) k = fb V A k.
Proof.
  intros Hn Hz Hv. unfold fb. destruct (Z.eqb_spec (k / BSIZE) bn0) as [->|]; [|done].
  rewrite Hz. cbn [Z.eqb]. destruct (Z.eqb_spec n 0); [lia|]. rewrite Hv. unfold aget, zeros.
  destruct (replicate 512 0 !! Z.to_nat (k mod BSIZE)) eqn:E; [|done]. now apply lookup_replicate in E as [-> _].
Qed.

(** * Inodes *)

Definition ind_of (p : inode) : Z := aget 0 (i_addrs p) NDIRECT.
Definition addr_of (V : Z -> block) (p : inode) (bn : Z) : Z :=
  if bn <? NDIRECT then aget 0 (i_addrs p) bn
  else if ind_of p =? 0 then 0 else rd32 (V (ind_of p)) (4 * (bn - NDIRECT)).

Record file_ok (s : fsst) (V : Z -> block) (p : inode) : Prop := {
  fo_len : length (i_addrs p) = 13%nat;
  fo_dev : i_dev p = 1;
  fo_map : fmap_ok (bmapblock s) (disksize (bio_of s)) V (addr_of V p) (ind_of p)
}.

(** Every block up to the bitmap is marked as used. *)
Definition meta_used (s : fsst) (V : Z -> block) : Prop := forall m, 0 <= m <= bmapblock s -> used s V m = true.

(** At least [k] blocks are free. *)
Definition free (s : fsst) (V : Z -> block) (k : nat) : Prop :=
  exists l : list Z, NoDup l /\ length l = k /\ forall n, n ∈ l -> 0 <= n < disksize (bio_of s) /\ used s V n = false.

Lemma free_one s V k : free s V (S k) -> exists n, 0 <= n < disksize (bio_of s) /\ used s V n = false.
Proof. intros (l & _ & Hl & Hf). destruct l as [|n l]; [done|]. exists n. apply Hf. left. Qed.

Lemma frame_bmap s s' : frame s s' -> bmapblock s' = bmapblock s.
Proof. intros F. unfold bmapblock. now rewrite (fr_sb _ _ F). Qed.

Lemma free_alloc s s' V n k :
  frame s s' -> length (V (bmapblock s)) = 512%nat -> disksize (bio_of s) <= BPB -> bmapblock s < n < disksize (bio_of s) ->
  0 < bmapblock s -> free s V (S k) -> free s' (alloc_V (bmapblock s) V n) k.
Proof.
  intros F Hl HN Hn HB (l & Hnd & Hlen & Hf). unfold free, used. rewrite (frame_bmap _ _ F), (fr_disk _ _ F).
  exists (take k (filter (fun m => m <> n) l)). split; [|split].
  - eapply sublist_NoDup; [apply (NoDup_filter (fun m => m <> n)), Hnd|apply sublist_take].
  - rewrite length_take. enough (k <= length (filter (fun m => m <> n) l))%nat by lia.
    pose proof (NoDup_incl_length l (n :: filter (fun m => m <> n) l) Hnd) as Hi. cbn in Hi.
    enough (l ⊆ n :: filter (fun m => m <> n) l) by (specialize (Hi H); lia).
    intros x Hx. rewrite elem_of_cons, list_elem_of_filter. destruct (decide (x = n)); auto.
  - intros m Hm. apply elem_of_take in Hm as (j & Hm & _). apply list_elem_of_lookup_2, list_elem_of_filter in Hm as [Hne Hm].
    destruct (Hf m Hm) as [R Hu]. split; [done|]. unfold used in Hu.
    rewrite alloc_used, Hu by lia. cbn. now apply Z.eqb_neq.
Qed.

Lemma iof_iset i f s : is_Some (icache s !! i) -> iof i (iset i f s) = f (iof i s).
Proof. intros [p Hp]. unfold iof, iset; cbn. rewrite list_lookup_alter_eq, Hp. done. Qed.

Lemma iset_twice i p q s : iset i (fun _ => q) (iset i (fun _ => p) s) = iset i (fun _ => q) s.
Proof.
  unfold iset. cbn. f_equal. apply list_eq. intros x. destruct (decide (i = x)) as [<-|Hne].
  - rewrite !list_lookup_alter_eq. now destruct (icache s !! i).
  - now rewrite !list_lookup_alter_ne.
Qed.

Lemma tr_iset s bs V H i f : tr s bs V H -> tr (iset i f s) bs V H.
Proof. now intros [T1 T2 T3 T4]. Qed.

Lemma iset_id i s : iset i (fun p => p) s = s.
Proof. destruct s as [l sb ic]. unfold iset; cbn. f_equal. apply list_alter_id. done. Qed.

Lemma frame_iset i f s s' : frame s s' -> frame (iset i f s) (iset i f s').
Proof. intros []. split; cbn; congruence. Qed.

Lemma frame_iof i s s' : frame s s' -> iof i s' = iof i s.
Proof. intros F. unfold iof. now rewrite (fr_icache _ _ F). Qed.

Lemma frame_is_Some i s s' : frame s s' -> is_Some (icache s !! i) -> is_Some (icache s' !! i).
Proof. intros F. now rewrite (fr_icache _ _ F). Qed.

Lemma layout_iset i f s : layout s -> layout (iset i f s).
Proof. now intros []. Qed.

Lemma file_ok_frame s s' V p : frame s s' -> file_ok s V p -> file_ok s' V p.
Proof.
  intros F [H1 H2 H3]. split; [done|done|]. now rewrite (frame_bmap _ _ F), (fr_disk _ _ F).
Qed.

(** ** Growing the map *)

Lemma ind_aset p bn n : bn <> NDIRECT -> 0 <= bn -> ind_of (iset_addrs (aset (i_addrs p) bn n) p) = ind_of p.
Proof. intros H H0. unfold ind_of. cbn. apply aget_aset_ne; unfold NDIRECT in *; lia. Qed.

Lemma addr_direct V p bn n bn' :
  length (i_addrs p) = 13%nat -> 0 <= bn < NDIRECT -> 0 <= bn' < MAXFILE ->
  addr_of V (iset_addrs (aset (i_addrs p) bn n) p) bn' = if bn' =? bn then n else addr_of V p bn'.
Proof.
  intros Hl Hb Hb'. unfold addr_of. rewrite ind_aset by lia. cbn [i_addrs iset_addrs].
  destruct (Z.ltb_spec bn' NDIRECT).
  - destruct (Z.eqb_spec bn' bn) as [->|]; [apply aget_aset_eq; unfold NDIRECT in *; lia|apply aget_aset_ne; lia].
  - destruct (Z.eqb_spec bn' bn); [lia|done].
Qed.

Lemma rd32_zeros off : 0 <= off -> off + 4 <= 512 -> rd32 zeros off = 0.
Proof.
  intros H0 H1. unfold rd32. replace (bytes_at zeros off 4) with [0; 0; 0; 0]; [done|].
  symmetry. unfold bytes_at, zeros. rewrite drop_replicate, take_replicate.
  replace (Init.Nat.min (Z.to_nat 4) (512 - Z.to_nat off)) with 4%nat by lia. done.
Qed.

Lemma addr_new_ind V p n bn :
  length (i_addrs p) = 13%nat -> ind_of p = 0 -> V n = zeros -> 0 <= bn < MAXFILE ->
  addr_of V (iset_addrs (aset (i_addrs p) NDIRECT n) p) bn = addr_of V p bn.
Proof.
  intros Hl Hi Hv Hb. unfold addr_of. cbn [i_addrs iset_addrs].
  destruct (Z.ltb_spec bn NDIRECT); [apply aget_aset_ne; unfold NDIRECT in *; lia|]. rewrite Hi. cbn [Z.eqb].
  unfold ind_of at 1 2. cbn [i_addrs iset_addrs]. rewrite aget_aset_eq by (rewrite Hl; unfold NDIRECT; lia).
  rewrite Hv, rd32_zeros by (change MAXFILE with 140 in *; change NDIRECT with 12 in *; lia). now destruct (n =? 0).
Qed.

Lemma addr_entry V p bn n bn' :
  ind_of p <> 0 -> length (V (ind_of p)) = 512%nat -> NDIRECT <= bn < MAXFILE -> 0 <= bn' < MAXFILE -> is_u32 n ->
  addr_of (vset V (ind_of p) (wr32 (V (ind_of p)) (4 * (bn - NDIRECT)) n)) p bn' =
  if bn' =? bn then n else addr_of V p bn'.
Proof.
  intros Hi Hl Hb Hb' Hn. unfold addr_of. destruct (Z.eqb_spec (ind_of p) 0); [done|].
  change MAXFILE with 140 in *. change NDIRECT with 12 in *.
  destruct (Z.ltb_spec bn' 12); [destruct (Z.eqb_spec bn' bn); [lia|done]|].
  rewrite vset_eq. destruct (Z.eqb_spec bn' bn) as [->|].
  - rewrite rd32_wr32_eq by lia. now apply u32_small.
  - apply rd32_wr32_ne; lia.
Qed.

(** From contents [V] and inode [p] to [V'] and [p'] the file got blocks, and its
    bytes did not change. *)
Record grown (B N : Z) (V : Z -> block) (p : inode) (V' : Z -> block) (p' : inode) : Prop := {
  gr_inode : p' = iset_addrs (i_addrs p') p;
  gr_len : length (i_addrs p') = 13%nat;
  gr_map : fmap_ok B N V' (addr_of V' p') (ind_of p');
  gr_bytes k : 0 <= k < MAXFILE * BSIZE -> fb V' (addr_of V' p') k = fb V (addr_of V p) k;
  gr_bits m : 0 <= m -> bit_of (V B) m = true -> bit_of (V' B) m = true;
  gr_other m : 0 <= m -> bit_of (V B) m = true -> m <> B -> m <> ind_of p -> V' m = V m;
  gr_keep bn : 0 <= bn < MAXFILE -> addr_of V p bn <> 0 -> addr_of V' p' bn = addr_of V p bn;
  gr_new bn : 0 <= bn < MAXFILE -> addr_of V p bn = 0 -> addr_of V' p' bn <> 0 -> bit_of (V B) (addr_of V' p' bn) = false;
  gr_ind : ind_of p' = ind_of p \/ ind_of p = 0 /\ 0 <= ind_of p' /\ bit_of (V B) (ind_of p') = false
}.

Lemma iset_addrs_same p : iset_addrs (i_addrs p) p = p.
Proof. now destruct p. Qed.

Lemma grown_refl B N V p :
  length (i_addrs p) = 13%nat -> fmap_ok B N V (addr_of V p) (ind_of p) -> grown B N V p V p.
Proof. intros Hl Hm. split; auto; [now rewrite iset_addrs_same|congruence]. Qed.

Lemma grown_trans B N V p V1 p1 V2 p2 : 0 < B -> grown B N V p V1 p1 -> grown B N V1 p1 V2 p2 -> grown B N V p V2 p2.
Proof.
  intros HB [A1 A2 A3 A4 A5 A6 A7 A9 A8] [C1 C2 C3 C4 C5 C6 C7 C9 C8]. split; auto.
  - rewrite C1, A1. now destruct p.
  - intros k Hk. now rewrite C4, A4.
  - intros m Hm Hb HB' Hi. rewrite C6; auto. intros ->. destruct A8 as [E|(E0 & E1 & E2)]; congruence.
  - intros bn Hb Hz. rewrite C7; auto. now rewrite A7.
  - intros bn Hb Hz Hz2. destruct (Z.eq_dec (addr_of V1 p1 bn) 0) as [E|E]; [|rewrite C7 in * by done; now apply A9].
    destruct (fm_data _ _ _ _ _ C3 bn Hb Hz2) as [Hr _]. specialize (C9 bn Hb E Hz2).
    destruct (bit_of (V B) (addr_of V2 p2 bn)) eqn:Eb; [|done]. rewrite A5 in C9; [done|lia|done].
  - destruct A8 as [E|(E0 & E1 & E2)], C8 as [E'|(E0' & E1' & E2')]; try (left; congruence).
    + right. split_and!; [congruence|done|]. destruct (bit_of (V B) (ind_of p2)) eqn:Eb; [|done].
      apply A5 in Eb; [|done]. congruence.
    + right. rewrite E'. done.
    + right. split_and!; [done|done|]. destruct (bit_of (V B) (ind_of p2)) eqn:Eb; [|done].
      apply A5 in Eb; [|done]. congruence.
Qed.

Section Grow.
Variables (B N : Z) (V : Z -> block) (p : inode) (n : Z).
Hypothesis B_pos : 0 < B.
Hypothesis N_small : N <= BPB.
Hypothesis bmap_len : length (V B) = 512%nat.
Hypothesis addrs_len : length (i_addrs p) = 13%nat.
Hypothesis map_ok : fmap_ok B N V (addr_of V p) (ind_of p).
Hypothesis n_range : B < n < N.
Hypothesis n_free : bit_of (V B) n = false.

Lemma grow_fresh : fresh V (addr_of V p) (ind_of p) n.
Proof. eapply free_fresh; eauto; lia. Qed.

(** The allocation itself does not move the file's blocks. *)
Lemma alloc_addr bn : 0 <= bn < MAXFILE -> addr_of (alloc_V B V n) p bn = addr_of V p bn.
Proof.
  intros Hb. unfold addr_of. destruct (bn <? NDIRECT); [done|].
  destruct (Z.eqb_spec (ind_of p) 0) as [|Hi]; [done|]. destruct (fm_ind _ _ _ _ _ map_ok Hi) as [R _].
  rewrite alloc_V_other; [done| |lia]. destruct grow_fresh as (_ & H & _). congruence.
Qed.

Lemma alloc_bits m : 0 <= m -> bit_of (V B) m = true -> bit_of (alloc_V B V n B) m = true.
Proof. intros Hm Hb. rewrite alloc_used by (lia || done). now rewrite Hb. Qed.

Lemma alloc_others m : 0 <= m -> bit_of (V B) m = true -> m <> B -> alloc_V B V n m = V m.
Proof. intros Hm Hb HB. apply alloc_V_other; [|done]. intros ->. congruence. Qed.

Lemma alloc_map : fmap_ok B N (alloc_V B V n) (addr_of V p) (ind_of p) /\ is_data B N (alloc_V B V n) n.
Proof. apply alloc_fmap; auto. Qed.

Lemma grow_direct bn :
  0 <= bn < NDIRECT -> addr_of V p bn = 0 ->
  grown B N V p (alloc_V B V n) (iset_addrs (aset (i_addrs p) bn n) p).
Proof.
  intros Hb Hz. pose proof alloc_map as [Hm Hd]. pose proof grow_fresh as Hf.
  assert (Hbm : 0 <= bn < MAXFILE) by (change MAXFILE with 140; change NDIRECT with 12 in *; lia).
  set (p' := iset_addrs _ p). assert (Hind : ind_of p' = ind_of p) by (apply ind_aset; lia).
  assert (Ha : forall bn', 0 <= bn' < MAXFILE ->
    addr_of (alloc_V B V n) p' bn' = if bn' =? bn then n else addr_of V p bn').
  { intros bn' Hb'. unfold p'. rewrite addr_direct, alloc_addr by done. done. }
  split; auto.
  - cbn. now rewrite length_aset.
  - rewrite Hind. eapply fmap_ext; [exact Ha|]. now apply fmap_add.
  - intros k Hk. rewrite <- (alloc_fb B N V (addr_of V p) (ind_of p) n k) by done.
    rewrite <- (add_fb (alloc_V B V n) (addr_of V p) bn n k) by (done || lia || apply alloc_V_new).
    unfold fb. rewrite Ha; [done|]. split; [apply Z.div_pos; unfold BSIZE; lia|].
    apply Z.div_lt_upper_bound; unfold BSIZE in *; lia.
  - apply alloc_bits.
  - intros m H1 H2 H3 _. now apply alloc_others.
  - intros bn' Hb' Hz'. rewrite Ha by done. destruct (Z.eqb_spec bn' bn) as [->|]; [done|done].
  - intros bn' Hb' Hz'. rewrite Ha by done. destruct (bn' =? bn); [done|congruence].
Qed.

Lemma grow_ind :
  ind_of p = 0 -> grown B N V p (alloc_V B V n) (iset_addrs (aset (i_addrs p) NDIRECT n) p).
Proof.
  intros Hz. pose proof alloc_map as [Hm Hd]. pose proof grow_fresh as Hf. rewrite Hz in Hm, Hf.
  set (p' := iset_addrs _ p).
  assert (Hind : ind_of p' = n) by (unfold p', ind_of; cbn; apply aget_aset_eq; rewrite addrs_len; unfold NDIRECT; lia).
  assert (Ha : forall bn', 0 <= bn' < MAXFILE -> addr_of (alloc_V B V n) p' bn' = addr_of V p bn').
  { intros bn' Hb'. unfold p'. rewrite addr_new_ind, alloc_addr by (done || apply alloc_V_new). done. }
  split; auto.
  - cbn. now rewrite length_aset.
  - rewrite Hind. eapply fmap_ext; [exact Ha|]. now apply fmap_new_ind.
  - intros k Hk. rewrite <- (alloc_fb B N V (addr_of V p) 0 n k) by (done || now rewrite <- Hz).
    unfold fb. rewrite Ha; [done|]. split; [apply Z.div_pos; unfold BSIZE; lia|].
    apply Z.div_lt_upper_bound; unfold BSIZE in *; lia.
  - apply alloc_bits.
  - intros m H1 H2 H3 _. now apply alloc_others.
  - intros bn' Hb' Hz'. rewrite Ha by done. congruence.
  - right. rewrite Hind. split_and!; done || lia.
Qed.

Lemma grow_entry bn :
  NDIRECT <= bn < MAXFILE -> ind_of p <> 0 -> addr_of V p bn = 0 -> length (V (ind_of p)) = 512%nat ->
  grown B N V p
    (vset (alloc_V B V n) (ind_of p) (wr32 (V (ind_of p)) (4 * (bn - NDIRECT)) n)) p.
Proof.
  intros Hb Hi Hz Hl. pose proof alloc_map as [Hm Hd]. pose proof grow_fresh as Hf.
  destruct (fm_ind _ _ _ _ _ map_ok Hi) as [Hir Hiu].
  assert (Hbm : 0 <= bn < MAXFILE) by (change NDIRECT with 12 in *; lia).
  assert (Eind : alloc_V B V n (ind_of p) = V (ind_of p)) by (apply alloc_others; lia || done).
  set (V' := vset _ _ _).
  assert (EB : V' B = alloc_V B V n B) by (apply vset_ne; lia).
  assert (Ha : forall bn', 0 <= bn' < MAXFILE -> addr_of V' p bn' = if bn' =? bn then n else addr_of V p bn').
  { intros bn' Hb'. unfold V'. rewrite <- Eind, addr_entry, alloc_addr; try done; [now rewrite Eind|].
    unfold is_u32, BPB, BSIZE in *. lia. }
  split; auto.
  - now rewrite iset_addrs_same.
  - eapply fmap_ext; [exact Ha|]. apply (fmap_used B N (alloc_V B V n)); [now rewrite EB|]. now apply fmap_add.
  - intros k Hk. assert (Hk' : 0 <= k / BSIZE < MAXFILE).
    { split; [apply Z.div_pos; unfold BSIZE; lia|]. apply Z.div_lt_upper_bound; unfold BSIZE in *; lia. }
    rewrite <- (alloc_fb B N V (addr_of V p) (ind_of p) n k) by done.
    rewrite <- (add_fb (alloc_V B V n) (addr_of V p) bn n k) by (done || lia || apply alloc_V_new).
    unfold fb. rewrite Ha by done. set (a := if k / BSIZE =? bn then n else addr_of V p (k / BSIZE)).
    destruct (Z.eqb_spec a 0); [done|]. unfold V'. rewrite vset_ne; [done|].
    unfold a. destruct (k / BSIZE =? bn); [apply Hf|]. now apply (fm_ind_ne _ _ _ _ _ map_ok).
  - intros m H1 H2. rewrite EB. now apply alloc_bits.
  - intros m H1 H2 H3 H4. unfold V'. rewrite vset_ne by done. now apply alloc_others.
  - intros bn' Hb' Hz'. rewrite Ha by done. destruct (Z.eqb_spec bn' bn) as [->|]; [done|done].
  - intros bn' Hb' Hz'. rewrite Ha by done. destruct (bn' =? bn); [done|congruence].
Qed.
End Grow.

Lemma free_weaken s V j k : (j <= k)%nat -> free s V k -> free s V j.
Proof.
  intros Hj (l & Hnd & Hl & Hf). exists (take j l). split_and!.
  - eapply sublist_NoDup; [exact Hnd|apply sublist_take].
  - rewrite length_take. lia.
  - intros n Hn. apply elem_of_take in Hn as (x & Hn & _). eapply Hf, list_elem_of_lookup_2, Hn.
Qed.

Lemma free_frame s s' V k : frame s s' -> free s V k -> free s' V k.
Proof.
  intros F (l & Hnd & Hl & Hf). exists l. split_and!; [done..|]. intros n Hn.
  unfold used. rewrite (frame_bmap _ _ F), (fr_disk _ _ F). now apply Hf.
Qed.

Lemma iset_const i f s : is_Some (icache s !! i) -> iset i (fun _ => f (iof i s)) s = iset i f s.
Proof.
  intros [p Hp]. unfold iset, iof. rewrite Hp. f_equal. apply list_eq. intros j.
  destruct (decide (i = j)) as [<-|Hne]; [|now rewrite !list_lookup_alter_ne].
  rewrite !list_lookup_alter_eq, Hp. done.
Qed.

Section Bmap.
Context {fuel : Fuel}.

(** A block the file has already. *)
Lemma wp_bmap_mapped (fuel_pos : (0 < wakeups)%nat) s bs V i bn (Q : Z -> ctx -> fsst -> Prop) c :
  held c = [] -> tr s bs V [] -> file_ok s V (iof i s) -> 0 <= bn < MAXFILE ->
  addr_of V (iof i s) bn <> 0 -> 0 <= bmapblock s -> (length bs < NBUF)%nat ->
  (forall c' s', held c' = [] -> tr s' bs V [] -> frame s s' -> Q (addr_of V (iof i s) bn) c' s') ->
  wp (bmap i bn) Q c s.
Proof.
  intros Hc T Hf Hb Hz HB Hroom HQ. unfold bmap. apply wp_bind, wp_gets. set (p := iof i s) in *.
  pose proof Hf as [Hl Hdev Hm]. unfold addr_of in Hz, HQ.
  destruct (Z.ltb_spec bn NDIRECT) as [Hd|Hd].
  { destruct (Z.eqb_spec (aget 0 (i_addrs p) bn) 0); [done|]. apply wp_ret, HQ; auto. }
  destruct (Z.ltb_spec (bn - NDIRECT) NINDIRECT); [|change NINDIRECT with 128 in *; change MAXFILE with 140 in *; change NDIRECT with 12 in *; lia].
  fold (ind_of p). destruct (Z.eqb_spec (ind_of p) 0) as [|Hi]; [done|]. apply wp_bind, wp_ret.
  destruct (fm_ind _ _ _ _ _ Hm Hi) as [Hr _]. rewrite Hdev.
  apply wp_bind. eapply wp_fbread; [done|done|exact T|apply not_elem_of_nil|lia|right; cbn; lia|]. intros b s1 T1 F1.
  apply wp_bind. eapply wp_fdata; [exact T1|left|].
  destruct (Z.eqb_spec (rd32 (V (ind_of p)) (4 * (bn - NDIRECT))) 0); [done|]. apply wp_bind, wp_ret.
  apply wp_bind. eapply wp_fbrelse; [done|exact T1|done|]. intros c' s2 Hc' T2 F2.
  apply wp_ret, HQ; eauto using frame_trans.
Qed.

Lemma tr_bmap_len s bs V H : tr s bs V H -> layout s -> length (V (bmapblock s)) = 512%nat.
Proof. intros T L. pose proof (bmap_nonneg s L). apply (tr_block_ok s bs V H (bmapblock s) T). lia. Qed.

Lemma meta_used_alloc s s' V n :
  frame s s' -> layout s -> length (V (bmapblock s)) = 512%nat -> bmapblock s < n < disksize (bio_of s) ->
  meta_used s V -> meta_used s' (alloc_V (bmapblock s) V n).
Proof.
  intros F L Hl Hn Hm m Hr. unfold used. rewrite (frame_bmap _ _ F) in *. pose proof (lo_disk s L). pose proof (lo_one s L).
  pose proof (bmap_nonneg s L). rewrite alloc_used by (lia || done). specialize (Hm m ltac:(lia)). unfold used in Hm.
  now rewrite Hm.
Qed.

Lemma bs_add2_sub n B bs : bs_add n (bs_add B bs) ⊆ B :: n :: bs.
Proof.
  apply bs_add_sub; [|right; left]. apply bs_add_sub; [|left]. intros x Hx. right. now right.
Qed.

(** The part of [bmap] that looks into the indirect block. *)
Definition bmap_entry (dev ind bn : Z) : M fsst Z :=
  let* bp := fbread dev ind in
  let* d := fdata bp in
  let addr := rd32 d (4 * bn) in
  let* addr :=
    (if addr =? 0 then
       let* addr := balloc dev in
       let* d := fdata bp in
       fput bp (wr32 d (4 * bn) addr) ;;;
       flog_write bp ;;;
       ret addr
     else ret addr) in
  fbrelse bp ;;;
  ret addr.

Lemma wp_bmap_entry (fuel_pos : (0 < wakeups)%nat) s bs V i p bn (Q : Z -> ctx -> fsst -> Prop) c :
  held c = [] -> tr s bs V [] -> layout s -> meta_used s V -> iof i s = p -> file_ok s V p ->
  NDIRECT <= bn < MAXFILE -> ind_of p <> 0 -> addr_of V p bn = 0 -> free s V 1 -> (length (bs_add (bmapblock s) bs) <= 27)%nat ->
  (forall n c' s', held c' = [] -> bmapblock s < n < disksize (bio_of s) -> bit_of (V (bmapblock s)) n = false ->
     let V' := vset (alloc_V (bmapblock s) V n) (ind_of p) (wr32 (V (ind_of p)) (4 * (bn - NDIRECT)) n) in
     tr s' (bs_add (ind_of p) (bs_add n (bs_add (bmapblock s) bs))) V' [] ->
     frame s s' -> Q n c' s') ->
  wp (bmap_entry 1 (ind_of p) (bn - NDIRECT)) Q c s.
Proof.
  intros Hc T L Hmeta Hp Hf Hb Hi Hz Hfree Hbs HQ. pose proof Hf as [Hl Hdev Hm].
  destruct (fm_ind _ _ _ _ _ Hm Hi) as [Hr Hu]. pose proof (bmap_nonneg s L) as HB.
  pose proof (bs_add_length (bmapblock s) bs) as Hlen.
  pose proof (tr_bmap_len _ _ _ _ T L) as HBl. pose proof (lo_disk s L) as Hd. pose proof (lo_one s L) as Hone.
  unfold bmap_entry. apply wp_bind. eapply wp_fbread; [done|done|exact T|apply not_elem_of_nil|lia|right; cbn; unfold NBUF; lia|].
  intros b s1 T1 F1. apply wp_bind. eapply wp_fdata; [exact T1|left|].
  assert (Ez : rd32 (V (ind_of p)) (4 * (bn - NDIRECT)) = 0).
  { unfold addr_of in Hz. destruct (Z.ltb_spec bn NDIRECT); [lia|]. now destruct (Z.eqb_spec (ind_of p) 0). }
  rewrite Ez. cbn [Z.eqb]. apply wp_bind, wp_bind.
  eapply (wp_balloc fuel_pos s1 bs V _); [done|exact T1|exact (layout_frame _ _ F1 L)|..].
  { rewrite (frame_bmap _ _ F1). cbn. intros [E|E%elem_of_nil]%elem_of_cons; [lia|done]. }
  { cbn. intros n [-> |E%elem_of_nil]%elem_of_cons; [|done]. unfold used. now rewrite (frame_bmap _ _ F1). }
  { intros m. unfold used. rewrite (frame_bmap _ _ F1). apply Hmeta. }
  { rewrite (fr_disk _ _ F1). unfold used. rewrite (frame_bmap _ _ F1). now apply (free_one s V 0). }
  { rewrite (frame_bmap _ _ F1). cbn. unfold NBUF. lia. }
  { rewrite (frame_bmap _ _ F1). lia. }
  intros n c2 s2 Hn Hnf Hc2 T2 F2. unfold used in Hnf. rewrite (frame_bmap _ _ F1), (fr_disk _ _ F1) in *.
  fold (alloc_V (bmapblock s) V n) in T2. apply wp_bind. eapply wp_fdata; [exact T2|left|].
  apply wp_bind. eapply wp_fput; [exact T2|apply wr32_ok, (tr_block_ok _ _ _ _ _ T); lia|]. intros s3 T3 F3.
  assert (F13 : frame s s3) by eauto using frame_trans.
  pose proof (bs_add_length n (bs_add (bmapblock s) bs)) as Hlen'.
  apply wp_bind. eapply wp_flog_write; [done|exact T3| | | |].
  { rewrite (fr_size _ _ F13). apply L. }
  { unfold LOGSIZE, MAXOPBLOCKS. lia. }
  { rewrite (fr_start _ _ F13), (fr_size _ _ F13). apply after_bmap; [done|lia]. }
  intros s4 T4 F4. apply wp_ret. apply wp_bind. eapply wp_fbrelse; [done|exact T4|now rewrite vset_eq|].
  intros c5 s5 Hc5 T5 F5. apply wp_ret. apply HQ; [done|done|done|exact T5|]. eauto using frame_trans.
Qed.

(** [balloc] for a slot of [addrs]. *)
Lemma wp_alloc_slot (fuel_pos : (0 < wakeups)%nat) s bs V i idx (Q : Z -> ctx -> fsst -> Prop) c :
  held c = [] -> tr s bs V [] -> layout s -> meta_used s V -> free s V 1 -> (length (bs_add (bmapblock s) bs) <= 28)%nat ->
  (forall n c' s', held c' = [] -> bmapblock s < n < disksize (bio_of s) -> bit_of (V (bmapblock s)) n = false ->
     tr s' (bs_add n (bs_add (bmapblock s) bs)) (alloc_V (bmapblock s) V n) [] ->
     frame (iset i (fun p => iset_addrs (aset (i_addrs p) idx n) p) s) s' -> Q n c' s') ->
  wp (let* addr := balloc 1 in
      imod i (fun p => iset_addrs (aset (i_addrs p) idx addr) p) ;;;
      ret addr) Q c s.
Proof.
  intros Hc T L Hmeta Hfree Hbs HQ. apply wp_bind.
  eapply (wp_balloc fuel_pos s bs V []); [done|exact T|done|apply not_elem_of_nil|intros n E%elem_of_nil; done|done| |cbn; unfold NBUF; lia|lia|].
  { now apply (free_one s V 0). }
  intros n c2 s2 Hn Hnf Hc2 T2 F2. apply wp_bind, wp_modify, wp_ret. apply HQ; try done.
  - now apply tr_iset.
  - now apply frame_iset.
Qed.

Lemma bmap_unfold_ind i bn s c :
  NDIRECT <= bn < MAXFILE ->
  bmap i bn c s =
  (let* addr :=
     (if ind_of (iof i s) =? 0 then
        let* addr := balloc (i_dev (iof i s)) in
        imod i (fun p => iset_addrs (aset (i_addrs p) NDIRECT addr) p) ;;;
        ret addr
      else ret (ind_of (iof i s))) in
   bmap_entry (i_dev (iof i s)) addr (bn - NDIRECT)) c s.
Proof.
  intros Hb. unfold bmap, bind at 1, gets at 1. cbn [obind].
  destruct (Z.ltb_spec bn NDIRECT); [lia|].
  destruct (Z.ltb_spec (bn - NDIRECT) NINDIRECT) as [_|E]; [reflexivity|].
  change NINDIRECT with 128 in *; change MAXFILE with 140 in *; change NDIRECT with 12 in *. lia.
Qed.

(** The states between the two steps of [bmap]: some blocks were given to the
    file. *)
Record growing (s : fsst) (bs : list Z) (V : Z -> block) (i : nat) (W : list Z) (j : nat)
    (s' : fsst) (bs' : list Z) (V' : Z -> block) (p' : inode) : Prop := {
  gw_tr : tr s' bs' V' [];
  gw_frame : frame (iset i (fun _ => p') s) s';
  gw_grown : grown (bmapblock s) (disksize (bio_of s)) V (iof i s) V' p';
  gw_bs : bs' ⊆ W ++ bs;
  gw_meta : meta_used s' V';
  gw_free k : free s V (j + k) -> free s' V' k
}.

Lemma growing_none s bs V i :
  tr s bs V [] -> is_Some (icache s !! i) -> file_ok s V (iof i s) -> meta_used s V -> growing s bs V i [] 0 s bs V (iof i s).
Proof.
  intros T Hi [Hl _ Hm] Hmeta. split; try done.
  - rewrite (iset_const i (fun q => q)), iset_id by done. done.
  - now apply grown_refl.
Qed.

Lemma growing_slot s bs V i idx n s' :
  tr s bs V [] -> layout s -> meta_used s V -> is_Some (icache s !! i) -> bmapblock s < n < disksize (bio_of s) ->
  tr s' (bs_add n (bs_add (bmapblock s) bs)) (alloc_V (bmapblock s) V n) [] ->
  frame (iset i (fun p => iset_addrs (aset (i_addrs p) idx n) p) s) s' ->
  grown (bmapblock s) (disksize (bio_of s)) V (iof i s) (alloc_V (bmapblock s) V n)
    (iset_addrs (aset (i_addrs (iof i s)) idx n) (iof i s)) ->
  growing s bs V i [bmapblock s; n] 1 s' (bs_add n (bs_add (bmapblock s) bs)) (alloc_V (bmapblock s) V n)
    (iset_addrs (aset (i_addrs (iof i s)) idx n) (iof i s)).
Proof.
  intros T L Hmeta Hi Hn T' F' G. pose proof (tr_bmap_len _ _ _ _ T L) as HBl. pose proof (bmap_nonneg s L) as HB.
  pose proof (lo_disk s L) as Hd. pose proof (lo_one s L) as Hone.
  rewrite <- (iset_const i (fun p => iset_addrs (aset (i_addrs p) idx n) p)) in F' by done.
  set (s0 := iset i _ s) in *.
  split; try done.
  - apply bs_add2_sub.
  - apply (meta_used_alloc s0); try done. now apply layout_iset.
  - intros k Hk. apply (free_alloc s0); [done|exact HBl|cbn; lia|exact Hn|apply HB|exact Hk].
Qed.

(** The file is well formed after a step. *)
Lemma growing_file s bs V i W j s' bs' V' p' :
  file_ok s V (iof i s) -> is_Some (icache s !! i) -> growing s bs V i W j s' bs' V' p' ->
  iof i s' = p' /\ is_Some (icache s' !! i) /\ file_ok s' V' p'.
Proof.
  intros [Hl Hdev Hm] Hi [T F G _ _ _]. split_and!.
  - rewrite (frame_iof i _ _ F). now apply iof_iset.
  - rewrite (fr_icache _ _ F). cbn. rewrite list_lookup_alter_eq. now apply fmap_is_Some.
  - pose proof (frame_bmap _ _ F) as EB. cbn in EB. pose proof (fr_disk _ _ F) as ED. cbn in ED.
    split; [apply G|rewrite (gr_inode _ _ _ _ _ _ G); done|]. unfold bmapblock in EB. rewrite ED.
    unfold bmapblock. rewrite EB. apply G.
Qed.

Lemma growing_trans s bs V i W j s1 bs1 V1 p1 W' j' s2 bs2 V2 p2 :
  layout s -> file_ok s V (iof i s) -> is_Some (icache s !! i) ->
  growing s bs V i W j s1 bs1 V1 p1 -> growing s1 bs1 V1 i W' j' s2 bs2 V2 p2 ->
  growing s bs V i (W' ++ W) (j + j') s2 bs2 V2 p2.
Proof.
  intros L Hf Hi G1 G2. destruct (growing_file _ _ _ _ _ _ _ _ _ _ Hf Hi G1) as (E1 & Hi1 & Hf1).
  destruct G1 as [T1 F1 G1 B1 M1 Fr1], G2 as [T2 F2 G2 B2 M2 Fr2].
  pose proof (frame_bmap _ _ F1) as EB. pose proof (fr_disk _ _ F1) as ED. cbn in EB, ED.
  change (bmapblock s1 = bmapblock s) in EB. rewrite EB, ED, E1 in G2.
  split; [done| | | |done|].
  - apply (frame_iset i (fun _ => p2)) in F1. rewrite iset_twice in F1. eapply frame_trans; eauto.
  - eapply grown_trans; eauto. apply (bmap_nonneg s L).
  - intros x Hx. apply B2, elem_of_app in Hx as [Hx|Hx]; [rewrite !elem_of_app; auto|].
    apply B1, elem_of_app in Hx as [Hx|Hx]; rewrite !elem_of_app; auto.
  - intros k Hk. apply Fr2, Fr1. now rewrite Nat.add_assoc.
Qed.

Lemma growing_weaken s bs V i W j W' j' s' bs' V' p' :
  W ⊆ W' -> (j <= j')%nat -> growing s bs V i W j s' bs' V' p' -> growing s bs V i W' j' s' bs' V' p'.
Proof.
  intros HW Hj [T F G B M Fr]. split; try done.
  - intros x Hx. apply B, elem_of_app in Hx as [Hx|Hx]; rewrite elem_of_app; auto.
  - intros k Hk. apply Fr. eapply free_weaken; [|exact Hk]. lia.
Qed.

(** The entry of the indirect block. *)
Lemma growing_entry s bs V i bn n s' :
  let p := iof i s in
  let V' := vset (alloc_V (bmapblock s) V n) (ind_of p) (wr32 (V (ind_of p)) (4 * (bn - NDIRECT)) n) in
  tr s bs V [] -> layout s -> meta_used s V -> is_Some (icache s !! i) -> file_ok s V p ->
  NDIRECT <= bn < MAXFILE -> ind_of p <> 0 -> addr_of V p bn = 0 ->
  bmapblock s < n < disksize (bio_of s) -> bit_of (V (bmapblock s)) n = false ->
  tr s' (bs_add (ind_of p) (bs_add n (bs_add (bmapblock s) bs))) V' [] -> frame s s' ->
  growing s bs V i [bmapblock s; ind_of p; n] 1 s' (bs_add (ind_of p) (bs_add n (bs_add (bmapblock s) bs))) V' p /\
  addr_of V' p bn = n.
Proof.
  intros p V' T L Hmeta Hi Hf Hb Hind Hz Hn Hnf T' F'. pose proof Hf as [Hl Hdev Hm].
  pose proof (tr_bmap_len _ _ _ _ T L) as HBl. pose proof (bmap_nonneg s L) as HB.
  pose proof (lo_disk s L) as Hd. pose proof (lo_one s L) as Hone.
  destruct (fm_ind _ _ _ _ _ Hm Hind) as [Hir Hiu].
  assert (Hil : length (V (ind_of p)) = 512%nat) by (apply (tr_block_ok _ _ _ _ _ T); lia).
  assert (EB : V' (bmapblock s) = alloc_V (bmapblock s) V n (bmapblock s)) by (apply vset_ne; lia).
  split.
  - split; [done| | | | |].
    + unfold p. rewrite (iset_const i (fun q => q)), iset_id by done. done.
    + apply (grow_entry (bmapblock s) (disksize (bio_of s))); try done; lia.
    + apply bs_add_sub; [|right; left]. intros x Hx%bs_add2_sub. rewrite !elem_of_cons in Hx. cbn. rewrite !elem_of_cons. tauto.
    + intros m Hm'. unfold used. rewrite (frame_bmap _ _ F') in *. rewrite EB.
      pose proof (meta_used_alloc s s V n (frame_refl s) L HBl Hn Hmeta m Hm') as Hu. exact Hu.
    + intros k Hk. pose proof (free_alloc s s' V n k F' HBl ltac:(lia) Hn ltac:(lia) Hk) as (l & H1 & H2 & H3).
      exists l. split_and!; [done..|]. intros x Hx. specialize (H3 x Hx). unfold used in *.
      rewrite (frame_bmap _ _ F') in *. now rewrite EB.
  - unfold V'. assert (Eind : alloc_V (bmapblock s) V n (ind_of p) = V (ind_of p)).
    { apply alloc_V_other; [intros E; rewrite E in Hiu; congruence|lia]. }
    rewrite <- Eind, addr_entry; try done; [now rewrite Z.eqb_refl|now rewrite Eind| |].
    + change NDIRECT with 12 in *. lia.
    + unfold is_u32, BPB, BSIZE in *. lia.
Qed.

(** The second step of [bmap], for a file that has its indirect block. *)
Lemma wp_bmap_rest (fuel_pos : (0 < wakeups)%nat) s bs V i bn W s1 bs1 V1 p1 (Q : Z -> ctx -> fsst -> Prop) c :
  held c = [] -> layout s -> is_Some (icache s !! i) -> file_ok s V (iof i s) -> NDIRECT <= bn < MAXFILE ->
  free s V 2 -> (length (bs_add (bmapblock s) bs) <= 26)%nat ->
  growing s bs V i W 1 s1 bs1 V1 p1 -> (W ⊆ [bmapblock s; ind_of p1]) -> ind_of p1 <> 0 -> addr_of V1 p1 bn = 0 ->
  (forall a c' s' bs' V' p', held c' = [] -> growing s bs V i [bmapblock s; ind_of p'; a] 2 s' bs' V' p' ->
     addr_of V' p' bn = a -> a <> 0 -> Q a c' s') ->
  wp (bmap_entry 1 (ind_of p1) (bn - NDIRECT)) Q c s1.
Proof.
  intros Hc L Hi Hf Hb Hfree Hbs G1 HW Hi1 Hz1 HQ.
  destruct (growing_file _ _ _ _ _ _ _ _ _ _ Hf Hi G1) as (E1 & Hs1 & Hf1). subst p1.
  pose proof (frame_bmap _ _ (gw_frame _ _ _ _ _ _ _ _ _ _ G1)) as EB1. change (bmapblock s1 = bmapblock s) in EB1.
  assert (L1 : layout s1) by (eapply layout_frame; [apply G1|now apply layout_iset]).
  pose proof (gw_tr _ _ _ _ _ _ _ _ _ _ G1) as T1. pose proof (gw_meta _ _ _ _ _ _ _ _ _ _ G1) as M1.
  eapply (wp_bmap_entry fuel_pos s1 bs1 V1 i); [done|exact T1|done|done|done|done|done|done|done| | |].
  { now apply (gw_free _ _ _ _ _ _ _ _ _ _ G1). }
  { rewrite EB1. eapply Nat.le_trans; [apply (NoDup_incl_length _ (ind_of (iof i s1) :: bs_add (bmapblock s) bs))|cbn; lia].
    - apply bs_add_NoDup, (tr_log _ _ _ _ T1).
    - apply bs_add_sub; [|right; apply bs_add_in]. intros x Hx.
      apply (gw_bs _ _ _ _ _ _ _ _ _ _ G1), elem_of_app in Hx as [Hx|Hx]; [|right; now apply bs_add_mono].
      apply HW in Hx. rewrite !elem_of_cons in Hx. destruct Hx as [-> |[-> |[]%elem_of_nil]]; [right; apply bs_add_in|left]. }
  intros n c2 s2 Hc2 Hn Hnf V2 T2 F2.
  destruct (growing_entry s1 bs1 V1 i bn n s2) as [G2 Ha2]; [done..|].
  eapply HQ; [done| |exact Ha2|pose proof (bmap_nonneg s1 L1); lia].
  eapply growing_weaken; [| |exact (growing_trans _ _ _ _ _ _ _ _ _ _ _ _ _ _ _ _ L Hf Hi G1 G2)]; [|lia].
  intros x Hx. rewrite EB1 in Hx. apply elem_of_app in Hx as [Hx|Hx]; [done|]. apply HW in Hx.
  rewrite !elem_of_cons in *. rewrite ?elem_of_nil in *. tauto.
Qed.

(** [bmap] gives the block of the file, after adding it when it was missing. *)
Lemma wp_bmap (fuel_pos : (0 < wakeups)%nat) s bs V i bn (Q : Z -> ctx -> fsst -> Prop) c :
  held c = [] -> tr s bs V [] -> layout s -> meta_used s V -> is_Some (icache s !! i) -> file_ok s V (iof i s) ->
  0 <= bn < MAXFILE -> free s V 2 -> (length (bs_add (bmapblock s) bs) <= 26)%nat ->
  (forall a c' s' bs' V' p', held c' = [] -> growing s bs V i [bmapblock s; ind_of p'; a] 2 s' bs' V' p' ->
     addr_of V' p' bn = a -> a <> 0 -> (addr_of V (iof i s) bn <> 0 -> p' = iof i s) -> Q a c' s') ->
  wp (bmap i bn) Q c s.
Proof.
  intros Hc T L Hmeta Hi Hf Hb Hfree Hbs HQ. set (p := iof i s) in *. pose proof Hf as [Hl Hdev Hm].
  pose proof (bmap_nonneg s L) as HB. pose proof (tr_bmap_len _ _ _ _ T L) as HBl.
  pose proof (lo_disk s L) as Hd. pose proof (lo_one s L) as Hone.
  pose proof (bs_add_length (bmapblock s) bs) as Hlen. assert (Hfree1 : free s V 1) by (eapply free_weaken; [|exact Hfree]; lia).
  destruct (Z.eq_dec (addr_of V p bn) 0) as [Hz|Hz].
  2:{ apply (wp_bmap_mapped fuel_pos s bs V); try done; [lia|unfold NBUF; lia|]. intros c' s' Hc' T' F'.
      apply (HQ _ c' s' bs V p); [done| |done|done|done].
      destruct (growing_none s bs V i T Hi Hf Hmeta) as [_ F0 G0 B0 M0 Fr0].
      split; [done|eapply frame_trans; eauto|done|intros x Hx; rewrite elem_of_app; auto| |].
      - intros m. unfold used. rewrite (frame_bmap _ _ F'). apply Hmeta.
      - intros k Hk. apply (free_frame s s' V k F'). eapply free_weaken; [|exact Hk]. lia. }
  destruct (Z.ltb_spec bn NDIRECT) as [Hdir|Hdir].
  - assert (Hz' : aget 0 (i_addrs p) bn = 0) by (unfold addr_of in Hz; now rewrite (proj2 (Z.ltb_lt _ _) Hdir) in Hz).
    unfold bmap. apply wp_bind, wp_gets. fold p. rewrite (proj2 (Z.ltb_lt _ _) Hdir), Hz', Hdev. cbn [Z.eqb].
    eapply (wp_alloc_slot fuel_pos s bs V i bn); [done..|lia|]. intros n c1 s1 Hc1 Hn Hnf T1 F1.
    pose proof (grow_direct (bmapblock s) (disksize (bio_of s)) V p n ltac:(lia) ltac:(lia) HBl Hl Hm Hn Hnf bn ltac:(lia) Hz) as G.
    eapply (HQ n c1 s1 _ (alloc_V (bmapblock s) V n) (iset_addrs (aset (i_addrs p) bn n) p));
      [done| |now rewrite addr_direct, Z.eqb_refl by (done || lia)|lia|done].
    eapply growing_weaken; [| |apply growing_slot; done]; [|lia].
    intros x Hx. rewrite !elem_of_cons in *. tauto.
  - assert (HQ' : forall a c' s' bs' V' p', held c' = [] -> growing s bs V i [bmapblock s; ind_of p'; a] 2 s' bs' V' p' ->
      addr_of V' p' bn = a -> a <> 0 -> Q a c' s') by (intros a c' s' bs' V' p' H1 H2 H3 H4; apply (HQ a c' s' bs' V' p' H1 H2 H3 H4); done).
    unfold wp. rewrite bmap_unfold_ind by lia. fold p. rewrite Hdev.
    match goal with |- match ?m c s with _ => _ end => change (wp m Q c s) end.
    apply wp_bind. destruct (Z.eqb_spec (ind_of p) 0) as [Hi0|Hi0].
    + eapply (wp_alloc_slot fuel_pos s bs V i NDIRECT); [done..|lia|]. intros n c1 s1 Hc1 Hn Hnf T1 F1.
      pose proof (grow_ind (bmapblock s) (disksize (bio_of s)) V p n ltac:(lia) ltac:(lia) HBl Hl Hm Hn Hnf Hi0) as G.
      set (p1 := iset_addrs (aset (i_addrs p) NDIRECT n) p) in *.
      assert (En : ind_of p1 = n) by (unfold p1, ind_of; cbn; apply aget_aset_eq; rewrite Hl; unfold NDIRECT; lia).
      rewrite <- En.
      eapply (wp_bmap_rest fuel_pos s bs V i bn [bmapblock s; n] s1 _ _ p1); try done;
        [lia|apply growing_slot; done|now rewrite En|lia|].
      unfold p1. rewrite addr_new_ind by (done || apply alloc_V_new).
      rewrite (alloc_addr (bmapblock s) (disksize (bio_of s))); try done; lia.
    + apply wp_ret. eapply (wp_bmap_rest fuel_pos s bs V i bn [] s bs V p); try done; [lia| |].
      * eapply growing_weaken; [| |apply growing_none; done]; [done|lia].
      * intros x Hx%elem_of_nil. done.
Qed.
End Bmap.
