(* ===== verification/FsRw.v ===== *)
(** fs.c: [readi] and [writei] refine reading and writing an array of bytes. *)
From S2P Require Import Prelude Monad Mem Mmu Sleeplock Disk Bio Bcache Log LogProps Fs FsTrans.
From S2P Require Import FsAlloc FsData FsFile.

(** * Bytes of a file *)

Definition fbytes (V : Z -> block) (A : Z -> Z) (off n : Z) : list Z :=
  (fun k => fb V A (off + k)) <$> zrange (Z.to_nat n).

Lemma length_fbytes V A off n : length (fbytes V A off n) = Z.to_nat n.
Proof. unfold fbytes. now rewrite length_fmap, length_zrange. Qed.

Lemma fbytes_lookup V A off n (i : nat) :
  (i < Z.to_nat n)%nat -> fbytes V A off n !! i = Some (fb V A (off + Z.of_nat i)).
Proof. intros Hi. unfold fbytes, zrange. rewrite !list_lookup_fmap, lookup_seq_lt by done. done. Qed.

Lemma fbytes_app V A off n m : 0 <= n -> 0 <= m ->
  fbytes V A off (n + m) = fbytes V A off n ++ fbytes V A (off + n) m.
Proof.
  intros Hn Hm. apply list_eq_same_length with (Z.to_nat (n + m)).
  - rewrite length_app, !length_fbytes. lia.
  - apply length_fbytes.
  - intros i x y Hi. rewrite fbytes_lookup by done. rewrite lookup_app.
    intros [= <-]. destruct (decide (i < Z.to_nat n)%nat).
    + rewrite fbytes_lookup by done. now intros [= <-].
    + rewrite lookup_ge_None_2, length_fbytes by (rewrite length_fbytes; lia).
      rewrite fbytes_lookup by lia. intros [= <-]. f_equal. lia.
Qed.

Lemma fbytes_ext V A V' A' off n :
  (forall k, off <= k < off + n -> fb V' A' k = fb V A k) -> fbytes V' A' off n = fbytes V A off n.
Proof.
  intros H. apply list_fmap_ext. intros i k Hk. apply zrange_lookup in Hk as [-> Hk]. apply H. lia.
Qed.

(** A stretch inside one block. *)
Lemma fbytes_block V A off m :
  0 <= off -> 0 <= m -> off mod BSIZE + m <= BSIZE -> A (off / BSIZE) <> 0 -> length (V (A (off / BSIZE))) = 512%nat ->
  bytes_at (V (A (off / BSIZE))) (off mod BSIZE) m = fbytes V A off m.
Proof.
  intros H0 Hm Hfit Ha Hl. pose proof (Z.mod_pos_bound off BSIZE ltac:(done)) as Hr. unfold BSIZE in *.
  apply list_eq_same_length with (Z.to_nat m).
  - apply length_fbytes.
  - apply length_bytes_at; lia.
  - intros i x y Hi. rewrite bytes_at_lookup, fbytes_lookup by lia. destruct (decide _); [|lia].
    intros Hx [= <-]. unfold fb, BSIZE.
    assert (Ed : (off + Z.of_nat i) / 512 = off / 512).
    { rewrite (Z.div_mod off 512) at 1 by lia. rewrite Z.mul_comm, <- Z.add_assoc, Z.div_add_l by lia.
      rewrite (Z.div_small (off mod 512 + _)) by lia. lia. }
    assert (Em : (off + Z.of_nat i) mod 512 = off mod 512 + Z.of_nat i).
    { rewrite Z.mod_eq, Ed by lia. pose proof (Z.div_mod off 512 ltac:(lia)). lia. }
    rewrite Ed, Em. rewrite (proj2 (Z.eqb_neq _ _) Ha). unfold aget.
    replace (Z.to_nat (off mod 512 + Z.of_nat i)) with (Z.to_nat (off mod 512) + i)%nat by lia. now rewrite Hx.
Qed.

(** The blocks a stretch of a file touches. *)
Lemma block_range off : 0 <= off < MAXFILE * BSIZE -> 0 <= off / BSIZE < MAXFILE.
Proof. intros H. split; [apply Z.div_pos; unfold BSIZE; lia|]. apply Z.div_lt_upper_bound; unfold BSIZE in *; lia. Qed.

Lemma set_bytes_set_bytes l tot b1 b2 :
  0 <= tot -> set_bytes (set_bytes l tot b1) (tot + Z.of_nat (length b1)) b2 = set_bytes l tot (b1 ++ b2).
Proof.
  intros H. unfold set_bytes. replace (Z.to_nat (tot + Z.of_nat (length b1))) with (Z.to_nat tot + length b1)%nat by lia.
  apply list_eq. intros i.
  destruct (decide (i < length l)%nat) as [Hi|Hi].
  2:{ rewrite !lookup_ge_None_2; [done|..]; rewrite ?length_inserts; lia. }
  destruct (decide (i < Z.to_nat tot)%nat).
  { rewrite !list_lookup_inserts_lt by lia. done. }
  destruct (decide (i < Z.to_nat tot + length b1)%nat).
  - rewrite list_lookup_inserts_lt, !list_lookup_inserts by (rewrite ?length_app; lia).
    rewrite lookup_app_l by lia. done.
  - destruct (decide (i < Z.to_nat tot + length b1 + length b2)%nat).
    + rewrite !list_lookup_inserts by (rewrite ?length_app, ?length_inserts; lia).
      rewrite lookup_app_r by lia. f_equal. lia.
    + rewrite !list_lookup_inserts_ge by (rewrite ?length_app; lia). done.
Qed.

Lemma set_bytes_nil l tot : set_bytes l tot [] = l.
Proof. unfold set_bytes. done. Qed.

(** One round of the loops of [readi] and [writei]: [k] bytes to go, [r + 1]
    rounds left. *)
Lemma round_step off k r :
  0 <= off -> 0 < k -> k + off mod BSIZE <= Z.of_nat (S r) * BSIZE ->
  let m := Z.min k (BSIZE - off mod BSIZE) in
  0 < m <= k /\ (m < k -> (off + m) mod BSIZE = 0 /\ k - m <= Z.of_nat r * BSIZE).
Proof.
  intros Ho Hk Hr m. pose proof (Z.mod_pos_bound off BSIZE ltac:(done)) as Hm. unfold BSIZE in *.
  split; [lia|]. intros Hlt. assert (Em : m = 512 - off mod 512) by lia. rewrite Em.
  split; [|lia].
  rewrite (Z.div_mod off 512) at 1 by lia. replace (512 * (off / 512) + off mod 512 + (512 - off mod 512))
    with ((off / 512 + 1) * 512) by lia. apply Z.mod_mul. lia.
Qed.

(** * Reading *)

(** No holes below the size. *)
Definition dense (V : Z -> block) (p : inode) : Prop :=
  forall k, 0 <= k < i_size p -> addr_of V p (k / BSIZE) <> 0.

Section Read.
Context {fuel : Fuel} `{Devices fsst}.
Hypothesis fuel_pos : (0 < wakeups)%nat.

Lemma wp_readi_from s bs V i r l tot off n (Q : list Z -> ctx -> fsst -> Prop) c :
  held c = [] -> tr s bs V [] -> layout s -> file_ok s V (iof i s) -> dense V (iof i s) ->
  i_size (iof i s) <= MAXFILE * BSIZE -> (length bs < NBUF)%nat ->
  0 <= tot <= n -> 0 <= off -> off + (n - tot) <= i_size (iof i s) ->
  (tot < n -> n - tot + off mod BSIZE <= Z.of_nat r * BSIZE) ->
  (forall c' s', held c' = [] -> tr s' bs V [] -> frame s s' ->
     Q (set_bytes l tot (fbytes V (addr_of V (iof i s)) off (n - tot))) c' s') ->
  wp (readi_from r to_local l i tot off n) Q c s.
Proof.
  revert s l tot off c. induction r as [|r IH]; intros s l tot off c Hc T L Hf Hd Hsz Hroom Ht Ho Hfit Hr HQ;
    cbn [readi_from]; pose proof (Z.mod_pos_bound off BSIZE ltac:(done)) as Hm;
    (destruct (Z.ltb_spec tot n) as [Hlt|Hge];
     [|apply wp_ret; replace (n - tot) with 0 in HQ by lia; change (fbytes V _ off 0) with (@nil Z) in HQ;
       rewrite set_bytes_nil in HQ; now apply HQ]).
  { specialize (Hr Hlt). unfold BSIZE in *. lia. }
  specialize (Hr Hlt). set (p := iof i s) in *. set (m := Z.min (n - tot) (BSIZE - off mod BSIZE)).
  assert (Hk : 0 <= off < MAXFILE * BSIZE) by lia. pose proof (block_range off Hk) as Hb.
  assert (Ha : addr_of V p (off / BSIZE) <> 0) by (apply Hd; fold p; lia).
  pose proof Hf as [_ Hdev Hmap]. destruct (fm_data _ _ _ _ _ Hmap _ Hb Ha) as [Hrange _].
  pose proof (bmap_nonneg s L) as HB.
  apply wp_bind, wp_gets. fold p. apply wp_bind. eapply wp_bmap_mapped; [done|done|exact T|done|done|done|lia|done|].
  fold p. intros c1 s1 Hc1 T1 F1. rewrite Hdev. apply wp_bind.
  eapply wp_fbread; [done|done|exact T1|apply not_elem_of_nil|rewrite (fr_disk _ _ F1); lia|right; cbn; lia|].
  intros b s2 T2 F2. apply wp_bind. eapply wp_fdata; [exact T2|left|].
  rewrite fbytes_block by (done || lia || (apply (tr_block_ok _ _ _ _ _ T); lia)).
  apply wp_bind, wp_ret. apply wp_bind. eapply wp_fbrelse; [done|exact T2|done|]. intros c3 s3 Hc3 T3 F3.
  assert (F13 : frame s s3) by eauto using frame_trans. assert (Ep : iof i s3 = p) by now apply frame_iof.
  destruct (round_step off (n - tot) r Ho ltac:(lia) Hr) as [Hm0 Hm1]. fold m in Hm0, Hm1.
  apply IH; rewrite ?Ep; try done; try lia.
  - exact (layout_frame _ _ F13 L).
  - exact (file_ok_frame _ _ _ _ F13 Hf).
  - intros c' s' Hc' T' F'. replace (set_bytes (set_bytes l tot (fbytes V (addr_of V p) off m)) (tot + m) _)
      with (set_bytes l tot (fbytes V (addr_of V p) off (n - tot))); [apply HQ; eauto using frame_trans|].
    replace (n - tot) with (m + (n - (tot + m))) by lia. rewrite fbytes_app by lia.
    rewrite <- set_bytes_set_bytes by lia. rewrite length_fbytes, Z2Nat.id by lia. done.
Qed.
End Read.
