(* ===== verification/FsInode.v ===== *)
(** fs.c: the on-disk inodes.  [iupdate] stores the cached inode in its block,
    [ilock] loads it back, and both leave the other inodes of the block alone. *)
From S2P Require Import Prelude Monad Mem Mmu Sleeplock Disk Bio Bcache Log LogProps Fs FsTrans.
From S2P Require Import FsAlloc FsData FsFile FsRw.

(** * The layout of struct dinode *)

Definition dinode_bytes (p : inode) : list Z :=
  le_bytes 2 (i_type p) ++ le_bytes 2 (i_major p) ++ le_bytes 2 (i_minor p) ++ le_bytes 2 (i_nlink p) ++
  le_bytes 4 (i_size p) ++ mjoin ((fun k => le_bytes 4 (aget 0 (i_addrs p) k)) <$> zrange 13).

Lemma length_dinode_bytes p : length (dinode_bytes p) = 64%nat.
Proof. reflexivity. Qed.

Lemma set_bytes_next l off off' b1 b2 :
  0 <= off -> off' = off + Z.of_nat (length b1) -> set_bytes (set_bytes l off b1) off' b2 = set_bytes l off (b1 ++ b2).
Proof. intros H ->. now apply set_bytes_set_bytes. Qed.

Lemma dinode_store_bytes d off p : 0 <= off -> dinode_store d off p = set_bytes d off (dinode_bytes p).
Proof.
  intros Ho. unfold dinode_store, dinode_bytes. cbn [zrange seq fmap list_fmap fold_left mjoin list_join].
  unfold wr16, wr32. rewrite !set_bytes_next by (rewrite ?length_app, ?length_le_bytes; lia).
  now rewrite app_nil_r, <- ?app_assoc.
Qed.

(** Bytes inside what was stored. *)
Lemma bytes_at_inside d off bs j n :
  0 <= off -> 0 <= j -> 0 <= n -> j + n <= Z.of_nat (length bs) -> off + Z.of_nat (length bs) <= Z.of_nat (length d) ->
  bytes_at (set_bytes d off bs) (off + j) n = bytes_at bs j n.
Proof.
  intros Ho Hj Hn Hfit Hl. apply list_eq. intros i. rewrite !bytes_at_lookup by lia. destruct (decide _); [|done].
  unfold set_bytes. rewrite list_lookup_inserts by lia. f_equal. lia.
Qed.

(** The fields of an inode fit in the on-disk ones. *)
Record dinode_fits (p : inode) : Prop := {
  df_type : s16 (i_type p) = i_type p;
  df_major : s16 (i_major p) = i_major p;
  df_minor : s16 (i_minor p) = i_minor p;
  df_nlink : s16 (i_nlink p) = i_nlink p;
  df_size : is_u32 (i_size p);
  df_len : length (i_addrs p) = 13%nat;
  df_addrs : Forall is_u32 (i_addrs p)
}.

Definition same_key (p q : inode) : Prop :=
  i_dev p = i_dev q /\ i_inum p = i_inum q /\ i_ref p = i_ref q /\ i_locked p = i_locked q /\ i_valid p = i_valid q.

Lemma s16_u16 z : s16 (u16 z) = s16 z.
Proof. unfold s16, u16. now rewrite Zmod_mod. Qed.

Lemma dinode_load_store d off p q :
  0 <= off -> off + 64 <= Z.of_nat (length d) -> dinode_fits p -> same_key p q ->
  dinode_load (dinode_store d off p) off q = p.
Proof.
  intros Ho Hl [F1 F2 F3 F4 F5 F6 F7] (K1 & K2 & K3 & K4 & K5). rewrite dinode_store_bytes by done.
  assert (R : forall j n, 0 <= j -> 0 <= n -> j + n <= 64 ->
    bytes_at (set_bytes d off (dinode_bytes p)) (off + j) n = bytes_at (dinode_bytes p) j n).
  { intros j n Hj Hn Hfit. apply bytes_at_inside; rewrite ?length_dinode_bytes; lia. }
  assert (R16 : forall j, 0 <= j -> j + 2 <= 64 -> rd16 (set_bytes d off (dinode_bytes p)) (off + j) = rd16 (dinode_bytes p) j).
  { intros j Hj Hf. unfold rd16. now rewrite R. }
  assert (R32 : forall j, 0 <= j -> j + 4 <= 64 -> rd32 (set_bytes d off (dinode_bytes p)) (off + j) = rd32 (dinode_bytes p) j).
  { intros j Hj Hf. unfold rd32. now rewrite R. }
  assert (E16 : forall j w, 0 <= j -> j + 2 <= 64 -> s16 w = w -> rd16 (dinode_bytes p) j = le_val (le_bytes 2 w) ->
    s16 (rd16 (set_bytes d off (dinode_bytes p)) (off + j)) = w).
  { intros j w Hj Hf Hw E. rewrite R16, E, le_val_bytes by done. change (s16 (u16 w) = w). now rewrite s16_u16. }
  assert (E32 : forall j w, 0 <= j -> j + 4 <= 64 -> is_u32 w -> rd32 (dinode_bytes p) j = le_val (le_bytes 4 w) ->
    rd32 (set_bytes d off (dinode_bytes p)) (off + j) = w).
  { intros j w Hj Hf Hw E. rewrite R32, E, le_val_bytes by done. now apply u32_small. }
  destruct p as [dev inum ref lk vl ty ma mi nl sz addrs]; cbn [i_dev i_inum i_ref i_locked i_valid i_type i_major i_minor i_nlink i_size i_addrs] in *.
  subst. unfold dinode_load. f_equal.
  1: rewrite <- (Z.add_0_r off) at 2.
  1-5: first [apply E16 | apply E32]; done || reflexivity.
  do 13 (destruct addrs as [|? addrs]; [done|]). destruct addrs; [|done]. rewrite !Forall_cons in F7.
  destruct_and! F7. cbn [zrange seq fmap list_fmap].
  rewrite <- !(Z.add_assoc off 12).
  do 12 (f_equal; [apply E32; [lia|lia|done|reflexivity]|]). f_equal. apply E32; [lia|lia|done|reflexivity].
Qed.

(** The type of the inode, which [ialloc] tests. *)
Lemma dinode_store_type d off p :
  0 <= off -> off + 64 <= Z.of_nat (length d) -> rd16 (dinode_store d off p) off = u16 (i_type p).
Proof.
  intros Ho Hl. rewrite dinode_store_bytes by done. unfold rd16. rewrite <- (Z.add_0_r off) at 2.
  rewrite bytes_at_inside by (rewrite ?length_dinode_bytes; lia).
  change (le_val (le_bytes 2 (i_type p)) = u16 (i_type p)). apply le_val_bytes.
Qed.

(** An inode with another number is in another place. *)
Lemma dinode_load_other d off off' p q :
  0 <= off -> 0 <= off' -> off' + 64 <= off \/ off + 64 <= off' -> dinode_load (dinode_store d off p) off' q = dinode_load d off' q.
Proof.
  intros Ho Ho' Hd. rewrite dinode_store_bytes by done.
  assert (R : forall j n, 0 <= j -> 0 <= n -> j + n <= 64 ->
    bytes_at (set_bytes d off (dinode_bytes p)) (off' + j) n = bytes_at d (off' + j) n).
  { intros j n Hj Hn Hfit. apply bytes_at_set_ne; rewrite ?length_dinode_bytes; lia. }
  unfold dinode_load, rd16, rd32. rewrite !R by lia. rewrite <- (Z.add_0_r off') at 1. rewrite R, Z.add_0_r by lia.
  f_equal. apply list_fmap_ext. intros j k Hk. apply zrange_lookup in Hk as [-> Hk]. rewrite <- Z.add_assoc, R by lia. done.
Qed.

Lemma dinode_store_ok d off p : 0 <= off -> block_ok d -> block_ok (dinode_store d off p).
Proof.
  intros Ho Hd. rewrite dinode_store_bytes by done. apply set_bytes_ok; [done|]. unfold dinode_bytes.
  rewrite !Forall_app. split_and!; try apply le_bytes_range. apply Forall_join, Forall_fmap, Forall_forall.
  intros k _. apply le_bytes_range.
Qed.

Lemma dinode_off_range inum : 0 <= dinode_off inum /\ dinode_off inum + 64 <= 512.
Proof.
  unfold dinode_off. pose proof (Z.mod_pos_bound inum IPB ltac:(done)). change IPB with 8 in *. unfold DINODE_SIZE. lia.
Qed.

(** Two inodes in the same block are at different places. *)
Lemma dinode_off_other inum inum' :
  inum <> inum' -> inum / IPB = inum' / IPB ->
  dinode_off inum' + 64 <= dinode_off inum \/ dinode_off inum + 64 <= dinode_off inum'.
Proof.
  intros Hn E. pose proof (Z.div_mod inum IPB ltac:(done)). pose proof (Z.div_mod inum' IPB ltac:(done)).
  unfold dinode_off, DINODE_SIZE. rewrite E in *. lia.
Qed.

(** * The block of an inode *)

Definition inum_ok (s : fsst) (inum : Z) : Prop := 0 <= inum < sb_ninodes (fs_sb s).

Lemma IBLOCK_eq s inum : layout s -> inum_ok s inum -> IBLOCK inum (fs_sb s) = inum / IPB + sb_inodestart (fs_sb s).
Proof.
  intros L Hi. pose proof (lo_inodes s L). pose proof (lo_bmap s L). pose proof (lo_one s L).
  pose proof (lo_log s L). pose proof (lo_super s L). pose proof (lo_logsize s L).
  unfold inum_ok in Hi. pose proof (Z.div_le_mono inum (sb_ninodes (fs_sb s)) IPB ltac:(done) ltac:(lia)).
  pose proof (Z.div_pos inum IPB ltac:(lia) ltac:(done)).
  apply u32_small. unfold is_u32, BPB, BSIZE, LOGSIZE, MAXOPBLOCKS in *. lia.
Qed.

Lemma IBLOCK_range s inum :
  layout s -> inum_ok s inum -> lg_start (fs_log s) + lg_size (fs_log s) <= IBLOCK inum (fs_sb s) < bmapblock s.
Proof.
  intros L Hi. rewrite IBLOCK_eq by done. pose proof (lo_inodes s L). pose proof (lo_log s L). unfold bmapblock, inum_ok in *.
  pose proof (Z.div_le_mono inum (sb_ninodes (fs_sb s)) IPB ltac:(done) ltac:(lia)).
  pose proof (Z.div_pos inum IPB ltac:(lia) ltac:(done)). lia.
Qed.

Lemma IBLOCK_pos s inum : layout s -> inum_ok s inum -> 0 < IBLOCK inum (fs_sb s) < disksize (bio_of s).
Proof.
  intros L Hi. pose proof (IBLOCK_range s inum L Hi). pose proof (bmap_nonneg s L). pose proof (lo_super s L).
  pose proof (lo_logsize s L). unfold LOGSIZE, MAXOPBLOCKS in *. lia.
Qed.

(** What [ilock] would load is what the cache has. *)
Definition on_disk (s : fsst) (V : Z -> block) (p : inode) : Prop :=
  dinode_load (V (IBLOCK (i_inum p) (fs_sb s))) (dinode_off (i_inum p)) p = p.

(** The contents after [iupdate]. *)
Definition update_V (s : fsst) (V : Z -> block) (p : inode) : Z -> block :=
  let n := IBLOCK (i_inum p) (fs_sb s) in vset V n (dinode_store (V n) (dinode_off (i_inum p)) p).

Section Iupdate.
Context {fuel : Fuel}.

Lemma wp_iupdate (fuel_pos : (0 < wakeups)%nat) s bs V i (Q : unit -> ctx -> fsst -> Prop) c :
  let p := iof i s in
  held c = [] -> tr s bs V [] -> layout s -> i_dev p = 1 -> inum_ok s (i_inum p) -> (length bs <= 28)%nat ->
  (forall c' s', held c' = [] -> tr s' (bs_add (IBLOCK (i_inum p) (fs_sb s)) bs) (update_V s V p) [] -> frame s s' -> Q tt c' s') ->
  wp (iupdate i) Q c s.
Proof.
  intros p Hc T L Hdev Hi Hbs HQ. pose proof (IBLOCK_range s _ L Hi) as Hr. pose proof (IBLOCK_pos s _ L Hi) as Hp.
  pose proof (dinode_off_range (i_inum p)) as Ho.
  unfold iupdate. apply wp_bind, wp_gets, wp_bind, wp_gets. fold p. rewrite Hdev.
  apply wp_bind. eapply wp_fbread; [done|done|exact T|apply not_elem_of_nil|lia|right; cbn; unfold NBUF; lia|].
  intros b s1 T1 F1. apply wp_bind. eapply wp_fdata; [exact T1|left|].
  apply wp_bind. eapply wp_fput; [exact T1|apply dinode_store_ok; [lia|apply (tr_block_ok _ _ _ _ _ T); lia]|].
  intros s2 T2 F2. assert (F12 : frame s s2) by eauto using frame_trans.
  apply wp_bind. eapply wp_flog_write; [done|exact T2| | | |].
  { rewrite (fr_size _ _ F12). apply L. }
  { unfold LOGSIZE, MAXOPBLOCKS. lia. }
  { rewrite (fr_start _ _ F12), (fr_size _ _ F12). lia. }
  intros s3 T3 F3. eapply wp_fbrelse; [done|exact T3|now rewrite vset_eq|]. intros c4 s4 Hc4 T4 F4.
  apply HQ; [done|exact T4|eauto using frame_trans].
Qed.
End Iupdate.

(** After [iupdate] the inode is on the disk, and the others are as before. *)
Lemma update_on_disk s bs V H p :
  tr s bs V H -> layout s -> inum_ok s (i_inum p) -> dinode_fits p -> on_disk s (update_V s V p) p.
Proof.
  intros T L Hi Hf. unfold on_disk, update_V. rewrite vset_eq. pose proof (dinode_off_range (i_inum p)) as Ho.
  apply dinode_load_store; [lia| |done|done].
  destruct (tr_block_ok _ _ _ _ (IBLOCK (i_inum p) (fs_sb s)) T ltac:(pose proof (IBLOCK_pos s _ L Hi); lia)) as [-> _]. lia.
Qed.

Lemma update_other s V p q :
  layout s -> inum_ok s (i_inum p) -> inum_ok s (i_inum q) -> i_inum p <> i_inum q ->
  on_disk s V q -> on_disk s (update_V s V p) q.
Proof.
  intros L Hp Hq Hn. unfold on_disk, update_V. set (np := IBLOCK (i_inum p) (fs_sb s)). set (nq := IBLOCK (i_inum q) (fs_sb s)).
  destruct (Z.eq_dec nq np) as [E|E]; [|now rewrite vset_ne]. rewrite E, vset_eq.
  pose proof (dinode_off_range (i_inum p)). pose proof (dinode_off_range (i_inum q)).
  rewrite dinode_load_other; [done|lia|lia|]. apply dinode_off_other; [done|].
  unfold np, nq in E. rewrite !IBLOCK_eq in E by done. lia.
Qed.
