(* ===== verification/FsWrite.v ===== *)
(** fs.c: [writei] changes the bytes it is given and no others, grows the file
    when it has to, and keeps its promise of how many blocks it logs. *)
From S2P Require Import Prelude Monad Mem Mmu Sleeplock Disk Bio Bcache Log LogProps Fs FsTrans.
From S2P Require Import FsAlloc FsData FsFile FsRw.

(** * Bytes *)

(** The bytes [d] written at [off] over the bytes [f]. *)
Definition overlay (f : Z -> Z) (off : Z) (d : list Z) (k : Z) : Z :=
  if (off <=? k) && (k <? off + Z.of_nat (length d)) then aget 0 d (k - off) else f k.

Lemma overlay_nil f off k : overlay f off [] k = f k.
Proof. unfold overlay. cbn [length]. destruct (Z.leb_spec off k), (Z.ltb_spec k (off + Z.of_nat 0)); cbn [andb]; lia || done. Qed.

Lemma overlay_app f off d1 d2 k :
  overlay (overlay f off d1) (off + Z.of_nat (length d1)) d2 k = overlay f off (d1 ++ d2) k.
Proof.
  unfold overlay, aget. rewrite length_app, Nat2Z.inj_add.
  destruct (Z.leb_spec off k), (Z.leb_spec (off + Z.of_nat (length d1)) k); cbn [andb]; try lia.
  - rewrite Z.add_assoc. destruct (Z.ltb_spec k (off + Z.of_nat (length d1) + Z.of_nat (length d2))).
    + rewrite lookup_app_r by lia. do 2 f_equal. lia.
    + destruct (Z.ltb_spec k (off + Z.of_nat (length d1))); [lia|done].
  - destruct (Z.ltb_spec k (off + Z.of_nat (length d1))); [|lia].
    destruct (Z.ltb_spec k (off + (Z.of_nat (length d1) + Z.of_nat (length d2)))); [|lia].
    rewrite lookup_app_l by lia. done.
Qed.

Lemma aget_set_bytes (d : block) off bs j :
  0 <= off -> 0 <= j < Z.of_nat (length d) -> off + Z.of_nat (length bs) <= Z.of_nat (length d) ->
  aget 0 (set_bytes d off bs) j = overlay (aget 0 d) off bs j.
Proof.
  intros Ho Hj Hfit. unfold overlay, aget, set_bytes.
  destruct (Z.leb_spec off j); cbn [andb]; [|rewrite list_lookup_inserts_lt by lia; done].
  destruct (Z.ltb_spec j (off + Z.of_nat (length bs))).
  - rewrite list_lookup_inserts by lia. do 2 f_equal. lia.
  - rewrite list_lookup_inserts_ge by lia. done.
Qed.

(** * Writing as a step on the contents *)

Record wrote (B N : Z) (V : Z -> block) (p : inode) (off : Z) (d : list Z) (V' : Z -> block) (p' : inode) : Prop := {
  wt_inode : p' = iset_addrs (i_addrs p') p;
  wt_len : length (i_addrs p') = 13%nat;
  wt_map : fmap_ok B N V' (addr_of V' p') (ind_of p');
  wt_bytes k : 0 <= k < MAXFILE * BSIZE -> fb V' (addr_of V' p') k = overlay (fb V (addr_of V p)) off d k;
  wt_bits m : 0 <= m -> bit_of (V B) m = true -> bit_of (V' B) m = true;
  wt_other m : 0 <= m -> bit_of (V B) m = true -> m <> B -> m <> ind_of p ->
    (forall bn, 0 <= bn < MAXFILE -> addr_of V p bn <> 0 -> addr_of V p bn <> m) -> V' m = V m;
  wt_keep bn : 0 <= bn < MAXFILE -> addr_of V p bn <> 0 -> addr_of V' p' bn = addr_of V p bn;
  wt_new bn : 0 <= bn < MAXFILE -> addr_of V p bn = 0 -> addr_of V' p' bn <> 0 -> bit_of (V B) (addr_of V' p' bn) = false;
  wt_ind : ind_of p' = ind_of p \/ ind_of p = 0 /\ 0 <= ind_of p' /\ bit_of (V B) (ind_of p') = false;
  wt_mapped k : off <= k < off + Z.of_nat (length d) -> addr_of V' p' (k / BSIZE) <> 0
}.

Lemma wrote_grown B N V p off V' p' : grown B N V p V' p' -> wrote B N V p off [] V' p'.
Proof.
  intros [H1 H2 H3 H4 H5 H6 H7 H8 H9]. split; auto.
  - intros k Hk. rewrite overlay_nil. auto.
  - cbn [length]. lia.
Qed.

Lemma wrote_trans B N V p off d1 V1 p1 d2 V2 p2 :
  0 < B -> 0 <= off -> off + Z.of_nat (length (d1 ++ d2)) <= MAXFILE * BSIZE ->
  wrote B N V p off d1 V1 p1 -> wrote B N V1 p1 (off + Z.of_nat (length d1)) d2 V2 p2 -> wrote B N V p off (d1 ++ d2) V2 p2.
Proof.
  intros HB Ho Hfit [A1 A2 A3 A4 A5 A6 A7 A8 A9 A10] [C1 C2 C3 C4 C5 C6 C7 C8 C9 C10].
  rewrite length_app in Hfit.
  assert (Hback : forall m, 0 <= m -> bit_of (V1 B) m = false -> bit_of (V B) m = false).
  { intros m Hm Hb. destruct (bit_of (V B) m) eqn:E; [|done]. apply A5 in E; [congruence|done]. }
  split; auto.
  - rewrite C1, A1. now destruct p.
  - intros k Hk. rewrite C4 by done. rewrite <- overlay_app. unfold overlay at 1 2. rewrite A4 by done. done.
  - intros m Hm Hb HB' Hi Hd. rewrite C6; auto.
    + intros ->. destruct A9 as [E|(E0 & E1 & E2)]; congruence.
    + intros bn Hbn Hz E. destruct (Z.eq_dec (addr_of V p bn) 0) as [E0|E0].
      * rewrite <- E, A8 in Hb; done.
      * rewrite A7 in E by done. now apply (Hd bn).
  - intros bn Hb Hz. rewrite C7; auto. now rewrite A7.
  - intros bn Hb Hz Hz2. destruct (Z.eq_dec (addr_of V1 p1 bn) 0) as [E|E]; [|rewrite C7 in * by done; now apply A8].
    destruct (fm_data _ _ _ _ _ C3 bn Hb Hz2) as [Hr _]. apply Hback; [lia|]. now apply C8.
  - destruct A9 as [E|(E0 & E1 & E2)], C9 as [E'|(E0' & E1' & E2')]; try (left; congruence); right.
    + split_and!; [congruence|done|now apply Hback].
    + rewrite E'. done.
    + split_and!; [done|done|now apply Hback].
  - intros k Hk. rewrite length_app in Hk. destruct (Z.ltb_spec k (off + Z.of_nat (length d1))).
    + rewrite C7; [apply A10; lia|apply block_range; lia|apply A10; lia].
    + apply C10. lia.
Qed.

Section Block.
Variables (B N : Z) (V : Z -> block) (p : inode) (off : Z) (d : list Z).
Hypothesis B_pos : 0 < B.
Hypothesis addrs_len : length (i_addrs p) = 13%nat.
Hypothesis map_ok : fmap_ok B N V (addr_of V p) (ind_of p).
Hypothesis off_range : 0 <= off < MAXFILE * BSIZE.
Hypothesis one_block : off mod BSIZE + Z.of_nat (length d) <= BSIZE.
Let a := addr_of V p (off / BSIZE).
Hypothesis mapped : a <> 0.
Hypothesis a_len : length (V a) = 512%nat.
Let V' := vset V a (set_bytes (V a) (off mod BSIZE) d).

Lemma write_data : is_data B N V a.
Proof. apply (fm_data _ _ _ _ _ map_ok); [now apply block_range|done]. Qed.

Lemma write_addr bn : 0 <= bn < MAXFILE -> addr_of V' p bn = addr_of V p bn.
Proof.
  intros Hb. unfold addr_of. destruct (bn <? NDIRECT); [done|]. destruct (Z.eqb_spec (ind_of p) 0) as [|Hi]; [done|].
  unfold V'. rewrite vset_ne; [done|]. apply not_eq_sym, (fm_ind_ne _ _ _ _ _ map_ok); [now apply block_range|done].
Qed.

(** Offsets and positions in a block. *)
Lemma same_block k : 0 <= k -> k / BSIZE = off / BSIZE -> k - off = k mod BSIZE - off mod BSIZE.
Proof.
  intros Hk E. pose proof (Z.div_mod k BSIZE ltac:(done)). pose proof (Z.div_mod off BSIZE ltac:(done)).
  rewrite E in *. lia.
Qed.
Lemma other_block k : k / BSIZE <> off / BSIZE -> ~ (off <= k < off + Z.of_nat (length d)).
Proof.
  intros E Hk. apply E. pose proof (Z.div_mod off BSIZE ltac:(done)). pose proof (Z.mod_pos_bound off BSIZE ltac:(done)).
  symmetry. apply (Z.div_unique_pos k BSIZE (off / BSIZE) (k - BSIZE * (off / BSIZE))); unfold BSIZE in *; lia.
Qed.

Lemma write_bytes k : 0 <= k < MAXFILE * BSIZE -> fb V' (addr_of V' p) k = overlay (fb V (addr_of V p)) off d k.
Proof.
  intros Hk. pose proof (block_range k Hk) as Hb. pose proof (block_range off off_range) as Hb0.
  pose proof (Z.mod_pos_bound k BSIZE ltac:(done)) as Hm. pose proof (Z.mod_pos_bound off BSIZE ltac:(done)) as Hm0.
  unfold fb at 1. rewrite write_addr by done. destruct (Z.eq_dec (k / BSIZE) (off / BSIZE)) as [E|E].
  - pose proof (same_block k ltac:(lia) E) as Ek. rewrite E. fold a. destruct (Z.eqb_spec a 0); [done|].
    unfold V'. rewrite vset_eq, aget_set_bytes by (unfold BSIZE in *; lia).
    unfold overlay, fb. rewrite E. fold a. destruct (Z.eqb_spec a 0); [done|]. rewrite Ek.
    destruct (Z.leb_spec (off mod BSIZE) (k mod BSIZE)), (Z.leb_spec off k); try lia; cbn [andb]; [|done].
    destruct (Z.ltb_spec (k mod BSIZE) (off mod BSIZE + Z.of_nat (length d))), (Z.ltb_spec k (off + Z.of_nat (length d)));
      lia || done.
  - pose proof (other_block k E) as Ho. unfold overlay.
    replace ((off <=? k) && (k <? off + Z.of_nat (length d))) with false by (symmetry; apply andb_false_iff; lia).
    unfold fb. destruct (Z.eqb_spec (addr_of V p (k / BSIZE)) 0) as [|Hz]; [done|]. unfold V'. rewrite vset_ne; [done|].
    intros Ea. apply E. symmetry. apply (fm_inj _ _ _ _ _ map_ok); done.
Qed.

Lemma wrote_block : wrote B N V p off d V' p.
Proof.
  pose proof write_data as [Hr Hu]. assert (EB : V' B = V B) by (apply vset_ne; lia).
  split; auto.
  - now rewrite iset_addrs_same.
  - eapply fmap_ext; [apply write_addr|]. eapply fmap_used; [|exact map_ok]. now rewrite EB.
  - apply write_bytes.
  - intros m _. now rewrite EB.
  - intros m _ _ _ _ Hd. apply vset_ne, not_eq_sym, Hd; [now apply block_range|done].
  - intros bn Hb _. now apply write_addr.
  - intros bn Hb Hz. now rewrite write_addr.
  - intros k Hk. destruct (Z.eq_dec (k / BSIZE) (off / BSIZE)) as [E|E]; [|now apply other_block in E].
    rewrite E, write_addr by (now apply block_range). done.
Qed.
End Block.

(** * The loop of [writei] *)

(** The number of blocks the [n] bytes at [off] are in. *)
Definition nblocks (off n : Z) : Z := if n <=? 0 then 0 else (off + n - 1) / BSIZE - off / BSIZE + 1.
Definition fblocks (off n : Z) : list Z := (fun r => off / BSIZE + r) <$> zrange (Z.to_nat (nblocks off n)).

Lemma fblocks_in off n k : off <= k < off + n -> k / BSIZE ∈ fblocks off n.
Proof.
  intros Hk. assert (off / BSIZE <= k / BSIZE) by (apply Z.div_le_mono; unfold BSIZE; lia).
  assert (k / BSIZE <= (off + n - 1) / BSIZE) by (apply Z.div_le_mono; unfold BSIZE; lia).
  unfold fblocks, nblocks. destruct (Z.leb_spec n 0); [lia|].
  apply list_elem_of_fmap. exists (k / BSIZE - off / BSIZE). split; [lia|].
  unfold zrange. apply list_elem_of_fmap. exists (Z.to_nat (k / BSIZE - off / BSIZE)). split; [lia|].
  apply elem_of_seq. lia.
Qed.

(** The blocks [bs'] of the log came from writing [n] bytes at [off]. *)
Definition logged (B : Z) (bs : list Z) (V' : Z -> block) (p' : inode) (off n : Z) (bs' : list Z) : Prop :=
  bs' ⊆ [B; 0; ind_of p'] ++ (addr_of V' p' <$> fblocks off n) ++ bs.

Lemma logged_length B bs V' p' off n bs' :
  NoDup bs' -> logged B bs V' p' off n bs' ->
  (length (bs_add B bs') <= 3 + Z.to_nat (nblocks off n) + length bs)%nat.
Proof.
  intros Hnd Hl. eapply Nat.le_trans; [apply NoDup_incl_length; [now apply bs_add_NoDup|apply bs_add_sub; [exact Hl|left]]|].
  unfold fblocks. rewrite !length_app, !length_fmap, length_zrange. cbn [length]. lia.
Qed.

Record writing (s : fsst) (bs : list Z) (V : Z -> block) (i : nat) (off : Z) (d : list Z)
    (s' : fsst) (bs' : list Z) (V' : Z -> block) (p' : inode) : Prop := {
  wi_tr : tr s' bs' V' [];
  wi_frame : frame (iset i (fun _ => p') s) s';
  wi_wrote : wrote (bmapblock s) (disksize (bio_of s)) V (iof i s) off d V' p';
  wi_bs : logged (bmapblock s) bs V' p' off (Z.of_nat (length d)) bs';
  wi_meta : meta_used s' V';
  wi_same : (forall k, off <= k < off + Z.of_nat (length d) -> addr_of V (iof i s) (k / BSIZE) <> 0) -> p' = iof i s
}.

Lemma writing_none s bs V i off :
  tr s bs V [] -> is_Some (icache s !! i) -> file_ok s V (iof i s) -> meta_used s V ->
  writing s bs V i off [] s bs V (iof i s).
Proof.
  intros T Hi Hf Hmeta. destruct (growing_none s bs V i T Hi Hf Hmeta) as [_ F0 G0 B0 M0 Fr0].
  split; [done|done|now apply wrote_grown| |done|done]. intros x Hx. rewrite !elem_of_app. auto.
Qed.

(** The file is well formed after writing. *)
Lemma writing_file s bs V i off d s' bs' V' p' :
  file_ok s V (iof i s) -> is_Some (icache s !! i) -> writing s bs V i off d s' bs' V' p' ->
  iof i s' = p' /\ is_Some (icache s' !! i) /\ file_ok s' V' p' /\ bmapblock s' = bmapblock s /\
  disksize (bio_of s') = disksize (bio_of s).
Proof.
  intros [Hl Hdev Hm] Hi [T F G _ _ _].
  pose proof (frame_bmap _ _ F) as EB. change (bmapblock s' = bmapblock s) in EB.
  pose proof (fr_disk _ _ F) as ED. change (disksize (bio_of s') = disksize (bio_of s)) in ED. split_and!; try done.
  - rewrite (frame_iof i _ _ F). now apply iof_iset.
  - rewrite (fr_icache _ _ F). cbn. rewrite list_lookup_alter_eq. now apply fmap_is_Some.
  - split; [apply G|rewrite (wt_inode _ _ _ _ _ _ _ _ G); done|]. rewrite EB, ED. apply G.
Qed.

Lemma writing_layout s bs V i off d s' bs' V' p' : layout s -> writing s bs V i off d s' bs' V' p' -> layout s'.
Proof. intros L W. eapply layout_frame; [apply W|now apply layout_iset]. Qed.

Lemma fblocks_mono off n m x : n <= m -> x ∈ fblocks off n -> x ∈ fblocks off m.
Proof.
  intros Hn. unfold fblocks. intros (r & -> & Hr)%list_elem_of_fmap. apply list_elem_of_fmap. exists r. split; [done|].
  unfold zrange in *. apply list_elem_of_fmap in Hr as (q & -> & Hq). apply list_elem_of_fmap. exists q. split; [done|].
  rewrite elem_of_seq in *. split; [lia|]. assert (nblocks off n <= nblocks off m); [|lia].
  unfold nblocks. destruct (Z.leb_spec n 0), (Z.leb_spec m 0); try lia.
  - pose proof (Z.div_le_mono off (off + m - 1) BSIZE ltac:(done) ltac:(lia)). lia.
  - pose proof (Z.div_le_mono (off + n - 1) (off + m - 1) BSIZE ltac:(done) ltac:(lia)). lia.
Qed.

Lemma fblocks_range off n bn : 0 <= off -> off + n <= MAXFILE * BSIZE -> bn ∈ fblocks off n -> 0 <= bn < MAXFILE.
Proof.
  intros Ho Hn. unfold fblocks, zrange, nblocks. intros (r & -> & (q & -> & Hq)%list_elem_of_fmap)%list_elem_of_fmap.
  apply elem_of_seq in Hq. destruct (Z.leb_spec n 0); [lia|].
  pose proof (block_range off ltac:(lia)). pose proof (block_range (off + n - 1) ltac:(lia)). lia.
Qed.

(** The list of a step is among that of the whole. *)
Lemma logged_step B bs V p off n bs1 V' p' m bs2 :
  0 <= off -> off + m <= MAXFILE * BSIZE -> n <= m ->
  logged B bs V p off n bs1 ->
  (forall bn, 0 <= bn < MAXFILE -> addr_of V p bn <> 0 -> addr_of V' p' bn = addr_of V p bn) ->
  (ind_of p' = ind_of p \/ ind_of p = 0) ->
  (forall x, x ∈ bs2 -> x ∈ bs1 \/ x = B \/ x = ind_of p' \/ exists bn, bn ∈ fblocks off m /\ x = addr_of V' p' bn) ->
  logged B bs V' p' off m bs2.
Proof.
  intros Ho Hm Hn Hl Hkeep Hi H2 x Hx. rewrite !elem_of_app, !elem_of_cons.
  assert (Hin : forall bn, bn ∈ fblocks off m -> addr_of V' p' bn ∈ addr_of V' p' <$> fblocks off m).
  { intros bn Hb. apply list_elem_of_fmap. eauto. }
  destruct (H2 x Hx) as [H1|[-> |[-> |(bn & Hb & ->)]]]; [|tauto|tauto|auto].
  apply Hl in H1. rewrite !elem_of_app, !elem_of_cons in H1.
  destruct H1 as [[-> |[-> |[-> |[]%elem_of_nil]]]|[(bn & -> & Hb)%list_elem_of_fmap|Hb]]; [tauto|tauto| | |tauto].
  - destruct Hi as [<-| ->]; tauto.
  - apply (fblocks_mono off n m) in Hb; [|done]. pose proof (fblocks_range off m bn Ho Hm Hb) as Hr.
    destruct (Z.eq_dec (addr_of V p bn) 0) as [E|E]; [rewrite E; tauto|]. rewrite <- (Hkeep bn Hr E). auto.
Qed.

Lemma nblocks_nonneg off n : 0 <= nblocks off n.
Proof.
  unfold nblocks. destruct (Z.leb_spec n 0); [done|].
  pose proof (Z.div_le_mono off (off + n - 1) BSIZE ltac:(done) ltac:(lia)). lia.
Qed.

Lemma nblocks_next off tot n :
  0 <= tot < n -> tot = 0 \/ (off + tot) mod BSIZE = 0 -> nblocks off tot + 1 <= nblocks off n.
Proof.
  intros Ht Ha. unfold nblocks. destruct (Z.leb_spec n 0), (Z.leb_spec tot 0); try lia.
  - pose proof (Z.div_le_mono off (off + n - 1) BSIZE ltac:(done) ltac:(lia)). lia.
  - destruct Ha as [|Ha]; [lia|]. pose proof (Z.div_mod (off + tot) BSIZE ltac:(done)) as E. rewrite Ha in E.
    assert ((off + tot - 1) / BSIZE < (off + tot) / BSIZE) by (apply Z.div_lt_upper_bound; unfold BSIZE in *; lia).
    pose proof (Z.div_le_mono (off + tot) (off + n - 1) BSIZE ltac:(done) ltac:(lia)). lia.
Qed.

Lemma free_store s s' V a d k : frame s s' -> a <> bmapblock s -> free s V k -> free s' (vset V a d) k.
Proof.
  intros F Ha (l & Hnd & Hl & Hf). exists l. split_and!; [done..|]. intros n Hn.
  unfold used. rewrite (frame_bmap _ _ F), (fr_disk _ _ F), vset_ne by congruence. now apply Hf.
Qed.

Lemma take_bytes d tot m : 0 <= tot -> 0 <= m ->
  take (Z.to_nat tot) d ++ bytes_at d tot m = take (Z.to_nat (tot + m)) d.
Proof.
  intros Ht Hm. unfold bytes_at. rewrite Z2Nat.inj_add by done. apply take_take_drop.
Qed.

Section Step.
Variables (s : fsst) (bs : list Z) (V : Z -> block) (i : nat) (off : Z).
Hypothesis lay : layout s.
Hypothesis cached : is_Some (icache s !! i).
Hypothesis file : file_ok s V (iof i s).
Hypothesis off_pos : 0 <= off.

(** One round: [bmap], and the bytes [d2] stored in the block. *)
Lemma writing_step d1 s1 bs1 V1 p1 d2 a s2 bs2 V2 p2 s3 :
  let off1 := off + Z.of_nat (length d1) in
  let V3 := vset V2 a (set_bytes (V2 a) (off1 mod BSIZE) d2) in
  off + Z.of_nat (length (d1 ++ d2)) <= MAXFILE * BSIZE -> 0 < Z.of_nat (length d2) ->
  off1 mod BSIZE + Z.of_nat (length d2) <= BSIZE ->
  writing s bs V i off d1 s1 bs1 V1 p1 ->
  growing s1 bs1 V1 i [bmapblock s1; ind_of p2; a] 2 s2 bs2 V2 p2 -> addr_of V2 p2 (off1 / BSIZE) = a -> a <> 0 ->
  (addr_of V1 p1 (off1 / BSIZE) <> 0 -> p2 = p1) ->
  tr s3 (bs_add a bs2) V3 [] -> frame s2 s3 ->
  writing s bs V i off (d1 ++ d2) s3 (bs_add a bs2) V3 p2.
Proof.
  intros off1 V3 Hfit Hd2 Hone W1 G2 Ha Hz Hsame T3 F3.
  destruct (writing_file _ _ _ _ _ _ _ _ _ _ file cached W1) as (E1 & Hi1 & Hf1 & EB & ED).
  pose proof (bmap_nonneg s lay) as HB. rewrite length_app in Hfit.
  rewrite <- E1 in Hf1. pose proof (growing_file _ _ _ _ _ _ _ _ _ _ Hf1 Hi1 G2) as (E2 & Hi2 & Hf2).
  destruct W1 as [T1 F1 W1 L1 M1 S1]. destruct G2 as [T2 F2 G2 B2 M2 _].
  rewrite EB, ED, E1 in G2. subst a.
  assert (Hr1 : 0 <= off1 < MAXFILE * BSIZE) by lia.
  destruct (fm_data _ _ _ _ _ (gr_map _ _ _ _ _ _ G2) _ (block_range _ Hr1) Hz) as [Hra _].
  assert (Hla : length (V2 (addr_of V2 p2 (off1 / BSIZE))) = 512%nat).
  { apply (tr_block_ok _ _ _ _ _ T2). rewrite (fr_disk _ _ F2). cbn. rewrite ED. lia. }
  pose proof (wrote_block (bmapblock s) (disksize (bio_of s)) V2 p2 off1 d2 ltac:(lia) (gr_len _ _ _ _ _ _ G2)
    (gr_map _ _ _ _ _ _ G2) Hr1 Hone Hz Hla) as Wb. fold V3 in Wb.
  assert (W3 : wrote (bmapblock s) (disksize (bio_of s)) V1 p1 off1 d2 V3 p2).
  { apply (wrote_trans _ _ _ _ off1 [] V2 p2); [lia|lia|cbn [app]; lia|now apply wrote_grown|].
    cbn [length]. now rewrite Z.add_0_r. }
  split; [done| | | | |].
  - eapply frame_trans; [|exact F3]. eapply frame_trans; [|exact F2].
    apply (frame_iset i (fun _ => p2)) in F1. now rewrite iset_twice in F1.
  - apply (wrote_trans _ _ _ _ _ _ V1 p1); try done; [lia|rewrite length_app; lia].
  - rewrite length_app, Nat2Z.inj_add. eapply logged_step; [done|lia| |exact L1|apply W3| |]; [lia| |].
    + destruct (wt_ind _ _ _ _ _ _ _ _ W3) as [E|(E & _)]; auto.
    + intros x Hx. apply (bs_add_sub _ _ (addr_of V2 p2 (off1 / BSIZE) :: bs2)) in Hx; [|intros y Hy; now right|left].
      assert (Hbn : exists bn, bn ∈ fblocks off (Z.of_nat (length d1) + Z.of_nat (length d2)) /\
        addr_of V2 p2 (off1 / BSIZE) = addr_of V3 p2 bn).
      { exists (off1 / BSIZE). split; [apply fblocks_in; lia|]. symmetry.
        apply (wt_keep _ _ _ _ _ _ _ _ Wb); [now apply block_range|done]. }
      apply elem_of_cons in Hx as [-> |Hx]; [auto|]. apply B2, elem_of_app in Hx as [Hx|Hx]; [|auto].
      rewrite EB, !elem_of_cons in Hx. destruct Hx as [-> |[-> |[-> |[]%elem_of_nil]]]; auto.
  - intros m Hm. unfold used. rewrite (frame_bmap _ _ F3) in *.
    assert (EB2 : bmapblock s2 = bmapblock s) by (rewrite (frame_bmap _ _ F2); exact EB).
    unfold V3. rewrite vset_ne by (rewrite EB2; lia). now apply M2.
  - intros Hall. rewrite length_app in Hall. rewrite <- S1 by (intros k Hk; apply Hall; lia). apply Hsame.
    assert (Hz1 : addr_of V (iof i s) (off1 / BSIZE) <> 0) by (apply Hall; lia).
    now rewrite (wt_keep _ _ _ _ _ _ _ _ W1 _ (block_range _ Hr1) Hz1).
Qed.

Context {fuel : Fuel} `{Devices fsst}.
Variable d : list Z.
Let n := Z.of_nat (length d).
Hypothesis d_bytes : Forall is_u8 d.
Hypothesis fits : off + n <= MAXFILE * BSIZE.
Hypothesis log_room : Z.of_nat (length bs) + nblocks off n <= 24.

Lemma wp_writei_from (fuel_pos : (0 < wakeups)%nat) r tot s1 bs1 V1 p1 (Q : Z -> ctx -> fsst -> Prop) c :
  held c = [] -> writing s bs V i off (take (Z.to_nat tot) d) s1 bs1 V1 p1 -> 0 <= tot <= n ->
  tot = 0 \/ tot = n \/ (off + tot) mod BSIZE = 0 ->
  (tot < n -> n - tot + (off + tot) mod BSIZE <= Z.of_nat r * BSIZE) -> free s1 V1 (2 * r) ->
  (forall c' s' bs' V' p', held c' = [] -> writing s bs V i off d s' bs' V' p' -> Q (off + n) c' s') ->
  wp (writei_from r (from_local d) i tot (off + tot) n) Q c s1.
Proof.
  revert tot s1 bs1 V1 p1 c. induction r as [|r IH]; intros tot s1 bs1 V1 p1 c Hc W1 Ht Hal Hr Hfree HQ;
    cbn [writei_from]; pose proof (Z.mod_pos_bound (off + tot) BSIZE ltac:(done)) as Hm;
    (destruct (Z.ltb_spec tot n) as [Hlt|Hge];
     [|apply wp_ret; assert (tot = n) as -> by lia; unfold n in W1; rewrite Nat2Z.id, firstn_all in W1; exact (HQ _ _ _ _ _ Hc W1)]).
  { specialize (Hr Hlt). unfold BSIZE in *. lia. }
  assert (Hrt : 0 <= off + tot < MAXFILE * BSIZE) by (clear - Ht Hlt fits off_pos; lia).
  specialize (Hr Hlt). set (m := Z.min (n - tot) (BSIZE - (off + tot) mod BSIZE)).
  destruct (round_step (off + tot) (n - tot) r ltac:(lia) ltac:(lia) Hr) as [Hm0 Hm1]. fold m in Hm0, Hm1.
  destruct (writing_file _ _ _ _ _ _ _ _ _ _ file cached W1) as (E1 & Hi1 & Hf1 & EB & ED).
  pose proof (writing_layout _ _ _ _ _ _ _ _ _ _ lay W1) as L1.
  assert (Elen : Z.of_nat (length (take (Z.to_nat tot) d)) = tot) by (rewrite length_take; unfold n in *; lia).
  pose proof (logged_length _ _ _ _ _ _ _ (ls_nodup _ _ (tr_log _ _ _ _ (wi_tr _ _ _ _ _ _ _ _ _ _ W1)))
    (wi_bs _ _ _ _ _ _ _ _ _ _ W1)) as Hlen. rewrite Elen in Hlen.
  pose proof (nblocks_next off tot n ltac:(lia) ltac:(lia)) as Hnb. pose proof (nblocks_nonneg off tot) as Hnb0.
  apply wp_bind, wp_gets. rewrite E1. apply wp_bind. eapply (wp_bmap fuel_pos s1 bs1 V1 i); try done.
  { apply W1. } { apply W1. } { now rewrite E1. } { now apply block_range. }
  { eapply free_weaken; [|exact Hfree]. lia. } { rewrite EB. lia. }
  intros a c2 s2 bs2 V2 p2 Hc2 G2 Ha Hz Hsame. rewrite E1 in Hsame. apply wp_bind. rewrite (fo_dev _ _ _ Hf1).
  set (bn := (off + tot) / BSIZE) in *.
  pose proof (growing_file _ _ _ _ _ _ _ _ _ _ ltac:(rewrite E1; exact Hf1) Hi1 G2) as (E2 & Hi2 & Hf2).
  destruct (fm_data _ _ _ _ _ (fo_map _ _ _ Hf2) bn (block_range _ Hrt) ltac:(congruence)) as [Hra _]. rewrite Ha in Hra.
  pose proof (gw_tr _ _ _ _ _ _ _ _ _ _ G2) as T2. pose proof (gw_frame _ _ _ _ _ _ _ _ _ _ G2) as F2.
  assert (EB2 : bmapblock s2 = bmapblock s1) by exact (frame_bmap _ _ F2). pose proof (bmap_nonneg s1 L1) as HB1.
  assert (L2 : layout s2) by (eapply layout_frame; [exact F2|now apply layout_iset]).
  assert (Hlen2 : (length bs2 <= length ([ind_of p2; a] ++ bs_add (bmapblock s) bs1))%nat).
  { apply NoDup_incl_length; [apply (tr_log _ _ _ _ T2)|]. intros x Hx. apply (gw_bs _ _ _ _ _ _ _ _ _ _ G2) in Hx.
    rewrite EB, elem_of_app, !elem_of_cons in Hx. rewrite elem_of_app, !elem_of_cons.
    destruct Hx as [[-> |Hx]|Hx]; [right; apply bs_add_in|tauto|right; now apply bs_add_mono]. }
  cbn [length app] in Hlen2.
  eapply wp_fbread; [done|done|exact T2|apply not_elem_of_nil|lia|right; cbn; unfold NBUF; lia|]. intros b s3 T3 F3.
  apply wp_bind, wp_ret. apply wp_bind. eapply wp_fdata; [exact T3|left|].
  assert (Hoka : block_ok (V2 a)) by (apply (tr_block_ok _ _ _ _ _ T2); lia).
  apply wp_bind. eapply wp_fput; [exact T3|apply set_bytes_ok; [exact Hoka|now apply bytes_at_ok]|]. intros s4 T4 F4.
  assert (F24 : frame s2 s4) by eauto using frame_trans.
  apply wp_bind. eapply wp_flog_write; [done|exact T4| | | |].
  { rewrite (fr_size _ _ F24). apply L2. }
  { unfold LOGSIZE, MAXOPBLOCKS. lia. }
  { rewrite (fr_start _ _ F24), (fr_size _ _ F24). apply after_bmap; [done|lia]. }
  intros s5 T5 F5. apply wp_bind. eapply wp_fbrelse; [done|exact T5|now rewrite vset_eq|]. intros c6 s6 Hc6 T6 F6.
  assert (F26 : frame s2 s6) by eauto using frame_trans.
  rewrite <- Z.add_assoc in *. eapply IH; [done| |lia|lia|lia| |done].
  - assert (Em : Z.of_nat (length (bytes_at d tot m)) = m) by (rewrite length_bytes_at; unfold n in *; lia).
    rewrite <- take_bytes by lia. eapply writing_step; rewrite ?length_app, ?Nat2Z.inj_add, ?Elen, ?Em; try done; lia.
  - eapply free_store; [exact F26|lia|]. apply (gw_free _ _ _ _ _ _ _ _ _ _ G2). now replace (2 + 2 * r)%nat with (2 * S r)%nat by lia.
Qed.
End Step.
