(* ===== verification/FsRefine.v ===== *)
(** fs.c: files refine byte sequences.  [readi] reads from the sequence of the
    inode, [writei] replaces a stretch of it or extends it, and the sequences of
    the other files stay the same. *)
From S2P Require Import Prelude Monad Mem Mmu Sleeplock Disk Bio Bcache Log LogProps Fs FsTrans.
From S2P Require Import FsAlloc FsData FsFile FsRw FsInode FsWrite.

(** * Abstract files *)

(** Replace the bytes at [off], or extend. *)
Definition write_at (l : list Z) (off : Z) (d : list Z) : list Z :=
  take (Z.to_nat off) l ++ d ++ drop (Z.to_nat off + length d) l.

Lemma write_at_nil l off : write_at l off [] = l.
Proof. unfold write_at. cbn [length app]. rewrite Nat.add_0_r. apply take_drop. Qed.

Lemma length_write_at l off d :
  0 <= off <= Z.of_nat (length l) ->
  Z.of_nat (length (write_at l off d)) = Z.max (Z.of_nat (length l)) (off + Z.of_nat (length d)).
Proof. intros H. unfold write_at. rewrite !length_app, length_take, length_drop. lia. Qed.

Lemma write_at_lookup l off d (k : nat) :
  0 <= off <= Z.of_nat (length l) ->
  write_at l off d !! k =
    if decide (k < Z.to_nat off)%nat then l !! k
    else if decide (k < Z.to_nat off + length d)%nat then d !! (k - Z.to_nat off)%nat else l !! k.
Proof.
  intros H. unfold write_at. destruct (decide _).
  - rewrite lookup_app_l by (rewrite length_take; lia). now apply lookup_take_lt.
  - rewrite lookup_app_r by (rewrite length_take; lia). rewrite length_take_le by lia. destruct (decide _).
    + now rewrite lookup_app_l by lia.
    + rewrite lookup_app_r by lia. rewrite lookup_drop. f_equal. lia.
Qed.

(** [readi] and [writei] on a byte sequence: the bytes read, or the error; the
    count, or the error, with the new sequence. *)
Definition readi_spec (l : list Z) (off n : Z) : option (list Z) :=
  if (Z.of_nat (length l) <? off) || (2 ^ 32 <=? off + n) then None
  else Some (take (Z.to_nat n) (drop (Z.to_nat off) l)).

Definition writei_spec (l : list Z) (off : Z) (d : list Z) : Z * list Z :=
  if (Z.of_nat (length l) <? off) || (MAXFILE * BSIZE <? off + Z.of_nat (length d)) then (-1, l)
  else (Z.of_nat (length d), write_at l off d).

(** * The files of the disk *)

Definition contents (V : Z -> block) (p : inode) : list Z := fbytes V (addr_of V p) 0 (i_size p).

Record file_inv (s : fsst) (V : Z -> block) (p : inode) : Prop := {
  fi_file : file_ok s V p;
  fi_dense : dense V p;
  fi_size : 0 <= i_size p <= MAXFILE * BSIZE;
  fi_type : i_type p <> T_DEV;
  fi_inum : inum_ok s (i_inum p);
  fi_s16 : s16 (i_type p) = i_type p /\ s16 (i_major p) = i_major p /\ s16 (i_minor p) = i_minor p /\ s16 (i_nlink p) = i_nlink p;
  fi_disk : on_disk s V p
}.

Lemma length_contents V p : length (contents V p) = Z.to_nat (i_size p).
Proof. apply length_fbytes. Qed.

Lemma file_fits s bs V H p : tr s bs V H -> layout s -> file_ok s V p -> 0 <= i_size p <= MAXFILE * BSIZE ->
  s16 (i_type p) = i_type p /\ s16 (i_major p) = i_major p /\ s16 (i_minor p) = i_minor p /\ s16 (i_nlink p) = i_nlink p ->
  dinode_fits p.
Proof.
  intros T L [Hl Hdev Hm] Hsz (S1 & S2 & S3 & S4). pose proof (lo_disk s L). pose proof (lo_one s L). pose proof (bmap_nonneg s L).
  change MAXFILE with 140 in *. split; try done; [unfold is_u32, BSIZE in *; lia|].
  apply Forall_lookup. intros k a Ha. assert (Hk : (k < 13)%nat) by (rewrite <- Hl; eauto using lookup_lt_Some).
  assert (Ea : a = aget 0 (i_addrs p) (Z.of_nat k)) by (unfold aget; now rewrite Nat2Z.id, Ha).
  destruct (Z.eq_dec a 0) as [->|Hz]; [unfold is_u32; lia|].
  assert (R : bmapblock s < a < disksize (bio_of s)); [|unfold is_u32, BPB, BSIZE in *; lia].
  destruct (decide (k = 12%nat)) as [->|Hne].
  - change (a = ind_of p) in Ea. subst a. apply (fm_ind _ _ _ _ _ Hm Hz).
  - assert (E : a = addr_of V p (Z.of_nat k)).
    { unfold addr_of. change NDIRECT with 12. destruct (Z.ltb_spec (Z.of_nat k) 12); [done|lia]. }
    rewrite E in *. apply (fm_data _ _ _ _ _ Hm); [change MAXFILE with 140; lia|done].
Qed.

Lemma contents_slice V p off n :
  0 <= off -> 0 <= n -> off + n <= i_size p ->
  fbytes V (addr_of V p) off n = take (Z.to_nat n) (drop (Z.to_nat off) (contents V p)).
Proof.
  intros Ho Hn Hfit. unfold contents. apply list_eq. intros k. rewrite lookup_take, lookup_drop.
  destruct (decide (k < Z.to_nat n)%nat).
  - rewrite !fbytes_lookup by lia. do 2 f_equal. lia.
  - rewrite lookup_ge_None_2; [done|]. rewrite length_fbytes. lia.
Qed.

Lemma u32_overflow off n : is_u32 off -> is_u32 n -> (u32 (off + n) <? off) = (2 ^ 32 <=? off + n).
Proof.
  unfold is_u32. intros Ho Hn. change (2 ^ 32) with 4294967296. destruct (Z.leb_spec 4294967296 (off + n)) as [H|H].
  - unfold u32. replace ((off + n) mod 4294967296) with (off + n - 4294967296); [apply Z.ltb_lt; lia|].
    apply (Zmod_unique _ _ 1); lia.
  - rewrite u32_small by (unfold is_u32; lia). apply Z.ltb_ge. lia.
Qed.

Lemma rounds_enough off n : 0 <= n -> n + off mod BSIZE <= Z.of_nat (rounds n) * BSIZE.
Proof.
  intros Hn. unfold rounds. pose proof (Z.div_mod n BSIZE ltac:(done)). pose proof (Z.mod_pos_bound n BSIZE ltac:(done)).
  pose proof (Z.mod_pos_bound off BSIZE ltac:(done)). pose proof (Z.div_pos n BSIZE Hn ltac:(done)). unfold BSIZE in *. lia.
Qed.

Section Read.
Context {fuel : Fuel} `{Devices fsst}.

Lemma wp_readi (fuel_pos : (0 < wakeups)%nat) s bs V i l off n (Q : list Z * Z -> ctx -> fsst -> Prop) c :
  let p := iof i s in
  held c = [] -> tr s bs V [] -> layout s -> file_inv s V p -> (length bs < NBUF)%nat -> is_u32 off -> is_u32 n ->
  (forall c' s', held c' = [] -> tr s' bs V [] -> frame s s' ->
     Q (match readi_spec (contents V p) off n with
        | None => (l, -1)
        | Some b => (set_bytes l 0 b, Z.of_nat (length b))
        end) c' s') ->
  wp (readi i to_local l off n) Q c s.
Proof.
  intros p Hc T L [Hf Hd Hsz Hty _ _ _] Hroom Ho Hn HQ. unfold readi. apply wp_bind, wp_gets. fold p.
  destruct (Z.eqb_spec (i_type p) T_DEV); [done|]. rewrite u32_overflow by done.
  unfold readi_spec in HQ. rewrite length_contents, Z2Nat.id in HQ by lia.
  destruct (_ || _) eqn:E; [apply wp_ret, HQ; auto|]. apply orb_false_iff in E as [E1 E2].
  apply Z.ltb_ge in E1. apply Z.leb_gt in E2. change (2 ^ 32) with 4294967296 in *. unfold is_u32 in *.
  rewrite u32_small by (unfold is_u32; lia).
  set (m := if i_size p <? off + n then i_size p - off else n).
  assert (Hm : 0 <= m <= n /\ off + m <= i_size p /\ (m = n \/ off + m = i_size p)).
  { unfold m. destruct (Z.ltb_spec (i_size p) (off + n)); lia. }
  apply wp_bind. apply (wp_readi_from fuel_pos s bs V); fold p; try done; [lia..| | |].
  - lia.
  - intros _. rewrite Z.sub_0_r. apply rounds_enough. lia.
  - intros c' s' Hc' T' F'. apply wp_ret. rewrite Z.sub_0_r, contents_slice by lia.
    replace (take (Z.to_nat m) (drop (Z.to_nat off) (contents V p)))
      with (take (Z.to_nat n) (drop (Z.to_nat off) (contents V p))).
    2:{ destruct Hm as (? & ? & [->|Hm]); [done|]. rewrite !take_ge; rewrite ?length_drop, ?length_contents; lia || done. }
    replace m with (Z.of_nat (length (take (Z.to_nat n) (drop (Z.to_nat off) (contents V p))))); [now apply HQ|].
    rewrite length_take, length_drop, length_contents. lia.
Qed.
End Read.

(** * Writing *)

(** The blocks of a file. *)
Definition owns (V : Z -> block) (p : inode) (m : Z) : Prop :=
  m <> 0 /\ (m = ind_of p \/ exists bn, 0 <= bn < MAXFILE /\ m = addr_of V p bn).

Lemma owns_data s V p m : file_ok s V p -> owns V p m -> is_data (bmapblock s) (disksize (bio_of s)) V m.
Proof.
  intros [_ _ Hm] [Hz [->|(bn & Hb & ->)]]; [now apply (fm_ind _ _ _ _ _ Hm)|now apply (fm_data _ _ _ _ _ Hm)].
Qed.

(** Changing blocks up to the bitmap does not move the files. *)
Section Data.
Variables (s : fsst) (V V' : Z -> block) (p : inode).
Hypothesis same : forall m, bmapblock s < m -> V' m = V m.
Hypothesis file : file_ok s V p.

Lemma data_addr bn : addr_of V' p bn = addr_of V p bn.
Proof.
  unfold addr_of. destruct (_ <? _); [done|]. destruct (Z.eqb_spec (ind_of p) 0) as [|Hi]; [done|].
  destruct (fm_ind _ _ _ _ _ (fo_map _ _ _ file) Hi) as [R _]. rewrite same; [done|lia].
Qed.

Lemma data_fb k : 0 <= k < MAXFILE * BSIZE -> fb V' (addr_of V' p) k = fb V (addr_of V p) k.
Proof.
  intros Hk. unfold fb. rewrite data_addr. destruct (Z.eqb_spec (addr_of V p (k / BSIZE)) 0) as [|Hz]; [done|].
  destruct (fm_data _ _ _ _ _ (fo_map _ _ _ file) _ (block_range _ Hk) Hz) as [R _]. rewrite same; [done|lia].
Qed.

Lemma data_contents : i_size p <= MAXFILE * BSIZE -> contents V' p = contents V p.
Proof. intros Hs. apply fbytes_ext. intros k Hk. apply data_fb. lia. Qed.

Lemma data_dense : dense V p -> dense V' p.
Proof. intros Hd k Hk. rewrite data_addr. now apply Hd. Qed.

Lemma data_owns m : owns V' p m <-> owns V p m.
Proof. unfold owns. setoid_rewrite data_addr. done. Qed.

(** The file stays well formed when its blocks stay allocated. *)
Lemma data_file : (forall m, owns V p m -> bit_of (V' (bmapblock s)) m = true) -> file_ok s V' p.
Proof.
  intros Hb. pose proof file as [Hl Hdev [H1 H2 H3 H4]]. split; [done|done|]. split.
  - intros bn Hbn Hz. rewrite data_addr in *. split; [now apply H1|]. apply Hb. split; eauto.
  - intros bn bn' Hbn Hbn'. rewrite !data_addr. now apply H2.
  - intros Hz. split; [now apply H3|]. apply Hb. split; eauto.
  - intros bn Hbn. rewrite data_addr. now apply H4.
Qed.
End Data.

(** Changing blocks before the bitmap does not touch the files. *)
Section Meta.
Variables (s : fsst) (V V' : Z -> block) (p : inode).
Hypothesis same : forall m, bmapblock s <= m -> V' m = V m.
Hypothesis file : file_ok s V p.

Let strictly m : bmapblock s < m -> V' m = V m.
Proof. intros H. apply same. lia. Qed.

Lemma meta_file : file_ok s V' p.
Proof.
  apply (data_file s V); [done|done|]. intros m Ho. rewrite same by done. apply (owns_data _ _ _ _ file Ho).
Qed.
Lemma meta_contents : i_size p <= MAXFILE * BSIZE -> contents V' p = contents V p.
Proof. now apply (data_contents s). Qed.
Lemma meta_dense : dense V p -> dense V' p.
Proof. now apply (data_dense s). Qed.
Lemma meta_owns m : owns V' p m <-> owns V p m.
Proof. now apply (data_owns s). Qed.

Lemma meta_meta : meta_used s V -> meta_used s V'.
Proof. intros Hm n Hn. unfold used. rewrite same by done. now apply Hm. Qed.
End Meta.

Lemma on_disk_frame s s' V p : fs_sb s' = fs_sb s -> on_disk s V p -> on_disk s' V p.
Proof. intros E. unfold on_disk. now rewrite E. Qed.

Lemma meta_used_frame s s' V : frame s s' -> meta_used s V -> meta_used s' V.
Proof. intros F Hm n Hn. unfold used. rewrite (frame_bmap _ _ F) in *. now apply Hm. Qed.

Lemma file_inv_frame s s' V p : frame s s' -> file_inv s V p -> file_inv s' V p.
Proof.
  intros F [H1 H2 H3 H4 H5 H6 H7]. split; try done.
  - exact (file_ok_frame _ _ _ _ F H1).
  - unfold inum_ok. now rewrite (fr_sb _ _ F).
  - exact (on_disk_frame _ _ _ _ (fr_sb _ _ F) H7).
Qed.

Section Wrote.
Variables (s : fsst) (V : Z -> block) (p : inode) (off : Z) (d : list Z) (V' : Z -> block) (p' : inode).
Hypothesis B_pos : 0 < bmapblock s.
Hypothesis W : wrote (bmapblock s) (disksize (bio_of s)) V p off d V' p'.

(** Blocks the file did not own are as before. *)
Lemma wrote_others m : 0 < m -> used s V m = true -> m <> bmapblock s -> ~ owns V p m -> V' m = V m.
Proof.
  intros Hm Hu HB Ho. apply (wt_other _ _ _ _ _ _ _ _ W); try done; [lia|intros E|intros bn Hb _ E]; apply Ho; split; eauto; lia.
Qed.

Lemma wrote_owns m : owns V' p' m -> owns V p m \/ used s V m = false.
Proof.
  intros [Hz [->|(bn & Hb & ->)]].
  - destruct (wt_ind _ _ _ _ _ _ _ _ W) as [E|(_ & _ & E)]; [|now right]. left. split; [done|]. now left.
  - destruct (Z.eq_dec (addr_of V p bn) 0) as [E|E].
    + right. now apply (wt_new _ _ _ _ _ _ _ _ W).
    + rewrite (wt_keep _ _ _ _ _ _ _ _ W) in Hz |- * by done. left. split; [done|]. eauto.
Qed.

(** Another file. *)
Section Other.
Variable q : inode.
Hypothesis file : file_ok s V q.
Hypothesis disjoint : forall m, owns V p m -> ~ owns V q m.

Lemma wrote_owned m : owns V q m -> V' m = V m.
Proof.
  intros Ho. destruct (owns_data _ _ _ _ file Ho) as [R Hu]. apply wrote_others; [lia|exact Hu|lia|].
  intros Hp. exact (disjoint m Hp Ho).
Qed.

Lemma wrote_addr bn : addr_of V' q bn = addr_of V q bn.
Proof.
  unfold addr_of. destruct (_ <? _); [done|]. destruct (Z.eqb_spec (ind_of q) 0) as [|Hi]; [done|].
  rewrite wrote_owned; [done|]. split; [done|]. now left.
Qed.

Lemma wrote_fb k : 0 <= k < MAXFILE * BSIZE -> fb V' (addr_of V' q) k = fb V (addr_of V q) k.
Proof.
  intros Hk. unfold fb. rewrite wrote_addr. destruct (Z.eqb_spec (addr_of V q (k / BSIZE)) 0) as [|Hz]; [done|].
  rewrite wrote_owned; [done|]. split; [done|]. right. eexists. split; [now apply block_range|done].
Qed.

Lemma wrote_file : file_ok s V' q.
Proof.
  pose proof file as [Hl Hdev Hm]. split; [done|done|]. destruct Hm as [H1 H2 H3 H4]. split.
  - intros bn Hb Hz. rewrite wrote_addr in *. destruct (H1 bn Hb Hz) as [R Hu]. split; [done|].
    apply (wt_bits _ _ _ _ _ _ _ _ W); [lia|done].
  - intros bn bn' Hb Hb'. rewrite !wrote_addr. now apply H2.
  - intros Hi. destruct (H3 Hi) as [R Hu]. split; [done|]. apply (wt_bits _ _ _ _ _ _ _ _ W); [lia|done].
  - intros bn Hb Hi. rewrite wrote_addr. now apply H4.
Qed.

Lemma wrote_contents : i_size q <= MAXFILE * BSIZE -> contents V' q = contents V q.
Proof. intros Hs. apply fbytes_ext. intros k Hk. apply wrote_fb. lia. Qed.

Lemma wrote_dense : dense V q -> dense V' q.
Proof. intros Hd k Hk. rewrite wrote_addr. now apply Hd. Qed.

Lemma wrote_owns_other m : owns V' q m <-> owns V q m.
Proof. unfold owns. setoid_rewrite wrote_addr. done. Qed.

Lemma wrote_disjoint m : owns V' p' m -> ~ owns V' q m.
Proof.
  rewrite wrote_owns_other. intros [Hp|Hu]%wrote_owns Hq; [now apply (disjoint m)|].
  destruct (owns_data _ _ _ _ file Hq) as [_ Hu']. unfold used in Hu. congruence.
Qed.
End Other.
End Wrote.

(** ** The files of the cache *)

(** The inodes with index in [F] are well formed and share no blocks. *)
Record files (s : fsst) (V : Z -> block) (F : list nat) : Prop := {
  fl_inv i : i ∈ F -> is_Some (icache s !! i) /\ file_inv s V (iof i s);
  fl_sep i j : i ∈ F -> j ∈ F -> i <> j ->
    i_inum (iof i s) <> i_inum (iof j s) /\ forall m, owns V (iof i s) m -> ~ owns V (iof j s) m
}.

Lemma iof_iset_ne i j f s : i <> j -> iof j (iset i f s) = iof j s.
Proof. intros H. unfold iof, iset. cbn. now rewrite list_lookup_alter_ne. Qed.

Lemma iset_iset_const i f p s : iset i f (iset i (fun _ => p) s) = iset i (fun _ => f p) s.
Proof.
  unfold iset. cbn. f_equal. apply list_eq. intros x. destruct (decide (i = x)) as [<-|Hne].
  - rewrite !list_lookup_alter_eq. now destruct (icache s !! i).
  - now rewrite !list_lookup_alter_ne.
Qed.

Lemma file_ok_iset i f s V p : file_ok s V p -> file_ok (iset i f s) V p.
Proof. now intros []. Qed.

Lemma wrote_file_ok s V p off d V' p' :
  file_ok s V p -> wrote (bmapblock s) (disksize (bio_of s)) V p off d V' p' -> file_ok s V' p'.
Proof. intros [Hl Hdev Hm] W. split; [apply W|rewrite (wt_inode _ _ _ _ _ _ _ _ W); exact Hdev|apply W]. Qed.

Section After.
Variables (s : fsst) (V : Z -> block) (F : list nat) (i : nat) (off : Z) (d : list Z).
Variables (V1 : Z -> block) (p1 : inode) (s2 : fsst) (V2 : Z -> block) (p2 : inode).
Hypothesis lay : layout s.
Hypothesis meta : meta_used s V.
Hypothesis fls : files s V F.
Hypothesis i_in : i ∈ F.
Hypothesis W : wrote (bmapblock s) (disksize (bio_of s)) V (iof i s) off d V1 p1.
Hypothesis fr : frame (iset i (fun _ => p2) s) s2.
Hypothesis inv2 : file_inv s2 V2 p2.
Hypothesis addrs2 : i_addrs p2 = i_addrs p1.
Hypothesis inum2 : i_inum p2 = i_inum (iof i s).
Hypothesis above : forall m, bmapblock s <= m -> V2 m = V1 m.
Hypothesis disk_others : forall q, inum_ok s (i_inum q) -> i_inum q <> i_inum (iof i s) -> on_disk s V1 q -> on_disk s V2 q.

Lemma after_iof j : iof j s2 = if decide (j = i) then p2 else iof j s.
Proof.
  rewrite (frame_iof j _ _ fr). destruct (decide (j = i)) as [->|Hne].
  - apply iof_iset. now apply fls.
  - now apply iof_iset_ne.
Qed.

Lemma after_disk q : inum_ok s (i_inum q) -> file_ok s V (iof i s) -> on_disk s V q -> on_disk s V1 q.
Proof.
  intros Hq Hf Hd. unfold on_disk. pose proof (IBLOCK_range s _ lay Hq). pose proof (IBLOCK_pos s _ lay Hq).
  pose proof (bmap_nonneg s lay) as HB.
  rewrite (wrote_others s V (iof i s) off d V1 p1 W); [exact Hd|lia|apply meta; lia|lia|].
  intros Ho. destruct (owns_data _ _ _ _ Hf Ho) as [R _]. lia.
Qed.

Lemma after_other j : j ∈ F -> j <> i -> file_inv s2 V2 (iof j s) /\ contents V2 (iof j s) = contents V (iof j s).
Proof.
  intros Hj Hne. destruct (fl_inv _ _ _ fls i i_in) as [_ [Hfi _ _ _ _ _ _]].
  destruct (fl_inv _ _ _ fls j Hj) as [_ [Hf Hd Hs Ht Hn H16 Hdisk]]. destruct (fl_sep _ _ _ fls i j i_in Hj ltac:(congruence)) as [Hin Hsep].
  pose proof (bmap_nonneg s lay) as [HB _].
  pose proof (wrote_file s V _ off d V1 p1 HB W _ Hf Hsep) as Hf1.
  split; [|rewrite (meta_contents s V1 V2), (wrote_contents s V (iof i s) off d V1 p1); done || lia].
  assert (I : file_inv (iset i (fun _ => p2) s) V2 (iof j s)); [|exact (file_inv_frame _ _ _ _ fr I)].
  split; try done.
  - exact (file_ok_iset i _ _ _ _ (meta_file s V1 V2 _ above Hf1)).
  - eapply (meta_dense s V1 V2); [done|done|]. eapply (wrote_dense s V); try done.
  - apply (on_disk_frame s); [done|]. apply disk_others; [done|congruence|]. now apply after_disk.
Qed.

Lemma after_owns j m : j ∈ F -> j <> i -> owns V2 (iof j s) m <-> owns V (iof j s) m.
Proof.
  intros Hj Hne. pose proof (bmap_nonneg s lay) as [HB _]. destruct (fl_inv _ _ _ fls j Hj) as [_ [Hf _ _ _ _ _ _]].
  destruct (fl_sep _ _ _ fls i j i_in Hj ltac:(congruence)) as [_ Hsep].
  rewrite (meta_owns s V1 V2) by (done || exact (wrote_file s V _ off d V1 p1 HB W _ Hf Hsep)).
  exact (wrote_owns_other s V _ off d V1 p1 HB W _ Hf Hsep m).
Qed.

Lemma files_after : files s2 V2 F.
Proof.
  pose proof (bmap_nonneg s lay) as [HB _].
  destruct (fl_inv _ _ _ fls i i_in) as [Hci Hfi]. pose proof (wrote_file_ok _ _ _ _ _ _ _ (fi_file _ _ _ Hfi) W) as Hf1.
  assert (Hown : forall m, owns V2 p2 m <-> owns V1 p1 m).
  { intros m. rewrite <- (meta_owns s V1 V2 p1) by done. unfold owns, addr_of, ind_of. now rewrite addrs2. }
  assert (Hoth : forall j m, j ∈ F -> j <> i -> owns V1 p1 m -> ~ owns V2 (iof j s) m).
  { intros j m Hj Hne. destruct (fl_sep _ _ _ fls i j i_in Hj ltac:(congruence)) as [_ Hsep].
    destruct (fl_inv _ _ _ fls j Hj) as [_ [Hfj _ _ _ _ _ _]].
    rewrite after_owns by done. intros Hm. rewrite <- (wrote_owns_other s V _ off d V1 p1 HB W _ Hfj Hsep).
    now apply (wrote_disjoint s V (iof i s) off d V1 p1). }
  split.
  - intros j Hj. rewrite after_iof. split.
    + rewrite (fr_icache _ _ fr). cbn. rewrite lookup_lt_is_Some, length_alter, <- lookup_lt_is_Some. apply fls, Hj.
    + destruct (decide _); [done|]. now apply after_other.
  - intros j k Hj Hk Hne. rewrite !after_iof. destruct (decide (j = i)) as [->|Hji], (decide (k = i)) as [->|Hki]; [done|..].
    + rewrite inum2. split; [apply (fl_sep _ _ _ fls); done|]. intros m. rewrite Hown. now apply Hoth.
    + rewrite inum2. split; [apply (fl_sep _ _ _ fls); done|]. intros m Hm. rewrite Hown. intros Hm'. now apply (Hoth j m).
    + destruct (fl_sep _ _ _ fls j k Hj Hk Hne) as [Hn Hsep]. split; [done|]. intros m. rewrite !after_owns by done. apply Hsep.
Qed.
End After.

Lemma wrote_write_at B N V p off d V' p' q :
  wrote B N V p off d V' p' -> i_addrs q = i_addrs p' -> i_size q = Z.max (i_size p) (off + Z.of_nat (length d)) ->
  0 <= off <= i_size p -> i_size q <= MAXFILE * BSIZE ->
  contents V' q = write_at (contents V p) off d.
Proof.
  intros W Ha Hs Ho Hmax. assert (Hl : 0 <= off <= Z.of_nat (length (contents V p))) by (rewrite length_contents; lia).
  assert (EA : forall k, addr_of V' q k = addr_of V' p' k) by (intros k; unfold addr_of, ind_of; now rewrite Ha).
  unfold contents at 1. apply list_eq_same_length with (Z.to_nat (i_size q)).
  - apply Nat2Z.inj. rewrite length_write_at, length_contents by done. lia.
  - apply length_fbytes.
  - intros k x y Hk. rewrite fbytes_lookup by done. intros [= <-]. rewrite Z.add_0_l.
    replace (fb V' (addr_of V' q) (Z.of_nat k)) with (fb V' (addr_of V' p') (Z.of_nat k)) by (unfold fb; now rewrite EA).
    rewrite (wt_bytes _ _ _ _ _ _ _ _ W) by lia. rewrite write_at_lookup by done. unfold overlay.
    assert (Hf : forall z, contents V p !! k = Some z -> fb V (addr_of V p) (Z.of_nat k) = z).
    { intros z Hz. pose proof (lookup_lt_Some _ _ _ Hz) as Hlt. rewrite length_contents in Hlt.
      unfold contents in Hz. rewrite fbytes_lookup in Hz by done. now injection Hz. }
    destruct (Z.leb_spec off (Z.of_nat k)), (Z.ltb_spec (Z.of_nat k) (off + Z.of_nat (length d))); cbn [andb];
      repeat (destruct (decide _); try lia); try (intros Hx; now rewrite (Hf _ Hx)).
    unfold aget. replace (Z.to_nat (Z.of_nat k - off)) with (k - Z.to_nat off)%nat by lia. now intros ->.
Qed.

Lemma wrote_dense_self s V p off d V' p' q :
  wrote (bmapblock s) (disksize (bio_of s)) V p off d V' p' -> i_addrs q = i_addrs p' ->
  i_size q <= Z.max (i_size p) (off + Z.of_nat (length d)) -> i_size q <= MAXFILE * BSIZE -> off <= i_size p -> dense V p -> dense V' q.
Proof.
  intros W Ha Hs Hmax Ho Hd k Hk. replace (addr_of V' q (k / BSIZE)) with (addr_of V' p' (k / BSIZE)) by (unfold addr_of, ind_of; now rewrite Ha).
  destruct (Z.ltb_spec k (i_size p)).
  - rewrite (wt_keep _ _ _ _ _ _ _ _ W); [apply Hd; lia|apply block_range; lia|apply Hd; lia].
  - apply (wt_mapped _ _ _ _ _ _ _ _ W). lia.
Qed.

Section Write.
Context {fuel : Fuel} `{Devices fsst}.
Variables (s : fsst) (bs : list Z) (V : Z -> block) (F : list nat) (i : nat) (off : Z) (d : list Z).
Let p := iof i s.
Let n := Z.of_nat (length d).
Hypothesis lay : layout s.
Hypothesis meta : meta_used s V.
Hypothesis fls : files s V F.
Hypothesis i_in : i ∈ F.

(** What [writei] promises when it accepts the range. *)
Record written (c' : ctx) (s' : fsst) : Prop := {
  wr_held : held c' = [];
  wr_post : exists bs' V', tr s' bs' V' [] /\ layout s' /\ meta_used s' V' /\ files s' V' F /\
    contents V' (iof i s') = write_at (contents V p) off d /\
    (forall j, j ∈ F -> j <> i -> contents V' (iof j s') = contents V (iof j s)) /\
    Z.of_nat (length bs') <= Z.of_nat (length bs) + nblocks off n + 4
}.

Hypothesis off_ok : 0 <= off <= i_size p.
Hypothesis fits : off + n <= MAXFILE * BSIZE.

(** The size did not grow: the inode is as before. *)
Lemma written_inside c1 s1 bs1 V1 p1 :
  held c1 = [] -> writing s bs V i off d s1 bs1 V1 p1 -> off + n <= i_size p -> written c1 s1.
Proof.
  intros Hc W Hle. destruct (fl_inv _ _ _ fls i i_in) as [Hci Hfi]. fold p in Hfi. pose proof Hfi as [Hf Hd Hs Ht Hn H16 Hdisk].
  destruct (writing_file _ _ _ _ _ _ _ _ _ _ Hf Hci W) as (E1 & _ & Hf1 & _ & _).
  assert (Ep : p1 = p).
  { apply (wi_same _ _ _ _ _ _ _ _ _ _ W). intros k Hk. apply Hd. fold n in Hk. lia. }
  pose proof (wi_wrote _ _ _ _ _ _ _ _ _ _ W) as Wt. pose proof (wi_frame _ _ _ _ _ _ _ _ _ _ W) as Fr.
  assert (I1 : file_inv s1 V1 p1).
  { assert (I : file_inv (iset i (fun _ => p1) s) V1 p1); [|exact (file_inv_frame _ _ _ _ Fr I)].
    rewrite Ep in *. split; try done.
    - exact (file_ok_iset i _ _ _ _ (wrote_file_ok _ _ _ _ _ _ _ Hf Wt)).
    - eapply (wrote_dense_self s V); try done; fold p; lia.
    - apply (on_disk_frame s); [done|]. eapply (after_disk s V i off d V1); try done. }
  split; [done|]. exists bs1, V1. split_and!.
  - apply W.
  - exact (writing_layout _ _ _ _ _ _ _ _ _ _ lay W).
  - apply W.
  - eapply (files_after s V F i off d V1 p1 s1 V1 p1); try done. now rewrite Ep.
  - rewrite E1, Ep. eapply (wrote_write_at _ _ V p off d V1 p1); [exact Wt|now rewrite Ep|fold n; lia|done|apply Hs].
  - intros j Hj Hne. rewrite (after_iof s V F i s1 p1), decide_False; try done.
    eapply (after_other s V F i off d V1 p1 s1 V1 p1); try done.
  - pose proof (logged_length _ _ _ _ _ _ _ (ls_nodup _ _ (tr_log _ _ _ _ (wi_tr _ _ _ _ _ _ _ _ _ _ W))) (wi_bs _ _ _ _ _ _ _ _ _ _ W)).
    pose proof (bs_add_length (bmapblock s) bs1). pose proof (nblocks_nonneg off n). fold n in H0. lia.
Qed.
(** The size grew, and the inode was stored. *)
Lemma written_beyond c2 s1 bs1 V1 p1 s2 :
  let q := iset_size (off + n) p1 in
  let s1' := iset i (iset_size (off + n)) s1 in
  held c2 = [] -> writing s bs V i off d s1 bs1 V1 p1 -> i_size p < off + n ->
  tr s2 (bs_add (IBLOCK (i_inum q) (fs_sb s1')) bs1) (update_V s1' V1 q) [] -> frame s1' s2 -> written c2 s2.
Proof.
  intros q s1' Hc W Hlt T2 F2. destruct (fl_inv _ _ _ fls i i_in) as [Hci Hfi]. fold p in Hfi.
  pose proof Hfi as [Hf Hd Hs Ht Hn H16 Hdisk].
  pose proof (wi_wrote _ _ _ _ _ _ _ _ _ _ W) as Wt. pose proof (wi_frame _ _ _ _ _ _ _ _ _ _ W) as Fr.
  pose proof (wrote_file_ok _ _ _ _ _ _ _ Hf Wt) as Hf1. pose proof (wt_inode _ _ _ _ _ _ _ _ Wt) as Ep. fold p in Ep.
  assert (Hq : q = iset_size (off + n) (iset_addrs (i_addrs p1) p)) by (unfold q; now rewrite Ep at 1).
  assert (Fr2 : frame (iset i (fun _ => q) s) s2).
  { eapply frame_trans; [|exact F2]. apply (frame_iset i (iset_size (off + n))) in Fr. now rewrite iset_iset_const in Fr. }
  assert (Esb : fs_sb s1' = fs_sb s) by exact (fr_sb _ _ Fr).
  assert (Einum : i_inum q = i_inum p) by now rewrite Hq.
  assert (EB : IBLOCK (i_inum q) (fs_sb s1') < bmapblock s).
  { rewrite Einum, Esb. now apply IBLOCK_range. }
  set (V2 := update_V s1' V1 q) in *.
  assert (Habove : forall m, bmapblock s <= m -> V2 m = V1 m) by (intros m Hm; apply vset_ne; lia).
  assert (Hfq : file_ok s V1 q) by (destruct Hf1 as [G1 G2 G3]; now split).
  assert (Hsq : 0 <= i_size q <= MAXFILE * BSIZE) by (change (i_size q) with (off + n); lia).
  assert (H16q : s16 (i_type q) = i_type q /\ s16 (i_major q) = i_major q /\ s16 (i_minor q) = i_minor q /\ s16 (i_nlink q) = i_nlink q) by now rewrite Hq.
  assert (L1 : layout s1) by exact (writing_layout _ _ _ _ _ _ _ _ _ _ lay W).
  assert (I2 : file_inv s2 V2 q).
  { assert (I : file_inv (iset i (fun _ => q) s) V2 q); [|exact (file_inv_frame _ _ _ _ Fr2 I)].
    split; try done.
    - exact (file_ok_iset i _ _ _ _ (meta_file s V1 V2 _ Habove Hfq)).
    - apply (meta_dense s V1 V2 _ Habove Hfq). eapply (wrote_dense_self s V); [exact Wt|done| |apply Hsq|apply off_ok|exact Hd].
      change (i_size q) with (off + n). fold n. lia.
    - now rewrite Hq.
    - unfold inum_ok. rewrite Einum. exact Hn.
    - apply (on_disk_frame s1'); [now rewrite Esb|].
      eapply (update_on_disk s1' bs1 V1 []); [apply tr_iset, W|now apply layout_iset| |].
      + unfold inum_ok. rewrite Esb, Einum. exact Hn.
      + eapply (file_fits s1 bs1 V1 []); [apply W|done| |done|done].
        destruct Hfq as [G1 G2 G3]. split; [done|done|]. rewrite (fr_disk _ _ Fr).
        pose proof (frame_bmap _ _ Fr) as EB1. rewrite EB1. exact G3. }
  assert (Hoth : forall r, inum_ok s (i_inum r) -> i_inum r <> i_inum (iof i s) -> on_disk s V1 r -> on_disk s V2 r).
  { intros r Hr Hne Hdr. apply (on_disk_frame s1'); [done|]. apply update_other.
    - now apply layout_iset.
    - unfold inum_ok. rewrite Esb, Einum. exact Hn.
    - unfold inum_ok. now rewrite Esb.
    - rewrite Einum. unfold p. congruence.
    - now apply (on_disk_frame s). }
  split; [done|]. eexists _, V2. split_and!; [exact T2| | | | | |].
  - eapply layout_frame; [exact F2|now apply layout_iset].
  - apply (meta_used_frame _ _ _ F2). apply (meta_meta s1' V1 V2); [|exact (wi_meta _ _ _ _ _ _ _ _ _ _ W)].
    intros m Hm. apply Habove. pose proof (frame_bmap _ _ Fr) as EB1. change (bmapblock s1' = bmapblock s) in EB1. lia.
  - eapply (files_after s V F i off d V1 p1 s2 V2 q); done.
  - rewrite (after_iof s V F i s2 q), decide_True by done.
    rewrite (meta_contents s V1 V2 _ Habove Hfq) by lia.
    eapply (wrote_write_at _ _ V p off d V1 p1); [exact Wt|done|change (i_size q) with (off + n); fold n; lia|done|lia].
  - intros j Hj Hne. rewrite (after_iof s V F i s2 q), decide_False by done.
    eapply (after_other s V F i off d V1 p1 s2 V2 q); done.
  - pose proof (logged_length _ _ _ _ _ _ _ (ls_nodup _ _ (tr_log _ _ _ _ (wi_tr _ _ _ _ _ _ _ _ _ _ W))) (wi_bs _ _ _ _ _ _ _ _ _ _ W)) as Hl.
    pose proof (bs_add_length (bmapblock s) bs1). pose proof (nblocks_nonneg off n). fold n in Hl.
    pose proof (bs_add_length (IBLOCK (i_inum q) (fs_sb s1')) bs1). lia.
Qed.
Lemma wp_writei (fuel_pos : (0 < wakeups)%nat) (Q : Z -> ctx -> fsst -> Prop) c :
  held c = [] -> tr s bs V [] -> Forall is_u8 d -> free s V (2 * rounds n) -> Z.of_nat (length bs) + nblocks off n <= 24 ->
  (forall c' s', written c' s' -> Q n c' s') -> wp (writei i (from_local d) off n) Q c s.
Proof.
  intros Hc T Hd Hfree Hlog HQ. destruct (fl_inv _ _ _ fls i i_in) as [Hci Hfi]. fold p in Hfi.
  pose proof Hfi as [Hf _ Hs Ht Hn _ _]. unfold writei. apply wp_bind, wp_gets. fold p.
  destruct (Z.eqb_spec (i_type p) T_DEV); [done|]. assert (Hm : MAXFILE * BSIZE = 71680) by done.
  rewrite u32_overflow by (unfold is_u32; lia). change (2 ^ 32) with 4294967296.
  destruct (Z.ltb_spec (i_size p) off); [lia|]. destruct (Z.leb_spec 4294967296 (off + n)); [lia|]. cbn [orb].
  rewrite u32_small by (unfold is_u32; lia). destruct (Z.ltb_spec (MAXFILE * BSIZE) (off + n)); [lia|].
  apply wp_bind. rewrite <- (Z.add_0_r off) at 1.
  eapply (wp_writei_from s bs V i off lay Hci Hf ltac:(lia) d Hd ltac:(fold n; lia) Hlog fuel_pos _ 0 s bs V p); try done.
  { apply writing_none; done. } { fold n. lia. } { now left. }
  { intros _. fold n. rewrite Z.sub_0_r, Z.add_0_r. apply rounds_enough. lia. }
  intros c1 s1 bs1 V1 p1 Hc1 W. fold n in W |- *. apply wp_bind, wp_gets.
  destruct (writing_file _ _ _ _ _ _ _ _ _ _ Hf Hci W) as (E1 & Hc11 & Hf1 & _ & _). rewrite E1.
  assert (Es : i_size p1 = i_size p).
  { now rewrite (wt_inode _ _ _ _ _ _ _ _ (wi_wrote _ _ _ _ _ _ _ _ _ _ W)). }
  rewrite Es. apply wp_bind. unfold when.
  destruct (Z.ltb_spec (i_size p) (off + n)).
  - rewrite (proj2 (Z.ltb_lt 0 n)) by lia. cbn [andb]. apply wp_bind, wp_modify. cbn [infs fs_self].
    set (s1' := iset i (iset_size (off + n)) s1).
    assert (E2 : iof i s1' = iset_size (off + n) p1) by (unfold s1'; now rewrite iof_iset, E1).
    eapply (wp_iupdate fuel_pos s1' bs1 V1 i); rewrite ?E2; [done|apply tr_iset, W| | | | |].
    + apply layout_iset. exact (writing_layout _ _ _ _ _ _ _ _ _ _ lay W).
    + apply Hf1.
    + rewrite (wt_inode _ _ _ _ _ _ _ _ (wi_wrote _ _ _ _ _ _ _ _ _ _ W)). unfold inum_ok.
      rewrite (fr_sb _ _ (wi_frame _ _ _ _ _ _ _ _ _ _ W) : fs_sb s1' = fs_sb s). exact Hn.
    + pose proof (logged_length _ _ _ _ _ _ _ (ls_nodup _ _ (tr_log _ _ _ _ (wi_tr _ _ _ _ _ _ _ _ _ _ W))) (wi_bs _ _ _ _ _ _ _ _ _ _ W)) as Hl.
      pose proof (bs_add_length (bmapblock s) bs1). pose proof (nblocks_nonneg off n). fold n in Hl. lia.
    + intros c2 s2 Hc2 T2 F2. apply wp_ret, HQ. eapply (written_beyond c2 s1 bs1 V1 p1 s2); done.
  - rewrite andb_false_r. apply wp_ret, wp_ret, HQ. eapply written_inside; done.
Qed.
End Write.

(** The ranges [writei] refuses. *)
Lemma writei_refuses `{fuel : Fuel} `{Devices fsst} i fetch off n (Q : Z -> ctx -> fsst -> Prop) c s :
  i_type (iof i s) <> T_DEV -> 0 <= i_size (iof i s) <= MAXFILE * BSIZE ->
  i_size (iof i s) < off \/ MAXFILE * BSIZE < off + n -> is_u32 off -> is_u32 n ->
  Q (-1) c s -> wp (writei i fetch off n) Q c s.
Proof.
  intros Ht Hs Hr Ho Hn HQ. unfold writei. apply wp_bind, wp_gets. destruct (Z.eqb_spec (i_type (iof i s)) T_DEV); [done|].
  rewrite u32_overflow by done. change (2 ^ 32) with 4294967296. unfold is_u32 in *.
  destruct (Z.ltb_spec (i_size (iof i s)) off); cbn [orb]; [now apply wp_ret|].
  destruct (Z.leb_spec 4294967296 (off + n)); [now apply wp_ret|]. rewrite u32_small by (unfold is_u32; lia).
  destruct (Z.ltb_spec (MAXFILE * BSIZE) (off + n)); [now apply wp_ret|lia].
Qed.

Lemma files_frame s s' V F : frame s s' -> files s V F -> files s' V F.
Proof.
  intros Fr [H1 H2]. split.
  - intros i Hi. destruct (H1 i Hi). rewrite (frame_iof i _ _ Fr), (fr_icache _ _ Fr). split; [done|].
    now apply (file_inv_frame s).
  - intros i j Hi Hj Hne. rewrite !(frame_iof _ _ _ Fr). now apply H2.
Qed.

(** The reference count, the lock and the valid flag are not part of a file. *)
Definition fsim (p q : inode) : Prop :=
  q = Inode (i_dev p) (i_inum p) (i_ref q) (i_locked q) (i_valid q) (i_type p) (i_major p) (i_minor p) (i_nlink p) (i_size p) (i_addrs p).

Lemma fsim_refl p : fsim p p.
Proof. now destruct p. Qed.
Lemma fsim_inum p q : fsim p q -> i_inum q = i_inum p.
Proof. intros ->. done. Qed.
Lemma fsim_owns V p q m : fsim p q -> owns V q m <-> owns V p m.
Proof. intros ->. done. Qed.
Lemma fsim_contents V p q : fsim p q -> contents V q = contents V p.
Proof. intros ->. done. Qed.
Lemma file_inv_sim s V p q : fsim p q -> file_inv s V p -> file_inv s V q.
Proof.
  intros E. rewrite E. generalize (i_ref q), (i_locked q), (i_valid q). clear q E. intros r lk v [[F1 F2 F3] H2 H3 H4 H5 H6 H7].
  split; try done. unfold on_disk in *. cbn [i_inum]. set (d := V _) in *. set (o := dinode_off _) in *.
  assert (E : forall A (f : inode -> A), f (dinode_load d o p) = f p) by (intros A f; now rewrite H7).
  unfold dinode_load in *. cbn in E |- *. f_equal.
  - exact (E _ i_type).
  - exact (E _ i_major).
  - exact (E _ i_minor).
  - exact (E _ i_nlink).
  - exact (E _ i_size).
  - exact (E _ i_addrs).
Qed.

(** * The refinement *)

(** The state of a transaction with the files [F], seen through their bytes. *)
Record fs_view (s : fsst) (bs : list Z) (V : Z -> block) (F : list nat) : Prop := {
  fv_tr : tr s bs V [];
  fv_layout : layout s;
  fv_meta : meta_used s V;
  fv_files : files s V F
}.

(** C20: [readi] of a file returns the bytes of its sequence at the offset, cut at the
    end of the file, or the error when the offset is past the end or the range
    wraps around; nothing of the file system changes.  It always returns. *)
Theorem readi_refines `{fuel : Fuel} `{Devices fsst} s bs V F i l off n c :
  (0 < wakeups)%nat -> held c = [] -> fs_view s bs V F -> i ∈ F -> (length bs < NBUF)%nat -> is_u32 off -> is_u32 n ->
  wp (readi i to_local l off n) (fun '(l', r) c' s' =>
    held c' = [] /\ fs_view s' bs V F /\ frame s s' /\
    match readi_spec (contents V (iof i s)) off n with
    | None => l' = l /\ r = -1
    | Some b => l' = set_bytes l 0 b /\ r = Z.of_nat (length b)
    end) c s.
Proof.
  intros Hfuel Hc [T L M Fl] Hi Hroom Ho Hn. apply (wp_readi Hfuel s bs V); try done; [now apply Fl|].
  intros c' s' Hc' T' Fr. assert (Hv : fs_view s' bs V F).
  { split; [done|exact (layout_frame _ _ Fr L)|exact (meta_used_frame _ _ _ Fr M)|exact (files_frame _ _ _ _ Fr Fl)]. }
  now destruct (readi_spec _ off n).
Qed.

(** C14: [writei] replaces the bytes of the file at the offset, or extends it, or
    refuses; the sequences of the other files do not change, every file stays well
    formed, and at most four blocks more than the range covers join the log.  It
    always returns when blocks are free and the log has room. *)
Theorem writei_refines `{fuel : Fuel} `{Devices fsst} s bs V F i off d c :
  let n := Z.of_nat (length d) in
  (0 < wakeups)%nat -> held c = [] -> fs_view s bs V F -> i ∈ F -> is_u32 off -> is_u32 n -> Forall is_u8 d ->
  (off + n <= MAXFILE * BSIZE -> free s V (2 * rounds n) /\ Z.of_nat (length bs) + nblocks off n <= 24) ->
  wp (writei i (from_local d) off n) (fun r c' s' =>
    held c' = [] /\ exists bs' V', fs_view s' bs' V' F /\
      (r, contents V' (iof i s')) = writei_spec (contents V (iof i s)) off d /\
      (forall j, j ∈ F -> j <> i -> contents V' (iof j s') = contents V (iof j s)) /\
      Z.of_nat (length bs') <= Z.of_nat (length bs) + nblocks off n + 4) c s.
Proof.
  intros n Hfuel Hc Hv Hi Ho Hn Hd Hroom. pose proof Hv as [T L M Fl]. destruct (fl_inv _ _ _ Fl i Hi) as [Hci Hfi].
  pose proof (fi_size _ _ _ Hfi) as Hs. unfold writei_spec. rewrite length_contents, Z2Nat.id by lia. fold n.
  destruct (Z.ltb_spec (i_size (iof i s)) off), (Z.ltb_spec (MAXFILE * BSIZE) (off + n)); cbn [orb].
  1-3: apply writei_refuses; [apply Hfi|done|lia|done|done|]; split; [done|]; exists bs, V; pose proof (nblocks_nonneg off n); split_and!; done || lia.
  destruct Hroom as [Hfree Hlog]; [done|]. unfold is_u32 in Ho.
  apply (wp_writei s bs V F i off d L M Fl Hi ltac:(lia) ltac:(fold n; lia) Hfuel); try done.
  intros c' s' [Hc' (bs' & V' & T' & L' & M' & Fl' & Hcont & Hoth & Hlen)]. split; [done|]. exists bs', V'.
  split_and!; [done|fold n; congruence|done|done].
Qed.
