(* ===== verification/FsIcache.v ===== *)
(** fs.c: the inode cache.  [iget] keeps at most one entry for an inode, so that
    its sleep lock and its reference count are those of the inode. *)
From S2P Require Import Prelude Monad Mem Mmu Sleeplock Disk Bio Bcache Log LogProps Fs FsTrans.
From S2P Require Import FsAlloc FsData FsFile FsRw FsInode FsWrite FsRefine.

(** * One entry per inode *)

Definition is_key (dev inum : Z) (p : inode) : Prop := 0 < i_ref p /\ i_dev p = dev /\ i_inum p = inum.

Record cache_ok (s : fsst) : Prop := {
  co_ref i p : icache s !! i = Some p -> 0 <= i_ref p;
  co_one i j p q : icache s !! i = Some p -> icache s !! j = Some q -> 0 < i_ref p -> 0 < i_ref q ->
    i_dev p = i_dev q -> i_inum p = i_inum q -> i = j
}.

Lemma is_key_test dev inum p :
  (0 <? i_ref p) && (i_dev p =? dev) && (i_inum p =? inum) = true <-> is_key dev inum p.
Proof. unfold is_key. rewrite !andb_true_iff, Z.ltb_lt, !Z.eqb_eq. tauto. Qed.

(** The loop of [iget]: a hit, or the first unused entry. *)
Lemma iget_find_hit dev inum l k e i :
  iget_find dev inum l k e = inl i -> exists p, (k <= i)%nat /\ l !! (i - k)%nat = Some p /\ is_key dev inum p.
Proof.
  revert k e. induction l as [|p l IH]; intros k e; cbn [iget_find]; [done|].
  destruct (_ && _) eqn:E.
  - intros [= <-]. exists p. rewrite Nat.sub_diag. split_and!; [lia|done|now apply is_key_test].
  - intros H. apply IH in H as (q & Hk & Hl & Hq). exists q. split_and!; [lia| |done].
    now replace (i - k)%nat with (S (i - S k))%nat by lia.
Qed.

Lemma iget_find_miss dev inum l k e r :
  iget_find dev inum l k e = inr r -> forall i p, l !! i = Some p -> ~ is_key dev inum p.
Proof.
  revert k e. induction l as [|p l IH]; intros k e; cbn [iget_find]; [done|].
  destruct (_ && _) eqn:E; [done|]. intros H [|i] q Hq.
  - injection Hq as <-. rewrite <- is_key_test. congruence.
  - eapply IH; eauto.
Qed.

Lemma iget_find_empty dev inum l k e r :
  iget_find dev inum l k e = inr r ->
  match e with
  | Some _ => r = e
  | None =>
      match r with
      | Some i => exists p, (k <= i)%nat /\ l !! (i - k)%nat = Some p /\ i_ref p = 0
      | None => forall i p, l !! i = Some p -> i_ref p <> 0
      end
  end.
Proof.
  revert k e. induction l as [|p l IH]; intros k e; cbn [iget_find].
  - intros [= <-]. now destruct e.
  - destruct (_ && _); [done|]. intros H. apply IH in H. destruct e as [e|]; [done|].
    destruct (Z.eqb_spec (i_ref p) 0).
    + subst r. exists p. rewrite Nat.sub_diag. done.
    + destruct r as [i|].
      * destruct H as (q & Hk & Hl & Hq). exists q. split_and!; [lia| |done].
        now replace (i - k)%nat with (S (i - S k))%nat by lia.
      * intros [|i] q Hq; [now injection Hq as <-|eauto].
Qed.

(** The entry after [iget]: one more reference, or a new entry. *)
Definition got (dev inum : Z) (p q : inode) : Prop :=
  is_key dev inum p /\ q = iset_ref (i_ref p + 1) p \/
  i_ref p = 0 /\ q = iset_valid false (iset_ref 1 (iset_key dev inum p)).

(** Room for one more inode: it is cached already, or an entry is unused. *)
Definition iget_room (dev inum : Z) (s : fsst) : Prop :=
  exists i p, icache s !! i = Some p /\ (is_key dev inum p \/ i_ref p = 0).

Section Iget.
Context {fuel : Fuel}.

Lemma wp_iget dev inum s (Q : nat -> ctx -> fsst -> Prop) c :
  held c = [] -> iget_room dev inum s ->
  (forall i p q c', icache s !! i = Some p -> got dev inum p q ->
     (i_ref p = 0 -> forall j r, icache s !! j = Some r -> ~ is_key dev inum r) ->
     held c' = [] -> Q i c' (iset i (fun _ => q) s)) ->
  wp (iget dev inum) Q c s.
Proof.
  intros Hc (i0 & p0 & Hi0 & Hp0) HQ. destruct c as [h w]. cbn in Hc. subst h.
  unfold iget. apply wp_bind, wp_acquire; [apply not_elem_of_nil|]. apply wp_bind, wp_gets.
  assert (E : forall i f p, icache s !! i = Some p -> iset i f s = iset i (fun _ => f p) s).
  { intros i f p Hp. replace p with (iof i s) by (unfold iof; now rewrite Hp). symmetry. apply iset_const. now rewrite Hp. }
  destruct (iget_find dev inum (icache s) 0 None) as [i|r] eqn:Ef.
  - apply iget_find_hit in Ef as (p & _ & Hp & Hk). rewrite Nat.sub_0_r in Hp.
    apply wp_bind, wp_modify, wp_bind. eapply wp_release; [done|]. apply wp_ret. rewrite (E i _ p Hp).
    eapply HQ; [exact Hp|now left| |done]. destruct Hk as [Hk _]. lia.
  - pose proof (iget_find_miss _ _ _ _ _ _ Ef) as Hm. apply iget_find_empty in Ef. destruct r as [i|].
    + destruct Ef as (p & _ & Hp & Hr). rewrite Nat.sub_0_r in Hp.
      apply wp_bind, wp_modify, wp_bind. eapply wp_release; [done|]. apply wp_ret. rewrite (E i _ p Hp).
      eapply HQ; [exact Hp|now right|intros _; exact Hm|done].
    + exfalso. destruct Hp0 as [Hk|Hr]; [exact (Hm i0 p0 Hi0 Hk)|exact (Ef i0 p0 Hi0 Hr)].
Qed.
End Iget.

Lemma icache_iset i q s j :
  icache (iset i (fun _ => q) s) !! j = if decide (j = i) then (fun _ => q) <$> (icache s !! i) else icache s !! j.
Proof.
  unfold iset; cbn. destruct (decide (j = i)) as [->|Hne]; [apply list_lookup_alter_eq|now apply list_lookup_alter_ne].
Qed.

(** [iget] keeps one entry per inode. *)
Lemma cache_got s dev inum i p q :
  cache_ok s -> icache s !! i = Some p -> got dev inum p q ->
  (i_ref p = 0 -> forall j r, icache s !! j = Some r -> ~ is_key dev inum r) ->
  cache_ok (iset i (fun _ => q) s) /\ is_key dev inum q.
Proof.
  intros [H1 H2] Hp Hg Hm. pose proof (H1 i p Hp) as Hr.
  assert (Hq : is_key dev inum q /\ i_dev q = dev /\ i_inum q = inum).
  { destruct Hg as [[(K1 & K2 & K3) ->]|[K ->]]; unfold is_key; cbn; split_and!; lia || done. }
  destruct Hq as (Hq & Ed & Ei). split; [|done].
  assert (Hone : forall j r, j <> i -> icache s !! j = Some r -> 0 < i_ref r -> i_dev r = dev -> i_inum r = inum -> False).
  { intros j r Hne Hj Hr0 Er1 Er2. destruct Hg as [[(K1 & K2 & K3) _]|[K _]].
    - apply Hne. apply (H2 j i r p); congruence.
    - apply (Hm K j r Hj). done. }
  split.
  - intros j r. rewrite icache_iset. destruct (decide (j = i)); [|apply H1]. rewrite Hp. intros [= <-]. destruct Hq. lia.
  - intros j k r r'. rewrite !icache_iset, Hp. cbn [fmap option_fmap option_map].
    destruct (decide (j = i)) as [->|Hj], (decide (k = i)) as [->|Hk]; intros E1 E2 R1 R2 D I; [done| | |now apply (H2 j k r r')].
    + injection E1 as <-. exfalso. apply (Hone k r' Hk E2 R2); congruence.
    + injection E2 as <-. exfalso. apply (Hone j r Hj E1 R1); congruence.
Qed.

Lemma iof_lookup i p s : icache s !! i = Some p -> iof i s = p.
Proof. intros H. unfold iof. now rewrite H. Qed.

(** C22: when the inode is cached or an entry is unused, [iget] returns the entry
    [i] of the inode: if some entry cached it, this one, with one more reference
    and nothing else changed; otherwise an entry that nobody had a reference to,
    recycled for the inode with one reference and its fields marked not read.
    Every other entry and the rest of the file system's state are as before, and
    the cache still has one entry per inode. *)
Theorem iget_one_entry `{fuel : Fuel} s dev inum c :
  held c = [] -> cache_ok s -> iget_room dev inum s ->
  wp (iget dev inum) (fun i c' s' => exists p q,
    held c' = [] /\ cache_ok s' /\ icache s !! i = Some p /\ icache s' !! i = Some q /\
    is_key dev inum q /\ s' = iset i (fun _ => q) s /\
    (is_key dev inum p /\ q = iset_ref (i_ref p + 1) p \/
     (forall j r, icache s !! j = Some r -> ~ is_key dev inum r) /\ i_ref p = 0 /\
     q = iset_valid false (iset_ref 1 (iset_key dev inum p)))) c s.
Proof.
  intros Hc Hco Hr. eapply wp_iget; [done|done|]. intros i p q c' Hp Hg Hm Hc'.
  destruct (cache_got s dev inum i p q Hco Hp Hg Hm) as [Hco' Hk]. exists p, q.
  split_and!; try done; [rewrite icache_iset, decide_True by done; now rewrite Hp|].
  destruct Hg as [[K ->]|[K ->]]; [left; done|right]. split_and!; [exact (Hm K)|done|done].
Qed.
