(* ===== verification/FsDir.v ===== *)
(** fs.c: directories.  The entries of a directory are a finite map from names to
    inode numbers; [dirlookup] looks a name up, and [dirlink] adds one. *)
From S2P Require Import Prelude Monad Mem Mmu Cstring Sleeplock Disk Bio Bcache Log LogProps Fs.
From S2P Require Import FsTrans FsAlloc FsData FsFile FsRw FsInode FsWrite FsRefine FsIcache.

(** * Names *)

(** The name in a buffer of [DIRSIZ] bytes. *)
Definition cname (l : list Z) : list Z := cut0 (take 14 l).

Lemma cstr_cut0 m a l k :
  (forall i, 0 <= i < Z.of_nat k -> ld m (a + i) = aget 0 l i) -> cstr m a k = cut0 (take k l).
Proof.
  revert a l. induction k as [|k IH]; intros a l Hm; [done|]. cbn [cstr].
  pose proof (Hm 0 ltac:(lia)) as H0. rewrite Z.add_0_r in H0. rewrite H0.
  destruct l as [|c l]; [done|]. rewrite aget_cons_0. cbn [take cut0]. destruct (c =? 0); [done|]. f_equal. apply IH.
  intros i Hi. replace (a + 1 + i) with (a + (i + 1)) by lia. rewrite Hm, aget_cons_S by lia. f_equal. lia.
Qed.

Lemma aget_take (l : list Z) k i : 0 <= i < Z.of_nat k -> aget 0 (take k l) i = aget 0 l i.
Proof. intros Hi. unfold aget. rewrite lookup_take_lt by lia. done. Qed.

Lemma ld_name l a i : 0 <= i < 14 -> ld (sts ∅ a (take 16 l)) (a + i) = aget 0 l i.
Proof.
  intros Hi. rewrite ld_sts. replace (a + i - a) with i by lia. rewrite length_take.
  destruct (Z.leb_spec a (a + i)), (Z.ltb_spec (a + i) (a + Z.of_nat (16 `min` length l))); cbn [andb]; try lia.
  - apply aget_take. lia.
  - unfold aget. rewrite lookup_ge_None_2 by lia. done.
Qed.

Lemma namecmp_zero s t : (namecmp s t =? 0) = bool_decide (cname t = cname s).
Proof.
  apply eq_true_iff_eq. rewrite Z.eqb_eq, bool_decide_eq_true. unfold namecmp, strncmp. rewrite strncmp_n_zero.
  change (Z.to_nat DIRSIZ) with 14%nat.
  rewrite (cstr_cut0 _ 0 s), (cstr_cut0 _ 16 t); [unfold cname; split; congruence| |].
  - intros i Hi. rewrite <- (ld_name t 16 i) by lia. rewrite !ld_sts.
    destruct (_ && _) eqn:E; [done|]. rewrite length_take in *.
    destruct (Z.leb_spec 0 (16 + i)), (Z.ltb_spec (16 + i) (0 + Z.of_nat (16 `min` length s))); cbn [andb]; lia || done.
  - intros i Hi. rewrite <- (ld_name s 0 i) by lia. rewrite (ld_sts _ 16).
    destruct (Z.leb_spec 16 (0 + i)); [lia|]. done.
Qed.

Lemma length_cut0 l : (length (cut0 l) <= length l)%nat.
Proof. induction l as [|c l IH]; cbn; [lia|]. destruct (c =? 0); cbn; lia. Qed.
Lemma cut0_nonzero l : Forall (fun c => c <> 0) (cut0 l).
Proof. induction l as [|c l IH]; cbn; [constructor|]. destruct (Z.eqb_spec c 0); constructor; done. Qed.
Lemma cut0_pad l k : Forall (fun c => c <> 0) l -> cut0 (l ++ replicate k 0) = l.
Proof.
  induction 1 as [|c l Hc _ IH]; cbn; [now destruct k|]. destruct (Z.eqb_spec c 0); [done|]. now rewrite IH.
Qed.

(** The entry that [dirlink] writes. *)
Lemma dirent_eq name inum :
  dirent name inum = le_bytes 2 inum ++ cname name ++ replicate (14 - length (cname name)) 0.
Proof.
  unfold dirent. f_equal. unfold strncpy. change (Z.to_nat DIRSIZ) with 14%nat.
  assert (Hl : (length (cname name) <= 14)%nat).
  { unfold cname. pose proof (length_cut0 (take 14 name)). rewrite length_take in *. lia. }
  apply list_eq_same_length with 14%nat.
  - rewrite length_app, length_replicate. lia.
  - apply length_lds.
  - intros i x y Hi. rewrite lds_lookup by done. rewrite ld_strncpy_n by (left; cbn; lia).
    rewrite (cstr_cut0 _ 16 name) by (intros j Hj; now apply ld_name). fold (cname name).
    unfold within. destruct (Z.leb_spec 0 (0 + Z.of_nat i)), (Z.ltb_spec (0 + Z.of_nat i) (0 + Z.of_nat 14)); cbn [andb]; try lia.
    intros [= <-]. unfold aget. replace (Z.to_nat (0 + Z.of_nat i - 0)) with i by lia.
    destruct (decide (i < length (cname name))%nat).
    + rewrite lookup_app_l by done. now intros ->.
    + rewrite lookup_app_r, (lookup_ge_None_2 (cname name)) by lia. intros [-> _]%lookup_replicate. done.
Qed.

Lemma length_dirent name inum : length (dirent name inum) = 16%nat.
Proof. unfold dirent. rewrite length_app, length_le_bytes, length_lds. done. Qed.

Lemma de_inum_dirent name inum : is_u16 inum -> de_inum (dirent name inum) = inum.
Proof.
  intros Hi. rewrite dirent_eq. unfold de_inum, rd16, bytes_at. change (Z.to_nat 0) with 0%nat. change (Z.to_nat 2) with 2%nat.
  rewrite drop_0, take_app_length' by (now rewrite length_le_bytes). rewrite le_val_bytes. now apply u16_small.
Qed.

Lemma de_name_dirent name inum : cname (de_name (dirent name inum)) = cname name.
Proof.
  rewrite dirent_eq. unfold de_name, bytes_at. change (Z.to_nat 2) with 2%nat. change (Z.to_nat DIRSIZ) with 14%nat.
  rewrite drop_app_length' by (now rewrite length_le_bytes). unfold cname at 1. rewrite take_take.
  assert (Hl : (length (cname name) <= 14)%nat).
  { unfold cname. pose proof (length_cut0 (take 14 name)). rewrite length_take in *. lia. }
  rewrite take_ge by (rewrite length_app, length_replicate; cbn; lia). apply cut0_pad, cut0_nonzero.
Qed.

(** * Directories as lists of entries *)

Definition dirents (l : list Z) : list (list Z) := (fun k => bytes_at l (16 * k) 16) <$> zrange (length l / 16).

(** The first entry with [P] and its offset. *)
Fixpoint scan (P : list Z -> bool) (des : list (list Z)) (off : Z) : option (list Z * Z) :=
  match des with
  | [] => None
  | de :: des' => if P de then Some (de, off) else scan P des' (off + DIRENT_SIZE)
  end.

Definition is_empty (de : list Z) : bool := de_inum de =? 0.
Definition is_name (name de : list Z) : bool := negb (is_empty de) && bool_decide (cname (de_name de) = cname name).

Definition dir_lookup (l name : list Z) : option (Z * Z) :=
  match scan (is_name name) (dirents l) 0 with
  | Some (de, off) => Some (de_inum de, off)
  | None => None
  end.
(** Where [dirlink] writes, and the directory after it. *)
Definition dir_slot (l : list Z) : Z :=
  match scan is_empty (dirents l) 0 with
  | Some (_, off) => off
  | None => Z.of_nat (length l)
  end.
Definition dir_link (l name : list Z) (inum : Z) : list Z := write_at l (dir_slot l) (dirent name inum).

(** A directory holds whole entries. *)
Definition whole (l : list Z) : Prop := Z.of_nat (length l) mod 16 = 0.

Lemma whole_length l : whole l -> Z.of_nat (length l) = 16 * Z.of_nat (length (dirents l)).
Proof.
  unfold whole, dirents. intros H. rewrite length_fmap, length_zrange, Nat2Z.inj_div.
  rewrite (Z.div_mod (Z.of_nat (length l)) 16) at 1 by done. change (Z.of_nat 16) with 16. lia.
Qed.

Lemma dirents_lookup l (k : nat) :
  dirents l !! k = if decide (k < length l / 16)%nat then Some (bytes_at l (16 * Z.of_nat k) 16) else None.
Proof.
  unfold dirents, zrange. rewrite !list_lookup_fmap. destruct (decide _).
  - now rewrite lookup_seq_lt.
  - rewrite lookup_seq_ge by lia. done.
Qed.

Lemma length_dirents l : length (dirents l) = (length l / 16)%nat.
Proof. unfold dirents. now rewrite length_fmap, length_zrange. Qed.

Lemma scan_app P a b off :
  scan P (a ++ b) off =
  match scan P a off with Some r => Some r | None => scan P b (off + 16 * Z.of_nat (length a)) end.
Proof.
  revert off. induction a as [|de a IH]; intros off; cbn [scan app length].
  - f_equal. lia.
  - destruct (P de); [done|]. rewrite IH. unfold DIRENT_SIZE. destruct (scan P a _); [done|]. f_equal. lia.
Qed.

Lemma scan_Some P des off de o :
  scan P des off = Some (de, o) ->
  exists a b, des = a ++ de :: b /\ o = off + 16 * Z.of_nat (length a) /\ scan P a off = None /\ P de = true.
Proof.
  revert off. induction des as [|d des IH]; intros off; cbn [scan]; [done|].
  destruct (P d) eqn:E.
  - intros [= -> ->]. exists [], des. split_and!; [done|cbn; lia|done|done].
  - intros H. apply IH in H as (a & b & -> & -> & Ha & Hd). exists (d :: a), b. unfold DIRENT_SIZE in *.
    cbn [length app scan]. rewrite E. split_and!; [done|lia|done|done].
Qed.

(** The slot splits the entries: before it none is empty, at it an empty one or
    the end. *)
Lemma dir_slot_split l : whole l ->
  exists a b, dirents l = a ++ b /\ dir_slot l = 16 * Z.of_nat (length a) /\
    match b with [] => True | de :: _ => is_empty de = true end.
Proof.
  intros Hw. unfold dir_slot. destruct (scan is_empty (dirents l) 0) as [[de o]|] eqn:E.
  - apply scan_Some in E as (a & b & -> & -> & _ & Hd). exists a, (de :: b). done.
  - exists (dirents l), []. rewrite app_nil_r. split_and!; [done|now apply whole_length|done].
Qed.

Lemma bytes_at_ext (l l' : list Z) off off' n :
  0 <= off -> 0 <= off' ->
  (forall i : nat, (i < Z.to_nat n)%nat -> l !! (Z.to_nat off + i)%nat = l' !! (Z.to_nat off' + i)%nat) ->
  bytes_at l off n = bytes_at l' off' n.
Proof.
  intros H0 H1 H. apply list_eq. intros i. rewrite !bytes_at_lookup by done. destruct (decide _); [|done]. now apply H.
Qed.

Lemma length_write_entry l k de :
  whole l -> length de = 16%nat -> (k <= length (dirents l))%nat ->
  whole (write_at l (16 * Z.of_nat k) de) /\
  length (dirents (write_at l (16 * Z.of_nat k) de)) = (length (dirents l) `max` S k)%nat.
Proof.
  intros Hw Hd Hk. pose proof (whole_length l Hw) as Hl.
  assert (E : Z.of_nat (length (write_at l (16 * Z.of_nat k) de)) = 16 * Z.of_nat (length (dirents l) `max` S k)).
  { rewrite length_write_at by lia. lia. }
  split; [unfold whole; rewrite E, Z.mul_comm; now apply Z.mod_mul|].
  rewrite length_dirents. apply Nat2Z.inj. rewrite Nat2Z.inj_div, E, Z.mul_comm. now apply Z.div_mul.
Qed.

Lemma dirents_write l k de :
  whole l -> length de = 16%nat -> (k <= length (dirents l))%nat ->
  dirents (write_at l (16 * Z.of_nat k) de) = take k (dirents l) ++ de :: drop (S k) (dirents l).
Proof.
  intros Hw Hd Hk. pose proof (whole_length l Hw) as Hl. destruct (length_write_entry l k de Hw Hd Hk) as [_ Hlen].
  set (l' := write_at l _ de) in *.
  assert (Hlook : forall x, l' !! x = if decide (x < 16 * k)%nat then l !! x else if decide (x < 16 * k + 16)%nat then de !! (x - 16 * k)%nat else l !! x).
  { intros x. unfold l'. rewrite write_at_lookup, Hd by lia. replace (Z.to_nat (16 * Z.of_nat k)) with (16 * k)%nat by lia. done. }
  apply list_eq_same_length with (length (dirents l')).
  - rewrite length_app, length_take. cbn [length]. rewrite length_drop. lia.
  - done.
  - intros j x y Hj Hx Hy. rewrite dirents_lookup in Hx. rewrite length_dirents in Hj. rewrite decide_True in Hx by done.
    injection Hx as <-. destruct (decide (j < k)%nat).
    + rewrite lookup_app_l, lookup_take_lt in Hy by (rewrite ?length_take; lia).
      rewrite dirents_lookup, decide_True in Hy by (rewrite <- length_dirents; lia). injection Hy as <-.
      apply bytes_at_ext; [lia|lia|]. intros i Hi. rewrite Hlook, decide_True by lia. done.
    + rewrite lookup_app_r, length_take_le in Hy by (rewrite ?length_take; lia).
      destruct (j - k)%nat as [|r] eqn:Er.
      * injection Hy as <-. transitivity (bytes_at de 0 16); [|apply take_ge; cbn; lia].
        apply bytes_at_ext; [lia|lia|]. intros i Hi. rewrite Hlook. destruct (decide _); [lia|].
        rewrite decide_True by lia. f_equal. lia.
      * change (drop (S k) (dirents l) !! r = Some y) in Hy. rewrite lookup_drop, dirents_lookup in Hy. destruct (decide _) in Hy; [|done]. injection Hy as <-.
        apply bytes_at_ext; [lia|lia|]. intros i Hi. rewrite Hlook. do 2 (destruct (decide _); [lia|]). f_equal. lia.
Qed.

(** [dirlink] as an operation on the map from names to inode numbers. *)
Lemma dir_link_lookup l name inum :
  whole l -> is_u16 inum -> inum <> 0 -> dir_lookup l name = None ->
  whole (dir_link l name inum) /\
  dir_lookup (dir_link l name inum) name = Some (inum, dir_slot l) /\
  (forall other, cname other <> cname name -> dir_lookup (dir_link l name inum) other = dir_lookup l other).
Proof.
  intros Hw Hi Hz Hn. destruct (dir_slot_split l Hw) as (a & b & E & Hs & Hb).
  assert (Hk : (length a <= length (dirents l))%nat) by (rewrite E, length_app; lia).
  pose proof (length_dirent name inum) as Hd. unfold dir_link. rewrite Hs.
  destruct (length_write_entry l (length a) (dirent name inum) Hw Hd Hk) as [Hw' _].
  pose proof (dirents_write l (length a) (dirent name inum) Hw Hd Hk) as Ed.
  rewrite E, take_app_length in Ed. change (S (length a)) with (1 + length a)%nat in Ed.
  assert (Eb : drop (1 + length a) (a ++ b) = tail b).
  { rewrite Nat.add_comm, <- drop_drop, drop_app_length. now destruct b. }
  rewrite Eb in Ed. split; [done|]. unfold dir_lookup in *. rewrite Ed. rewrite E in *. split.
  - rewrite scan_app in Hn |- *. destruct (scan (is_name name) a 0) as [[]|]; [done|]. cbn [scan].
    assert (Hm : is_name name (dirent name inum) = true).
    { unfold is_name, is_empty. rewrite de_inum_dirent, de_name_dirent by done. destruct (Z.eqb_spec inum 0); [done|].
      now apply bool_decide_eq_true. }
    rewrite Hm, de_inum_dirent by done. do 2 f_equal; lia.
  - intros other Ho. rewrite !scan_app. destruct (scan (is_name other) a 0); [done|]. cbn [scan].
    assert (Hm : is_name other (dirent name inum) = false).
    { unfold is_name. rewrite de_name_dirent. rewrite bool_decide_eq_false_2 by congruence. apply andb_false_r. }
    rewrite Hm. destruct b as [|de b]; [done|]. cbn [scan tail]. unfold is_name at 2. rewrite Hb. done.
Qed.

(** * The loops over the entries *)

(** The inodes of the files are in use. *)
Definition live (s : fsst) (F : list nat) : Prop := forall j, j ∈ F -> 0 < i_ref (iof j s).

(** What changed when [iget] returned entry [i] for inode [inum]. *)
Record got_inode (s s' : fsst) (F : list nat) (i : nat) (inum : Z) : Prop := {
  gi_cache : cache_ok s';
  gi_live : live s' F;
  gi_key : is_key 1 inum (iof i s');
  gi_some : is_Some (icache s !! i);
  gi_got : got 1 inum (iof i s) (iof i s');
  gi_other j : j <> i -> iof j s' = iof j s;
  gi_frame : frame (iset i (fun _ => iof i s') s) s'
}.

Lemma live_frame s s' F : frame s s' -> live s F -> live s' F.
Proof. intros Fr H j Hj. rewrite (frame_iof j _ _ Fr). now apply H. Qed.
Lemma cache_ok_frame s s' : frame s s' -> cache_ok s -> cache_ok s'.
Proof. intros Fr [H1 H2]. split; rewrite (fr_icache _ _ Fr); done. Qed.
Lemma iget_room_frame dev inum s s' : frame s s' -> iget_room dev inum s -> iget_room dev inum s'.
Proof. intros Fr. unfold iget_room. now rewrite (fr_icache _ _ Fr). Qed.
Lemma got_inode_frame s s1 s' F i inum : frame s s1 -> got_inode s1 s' F i inum -> got_inode s s' F i inum.
Proof.
  intros Fr [H1 H2 H3 H4 H5 H6 H7]. split; try done.
  - now rewrite <- (fr_icache _ _ Fr).
  - now rewrite <- (frame_iof i _ _ Fr).
  - intros j Hj. rewrite <- (frame_iof j _ _ Fr). now apply H6.
  - eapply frame_trans; [apply frame_iset, Fr|exact H7].
Qed.

(** States that differ in reference counts and the like, and in entries of no file. *)
Lemma fs_view_sim s s' bs V F :
  fs_view s bs V F -> fs_log s' = fs_log s -> fs_sb s' = fs_sb s ->
  (forall j, j ∈ F -> is_Some (icache s' !! j) /\ fsim (iof j s) (iof j s')) -> fs_view s' bs V F.
Proof.
  intros [T L M Fl] El Es Hsame. destruct s' as [lg sb ic]. cbn in El, Es. subst lg sb.
  assert (Hinv : forall p, file_inv s V p -> file_inv (Fsst (fs_log s) (fs_sb s) ic) V p).
  { intros p [[F1 F2 F3] H2 H3 H4 H5 H6 H7]. split; done. }
  split; [|now destruct L|exact M|split].
  - now destruct T.
  - intros j Hj. destruct (fl_inv _ _ _ Fl j Hj) as [_ Hf], (Hsame j Hj) as [Hs Hsim]. split; [done|].
    apply Hinv. exact (file_inv_sim _ _ _ _ Hsim Hf).
  - intros j k Hj Hk Hne. destruct (Hsame j Hj) as [_ S1], (Hsame k Hk) as [_ S2].
    destruct (fl_sep _ _ _ Fl j k Hj Hk Hne) as [Hn Ho].
    pose proof (fsim_inum _ _ S1). pose proof (fsim_inum _ _ S2). split; [congruence|].
    intros m. rewrite (fsim_owns V _ _ m S1), (fsim_owns V _ _ m S2). apply Ho.
Qed.

Lemma iof_const i q s j : is_Some (icache s !! i) -> iof j (iset i (fun _ => q) s) = if decide (j = i) then q else iof j s.
Proof. intros Hi. destruct (decide (j = i)) as [->|Hne]; [now rewrite iof_iset|now apply iof_iset_ne]. Qed.

Lemma icache_some i q s j : is_Some (icache s !! j) -> is_Some (icache (iset i (fun _ => q) s) !! j).
Proof. intros [x Hx]. rewrite icache_iset. destruct (decide (j = i)) as [->|]; rewrite Hx; eauto. Qed.

Lemma fs_view_got s bs V F dev inum i p q :
  fs_view s bs V F -> live s F -> icache s !! i = Some p -> got dev inum p q -> fs_view (iset i (fun _ => q) s) bs V F.
Proof.
  intros Hv Hlv Hp Hg. apply (fs_view_sim s); try done. intros j Hj.
  destruct (fl_inv _ _ _ (fv_files _ _ _ _ Hv) j Hj) as [Hs _]. split; [now apply icache_some|].
  rewrite iof_const by (now rewrite Hp). destruct (decide (j = i)) as [->|Hne]; [|now apply fsim_refl].
  rewrite (iof_lookup _ _ _ Hp). specialize (Hlv i Hj). rewrite (iof_lookup _ _ _ Hp) in Hlv.
  destruct Hg as [[_ ->]|[E _]]; [done|lia].
Qed.

Lemma got_inode_iget s F p i q inum :
  cache_ok s -> live s F -> icache s !! i = Some p -> got 1 inum p q ->
  (i_ref p = 0 -> forall j r, icache s !! j = Some r -> ~ is_key 1 inum r) ->
  got_inode s (iset i (fun _ => q) s) F i inum.
Proof.
  intros Hco Hlv Hp Hg Hm. destruct (cache_got s 1 inum i p q Hco Hp Hg Hm) as [Hco' Hk].
  assert (Hi : iof i (iset i (fun _ => q) s) = q) by (rewrite iof_iset; [done|now rewrite Hp]).
  split; rewrite ?Hi, ?(iof_lookup _ _ _ Hp); try done.
  - intros j Hj. destruct (decide (j = i)) as [->|Hne]; [rewrite Hi; apply Hk|]. rewrite iof_iset_ne by done. now apply Hlv.
  - intros j Hj. now apply iof_iset_ne.
Qed.

Section Loops.
Context {fuel : Fuel} `{Devices fsst}.
Variables (bs : list Z) (V : Z -> block) (F : list nat) (dp : nat).
Hypothesis fuel_pos : (0 < wakeups)%nat.
Hypothesis dp_in : dp ∈ F.
Hypothesis room : (length bs < NBUF)%nat.

Lemma fs_view_frame s s' : frame s s' -> tr s' bs V [] -> fs_view s bs V F -> fs_view s' bs V F.
Proof.
  intros Fr T' [T L M Fl]. split; [done|exact (layout_frame _ _ Fr L)|exact (meta_used_frame _ _ _ Fr M)|exact (files_frame _ _ _ _ Fr Fl)].
Qed.

(** One entry. *)
Lemma wp_read_entry s a de b (Q : list Z * Z -> ctx -> fsst -> Prop) c :
  held c = [] -> fs_view s bs V F -> whole (contents V (iof dp s)) -> dirents (contents V (iof dp s)) = a ++ de :: b ->
  (forall c' s', held c' = [] -> fs_view s' bs V F -> frame s s' -> Q (de, DIRENT_SIZE) c' s') ->
  wp (readi dp to_local (replicate 16 0) (16 * Z.of_nat (length a)) DIRENT_SIZE) Q c s.
Proof.
  intros Hc Hv Hw E HQ. pose proof Hv as [T L M Fl]. destruct (fl_inv _ _ _ Fl dp dp_in) as [_ Hfi].
  set (l := contents V (iof dp s)) in *. pose proof (whole_length l Hw) as Hl. rewrite E, length_app in Hl. cbn [length] in Hl.
  pose proof (fi_size _ _ _ Hfi) as Hs. assert (Hsz : Z.of_nat (length l) = i_size (iof dp s)) by (unfold l; rewrite length_contents; lia).
  change (MAXFILE * BSIZE) with 71680 in Hs.
  assert (Hde : take 16 (drop (16 * length a) l) = de).
  { pose proof (dirents_lookup l (length a)) as Hlk. rewrite E, list_lookup_middle in Hlk by done.
    destruct (decide _) in Hlk; [|done]. injection Hlk as ->. unfold bytes_at. f_equal. f_equal. lia. }
  apply (wp_readi fuel_pos s bs V); try done; [unfold is_u32; lia|].
  intros c' s' Hc' T' Fr. fold l. unfold readi_spec. change (2 ^ 32) with 4294967296. unfold DIRENT_SIZE in *.
  destruct (Z.ltb_spec (Z.of_nat (length l)) (16 * Z.of_nat (length a))); [lia|].
  destruct (Z.leb_spec 4294967296 (16 * Z.of_nat (length a) + 16)); [lia|]. cbn [orb].
  replace (Z.to_nat (16 * Z.of_nat (length a))) with (16 * length a)%nat by lia. change (Z.to_nat 16) with 16%nat. rewrite Hde.
  assert (Hlen : length de = 16%nat) by (rewrite <- Hde, length_take, length_drop; lia).
  rewrite set_bytes_all by (now rewrite length_replicate). rewrite Hlen. apply HQ; [done| |done]. exact (fs_view_frame _ _ Fr T' Hv).
Qed.

(** [dirlink]: the first empty entry. *)
Lemma wp_dirlink_from s k a b (Q : Z -> ctx -> fsst -> Prop) c :
  held c = [] -> fs_view s bs V F -> whole (contents V (iof dp s)) -> dirents (contents V (iof dp s)) = a ++ b -> (length b <= k)%nat ->
  (forall c' s', held c' = [] -> fs_view s' bs V F -> frame s s' ->
     Q (match scan is_empty b (16 * Z.of_nat (length a)) with Some (_, off) => off | None => i_size (iof dp s) end) c' s') ->
  wp (dirlink_from k dp (16 * Z.of_nat (length a))) Q c s.
Proof.
  revert s a b c. induction k as [|k IH]; intros s a b c Hc Hv Hw E Hk HQ; cbn [dirlink_from]; apply wp_bind, wp_gets;
    pose proof Hv as [T L M Fl]; destruct (fl_inv _ _ _ Fl dp dp_in) as [_ Hfi]; pose proof (fi_size _ _ _ Hfi) as Hs;
    pose proof (whole_length _ Hw) as Hl; rewrite length_contents, Z2Nat.id, E, length_app in Hl by lia.
  - destruct b; [|cbn in Hk; lia]. cbn [length scan] in *. destruct (Z.ltb_spec (16 * Z.of_nat (length a)) (i_size (iof dp s))); [lia|].
    apply wp_ret. replace (16 * _) with (i_size (iof dp s)) by lia. apply HQ; auto.
  - destruct b as [|de b]; cbn [length scan] in *.
    { destruct (Z.ltb_spec (16 * Z.of_nat (length a)) (i_size (iof dp s))); [lia|].
      apply wp_ret. replace (16 * _) with (i_size (iof dp s)) by lia. apply HQ; auto. }
    destruct (Z.ltb_spec (16 * Z.of_nat (length a)) (i_size (iof dp s))); [|lia].
    apply wp_bind. eapply wp_read_entry; [done|done|done|exact E|]. intros c1 s1 Hc1 Hv1 Fr1. cbn [negb].
    rewrite Z.eqb_refl. cbn [negb]. unfold is_empty in HQ at 1. destruct (de_inum de =? 0); [apply wp_ret, HQ; auto|].
    replace (16 * Z.of_nat (length a) + DIRENT_SIZE) with (16 * Z.of_nat (length (a ++ [de]))) in * by (rewrite length_app; unfold DIRENT_SIZE; cbn; lia).
    apply (IH s1 (a ++ [de]) b); rewrite ?(frame_iof dp _ _ Fr1); try done; [now rewrite <- app_assoc|lia|].
    intros c' s' Hc' Hv' Fr'. apply HQ; [done|done|eauto using frame_trans].
Qed.

(** [dirlookup]: the first entry with the name; its inode gets a reference. *)
Lemma wp_dirlookup_from s k name a b (Q : option (nat * Z) -> ctx -> fsst -> Prop) c :
  held c = [] -> fs_view s bs V F -> cache_ok s -> live s F ->
  whole (contents V (iof dp s)) -> dirents (contents V (iof dp s)) = a ++ b -> (length b <= k)%nat ->
  match scan (is_name name) b (16 * Z.of_nat (length a)) with
  | Some (de, off) => iget_room 1 (de_inum de) s /\
      forall i c' s', held c' = [] -> fs_view s' bs V F -> got_inode s s' F i (de_inum de) -> Q (Some (i, off)) c' s'
  | None => forall c' s', held c' = [] -> fs_view s' bs V F -> frame s s' -> Q None c' s'
  end ->
  wp (dirlookup_from k dp name (16 * Z.of_nat (length a))) Q c s.
Proof.
  revert s a b c. induction k as [|k IH]; intros s a b c Hc Hv Hco Hlv Hw E Hk HQ; cbn [dirlookup_from]; apply wp_bind, wp_gets;
    pose proof Hv as [T L M Fl]; destruct (fl_inv _ _ _ Fl dp dp_in) as [_ Hfi]; pose proof (fi_size _ _ _ Hfi) as Hs;
    pose proof (whole_length _ Hw) as Hl; rewrite length_contents, Z2Nat.id, E, length_app in Hl by lia.
  - destruct b; [|cbn in Hk; lia]. cbn [length scan] in *. destruct (Z.ltb_spec (16 * Z.of_nat (length a)) (i_size (iof dp s))); [lia|].
    apply wp_ret, HQ; auto.
  - destruct b as [|de b]; cbn [length scan] in *.
    { destruct (Z.ltb_spec (16 * Z.of_nat (length a)) (i_size (iof dp s))); [lia|]. apply wp_ret, HQ; auto. }
    destruct (Z.ltb_spec (16 * Z.of_nat (length a)) (i_size (iof dp s))); [|lia].
    apply wp_bind. eapply wp_read_entry; [done|done|done|exact E|]. intros c1 s1 Hc1 Hv1 Fr1.
    rewrite Z.eqb_refl. cbn [negb]. rewrite namecmp_zero, (fo_dev _ _ _ (fi_file _ _ _ Hfi)).
    assert (Hnext : is_name name de = false -> wp (dirlookup_from k dp name (16 * Z.of_nat (length a) + DIRENT_SIZE)) Q c1 s1).
    { intros Hm. rewrite Hm in HQ.
      replace (16 * Z.of_nat (length a) + DIRENT_SIZE) with (16 * Z.of_nat (length (a ++ [de]))) in * by (rewrite length_app; unfold DIRENT_SIZE; cbn; lia).
      apply (IH s1 (a ++ [de]) b); rewrite ?(frame_iof dp _ _ Fr1); try done.
      - exact (cache_ok_frame _ _ Fr1 Hco).
      - exact (live_frame _ _ _ Fr1 Hlv).
      - now rewrite <- app_assoc.
      - lia.
      - destruct (scan _ b _) as [[de' o]|].
        + destruct HQ as [Hroom HQ]. split; [exact (iget_room_frame _ _ _ _ Fr1 Hroom)|].
          intros i c' s' Hc' Hv' G. apply HQ; [done|done|exact (got_inode_frame _ _ _ _ _ _ Fr1 G)].
        + intros c' s' Hc' Hv' Fr'. apply HQ; [done|done|eauto using frame_trans]. }
    unfold is_name, is_empty in Hnext, HQ. destruct (de_inum de =? 0) eqn:Ei; cbn [negb andb] in *; [now apply Hnext|].
    destruct (bool_decide _); [|now apply Hnext]. clear Hnext IH. destruct HQ as [Hroom HQ].
    apply wp_bind. eapply wp_iget; [done|exact (iget_room_frame _ _ _ _ Fr1 Hroom)|].
    intros i p q c2 Hp Hg Hm Hc2. apply wp_ret. pose proof (cache_ok_frame _ _ Fr1 Hco) as Hco1.
    apply HQ; [done|exact (fs_view_got _ _ _ _ _ _ _ _ _ Hv1 (live_frame _ _ _ Fr1 Hlv) Hp Hg)|].
    apply (got_inode_frame s s1); [done|]. apply (got_inode_iget _ _ p); try done. exact (live_frame _ _ _ Fr1 Hlv).
Qed.
End Loops.

(** * [dirlookup] *)

(** The inode an entry names can be cached. *)
Definition dir_room (l name : list Z) (s : fsst) : Prop :=
  match dir_lookup l name with Some (inum, _) => iget_room 1 inum s | None => True end.

Section Dir.
Context {fuel : Fuel} `{Devices fsst}.

Lemma wp_dirlookup (fuel_pos : (0 < wakeups)%nat) s bs V F dp name (Q : option (nat * Z) -> ctx -> fsst -> Prop) c :
  let l := contents V (iof dp s) in
  held c = [] -> fs_view s bs V F -> dp ∈ F -> (length bs < NBUF)%nat -> cache_ok s -> live s F ->
  i_type (iof dp s) = T_DIR -> whole l -> dir_room l name s ->
  match dir_lookup l name with
  | Some (inum, off) =>
      forall i c' s', held c' = [] -> fs_view s' bs V F -> got_inode s s' F i inum -> Q (Some (i, off)) c' s'
  | None => forall c' s', held c' = [] -> fs_view s' bs V F -> frame s s' -> Q None c' s'
  end ->
  wp (dirlookup dp name) Q c s.
Proof.
  intros l Hc Hv Hd Hroom Hco Hlv Ht Hw Hir HQ. pose proof Hv as [T L M Fl]. destruct (fl_inv _ _ _ Fl dp Hd) as [_ Hfi].
  pose proof (fi_size _ _ _ Hfi) as Hs. unfold dirlookup. apply wp_bind, wp_gets. rewrite Ht. cbn [Z.eqb negb].
  destruct (Z.eqb_spec T_DIR T_DIR); [|done]. cbn [negb].
  eapply (wp_dirlookup_from bs V F dp fuel_pos Hd Hroom s (entries (i_size (iof dp s))) name [] (dirents l)); try done.
  - rewrite length_dirents. unfold l, entries. rewrite length_contents. unfold DIRENT_SIZE.
    rewrite <- (Nat2Z.id (Z.to_nat (i_size (iof dp s)) / 16)), Nat2Z.inj_div, Z2Nat.id by lia. change (Z.of_nat 16) with 16. lia.
  - unfold dir_room, dir_lookup in *. change (16 * Z.of_nat (length (@nil (list Z)))) with 0.
    destruct (scan (is_name name) (dirents l) 0) as [[de o]|]; done.
Qed.

(** * [dirlink] *)

(** [iput] of an inode with other references, or not loaded, gives its reference
    back. *)
Lemma wp_iput_ref (fuel_pos : (0 < wakeups)%nat) s i (Q : unit -> ctx -> fsst -> Prop) c :
  let p := iof i s in
  held c = [] -> is_Some (icache s !! i) -> i_locked p = false ->
  (i_valid p = true -> i_nlink p = 0 -> i_ref p <> 1) ->
  (forall c', held c' = [] -> Q tt c' (iset i (fun _ => iset_ref (i_ref p - 1) p) s)) ->
  wp (iput i) Q c s.
Proof.
  intros p Hc [x Hx] Hlk Hkeep HQ. assert (Ep : p = x) by (unfold p, iof; now rewrite Hx). subst x. destruct c as [h w]. cbn in Hc. subst h.
  unfold iput. apply wp_bind. destruct wakeups as [|k] eqn:Ek; [lia|]. apply wp_acquiresleep; [apply not_elem_of_nil|exact Hlk|].
  set (s1 := sl_set (SlInode i) true s).
  assert (E1 : iof i s1 = iset_locked true p) by (unfold s1; cbn; now rewrite iof_iset by (now rewrite Hx)).
  apply wp_bind, wp_gets. rewrite E1. cbn [i_valid i_nlink iset_locked].
  assert (Hrest : wp (releasesleep (SlInode i) ;;; acquire LIcache ;;; imod i (fun q => iset_ref (i_ref q - 1) q) ;;; release LIcache) Q (Ctx [] w) s1).
  { apply wp_bind, wp_releasesleep; [apply not_elem_of_nil..|]. apply wp_bind, wp_acquire; [apply not_elem_of_nil|].
    apply wp_bind, wp_modify. eapply wp_release; [done|].
    replace (iset i _ (sl_set (SlInode i) false s1)) with (iset i (fun _ => iset_ref (i_ref p - 1) p) s); [now apply HQ|].
    unfold s1; cbn. unfold iset; cbn. f_equal. apply list_eq. intros j. destruct (decide (i = j)) as [<-|Hne].
    - rewrite !list_lookup_alter_eq, Hx. cbn. f_equal. destruct p; cbn in *. now subst.
    - now rewrite !list_lookup_alter_ne. }
  apply wp_bind. unfold when. destruct (i_valid p && (i_nlink p =? 0)) eqn:E; [|now apply wp_ret].
  apply andb_true_iff in E as [Ev En%Z.eqb_eq].
  apply wp_bind, wp_acquire; [apply not_elem_of_nil|]. apply wp_bind, wp_gets. apply wp_bind. eapply wp_release; [done|].
  rewrite E1. cbn [i_ref iset_locked]. destruct (Z.eqb_spec (i_ref p) 1) as [Er|_]; [now apply Hkeep in Er|]. now apply wp_ret.
Qed.

Lemma nblocks_entry k : nblocks (16 * Z.of_nat k) 16 <= 1.
Proof.
  unfold nblocks. cbn [Z.leb Z.compare]. pose proof (Z.div_mod (16 * Z.of_nat k) BSIZE ltac:(done)) as E.
  pose proof (Z.mod_pos_bound (16 * Z.of_nat k) BSIZE ltac:(done)) as Hr. unfold BSIZE in *.
  assert (H16 : (16 * Z.of_nat k) mod 512 = 16 * (Z.of_nat k mod 32)) by exact (Z.mul_mod_distr_l (Z.of_nat k) 32 16 ltac:(done) ltac:(done)).
  enough ((16 * Z.of_nat k + 16 - 1) / 512 <= 16 * Z.of_nat k / 512) by lia.
  apply Z.lt_succ_r, Z.div_lt_upper_bound; [done|]. pose proof (Z.mod_pos_bound (Z.of_nat k) 32 ltac:(done)). lia.
Qed.

Lemma dirent_u8 name inum : Forall is_u8 name -> Forall is_u8 (dirent name inum).
Proof.
  intros Hn. rewrite dirent_eq. rewrite !Forall_app. split_and!; [apply le_bytes_range| |].
  - unfold cname. pose proof (Forall_take is_u8 14 name Hn) as H14. revert H14. generalize (take 14 name).
    induction 1 as [|c l Hc _ IH]; cbn; [constructor|]. destruct (c =? 0); constructor; done.
  - apply Forall_replicate. unfold is_u8. lia.
Qed.

Definition unlocked (s : fsst) (inum : Z) : Prop :=
  forall i p, icache s !! i = Some p -> i_ref p = 0 \/ is_key 1 inum p -> i_locked p = false.

(** [dirlink] of a name that the directory has already. *)
Lemma wp_dirlink_exists (fuel_pos : (0 < wakeups)%nat) s bs V F dp name inum inum' off (Q : Z -> ctx -> fsst -> Prop) c :
  let l := contents V (iof dp s) in
  held c = [] -> fs_view s bs V F -> dp ∈ F -> (length bs < NBUF)%nat -> cache_ok s -> live s F ->
  i_type (iof dp s) = T_DIR -> whole l -> dir_lookup l name = Some (inum', off) -> iget_room 1 inum' s -> unlocked s inum' ->
  (forall c' s', held c' = [] -> fs_view s' bs V F -> cache_ok s' ->
     (forall j, j ∈ F -> iof j s' = iof j s) -> Q (-1) c' s') ->
  wp (dirlink dp name inum) Q c s.
Proof.
  intros l Hc Hv Hd Hroom Hco Hlv Ht Hw Hlk Hir Hul HQ. unfold dirlink. apply wp_bind.
  eapply (wp_dirlookup fuel_pos s bs V F); try done; [unfold dir_room; fold l; now rewrite Hlk|]. fold l. rewrite Hlk.
  intros i c1 s1 Hc1 Hv1 [G1 G2 G3 [p Hp] G5 G6]. rewrite (iof_lookup _ _ _ Hp) in G5. set (q := iof i s1) in *.
  assert (Hs1 : is_Some (icache s1 !! i)).
  { destruct (icache s1 !! i) eqn:E; [eauto|]. exfalso. destruct G3 as [G3 _]. unfold q, iof in G3. rewrite E in G3. cbn in G3. lia. }
  assert (Hq : i_locked q = false /\ (i_valid q = true -> i_nlink q = 0 -> i_ref q <> 1) /\
    (i ∈ F -> iset_ref (i_ref q - 1) q = p)).
  { pose proof (Hul i p Hp) as Hu. destruct G5 as [[Hk ->]|[Hk ->]]; cbn [i_locked i_valid i_ref iset_ref iset_valid iset_key].
    - split_and!; [auto|destruct Hk; lia|]. intros _. replace (i_ref p + 1 - 1) with (i_ref p) by lia. now destruct p.
    - split_and!; [auto|done|]. intros Hi. specialize (Hlv i Hi). rewrite (iof_lookup _ _ _ Hp) in Hlv. lia. }
  destruct Hq as (Q1 & Q2 & Q3).
  apply wp_bind. eapply (wp_iput_ref fuel_pos s1 i); try done. intros c2 Hc2. fold q. apply wp_ret.
  assert (Hiof : forall j, j ∈ F -> iof j (iset i (fun _ => iset_ref (i_ref q - 1) q) s1) = iof j s).
  { intros j Hj. rewrite iof_const by done. destruct (decide (j = i)) as [->|Hne]; [rewrite Q3 by done; now rewrite (iof_lookup _ _ _ Hp)|now apply G6]. }
  apply HQ; [done| | |done].
  - apply (fs_view_sim s1); try done. intros j Hj. destruct (fl_inv _ _ _ (fv_files _ _ _ _ Hv1) j Hj) as [Hs _].
    split; [now apply icache_some|]. rewrite iof_const by done. destruct (decide (j = i)) as [->|]; [done|now apply fsim_refl].
  - destruct G1 as [C1 C2]. destruct Hs1 as [x Hx]. assert (Hxq : x = q) by (unfold q, iof; now rewrite Hx). subst x.
    destruct G3 as (K1 & K2 & K3).
    split.
    + intros j r. rewrite icache_iset, Hx. destruct (decide (j = i)); [|apply C1]. intros [= <-]. cbn. lia.
    + intros j k r r'. rewrite !icache_iset, Hx. cbn [fmap option_fmap option_map].
      destruct (decide (j = i)) as [->|Hj], (decide (k = i)) as [->|Hk]; intros E1 E2 R1 R2 D I; [done| | |now apply (C2 j k r r')].
      * injection E1 as <-. cbn in *. apply (C2 i k q r'); done || lia.
      * injection E2 as <-. cbn in *. apply (C2 j i r q); done || lia.
Qed.

(** [dirlink] of a new name. *)
Lemma wp_dirlink_new (fuel_pos : (0 < wakeups)%nat) s bs V F dp name inum (Q : Z -> ctx -> fsst -> Prop) c :
  let l := contents V (iof dp s) in
  held c = [] -> fs_view s bs V F -> dp ∈ F -> cache_ok s -> live s F ->
  i_type (iof dp s) = T_DIR -> whole l -> dir_lookup l name = None -> Forall is_u8 name ->
  dir_slot l + DIRENT_SIZE <= MAXFILE * BSIZE -> free s V 4 -> Z.of_nat (length bs) <= 23 ->
  (forall c' s' bs' V', held c' = [] -> fs_view s' bs' V' F -> contents V' (iof dp s') = dir_link l name inum ->
     (forall j, j ∈ F -> j <> dp -> contents V' (iof j s') = contents V (iof j s)) -> Q 0 c' s') ->
  wp (dirlink dp name inum) Q c s.
Proof.
  intros l Hc Hv Hd Hco Hlv Ht Hw Hlk Hname Hfit Hfree Hroom HQ. unfold dirlink. apply wp_bind.
  eapply (wp_dirlookup fuel_pos s bs V F); try done; [unfold NBUF; lia|unfold dir_room; fold l; now rewrite Hlk|].
  fold l. rewrite Hlk. intros c1 s1 Hc1 Hv1 Fr1. apply wp_bind, wp_gets. rewrite (frame_iof dp _ _ Fr1).
  assert (Hs : 0 <= i_size (iof dp s)) by (apply (fl_inv _ _ _ (fv_files _ _ _ _ Hv) dp Hd)).
  assert (Hlen : Z.of_nat (length l) = i_size (iof dp s)) by (unfold l; rewrite length_contents; lia).
  apply wp_bind. eapply (wp_dirlink_from bs V F dp fuel_pos Hd ltac:(unfold NBUF; lia) s1 _ [] (dirents l));
    rewrite ?(frame_iof dp _ _ Fr1); try done.
  { rewrite length_dirents. unfold entries, DIRENT_SIZE. rewrite <- Hlen, <- (Nat2Z.id (length l / 16)), Nat2Z.inj_div. change (Z.of_nat 16) with 16. lia. }
  intros c2 s2 Hc2 Hv2 Fr2. change (16 * Z.of_nat (length (@nil (list Z)))) with 0. rewrite <- Hlen. fold (dir_slot l).
  assert (Fr : frame s s2) by eauto using frame_trans. pose proof (frame_iof dp _ _ Fr) as Ei. pose proof Hv2 as [T2 L2 M2 Fl2].
  destruct (dir_slot_split l Hw) as (a & b & Eab & Hslot & _). pose proof (whole_length l Hw) as Hl16. rewrite Eab, length_app in Hl16.
  apply wp_bind. change DIRENT_SIZE with (Z.of_nat 16) at 1. rewrite <- (length_dirent name inum).
  apply (wp_writei s2 bs V F dp (dir_slot l) (dirent name inum) L2 M2 Fl2 Hd); rewrite ?Ei, ?length_dirent; try done; try lia.
  - now apply dirent_u8.
  - exact (free_frame _ _ _ _ Fr Hfree).
  - rewrite Hslot. pose proof (nblocks_entry (length a)). change (Z.of_nat 16) with 16. lia.
  - intros c3 s3 [Hc3 (bs' & V' & T3 & L3 & M3 & Fl3 & Hcont & Hoth & _)]. change (Z.of_nat 16) with DIRENT_SIZE.
    rewrite Z.eqb_refl. cbn [negb]. apply wp_ret. apply (HQ c3 s3 bs' V'); [done|done| |].
    + rewrite Hcont, Ei. done.
    + intros j Hj Hne. rewrite Hoth by done. now rewrite (frame_iof j _ _ Fr).
Qed.
End Dir.

(** * Theorems *)

Lemma got_contents s s' F V i inum j : live s F -> got_inode s s' F i inum -> j ∈ F -> contents V (iof j s') = contents V (iof j s).
Proof.
  intros Hlv G Hj. destruct (decide (j = i)) as [->|Hne]; [|now rewrite (gi_other _ _ _ _ _ G j Hne)].
  specialize (Hlv i Hj). destruct (gi_got _ _ _ _ _ G) as [[_ E]|[E _]]; [now rewrite E|lia].
Qed.

(** C19: [dirlookup] returns the inode and the offset of the first used entry whose
    name, cut at DIRSIZ bytes, is the one asked for, with a reference to the one
    cache entry of that inode, and nothing when there is no such entry.  The files
    do not change. *)
Theorem dirlookup_refines `{fuel : Fuel} `{Devices fsst} s bs V F dp name c :
  let l := contents V (iof dp s) in
  (0 < wakeups)%nat -> held c = [] -> fs_view s bs V F -> dp ∈ F -> (length bs < NBUF)%nat -> cache_ok s -> live s F ->
  i_type (iof dp s) = T_DIR -> whole l -> dir_room l name s ->
  wp (dirlookup dp name) (fun r c' s' =>
    held c' = [] /\ fs_view s' bs V F /\ cache_ok s' /\ (forall j, j ∈ F -> contents V (iof j s') = contents V (iof j s)) /\
    match dir_lookup l name with
    | Some (inum, off) => exists i, r = Some (i, off) /\ is_key 1 inum (iof i s')
    | None => r = None
    end) c s.
Proof.
  intros l Hfuel Hc Hv Hd Hroom Hco Hlv Ht Hw Hir. apply (wp_dirlookup Hfuel s bs V F); try done. fold l.
  destruct (dir_lookup l name) as [[inum off]|].
  - intros i c' s' Hc' Hv' G. split_and!; [done|done|apply G| |exists i; split; [done|apply G]].
    intros j Hj. exact (got_contents _ _ _ _ _ _ _ Hlv G Hj).
  - intros c' s' Hc' Hv' Fr. split_and!; [done|done|exact (cache_ok_frame _ _ Fr Hco)| |done].
    intros j _. now rewrite (frame_iof j _ _ Fr).
Qed.

(** C16: [dirlink] refuses a name the directory has, without changing a file.
    Otherwise it returns 0, the new name is found where the entry was put, every
    other name is found where it was, and no other file changes.  For a name that
    is there, the inode it names must have a place in the cache and be unlocked
    (dirlink takes its lock in iput); for a new one, the directory must have room
    below the largest file and the disk four free blocks. *)
Theorem dirlink_refines `{fuel : Fuel} `{Devices fsst} s bs V F dp name inum c :
  let l := contents V (iof dp s) in
  (0 < wakeups)%nat -> held c = [] -> fs_view s bs V F -> dp ∈ F -> cache_ok s -> live s F ->
  i_type (iof dp s) = T_DIR -> whole l -> Forall is_u8 name -> is_u16 inum -> inum <> 0 -> Z.of_nat (length bs) <= 23 ->
  match dir_lookup l name with
  | Some (inum', _) => iget_room 1 inum' s /\ unlocked s inum'
  | None => dir_slot l + DIRENT_SIZE <= MAXFILE * BSIZE /\ free s V 4
  end ->
  wp (dirlink dp name inum) (fun r c' s' => held c' = [] /\ exists bs' V', fs_view s' bs' V' F /\
    (forall j, j ∈ F -> j <> dp -> contents V' (iof j s') = contents V (iof j s)) /\
    let l' := contents V' (iof dp s') in
    match dir_lookup l name with
    | Some _ => r = -1 /\ l' = l
    | None => r = 0 /\ whole l' /\ dir_lookup l' name = Some (inum, dir_slot l) /\
        forall other, cname other <> cname name -> dir_lookup l' other = dir_lookup l other
    end) c s.
Proof.
  intros l Hfuel Hc Hv Hd Hco Hlv Ht Hw Hname Hi Hz Hroom Hcase.
  destruct (dir_lookup l name) as [[inum' off]|] eqn:E.
  - destruct Hcase as [Hir Hul]. eapply (wp_dirlink_exists Hfuel s bs V F); try done; [unfold NBUF; lia|].
    intros c' s' Hc' Hv' _ Hsame. split; [done|]. exists bs, V. split; [done|]. cbv zeta. rewrite Hsame by done.
    split; [|done]. intros j Hj _. now rewrite Hsame.
  - destruct Hcase as [Hfit Hfree]. eapply (wp_dirlink_new Hfuel s bs V F); try done.
    intros c' s' bs' V' Hc' Hv' Hcont Hoth. split; [done|]. exists bs', V'. split; [done|]. split; [done|]. cbv zeta.
    rewrite Hcont. split; [done|]. now apply dir_link_lookup.
Qed.

(** [iput] of an inode whose lock is taken sleeps. *)
Lemma iput_locked_sleeps `{fuel : Fuel} i c s :
  (0 < wakeups)%nat -> held c = [] -> i_locked (iof i s) = true ->
  exists w k, iput i c s = Sleep (Some (ChSleep (SlInode i))) w s k.
Proof.
  intros Hfuel Hc Hl. destruct c as [h w]. cbn in Hc. subst h. unfold iput, acquiresleep. destruct wakeups as [|n]; [lia|].
  unfold bind, acquire at 1. rewrite decide_False by apply not_elem_of_nil. cbn [obind blocks]. unfold acquiresleep_step, bind, gets.
  cbn [obind sl_locked fsst_locks]. rewrite Hl. cbn [ret obind]. unfold sleep, bind.
  rewrite decide_False by done. unfold acquire at 1. cbn [held woken].
  rewrite decide_False by (intros [E|[]%elem_of_nil]%elem_of_cons; done). cbn [obind]. unfold release at 1. cbn [held woken].
  rewrite decide_True by (right; left). cbn [obind held].
  replace (drop_lock (LSleep (SlInode i)) [LPtable; LSleep (SlInode i)]) with [LPtable]
    by (cbn [drop_lock]; rewrite decide_False by done; now rewrite decide_True).
  rewrite decide_True by left. cbn [length]. rewrite decide_True by done. cbn [obind]. eauto.
Qed.

(** C21: [dirlink] into a directory, whose lock its caller holds, under a name that
    leads back to the directory (its own ".") sleeps on that lock, which only its
    caller could release: sys_link of a path that ends in "/." never returns. *)
Theorem dirlink_own_entry_deadlocks `{fuel : Fuel} `{Devices fsst} s bs V F dp name inum off c :
  let l := contents V (iof dp s) in
  (0 < wakeups)%nat -> held c = [] -> fs_view s bs V F -> dp ∈ F -> (length bs < NBUF)%nat -> cache_ok s -> live s F ->
  i_type (iof dp s) = T_DIR -> whole l -> i_locked (iof dp s) = true -> dir_lookup l name = Some (i_inum (iof dp s), off) ->
  exists w s' k, dirlink dp name inum c s = Sleep (Some (ChSleep (SlInode dp))) w s' k /\ i_locked (iof dp s') = true.
Proof.
  intros l Hfuel Hc Hv Hd Hroom Hco Hlv Ht Hw Hlk E. destruct (fl_inv _ _ _ (fv_files _ _ _ _ Hv) dp Hd) as [[p Hp] Hfi].
  subst l. rewrite (iof_lookup _ _ _ Hp) in *. pose proof (fo_dev _ _ _ (fi_file _ _ _ Hfi)) as Hdev. specialize (Hlv dp Hd) as Hr.
  rewrite (iof_lookup _ _ _ Hp) in Hr.
  assert (Hwp : wp (dirlookup dp name) (fun r c' s' => held c' = [] /\ r = Some (dp, off) /\ i_locked (iof dp s') = true) c s).
  { eapply (wp_dirlookup Hfuel s bs V F); rewrite ?(iof_lookup _ _ _ Hp); try done.
    - unfold dir_room. rewrite E. exists dp, p. split; [done|]. left. done.
    - rewrite E. intros i c' s' Hc' Hv' [G1 G2 G3 [q Hq] G5 G6].
      destruct (decide (i = dp)) as [->|Hne].
      + split_and!; [done|done|]. rewrite (iof_lookup _ _ _ Hp) in G5. destruct G5 as [[_ ->]|[Hz _]]; [done|lia].
      + exfalso. apply Hne. destruct (fl_inv _ _ _ (fv_files _ _ _ _ Hv') dp Hd) as [[p' Hp'] _].
        assert (Ep : p' = p) by (rewrite <- (iof_lookup _ _ _ Hp'), G6 by congruence; now apply iof_lookup). subst p'.
        destruct G3 as (K1 & K2 & K3). destruct (icache s' !! i) as [q'|] eqn:Eq; [|unfold iof in K1; rewrite Eq in K1; cbn in K1; lia].
        rewrite (iof_lookup _ _ _ Eq) in *. apply (co_one _ G1 i dp q' p); done || congruence. }
  apply wp_inv in Hwp as (r & c1 & s1 & Er & Hc1 & -> & Hl1). unfold dirlink, bind at 1. rewrite Er. cbn [obind].
  destruct (iput_locked_sleeps dp c1 s1 Hfuel Hc1 Hl1) as (w & k & Ek). unfold bind. unfold infs, fs_self. rewrite Ek. cbn [obind]. eauto.
Qed.
