(* ===== verification/FsTrunc.v ===== *)
(** fs.c: [itrunc] frees every block of a file and nothing else, and [iput] of the
    last reference to an unlinked file frees the file. *)
From S2P Require Import Prelude Monad Mem Mmu Sleeplock Disk Bio Bcache Log LogProps Fs FsTrans.
From S2P Require Import FsAlloc FsData FsFile FsRw FsInode FsWrite FsRefine FsIcache FsDir.

(** * Freeing a list of blocks *)

(** From contents [V] to [V'] the bits of the blocks [X] were cleared. *)
Record cleared (B : Z) (V : Z -> block) (X : list Z) (V' : Z -> block) : Prop := {
  cl_bits m : 0 <= m -> bit_of (V' B) m = bit_of (V B) m && negb (bool_decide (m ∈ X));
  cl_other m : m <> B -> V' m = V m
}.

Lemma cleared_none B V : cleared B V [] V.
Proof. split; [|done]. intros m _. rewrite bool_decide_eq_false_2 by apply not_elem_of_nil. now rewrite andb_true_r. Qed.

Lemma cleared_one B V X V' n :
  length (V' B) = 512%nat -> 0 <= n < BPB -> cleared B V X V' ->
  cleared B V (n :: X) (vset V' B (clear_bit (V' B) n)).
Proof.
  intros Hl Hn [H1 H2]. split.
  - intros m Hm. rewrite vset_eq, bit_of_clear, H1 by done. rewrite <- andb_assoc. f_equal.
    destruct (Z.eqb_spec m n) as [->|Hne].
    + rewrite (bool_decide_eq_true_2 (n ∈ n :: X)) by left. apply andb_false_r.
    + cbn [negb]. rewrite andb_true_r. f_equal. apply bool_decide_ext. rewrite elem_of_cons. tauto.
  - intros m Hm. rewrite vset_ne by done. now apply H2.
Qed.

Lemma bmap_large s : layout s -> 30 < bmapblock s.
Proof.
  intros L. pose proof (lo_super s L). pose proof (lo_log s L). pose proof (lo_logsize s L). pose proof (lo_inodes s L).
  pose proof (Z.div_pos (sb_ninodes (fs_sb s)) IPB ltac:(pose proof (lo_ninodes s L); lia) ltac:(done)).
  unfold bmapblock, LOGSIZE, MAXOPBLOCKS in *. lia.
Qed.

Section Free.
Context {fuel : Fuel}.
Hypothesis fuel_pos : (0 < wakeups)%nat.

(** The state between the calls of [bfree]: the blocks [X] are free, and the inode
    [i] was changed to [p']. *)
Record freeing (s : fsst) (bs : list Z) (V : Z -> block) (i : nat) (H : list hbuf) (X : list Z)
    (s' : fsst) (bs' : list Z) (V' : Z -> block) (p' : inode) : Prop := {
  fz_tr : tr s' bs' V' H;
  fz_frame : frame (iset i (fun _ => p') s) s';
  fz_cleared : cleared (bmapblock s) V X V';
  fz_bs : bs' ⊆ bmapblock s :: bs
}.

Lemma freeing_some s bs V i H X s' bs' V' p' :
  is_Some (icache s !! i) -> freeing s bs V i H X s' bs' V' p' -> iof i s' = p' /\ is_Some (icache s' !! i) /\ bmapblock s' = bmapblock s /\
    disksize (bio_of s') = disksize (bio_of s) /\ fs_sb s' = fs_sb s.
Proof.
  intros Hi [T F C B]. split_and!.
  - rewrite (frame_iof i _ _ F). now apply iof_iset.
  - rewrite (fr_icache _ _ F). cbn. rewrite list_lookup_alter_eq. now apply fmap_is_Some.
  - exact (frame_bmap _ _ F).
  - exact (fr_disk _ _ F).
  - exact (fr_sb _ _ F).
Qed.

Lemma freeing_mod s bs V i H X s' bs' V' p' f :
  freeing s bs V i H X s' bs' V' p' -> freeing s bs V i H X (iset i f s') bs' V' (f p').
Proof.
  intros [T F C B]. split; try done; [now apply tr_iset|].
  apply (frame_iset i f) in F. now rewrite iset_iset_const in F.
Qed.

(** One call of [bfree]. *)
Lemma wp_free_one s bs V i H X s1 bs1 V1 p1 n (Q : unit -> ctx -> fsst -> Prop) c :
  held c = [] -> layout s -> is_Some (icache s !! i) -> superblock_of (V 1) = fs_sb s ->
  (1 ∉ hblocks H) -> (bmapblock s ∉ hblocks H) -> (length bs <= 27)%nat -> (length H <= 1)%nat ->
  freeing s bs V i H X s1 bs1 V1 p1 -> 0 <= n < disksize (bio_of s) -> used s V n = true -> (n ∉ X) ->
  (forall c' s' bs' V', held c' = [] -> freeing s bs V i H (n :: X) s' bs' V' p1 -> Q tt c' s') ->
  wp (bfree 1 n) Q c s1.
Proof.
  intros Hc L Hi Hsb H1 HB Hlen HH Fz Hn Hu HS HQ. destruct (freeing_some _ _ _ _ _ _ _ _ _ _ Hi Fz) as (E1 & Hi1 & EB & ED & Esb).
  destruct Fz as [T F C Bs]. pose proof (bmap_nonneg s L) as HB0. pose proof (lo_super s L). pose proof (lo_disk s L). pose proof (lo_one s L).
  assert (L1 : layout s1) by (eapply layout_frame; [exact F|now apply layout_iset]).
  assert (Hlen1 : (length bs1 <= S (length bs))%nat) by (apply (NoDup_incl_length bs1 (bmapblock s :: bs)); [apply T|exact Bs]).
  eapply (wp_bfree fuel_pos s1 bs1 V1 H n); rewrite ?EB, ?ED; try done.
  - rewrite (cl_other _ _ _ _ C) by (pose proof (bmap_large s L); lia).
    congruence.
  - unfold used in *. rewrite EB, (cl_bits _ _ _ _ C) by lia. rewrite Hu, bool_decide_eq_false_2 by done. done.
  - unfold NBUF. lia.
  - lia.
  - intros c' s' Hc' T' F'. eapply HQ; [exact Hc'|]. split; [exact T'|eapply frame_trans; eauto| |].
    + apply cleared_one; [|lia|done]. rewrite <- EB. apply (tr_bmap_len _ _ _ _ T L1).
    + apply bs_add_sub; [exact Bs|left].
Qed.

(** * The loops of [itrunc] *)

(** A block among the first [k] of the file. *)
Definition upto (V : Z -> block) (p : inode) (k m : Z) : Prop := m <> 0 /\ exists bn, 0 <= bn < k /\ m = addr_of V p bn.

Lemma upto_next V p k m : 0 <= k -> upto V p (k + 1) m <-> upto V p k m \/ m <> 0 /\ m = addr_of V p k.
Proof.
  intros Hk. unfold upto. split.
  - intros [Hz (bn & Hb & ->)]. destruct (Z.eq_dec bn k) as [->|]; [auto|]. left. split; [done|]. exists bn. split; [lia|done].
  - intros [[Hz (bn & Hb & ->)]|[Hz ->]]; (split; [done|]); eexists; (split; [|reflexivity]); lia.
Qed.

(** The addresses after the first [k] slots were cleared. *)
Definition zeroed (k : Z) (l : list Z) : list Z := replicate (Z.to_nat k) 0 ++ drop (Z.to_nat k) l.

Lemma aget_zeroed k l j : 0 <= k -> 0 <= j -> aget 0 (zeroed k l) j = if j <? k then 0 else aget 0 l j.
Proof.
  intros Hk Hj. unfold zeroed, aget. destruct (Z.ltb_spec j k).
  - rewrite lookup_app_l by (rewrite length_replicate; lia). now rewrite lookup_replicate_2 by lia.
  - rewrite lookup_app_r by (rewrite length_replicate; lia). rewrite length_replicate, lookup_drop. do 2 f_equal. lia.
Qed.

Lemma aset_zeroed k l : 0 <= k -> k < Z.of_nat (length l) -> aset (zeroed k l) k 0 = zeroed (k + 1) l.
Proof.
  intros Hk Hl. unfold aset, zeroed. rewrite insert_app_r_alt by (rewrite length_replicate; lia). rewrite length_replicate, Nat.sub_diag.
  rewrite Z2Nat.inj_add by lia. change (Z.to_nat 1) with 1%nat. rewrite replicate_add, <- app_assoc. f_equal.
  rewrite <- drop_drop. destruct (drop (Z.to_nat k) l) eqn:E; [|done].
  apply (f_equal length) in E. rewrite length_drop in E. cbn in E. lia.
Qed.

Lemma zeroed_id k l : 0 <= k < Z.of_nat (length l) -> aget 0 l k = 0 -> zeroed k l = zeroed (k + 1) l.
Proof.
  intros Hk Hz. rewrite <- aset_zeroed by lia. unfold aset. symmetry. apply list_insert_id.
  unfold zeroed. rewrite lookup_app_r by (rewrite length_replicate; lia). rewrite length_replicate, Nat.sub_diag, lookup_drop, Nat.add_0_r.
  unfold aget in Hz. destruct (l !! Z.to_nat k) eqn:E; [cbn in Hz; congruence|]. apply lookup_ge_None in E. lia.
Qed.

Section Trunc.
Variables (s : fsst) (bs : list Z) (V : Z -> block) (i : nat).
Let p := iof i s.
Hypothesis lay : layout s.
Hypothesis cached : is_Some (icache s !! i).
Hypothesis file : file_ok s V p.
Hypothesis super_ok : superblock_of (V 1) = fs_sb s.
Hypothesis room : (length bs <= 27)%nat.

Definition freed (H : list hbuf) (k : Z) (a : list Z) (c' : ctx) (s' : fsst) : Prop :=
  held c' = [] /\ exists bs' V' X, freeing s bs V i H X s' bs' V' (iset_addrs a p) /\ forall m, m ∈ X <-> upto V p k m.

(** Freeing block [k] of the file, if it has one. *)
Lemma wp_free_block H k a (Q : unit -> ctx -> fsst -> Prop) c s1 :
  (1 ∉ hblocks H) -> (bmapblock s ∉ hblocks H) -> (length H <= 1)%nat -> 0 <= k < MAXFILE ->
  freed H k a c s1 -> addr_of V p k <> 0 ->
  (forall c' s', freed H (k + 1) a c' s' -> Q tt c' s') ->
  wp (bfree 1 (addr_of V p k)) Q c s1.
Proof.
  intros H1 HB HH Hk (Hc & bs1 & V1 & X & Fz & HX) Hz HQ. pose proof file as [_ _ Hm].
  destruct (fm_data _ _ _ _ _ Hm k Hk Hz) as [Hr Hu]. pose proof (bmap_nonneg s lay) as HB0.
  eapply (wp_free_one s bs V i H X s1 bs1 V1); try done; [lia| |].
  - rewrite HX. intros [_ (bn & Hb & E)]. assert (bn = k); [|lia]. apply (fm_inj _ _ _ _ _ Hm); try done; [lia|congruence].
  - intros c' s' bs' V' Hc' Fz'. apply HQ. split; [done|]. exists bs', V', (addr_of V p k :: X). split; [done|].
    intros m. rewrite elem_of_cons, HX, upto_next by lia. split; [|tauto]. intros [->|]; auto.
Qed.

Lemma freed_iof H k a c1 s1 : freed H k a c1 s1 -> iof i s1 = iset_addrs a p.
Proof. intros (_ & bs1 & V1 & X & Fz & _). now apply (freeing_some _ _ _ _ _ _ _ _ _ _ cached Fz). Qed.

Lemma freed_mod H k a a' c1 s1 : freed H k a c1 s1 ->
  freed H k a' c1 (iset i (fun q => iset_addrs a' q) s1).
Proof.
  intros (Hc & bs1 & V1 & X & Fz & HX). split; [done|]. exists bs1, V1, X. split; [|done].
  apply (freeing_mod _ _ _ _ _ _ _ _ _ _ (fun q => iset_addrs a' q)) in Fz. exact Fz.
Qed.

Lemma direct_addr k : 0 <= k < NDIRECT -> addr_of V p k = aget 0 (i_addrs p) k.
Proof. intros Hk. unfold addr_of. destruct (Z.ltb_spec k NDIRECT); [done|lia]. Qed.

Lemma wp_trunc_slot k c1 s1 :
  0 <= k < NDIRECT -> freed [] k (zeroed k (i_addrs p)) c1 s1 ->
  wp (let* q := gets (iof i) in
      let addr := aget 0 (i_addrs q) k in
      when (negb (addr =? 0)) (bfree (i_dev q) addr ;;; imod i (fun q => iset_addrs (aset (i_addrs q) k 0) q)))
    (fun _ => freed [] (k + 1) (zeroed (k + 1) (i_addrs p))) c1 s1.
Proof.
  intros Hk Hf. pose proof file as [Hl Hdev Hm]. change NDIRECT with 12 in *.
  apply wp_bind, wp_gets. rewrite (freed_iof _ _ _ _ _ Hf). cbn [i_addrs i_dev iset_addrs]. fold p. rewrite Hdev.
  rewrite aget_zeroed, Z.ltb_irrefl by lia. rewrite <- direct_addr by (change NDIRECT with 12; lia). unfold when.
  assert (Hk' : 0 <= k < MAXFILE) by (change MAXFILE with 140; lia).
  destruct (Z.eqb_spec (addr_of V p k) 0) as [E|E]; cbn [negb].
  - apply wp_ret. rewrite <- zeroed_id by (rewrite ?Hl, <- ?direct_addr; done || (change NDIRECT with 12; lia)).
    destruct Hf as (Hc & bs1 & V1 & X & Fz & HX). split; [done|]. exists bs1, V1, X. split; [done|].
    intros m. rewrite HX, upto_next by lia. split; [auto|]. intros [|[Hz ->]]; done.
  - apply wp_bind. eapply (wp_free_block []); [apply not_elem_of_nil..|cbn; lia|done|exact Hf|done|].
    intros c' s' Hf'. apply wp_modify. pose proof (freed_iof _ _ _ _ _ Hf') as Ei.
    rewrite <- aset_zeroed by (rewrite ?Hl; lia).
    replace (iset i _ s') with (iset i (fun q => iset_addrs (aset (zeroed k (i_addrs p)) k 0) q) s'); [now apply (freed_mod _ _ _ _ _ _ Hf')|].
    assert (Hs' : is_Some (icache s' !! i)) by (destruct Hf' as (_ & ? & ? & ? & Fz & _); apply (freeing_some _ _ _ _ _ _ _ _ _ _ cached Fz)).
    rewrite <- (iset_const i (fun q => iset_addrs (aset (i_addrs q) k 0) q) s' Hs').
    rewrite <- (iset_const i (fun q => iset_addrs (aset (zeroed k (i_addrs p)) k 0) q) s' Hs'). now rewrite Ei.
Qed.

Lemma freed_start c1 : held c1 = [] -> tr s bs V [] -> freed [] 0 (zeroed 0 (i_addrs p)) c1 s.
Proof.
  intros Hc T. split; [done|]. exists bs, V, []. split.
  - change (zeroed 0 (i_addrs p)) with (i_addrs p). rewrite iset_addrs_same. split; [done| |apply cleared_none|].
    + unfold p. rewrite (iset_const i (fun q => q)), iset_id by done. done.
    + intros x Hx. now right.
  - intros m. split; [intros E; now apply elem_of_nil in E|]. intros [_ (bn & Hb & _)]. lia.
Qed.

Lemma wp_trunc_direct (Q : unit -> ctx -> fsst -> Prop) c :
  held c = [] -> tr s bs V [] ->
  (forall c' s', freed [] NDIRECT (zeroed NDIRECT (i_addrs p)) c' s' -> Q tt c' s') ->
  wp (for_ (zrange 12) (fun k =>
    let* q := gets (iof i) in
    let addr := aget 0 (i_addrs q) k in
    when (negb (addr =? 0)) (bfree (i_dev q) addr ;;; imod i (fun q => iset_addrs (aset (i_addrs q) k 0) q)))) Q c s.
Proof.
  intros Hc T HQ. apply (wp_for_zrange 12 _ (fun k => freed [] (Z.of_nat k) (zeroed (Z.of_nat k) (i_addrs p)))).
  - now apply freed_start.
  - intros k c1 s1 Hk Hf. eapply wp_mono; [apply wp_trunc_slot; [change NDIRECT with 12; lia|exact Hf]|].
    intros a c' s' Hf'. replace (Z.of_nat (S k)) with (Z.of_nat k + 1) by lia. exact Hf'.
  - intros c' s' Hf. now apply HQ.
Qed.

(** Block [12 + j] of the file, through the indirect block. *)
Lemma wp_trunc_entry b j c1 s1 :
  let H := [(b, ind_of p, V (ind_of p))] in
  let a := zeroed NDIRECT (i_addrs p) in
  0 <= j < NINDIRECT -> ind_of p <> 0 -> freed H (NDIRECT + j) a c1 s1 ->
  wp (let* d := fdata b in
      let x := rd32 d (4 * j) in
      when (negb (x =? 0)) (bfree 1 x)) (fun _ => freed H (NDIRECT + (j + 1)) a) c1 s1.
Proof.
  intros H a Hj Hi Hf. change NINDIRECT with 128 in *. change NDIRECT with 12 in *. pose proof Hf as (Hc & bs1 & V1 & X & Fz & HX).
  pose proof file as [_ _ Hm]. destruct (fm_ind _ _ _ _ _ Hm Hi) as [Hr _]. pose proof (bmap_large s lay).
  apply wp_bind. eapply wp_fdata; [apply Fz|left|].
  assert (Ea : rd32 (V (ind_of p)) (4 * j) = addr_of V p (12 + j)).
  { unfold addr_of. change NDIRECT with 12. destruct (Z.ltb_spec (12 + j) 12); [lia|]. destruct (Z.eqb_spec (ind_of p) 0); [done|].
    f_equal. lia. }
  rewrite Ea, Z.add_assoc. unfold when. destruct (Z.eqb_spec (addr_of V p (12 + j)) 0) as [E|E]; cbn [negb].
  - apply wp_ret. split; [done|]. exists bs1, V1, X. split; [done|].
    intros m. rewrite HX, upto_next by lia. split; [auto|]. intros [|[Hz ->]]; done.
  - eapply (wp_free_block H); [| | | |exact Hf|done|auto].
    + cbn. intros [E1|[]%elem_of_nil]%elem_of_cons. lia.
    + cbn. intros [E1|[]%elem_of_nil]%elem_of_cons. lia.
    + cbn. lia.
    + change MAXFILE with 140. lia.
Qed.

(** Every block of the file is free. *)
Definition freed_all (c' : ctx) (s' : fsst) : Prop :=
  held c' = [] /\ exists bs' V' X,
    freeing s bs V i [] X s' bs' V' (iset_addrs (zeroed 13 (i_addrs p)) p) /\ forall m, m ∈ X <-> owns V p m.

Lemma owns_upto m : owns V p m <-> upto V p MAXFILE m \/ m <> 0 /\ m = ind_of p.
Proof. unfold owns, upto. split; [intros [Hz [->|Hb]]; tauto|intros [[Hz Hb]|[Hz ->]]; tauto]. Qed.

Lemma wp_trunc_indirect c1 s1 :
  ind_of p <> 0 -> freed [] NDIRECT (zeroed NDIRECT (i_addrs p)) c1 s1 ->
  wp (let* bp := fbread 1 (ind_of p) in
      for_ (zrange (Z.to_nat NINDIRECT)) (fun j =>
        let* d := fdata bp in
        let a := rd32 d (4 * j) in
        when (negb (a =? 0)) (bfree 1 a)) ;;;
      fbrelse bp ;;;
      bfree 1 (ind_of p) ;;;
      imod i (fun q => iset_addrs (aset (i_addrs q) NDIRECT 0) q)) (fun _ => freed_all) c1 s1.
Proof.
  intros Hi (Hc & bs1 & V1 & X & Fz & HX). pose proof file as [Hl _ Hm]. destruct (fm_ind _ _ _ _ _ Hm Hi) as [Hr Hu].
  pose proof (bmap_nonneg s lay) as HB. destruct (freeing_some _ _ _ _ _ _ _ _ _ _ cached Fz) as (_ & _ & _ & ED & _).
  destruct Fz as [T F C Bs].
  assert (Hlen1 : (length bs1 <= S (length bs))%nat) by (apply (NoDup_incl_length bs1 (bmapblock s :: bs)); [apply T|exact Bs]).
  assert (EV : V1 (ind_of p) = V (ind_of p)) by (apply (cl_other _ _ _ _ C); lia).
  apply wp_bind. eapply wp_fbread; [done|done|exact T|apply not_elem_of_nil|lia|right; cbn; unfold NBUF; lia|]. intros b s2 T2 F2.
  rewrite EV in T2. set (H := [(b, ind_of p, V (ind_of p))]) in T2. set (a := zeroed NDIRECT (i_addrs p)) in *.
  assert (Hf2 : freed H (NDIRECT + 0) a c1 s2).
  { split; [done|]. exists bs1, V1, X. rewrite Z.add_0_r. split; [|done]. split; [done|eapply frame_trans; eauto|done|done]. }
  apply wp_bind. apply (wp_for_zrange _ _ (fun k => freed H (NDIRECT + Z.of_nat k) a)); [exact Hf2| |].
  { intros k c3 s3 Hk Hf3. eapply wp_mono; [apply wp_trunc_entry; [change NINDIRECT with 128 in *; lia|done|exact Hf3]|].
    intros u c' s' Hf'. replace (Z.of_nat (S k)) with (Z.of_nat k + 1) by lia. exact Hf'. }
  intros c3 s3 (Hc3 & bs3 & V3 & X3 & [T3 F3 C3 B3] & HX3). change (NDIRECT + Z.of_nat (Z.to_nat NINDIRECT)) with MAXFILE in HX3.
  apply wp_bind. eapply wp_fbrelse; [done|exact T3|symmetry; apply (cl_other _ _ _ _ C3); lia|]. intros c4 s4 Hc4 T4 F4.
  apply wp_bind. eapply (wp_free_one s bs V i [] X3 s4 bs3 V3 (iset_addrs a p)); try done.
  - apply not_elem_of_nil.
  - apply not_elem_of_nil.
  - cbn. lia.
  - split; [done|eapply frame_trans; eauto|done|done].
  - lia.
  - rewrite HX3. intros [_ (bn & Hb & E)]. exact (fm_ind_ne _ _ _ _ _ Hm bn Hb Hi (eq_sym E)).
  - intros c5 s5 bs5 V5 Hc5 Fz5. apply wp_modify. split; [done|]. exists bs5, V5, (ind_of p :: X3). split.
    + apply (freeing_mod _ _ _ _ _ _ _ _ _ _ (fun q => iset_addrs (aset (i_addrs q) NDIRECT 0) q)) in Fz5. cbn [i_addrs iset_addrs] in Fz5.
      unfold a in Fz5. rewrite aset_zeroed in Fz5 by (rewrite ?Hl; change NDIRECT with 12; lia). exact Fz5.
    + intros m. rewrite elem_of_cons, HX3, owns_upto. split; [intros [->|]; auto|tauto].
Qed.

Lemma zeroed_12 : ind_of p = 0 -> zeroed 13 (i_addrs p) = zeroed NDIRECT (i_addrs p).
Proof.
  intros Hi. symmetry. apply (zeroed_id NDIRECT); [|exact Hi]. rewrite (fo_len _ _ _ file). change NDIRECT with 12. lia.
Qed.

(** All of [itrunc] but the last store of the inode. *)
Lemma wp_trunc_blocks (Q : unit -> ctx -> fsst -> Prop) c :
  held c = [] -> tr s bs V [] ->
  (forall c' s', freed_all c' s' -> wp (imod i (iset_size 0) ;;; iupdate i) Q c' s') ->
  wp (itrunc i) Q c s.
Proof.
  intros Hc T HQ. unfold itrunc. apply wp_bind. apply wp_trunc_direct; [done|done|]. intros c1 s1 Hf.
  pose proof (freed_iof _ _ _ _ _ Hf) as Ei. apply wp_bind, wp_gets. rewrite Ei. cbn [i_addrs i_dev iset_addrs]. fold p.
  rewrite (fo_dev _ _ _ file). change (aget 0 (zeroed NDIRECT (i_addrs p)) NDIRECT) with (aget 0 (zeroed 12 (i_addrs p)) 12).
  rewrite aget_zeroed by lia. cbn [Z.ltb Z.compare Pos.compare Pos.compare_cont]. change (aget 0 (i_addrs p) 12) with (ind_of p).
  apply wp_bind. unfold when. destruct (Z.eqb_spec (ind_of p) 0) as [E|E]; cbn [negb].
  - apply wp_ret, HQ. destruct Hf as (Hc1 & bs1 & V1 & X & Fz & HX). split; [done|]. exists bs1, V1, X.
    rewrite zeroed_12 by done. split; [done|]. intros m. rewrite HX, owns_upto. unfold upto. split.
    + intros [Hz (bn & Hb & ->)]. left. split; [done|]. exists bn. split; [change NDIRECT with 12 in *; change MAXFILE with 140; lia|done].
    + intros [[Hz (bn & Hb & ->)]|[Hz ->]]; [|done]. split; [done|]. exists bn. split; [|done].
      destruct (Z.ltb_spec bn NDIRECT); [lia|]. exfalso. apply Hz. unfold addr_of.
      destruct (Z.ltb_spec bn NDIRECT); [lia|]. now rewrite E.
  - eapply wp_mono; [apply wp_trunc_indirect; [done|exact Hf]|]. intros u c' s' Hf'. now apply HQ.
Qed.
End Trunc.

(** * Storing the inode *)

Section Drop.
Variables (s : fsst) (bs : list Z) (V : Z -> block) (i : nat) (X : list Z).
Let p := iof i s.
Let ib := IBLOCK (i_inum p) (fs_sb s).
Hypothesis lay : layout s.
Hypothesis cached : is_Some (icache s !! i).
Hypothesis inum : inum_ok s (i_inum p).
Hypothesis room : (length bs <= 26)%nat.

(** The blocks [X] were freed, and the inode is being stored. *)
Record dropping (s' : fsst) (bs' : list Z) (V' : Z -> block) (q : inode) : Prop := {
  dr_tr : tr s' bs' V' [];
  dr_frame : frame (iset i (fun _ => q) s) s';
  dr_key : i_dev q = i_dev p /\ i_inum q = i_inum p;
  dr_data m : bmapblock s < m -> V' m = V m;
  dr_bits m : 0 <= m -> bit_of (V' (bmapblock s)) m = bit_of (V (bmapblock s)) m && negb (bool_decide (m ∈ X));
  dr_others r : inum_ok s (i_inum r) -> i_inum r <> i_inum p -> on_disk s V r -> on_disk s V' r;
  dr_bs : bs' ⊆ bmapblock s :: ib :: bs
}.

Lemma dropping_freeing s' bs' V' q :
  freeing s bs V i [] X s' bs' V' q -> i_dev q = i_dev p /\ i_inum q = i_inum p -> dropping s' bs' V' q.
Proof.
  intros [T F [C1 C2] B] Hk. split; try done.
  - intros m Hm. apply C2. lia.
  - intros r Hr _ Hd. unfold on_disk in *. rewrite C2; [done|]. pose proof (IBLOCK_range s _ lay Hr). lia.
  - intros x Hx. apply B in Hx. rewrite !elem_of_cons in *. tauto.
Qed.

Lemma dropping_mod s' bs' V' q f :
  i_dev (f q) = i_dev q /\ i_inum (f q) = i_inum q -> dropping s' bs' V' q -> dropping (iset i f s') bs' V' (f q).
Proof.
  intros [E1 E2] [T F [K1 K2] D B O Sb]. split; try done; [now apply tr_iset| |split; congruence].
  apply (frame_iset i f) in F. now rewrite iset_iset_const in F.
Qed.

Lemma dropping_iof s' bs' V' q : dropping s' bs' V' q ->
  iof i s' = q /\ is_Some (icache s' !! i) /\ layout s' /\ fs_sb s' = fs_sb s /\ bmapblock s' = bmapblock s.
Proof.
  intros [T F K D B O Sb]. split_and!.
  - rewrite (frame_iof i _ _ F). now apply iof_iset.
  - rewrite (fr_icache _ _ F). cbn. rewrite list_lookup_alter_eq. now apply fmap_is_Some.
  - eapply layout_frame; [exact F|now apply layout_iset].
  - exact (fr_sb _ _ F).
  - exact (frame_bmap _ _ F).
Qed.

Lemma wp_drop_update s1 bs1 V1 q (Q : unit -> ctx -> fsst -> Prop) c :
  held c = [] -> i_dev p = 1 -> dropping s1 bs1 V1 q ->
  (forall c' s' bs' V', held c' = [] -> dropping s' bs' V' q -> V' ib = dinode_store (V1 ib) (dinode_off (i_inum p)) q -> Q tt c' s') ->
  wp (iupdate i) Q c s1.
Proof.
  intros Hc Hdev Dr HQ. destruct (dropping_iof _ _ _ _ Dr) as (Ei & Hi & L1 & Esb & EB). destruct Dr as [T F [K1 K2] D B O Sb].
  pose proof (IBLOCK_range s _ lay inum) as Hr. fold ib in Hr.
  assert (Hlen : (length bs1 <= S (S (length bs)))%nat) by (apply (NoDup_incl_length bs1 (bmapblock s :: ib :: bs)); [apply T|exact Sb]).
  apply (wp_iupdate fuel_pos s1 bs1 V1); rewrite ?Ei; try done; [congruence|unfold inum_ok; rewrite K2, Esb; exact inum|lia|].
  rewrite K2, Esb. fold ib. intros c' s' Hc' T' F'.
  assert (EV : update_V s1 V1 q = vset V1 ib (dinode_store (V1 ib) (dinode_off (i_inum p)) q)) by (unfold update_V; now rewrite K2, Esb).
  apply (HQ c' s' (bs_add ib bs1) (update_V s1 V1 q) Hc'); [|rewrite EV; apply vset_eq].
  split; [exact T'|eapply frame_trans; eauto|done| | | |].
  - intros m Hm. rewrite EV, vset_ne by lia. now apply D.
  - intros m Hm. rewrite EV, vset_ne by lia. now apply B.
  - intros r Hr' Hne Hd. apply (on_disk_frame s1); [done|]. apply update_other; try done.
    + unfold inum_ok. rewrite K2, Esb. exact inum.
    + unfold inum_ok. now rewrite Esb.
    + congruence.
    + apply (on_disk_frame s); [done|]. now apply O.
  - apply bs_add_sub; [exact Sb|right; left].
Qed.

Variable F : list nat.
Hypothesis view : fs_view s bs V F.
Hypothesis i_in : i ∈ F.
Hypothesis all : forall m, m ∈ X <-> owns V p m.

(** The other files are as before, and exactly the blocks of the file became free. *)
Lemma dropping_view s' bs' V' q :
  dropping s' bs' V' q ->
  fs_view s' bs' V' (filter (fun j => j <> i) F) /\
  (forall j, j ∈ F -> j <> i -> iof j s' = iof j s /\ contents V' (iof j s') = contents V (iof j s)) /\
  (forall m, 0 <= m -> owns V p m -> used s' V' m = false) /\
  (forall m, 0 <= m -> ~ owns V p m -> used s' V' m = used s V m).
Proof.
  intros Dr. destruct (dropping_iof _ _ _ _ Dr) as (Ei & Hi & L1 & Esb & EB). destruct Dr as [T Fr [K1 K2] D B O Sb].
  pose proof view as [_ L M Fl]. destruct (fl_inv _ _ _ Fl i i_in) as [_ [Hf _ _ _ _ _ _]]. fold p in Hf.
  assert (Hiof : forall j, j <> i -> iof j s' = iof j s) by (intros j Hj; rewrite (frame_iof j _ _ Fr); now apply iof_iset_ne).
  assert (Hfree : forall m, 0 <= m -> ~ owns V p m -> used s' V' m = used s V m).
  { intros m Hm Ho. unfold used. rewrite EB, B by done. rewrite bool_decide_eq_false_2 by (now rewrite all). apply andb_true_r. }
  assert (Hkeep : forall j, j ∈ F -> j <> i -> forall m, owns V (iof j s) m -> bit_of (V' (bmapblock s)) m = true).
  { intros j Hj Hne m Ho. destruct (fl_inv _ _ _ Fl j Hj) as [_ [Hfj _ _ _ _ _ _]]. destruct (owns_data _ _ _ _ Hfj Ho) as [R Hu].
    pose proof (bmap_nonneg s lay). rewrite B, Hu by lia. rewrite bool_decide_eq_false_2; [done|]. rewrite all. intros Ho'.
    destruct (fl_sep _ _ _ Fl i j i_in Hj ltac:(congruence)) as [_ Hsep]. exact (Hsep m Ho' Ho). }
  split_and!; [|intros j Hj Hne| |done].
  - split; [done|done| |].
    + intros m Hm. rewrite EB in Hm. rewrite Hfree; [now apply M|lia|]. intros Ho. destruct (owns_data _ _ _ _ Hf Ho) as [R _]. lia.
    + split.
      * intros j [Hne Hj]%list_elem_of_filter. destruct (fl_inv _ _ _ Fl j Hj) as [Hsj [F1 F2 F3 F4 F5 F6 F7]].
        rewrite (fr_icache _ _ Fr). cbn. rewrite list_lookup_alter_ne, Hiof by done. split; [done|].
        assert (I : file_inv (iset i (fun _ => q) s) V' (iof j s)); [|exact (file_inv_frame _ _ _ _ Fr I)]. split; try done.
        -- apply file_ok_iset. apply (data_file s V); [done|done|]. now apply Hkeep.
        -- now apply (data_dense s V).
        -- apply (on_disk_frame s); [done|]. apply O; [done| |done].
           destruct (fl_sep _ _ _ Fl j i Hj i_in Hne) as [Hn _]. exact Hn.
      * intros j k [Hj Hj']%list_elem_of_filter [Hk Hk']%list_elem_of_filter Hne. rewrite !Hiof by done.
        destruct (fl_sep _ _ _ Fl j k Hj' Hk' Hne) as [Hn Hsep]. split; [done|]. intros m.
        rewrite !(data_owns s V V') by (done || now apply Fl). apply Hsep.
  - rewrite Hiof by done. split; [done|]. destruct (fl_inv _ _ _ Fl j Hj) as [_ [F1 _ F3 _ _ _ _]]. now apply (data_contents s V).
  - intros m Hm Ho. unfold used. rewrite EB, B by done. rewrite bool_decide_eq_true_2 by (now rewrite all). apply andb_false_r.
Qed.
End Drop.
End Free.

(** * [iput] *)

Section Iput.
Context {fuel : Fuel}.
Variables (s : fsst) (bs : list Z) (V : Z -> block) (F : list nat) (i : nat).
Let p := iof i s.
Hypothesis fuel_pos : (0 < wakeups)%nat.
Hypothesis view : fs_view s bs V F.
Hypothesis i_in : i ∈ F.
Hypothesis super_ok : superblock_of (V 1) = fs_sb s.
Hypothesis room : (length bs <= 26)%nat.

(** The inode and its blocks are free. *)
Definition gone (s' : fsst) : Prop :=
  exists bs' V', fs_view s' bs' V' (filter (fun j => j <> i) F) /\
    (forall j, j ∈ F -> j <> i -> contents V' (iof j s') = contents V (iof j s)) /\
    (forall m, 0 <= m -> owns V p m -> used s' V' m = false) /\
    (forall m, 0 <= m -> ~ owns V p m -> used s' V' m = used s V m) /\
    rd16 (V' (IBLOCK (i_inum p) (fs_sb s))) (dinode_off (i_inum p)) = 0 /\
    (length bs' <= length bs + 2)%nat.

(** The body of [iput] when it holds the last reference. *)
Lemma wp_iput_body (Q : unit -> ctx -> fsst -> Prop) c :
  held c = [] ->
  (forall c' s' r, held c' = [] -> iof i s' = r -> i_ref r = i_ref p -> i_locked r = i_locked p -> is_Some (icache s' !! i) ->
     (forall f, (forall q, i_dev (f q) = i_dev q /\ i_inum (f q) = i_inum q) -> gone (iset i f s')) -> Q tt c' s') ->
  wp (itrunc i ;;; imod i (iset_type 0) ;;; iupdate i ;;; imod i (iset_valid false)) Q c s.
Proof.
  intros Hc HQ. pose proof view as [T L M Fl]. destruct (fl_inv _ _ _ Fl i i_in) as [Hi Hfi]. fold p in Hfi.
  pose proof Hfi as [Hf _ _ _ Hn _ _]. pose proof (fo_dev _ _ _ Hf) as Hdev.
  apply wp_bind. apply (wp_trunc_blocks fuel_pos s bs V i L Hi Hf super_ok ltac:(lia)); [done|done|].
  intros c1 s1 (Hc1 & bs1 & V1 & X & Fz & HX). apply wp_bind, wp_modify.
  assert (D1 : dropping s bs V i X s1 bs1 V1 (iset_addrs (zeroed 13 (i_addrs p)) p)) by (eapply dropping_freeing; done).
  apply (dropping_mod _ _ _ _ _ _ _ _ _ (iset_size 0)) in D1; [|done].
  eapply (wp_drop_update fuel_pos s bs V i X L Hi Hn room); [done|done|exact D1|]. intros c2 s2 bs2 V2 Hc2 D2 _.
  apply wp_bind, wp_modify. apply (dropping_mod _ _ _ _ _ _ _ _ _ (iset_type 0)) in D2; [|done].
  apply wp_bind. eapply (wp_drop_update fuel_pos s bs V i X L Hi Hn room); [done|done|exact D2|]. intros c3 s3 bs3 V3 Hc3 D3 E3.
  apply wp_modify. apply (dropping_mod _ _ _ _ _ _ _ _ _ (iset_valid false)) in D3; [|done].
  destruct (dropping_iof s bs V i X L Hi _ _ _ _ D3) as (Ei & Hi3 & _ & _ & _).
  eapply HQ; [done|exact Ei|done|done|done|]. intros f Hkey.
  apply (dropping_mod _ _ _ _ _ _ _ _ _ f) in D3; [|apply Hkey].
  destruct (dropping_view fuel_pos s bs V i X L Hi room F view i_in HX _ _ _ _ D3) as (Hv & Hoth & H1 & H2).
  exists bs3, V3. split_and!; [done|intros j Hj Hne; now apply Hoth|done|done| |].
  - pose proof (dinode_off_range (i_inum p)) as Ho. fold p in E3. rewrite E3, dinode_store_type; [done|lia|].
    destruct (tr_block_ok _ _ _ _ (IBLOCK (i_inum p) (fs_sb s)) (dr_tr _ _ _ _ _ _ _ _ _ D2)) as [-> _]; [|lia].
    rewrite (fr_disk _ _ (dr_frame _ _ _ _ _ _ _ _ _ D2)). cbn. pose proof (IBLOCK_pos s _ L Hn). lia.
  - pose proof (NoDup_incl_length bs3 _ (ls_nodup _ _ (tr_log _ _ _ _ (dr_tr _ _ _ _ _ _ _ _ _ D3))) (dr_bs _ _ _ _ _ _ _ _ _ D3)) as Hl.
    cbn in Hl. lia.
Qed.
End Iput.

(** C15: [iput] of the last reference to a file without links frees the file: every
    block of it and no other becomes free, its inode on the disk becomes free, the
    cache entry loses its reference, the other files keep their contents, and two
    blocks at most join the log. *)
Theorem iput_frees_file `{fuel : Fuel} s bs V F i c :
  let p := iof i s in
  (0 < wakeups)%nat -> held c = [] -> fs_view s bs V F -> i ∈ F -> superblock_of (V 1) = fs_sb s -> (length bs <= 26)%nat ->
  i_valid p = true -> i_nlink p = 0 -> i_ref p = 1 -> i_locked p = false ->
  wp (iput i) (fun _ c' s' => held c' = [] /\ i_ref (iof i s') = 0 /\ gone s bs V F i s') c s.
Proof.
  intros p Hfuel Hc Hv Hi Hsb Hroom Hval Hnl Href Hlk. destruct c as [h w]. cbn in Hc. subst h.
  destruct (fl_inv _ _ _ (fv_files _ _ _ _ Hv) i Hi) as [[x Hx] _]. assert (Ep : p = x) by (unfold p; now apply iof_lookup). subst x.
  unfold iput. apply wp_bind. destruct wakeups as [|k] eqn:Ek; [lia|]. apply wp_acquiresleep; [apply not_elem_of_nil|exact Hlk|].
  set (s1 := sl_set (SlInode i) true s). set (p1 := iset_locked true p).
  assert (Es1 : s1 = iset i (fun _ => p1) s).
  { unfold s1, p1. cbn. rewrite <- (iset_const i (iset_locked true) s) by (now rewrite Hx). now rewrite (iof_lookup _ _ _ Hx). }
  assert (E1 : iof i s1 = p1) by (rewrite Es1; rewrite iof_const by (now rewrite Hx); now rewrite decide_True).
  assert (Hv1 : fs_view s1 bs V F).
  { rewrite Es1. apply (fs_view_sim s); try done. intros j Hj. destruct (fl_inv _ _ _ (fv_files _ _ _ _ Hv) j Hj) as [Hs _].
    split; [now apply icache_some|]. rewrite iof_const by (now rewrite Hx). destruct (decide (j = i)) as [->|]; [|apply fsim_refl].
    rewrite (iof_lookup _ _ _ Hx). done. }
  apply wp_bind, wp_gets. rewrite E1. cbn [i_valid i_nlink p1 iset_locked]. rewrite Hval, Hnl. cbn [Z.eqb andb when].
  apply wp_bind, wp_bind, wp_acquire; [apply not_elem_of_nil|]. apply wp_bind, wp_gets. apply wp_bind. eapply wp_release; [done|].
  rewrite E1. cbn [i_ref p1 iset_locked]. rewrite Href. cbn [Z.eqb Pos.eqb when].
  eapply (wp_iput_body s1 bs V F i); [lia|done|done|now rewrite Es1|done|done|].
  intros c2 s2 r Hc2 E2 Hr2 _ Hs2 Hgone. destruct c2 as [h2 w2]. cbn in Hc2. subst h2. rewrite E1 in Hr2.
  apply wp_bind, wp_releasesleep; [apply not_elem_of_nil..|]. apply wp_bind, wp_acquire; [apply not_elem_of_nil|].
  apply wp_bind, wp_modify. eapply wp_release; [done|].
  set (f := fun q => iset_ref (i_ref q - 1) (iset_locked false q)).
  assert (Ef : iset i (fun q => iset_ref (i_ref q - 1) q) (sl_set (SlInode i) false s2) = iset i f s2).
  { unfold iset, sl_set; cbn. f_equal. apply list_eq. intros j. destruct (decide (i = j)) as [<-|Hne].
    - rewrite !list_lookup_alter_eq. now destruct (icache s2 !! i).
    - now rewrite !list_lookup_alter_ne. }
  rewrite Ef. split_and!; [done| |].
  - rewrite iof_iset by done. cbn. rewrite E2, Hr2. cbn. lia.
  - destruct (Hgone f) as (bs' & V' & G1 & G2 & G3 & G4 & G5 & G6); [done|]. exists bs', V'.
    assert (Eo : forall m, owns V (iof i s1) m <-> owns V p m) by (intros m; rewrite E1; done).
    split_and!; [done| |intros m Hm Ho; apply G3; [done|now apply Eo]| | |done].
    + intros j Hj Hne. rewrite (G2 j Hj Hne), Es1. now rewrite iof_iset_ne by congruence.
    + intros m Hm Ho. rewrite G4; [now rewrite Es1|done|now rewrite Eo].
    + rewrite E1, Es1 in G5. exact G5.
Qed.
