(* ===== verification/FsSample.v ===== *)
(** A small disk with a directory and a file, on which the theorems about the
    file system are applied. *)
From S2P Require Import Prelude Monad Mem Mmu Cstring Sleeplock Disk Bio Bcache Log LogProps.
From S2P Require Import LogCrash Fs FsTrans FsAlloc FsData FsFile FsRw FsInode FsWrite FsRefine.
From S2P Require Import FsIcache FsDir FsTrunc.

(** * Files of one block *)

Definition one_block (a : Z) : list Z := a :: replicate 12 0.

Lemma one_block_addr V p a bn :
  i_addrs p = one_block a -> 0 <= bn < MAXFILE -> addr_of V p bn = if bn =? 0 then a else 0.
Proof.
  intros Ha Hb. assert (Hi : ind_of p = 0) by (unfold ind_of; now rewrite Ha). unfold addr_of. rewrite Hi, Ha. cbn [Z.eqb].
  change NDIRECT with 12. destruct (Z.eqb_spec bn 0) as [->|Hz]; [done|].
  destruct (Z.ltb_spec bn 12); [|done]. unfold one_block. rewrite aget_cons_S by lia. unfold aget.
  destruct (replicate 12 0 !! Z.to_nat (bn - 1)) eqn:E; [|done]. now apply lookup_replicate in E as [-> _].
Qed.

Lemma one_block_file s V p a :
  i_addrs p = one_block a -> i_dev p = 1 -> is_data (bmapblock s) (disksize (bio_of s)) V a -> file_ok s V p.
Proof.
  intros Ha Hd Hdata. assert (Hi : ind_of p = 0) by (unfold ind_of; now rewrite Ha).
  split; [now rewrite Ha|done|]. rewrite Hi. split.
  - intros bn Hb. rewrite (one_block_addr V p a) by done. destruct (bn =? 0); done.
  - intros bn bn' Hb Hb'. rewrite !(one_block_addr V p a) by done.
    destruct (Z.eqb_spec bn 0), (Z.eqb_spec bn' 0); subst; intros; done || congruence.
  - done.
  - done.
Qed.

Lemma one_block_owns V p a m : i_addrs p = one_block a -> owns V p m -> m = a.
Proof.
  intros Ha [Hz [->|(bn & Hb & E)]]; [unfold ind_of in Hz; now rewrite Ha in Hz|].
  rewrite (one_block_addr V p a) in E by done. destruct (bn =? 0); congruence.
Qed.

Lemma one_block_dense V p a : i_addrs p = one_block a -> a <> 0 -> i_size p <= BSIZE -> dense V p.
Proof.
  intros Ha Hz Hs k Hk. assert (E : k / BSIZE = 0) by (apply Z.div_small; lia). rewrite E, (one_block_addr V p a) by done. done.
Qed.

(** * The disk *)

Definition super : superblock := Superblock 48 11 8 30 2 32 34.
Definition dnode : inode := Inode 1 1 1 true true T_DIR 0 0 1 32 (one_block 35).
Definition fnode : inode := Inode 1 2 1 false true T_FILE 0 0 1 5 (one_block 36).
(** An open file that was unlinked. *)
Definition unode : inode := Inode 1 3 1 false true T_FILE 0 0 0 512 (one_block 37).

Definition inodes : block :=
  dinode_store (dinode_store (dinode_store zeros (dinode_off 1) dnode) (dinode_off 2) fnode) (dinode_off 3) unode.
Definition bitmap : block := fold_left set_bit (zrange 38) zeros.
Definition dirdata : block := set_bytes (set_bytes zeros 0 (dirent [46] 1)) 16 (dirent [102] 2).
Definition filedata : block := set_bytes zeros 0 [104; 101; 108; 108; 111].
Definition superdata : block :=
  fold_left (fun d '(k, w) => wr32 d (4 * k) w) [(0, 48); (1, 11); (2, 8); (3, 30); (4, 2); (5, 32); (6, 34)] zeros.
Definition disk0 : list block := [zeros; superdata] ++ replicate 30 zeros ++ [inodes; zeros; bitmap; dirdata; filedata] ++ replicate 11 zeros.
Definition V0 : Z -> block := aget [] disk0.

Definition bio0 : bst := final (boot_bufs disk0) (binit (Ctx [] []) (boot_bufs disk0)).
Definition fs0 : fsst := Fsst (Logst bio0 2 30 1 false 1 0 (replicate 30 0)) super [dnode; fnode; unode; inode0].

Definition block_okb (d : block) : bool := (length d =? 512)%nat && forallb (fun x => (0 <=? x) && (x <? 256)) d.
Lemma block_okb_ok d : block_okb d = true -> block_ok d.
Proof.
  unfold block_okb. rewrite andb_true_iff, Nat.eqb_eq, forallb_forall. intros [Hl Hd]. split; [done|].
  apply Forall_forall. intros x Hx. apply list_elem_of_In, Hd, andb_true_iff in Hx as [H1 H2]. unfold is_u8. lia.
Qed.

Lemma fs_disk0_ok : Forall block_ok disk0.
Proof.
  assert (H : forallb block_okb disk0 = true) by (vm_compute; reflexivity). rewrite forallb_forall in H.
  apply Forall_forall. intros d Hd. apply block_okb_ok, H, list_elem_of_In, Hd.
Qed.

Lemma boot0 : binit (Ctx [] []) (boot_bufs disk0) = Ret tt (Ctx [] []) bio0.
Proof. vm_compute. reflexivity. Qed.

Lemma bio0_ok : brep bio0 V0 ∅ [] /\ disk bio0 = disk0 /\ disksize bio0 = 48.
Proof.
  destruct (brep_boot disk0 _ _ fs_disk0_ok boot0) as (_ & R & Ed & _). split_and!; [exact R|exact Ed|].
  unfold disksize. rewrite Ed. vm_compute. reflexivity.
Qed.

Lemma tr0 : tr fs0 [] V0 [].
Proof.
  destruct bio0_ok as (R & _ & Es). split.
  - change (fs_log fs0) with (Logst bio0 2 30 1 false 1 0 (replicate 30 0)). split; cbn [lg_dev lh_n lh_block lg_start lg_size lg_bio]; rewrite ?Es.
    + done.
    + done.
    + done.
    + cbn [length]. lia.
    + lia.
    + lia.
    + lia.
    + cbn [length]. lia.
    + cbn [length]. unfold NBUF. lia.
    + constructor.
    + intros x Hx. now apply elem_of_nil in Hx.
  - exact R.
  - intros b n d Hx. now apply elem_of_nil in Hx.
  - cbn. lia.
Qed.

Lemma layout0 : layout fs0.
Proof.
  destruct bio0_ok as (_ & _ & Es). split; cbn [fs0 fs_log fs_sb lg_bio lg_start lg_size super sb_size sb_inodestart sb_ninodes sb_bmapstart].
  - exact Es.
  - unfold BPB, BSIZE. lia.
  - lia.
  - lia.
  - unfold LOGSIZE, MAXOPBLOCKS. lia.
  - lia.
  - change (8 / IPB) with 1. lia.
  - lia.
Qed.

Lemma used0 : forallb (fun m => used fs0 V0 m) (zrange 38) = true.
Proof. vm_compute. reflexivity. Qed.
Lemma used0_at m : 0 <= m < 38 -> used fs0 V0 m = true.
Proof. intros Hm. apply (proj1 (forallb_forall _ _) used0), list_elem_of_In, elem_of_zrange. exact Hm. Qed.

Lemma meta0 : meta_used fs0 V0.
Proof. intros m Hm. apply used0_at. change (bmapblock fs0) with 34 in Hm. lia. Qed.

Lemma data0 a : 34 < a < 38 -> is_data (bmapblock fs0) (disksize (bio_of fs0)) V0 a.
Proof.
  intros Ha. destruct bio0_ok as (_ & _ & Es). change (bio_of fs0) with bio0. rewrite Es. change (bmapblock fs0) with 34.
  split; [lia|]. apply (used0_at a). lia.
Qed.

Lemma file0 p a :
  i_addrs p = one_block a -> i_dev p = 1 -> 34 < a < 38 -> 0 <= i_size p <= 512 -> i_type p <> T_DEV ->
  inum_ok fs0 (i_inum p) -> (s16 (i_type p) = i_type p /\ s16 (i_major p) = i_major p /\ s16 (i_minor p) = i_minor p /\ s16 (i_nlink p) = i_nlink p) ->
  on_disk fs0 V0 p -> file_inv fs0 V0 p.
Proof.
  intros Ha Hd Hr Hs Ht Hi H16 Ho. split; try done.
  - apply (one_block_file _ _ _ a); [done|done|now apply data0].
  - apply (one_block_dense _ _ a); [done|lia|unfold BSIZE; lia].
  - change (MAXFILE * BSIZE) with 71680. lia.
Qed.

Lemma dnode_ok : file_inv fs0 V0 dnode.
Proof.
  apply (file0 _ 35); [done|done|lia|cbn; lia|done|unfold inum_ok; cbn; lia|done|]. vm_compute. reflexivity.
Qed.
Lemma fnode_ok : file_inv fs0 V0 fnode.
Proof.
  apply (file0 _ 36); [done|done|lia|cbn; lia|done|unfold inum_ok; cbn; lia|done|]. vm_compute. reflexivity.
Qed.

Lemma unode_ok : file_inv fs0 V0 unode.
Proof.
  apply (file0 _ 37); [done|done|lia|cbn; lia|done|unfold inum_ok; cbn; lia|done|]. vm_compute. reflexivity.
Qed.

Definition F0 : list nat := [0; 1; 2]%nat.

Lemma F0_cases i : i ∈ F0 -> i = 0%nat \/ i = 1%nat \/ i = 2%nat.
Proof. unfold F0. rewrite !elem_of_cons, elem_of_nil. tauto. Qed.

(** The block and the number of each file. *)
Lemma F0_addr i : i ∈ F0 -> i_addrs (iof i fs0) = one_block (35 + Z.of_nat i) /\ i_inum (iof i fs0) = 1 + Z.of_nat i.
Proof. now intros [->|[->| ->]]%F0_cases. Qed.

Lemma view0 : fs_view fs0 [] V0 F0.
Proof.
  split; [exact tr0|exact layout0|exact meta0|]. split.
  - intros i [->|[->| ->]]%F0_cases; (split; [eexists; reflexivity|]); [exact dnode_ok|exact fnode_ok|exact unode_ok].
  - intros i j Hi Hj Hne. destruct (F0_addr i Hi) as [A1 N1], (F0_addr j Hj) as [A2 N2]. split; [lia|].
    intros m H1 H2. apply (one_block_owns _ _ _ _ A1) in H1. apply (one_block_owns _ _ _ _ A2) in H2. lia.
Qed.

Lemma cache0 : cache_ok fs0.
Proof.
  split.
  - intros [|[|[|[|i]]]] p; cbn; intros [= <-]; cbn; lia.
  - intros [|[|[|[|i]]]] [|[|[|[|j]]]] p q; cbn; intros [= <-] [= <-]; cbn; try done; lia.
Qed.
Lemma live0 : live fs0 F0.
Proof. intros j [->|[->| ->]]%F0_cases; cbn; lia. Qed.

Lemma free0 : free fs0 V0 4.
Proof.
  destruct bio0_ok as (_ & _ & Es). exists [40; 41; 42; 43]. split; [apply (bool_decide_unpack _); vm_compute; exact I|]. split; [done|].
  intros n Hn. change (bio_of fs0) with bio0. rewrite Es. rewrite !elem_of_cons in Hn.
  destruct Hn as [-> |[-> |[-> |[-> |[]%elem_of_nil]]]]; (split; [lia|vm_compute; reflexivity]).
Qed.

(** * The theorems on this disk *)

#[local] Instance fuel1 : Fuel := 1%nat.
(** No devices. *)
#[local] Instance nodev : Devices fsst := {| dev_read _ := None; dev_write _ := None |}.
Abbreviation c0 := (Ctx [] []).

Lemma fcontents : contents V0 fnode = [104; 101; 108; 108; 111].
Proof. vm_compute. reflexivity. Qed.

(** Reading three bytes at offset 1, and past the end. *)
Lemma readi_refines_witness :
  wp (readi 1 to_local [0; 0; 0] 1 3) (fun '(l', r) _ _ => l' = [101; 108; 108] /\ r = 3) c0 fs0 /\
  wp (readi 1 to_local [0; 0; 0] 6 3) (fun '(l', r) _ _ => l' = [0; 0; 0] /\ r = -1) c0 fs0.
Proof.
  assert (H : forall off, is_u32 off -> _) by (intros off Hoff;
    exact (readi_refines (fuel := fuel1) fs0 [] V0 F0 1 [0; 0; 0] off 3 c0 ltac:(unfold wakeups, fuel1; lia) eq_refl view0
      ltac:(unfold F0; set_solver) ltac:(cbn; unfold NBUF; lia) Hoff ltac:(unfold is_u32; lia))).
  change (iof 1 fs0) with fnode in H. rewrite fcontents in H. split.
  - eapply wp_mono; [apply (H 1); unfold is_u32; lia|]. intros [l' r] c' s' (_ & _ & _ & E). exact E.
  - eapply wp_mono; [apply (H 6); unfold is_u32; lia|]. intros [l' r] c' s' (_ & _ & _ & E). exact E.
Defined.

(** Writing over the end of the file: it grows, and the directory stays. *)
Lemma writei_refines_witness :
  wp (writei 1 (from_local [88; 89; 90]) 4 3) (fun r _ s' => r = 3 /\ exists V', contents V' (iof 1 s') = [104; 101; 108; 108; 88; 89; 90] /\
    contents V' (iof 0 s') = contents V0 dnode) c0 fs0.
Proof.
  eapply wp_mono; [apply (writei_refines fs0 [] V0 F0 1 4 [88; 89; 90] c0)|].
  - unfold wakeups, fuel1. lia.
  - reflexivity.
  - exact view0.
  - unfold F0. set_solver.
  - unfold is_u32. lia.
  - unfold is_u32. cbn. lia.
  - repeat constructor; unfold is_u8; lia.
  - intros _. split; [exact free0|]. cbn [length]. change (nblocks 4 (Z.of_nat 3)) with 1. lia.
  - intros r c' s' (_ & bs' & V' & _ & E & Ho & _). change (iof 1 fs0) with fnode in E. rewrite fcontents in E.
    change (writei_spec [104; 101; 108; 108; 111] 4 [88; 89; 90]) with (3, [104; 101; 108; 108; 88; 89; 90]) in E.
    split; [exact (f_equal fst E)|]. exists V'. split; [exact (f_equal snd E)|]. apply (Ho 0%nat); [unfold F0; set_solver|lia].
Defined.

Lemma dcontents : dir_lookup (contents V0 dnode) [102] = Some (2, 16) /\ dir_lookup (contents V0 dnode) [103] = None /\
  dir_lookup (contents V0 dnode) [46] = Some (1, 0) /\ dir_slot (contents V0 dnode) = 32 /\ whole (contents V0 dnode).
Proof. vm_compute. done. Qed.

(** The name "f" leads to inode 2. *)
Lemma dirlookup_refines_witness :
  wp (dirlookup 0 [102]) (fun r _ s' => exists i, r = Some (i, 16) /\ i_inum (iof i s') = 2) c0 fs0.
Proof.
  destruct dcontents as (E1 & _ & _ & _ & Hw).
  eapply wp_mono; [apply (dirlookup_refines fs0 [] V0 F0 0 [102] c0)|].
  - unfold wakeups, fuel1. lia.
  - reflexivity.
  - exact view0.
  - unfold F0. set_solver.
  - cbn. unfold NBUF. lia.
  - exact cache0.
  - exact live0.
  - reflexivity.
  - exact Hw.
  - unfold dir_room. change (iof 0 fs0) with dnode. rewrite E1. exists 1%nat, fnode. split; [reflexivity|]. left. split; [cbn; lia|done].
  - intros r c' s' (_ & _ & _ & _ & E). change (iof 0 fs0) with dnode in E. rewrite E1 in E. destruct E as (i & -> & Hk).
    exists i. split; [reflexivity|apply Hk].
Defined.

(** A second name "g" for inode 2. *)
Lemma dirlink_refines_witness :
  wp (dirlink 0 [103] 2) (fun r _ s' => r = 0 /\ exists V', dir_lookup (contents V' (iof 0 s')) [103] = Some (2, 32) /\
    dir_lookup (contents V' (iof 0 s')) [102] = Some (2, 16)) c0 fs0.
Proof.
  destruct dcontents as (E1 & E2 & _ & E4 & Hw).
  eapply wp_mono; [apply (dirlink_refines fs0 [] V0 F0 0 [103] 2 c0)|].
  - unfold wakeups, fuel1. lia.
  - reflexivity.
  - exact view0.
  - unfold F0. set_solver.
  - exact cache0.
  - exact live0.
  - reflexivity.
  - exact Hw.
  - repeat constructor; unfold is_u8; lia.
  - unfold is_u16. lia.
  - discriminate.
  - cbn. lia.
  - change (iof 0 fs0) with dnode. rewrite E2, E4. split; [unfold DIRENT_SIZE; change (MAXFILE * BSIZE) with 71680; lia|exact free0].
  - intros r c' s' (_ & bs' & V' & _ & _ & E). change (iof 0 fs0) with dnode in E. cbv zeta in E. rewrite E2, E4 in E.
    destruct E as (-> & _ & L1 & L2). split; [reflexivity|]. exists V'. split; [exact L1|].
    rewrite L2; [exact E1|vm_compute; discriminate].
Defined.

(** An inode that is not cached takes the unused entry. *)
Lemma iget_one_entry_witness :
  wp (iget 1 7) (fun i _ s' => i_inum (iof i s') = 7 /\ i_ref (iof i s') = 1 /\ i_valid (iof i s') = false) c0 fs0.
Proof.
  eapply wp_mono; [apply (iget_one_entry fs0 1 7 c0)|].
  - reflexivity.
  - exact cache0.
  - exists 3%nat, inode0. split; [reflexivity|now right].
  - intros i c' s' (p & q & _ & _ & Hp & Hq & Hk & _ & Hc). unfold iof. rewrite Hq. cbn [default]. split; [apply Hk|].
    destruct Hc as [[(K1 & _ & K) _]|(_ & _ & ->)]; [|split; reflexivity]. exfalso. revert Hp K1 K.
    destruct i as [|[|[|[|i]]]]; intros [= <-]; cbn; lia.
Defined.

(** The directory's own name ".". *)
Lemma dirlink_own_entry_deadlocks_witness :
  exists w s' k, dirlink 0 [46] 2 c0 fs0 = Sleep (Some (ChSleep (SlInode 0))) w s' k /\ i_locked (iof 0 s') = true.
Proof.
  destruct dcontents as (_ & _ & E3 & _ & Hw).
  apply (dirlink_own_entry_deadlocks fs0 [] V0 F0 0 [46] 2 0 c0).
  - unfold wakeups, fuel1. lia.
  - reflexivity.
  - exact view0.
  - unfold F0. set_solver.
  - cbn. unfold NBUF. lia.
  - exact cache0.
  - exact live0.
  - reflexivity.
  - exact Hw.
  - reflexivity.
  - exact E3.
Defined.

(** Closing the unlinked file gives block 37 back. *)
Lemma iput_frees_file_witness :
  wp (iput 2) (fun _ _ s' => i_ref (iof 2 s') = 0 /\ exists V', used s' V' 37 = false /\ used s' V' 36 = true) c0 fs0.
Proof.
  eapply wp_mono; [apply (iput_frees_file fs0 [] V0 F0 2 c0)|].
  - unfold wakeups, fuel1. lia.
  - reflexivity.
  - exact view0.
  - unfold F0. set_solver.
  - vm_compute. reflexivity.
  - cbn. lia.
  - reflexivity.
  - reflexivity.
  - reflexivity.
  - reflexivity.
  - intros [] c' s' (_ & Hr & bs' & V' & _ & _ & H1 & H2 & _). split; [exact Hr|]. exists V'.
    destruct (F0_addr 2 ltac:(unfold F0; set_solver)) as [Ha _]. split.
    + apply H1; [lia|]. split; [lia|]. right. exists 0. split; [change MAXFILE with 140; lia|].
      rewrite (one_block_addr V0 _ _ 0 Ha) by (change MAXFILE with 140; lia). reflexivity.
    + rewrite H2; [apply used0_at; lia|lia|]. intros Ho. apply (one_block_owns _ _ _ _ Ha) in Ho. discriminate Ho.
Defined.
