(* ===== verification/Mkfs.v ===== *)
(** mkfs.c: the program that makes the image of the file system, on a host whose
    reads and writes of the image succeed.  A failed assertion or a short read stops it. *)
From S2P Require Import Prelude Monad Mem Mmu Cstring Sleeplock Disk Bio Log Fs FsAlloc FsData.

Definition NINODES : Z := 200.
Definition nbitmap : Z := FSSIZE / (BSIZE * 8) + 1.
Definition ninodeblocks : Z := NINODES / IPB + 1.
Definition nlog : Z := LOGSIZE.
Definition nmeta : Z := 2 + nlog + ninodeblocks + nbitmap.
Definition nblocks : Z := FSSIZE - nmeta.

(** The bytes of [y] are those of [x] in Intel order; the host reads them in its own,
    which is the same. *)
Definition xshort (x : Z) : Z := le_val [u8 x; u8 (Z.shiftr x 8)].
Definition xint (x : Z) : Z := le_val [u8 x; u8 (Z.shiftr x 8); u8 (Z.shiftr x 16); u8 (Z.shiftr x 24)].

(** The global [sb], as main sets it. *)
Definition sb : superblock :=
  Superblock (xint FSSIZE) (xint nblocks) (xint NINODES) (xint nlog) (xint 2) (xint (2 + nlog))
    (xint (2 + nlog + ninodeblocks)).

(** The image, block by block, and the globals freeinode and freeblock. *)
Record img : Type := Img {
  im_disk : gmap Z block;
  freeinode : Z;
  freeblock : Z
}.

Definition assert_ (b : bool) : M img unit := if b then ret tt else panic "assertion failed".

(** The block at the offset [sec * BSIZE] of the image. *)
Definition sector (sec : Z) : Z := u32 (sec * BSIZE) / BSIZE.

Definition wsect (sec : Z) (buf : block) : M img unit :=
  modify (fun s => Img (<[sector sec := buf]> (im_disk s)) (freeinode s) (freeblock s)).

Definition rsect (sec : Z) : M img block :=
  let* s := get in
  match im_disk s !! sector sec with
  | Some d => ret d
  | None => panic "read"
  end.

(** The inode [inum], with the fields of the in-memory inode that the image does not
    have. *)
Definition inode_key (inum : Z) : inode := Inode 1 inum 1 true true 0 0 0 0 0 (replicate 13 0).

Definition winode (inum : Z) (ip : inode) : M img unit :=
  let bn := IBLOCK inum sb in
  let* buf := rsect bn in
  wsect bn (dinode_store buf (dinode_off inum) ip).

Definition rinode (inum : Z) : M img inode :=
  let bn := IBLOCK inum sb in
  let* buf := rsect bn in
  ret (dinode_load buf (dinode_off inum) (inode_key inum)).

(** [freeinode++], [freeblock++]. *)
Definition next_inode : M img Z :=
  let* s := get in
  put (Img (im_disk s) (u32 (freeinode s + 1)) (freeblock s)) ;;; ret (freeinode s).
Definition next_block : M img Z :=
  let* s := get in
  put (Img (im_disk s) (freeinode s) (u32 (freeblock s + 1))) ;;; ret (freeblock s).

Definition ialloc (type : Z) : M img Z :=
  let* inum := next_inode in
  let din := iset_size (xint 0) (iset_nlink (xshort 1) (iset_type (xshort type) (inode_key inum))) in
  winode inum din ;;;
  ret inum.

Definition balloc (used : Z) : M img unit :=
  assert_ (used <? BSIZE * 8) ;;;
  let buf := fold_left set_bit (zrange (Z.to_nat used)) zeros in
  wsect (sb_bmapstart sb) buf.

(** The block [fbn] of the file from its indirect block, a new one if there is none. *)
Definition iappend_entry (din : inode) (fbn : Z) : M img (inode * Z) :=
  let ind := xint (aget 0 (i_addrs din) NDIRECT) in
  let* indirect := rsect ind in
  let* indirect :=
    if rd32 indirect (4 * (fbn - NDIRECT)) =? 0 then
      let* b := next_block in
      let indirect := wr32 indirect (4 * (fbn - NDIRECT)) (xint b) in
      wsect ind indirect ;;;
      ret indirect
    else ret indirect in
  ret (din, xint (rd32 indirect (4 * (fbn - NDIRECT)))).

(** The block [fbn] of the file, a new one if there is none. *)
Definition iappend_block (din : inode) (fbn : Z) : M img (inode * Z) :=
  if fbn <? NDIRECT then
    let* din :=
      if xint (aget 0 (i_addrs din) fbn) =? 0 then
        let* b := next_block in ret (iset_addrs (aset (i_addrs din) fbn (xint b)) din)
      else ret din in
    ret (din, xint (aget 0 (i_addrs din) fbn))
  else
    let* din :=
      if xint (aget 0 (i_addrs din) NDIRECT) =? 0 then
        let* b := next_block in ret (iset_addrs (aset (i_addrs din) NDIRECT (xint b)) din)
      else ret din in
    iappend_entry din fbn.

(** The loop of iappend; a round writes at least one byte, so [k] rounds are enough
    for [k] bytes. *)
Fixpoint iappend_from (k : nat) (din : inode) (off : Z) (p : list Z) : M img (inode * Z) :=
  match k, p with
  | _, [] => ret (din, off)
  | O, _ => panic "out of rounds"
  | S k', _ =>
      let fbn := off / BSIZE in
      assert_ (fbn <? MAXFILE) ;;;
      let* (din, x) := iappend_block din fbn in
      let n1 := Z.min (Z.of_nat (length p)) ((fbn + 1) * BSIZE - off) in
      let* buf := rsect x in
      wsect x (set_bytes buf (off - fbn * BSIZE) (take (Z.to_nat n1) p)) ;;;
      iappend_from k' din (off + n1) (drop (Z.to_nat n1) p)
  end.

Definition iappend (inum : Z) (p : list Z) : M img unit :=
  let* din := rinode inum in
  let off := xint (i_size din) in
  let* (din, off) := iappend_from (length p) din off p in
  winode inum (iset_size (xint off) din).

(** A file of the command line: its name, and the bytes that each read returns. *)
Record hostfile : Type := HostFile {
  hf_name : list Z;
  hf_reads : list (list Z)
}.

(** [if(argv[i][0] == '_') ++argv[i]]. *)
Definition skip_underscore (name : list Z) : list Z :=
  match name with
  | c :: name' => if c =? 95 then name' else name
  | [] => name
  end.

Definition add_file (rootino : Z) (f : hostfile) : M img unit :=
  assert_ (negb (bool_decide (47 ∈ hf_name f))) ;;;
  let name := skip_underscore (hf_name f) in
  let* inum := ialloc T_FILE in
  iappend rootino (dirent name (xshort inum)) ;;;
  for_ (hf_reads f) (fun buf => iappend inum buf).

(** [memmove(buf, &sb, sizeof(sb))]. *)
Definition sb_block : block :=
  set_bytes zeros 0
    (le_bytes 4 (sb_size sb) ++ le_bytes 4 (sb_nblocks sb) ++ le_bytes 4 (sb_ninodes sb) ++ le_bytes 4 (sb_nlog sb) ++
     le_bytes 4 (sb_logstart sb) ++ le_bytes 4 (sb_inodestart sb) ++ le_bytes 4 (sb_bmapstart sb)).

(** Rounding up the size of the root directory. *)
Definition fix_root (rootino : Z) : M img unit :=
  let* din := rinode rootino in
  let off := xint (i_size din) in
  let off := u32 ((off / BSIZE + 1) * BSIZE) in
  winode rootino (iset_size (xint off) din).

Definition mkfs (files : list hostfile) : M img unit :=
  modify (fun s => Img (im_disk s) (freeinode s) nmeta) ;;;
  for_ (zrange (Z.to_nat FSSIZE)) (fun i => wsect i zeros) ;;;
  wsect 1 sb_block ;;;
  let* rootino := ialloc T_DIR in
  assert_ (rootino =? ROOTINO) ;;;
  iappend rootino (dirent [46] (xshort rootino)) ;;;
  iappend rootino (dirent [46; 46] (xshort rootino)) ;;;
  for_ files (add_file rootino) ;;;
  fix_root rootino ;;;
  let* s := get in
  balloc (freeblock s).

(** The empty image, before main. *)
Definition img0 : img := Img ∅ 1 0.
