(* ===== verification/MkfsProps.v ===== *)
(** The image that mkfs.c makes is one that the kernel's file system can use: the
    inodes and directories are in place, each file has its bytes, no two files
    share a block, and the bitmap marks the blocks in use. *)
From S2P Require Import Prelude Digits Monad Mem Mmu Cstring Sleeplock Disk Bio Bcache Log Fs FsTrans.
From S2P Require Import FsAlloc FsData FsFile FsRw FsInode FsWrite FsRefine FsDir Mkfs.

(** * Numbers *)

Lemma shift_byte x k : 0 <= k -> u8 (Z.shiftr x k) = x / 2 ^ k mod 256.
Proof. intros Hk. unfold u8. now rewrite Z.shiftr_div_pow2. Qed.

Lemma xint_u32 x : xint x = u32 x.
Proof.
  unfold xint. rewrite !shift_byte by lia. change (2 ^ 8) with 256. change (2 ^ 16) with (256 * 256).
  change (2 ^ 24) with (256 * 256 * 256). rewrite <- !Z.div_div by lia. exact (le_val_bytes 4 x).
Qed.

Lemma xshort_u16 x : xshort x = u16 x.
Proof. unfold xshort. rewrite shift_byte by lia. exact (le_val_bytes 2 x). Qed.

Lemma xint_small x : is_u32 x -> xint x = x.
Proof. rewrite xint_u32. apply u32_small. Qed.

Lemma sb_eq : sb = Superblock 1000 941 200 30 2 32 58.
Proof. reflexivity. Qed.

Lemma sector_small n : 0 <= n < 1000 -> sector n = n.
Proof.
  intros Hn. unfold sector. rewrite u32_small by (unfold is_u32, BSIZE; lia). apply Z.div_mul. unfold BSIZE. lia.
Qed.

(** * The image *)

(** The block of the bitmap, and the number of blocks. *)
Abbreviation B := 58.
Abbreviation N := 1000.

Definition V (s : img) (n : Z) : block := default [] (im_disk s !! n).
Definition bitmap (k : Z) : block := fold_left set_bit (zrange (Z.to_nat k)) zeros.

(** The image as it will be when mkfs ends: with the bitmap of the blocks that are in
    use now. *)
Definition W (s : img) : Z -> block := vset (V s) B (bitmap (freeblock s)).

Lemma aget_zeros k : aget 0 zeros k = 0.
Proof.
  unfold aget, zeros. destruct (replicate 512 0 !! Z.to_nat k) eqn:E; [|done]. now apply lookup_replicate in E as [-> _].
Qed.

Lemma bitmap_succ k : 0 <= k -> bitmap (k + 1) = set_bit (bitmap k) k.
Proof.
  intros Hk. unfold bitmap. replace (Z.to_nat (k + 1)) with (S (Z.to_nat k)) by lia. unfold zrange.
  rewrite seq_S, fmap_app, fold_left_app. cbn. now rewrite Z2Nat.id.
Qed.

Lemma bitmap_spec k : 0 <= k <= BPB ->
  block_ok (bitmap k) /\ forall m, 0 <= m -> bit_of (bitmap k) m = (m <? k).
Proof.
  intros [Hk Hb]. revert k Hk Hb. apply (natlike_ind (fun k => k <= BPB -> _)).
  - intros _. split; [apply zeros_ok|]. intros m Hm. rewrite (proj2 (Z.ltb_ge m 0)) by lia.
    unfold bit_of. change (bitmap 0) with zeros. rewrite aget_zeros. apply Z.bits_0.
  - intros k Hk IH Hb. destruct IH as [Hok Hbit]; [lia|]. rewrite <- Z.add_1_r, bitmap_succ by done.
    split; [now apply set_bit_ok|]. intros m Hm. rewrite bit_of_set by (apply Hok || lia). rewrite Hbit by done.
    destruct (Z.ltb_spec m k), (Z.eqb_spec m k), (Z.ltb_spec m (k + 1)); try lia; done.
Qed.

Record base_ok (s : img) : Prop := {
  bo_disk n : 0 <= n < N -> is_Some (im_disk s !! n) /\ block_ok (V s n);
  bo_zero n : freeblock s <= n < N -> V s n = zeros;
  bo_free : nmeta <= freeblock s <= N
}.

Lemma W_bmap s : W s B = bitmap (freeblock s).
Proof. apply vset_eq. Qed.
Lemma W_other s n : n <> B -> W s n = V s n.
Proof. apply vset_ne. Qed.

Lemma wp_rsect s n (Q : block -> ctx -> img -> Prop) c : base_ok s -> 0 <= n < N -> Q (V s n) c s -> wp (rsect n) Q c s.
Proof.
  intros Hs Hn HQ. unfold rsect. wp_steps. rewrite sector_small by done. destruct (bo_disk s Hs n Hn) as [[d Hd] _].
  rewrite Hd. apply wp_ret. unfold V in HQ. now rewrite Hd in HQ.
Qed.

(** The state after wsect. *)
Definition written (n : Z) (d : block) (s : img) : img := Img (<[n := d]> (im_disk s)) (freeinode s) (freeblock s).

Lemma wp_wsect s n d (Q : unit -> ctx -> img -> Prop) c : 0 <= n < N -> Q tt c (written n d s) -> wp (wsect n d) Q c s.
Proof. intros Hn HQ. unfold wsect. wp_steps. now rewrite sector_small. Qed.

Lemma V_written n d s m : V (written n d s) m = vset (V s) n d m.
Proof.
  unfold V, vset, written. cbn. destruct (Z.eqb_spec m n) as [->|]; [now rewrite lookup_insert_eq|]. now rewrite lookup_insert_ne.
Qed.

Lemma base_ok_written n d s : base_ok s -> block_ok d -> 0 <= n < freeblock s -> base_ok (written n d s).
Proof.
  intros [H1 H2 H3] Hd Hn. split; [| |done].
  - intros m Hm. destruct (H1 m Hm) as [Hs Hok]. rewrite V_written. unfold vset, written. cbn.
    destruct (Z.eqb_spec m n) as [->|]; [rewrite lookup_insert_eq|rewrite lookup_insert_ne by done]; eauto.
  - intros m Hm. cbn in Hm. rewrite V_written, vset_ne by lia. now apply H2.
Qed.

Lemma W_written n d s m : n <> B -> W (written n d s) m = vset (W s) n d m.
Proof.
  intros Hn. unfold W. cbn [freeblock written]. unfold vset at 1 3. destruct (Z.eqb_spec m B) as [->|Hm].
  - rewrite vset_ne by done. unfold vset. now rewrite Z.eqb_refl.
  - rewrite V_written. unfold vset. destruct (m =? n); [done|]. destruct (Z.eqb_spec m B); done.
Qed.

(** * Giving a file a block *)

Lemma addr_of_ext V1 V2 p bn : (forall m, V2 m = V1 m) -> addr_of V2 p bn = addr_of V1 p bn.
Proof. intros E. unfold addr_of. now rewrite E. Qed.

Lemma fb_ext V1 V2 A1 A2 k : (forall m, V2 m = V1 m) -> (forall bn, A2 bn = A1 bn) -> fb V2 A2 k = fb V1 A1 k.
Proof. intros EV EA. unfold fb. now rewrite EA, EV. Qed.

Lemma wrote_ext V0 p off d V1 V2 p' : (forall m, V2 m = V1 m) -> wrote B N V0 p off d V1 p' -> wrote B N V0 p off d V2 p'.
Proof.
  intros E [H1 H2 H3 H4 H5 H6 H7 H8 H9 H10]. pose proof (fun bn => addr_of_ext V1 V2 p' bn E) as Ea. split; auto.
  - apply (fmap_ext _ _ _ (addr_of V1 p')); [intros; apply Ea|]. eapply fmap_used; [|exact H3]. intros m. now rewrite E.
  - intros k Hk. rewrite <- H4 by done. now apply fb_ext.
  - intros m Hm Hb. rewrite E. now apply H5.
  - intros m Hm Hb HB Hi Hbn. rewrite E. now apply H6.
  - intros bn Hb Hz. rewrite Ea. now apply H7.
  - intros bn Hb Hz. rewrite Ea. now apply H8.
  - intros k Hk. rewrite Ea. now apply H10.
Qed.

(** freeblock++ is an allocation in the bitmap to come. *)
Definition taken (s : img) : img := Img (im_disk s) (freeinode s) (freeblock s + 1).

Lemma base_ok_taken s : base_ok s -> freeblock s < N -> base_ok (taken s).
Proof.
  intros [H1 H2 H3] Hf. split; [done| |cbn; lia]. intros n Hn. cbn in Hn. apply H2. lia.
Qed.

Lemma W_taken s m : base_ok s -> freeblock s < N -> W (taken s) m = alloc_V B (W s) (freeblock s) m.
Proof.
  intros [_ H2 H3] Hf. change nmeta with 59 in H3. unfold alloc_V. rewrite W_bmap. unfold W. cbn [freeblock taken].
  rewrite bitmap_succ by lia. unfold vset at 1 2. destruct (Z.eqb_spec m B) as [->|Hm].
  - destruct (Z.eqb_spec B (freeblock s)); [lia|]. now rewrite vset_eq.
  - destruct (Z.eqb_spec m (freeblock s)) as [->|]; [now apply H2|]. now rewrite !vset_ne.
Qed.

Lemma wp_next_block s (Q : Z -> ctx -> img -> Prop) c :
  base_ok s -> freeblock s < N -> Q (freeblock s) c (taken s) -> wp next_block Q c s.
Proof.
  intros [_ _ H3] Hf HQ. change nmeta with 59 in H3. unfold next_block. wp_steps. rewrite u32_small by (unfold is_u32; lia). exact HQ.
Qed.

(** The blocks that a file of [nm] blocks has. *)
Record mapped (U : Z -> block) (p : inode) (nm : Z) : Prop := {
  mp_addr bn : 0 <= bn < MAXFILE -> addr_of U p bn <> 0 <-> bn < nm;
  mp_ind : ind_of p <> 0 <-> NDIRECT < nm
}.

(** The address words of an inode are below [N]. *)
Lemma addr_small s p bn :
  fmap_ok B N (W s) (addr_of (W s) p) (ind_of p) -> 0 <= bn < MAXFILE ->
  0 <= addr_of (W s) p bn < N /\ addr_of (W s) p bn <> B.
Proof.
  intros Hm Hb. destruct (Z.eq_dec (addr_of (W s) p bn) 0) as [->|Hz]; [lia|]. destruct (fm_data _ _ _ _ _ Hm bn Hb Hz). lia.
Qed.

Lemma ind_small s p : fmap_ok B N (W s) (addr_of (W s) p) (ind_of p) -> 0 <= ind_of p < N /\ ind_of p <> B.
Proof. intros Hm. destruct (Z.eq_dec (ind_of p) 0) as [->|Hz]; [lia|]. destruct (fm_ind _ _ _ _ _ Hm Hz). lia. Qed.

Lemma free_min s : base_ok s -> 59 <= freeblock s.
Proof. intros Hs. pose proof (bo_free s Hs). change nmeta with 59 in *. lia. Qed.

Section Grow.
Variables (s : img) (p : inode).
Hypothesis Hs : base_ok s.
Hypothesis Hl : length (i_addrs p) = 13%nat.
Hypothesis Hm : fmap_ok B N (W s) (addr_of (W s) p) (ind_of p).
Hypothesis room : freeblock s < N.

Lemma free_bit : bit_of (W s B) (freeblock s) = false.
Proof.
  pose proof (free_min s Hs). rewrite W_bmap. destruct (bitmap_spec (freeblock s)) as [_ Hb]; [unfold BPB, BSIZE; lia|].
  rewrite Hb by lia. apply Z.ltb_irrefl.
Qed.

Lemma bmap_length : length (W s B) = 512%nat.
Proof. pose proof (free_min s Hs). rewrite W_bmap. apply (bitmap_spec (freeblock s)). unfold BPB, BSIZE. lia. Qed.

Lemma ind_ne_free : ind_of p <> 0 -> alloc_V B (W s) (freeblock s) (ind_of p) = W s (ind_of p).
Proof.
  intros Hi. destruct (fm_ind _ _ _ _ _ Hm Hi) as [Hr Hbit]. apply alloc_V_other; [|lia].
  intros E. rewrite E, free_bit in Hbit. done.
Qed.

(** The new block does not move the others. *)
Lemma addr_taken bn : addr_of (W (taken s)) p bn = addr_of (W s) p bn.
Proof.
  unfold addr_of. destruct (bn <? NDIRECT); [done|]. destruct (Z.eqb_spec (ind_of p) 0) as [|Hi]; [done|].
  rewrite W_taken by done. now rewrite ind_ne_free.
Qed.

Lemma direct_ok bn :
  0 <= bn < NDIRECT -> addr_of (W s) p bn = 0 ->
  let p' := iset_addrs (aset (i_addrs p) bn (freeblock s)) p in
  grown B N (W s) p (alloc_V B (W s) (freeblock s)) p' /\ ind_of p' = ind_of p /\
  forall bn', 0 <= bn' < MAXFILE -> addr_of (W (taken s)) p' bn' = if bn' =? bn then freeblock s else addr_of (W s) p bn'.
Proof.
  intros Hb Hz p'. pose proof (free_min s Hs). split_and!.
  - apply grow_direct; try done; try apply bmap_length; try apply free_bit. lia.
  - apply ind_aset; change NDIRECT with 12 in *; lia.
  - intros bn' Hb'. unfold p'. rewrite addr_direct by done. now rewrite addr_taken.
Qed.

Lemma ind_ok :
  ind_of p = 0 ->
  let p' := iset_addrs (aset (i_addrs p) NDIRECT (freeblock s)) p in
  grown B N (W s) p (alloc_V B (W s) (freeblock s)) p' /\ ind_of p' = freeblock s /\
  forall bn, 0 <= bn < MAXFILE -> addr_of (W (taken s)) p' bn = addr_of (W s) p bn.
Proof.
  intros Hz p'. pose proof (free_min s Hs).
  assert (Hind : ind_of p' = freeblock s) by (unfold p', ind_of; cbn; apply aget_aset_eq; rewrite Hl; unfold NDIRECT; lia).
  split_and!; [|done|].
  - apply grow_ind; try done; try apply bmap_length; try apply free_bit. lia.
  - intros bn Hb. unfold p'. rewrite addr_new_ind; [apply addr_taken|done|done| |done].
    rewrite W_taken by done. apply alloc_V_new.
Qed.

(** The state when a new block is entered into the indirect block. *)
Definition entered (bn : Z) : img :=
  written (ind_of p) (wr32 (W s (ind_of p)) (4 * (bn - NDIRECT)) (freeblock s)) (taken s).

Lemma entry_ok bn :
  NDIRECT <= bn < MAXFILE -> ind_of p <> 0 -> addr_of (W s) p bn = 0 ->
  base_ok (entered bn) /\
  grown B N (W s) p (vset (alloc_V B (W s) (freeblock s)) (ind_of p) (wr32 (W s (ind_of p)) (4 * (bn - NDIRECT)) (freeblock s))) p /\
  (forall m, W (entered bn) m =
     vset (alloc_V B (W s) (freeblock s)) (ind_of p) (wr32 (W s (ind_of p)) (4 * (bn - NDIRECT)) (freeblock s)) m) /\
  (forall bn', 0 <= bn' < MAXFILE -> addr_of (W (entered bn)) p bn' = if bn' =? bn then freeblock s else addr_of (W s) p bn').
Proof.
  intros Hb Hi Hz. pose proof (free_min s Hs). destruct (ind_small s p Hm) as [Hir Hib].
  destruct (fm_ind _ _ _ _ _ Hm Hi) as [Hr Hbit]. destruct (bo_disk s Hs (ind_of p) Hir) as [_ Hiok].
  set (d := wr32 (W s (ind_of p)) (4 * (bn - NDIRECT)) (freeblock s)).
  assert (HW : forall m, W (entered bn) m = vset (alloc_V B (W s) (freeblock s)) (ind_of p) d m).
  { intros m. unfold entered. rewrite W_written by done. unfold vset. destruct (m =? ind_of p); [done|now apply W_taken]. }
  assert (Hilt : ind_of p < freeblock s).
  { rewrite W_bmap in Hbit. destruct (bitmap_spec (freeblock s)) as [_ Hbm]; [unfold BPB, BSIZE; lia|]. rewrite Hbm in Hbit by lia. lia. }
  split_and!; [| |done|].
  - apply base_ok_written; [now apply base_ok_taken| |cbn; lia]. apply wr32_ok. now rewrite W_other.
  - apply grow_entry; try done; try apply bmap_length; try apply free_bit; [lia|]. now rewrite W_other by done; apply Hiok.
  - intros bn' Hb'. rewrite (addr_of_ext _ _ _ _ HW). unfold d. rewrite <- (ind_ne_free Hi).
    rewrite addr_entry; [|done|rewrite ind_ne_free, W_other by done; apply Hiok|done|done|unfold is_u32; lia].
    destruct (bn' =? bn); [done|]. unfold addr_of. destruct (bn' <? NDIRECT); [done|]. destruct (ind_of p =? 0); [done|].
    now rewrite ind_ne_free.
Qed.
End Grow.

(** The inode of a file of [nm] blocks under construction. *)
Record inode_ok (s : img) (p : inode) (nm : Z) : Prop := {
  io_len : length (i_addrs p) = 13%nat;
  io_map : fmap_ok B N (W s) (addr_of (W s) p) (ind_of p);
  io_mapped : mapped (W s) p nm
}.

(** From [s] to [s'] blocks were taken and written beyond the bitmap. *)
Record appended (k : Z) (s s' : img) : Prop := {
  ap_base : base_ok s';
  ap_free : freeblock s' = freeblock s + k;
  ap_inode : freeinode s' = freeinode s;
  ap_meta m : m <= B -> V s' m = V s m
}.

Lemma appended_refl s : base_ok s -> appended 0 s s.
Proof. split; [done|lia|done|done]. Qed.

Lemma appended_trans k1 k2 s1 s2 s3 : appended k1 s1 s2 -> appended k2 s2 s3 -> appended (k1 + k2) s1 s3.
Proof. intros [_ F1 I1 M1] [H2 F2 I2 M2]. split; [done|lia|congruence|]. intros m Hm. now rewrite M2, M1. Qed.

Lemma appended_taken s : base_ok s -> freeblock s < N -> appended 1 s (taken s).
Proof. intros Hs Hf. split; [now apply base_ok_taken|done|done|done]. Qed.

(** The blocks that are taken to give the file its block [fbn]. *)
Definition need (nm fbn : Z) : Z := if fbn <? nm then 0 else if fbn =? NDIRECT then 2 else 1.

Lemma wrote_taken s p off p' :
  base_ok s -> freeblock s < N -> grown B N (W s) p (alloc_V B (W s) (freeblock s)) p' ->
  wrote B N (W s) p off [] (W (taken s)) p'.
Proof. intros Hs Hf Hg. eapply wrote_ext; [intros m; now apply W_taken|]. now apply wrote_grown. Qed.

Lemma mapped_addr_0 U p nm bn : mapped U p nm -> 0 <= bn < MAXFILE -> nm <= bn -> addr_of U p bn = 0.
Proof.
  intros [Ma _] Hb Hn. destruct (Z.eq_dec (addr_of U p bn) 0) as [|Hz]; [done|]. apply Ma in Hz; [lia|done].
Qed.

(** One more block. *)
Lemma mapped_next U U' p p' nm x :
  mapped U p nm -> 0 <= nm < MAXFILE -> x <> 0 -> (ind_of p' <> 0 <-> NDIRECT <= nm) ->
  (forall bn, 0 <= bn < MAXFILE -> addr_of U' p' bn = if bn =? nm then x else addr_of U p bn) -> mapped U' p' (nm + 1).
Proof.
  intros [Ma Mi] Hnm Hx Hi Ha. split; [|rewrite Hi; lia]. intros bn Hb. rewrite Ha by done.
  destruct (Z.eqb_spec bn nm); [lia|]. rewrite Ma by done. lia.
Qed.

Lemma wp_block_direct s p nm fbn off (Q : inode * Z -> ctx -> img -> Prop) c :
  base_ok s -> inode_ok s p nm -> fbn <= nm -> 0 <= fbn < NDIRECT -> freeblock s + need nm fbn <= N ->
  (forall p' s', appended (need nm fbn) s s' -> inode_ok s' p' (Z.max nm (fbn + 1)) ->
     wrote B N (W s) p off [] (W s') p' -> Q (p', addr_of (W s') p' fbn) c s') ->
  wp (iappend_block p fbn) Q c s.
Proof.
  intros Hs Hp Hle Hb Hroom HQ. pose proof Hp as [Hl Hm Hmp].
  assert (Hbm : 0 <= fbn < MAXFILE) by (change MAXFILE with 140; change NDIRECT with 12 in *; lia).
  destruct (addr_small s p fbn Hm Hbm) as [Hsm _]. unfold iappend_block. rewrite (proj2 (Z.ltb_lt _ _)) by lia.
  assert (Ea : forall U q, aget 0 (i_addrs q) fbn = addr_of U q fbn) by (intros U q; unfold addr_of; now rewrite (proj2 (Z.ltb_lt _ _)) by lia).
  rewrite (Ea (W s)), xint_small by (unfold is_u32; lia). unfold need in *. apply wp_bind.
  destruct (Z.ltb_spec fbn nm) as [Hold|Hnew].
  - rewrite (proj2 (Z.eqb_neq _ 0)) by (now apply Hmp). apply wp_ret, wp_ret.
    rewrite (Ea (W s)), xint_small by (unfold is_u32; lia). replace (Z.max nm (fbn + 1)) with nm in HQ by lia.
    apply HQ; [now apply appended_refl|done|now apply wrote_grown, grown_refl].
  - assert (fbn = nm) as -> by lia. rewrite (proj2 (Z.eqb_neq nm NDIRECT)) in * by lia.
    rewrite (mapped_addr_0 _ _ _ _ Hmp) by (done || lia). cbn [Z.eqb]. pose proof (free_min s Hs) as Hfr.
    apply wp_bind, wp_next_block; [done|lia|]. apply wp_ret, wp_ret. rewrite xint_small by (unfold is_u32; lia).
    destruct (direct_ok s p Hs Hl Hm ltac:(lia) nm Hb) as (Hg & Hi & Ha); [now apply (mapped_addr_0 _ _ _ _ Hmp)|].
    pose proof (wrote_taken s p off _ Hs ltac:(lia) Hg) as Hw. set (p' := iset_addrs _ p) in *.
    rewrite (Ea (W (taken s))), xint_small by (rewrite Ha, Z.eqb_refl by done; unfold is_u32; lia).
    replace (Z.max nm (nm + 1)) with (nm + 1) in HQ by lia. apply HQ; [apply appended_taken; [done|lia]| |done].
    split; [apply Hw|apply Hw|]. eapply mapped_next; [exact Hmp|done| | |exact Ha]; [lia|].
    rewrite Hi, (mp_ind _ _ _ Hmp). change NDIRECT with 12 in *. lia.
Qed.

Lemma appended_entered s p bn :
  base_ok (entered s p bn) -> B < ind_of p -> appended 1 s (entered s p bn).
Proof.
  intros Hs Hi. split; [done|done|done|]. intros m Hmm. unfold entered. rewrite V_written, vset_ne by lia. done.
Qed.

Lemma wp_entry s p fbn off (Q : inode * Z -> ctx -> img -> Prop) c :
  base_ok s -> length (i_addrs p) = 13%nat -> fmap_ok B N (W s) (addr_of (W s) p) (ind_of p) -> ind_of p <> 0 ->
  NDIRECT <= fbn < MAXFILE -> (addr_of (W s) p fbn = 0 -> freeblock s < N) ->
  let new := addr_of (W s) p fbn =? 0 in
  (forall s', appended (Z.b2z new) s s' -> wrote B N (W s) p off [] (W s') p ->
     (forall bn, 0 <= bn < MAXFILE -> addr_of (W s') p bn = if new && (bn =? fbn) then freeblock s else addr_of (W s) p bn) ->
     Q (p, addr_of (W s') p fbn) c s') ->
  wp (iappend_entry p fbn) Q c s.
Proof.
  intros Hs Hl Hm Hi Hb Hroom new HQ. destruct (ind_small s p Hm) as [His Hib]. destruct (fm_ind _ _ _ _ _ Hm Hi) as [Hr _].
  assert (Hbm : 0 <= fbn < MAXFILE) by (change NDIRECT with 12 in *; lia). pose proof (free_min s Hs) as Hfr.
  assert (Ea : forall s', rd32 (W s' (ind_of p)) (4 * (fbn - NDIRECT)) = addr_of (W s') p fbn).
  { intros s'. unfold addr_of. rewrite (proj2 (Z.ltb_ge _ _)) by lia. destruct (Z.eqb_spec (ind_of p) 0); done. }
  unfold iappend_entry. fold (ind_of p). rewrite xint_small by (unfold is_u32; lia).
  apply wp_bind, wp_rsect; [done|lia|]. rewrite <- (W_other s) by done. rewrite Ea. apply wp_bind. unfold new in *.
  destruct (Z.eqb_spec (addr_of (W s) p fbn) 0) as [Hz|Hz].
  - specialize (Hroom Hz). apply wp_bind, wp_next_block; [done|done|]. rewrite xint_small by (unfold is_u32; lia).
    apply wp_bind, wp_wsect; [lia|]. apply wp_ret. fold (entered s p fbn). apply wp_ret.
    destruct (entry_ok s p Hs Hl Hm Hroom fbn Hb Hi Hz) as (Hs' & Hg & HW & Ha).
    assert (E : rd32 (wr32 (W s (ind_of p)) (4 * (fbn - NDIRECT)) (freeblock s)) (4 * (fbn - NDIRECT)) = addr_of (W (entered s p fbn)) p fbn).
    { rewrite <- Ea. unfold entered at 1. rewrite W_written, vset_eq by done. done. }
    rewrite E, xint_small by (rewrite Ha, Z.eqb_refl by done; unfold is_u32; lia).
    apply HQ; [apply appended_entered; [done|lia]| |exact Ha]. eapply wrote_ext; [exact HW|]. now apply wrote_grown.
  - apply wp_ret, wp_ret. destruct (addr_small s p fbn Hm Hbm) as [Hsm _]. rewrite Ea, xint_small by (unfold is_u32; lia).
    apply HQ; [now apply appended_refl|now apply wrote_grown, grown_refl|done].
Qed.

Lemma wp_block_indirect s p nm fbn off (Q : inode * Z -> ctx -> img -> Prop) c :
  base_ok s -> inode_ok s p nm -> fbn <= nm -> NDIRECT <= fbn < MAXFILE -> freeblock s + need nm fbn <= N ->
  0 <= off < MAXFILE * BSIZE ->
  (forall p' s', appended (need nm fbn) s s' -> inode_ok s' p' (Z.max nm (fbn + 1)) ->
     wrote B N (W s) p off [] (W s') p' -> Q (p', addr_of (W s') p' fbn) c s') ->
  wp (iappend_block p fbn) Q c s.
Proof.
  intros Hs Hp Hle Hb Hroom Hoff HQ. pose proof Hp as [Hl Hm Hmp]. destruct (ind_small s p Hm) as [His Hib].
  assert (Hbm : 0 <= fbn < MAXFILE) by (change NDIRECT with 12 in *; lia).
  unfold iappend_block. rewrite (proj2 (Z.ltb_ge _ _)) by lia. fold (ind_of p). rewrite xint_small by (unfold is_u32; lia).
  pose proof (free_min s Hs) as Hfr. unfold need in *. apply wp_bind. destruct (Z.eqb_spec (ind_of p) 0) as [Hi|Hi].
  - assert (nm <= NDIRECT) by (destruct (Z.lt_ge_cases NDIRECT nm) as [Hlt|]; [now apply (mp_ind _ _ _ Hmp) in Hlt|lia]).
    assert (fbn = nm) as -> by lia. assert (Enm : nm = NDIRECT) by lia. rewrite (proj2 (Z.ltb_ge nm nm)) in * by lia.
    rewrite (proj2 (Z.eqb_eq nm NDIRECT)) in * by done.
    apply wp_bind, wp_next_block; [done|lia|]. apply wp_ret. rewrite xint_small by (unfold is_u32; lia).
    destruct (ind_ok s p Hs Hl Hm ltac:(lia) Hi) as (Hg & Hi1 & Ha1).
    pose proof (wrote_taken s p off _ Hs ltac:(lia) Hg) as Hw1. set (p1 := iset_addrs _ p) in *.
    assert (Hz : addr_of (W (taken s)) p1 nm = 0) by (rewrite Ha1 by done; apply (mapped_addr_0 _ _ _ _ Hmp); done || lia).
    apply (wp_entry (taken s) p1 nm off); [now apply base_ok_taken; [|lia]|apply Hw1|apply Hw1|lia|done|cbn; lia|].
    rewrite Hz. cbn [Z.eqb Z.b2z andb]. intros s' Hap Hw Ha. apply HQ.
    + exact (appended_trans 1 1 _ _ _ (appended_taken s Hs ltac:(lia)) Hap).
    + replace (Z.max nm (nm + 1)) with (nm + 1) by lia. split; [apply Hw|apply Hw|].
      eapply (mapped_next _ _ _ _ _ (freeblock s + 1) Hmp); [done|lia|rewrite Hi1; lia|].
      intros bn Hbn. rewrite Ha, Ha1 by done. done.
    + exact (wrote_trans B N (W s) p off [] (W (taken s)) p1 [] (W s') p1 eq_refl ltac:(lia) ltac:(cbn; lia) Hw1 ltac:(cbn; rewrite Z.add_0_r; exact Hw)).
  - apply wp_ret. assert (NDIRECT < nm) by now apply (mp_ind _ _ _ Hmp).
    assert (En : (if fbn <? nm then 0 else if fbn =? NDIRECT then 2 else 1) = Z.b2z (addr_of (W s) p fbn =? 0)).
    { destruct (Z.ltb_spec fbn nm) as [Hlt|Hge]; [now rewrite (proj2 (Z.eqb_neq _ 0)) by (now apply Hmp)|].
      rewrite (mapped_addr_0 _ _ _ _ Hmp) by (done || lia). destruct (Z.eqb_spec fbn NDIRECT); [lia|done]. }
    rewrite En in *. apply (wp_entry s p fbn off); try done.
    { intros E. rewrite E in Hroom. cbn in Hroom. lia. }
    intros s' Hap Hw Ha. apply HQ; [done| |done]. split; [apply Hw|apply Hw|].
    destruct (Z.eqb_spec (addr_of (W s) p fbn) 0) as [Hz|Hz]; cbn [andb] in Ha.
    + assert (fbn = nm) as -> by (destruct (Z.lt_ge_cases fbn nm) as [Hlt|]; [now apply (mp_addr _ _ _ Hmp) in Hlt|lia]).
      replace (Z.max nm (nm + 1)) with (nm + 1) by lia. eapply (mapped_next _ _ _ _ _ (freeblock s) Hmp); [done|lia|lia|exact Ha].
    + apply (mp_addr _ _ _ Hmp) in Hz; [|done]. replace (Z.max nm (fbn + 1)) with nm by lia. destruct Hmp as [Ma Mi].
      split; [|done]. intros bn Hbn. rewrite Ha by done. now apply Ma.
Qed.

Lemma wp_iappend_block s p nm fbn off (Q : inode * Z -> ctx -> img -> Prop) c :
  base_ok s -> inode_ok s p nm -> fbn <= nm -> 0 <= fbn < MAXFILE -> freeblock s + need nm fbn <= N ->
  0 <= off < MAXFILE * BSIZE ->
  (forall p' s', appended (need nm fbn) s s' -> inode_ok s' p' (Z.max nm (fbn + 1)) ->
     wrote B N (W s) p off [] (W s') p' -> Q (p', addr_of (W s') p' fbn) c s') ->
  wp (iappend_block p fbn) Q c s.
Proof.
  intros Hs Hp Hle Hb Hroom Hoff HQ. destruct (Z.lt_ge_cases fbn NDIRECT).
  - now apply (wp_block_direct s p nm fbn off).
  - now apply (wp_block_indirect s p nm fbn off).
Qed.

(** * Appending *)

(** The blocks of a file of [n] bytes, and with its indirect block. *)
Definition nblk (n : Z) : Z := (n + 511) / 512.
Definition cost (n : Z) : Z := nblk n + if NDIRECT <? nblk n then 1 else 0.

Lemma nblk_spec n : n <= 512 * nblk n < n + 512.
Proof. unfold nblk. pose proof (Z.div_mod (n + 511) 512). pose proof (Z.mod_pos_bound (n + 511) 512). lia. Qed.

Lemma div_spec n : BSIZE * (n / BSIZE) <= n < BSIZE * (n / BSIZE) + BSIZE.
Proof. pose proof (Z.div_mod n BSIZE ltac:(done)). pose proof (Z.mod_pos_bound n BSIZE ltac:(done)). lia. Qed.

(** Writing [n1] bytes at [off], in the block of [off]. *)
Lemma block_step off n1 : 0 <= off -> 0 < n1 -> off + n1 <= (off / BSIZE + 1) * BSIZE ->
  off / BSIZE <= nblk off /\ nblk (off + n1) = Z.max (nblk off) (off / BSIZE + 1) /\
  need (nblk off) (off / BSIZE) = cost (off + n1) - cost off.
Proof.
  intros Ho Hn Hfit. pose proof (nblk_spec off). pose proof (nblk_spec (off + n1)). pose proof (div_spec off).
  unfold BSIZE in *. assert (Hle : off / 512 <= nblk off) by lia.
  assert (E : nblk (off + n1) = Z.max (nblk off) (off / 512 + 1)) by lia. split_and!; [done|done|].
  unfold need, cost. rewrite E. change NDIRECT with 12. destruct (Z.ltb_spec (off / 512) (nblk off)).
  - replace (Z.max (nblk off) (off / 512 + 1)) with (nblk off) by lia. lia.
  - replace (Z.max (nblk off) (off / 512 + 1)) with (nblk off + 1) by lia. assert (Eo : off / 512 = nblk off) by lia. rewrite Eo.
    destruct (Z.eqb_spec (nblk off) 12), (Z.ltb_spec 12 (nblk off)), (Z.ltb_spec 12 (nblk off + 1)); lia.
Qed.

Lemma cost_mono a b : a <= b -> cost a <= cost b.
Proof.
  intros Hab. assert (nblk a <= nblk b) by (apply Z.div_le_mono; lia). unfold cost.
  destruct (Z.ltb_spec NDIRECT (nblk a)), (Z.ltb_spec NDIRECT (nblk b)); lia.
Qed.

Lemma cost_nonneg (n : nat) : 0 <= cost (Z.of_nat n).
Proof. change 0 with (cost 0). apply cost_mono. lia. Qed.

(** Writing into a block of the file. *)
Lemma write_ok s p nm off d :
  base_ok s -> inode_ok s p nm -> 0 <= off < MAXFILE * BSIZE -> off mod BSIZE + Z.of_nat (length d) <= BSIZE ->
  off / BSIZE < nm -> Forall is_u8 d ->
  let x := addr_of (W s) p (off / BSIZE) in
  let s' := written x (set_bytes (V s x) (off mod BSIZE) d) s in
  0 <= x < N /\ appended 0 s s' /\ inode_ok s' p nm /\ wrote B N (W s) p off d (W s') p.
Proof.
  intros Hs [Hl Hm Hmp] Hoff Hd Hnm Hu8 x s'. pose proof (block_range off Hoff) as Hb.
  assert (Hx : x <> 0) by now apply (mp_addr _ _ _ Hmp). destruct (fm_data _ _ _ _ _ Hm _ Hb Hx) as [Hr Hbit]. fold x in Hr, Hbit.
  pose proof (bo_free s Hs) as Hf. change nmeta with 59 in Hf.
  assert (Hxf : x < freeblock s).
  { rewrite W_bmap in Hbit. destruct (bitmap_spec (freeblock s)) as [_ Hbm]; [unfold BPB, BSIZE; lia|]. rewrite Hbm in Hbit by lia. lia. }
  destruct (bo_disk s Hs x ltac:(lia)) as [_ Hok].
  assert (HW : forall m, W s' m = vset (W s) x (set_bytes (W s x) (off mod BSIZE) d) m).
  { intros m. unfold s'. rewrite W_written, W_other by lia. done. }
  assert (Hlx : length (W s x) = 512%nat) by (rewrite W_other by lia; apply Hok).
  assert (Hw : wrote B N (W s) p off d (W s') p).
  { eapply wrote_ext; [exact HW|]. apply wrote_block; done || lia. }
  split_and!; [lia|lia| | |done].
  - split; [|cbn; lia|done|].
    + apply base_ok_written; [done|now apply set_bytes_ok|lia].
    + intros m Hmm. unfold s'. rewrite V_written, vset_ne by lia. done.
  - split; [done|apply Hw|]. destruct Hmp as [Ma Mi]. split; [|done]. intros bn Hbn.
    rewrite (addr_of_ext _ _ _ _ HW), (write_addr B N (W s) p off d) by (done || lia). now apply Ma.
Qed.

Lemma wrote_after V0 p off d V1 p1 V2 p2 :
  0 <= off -> off + Z.of_nat (length d) <= MAXFILE * BSIZE ->
  wrote B N V0 p off [] V1 p1 -> wrote B N V1 p1 off d V2 p2 -> wrote B N V0 p off d V2 p2.
Proof.
  intros Ho Hfit H1 H2. apply (wrote_trans B N V0 p off [] V1 p1 d V2 p2); [done|done|done|done|].
  cbn [length]. change (Z.of_nat 0) with 0. now rewrite Z.add_0_r.
Qed.

Lemma wp_iappend_from k s p off d (Q : inode * Z -> ctx -> img -> Prop) c :
  let n := Z.of_nat (length d) in
  base_ok s -> inode_ok s p (nblk off) -> 0 <= off -> off + n <= MAXFILE * BSIZE -> (length d <= k)%nat ->
  freeblock s + (cost (off + n) - cost off) <= N -> Forall is_u8 d ->
  (forall p' s', appended (cost (off + n) - cost off) s s' -> inode_ok s' p' (nblk (off + n)) ->
     wrote B N (W s) p off d (W s') p' -> Q (p', off + n) c s') ->
  wp (iappend_from k p off d) Q c s.
Proof.
  cbn zeta. revert s p off d. induction k as [|k IH]; intros s p off d Hs Hp Hoff Hmax Hk Hroom Hu8 HQ.
  - destruct d as [|b d]; [|cbn in Hk; lia]. cbn [iappend_from length] in *. change (Z.of_nat 0) with 0 in *. rewrite Z.add_0_r in *.
    apply wp_ret, HQ; [rewrite Z.sub_diag; now apply appended_refl|done|]. apply wrote_grown, grown_refl; apply Hp.
  - destruct d as [|b0 d0].
    { cbn [iappend_from length] in *. change (Z.of_nat 0) with 0 in *. rewrite Z.add_0_r in *.
      apply wp_ret, HQ; [rewrite Z.sub_diag; now apply appended_refl|done|]. apply wrote_grown, grown_refl; apply Hp. }
    cbn [iappend_from]. set (d := b0 :: d0) in *. assert (Hn0 : 0 < Z.of_nat (length d)) by (unfold d; cbn; lia). clearbody d.
    set (n1 := Z.min (Z.of_nat (length d)) ((off / BSIZE + 1) * BSIZE - off)).
    pose proof (div_spec off) as Hdiv. assert (Hn1 : 0 < n1 <= Z.of_nat (length d) /\ off + n1 <= (off / BSIZE + 1) * BSIZE) by (unfold BSIZE in *; lia).
    destruct (block_step off n1 Hoff ltac:(lia) ltac:(lia)) as (Hle & Enm & Eneed).
    assert (Hl1 : length (take (Z.to_nat n1) d) = Z.to_nat n1) by (rewrite length_take; lia).
    assert (Hl2 : length (drop (Z.to_nat n1) d) = (length d - Z.to_nat n1)%nat) by apply length_drop.
    assert (Hcost : cost off <= cost (off + n1) <= cost (off + Z.of_nat (length d))).
    { split; apply cost_mono; lia. }
    assert (Hr : 0 <= off / BSIZE < MAXFILE) by (apply block_range; unfold BSIZE in *; lia).
    apply wp_bind. unfold assert_. rewrite (proj2 (Z.ltb_lt _ _)) by lia. apply wp_ret, wp_bind.
    apply (wp_iappend_block s p (nblk off) (off / BSIZE) off); [done|done|done|done|lia|lia|].
    intros p1 s1 Hap1 Hp1 Hw1. rewrite <- Enm in Hp1. apply wp_bind.
    destruct (write_ok s1 p1 (nblk (off + n1)) off (take (Z.to_nat n1) d)) as (Hx & Hap2 & Hp2 & Hw2);
      [apply Hap1|done|lia| |rewrite Enm; lia|now apply Forall_take|].
    { rewrite Hl1. rewrite Z.mod_eq by done. unfold BSIZE in *. lia. }
    apply wp_rsect; [apply Hap1|lia|]. apply wp_bind, wp_wsect; [lia|].
    replace (off - off / BSIZE * BSIZE) with (off mod BSIZE) by (rewrite Z.mod_eq by done; lia).
    set (s2 := written _ _ s1) in *.
    pose proof (wrote_after _ _ _ _ _ _ _ _ Hoff ltac:(rewrite Hl1; lia) Hw1 Hw2) as Hw12. pose proof (appended_trans _ _ _ _ _ Hap1 Hap2) as Hap.
    apply IH; rewrite ?Hl2; [apply Hap2|done|lia|lia|lia| |now apply Forall_drop|].
    + rewrite (ap_free _ _ _ Hap). replace (off + n1 + Z.of_nat (length d - Z.to_nat n1)) with (off + Z.of_nat (length d)) by lia. lia.
    + replace (off + n1 + Z.of_nat (length d - Z.to_nat n1)) with (off + Z.of_nat (length d)) by lia.
      intros p3 s3 Hap3 Hp3 Hw3. apply HQ; [|done|].
      * pose proof (appended_trans _ _ _ _ _ Hap Hap3) as H. replace (_ + 0 + _) with (cost (off + Z.of_nat (length d)) - cost off) in H by lia. exact H.
      * rewrite <- (take_drop (Z.to_nat n1) d) at 1. apply (wrote_trans B N _ _ _ _ (W s2) p1); [done|done|rewrite take_drop; lia|exact Hw12|].
        rewrite Hl1, Z2Nat.id by lia. exact Hw3.
Qed.

(** * Inodes *)

Definition inode_at (s : img) (inum : Z) : inode :=
  dinode_load (V s (IBLOCK inum sb)) (dinode_off inum) (inode_key inum).

Lemma IBLOCK_sb inum : 0 <= inum < NINODES -> IBLOCK inum sb = inum / 8 + 32 /\ 32 <= IBLOCK inum sb < B.
Proof.
  intros Hi. unfold IBLOCK. rewrite sb_eq. cbn [sb_inodestart]. change IPB with 8. unfold NINODES in Hi.
  pose proof (Z.div_mod inum 8). pose proof (Z.mod_pos_bound inum 8). rewrite u32_small by (unfold is_u32; lia). lia.
Qed.

(** The state after winode. *)
Definition stored (inum : Z) (p : inode) (s : img) : img :=
  written (IBLOCK inum sb) (dinode_store (V s (IBLOCK inum sb)) (dinode_off inum) p) s.

Lemma wp_winode s inum p (Q : unit -> ctx -> img -> Prop) c :
  base_ok s -> 0 <= inum < NINODES -> Q tt c (stored inum p s) -> wp (winode inum p) Q c s.
Proof.
  intros Hs Hi HQ. destruct (IBLOCK_sb inum Hi) as [_ Hr]. unfold winode. apply wp_bind, wp_rsect; [done|lia|].
  apply wp_wsect; [lia|]. exact HQ.
Qed.

Lemma wp_rinode s inum (Q : inode -> ctx -> img -> Prop) c :
  base_ok s -> 0 <= inum < NINODES -> Q (inode_at s inum) c s -> wp (rinode inum) Q c s.
Proof.
  intros Hs Hi HQ. destruct (IBLOCK_sb inum Hi) as [_ Hr]. unfold rinode. apply wp_bind, wp_rsect; [done|lia|]. now apply wp_ret.
Qed.

Lemma stored_base s inum p : base_ok s -> 0 <= inum < NINODES -> base_ok (stored inum p s).
Proof.
  intros Hs Hi. destruct (IBLOCK_sb inum Hi) as [_ Hr]. pose proof (free_min s Hs). apply base_ok_written; [done| |lia].
  apply dinode_store_ok; [apply dinode_off_range|]. apply (bo_disk s Hs). lia.
Qed.

Lemma stored_V s inum p m : m <> IBLOCK inum sb -> V (stored inum p s) m = V s m.
Proof. intros Hm. unfold stored. now rewrite V_written, vset_ne. Qed.

Lemma stored_W s inum p m : 0 <= inum < NINODES -> B < m -> W (stored inum p s) m = W s m.
Proof.
  intros Hi Hm. destruct (IBLOCK_sb inum Hi) as [_ Hr]. rewrite !W_other by lia. apply stored_V. lia.
Qed.

Lemma stored_bmap s inum p : W (stored inum p s) B = W s B.
Proof. now rewrite !W_bmap. Qed.

Lemma inode_at_stored s inum p :
  base_ok s -> 0 <= inum < NINODES -> dinode_fits p -> same_key p (inode_key inum) -> inode_at (stored inum p s) inum = p.
Proof.
  intros Hs Hi Hf Hk. destruct (IBLOCK_sb inum Hi) as [_ Hr]. unfold inode_at, stored. rewrite V_written, vset_eq.
  pose proof (dinode_off_range inum). apply dinode_load_store; [lia| |done|done].
  destruct (bo_disk s Hs (IBLOCK inum sb) ltac:(lia)) as [_ [-> _]]. lia.
Qed.

Lemma inode_at_other s inum inum' p :
  0 <= inum < NINODES -> 0 <= inum' < NINODES -> inum <> inum' -> inode_at (stored inum p s) inum' = inode_at s inum'.
Proof.
  intros Hi Hi' Hne. destruct (IBLOCK_sb inum Hi) as [E _], (IBLOCK_sb inum' Hi') as [E' _]. unfold inode_at.
  destruct (Z.eq_dec (IBLOCK inum' sb) (IBLOCK inum sb)) as [Eb|Eb]; [|now rewrite stored_V].
  unfold stored. rewrite V_written, Eb, vset_eq. pose proof (dinode_off_range inum). pose proof (dinode_off_range inum').
  apply dinode_load_other; [lia|lia|]. apply dinode_off_other; [done|]. change IPB with 8. lia.
Qed.

(** ** Blocks that stay *)

(** A file whose blocks stay has the same blocks and bytes. *)
Section Stay.
Variables (U U' : Z -> block) (q : inode).
Hypothesis Hm : fmap_ok B N U (addr_of U q) (ind_of q).
Hypothesis stay : forall m, owns U q m -> U' m = U m.

Lemma stay_addr bn : addr_of U' q bn = addr_of U q bn.
Proof.
  unfold addr_of. destruct (bn <? NDIRECT); [done|]. destruct (Z.eqb_spec (ind_of q) 0) as [|Hi]; [done|].
  rewrite stay; [done|]. split; [done|now left].
Qed.

Lemma stay_fb k : 0 <= k < MAXFILE * BSIZE -> fb U' (addr_of U' q) k = fb U (addr_of U q) k.
Proof.
  intros Hk. unfold fb. rewrite stay_addr. destruct (Z.eqb_spec (addr_of U q (k / BSIZE)) 0) as [|Hz]; [done|].
  rewrite stay; [done|]. split; [done|]. right. exists (k / BSIZE). split; [now apply block_range|done].
Qed.

Lemma stay_owns m : owns U' q m <-> owns U q m.
Proof. unfold owns. setoid_rewrite stay_addr. done. Qed.

Lemma stay_map : (forall m, 0 <= m -> bit_of (U B) m = true -> bit_of (U' B) m = true) -> fmap_ok B N U' (addr_of U' q) (ind_of q).
Proof.
  intros Hb. apply (fmap_ext _ _ _ (addr_of U q)); [intros; apply stay_addr|]. destruct Hm as [H1 H2 H3 H4]. split; try done.
  - intros bn Hbn Hz. destruct (H1 bn Hbn Hz). split; [done|]. apply Hb; [lia|done].
  - intros Hz. destruct (H3 Hz). split; [done|]. apply Hb; [lia|done].
Qed.

Lemma stay_mapped nm : mapped U q nm -> mapped U' q nm.
Proof. intros [Ma Mi]. split; [|done]. intros bn Hb. rewrite stay_addr. now apply Ma. Qed.
End Stay.

(** * Files *)

(** The inode [p] is a file of type [t] with the bytes [c]. *)
Record file_is (s : img) (p : inode) (t : Z) (c : list Z) : Prop := {
  fs_type : i_type p = t;
  fs_nums : i_nlink p = 1 /\ i_major p = 0 /\ i_minor p = 0;
  fs_size : i_size p = Z.of_nat (length c);
  fs_max : Z.of_nat (length c) <= MAXFILE * BSIZE;
  fs_inode : inode_ok s p (nblk (Z.of_nat (length c)));
  fs_bytes k : 0 <= k < MAXFILE * BSIZE -> fb (W s) (addr_of (W s) p) k = aget 0 c k
}.

Lemma addrs_u32 s p nm : inode_ok s p nm -> Forall is_u32 (i_addrs p).
Proof.
  intros [Hl Hm _]. apply Forall_lookup. intros j x Hx. pose proof (lookup_lt_Some _ _ _ Hx) as Hj.
  assert (E : aget 0 (i_addrs p) (Z.of_nat j) = x) by (unfold aget; now rewrite Nat2Z.id, Hx).
  destruct (decide (j = 12)%nat) as [->|Hne].
  - destruct (ind_small s p Hm) as [Hs _]. unfold ind_of in Hs. change NDIRECT with (Z.of_nat 12) in Hs. rewrite E in Hs. unfold is_u32. lia.
  - destruct (addr_small s p (Z.of_nat j) Hm) as [Hs _]; [change MAXFILE with 140; lia|]. unfold addr_of in Hs.
    rewrite (proj2 (Z.ltb_lt _ _)), E in Hs by (change NDIRECT with 12; lia). unfold is_u32. lia.
Qed.

Lemma s16_small z : 0 <= z < 32768 -> s16 z = z.
Proof. intros Hz. unfold s16, u16. rewrite Z.mod_small by lia. destruct (Z.ltb_spec z 32768); lia. Qed.

Lemma mk_file_fits s p t c : file_is s p t c -> 0 <= t < 32768 -> dinode_fits p.
Proof.
  intros [H1 (H2 & H3 & H4) H5 H6 H7 _] Ht. split.
  - rewrite H1. now apply s16_small.
  - now rewrite H3.
  - now rewrite H4.
  - now rewrite H2.
  - rewrite H5. change (MAXFILE * BSIZE) with 71680 in H6. unfold is_u32. lia.
  - apply H7.
  - now apply (addrs_u32 s p (nblk (Z.of_nat (length c)))).
Qed.

Lemma file_stay s s' p t c :
  file_is s p t c -> (forall m, owns (W s) p m -> W s' m = W s m) ->
  (forall m, 0 <= m -> bit_of (W s B) m = true -> bit_of (W s' B) m = true) -> file_is s' p t c.
Proof.
  intros [H1 H2 H3 H4 [I1 I2 I3] H6] Hst Hbit. split; try done.
  - split; [done|now apply (stay_map (W s))|now apply (stay_mapped (W s))].
  - intros k Hk. rewrite <- H6 by done. now apply stay_fb.
Qed.

Lemma owns_range s p t c m : file_is s p t c -> owns (W s) p m -> B < m < N /\ bit_of (W s B) m = true.
Proof.
  intros [_ _ _ _ [_ Hm _] _] [Hz [->|(bn & Hb & ->)]]; [exact (fm_ind _ _ _ _ _ Hm Hz)|exact (fm_data _ _ _ _ _ Hm bn Hb Hz)].
Qed.

(** The blocks of all files. *)
Fixpoint blocks_of (F : list (Z * list Z)) : Z :=
  match F with [] => 0 | f :: F' => cost (Z.of_nat (length f.2)) + blocks_of F' end.

Lemma blocks_of_app F G : blocks_of (F ++ G) = blocks_of F + blocks_of G.
Proof. induction F; cbn; lia. Qed.

Lemma blocks_of_insert F i f g :
  F !! i = Some f -> blocks_of (<[i := g]> F) = blocks_of F - cost (Z.of_nat (length f.2)) + cost (Z.of_nat (length g.2)).
Proof.
  revert i. induction F as [|h F IH]; intros i Hi; [done|]. destruct i as [|i]; [injection Hi as ->; cbn; lia|].
  change (<[S i := g]> (h :: F)) with (h :: <[i := g]> F). cbn [blocks_of]. rewrite (IH i Hi). lia.
Qed.

(** The image with the files [F]: the inode of the file [i] has number [i + 1]. *)
Definition ino (i : nat) : Z := Z.of_nat i + 1.

Record fs_ok (s : img) (F : list (Z * list Z)) : Prop := {
  fk_base : base_ok s;
  fk_free : freeblock s = nmeta + blocks_of F;
  fk_next : freeinode s = Z.of_nat (length F) + 1 /\ Z.of_nat (length F) < NINODES;
  fk_file i t c : F !! i = Some (t, c) -> file_is s (inode_at s (ino i)) t c /\ 0 <= t < 32768;
  fk_sep i j m : (i < length F)%nat -> (j < length F)%nat -> i <> j ->
    owns (W s) (inode_at s (ino i)) m -> ~ owns (W s) (inode_at s (ino j)) m;
  fk_super : V s 1 = sb_block;
  fk_log m : 2 <= m < 32 -> V s m = zeros
}.

Lemma ino_range s F i : fs_ok s F -> (i < length F)%nat -> 0 <= ino i < NINODES.
Proof. intros [_ _ [_ Hn] _ _ _ _] Hi. unfold ino. lia. Qed.

(** ** iappend *)

(** The file that grows, in the state after the loop, with its new size. *)
Lemma grown_file s s1 p p1 t c d :
  file_is s p t c -> wrote B N (W s) p (Z.of_nat (length c)) d (W s1) p1 ->
  inode_ok s1 p1 (nblk (Z.of_nat (length c) + Z.of_nat (length d))) -> Z.of_nat (length c) + Z.of_nat (length d) <= MAXFILE * BSIZE ->
  file_is s1 (iset_size (Z.of_nat (length c) + Z.of_nat (length d)) p1) t (c ++ d).
Proof.
  intros [H1 H2 H3 H4 H5 H6] Hw Hi Hmax. pose proof (wt_inode _ _ _ _ _ _ _ _ Hw) as E.
  split; rewrite ?length_app, ?Nat2Z.inj_add; [rewrite E; exact H1|rewrite E; exact H2|done|done| |].
  - destruct Hi as [I1 I2 [Ma Mi]]. split; [exact I1|exact I2|split; [exact Ma|exact Mi]].
  - intros k Hk. change (addr_of (W s1) (iset_size (Z.of_nat (length c) + Z.of_nat (length d)) p1)) with (addr_of (W s1) p1).
    rewrite (wt_bytes _ _ _ _ _ _ _ _ Hw) by done. unfold overlay. rewrite H6 by done. unfold aget.
    destruct (Z.leb_spec (Z.of_nat (length c)) k); cbn [andb]; [|now rewrite lookup_app_l by lia].
    rewrite lookup_app_r by lia. destruct (Z.ltb_spec k (Z.of_nat (length c) + Z.of_nat (length d))).
    + do 2 f_equal. lia.
    + rewrite !lookup_ge_None_2 by lia. done.
Qed.

Lemma grown_owns s s1 p p1 t c off d m :
  file_is s p t c -> wrote B N (W s) p off d (W s1) p1 -> owns (W s1) p1 m ->
  owns (W s) p m \/ bit_of (W s B) m = false.
Proof.
  intros Hf [_ _ _ _ _ _ Hk Hn Hi _] [Hz [->|(bn & Hb & ->)]].
  - destruct Hi as [E|(_ & _ & E)]; [left|now right]. rewrite E in *. split; [done|now left].
  - destruct (Z.eq_dec (addr_of (W s) p bn) 0) as [E|E]; [right; now apply Hn|left]. rewrite Hk in * by done.
    split; [done|]. right. now exists bn.
Qed.

Lemma stored_file s inum q p t c :
  0 <= inum < NINODES -> file_is s p t c -> file_is (stored inum q s) p t c.
Proof.
  intros Hi Hf. apply (file_stay s); [done| |now rewrite stored_bmap].
  intros m Ho. apply stored_W; [done|]. now apply (owns_range s p t c m).
Qed.

Lemma stored_owns s inum q p t c m :
  0 <= inum < NINODES -> file_is s p t c -> owns (W (stored inum q s)) p m <-> owns (W s) p m.
Proof.
  intros Hi Hf. apply stay_owns. intros x Ho. apply stored_W; [done|]. now apply (owns_range s p t c x).
Qed.

(** The files after the file [i] has grown. *)
Section Append.
Variables (s s1 : img) (F : list (Z * list Z)) (i : nat) (t : Z) (c d : list Z) (p1 : inode) (k : Z).
Let p := inode_at s (ino i).
Let off := Z.of_nat (length c).
Let p2 := iset_size (off + Z.of_nat (length d)) p1.
Let s2 := stored (ino i) p2 s1.
Hypothesis Hok : fs_ok s F.
Hypothesis HF : F !! i = Some (t, c).
Hypothesis Hap : appended k s s1.
Hypothesis Hw : wrote B N (W s) p off d (W s1) p1.
Hypothesis Hf1 : file_is s1 p2 t (c ++ d).

Lemma append_i : (i < length F)%nat /\ 0 <= ino i < NINODES /\ file_is s p t c /\ 0 <= t < 32768.
Proof.
  pose proof (lookup_lt_Some _ _ _ HF) as Hlt. split_and!; [done|now apply (ino_range s F)..| | |];
    destruct (fk_file _ _ Hok i t c HF) as [? []]; done.
Qed.

Lemma append_inode : inode_at s2 (ino i) = p2.
Proof.
  destruct append_i as (_ & Hi & _ & Ht). apply inode_at_stored; [apply Hap|done|now apply (mk_file_fits s1 p2 t (c ++ d))|].
  unfold p2. rewrite (wt_inode _ _ _ _ _ _ _ _ Hw). done.
Qed.

Lemma append_other j : (j < length F)%nat -> j <> i ->
  inode_at s2 (ino j) = inode_at s (ino j) /\ forall m, owns (W s) (inode_at s (ino j)) m -> W s1 m = W s m.
Proof.
  intros Hj Hne. destruct append_i as (Hlt & Hi & Hf & _). pose proof (ino_range s F j Hok Hj) as Hij. split.
  - unfold s2. rewrite inode_at_other by (done || unfold ino; lia). unfold inode_at. destruct (IBLOCK_sb (ino j) Hij) as [_ Hr].
    now rewrite (ap_meta _ _ _ Hap) by lia.
  - intros m Ho. destruct (lookup_lt_is_Some_2 _ _ Hj) as [[tj cj] HFj]. destruct (fk_file _ _ Hok j tj cj HFj) as [Hfj _].
    destruct (owns_range _ _ _ _ _ Hfj Ho) as [Hr Hb]. apply (wt_other _ _ _ _ _ _ _ _ Hw); [lia|done|lia| |].
    + intros E. apply (fk_sep _ _ Hok i j m Hlt Hj (not_eq_sym Hne)); [|done]. split; [lia|now left].
    + intros bn Hbn Hz E. apply (fk_sep _ _ Hok i j m Hlt Hj (not_eq_sym Hne)); [|done]. split; [lia|right]. now exists bn.
Qed.

Lemma append_other_file j tj cj : j <> i -> F !! j = Some (tj, cj) ->
  file_is s1 (inode_at s (ino j)) tj cj /\ file_is s2 (inode_at s2 (ino j)) tj cj.
Proof.
  intros Hne HFj. pose proof (lookup_lt_Some _ _ _ HFj) as Hj. destruct (append_other j Hj Hne) as [E Hst].
  destruct (fk_file _ _ Hok j tj cj HFj) as [Hfj _]. destruct append_i as (_ & Hi & _).
  assert (H1 : file_is s1 (inode_at s (ino j)) tj cj) by (apply (file_stay s); [done|done|apply (wt_bits _ _ _ _ _ _ _ _ Hw)]).
  split; [done|]. rewrite E. now apply stored_file.
Qed.

(** What another file owns, it owned before. *)
Lemma append_other_owns j m : (j < length F)%nat -> j <> i -> owns (W s2) (inode_at s2 (ino j)) m -> owns (W s) (inode_at s (ino j)) m.
Proof.
  intros Hj Hne Ho. destruct (lookup_lt_is_Some_2 _ _ Hj) as [[tj cj] HFj]. destruct (append_other j Hj Hne) as [E Hst].
  destruct (append_other_file j tj cj Hne HFj) as [H1 _]. destruct append_i as (_ & Hi & _). rewrite E in Ho.
  apply (stored_owns s1 _ _ _ tj cj) in Ho; [|done|done]. now apply (stay_owns (W s) (W s1) _ Hst m).
Qed.

Lemma append_sep j m : (j < length F)%nat -> j <> i -> owns (W s2) p2 m -> ~ owns (W s2) (inode_at s2 (ino j)) m.
Proof.
  intros Hj Hne Hp Hq. destruct append_i as (Hlt & Hi & Hf & _). apply append_other_owns in Hq; [|done|done].
  apply (stored_owns s1 _ _ _ t (c ++ d)) in Hp; [|done|done]. change (owns (W s1) p1 m) in Hp.
  destruct (grown_owns s s1 p p1 t c off d m Hf Hw Hp) as [Ho|Hb].
  - now apply (fk_sep _ _ Hok i j m Hlt Hj (not_eq_sym Hne)) in Ho.
  - destruct (lookup_lt_is_Some_2 _ _ Hj) as [[tj cj] HFj]. destruct (fk_file _ _ Hok j tj cj HFj) as [Hfj _].
    destruct (owns_range _ _ _ _ _ Hfj Hq) as [_ Hb']. congruence.
Qed.

Lemma append_ok : k = cost (off + Z.of_nat (length d)) - cost off -> fs_ok s2 (<[i := (t, c ++ d)]> F).
Proof.
  intros Hk. destruct append_i as (Hlt & Hi & Hf & Ht). destruct (IBLOCK_sb (ino i) Hi) as [_ Hr].
  pose proof Hok as [Hs Hfree Hnext _ Hsep Hsup Hlog]. split.
  - apply stored_base; [apply Hap|done].
  - change (freeblock s2) with (freeblock s1). rewrite (ap_free _ _ _ Hap), Hfree, (blocks_of_insert _ _ _ _ HF), Hk. cbn [snd].
    rewrite length_app, Nat2Z.inj_add. fold off. lia.
  - rewrite length_insert. change (freeinode s2) with (freeinode s1). now rewrite (ap_inode _ _ _ Hap).
  - intros j tj cj Hj. destruct (decide (j = i)) as [->|Hne].
    + rewrite list_lookup_insert_eq in Hj by done. injection Hj as <- <-. rewrite append_inode. split; [|done]. now apply stored_file.
    + rewrite list_lookup_insert_ne in Hj by done. split; [now apply append_other_file|]. now apply (fk_file _ _ Hok j tj cj).
  - intros j j' m. rewrite length_insert. intros Hj Hj' Hne. destruct (decide (j = i)) as [->|Hji].
    + rewrite append_inode. now apply append_sep.
    + destruct (decide (j' = i)) as [->|Hj'i].
      * rewrite append_inode. intros H1 H2. now apply (append_sep j m Hj Hji H2).
      * intros H1 H2. apply append_other_owns in H1, H2; try done. now apply (Hsep j j' m Hj Hj' Hne H1).
  - unfold s2. rewrite stored_V by lia. now rewrite (ap_meta _ _ _ Hap) by lia.
  - intros m Hmm. unfold s2. rewrite stored_V by lia. rewrite (ap_meta _ _ _ Hap) by lia. now apply Hlog.
Qed.
End Append.

Lemma wp_iappend s F i t c d (Q : unit -> ctx -> img -> Prop) ctx :
  let n := Z.of_nat (length c) in let n' := n + Z.of_nat (length d) in
  fs_ok s F -> F !! i = Some (t, c) -> n' <= MAXFILE * BSIZE -> freeblock s + (cost n' - cost n) <= N -> Forall is_u8 d ->
  (forall s', fs_ok s' (<[i := (t, c ++ d)]> F) -> Q tt ctx s') ->
  wp (iappend (ino i) d) Q ctx s.
Proof.
  intros n n' Hok HF Hmax Hroom Hu8 HQ. pose proof Hok as [Hs Hfree Hnext Hfiles Hsep Hsup Hlog].
  pose proof (lookup_lt_Some _ _ _ HF) as Hlt. pose proof (ino_range s F i Hok Hlt) as Hi.
  destruct (Hfiles i t c HF) as [Hf Ht]. set (p := inode_at s (ino i)) in *.
  unfold iappend. apply wp_bind, wp_rinode; [done|done|]. fold p. rewrite (fs_size _ _ _ _ Hf). fold n.
  assert (Hn : is_u32 n' /\ is_u32 n) by (change (MAXFILE * BSIZE) with 71680 in Hmax; unfold is_u32; lia).
  rewrite xint_small by apply Hn. apply wp_bind.
  apply wp_iappend_from; [done|apply Hf|lia|done|lia|done|done|]. intros p1 s1 Hap Hp1 Hw. fold n' in Hap, Hp1 |- *.
  rewrite xint_small by apply Hn. pose proof (grown_file s s1 p p1 t c d Hf Hw Hp1 Hmax) as Hf1. fold n n' in Hf1.
  apply wp_winode; [apply Hap|done|]. apply HQ. now apply (append_ok s s1 F i t c d p1 (cost n' - cost n)).
Qed.

(** ** ialloc *)

Definition new_inode (inum t : Z) : inode := iset_size 0 (iset_nlink 1 (iset_type t (inode_key inum))).

Lemma new_addr U inum t bn : 0 <= bn -> addr_of U (new_inode inum t) bn = 0.
Proof.
  intros Hb. unfold addr_of. change (ind_of (new_inode inum t)) with 0. cbn [Z.eqb]. destruct (bn <? NDIRECT); [|done].
  unfold aget. cbn [i_addrs new_inode iset_size iset_nlink iset_type inode_key].
  destruct (replicate 13 0 !! Z.to_nat bn) eqn:E; [|done]. now apply lookup_replicate in E as [-> _].
Qed.

Lemma new_file s inum t : file_is s (new_inode inum t) t [].
Proof.
  split; try done.
  - split; [done| |].
    + split.
      * intros bn Hb Hz. now rewrite new_addr in Hz by lia.
      * intros bn bn' Hb _ Hz. now rewrite new_addr in Hz by lia.
      * done.
      * done.
    + split; [|done]. intros bn Hb. rewrite new_addr by lia. change (nblk (Z.of_nat (length []))) with 0. lia.
  - intros k Hk. unfold fb. rewrite new_addr by (apply Z.div_pos; unfold BSIZE; lia). done.
Qed.

Lemma new_owns U inum t m : ~ owns U (new_inode inum t) m.
Proof.
  intros [Hz [->|(bn & Hb & ->)]]; [done|]. now rewrite new_addr in Hz by lia.
Qed.

Lemma wp_ialloc s F t (Q : Z -> ctx -> img -> Prop) c :
  fs_ok s F -> Z.of_nat (length F) + 1 < NINODES -> 0 <= t < 32768 ->
  (forall s', fs_ok s' (F ++ [(t, [])]) -> Q (ino (length F)) c s') -> wp (ialloc t) Q c s.
Proof.
  intros Hok Hlen Ht HQ. pose proof Hok as [Hs Hfree [Hnext _] Hfiles Hsep Hsup Hlog]. unfold ialloc, next_inode. wp_steps.
  rewrite Hnext. fold (ino (length F)). set (s0 := Img _ _ _).
  assert (Hi : 0 <= ino (length F) < NINODES) by (unfold ino; lia). destruct (IBLOCK_sb _ Hi) as [_ Hr].
  rewrite !xshort_u16. change (xint 0) with 0. change (u16 1) with 1. unfold u16. rewrite (Z.mod_small t) by lia.
  fold (new_inode (ino (length F)) t). assert (Hs0 : base_ok s0) by (destruct Hs; now split).
  apply wp_winode; [done|done|]. apply wp_ret, HQ. set (s1 := stored _ _ s0).
  assert (Enew : inode_at s1 (ino (length F)) = new_inode (ino (length F)) t).
  { apply inode_at_stored; [done|done|apply (mk_file_fits s0 _ t []); [apply new_file|done]|done]. }
  assert (Eold : forall i, (i < length F)%nat -> inode_at s1 (ino i) = inode_at s (ino i)).
  { intros i Hil. unfold s1. rewrite inode_at_other by (done || unfold ino in *; lia). done. }
  assert (Hown : forall i m, (i < length F)%nat -> owns (W s1) (inode_at s1 (ino i)) m -> owns (W s) (inode_at s (ino i)) m).
  { intros i m Hil Ho. destruct (lookup_lt_is_Some_2 _ _ Hil) as [[ti ci] Hi']. destruct (Hfiles i ti ci Hi') as [Hf _].
    rewrite Eold in Ho by done. apply (stored_owns s0 _ _ _ ti ci) in Ho; [done|done|]. now apply (file_stay s). }
  split.
  - now apply stored_base.
  - change (freeblock s1) with (freeblock s). rewrite blocks_of_app, Hfree. cbn [blocks_of snd length].
    change (cost (Z.of_nat 0)) with 0. lia.
  - change (freeinode s1) with (u32 (ino (length F) + 1)). rewrite length_app, u32_small by (unfold is_u32, NINODES in *; lia).
    cbn [length]. unfold ino. lia.
  - intros i ti ci Hil. apply lookup_app_Some in Hil as [Hil|[Hge Hil]].
    + destruct (Hfiles i ti ci Hil) as [Hf Hti]. rewrite Eold by now apply lookup_lt_Some in Hil. split; [|done].
      apply stored_file; [done|]. now apply (file_stay s).
    + destruct (i - length F)%nat as [|x] eqn:Ex; [|done]. injection Hil as <- <-. replace i with (length F) by lia.
      rewrite Enew. split; [apply new_file|done].
  - intros i j m. rewrite length_app. cbn [length]. intros Hil Hjl Hne Ho Hoj.
    destruct (decide (i = length F)) as [->|]; [rewrite Enew in Ho; now apply new_owns in Ho|].
    destruct (decide (j = length F)) as [->|]; [rewrite Enew in Hoj; now apply new_owns in Hoj|].
    apply Hown in Ho, Hoj; [|lia..]. apply (Hsep i j m); done || lia.
  - unfold s1. rewrite stored_V by lia. done.
  - intros m Hmm. unfold s1. rewrite stored_V by lia. now apply Hlog.
Qed.

(** * The whole image *)

(** The entries of the root directory for the files, the first of which has the inode [inum]. *)
Fixpoint dir_entries (inum : Z) (files : list hostfile) : list Z :=
  match files with
  | [] => []
  | f :: files' => dirent (skip_underscore (hf_name f)) inum ++ dir_entries (inum + 1) files'
  end.
Definition root_data (files : list hostfile) : list Z := dirent [46] ROOTINO ++ dirent [46; 46] ROOTINO ++ dir_entries 2 files.

(** The files of the image, in the order of their inodes. *)
Definition expect (files : list hostfile) : list (Z * list Z) :=
  (T_DIR, root_data files) :: ((fun f => (T_FILE, mjoin (hf_reads f))) <$> files).

Record host_ok (f : hostfile) : Prop := {
  ho_name : 47 ∉ hf_name f;
  ho_name_u8 : Forall is_u8 (hf_name f);
  ho_bytes : Forall is_u8 (mjoin (hf_reads f));
  ho_max : Z.of_nat (length (mjoin (hf_reads f))) <= MAXFILE * BSIZE
}.

Lemma dir_entries_app k fs f :
  dir_entries k (fs ++ [f]) = dir_entries k fs ++ dirent (skip_underscore (hf_name f)) (k + Z.of_nat (length fs)).
Proof.
  revert k. induction fs as [|g fs IH]; intros k; cbn [app dir_entries length].
  - now rewrite app_nil_r, Z.add_0_r.
  - rewrite IH, <- app_assoc. do 3 f_equal. lia.
Qed.

Lemma root_data_app fs f :
  root_data (fs ++ [f]) = root_data fs ++ dirent (skip_underscore (hf_name f)) (2 + Z.of_nat (length fs)).
Proof. unfold root_data. now rewrite dir_entries_app, <- !app_assoc. Qed.

Lemma length_root_data fs : Z.of_nat (length (root_data fs)) = 16 * (Z.of_nat (length fs) + 2).
Proof.
  induction fs as [|f fs IH] using rev_ind; [reflexivity|]. rewrite root_data_app, !length_app, length_dirent. cbn [length]. lia.
Qed.

Lemma skip_underscore_u8 name : Forall is_u8 name -> Forall is_u8 (skip_underscore name).
Proof. intros H. destruct name as [|c name]; [done|]. cbn. apply Forall_cons in H as [H1 H2]. case_match; [done|now constructor]. Qed.

Lemma fs_ok_free s F : fs_ok s F -> freeblock s = 59 + blocks_of F.
Proof. intros H. rewrite (fk_free _ _ H). done. Qed.

(** Reading a file into its inode, which is the last one. *)
Lemma wp_reads F s reads i (Q : unit -> ctx -> img -> Prop) c :
  fs_ok s (F ++ [(T_FILE, [])]) -> i = length F -> Forall is_u8 (mjoin reads) ->
  Z.of_nat (length (mjoin reads)) <= MAXFILE * BSIZE -> blocks_of (F ++ [(T_FILE, mjoin reads)]) <= nblocks ->
  (forall s', fs_ok s' (F ++ [(T_FILE, mjoin reads)]) -> Q tt c s') ->
  wp (for_ reads (fun buf => iappend (ino i) buf)) Q c s.
Proof.
  intros Hok -> Hu8 Hmax Hroom HQ.
  apply (wp_for reads _ (fun todo c' s' => c' = c /\ exists dn, reads = dn ++ todo /\ fs_ok s' (F ++ [(T_FILE, mjoin dn)]))).
  - split; [done|]. now exists [].
  - intros b todo c' s' (-> & dn & -> & Hok'). rewrite blocks_of_app in Hroom. cbn [blocks_of snd] in Hroom.
    assert (Ej : mjoin (dn ++ b :: todo) = (mjoin dn ++ b) ++ mjoin todo) by now rewrite join_app, <- app_assoc.
    rewrite Ej in Hmax, Hroom, Hu8. rewrite !Forall_app in Hu8. set (x := mjoin dn) in *. set (y := mjoin todo) in *.
    rewrite !length_app, !Nat2Z.inj_add in Hmax, Hroom.
    assert (cost (Z.of_nat (length x) + Z.of_nat (length b)) <= cost (Z.of_nat (length x) + Z.of_nat (length b) + Z.of_nat (length y))) by (apply cost_mono; lia).
    apply (wp_iappend s' (F ++ [(T_FILE, x)]) (length F) T_FILE x b); [done| |lia| |apply Hu8|].
    + rewrite lookup_app_r by lia. now rewrite Nat.sub_diag.
    + rewrite (fs_ok_free _ _ Hok'), blocks_of_app. cbn [blocks_of snd]. change nblocks with 941 in Hroom. lia.
    + intros s'' Hok''. split; [done|]. exists (dn ++ [b]). split; [now rewrite <- app_assoc|].
      rewrite insert_app_r_alt, Nat.sub_diag in Hok'' by lia. rewrite join_app. cbn [mjoin list_join]. now rewrite app_nil_r.
  - intros c' s' (-> & dn & E & Hok'). rewrite app_nil_r in E. subst dn. now apply HQ.
Qed.

Lemma wp_add_file s fs f (Q : unit -> ctx -> img -> Prop) c :
  fs_ok s (expect fs) -> host_ok f -> Z.of_nat (length fs) + 2 < NINODES -> blocks_of (expect (fs ++ [f])) <= nblocks ->
  (forall s', fs_ok s' (expect (fs ++ [f])) -> Q tt c s') -> wp (add_file ROOTINO f) Q c s.
Proof.
  intros Hok [Hslash Hname Hu8 Hmax] Hlen Hroom HQ. unfold add_file, assert_. rewrite bool_decide_eq_false_2 by done. cbn [negb].
  apply wp_bind, wp_ret, wp_bind.
  assert (Hle : length (expect fs) = S (length fs)) by (cbn; now rewrite length_fmap).
  apply (wp_ialloc s (expect fs)); [done|rewrite Hle; lia|unfold T_FILE; lia|]. rewrite Hle. intros s1 Hok1.
  set (files := (fun f => (T_FILE, mjoin (hf_reads f))) <$> fs) in *.
  assert (Eino : xshort (ino (S (length fs))) = 2 + Z.of_nat (length fs)).
  { rewrite xshort_u16. unfold u16, ino, NINODES in *. rewrite Z.mod_small; lia. }
  rewrite Eino. set (de := dirent _ _). assert (Ede : root_data (fs ++ [f]) = root_data fs ++ de) by apply root_data_app.
  assert (Hlde : Z.of_nat (length (root_data fs)) + Z.of_nat (length de) = Z.of_nat (length (root_data (fs ++ [f])))) by (rewrite Ede, length_app; lia).
  assert (Hexp : expect (fs ++ [f]) = ((T_DIR, root_data fs ++ de) :: files) ++ [(T_FILE, mjoin (hf_reads f))]).
  { unfold expect. rewrite Ede, fmap_app. done. }
  apply wp_bind. change ROOTINO with (ino 0).
  apply (wp_iappend s1 (expect fs ++ [(T_FILE, [])]) 0 T_DIR (root_data fs) de); [exact Hok1|done| | | |].
  - rewrite Hlde, length_root_data, length_app. cbn [length]. change (MAXFILE * BSIZE) with 71680. unfold NINODES in Hlen. lia.
  - rewrite (fs_ok_free _ _ Hok1), Hlde. rewrite Hexp in Hroom. rewrite blocks_of_app in *. unfold expect. cbn [blocks_of snd] in *.
    rewrite <- Ede in Hroom. change nblocks with 941 in Hroom. change (cost (Z.of_nat (length []))) with 0. unfold files in *.
    match type of Hroom with _ + (cost (Z.of_nat ?n) + 0) <= _ => pose proof (cost_nonneg n) end. lia.
  - apply dirent_u8. now apply skip_underscore_u8.
  - intros s2 Hok2. apply (wp_reads ((T_DIR, root_data fs ++ de) :: files) s2); [exact Hok2|cbn [length]; unfold files; now rewrite length_fmap|done|done| |].
    + now rewrite <- Hexp.
    + intros s3 Hok3. apply HQ. now rewrite Hexp.
Qed.

(** ** The end of main *)

(** The image as the kernel will see it. *)
Record image_ok (s : img) (F : list (Z * list Z)) : Prop := {
  ig_blocks n : 0 <= n < FSSIZE -> block_ok (V s n);
  ig_super : superblock_of (V s 1) = sb;
  ig_log m : 2 <= m < 32 -> V s m = zeros;
  ig_bitmap m : 0 <= m < BPB -> bit_of (V s (sb_bmapstart sb)) m = (m <? nmeta + blocks_of F);
  ig_file (k : fsst) i t c : fs_sb k = sb -> disksize (bio_of k) = FSSIZE -> F !! i = Some (t, c) ->
    file_inv k (V s) (inode_at s (ino i)) /\ i_type (inode_at s (ino i)) = t /\ i_nlink (inode_at s (ino i)) = 1 /\ contents (V s) (inode_at s (ino i)) = c;
  ig_sep i j m : (i < length F)%nat -> (j < length F)%nat -> i <> j ->
    owns (V s) (inode_at s (ino i)) m -> ~ owns (V s) (inode_at s (ino j)) m
}.

(** The size of the root directory becomes a multiple of BSIZE; the bytes that are
    added are the rest of its last block. *)
Definition padding (n : nat) : list Z := replicate (Z.to_nat ((Z.of_nat n / BSIZE + 1) * BSIZE) - n) 0.

Lemma length_padding n : Z.of_nat n mod BSIZE <> 0 ->
  Z.of_nat n + Z.of_nat (length (padding n)) = (Z.of_nat n / BSIZE + 1) * BSIZE /\
  nblk (Z.of_nat n) = Z.of_nat n / BSIZE + 1 /\ nblk (Z.of_nat n + Z.of_nat (length (padding n))) = nblk (Z.of_nat n).
Proof.
  intros Hmod. pose proof (div_spec (Z.of_nat n)) as Hd. unfold padding. rewrite length_replicate.
  pose proof (nblk_spec (Z.of_nat n)). rewrite Z.mod_eq in Hmod by done. unfold BSIZE in *.
  assert (E : Z.of_nat n + Z.of_nat (Z.to_nat ((Z.of_nat n / 512 + 1) * 512) - n) = (Z.of_nat n / 512 + 1) * 512) by lia.
  rewrite E. pose proof (nblk_spec ((Z.of_nat n / 512 + 1) * 512)). split_and!; lia.
Qed.

(** Padding a file up to the end of its last block writes nothing. *)
Lemma wrote_padding s p t c : file_is s p t c -> Z.of_nat (length c) mod BSIZE <> 0 ->
  wrote B N (W s) p (Z.of_nat (length c)) (padding (length c)) (W s) p.
Proof.
  intros [_ _ _ Hmax [Hl Hm Hmp] Hb] Hmod. destruct (length_padding _ Hmod) as (Elen & Enb & _). split; try done.
  - now rewrite iset_addrs_same.
  - intros k Hk. unfold overlay. destruct (Z.leb_spec (Z.of_nat (length c)) k); cbn [andb]; [|done].
    destruct (Z.ltb_spec k (Z.of_nat (length c) + Z.of_nat (length (padding (length c))))); [|done].
    rewrite Hb by done. unfold aget at 1. rewrite lookup_ge_None_2 by lia. unfold aget, padding.
    destruct (replicate _ 0 !! Z.to_nat (k - Z.of_nat (length c))) eqn:E; [|done]. now apply lookup_replicate in E as [-> _].
  - now left.
  - intros k Hk. pose proof (div_spec k). pose proof (div_spec (Z.of_nat (length c))).
    assert (Ek : k / BSIZE = Z.of_nat (length c) / BSIZE) by (unfold BSIZE in *; lia). rewrite Ek.
    apply (mp_addr _ _ _ Hmp); [|lia]. split; [apply Z.div_pos; unfold BSIZE; lia|]. change (MAXFILE * BSIZE) with 71680 in Hmax.
    change MAXFILE with 140. unfold BSIZE in *. rewrite Z.mod_eq in Hmod by lia. lia.
Qed.

Lemma wp_fix_root s F t c (Q : unit -> ctx -> img -> Prop) ctx :
  fs_ok s ((t, c) :: F) -> Z.of_nat (length c) mod BSIZE <> 0 ->
  (forall s', fs_ok s' ((t, c ++ padding (length c)) :: F) -> Q tt ctx s') -> wp (fix_root ROOTINO) Q ctx s.
Proof.
  intros Hok Hmod HQ. destruct (fk_file _ _ Hok 0 t c eq_refl) as [Hf Ht]. change ROOTINO with (ino 0).
  assert (Hi : 0 <= ino 0 < NINODES) by done. set (p := inode_at s (ino 0)) in *. unfold fix_root.
  apply wp_bind, wp_rinode; [apply Hok|done|]. fold p. rewrite (fs_size _ _ _ _ Hf). pose proof (fs_max _ _ _ _ Hf) as Hmax.
  destruct (length_padding _ Hmod) as (Elen & Enb & Enb'). change (MAXFILE * BSIZE) with 71680 in Hmax.
  pose proof (div_spec (Z.of_nat (length c))) as Hd. rewrite Z.mod_eq in Hmod by done.
  assert (Hn : (Z.of_nat (length c) / BSIZE + 1) * BSIZE <= 71680) by (unfold BSIZE in *; lia).
  rewrite (xint_small (Z.of_nat _)) by (unfold is_u32; lia). rewrite <- Elen in *.
  rewrite u32_small, xint_small by (unfold is_u32; lia). apply wp_winode; [apply Hok|done|]. apply HQ.
  rewrite <- Z.mod_eq in Hmod by done. pose proof (wrote_padding s p t c Hf Hmod) as Hw.
  apply (append_ok s s ((t, c) :: F) 0 t c (padding (length c)) p 0); [done|done|apply appended_refl, Hok|done| |].
  - apply (grown_file s s p p); [done|done|rewrite Enb'; apply Hf|done].
  - unfold cost. rewrite Enb'. lia.
Qed.

Lemma wp_mkfs_balloc s F (Q : unit -> ctx -> img -> Prop) c :
  fs_ok s F -> (forall s', (forall m, V s' m = W s m) -> Q tt c s') -> wp (balloc (freeblock s)) Q c s.
Proof.
  intros Hok HQ. pose proof (bo_free s (fk_base _ _ Hok)) as Hf. unfold balloc, assert_.
  rewrite (proj2 (Z.ltb_lt _ _)) by (unfold BSIZE; lia). apply wp_bind, wp_ret. rewrite sb_eq. cbn [sb_bmapstart].
  apply wp_wsect; [lia|]. apply HQ. intros m. now rewrite V_written.
Qed.

(** ** The final image, which has the bitmap *)

Section Final.
Variables (s s' : img) (F : list (Z * list Z)).
Hypothesis Hok : fs_ok s F.
Hypothesis HV : forall m, V s' m = W s m.

Lemma final_inode i : (i < length F)%nat -> inode_at s' (ino i) = inode_at s (ino i).
Proof.
  intros Hi. destruct (IBLOCK_sb (ino i) (ino_range s F i Hok Hi)) as [_ Hr]. unfold inode_at. now rewrite HV, W_other by lia.
Qed.

Lemma final_addr p bn : addr_of (V s') p bn = addr_of (W s) p bn.
Proof. now apply addr_of_ext. Qed.

Lemma final_contents p t c : file_is s p t c -> contents (V s') p = c.
Proof.
  intros [_ _ F5 F6 _ F7]. unfold contents. rewrite F5.
  apply list_eq_same_length with (length c); [done|rewrite length_fbytes; lia|].
  intros j x y Hj. rewrite fbytes_lookup by lia. intros [= <-] Hy. rewrite Z.add_0_l.
  rewrite (fb_ext (W s) (V s') (addr_of (W s) p) (addr_of (V s') p) _ HV (final_addr p)), F7 by lia.
  unfold aget. now rewrite Nat2Z.id, Hy.
Qed.

Lemma final_file (k : fsst) i t c :
  fs_sb k = sb -> disksize (bio_of k) = FSSIZE -> F !! i = Some (t, c) -> t <> T_DEV ->
  file_inv k (V s') (inode_at s (ino i)).
Proof.
  intros Hsb Hds Hi Hdev. pose proof (lookup_lt_Some _ _ _ Hi) as Hil. pose proof (ino_range s F i Hok Hil) as Hir.
  destruct (fk_file _ _ Hok i t c Hi) as [Hf Ht]. pose proof (mk_file_fits _ _ _ _ Hf Ht) as Hfit.
  pose proof Hf as [F1 _ F5 F6 [I1 I2 I3] _]. set (p := inode_at s (ino i)) in *. split.
  - split; [done|done|]. unfold bmapblock. rewrite Hsb, Hds. apply (fmap_ext _ _ _ (addr_of (W s) p)); [intros; apply final_addr|].
    eapply fmap_used; [|exact I2]. intros m. rewrite sb_eq. cbn [sb_bmapstart]. now rewrite HV.
  - intros x Hx. rewrite F5 in Hx. rewrite final_addr. pose proof (nblk_spec (Z.of_nat (length c))). pose proof (div_spec x).
    apply (mp_addr _ _ _ I3); [apply block_range; lia|]. unfold BSIZE in *. lia.
  - lia.
  - congruence.
  - unfold inum_ok. rewrite Hsb. exact Hir.
  - destruct Hfit. done.
  - unfold on_disk. rewrite Hsb. change (i_inum p) with (ino i). destruct (IBLOCK_sb (ino i) Hir) as [_ Hr].
    rewrite HV, W_other by lia. reflexivity.
Qed.

Lemma final_image : Forall (fun f => f.1 <> T_DEV) F -> image_ok s' F.
Proof.
  intros Hdev. pose proof Hok as [Hs Hfree Hnext Hfiles Hsep Hsup Hlog]. pose proof (bo_free s Hs) as Hfr. change nmeta with 59 in Hfr.
  split.
  - intros n Hn. rewrite HV. destruct (Z.eq_dec n B) as [->|]; [rewrite W_bmap; apply bitmap_spec; unfold BPB, BSIZE; lia|].
    rewrite W_other by done. now apply (bo_disk s Hs).
  - rewrite HV, W_other, Hsup by lia. reflexivity.
  - intros m Hm. rewrite HV, W_other by lia. now apply Hlog.
  - intros m Hm. rewrite sb_eq. cbn [sb_bmapstart]. rewrite HV, W_bmap, <- Hfree. apply bitmap_spec; [unfold BPB, BSIZE; lia|lia].
  - intros k i t c Hsb Hds Hi. pose proof (lookup_lt_Some _ _ _ Hi) as Hil. rewrite final_inode by done.
    destruct (Hfiles i t c Hi) as [Hf Ht]. rewrite Forall_lookup in Hdev.
    split_and!; [now apply (final_file k i t c Hsb Hds Hi), (Hdev i (t, c))|apply Hf|apply Hf|now apply (final_contents _ t)].
  - intros i j m Hi Hj Hne. rewrite !final_inode by done. unfold owns. setoid_rewrite final_addr. now apply Hsep.
Qed.
End Final.

(** ** The beginning of main *)

Lemma wp_clear {A} (k : M img A) (Q : A -> ctx -> img -> Prop) c :
  (forall s, fs_ok s [] -> wp k Q c s) ->
  wp (for_ (zrange (Z.to_nat FSSIZE)) (fun i => wsect i zeros) ;;; wsect 1 sb_block ;;; k) Q c (Img ∅ 1 nmeta).
Proof.
  intros HQ. apply wp_bind.
  apply (wp_for_zrange _ _ (fun k c' s => c' = c /\ freeinode s = 1 /\ freeblock s = nmeta /\
    forall m, 0 <= m < Z.of_nat k -> im_disk s !! m = Some zeros)).
  - split_and!; [done|done|done|lia].
  - intros i c' s Hk (-> & Hi & Hf & Hz). apply wp_wsect; [change (Z.to_nat FSSIZE) with 1000%nat in Hk; lia|].
    split_and!; [done|done|done|]. intros m Hm. cbn. destruct (Z.eq_dec (Z.of_nat i) m) as [<-|Hne]; [apply lookup_insert_eq|].
    rewrite lookup_insert_ne by done. apply Hz. lia.
  - intros c' s (-> & Hi & Hf & Hz). change (Z.of_nat (Z.to_nat FSSIZE)) with N in Hz. apply wp_bind, wp_wsect; [lia|]. apply HQ.
    assert (HV : forall m, 0 <= m < N -> V s m = zeros) by (intros m Hm; unfold V; now rewrite Hz).
    assert (Hsb : block_ok sb_block) by (apply set_bytes_ok; [apply zeros_ok|repeat (apply Forall_app; split); apply le_bytes_range]).
    split.
    + apply base_ok_written; [|done|rewrite Hf; change nmeta with 59; lia]. split.
      * intros n Hn. rewrite Hz, HV by done. split; [done|apply zeros_ok].
      * intros n Hn. rewrite Hf in Hn. change nmeta with 59 in Hn. apply HV. lia.
      * rewrite Hf. change nmeta with 59. lia.
    + cbn. rewrite Hf. done.
    + cbn. now rewrite Hi.
    + intros i t c0 H. now rewrite lookup_nil in H.
    + cbn. lia.
    + rewrite V_written. apply vset_eq.
    + intros m Hm. rewrite V_written, vset_ne by lia. apply HV. lia.
Qed.

Lemma expect_mono fs gs : blocks_of (expect fs) <= blocks_of (expect (fs ++ gs)).
Proof.
  unfold expect. cbn [blocks_of snd]. rewrite fmap_app, blocks_of_app, !length_root_data, length_app.
  assert (Hg : 0 <= blocks_of ((fun f => (T_FILE, mjoin (hf_reads f))) <$> gs)).
  { induction gs as [|g gs IH]; [done|]. rewrite fmap_cons. cbn [blocks_of snd].
    apply Z.add_nonneg_nonneg; [apply cost_nonneg|exact IH]. }
  pose proof (cost_mono (16 * (Z.of_nat (length fs) + 2)) (16 * (Z.of_nat (length fs + length gs) + 2)) ltac:(lia)). lia.
Qed.

Lemma wp_files files s (Q : unit -> ctx -> img -> Prop) c :
  fs_ok s (expect []) -> Forall host_ok files -> Z.of_nat (length files) + 1 < NINODES -> blocks_of (expect files) <= nblocks ->
  (forall s', fs_ok s' (expect files) -> Q tt c s') -> wp (for_ files (add_file ROOTINO)) Q c s.
Proof.
  intros Hok Hh Hlen Hroom HQ.
  apply (wp_for files _ (fun todo c' s' => c' = c /\ exists dn, files = dn ++ todo /\ fs_ok s' (expect dn))).
  - split; [done|]. now exists [].
  - intros f todo c' s' (-> & dn & -> & Hok'). apply Forall_app in Hh as [_ [Hf _]%Forall_cons]. rewrite length_app in Hlen. cbn [length] in Hlen.
    replace (dn ++ f :: todo) with ((dn ++ [f]) ++ todo) in * by now rewrite <- app_assoc.
    pose proof (expect_mono (dn ++ [f]) todo). apply (wp_add_file s' dn f); [done|done|lia|lia|].
    intros s'' Hok''. split; [done|]. now exists (dn ++ [f]).
  - intros c' s' (-> & dn & E & Hok'). rewrite app_nil_r in E. subst dn. now apply HQ.
Qed.

Lemma wp_root {A} s (k : Z -> M img A) (Q : A -> ctx -> img -> Prop) c :
  fs_ok s [] -> (forall s', fs_ok s' (expect []) -> wp (k ROOTINO) Q c s') ->
  wp (let* rootino := ialloc T_DIR in
      assert_ (rootino =? ROOTINO) ;;;
      iappend rootino (dirent [46] (xshort rootino)) ;;;
      iappend rootino (dirent [46; 46] (xshort rootino)) ;;;
      k rootino) Q c s.
Proof.
  intros Hok HQ. apply wp_bind, (wp_ialloc s []); [done|unfold NINODES; cbn; lia|unfold T_DIR; lia|]. intros s1 Hok1.
  apply wp_bind, wp_ret, wp_bind, (wp_iappend s1 [(T_DIR, [])] 0 T_DIR []); [done|done|easy| |now apply dirent_u8; repeat constructor|].
  { rewrite (fs_ok_free _ _ Hok1). easy. }
  intros s2 Hok2. apply wp_bind, (wp_iappend s2 [(T_DIR, dirent [46] 1)] 0 T_DIR (dirent [46] 1)); [exact Hok2|done|easy| |now apply dirent_u8; repeat constructor|].
  { rewrite (fs_ok_free _ _ Hok2). easy. }
  intros s3 Hok3. apply HQ. exact Hok3.
Qed.

(** The files of the image, with the root directory padded to whole blocks. *)
Definition image_files (files : list hostfile) : list (Z * list Z) :=
  (T_DIR, root_data files ++ padding (length (root_data files))) :: ((fun f => (T_FILE, mjoin (hf_reads f))) <$> files).

Lemma wp_mkfs (files : list hostfile) :
  Forall host_ok files -> Z.of_nat (length files) + 1 < NINODES -> blocks_of (expect files) <= nblocks ->
  (Z.of_nat (length files) + 2) mod 32 <> 0 ->
  wp (mkfs files) (fun _ _ s => image_ok s (image_files files)) (Ctx [] []) img0.
Proof.
  intros Hh Hlen Hroom Hmod. unfold mkfs. apply wp_bind, wp_modify, wp_clear. intros s0 Hok0.
  apply (wp_root s0); [done|]. intros s1 Hok1. apply wp_bind, (wp_files files s1); [done..|]. intros s2 Hok2.
  apply wp_bind, (wp_fix_root s2 ((fun f => (T_FILE, mjoin (hf_reads f))) <$> files) T_DIR (root_data files)); [exact Hok2| |].
  { rewrite length_root_data, (Z.mul_comm 16). change BSIZE with (32 * 16). rewrite Z.mul_mod_distr_r by lia. lia. }
  intros s3 Hok3. apply wp_bind, wp_get, (wp_mkfs_balloc s3 _ _ _ Hok3). intros s4 HV. apply (final_image s3 s4 _ Hok3 HV).
  constructor; [done|]. apply Forall_fmap, Forall_true. done.
Qed.

(** Mkfs ends, and makes an image that the kernel's file system can use: for
    files that fit on the disk, the kernel reads the superblock mkfs wrote, the log
    is empty, the bitmap marks exactly the blocks up to the last one in use, and the
    root directory and each file are well-formed files of the kernel ([file_inv]),
    with the entries and the bytes of the files, and without a block in common. *)
Theorem mkfs_image (files : list hostfile) :
  Forall host_ok files -> Z.of_nat (length files) + 1 < NINODES -> blocks_of (expect files) <= nblocks ->
  (Z.of_nat (length files) + 2) mod 32 <> 0 ->
  wp (mkfs files) (fun _ _ s => image_ok s (image_files files)) (Ctx [] []) img0.
Proof. exact (wp_mkfs files). Qed.

(** An image of two files, one of them a user program of two reads. *)
Module Image.
Definition files : list hostfile :=
  [HostFile (bytes "README") [bytes "xv6"]; HostFile (bytes "_cat") [repeat 144 512; [195]]].

Lemma mkfs_image_witness :
  wp (mkfs files) (fun _ _ s => image_ok s (image_files files)) (Ctx [] []) img0.
Proof.
  apply mkfs_image.
  - repeat (apply Forall_cons; split); [..|done]; split; try apply (bool_decide_unpack _); vm_compute; done.
  - reflexivity.
  - vm_compute. done.
  - vm_compute. done.
Defined.
End Image.
