(* ===== verification/FsMount.v ===== *)
(** From the image that mkfs makes to the bytes that the kernel reads: mounting
    (iinit and initlog), the lookup of a path from the root, and readi, each proved
    about its own code elsewhere, together. *)
From S2P Require Import Prelude Monad Mem Mmu Cstring Digits Sleeplock Disk Bio Bcache Log LogProps LogCrash Fs FsTrans.
From S2P Require Import FsAlloc FsData FsFile FsRw FsInode FsWrite FsRefine FsIcache FsDir Mkfs MkfsProps.

(** * ilock, iunlock and iput *)

Lemma iset_iset i f g s p : icache s !! i = Some p -> iset i f (iset i g s) = iset i (fun _ => f (g p)) s.
Proof.
  intros Hp. unfold iset. cbn. f_equal. apply list_eq. intros j. destruct (decide (i = j)) as [<-|Hne].
  - rewrite !list_lookup_alter_eq, Hp. done.
  - now rewrite !list_lookup_alter_ne.
Qed.

(** The entry that ilock fills in from the disk. *)
Definition from_disk (V : Z -> block) (s : fsst) (p : inode) : inode :=
  iset_valid true (dinode_load (V (IBLOCK (i_inum p) (fs_sb s))) (dinode_off (i_inum p)) (iset_locked true p)).

Section Inodes.
Context {fuel : Fuel} (fuel_pos : (0 < wakeups)%nat).

Lemma wp_ilock_load s bs V i p (Q : unit -> ctx -> fsst -> Prop) c :
  held c = [] -> tr s bs V [] -> layout s -> (length bs < NBUF)%nat -> icache s !! i = Some p ->
  0 < i_ref p -> i_locked p = false -> i_valid p = false -> i_dev p = 1 -> inum_ok s (i_inum p) -> i_type (from_disk V s p) <> 0 ->
  (forall c' s', held c' = [] -> tr s' bs V [] -> frame (iset i (fun _ => from_disk V s p) s) s' -> Q tt c' s') ->
  wp (ilock i) Q c s.
Proof.
  intros Hc T L Hroom Hp Hr Hlk Hv Hdev Hin Hty HQ. pose proof (IBLOCK_range s (i_inum p) L Hin) as Hib.
  pose proof (lo_disk s L). pose proof (lo_bmap s L). pose proof (ls_start _ _ (tr_log _ _ _ _ T)) as Hst.
  pose proof (lo_logsize s L) as Hsz. unfold LOGSIZE, MAXOPBLOCKS, bmapblock in *. destruct c as [h w]. cbn in Hc. subst h.
  unfold ilock. apply wp_bind, wp_gets. rewrite (iof_lookup _ _ _ Hp), (proj2 (Z.ltb_ge _ _)) by lia.
  apply wp_bind. destruct wakeups as [|k] eqn:Ek; [lia|]. apply wp_acquiresleep; [apply not_elem_of_nil|cbn; now rewrite (iof_lookup _ _ _ Hp)|].
  cbn [sl_set fsst_locks]. set (s1 := iset i (iset_locked true) s).
  assert (Hp1 : icache s1 !! i = Some (iset_locked true p)) by (unfold s1, iset; cbn; now rewrite list_lookup_alter_eq, Hp).
  apply wp_bind, wp_gets. rewrite (iof_lookup _ _ _ Hp1). cbn [i_valid iset_locked]. rewrite Hv. apply wp_bind, wp_gets.
  cbn [i_dev i_inum iset_locked]. change (fs_sb s1) with (fs_sb s). rewrite Hdev. apply wp_bind.
  eapply (wp_fbread ltac:(rewrite Ek; lia) s1 bs V []); [done|now apply tr_iset|apply not_elem_of_nil| |right; cbn; lia|].
  { change (disksize (bio_of s1)) with (disksize (bio_of s)). lia. }
  intros b s2 T2 F2. apply wp_bind. eapply wp_fdata; [exact T2|left|].
  apply wp_bind, wp_modify, wp_bind. set (s3 := iset i _ s2). eapply (wp_fbrelse s3); [done|apply tr_iset, T2|done|].
  intros c4 s4 Hc4 T4 F4. apply wp_bind, wp_modify. set (s5 := iset i _ s4).
  assert (Es5 : frame (iset i (fun _ => from_disk V s p) s) s5).
  { apply (frame_trans _ (iset i (iset_valid true) s3)); [|now apply frame_iset]. unfold s3.
    apply (frame_iset i (dinode_load (V (IBLOCK (i_inum p) (fs_sb s))) (dinode_off (i_inum p)))) in F2.
    apply (frame_iset i (iset_valid true)) in F2. unfold s1 in F2. rewrite (iset_iset i _ _ _ p Hp) in F2.
    rewrite (iset_iset_const i (iset_valid true)) in F2. exact F2. }
  apply wp_bind, wp_gets. rewrite (frame_iof i _ _ Es5), iof_const, decide_True by (done || now rewrite Hp).
  rewrite (proj2 (Z.eqb_neq _ _)) by done. apply wp_ret, HQ; [done|now apply tr_iset|done].
Qed.

Lemma wp_iunlock s i p (Q : unit -> ctx -> fsst -> Prop) c :
  held c = [] -> icache s !! i = Some p -> 0 < i_ref p -> i_locked p = true ->
  (forall c', held c' = [] -> Q tt c' (iset i (fun _ => iset_locked false p) s)) -> wp (iunlock i) Q c s.
Proof.
  intros Hc Hp Hr Hlk HQ. destruct c as [h w]. cbn in Hc. subst h. unfold iunlock. apply wp_bind, wp_holdingsleep; [apply not_elem_of_nil|].
  cbn [sl_locked fsst_locks]. apply wp_bind, wp_gets. rewrite (iof_lookup _ _ _ Hp), Hlk, (proj2 (Z.ltb_ge _ _)) by lia. cbn [negb orb].
  apply wp_releasesleep; [apply not_elem_of_nil..|]. cbn [sl_set fsst_locks].
  replace (iset i (iset_locked false) s) with (iset i (fun _ => iset_locked false p) s); [now apply HQ|].
  rewrite <- (iset_const i (iset_locked false) s) by now rewrite Hp. now rewrite (iof_lookup _ _ _ Hp).
Qed.

(** iunlockput of the only reference to a file that has links. *)
Lemma wp_iunlockput s i p (Q : unit -> ctx -> fsst -> Prop) c :
  held c = [] -> icache s !! i = Some p -> 0 < i_ref p -> i_locked p = true -> i_nlink p <> 0 ->
  (forall c', held c' = [] -> Q tt c' (iset i (fun _ => iset_ref (i_ref p - 1) (iset_locked false p)) s)) -> wp (iunlockput i) Q c s.
Proof.
  intros Hc Hp Hr Hlk Hnl HQ. unfold iunlockput. apply wp_bind, (wp_iunlock s i p); [done..|]. intros c1 Hc1.
  set (s1 := iset i _ s). assert (E : iof i s1 = iset_locked false p) by (unfold s1; rewrite iof_const, decide_True by (done || now rewrite Hp); done).
  apply wp_iput_ref; [done|done|unfold s1; apply icache_some; now rewrite Hp|now rewrite E|now rewrite E|].
  rewrite E. intros c2 Hc2. unfold s1. rewrite iset_iset_const. now apply HQ.
Qed.
End Inodes.

(** * The root directory that mkfs makes *)

Lemma dirents_cons de l : length de = 16%nat -> dirents (de ++ l) = de :: dirents l.
Proof.
  intros Hde. apply list_eq. intros k. rewrite dirents_lookup, length_app, Hde.
  replace ((16 + length l) / 16)%nat with (S (length l / 16)) by (rewrite (Nat.add_comm 16); change (length l + 16)%nat with (length l + 1 * 16)%nat; rewrite Nat.div_add by lia; lia).
  destruct k as [|k]; cbn [lookup list_lookup].
  - rewrite decide_True by lia. f_equal. change (16 * Z.of_nat 0) with 0. unfold bytes_at.
    change (Z.to_nat 0) with 0%nat. rewrite drop_0. change (Z.to_nat 16) with 16%nat. now rewrite take_app_length'.
  - fold (dirents l !! k). rewrite dirents_lookup. destruct (decide (k < length l / 16)%nat), (decide (S k < S (length l / 16))%nat); try lia; [|done].
    f_equal. unfold bytes_at. replace (Z.to_nat (16 * Z.of_nat (S k))) with (16 + Z.to_nat (16 * Z.of_nat k))%nat by lia.
    now rewrite <- drop_drop, drop_app_length'.
Qed.

(** The name that a file gets in the directory. *)
Definition fname (f : hostfile) : list Z := cname (skip_underscore (hf_name f)).

Lemma is_name_dirent nm name inum : is_u16 inum -> inum <> 0 -> is_name nm (dirent name inum) = bool_decide (cname name = cname nm).
Proof.
  intros Hi Hz. unfold is_name, is_empty. rewrite de_inum_dirent, de_name_dirent by done. now rewrite (proj2 (Z.eqb_neq _ _)).
Qed.

Lemma scan_entries nm files l inum off j f :
  0 < inum -> inum + Z.of_nat (length files) < 65536 -> files !! j = Some f -> fname f = cname nm ->
  (forall j' g, (j' < j)%nat -> files !! j' = Some g -> fname g <> cname nm) ->
  exists o, scan (is_name nm) (dirents (dir_entries inum files ++ l)) off = Some (dirent (skip_underscore (hf_name f)) (inum + Z.of_nat j), o).
Proof.
  intros Hi. revert inum off j Hi. induction files as [|g files IH]; intros inum off j Hi Hlen Hj Hnm Hother; [done|].
  cbn [dir_entries length] in *. rewrite <- app_assoc, dirents_cons by apply length_dirent. cbn [scan].
  assert (Hu : is_u16 inum) by (unfold is_u16; lia). rewrite is_name_dirent by (done || lia).
  destruct j as [|j].
  - injection Hj as ->. rewrite bool_decide_eq_true_2 by done. exists off. now rewrite Z.add_0_r.
  - rewrite bool_decide_eq_false_2 by (apply (Hother 0%nat); [lia|done]).
    destruct (IH (inum + 1) (off + DIRENT_SIZE) j) as (o & ->); try done; try lia; [intros j' g' Hj' Hg'; apply (Hother (S j')); [lia|done]|].
    exists o. do 2 f_equal. f_equal. lia.
Qed.

(** The names of the root directory, with . and .. *)
Definition names (files : list hostfile) : list (list Z) := [46] :: [46; 46] :: (fname <$> files).

Lemma lookup_root files l nm j f :
  NoDup (names files) -> Z.of_nat (length files) + 1 < NINODES -> files !! j = Some f -> fname f = cname nm ->
  exists o, dir_lookup (root_data files ++ l) nm = Some (ino (S j), o).
Proof.
  intros Hnd Hlen Hj Hnm. unfold dir_lookup, root_data. rewrite <- !app_assoc, !dirents_cons by apply length_dirent. cbn [scan].
  unfold names in Hnd. apply NoDup_cons in Hnd as [Hn1 [Hn2 Hnd]%NoDup_cons].
  assert (Hin : cname nm ∈ fname <$> files) by (rewrite <- Hnm; apply list_elem_of_fmap_2; now apply (list_elem_of_lookup_2 _ j)).
  unfold NINODES in Hlen. rewrite !is_name_dirent by (done || unfold ROOTINO; lia).
  rewrite !bool_decide_eq_false_2; [|change (cname [46; 46]) with [46; 46]; intros E; apply Hn2; now rewrite E|change (cname [46]) with [46]; intros E; apply Hn1; right; now rewrite E].
  destruct (scan_entries nm files l 2 (0 + DIRENT_SIZE + DIRENT_SIZE) j f) as (o & ->); try done; try lia.
  - intros j' g Hj' Hg E. assert (j' = j); [|lia]. apply (NoDup_lookup _ j' j (cname nm) Hnd); [|rewrite list_lookup_fmap, Hj; cbn; now rewrite Hnm].
    rewrite list_lookup_fmap, Hg. cbn. now rewrite E.
  - exists o. rewrite de_inum_dirent; [do 2 f_equal; unfold ino; lia|]. unfold is_u16. apply lookup_lt_Some in Hj. lia.
Qed.

(** skipelem of a path with one element. *)
Lemma span_elem_all el : 47 ∉ el -> span_elem el = (el, []).
Proof.
  induction el as [|b el IH]; [done|]. rewrite not_elem_of_cons. intros [Hb Hel]. cbn. rewrite (proj2 (Z.eqb_neq _ _)) by (unfold SLASH; lia).
  now rewrite IH.
Qed.

Lemma skipelem_one el : 47 ∉ el -> 0 ∉ el -> el <> [] ->
  exists nm, skipelem (47 :: el) (replicate 14 0) = Some ([], nm) /\ cname nm = cname el.
Proof.
  intros Hs Hz Hne. unfold skipelem. cbn [skip_slashes]. rewrite Z.eqb_refl.
  assert (E : skip_slashes el = el).
  { destruct el as [|b el]; [done|]. apply not_elem_of_cons in Hs as [Hb _]. cbn. now rewrite (proj2 (Z.eqb_neq _ _)) by (unfold SLASH; lia). }
  rewrite E. destruct el as [|b el]; [done|]. set (e := b :: el) in *. rewrite span_elem_all by done. eexists. split; [reflexivity|].
  unfold cname. destruct (Z.leb_spec DIRSIZ (Z.of_nat (length e))) as [Hl|Hl]; unfold DIRSIZ in Hl.
  - rewrite set_bytes_all by (rewrite length_take, length_replicate; lia). now rewrite take_take.
  - assert (Hz' : Forall (fun b => b <> 0) e) by (apply Forall_forall; intros x Hx ->; done).
    assert (Es : set_bytes (replicate 14 0) 0 e = e ++ replicate (14 - length e) 0).
    { unfold set_bytes. replace 14%nat with (length e + (14 - length e))%nat at 1 by lia. rewrite replicate_add. apply list_inserts_0_r. now rewrite length_replicate. }
    rewrite Es. unfold aset. rewrite Nat2Z.id, list_insert_id.
    + rewrite take_ge, cut0_pad, take_ge by (done || rewrite ?length_app, ?length_replicate; lia).
      rewrite <- (app_nil_r e) at 2. symmetry. apply (cut0_pad e 0). done.
    + rewrite lookup_app_r, Nat.sub_diag by lia. now destruct (14 - length e)%nat eqn:E14; [lia|].
Qed.

(** * Mounting *)

(** The sectors of the image, and the kernel's file system when it starts. *)
Definition sectors_of (im : img) : list block := V im <$> zrange 1000.
Definition boot_fs (b : bst) : fsst := Fsst (log0 b) (Superblock 0 0 0 0 0 0 0) (replicate NINODE inode0).

Lemma brep_pointwise s V V' D H : (forall n, V n = V' n) -> brep s V D H -> brep s V' D H.
Proof. intros E [A1 A2 A3 A4 A5 A6 A7 A8 A9]. split; try done; intros; rewrite <- E; auto. Qed.

Lemma sectors_at im n : 0 <= n < 1000 -> aget [] (sectors_of im) n = V im n.
Proof.
  intros Hn. unfold aget, sectors_of. rewrite list_lookup_fmap. destruct (zrange 1000 !! Z.to_nat n) as [x|] eqn:E.
  - apply zrange_lookup in E as [-> _]. cbn. f_equal. lia.
  - apply lookup_ge_None in E. rewrite length_zrange in E. lia.
Qed.

Section Mount.
Variables (im : img) (F : list (Z * list Z)).
Hypothesis Him : image_ok im F.
Abbreviation d := (sectors_of im).

Lemma length_sectors : length d = 1000%nat.
Proof. unfold sectors_of. now rewrite length_fmap, length_zrange. Qed.

Lemma sectors_ok : Forall block_ok d.
Proof. apply Forall_fmap, Forall_forall. intros n Hn%elem_of_zrange. cbn. apply Him. unfold FSSIZE. lia. Qed.

Lemma image_disk_ok : disk_ok 2 30 d.
Proof.
  assert (E1 : superblock_of (blk_at d 1) = sb) by (unfold blk_at; rewrite sectors_at by lia; apply Him).
  assert (E2 : blk_at d 2 = zeros) by (unfold blk_at; rewrite sectors_at by lia; apply (ig_log _ _ Him); lia).
  assert (E3 : hdr_blocks zeros = []) by reflexivity.
  split; rewrite ?E1, ?E2, ?E3, ?length_sectors; try done; [apply sectors_ok|constructor|now intros x ?%elem_of_nil].
Qed.

Context {fuel : Fuel} (fuel_pos : (0 < wakeups)%nat).

Lemma iset_boot i b : iset i (iset_locked false) (boot_fs b) = boot_fs b.
Proof.
  unfold iset, boot_fs. cbn [fs_log fs_sb icache]. f_equal. apply list_eq. intros j.
  destruct (decide (i = j)) as [<-|Hne]; [|now rewrite list_lookup_alter_ne].
  rewrite list_lookup_alter_eq. destruct (replicate NINODE inode0 !! i) eqn:E; [|done]. now apply lookup_replicate in E as [-> _].
Qed.

Lemma wp_iinit b (Q : unit -> ctx -> fsst -> Prop) c :
  held c = [] -> brep b (V im) ∅ [] -> disk b = d ->
  (forall c' b', held c' = [] -> brep b' (V im) ∅ [] -> disk b' = d -> trace b' = trace b -> Q tt c' (set_sb sb (boot_fs b'))) ->
  wp (Fs.iinit 1) Q c (boot_fs b).
Proof.
  intros Hc R Hd HQ. unfold Fs.iinit. apply wp_bind. apply (wp_for _ _ (fun _ c' s => c' = c /\ s = boot_fs b)).
  - done.
  - intros i l c' s (-> & ->). unfold initsleeplock. apply wp_modify. split; [done|]. apply iset_boot.
  - intros c' s (-> & ->). apply wp_bind, wp_zoom. cbn [fs_log boot_fs].
    assert (Hsz : disksize b = 1000) by (unfold disksize; now rewrite Hd, length_sectors).
    eapply wp_mono; [apply (wp_readsb fuel_pos (log0 b) (V im)); [done|done|cbn; lia]|]. cbv beta.
    intros r c1 g1 (Hc1 & -> & b1 & -> & R1 & W1). apply wp_modify. rewrite (ig_super _ _ Him).
    apply (HQ c1 b1); [done|done|..].
    + pose proof (wr_disk _ _ _ W1) as E. cbn in E. now rewrite E.
    + pose proof (wr_trace _ _ _ W1) as E. cbn in E. rewrite E. apply app_nil_r.
Qed.

(** The file system after iinit, initlog and begin_op: it shows the image, and no
    inode is cached. *)
Record mounted (s : fsst) : Prop := {
  mo_tr : tr s [] (V im) [];
  mo_sb : fs_sb s = sb;
  mo_start : lg_start (fs_log s) = 2;
  mo_size : lg_size (fs_log s) = 30;
  mo_disk : disksize (bio_of s) = 1000
}.

Lemma wp_mount b (Q : unit -> ctx -> fsst -> Prop) c :
  held c = [] -> brep b (V im) ∅ [] -> disk b = d -> trace b = [] ->
  (forall c' s, held c' = [] -> mounted s -> icache s = replicate NINODE inode0 -> Q tt c' s) ->
  wp (Fs.iinit 1 ;;; inlog (Log.initlog 1) ;;; inlog Log.begin_op) Q c (boot_fs b).
Proof.
  intros Hc R Hd Ht HQ. apply wp_bind, wp_iinit; [done..|]. intros c1 b1 Hc1 R1 Hd1 Ht1. apply wp_bind, wp_zoom.
  eapply wp_mono; [apply (wp_initlog_view fuel_pos 2 30 d (V im)); [done|apply image_disk_ok| |done|done|congruence]|].
  { intros n Hn. rewrite length_sectors in Hn. unfold blk_at. now rewrite sectors_at by lia. }
  cbv beta. intros _ c2 g2 (Hc2 & E1 & E2 & E3 & E4 & _ & R2 & L2 & E5 & E6). apply wp_zoom, (wp_begin_op fuel_pos); [done|done|cbn [fs_log set_log]; rewrite E3, E5; done|]. cbn [fs_log set_log]. rewrite E5.
  assert (Hsz : disksize (lg_bio g2) = 1000) by (unfold disksize; now rewrite E4, length_dapply, length_sectors).
  assert (Ez : blk_at d 2 = zeros) by (unfold blk_at; rewrite sectors_at by lia; apply (ig_log _ _ Him); lia).
  apply HQ; [done| |done]. split; cbn [fs_log set_log set_outstanding set_sb lg_bio lg_start lg_size fs_sb boot_fs]; try done.
  split; cbn [fs_log set_log set_outstanding lg_bio lg_outstanding].
  - destruct L2. now split.
  - eapply brep_pointwise; [|exact R2]. intros n. unfold recover_ws. rewrite Ez. change (hdr_blocks zeros) with (@nil Z).
    cbn. unfold vset. destruct (Z.eqb_spec n 2) as [->|]; [|done]. rewrite (ig_log _ _ Him) by lia. reflexivity.
  - intros b' n' d' Hin. now apply elem_of_nil in Hin.
  - done.
Qed.

Lemma mounted_layout s : mounted s -> layout s.
Proof.
  intros [T E1 E2 E3 E4]. split; rewrite ?E1, ?E2, ?E3, ?E4; rewrite ?sb_eq; cbn [sb_size sb_inodestart sb_ninodes sb_bmapstart]; done || (unfold LOGSIZE, MAXOPBLOCKS, IPB, BSIZE, DINODE_SIZE; cbn; lia).
Qed.

Lemma blocks_of_nonneg G : 0 <= blocks_of G.
Proof.
  induction G as [|f G IH]; [done|]. cbn [blocks_of]. pose proof (cost_nonneg (length f.2)). lia.
Qed.

Lemma mounted_meta s : mounted s -> meta_used s (V im).
Proof.
  intros [T E1 E2 E3 E4] m Hm. unfold used, bmapblock in *. rewrite E1 in *. rewrite (ig_bitmap _ _ Him).
  - pose proof (blocks_of_nonneg F). rewrite sb_eq in Hm. cbn [sb_bmapstart] in Hm. change nmeta with 59. apply Z.ltb_lt. lia.
  - rewrite sb_eq in Hm. cbn [sb_bmapstart] in Hm. unfold BPB, BSIZE. lia.
Qed.

(** An entry of the cache that iget has just made, when ilock has filled it in. *)
Lemma loaded_inode s i p :
  mounted s -> i_ref p = 1 -> i_dev p = 1 -> i_inum p = ino i -> (i < length F)%nat ->
  from_disk (V im) s p = inode_at im (ino i).
Proof.
  intros [T E1 E2 E3 E4] Hr Hd Hi HF. unfold from_disk, inode_at. rewrite E1, Hi. unfold iset_valid, dinode_load, inode_key. cbn. now rewrite Hr, Hd, Hi.
Qed.
Lemma mounted_frame s s' i f : mounted s -> tr s' [] (V im) [] -> frame (iset i f s) s' -> mounted s'.
Proof. intros [T E1 E2 E3 E4] T' [F1 F2 F3 F4 F5 F6 F7]. cbn in *. split; [done|congruence..]. Qed.

Lemma mounted_iset s i f : mounted s -> mounted (iset i f s).
Proof. intros [T E1 E2 E3 E4]. split; [now apply tr_iset|done..]. Qed.

(** A new entry of iget, for the file [k] of the image. *)
Definition fresh_entry (k : nat) : inode := iset_valid false (iset_ref 1 (iset_key 1 (ino k) inode0)).

Lemma wp_ilock_image s i k t cc (Q : unit -> ctx -> fsst -> Prop) c :
  held c = [] -> mounted s -> icache s !! i = Some (fresh_entry k) -> F !! k = Some (t, cc) -> t <> 0 ->
  (forall c' s', held c' = [] -> mounted s' -> frame (iset i (fun _ => inode_at im (ino k)) s) s' -> Q tt c' s') -> wp (ilock i) Q c s.
Proof.
  intros Hc Hm Hi Hk Ht HQ. pose proof Hm as [T E1 E2 E3 E4].
  destruct (ig_file _ _ Him s k t cc E1 E4 Hk) as (Hf & Hty & _ & _).
  pose proof (loaded_inode s k (fresh_entry k) Hm eq_refl eq_refl eq_refl (lookup_lt_Some _ _ _ Hk)) as El.
  eapply (wp_ilock_load fuel_pos s [] (V im) i (fresh_entry k)); rewrite ?El; try done.
  - now apply mounted_layout.
  - unfold NBUF. cbn. lia.
  - exact (fi_inum _ _ _ Hf).
  - congruence.
  - intros c' s' Hc' T' Fr. apply HQ; [done|now apply (mounted_frame s s' i (fun _ => inode_at im (ino k)))|done].
Qed.

(** The file [k], when it is the entry [i] of the cache. *)
Lemma image_view s i k t cc :
  mounted s -> icache s !! i = Some (inode_at im (ino k)) -> F !! k = Some (t, cc) -> fs_view s [] (V im) [i].
Proof.
  intros Hm Hi Hk. pose proof Hm as [T E1 E2 E3 E4]. destruct (ig_file _ _ Him s k t cc E1 E4 Hk) as (Hf & _).
  split; [done|now apply mounted_layout|now apply mounted_meta|split].
  - intros j ->%list_elem_of_singleton. rewrite (iof_lookup _ _ _ Hi), Hi. eauto.
  - intros j1 j2 ->%list_elem_of_singleton ->%list_elem_of_singleton. done.
Qed.
End Mount.

(** * Opening a file by its name *)

Section Open.
Context {fuel : Fuel} `{Devices fsst} (fuel_pos : (0 < wakeups)%nat).
Variables (im : img) (files : list hostfile).
Hypothesis Him : image_ok im (image_files files).
Hypothesis Hlen : Z.of_nat (length files) + 1 < NINODES.
Hypothesis Hmod : (Z.of_nat (length files) + 2) mod 32 <> 0.
Hypothesis Hnames : NoDup (names files).
Abbreviation root := (root_data files ++ padding (length (root_data files))).

Lemma root_whole : whole root.
Proof.
  unfold whole. rewrite length_app, Nat2Z.inj_add.
  assert (Hm : Z.of_nat (length (root_data files)) mod BSIZE <> 0).
  { rewrite length_root_data, (Z.mul_comm 16). change BSIZE with (32 * 16). rewrite Z.mul_mod_distr_r by lia. lia. }
  destruct (length_padding _ Hm) as (-> & _ & _). change BSIZE with (32 * 16). rewrite Z.mul_assoc. now apply Z.mod_mul.
Qed.

(** The root directory, in an empty cache. *)
Lemma wp_iget_root s (Q : nat -> ctx -> fsst -> Prop) c :
  held c = [] -> mounted im s -> icache s = replicate NINODE inode0 ->
  (forall i c' s', held c' = [] -> mounted im s' -> (i < NINODE)%nat -> icache s' = <[i := fresh_entry 0]> (replicate NINODE inode0) -> Q i c' s') ->
  wp (iget ROOTDEV ROOTINO) Q c s.
Proof.
  intros Hc Hm Hic HQ. apply wp_iget; [done|exists 0%nat, inode0; rewrite Hic; split; [done|now right]|].
  intros i p q c' Hp Hg _ Hc'. rewrite Hic in Hp. pose proof (lookup_replicate_1 _ _ _ _ Hp) as [-> Hi].
  destruct Hg as [[(K & _) _]|[_ ->]]; [done|]. apply HQ; [done|now apply mounted_iset|done|].
  unfold iset. cbn [icache]. rewrite Hic. symmetry. apply list_insert_alter.
Qed.

(** A cache with one inode. *)
Lemma one_lookup i q j p : <[i := q]> (replicate NINODE inode0) !! j = Some p -> j = i /\ p = q \/ j <> i /\ p = inode0.
Proof.
  destruct (decide (i = j)) as [<-|Hne].
  - intros Hp. destruct (decide (i < NINODE)%nat).
    + rewrite list_lookup_insert_eq in Hp by now rewrite length_replicate. injection Hp as <-. now left.
    + apply lookup_lt_Some in Hp. rewrite length_insert, length_replicate in Hp. lia.
  - rewrite list_lookup_insert_ne by done. intros [-> _]%lookup_replicate. right. done.
Qed.

Lemma cache_one s i q : icache s = <[i := q]> (replicate NINODE inode0) -> 0 <= i_ref q -> cache_ok s.
Proof.
  intros E Hq. split; rewrite E.
  - intros j p [[-> ->]|[_ ->]]%one_lookup; done.
  - intros j k p r [[-> ->]|[_ ->]]%one_lookup [[-> ->]|[_ ->]]%one_lookup; done.
Qed.

Lemma one_room s i q inum : icache s = <[i := q]> (replicate NINODE inode0) -> iget_room 1 inum s.
Proof.
  intros E. set (j := if decide (i = 0%nat) then 1%nat else 0%nat). exists j, inode0. rewrite E. split; [|now right].
  rewrite list_lookup_insert_ne; [unfold j; now destruct (decide (i = 0%nat))|]. unfold j. destruct (decide (i = 0%nat)); lia.
Qed.

(** What dirlookup of the root leaves in the cache. *)
Lemma got_new s s' i i' k :
  icache s = <[i := inode_at im (ino 0)]> (replicate NINODE inode0) -> (i < NINODE)%nat -> ino k <> ino 0 ->
  got_inode s s' [i] i' (ino k) -> i' <> i /\ icache s' !! i' = Some (fresh_entry k) /\ icache s' !! i = Some (inode_at im (ino 0)).
Proof.
  intros E Hi Hk G. destruct (gi_some _ _ _ _ _ G) as [p Hp]. pose proof (gi_got _ _ _ _ _ G) as Hg. rewrite (iof_lookup _ _ _ Hp) in Hg.
  pose proof (fr_icache _ _ (gi_frame _ _ _ _ _ G)) as Ei. unfold iset in Ei. cbn [icache] in Ei.
  rewrite E in Hp. destruct (one_lookup _ _ _ _ Hp) as [[-> ->]|[Hne ->]].
  - exfalso. destruct Hg as [[(_ & _ & K) _]|[K _]]; [now apply Hk|done].
  - destruct Hg as [[(K & _) _]|[_ Eq]]; [done|]. split_and!; [done|..]; rewrite Ei, E.
    + rewrite list_lookup_alter_eq, Hp. cbn. now rewrite Eq.
    + rewrite list_lookup_alter_ne by done. apply list_lookup_insert_eq. now rewrite length_replicate.
Qed.

Lemma wp_namei s j f (Q : option nat -> ctx -> fsst -> Prop) c :
  let el := skip_underscore (hf_name f) in
  held c = [] -> mounted im s -> icache s = replicate NINODE inode0 -> files !! j = Some f -> 47 ∉ el -> 0 ∉ el -> el <> [] ->
  (forall i c' s', held c' = [] -> mounted im s' -> icache s' !! i = Some (fresh_entry (S j)) -> Q (Some i) c' s') ->
  wp (FsData.namei None (47 :: el)) Q c s.
Proof.
  intros el Hc Hm Hic Hj Hs Hz Hne HQ. destruct (skipelem_one el Hs Hz Hne) as (nm & Esk & Ecn).
  unfold FsData.namei, namex. apply wp_bind, wp_bind. change (47 =? SLASH) with true. cbv iota.
  apply wp_iget_root; [done|done|done|]. intros i c1 s1 Hc1 Hm1 Hi Hic1.
  cbn [length namex_from]. rewrite Esk. apply wp_bind.
  assert (Hi1 : icache s1 !! i = Some (fresh_entry 0)) by (rewrite Hic1; apply list_lookup_insert_eq; now rewrite length_replicate).
  eapply (wp_ilock_image im _ Him fuel_pos s1 i 0 T_DIR root); [done|done|done|done|done|]. intros c2 s2 Hc2 Hm2 Fr2.
  pose proof (fr_icache _ _ Fr2) as Hic2. unfold iset in Hic2. cbn [icache] in Hic2. rewrite Hic1, <- list_insert_alter, list_insert_insert_eq in Hic2.
  assert (Hi2 : icache s2 !! i = Some (inode_at im (ino 0))) by (rewrite Hic2; apply list_lookup_insert_eq; now rewrite length_replicate).
  destruct (ig_file _ _ Him s2 0%nat T_DIR root (mo_sb _ _ Hm2) (mo_disk _ _ Hm2) eq_refl) as (_ & Hty & Hnl & Hcont).
  apply wp_bind, wp_gets. rewrite (iof_lookup _ _ _ Hi2), Hty, Z.eqb_refl. cbn [negb andb]. apply wp_bind.
  destruct (lookup_root files (padding (length (root_data files))) nm j f Hnames Hlen Hj) as (o & Elk); [unfold fname; now rewrite Ecn|].
  assert (Hlt : (0 < i_ref (inode_at im (ino 0)))) by done.
  eapply (wp_dirlookup fuel_pos s2 [] (V im) [i] i nm); rewrite ?(iof_lookup _ _ _ Hi2), ?Hcont; try done.
  - now apply (image_view im _ Him fuel_pos s2 i 0 T_DIR root).
  - left.
  - unfold NBUF. cbn. lia.
  - now apply (cache_one s2 i (inode_at im (ino 0))).
  - intros k ->%list_elem_of_singleton. now rewrite (iof_lookup _ _ _ Hi2).
  - apply root_whole.
  - unfold dir_room. rewrite Elk. now apply (one_room s2 i (inode_at im (ino 0))).
  - rewrite Elk. intros i' c3 s3 Hc3 Hv3 G. destruct (got_new s2 s3 i i' (S j)) as (Hne3 & Hi3' & Hi3); [done|done|unfold ino; lia|done|].
    assert (Hm3 : mounted im s3) by (apply (mounted_frame im s2 s3 i' (fun _ => iof i' s3)); [done|apply Hv3|apply G]).
    apply wp_bind, (wp_iunlockput fuel_pos s3 i (inode_at im (ino 0))); [done|done|done|done|lia|]. intros c4 Hc4.
    set (s4 := iset i _ s3). assert (Hi4 : icache s4 !! i' = Some (fresh_entry (S j))) by (unfold s4; rewrite icache_iset, decide_False; done).
    assert (Hend : forall n, wp (namex_from n i' [] false nm) (fun r c' s' => wp (ret (fst <$> r)) Q c' s') c4 s4).
    { intros [|n]; apply wp_ret, wp_ret, HQ; done || now apply mounted_iset. }
    apply Hend.
Qed.
End Open.

(** * The whole way *)

(** What the kernel does when it starts with the disk (forkret), and when the first
    process opens a file and reads from it (sys_open and sys_read). *)
Definition first_read {fuel : Fuel} `{Devices fsst} (path l : list Z) (off n : Z) : M fsst (option (list Z * Z)) :=
  (Fs.iinit 1 ;;; inlog (Log.initlog 1) ;;; inlog Log.begin_op) ;;;
  let* r := FsData.namei None path in
  match r with
  | None => ret None
  | Some ip => ilock ip ;;; let* x := readi ip to_local l off n in ret (Some x)
  end.

Lemma skip_underscore_in x name : x ∈ skip_underscore name -> x ∈ name.
Proof. destruct name as [|b name]; [done|]. cbn. destruct (b =? 95); [|done]. now right. Qed.

(** C9: the kernel reads what mkfs wrote: for every file given to mkfs, a kernel that
    starts on the image finds it under its name in the root directory (without a
    leading underscore), and a read of any range gives the bytes of the file, cut at
    its end.  Nothing on the way panics or runs out of steps: mkfs, the cache, the
    recovery of the (empty) log, the lookup of the path and the read.  The files
    have distinct names, sizes and a number that fit the image, and the entries
    of the root directory do not fill their last block exactly (where the size
    mkfs gives the directory is a block too large). *)
Theorem mkfs_boot_reads (fuel : Fuel) `{Devices fsst} (files : list hostfile) (j : nat) (f : hostfile) (l : list Z) (off n : Z) :
  (0 < wakeups)%nat -> Forall host_ok files -> Z.of_nat (length files) + 1 < NINODES -> blocks_of (expect files) <= nblocks ->
  (Z.of_nat (length files) + 2) mod 32 <> 0 -> NoDup (names files) ->
  files !! j = Some f -> 0 ∉ hf_name f -> skip_underscore (hf_name f) <> [] -> is_u32 off -> is_u32 n ->
  wp (mkfs files) (fun _ _ im => forall c b, binit (Ctx [] []) (boot_bufs (sectors_of im)) = Ret tt c b ->
    wp (first_read (47 :: skip_underscore (hf_name f)) l off n) (fun r _ _ =>
      r = Some (match readi_spec (mjoin (hf_reads f)) off n with
                | None => (l, -1)
                | Some bs => (set_bytes l 0 bs, Z.of_nat (length bs))
                end)) c (boot_fs b)) (Ctx [] []) img0.
Proof.
  intros Hfuel Hh Hlen Hroom Hmod Hnd Hj Hz Hne Ho Hn. eapply wp_mono; [now apply wp_mkfs|]. cbv beta. intros _ _ im Him c b Hb.
  destruct (brep_boot_view (sectors_of im) (V im) c b) as (Hc & R & Ed & Et); [now apply (sectors_ok im (image_files files))| |done|].
  { intros k Hk. rewrite length_sectors in Hk. now rewrite sectors_at by lia. }
  unfold first_read. apply wp_bind, (wp_mount im _ Him Hfuel); [done..|]. intros c1 s1 Hc1 Hm1 Hic1. apply wp_bind.
  assert (Hf : host_ok f) by (rewrite Forall_lookup in Hh; eauto).
  apply (wp_namei Hfuel im files Him Hlen Hmod Hnd s1 j f); [done|done|done|done|..|done|].
  { intros Hs%skip_underscore_in. now apply (ho_name _ Hf). }
  { intros Hs%skip_underscore_in. done. }
  intros i c2 s2 Hc2 Hm2 Hi2. assert (HF : image_files files !! S j = Some (T_FILE, mjoin (hf_reads f))) by (unfold image_files; rewrite lookup_cons_ne_0 by done; cbn [Nat.pred]; now rewrite list_lookup_fmap, Hj).
  apply wp_bind, (wp_ilock_image im _ Him Hfuel s2 i (S j) T_FILE (mjoin (hf_reads f))); [done|done|done|done|done|]. intros c3 s3 Hc3 Hm3 Fr3.
  destruct (ig_file _ _ Him s3 (S j) T_FILE _ (mo_sb _ _ Hm3) (mo_disk _ _ Hm3) HF) as (Hfi & _ & _ & Hcont).
  assert (Hi3 : iof i s3 = inode_at im (ino (S j))) by (rewrite (frame_iof i _ _ Fr3), iof_const, decide_True by (done || now rewrite Hi2); done).
  apply wp_bind, (wp_readi Hfuel s3 [] (V im)); rewrite ?Hi3; [done|apply Hm3|now apply (mounted_layout im)|done|unfold NBUF; cbn; lia|done|done|].
  intros c4 s4 _ _ _. rewrite Hcont. apply wp_ret. done.
Qed.

(** The two files of the sample image. *)
Module Booted.
#[local] Instance fuel : Fuel := 1%nat.
#[local] Instance no_devices : Devices fsst := {| dev_read _ := None; dev_write _ := None |}.

Lemma mkfs_boot_reads_witness :
  wp (mkfs Image.files) (fun _ _ im => forall c b, binit (Ctx [] []) (boot_bufs (sectors_of im)) = Ret tt c b ->
    wp (first_read (bytes "/cat") (replicate 4 0) 510 4) (fun r _ _ => r = Some ([144; 144; 195; 0], 3)) c (boot_fs b)) (Ctx [] []) img0.
Proof.
  eapply wp_mono; [apply (mkfs_boot_reads fuel Image.files 1 (HostFile (bytes "_cat") [repeat 144 512; [195]]) (replicate 4 0) 510 4)|].
  - vm_compute. lia.
  - repeat (apply Forall_cons; split); [..|done]; split; try apply (bool_decide_unpack _); vm_compute; done.
  - reflexivity.
  - vm_compute. done.
  - vm_compute. done.
  - apply (bool_decide_unpack _). vm_compute. exact I.
  - reflexivity.
  - apply (bool_decide_unpack _). vm_compute. exact I.
  - done.
  - done.
  - done.
  - cbv beta. intros _ _ im Him c b Hb. eapply wp_mono; [exact (Him c b Hb)|]. cbv beta. intros r _ _ ->. vm_compute. reflexivity.
Defined.
End Booted.
