(* ===== verification/File.v ===== *)
(** file.c and pipealloc and pipeclose of pipe.c: the table of open files, and
    the file system as the process code sees it. *)
From S2P Require Import Prelude Monad Mem Mmu Kalloc FileIface Ring Pipe Sleeplock Disk Bio Log Fs.
From S2P Require Import FsData Kbd Console.

(** * file.h *)

Inductive ftype : Type := FD_NONE | FD_PIPE | FD_INODE.
#[global] Instance ftype_eq_dec : EqDecision ftype.
Proof. solve_decision. Defined.

(** struct file.  [f_pipe] is the address of the pipe, [f_ip] the index of the
    inode in the cache. *)
Record file : Type := File {
  f_type : ftype;
  f_ref : Z;
  f_readable : bool;
  f_writable : bool;
  f_pipe : Z;
  f_ip : nat;
  f_off : Z
}.
Definition file0 : file := File FD_NONE 0 false false 0 0 0.

Definition fset_type v f := File v (f_ref f) (f_readable f) (f_writable f) (f_pipe f) (f_ip f) (f_off f).
Definition fset_ref v f := File (f_type f) v (f_readable f) (f_writable f) (f_pipe f) (f_ip f) (f_off f).
Definition fset_mode r w f := File (f_type f) (f_ref f) r w (f_pipe f) (f_ip f) (f_off f).
Definition fset_pipe v f := File (f_type f) (f_ref f) (f_readable f) (f_writable f) v (f_ip f) (f_off f).
Definition fset_ip v f := File (f_type f) (f_ref f) (f_readable f) (f_writable f) (f_pipe f) v (f_off f).
Definition fset_off v f := File (f_type f) (f_ref f) (f_readable f) (f_writable f) (f_pipe f) (f_ip f) v.

(** * State *)

(** The file system, [ftable], the pipes by the address of their page, and the
    console. *)
Record fio : Type := Fio {
  io_fs : fsst;
  ftable : list file;
  pipes : gmap Z pipe;
  io_con : console
}.
Definition set_iofs v s := Fio v (ftable s) (pipes s) (io_con s).
Definition set_ftable v s := Fio (io_fs s) v (pipes s) (io_con s).
Definition set_pipes v s := Fio (io_fs s) (ftable s) v (io_con s).
Definition set_con v s := Fio (io_fs s) (ftable s) (pipes s) v.

Definition fof (f : nat) (s : fio) : file := default file0 (ftable s !! f).
Definition fset (f : nat) (g : file -> file) (s : fio) : fio := set_ftable (alter g f (ftable s)) s.
Definition pipe_of (p : Z) (s : fio) : pipe := default (pipe_init []) (pipes s !! p).

(** These run beside the page allocator, which pipes take their memory from. *)
Abbreviation FM := (M (kmem * fio)).
Definition inio {A} (m : M fio A) : FM A := zoom snd (fun s k => (fst k, s)) m.
Definition inmem {A} (m : M kmem A) : FM A := zoom fst (fun m k => (m, snd k)) m.
Definition infss {A} (m : M fsst A) : FM A := inio (zoom io_fs set_iofs m).
Definition inpipe {A} (p : Z) (m : M pipe A) : FM A :=
  inio (zoom (pipe_of p) (fun v s => set_pipes (<[p := v]> (pipes s)) s) m).
Definition fmod (f : nat) (g : file -> file) : FM unit := inio (modify (fset f g)).

#[global] Instance fio_fs : HasFs (kmem * fio) := fun A m => infss m.

Section File.
Context {fuel : Fuel}.
Variable kend : Z.

(** * pipe.c: closing *)

Definition pipe_close (p : Z) (writable : bool) : FM unit :=
  let* both := inpipe p (pipeclose p writable) in
  when both (
    inio (modify (fun s => set_pipes (delete p (pipes s)) s)) ;;;
    inmem (kfree kend p)).

(** * file.c *)

Fixpoint find_free (l : list file) (i : nat) : option nat :=
  match l with
  | [] => None
  | f :: l' => if f_ref f =? 0 then Some i else find_free l' (S i)
  end.

Definition filealloc : FM (option nat) :=
  inio (
    acquire LFtable ;;;
    let* l := gets ftable in
    match find_free l 0 with
    | Some f => modify (fset f (fset_ref 1)) ;;; release LFtable ;;; ret (Some f)
    | None => release LFtable ;;; ret None
    end).

Definition filedup (f : nat) : FM nat :=
  inio (
    acquire LFtable ;;;
    let* r := gets (fun s => f_ref (fof f s)) in
    if r <? 1 then panic "filedup"
    else modify (fset f (fset_ref (r + 1))) ;;; release LFtable ;;; ret f).

Definition fileclose (f : nat) : FM unit :=
  inio (acquire LFtable) ;;;
  let* r := inio (gets (fun s => f_ref (fof f s))) in
  if r <? 1 then panic "fileclose"
  else
    fmod f (fset_ref (r - 1)) ;;;
    if 0 <? r - 1 then inio (release LFtable)
    else
      let* ff := inio (gets (fof f)) in
      fmod f (fset_ref 0) ;;;
      fmod f (fset_type FD_NONE) ;;;
      inio (release LFtable) ;;;
      match f_type ff with
      | FD_PIPE => pipe_close (f_pipe ff) (f_writable ff)
      | FD_INODE =>
          infss (inlog begin_op) ;;;
          infss (iput (f_ip ff)) ;;;
          infss (inlog end_op)
      | FD_NONE => ret tt
      end.

Definition filestat (f : nat) : FM (option stat) :=
  let* ff := inio (gets (fof f)) in
  match f_type ff with
  | FD_INODE =>
      infss (ilock (f_ip ff)) ;;;
      let* st := infss (stati (f_ip ff)) in
      infss (iunlock (f_ip ff)) ;;;
      ret (Some st)
  | _ => ret None
  end.

(** * pipe.c: allocation *)

(** Offset of [data] in struct pipe, after its spin lock. *)
Definition PIPE_DATA : Z := 52.

(** The files of the two ends, or [None] for -1. *)
Definition pipealloc : FM (option (nat * nat)) :=
  let bad (f0 f1 : option nat) : FM (option (nat * nat)) :=
    (match f0 with Some f => fileclose f | None => ret tt end) ;;;
    (match f1 with Some f => fileclose f | None => ret tt end) ;;;
    ret None in
  let* f0 := filealloc in
  match f0 with
  | None => bad None None
  | Some g0 =>
      let* f1 := filealloc in
      match f1 with
      | None => bad f0 None
      | Some g1 =>
          let* p := inmem kalloc in
          if p =? 0 then bad f0 f1
          else
            let* junk := inmem (gets (fun k => lds (k_mem k) (p + PIPE_DATA) 512)) in
            inio (modify (fun s => set_pipes (<[p := pipe_init junk]> (pipes s)) s)) ;;;
            fmod g0 (fset_type FD_PIPE) ;;;
            fmod g0 (fset_mode true false) ;;;
            fmod g0 (fset_pipe p) ;;;
            fmod g1 (fset_type FD_PIPE) ;;;
            fmod g1 (fset_mode false true) ;;;
            fmod g1 (fset_pipe p) ;;;
            ret (Some (g0, g1))
      end
  end.

(** * What the process code calls *)

(** The bytes of a C string up to its terminator. *)
Fixpoint cstr (l : list Z) : list Z :=
  match l with
  | [] => []
  | b :: l' => if b =? 0 then [] else b :: cstr l'
  end.

(** No device is reached through a path. *)
#[local] Instance no_devices : Devices (kmem * fio) := {|
  dev_read _ := None;
  dev_write _ := None
|}.

Definition fio_ops : FileOps fio := {|
  FileIface.filedup := filedup;
  FileIface.fileclose := fileclose;
  FileIface.idup i := infss (Fs.idup i);
  FileIface.iput i := infss (Fs.iput i);
  FileIface.namei path := FsData.namei None (cstr path);
  FileIface.begin_op := infss (inlog begin_op);
  FileIface.end_op := infss (inlog end_op);
  FileIface.iinit dev := infss (Fs.iinit dev);
  FileIface.initlog dev := infss (inlog (Log.initlog dev))
|}.
End File.
