(* ===== verification/Refs.v ===== *)
(** The accounting of open files: every process has a table of descriptors
    (proc.h, [ofile]) that point into the table of open files (file.c, [ftable]),
    whose entries count the descriptors that point at them.  The kernel code of a
    process changes one side at a time, and gives up the CPU in between; this file
    says what a process may leave behind when it does. *)
From S2P Require Import Prelude Monad Mem Mmu Cstring Kalloc Vm Hw FileIface Proc.
From S2P Require Import Ring Pipe Sleeplock Disk Bio Log Fs FsData Kbd Console File.

Abbreviation ks := (kst fio).

(** * Counting *)

(** The count and the type of an open file, and the descriptors of a process. *)
Definition fref (f : nat) (k : ks) : Z := f_ref (fof f (ks_fs k)).
Definition ftyp (f : nat) (k : ks) : ftype := f_type (fof f (ks_fs k)).
Definition fds (p : nat) (k : ks) : list (option nat) := ofile (pget p k).

(** How many of the descriptors [l] point at [f]. *)
Fixpoint uses (f : nat) (l : list (option nat)) : Z :=
  match l with
  | [] => 0
  | o :: l' => (if decide (o = Some f) then 1 else 0) + uses f l'
  end.
(** The same for all processes of a table. *)
Fixpoint total (f : nat) (t : list proc) : Z :=
  match t with
  | [] => 0
  | p :: t' => uses f (ofile p) + total f t'
  end.

Lemma uses_nonneg f l : 0 <= uses f l.
Proof. induction l as [|o l IH]; simpl; [lia|]. destruct (decide _); lia. Qed.

Lemma uses_insert f l i o o' :
  l !! i = Some o ->
  uses f (<[i := o']> l) = uses f l - (if decide (o = Some f) then 1 else 0) + (if decide (o' = Some f) then 1 else 0).
Proof.
  revert i. induction l as [|x l IH]; intros [|i] E; simpl in *; [done|done| |].
  - injection E as ->. repeat destruct (decide _); lia.
  - rewrite (IH i E). repeat destruct (decide _); lia.
Qed.

Lemma uses_in f l i : l !! i = Some (Some f) -> 1 <= uses f l.
Proof.
  revert i. induction l as [|o l IH]; intros [|i] E; simpl in *; [done|done| |].
  - injection E as ->. rewrite decide_True by done. pose proof (uses_nonneg f l). lia.
  - specialize (IH i E). destruct (decide _); lia.
Qed.

Lemma uses_none f l : (forall i g, l !! i <> Some (Some g)) -> uses f l = 0.
Proof.
  induction l as [|o l IH]; intros H; [done|]. simpl. rewrite decide_False, IH; [done| |].
  - intros i g. exact (H (S i) g).
  - intros ->. exact (H 0%nat f eq_refl).
Qed.

Lemma total_nonneg f t : 0 <= total f t.
Proof. induction t as [|p t IH]; simpl; [lia|]. pose proof (uses_nonneg f (ofile p)). lia. Qed.

Lemma total_alter f t i g q :
  t !! i = Some q -> total f (alter g i t) = total f t - uses f (ofile q) + uses f (ofile (g q)).
Proof.
  revert i. induction t as [|x t IH]; intros [|i] E; [done|done| |].
  - injection E as ->. cbn. lia.
  - change (alter g (S i) (x :: t)) with (x :: alter g i t). cbn [total]. rewrite (IH i E). lia.
Qed.

Lemma total_ext f t t' : ofile <$> t = ofile <$> t' -> total f t = total f t'.
Proof.
  revert t'. induction t as [|p t IH]; intros [|p' t'] E; [done|done|done|].
  injection E as E1 E2. cbn. rewrite E1. f_equal. now apply IH.
Qed.

(** * The states between stretches *)

(** The states of a process that exists and has not exited. *)
Definition live_state (s : procstate) : bool :=
  match s with SLEEPING | RUNNABLE | RUNNING => true | UNUSED | EMBRYO | ZOMBIE => false end.

Definition alive (p : nat) (k : ks) : Prop := exists q, ptable k !! p = Some q /\ live_state (state q) = true.

(** The tables have their sizes; a slot without a running process (other than
    [x], which is being filled) has no open descriptor; a file that is not in use
    has no type. *)
Record wf (x : option nat) (k : ks) : Prop := {
  wf_procs : length (ptable k) = NPROC;
  wf_fds : forall p q, ptable k !! p = Some q -> length (ofile q) = NOFILE;
  wf_files : length (ftable (ks_fs k)) = NFILE;
  wf_dead : forall p q, ptable k !! p = Some q -> x <> Some p -> live_state (state q) = false ->
    forall i f, ofile q !! i <> Some (Some f);
  wf_none : forall f, fref f k = 0 -> ftyp f k = FD_NONE
}.

Definition bal (f : nat) (k : ks) : Z := total f (ptable k) - fref f k.

(** A descriptor that a process is closing: the count is already lowered. *)
Definition owed (d : option nat) (f : nat) : Z := if decide (d = Some f) then 1 else 0.

(** What process [p] may do to the others. *)
Definition guar (p : nat) (k k' : ks) : Prop :=
  forall q, q <> p -> alive q k -> alive q k' /\ fds q k' = fds q k.

(** Process [p] runs since it took the CPU in state [s0] owing [d0]; by now its
    descriptors exceed the counts by [e], and its share of each count is there. *)
Record running (x : option nat) (p : nat) (s0 : ks) (d0 : option nat) (e : nat -> Z) (s : ks) : Prop := {
  rn_wf : wf x s;
  rn_bal : forall f, bal f s - bal f s0 = e f - owed d0 f;
  rn_guar : guar p s0 s;
  rn_alive : alive p s;
  rn_share : forall f, uses f (fds p s) - e f <= fref f s
}.

(** The state in which it may give up the CPU, owing [d]. *)
Definition ready (p : nat) (s0 : ks) (d0 d : option nat) (s : ks) : Prop :=
  running None p s0 d0 (owed d) s /\ forall f, owed d f <= uses f (fds p s).

(** What it leaves, and what it finds when it continues. *)
Record handover (p : nat) (s0 : ks) (d0 : option nat) (s : ks) (d : option nat) : Prop := {
  ho_wf : wf None s;
  ho_bal : forall f, bal f s - bal f s0 = owed d f - owed d0 f;
  ho_guar : guar p s0 s;
  ho_own : forall f, owed d f <= uses f (fds p s)
}.
Record regain (p : nat) (d : option nat) (s s' : ks) : Prop := {
  rg_wf : wf None s';
  rg_alive : alive p s';
  rg_fds : fds p s' = fds p s;
  rg_share : forall f, uses f (fds p s') - owed d f <= fref f s'
}.

(** * Stretches of kernel code *)

(** [obeys p s0 d0 Q o]: whenever process [p] gives up the CPU it hands over as
    above, and goes on the same way from any state it may find later; if it
    returns, [Q] holds of the state and debt it last continued from, and of the
    result. *)
Fixpoint obeys {A} (p : nat) (s0 : ks) (d0 : option nat)
    (Q : ks -> option nat -> A -> ctx -> ks -> Prop) (o : outcome ks A) : Prop :=
  match o with
  | Ret a c s => Q s0 d0 a c s
  | Sleep _ _ s k => exists d, handover p s0 d0 s d /\ forall s', regain p d s s' -> obeys p s' d Q (k s')
  | Panic _ | OutOfFuel => True
  end.

Lemma obeys_mono {A} p s0 d0 (Q Q' : ks -> option nat -> A -> ctx -> ks -> Prop) o :
  obeys p s0 d0 Q o -> (forall s1 d1 a c s, Q s1 d1 a c s -> Q' s1 d1 a c s) -> obeys p s0 d0 Q' o.
Proof.
  revert s0 d0. induction o as [| |ch w s k IH|]; intros s0 d0; simpl; auto.
  intros (d & Hd & Hk) HQ. exists d. split; [done|]. intros s' H'. apply IH; auto.
Qed.

Lemma obeys_bind {A B} p s0 d0 (m : M ks A) (f : A -> M ks B) Q c s :
  obeys p s0 d0 (fun s1 d1 a c' s' => obeys p s1 d1 Q (f a c' s')) (m c s) -> obeys p s0 d0 Q (bind m f c s).
Proof.
  unfold bind. generalize (m c s). clear c s. intros o. revert s0 d0.
  induction o as [| |ch w s k IH|]; intros s0 d0; simpl; auto.
  intros (d & Hd & Hk). exists d. split; [done|]. intros s' H'. apply IH; auto.
Qed.

(** Code that leaves descriptors and counts alone. *)
Definition quiet {A} (p : nat) (m : M ks A) : Prop :=
  forall s0 d0 d c s, ready p s0 d0 d s ->
    obeys p s0 d0 (fun s1 d1 _ _ s' => ready p s1 d1 d s' /\ fds p s' = fds p s) (m c s).

Lemma quiet_bind {A B} p (m : M ks A) (f : A -> M ks B) :
  quiet p m -> (forall a, quiet p (f a)) -> quiet p (bind m f).
Proof.
  intros Hm Hf s0 d0 d c s Hs. apply obeys_bind. eapply obeys_mono; [exact (Hm s0 d0 d c s Hs)|].
  intros s1 d1 a c1 s2 [H1 E1]. eapply obeys_mono; [exact (Hf a s1 d1 d c1 s2 H1)|].
  intros s3 d3 b c3 s4 [H3 E3]. split; [done|congruence].
Qed.

Lemma quiet_ret {A} p (a : A) : quiet p (ret a).
Proof. intros s0 d0 d c s Hs. split; done. Qed.
Lemma quiet_gets {A} p (f : ks -> A) : quiet p (gets f).
Proof. intros s0 d0 d c s Hs. now split. Qed.
Lemma quiet_panic {A} p msg : quiet p (panic (A := A) msg).
Proof. done. Qed.
Lemma quiet_fuel {A} p : quiet p ((fun _ _ => OutOfFuel) : M ks A).
Proof. done. Qed.

Lemma quiet_for {B} p (l : list B) (f : B -> M ks unit) : (forall b, quiet p (f b)) -> quiet p (for_ l f).
Proof. intros Hf. induction l as [|b l IH]; simpl; [apply quiet_ret|]. apply quiet_bind; auto. Qed.

Lemma quiet_forb {A B} p (l : list B) (f : B -> M ks (option A)) k :
  (forall b, quiet p (f b)) -> quiet p k -> quiet p (forb l f k).
Proof.
  intros Hf Hk. induction l as [|b l IH]; simpl; [done|]. apply quiet_bind; [done|].
  intros [a|]; [apply quiet_ret|done].
Qed.

(** Stretches that neither sleep nor touch what is counted: a live process stays
    alive, a slot without one stays so. *)
Definition st_ok (a b : procstate) : Prop := live_state b = live_state a.

(** The tables of processes before and after. *)
Definition procs_ok (s s' : ks) : Prop :=
  Forall2 (fun q q' => ofile q' = ofile q /\ st_ok (state q) (state q')) (ptable s) (ptable s').

Record harmless (s s' : ks) : Prop := {
  hl_files : (fun f => (f_ref f, f_type f)) <$> ftable (ks_fs s') = (fun f => (f_ref f, f_type f)) <$> ftable (ks_fs s);
  hl_procs : procs_ok s s'
}.

Definition silent {A} (m : M ks A) : Prop :=
  forall c s, match m c s with
              | Ret _ _ s' => harmless s s'
              | Sleep _ _ _ _ => False
              | Panic _ | OutOfFuel => True
              end.

Lemma harmless_refl s : harmless s s.
Proof. split; [done|]. unfold procs_ok. apply Forall_Forall2_diag, Forall_true. intros q. now split. Qed.

Lemma harmless_trans s s' s'' : harmless s s' -> harmless s' s'' -> harmless s s''.
Proof.
  intros [F1 P1] [F2 P2]. split; [congruence|]. unfold procs_ok in *.
  revert P2. generalize (ptable s''). induction P1 as [|q q' l l' [E1 T1] _ IH]; intros l'' P2.
  - inversion P2. constructor.
  - destruct (Forall2_cons_inv_l _ _ _ _ P2) as (q'' & r & [E2 T2] & P & ->). constructor; [|now apply IH].
    unfold st_ok in *. split; congruence.
Qed.

Section Harmless.
Variables s s' : ks.
Hypothesis H : harmless s s'.

Lemma harmless_file f : fref f s' = fref f s /\ ftyp f s' = ftyp f s.
Proof.
  destruct H as [E _]. apply (f_equal (fun l => l !! f)) in E. rewrite !list_lookup_fmap in E.
  unfold fref, ftyp, fof. destruct (ftable (ks_fs s') !! f), (ftable (ks_fs s) !! f); simpl in *; [|discriminate..|done].
  injection E as -> ->. done.
Qed.

Lemma harmless_proc p q' : ptable s' !! p = Some q' ->
  exists q, ptable s !! p = Some q /\ ofile q' = ofile q /\ st_ok (state q) (state q').
Proof. intros E. destruct (Forall2_lookup_r _ _ _ _ _ (hl_procs _ _ H) E) as (q & Eq & ? & ?). eauto. Qed.

Lemma harmless_fds p : fds p s' = fds p s.
Proof.
  unfold fds, pget. destruct (ptable s' !! p) as [q'|] eqn:E.
  - destruct (harmless_proc p q' E) as (q & -> & Eo & _). exact Eo.
  - destruct (ptable s !! p) as [q|] eqn:E'; [|done].
    destruct (Forall2_lookup_l _ _ _ _ _ (hl_procs _ _ H) E') as (q' & Eq & _). congruence.
Qed.

Lemma harmless_alive p : alive p s <-> alive p s'.
Proof.
  split.
  - intros (q & E & L). destruct (Forall2_lookup_l _ _ _ _ _ (hl_procs _ _ H) E) as (q' & Eq & _ & T).
    exists q'. split; [done|]. now rewrite T.
  - intros (q' & E & L). destruct (harmless_proc p q' E) as (q & Eq & _ & T). exists q. split; [done|]. now rewrite <- T.
Qed.

Lemma harmless_bal f : bal f s' = bal f s.
Proof.
  unfold bal. rewrite (proj1 (harmless_file f)). f_equal. apply total_ext.
  pose proof (hl_procs _ _ H) as P. induction P as [|q q' l l' [E _] _ IH]; [done|]. cbn. congruence.
Qed.

Lemma harmless_wf x : wf x s -> wf x s'.
Proof.
  intros [W1 W2 W3 W4 W5]. split.
  - now rewrite <- (Forall2_length _ _ _ (hl_procs _ _ H)).
  - intros p q' E. destruct (harmless_proc p q' E) as (q & Eq & -> & _). eauto.
  - pose proof (f_equal length (hl_files _ _ H)) as E. rewrite !length_fmap in E. congruence.
  - intros p q' E Hx Hd. destruct (harmless_proc p q' E) as (q & Eq & Eo & T). rewrite Eo. apply (W4 p q Eq Hx).
    now rewrite <- T.
  - intros f. rewrite (proj1 (harmless_file f)), (proj2 (harmless_file f)). apply W5.
Qed.
End Harmless.

Lemma harmless_running x p s0 d0 e s s' : harmless s s' -> running x p s0 d0 e s -> running x p s0 d0 e s'.
Proof.
  intros H [W B G A S]. split.
  - now apply (harmless_wf s).
  - intros f. rewrite (harmless_bal _ _ H). apply B.
  - intros q Hq Ha. destruct (G q Hq Ha) as [A' E']. split; [now apply (harmless_alive _ _ H)|].
    now rewrite (harmless_fds _ _ H).
  - now apply (harmless_alive _ _ H).
  - intros f. rewrite (harmless_fds _ _ H), (proj1 (harmless_file _ _ H f)). apply S.
Qed.

Lemma harmless_ready p s0 d0 d s s' : harmless s s' -> ready p s0 d0 d s -> ready p s0 d0 d s'.
Proof.
  intros H [R O]. split; [now apply (harmless_running _ _ _ _ _ s)|]. intros f. rewrite (harmless_fds _ _ H). apply O.
Qed.

Lemma ready_handover p s0 d0 d s : ready p s0 d0 d s -> handover p s0 d0 s d.
Proof. intros [[W B G _ _] O]. now split. Qed.

Lemma regain_ready p s0 d0 d s s' : ready p s0 d0 d s -> regain p d s s' -> ready p s' d d s'.
Proof.
  intros [_ O] [W A E S]. split; [|intros f; rewrite E; apply O]. split; [done|lia|done|done|exact S].
Qed.

Lemma silent_quiet {A} p (m : M ks A) : silent m -> quiet p m.
Proof.
  intros H s0 d0 d c s Hs. specialize (H c s). destruct (m c s); simpl; [|done..].
  split; [now apply (harmless_ready _ _ _ _ s)|now apply harmless_fds].
Qed.

Lemma silent_bind {A B} (m : M ks A) (f : A -> M ks B) :
  silent m -> (forall a, silent (f a)) -> silent (bind m f).
Proof.
  intros Hm Hf c s. unfold bind. specialize (Hm c s). destruct (m c s) as [a c' s1| | |]; simpl; try done.
  specialize (Hf a c' s1). destruct (f a c' s1); try done. now apply (harmless_trans _ s1).
Qed.
Lemma silent_ret {A} (a : A) : silent (ret a).
Proof. intros c s. apply harmless_refl. Qed.
Lemma silent_gets {A} (f : ks -> A) : silent (gets f).
Proof. intros c s. apply harmless_refl. Qed.
Lemma silent_panic {A} msg : silent (panic (A := A) msg).
Proof. done. Qed.
Lemma silent_fuel {A} : silent ((fun _ _ => OutOfFuel) : M ks A).
Proof. done. Qed.
Lemma silent_modify f : (forall s, harmless s (f s)) -> silent (modify f).
Proof. intros H c s. apply H. Qed.
Lemma silent_acquire lk : silent (acquire lk).
Proof. intros c s. unfold acquire. destruct (decide _); [done|apply harmless_refl]. Qed.
Lemma silent_release lk : silent (release lk).
Proof. intros c s. unfold release. destruct (decide _); [apply harmless_refl|done]. Qed.
Lemma silent_for {B} (l : list B) (f : B -> M ks unit) : (forall b, silent (f b)) -> silent (for_ l f).
Proof. intros Hf. induction l as [|b l IH]; simpl; [apply silent_ret|]. apply silent_bind; auto. Qed.
Lemma silent_forb {A B} (l : list B) (f : B -> M ks (option A)) k :
  (forall b, silent (f b)) -> silent k -> silent (forb l f k).
Proof.
  intros Hf Hk. induction l as [|b l IH]; simpl; [done|]. apply silent_bind; [done|].
  intros [a|]; [apply silent_ret|done].
Qed.

(** ** Harmless assignments *)

Lemma harmless_same s s' : ftable (ks_fs s') = ftable (ks_fs s) -> ptable s' = ptable s -> harmless s s'.
Proof.
  intros E1 E2. split; [now rewrite E1|]. unfold procs_ok. rewrite E2. apply (hl_procs _ _ (harmless_refl s)).
Qed.

Lemma harmless_table s s' (f : nat -> proc -> proc) :
  ftable (ks_fs s') = ftable (ks_fs s) -> ptable s' = imap f (ptable s) ->
  (forall i q, ptable s !! i = Some q -> ofile (f i q) = ofile q /\ st_ok (state q) (state (f i q))) ->
  harmless s s'.
Proof.
  intros E1 E2 Hf. split; [now rewrite E1|]. unfold procs_ok. rewrite E2. apply Forall2_same_length_lookup_2; [now rewrite length_imap|].
  intros i q q' Eq. rewrite list_lookup_imap, Eq. simpl. intros [= <-]. now apply Hf.
Qed.

Lemma alter_imap {A} (g : A -> A) i (l : list A) :
  alter g i l = imap (fun j x => if decide (j = i) then g x else x) l.
Proof.
  apply list_eq. intros j. rewrite list_lookup_imap. destruct (decide (j = i)) as [->|Hne].
  - rewrite list_lookup_alter_eq. now destruct (l !! i).
  - rewrite list_lookup_alter_ne by congruence. now destruct (l !! j).
Qed.

(** Assignment to the fields of one process. *)
Lemma harmless_pset i f s :
  (forall q, ptable s !! i = Some q -> ofile (f q) = ofile q /\ st_ok (state q) (state (f q))) ->
  harmless s (pset i f s).
Proof.
  intros Hf. eapply harmless_table; [done|apply alter_imap|]. intros j q E. cbn beta.
  destruct (decide (j = i)) as [->|_]; [now apply Hf|]. now split.
Qed.

Lemma silent_pmod i f :
  (forall q, ofile (f q) = ofile q /\ st_ok (state q) (state (f q))) -> silent (pmod i f).
Proof. intros Hf. apply silent_modify. intros s. apply harmless_pset. intros q _. apply Hf. Qed.

Lemma harmless_wakeup1 ch s : harmless s (wakeup1 ch s).
Proof.
  eapply (harmless_table _ _ (fun _ => wake_one ch)); [done| |].
  - unfold wakeup1, set_ptable. simpl. apply list_eq. intros i. now rewrite list_lookup_imap, list_lookup_fmap.
  - intros i q _. unfold wake_one. destruct (decide _) as [[E _]|]; [|now split].
    split; [done|]. unfold st_ok. now rewrite E.
Qed.

Lemma harmless_wake_all w s : harmless s (wake_all w s).
Proof.
  revert s. induction w as [|ch w IH]; intros s; [apply harmless_refl|]. simpl.
  eapply harmless_trans; [apply harmless_wakeup1|apply IH].
Qed.

Lemma silent_wakeup ch : silent (wakeup ch).
Proof.
  apply silent_bind; [apply silent_acquire|intros []]. apply silent_bind; [|intros []; apply silent_release].
  apply silent_modify. intros s. apply harmless_wakeup1.
Qed.

(** Putting a live process to another live state. *)
Lemma harmless_state p v s (f : proc -> proc) :
  alive p s -> live_state v = true -> (forall q, ofile (f q) = ofile q /\ state (f q) = v) -> harmless s (pset p f s).
Proof.
  intros (q & E & L) Hv Hf. apply harmless_pset. intros q' E'. rewrite E in E'. injection E' as <-.
  destruct (Hf q) as [-> E2]. split; [done|]. unfold st_ok. congruence.
Qed.

(** ** Code of a part of the state *)

Lemma obeys_ozoom {S A} (gt : ks -> S) pt p (o : outcome S A) s0 d0 d s :
  (forall v k, harmless k (pt v k)) -> ready p s0 d0 d s ->
  obeys p s0 d0 (fun s1 d1 _ _ s' => ready p s1 d1 d s' /\ fds p s' = fds p s) (ozoom pt gt s o).
Proof.
  intros Hpt. revert s0 d0 s. induction o as [a c v|msg|ch w v k IH|]; intros s0 d0 s Hs; simpl; try done.
  - split; [|apply harmless_fds, Hpt]. eapply harmless_ready; [apply Hpt|exact Hs].
  - pose proof (harmless_ready _ _ _ _ _ _ (Hpt v s) Hs) as Hv. exists d. split; [now apply ready_handover|].
    intros s' Hr. pose proof (regain_ready _ _ _ _ _ _ Hv Hr) as Hs'.
    eapply obeys_mono; [exact (IH _ _ _ _ Hs')|]. intros s1 d1 b c s2 [H2 E2]. split; [done|].
    rewrite E2, (rg_fds _ _ _ _ Hr). apply harmless_fds, Hpt.
Qed.

Lemma quiet_zoom {S A} (gt : ks -> S) pt p (m : M S A) :
  (forall v k, harmless k (pt v k)) -> quiet p (zoom gt pt m).
Proof. intros Hpt s0 d0 d c s Hs. now apply obeys_ozoom. Qed.

Lemma quiet_inkm {A} p (m : M kmem A) : quiet p (inkm m).
Proof. apply quiet_zoom. intros v k. now apply harmless_same. Qed.
Lemma quiet_inhw {A} p (m : M hw A) : quiet p (inhw m).
Proof. apply quiet_zoom. intros v k. now apply harmless_same. Qed.

(** File-system code that keeps the counts and types of the open files. *)
Definition same_files (t t' : fio) : Prop :=
  (fun f => (f_ref f, f_type f)) <$> ftable t' = (fun f => (f_ref f, f_type f)) <$> ftable t.

Fixpoint okeep {A} (t : fio) (o : outcome (kmem * fio) A) : Prop :=
  match o with
  | Ret _ _ k => same_files t (snd k)
  | Sleep _ _ k r => same_files t (snd k) /\ forall k', okeep (snd k') (r k')
  | Panic _ | OutOfFuel => True
  end.
Definition keepf {A} (m : M (kmem * fio) A) : Prop := forall c k, okeep (snd k) (m c k).

Lemma okeep_trans {A} t t' (o : outcome (kmem * fio) A) : same_files t t' -> okeep t' o -> okeep t o.
Proof. unfold same_files. intros E. destruct o as [a c k| |ch w k r|]; simpl; [congruence|done| |done]. intros [H1 H2]. split; [congruence|done]. Qed.

Lemma keepf_bind {A B} (m : M (kmem * fio) A) (f : A -> M (kmem * fio) B) :
  keepf m -> (forall a, keepf (f a)) -> keepf (bind m f).
Proof.
  intros Hm Hf c k. unfold bind. specialize (Hm c k). revert Hm. generalize (snd k), (m c k). clear c k.
  intros t o. revert t. induction o as [a c k| |ch w k r IH|]; intros t; simpl; try done.
  - intros E. eapply okeep_trans; [exact E|apply Hf].
  - intros [E Hk]. split; [done|]. intros k'. apply IH, Hk.
Qed.

Lemma keepf_zoom {S A} (gt : (kmem * fio) -> S) pt (m : M S A) :
  (forall v k, same_files (snd k) (snd (pt v k))) -> keepf (zoom gt pt m).
Proof.
  intros Hpt c k. unfold zoom. generalize (m c (gt k)). intros o. revert k.
  induction o as [a c' v| |ch w v r IH|]; intros k; simpl; auto.
Qed.

Lemma keepf_inio {A} (m : M fio A) :
  (forall c t, match m c t with Ret _ _ t' => same_files t t' | Sleep _ _ _ _ => False | _ => True end) -> keepf (inio m).
Proof. intros H c k. unfold inio, zoom. specialize (H c (snd k)). destruct (m c (snd k)); done. Qed.

Lemma keepf_part {S A} (gt : fio -> S) pt (m : M S A) :
  (forall v t, same_files t (pt v t)) -> keepf (inio (zoom gt pt m)).
Proof.
  intros Hpt c k. unfold inio, zoom. generalize (m c (gt (snd k))). intros o. revert k.
  induction o as [a c' v| |ch w v r IH|]; intros k; simpl; auto.
Qed.
Lemma keepf_infss {A} (m : M fsst A) : keepf (infss m).
Proof. now apply keepf_part. Qed.
Lemma keepf_incon {A} (m : M console A) : keepf (inio (zoom io_con set_con m)).
Proof. now apply keepf_part. Qed.
Lemma keepf_inpipe {A} p (m : M pipe A) : keepf (inpipe p m).
Proof. now apply keepf_part. Qed.
Lemma keepf_inmem {A} (m : M kmem A) : keepf (inmem m).
Proof. now apply keepf_zoom. Qed.
Lemma keepf_gets {A} (g : fio -> A) : keepf (inio (gets g)).
Proof. now apply keepf_inio. Qed.
Lemma keepf_ret {A} (a : A) : keepf (ret a).
Proof. intros c k. done. Qed.
Lemma keepf_panic {A} msg : keepf (panic (A := A) msg).
Proof. intros c k. done. Qed.
Lemma keepf_modify g : (forall t, same_files t (g t)) -> keepf (inio (modify g)).
Proof. intros H. apply keepf_inio. intros c t. apply H. Qed.

Lemma keepf_fmod f g : (forall x, f_ref (g x) = f_ref x /\ f_type (g x) = f_type x) -> keepf (fmod f g).
Proof.
  intros Hg. apply keepf_modify. intros t. unfold same_files, fset, set_ftable. simpl.
  apply list_eq. intros i. rewrite !list_lookup_fmap. destruct (decide (i = f)) as [->|Hne].
  - rewrite list_lookup_alter_eq. destruct (ftable t !! f) as [x|]; simpl; [|done]. now destruct (Hg x) as [-> ->].
  - now rewrite list_lookup_alter_ne by congruence.
Qed.

(** The state after a stretch of such code. *)
Lemma harmless_put w v (k : ks) : same_files (ks_fs k) (snd v) -> harmless k (wake_all w (fs_put v k)).
Proof.
  intros E. eapply harmless_trans; [|apply harmless_wake_all]. split; [exact E|]. apply (hl_procs _ _ (harmless_refl k)).
Qed.

Lemma harmless_chan p v (k : ks) : harmless k (pset p (set_chan v) k).
Proof. apply harmless_pset. intros q _. now split. Qed.

Lemma obeys_olift {A} p (o : outcome (kmem * fio) A) s0 d0 d s :
  ready p s0 d0 d s -> okeep (ks_fs s) o ->
  obeys p s0 d0 (fun s1 d1 _ _ s' => ready p s1 d1 d s' /\ fds p s' = fds p s) (olift p s o).
Proof.
  revert s0 d0 s. induction o as [a c v|msg|ch w v k IH|]; intros s0 d0 s Hs; simpl; try done.
  - intros E. pose proof (harmless_put (woken c) v s E) as Hh.
    split; [now apply (harmless_ready _ _ _ _ s)|now apply harmless_fds].
  - intros [E Hk]. pose proof (harmless_put w v s E) as Hh. pose proof (harmless_ready _ _ _ _ _ _ Hh Hs) as H1.
    assert (H2 : harmless (wake_all w (fs_put v s))
                   (pset p (fun q => set_state SLEEPING (set_chan ch q)) (wake_all w (fs_put v s)))).
    { apply (harmless_state _ SLEEPING); [apply (rn_alive _ _ _ _ _ _ (proj1 H1))|done|done]. }
    pose proof (harmless_ready _ _ _ _ _ _ H2 H1) as H3. exists d. split; [now apply ready_handover|].
    intros s' Hr. pose proof (regain_ready _ _ _ _ _ _ H3 Hr) as H4.
    pose proof (harmless_chan p None s') as Hc. pose proof (harmless_ready _ _ _ _ _ _ Hc H4) as H5.
    eapply obeys_mono; [exact (IH _ _ _ _ H5 (Hk (fs_get (pset p (set_chan None) s'))))|]. intros s1 d1 b c s2 [H6 E6]. split; [done|].
    rewrite E6, (harmless_fds _ _ Hc), (rg_fds _ _ _ _ Hr), (harmless_fds _ _ H2). now apply harmless_fds.
Qed.

Lemma quiet_lift {A} p (m : M (kmem * fio) A) : keepf m -> quiet p (lift p m).
Proof. intros Hm s0 d0 d c s Hs. apply obeys_olift; [done|]. exact (Hm c (fs_get s)). Qed.

(** ** Giving up the CPU *)

Lemma quiet_sched p : quiet p (sched p).
Proof.
  intros s0 d0 d c s Hs. unfold sched. repeat (case_match; [done|]). exists d. split; [now apply ready_handover|].
  intros s' Hr. split; [now apply (regain_ready _ s0 d0 d s)|apply Hr].
Qed.

Lemma quiet_live p v (f : proc -> proc) :
  live_state v = true -> (forall q, ofile (f q) = ofile q /\ state (f q) = v) -> quiet p (pmod p f).
Proof.
  intros Hv Hf s0 d0 d c s Hs.
  assert (Hh : harmless s (pset p f s)) by (apply (harmless_state _ v); [apply (rn_alive _ _ _ _ _ _ (proj1 Hs))|done|done]).
  split; [now apply (harmless_ready _ _ _ _ s)|now apply harmless_fds].
Qed.

(** Stores to memory, and loads that may fault. *)
Lemma silent_kload a : silent (kload a).
Proof. intros c s. now apply harmless_same. Qed.
Lemma silent_kstore a w : silent (kstore a w).
Proof. intros c s. now apply harmless_same. Qed.

Create HintDb silent.
Create HintDb quiet.
Create HintDb keepf.
#[export] Hint Resolve silent_ret silent_gets silent_panic silent_fuel silent_acquire silent_release silent_wakeup
  silent_kload silent_kstore : silent.
#[export] Hint Resolve quiet_ret quiet_gets quiet_panic quiet_fuel quiet_sched quiet_inkm quiet_inhw : quiet.
#[export] Hint Resolve keepf_ret keepf_panic keepf_infss keepf_incon keepf_inpipe keepf_inmem keepf_gets : keepf.

(** Case analysis on an innermost [match]. *)
Ltac split_match :=
  match goal with
  | |- context [match ?x with _ => _ end] =>
      lazymatch x with context [match _ with _ => _ end] => fail | _ => destruct x end
  end.

(** One step through silent code, and through quiet code. *)
Ltac silent_step :=
  lazymatch goal with
  | |- silent (bind _ _) => apply silent_bind; [|intros]
  | |- silent (when ?b _) => unfold when; destruct b
  | |- silent (for_ _ _) => apply silent_for; intros
  | |- silent (forb _ _ _) => apply silent_forb; [intros|]
  | |- silent (pmod _ _) => apply silent_pmod; intros; split; reflexivity
  | |- silent (modify _) => apply silent_modify; intros; first [apply harmless_wakeup1|apply harmless_same; reflexivity]
  | |- silent (match ?x with _ => _ end) => destruct x
  | |- silent _ =>
      first [solve [eauto with silent]
            |intros ? ?; cbn beta; repeat split_match; first [exact I|apply harmless_refl|apply harmless_same; reflexivity]]
  end.
Ltac silent_steps := repeat (silent_step; cbn beta).

Ltac keepf_step :=
  lazymatch goal with
  | |- keepf (bind _ _) => apply keepf_bind; [|intros]
  | |- keepf (when ?b _) => unfold when; destruct b
  | |- keepf (match ?x with _ => _ end) => destruct x
  | |- keepf (fmod _ _) => apply keepf_fmod; intros; split; reflexivity
  | |- keepf _ => solve [eauto with keepf]
  end.
Ltac keepf_steps := repeat (keepf_step; cbn beta).

Ltac quiet_step :=
  lazymatch goal with
  | |- quiet _ (bind _ _) => apply quiet_bind; [|intros]
  | |- quiet _ (when ?b _) => unfold when; destruct b
  | |- quiet _ (for_ _ _) => apply quiet_for; intros
  | |- quiet _ (forb _ _ _) => apply quiet_forb; [intros|]
  | |- quiet _ (match ?x with _ => _ end) =>
      lazymatch x with context [match ?y with _ => _ end] => destruct y | _ => destruct x end
  | |- quiet _ (let _ := _ in _) => cbv zeta
  | |- quiet _ (fun _ _ => OutOfFuel) => apply quiet_fuel
  | |- quiet _ _ => first [solve [eauto with quiet] | apply quiet_lift; solve [keepf_steps]
                          | apply silent_quiet; solve [silent_steps]]
  end.
Ltac quiet_steps := repeat (quiet_step; cbn beta).

Lemma quiet_yield p : quiet p (yield p).
Proof. unfold yield. quiet_steps. now apply (quiet_live _ RUNNABLE). Qed.

Lemma quiet_sleep p ch lk : quiet p (sleep p ch lk).
Proof. unfold sleep. quiet_steps; now apply (quiet_live _ SLEEPING). Qed.
#[export] Hint Resolve quiet_yield quiet_sleep : quiet.

(** ** Code that does not sleep *)

Definition awake {S A} (m : M S A) : Prop :=
  forall c s, match m c s with Sleep _ _ _ _ => False | _ => True end.

Section Awake.
Context {S : Type}.
Lemma awake_bind {A B} (m : M S A) (f : A -> M S B) : awake m -> (forall a, awake (f a)) -> awake (bind m f).
Proof. intros Hm Hf c s. unfold bind. specialize (Hm c s). destruct (m c s); simpl; try done. apply Hf. Qed.
Lemma awake_ret {A} (a : A) : awake (S := S) (ret a).
Proof. done. Qed.
Lemma awake_gets {A} (f : S -> A) : awake (gets f).
Proof. done. Qed.
Lemma awake_modify f : awake (S := S) (modify f).
Proof. done. Qed.
Lemma awake_panic {A} msg : awake (S := S) (panic (A := A) msg).
Proof. done. Qed.
Lemma awake_acquire lk : awake (S := S) (acquire lk).
Proof. intros c s. unfold acquire. now destruct (decide _). Qed.
Lemma awake_release lk : awake (S := S) (release lk).
Proof. intros c s. unfold release. now destruct (decide _). Qed.
Lemma awake_wakeup ch : awake (S := S) (Monad.wakeup ch).
Proof. apply awake_bind; [apply awake_acquire|]. intros []. apply awake_bind; [done|]. intros []. apply awake_release. Qed.
Lemma awake_zoom {T A} (gt : S -> T) pt (m : M T A) : awake m -> awake (zoom gt pt m).
Proof. intros H c s. unfold zoom. specialize (H c (gt s)). now destruct (m c (gt s)). Qed.
Lemma awake_for {B} (l : list B) (f : B -> M S unit) : (forall b, awake (f b)) -> awake (for_ l f).
Proof. intros Hf. induction l as [|b l IH]; simpl; [done|]. apply awake_bind; auto. Qed.
Lemma awake_forb {A B} (l : list B) (f : B -> M S (option A)) k : (forall b, awake (f b)) -> awake k -> awake (forb l f k).
Proof. intros Hf Hk. induction l as [|b l IH]; simpl; [done|]. apply awake_bind; [done|]. now intros [a|]. Qed.
End Awake.

Create HintDb awake.
#[export] Hint Resolve awake_ret awake_gets awake_modify awake_panic awake_acquire awake_release awake_wakeup
  awake_zoom : awake.

Ltac awake_step :=
  lazymatch goal with
  | |- awake (bind _ _) => apply awake_bind; [|intros]
  | |- awake (when ?b _) => unfold when; destruct b
  | |- awake (for_ _ _) => apply awake_for; intros
  | |- awake (forb _ _ _) => apply awake_forb; [intros|]
  | |- awake (match ?x with _ => _ end) => destruct x
  | |- awake (fun _ _ => OutOfFuel) => exact (fun _ _ => I)
  | |- awake _ => solve [eauto with awake]
  end.
Ltac awake_steps := repeat (awake_step; cbn beta).

Lemma awake_kfree kend v : awake (kfree kend v).
Proof. unfold kfree. awake_steps. Qed.
Lemma awake_kalloc : awake kalloc.
Proof. unfold kalloc. awake_steps. Qed.
#[export] Hint Resolve awake_kfree awake_kalloc : awake.

Lemma silent_inkm {A} (m : M kmem A) : awake m -> silent (inkm m).
Proof. intros H c s. unfold inkm, zoom. specialize (H c (ks_km s)). destruct (m c (ks_km s)); [now apply harmless_same|done..]. Qed.

(** File-system code that neither sleeps nor touches counts. *)
Lemma obeys_lift_awake {A} x p s0 d0 e s c (m : M (kmem * fio) A) Q :
  awake m -> keepf m -> running x p s0 d0 e s ->
  (forall a c' s', harmless s s' -> running x p s0 d0 e s' -> Q s0 d0 a c' s') ->
  obeys p s0 d0 Q (lift p m c s).
Proof.
  intros Ha Hk R HQ. unfold lift. specialize (Ha c (fs_get s)). specialize (Hk c (fs_get s)).
  destruct (m c (fs_get s)) as [a c' v| | |]; simpl in *; try done.
  pose proof (harmless_put (woken c') v s Hk) as Hh. apply HQ; [done|]. now apply (harmless_running _ _ _ _ _ s).
Qed.

(** Silent code in the middle of a change. *)
Lemma obeys_silent {A} x p s0 d0 e s c (m : M ks A) Q :
  silent m -> running x p s0 d0 e s ->
  (forall a c' s', harmless s s' -> running x p s0 d0 e s' -> Q s0 d0 a c' s') ->
  obeys p s0 d0 Q (m c s).
Proof.
  intros Hm R HQ. specialize (Hm c s). destruct (m c s) as [a c' s'| | |]; simpl; try done.
  apply HQ; [done|]. now apply (harmless_running _ _ _ _ _ s).
Qed.

(** * Changes to counts and descriptors *)

Section Account.
Variables (p : nat) (s0 : ks) (d0 : option nat).

(** The count of one file. *)
Lemma running_file x e s s' f g y (e' : nat -> Z) :
  running x p s0 d0 e s -> ftable (ks_fs s) !! f = Some y ->
  ptable s' = ptable s -> ftable (ks_fs s') = alter g f (ftable (ks_fs s)) ->
  (f_ref (g y) = 0 -> f_type (g y) = FD_NONE) ->
  (forall h, e' h = e h - (if decide (h = f) then f_ref (g y) - f_ref y else 0)) ->
  running x p s0 d0 e' s'.
Proof.
  intros [[W1 W2 W3 W4 W5] B G A S] Ef Ep Et Hn He.
  assert (F : forall h, fof h (ks_fs s') = if decide (h = f) then g y else fof h (ks_fs s)).
  { intros h. unfold fof. rewrite Et. destruct (decide (h = f)) as [->|Hne].
    - now rewrite list_lookup_alter_eq, Ef.
    - now rewrite list_lookup_alter_ne by congruence. }
  assert (R : forall h, fref h s' = fref h s + (e h - e' h)).
  { intros h. rewrite He. unfold fref. rewrite F. destruct (decide (h = f)) as [->|]; [|lia].
    unfold fof. rewrite Ef. cbn. lia. }
  assert (P : forall q, pget q s' = pget q s) by (intros q; unfold pget; now rewrite Ep).
  split.
  - split; [now rewrite Ep|now rewrite Ep|now rewrite Et, length_alter|now rewrite Ep|].
    intros h. unfold fref, ftyp. rewrite F. destruct (decide (h = f)); [exact Hn|apply W5].
  - intros h. specialize (B h). unfold bal in *. rewrite R, Ep. lia.
  - intros q Hq Ha. destruct (G q Hq Ha) as [(r & Er & Lr) E]. split; [|unfold fds in *; now rewrite P].
    exists r. now rewrite Ep.
  - destruct A as (r & Er & Lr). exists r. now rewrite Ep.
  - intros h. unfold fds. rewrite P, R. specialize (S h). unfold fds in S. lia.
Qed.

(** A descriptor of process [j]: the running one, or one that is being made. *)
Section Fd.
Variables (x : option nat) (s s' : ks) (j : nat) (q : proc) (i : nat) (o o' : option nat).
Hypotheses (Ej : ptable s !! j = Some q) (Eo : ofile q !! i = Some o)
  (Ep : ptable s' = alter (fun r => set_ofile (<[i := o']> (ofile r)) r) j (ptable s)) (Et : ks_fs s' = ks_fs s).

Lemma fd_lookup r :
  ptable s' !! r = if decide (r = j) then Some (set_ofile (<[i := o']> (ofile q)) q) else ptable s !! r.
Proof.
  rewrite Ep. destruct (decide (r = j)) as [->|Hne]; [now rewrite list_lookup_alter_eq, Ej|].
  now rewrite list_lookup_alter_ne by congruence.
Qed.

Lemma fd_alive r : alive r s -> alive r s'.
Proof.
  intros (y & Ey & Ly). destruct (decide (r = j)) as [->|Hne].
  - rewrite Ej in Ey. injection Ey as <-. exists (set_ofile (<[i := o']> (ofile q)) q). split; [|done].
    now rewrite fd_lookup, decide_True.
  - exists y. split; [|done]. now rewrite fd_lookup, decide_False.
Qed.

Lemma fd_wf : wf x s -> alive j s \/ x = Some j -> wf x s'.
Proof.
  intros [W1 W2 W3 W4 W5] Hj. split.
  - rewrite Ep. now rewrite length_alter.
  - intros r y. rewrite fd_lookup. destruct (decide (r = j)) as [->|]; [|apply W2]. intros [= <-]. cbn.
    rewrite length_insert. exact (W2 _ _ Ej).
  - now rewrite Et.
  - intros r y. rewrite fd_lookup. destruct (decide (r = j)) as [->|]; [|apply W4]. intros [= <-] Hx Hd. exfalso.
    destruct Hj as [(z & Ez & Lz)|Hj]; [|done]. rewrite Ej in Ez. injection Ez as <-. cbn in Hd. congruence.
  - intros h. unfold ftyp, fref. rewrite Et. apply W5.
Qed.

Lemma running_fd e (e' : nat -> Z) :
  running x p s0 d0 e s -> j = p \/ (x = Some j /\ ~ alive j s /\ o = None) ->
  (forall h, e' h = e h - (if decide (o = Some h) then 1 else 0) + (if decide (o' = Some h) then 1 else 0)) ->
  running x p s0 d0 e' s'.
Proof.
  intros [W B G A S] Hj He.
  assert (U : forall h, uses h (<[i := o']> (ofile q)) = uses h (ofile q) + (e' h - e h)).
  { intros h. rewrite (uses_insert _ _ _ _ _ Eo), He. lia. }
  assert (T : forall h, fref h s' = fref h s) by (intros h; unfold fref; now rewrite Et).
  split.
  - apply fd_wf; [done|]. destruct Hj as [->|(? & _)]; [now left|now right].
  - intros h. specialize (B h). unfold bal in *. rewrite T, Ep, (total_alter _ _ _ _ _ Ej). cbn [ofile set_ofile].
    rewrite U. lia.
  - intros r Hr Ha. destruct (G r Hr Ha) as [A' E']. split; [now apply fd_alive|]. rewrite <- E'. unfold fds, pget.
    rewrite fd_lookup. destruct (decide (r = j)) as [->|]; [|done]. destruct Hj as [->|(_ & Hn & _)]; [done|]. contradiction.
  - now apply fd_alive.
  - intros h. rewrite T. specialize (S h). unfold fds, pget in *. rewrite fd_lookup. destruct (decide (p = j)) as [<-|Hne].
    + rewrite Ej in S. cbn in *. rewrite U. lia.
    + destruct Hj as [->|(_ & _ & ->)]; [done|]. rewrite He. cbn. rewrite decide_False by done. destruct (decide _); lia.
Qed.
End Fd.
End Account.
