(* ===== verification/Kfile.v ===== *)
(** file.c, continued: reading and writing an open file on behalf of a process.
    The bytes come from and go to the process's memory, the file may be a pipe,
    an inode or the console, and the process may be killed while it waits. *)
From S2P Require Import Prelude Monad Mem Mmu Cstring Kalloc Vm Hw FileIface Proc Signal Sysproc.
From S2P Require Import Ring Pipe Sleeplock Disk Bio Log Fs FsData Digits Kbd Console File.

Definition CONSOLE : Z := 1.

Section Kfile.
Context {fuel : Fuel}.
Variable kdata : Z.
(** The running process. *)
Variable cur : nat.
Abbreviation K := (M (kst fio)).

(** File-system code run by the process. *)
Definition file_op {A} (m : M (kmem * fio) A) : K A := lift cur m.
#[local] Instance k_fs : HasFs (kst fio) := fun A m => file_op (infss m).
#[local] Instance k_con : HasConsole (kst fio) := fun A m => file_op (inio (zoom io_con set_con m)).

(** [myproc()->killed]. *)
Definition is_killed : K bool := gets (fun k => negb (killed (pget cur k) =? 0)).

(** Copies to and from a virtual address; a fault panics. *)
Definition to_user (dst : Z) (_ : unit) (tot : Z) (bs : list Z) : K unit :=
  fun c k =>
    match vsts kdata (k_mem (ks_km k)) (h_cr3 (ks_hw k)) (u32 (dst + tot)) bs with
    | Some m => Ret tt c (set_km (set_mem (fun _ => m) (ks_km k)) k)
    | None => Panic "trap"
    end.
Definition from_user (src tot n : Z) : K (list Z) :=
  fun c k =>
    match vlds kdata (k_mem (ks_km k)) (h_cr3 (ks_hw k)) (u32 (src + tot)) (Z.to_nat n) with
    | Some bs => Ret bs c k
    | None => Panic "trap"
    end.

(** * console.c: the device *)

Definition consoleread {L} (ip : nat) (put : L -> Z -> list Z -> K L) (l : L) (n : Z) : K (L * Z) :=
  infs (iunlock ip) ;;;
  let* r := consoleread_locked is_killed wakeups put l n in
  infs (ilock ip) ;;;
  ret r.

Definition consolewrite (ip : nat) (fetch : Z -> Z -> K (list Z)) (n : Z) : K Z :=
  infs (iunlock ip) ;;;
  let* r := consolewrite_locked fetch n in
  infs (ilock ip) ;;;
  ret r.

(** [devsw] as [consoleinit] leaves it; the devices take the count as an
    [int]. *)
#[local] Instance devsw : Devices (kst fio) := {|
  dev_read major :=
    if major =? CONSOLE then Some (fun L ip put l n => consoleread ip put l (s32 n)) else None;
  dev_write major :=
    if major =? CONSOLE then Some (fun ip fetch n => consolewrite ip fetch (s32 n)) else None
|}.

(** * pipe.c: reading and writing with sleeps *)

(** Run the stretches of [step] with sleeps in between; each looks at
    [myproc()->killed] anew.  The lock is taken first. *)
Fixpoint pipe_loop {A L} (n : nat) (p : Z) (step : bool -> L -> M pipe (blk A L)) (l : L) : K A :=
  match n with
  | O => fun _ _ => OutOfFuel
  | S n' =>
      let* kl := is_killed in
      let* r := file_op (inpipe p (step kl l)) in
      match r with
      | Done a => ret a
      | Block ch lk l' => sleep cur ch lk ;;; pipe_loop n' p step l'
      end
  end.

Definition piperead (p addr n : Z) : K Z :=
  file_op (inpipe p (acquire (LPipe p))) ;;;
  let* (r, bs) := pipe_loop (S wakeups) p (fun kl => piperead_step p kl n) tt in
  to_user addr tt 0 bs ;;;
  ret r.

Definition pipewrite (p addr n : Z) : K Z :=
  let* bs := from_user addr 0 n in
  file_op (inpipe p (acquire (LPipe p))) ;;;
  let* (r, _) := pipe_loop (S wakeups) p (fun kl => pipewrite_step p kl n) bs in
  ret r.

(** * file.c *)

(** [n] is an [int] that the system call has checked not to be negative. *)
Definition fileread (f : nat) (addr n : Z) : K Z :=
  let* ff := file_op (inio (gets (fof f))) in
  if negb (f_readable ff) then ret (-1)
  else
    match f_type ff with
    | FD_PIPE => piperead (f_pipe ff) addr n
    | FD_INODE =>
        infs (ilock (f_ip ff)) ;;;
        let* off := file_op (inio (gets (fun s => f_off (fof f s)))) in
        let* (_, r) := readi (f_ip ff) (to_user addr) tt off n in
        when (0 <? r) (file_op (fmod f (fun g => fset_off (u32 (f_off g + r)) g))) ;;;
        infs (iunlock (f_ip ff)) ;;;
        ret r
    | FD_NONE => panic "fileread"
    end.

(** A few blocks at a time: [((MAXOPBLOCKS-1-1-2) / 2) * 512] bytes. *)
Definition write_max : Z := (MAXOPBLOCKS - 1 - 1 - 2) / 2 * 512.

(** The loop of [filewrite]: [i] at its end. *)
Fixpoint filewrite_from (rounds : nat) (f ip : nat) (addr i n : Z) : K Z :=
  if i <? n then
    match rounds with
    | O => fun _ _ => OutOfFuel
    | S k =>
        let n1 := Z.min (n - i) write_max in
        infs (inlog begin_op) ;;;
        infs (ilock ip) ;;;
        let* off := file_op (inio (gets (fun s => f_off (fof f s)))) in
        let* r := writei ip (from_user (u32 (addr + i))) off n1 in
        when (0 <? r) (file_op (fmod f (fun g => fset_off (u32 (f_off g + r)) g))) ;;;
        infs (iunlock ip) ;;;
        infs (inlog end_op) ;;;
        if r <? 0 then ret i
        else if negb (r =? n1) then panic "short filewrite"
        else filewrite_from k f ip addr (i + r) n
    end
  else ret i.

Definition filewrite (f : nat) (addr n : Z) : K Z :=
  let* ff := file_op (inio (gets (fof f))) in
  if negb (f_writable ff) then ret (-1)
  else
    match f_type ff with
    | FD_PIPE => pipewrite (f_pipe ff) addr n
    | FD_INODE =>
        let* i := filewrite_from (Z.to_nat (n / write_max) + 1)%nat f (f_ip ff) addr 0 n in
        ret (if i =? n then n else -1)
    | FD_NONE => panic "filewrite"
    end.
End Kfile.
