(* ===== verification/Exec.v ===== *)
(** exec.c and elf.h: replacing the image of a process by a program from the
    file system. *)
From S2P Require Import Prelude Monad Mem Mmu Cstring Kalloc Vm Hw FileIface Proc Signal Sysproc.
From S2P Require Import Ring Pipe Sleeplock Disk Bio Log Fs FsData Digits Kbd Console File Kfile.

(** * elf.h *)

Definition ELF_MAGIC : Z := 0x464C457F.
Definition ELFHDR_SIZE : Z := 52.
Definition PROGHDR_SIZE : Z := 32.
Definition ELF_PROG_LOAD : Z := 1.

(** The fields of struct elfhdr that the kernel reads. *)
Record elfhdr : Type := Elfhdr { e_magic : Z; e_entry : Z; e_phoff : Z; e_phnum : Z }.
Definition elf_of (b : list Z) : elfhdr := Elfhdr (rd32 b 0) (rd32 b 24) (rd32 b 28) (rd16 b 44).

(** struct proghdr. *)
Record proghdr : Type := Proghdr {
  ph_type : Z; ph_off : Z; ph_vaddr : Z; ph_filesz : Z; ph_memsz : Z
}.
Definition ph_of (b : list Z) : proghdr :=
  Proghdr (rd32 b 0) (rd32 b 4) (rd32 b 8) (rd32 b 16) (rd32 b 20).

Section Exec.
Context {fuel : Fuel}.
Variables kdata kend ts_addr : Z.
Variable cur : nat.
Abbreviation K := (M (kst fio)).
#[local] Instance k_fs_cur : HasFs (kst fio) := k_fs cur.
#[local] Instance k_con_cur : HasConsole (kst fio) := k_con cur.
#[local] Instance devsw_cur : Devices (kst fio) := devsw cur.

(** [readi] into a kernel address. *)
Definition to_kernel (a : Z) (_ : unit) (tot : Z) (bs : list Z) : K unit :=
  modify (fun k => set_km (set_mem (fun m => sts m (a + tot) bs) (ks_km k)) k).
Definition readi_at (ip : nat) (a off n : Z) : K Z :=
  let* (_, r) := readi ip (to_kernel a) tt off n in ret r.

(** Reset of the signal handlers: neither SIG_DFL nor SIG_IGN is kept. *)
Definition reset_handlers (p : proc) : proc :=
  set_handlers ((fun h => if negb (h =? SIG_DFL) && negb (h =? SIG_IGN) then SIG_DFL else h) <$> handlers p) p.

(** The program's segments; [None] is [goto bad]. *)
Fixpoint load_segments (n : nat) (ip : nat) (pgdir off sz : Z) : K (option Z) :=
  match n with
  | O => ret (Some sz)
  | S n' =>
      let* (b, r) := readi ip to_local (replicate 32 0) off PROGHDR_SIZE in
      if negb (r =? PROGHDR_SIZE) then ret None
      else
        let ph := ph_of b in
        let off' := u32 (off + PROGHDR_SIZE) in
        if negb (ph_type ph =? ELF_PROG_LOAD) then load_segments n' ip pgdir off' sz
        else if ph_memsz ph <? ph_filesz ph then ret None
        else if u32 (ph_vaddr ph + ph_memsz ph) <? ph_vaddr ph then ret None
        else
          let* sz := inkm (allocuvm kend pgdir sz (u32 (ph_vaddr ph + ph_memsz ph))) in
          if sz =? 0 then ret None
          else if negb (ph_vaddr ph mod PGSIZE =? 0) then ret None
          else
            let* r := loaduvm (@inkm fio) (readi_at ip) pgdir (ph_vaddr ph) (ph_off ph) (ph_filesz ph) in
            if r <? 0 then ret None else load_segments n' ip pgdir off' sz
  end.

(** [copyout] to the new image from a user address and from a local array; the
    word at address 0 is in the old image. *)
Definition copy_user (pgdir sp src len : Z) : K Z :=
  copyout (@inkm fio) (uload kdata 0) (fun tot n => from_user kdata src tot n) pgdir sp len.
Definition copy_local (pgdir sp : Z) (bs : list Z) : K Z :=
  copyout (@inkm fio) (uload kdata 0) (fun tot n => ret (bytes_at bs tot n)) pgdir sp (Z.of_nat (length bs)).

(** The argument strings, at the user addresses and with the lengths [argv];
    [ustack] collects where they go. *)
Fixpoint push_args (argv : list (Z * Z)) (argc pgdir sp : Z) (ustack : list Z) : K (option (Z * Z * list Z)) :=
  match argv with
  | [] => ret (Some (argc, sp, ustack))
  | (s, len) :: argv' =>
      if Z.of_nat MAXARG <=? argc then ret None
      else
        let sp := Z.land (u32 (sp - (len + 1))) (u32 (Z.lnot 3)) in
        let* r := copy_user pgdir sp s (len + 1) in
        if r <? 0 then ret None else push_args argv' (argc + 1) pgdir sp (ustack ++ [sp])
  end.

(** The part of the path after its last slash. *)
Fixpoint last_elem (last s : list Z) : list Z :=
  match s with
  | [] => last
  | c :: s' => if c =? SLASH then last_elem s' s' else last_elem last s'
  end.

(** The loading, up to the release of the inode: the new page table, its size
    and the entry point, or the page table to free (0 for none). *)
Definition load_program (ip : nat) : K (Z + Z * Z * Z) :=
  let* (b, r) := readi ip to_local (replicate 52 0) 0 ELFHDR_SIZE in
  if negb (r =? ELFHDR_SIZE) then ret (inl 0)
  else
    let elf := elf_of b in
    if negb (e_magic elf =? ELF_MAGIC) then ret (inl 0)
    else
      let* pgdir := inkm (setupkvm kend kdata) in
      if pgdir =? 0 then ret (inl 0)
      else
        let* r := load_segments (Z.to_nat (e_phnum elf)) ip pgdir (e_phoff elf) 0 in
        match r with
        | None => ret (inl pgdir)
        | Some sz => ret (inr (pgdir, sz, e_entry elf))
        end.

(** The user stack of the new image: the stack pointer and the size, or [None]
    for [goto bad]. *)
Definition build_stack (pgdir sz : Z) (argv : list (Z * Z)) : K (option (Z * Z)) :=
  let sz := PGROUNDUP sz in
  let* sz := inkm (allocuvm kend pgdir sz (u32 (sz + 2 * PGSIZE))) in
  if sz =? 0 then ret None
  else
    inkm (clearpteu pgdir (sz - 2 * PGSIZE)) ;;;
    let* r := push_args argv 0 pgdir sz [] in
    match r with
    | None => ret None
    | Some (argc, sp, args) =>
        let ustack := 0xffffffff :: argc :: u32 (sp - (argc + 1) * 4) :: args ++ [0] in
        let sp := u32 (sp - (3 + argc + 1) * 4) in
        let* r := copy_local pgdir sp (concat (le_bytes 4 <$> ustack)) in
        if r <? 0 then ret None else ret (Some (sp, sz))
    end.

(** The new image takes over. *)
Definition exec_commit (path : list Z) (pgdir sz sp entry : Z) : K unit :=
  pmod cur (fun p => set_name (name_copy (name p) (take 16 (last_elem path path) ++ [0]) 16) p) ;;;
  let* p := gets (pget cur) in
  pmod cur (set_pgdir pgdir) ;;;
  pmod cur (set_sz sz) ;;;
  kstore (tf p + TF_EIP) entry ;;;
  kstore (tf p + TF_ESP) sp ;;;
  inhw (switchuvm ts_addr (kstack p) pgdir) ;;;
  inkm (freevm kend (Proc.pgdir p)).

(** [exec(path, argv)] for the running process. *)
Definition exec (path : list Z) (argv : list (Z * Z)) : K Z :=
  pmod cur reset_handlers ;;;
  infs (inlog begin_op) ;;;
  let* d := gets (fun k => cwd (pget cur k)) in
  let* r := namei d path in
  match r with
  | None =>
      infs (inlog end_op) ;;;
      incons (cprintf (fun _ => []) (Some (bytes "exec: fail" ++ [10])) []) ;;;
      ret (-1)
  | Some ip =>
      infs (ilock ip) ;;;
      let* r := load_program ip in
      match r with
      | inl pgdir =>
          when (negb (pgdir =? 0)) (inkm (freevm kend pgdir)) ;;;
          infs (iunlockput ip) ;;;
          infs (inlog end_op) ;;;
          ret (-1)
      | inr (pgdir, sz, entry) =>
          infs (iunlockput ip) ;;;
          infs (inlog end_op) ;;;
          let* r := build_stack pgdir sz argv in
          match r with
          | None => inkm (freevm kend pgdir) ;;; ret (-1)
          | Some (sp, sz) => exec_commit path pgdir sz sp entry ;;; ret 0
          end
      end
  end.
End Exec.
