(* ===== verification/Bootmain.v ===== *)
(** bootmain.c: the boot loader, which reads the kernel's ELF image from the disk
    by polling and copies its segments to their physical addresses.  The theorem is
    that the whole image is in place when the kernel is entered, although the loader
    reads whole sectors and so writes around each segment. *)
From stdpp Require Import sorting.
From S2P Require Import Prelude Monad Mem Mmu Cstring Sleeplock Disk Ports Ide IdeProps FileIface Log Fs FsData File Kfile Exec.

Definition SECTSIZE : Z := 512.

(** Physical memory, and the devices. *)
Record ldst (D : Type) : Type := Ldst { bmem : mem; bdev : D }.
Arguments Ldst {D}.
Arguments bmem {D}.
Arguments bdev {D}.

#[global] Instance ldst_devices {D} : HasDev D (ldst D) := {| dev := bdev; set_devs d s := Ldst (bmem s) d |}.

Section Bootmain.
Context {D : Type} `{IO D}.
Abbreviation B := (M (ldst D)).

(** How often the status may have to be read, and how many sectors a segment may
    have. *)
Variables spins fuel : nat.

Fixpoint waitdisk_from (n : nat) : B unit :=
  match n with
  | O => fun _ _ => OutOfFuel
  | S n' => let* r := io (inb 0x1F7) in if negb (Z.land r 0xC0 =? 0x40) then waitdisk_from n' else ret tt
  end.

Definition waitdisk : B unit := waitdisk_from spins.

Definition readsect (dst offset : Z) : B unit :=
  waitdisk ;;;
  out (outb 0x1F2 1) ;;;
  out (outb 0x1F3 (u8 offset)) ;;;
  out (outb 0x1F4 (u8 (Z.shiftr offset 8))) ;;;
  out (outb 0x1F5 (u8 (Z.shiftr offset 16))) ;;;
  out (outb 0x1F6 (u8 (Z.lor (Z.shiftr offset 24) 0xE0))) ;;;
  out (outb 0x1F7 0x20) ;;;
  waitdisk ;;;
  let* bs := io (insl 0x1F0 (Z.to_nat (SECTSIZE / 4))) in
  modify (fun s => Ldst (sts (bmem s) dst bs) (bdev s)).

(** [for(; pa < epa; pa += SECTSIZE, offset++)] *)
Fixpoint readseg_from (n : nat) (pa epa offset : Z) : B unit :=
  if negb (pa <? epa) then ret tt
  else match n with
  | O => fun _ _ => OutOfFuel
  | S n' => readsect pa offset ;;; readseg_from n' (u32 (pa + SECTSIZE)) epa (u32 (offset + 1))
  end.

Definition readseg (pa count offset : Z) : B unit :=
  let epa := u32 (pa + count) in
  let pa := u32 (pa - offset mod SECTSIZE) in
  let offset := u32 (offset / SECTSIZE + 1) in
  readseg_from fuel pa epa offset.

(** [for(; ph < eph; ph++)].  The program header at [ph] is in memory, where a segment
    could overwrite it. *)
Fixpoint load_from (n : nat) (ph eph : Z) : B unit :=
  if negb (ph <? eph) then ret tt
  else match n with
  | O => fun _ _ => OutOfFuel
  | S n' =>
      let* m := gets bmem in
      let pa := ld32 m (ph + 12) in
      readseg pa (ld32 m (ph + 16)) (ld32 m (ph + 4)) ;;;
      let* m := gets bmem in
      let filesz := ld32 m (ph + 16) in
      let memsz := ld32 m (ph + 20) in
      when (filesz <? memsz)
        (modify (fun s => Ldst (stosb (bmem s) (u32 (pa + filesz)) 0 (Z.to_nat (memsz - filesz))) (bdev s))) ;;;
      load_from n' (u32 (ph + 32)) eph
  end.

Definition elf : Z := 0x10000.

(** The result is the entry point that is called, [None] when it returns. *)
Definition bootmain : B (option Z) :=
  readseg elf 4096 0 ;;;
  let* m := gets bmem in
  if negb (ld32 m elf =? ELF_MAGIC) then ret None
  else
    let ph := u32 (elf + ld32 m (elf + 28)) in
    let phnum := le_val (lds m (elf + 44) 2) in
    load_from (Z.to_nat phnum) ph (u32 (ph + 32 * phnum)) ;;;
    let* m := gets bmem in
    ret (Some (ld32 m (elf + 24))).
End Bootmain.

(** * A disk that is polled

    A transfer ends by itself while the status is read; the disk says that it is
    ready only when it is not working, and does so within [spins] readings. *)
Class PolledDisk (D : Type) `{IO D} (spins : nat) : Type := {
  pview : D -> ata;
  pview_outb p v d : p ∈ [0x1f2; 0x1f3; 0x1f4; 0x1f5; 0x1f6; 0x1f7] -> pview (outb p v d) = ata_outb p v (pview d);
  pview_inb d : pview (inb 0x1f7 d).2 = pview d \/ pview (inb 0x1f7 d).2 = ata_finish (pview d);
  pview_insl dr sec d : r_phase (pview d) = PData dr sec ->
    (insl 0x1f0 128 d).1 = r_img (pview d) dr sec /\ pview (insl 0x1f0 128 d).2 = set_phase PIdle (pview d);
  polled_done d : ready (inb 0x1f7 d).1 -> working (pview (inb 0x1f7 d).2) = false;
  polled_ready d : exists k, (k < spins)%nat /\ ready (status k d)
}.

Section Loader.
Context {D : Type} `{HD : PolledDisk D spins}.
Variable fuel : nat.

(** The contents of the disk, which do not change. *)
Variable img : image.
Hypothesis Himg : forall n, block_ok (img 0 n).

(** Byte [k] of the kernel's file, which starts at sector 1. *)
Definition kbyte (k : Z) : Z := aget 0 (img 0 (k / SECTSIZE + 1)) (k mod SECTSIZE).

(** The disk waits for a command. *)
Definition idle (d : D) : Prop := r_phase (pview d) = PIdle /\ r_img (pview d) = img.

Definition settled (d d' : D) : Prop := pview d' = pview d \/ pview d' = ata_finish (pview d).

Lemma ata_finish_twice a : ata_finish (ata_finish a) = ata_finish a.
Proof. destruct a as [? ? ? ? ? [] ?]; done. Qed.

Lemma wp_waitdisk_from n k (Q : unit -> ctx -> ldst D -> Prop) c s :
  (k < n)%nat -> ready (status k (bdev s)) ->
  (forall d', settled (bdev s) d' -> working (pview d') = false -> Q tt c (Ldst (bmem s) d')) -> wp (waitdisk_from n) Q c s.
Proof.
  revert k s. induction n as [|n IH]; intros k s Hk Hr HQ; [lia|]. cbn [waitdisk_from]. apply wp_bind, wp_io.
  cbn [dev set_devs ldst_devices]. pose proof (pview_inb (bdev s)) as Hv.
  destruct (Z.eqb_spec (Z.land (inb 0x1F7 (bdev s)).1 0xC0) 0x40) as [E|E]; cbn [negb].
  - apply wp_ret, HQ; [exact Hv|]. now apply polled_done.
  - destruct k as [|k]; [now destruct E|]. apply (IH k); [lia|exact Hr|]. cbn [bdev bmem].
    intros d' Hs Hw. apply HQ; [|done]. unfold settled in *. destruct Hv as [Ev|Ev]; rewrite Ev in Hs; [done|].
    rewrite ata_finish_twice in Hs. right. now destruct Hs.
Qed.

Lemma wp_waitdisk (Q : unit -> ctx -> ldst D -> Prop) c s :
  (forall d', settled (bdev s) d' -> working (pview d') = false -> Q tt c (Ldst (bmem s) d')) -> wp (waitdisk spins) Q c s.
Proof. destruct (polled_ready (bdev s)) as (k & Hk & Hr). now apply (wp_waitdisk_from spins k). Qed.

(** The registers hold the number of the sector. *)
Lemma lba_bytes o : 0 <= o < 2 ^ 28 ->
  u8 o + 256 * u8 (Z.shiftr o 8) + 65536 * u8 (Z.shiftr o 16) + 16777216 * Z.land (u8 (Z.lor (Z.shiftr o 24) 0xE0)) 0xf = o /\
  Z.land (Z.shiftr (u8 (Z.lor (Z.shiftr o 24) 0xE0)) 4) 1 = 0.
Proof.
  intros Ho. change (2 ^ 28) with 268435456 in Ho.
  assert (Hh : 0 <= Z.shiftr o 24 < 16) by (rewrite Z.shiftr_div_pow2 by lia; change (2 ^ 24) with 16777216; Z.to_euclidean_division_equations; lia).
  assert (E : u8 (Z.lor (Z.shiftr o 24) 0xE0) = Z.shiftr o 24 + 0xE0 /\ Z.land (Z.shiftr o 24 + 0xE0) 0xf = Z.shiftr o 24 /\
    Z.land (Z.shiftr (Z.shiftr o 24 + 0xE0) 4) 1 = 0).
  { set (h := Z.shiftr o 24) in *. clearbody h. clear - Hh.
    assert (Hin : h ∈ zrange 16) by (apply elem_of_zrange; lia). revert Hin. clear Hh. revert h.
    apply Forall_forall. apply (bool_decide_unpack _). vm_compute. exact I. }
  destruct E as (-> & -> & ->). split; [|done]. unfold u8. rewrite !Z.shiftr_div_pow2 by lia.
  change (2 ^ 8) with 256. change (2 ^ 16) with 65536. change (2 ^ 24) with 16777216. Z.to_euclidean_division_equations. lia.
Qed.

Lemma ata_read a v0 v1 v2 v3 :
  ata_outb 0x1F7 0x20 (ata_outb 0x1F6 v3 (ata_outb 0x1F5 v2 (ata_outb 0x1F4 v1 (ata_outb 0x1F3 v0 (ata_outb 0x1F2 1 a))))) =
  Ata 1 v0 v1 v2 v3 (PRead (Z.land (Z.shiftr v3 4) 1) (v0 + 256 * v1 + 65536 * v2 + 16777216 * Z.land v3 0xf)) (r_img a).
Proof. reflexivity. Qed.

Lemma wp_readsect dst o (Q : unit -> ctx -> ldst D -> Prop) c s :
  idle (bdev s) -> 0 <= o < 2 ^ 28 ->
  (forall d', idle d' -> Q tt c (Ldst (sts (bmem s) dst (img 0 o)) d')) -> wp (readsect spins dst o) Q c s.
Proof.
  intros [Hph Hi] Ho HQ. unfold readsect. apply wp_bind, wp_waitdisk. intros d0 Hd0 _.
  assert (E0 : idle d0) by (unfold idle; destruct Hd0 as [-> | ->]; unfold ata_finish; rewrite Hph; done). clear Hd0. destruct E0 as [Hph0 Hi0].
  do 6 apply wp_bind, wp_out. apply wp_bind, wp_waitdisk. cbn [dev set_devs ldst_devices bdev bmem]. intros d1 Hd1 Hw.
  destruct (lba_bytes o Ho) as [Elba Edr]. unfold settled in Hd1. rewrite !pview_outb, ata_read, Elba, Edr, Hi0 in Hd1 by is_port.
  destruct Hd1 as [Hd1|Hd1]; rewrite Hd1 in Hw; [done|]. cbn [ata_finish r_phase set_phase] in Hd1.
  apply wp_bind, wp_io, wp_modify. cbn [dev set_devs ldst_devices bdev bmem].
  destruct (pview_insl 0 o d1) as [E1 E2]; [now rewrite Hd1|]. change (Z.to_nat (SECTSIZE / 4)) with 128%nat. rewrite E1, Hd1.
  apply HQ. unfold idle. now rewrite E2, Hd1.
Qed.
Definition sectors (n : Z) : Z := (n + 511) / SECTSIZE.

(** Memory with [n] sectors of the file, from its byte [k] on, at [a]. *)
Definition filled (m m' : mem) (a n k : Z) : Prop :=
  forall b, ld m' b = if within a (SECTSIZE * n) b then kbyte (k + (b - a)) else ld m b.

Lemma kbyte_sector o j : 0 <= j < SECTSIZE -> kbyte (SECTSIZE * (o - 1) + j) = aget 0 (img 0 o) j.
Proof.
  intros Hj. unfold kbyte, SECTSIZE in *. replace (512 * (o - 1) + j) with (j + (o - 1) * 512) by lia.
  rewrite Z.div_add, Z.div_small, Z.mod_add, Z.mod_small by lia. f_equal. f_equal. lia.
Qed.

Lemma wp_readseg_from n pa epa o (Q : unit -> ctx -> ldst D -> Prop) c s :
  idle (bdev s) -> 0 <= pa -> epa + SECTSIZE <= 2 ^ 32 -> pa - epa <= 511 -> 0 <= o -> o + sectors (epa - pa) < 2 ^ 28 ->
  sectors (epa - pa) <= Z.of_nat n ->
  (forall m' d', idle d' -> filled (bmem s) m' pa (sectors (epa - pa)) (SECTSIZE * (o - 1)) -> Q tt c (Ldst m' d')) ->
  wp (readseg_from spins n pa epa o) Q c s.
Proof.
  revert pa o s. induction n as [|n IH]; intros pa o s Hd Hpa Hepa Hle Ho Ho' Hn HQ; cbn [readseg_from].
  all: destruct (Z.ltb_spec pa epa) as [Hlt|Hge]; cbn [negb]; unfold sectors, SECTSIZE in *; change (2 ^ 32) with 4294967296 in *; change (2 ^ 28) with 268435456 in *.
  2,4: rewrite Z.div_small in HQ by lia; apply wp_ret; destruct s as [m d]; apply HQ; [done|]; intros b;
    destruct (withinP pa (SECTSIZE * 0) b); [lia|done].
  - exfalso. Z.to_euclidean_division_equations. lia.
  - assert (E : (epa - (pa + 512) + 511) / 512 + 1 = (epa - pa + 511) / 512).
    { replace (epa - pa + 511) with (epa - (pa + 512) + 511 + 1 * 512) by lia. now rewrite Z.div_add by lia. }
    assert (0 <= (epa - (pa + 512) + 511) / 512) by (apply Z.div_pos; lia).
    apply wp_bind, wp_readsect; [done|change (2 ^ 28) with 268435456; lia|]. intros d1 Hd1. rewrite !u32_small by (unfold is_u32; lia).
    apply IH; cbn [bdev bmem]; [done|lia..|]. intros m' d' Hd' Hf. apply HQ; [done|]. intros b. rewrite Hf, ld_sts. rewrite <- E.
    destruct (Himg o) as [Hlen _]. rewrite Hlen. fold (within pa (Z.of_nat 512) b).
    set (k := (epa - (pa + 512) + 511) / 512) in *. change (Z.of_nat 512) with 512. change SECTSIZE with 512 in *.
    destruct (withinP (pa + 512) (512 * k) b), (withinP pa 512 b), (withinP pa (512 * (k + 1)) b); try lia; [f_equal; lia|].
    rewrite <- (kbyte_sector o) by (unfold SECTSIZE; lia). done.
Qed.

Lemma wp_readseg pa cnt off (Q : unit -> ctx -> ldst D -> Prop) c s :
  let r := off mod SECTSIZE in
  idle (bdev s) -> is_u32 off -> r <= pa -> 0 <= cnt -> pa + cnt + SECTSIZE <= 2 ^ 32 -> sectors (cnt + r) <= Z.of_nat fuel ->
  (forall m' d', idle d' -> filled (bmem s) m' (pa - r) (sectors (cnt + r)) (off - r) -> Q tt c (Ldst m' d')) ->
  wp (readseg spins fuel pa cnt off) Q c s.
Proof.
  intros r Hd Ho Hr Hc Hpa Hf HQ. unfold readseg. fold r. unfold is_u32 in Ho. change (2 ^ 32) with 4294967296 in Hpa.
  assert (Hr' : 0 <= r < 512) by (apply Z.mod_pos_bound; lia). assert (Eo : SECTSIZE * (off / SECTSIZE) = off - r) by (unfold r; rewrite Z.mod_eq; unfold SECTSIZE; lia).
  unfold SECTSIZE in Eo, Hpa. assert (0 <= off / 512) by (apply Z.div_pos; lia). assert (off / 512 <= off) by (apply Z.div_le_upper_bound; lia).
  unfold SECTSIZE. rewrite !u32_small by (unfold is_u32; lia).
  assert (E : pa + cnt - (pa - r) = cnt + r) by lia.
  assert (Hs : sectors (cnt + r) <= (4294967296 + 1023) / 512) by (apply Z.div_le_mono; lia). change ((4294967296 + 1023) / 512) with 8388609 in Hs.
  apply wp_readseg_from; rewrite ?E; unfold SECTSIZE; change (2 ^ 32) with 4294967296; change (2 ^ 28) with 268435456; [done|lia..|done|].
  { intros m' d' Hd' Hfill. apply HQ; [done|]. intros b. rewrite Hfill. unfold SECTSIZE. replace (off / 512 + 1 - 1) with (off / 512) by lia. now rewrite Eo. }
Qed.
(** ** The segments *)

(** Little-endian words of the file, and the segment whose header is at [j]. *)
Definition kword (j : Z) : Z := le_val [kbyte j; kbyte (j + 1); kbyte (j + 2); kbyte (j + 3)].
Definition khalf (j : Z) : Z := le_val [kbyte j; kbyte (j + 1)].

Record seg : Type := Seg { sg_paddr : Z; sg_off : Z; sg_filesz : Z; sg_memsz : Z }.

Definition seg_at (j : Z) : seg := Seg (kword (j + 12)) (kword (j + 4)) (kword (j + 16)) (kword (j + 20)).

(** Where the first sector that is read for a segment goes, and the end of the
    segment in memory. *)
Definition sg_lo (g : seg) : Z := sg_paddr g - sg_off g mod SECTSIZE.
Definition sg_end (g : seg) : Z := sg_paddr g + Z.max (sg_filesz g) (sg_memsz g).

(** The segment is above the page of the header, and inside the address space with
    the rest of its last sector. *)
Definition placed (g : seg) : Prop :=
  elf + 4096 <= sg_lo g /\ sg_end g + SECTSIZE <= 2 ^ 32 /\
  sectors (sg_filesz g + sg_off g mod SECTSIZE) <= Z.of_nat fuel.

Definition loaded (m : mem) (g : seg) : Prop :=
  forall k, 0 <= k < Z.max (sg_filesz g) (sg_memsz g) ->
    ld m (sg_paddr g + k) = if k <? sg_filesz g then kbyte (sg_off g + k) else 0.

(** The page of the header is in memory. *)
Definition header (m : mem) : Prop := forall j, 0 <= j < 4096 -> ld m (elf + j) = kbyte j.

Lemma kbyte_u8 k : is_u8 (kbyte k).
Proof.
  destruct (Himg (k / SECTSIZE + 1)) as [_ Hb]. unfold kbyte, aget.
  destruct (img 0 (k / SECTSIZE + 1) !! Z.to_nat (k mod SECTSIZE)) eqn:E; [|unfold is_u8; cbn; lia].
  rewrite Forall_lookup in Hb. now apply Hb in E.
Qed.

Lemma kword_u32 j : is_u32 (kword j).
Proof. apply (le_val_range [kbyte j; kbyte (j + 1); kbyte (j + 2); kbyte (j + 3)]). repeat constructor; apply kbyte_u8. Qed.

Lemma khalf_nonneg j : 0 <= khalf j.
Proof. apply (le_val_range [kbyte j; kbyte (j + 1)]). repeat constructor; apply kbyte_u8. Qed.

Lemma header_word m j : header m -> 0 <= j <= 4092 -> ld32 m (elf + j) = kword j.
Proof.
  intros Hm Hj. unfold ld32, kword. cbn [lds].
  replace (elf + j + 1 + 1 + 1) with (elf + (j + 3)) by lia. replace (elf + j + 1 + 1) with (elf + (j + 2)) by lia.
  rewrite <- (Z.add_assoc elf). now rewrite !Hm by lia.
Qed.

Definition zeroed (m m' : mem) (a n : Z) : Prop := forall b, ld m' b = if within a n b then 0 else ld m b.

Lemma sectors_cover n : 0 <= n -> n <= SECTSIZE * sectors n.
Proof. intros Hn. unfold sectors, SECTSIZE. Z.to_euclidean_division_equations. lia. Qed.

Lemma segment_loaded g m m1 m2 :
  let r := sg_off g mod SECTSIZE in
  placed g -> 0 <= sg_filesz g -> 0 <= sg_memsz g -> filled m m1 (sg_paddr g - r) (sectors (sg_filesz g + r)) (sg_off g - r) ->
  zeroed m1 m2 (sg_paddr g + sg_filesz g) (sg_memsz g - sg_filesz g) ->
  (header m -> header m1 /\ header m2) /\ loaded m2 g /\ (forall a, a < sg_lo g -> ld m2 a = ld m a).
Proof.
  intros r (Hlo & Hend & Hfu) Hfs Hms Hfill Hz. unfold sg_lo in *. fold r in Hlo, Hfu |- *.
  assert (Hr : 0 <= r < SECTSIZE) by (apply Z.mod_pos_bound; done). pose proof (sectors_cover (sg_filesz g + r) ltac:(lia)) as Hsec.
  assert (Hlow : forall a, a < sg_paddr g - r -> ld m1 a = ld m a /\ ld m2 a = ld m a).
  { intros a Ha. rewrite Hz, Hfill.
    destruct (withinP (sg_paddr g + sg_filesz g) (sg_memsz g - sg_filesz g) a),
      (withinP (sg_paddr g - r) (SECTSIZE * sectors (sg_filesz g + r)) a); lia || done. }
  split_and!.
  - intros Hm. split; intros j Hj; rewrite <- (Hm j Hj); apply Hlow; lia.
  - intros k Hk. rewrite Hz, Hfill.
    destruct (withinP (sg_paddr g + sg_filesz g) (sg_memsz g - sg_filesz g) (sg_paddr g + k)), (Z.ltb_spec k (sg_filesz g)); try lia.
    destruct (withinP (sg_paddr g - r) (SECTSIZE * sectors (sg_filesz g + r)) (sg_paddr g + k)); [f_equal|]; lia.
  - intros a Ha. now apply Hlow.
Qed.

(** What one round of the loop does to memory. *)
Lemma wp_segment j (Q : unit -> ctx -> ldst D -> Prop) k c s :
  idle (bdev s) -> header (bmem s) -> 0 <= j <= 4064 -> placed (seg_at j) ->
  (forall m' d', idle d' -> header m' -> loaded m' (seg_at j) -> (forall a, a < sg_lo (seg_at j) -> ld m' a = ld (bmem s) a) ->
    wp k Q c (Ldst m' d')) ->
  wp (let* m := gets bmem in
      let pa := ld32 m (elf + j + 12) in
      readseg spins fuel pa (ld32 m (elf + j + 16)) (ld32 m (elf + j + 4)) ;;;
      let* m := gets bmem in
      let filesz := ld32 m (elf + j + 16) in
      let memsz := ld32 m (elf + j + 20) in
      when (filesz <? memsz)
        (modify (fun s => Ldst (stosb (bmem s) (u32 (pa + filesz)) 0 (Z.to_nat (memsz - filesz))) (bdev s))) ;;; k) Q c s.
Proof.
  intros Hd Hm Hj (Hlo & Hend & Hfu) HQ. set (g := seg_at j) in *. apply wp_bind, wp_gets. cbv zeta. rewrite <- !(Z.add_assoc elf).
  rewrite !header_word by (done || lia). change (kword (j + 12)) with (sg_paddr g). change (kword (j + 16)) with (sg_filesz g).
  change (kword (j + 4)) with (sg_off g).
  assert (Hu : is_u32 (sg_off g) /\ is_u32 (sg_filesz g) /\ is_u32 (sg_paddr g) /\ is_u32 (sg_memsz g)) by (split_and!; apply kword_u32).
  unfold is_u32, sg_lo, sg_end, elf in *. change (2 ^ 32) with 4294967296 in *. unfold SECTSIZE in *.
  pose proof (Z.mod_pos_bound (sg_off g) 512 ltac:(lia)) as Hr. apply wp_bind, wp_readseg; unfold SECTSIZE, is_u32; change (2 ^ 32) with 4294967296; [done|lia..|done|].
  intros m1 d1 Hd1 Hfill.
  set (m2 := if sg_filesz g <? sg_memsz g then stosb m1 (sg_paddr g + sg_filesz g) 0 (Z.to_nat (sg_memsz g - sg_filesz g)) else m1).
  assert (Hz : zeroed m1 m2 (sg_paddr g + sg_filesz g) (sg_memsz g - sg_filesz g)).
  { intros b. unfold m2. destruct (Z.ltb_spec (sg_filesz g) (sg_memsz g)); [rewrite ld_stosb, Z2Nat.id by lia; done|].
    destruct (withinP (sg_paddr g + sg_filesz g) (sg_memsz g - sg_filesz g) b); [lia|done]. }
  destruct (segment_loaded g (bmem s) m1 m2) as (Hhd & Hld & Hlow); [split_and!|lia..|exact Hfill|exact Hz|].
  1-3: unfold sg_lo, sg_end, SECTSIZE, elf; change (2 ^ 32) with 4294967296; lia || done.
  destruct (Hhd Hm) as [Hm1 Hm2]. apply wp_bind, wp_gets. cbn [bmem].
  rewrite !header_word by (done || lia). change (kword (j + 16)) with (sg_filesz g). change (kword (j + 20)) with (sg_memsz g).
  rewrite u32_small by (unfold is_u32; lia). apply wp_bind. unfold when. unfold m2 in *.
  destruct (sg_filesz g <? sg_memsz g); [apply wp_modify|apply wp_ret]; now apply HQ.
Qed.
(** The segments whose headers are at [j], [j + 32], ... *)
Fixpoint segs_at (n : nat) (j : Z) : list seg :=
  match n with
  | O => []
  | S n' => seg_at j :: segs_at n' (j + 32)
  end.

(** The end of each segment is not above the first sector of a later one: what is
    read too much for a segment is then overwritten by the ones after it. *)
Abbreviation increasing := (StronglySorted (fun g h => sg_end g <= sg_lo h)).

Lemma wp_load_from n j (Q : unit -> ctx -> ldst D -> Prop) c s :
  idle (bdev s) -> header (bmem s) -> 0 <= j -> j + 32 * Z.of_nat n <= 4096 -> Forall placed (segs_at n j) -> increasing (segs_at n j) ->
  (forall m' d', idle d' -> header m' -> Forall (loaded m') (segs_at n j) ->
    (forall a, Forall (fun g => a < sg_lo g) (segs_at n j) -> ld m' a = ld (bmem s) a) -> Q tt c (Ldst m' d')) ->
  wp (load_from spins fuel n (elf + j) (elf + j + 32 * Z.of_nat n)) Q c s.
Proof.
  revert j s. induction n as [|n IH]; intros j s Hd Hm Hj Hn Hp Hi HQ; cbn [load_from].
  - rewrite (proj2 (Z.ltb_ge _ _)) by lia. apply wp_ret. destruct s as [m d]. now apply HQ.
  - rewrite (proj2 (Z.ltb_lt _ _)) by lia. cbn [negb]. cbn [segs_at] in *. apply Forall_cons in Hp as [Hg Hp].
    apply StronglySorted_inv in Hi as [Hi Hlt]. apply wp_segment; [done|done|lia|done|]. intros m1 d1 Hd1 Hm1 Hl1 Hf1.
    rewrite u32_small by (unfold is_u32, elf; lia).
    replace (elf + j + 32) with (elf + (j + 32)) by lia. replace (elf + j + 32 * Z.of_nat (S n)) with (elf + (j + 32) + 32 * Z.of_nat n) by lia.
    apply IH; cbn [bmem bdev]; [done|done|lia|lia|done|done|]. intros m' d' Hd' Hm' Hl' Hf'. apply HQ; [done|done| |].
    + constructor; [|done]. intros k Hk. rewrite Hf'; [now apply Hl1|]. eapply Forall_impl; [exact Hlt|]. unfold sg_end. cbn beta. lia.
    + intros a [Ha Ha']%Forall_cons. rewrite Hf' by done. now apply Hf1.
Qed.

Lemma wp_header (Q : unit -> ctx -> ldst D -> Prop) c s :
  idle (bdev s) -> (8 <= fuel)%nat ->
  (forall m' d', idle d' -> header m' -> (forall a, a < elf -> ld m' a = ld (bmem s) a) -> Q tt c (Ldst m' d')) ->
  wp (readseg spins fuel elf 4096 0) Q c s.
Proof.
  intros Hd Hf HQ. apply wp_readseg; change (0 mod SECTSIZE) with 0; change (sectors (4096 + 0)) with 8; [done|done|done|done|done|lia|].
  intros m' d' Hd' Hfill. change (elf - 0) with elf in Hfill. change (0 - 0) with 0 in Hfill. apply HQ; [done| |].
  - intros j Hj. rewrite Hfill. destruct (withinP elf (SECTSIZE * 8) (elf + j)); unfold SECTSIZE in *; [f_equal|]; lia.
  - intros a Ha. rewrite Hfill. destruct (withinP elf (SECTSIZE * 8) a); unfold SECTSIZE in *; lia || done.
Qed.

(** C38: the boot loader loads the kernel: for an ELF file whose program headers are in its
    first page and whose segments are in increasing order and above the page that
    the header is read into, bootmain ends, every
    segment is in memory at its physical address with the bytes of the file and then
    zeros, nothing below the page of the header is changed, and the kernel is entered
    at the address of the ELF header. *)
Theorem bootmain_loads (s : ldst D) (c : ctx) :
  let segs := segs_at (Z.to_nat (khalf 44)) (kword 28) in
  idle (bdev s) -> (8 <= fuel)%nat -> kword 0 = ELF_MAGIC -> kword 28 + 32 * khalf 44 <= 4096 ->
  Forall placed segs -> increasing segs ->
  wp (bootmain spins fuel) (fun r _ s' => r = Some (kword 24) /\ Forall (loaded (bmem s')) segs /\
    forall a, a < elf -> ld (bmem s') a = ld (bmem s) a) c s.
Proof.
  intros segs Hd Hf Hmagic Hph Hp Hi. unfold bootmain. apply wp_bind, wp_header; [done|done|]. intros m1 d1 Hd1 Hm1 Hlow.
  apply wp_bind, wp_gets. cbn [bmem]. rewrite <- (Z.add_0_r elf) at 1. rewrite !header_word by (done || lia). rewrite Hmagic, Z.eqb_refl. cbn [negb].
  assert (E44 : le_val (lds m1 (elf + 44) 2) = khalf 44) by (unfold khalf; cbn [lds]; rewrite <- Z.add_assoc, !Hm1 by lia; done).
  pose proof (kword_u32 28) as [Hw _]. pose proof (khalf_nonneg 44) as Hh. rewrite E44, !u32_small by (unfold is_u32, elf; lia).
  apply wp_bind. rewrite <- (Z2Nat.id (khalf 44)) at 2 by done.
  apply wp_load_from; cbn [bdev bmem]; [done|done|done|rewrite Z2Nat.id; done|done|done|]. intros m2 d2 Hd2 Hm2 Hl Hlow2.
  apply wp_bind, wp_gets, wp_ret. cbn [bmem]. rewrite header_word by (done || lia). split_and!; [done|done|].
  intros a Ha. rewrite Hlow2; [now apply Hlow|]. eapply Forall_impl; [exact Hp|]. intros g (Hg & _). lia.
Qed.

(** A file that does not start with the ELF magic number is not entered. *)
Lemma bootmain_rejects (s : ldst D) (c : ctx) :
  idle (bdev s) -> (8 <= fuel)%nat -> kword 0 <> ELF_MAGIC -> wp (bootmain spins fuel) (fun r _ _ => r = None) c s.
Proof.
  intros Hd Hf Hmagic. unfold bootmain. apply wp_bind, wp_header; [done|done|]. intros m1 d1 Hd1 Hm1 Hlow.
  apply wp_bind, wp_gets. cbn [bmem]. rewrite <- (Z.add_0_r elf) at 1. rewrite header_word by (done || lia).
  rewrite (proj2 (Z.eqb_neq _ _)) by done. now apply wp_ret.
Qed.
End Loader.

(** ** A kernel of two segments

    On a disk that is busy for one reading of the status after each command. *)
Module Kernel.

#[local] Instance polled_io : IO ata := {|
  inb (_ : Z) d := if working d then (IDE_BSY, ata_finish d) else (IDE_DRDY, d);
  outb p v d := ata_outb p v d;
  insl _ n d := match r_phase d with PData dr sec => (r_img d dr sec, set_phase PIdle d) | _ => (replicate (4 * n) 0, d) end;
  outsl _ bs d := ata_outsl bs d;
  mmio_ld _ d := (0, d);
  mmio_st _ _ d := d
|}.

Lemma finish_settles a : working (ata_finish a) = false.
Proof. destruct a as [? ? ? ? ? [] ?]; done. Qed.

#[local] Instance polled_disk : PolledDisk ata 2.
Proof.
  refine {| pview d := d |}.
  - done.
  - intros d. cbn. destruct (working d); cbn; auto.
  - intros dr sec d Hp. cbn. now rewrite Hp.
  - intros d. cbn. destruct (working d) eqn:E; [done|]. intros _. exact E.
  - intros d. destruct (working d) eqn:E; [exists 1%nat|exists 0%nat]; (split; [lia|]); cbn; rewrite E; [|done].
    cbn. now rewrite finish_settles.
Defined.

Definition phdr (off paddr filesz memsz : Z) : list Z :=
  le_bytes 4 1 ++ le_bytes 4 off ++ le_bytes 4 paddr ++ le_bytes 4 paddr ++ le_bytes 4 filesz ++ le_bytes 4 memsz ++ replicate 8 0.

Definition elf_sector : block :=
  le_bytes 4 ELF_MAGIC ++ replicate 20 0 ++ le_bytes 4 0x10000c ++ le_bytes 4 52 ++ replicate 12 0 ++ le_bytes 2 2 ++ replicate 6 0 ++
  phdr 512 0x100000 700 1500 ++ phdr 1792 0x100800 5 5 ++ replicate 396 0.

Definition disk (dr n : Z) : block := if n =? 1 then elf_sector else replicate 512 7.

Definition cold : ldst ata := Ldst ∅ (Ata 0 0 0 0 0 PIdle disk).

Lemma bootmain_loads_witness :
  wp (bootmain 2 8) (fun r _ s' => r = Some 0x10000c /\ ld (bmem s') (0x100000 + 699) = 7 /\ ld (bmem s') (0x100000 + 1499) = 0 /\
    ld (bmem s') (0x100800 + 4) = 7) (Ctx [] []) cold.
Proof.
  assert (Hok : forall n, block_ok (disk 0 n)).
  { intros n. unfold disk. destruct (n =? 1); apply (bool_decide_unpack _); vm_compute; exact I. }
  assert (Hs : segs_at disk (Z.to_nat (khalf disk 44)) (kword disk 28) = [Seg 0x100000 512 700 1500; Seg 0x100800 1792 5 5]) by (vm_compute; reflexivity).
  assert (He : kword disk 24 = 0x10000c) by (vm_compute; reflexivity).
  eapply wp_mono.
  - apply (bootmain_loads 8 disk Hok cold (Ctx [] [])); [done|lia|vm_compute; reflexivity|vm_compute; discriminate|rewrite Hs..].
    + repeat constructor; vm_compute; discriminate.
    + repeat constructor. vm_compute. discriminate.
  - cbv beta. intros r c' s' (-> & Hl & _). rewrite Hs in Hl. rewrite He. apply Forall_cons in Hl as [H1 [H2 _]%Forall_cons].
    split_and!; [reflexivity|etransitivity; [apply (H1 699)|]|etransitivity; [apply (H1 1499)|]|etransitivity; [apply (H2 4)|]];
      first [vm_compute; reflexivity|cbn; lia].
Defined.
End Kernel.
