(* ===== verification/Sysfile.v ===== *)
(** sysfile.c: the file system calls of a process. *)
From S2P Require Import Prelude Monad Mem Mmu Cstring Kalloc Vm Hw FileIface Proc Signal Sysproc.
From S2P Require Import Trap Ring Pipe Sleeplock Disk Bio Log Fs FsData Digits Kbd Console File.
From S2P Require Import Kfile Exec.

Section Sysfile.
Context {fuel : Fuel}.
Variables kdata kend ts_addr : Z.
Variable cur : nat.
Abbreviation K := (M (kst fio)).
#[local] Instance s_fs : HasFs (kst fio) := k_fs cur.
#[local] Instance s_con : HasConsole (kst fio) := k_con cur.
#[local] Instance s_dev : Devices (kst fio) := devsw cur.
#[local] Instance s_ops : FileOps fio := fio_ops kend.

Definition fop {A} (m : M (kmem * fio) A) : K A := file_op cur m.

(** The descriptor and the file. *)
Definition argfd (n : Z) : K (option (Z * nat)) :=
  let* r := argint kdata cur n in
  match r with
  | None => ret None
  | Some w =>
      let fd := s32 w in
      if (fd <? 0) || (Z.of_nat NOFILE <=? fd) then ret None
      else
        let* f := gets (fun k => aget None (ofile (pget cur k)) fd) in
        ret ((fun f => (fd, f)) <$> f)
  end.

(** The loop of [fdalloc]: the first free descriptor. *)
Fixpoint find_fd (l : list (option nat)) (fd : Z) : option Z :=
  match l with
  | [] => None
  | o :: l' => match o with None => Some fd | Some _ => find_fd l' (fd + 1) end
  end.
Definition set_fd (fd : Z) (o : option nat) (p : proc) : proc := set_ofile (aset (ofile p) fd o) p.

Definition fdalloc (f : nat) : K (option Z) :=
  let* p := gets (pget cur) in
  match find_fd (ofile p) 0 with
  | Some fd => pmod cur (set_fd fd (Some f)) ;;; ret (Some fd)
  | None => ret None
  end.

Definition sys_dup : K Z :=
  let* r := argfd 0 in
  match r with
  | None => ret (-1)
  | Some (_, f) =>
      let* r := fdalloc f in
      match r with
      | None => ret (-1)
      | Some fd => fop (filedup f) ;;; ret fd
      end
  end.

(** The arguments of read and write: the file, the buffer and the count. *)
Definition rw_args : K (option (nat * Z * Z)) :=
  let* r := argfd 0 in
  match r with
  | None => ret None
  | Some (_, f) =>
      let* n := argint kdata cur 2 in
      match n with
      | None => ret None
      | Some n =>
          let* p := argptr kdata cur 1 (s32 n) in
          ret ((fun p => (f, p, s32 n)) <$> p)
      end
  end.

Definition sys_read : K Z :=
  let* r := rw_args in
  match r with
  | None => ret (-1)
  | Some (f, p, n) => fileread kdata cur f p n
  end.

Definition sys_write : K Z :=
  let* r := rw_args in
  match r with
  | None => ret (-1)
  | Some (f, p, n) => filewrite kdata cur f p n
  end.

Definition sys_close : K Z :=
  let* r := argfd 0 in
  match r with
  | None => ret (-1)
  | Some (fd, f) =>
      pmod cur (set_fd fd None) ;;;
      fop (fileclose kend f) ;;;
      ret 0
  end.

(** sizeof(struct stat), and its fields in memory. *)
Definition STAT_SIZE : Z := 20.
Definition stat_bytes (s : stat) : list (Z * list Z) :=
  [(0, le_bytes 2 (st_type s)); (4, le_bytes 4 (st_dev s)); (8, le_bytes 4 (st_ino s));
   (12, le_bytes 2 (st_nlink s)); (16, le_bytes 4 (st_size s))].

Definition sys_fstat : K Z :=
  let* r := argfd 0 in
  match r with
  | None => ret (-1)
  | Some (_, f) =>
      let* st := argptr kdata cur 1 STAT_SIZE in
      match st with
      | None => ret (-1)
      | Some a =>
          let* r := fop (filestat f) in
          match r with
          | None => ret (-1)
          | Some s => for_ (stat_bytes s) (fun fb => to_user kdata a tt (fst fb) (snd fb)) ;;; ret 0
          end
      end
  end.

(** The bytes of a string argument. *)
Definition arg_path (n : Z) : K (option (list Z)) :=
  let* r := argstr kdata cur n in
  match r with
  | None => ret None
  | Some (a, len) => let* bs := from_user kdata a 0 len in ret (Some bs)
  end.
Definition begin_op' : K unit := infs (inlog begin_op).
Definition end_op' : K unit := infs (inlog end_op).
Definition my_cwd : K (option nat) := gets (fun k => cwd (pget cur k)).
(** [char name[DIRSIZ]]. *)
Definition name_buf : list Z := replicate 14 0.

Definition sys_link : K Z :=
  let* old := arg_path 0 in
  match old with
  | None => ret (-1)
  | Some old =>
    let* new := arg_path 1 in
    match new with
    | None => ret (-1)
    | Some new =>
      begin_op' ;;;
      let* d := my_cwd in
      let* r := namei d old in
      match r with
      | None => end_op' ;;; ret (-1)
      | Some ip =>
        infs (ilock ip) ;;;
        let* p := infs (gets (iof ip)) in
        if i_type p =? T_DIR then infs (iunlockput ip) ;;; end_op' ;;; ret (-1)
        else
          infs (imod ip (fun p => iset_nlink (s16 (i_nlink p + 1)) p)) ;;;
          infs (iupdate ip) ;;;
          infs (iunlock ip) ;;;
          let bad : K Z :=
            infs (ilock ip) ;;;
            infs (imod ip (fun p => iset_nlink (s16 (i_nlink p - 1)) p)) ;;;
            infs (iupdate ip) ;;;
            infs (iunlockput ip) ;;;
            end_op' ;;;
            ret (-1) in
          let* d := my_cwd in
          let* r := nameiparent d new name_buf in
          match r with
          | None => bad
          | Some (dp, name) =>
            infs (ilock dp) ;;;
            let* p := infs (gets (iof ip)) in
            let* q := infs (gets (iof dp)) in
            let* r := (if negb (i_dev q =? i_dev p) then ret (-1) else dirlink dp name (i_inum p)) in
            if r <? 0 then infs (iunlockput dp) ;;; bad
            else
              infs (iunlockput dp) ;;;
              infs (iput ip) ;;;
              end_op' ;;;
              ret 0
          end
      end
    end
  end.

(** The loop of [isdirempty] from offset [off]. *)
Fixpoint isdirempty_from (k : nat) (dp : nat) (off : Z) : K bool :=
  let* p := infs (gets (iof dp)) in
  if off <? i_size p then
    match k with
    | O => fun _ _ => OutOfFuel
    | S k' =>
        let* (de, r) := readi dp to_local (replicate 16 0) off DIRENT_SIZE in
        if negb (r =? DIRENT_SIZE) then panic "isdirempty: readi"
        else if negb (de_inum de =? 0) then ret false
        else isdirempty_from k' dp (off + DIRENT_SIZE)
    end
  else ret true.
Definition isdirempty (dp : nat) : K bool :=
  let* p := infs (gets (iof dp)) in
  isdirempty_from (entries (i_size p)) dp (2 * DIRENT_SIZE).

Definition str_dot : list Z := [46; 0].
Definition str_dotdot : list Z := [46; 46; 0].

(** [sys_unlink] once the directory and the last element of the path are
    known. *)
Definition unlink_in (dp : nat) (name : list Z) : K Z :=
  let bad : K Z := infs (iunlockput dp) ;;; end_op' ;;; ret (-1) in
  infs (ilock dp) ;;;
  if (namecmp name str_dot =? 0) || (namecmp name str_dotdot =? 0) then bad
  else
    let* r := dirlookup dp name in
    match r with
    | None => bad
    | Some (ip, off) =>
      infs (ilock ip) ;;;
      let* p := infs (gets (iof ip)) in
      if i_nlink p <? 1 then panic "unlink: nlink < 1"
      else
        let* full := (if i_type p =? T_DIR then let* e := isdirempty ip in ret (negb e) else ret false) in
        if full : bool then infs (iunlockput ip) ;;; bad
        else
          let* r := writei dp (from_local (replicate 16 0)) off DIRENT_SIZE in
          if negb (r =? DIRENT_SIZE) then panic "unlink: writei"
          else
            when (i_type p =? T_DIR) (
              infs (imod dp (fun q => iset_nlink (s16 (i_nlink q - 1)) q)) ;;;
              infs (iupdate dp)) ;;;
            infs (iunlockput dp) ;;;
            infs (imod ip (fun q => iset_nlink (s16 (i_nlink q - 1)) q)) ;;;
            infs (iupdate ip) ;;;
            infs (iunlockput ip) ;;;
            end_op' ;;;
            ret 0
    end.

Definition sys_unlink : K Z :=
  let* path := arg_path 0 in
  match path with
  | None => ret (-1)
  | Some path =>
      begin_op' ;;;
      let* d := my_cwd in
      let* r := nameiparent d path name_buf in
      match r with
      | None => end_op' ;;; ret (-1)
      | Some (dp, name) => unlink_in dp name
      end
  end.

(** The inode created, or opened when it exists and is a file, locked. *)
Definition create (path : list Z) (type major minor : Z) : K (option nat) :=
  let* d := my_cwd in
  let* r := nameiparent d path name_buf in
  match r with
  | None => ret None
  | Some (dp, name) =>
    infs (ilock dp) ;;;
    let* r := dirlookup dp name in
    match r with
    | Some (ip, _) =>
        infs (iunlockput dp) ;;;
        infs (ilock ip) ;;;
        let* p := infs (gets (iof ip)) in
        if (type =? T_FILE) && (i_type p =? T_FILE) then ret (Some ip)
        else infs (iunlockput ip) ;;; ret None
    | None =>
        let* q := infs (gets (iof dp)) in
        let* ip := infs (ialloc (i_dev q) type) in
        infs (ilock ip) ;;;
        infs (imod ip (iset_dev_nums major minor)) ;;;
        infs (imod ip (iset_nlink 1)) ;;;
        infs (iupdate ip) ;;;
        let* p := infs (gets (iof ip)) in
        when (type =? T_DIR) (
          infs (imod dp (fun q => iset_nlink (s16 (i_nlink q + 1)) q)) ;;;
          infs (iupdate dp) ;;;
          let* r := dirlink ip str_dot (i_inum p) in
          if r <? 0 then panic "create dots"
          else
            let* r := dirlink ip str_dotdot (i_inum q) in
            if r <? 0 then panic "create dots" else ret tt) ;;;
        let* r := dirlink dp name (i_inum p) in
        if r <? 0 then panic "create: dirlink"
        else infs (iunlockput dp) ;;; ret (Some ip)
    end
  end.

(** [sys_open] once the inode is found and locked. *)
Definition open_file (ip : nat) (omode : Z) : K Z :=
  let bad : K Z := infs (iunlockput ip) ;;; end_op' ;;; ret (-1) in
  let* r := fop filealloc in
  match r with
  | None => bad
  | Some f =>
      let* r := fdalloc f in
      match r with
      | None => fop (fileclose kend f) ;;; bad
      | Some fd =>
          infs (iunlock ip) ;;;
          end_op' ;;;
          fop (fmod f (fset_type FD_INODE)) ;;;
          fop (fmod f (fset_ip ip)) ;;;
          fop (fmod f (fset_off 0)) ;;;
          fop (fmod f (fset_mode (Z.land omode O_WRONLY =? 0)
                        (negb (Z.land omode O_WRONLY =? 0) || negb (Z.land omode O_RDWR =? 0)))) ;;;
          ret fd
      end
  end.

Definition sys_open : K Z :=
  let* path := arg_path 0 in
  match path with
  | None => ret (-1)
  | Some path =>
    let* omode := argint kdata cur 1 in
    match omode with
    | None => ret (-1)
    | Some omode =>
      begin_op' ;;;
      if negb (Z.land omode O_CREATE =? 0) then
        let* r := create path T_FILE 0 0 in
        match r with
        | None => end_op' ;;; ret (-1)
        | Some ip => open_file ip omode
        end
      else
        let* d := my_cwd in
        let* r := namei d path in
        match r with
        | None => end_op' ;;; ret (-1)
        | Some ip =>
            infs (ilock ip) ;;;
            let* p := infs (gets (iof ip)) in
            if (i_type p =? T_DIR) && negb (omode =? O_RDONLY) then
              infs (iunlockput ip) ;;; end_op' ;;; ret (-1)
            else open_file ip omode
        end
    end
  end.

(** The common end of mkdir and mknod: [r] is what [create] returned. *)
Definition created (r : option nat) : K Z :=
  match r with
  | None => end_op' ;;; ret (-1)
  | Some ip => infs (iunlockput ip) ;;; end_op' ;;; ret 0
  end.

Definition sys_mkdir : K Z :=
  begin_op' ;;;
  let* path := arg_path 0 in
  let* r := (match path with None => ret None | Some path => create path T_DIR 0 0 end) in
  created r.

Definition sys_mknod : K Z :=
  begin_op' ;;;
  let* path := arg_path 0 in
  let* r :=
    (match path with
     | None => ret None
     | Some path =>
         let* major := argint kdata cur 1 in
         match major with
         | None => ret None
         | Some major =>
             let* minor := argint kdata cur 2 in
             match minor with
             | None => ret None
             | Some minor => create path T_DEV (s16 major) (s16 minor)
             end
         end
     end) in
  created r.

Definition sys_chdir : K Z :=
  begin_op' ;;;
  let* path := arg_path 0 in
  let* d := my_cwd in
  let* r := (match path with None => ret None | Some path => namei d path end) in
  match r with
  | None => end_op' ;;; ret (-1)
  | Some ip =>
      infs (ilock ip) ;;;
      let* p := infs (gets (iof ip)) in
      if negb (i_type p =? T_DIR) then infs (iunlockput ip) ;;; end_op' ;;; ret (-1)
      else
        infs (iunlock ip) ;;;
        (match d with Some d => infs (iput d) | None => panic "trap" end) ;;;
        end_op' ;;;
        pmod cur (set_cwd (Some ip)) ;;;
        ret 0
  end.

(** The loop of [sys_exec] that collects the arguments, [n] entries of [argv]
    being left. *)
Fixpoint exec_args (n : nat) (uargv : Z) : K (option (list (Z * Z))) :=
  match n with
  | O => ret None
  | S n' =>
      let* r := fetchint kdata cur uargv in
      match r with
      | None => ret None
      | Some uarg =>
          if uarg =? 0 then ret (Some [])
          else
            let* r := fetchstr kdata cur uarg in
            match r with
            | None => ret None
            | Some a =>
                let* r := exec_args n' (u32 (uargv + 4)) in
                ret ((fun l => a :: l) <$> r)
            end
      end
  end.

Definition sys_exec : K Z :=
  let* path := arg_path 0 in
  match path with
  | None => ret (-1)
  | Some path =>
      let* uargv := argint kdata cur 1 in
      match uargv with
      | None => ret (-1)
      | Some uargv =>
          let* r := exec_args MAXARG uargv in
          match r with
          | None => ret (-1)
          | Some argv => exec kdata kend ts_addr cur path argv
          end
      end
  end.

Definition sys_pipe : K Z :=
  let* r := argptr kdata cur 0 8 in
  match r with
  | None => ret (-1)
  | Some fd =>
      let* r := fop (pipealloc kend) in
      match r with
      | None => ret (-1)
      | Some (rf, wf) =>
          let bad : K Z := fop (fileclose kend rf) ;;; fop (fileclose kend wf) ;;; ret (-1) in
          let* r0 := fdalloc rf in
          match r0 with
          | None => bad
          | Some fd0 =>
              let* r1 := fdalloc wf in
              match r1 with
              | None => pmod cur (set_fd fd0 None) ;;; bad
              | Some fd1 =>
                  to_user kdata fd tt 0 (le_bytes 4 fd0) ;;;
                  to_user kdata fd tt 4 (le_bytes 4 fd1) ;;;
                  ret 0
              end
          end
      end
  end.
End Sysfile.

(** The entries of [syscalls] that sysfile.c defines, as [Trap.syscall] takes
    them; the other numbers have functions of their own. *)
Definition sys_file {fuel : Fuel} (kdata kend ts_addr : Z) (n : sysno) (cur : nat) : M (kst fio) Z :=
  match n with
  | SYS_pipe => sys_pipe kdata kend cur
  | SYS_read => sys_read kdata cur
  | SYS_exec => sys_exec kdata kend ts_addr cur
  | SYS_fstat => sys_fstat kdata cur
  | SYS_chdir => sys_chdir kdata cur
  | SYS_dup => sys_dup kdata cur
  | SYS_open => sys_open kdata kend cur
  | SYS_write => sys_write kdata cur
  | SYS_mknod => sys_mknod kdata cur
  | SYS_unlink => sys_unlink kdata cur
  | SYS_link => sys_link kdata cur
  | SYS_mkdir => sys_mkdir kdata cur
  | SYS_close => sys_close kdata kend cur
  | _ => ret (-1)
  end.
