(* ===== verification/RefsFile.v ===== *)
(** The accounting of Refs.v for file.c and sysfile.c: which code leaves
    descriptors and counts alone, and how the rest changes them. *)
From S2P Require Import Prelude Monad Mem Mmu Cstring Kalloc Vm Hw FileIface Proc Signal Sysproc.
From S2P Require Import Trap Ring Pipe Sleeplock Disk Bio Log Fs FsData Digits Kbd Console File.
From S2P Require Import Refs Kfile Exec Sysfile.

(** * file.c *)

Section Files.
Context {fuel : Fuel}.
Variable kend : Z.

(** The part of [fileclose] after the table is unlocked. *)
Definition close_rest (ff : file) : FM unit :=
  match f_type ff with
  | FD_PIPE => pipe_close kend (f_pipe ff) (f_writable ff)
  | FD_INODE =>
      infss (inlog begin_op) ;;;
      infss (iput (f_ip ff)) ;;;
      infss (inlog end_op)
  | FD_NONE => ret tt
  end.

Lemma ctx_unlock lk c : Ctx (drop_lock lk (lk :: held c)) (woken c) = c.
Proof. rewrite drop_lock_head. now destruct c. Qed.

Lemma in_head {A} (a : A) l : a ∈ a :: l.
Proof. left. Qed.

Lemma fileclose_eq f c k :
  fileclose kend f c k =
  if decide (LFtable ∈ held c) then Panic "acquire"
  else
    let r := f_ref (fof f (snd k)) in
    if r <? 1 then Panic "fileclose"
    else
      let t := fset f (fset_ref (r - 1)) (snd k) in
      if 0 <? r - 1 then Ret tt c (fst k, t)
      else close_rest (fof f t) c (fst k, fset f (fset_type FD_NONE) (fset f (fset_ref 0) t)).
Proof.
  unfold fileclose, bind, fmod, inio, zoom, acquire, release. destruct (decide _); [done|]. simpl.
  destruct (_ <? 1); [done|]. cbn. destruct (0 <? _); cbn.
  all: rewrite decide_True by apply in_head; cbn; destruct (decide (LFtable = LFtable)); [|done]; destruct c; done.
Qed.

Lemma keepf_close_rest ff : keepf (close_rest ff).
Proof. unfold close_rest, pipe_close. keepf_steps. now apply keepf_modify. Qed.

Lemma olift_put {A} p v (k : ks) (o : outcome (kmem * fio) A) : olift p (fs_put v k) o = olift p k o.
Proof. now destruct o. Qed.

(** The state with the table of files replaced, as a stretch of code leaves it. *)
Lemma running_put p s0 d0 x e s w v f g y (e' : nat -> Z) :
  running x p s0 d0 e s -> ftable (ks_fs s) !! f = Some y -> ftable (snd v) = alter g f (ftable (ks_fs s)) ->
  (f_ref (g y) = 0 -> f_type (g y) = FD_NONE) ->
  (forall h, e' h = e h - (if decide (h = f) then f_ref (g y) - f_ref y else 0)) ->
  running x p s0 d0 e' (wake_all w (fs_put v s)) /\ fds p (wake_all w (fs_put v s)) = fds p s /\
  forall h, h <> f -> ftyp h (wake_all w (fs_put v s)) = ftyp h s.
Proof.
  intros R Ey Ev Hn He. split; [|split].
  - eapply harmless_running; [apply harmless_wake_all|]. eapply running_file; eauto.
  - now rewrite (harmless_fds _ _ (harmless_wake_all w _)).
  - intros h Hh. rewrite (proj2 (harmless_file _ _ (harmless_wake_all w _) h)). unfold ftyp, fof. cbn [ks_fs fs_put set_fs].
    now rewrite Ev, list_lookup_alter_ne by congruence.
Qed.

Lemma find_free_some l i f : find_free l i = Some f ->
  exists y, (i <= f)%nat /\ l !! (f - i)%nat = Some y /\ f_ref y = 0.
Proof.
  revert i. induction l as [|x l IH]; intros i; [done|]. cbn [find_free]. destruct (Z.eqb_spec (f_ref x) 0).
  - intros [= <-]. exists x. rewrite Nat.sub_diag. auto.
  - intros E. destruct (IH (S i) E) as (y & Hi & El & Hy). exists y. split; [lia|]. split; [|done].
    replace (f - i)%nat with (S (f - S i)) by lia. exact El.
Qed.

Lemma filealloc_eq c (k : kmem * fio) :
  filealloc c k =
  if decide (LFtable ∈ held c) then Panic "acquire"
  else
    match find_free (ftable (snd k)) 0 with
    | Some f => Ret (Some f) c (fst k, fset f (fset_ref 1) (snd k))
    | None => Ret None c (fst k, snd k)
    end.
Proof.
  unfold filealloc, bind, inio, zoom, acquire, release. destruct (decide _); [done|]. cbn.
  destruct (find_free _ 0); cbn; rewrite decide_True by apply in_head; cbn;
    (destruct (decide (LFtable = LFtable)); [|done]); now destruct c.
Qed.

(** The state in which a file was taken from the table. *)
Record allocated (p f : nat) (s s' : ks) : Prop := {
  al_type : ftyp f s' = FD_NONE;
  al_ref : 1 <= fref f s';
  al_fds : fds p s' = fds p s;
  al_none : forall h, ftyp h s = FD_NONE -> ftyp h s' = FD_NONE;
  al_refs : forall h, fref h s <= fref h s'
}.

Lemma filealloc_found p s0 d0 x e s f (s' := fs_put (ks_km s, fset f (fset_ref 1) (ks_fs s)) s) :
  running x p s0 d0 e s -> find_free (ftable (ks_fs s)) 0 = Some f ->
  running x p s0 d0 (fun h => e h - owed (Some f) h) s' /\ allocated p f s s'.
Proof.
  intros R E. destruct (find_free_some _ _ _ E) as (y & _ & Ey & Hy). rewrite Nat.sub_0_r in Ey.
  destruct (running_put p s0 d0 x e s [] (ks_km s, fset f (fset_ref 1) (ks_fs s)) f (fset_ref 1) y
    (fun h => e h - owed (Some f) h) R Ey eq_refl) as (R' & F' & T'); [discriminate| |].
  { intros h. unfold owed. cbn [f_ref fset_ref]. rewrite Hy. repeat destruct (decide _); first [lia|congruence]. }
  cbn [wake_all fold_left] in *. fold s' in R', F', T'. split; [exact R'|].
  assert (Ef : fof f (ks_fs s') = fset_ref 1 y) by (unfold fof; cbn; now rewrite list_lookup_alter_eq, Ey).
  assert (N : ftyp f s = FD_NONE) by (apply (wf_none _ _ (rn_wf _ _ _ _ _ _ R)); unfold fref, fof; now rewrite Ey).
  assert (N' : ftyp f s' = FD_NONE) by (unfold ftyp in *; rewrite Ef; unfold fof in N; now rewrite Ey in N).
  split; [exact N'|unfold fref; now rewrite Ef|exact F'| |].
  - intros h Hh. destruct (decide (h = f)) as [->|Hne]; [done|]. now rewrite T'.
  - intros h. unfold fref. destruct (decide (h = f)) as [->|Hne].
    + rewrite Ef. unfold fof. rewrite Ey. cbn. lia.
    + unfold fof. cbn. rewrite list_lookup_alter_ne by congruence. lia.
Qed.

Lemma allocated_harmless p f s s' s'' : allocated p f s s' -> harmless s' s'' -> allocated p f s s''.
Proof.
  intros [A1 A2 A3 A4 A5] H. split.
  - now rewrite (proj2 (harmless_file _ _ H f)).
  - now rewrite (proj1 (harmless_file _ _ H f)).
  - now rewrite (harmless_fds _ _ H).
  - intros h Hh. rewrite (proj2 (harmless_file _ _ H h)). auto.
  - intros h. now rewrite (proj1 (harmless_file _ _ H h)).
Qed.

Lemma obeys_filealloc p s0 d0 x e s c Q :
  running x p s0 d0 e s ->
  (forall f c' s', running x p s0 d0 (fun h => e h - owed (Some f) h) s' -> allocated p f s s' -> Q s0 d0 (Some f) c' s') ->
  (forall c' s', running x p s0 d0 e s' -> harmless s s' -> Q s0 d0 None c' s') ->
  obeys p s0 d0 Q (lift p filealloc c s).
Proof.
  intros R HS HN. unfold lift. rewrite filealloc_eq. destruct (decide _); [exact I|]. cbn [fs_get snd fst].
  destruct (find_free (ftable (ks_fs s)) 0) as [f|] eqn:E; cbn [olift obeys].
  - destruct (filealloc_found _ _ _ _ _ _ _ R E) as [R' A']. pose proof (harmless_wake_all (woken c)
      (fs_put (ks_km s, fset f (fset_ref 1) (ks_fs s)) s)) as Hh.
    apply HS; [now apply (harmless_running _ _ _ _ _ _ _ Hh)|now apply (allocated_harmless _ _ _ _ _ A')].
  - assert (Hh : harmless s (wake_all (woken c) (fs_put (ks_km s, ks_fs s) s))) by now apply harmless_put.
    apply HN; [now apply (harmless_running _ _ _ _ _ s)|exact Hh].
Qed.

Lemma obeys_filedup p s0 d0 x e s f c Q :
  running x p s0 d0 e s ->
  (forall c' s', running x p s0 d0 (fun h => e h - owed (Some f) h) s' -> fds p s' = fds p s ->
     procs_ok s s' -> Q s0 d0 f c' s') ->
  obeys p s0 d0 Q (lift p (filedup f) c s).
Proof.
  intros R HQ. unfold lift, filedup, inio, zoom, bind, acquire, release. cbn [gets obind].
  destruct (decide _); [exact I|]. cbn [obind ozoom fs_get snd fst].
  destruct (Z.ltb_spec (f_ref (fof f (ks_fs s))) 1); [exact I|]. cbn [obind modify].
  rewrite decide_True by apply in_head. cbn [obind ozoom olift ret fst snd].
  destruct (ftable (ks_fs s) !! f) as [y|] eqn:Ey; [|unfold fof in *; rewrite Ey in *; cbn in *; lia].
  assert (Er : f_ref (fof f (ks_fs s)) = f_ref y) by (unfold fof; now rewrite Ey). rewrite Er in *.
  match goal with |- obeys _ _ _ _ (Ret _ _ (wake_all ?w (fs_put ?v s))) =>
    destruct (running_put p s0 d0 x e s w v f (fset_ref (f_ref y + 1)) y (fun h => e h - owed (Some f) h) R Ey eq_refl)
      as (R' & F' & T'); [cbn; lia| |apply HQ; [exact R'|exact F'|]]
  end.
  { intros h. unfold owed. cbn [f_ref fset_ref]. repeat destruct (decide _); first [lia|congruence]. }
  exact (hl_procs _ _ (harmless_wake_all (woken c) (fs_put (ks_km s, fset f (fset_ref (f_ref y + 1)) (ks_fs s)) s))).
Qed.

Lemma awake_close_rest ff : f_type ff <> FD_INODE -> awake (close_rest ff).
Proof.
  intros Hn. unfold close_rest. destruct (f_type ff); [apply awake_ret| |done]. unfold pipe_close.
  apply awake_bind; [|intros both; unfold when; destruct both; [|apply awake_ret]].
  - unfold inpipe, inio. do 2 apply awake_zoom. unfold pipeclose. awake_steps.
  - apply awake_bind; [unfold inio; apply awake_zoom, awake_modify|]. intros _. unfold inmem. apply awake_zoom, awake_kfree.
Qed.

(** The table of files after the count of [f] went down from [f_ref y]. *)
Definition closed (f : nat) (y : file) (t : fio) : fio :=
  let t := fset f (fset_ref (f_ref y - 1)) t in
  if 0 <? f_ref y - 1 then t else fset f (fset_type FD_NONE) (fset f (fset_ref 0) t).

Definition close_file (y : file) : file :=
  if 0 <? f_ref y - 1 then fset_ref (f_ref y - 1) y else fset_type FD_NONE (fset_ref 0 y).

Lemma closed_table f y t : ftable t !! f = Some y -> ftable (closed f y t) = alter (fun _ => close_file y) f (ftable t).
Proof.
  intros E. unfold closed, close_file. apply list_eq. intros h. destruct (decide (h = f)) as [->|Hne].
  - rewrite list_lookup_alter_eq, E. destruct (0 <? _); cbn; rewrite !list_lookup_alter_eq, E; done.
  - rewrite list_lookup_alter_ne by congruence. destruct (0 <? _); cbn; now rewrite !list_lookup_alter_ne by congruence.
Qed.

(** The state after the count of [f] went down. *)
Record lowered (p f : nat) (s s' : ks) : Prop := {
  lo_fds : fds p s' = fds p s;
  lo_procs : procs_ok s s';
  lo_other : forall h, h <> f -> ftyp h s' = ftyp h s;
  lo_type : ftyp f s' = FD_NONE \/ ftyp f s' = ftyp f s
}.

Lemma fileclose_state x p s0 d0 e s f y (s' := fs_put (ks_km s, closed f y (ks_fs s)) s) :
  running x p s0 d0 e s -> ftable (ks_fs s) !! f = Some y -> 1 <= f_ref y ->
  running x p s0 d0 (fun h => e h + owed (Some f) h) s' /\ lowered p f s s'.
Proof.
  intros R Ey Hr. pose proof (closed_table f y (ks_fs s) Ey) as Et.
  destruct (running_put p s0 d0 x e s [] (ks_km s, closed f y (ks_fs s)) f (fun _ => close_file y) y
    (fun h => e h + owed (Some f) h) R Ey Et) as (R' & F' & T').
  { unfold close_file. destruct (Z.ltb_spec 0 (f_ref y - 1)); cbn; [lia|done]. }
  { intros h. unfold owed, close_file. destruct (Z.ltb_spec 0 (f_ref y - 1)); cbn; repeat destruct (decide _); first [lia|congruence]. }
  cbn [wake_all fold_left] in *. fold s' in R', F', T'. split; [exact R'|].
  split; [exact F'|apply (hl_procs _ _ (harmless_refl s))|exact T'|].
  unfold ftyp, fof. cbn [ks_fs fs_put set_fs s' snd]. rewrite Et, list_lookup_alter_eq, Ey. cbn.
  unfold close_file. destruct (0 <? _); [now right|now left].
Qed.

Lemma fileclose_cases f c (k : kmem * fio) :
  (exists msg, fileclose kend f c k = Panic msg) \/
  exists y, ftable (snd k) !! f = Some y /\ 1 <= f_ref y /\
    (fileclose kend f c k = Ret tt c (fst k, closed f y (snd k)) \/
     exists z, f_type z = f_type y /\ fileclose kend f c k = close_rest z c (fst k, closed f y (snd k))).
Proof.
  rewrite fileclose_eq. cbv zeta. destruct (decide _); [left; eauto|].
  destruct (Z.ltb_spec (f_ref (fof f (snd k))) 1) as [|Hr]; [left; eauto|].
  destruct (ftable (snd k) !! f) as [y|] eqn:Ey; [|unfold fof in Hr; rewrite Ey in Hr; cbn in Hr; lia].
  assert (Er : fof f (snd k) = y) by (unfold fof; now rewrite Ey). rewrite Er in *. right. exists y. split; [done|].
  split; [done|]. unfold closed. destruct (0 <? f_ref y - 1); [now left|]. right.
  exists (fof f (fset f (fset_ref (f_ref y - 1)) (snd k))). split; [|done]. unfold fof. cbn. now rewrite list_lookup_alter_eq, Ey.
Qed.

(** Lowering the count: what is left to do is the rest, or nothing. *)
Lemma obeys_fileclose_gen x p s0 d0 e s f c Q :
  running x p s0 d0 e s ->
  (forall y s', running x p s0 d0 (fun h => e h + owed (Some f) h) s' -> lowered p f s s' ->
     Q s0 d0 tt (Ctx (held c) []) (wake_all (woken c) s') /\
     (f_type y = ftyp f s -> obeys p s0 d0 Q (lift p (close_rest y) c s'))) ->
  obeys p s0 d0 Q (lift p (fileclose kend f) c s).
Proof.
  intros R HQ. unfold lift. destruct (fileclose_cases f c (fs_get s)) as [[msg ->]|(y & Ey & Hr & Hc)]; [exact I|].
  cbn [fs_get snd fst] in *. destruct (fileclose_state _ _ _ _ _ _ _ _ R Ey Hr) as [R' L'].
  destruct Hc as [->|(z & Ez & ->)].
  - exact (proj1 (HQ y _ R' L')).
  - rewrite <- (olift_put p (ks_km s, closed f y (ks_fs s))). apply (proj2 (HQ z _ R' L')).
    rewrite Ez. unfold ftyp, fof. now rewrite Ey.
Qed.

(** Closing as the last change of a stretch. *)
Lemma obeys_fileclose p s0 d0 d e s f c :
  running None p s0 d0 e s -> (forall h, e h + owed (Some f) h = owed d h) ->
  (forall h, owed d h <= uses h (fds p s)) ->
  obeys p s0 d0 (fun s1 d1 _ _ s' => ready p s1 d1 d s' /\ fds p s' = fds p s) (lift p (fileclose kend f) c s).
Proof.
  intros R He Ho. eapply obeys_fileclose_gen; [exact R|]. intros y s' R' [F' P T N].
  assert (R1 : ready p s0 d0 d s').
  { split; [|now rewrite F']. destruct R' as [W B G A S]. split; [done| |done|done|].
    - intros h. rewrite <- He. apply B.
    - intros h. rewrite <- He. apply S. }
  split.
  - pose proof (harmless_wake_all (woken c) s') as Hh. split; [now apply (harmless_ready _ _ _ _ s')|].
    rewrite (harmless_fds _ _ Hh). exact F'.
  - intros _. eapply obeys_mono; [exact (quiet_lift p _ (keepf_close_rest y) s0 d0 d c s' R1)|].
    intros s1 d1 a c1 s2 [H2 E2]. split; [done|congruence].
Qed.

(** Closing a file that is not an inode, in the middle of a change. *)
Lemma obeys_fileclose_now x p s0 d0 e s f c Q :
  running x p s0 d0 e s -> ftyp f s <> FD_INODE ->
  (forall c' s', running x p s0 d0 (fun h => e h + owed (Some f) h) s' -> fds p s' = fds p s ->
     (forall h, ftyp h s <> FD_INODE -> ftyp h s' <> FD_INODE) -> Q s0 d0 tt c' s') ->
  obeys p s0 d0 Q (lift p (fileclose kend f) c s).
Proof.
  intros R Hn HQ. eapply obeys_fileclose_gen; [exact R|]. intros y s' R' [F' P T N].
  assert (K : forall h, ftyp h s <> FD_INODE -> ftyp h s' <> FD_INODE).
  { intros h Hh. destruct (decide (h = f)) as [->|Hne]; [destruct N as [->| ->]; congruence|now rewrite T]. }
  split.
  - pose proof (harmless_wake_all (woken c) s') as Hh. apply HQ; [now apply (harmless_running _ _ _ _ _ s')| |].
    + now rewrite (harmless_fds _ _ Hh).
    + intros h Hk. rewrite (proj2 (harmless_file _ _ Hh h)). now apply K.
  - intros Ey. eapply obeys_lift_awake; [apply awake_close_rest; congruence|apply keepf_close_rest|exact R'|].
    intros [] c' s2 Hh R2. apply HQ; [exact R2| |].
    + now rewrite (harmless_fds _ _ Hh).
    + intros h Hk. rewrite (proj2 (harmless_file _ _ Hh h)). now apply K.
Qed.

(** The fields of a file in use. *)
Lemma obeys_fmod p s0 d0 x e s f g c Q :
  running x p s0 d0 e s -> (forall y, f_ref (g y) = f_ref y) ->
  (forall y, f_type (g y) = f_type y) \/ 1 <= fref f s ->
  (forall c' s', running x p s0 d0 e s' -> fds p s' = fds p s -> fref f s' = fref f s ->
     (forall h, h <> f -> ftyp h s' = ftyp h s) -> Q s0 d0 tt c' s') ->
  obeys p s0 d0 Q (lift p (fmod f g) c s).
Proof.
  intros R Hg Ht HQ. unfold lift, fmod, inio, zoom. cbn [modify ozoom olift fst snd fs_get].
  pose proof (harmless_wake_all (woken c) (fs_put (ks_km s, fset f g (ks_fs s)) s)) as Hw.
  destruct (ftable (ks_fs s) !! f) as [y|] eqn:Ey.
  - destruct (running_put p s0 d0 x e s (woken c) (ks_km s, fset f g (ks_fs s)) f g y e R Ey eq_refl) as (R' & F' & T').
    + intros E0. rewrite Hg in E0. assert (Z0 : fref f s = 0) by (unfold fref, fof; now rewrite Ey).
      destruct Ht as [->|Ht]; [|lia]. pose proof (wf_none _ _ (rn_wf _ _ _ _ _ _ R) f Z0) as N.
      unfold ftyp, fof in N. now rewrite Ey in N.
    + intros h. rewrite Hg. destruct (decide _); lia.
    + apply HQ; [exact R'|exact F'| |exact T']. rewrite (proj1 (harmless_file _ _ Hw f)). unfold fref, fof. cbn.
      rewrite list_lookup_alter_eq, Ey. cbn. apply Hg.
  - assert (Et : ftable (fset f g (ks_fs s)) = ftable (ks_fs s)).
    { cbn. apply list_eq. intros h. destruct (decide (h = f)) as [->|Hne]; [now rewrite list_lookup_alter_eq, Ey|].
      now rewrite list_lookup_alter_ne by congruence. }
    assert (Hh : harmless s (wake_all (woken c) (fs_put (ks_km s, fset f g (ks_fs s)) s))).
    { eapply harmless_trans; [|exact Hw]. now apply harmless_same. }
    apply HQ; [now apply (harmless_running _ _ _ _ _ s)|now apply harmless_fds|exact (proj1 (harmless_file _ _ Hh f))|].
    intros h _. exact (proj2 (harmless_file _ _ Hh h)).
Qed.

End Files.

(** * The contents of files, directories and paths *)

Section Content.
Context {fuel : Fuel}.
Variables kdata kend ts_addr : Z.
Variable cur : nat.
Abbreviation K := (M (kst fio)).
#[local] Instance r_fs : HasFs (kst fio) := k_fs cur.
#[local] Instance r_con : HasConsole (kst fio) := k_con cur.
#[local] Instance r_dev : Devices (kst fio) := devsw cur.

Lemma quiet_infs {A} (m : M fsst A) : quiet cur (infs m).
Proof. apply quiet_lift, keepf_infss. Qed.
Lemma quiet_incons {A} (m : M console A) : quiet cur (incons m).
Proof. apply quiet_lift, keepf_incon. Qed.
Lemma quiet_is_killed : quiet cur (is_killed cur).
Proof. apply quiet_gets. Qed.
Lemma quiet_to_user dst u tot bs : quiet cur (to_user kdata dst u tot bs).
Proof. apply silent_quiet. unfold to_user. silent_steps. Qed.
Lemma quiet_from_user src tot n : quiet cur (from_user kdata src tot n).
Proof. apply silent_quiet. unfold from_user. silent_steps. Qed.
Lemma quiet_to_local l tot bs : quiet cur (to_local l tot bs).
Proof. apply quiet_ret. Qed.
Lemma quiet_from_local l tot m : quiet cur (from_local l tot m).
Proof. apply quiet_ret. Qed.
Hint Resolve quiet_infs quiet_incons quiet_is_killed quiet_to_user quiet_from_user quiet_to_local quiet_from_local : quiet.

Lemma quiet_wait_input n : quiet cur (wait_input (is_killed cur) n).
Proof. induction n as [|n IH]; cbn [wait_input]; quiet_steps. Qed.
Hint Resolve quiet_wait_input : quiet.

Section Put.
Context {L : Type} (put : L -> Z -> list Z -> K L).
Hypothesis Hput : forall l tot bs, quiet cur (put l tot bs).
Hint Resolve Hput : quiet.

Lemma quiet_consoleread_from n m target l : quiet cur (consoleread_from (is_killed cur) n m target put l).
Proof. revert l. induction m as [|m IH]; intros l; cbn [consoleread_from]; quiet_steps; auto. Qed.
Hint Resolve quiet_consoleread_from : quiet.

Lemma quiet_consoleread ip l n : quiet cur (consoleread cur ip put l n).
Proof. unfold consoleread, consoleread_locked. quiet_steps. Qed.

Lemma quiet_readi_from r l i tot off n : quiet cur (readi_from r put l i tot off n).
Proof. revert l tot off. induction r as [|r IH]; intros l tot off; cbn [readi_from]; quiet_steps; auto. Qed.
Hint Resolve quiet_readi_from : quiet.

Lemma quiet_readi i l off n : quiet cur (readi i put l off n).
Proof.
  unfold readi. cbn [dev_read r_dev devsw]. quiet_steps. apply quiet_consoleread.
Qed.
End Put.
Hint Resolve quiet_readi : quiet.

Section Fetch.
Variable fetch : Z -> Z -> K (list Z).
Hypothesis Hfetch : forall tot n, quiet cur (fetch tot n).
Hint Resolve Hfetch : quiet.

Lemma quiet_consolewrite ip n : quiet cur (consolewrite cur ip fetch n).
Proof. unfold consolewrite, consolewrite_locked. quiet_steps. Qed.

Lemma quiet_writei_from r i tot off n : quiet cur (writei_from r fetch i tot off n).
Proof. revert tot off. induction r as [|r IH]; intros tot off; cbn [writei_from]; quiet_steps; auto. Qed.
Hint Resolve quiet_writei_from : quiet.

Lemma quiet_writei i off n : quiet cur (writei i fetch off n).
Proof.
  unfold writei. cbn [dev_write r_dev devsw]. quiet_steps. apply quiet_consolewrite.
Qed.
End Fetch.
Hint Resolve quiet_writei : quiet.

Lemma quiet_dirlookup_from k dp name off : quiet cur (dirlookup_from k dp name off).
Proof. revert off. induction k as [|k IH]; intros off; cbn [dirlookup_from]; quiet_steps; auto. Qed.
Hint Resolve quiet_dirlookup_from : quiet.
Lemma quiet_dirlookup dp name : quiet cur (dirlookup dp name).
Proof. unfold dirlookup. quiet_steps. Qed.
Hint Resolve quiet_dirlookup : quiet.
Lemma quiet_dirlink_from k dp off : quiet cur (dirlink_from k dp off).
Proof. revert off. induction k as [|k IH]; intros off; cbn [dirlink_from]; quiet_steps; auto. Qed.
Hint Resolve quiet_dirlink_from : quiet.
Lemma quiet_dirlink dp name inum : quiet cur (dirlink dp name inum).
Proof. unfold dirlink. quiet_steps. Qed.
Hint Resolve quiet_dirlink : quiet.

Lemma quiet_namex_from k ip path b name : quiet cur (namex_from k ip path b name).
Proof. revert ip path name. induction k as [|k IH]; intros ip path name; cbn [namex_from]; quiet_steps; auto. Qed.
Hint Resolve quiet_namex_from : quiet.
Lemma quiet_namex d path b name : quiet cur (namex d path b name).
Proof. unfold namex. quiet_steps. Qed.
Hint Resolve quiet_namex : quiet.
Lemma quiet_namei d path : quiet cur (namei d path).
Proof. unfold namei. quiet_steps. Qed.
Lemma quiet_nameiparent d path name : quiet cur (nameiparent d path name).
Proof. apply quiet_namex. Qed.
Hint Resolve quiet_namei quiet_nameiparent : quiet.

(** * Arguments *)

Lemma silent_uload va : silent (uload kdata va).
Proof. unfold uload. silent_steps. Qed.
Lemma silent_uload8 va : silent (uload8 kdata va).
Proof. unfold uload8. silent_steps. Qed.
Hint Resolve silent_uload silent_uload8 : silent.
Lemma silent_fetchint addr : silent (fetchint kdata cur addr).
Proof. unfold fetchint. silent_steps. Qed.
Hint Resolve silent_fetchint : silent.
Lemma silent_fetchstr_from n s addr : silent (fetchstr_from kdata n s addr).
Proof. revert s. induction n as [|n IH]; intros s; cbn [fetchstr_from]; silent_steps. Qed.
Hint Resolve silent_fetchstr_from : silent.
Lemma silent_fetchstr addr : silent (fetchstr kdata cur addr).
Proof. unfold fetchstr. silent_steps. Qed.
Hint Resolve silent_fetchstr : silent.
Lemma silent_argint n : silent (argint kdata cur n).
Proof. unfold argint. silent_steps. Qed.
Hint Resolve silent_argint : silent.
Lemma silent_argptr n size : silent (argptr kdata cur n size).
Proof. unfold argptr. silent_steps. Qed.
Lemma silent_argstr n : silent (argstr kdata cur n).
Proof. unfold argstr. silent_steps. Qed.
Lemma silent_argfd n : silent (argfd kdata cur n).
Proof. unfold argfd. silent_steps. Qed.
Hint Resolve silent_argptr silent_argstr silent_argfd : silent.
Lemma silent_from_user src tot n : silent (from_user kdata src tot n).
Proof. unfold from_user. silent_steps. Qed.
Lemma silent_to_user dst u tot bs : silent (to_user kdata dst u tot bs).
Proof. unfold to_user. silent_steps. Qed.
Hint Resolve silent_from_user silent_to_user : silent.
Lemma silent_rw_args : silent (rw_args kdata cur).
Proof. unfold rw_args. silent_steps. Qed.
Lemma silent_arg_path n : silent (arg_path kdata cur n).
Proof. unfold arg_path. silent_steps. Qed.
Lemma silent_exec_args n u : silent (exec_args kdata cur n u).
Proof. revert u. induction n as [|n IH]; intros u; cbn [exec_args]; silent_steps; auto. Qed.
Hint Resolve silent_rw_args silent_arg_path silent_exec_args : silent.

(** * Reading and writing *)

Lemma quiet_pipe_loop {A L} n p (step : bool -> L -> M pipe (blk A L)) l : quiet cur (pipe_loop cur n p step l).
Proof. revert l. induction n as [|n IH]; intros l; cbn [pipe_loop]; unfold file_op; quiet_steps. Qed.
Hint Resolve quiet_pipe_loop : quiet.
Lemma quiet_piperead p addr n : quiet cur (piperead kdata cur p addr n).
Proof. unfold piperead, file_op. quiet_steps. Qed.
Lemma quiet_pipewrite p addr n : quiet cur (pipewrite kdata cur p addr n).
Proof. unfold pipewrite, file_op. quiet_steps. Qed.
Hint Resolve quiet_piperead quiet_pipewrite : quiet.
Lemma quiet_fileread f addr n : quiet cur (fileread kdata cur f addr n).
Proof. unfold fileread, file_op. quiet_steps. Qed.
Lemma quiet_filewrite_from r f ip addr i n : quiet cur (filewrite_from kdata cur r f ip addr i n).
Proof. revert i. induction r as [|r IH]; intros i; cbn [filewrite_from]; unfold file_op; quiet_steps. Qed.
Hint Resolve quiet_filewrite_from : quiet.
Lemma quiet_filewrite f addr n : quiet cur (filewrite kdata cur f addr n).
Proof. unfold filewrite, file_op. quiet_steps. Qed.
Hint Resolve quiet_fileread quiet_filewrite : quiet.

(** * The calls that leave descriptors alone *)

Lemma quiet_sys_read : quiet cur (sys_read kdata cur).
Proof. unfold sys_read. quiet_steps. Qed.
Lemma quiet_sys_write : quiet cur (sys_write kdata cur).
Proof. unfold sys_write. quiet_steps. Qed.
Lemma quiet_sys_fstat : quiet cur (sys_fstat kdata cur).
Proof. unfold sys_fstat, fop, file_op, filestat. quiet_steps. Qed.
Lemma quiet_sys_link : quiet cur (sys_link kdata cur).
Proof. unfold sys_link, begin_op', end_op', my_cwd. quiet_steps. Qed.
Lemma quiet_isdirempty_from k dp off : quiet cur (isdirempty_from cur k dp off).
Proof. revert off. induction k as [|k IH]; intros off; cbn [isdirempty_from]; quiet_steps; auto. Qed.
Hint Resolve quiet_isdirempty_from : quiet.
Lemma quiet_unlink_in dp name : quiet cur (unlink_in cur dp name).
Proof. unfold unlink_in, isdirempty, end_op'. quiet_steps. Qed.
Hint Resolve quiet_unlink_in : quiet.
Lemma quiet_sys_unlink : quiet cur (sys_unlink kdata cur).
Proof. unfold sys_unlink, begin_op', end_op', my_cwd. quiet_steps. Qed.
Lemma quiet_create path type major minor : quiet cur (create cur path type major minor).
Proof. unfold create, my_cwd. quiet_steps. Qed.
Hint Resolve quiet_create : quiet.
Lemma quiet_created r : quiet cur (created cur r).
Proof. unfold created, end_op'. quiet_steps. Qed.
Hint Resolve quiet_created : quiet.
Lemma quiet_sys_mkdir : quiet cur (sys_mkdir kdata cur).
Proof. unfold sys_mkdir, begin_op'. quiet_steps. Qed.
Lemma quiet_sys_mknod : quiet cur (sys_mknod kdata cur).
Proof. unfold sys_mknod, begin_op'. quiet_steps. Qed.
Lemma quiet_sys_chdir : quiet cur (sys_chdir kdata cur).
Proof. unfold sys_chdir, begin_op', end_op', my_cwd. quiet_steps. Qed.

(** ** exec *)

Lemma quiet_loaduvm_from n (rd : Z -> Z -> Z -> K Z) pgdir addr off i sz :
  (forall a o m, quiet cur (rd a o m)) -> quiet cur (loaduvm_from (@inkm fio) n rd pgdir addr off i sz).
Proof. intros Hr. revert i. induction n as [|n IH]; intros i; cbn [loaduvm_from]; quiet_steps; auto. Qed.
Lemma quiet_loaduvm (rd : Z -> Z -> Z -> K Z) pgdir addr off sz :
  (forall a o m, quiet cur (rd a o m)) -> quiet cur (loaduvm (@inkm fio) rd pgdir addr off sz).
Proof. intros Hr. unfold loaduvm. quiet_steps. now apply quiet_loaduvm_from. Qed.

Lemma quiet_copyout_from n (nw : K Z) fetch pgdir va tot len :
  quiet cur nw -> (forall t m, quiet cur (fetch t m)) -> quiet cur (copyout_from (@inkm fio) n nw fetch pgdir va tot len).
Proof.
  intros Hn Hf. revert va tot len. induction n as [|n IH]; intros va tot len; cbn [copyout_from]; unfold uva2ka; quiet_steps; auto.
Qed.
Lemma quiet_copyout (nw : K Z) fetch pgdir va len :
  quiet cur nw -> (forall t m, quiet cur (fetch t m)) -> quiet cur (copyout (@inkm fio) nw fetch pgdir va len).
Proof. intros Hn Hf. unfold copyout. now apply quiet_copyout_from. Qed.

Lemma quiet_to_kernel a u tot bs : quiet cur (to_kernel a u tot bs).
Proof. apply silent_quiet. unfold to_kernel. silent_steps. Qed.
Hint Resolve quiet_to_kernel : quiet.
Lemma quiet_readi_at ip a off n : quiet cur (readi_at cur ip a off n).
Proof. unfold readi_at. quiet_steps. Qed.
Hint Resolve quiet_readi_at quiet_loaduvm : quiet.
Lemma quiet_load_segments n ip pgdir off sz : quiet cur (load_segments kend cur n ip pgdir off sz).
Proof. revert off sz. induction n as [|n IH]; intros off sz; cbn [load_segments]; quiet_steps; auto. Qed.
Hint Resolve quiet_load_segments : quiet.
Lemma quiet_load_program ip : quiet cur (load_program kdata kend cur ip).
Proof. unfold load_program. quiet_steps. Qed.
Lemma quiet_uload va : quiet cur (uload kdata va).
Proof. apply silent_quiet, silent_uload. Qed.
Lemma quiet_copy_user pgdir sp src len : quiet cur (copy_user kdata pgdir sp src len).
Proof. unfold copy_user. apply quiet_copyout; [apply quiet_uload|]. auto with quiet. Qed.
Lemma quiet_copy_local pgdir sp bs : quiet cur (copy_local kdata pgdir sp bs).
Proof. unfold copy_local. apply quiet_copyout; [apply quiet_uload|]. auto with quiet. Qed.
Hint Resolve quiet_load_program quiet_copy_user quiet_copy_local : quiet.
Lemma quiet_push_args argv argc pgdir sp us : quiet cur (push_args kdata argv argc pgdir sp us).
Proof. revert argc sp us. induction argv as [|[s len] argv IH]; intros argc sp us; cbn [push_args]; quiet_steps; auto. Qed.
Hint Resolve quiet_push_args : quiet.
Lemma quiet_build_stack pgdir sz argv : quiet cur (build_stack kdata kend pgdir sz argv).
Proof. unfold build_stack. quiet_steps. Qed.
Lemma quiet_exec_commit path pgdir sz sp entry : quiet cur (exec_commit kend ts_addr cur path pgdir sz sp entry).
Proof. unfold exec_commit. quiet_steps. Qed.
Hint Resolve quiet_build_stack quiet_exec_commit : quiet.
Lemma quiet_exec path argv : quiet cur (exec kdata kend ts_addr cur path argv).
Proof. unfold exec. quiet_steps. Qed.
Hint Resolve quiet_exec : quiet.
Lemma quiet_sys_exec : quiet cur (sys_exec kdata kend ts_addr cur).
Proof. unfold sys_exec. quiet_steps. Qed.

(** * The calls that change descriptors *)

(** A step of [obeys] through quiet code. *)
Lemma obeys_quiet {A B} (m : M ks A) (k : A -> M ks B) s0 d0 d c s Q :
  quiet cur m -> ready cur s0 d0 d s ->
  (forall s1 d1 a c' s', ready cur s1 d1 d s' -> fds cur s' = fds cur s -> obeys cur s1 d1 Q (k a c' s')) ->
  obeys cur s0 d0 Q (bind m k c s).
Proof.
  intros Hm R HQ. apply obeys_bind. eapply obeys_mono; [exact (Hm s0 d0 d c s R)|].
  intros s1 d1 a c1 s2 [H2 E2]. now apply HQ.
Qed.

(** What a system call promises: nothing owed at its start and at its end. *)
Definition settled {A} (m : M ks A) : Prop :=
  forall s0 d0 c s, ready cur s0 d0 None s ->
    obeys cur s0 d0 (fun s1 d1 _ _ s' => ready cur s1 d1 None s') (m c s).

Lemma quiet_settled {A} (m : M ks A) : quiet cur m -> settled m.
Proof. intros H s0 d0 c s R. eapply obeys_mono; [exact (H s0 d0 None c s R)|]. now intros ? ? ? ? ? []. Qed.

Lemma settled_bind {A B} (m : M ks A) (f : A -> M ks B) : settled m -> (forall a, settled (f a)) -> settled (bind m f).
Proof.
  intros Hm Hf s0 d0 c s R. apply obeys_bind. eapply obeys_mono; [exact (Hm s0 d0 c s R)|].
  intros s1 d1 a c1 s2 R2. now apply Hf.
Qed.

Lemma owed_none f : owed None f = 0.
Proof. done. Qed.

(** A running process owes nothing when its excess is zero. *)
Lemma running_ready s0 d0 e s : running None cur s0 d0 e s -> (forall f, e f = 0) -> ready cur s0 d0 None s.
Proof.
  intros [W B G A S] He. split; [|intros f; apply uses_nonneg]. split; [done| |done|done|].
  - intros f. rewrite B, He. done.
  - intros f. specialize (S f). rewrite He in S. exact S.
Qed.

(** The first free descriptor. *)
Lemma find_fd_some l i fd : 0 <= i -> find_fd l i = Some fd -> i <= fd /\ l !! Z.to_nat (fd - i) = Some None.
Proof.
  revert i. induction l as [|o l IH]; intros i Hi; [done|]. cbn [find_fd]. destruct o as [g|].
  - intros E. destruct (IH (i + 1) ltac:(lia) E) as [H1 H2]. split; [lia|].
    replace (Z.to_nat (fd - i)) with (S (Z.to_nat (fd - (i + 1)))) by lia. exact H2.
  - intros [= <-]. split; [lia|]. now rewrite Z.sub_diag.
Qed.

Lemma alive_proc p s : alive p s -> exists q, ptable s !! p = Some q /\ pget p s = q.
Proof. intros (q & E & _). exists q. split; [done|]. unfold pget. now rewrite E. Qed.

(** Assignment to a descriptor of the process. *)
Lemma obeys_set_ofile x s0 d0 e s i o o' c Q :
  running x cur s0 d0 e s -> fds cur s !! i = Some o ->
  (forall s', running x cur s0 d0 (fun h => e h - owed o h + owed o' h) s' ->
     fds cur s' = <[i := o']> (fds cur s) -> (forall h, fref h s' = fref h s /\ ftyp h s' = ftyp h s) -> Q s0 d0 tt c s') ->
  obeys cur s0 d0 Q (pmod cur (fun q => set_ofile (<[i := o']> (ofile q)) q) c s).
Proof.
  intros R Eo HQ. destruct (alive_proc cur s (rn_alive _ _ _ _ _ _ R)) as (q & Eq & Eg).
  unfold fds in Eo. rewrite Eg in Eo. cbn [obeys pmod modify].
  apply HQ; [|now unfold fds; rewrite (pget_pset_eq _ _ _ _ Eq), Eg|done].
  eapply (running_fd cur s0 d0 x s (pset cur (fun q => set_ofile (<[i := o']> (ofile q)) q) s) cur q i o o' Eq Eo eq_refl eq_refl);
    [exact R|now left|].
  intros h. unfold owed. reflexivity.
Qed.

Lemma obeys_set_fd x s0 d0 e s fd o o' c Q :
  running x cur s0 d0 e s -> fds cur s !! Z.to_nat fd = Some o ->
  (forall s', running x cur s0 d0 (fun h => e h - owed o h + owed o' h) s' ->
     fds cur s' = aset (fds cur s) fd o' -> (forall h, fref h s' = fref h s /\ ftyp h s' = ftyp h s) -> Q s0 d0 tt c s') ->
  obeys cur s0 d0 Q (pmod cur (set_fd fd o') c s).
Proof. apply obeys_set_ofile. Qed.

Lemma obeys_fdalloc x s0 d0 e s f c Q :
  running x cur s0 d0 e s ->
  (forall fd s', running x cur s0 d0 (fun h => e h + owed (Some f) h) s' ->
     0 <= fd -> fds cur s' = aset (fds cur s) fd (Some f) -> fds cur s' !! Z.to_nat fd = Some (Some f) ->
     (forall h, fref h s' = fref h s /\ ftyp h s' = ftyp h s) ->
     Q s0 d0 (Some fd) c s') ->
  Q s0 d0 None c s ->
  obeys cur s0 d0 Q (fdalloc cur f c s).
Proof.
  intros R HS HN. unfold fdalloc. apply obeys_bind. cbn [obeys gets]. fold (fds cur s).
  destruct (find_fd (fds cur s) 0) as [fd|] eqn:E; [|exact HN].
  destruct (find_fd_some _ 0 _ ltac:(lia) E) as [Hfd Hn]. rewrite Z.sub_0_r in Hn.
  apply obeys_bind. eapply obeys_set_fd; [exact R|exact Hn|]. intros s' R' F' T'. cbn [obeys ret].
  apply HS; [|exact Hfd|exact F'| |exact T'].
  - destruct R' as [W B G A S]. split; [done| |done|done|].
    + intros h. rewrite B. unfold owed. cbn. repeat destruct (decide _); first [lia|congruence].
    + intros h. specialize (S h). unfold owed in *. cbn in S. repeat destruct (decide _); first [lia|congruence].
  - rewrite F'. unfold aset. apply list_lookup_insert_eq. now apply lookup_lt_Some in Hn.
Qed.

Lemma running_ext x s0 d0 e e' s : running x cur s0 d0 e s -> (forall f, e' f = e f) -> running x cur s0 d0 e' s.
Proof.
  intros [W B G A S] He. split; [done| |done|done|]; intros f; rewrite He; [apply B|apply S].
Qed.

Lemma obeys_argfd x s0 d0 e s n c Q :
  running x cur s0 d0 e s ->
  (forall r c' s', running x cur s0 d0 e s' ->
     match r with Some (fd, f) => 0 <= fd /\ fds cur s' !! Z.to_nat fd = Some (Some f) | None => True end ->
     Q s0 d0 r c' s') ->
  obeys cur s0 d0 Q (argfd kdata cur n c s).
Proof.
  intros R HQ. unfold argfd. apply obeys_bind. eapply obeys_silent; [apply silent_argint|exact R|].
  intros r c' s' _ R'. destruct r as [w|]; [|now apply HQ].
  destruct (Z.ltb_spec (s32 w) 0); [now apply HQ|]. cbn [orb]. destruct (_ <=? _); [now apply HQ|].
  apply obeys_bind. cbn [obeys gets ret]. apply HQ; [done|]. unfold aget. fold (fds cur s').
  destruct (fds cur s' !! Z.to_nat (s32 w)) as [[f|]|] eqn:E; cbn; [|done..]. split; [done|exact E].
Qed.

Lemma settled_sys_dup : settled (sys_dup kdata cur).
Proof.
  intros s0 d0 c s R. unfold sys_dup. apply obeys_bind. eapply obeys_argfd; [apply R|].
  intros [[fd f]|] c1 s1 R1 H1; [|now apply (running_ready _ _ (owed None))].
  apply obeys_bind. eapply obeys_fdalloc; [exact R1| |now apply (running_ready _ _ (owed None))].
  intros fd' s2 R2 _ _ _ _. unfold fop, file_op. apply obeys_bind. eapply obeys_filedup; [exact R2|].
  intros c3 s3 R3 _ _. apply (running_ready _ _ _ _ R3). intros h. rewrite owed_none. lia.
Qed.

Lemma settled_sys_close : settled (sys_close kdata kend cur).
Proof.
  intros s0 d0 c s R. unfold sys_close. apply obeys_bind. eapply obeys_argfd; [apply R|].
  intros [[fd f]|] c1 s1 R1 H1; [|now apply (running_ready _ _ (owed None))]. destruct H1 as [Hfd Ef].
  apply obeys_bind. eapply obeys_set_fd; [exact R1|exact Ef|]. intros s2 R2 _ _.
  unfold fop, file_op. apply obeys_bind. eapply obeys_mono.
  - apply (obeys_fileclose kend cur s0 d0 None _ s2 f c1 R2); intros h; [rewrite !owed_none; lia|].
    rewrite owed_none. apply uses_nonneg.
  - now intros s3 d3 [] c3 s4 [R4 _].
Qed.

(** The fields of the new file are set after [end_op] may have slept; the
    descriptor keeps its count above zero. *)
Lemma settled_open_fields f fd ip omode :
  forall s0 d0 c s, ready cur s0 d0 None s -> fds cur s !! Z.to_nat fd = Some (Some f) ->
    obeys cur s0 d0 (fun s1 d1 _ _ s' => ready cur s1 d1 None s')
      ((fop cur (fmod f (fset_type FD_INODE)) ;;;
        fop cur (fmod f (fset_ip ip)) ;;;
        fop cur (fmod f (fset_off 0)) ;;;
        fop cur (fmod f (fset_mode (Z.land omode O_WRONLY =? 0)
                      (negb (Z.land omode O_WRONLY =? 0) || negb (Z.land omode O_RDWR =? 0)))) ;;;
        ret fd) c s).
Proof.
  intros s0 d0 c s [R _] Ef. unfold fop, file_op.
  assert (L : 1 <= fref f s).
  { pose proof (rn_share _ _ _ _ _ _ R f) as Sh. rewrite owed_none in Sh. pose proof (uses_in _ _ _ Ef). lia. }
  apply obeys_bind. eapply obeys_fmod; [exact R|done|now right|]. intros c1 s1 R1 _ _ _.
  do 3 (apply obeys_bind; eapply obeys_fmod; [eassumption|done|now left|]; intros ? ? ? _ _ _).
  now apply (running_ready _ _ (owed None)).
Qed.

Lemma settled_open_file ip omode : settled (open_file kend cur ip omode).
Proof.
  intros s0 d0 c s R. unfold open_file, fop, file_op, end_op'. apply obeys_bind. eapply obeys_filealloc; [apply R| |].
  - intros f c1 s1 R1 _. apply obeys_bind. eapply obeys_fdalloc; [exact R1| |].
    + intros fd s2 R2 Hfd _ Ef _.
      assert (R3 : ready cur s0 d0 None s2) by (apply (running_ready _ _ _ _ R2); intros h; rewrite owed_none; lia).
      eapply obeys_quiet; [apply quiet_infs|exact R3|]. intros s4 d4 a4 c4 s5 R5 F5.
      eapply obeys_quiet; [apply quiet_infs|exact R5|]. intros s6 d6 a6 c6 s7 R7 F7.
      apply settled_open_fields; [done|]. now rewrite F7, F5.
    + apply obeys_bind. eapply obeys_mono.
      * apply (obeys_fileclose kend cur s0 d0 None _ s1 f _ R1); intros h; [rewrite !owed_none; lia|].
        rewrite owed_none. apply uses_nonneg.
      * intros s3 d3 [] c3 s4 [R4 _]. eapply quiet_settled; [|exact R4]. quiet_steps.
  - intros c1 s1 R1 _. eapply quiet_settled; [|now apply (running_ready _ _ (owed None))]. quiet_steps.
Qed.

Lemma settled_sys_open : settled (sys_open kdata kend cur).
Proof.
  unfold sys_open. apply settled_bind; [apply quiet_settled; quiet_steps|]. intros [path|]; [|apply quiet_settled, quiet_ret].
  apply settled_bind; [apply quiet_settled; quiet_steps|]. intros [omode|]; [|apply quiet_settled, quiet_ret].
  unfold begin_op', end_op', my_cwd. apply settled_bind; [apply quiet_settled; quiet_steps|]. intros _.
  destruct (negb _).
  - apply settled_bind; [apply quiet_settled; quiet_steps|]. intros [ip|]; [apply settled_open_file|].
    apply quiet_settled. quiet_steps.
  - apply settled_bind; [apply quiet_settled; quiet_steps|]. intros d.
    apply settled_bind; [apply quiet_settled; quiet_steps|]. intros [ip|]; [|apply quiet_settled; quiet_steps].
    apply settled_bind; [apply quiet_settled; quiet_steps|]. intros _.
    apply settled_bind; [apply quiet_settled; quiet_steps|]. intros p.
    destruct (_ && _); [apply quiet_settled; quiet_steps|apply settled_open_file].
Qed.

(** ** pipe *)

(** A first part that does not sleep, of code run as one piece. *)
Lemma obeys_lift_bind {A B} s0 d0 (m : FM A) (k : A -> FM B) c s Q :
  match m c (fs_get s) with
  | Ret a c' v => obeys cur s0 d0 Q (lift cur (k a) c' (fs_put v s))
  | Sleep _ _ _ _ => False
  | _ => True
  end -> obeys cur s0 d0 Q (lift cur (bind m k) c s).
Proof.
  intros H. unfold lift, bind. destruct (m c (fs_get s)) as [a c' v| | |]; simpl in *; try done.
  unfold lift in H. rewrite olift_put in H. destruct v. exact H.
Qed.

(** The same for a part that keeps counts and types. *)
Lemma obeys_lift_keep {A B} x s0 d0 e (m : FM A) (k : A -> FM B) c s Q :
  awake m -> keepf m -> running x cur s0 d0 e s ->
  (forall a c' s', harmless s s' -> running x cur s0 d0 e s' -> obeys cur s0 d0 Q (lift cur (k a) c' s')) ->
  obeys cur s0 d0 Q (lift cur (bind m k) c s).
Proof.
  intros Ha Hk R HQ. apply obeys_lift_bind. specialize (Ha c (fs_get s)). specialize (Hk c (fs_get s)).
  destruct (m c (fs_get s)) as [a c' v| | |]; try done. simpl in Hk.
  pose proof (harmless_put [] v s Hk) as Hh. cbn [wake_all fold_left] in Hh. apply HQ; [done|].
  now apply (harmless_running _ _ _ _ _ s).
Qed.

Lemma obeys_lift_filealloc {B} x s0 d0 e (k : option nat -> FM B) c s Q :
  running x cur s0 d0 e s ->
  (forall f s', running x cur s0 d0 (fun h => e h - owed (Some f) h) s' -> allocated cur f s s' ->
     obeys cur s0 d0 Q (lift cur (k (Some f)) c s')) ->
  (forall s', running x cur s0 d0 e s' -> harmless s s' -> obeys cur s0 d0 Q (lift cur (k None) c s')) ->
  obeys cur s0 d0 Q (lift cur (bind filealloc k) c s).
Proof.
  intros R HS HN. apply obeys_lift_bind. rewrite filealloc_eq. destruct (decide _); [exact I|]. cbn [fs_get snd fst].
  destruct (find_free (ftable (ks_fs s)) 0) as [f|] eqn:E.
  - destruct (filealloc_found _ _ _ _ _ _ _ R E) as [R' A']. now apply HS.
  - assert (Hh : harmless s (fs_put (ks_km s, ks_fs s) s)) by now apply harmless_same.
    apply HN; [now apply (harmless_running _ _ _ _ _ s)|exact Hh].
Qed.

Lemma obeys_lift_close {B} x s0 d0 e f (k : unit -> FM B) c s Q :
  running x cur s0 d0 e s -> ftyp f s = FD_NONE ->
  (forall s', running x cur s0 d0 (fun h => e h + owed (Some f) h) s' -> lowered cur f s s' ->
     obeys cur s0 d0 Q (lift cur (k tt) c s')) ->
  obeys cur s0 d0 Q (lift cur (bind (fileclose kend f) k) c s).
Proof.
  intros R N HQ. apply obeys_lift_bind.
  destruct (fileclose_cases kend f c (fs_get s)) as [[msg ->]|(y & Ey & Hr & Hc)]; [exact I|].
  cbn [fs_get snd fst] in *. destruct (fileclose_state _ _ _ _ _ _ _ _ R Ey Hr) as [R' L'].
  destruct Hc as [->|(z & Ez & ->)]; [now apply HQ|]. unfold close_rest. unfold ftyp, fof in N. rewrite Ey in N. cbn in N.
  rewrite Ez, N. now apply HQ.
Qed.

Lemma obeys_lift_fmod {B} x s0 d0 e f g (k : unit -> FM B) c s Q :
  running x cur s0 d0 e s -> (forall y, f_ref (g y) = f_ref y) -> 1 <= fref f s ->
  (forall s', running x cur s0 d0 e s' -> fds cur s' = fds cur s -> (forall h, fref h s' = fref h s) ->
     (forall h, h <> f -> ftyp h s' = ftyp h s) -> (forall y, fof f (ks_fs s) = y -> ftyp f s' = f_type (g y)) ->
     obeys cur s0 d0 Q (lift cur (k tt) c s')) ->
  obeys cur s0 d0 Q (lift cur (bind (fmod f g) k) c s).
Proof.
  intros R Hg Hr HQ. apply obeys_lift_bind. unfold fmod, inio, zoom. cbn [modify ozoom fst snd fs_get].
  destruct (ftable (ks_fs s) !! f) as [y|] eqn:Ey; [|unfold fref, fof in Hr; rewrite Ey in Hr; cbn in Hr; lia].
  destruct (running_put cur s0 d0 x e s [] (ks_km s, fset f g (ks_fs s)) f g y e R Ey eq_refl) as (R' & F' & T').
  - intros E0. rewrite Hg in E0. unfold fref, fof in Hr. rewrite Ey in Hr. cbn in Hr. lia.
  - intros h. rewrite Hg. destruct (decide _); lia.
  - cbn [wake_all fold_left] in *. apply HQ; [exact R'|exact F'| |exact T'|].
    + intros h. unfold fref, fof. cbn. destruct (decide (h = f)) as [->|Hne].
      * rewrite list_lookup_alter_eq, Ey. apply Hg.
      * now rewrite list_lookup_alter_ne by congruence.
    + intros z <-. unfold ftyp, fof. cbn. now rewrite list_lookup_alter_eq, Ey.
Qed.

Lemma obeys_lift_ret {A} s0 d0 (a : A) c s Q :
  (forall c' s', harmless s s' -> Q s0 d0 a c' s') -> obeys cur s0 d0 Q (lift cur (ret a) c s).
Proof. intros HQ. apply HQ. now apply harmless_put. Qed.

Lemma lowered_none p f s s' h : lowered p f s s' -> ftyp h s = FD_NONE -> ftyp h s' = FD_NONE.
Proof.
  intros [_ _ T N] Hh. destruct (decide (h = f)) as [->|Hne]; [destruct N as [->| ->]; done|now rewrite T].
Qed.

(** Giving back the files that were taken. *)
Lemma obeys_pipe_bad s0 d0 e (f0 f1 : option nat) c s Q :
  running None cur s0 d0 e s ->
  (forall f, f0 = Some f \/ f1 = Some f -> ftyp f s = FD_NONE) -> (forall h, e h + owed f0 h + owed f1 h = 0) ->
  (forall c' s', ready cur s0 d0 None s' -> Q s0 d0 None c' s') ->
  obeys cur s0 d0 Q
    (lift cur (match f0 with Some f => fileclose kend f | None => ret tt end ;;;
               match f1 with Some f => fileclose kend f | None => ret tt end ;;; ret (@None (nat * nat))) c s).
Proof.
  intros R N He HQ.
  assert (Tail : forall e c s, running None cur s0 d0 e s -> (forall f, f1 = Some f -> ftyp f s = FD_NONE) ->
     (forall h, e h + owed f1 h = 0) ->
     obeys cur s0 d0 Q (lift cur (match f1 with Some f => fileclose kend f | None => ret tt end ;;; ret (@None (nat * nat))) c s)).
  { clear - HQ. intros e c s R N He.
    assert (End : forall e c s, running None cur s0 d0 e s -> (forall h, e h = 0) -> obeys cur s0 d0 Q (lift cur (ret None) c s)).
    { clear - HQ. intros e c s R He. apply obeys_lift_ret. intros c' s' Hh. apply HQ.
      apply (running_ready _ _ e); [|done]. now apply (harmless_running _ _ _ _ _ s). }
    destruct f1 as [f|].
    - eapply obeys_lift_close; [exact R|now apply N|]. intros s' R' _. now apply (End _ _ _ R').
    - apply obeys_lift_bind. cbn. apply (End e); [|intros h; specialize (He h); rewrite owed_none in He; lia].
      apply (harmless_running _ _ _ _ _ s); [now apply harmless_same|exact R]. }
  destruct f0 as [f|].
  - eapply obeys_lift_close; [exact R|apply N; now left|]. intros s' R' L'. apply (Tail _ _ _ R').
    + intros g Hg. apply (lowered_none _ _ _ _ _ L'), N. now right.
    + exact He.
  - apply obeys_lift_bind. cbn. apply (Tail e).
    + apply (harmless_running _ _ _ _ _ s); [now apply harmless_same|exact R].
    + intros g Hg. apply N. now right.
    + intros h. specialize (He h). rewrite owed_none in He. lia.
Qed.

(** The fields of the two ends. *)
Lemma obeys_pipe_fields s0 d0 e g0 g1 p c s Q :
  running None cur s0 d0 e s -> 1 <= fref g0 s -> 1 <= fref g1 s ->
  (forall c' s', running None cur s0 d0 e s' -> ftyp g0 s' <> FD_INODE -> ftyp g1 s' <> FD_INODE -> fds cur s' = fds cur s ->
     Q s0 d0 (Some (g0, g1)) c' s') ->
  obeys cur s0 d0 Q
    (lift cur (fmod g0 (fset_type FD_PIPE) ;;; fmod g0 (fset_mode true false) ;;; fmod g0 (fset_pipe p) ;;;
               fmod g1 (fset_type FD_PIPE) ;;; fmod g1 (fset_mode false true) ;;; fmod g1 (fset_pipe p) ;;;
               ret (Some (g0, g1))) c s).
Proof.
  intros R H0 H1 HQ.
  apply (obeys_lift_fmod _ _ _ _ _ _ _ _ _ _ R); [done|done|]. intros s1 R1 F1 C1 T1 E1. specialize (E1 _ eq_refl). cbn in E1.
  apply (obeys_lift_fmod _ _ _ _ _ _ _ _ _ _ R1); [done|now rewrite C1|]. intros s2 R2 F2 C2 T2 E2. specialize (E2 _ eq_refl). cbn in E2.
  apply (obeys_lift_fmod _ _ _ _ _ _ _ _ _ _ R2); [done|now rewrite C2, C1|]. intros s3 R3 F3 C3 T3 E3. specialize (E3 _ eq_refl). cbn in E3.
  fold (ftyp g0 s1) in E2. fold (ftyp g0 s2) in E3.
  apply (obeys_lift_fmod _ _ _ _ _ _ _ _ _ _ R3); [done|now rewrite C3, C2, C1|]. intros s4 R4 F4 C4 T4 E4. specialize (E4 _ eq_refl). cbn in E4.
  apply (obeys_lift_fmod _ _ _ _ _ _ _ _ _ _ R4); [done|now rewrite C4, C3, C2, C1|]. intros s5 R5 F5 C5 T5 E5. specialize (E5 _ eq_refl). cbn in E5.
  apply (obeys_lift_fmod _ _ _ _ _ _ _ _ _ _ R5); [done|now rewrite C5, C4, C3, C2, C1|]. intros s6 R6 F6 C6 T6 E6. specialize (E6 _ eq_refl). cbn in E6.
  fold (ftyp g1 s4) in E5. fold (ftyp g1 s5) in E6.
  assert (N1 : ftyp g1 s6 <> FD_INODE) by congruence.
  assert (N0 : ftyp g0 s6 <> FD_INODE).
  { destruct (decide (g0 = g1)) as [->|Hne]; [done|]. rewrite T6, T5, T4 by done. congruence. }
  apply obeys_lift_ret. intros c' s' Hh. apply HQ; [now apply (harmless_running _ _ _ _ _ s6)| | |].
  - now rewrite (proj2 (harmless_file _ _ Hh g0)).
  - now rewrite (proj2 (harmless_file _ _ Hh g1)).
  - rewrite (harmless_fds _ _ Hh). congruence.
Qed.

Lemma obeys_pipealloc s0 d0 c s Q :
  ready cur s0 d0 None s ->
  (forall f0 f1 c' s', running None cur s0 d0 (fun h => - owed (Some f0) h - owed (Some f1) h) s' ->
     ftyp f0 s' <> FD_INODE -> ftyp f1 s' <> FD_INODE -> fds cur s' = fds cur s -> Q s0 d0 (Some (f0, f1)) c' s') ->
  (forall c' s', ready cur s0 d0 None s' -> Q s0 d0 None c' s') ->
  obeys cur s0 d0 Q (lift cur (pipealloc kend) c s).
Proof.
  intros [R _] HS HN. unfold pipealloc. eapply obeys_lift_filealloc; [exact R| |].
  2:{ intros s1 R1 _. apply (obeys_pipe_bad _ _ _ None None _ _ _ R1); [intros f [H|H]; discriminate H|intros h; done|exact HN]. }
  intros f0 s1 R1 A1. eapply obeys_lift_filealloc; [exact R1| |].
  2:{ intros s2 R2 H2. apply (obeys_pipe_bad _ _ _ (Some f0) None _ _ _ R2); [|intros h; rewrite !owed_none; lia|exact HN].
      intros f [[= <-]|]; [|done]. rewrite (proj2 (harmless_file _ _ H2 f0)). apply A1. }
  intros f1 s2 R2 A2. eapply obeys_lift_keep; [apply awake_zoom, awake_kalloc|apply keepf_inmem|exact R2|].
  intros p c3 s3 H3 R3. destruct (p =? 0).
  { apply (obeys_pipe_bad _ _ _ (Some f0) (Some f1) _ _ _ R3); [|intros h; rewrite owed_none; lia|exact HN].
    intros f Hf. rewrite (proj2 (harmless_file _ _ H3 f)). destruct Hf as [[= <-]|[= <-]]; [|apply A2].
    apply (al_none _ _ _ _ A2), A1. }
  eapply obeys_lift_keep; [apply awake_zoom, awake_gets|apply keepf_inmem|exact R3|]. intros junk c4 s4 H4 R4.
  eapply obeys_lift_keep; [apply awake_zoom, awake_modify|now apply keepf_modify|exact R4|]. intros _ c5 s5 H5 R5.
  assert (Fr : forall h, fref h s5 = fref h s2).
  { intros h. now rewrite (proj1 (harmless_file _ _ H5 h)), (proj1 (harmless_file _ _ H4 h)), (proj1 (harmless_file _ _ H3 h)). }
  apply (obeys_pipe_fields _ _ _ _ _ _ _ _ _ R5).
  - rewrite Fr. pose proof (al_refs _ _ _ _ A2 f0). pose proof (al_ref _ _ _ _ A1). lia.
  - rewrite Fr. apply A2.
  - intros c6 s6 R6 T0 T1 F6. apply HS; [|done|done|].
    + apply (running_ext _ _ _ _ _ _ R6). intros h. rewrite owed_none. lia.
    + rewrite F6, (harmless_fds _ _ H5), (harmless_fds _ _ H4), (harmless_fds _ _ H3), (al_fds _ _ _ _ A2). apply A1.
Qed.

(** Closing both ends again when the descriptors do not suffice. *)
Lemma obeys_pipe_undo s0 d0 e rf wf c s :
  running None cur s0 d0 e s -> (forall h, e h + owed (Some rf) h + owed (Some wf) h = 0) ->
  ftyp rf s <> FD_INODE -> ftyp wf s <> FD_INODE ->
  obeys cur s0 d0 (fun s1 d1 _ _ s' => ready cur s1 d1 None s')
    ((fop cur (fileclose kend rf) ;;; fop cur (fileclose kend wf) ;;; ret (-1)) c s).
Proof.
  intros R He T0 T1. unfold fop, file_op. apply obeys_bind. eapply obeys_fileclose_now; [exact R|exact T0|].
  intros c1 s1 R1 _ K1. apply obeys_bind. eapply obeys_fileclose_now; [exact R1|now apply K1|].
  intros c2 s2 R2 _ _. apply (running_ready _ _ _ _ R2). exact He.
Qed.

Lemma settled_sys_pipe : settled (sys_pipe kdata kend cur).
Proof.
  unfold sys_pipe. apply settled_bind; [apply quiet_settled; quiet_steps|]. intros [fd|]; [|apply quiet_settled, quiet_ret].
  intros s0 d0 c s R. unfold fop at 1, file_op. apply obeys_bind. apply obeys_pipealloc; [exact R| |now intros].
  intros rf wf c1 s1 R1 T0 T1 _. apply obeys_bind. eapply obeys_fdalloc; [exact R1| |].
  - intros fd0 s2 R2 Hfd0 _ E2 K2. apply obeys_bind. eapply obeys_fdalloc; [exact R2| |].
    + intros fd1 s3 R3 _ _ _ _. eapply quiet_settled.
      * quiet_steps.
      * apply (running_ready _ _ _ _ R3). intros h. lia.
    + apply obeys_bind. eapply obeys_set_fd; [exact R2|exact E2|]. intros s3 R3 _ K3.
      apply (obeys_pipe_undo _ _ _ _ _ _ _ R3).
      * intros h. rewrite owed_none. lia.
      * now rewrite (proj2 (K3 rf)), (proj2 (K2 rf)).
      * now rewrite (proj2 (K3 wf)), (proj2 (K2 wf)).
  - apply (obeys_pipe_undo _ _ _ _ _ _ _ R1); [intros h; lia|done|done].
Qed.

(** Every call of sysfile.c. *)
Lemma settled_sys_file n : settled (sys_file kdata kend ts_addr n cur).
Proof.
  destruct n; cbn [sys_file]; first
    [ apply settled_sys_dup | apply settled_sys_close | apply settled_sys_open | apply settled_sys_pipe
    | apply quiet_settled; first [apply quiet_ret | apply quiet_sys_read | apply quiet_sys_write | apply quiet_sys_fstat
        | apply quiet_sys_link | apply quiet_sys_unlink | apply quiet_sys_mkdir | apply quiet_sys_mknod
        | apply quiet_sys_chdir | apply quiet_sys_exec] ].
Qed.
End Content.
