(* ===== verification/FdThreads.v ===== *)
(** Several processes opening, duplicating, inheriting and closing descriptors at
    the same time (sysfile.c, file.c, pipe.c, proc.c).  The system calls are cut
    at every point where another CPU can come in or an interrupt can take the CPU
    away: each step is one critical section of [ftable.lock], or one access to a
    table of descriptors.  The invariant balances the counts of the open files
    against the descriptors and the references that calls in progress have. *)
From stdpp Require Import functions.
From S2P Require Import Prelude Monad Mem Mmu Cstring Kalloc Vm Hw FileIface Proc Signal Sysproc.
From S2P Require Import Trap Ring Pipe Sleeplock Disk Bio Log Fs FsData Digits Kbd Console File.
From S2P Require Import Refs Kfile Exec Sysfile RefsFile.

Import Monad Proc.

(** * fileclose in two parts *)

(** Up to the release of [ftable.lock]: the file whose last reference is gone. *)
Definition fileclose_ref (f : nat) : FM (option file) :=
  inio (acquire LFtable) ;;;
  let* r := inio (gets (fun s => f_ref (fof f s))) in
  if r <? 1 then panic "fileclose"
  else
    fmod f (fset_ref (r - 1)) ;;;
    if 0 <? r - 1 then inio (release LFtable) ;;; ret None
    else
      let* ff := inio (gets (fof f)) in
      fmod f (fset_ref 0) ;;;
      fmod f (fset_type FD_NONE) ;;;
      inio (release LFtable) ;;;
      ret (Some ff).

Lemma fileclose_ref_eq f c k :
  fileclose_ref f c k =
  if decide (LFtable ∈ held c) then Panic "acquire"
  else
    let r := f_ref (fof f (snd k)) in
    if r <? 1 then Panic "fileclose"
    else
      let t := fset f (fset_ref (r - 1)) (snd k) in
      if 0 <? r - 1 then Ret None c (fst k, t)
      else Ret (Some (fof f t)) c (fst k, fset f (fset_type FD_NONE) (fset f (fset_ref 0) t)).
Proof.
  unfold fileclose_ref, bind, fmod, inio, zoom, acquire, release. destruct (decide _); [done|]. simpl.
  destruct (_ <? 1); [done|]. cbn. destruct (0 <? _); cbn.
  all: rewrite decide_True by apply in_head; cbn; destruct (decide (LFtable = LFtable)); [|done]; destruct c; done.
Qed.

(** The rest closes the pipe or the inode, and has nothing to do with counts. *)
Lemma fileclose_split `{fuel : Fuel} kend f c k :
  fileclose kend f c k =
  (let* r := fileclose_ref f in match r with Some ff => close_rest kend ff | None => ret tt end) c k.
Proof.
  rewrite fileclose_eq. unfold bind. rewrite fileclose_ref_eq. cbv zeta. destruct (decide _); [done|].
  destruct (_ <? 1); [done|]. destruct (0 <? _); done.
Qed.

(** * The processes *)

(** Where a process is: [FNone] in a slot of the table that no process runs in,
    [FUser] in user mode or in kernel code that changes neither counts nor
    descriptors. *)
Inductive fpc : Type :=
| FNone
| FUser
| FUse (f : nat)                     (* in read, write or fstat on file [f] *)
| FDup (f : nat)                     (* sys_dup, between fdalloc and filedup *)
| FDrop (l : list nat)               (* the files [l] are still to be closed *)
| FOpen (f : nat)                    (* sys_open, between filealloc and fdalloc *)
| FPipe1 (f : nat)                   (* pipealloc, between the two filealloc *)
| FPipe2 (f g : nat)                 (* after them, before fdalloc(rf) *)
| FPipe3 (fd : Z) (f g : nat)        (* between fdalloc(rf) and fdalloc(wf) *)
| FPipe4 (fd : Z) (f g : nat)        (* the second one failed: ofile[fd0] = 0 is next *)
| FFork (np i : nat)                 (* fork into slot [np], at descriptor [i] *)
| FForked (np i f : nat)             (* there, between filedup and the assignment *)
| FExit (fd : nat)                   (* exit, at descriptor [fd] *)
| FExiting (fd f : nat).             (* there, between fileclose and ofile[fd] = 0 *)

#[global] Instance fpc_eq_dec : EqDecision fpc.
Proof. solve_decision. Defined.

(** References that the call has besides the descriptors of the process, and
    descriptors whose reference it does not have. *)
Definition extra (c : fpc) : list nat :=
  match c with
  | FDrop l => l
  | FOpen f | FPipe1 f | FForked _ _ f => [f]
  | FPipe2 f g => [f; g]
  | FPipe3 _ _ g | FPipe4 _ _ g => [g]
  | _ => []
  end.
Definition lacks (c : fpc) : list nat :=
  match c with FDup f | FExiting _ f => [f] | _ => [] end.

Fixpoint cnt (f : nat) (l : list nat) : Z :=
  match l with
  | [] => 0
  | g :: l' => (if decide (g = f) then 1 else 0) + cnt f l'
  end.
Definition inhand (f : nat) (c : fpc) : Z := cnt f (extra c) - cnt f (lacks c).

(** The slot that a fork is filling. *)
Definition filling (c : fpc) : option nat :=
  match c with FFork np _ | FForked np _ _ => Some np | _ => None end.

Record fdsys : Type := Fdsys { fy_st : ks; fy_pc : nat -> fpc }.

(** * Steps *)

Inductive slot : Type := Free | Embryo | Live.
Definition slot_of (s : procstate) : slot :=
  match s with UNUSED | ZOMBIE => Free | EMBRYO => Embryo | _ => Live end.

(** What the rest of the kernel may do, on any CPU: anything that changes no
    count and no descriptor, and starts and ends no process.  [wait] frees the
    slot of a zombie. *)
Record unrelated (s s' : ks) : Prop := {
  un_files : length (ftable (ks_fs s')) = length (ftable (ks_fs s));
  un_refs : forall f, fref f s' = fref f s;
  un_procs : length (ptable s') = length (ptable s);
  un_slots : forall p q', ptable s' !! p = Some q' -> exists q, ptable s !! p = Some q /\
    ofile q' = ofile q /\ slot_of (state q') = slot_of (state q)
}.

Definition put_fd (i : nat) (o : option nat) (q : proc) : proc := set_ofile (<[i := o]> (ofile q)) q.

(** A critical section of process [p], started with no lock held. *)
Definition runs_to {A} (m : M ks A) (s : ks) (a : A) (s' : ks) : Prop := exists c, m (Ctx [] []) s = Ret a c s'.

(** The steps of process [p], by call: from a state and its place in the call to
    the next.  A descriptor that argfd has found is one of the process's table. *)

(** sys_read, sys_write and sys_fstat. *)
Inductive use_move (p : nat) : ks -> fpc -> ks -> fpc -> Prop :=
| fm_use s fd f : fds p s !! fd = Some (Some f) -> use_move p s FUser s (FUse f)
| fm_used s f : use_move p s (FUse f) s FUser.

(** sys_dup: fdalloc, then filedup. *)
Inductive dup_move (p : nat) : ks -> fpc -> ks -> fpc -> Prop :=
| fm_dup s fd f r s' : fds p s !! fd = Some (Some f) -> runs_to (fdalloc p f) s (Some r) s' ->
    dup_move p s FUser s' (FDup f)
| fm_dup_ref s f s' : runs_to (fop p (filedup f)) s f s' -> dup_move p s (FDup f) s' FUser.

(** sys_close: ofile[fd] = 0, then fileclose. *)
Inductive close_move (p : nat) : ks -> fpc -> ks -> fpc -> Prop :=
| fm_close s fd f : fds p s !! fd = Some (Some f) -> close_move p s FUser (pset p (put_fd fd None) s) (FDrop [f]).

(** fileclose of the files that a call has still to close. *)
Inductive drop_move (p : nat) : ks -> fpc -> ks -> fpc -> Prop :=
| fm_drop s f l r s' : runs_to (fop p (fileclose_ref f)) s r s' -> drop_move p s (FDrop (f :: l)) s' (FDrop l)
| fm_dropped s : drop_move p s (FDrop []) s FUser.

(** sys_open: filealloc, then fdalloc, and fileclose when that fails. *)
Inductive open_move (p : nat) : ks -> fpc -> ks -> fpc -> Prop :=
| fm_open s f s' : runs_to (fop p filealloc) s (Some f) s' -> open_move p s FUser s' (FOpen f)
| fm_open_fd s f fd s' : runs_to (fdalloc p f) s (Some fd) s' -> open_move p s (FOpen f) s' FUser
| fm_open_full s f s' : runs_to (fdalloc p f) s None s' -> open_move p s (FOpen f) s' (FDrop [f]).

(** pipealloc: two filealloc and kalloc, and the code at [bad]. *)
Inductive pipealloc_move (p : nat) : ks -> fpc -> ks -> fpc -> Prop :=
| fm_pipe1 s f s' : runs_to (fop p filealloc) s (Some f) s' -> pipealloc_move p s FUser s' (FPipe1 f)
| fm_pipe2 s f g s' : runs_to (fop p filealloc) s (Some g) s' -> pipealloc_move p s (FPipe1 f) s' (FPipe2 f g)
| fm_pipe2_full s f s' : runs_to (fop p filealloc) s None s' -> pipealloc_move p s (FPipe1 f) s' (FDrop [f])
| fm_pipe_nomem s f g : pipealloc_move p s (FPipe2 f g) s (FDrop [f; g]).

(** The rest of sys_pipe: two fdalloc, and what it undoes when one fails. *)
Inductive pipe_move (p : nat) : ks -> fpc -> ks -> fpc -> Prop :=
| fm_pipe3 s f g fd s' : runs_to (fdalloc p f) s (Some fd) s' -> pipe_move p s (FPipe2 f g) s' (FPipe3 fd f g)
| fm_pipe3_full s f g s' : runs_to (fdalloc p f) s None s' -> pipe_move p s (FPipe2 f g) s' (FDrop [f; g])
| fm_pipe4 s fd f g fd1 s' : runs_to (fdalloc p g) s (Some fd1) s' -> pipe_move p s (FPipe3 fd f g) s' FUser
| fm_pipe4_full s fd f g s' : runs_to (fdalloc p g) s None s' -> pipe_move p s (FPipe3 fd f g) s' (FPipe4 fd f g)
| fm_pipe4_clear s fd f g : pipe_move p s (FPipe4 fd f g) (pset p (set_fd fd None) s) (FDrop [f; g]).

(** fork: the loop over the descriptors. *)
Inductive fork_move (p : nat) : ks -> fpc -> ks -> fpc -> Prop :=
| fm_fork_skip s np i : fds p s !! i = Some None -> fork_move p s (FFork np i) s (FFork np (S i))
| fm_fork_dup s np i f s' : fds p s !! i = Some (Some f) -> runs_to (fop p (filedup f)) s f s' ->
    fork_move p s (FFork np i) s' (FForked np i f)
| fm_fork_put s np i f : fork_move p s (FForked np i f) (pset np (put_fd i (Some f)) s) (FFork np (S i)).

(** exit: the loop over the descriptors. *)
Inductive exit_move (p : nat) : ks -> fpc -> ks -> fpc -> Prop :=
| fm_exit s : exit_move p s FUser s (FExit 0)
| fm_exit_skip s fd : fds p s !! fd = Some None -> exit_move p s (FExit fd) s (FExit (S fd))
| fm_exit_close s fd f r s' : fds p s !! fd = Some (Some f) -> runs_to (fop p (fileclose_ref f)) s r s' ->
    exit_move p s (FExit fd) s' (FExiting fd f)
| fm_exit_clear s fd f : exit_move p s (FExiting fd f) (pset p (put_fd fd None) s) (FExit (S fd)).

Definition fd_move (p : nat) (s : ks) (c : fpc) (s' : ks) (c' : fpc) : Prop :=
  use_move p s c s' c' \/ dup_move p s c s' c' \/ close_move p s c s' c' \/ drop_move p s c s' c' \/
  open_move p s c s' c' \/ pipealloc_move p s c s' c' \/ pipe_move p s c s' c' \/ fork_move p s c s' c' \/
  exit_move p s c s' c'.

Inductive fd_step : fdsys -> fdsys -> Prop :=
| fs_move p s pc s' c : pc p <> FNone -> fd_move p s (pc p) s' c -> fd_step (Fdsys s pc) (Fdsys s' (<[p := c]> pc))
| fs_other s s' pc : unrelated s s' -> fd_step (Fdsys s pc) (Fdsys s' pc)
(* fork: the cas of allocproc, its failures, and np->state = RUNNABLE *)
| fs_fork p np q s pc : pc p = FUser -> ptable s !! np = Some q -> state q = UNUSED ->
    fd_step (Fdsys s pc) (Fdsys (pset np (set_state EMBRYO) s) (<[p := FFork np 0]> pc))
| fs_fork_fail p np s pc : pc p = FFork np 0 ->
    fd_step (Fdsys s pc) (Fdsys (pset np (set_state UNUSED) s) (<[p := FUser]> pc))
| fs_publish p np s pc : pc p = FFork np NOFILE ->
    fd_step (Fdsys s pc) (Fdsys (pset np (set_state RUNNABLE) s) (<[np := FUser]> (<[p := FUser]> pc)))
(* exit: curproc->state = ZOMBIE *)
| fs_zombie p s pc : pc p = FExit NOFILE ->
    fd_step (Fdsys s pc) (Fdsys (pset p (set_state ZOMBIE) s) (<[p := FNone]> pc)).

(** The start: the tables in order, as many references to each file as
    descriptors, no fork under way. *)
Record fd_init (x : fdsys) : Prop := {
  fi_wf : wf None (fy_st x);
  fi_refs : forall f, fref f (fy_st x) = total f (ptable (fy_st x));
  fi_pc : forall p, fy_pc x p = FUser \/ fy_pc x p = FNone;
  fi_live : forall p, fy_pc x p = FUser <-> alive p (fy_st x)
}.

(** * Sums over the slots *)

#[local] Opaque NPROC NOFILE NFILE.

Fixpoint sumz (g : nat -> Z) (n : nat) : Z :=
  match n with
  | O => 0
  | S m => sumz g m + g m
  end.

Lemma sumz_ext g g' n : (forall i, (i < n)%nat -> g i = g' i) -> sumz g n = sumz g' n.
Proof. induction n as [|n IH]; intros H; [done|]. cbn. rewrite IH, H by (intros; try apply H; lia). done. Qed.

Lemma sumz_upd g g' p n :
  (p < n)%nat -> (forall i, i <> p -> g' i = g i) -> sumz g' n = sumz g n - g p + g' p.
Proof.
  induction n as [|n IH]; intros Hp H; [lia|]. cbn [sumz]. destruct (decide (p = n)) as [->|Hne].
  - rewrite (sumz_ext g' g n); [lia|]. intros i Hi. apply H. lia.
  - rewrite (H n) by lia. rewrite IH; [lia|lia|done].
Qed.

Lemma sumz_share g n p : (forall i, 0 <= g i) -> (p < n)%nat -> 0 <= sumz g n /\ g p <= sumz g n.
Proof.
  intros Hg. induction n as [|n IH]; intros Hp; [lia|]. cbn [sumz]. pose proof (Hg n). destruct (decide (p = n)) as [->|].
  - enough (0 <= sumz g n) by lia. clear -Hg. induction n as [|n IH]; cbn; [lia|]. specialize (Hg n). lia.
  - destruct IH; lia.
Qed.

Lemma sumz_split g h n : sumz (fun i => g i + h i) n = sumz g n + sumz h n.
Proof. induction n as [|n IH]; cbn; [done|]. rewrite IH. lia. Qed.

Lemma total_sumz f (t : list proc) :
  total f t = sumz (fun p => uses f (ofile (default proc0 (t !! p)))) (length t).
Proof.
  induction t as [|q t IH] using rev_ind; [done|]. rewrite length_app, Nat.add_1_r. cbn [sumz].
  rewrite list_lookup_middle by done. cbn [default].
  rewrite (sumz_ext _ (fun p => uses f (ofile (default proc0 (t !! p))))).
  - rewrite <- IH. clear. induction t as [|x t IH]; cbn in *; lia.
  - intros i Hi. now rewrite lookup_app_l by done.
Qed.

(** The references of all calls in progress to file [f]. *)
Definition inflight (f : nat) (pc : nat -> fpc) : Z := sumz (fun p => inhand f (pc p)) NPROC.

(** What process [p] accounts for: its descriptors and what its call has in
    hand. *)
Definition share (f : nat) (s : ks) (pc : nat -> fpc) (p : nat) : Z := uses f (fds p s) + inhand f (pc p).

Lemma shares f s pc :
  length (ptable s) = NPROC -> sumz (share f s pc) NPROC = total f (ptable s) + inflight f pc.
Proof. intros E. unfold share. rewrite sumz_split, total_sumz, E. unfold inflight, fds, pget. reflexivity. Qed.

(** * The invariant *)

Definition pc_ok (p : nat) (s : ks) (c : fpc) : Prop :=
  match c with
  | FUse f => 1 <= uses f (fds p s)
  | FDup f => 2 <= uses f (fds p s)
  | FPipe3 fd f _ | FPipe4 fd f _ => 0 <= fd /\ fds p s !! Z.to_nat fd = Some (Some f)
  | FFork np i => forall j g, (i <= j)%nat -> fds np s !! j <> Some (Some g)
  | FForked np i f => (forall j g, (i <= j)%nat -> fds np s !! j <> Some (Some g)) /\ fds p s !! i = Some (Some f)
  | FExit fd => forall j g, (j < fd)%nat -> fds p s !! j <> Some (Some g)
  | FExiting fd f => (forall j g, (j < fd)%nat -> fds p s !! j <> Some (Some g)) /\ fds p s !! fd = Some (Some f)
  | _ => True
  end.

Record fd_inv (s : ks) (pc : nat -> fpc) : Prop := {
  iv_procs : length (ptable s) = NPROC;
  iv_files : length (ftable (ks_fs s)) = NFILE;
  iv_fds : forall p q, ptable s !! p = Some q -> length (ofile q) = NOFILE;
  iv_count : forall f, fref f s = sumz (share f s pc) NPROC;
  iv_pc : forall p, pc_ok p s (pc p);
  iv_range : forall p, pc p <> FNone -> exists q, ptable s !! p = Some q /\ slot_of (state q) = Live;
  iv_live : forall p q, ptable s !! p = Some q -> slot_of (state q) = Live -> pc p <> FNone;
  iv_free : forall p q, ptable s !! p = Some q -> slot_of (state q) = Free -> forall i f, ofile q !! i <> Some (Some f);
  iv_fill : forall p np, filling (pc p) = Some np -> exists q, ptable s !! np = Some q /\ slot_of (state q) = Embryo;
  iv_one : forall p p' np, filling (pc p) = Some np -> filling (pc p') = Some np -> p = p'
}.

Lemma cnt_nonneg f l : 0 <= cnt f l.
Proof. induction l as [|g l IH]; cbn; [lia|]. destruct (decide _); lia. Qed.

(** No call has less than nothing in hand. *)
Lemma share_nonneg f s pc p : pc_ok p s (pc p) -> 0 <= share f s pc p.
Proof.
  intros H. unfold share, inhand. pose proof (cnt_nonneg f (extra (pc p))). pose proof (uses_nonneg f (fds p s)).
  destruct (pc p); cbn [lacks cnt pc_ok] in *; try lia.
  - destruct (decide _) as [->|]; lia.
  - destruct (decide _) as [->|]; [|lia]. destruct H as [_ H]. apply uses_in in H. lia.
Qed.

Lemma inv_share s pc p f : fd_inv s pc -> pc p <> FNone -> 0 <= fref f s /\ share f s pc p <= fref f s.
Proof.
  intros I Hp. rewrite (iv_count _ _ I). apply sumz_share.
  - intros i. apply share_nonneg, I.
  - destruct (iv_range _ _ I p Hp) as (q & Hq & _). apply lookup_lt_Some in Hq. now rewrite (iv_procs _ _ I) in Hq.
Qed.

Lemma pc_ok_frame p s s' c :
  fds p s' = fds p s -> (forall np, filling c = Some np -> fds np s' = fds np s) -> pc_ok p s c -> pc_ok p s' c.
Proof. intros E Ef. destruct c; cbn in *; rewrite ?E, ?Ef by done; done. Qed.

(** A slot being filled is not the one of a process. *)
Lemma filling_other s pc p np r : fd_inv s pc -> filling (pc p) = Some np -> pc r <> FNone -> np <> r.
Proof.
  intros I Hf Hr ->. destruct (iv_fill _ _ I _ _ Hf) as (q & Hq & Eq).
  destruct (iv_range _ _ I r Hr) as (q' & Hq' & Eq'). congruence.
Qed.

(** * What the critical sections do *)

(** The count of [f] changes by [d], and the process table does not. *)
Record moved (f : nat) (d : Z) (s s' : ks) : Prop := {
  mv_refs : forall h, fref h s' = fref h s + (if decide (h = f) then d else 0);
  mv_files : length (ftable (ks_fs s')) = length (ftable (ks_fs s));
  mv_procs : ptable s' = ptable s
}.

Lemma moved_put f g d y km t s :
  ftable (ks_fs s) !! f = Some y -> f_ref (g y) = f_ref y + d -> ftable t = alter g f (ftable (ks_fs s)) ->
  moved f d s (fs_put (km, t) s).
Proof.
  intros Ey Ed Et. split; [|cbn; rewrite Et; apply length_alter|done].
  intros h. unfold fref, fof. cbn [ks_fs fs_put set_fs snd]. rewrite Et. destruct (decide (h = f)) as [->|Hne].
  - rewrite list_lookup_alter_eq, Ey. exact Ed.
  - rewrite list_lookup_alter_ne by congruence. lia.
Qed.

Lemma fref_lookup f s : 1 <= fref f s -> exists y, ftable (ks_fs s) !! f = Some y /\ f_ref y = fref f s.
Proof.
  unfold fref, fof. destruct (ftable (ks_fs s) !! f) as [y|]; [eauto|]. cbn. lia.
Qed.

Lemma filealloc_runs p s r s' :
  runs_to (fop p filealloc) s r s' ->
  match r with Some f => fref f s = 0 /\ moved f 1 s s' | None => forall f, moved f 0 s s' end.
Proof.
  intros [c E]. unfold fop, file_op, lift in E. rewrite filealloc_eq in E.
  destruct (decide _); [done|]. cbn [fs_get fst snd] in E.
  destruct (find_free (ftable (ks_fs s)) 0) as [f|] eqn:Ef; cbn in E; injection E as <- <- <-.
  - destruct (find_free_some _ _ _ Ef) as (y & _ & Ey & Hy). rewrite Nat.sub_0_r in Ey.
    split; [unfold fref, fof; now rewrite Ey|].
    apply (moved_put f (fset_ref 1) 1 y); [done|cbn; lia|done].
  - intros f. split; [|done|done]. intros h. unfold fref. cbn. destruct (decide _); lia.
Qed.

Lemma filedup_runs p f r s s' :
  runs_to (fop p (filedup f)) s r s' -> 1 <= fref f s /\ moved f 1 s s'.
Proof.
  intros [c E]. unfold fop, file_op, lift, filedup, inio, zoom, bind, acquire, release in E. cbn [gets obind] in E.
  destruct (decide _); [done|]. cbn [obind ozoom fs_get snd fst] in E.
  destruct (Z.ltb_spec (f_ref (fof f (ks_fs s))) 1) as [|Hr]; [done|]. cbn [obind modify] in E.
  rewrite decide_True in E by apply in_head. cbn [obind ozoom olift ret fst snd] in E.
  fold (fref f s) in Hr, E. split; [done|]. destruct (fref_lookup f s Hr) as (y & Ey & Er).
  injection E as _ _ <-. apply (moved_put f (fset_ref (fref f s + 1)) 1 y); [done|cbn; lia|done].
Qed.

Lemma filedup_returns p f s :
  1 <= fref f s -> exists s', runs_to (fop p (filedup f)) s f s'.
Proof.
  intros Hr. unfold runs_to, fop, file_op, lift, filedup, inio, zoom, bind, acquire, release. cbn [gets obind].
  rewrite decide_False by apply not_elem_of_nil. cbn [obind ozoom fs_get snd fst]. fold (fref f s).
  rewrite (proj2 (Z.ltb_ge _ _)) by done. cbn [obind modify]. rewrite decide_True by apply in_head.
  cbn [obind ozoom olift ret fst snd]. eauto.
Qed.

Lemma close_runs p f r s s' :
  runs_to (fop p (fileclose_ref f)) s r s' -> 1 <= fref f s /\ moved f (-1) s s'.
Proof.
  intros [c E]. unfold fop, file_op, lift in E. rewrite fileclose_ref_eq in E. destruct (decide _); [done|].
  cbn [fs_get fst snd] in E. fold (fref f s) in E. cbv zeta in E.
  destruct (Z.ltb_spec (fref f s) 1) as [|Hr]; [done|]. split; [done|].
  destruct (fref_lookup f s Hr) as (y & Ey & Er).
  assert (Et : ftable (closed f y (ks_fs s)) = alter (fun _ => close_file y) f (ftable (ks_fs s))) by now apply closed_table.
  assert (M : moved f (-1) s (fs_put (ks_km s, closed f y (ks_fs s)) s)).
  { eapply moved_put; [exact Ey| |exact Et]. cbn. unfold close_file. destruct (Z.ltb_spec 0 (f_ref y - 1)); cbn; lia. }
  unfold closed in M. rewrite Er in M. destruct (0 <? fref f s - 1); cbn in E; injection E as _ _ <-; exact M.
Qed.

Lemma close_returns p f s :
  1 <= fref f s -> exists r s', runs_to (fop p (fileclose_ref f)) s r s'.
Proof.
  intros Hr. unfold runs_to, fop, file_op, lift. rewrite fileclose_ref_eq. rewrite decide_False by apply not_elem_of_nil.
  cbn [fs_get fst snd]. fold (fref f s). cbv zeta. rewrite (proj2 (Z.ltb_ge _ _)) by done.
  destruct (0 <? fref f s - 1); cbn; eauto.
Qed.

Lemma fdalloc_runs p f s r s' :
  runs_to (fdalloc p f) s r s' ->
  match r with
  | Some fd => 0 <= fd /\ fds p s !! Z.to_nat fd = Some None /\ s' = pset p (set_fd fd (Some f)) s
  | None => s' = s
  end.
Proof.
  intros [c E]. unfold fdalloc, bind, gets in E. cbn [obind] in E. fold (fds p s) in E.
  destruct (find_fd (fds p s) 0) as [fd|] eqn:Ef; cbn in E; injection E as <- _ <-; [|done].
  apply find_fd_some in Ef as [H1 H2]; [|lia]. rewrite Z.sub_0_r in H2. done.
Qed.

(** * Preservation *)

(** A step of process [p] that may change the counts and the descriptors of one
    slot [r], its own or the one it fills, but not which slots are in use. *)
Section Own.
Variables (s s' : ks) (pc : nat -> fpc) (p r : nat) (c : fpc) (g : proc -> proc) (d : nat -> Z).
Hypothesis Hinv : fd_inv s pc.
Hypothesis Hp : pc p <> FNone.
Hypothesis Hr : r = p \/ filling (pc p) = Some r.
Hypothesis Hc : c <> FNone.
Hypothesis Hfill : filling c = filling (pc p).
Hypothesis Hfiles : length (ftable (ks_fs s')) = length (ftable (ks_fs s)).
Hypothesis Htab : ptable s' = alter g r (ptable s).
Hypothesis Hg : forall q, state (g q) = state q /\ length (ofile (g q)) = length (ofile q).
Hypothesis Hrefs : forall h, fref h s' = fref h s + d h.
Hypothesis Hbal : forall h, uses h (fds r s') + inhand h c = uses h (fds r s) + inhand h (pc p) + d h.
Hypothesis Hok : pc_ok p s' c.

Lemma own_lookup q x' : ptable s' !! q = Some x' -> exists x, ptable s !! q = Some x /\ state x' = state x /\
  length (ofile x') = length (ofile x) /\ (q <> r -> x' = x).
Proof.
  rewrite Htab. destruct (decide (q = r)) as [->|Hne].
  - rewrite list_lookup_alter_eq. intros (x & Hx & ->)%fmap_Some. exists x. destruct (Hg x). split_and!; done.
  - rewrite list_lookup_alter_ne by congruence. intros E. exists x'. done.
Qed.

Lemma own_state q x : ptable s !! q = Some x -> exists x', ptable s' !! q = Some x' /\ state x' = state x.
Proof.
  intros E. rewrite Htab. destruct (decide (q = r)) as [->|Hne].
  - rewrite list_lookup_alter_eq, E. exists (g x). split; [done|]. apply Hg.
  - rewrite list_lookup_alter_ne by congruence. eauto.
Qed.

Lemma own_fds q : q <> r -> fds q s' = fds q s.
Proof. intros Hne. unfold fds, pget. rewrite Htab. now rewrite list_lookup_alter_ne by congruence. Qed.

(** The slot is in use, and the calls of other processes are not about it. *)
Lemma own_slot : exists x, ptable s !! r = Some x /\ slot_of (state x) <> Free.
Proof using Hinv Hp Hr.
  clear -Hinv Hp Hr.
  destruct Hr as [->|Hf].
  - destruct (iv_range _ _ Hinv p Hp) as (x & Ex & E). exists x. split; [done|congruence].
  - destruct (iv_fill _ _ Hinv p r Hf) as (x & Ex & E). exists x. split; [done|congruence].
Qed.

Lemma own_other q : q <> p -> pc_ok q s' (pc q).
Proof.
  intros Hne. destruct (decide (pc q = FNone)) as [->|Hq]; [done|].
  assert (Hqr : q <> r). { destruct Hr as [->|Hf]; [done|]. intros ->. now apply (filling_other s pc p r r Hinv Hf). }
  apply (pc_ok_frame _ s); [now apply own_fds| |apply Hinv]. intros m Hm. apply own_fds. intros ->.
  destruct Hr as [->|Hf]; [now apply (filling_other s pc q p p Hinv Hm)|]. apply Hne. now apply (iv_one _ _ Hinv q p r).
Qed.

Lemma own_count f : fref f s' = sumz (share f s' (<[p := c]> pc)) NPROC.
Proof.
  destruct own_slot as (x & Ex & _). destruct (iv_range _ _ Hinv p Hp) as (y & Ey & _).
  apply lookup_lt_Some in Ex, Ey. rewrite (iv_procs _ _ Hinv) in Ex, Ey.
  rewrite Hrefs, (iv_count _ _ Hinv). unfold share. rewrite !sumz_split.
  rewrite (sumz_upd (fun q => uses f (fds q s)) (fun q => uses f (fds q s')) r) by
    (try done; intros q Hq; now rewrite own_fds).
  rewrite (sumz_upd (fun q => inhand f (pc q)) (fun q => inhand f ((<[p := c]> pc : nat -> fpc) q)) p) by
    (try done; intros q Hq; now rewrite fn_lookup_insert_ne by congruence).
  cbn beta. rewrite fn_lookup_insert. specialize (Hbal f). lia.
Qed.

Lemma inv_own : fd_inv s' (<[p := c]> pc).
Proof.
  assert (Hfl : forall q, filling ((<[p := c]> pc : nat -> fpc) q) = filling (pc q)).
  { intros q. destruct (decide (p = q)) as [<-|Hne]; [now rewrite fn_lookup_insert|now rewrite fn_lookup_insert_ne]. }
  assert (Hnn : forall q, (<[p := c]> pc : nat -> fpc) q <> FNone <-> pc q <> FNone).
  { intros q. destruct (decide (p = q)) as [<-|Hne]; [now rewrite fn_lookup_insert|now rewrite fn_lookup_insert_ne]. }
  split.
  - rewrite Htab, length_alter. apply Hinv.
  - rewrite Hfiles. apply Hinv.
  - intros q x' E. destruct (own_lookup q x' E) as (x & Ex & _ & -> & _). now apply (iv_fds _ _ Hinv q).
  - apply own_count.
  - intros q. destruct (decide (p = q)) as [<-|Hne]; [now rewrite fn_lookup_insert|]. rewrite fn_lookup_insert_ne by done.
    apply own_other. congruence.
  - intros q Hq%Hnn. destruct (iv_range _ _ Hinv q Hq) as (x & Ex & Hl). destruct (own_state q x Ex) as (x' & Ex' & Es).
    exists x'. now rewrite Es.
  - intros q x' E Hl. apply Hnn. destruct (own_lookup q x' E) as (x & Ex & Es & _). rewrite Es in Hl.
    now apply (iv_live _ _ Hinv q x).
  - intros q x' E Hl. destruct (own_lookup q x' E) as (x & Ex & Es & _ & Hx). rewrite Es in Hl.
    destruct (decide (q = r)) as [->|Hne]; [|rewrite (Hx Hne); now apply (iv_free _ _ Hinv q x)].
    exfalso. destruct own_slot as (y & Ey & Hy). congruence.
  - intros q np. rewrite Hfl. intros Hq. destruct (iv_fill _ _ Hinv q np Hq) as (x & Ex & Hl).
    destruct (own_state np x Ex) as (x' & Ex' & Es). exists x'. now rewrite Es.
  - intros q q' np. rewrite !Hfl. apply (iv_one _ _ Hinv).
Qed.
End Own.

(** The steps that change no table of descriptors. *)
Lemma inv_pc s s' pc p c f d :
  fd_inv s pc -> pc p <> FNone -> c <> FNone -> filling c = filling (pc p) -> moved f d s s' ->
  (forall h, inhand h c = inhand h (pc p) + (if decide (h = f) then d else 0)) -> pc_ok p s c ->
  fd_inv s' (<[p := c]> pc).
Proof.
  intros I Hp Hc Hf [M1 M2 M3] Hb Hok.
  assert (Ef : forall q, fds q s' = fds q s) by (intros q; unfold fds, pget; now rewrite M3).
  apply (inv_own s s' pc p p c (fun q => q) (fun h => if decide (h = f) then d else 0)); auto.
  - rewrite M3. apply list_eq. intros i. destruct (decide (i = p)) as [->|Hne].
    + rewrite list_lookup_alter_eq. now destruct (ptable s !! p).
    + now rewrite list_lookup_alter_ne by congruence.
  - intros h. rewrite Ef, Hb. lia.
  - apply (pc_ok_frame _ s); auto.
Qed.

Lemma moved_refl f s : moved f 0 s s.
Proof. split; [|done|done]. intros h. destruct (decide _); lia. Qed.

(** The steps that assign one descriptor of slot [r]. *)
Lemma inv_fd s pc p r c i o o' :
  fd_inv s pc -> pc p <> FNone -> r = p \/ filling (pc p) = Some r -> c <> FNone -> filling c = filling (pc p) ->
  fds r s !! i = Some o ->
  (forall h, inhand h c + (if decide (o' = Some h) then 1 else 0) = inhand h (pc p) + (if decide (o = Some h) then 1 else 0)) ->
  pc_ok p (pset r (put_fd i o') s) c ->
  fd_inv (pset r (put_fd i o') s) (<[p := c]> pc).
Proof.
  intros I Hp Hr Hc Hf Hi Hb Hok.
  destruct (own_slot s pc p r I Hp Hr) as (q & Eq & _).
  apply (inv_own s _ pc p r c (put_fd i o') (fun _ => 0)); auto.
  - intros x. split; [done|]. cbn. apply length_insert.
  - intros h. unfold fref. cbn. lia.
  - intros h. specialize (Hb h). unfold fds in *. rewrite (pget_pset_eq _ _ _ q Eq). rewrite (pget_lookup _ _ q Eq) in *.
    cbn [ofile put_fd set_ofile]. rewrite (uses_insert _ _ _ _ _ Hi). lia.
Qed.

Lemma fds_put p i o s q : ptable s !! p = Some q -> fds p (pset p (put_fd i o) s) = <[i := o]> (fds p s).
Proof. intros E. unfold fds. now rewrite (pget_pset_eq _ _ _ q E), (pget_lookup _ _ q E). Qed.

Lemma fds_put_ne p r i o s : p <> r -> fds p (pset r (put_fd i o) s) = fds p s.
Proof. intros E. unfold fds. now rewrite pget_pset_ne. Qed.

Ltac in_hand :=
  let h := fresh "h" in
  intros h; unfold inhand; cbn [extra lacks cnt];
  repeat match goal with |- context [decide ?P] => destruct (decide P) end; subst; first [lia|congruence].

(** fork stores a descriptor in the slot it fills. *)
Lemma inv_put s pc p np i f :
  fd_inv s pc -> pc p = FForked np i f ->
  fd_inv (pset np (put_fd i (Some f)) s) (<[p := FFork np (S i)]> pc).
Proof.
  intros I E. assert (Hp : pc p <> FNone) by now rewrite E.
  assert (Hfp : filling (pc p) = Some np) by now rewrite E.
  destruct (iv_fill _ _ I p np Hfp) as (q & Eq & Hq).
  pose proof (iv_pc _ _ I p) as Hok. rewrite E in Hok. destruct Hok as [Hempty Hfd].
  destruct (iv_range _ _ I p Hp) as (x & Ex & _).
  assert (Hi : fds np s !! i = Some None).
  { assert (Hl : (i < length (fds np s))%nat).
    { unfold fds in *. rewrite (pget_lookup _ _ q Eq), (iv_fds _ _ I np q Eq).
      apply lookup_lt_Some in Hfd. now rewrite (pget_lookup _ _ x Ex), (iv_fds _ _ I p x Ex) in Hfd. }
    destruct (lookup_lt_is_Some_2 _ _ Hl) as [[h|] Eh]; [|done]. exfalso. now apply (Hempty i h). }
  apply (inv_fd s pc p np _ i None); [done|done|now right|done|now rewrite E|done| |].
  - rewrite E. in_hand.
  - cbn. intros j h Hj. rewrite (fds_put np i (Some f) s q Eq), list_lookup_insert_ne by lia. apply Hempty. lia.
Qed.

Lemma pc_none s pc p : fd_inv s pc -> (forall q, ptable s !! p = Some q -> slot_of (state q) <> Live) -> pc p = FNone.
Proof.
  intros I H. destruct (decide (pc p = FNone)) as [|Hn]; [done|exfalso].
  destruct (iv_range _ _ I p Hn) as (q & Eq & Hq). now apply (H q).
Qed.

Lemma uses_put f fd l g : l !! fd = Some None -> l !! g = Some (Some f) -> 2 <= uses f (<[fd := Some f]> l).
Proof. intros E1 E2. rewrite (uses_insert _ _ _ _ _ E1). apply uses_in in E2. repeat destruct (decide _); first [lia|congruence]. Qed.

Lemma move_inv s pc p s' c : fd_inv s pc -> pc p <> FNone -> fd_move p s (pc p) s' c -> fd_inv s' (<[p := c]> pc).
Proof.
  intros I Hp Hm. pose proof (iv_pc _ _ I p) as Hok. destruct (iv_range _ _ I p Hp) as (q & Eq & _).
  remember (pc p) as c0 eqn:E. symmetry in E. rewrite <- E in Hp.
  destruct Hm as [Hm|[Hm|[Hm|[Hm|[Hm|[Hm|[Hm|[Hm|Hm]]]]]]]];
    [destruct Hm as [s fd f Hfd|s f]|destruct Hm as [s fd f r s' Hfd Hr|s f s' Hr]|destruct Hm as [s fd f Hfd]
    |destruct Hm as [s f l r s' Hr|s]|destruct Hm as [s f s' Hr|s f fd s' Hr|s f s' Hr]
    |destruct Hm as [s f s' Hr|s f g s' Hr|s f s' Hr|s f g]
    |destruct Hm as [s f g fd s' Hr|s f g s' Hr|s fd f g fd1 s' Hr|s fd f g s' Hr|s fd f g]
    |destruct Hm as [s np i Hfd|s np i f s' Hfd Hr|s np i f]
    |destruct Hm as [s|s fd Hfd|s fd f r s' Hfd Hr|s fd f]]; cbn [pc_ok] in Hok.
  all: try (apply fdalloc_runs in Hr; first [destruct Hr as (Hr0 & Hrn & ->)|subst s']).
  all: try (apply filealloc_runs in Hr; first [destruct Hr as (Hr0 & Hr)|specialize (Hr 0%nat)]).
  all: try (first [apply filedup_runs in Hr|apply close_runs in Hr]; destruct Hr as (Hr0 & Hr)).
  all: try (eapply (inv_pc s s' pc p); [done|done|done|now rewrite E|exact Hr|rewrite E; in_hand|]; try done).
  all: try (eapply (inv_pc s s pc p); [done|done|done|now rewrite E|apply (moved_refl 0)|rewrite E; in_hand|]; try done).
  - cbn. now apply uses_in in Hfd.
  - apply (inv_fd s pc p p _ (Z.to_nat r) None (Some f)); [done|done|now left|done|now rewrite E|done|rewrite E; in_hand|].
    cbn [pc_ok]. rewrite (fds_put p _ _ s q Eq). now apply (uses_put _ _ _ fd).
  - apply (inv_fd s pc p p _ fd (Some f) None); [done|done|now left|done|now rewrite E|done|rewrite E; in_hand|done].
  - apply (inv_fd s pc p p _ (Z.to_nat fd) None (Some f)); [done|done|now left|done|now rewrite E|done|rewrite E; in_hand|done].
  - apply (inv_fd s pc p p _ (Z.to_nat fd) None (Some f)); [done|done|now left|done|now rewrite E|done|rewrite E; in_hand|].
    cbn [pc_ok]. split; [done|]. rewrite (fds_put p _ _ s q Eq). apply list_lookup_insert_eq. now apply lookup_lt_Some in Hrn.
  - apply (inv_fd s pc p p _ (Z.to_nat fd1) None (Some g)); [done|done|now left|done|now rewrite E|done|rewrite E; in_hand|done].
  - destruct Hok as [Hf0 Hfd].
    apply (inv_fd s pc p p _ (Z.to_nat fd) (Some f) None); [done|done|now left|done|now rewrite E|done|rewrite E; in_hand|done].
  - cbn. intros j g Hj. apply Hok. lia.
  - now apply inv_put.
  - cbn. intros j g Hj. lia.
  - cbn. intros j g Hj. destruct (decide (j = fd)) as [->|]; [congruence|]. apply Hok. lia.
  - destruct Hok as [Hlow Hfd].
    apply (inv_fd s pc p p _ fd (Some f) None); [done|done|now left|done|now rewrite E|done|rewrite E; in_hand|].
    cbn. intros j g Hj. rewrite (fds_put p _ _ s q Eq). destruct (decide (j = fd)) as [->|Hne].
    + rewrite list_lookup_insert_eq; [done|]. now apply lookup_lt_Some in Hfd.
    + rewrite list_lookup_insert_ne by congruence. apply Hlow. lia.
Qed.

(** A process starts, ends, or is being made: the state of slot [r] changes. *)
Section State.
Variables (s : ks) (pc pc' : nat -> fpc) (r : nat) (q : proc) (v : procstate).
Hypothesis Hinv : fd_inv s pc.
Hypothesis Hq : ptable s !! r = Some q.
Hypothesis Hhand : forall t h, inhand h (pc' t) = inhand h (pc t).
Hypothesis Hok : forall t, pc_ok t s (pc' t).
Hypothesis Hnone : forall t, pc' t <> FNone <-> (if decide (t = r) then slot_of v = Live else pc t <> FNone).
Hypothesis Hempty : slot_of v = Free -> forall i f, ofile q !! i <> Some (Some f).
Hypothesis Hfill : forall t np, filling (pc' t) = Some np ->
  if decide (np = r) then slot_of v = Embryo else filling (pc t) = Some np.
Hypothesis Hone : forall t t', filling (pc' t) = Some r -> filling (pc' t') = Some r -> t = t'.

Lemma state_lookup t x' : ptable (pset r (set_state v) s) !! t = Some x' ->
  exists x, ptable s !! t = Some x /\ ofile x' = ofile x /\ state x' = if decide (t = r) then v else state x.
Proof.
  unfold pset. cbn. destruct (decide (t = r)) as [->|Hne].
  - rewrite list_lookup_alter_eq, Hq. intros [= <-]. exists q. done.
  - rewrite list_lookup_alter_ne by congruence. eauto.
Qed.

Lemma state_fds t : fds t (pset r (set_state v) s) = fds t s.
Proof.
  unfold fds. destruct (decide (t = r)) as [->|Hne]; [|now rewrite pget_pset_ne].
  now rewrite (pget_pset_eq _ _ _ q Hq), (pget_lookup _ _ q Hq).
Qed.

Lemma state_at t x : ptable s !! t = Some x ->
  exists x', ptable (pset r (set_state v) s) !! t = Some x' /\ state x' = if decide (t = r) then v else state x.
Proof.
  intros E. unfold pset. cbn. destruct (decide (t = r)) as [->|Hne].
  - rewrite list_lookup_alter_eq, E. eexists. split; [done|]. now destruct x.
  - rewrite list_lookup_alter_ne by congruence. eauto.
Qed.

Lemma inv_state : fd_inv (pset r (set_state v) s) pc'.
Proof.
  split.
  - unfold pset. cbn. rewrite length_alter. apply Hinv.
  - apply Hinv.
  - intros t x' E. destruct (state_lookup t x' E) as (x & Ex & -> & _). now apply (iv_fds _ _ Hinv t).
  - intros f. change (fref f (pset r (set_state v) s)) with (fref f s). rewrite (iv_count _ _ Hinv). apply sumz_ext.
    intros t _. unfold share. now rewrite state_fds, Hhand.
  - intros t. apply (pc_ok_frame _ s); [apply state_fds|intros; apply state_fds|apply Hok].
  - intros t Ht%Hnone. destruct (decide (t = r)) as [->|Hne].
    + destruct (state_at r q Hq) as (x' & Ex & Es). exists x'. rewrite Es, decide_True by done. done.
    + destruct (iv_range _ _ Hinv t Ht) as (x & Ex & Hl). destruct (state_at t x Ex) as (x' & Ex' & Es).
      exists x'. rewrite Es, decide_False by done. done.
  - intros t x' E Hl. apply Hnone. destruct (state_lookup t x' E) as (x & Ex & _ & Es). rewrite Es in Hl.
    destruct (decide (t = r)); [done|]. now apply (iv_live _ _ Hinv t x).
  - intros t x' E Hl. destruct (state_lookup t x' E) as (x & Ex & -> & Es). rewrite Es in Hl.
    destruct (decide (t = r)) as [->|]; [|now apply (iv_free _ _ Hinv t x)]. replace x with q by congruence. now apply Hempty.
  - intros t np Hf%Hfill. destruct (decide (np = r)) as [->|Hne].
    + destruct (state_at r q Hq) as (x' & Ex & Es). exists x'. rewrite Es, decide_True by done. done.
    + destruct (iv_fill _ _ Hinv t np Hf) as (x & Ex & Hl). destruct (state_at np x Ex) as (x' & Ex' & Es).
      exists x'. rewrite Es, decide_False by done. done.
  - intros t t' np H1 H2. destruct (decide (np = r)) as [->|Hne]; [now apply Hone|].
    apply Hfill in H1, H2. rewrite decide_False in H1, H2 by done. now apply (iv_one _ _ Hinv t t' np).
Qed.
End State.

Lemma inv_other s s' pc : fd_inv s pc -> unrelated s s' -> fd_inv s' pc.
Proof.
  intros I [U1 U2 U3 U4].
  assert (Hback : forall p q, ptable s !! p = Some q -> exists q', ptable s' !! p = Some q' /\
    ofile q' = ofile q /\ slot_of (state q') = slot_of (state q)).
  { intros p q E. destruct (lookup_lt_is_Some_2 (ptable s') p) as [q' E'].
    { rewrite U3. now apply lookup_lt_Some in E. }
    destruct (U4 p q' E') as (x & Ex & ? & ?). exists q'. replace q with x by congruence. done. }
  assert (Ef : forall p, fds p s' = fds p s).
  { intros p. unfold fds, pget. destruct (ptable s' !! p) as [q'|] eqn:E'.
    - destruct (U4 p q' E') as (x & -> & ? & _). done.
    - destruct (ptable s !! p) as [q|] eqn:E; [|done]. destruct (Hback p q E) as (q' & ? & _). congruence. }
  split.
  - rewrite U3. apply I.
  - rewrite U1. apply I.
  - intros p q' E. destruct (U4 p q' E) as (x & Ex & -> & _). now apply (iv_fds _ _ I p).
  - intros f. rewrite U2, (iv_count _ _ I). apply sumz_ext. intros p _. unfold share. now rewrite Ef.
  - intros p. apply (pc_ok_frame _ s); auto. apply I.
  - intros p Hp. destruct (iv_range _ _ I p Hp) as (q & Eq & Hl). destruct (Hback p q Eq) as (q' & ? & _ & Es).
    exists q'. now rewrite Es.
  - intros p q' E Hl. destruct (U4 p q' E) as (x & Ex & _ & Es). rewrite Es in Hl. now apply (iv_live _ _ I p x).
  - intros p q' E Hl. destruct (U4 p q' E) as (x & Ex & -> & Es). rewrite Es in Hl. now apply (iv_free _ _ I p x).
  - intros p np Hf. destruct (iv_fill _ _ I p np Hf) as (q & Eq & Hl). destruct (Hback np q Eq) as (q' & ? & _ & Es).
    exists q'. now rewrite Es.
  - apply I.
Qed.

(** A slot that no process runs in and no fork fills. *)
Lemma free_slot s pc np q :
  fd_inv s pc -> ptable s !! np = Some q -> slot_of (state q) = Free -> pc np = FNone /\ forall p, filling (pc p) <> Some np.
Proof.
  intros I Eq Hf. split.
  - apply (pc_none s); [done|]. intros x Ex. replace x with q by congruence. congruence.
  - intros p Hp. destruct (iv_fill _ _ I p np Hp) as (x & Ex & Hx). congruence.
Qed.

Ltac upd := repeat (rewrite fn_lookup_insert || rewrite fn_lookup_insert_ne by congruence).

Lemma fork_inv s pc p np q :
  fd_inv s pc -> pc p = FUser -> ptable s !! np = Some q -> state q = UNUSED ->
  fd_inv (pset np (set_state EMBRYO) s) (<[p := FFork np 0]> pc).
Proof.
  intros I E Eq Hq. assert (Hf : slot_of (state q) = Free) by now rewrite Hq.
  destruct (free_slot s pc np q I Eq Hf) as [Hn Hnf]. assert (Hne : p <> np) by congruence.
  apply (inv_state s pc _ np q); try done.
  - intros t h. destruct (decide (p = t)) as [<-|]; upd; [now rewrite E|done].
  - intros t. destruct (decide (p = t)) as [<-|]; upd; [|apply I]. cbn. intros j g _. unfold fds.
    rewrite (pget_lookup _ _ q Eq). now apply (iv_free _ _ I np q).
  - intros t. destruct (decide (t = np)) as [->|]; [upd; rewrite Hn; done|].
    destruct (decide (p = t)) as [<-|]; upd; [rewrite E|]; done.
  - intros t m. destruct (decide (p = t)) as [<-|]; upd.
    + intros [= <-]. now rewrite decide_True.
    + intros Ht. rewrite decide_False; [done|]. intros ->. now apply (Hnf t).
  - intros t t'. destruct (decide (p = t)) as [<-|], (decide (p = t')) as [<-|]; upd; try done; intros H1 H2; exfalso;
      first [now apply (Hnf t')|now apply (Hnf t)].
Qed.

Lemma fork_fail_inv s pc p np :
  fd_inv s pc -> pc p = FFork np 0 -> fd_inv (pset np (set_state UNUSED) s) (<[p := FUser]> pc).
Proof.
  intros I E. assert (Hfp : filling (pc p) = Some np) by now rewrite E.
  destruct (iv_fill _ _ I p np Hfp) as (q & Eq & Hq).
  assert (Hn : pc np = FNone) by (apply (pc_none s); [done|]; intros x Ex; replace x with q by congruence; congruence).
  assert (Hne : p <> np) by congruence. pose proof (iv_pc _ _ I p) as Hok. rewrite E in Hok. cbn in Hok.
  apply (inv_state s pc _ np q); try done.
  - intros t h. destruct (decide (p = t)) as [<-|]; upd; [now rewrite E|done].
  - intros t. destruct (decide (p = t)) as [<-|]; upd; [done|apply I].
  - intros t. destruct (decide (t = np)) as [->|]; [upd; rewrite Hn; done|].
    destruct (decide (p = t)) as [<-|]; upd; [rewrite E|]; done.
  - intros _ i f. specialize (Hok i f ltac:(lia)). unfold fds in Hok. now rewrite (pget_lookup _ _ q Eq) in Hok.
  - intros t m. destruct (decide (p = t)) as [<-|]; upd; [done|]. intros Ht. rewrite decide_False; [done|]. intros ->.
    apply n. now apply (iv_one _ _ I p t np).
  - intros t t'. destruct (decide (p = t)) as [<-|]; upd; [done|]. intros Ht. exfalso. apply n. now apply (iv_one _ _ I p t np).
Qed.

Lemma publish_inv s pc p np :
  fd_inv s pc -> pc p = FFork np NOFILE ->
  fd_inv (pset np (set_state RUNNABLE) s) (<[np := FUser]> (<[p := FUser]> pc)).
Proof.
  intros I E. assert (Hfp : filling (pc p) = Some np) by now rewrite E.
  destruct (iv_fill _ _ I p np Hfp) as (q & Eq & Hq).
  assert (Hn : pc np = FNone) by (apply (pc_none s); [done|]; intros x Ex; replace x with q by congruence; congruence).
  assert (Hne : p <> np) by congruence.
  apply (inv_state s pc _ np q); try done.
  - intros t h. destruct (decide (t = np)) as [->|]; [upd; now rewrite Hn|].
    destruct (decide (p = t)) as [<-|]; upd; [now rewrite E|done].
  - intros t. destruct (decide (t = np)) as [->|]; [upd; done|]. destruct (decide (p = t)) as [<-|]; upd; [done|apply I].
  - intros t. destruct (decide (t = np)) as [->|]; [upd; done|]. destruct (decide (p = t)) as [<-|]; upd; [rewrite E|]; done.
  - intros t m. destruct (decide (t = np)) as [->|]; [now upd|]. destruct (decide (p = t)) as [<-|]; [now upd|]. upd.
    intros Ht. rewrite decide_False; [done|]. intros ->. apply n0. now apply (iv_one _ _ I p t np).
  - intros t t'. destruct (decide (t = np)) as [->|]; [now upd|]. destruct (decide (p = t)) as [<-|]; [now upd|]. upd.
    intros Ht. exfalso. apply n0. now apply (iv_one _ _ I p t np).
Qed.

Lemma zombie_inv s pc p :
  fd_inv s pc -> pc p = FExit NOFILE -> fd_inv (pset p (set_state ZOMBIE) s) (<[p := FNone]> pc).
Proof.
  intros I E. assert (Hp : pc p <> FNone) by now rewrite E. destruct (iv_range _ _ I p Hp) as (q & Eq & Hl).
  pose proof (iv_pc _ _ I p) as Hok. rewrite E in Hok. cbn in Hok.
  assert (Hnf : forall t, filling (pc t) <> Some p).
  { intros t Ht. now apply (filling_other s pc t p p I Ht). }
  apply (inv_state s pc _ p q); try done.
  - intros t h. destruct (decide (p = t)) as [<-|]; upd; [now rewrite E|done].
  - intros t. destruct (decide (p = t)) as [<-|]; upd; [done|apply I].
  - intros t. destruct (decide (t = p)) as [->|]; upd; done.
  - intros _ i f Hi. unfold fds in Hok. rewrite (pget_lookup _ _ q Eq) in Hok. apply (Hok i f); [|done].
    apply lookup_lt_Some in Hi. now rewrite (iv_fds _ _ I p q Eq) in Hi.
  - intros t m. destruct (decide (p = t)) as [<-|]; upd; [done|]. intros Ht. rewrite decide_False; [done|]. intros ->.
    now apply (Hnf t).
  - intros t t'. destruct (decide (p = t)) as [<-|]; upd; [done|]. intros Ht. exfalso. now apply (Hnf t).
Qed.

Lemma fd_step_inv x x' : fd_step x x' -> fd_inv (fy_st x) (fy_pc x) -> fd_inv (fy_st x') (fy_pc x').
Proof.
  intros [p s pc s' c Hp Hm|s s' pc Hu|p np q s pc E Eq Hq|p np s pc E|p np s pc E|p s pc E] I; cbn [fy_st fy_pc] in *.
  - now apply (move_inv s).
  - now apply (inv_other s).
  - now apply (fork_inv s pc p np q).
  - now apply fork_fail_inv.
  - now apply publish_inv.
  - now apply zombie_inv.
Qed.

Lemma fd_init_inv x : fd_init x -> fd_inv (fy_st x) (fy_pc x).
Proof.
  destruct x as [s pc]. intros [W R P L]. cbn [fy_st fy_pc] in *.
  assert (Hnone : forall p, pc p <> FNone <-> alive p s).
  { intros p. rewrite <- L. destruct (P p) as [->| ->]; split; done. }
  assert (Hl : forall v, live_state v = true <-> slot_of v = Live) by (intros []; done).
  assert (Hh : forall p f, inhand f (pc p) = 0) by (intros p f; destruct (P p) as [->| ->]; done).
  assert (Hf : forall p, filling (pc p) = None) by (intros p; destruct (P p) as [->| ->]; done).
  split.
  - apply W.
  - apply W.
  - apply W.
  - intros f. rewrite shares by apply W. rewrite R. unfold inflight.
    rewrite (sumz_ext _ (fun _ => 0)) by (intros; apply Hh). clear. generalize NPROC. intros n. induction n; cbn; lia.
  - intros p. destruct (P p) as [->| ->]; done.
  - intros p (q & Eq & Hq)%Hnone. exists q. split; [done|]. now apply Hl.
  - intros p q Eq Hq. apply Hnone. exists q. split; [done|]. now apply Hl.
  - intros p q Eq Hq. apply (wf_dead _ _ W p q Eq); [done|]. destruct (state q); done.
  - intros p np. now rewrite Hf.
  - intros p p' np. now rewrite Hf.
Qed.

Lemma fd_reach_inv x x' : fd_init x -> rtc fd_step x x' -> fd_inv (fy_st x') (fy_pc x').
Proof. intros H0 Hr. apply fd_init_inv in H0. induction Hr; eauto using fd_step_inv. Qed.

Lemma uses_two f l i j : i <> j -> l !! i = Some (Some f) -> l !! j = Some (Some f) -> 2 <= uses f l.
Proof.
  revert i j. induction l as [|o l IH]; intros [|i] [|j] Hne E1 E2; cbn in *; try done.
  - injection E1 as ->. rewrite decide_True by done. apply uses_in in E2. lia.
  - injection E2 as ->. rewrite decide_True by done. apply uses_in in E1. lia.
  - specialize (IH i j ltac:(congruence) E1 E2). destruct (decide _); lia.
Qed.

Lemma slot_share s pc p f q : fd_inv s pc -> ptable s !! p = Some q -> share f s pc p <= fref f s.
Proof.
  intros I Eq. rewrite (iv_count _ _ I). apply sumz_share.
  - intros i. apply share_nonneg, I.
  - apply lookup_lt_Some in Eq. now rewrite (iv_procs _ _ I) in Eq.
Qed.

(** A descriptor has a reference, unless exit is about to clear it. *)
Lemma fd_counted s pc p fd f :
  fd_inv s pc -> fds p s !! fd = Some (Some f) -> pc p <> FExiting fd f -> 1 <= fref f s.
Proof.
  intros I Hfd Hx. destruct (ptable s !! p) as [q|] eqn:Eq.
  2:{ exfalso. unfold fds, pget in Hfd. rewrite Eq in Hfd. cbn in Hfd. now apply lookup_replicate_1 in Hfd as [? _]. }
  pose proof (slot_share s pc p f q I Eq) as Hs. pose proof (iv_pc _ _ I p) as Hok. pose proof (uses_in _ _ _ Hfd) as Hu.
  unfold share, inhand in Hs. pose proof (cnt_nonneg f (extra (pc p))) as Hn.
  destruct (pc p) as [| |g|g|l|g|g|g h|n g h|n g h|np i|np i g|i|i g]; cbn [lacks cnt pc_ok] in *; try lia.
  - destruct (decide (g = f)) as [->|]; lia.
  - destruct (decide (g = f)) as [->|]; [|lia]. destruct Hok as [_ Hg].
    assert (Hne : fd <> i) by congruence. pose proof (uses_two f _ fd i Hne Hfd Hg). lia.
Qed.

(** A file whose reference a call has in hand. *)
Lemma extra_counted s pc p f : fd_inv s pc -> f ∈ extra (pc p) -> 1 <= fref f s.
Proof.
  intros I Hin. assert (Hp : pc p <> FNone) by (intros E; rewrite E in Hin; now apply not_elem_of_nil in Hin).
  destruct (inv_share s pc p f I Hp) as [_ Hs]. unfold share, inhand in Hs. pose proof (uses_nonneg f (fds p s)).
  assert (Hc : forall l, f ∈ l -> 1 <= cnt f l).
  { clear. induction l as [|g l IH]; intros Hin; [now apply not_elem_of_nil in Hin|]. cbn. pose proof (cnt_nonneg f l).
    destruct (decide (g = f)); [lia|]. apply elem_of_cons in Hin as [->|Hin]; [done|]. specialize (IH Hin). lia. }
  specialize (Hc _ Hin). destruct (pc p); cbn [extra lacks cnt] in *; try lia; now apply not_elem_of_nil in Hin.
Qed.

(** C13: any number of processes on any number of CPUs, taking turns at any point
    between two critical sections of ftable.lock and two accesses to a table of
    descriptors (so that an interrupt may take the CPU away anywhere in a system
    call): at every moment the count of an open file is the number of descriptors
    of all processes that name it, plus the references that calls in progress hold
    without a descriptor (open, pipe, close and fork between their steps), minus
    the descriptors that are not counted yet (dup) or no longer (exit); so it is
    the number of descriptors when no call is between its steps.  A descriptor
    names an entry of the table with a count of at least 1, but for the one that
    exit is about to clear, and so does a file that a read, write or fstat is
    using.  filedup and fileclose never panic. *)
Theorem descriptors_balance x x' :
  fd_init x -> rtc fd_step x x' ->
  let s := fy_st x' in let pc := fy_pc x' in
  (forall f, fref f s = total f (ptable s) + inflight f pc) /\
  ((forall p, extra (pc p) = [] /\ lacks (pc p) = []) -> forall f, fref f s = total f (ptable s)) /\
  (forall p fd f, fds p s !! fd = Some (Some f) -> pc p <> FExiting fd f -> (f < NFILE)%nat /\ 1 <= fref f s) /\
  (forall p f, pc p = FUse f -> 1 <= fref f s) /\
  (forall p f, (pc p = FDup f \/ exists np i, pc p = FFork np i /\ fds p s !! i = Some (Some f)) ->
     exists s', runs_to (fop p (filedup f)) s f s') /\
  (forall p f, (exists l, pc p = FDrop (f :: l)) \/ (exists fd, pc p = FExit fd /\ fds p s !! fd = Some (Some f)) ->
     exists r s', runs_to (fop p (fileclose_ref f)) s r s').
Proof.
  intros H0 Hr s pc. pose proof (fd_reach_inv x x' H0 Hr) as I. fold s pc in I.
  assert (Hsum : forall f, fref f s = total f (ptable s) + inflight f pc).
  { intros f. rewrite (iv_count _ _ I). apply shares, I. }
  assert (Huse : forall p f, pc p = FUse f \/ pc p = FDup f -> 1 <= fref f s).
  { intros p f Hp. assert (Hn : pc p <> FNone) by (destruct Hp as [->| ->]; done).
    destruct (inv_share s pc p f I Hn) as [_ Hs]. pose proof (iv_pc _ _ I p) as Hok. unfold share, inhand in Hs.
    destruct Hp as [E|E]; rewrite E in *; cbn [extra lacks cnt pc_ok] in *; [lia|]. destruct (decide _); lia. }
  split; [exact Hsum|]. split_and!.
  - intros Hq f. rewrite Hsum. unfold inflight. rewrite (sumz_ext _ (fun _ => 0)).
    + enough (sumz (fun _ => 0) NPROC = 0) by lia. generalize NPROC. clear. intros n. induction n; cbn; lia.
    + intros p _. unfold inhand. now destruct (Hq p) as [-> ->].
  - intros p fd f Hfd Hx. pose proof (fd_counted s pc p fd f I Hfd Hx) as Hc. split; [|done].
    destruct (fref_lookup f s Hc) as (y & Ey & _). apply lookup_lt_Some in Ey. now rewrite (iv_files _ _ I) in Ey.
  - intros p f E. apply (Huse p). now left.
  - intros p f [E|(np & i & E & Hfd)]; apply filedup_returns; [apply (Huse p); now right|].
    apply (fd_counted s pc p i f I Hfd). now rewrite E.
  - intros p f [(l & E)|(fd & E & Hfd)]; apply close_returns.
    + apply (extra_counted s pc p f I). rewrite E. left.
    + apply (fd_counted s pc p fd f I Hfd). now rewrite E.
Qed.

(** * An example: a process duplicates a descriptor *)
Module FdSample.
Definition p0 : proc := set_ofile (Some 7%nat :: replicate 15 None) (set_state RUNNING proc0).
Definition con0 : console :=
  Console false true (Input (replicate 128 0) 0 0 0) (Cga (replicate 2000 0) 0) (Serial true [] []) (Kbd [] 0).
Definition io0 : fio :=
  Fio (Fsst (log0 (Bst [] [] [])) (Superblock 0 0 0 0 0 0 0) [])
    (<[7%nat := File FD_INODE 1 true true 0 0 0]> (replicate NFILE file0)) ∅ con0.
Definition s0 : ks := Kst (Kmem ∅ 0 true) (Hw [] (0, 0) 0 0 0 0 0 (0, 0)) (p0 :: replicate 63 proc0) 6 None 0 false io0.
Definition pc0 : nat -> fpc := fun p => match p with O => FUser | S _ => FNone end.

(** After fdalloc: two descriptors and one reference. *)
Definition s1 : ks := pset 0 (set_fd 1 (Some 7%nat)) s0.
Definition x1 : fdsys := Fdsys s1 (<[0%nat := FDup 7]> pc0).

Lemma sample_lookup p q : ptable s0 !! p = Some q -> (p = 0%nat /\ q = p0) \/ q = proc0.
Proof. destruct p as [|p]; [intros [= <-]; now left|]. intros E. right. now apply lookup_replicate_1 in E as [-> _]. Qed.

Lemma s0_init : fd_init (Fdsys s0 pc0).
Proof.
  assert (Hno : forall i g, ofile proc0 !! i <> Some (Some g)).
  { intros i g E. unfold proc0 in E. cbn [ofile] in E. apply lookup_replicate_1 in E as [E _]. discriminate E. }
  assert (Hfree : forall f, f <> 7%nat -> fof f (ks_fs s0) = file0).
  { intros f Hne. unfold fof. cbn [ks_fs s0 io0 ftable]. rewrite list_lookup_insert_ne by congruence.
    destruct (replicate NFILE file0 !! f) as [y|] eqn:E; [|done]. now apply lookup_replicate_1 in E as [-> _]. }
  split; cbn [fy_st fy_pc].
  - split; [reflexivity| |reflexivity| |].
    + intros p q E. destruct (sample_lookup p q E) as [[_ ->]| ->]; reflexivity.
    + intros p q E _ L. destruct (sample_lookup p q E) as [[_ ->]| ->]; [discriminate|apply Hno].
    + intros f. unfold fref, ftyp. destruct (decide (f = 7%nat)) as [->|Hne]; [discriminate|]. now rewrite Hfree.
  - intros f. assert (Z0 : forall n, total f (replicate n proc0) = 0) by (induction n as [|n IH]; [done|exact IH]).
    cbn [ptable s0 total]. rewrite Z0. unfold fref. destruct (decide (f = 7%nat)) as [->|Hne]; [reflexivity|].
    rewrite Hfree by done. cbn [ofile p0 set_ofile replicate]. unfold uses at 1. rewrite decide_False by congruence. reflexivity.
  - intros [|p]; auto.
  - intros [|p]; cbn.
    + split; [|done]. intros _. exists p0. done.
    + split; [done|]. intros (q & E & L). destruct (sample_lookup (S p) q E) as [[? _]| ->]; done.
Qed.

Lemma to_x1 : rtc fd_step (Fdsys s0 pc0) x1.
Proof.
  apply rtc_once. apply (fs_move 0 s0 pc0 s1 (FDup 7)); [done|].
  right. left. apply (fm_dup 0 s0 0 7 1 s1); [reflexivity|]. eexists. reflexivity.
Qed.
End FdSample.

(** Between fdalloc and filedup two descriptors share one reference, and filedup
    returns. *)
Lemma descriptors_balance_witness :
  fref 7 FdSample.s1 = 1 /\ fref 7 FdSample.s1 = total 7 (ptable FdSample.s1) + inflight 7 (fy_pc FdSample.x1) /\
  exists s', runs_to (fop 0 (filedup 7)) FdSample.s1 7%nat s'.
Proof.
  destruct (descriptors_balance (Fdsys FdSample.s0 FdSample.pc0) FdSample.x1 FdSample.s0_init FdSample.to_x1)
    as (A & _ & _ & _ & B & _).
  split; [reflexivity|]. split; [exact (A 7%nat)|]. apply (B 0%nat 7%nat). left. reflexivity.
Defined.
