(* ===== verification/RefsProc.v ===== *)
(** The accounting of Refs.v for proc.c, the system calls of sysproc.c, signals
    and traps. *)
From S2P Require Import Prelude Monad Mem Mmu Cstring Kalloc Vm Hw FileIface Proc Signal Sysproc.
From S2P Require Import Trap Ring Pipe Sleeplock Disk Bio Log Fs FsData Digits Kbd Console File.
From S2P Require Import Refs Kfile Exec Sysfile RefsFile.

(** * Page tables are changed without sleeping *)

Section Vm.
Variables kend kdata : Z.

Lemma awake_walkpgdir pgdir va alloc : awake (walkpgdir pgdir va alloc).
Proof. unfold walkpgdir, load, store, fill. awake_steps. Qed.
Hint Resolve awake_walkpgdir : awake.
Lemma awake_mappages_from n pgdir a last pa perm : awake (mappages_from n pgdir a last pa perm).
Proof. revert a pa. induction n as [|n IH]; intros a pa; cbn [mappages_from]; unfold load, store; awake_steps; auto. Qed.
Lemma awake_mappages pgdir va size pa perm : awake (mappages pgdir va size pa perm).
Proof. apply awake_mappages_from. Qed.
Lemma awake_deallocuvm_from n pgdir a oldsz : awake (deallocuvm_from kend n pgdir a oldsz).
Proof. revert a. induction n as [|n IH]; intros a; cbn [deallocuvm_from]; unfold load, store; awake_steps; auto. Qed.
Hint Resolve awake_mappages awake_deallocuvm_from : awake.
Lemma awake_deallocuvm pgdir oldsz newsz : awake (deallocuvm kend pgdir oldsz newsz).
Proof. unfold deallocuvm. awake_steps. Qed.
Hint Resolve awake_deallocuvm : awake.
Lemma awake_freevm pgdir : awake (freevm kend pgdir).
Proof. unfold freevm, load. awake_steps. Qed.
Hint Resolve awake_freevm : awake.
Lemma awake_setupkvm : awake (setupkvm kend kdata).
Proof. unfold setupkvm, fill. awake_steps. Qed.
Hint Resolve awake_setupkvm : awake.
Lemma awake_copyuvm_from n pgdir d i sz : awake (copyuvm_from kend n pgdir d i sz).
Proof. revert i. induction n as [|n IH]; intros i; cbn [copyuvm_from]; unfold load, store; awake_steps; auto. Qed.
Hint Resolve awake_copyuvm_from : awake.
Lemma awake_copyuvm pgdir sz : awake (copyuvm kend kdata pgdir sz).
Proof. unfold copyuvm. awake_steps. Qed.
End Vm.

Section Procs.
Context {fuel : Fuel}.
Variables kdata kend trapret_addr forkret_addr ts_addr : Z.
Variable cur : nat.
#[local] Instance ops : FileOps fio := fio_ops kend.

(** The file system as processes see it. *)
Lemma quiet_begin_op : quiet cur (lift cur FileIface.begin_op).
Proof. apply quiet_lift, keepf_infss. Qed.
Lemma quiet_end_op : quiet cur (lift cur FileIface.end_op).
Proof. apply quiet_lift, keepf_infss. Qed.
Lemma quiet_iput i : quiet cur (lift cur (FileIface.iput i)).
Proof. apply quiet_lift, keepf_infss. Qed.
Lemma quiet_iinit dev : quiet cur (lift cur (FileIface.iinit dev)).
Proof. apply quiet_lift, keepf_infss. Qed.
Lemma quiet_initlog dev : quiet cur (lift cur (FileIface.initlog dev)).
Proof. apply quiet_lift, keepf_infss. Qed.
Hint Resolve quiet_begin_op quiet_end_op quiet_iput quiet_iinit quiet_initlog : quiet.

(** * exit *)

(** The body of the loop. *)
Abbreviation exit_fd := (fun fd : nat =>
  let* f := gets (fun k => ofile (pget cur k) !! fd) in
  match f with
  | Some (Some f) =>
      lift cur (FileIface.fileclose f) ;;;
      pmod cur (fun q => set_ofile (<[fd := None]> (ofile q)) q)
  | _ => ret tt
  end).

Lemma obeys_exit_files_from n k s0 d0 c s :
  ready cur s0 d0 None s -> (forall i g, (i < k)%nat -> fds cur s !! i <> Some (Some g)) ->
  obeys cur s0 d0 (fun s1 d1 _ _ s' => ready cur s1 d1 None s' /\
      forall i g, (i < k + n)%nat -> fds cur s' !! i <> Some (Some g))
    (for_ (seq k n) exit_fd c s).
Proof.
  revert k s0 d0 c s. induction n as [|n IH]; intros k s0 d0 c s R Hk; cbn [seq for_].
  { split; [done|]. intros i g Hi. apply Hk. lia. }
  apply obeys_bind. apply obeys_bind. cbn [obeys gets]. fold (fds cur s).
  assert (Next : forall s1 d1 c1 s2, ready cur s1 d1 None s2 ->
    (forall i g, (i < S k)%nat -> fds cur s2 !! i <> Some (Some g)) ->
    obeys cur s1 d1 (fun s1 d1 _ _ s' => ready cur s1 d1 None s' /\
      forall i g, (i < k + S n)%nat -> fds cur s' !! i <> Some (Some g)) (for_ (seq (S k) n) exit_fd c1 s2)).
  { intros s1 d1 c1 s2 R2 H2. eapply obeys_mono; [now apply IH|]. intros s3 d3 a c3 s4 [R4 H4].
    split; [done|]. intros i g Hi. apply H4. lia. }
  destruct (fds cur s !! k) as [[f|]|] eqn:Ef.
  2-3: apply Next; [done|]; intros i g Hi; destruct (decide (i = k)) as [->|]; [congruence|apply Hk; lia].
  change (FileIface.fileclose f) with (File.fileclose kend f). apply obeys_bind. eapply obeys_mono.
  { apply (obeys_fileclose kend cur s0 d0 (Some f) (owed None) s f c (proj1 R)).
    - intros h. now rewrite owed_none.
    - intros h. unfold owed. destruct (decide _) as [[= <-]|]; [now apply (uses_in _ _ k)|apply uses_nonneg]. }
  intros s1 d1 [] c1 s2 [[R2 _] F2]. eapply obeys_set_ofile; [exact R2|rewrite F2; exact Ef|].
  intros s3 R3 F3 _. apply Next.
  - apply (running_ready _ _ _ _ _ R3). intros h. rewrite owed_none. lia.
  - intros i g Hi. rewrite F3, F2. destruct (decide (i = k)) as [->|Hne].
    + rewrite list_lookup_insert_eq by now apply lookup_lt_Some in Ef. discriminate.
    + rewrite list_lookup_insert_ne by congruence. apply Hk. lia.
Qed.

Lemma quiet_exit_children : quiet cur (exit_children cur).
Proof. unfold exit_children. quiet_steps. Qed.

(** A process without descriptors becomes a zombie, and is not resumed. *)
Lemma obeys_zombie {A} s0 d0 c s (Q : ks -> option nat -> A -> ctx -> ks -> Prop) :
  ready cur s0 d0 None s -> (forall i g, fds cur s !! i <> Some (Some g)) ->
  obeys cur s0 d0 Q ((pmod cur (set_state ZOMBIE) ;;; sched cur ;;; panic "zombie exit") c s).
Proof.
  intros [[[W1 W2 W3 W4 W5] B G (q & Eq & Lq) S] _] Hn.
  assert (Eg : pget cur s = q) by (unfold pget; now rewrite Eq).
  assert (L : forall r, ptable (pset cur (set_state ZOMBIE) s) !! r = if decide (r = cur) then Some (set_state ZOMBIE q) else ptable s !! r).
  { intros r. unfold pset. cbn. destruct (decide (r = cur)) as [->|Hne]; [now rewrite list_lookup_alter_eq, Eq|].
    now rewrite list_lookup_alter_ne by congruence. }
  apply obeys_bind. cbn [obeys pmod modify]. apply obeys_bind. unfold sched. repeat (case_match; [exact I|]).
  exists None. split; [|intros s' _; exact I]. split.
  - split.
    + unfold pset. cbn. now rewrite length_alter.
    + intros r y. rewrite L. destruct (decide (r = cur)) as [->|]; [|apply W2]. intros [= <-]. exact (W2 _ _ Eq).
    + exact W3.
    + intros r y. rewrite L. destruct (decide (r = cur)) as [->|]; [|apply W4]. intros [= <-] _ _ i g.
      specialize (Hn i g). unfold fds in Hn. now rewrite Eg in Hn.
    + exact W5.
  - intros f. specialize (B f). unfold bal in *. unfold pset at 1. cbn [ptable set_ptable]. rewrite (total_alter _ _ _ _ _ Eq). cbn [ofile set_state].
    change (fref f (pset cur (set_state ZOMBIE) s)) with (fref f s). lia.
  - intros r Hr Ha. destruct (G r Hr Ha) as [(y & Ey & Ly) E]. split.
    + exists y. split; [|done]. now rewrite L, decide_False.
    + unfold fds in *. now rewrite pget_pset_ne.
  - intros f. apply uses_nonneg.
Qed.

(** Quiet code keeps the process without descriptors. *)
Lemma obeys_quiet_fds {A B} (m : M ks A) (k : A -> M ks B) s0 d0 c s Q :
  quiet cur m -> ready cur s0 d0 None s ->
  (forall s1 d1 a c' s', ready cur s1 d1 None s' -> (forall i g, fds cur s' !! i <> Some (Some g)) ->
     obeys cur s1 d1 Q (k a c' s')) ->
  (forall i g, fds cur s !! i <> Some (Some g)) -> obeys cur s0 d0 Q (bind m k c s).
Proof.
  intros Hm R HQ N. eapply obeys_quiet; [exact Hm|exact R|]. intros s1 d1 a c1 s2 R2 F2. apply HQ; [done|].
  now rewrite F2.
Qed.

Lemma settled_exit {A} : settled cur (exit (A := A) cur).
Proof.
  intros s0 d0 c s R. unfold exit. apply obeys_bind. cbn [obeys gets]. case_match; [exact I|].
  apply obeys_bind. eapply obeys_mono; [apply (obeys_exit_files_from NOFILE 0 s0 d0 c s R); lia|].
  intros s1 d1 [] c1 s2 [R2 H2].
  assert (N2 : forall i g, fds cur s2 !! i <> Some (Some g)).
  { intros i g E. apply (H2 i g); [|exact E]. apply lookup_lt_Some in E. destruct R2 as [[W _ _ (q & Eq & _) _] _].
    unfold fds in E. rewrite (pget_lookup _ _ _ Eq), (wf_fds _ _ W _ _ Eq) in E. lia. }
  clear H2. revert N2.
  apply (obeys_quiet_fds (lift cur FileIface.begin_op)); [quiet_steps|exact R2|]. clear. intros s1 d1 _ c s R N.
  revert N. apply obeys_quiet_fds; [quiet_steps|exact R|]. clear. intros s1 d1 d c s R N.
  revert N. apply obeys_quiet_fds; [unfold deref; quiet_steps|exact R|]. clear. intros s1 d1 d c s R N.
  revert N. do 6 (apply obeys_quiet_fds; [quiet_steps|exact R|]; clear; intros s1 d1 ? c s R N; revert N).
  apply obeys_quiet_fds; [apply quiet_exit_children|exact R|]. clear. intros s1 d1 _ c s R N. now apply obeys_zombie.
Qed.

(** * fork *)

(** Slot [np] is taken but not running. *)
Definition unborn (np : nat) (s : ks) : Prop := is_Some (ptable s !! np) /\ ~ alive np s.

Lemma unborn_harmless np s s' : harmless s s' -> unborn np s -> unborn np s'.
Proof.
  intros H [[q E] N]. destruct (Forall2_lookup_l _ _ _ _ _ (hl_procs _ _ H) E) as (q' & E' & _).
  split; [now exists q'|]. now rewrite <- (harmless_alive _ _ H np).
Qed.

(** Changes to the fields of a slot that is not running. *)
Lemma harmless_unborn np s v (f : proc -> proc) :
  unborn np s -> live_state v = false -> (forall q, ofile (f q) = ofile q /\ state (f q) = v) -> harmless s (pset np f s).
Proof.
  intros [_ N] Hv Hf. apply harmless_pset. intros q E. destruct (Hf q) as [-> Es]. split; [done|]. unfold st_ok.
  rewrite Es, Hv. destruct (live_state (state q)) eqn:L; [|done]. destruct N. now exists q.
Qed.

(** A stretch with a promise about its result. *)
Definition calm {A} (m : M ks A) (P : A -> ks -> Prop) (c : ctx) (s : ks) : Prop :=
  match m c s with
  | Ret a _ s' => harmless s s' /\ P a s'
  | Sleep _ _ _ _ => False
  | Panic _ | OutOfFuel => True
  end.

Lemma calm_bind {A B} (m : M ks A) (f : A -> M ks B) P c s :
  silent m -> (forall a c' s', harmless s s' -> calm (f a) P c' s') -> calm (bind m f) P c s.
Proof.
  intros Hm Hf. unfold calm, bind. specialize (Hm c s). destruct (m c s) as [a c' s1| | |]; simpl; try done.
  specialize (Hf a c' s1 Hm). unfold calm in Hf. destruct (f a c' s1); try done. destruct Hf as [H1 H2].
  split; [|done]. now apply (harmless_trans _ s1).
Qed.

Lemma silent_allocpid : silent allocpid.
Proof. intros c s. unfold allocpid, allocpid_from, bind, cas. cbn. rewrite decide_True by done. cbn. now apply harmless_same. Qed.

Lemma calm_allocproc_found i c s :
  unborn i s -> calm (allocproc_found trapret_addr forkret_addr i) (fun r s' => forall np, r = Some np -> unborn np s') c s.
Proof.
  intros U. unfold allocproc_found. apply calm_bind; [apply silent_allocpid|]. intros id c1 s1 H1.
  apply calm_bind; [silent_steps|]. intros _ c2 s2 H2. apply calm_bind; [apply silent_inkm, awake_kalloc|]. intros k c3 s3 H3.
  apply calm_bind; [silent_steps|]. intros _ c4 s4 H4.
  assert (U4 : unborn i s4).
  { apply (unborn_harmless _ _ _ H4), (unborn_harmless _ _ _ H3), (unborn_harmless _ _ _ H2), (unborn_harmless _ _ _ H1), U. }
  destruct (k =? 0).
  - unfold calm, bind. cbn. split; [|done]. now apply (harmless_unborn _ _ UNUSED).
  - do 5 (apply calm_bind; [silent_steps; apply silent_inkm; unfold fill; awake_steps|];
      intros ? ? ? ?; match goal with U : unborn i ?s, H : harmless ?s ?s' |- _ => apply (unborn_harmless _ _ _ H) in U end).
    split; [apply harmless_refl|]. now intros np [= <-].
Qed.

Lemma calm_allocproc c s :
  length (ptable s) = NPROC ->
  calm (allocproc trapret_addr forkret_addr) (fun r s' => forall np, r = Some np -> unborn np s') c s.
Proof.
  intros Hlen. unfold allocproc.
  assert (Hl : forall i, i ∈ seq 0 NPROC -> is_Some (ptable s !! i)).
  { intros i Hi. apply elem_of_seq in Hi. apply lookup_lt_is_Some. lia. }
  revert Hl. generalize (seq 0 NPROC). intros l Hl. clear Hlen. revert c.
  induction l as [|i l IH]; intros c; cbn [forb]. { split; [apply harmless_refl|done]. }
  unfold calm, bind at 1 2. unfold cas at 1. cbn [obind]. destruct (decide (state (pget i s) = UNUSED)) as [E|E].
  2:{ cbn. apply IH. intros j Hj. apply Hl. now right. }
  destruct (Hl i ltac:(left)) as [q Eq]. rewrite (pget_lookup _ _ _ Eq) in E.
  assert (U : unborn i s).
  { split; [now exists q|]. intros (q' & Eq' & L). rewrite Eq in Eq'. injection Eq' as <-. now rewrite E in L. }
  assert (H1 : harmless s (pset i (set_state EMBRYO) s)) by now apply (harmless_unborn _ _ EMBRYO).
  pose proof (calm_allocproc_found i c _ (unborn_harmless _ _ _ H1 U)) as G. unfold calm in G. cbn [obind].
  unfold bind. destruct (allocproc_found trapret_addr forkret_addr i c (pset i (set_state EMBRYO) s)); cbn; try done.
  destruct G as [H2 G]. split; [now apply (harmless_trans _ _ _ H1)|done].
Qed.

Lemma obeys_calm {A B} x p s0 d0 e (m : M ks A) (k : A -> M ks B) P c s Q :
  calm m P c s -> running x p s0 d0 e s ->
  (forall a c' s', harmless s s' -> running x p s0 d0 e s' -> P a s' -> obeys p s0 d0 Q (k a c' s')) ->
  obeys p s0 d0 Q (bind m k c s).
Proof.
  intros Hm R HQ. apply obeys_bind. unfold calm in Hm. destruct (m c s) as [a c' s'| | |]; simpl; try done.
  destruct Hm as [Hh HP]. apply HQ; [done| |done]. now apply (harmless_running _ _ _ _ _ s).
Qed.

(** The child starts to run. *)
Lemma running_birth p s0 d0 e s np :
  running (Some np) p s0 d0 e s -> unborn np s -> running None p s0 d0 e (pset np (set_state RUNNABLE) s).
Proof.
  intros [[W1 W2 W3 W4 W5] B G A S] [[q Eq] N].
  assert (L : forall r, ptable (pset np (set_state RUNNABLE) s) !! r = if decide (r = np) then Some (set_state RUNNABLE q) else ptable s !! r).
  { intros r. unfold pset. cbn. destruct (decide (r = np)) as [->|Hne]; [now rewrite list_lookup_alter_eq, Eq|].
    now rewrite list_lookup_alter_ne by congruence. }
  assert (AL : forall r, alive r s -> alive r (pset np (set_state RUNNABLE) s)).
  { intros r (y & Ey & Ly). destruct (decide (r = np)) as [->|Hne]; [destruct N; now exists y|].
    exists y. split; [|done]. now rewrite L, decide_False. }
  assert (F : forall r, fds r (pset np (set_state RUNNABLE) s) = fds r s).
  { intros r. unfold fds. destruct (decide (r = np)) as [->|Hne]; [|now rewrite pget_pset_ne].
    rewrite (pget_pset_eq _ _ _ _ Eq). unfold pget. now rewrite Eq. }
  split.
  - split.
    + unfold pset. cbn. now rewrite length_alter.
    + intros r y. rewrite L. destruct (decide (r = np)) as [->|]; [|apply W2]. intros [= <-]. exact (W2 _ _ Eq).
    + exact W3.
    + intros r y. rewrite L. destruct (decide (r = np)) as [->|]; [now intros [= <-]|]. intros E _. apply (W4 r y E). congruence.
    + exact W5.
  - intros f. specialize (B f). unfold bal in *. unfold pset at 1. cbn [ptable set_ptable].
    rewrite (total_alter _ _ _ _ _ Eq). cbn [ofile set_state].
    change (fref f (pset np (set_state RUNNABLE) s)) with (fref f s). lia.
  - intros r Hr Ha. destruct (G r Hr Ha) as [A' E']. split; [now apply AL|]. now rewrite F.
  - now apply AL.
  - intros f. rewrite F. apply S.
Qed.

(** An unborn slot may be taken out of the requirement that it has no files. *)
Lemma running_except p s0 d0 e s np : running None p s0 d0 e s -> running (Some np) p s0 d0 e s.
Proof. intros [[W1 W2 W3 W4 W5] B G A S]. split; [|done..]. split; [done..| |done]. intros r q E _. now apply (W4 r q E). Qed.

Lemma procs_ok_unborn np s s' : procs_ok s s' -> unborn np s -> unborn np s' /\ fds np s' = fds np s.
Proof.
  intros P [[q E] N]. destruct (Forall2_lookup_l _ _ _ _ _ P E) as (q' & E' & Eo & T). split; [split; [now exists q'|]|].
  - intros (r & Er & Lr). rewrite E' in Er. injection Er as <-. apply N. exists q. split; [done|]. now rewrite <- T.
  - unfold fds. now rewrite (pget_lookup _ _ _ E), (pget_lookup _ _ _ E').
Qed.

(** The body of the loop that copies the descriptors. *)
Abbreviation fork_fd np := (fun i : nat =>
  let* f := gets (fun k => ofile (pget cur k) !! i) in
  match f with
  | Some (Some f) =>
      let* g := lift cur (FileIface.filedup f) in
      pmod np (fun q => set_ofile (<[i := Some g]> (ofile q)) q)
  | _ => ret tt
  end).

Lemma obeys_fork_files_from np n k s0 d0 c s Q :
  running (Some np) cur s0 d0 (owed None) s -> unborn np s ->
  (forall j, (k <= j < k + n)%nat -> fds np s !! j = Some None) ->
  (forall c' s', running (Some np) cur s0 d0 (owed None) s' -> unborn np s' -> Q s0 d0 tt c' s') ->
  obeys cur s0 d0 Q (for_ (seq k n) (fork_fd np) c s).
Proof.
  intros R U Hk HQ. revert k c s R U Hk. induction n as [|n IH]; intros k c s R U Hk; cbn [seq for_]; [now apply HQ|].
  apply obeys_bind. apply obeys_bind. cbn [obeys gets].
  destruct (ofile (pget cur s) !! k) as [[f|]|]; [|apply IH; [done|done|]; intros; apply Hk; lia..].
  apply obeys_bind. eapply obeys_filedup; [exact R|]. intros c1 s1 R1 _ P1.
  destruct (procs_ok_unborn _ _ _ P1 U) as [U1 F1]. pose proof U1 as [[q Eq] N1].
  assert (Eo : ofile q !! k = Some None) by (rewrite <- (pget_lookup _ _ _ Eq); fold (fds np s1); rewrite F1; apply Hk; lia).
  cbn [obeys pmod modify].
  set (s2 := pset np (fun q => set_ofile (<[k := Some f]> (ofile q)) q) s1).
  assert (L : ptable s2 !! np = Some (set_ofile (<[k := Some f]> (ofile q)) q)) by exact (pset_lookup _ _ _ _ Eq).
  apply IH.
  - eapply (running_fd cur s0 d0 (Some np) s1 s2 np q k None (Some f) Eq Eo eq_refl eq_refl); [exact R1|now right|].
    intros h. unfold owed. rewrite decide_False by done. destruct (decide _); lia.
  - split; [now exists (set_ofile (<[k := Some f]> (ofile q)) q)|]. intros (r & Er & Lr). rewrite L in Er. injection Er as <-.
    apply N1. exists q. split; [done|]. exact Lr.
  - intros j Hj. unfold fds. rewrite (pget_lookup _ _ _ L). cbn. rewrite list_lookup_insert_ne by lia.
    rewrite <- (pget_lookup _ _ _ Eq). fold (fds np s1). rewrite F1. apply Hk. lia.
Qed.

Lemma awake_idup i : awake (infss (Fs.idup i)).
Proof. unfold infss, inio. do 2 apply awake_zoom. unfold Fs.idup, imod. awake_steps. Qed.

(** A silent step with a slot that is being filled. *)
Lemma obeys_fill {A B} x np s0 d0 e (m : M ks A) (k : A -> M ks B) c s Q :
  silent m -> running x cur s0 d0 e s -> unborn np s ->
  (forall a c' s', harmless s s' -> running x cur s0 d0 e s' -> unborn np s' -> obeys cur s0 d0 Q (k a c' s')) ->
  obeys cur s0 d0 Q (bind m k c s).
Proof.
  intros Hm R U HQ. apply obeys_bind. eapply obeys_silent; [exact Hm|exact R|]. intros a c' s' Hh R'.
  apply HQ; [done|done|]. now apply (unborn_harmless _ s).
Qed.

(** What [fork] does after the descriptors are copied. *)
Lemma obeys_fork_end np s0 d0 c s :
  running (Some np) cur s0 d0 (owed None) s -> unborn np s ->
  obeys cur s0 d0 (fun s1 d1 _ _ s' => ready cur s1 d1 None s')
    ((let* d := gets (fun k => cwd (pget cur k)) in
      let* d := deref d in
      let* d := lift cur (FileIface.idup d) in
      pmod np (set_cwd (Some d)) ;;;
      let* n := gets (fun k => name (pget cur k)) in
      pmod np (fun q => set_name (name_copy (name q) n 16) q) ;;;
      let* id := gets (fun k => pid (pget np k)) in
      acquire LPtable ;;;
      let* c := gets (pget cur) in
      pmod np (set_handlers (handlers c)) ;;;
      pmod np (set_mask (mask c)) ;;;
      pmod np (set_pending 0) ;;;
      pmod np (set_state RUNNABLE) ;;;
      release LPtable ;;;
      ret id) c s).
Proof.
  intros R U. apply (obeys_fill _ _ _ _ _ _ _ _ _ _ (silent_gets _) R U). intros d c1 s1 _ R1 U1.
  assert (Sd : silent (deref (F := fio) d)) by (unfold deref; silent_steps).
  apply (obeys_fill _ _ _ _ _ _ _ _ _ _ Sd R1 U1). intros i c2 s2 _ R2 U2.
  apply obeys_bind. eapply obeys_lift_awake; [apply awake_idup|apply keepf_infss|exact R2|]. intros j c3 s3 H3 R3.
  pose proof (unborn_harmless _ _ _ H3 U2) as U3. clear - R3 U3. revert c3 s3 R3 U3.
  do 9 (intros c0 sa Ra Ua; eapply obeys_fill; [silent_steps|exact Ra|exact Ua|]; intros ? cb sb _ Rb Ub;
    clear c0 sa Ra Ua; revert cb sb Rb Ub).
  intros c0 sa Ra Ua. apply obeys_bind. cbn [obeys pmod modify]. pose proof (running_birth _ _ _ _ _ _ Ra Ua) as Rb.
  eapply quiet_settled; [|apply (running_ready _ _ _ _ _ Rb); apply owed_none]. quiet_steps.
Qed.

Lemma silent_fail_fork np : forall s0 d0 c s, ready cur s0 d0 None s -> unborn np s ->
  obeys cur s0 d0 (fun s1 d1 _ _ s' => ready cur s1 d1 None s')
    ((let* ks := gets (fun k => kstack (pget np k)) in
      inkm (kfree kend ks) ;;;
      pmod np (set_kstack 0) ;;;
      pmod np (set_state UNUSED) ;;;
      ret (-1)) c s).
Proof.
  intros s0 d0 c s [R _] U. apply (obeys_fill _ _ _ _ _ _ _ _ _ _ (silent_gets _) R U). intros k c1 s1 _ R1 U1.
  apply (obeys_fill _ _ _ _ _ _ _ _ _ _ (silent_inkm _ (awake_kfree kend k)) R1 U1). intros _ c2 s2 _ R2 U2.
  eapply obeys_fill; [silent_steps|exact R2|exact U2|]. intros _ c3 s3 _ R3 U3.
  apply (running_ready _ _ _ (owed None)); [|done]. apply (harmless_running _ _ _ _ _ s3); [|done].
  now apply (harmless_unborn _ _ UNUSED).
Qed.

Lemma settled_fork : settled cur (fork kend kdata trapret_addr forkret_addr cur).
Proof.
  intros s0 d0 c s [R O]. unfold fork. pose proof (wf_procs _ _ (rn_wf _ _ _ _ _ _ R)) as Hlen.
  apply (obeys_calm _ _ _ _ _ _ _ _ _ _ _ (calm_allocproc c s Hlen) R). intros [np|] c1 s1 _ R1 H1.
  2:{ now apply (running_ready _ _ _ (owed None)). }
  pose proof (H1 np eq_refl) as U1. clear H1 R O Hlen s c.
  apply (obeys_fill _ _ _ _ _ _ _ _ _ _ (silent_gets _) R1 U1). intros q c2 s2 _ R2 U2. clear c1 s1 R1 U1.
  apply (obeys_fill _ _ _ _ _ _ _ _ _ _ (silent_inkm _ (awake_copyuvm kend kdata _ _)) R2 U2).
  intros pd c3 s3 _ R3 U3. clear c2 s2 R2 U2.
  eapply obeys_fill; [silent_steps|exact R3|exact U3|]. intros _ c4 s4 _ R4 U4. clear c3 s3 R3 U3.
  destruct (pd =? 0); [apply silent_fail_fork; [now apply (running_ready _ _ _ (owed None))|exact U4]|].
  eapply obeys_fill; [silent_steps|exact R4|exact U4|]. intros _ c5 s5 _ R5 U5. clear c4 s4 R4 U4.
  eapply obeys_fill; [silent_steps|exact R5|exact U5|]. intros _ c6 s6 _ R6 U6. clear c5 s5 R5 U5.
  eapply obeys_fill; [silent_steps|exact R6|exact U6|]. intros t c7 s7 _ R7 U7. clear c6 s6 R6 U6.
  eapply obeys_fill; [apply silent_inkm, awake_modify|exact R7|exact U7|]. intros _ c8 s8 _ R8 U8. clear c7 s7 R7 U7.
  eapply obeys_fill; [silent_steps|exact R8|exact U8|]. intros _ c9 s9 _ R9 U9. clear c8 s8 R8 U8.
  apply obeys_bind. apply (obeys_fork_files_from np NOFILE 0 s0 d0 c9 s9).
  - now apply running_except.
  - exact U9.
  - intros j Hj. destruct U9 as [[y Ey] N]. pose proof (rn_wf _ _ _ _ _ _ R9) as W.
    unfold fds. rewrite (pget_lookup _ _ _ Ey). destruct (ofile y !! j) as [[g|]|] eqn:E; [|done|].
    + exfalso. refine (wf_dead _ _ W np y Ey ltac:(discriminate) _ j g E). destruct (live_state (state y)) eqn:L; [|done].
      destruct N. now exists y.
    + apply lookup_ge_None in E. rewrite (wf_fds _ _ W _ _ Ey) in E. lia.
  - intros c10 s10 R10 U10. now apply obeys_fork_end.
Qed.

(** * wait *)

(** Code of a zombie's slot. *)
Lemma obeys_wait_reap i s0 d0 c s :
  ready cur s0 d0 None s -> state (pget i s) = ZOMBIE ->
  obeys cur s0 d0 (fun s1 d1 _ _ s' => ready cur s1 d1 None s') (wait_reap kend i c s).
Proof.
  intros [R _] Hz.
  assert (U : unborn i s).
  { destruct (ptable s !! i) as [q|] eqn:E; [|unfold pget in Hz; now rewrite E in Hz]. split; [now exists q|].
    rewrite (pget_lookup _ _ _ E) in Hz. intros (r & Er & Lr). rewrite E in Er. injection Er as <-. now rewrite Hz in Lr. }
  unfold wait_reap. apply (obeys_fill _ _ _ _ _ _ _ _ _ _ (silent_gets _) R U). intros p c1 s1 _ R1 U1.
  apply (obeys_fill _ _ _ _ _ _ _ _ _ _ (silent_inkm _ (awake_kfree kend _)) R1 U1). intros _ c2 s2 _ R2 U2.
  eapply obeys_fill; [silent_steps|exact R2|exact U2|]. intros _ c3 s3 _ R3 U3.
  apply (obeys_fill _ _ _ _ _ _ _ _ _ _ (silent_inkm _ (awake_freevm kend _)) R3 U3).
  clear. intros _ c s _ R U. revert c s R U.
  do 4 (intros c0 sa Ra Ua; eapply obeys_fill; [silent_steps|exact Ra|exact Ua|]; intros ? cb sb _ Rb Ub;
    clear c0 sa Ra Ua; revert cb sb Rb Ub).
  intros c s R U. apply obeys_bind. cbn [obeys pmod modify].
  assert (H : harmless s (pset i (set_state UNUSED) s)) by now apply (harmless_unborn _ _ UNUSED).
  eapply quiet_settled; [|apply (running_ready _ _ _ (owed None)); [now apply (harmless_running _ _ _ _ _ s)|done]]. quiet_steps.
Qed.

Lemma settled_wait_scan l b : settled cur (wait_scan kend cur l b).
Proof.
  revert b. induction l as [|i l IH]; intros b; cbn [wait_scan].
  - apply quiet_settled. quiet_steps.
  - intros s0 d0 c s R. apply obeys_bind. cbn [obeys gets]. case_match; [now apply IH|].
    destruct (bool_decide (state (pget i s) = ZOMBIE)) eqn:E; [|now apply IH].
    apply bool_decide_eq_true in E. apply obeys_bind. eapply obeys_mono; [now apply obeys_wait_reap|].
    intros s1 d1 a c1 s2 R2. exact R2.
Qed.

Lemma settled_wait n : settled cur (wait kend n cur).
Proof.
  unfold wait. apply settled_bind; [apply quiet_settled; quiet_steps|]. intros _.
  induction n as [|n IH]; cbn [wait_from]; [apply quiet_settled, quiet_fuel|].
  apply settled_bind; [apply settled_wait_scan|]. intros [v|]; [apply quiet_settled, quiet_ret|].
  apply settled_bind; [apply quiet_settled, quiet_sleep|]. now intros _.
Qed.

(** * Signals *)

Section Signals.
Variables call_sigret_syscall end_sigret_syscall : Z.

Lemma silent_kmemmove d s n : silent (kmemmove kdata d s n).
Proof. unfold kmemmove. silent_steps. Qed.
Lemma silent_ustore va w : silent (ustore kdata va w).
Proof. unfold ustore. silent_steps. Qed.
Lemma silent_isBlocked me i : silent (isBlocked me i).
Proof. unfold isBlocked. silent_steps. Qed.
Lemma silent_cancelSignal p i : silent (cancelSignal p i).
Proof. unfold cancelSignal. silent_steps. Qed.
Hint Resolve silent_kmemmove silent_ustore silent_isBlocked silent_cancelSignal : silent.
Lemma silent_deliver p i : silent (deliver kdata call_sigret_syscall end_sigret_syscall p i).
Proof. unfold deliver. silent_steps. Qed.
Lemma silent_handle_SIGCONT p : silent (handle_SIGCONT p).
Proof. unfold handle_SIGCONT. silent_steps. Qed.
Hint Resolve silent_deliver silent_handle_SIGCONT : silent.

Lemma quiet_handle_SIGKILL : quiet cur (handle_SIGKILL cur).
Proof. unfold handle_SIGKILL. quiet_steps. now apply (quiet_live _ RUNNABLE). Qed.
Lemma quiet_handle_SIGSTOP n : quiet cur (handle_SIGSTOP n cur).
Proof. induction n as [|n IH]; cbn [handle_SIGSTOP]; quiet_steps. Qed.
Hint Resolve quiet_handle_SIGKILL quiet_handle_SIGSTOP : quiet.
Lemma quiet_check_one n i : quiet cur (check_one kdata call_sigret_syscall end_sigret_syscall n cur i).
Proof. unfold check_one, default_handling, custom_handling. quiet_steps. Qed.
Hint Resolve quiet_check_one : quiet.
Lemma quiet_check_kernel_sigs n : quiet cur (check_kernel_sigs kdata call_sigret_syscall end_sigret_syscall n (Some cur)).
Proof. unfold check_kernel_sigs. quiet_steps. Qed.
End Signals.

(** * System calls and traps *)

Hint Resolve silent_argint silent_argptr silent_argstr silent_kmemmove silent_isBlocked silent_cancelSignal : silent.

Lemma silent_kill id signum : silent (kill id signum).
Proof. unfold kill. silent_steps. Qed.
Hint Resolve silent_kill : silent.
Lemma quiet_growproc n : quiet cur (growproc kend ts_addr cur n).
Proof. unfold growproc, p_switchuvm. quiet_steps. Qed.
Hint Resolve quiet_growproc : quiet.
Lemma quiet_sys_sleep_from n t0 k : quiet cur (sys_sleep_from n cur t0 k).
Proof. induction n as [|n IH]; cbn [sys_sleep_from]; quiet_steps. Qed.
Hint Resolve quiet_sys_sleep_from : quiet.

Lemma quiet_sys_kill : quiet cur (sys_kill kdata cur).
Proof. unfold sys_kill. quiet_steps. Qed.
Lemma quiet_sys_sbrk : quiet cur (sys_sbrk kdata kend ts_addr cur).
Proof. unfold sys_sbrk. quiet_steps. Qed.
Lemma quiet_sys_sleep n : quiet cur (sys_sleep kdata n cur).
Proof. unfold sys_sleep. quiet_steps. Qed.
Lemma quiet_sys_uptime : quiet cur sys_uptime.
Proof. unfold sys_uptime. quiet_steps. Qed.
Lemma quiet_sys_sigprocmask : quiet cur (sys_sigprocmask kdata cur).
Proof. unfold sys_sigprocmask, sigprocmask. quiet_steps. Qed.
Lemma quiet_sys_signal : quiet cur (sys_signal kdata cur).
Proof. unfold sys_signal, signal. quiet_steps. Qed.
Lemma quiet_sys_sigret : quiet cur (sys_sigret kdata cur).
Proof. unfold sys_sigret, sigret. quiet_steps. Qed.

Section Traps.
(** The calls of sysfile.c, and code that leaves the kernel's tables alone. *)
Variables ideintr kbdintr uartintr lapiceoi : M ks unit.
Variable cprintf : (Z -> list Z) -> list Z -> list Z -> M ks unit.
Hypothesis Hide : silent ideintr.
Hypothesis Hkbd : silent kbdintr.
Hypothesis Huart : silent uartintr.
Hypothesis Heoi : silent lapiceoi.
Hypothesis Hprint : forall str fmt args, silent (cprintf str fmt args).
Hint Resolve Hide Hkbd Huart Heoi Hprint : silent.
Variable steps : nat.

Lemma settled_sys_call n :
  settled cur (sys_call kdata kend trapret_addr forkret_addr ts_addr (sys_file kdata kend ts_addr) steps n cur).
Proof.
  destruct n; cbn [sys_call]; first
    [ apply settled_sys_file | apply settled_fork | apply settled_wait
    | apply settled_bind; [apply settled_exit|intros; apply quiet_settled, quiet_ret]
    | apply quiet_settled; first [apply quiet_sys_kill | apply quiet_gets | apply quiet_sys_sbrk | apply quiet_sys_sleep
        | apply quiet_sys_uptime | apply quiet_sys_sigprocmask | apply quiet_sys_signal | apply quiet_sys_sigret] ].
Qed.

Lemma settled_syscall :
  settled cur (syscall kdata kend trapret_addr forkret_addr ts_addr (sys_file kdata kend ts_addr) cprintf steps cur).
Proof.
  unfold syscall. do 2 (apply settled_bind; [apply quiet_settled; quiet_steps|intros]).
  match goal with |- settled _ (match ?x with _ => _ end) => destruct x end.
  2:{ apply quiet_settled, silent_quiet. silent_steps. }
  apply settled_bind; [apply settled_sys_call|]. intros r. apply quiet_settled. quiet_steps.
Qed.

Lemma settled_when_exit b : settled cur (when b (exit cur)).
Proof. destruct b; [apply settled_exit|apply quiet_settled, quiet_ret]. Qed.

Lemma settled_exit_if_killed tfa : settled cur (exit_if_killed (Some cur) tfa).
Proof.
  unfold exit_if_killed. do 2 (apply settled_bind; [apply quiet_settled; quiet_steps|intros]). apply settled_when_exit.
Qed.

Lemma silent_trap_switch me cpuid cr2 tfa trapno :
  silent (trap_switch ideintr kbdintr uartintr lapiceoi cprintf me cpuid cr2 tfa trapno).
Proof. unfold trap_switch. silent_steps. Qed.

Lemma settled_trap cpuid cr2 tfa :
  settled cur (trap kdata kend trapret_addr forkret_addr ts_addr (sys_file kdata kend ts_addr)
    ideintr kbdintr uartintr lapiceoi cprintf steps (Some cur) cpuid cr2 tfa).
Proof.
  unfold trap. apply settled_bind; [apply quiet_settled; quiet_steps|]. intros trapno. destruct (trapno =? T_SYSCALL).
  - apply settled_bind; [apply quiet_settled; quiet_steps|intros kl]. apply settled_bind; [apply settled_when_exit|intros _].
    apply settled_bind; [apply quiet_settled; quiet_steps|intros _]. apply settled_bind; [apply settled_syscall|intros _].
    apply settled_bind; [apply quiet_settled; quiet_steps|intros kl']. apply settled_when_exit.
  - apply settled_bind; [apply quiet_settled, silent_quiet, silent_trap_switch|intros _].
    apply settled_bind; [apply settled_exit_if_killed|intros _].
    apply settled_bind; [apply quiet_settled; quiet_steps|intros _]. apply settled_exit_if_killed.
Qed.

(** An interrupt on a CPU without a process. *)
Lemma silent_trap_idle cpuid cr2 tfa :
  silent (trap kdata kend trapret_addr forkret_addr ts_addr (sys_file kdata kend ts_addr)
    ideintr kbdintr uartintr lapiceoi cprintf steps None cpuid cr2 tfa).
Proof.
  unfold trap. apply silent_bind; [silent_steps|]. intros trapno. destruct (trapno =? T_SYSCALL); [apply silent_panic|].
  apply silent_bind; [apply silent_trap_switch|intros _]. unfold exit_if_killed. silent_steps.
Qed.

Lemma settled_alltraps call_sigret end_sigret cpuid cr2 tfa :
  settled cur (alltraps kdata kend trapret_addr forkret_addr ts_addr (sys_file kdata kend ts_addr)
    ideintr kbdintr uartintr lapiceoi cprintf steps call_sigret end_sigret (Some cur) cpuid cr2 tfa).
Proof.
  unfold alltraps. apply settled_bind; [apply settled_trap|]. intros _. apply quiet_settled, quiet_check_kernel_sigs.
Qed.

(** A new process starts in [forkret] and returns through [trapret]. *)
Lemma settled_forkret call_sigret end_sigret :
  settled cur (forkret cur ;;; check_kernel_sigs kdata call_sigret end_sigret steps (Some cur)).
Proof.
  apply settled_bind; [|intros _; apply quiet_settled, quiet_check_kernel_sigs].
  apply quiet_settled. unfold forkret. quiet_steps.
Qed.
End Traps.
End Procs.
