(* ===== verification/Kernel.v ===== *)
(** The kernel put together: the interrupt handlers over the whole state, and a
    machine that runs every process, in user mode, through its traps, and while it
    waits in the kernel.  The machine has one CPU and takes interrupts in user
    mode and when idle only: a stretch of kernel code between two sleeps is one
    step.  (FdThreads.v, Sched.v, BioThreads.v and IdeProps.v have the finer
    interleavings.)  The theorem is about the accounting of open files in every
    state that this machine reaches, through every system call. *)
From S2P Require Import Prelude Monad Mem Mmu Cstring Kalloc Vm Hw FileIface Proc Signal Sysproc Spinlock.
From S2P Require Import Trap Ring Pipe Sleeplock Disk Bio Log Fs FsData Digits Kbd Console File.
From S2P Require Import Refs Kfile Exec Sysfile RefsFile RefsProc.

Import Monad Proc.

(** * Interrupts *)

(** Console and disk code run outside of any process: it does not sleep, so that
    the index of the process, which is not one of the table, does not matter. *)
Definition incon {A} (m : M console A) : M ks A := lift NPROC (inio (zoom io_con set_con m)).
Definition kcprintf (str : Z -> list Z) (fmt args : list Z) : M ks unit := incon (Console.cprintf str (Some fmt) args).

(** Offset of [ebp] in struct context. *)
Definition CONTEXT_EBP : Z := 12.

(** [procdump] as it prints; the two strings of a line are its state and name. *)
Definition procdump_line (i : nat) : M ks unit :=
  let* p := gets (pget i) in
  if bool_decide (state p = UNUSED) then ret tt
  else
    kcprintf (fun a => if a =? 1 then bytes (state_name (state p)) else cut0 (name p))
      (bytes "%d %s %s") [pid p; 1; 2] ;;;
    when (bool_decide (state p = SLEEPING)) (
      let* ebp := kload (context p + CONTEXT_EBP) in
      let* k := get in
      for_ (cut0 (getcallerpcs (ld32 (kmemof k)) (u32 (ebp + 8))))
        (fun pc => kcprintf no_str (bytes " %p") [pc])) ;;;
    kcprintf no_str [10] [].
Definition procdump_print : M ks unit := for_ (seq 0 NPROC) procdump_line.

Definition kbdintr : M ks unit := let* d := incon Console.kbdintr in when d procdump_print.
Definition uartintr : M ks unit := let* d := incon Console.uartintr in when d procdump_print.
Definition ideintr : M ks unit := lift NPROC (infss (inlog (inbio Disk.ideintr))).

(** ** They leave processes and files alone *)

Lemma awake_consputc c : awake (consputc c).
Proof. unfold consputc, uartputc, cgaputc. awake_steps. Qed.
#[export] Hint Resolve awake_consputc : awake.

Lemma awake_printint xx base sign : awake (printint xx base sign).
Proof. unfold printint. awake_steps. Qed.
#[export] Hint Resolve awake_printint : awake.

Lemma awake_cprintf_from str fmt args : awake (cprintf_from str fmt args).
Proof.
  remember (length fmt) as n eqn:E. assert (H : (length fmt <= n)%nat) by lia. clear E. revert fmt args H.
  induction n as [|n IH]; intros [|c fmt] args H; cbn [cprintf_from length] in *; try lia; [apply awake_ret..|].
  destruct (negb (c =? 37)); [awake_steps; apply IH; lia|]. destruct fmt as [|d fmt]; [apply awake_ret|]. cbn [length] in H.
  awake_steps; apply IH; lia.
Qed.
#[export] Hint Resolve awake_cprintf_from : awake.
Lemma awake_cprintf str fmt args : awake (Console.cprintf str fmt args).
Proof. unfold Console.cprintf. awake_steps. Qed.

Lemma awake_kill_line n : awake (kill_line n).
Proof. induction n as [|n IH]; cbn [kill_line]; unfold inmod; awake_steps. Qed.
#[export] Hint Resolve awake_kill_line : awake.
Lemma awake_console_key c : awake (console_key c).
Proof. unfold console_key, inmod. awake_steps. Qed.
#[export] Hint Resolve awake_console_key : awake.
Lemma awake_consoleintr n getc : awake getc -> awake (consoleintr n getc).
Proof.
  intros Hg. unfold consoleintr. apply awake_bind; [apply awake_acquire|intros _].
  apply awake_bind; [|intros d; awake_steps]. generalize false.
  induction n as [|n IH]; intros b; cbn [consoleintr_from]; awake_steps; auto.
Qed.

Lemma silent_lift {A} (m : M (kmem * fio) A) : awake m -> keepf m -> silent (lift NPROC m).
Proof.
  intros Ha Hk c s. unfold lift. specialize (Ha c (fs_get s)). specialize (Hk c (fs_get s)).
  destruct (m c (fs_get s)); simpl in *; try done. now apply harmless_put.
Qed.
Lemma silent_incon {A} (m : M console A) : awake m -> silent (incon m).
Proof. intros H. apply silent_lift; [|apply keepf_incon]. unfold inio. now do 2 apply awake_zoom. Qed.
Lemma silent_kcprintf str fmt args : silent (kcprintf str fmt args).
Proof. apply silent_incon, awake_cprintf. Qed.
#[export] Hint Resolve silent_kcprintf : silent.

Lemma silent_procdump_print : silent procdump_print.
Proof.
  unfold procdump_print. apply silent_for. intros i. unfold procdump_line. silent_steps.
Qed.
#[export] Hint Resolve silent_procdump_print : silent.
Lemma silent_kbdintr : silent kbdintr.
Proof.
  unfold kbdintr. apply silent_bind; [|intros d; silent_steps]. apply silent_incon. unfold Console.kbdintr.
  apply awake_bind; [apply awake_gets|intros k]. apply awake_consoleintr, awake_zoom. unfold kbdgetc.
  apply awake_bind; [done|]. intros x. destruct (k_data x); [apply awake_ret|]. destruct (kbd_key _ _). now intros c s.
Qed.
Lemma silent_uartintr : silent uartintr.
Proof.
  unfold uartintr. apply silent_bind; [|intros d; silent_steps]. apply silent_incon. unfold Console.uartintr.
  apply awake_bind; [apply awake_gets|intros u]. apply awake_consoleintr. unfold uartgetc. awake_steps.
Qed.
Lemma silent_ideintr : silent ideintr.
Proof. apply silent_lift; [|apply keepf_infss]. now intros c s. Qed.

(** * The machine *)

(** A process is in user mode, or in the kernel where it gave up the CPU. *)
Inductive thread : Type :=
| User
| Waiting (resume : ks -> outcome ks unit).

Record machine : Type := Machine { mc_st : ks; mc_threads : gmap nat thread }.

Definition is_alive (p : nat) (k : ks) : bool :=
  match ptable k !! p with Some q => live_state (state q) | None => false end.

(** What a stretch of code leaves, when the machine does not stop in it. *)
Definition left_by (o : outcome ks unit) : option (ks * thread) :=
  match o with
  | Ret _ _ s => Some (s, User)
  | Sleep _ _ s k => Some (s, Waiting k)
  | Panic _ | OutOfFuel => None
  end.

Section Machine.
Context {fuel : Fuel}.
(** Linker symbols. *)
Variables kdata kend trapret_addr forkret_addr ts_addr call_sigret_syscall end_sigret_syscall : Z.
#[local] Instance mops : FileOps fio := fio_ops kend.
(** The end-of-interrupt of the local APIC: a write to a device register, which
    the kernel's tables do not contain. *)
Variable lapiceoi : M ks unit.

Definition kalltraps (me : option nat) (cpuid cr2 tfa : Z) : M ks unit :=
  alltraps kdata kend trapret_addr forkret_addr ts_addr (sys_file kdata kend ts_addr)
    ideintr kbdintr uartintr lapiceoi kcprintf wakeups call_sigret_syscall end_sigret_syscall me cpuid cr2 tfa.

(** A new process: [forkret] returns to [trapret].  The scheduler switched to it
    with [ptable.lock] held. *)
Definition child (p : nat) : thread :=
  Waiting (fun s => (forkret p ;;; check_kernel_sigs kdata call_sigret_syscall end_sigret_syscall wakeups (Some p))
                      (Ctx [LPtable] []) s).

(** The processes that a stretch from [s] to [s'] started. *)
Definition spawn (s s' : ks) (t : gmap nat thread) : gmap nat thread :=
  foldr (fun p t => if is_alive p s then t else if is_alive p s' then <[p := child p]> t else t) t (seq 0 NPROC).

(** Running user code changes memory; the CPU that a process runs on has registers
    of its own. *)
Definition elsewhere (m : mem) (h : hw) (s : ks) : ks := set_hw h (set_km (set_mem (fun _ => m) (ks_km s)) s).

(** One stretch of kernel code, run without interruption: a trap from user mode,
    a process that the scheduler continues, or an interrupt while no process runs
    on the CPU.  The interrupts that the kernel takes inside of a system call, and
    a second CPU, are not part of this machine. *)
Inductive mstep : machine -> machine -> Prop :=
| step_trap p s t m h cpuid cr2 tfa s' th :
    t !! p = Some User -> state (pget p s) = RUNNING ->
    left_by (kalltraps (Some p) cpuid cr2 tfa (Ctx [] []) (elsewhere m h s)) = Some (s', th) ->
    mstep (Machine s t) (Machine s' (<[p := th]> (spawn s s' t)))
| step_run p s t m h k s' th :
    t !! p = Some (Waiting k) -> state (pget p s) = RUNNABLE ->
    left_by (k (pset p (set_state RUNNING) (elsewhere m h s))) = Some (s', th) ->
    mstep (Machine s t) (Machine s' (<[p := th]> (spawn s s' t)))
| step_idle s t m h cpuid cr2 tfa c s' :
    kalltraps None cpuid cr2 tfa (Ctx [] []) (elsewhere m h s) = Ret tt c s' ->
    mstep (Machine s t) (Machine s' t).

(** The start: the tables in order, as many references to each file as
    descriptors, and every process still to run for the first time. *)
Record initial (m : machine) : Prop := {
  in_wf : wf None (mc_st m);
  in_refs : forall f, fref f (mc_st m) = total f (ptable (mc_st m));
  in_threads : forall p, alive p (mc_st m) -> mc_threads m !! p = Some (child p)
}.

(** ** The invariant *)

(** All that the processes from slot [i] on owe to file [f]. *)
Fixpoint debts (f : nat) (debt : nat -> option nat) (i : nat) (t : list proc) : Z :=
  match t with
  | [] => 0
  | _ :: t' => owed (debt i) f + debts f debt (S i) t'
  end.

(** The continuation [k] of process [p], which owes [d]. *)
Definition good (p : nat) (d : option nat) (s : ks) (k : ks -> outcome ks unit) : Prop :=
  forall s', regain p d s s' -> obeys p s' d (fun s1 d1 _ _ s2 => ready p s1 d1 None s2) (k s').

Definition thread_ok (p : nat) (d : option nat) (s : ks) (th : thread) : Prop :=
  match th with User => d = None | Waiting k => good p d s k end.

Record accounted (debt : nat -> option nat) (m : machine) : Prop := {
  ac_wf : wf None (mc_st m);
  ac_total : forall f, total f (ptable (mc_st m)) = fref f (mc_st m) + debts f debt 0 (ptable (mc_st m));
  ac_own : forall p f, owed (debt p) f <= uses f (fds p (mc_st m));
  ac_threads : forall p, alive p (mc_st m) -> exists th, mc_threads m !! p = Some th /\ thread_ok p (debt p) (mc_st m) th
}.

Lemma owed_nonneg d f : 0 <= owed d f.
Proof. unfold owed. destruct (decide _); lia. Qed.

Lemma owed_zero d : (forall f, owed d f <= 0) -> d = None.
Proof. intros H. destruct d as [f|]; [|done]. specialize (H f). unfold owed in H. rewrite decide_True in H by done. lia. Qed.

Lemma alive_spec p k : is_alive p k = true <-> alive p k.
Proof.
  unfold is_alive, alive. split.
  - destruct (ptable k !! p) as [q|] eqn:E; [|done]. intros L. now exists q.
  - intros (q & -> & L). exact L.
Qed.

(** The share of one process. *)
Lemma debts_share f debt t i :
  (forall j q, t !! j = Some q -> owed (debt (i + j)%nat) f <= uses f (ofile q)) ->
  0 <= total f t - debts f debt i t /\
  forall j q, t !! j = Some q -> uses f (ofile q) - owed (debt (i + j)%nat) f <= total f t - debts f debt i t.
Proof.
  revert i. induction t as [|q t IH]; intros i H; cbn [total debts]; [split; [lia|done]|].
  destruct (IH (S i)) as [H0 H1].
  { intros j r E. rewrite Nat.add_succ_comm. exact (H (S j) r E). }
  pose proof (H 0%nat q eq_refl) as Hq. rewrite Nat.add_0_r in Hq. split; [lia|].
  intros [|j] r E; [injection E as ->; rewrite Nat.add_0_r; lia|]. rewrite <- Nat.add_succ_comm. specialize (H1 j r E). lia.
Qed.

Lemma debts_insert f debt d p t i : (i <= p < i + length t)%nat ->
  debts f (fun q => if decide (q = p) then d else debt q) i t = debts f debt i t - owed (debt p) f + owed d f.
Proof.
  revert i. induction t as [|q t IH]; intros i Hp; cbn [debts length] in *; [lia|].
  destruct (decide (i = p)) as [->|Hne].
  - assert (E : forall t i, (p < i)%nat -> debts f (fun q => if decide (q = p) then d else debt q) i t = debts f debt i t).
    { clear. induction t as [|q t IH]; intros i Hi; cbn [debts]; [done|]. rewrite decide_False by lia. rewrite IH; lia. }
    rewrite E by lia. lia.
  - rewrite IH by lia. lia.
Qed.

Lemma debts_length f debt i t t' : length t = length t' -> debts f debt i t = debts f debt i t'.
Proof.
  revert i t'. induction t as [|q t IH]; intros i [|q' t'] E; try done. cbn [debts length] in *. f_equal. apply IH. lia.
Qed.

Lemma spawn_lookup s s' t q :
  spawn s s' t !! q =
  if bool_decide (q < NPROC)%nat && negb (is_alive q s) && is_alive q s' then Some (child q) else t !! q.
Proof.
  unfold spawn.
  assert (G : forall l, foldr (fun p t => if is_alive p s then t else if is_alive p s' then <[p := child p]> t else t) t l !! q =
    if bool_decide (q ∈ l) && negb (is_alive q s) && is_alive q s' then Some (child q) else t !! q).
  { induction l as [|p l IH]; cbn [foldr]; [done|].
    destruct (decide (p = q)) as [->|Hne].
    - rewrite (bool_decide_true (q ∈ q :: l)) by left. cbn [andb].
      destruct (is_alive q s) eqn:A; [rewrite IH; now rewrite andb_false_r|]. cbn [negb].
      destruct (is_alive q s') eqn:A'; [now rewrite lookup_insert_eq|]. rewrite IH. now rewrite andb_false_r.
    - rewrite (bool_decide_ext (q ∈ p :: l) (q ∈ l)) by (rewrite elem_of_cons; split; [intros [->|]|]; tauto).
      rewrite <- IH. destruct (is_alive p s); [done|]. destruct (is_alive p s'); [|done]. now rewrite lookup_insert_ne. }
  rewrite G, (bool_decide_ext (q ∈ seq 0 NPROC) (q < NPROC)%nat); [done|]. rewrite elem_of_seq. lia.
Qed.

Lemma no_fds i g : ofile proc0 !! i <> Some (Some g).
Proof. intros E. unfold proc0 in E. cbn [ofile] in E. apply lookup_replicate_1 in E as [E _]. discriminate E. Qed.

(** A slot without a running process has no descriptors. *)
Lemma dead_fds s q : wf None s -> is_alive q s = false -> forall i g, fds q s !! i <> Some (Some g).
Proof.
  intros W A i g. unfold fds, pget. destruct (ptable s !! q) as [r|] eqn:Er; [|apply no_fds].
  apply (wf_dead _ _ W q r Er); [done|]. unfold is_alive in A. now rewrite Er in A.
Qed.

Lemma wf_range x p s : wf x s -> alive p s -> (p < NPROC)%nat.
Proof. intros W (q & E & _). rewrite <- (wf_procs _ _ W). now apply lookup_lt_Some in E. Qed.

(** What a process finds when it continues. *)
Lemma accounted_regain debt s t p s1 :
  accounted debt (Machine s t) -> alive p s -> harmless s s1 -> regain p (debt p) s s1.
Proof.
  intros [W T O _] A H. cbn [mc_st] in *. split.
  - now apply (harmless_wf s).
  - now apply (harmless_alive _ _ H).
  - now apply harmless_fds.
  - intros f. rewrite (harmless_fds _ _ H), (proj1 (harmless_file _ _ H f)). destruct A as (q & E & _).
    destruct (debts_share f debt (ptable s) 0) as [_ G].
    { intros j r Er. specialize (O j f). unfold fds in O. now rewrite (pget_lookup _ _ _ Er) in O. }
    specialize (G p q E). specialize (T f). unfold fds. rewrite (pget_lookup _ _ _ E). cbn [Nat.add] in G. lia.
Qed.

(** What a stretch leaves for the next one. *)
Lemma left_by_ok p s1 d0 o s2 th :
  obeys p s1 d0 (fun s1 d1 _ _ s2 => ready p s1 d1 None s2) o -> left_by o = Some (s2, th) ->
  exists d, handover p s1 d0 s2 d /\ thread_ok p d s2 th.
Proof.
  intros Ho E. destruct o as [a c s|msg|ch w s k|]; cbn in E; [|done| |done]; injection E as <- <-.
  - exists None. split; [now apply ready_handover|done].
  - cbn in Ho. destruct Ho as (d & Hd & Hk). now exists d.
Qed.

Lemma good_fds p d s s' k : fds p s' = fds p s -> good p d s k -> good p d s' k.
Proof. intros E G s2 [W A F S]. apply G. split; [done|done|congruence|done]. Qed.

Lemma child_ok p s : exists k, child p = Waiting k /\ good p None s k.
Proof.
  eexists. split; [reflexivity|]. intros s' [W A F S]. apply settled_forkret.
  split; [|intros f; apply uses_nonneg]. split; [done|lia|done|done|exact S].
Qed.

(** The threads of the other processes, and of those that were started. *)
Lemma threads_step debt s t p s1 s2 th d :
  accounted debt (Machine s t) -> harmless s s1 -> guar p s1 s2 -> wf None s2 -> thread_ok p d s2 th ->
  forall q, alive q s2 -> exists th', <[p := th]> (spawn s s2 t) !! q = Some th' /\
    thread_ok q (if decide (q = p) then d else debt q) s2 th'.
Proof.
  intros [W T O Th] H G W2 Hth q A2. cbn [mc_st mc_threads] in *. destruct (decide (q = p)) as [->|Hne].
  { exists th. now rewrite lookup_insert_eq. }
  rewrite lookup_insert_ne, spawn_lookup by congruence. destruct (is_alive q s) eqn:A.
  - rewrite andb_false_r. apply alive_spec in A. destruct (Th q A) as (th' & E & Hok). exists th'. split; [exact E|].
    destruct (G q Hne (proj1 (harmless_alive _ _ H q) A)) as [_ F2]. rewrite (harmless_fds _ _ H) in F2.
    destruct th' as [|k]; [exact Hok|]. now apply (good_fds _ _ s).
  - rewrite bool_decide_true by now apply (wf_range None q s2). rewrite (proj2 (alive_spec q s2) A2). cbn [andb negb].
    exists (child q). split; [done|]. destruct (child_ok q s2) as (k & Ek & Hk). rewrite Ek. cbn [thread_ok].
    replace (debt q) with (@None nat); [exact Hk|]. symmetry. apply owed_zero. intros f. specialize (O q f).
    rewrite (uses_none f (fds q s)) in O; [exact O|]. now apply dead_fds.
Qed.

Lemma accounted_step debt s t p s1 o s2 th :
  accounted debt (Machine s t) -> alive p s -> harmless s s1 ->
  obeys p s1 (debt p) (fun s1 d1 _ _ s2 => ready p s1 d1 None s2) o -> left_by o = Some (s2, th) ->
  exists debt', accounted debt' (Machine s2 (<[p := th]> (spawn s s2 t))).
Proof.
  intros Acc A H Ho E. destruct (left_by_ok _ _ _ _ _ _ Ho E) as (d & [W2 B G Own] & Hth).
  exists (fun q => if decide (q = p) then d else debt q). pose proof Acc as [W T O Th]. cbn [mc_st mc_threads] in *.
  split; cbn [mc_st mc_threads].
  - exact W2.
  - intros f. rewrite debts_insert by (rewrite (wf_procs _ _ W2); pose proof (wf_range None p s W A); lia).
    rewrite (debts_length f debt 0 (ptable s2) (ptable s)) by now rewrite (wf_procs _ _ W2), (wf_procs _ _ W).
    specialize (B f). specialize (T f). rewrite (harmless_bal _ _ H) in B. unfold bal in B. lia.
  - intros q f. destruct (decide (q = p)) as [->|Hne]; [apply Own|]. destruct (is_alive q s) eqn:Aq.
    + apply alive_spec in Aq. destruct (G q Hne (proj1 (harmless_alive _ _ H q) Aq)) as [_ ->].
      rewrite (harmless_fds _ _ H). apply O.
    + specialize (O q f). transitivity (uses f (fds q s)); [exact O|]. rewrite (uses_none f (fds q s)); [apply uses_nonneg|].
      now apply dead_fds.
  - now apply (threads_step debt s t p s1).
Qed.

Hypothesis lapiceoi_silent : silent lapiceoi.

Lemma harmless_elsewhere m h s : harmless s (elsewhere m h s).
Proof. now apply harmless_same. Qed.

Lemma state_alive p s v : state (pget p s) = v -> live_state v = true -> alive p s.
Proof.
  intros E L. unfold pget in E. destruct (ptable s !! p) as [q|] eqn:Eq; cbn in E; [|now subst v].
  exists q. split; [done|]. now rewrite E.
Qed.

Lemma accounted_mstep debt m m' : accounted debt m -> mstep m m' -> exists debt', accounted debt' m'.
Proof.
  intros Acc Hs. destruct Hs as [p s t mm h cpuid cr2 tfa s' th Ht Hst E|p s t mm h k s' th Ht Hst E|s t mm h cpuid cr2 tfa c s' E].
  - pose proof (state_alive p s RUNNING Hst eq_refl) as A. destruct (ac_threads _ _ Acc p A) as (th0 & Et & Hok).
    cbn [mc_threads] in Et. rewrite Ht in Et. injection Et as <-. cbn in Hok.
    pose proof (harmless_elsewhere mm h s) as H. pose proof (accounted_regain _ _ _ _ _ Acc A H) as Rg.
    eapply accounted_step; [exact Acc|exact A|exact H| |exact E]. rewrite Hok in *.
    apply settled_alltraps; [apply silent_ideintr|apply silent_kbdintr|apply silent_uartintr|done|apply silent_kcprintf|].
    destruct Rg as [W' A' F' S']. split; [|intros f; apply uses_nonneg]. split; [done|lia|done|done|exact S'].
  - pose proof (state_alive p s RUNNABLE Hst eq_refl) as A. destruct (ac_threads _ _ Acc p A) as (th0 & Et & Hok).
    cbn [mc_threads] in Et. rewrite Ht in Et. injection Et as <-. cbn in Hok. pose proof (harmless_elsewhere mm h s) as H0.
    assert (H1 : harmless s (pset p (set_state RUNNING) (elsewhere mm h s))).
    { apply (harmless_trans _ _ _ H0), (harmless_state _ RUNNING); [now apply (harmless_alive _ _ H0)|done|done]. }
    eapply accounted_step; [exact Acc|exact A|exact H1| |exact E]. apply Hok. now apply (accounted_regain _ _ t).
  - pose proof (harmless_elsewhere mm h s) as H0.
    assert (H : harmless s s').
    { apply (harmless_trans _ _ _ H0).
      assert (Si : silent (kalltraps None cpuid cr2 tfa)).
      { unfold kalltraps, alltraps. apply silent_bind; [|intros _; apply silent_ret]. apply silent_trap_idle;
          [apply silent_ideintr|apply silent_kbdintr|apply silent_uartintr|done|apply silent_kcprintf]. }
      specialize (Si (Ctx [] []) (elsewhere mm h s)). rewrite E in Si. exact Si. }
    exists debt. destruct Acc as [W T O Th]. cbn [mc_st mc_threads] in *. split; cbn [mc_st mc_threads].
    + now apply (harmless_wf s).
    + intros f. rewrite (debts_length f debt 0 (ptable s') (ptable s)).
      * specialize (T f). pose proof (harmless_bal _ _ H f) as B. unfold bal in B. lia.
      * now rewrite (wf_procs _ _ (harmless_wf _ _ H None W)), (wf_procs _ _ W).
    + intros p f. rewrite (harmless_fds _ _ H). apply O.
    + intros p A. apply (harmless_alive _ _ H) in A. destruct (Th p A) as (th & Et & Hok). exists th. split; [done|].
      destruct th as [|k]; [done|]. apply (good_fds _ _ s); [now apply harmless_fds|done].
Qed.

Lemma debts_none f debt i t : (forall p, debt p = None) -> debts f debt i t = 0.
Proof. intros H. revert i. induction t as [|q t IH]; intros i; cbn; [done|]. now rewrite H, IH. Qed.

Lemma accounted_initial m : initial m -> accounted (fun _ => None) m.
Proof.
  intros [W R Th]. split; [done| | |].
  - intros f. rewrite R, debts_none; [lia|done].
  - intros p f. apply uses_nonneg.
  - intros p A. exists (child p). split; [now apply Th|]. destruct (child_ok p (mc_st m)) as (k & -> & Hk). exact Hk.
Qed.

Lemma accounted_reachable m0 m : initial m0 -> rtc mstep m0 m -> exists debt, accounted debt m.
Proof.
  intros I. intros Hr. assert (G : exists debt, accounted debt m0) by (exists (fun _ => None); now apply accounted_initial).
  clear I. induction Hr as [|x y z Hxy _ IH]; [done|]. apply IH. destruct G as [debt G]. now apply (accounted_mstep debt x).
Qed.

(** A process without a thread in the kernel owes nothing. *)
Lemma debt_none debt s t p : accounted debt (Machine s t) -> (alive p s -> t !! p = Some User) -> debt p = None.
Proof.
  intros [W T O Th] Hp. cbn [mc_st mc_threads] in *. destruct (is_alive p s) eqn:A.
  - apply alive_spec in A. destruct (Th p A) as (th & Et & Hok). rewrite (Hp A) in Et. injection Et as <-. exact Hok.
  - apply owed_zero. intros f. specialize (O p f). rewrite (uses_none f (fds p s)) in O; [exact O|]. now apply dead_fds.
Qed.

Lemma debts_nonneg f debt i t : 0 <= debts f debt i t.
Proof. revert i. induction t as [|q t IH]; intros i; cbn; [lia|]. specialize (IH (S i)). pose proof (owed_nonneg (debt i) f). lia. Qed.

(** In every state that this machine reaches (system calls run to their next
    sleep without interruption) the tables of processes, of
    descriptors and of open files have their sizes, and a slot without a running
    process has no descriptor; every descriptor of a process in user mode names an
    open file whose count is not zero; the count of a file is never negative nor
    more than the number of descriptors that point at it, and equal to it
    whenever no process is inside the kernel. *)
Theorem descriptors_counted m0 m :
  initial m0 -> rtc mstep m0 m ->
  let s := mc_st m in
  (length (ptable s) = NPROC /\ length (ftable (ks_fs s)) = NFILE /\
   forall p q, ptable s !! p = Some q -> length (ofile q) = NOFILE /\
     (live_state (state q) = false -> forall i f, ofile q !! i <> Some (Some f))) /\
  (forall p i f, alive p s -> mc_threads m !! p = Some User -> fds p s !! i = Some (Some f) ->
     (f < NFILE)%nat /\ 1 <= fref f s) /\
  (forall f, 0 <= fref f s <= total f (ptable s)) /\
  ((forall p, alive p s -> mc_threads m !! p = Some User) -> forall f, fref f s = total f (ptable s)).
Proof.
  intros I Hr s. destruct (accounted_reachable m0 m I Hr) as [debt Acc]. destruct m as [s' t].
  change s with s' in *. clear s. rename s' into s. pose proof Acc as [W T O Th]. cbn [mc_st mc_threads] in *.
  assert (Hnone : forall p, (alive p s -> t !! p = Some User) -> debt p = None).
  { intros p Hp. apply (debt_none _ _ _ _ Acc). exact Hp. }
  split; [|split; [|split]].
  - split; [apply W|]. split; [apply W|]. intros p q E. split; [apply (wf_fds _ _ W _ _ E)|]. now apply (wf_dead _ _ W p q E).
  - intros p i f A Ht E. pose proof (accounted_regain _ _ _ _ _ Acc A (harmless_refl s)) as [_ _ _ S]. specialize (S f).
    rewrite (Hnone p (fun _ => Ht)) in S. rewrite owed_none in S.
    pose proof (uses_in _ _ _ E).
    assert (R1 : 1 <= fref f s) by lia. split; [|exact R1]. rewrite <- (wf_files _ _ W). unfold fref, fof in R1.
    destruct (ftable (ks_fs s) !! f) eqn:Ef; [now apply lookup_lt_Some in Ef|]. cbn in R1. lia.
  - intros f. destruct (debts_share f debt (ptable s) 0) as [H0 _].
    { intros j r Er. specialize (O j f). unfold fds in O. now rewrite (pget_lookup _ _ _ Er) in O. }
    pose proof (debts_nonneg f debt 0 (ptable s)). specialize (T f). lia.
  - intros Hu f. rewrite T, (debts_none f debt); [lia|]. intros p. apply Hnone, Hu.
Qed.

End Machine.

(** * A run: a process duplicates a descriptor *)
Module Run.
#[local] Instance run_fuel : Fuel := 1%nat.
Definition D : Z := 0x80400000.
Definition T : Z := 0x80401000.
Definition KS : Z := 0x80403000.
(** A page of user memory at address 0. *)
Definition m0 : mem := st32 (st32 ∅ D 0x401007) T 0x402007.
(** The frame of the trap: dup(0), with the stack pointer at 0. *)
Definition m1 : mem := st32 (st32 m0 (KS + 4020 + TF_TRAPNO) T_SYSCALL) (KS + 4020 + TF_EAX) 10.
Definition h0 : hw := Hw [] (0, 0) 0 0 0 0 0x400000 (0, 0).

Definition p0 : proc :=
  Proc 4096 D KS RUNNABLE 5 None (KS + 4020) 0 None 0 (Some 7%nat :: replicate 15 None) (Some 0%nat) (replicate 16 0)
    0 0xffffffff 0 (replicate 32 SIG_DFL) 0.
Definition fs0 : fsst := Fsst (log0 (Bst [] [] [])) (Superblock 0 0 0 0 0 0 0) [].
Definition con0 : console :=
  Console false true (Input (replicate 128 0) 0 0 0) (Cga (replicate 2000 0) 0) (Serial true [] []) (Kbd [] 0).
Definition io0 : fio :=
  Fio fs0 (<[7%nat := File FD_INODE 1 true true 0 0 0]> (replicate NFILE file0)) ∅ con0.
Definition s0 : ks := Kst (Kmem m0 0 true) h0 (p0 :: replicate 63 proc0) 6 (Some 1%nat) 0 false io0.

Abbreviation kid := (child 0 0 0 0).
Abbreviation traps := (kalltraps 0 0x80115000 0 0 0 0 0 (ret tt)).
Definition t0 : gmap nat thread := {[ 0%nat := kid 0%nat ]}.

(** The process runs for the first time, then traps. *)
Definition s1 : ks :=
  match left_by (match kid 0%nat with Waiting k => k (pset 0 (set_state RUNNING) (elsewhere m0 h0 s0)) | User => OutOfFuel end) with
  | Some (s, _) => s
  | None => s0
  end.
Definition s2 : ks :=
  match left_by (traps (Some 0%nat) 0 0 (KS + 4020) (Ctx [] []) (elsewhere m1 h0 s1)) with
  | Some (s, _) => s
  | None => s0
  end.

Lemma s0_lookup p q : ptable s0 !! p = Some q -> (p = 0%nat /\ q = p0) \/ q = proc0.
Proof. destruct p as [|p]; [intros [= <-]; now left|]. intros E. right. now apply lookup_replicate_1 in E as [-> _]. Qed.

Lemma s0_alive p : alive p s0 -> p = 0%nat.
Proof. intros (q & E & L). destruct (s0_lookup p q E) as [[-> _]| ->]; [done|discriminate]. Qed.

Lemma s0_initial : initial 0 0x80115000 0 0 (Machine s0 t0).
Proof.
  split; cbn [mc_st mc_threads].
  - split; [reflexivity| |reflexivity| |].
    + intros p q E. destruct (s0_lookup p q E) as [[_ ->]| ->]; reflexivity.
    + intros p q E _ L. destruct (s0_lookup p q E) as [[_ ->]| ->]; [discriminate|apply no_fds].
    + intros f. unfold fref, ftyp, fof. cbn [ks_fs s0 io0 ftable]. destruct (decide (f = 7%nat)) as [->|Hne]; [discriminate|].
      rewrite list_lookup_insert_ne by congruence. destruct (replicate NFILE file0 !! f) as [y|] eqn:E; [|done].
      now apply lookup_replicate_1 in E as [-> _].
  - intros f. assert (Z0 : forall n, total f (replicate n proc0) = 0) by (induction n as [|n IH]; [done|exact IH]).
    cbn [ptable s0 total]. rewrite Z0. unfold fref, fof. cbn [ks_fs s0 io0 ftable ofile p0 replicate].
    destruct (decide (f = 7%nat)) as [->|Hne]; [reflexivity|].
    rewrite list_lookup_insert_ne by congruence. unfold uses at 1. rewrite decide_False by congruence.
    destruct (replicate NFILE file0 !! f) as [y|] eqn:E; [apply lookup_replicate_1 in E as [-> _]|]; reflexivity.
  - intros p A. apply s0_alive in A as ->. reflexivity.
Qed.
End Run.
#[local] Existing Instance Run.run_fuel.

Lemma descriptors_counted_witness :
  exists m, rtc (mstep 0 0x80115000 0 0 0 0 0 (ret tt)) (Machine Run.s0 Run.t0) m /\
    fds 0 (mc_st m) !! 1%nat = Some (Some 7%nat) /\ 1 <= fref 7 (mc_st m) /\ fref 7 (mc_st m) <= total 7 (ptable (mc_st m)).
Proof.
  set (t1 := <[0%nat := User]> (spawn 0 0x80115000 0 0 Run.s0 Run.s1 Run.t0)).
  set (m := Machine Run.s2 (<[0%nat := User]> (spawn 0 0x80115000 0 0 Run.s1 Run.s2 t1))).
  assert (S1 : mstep 0 0x80115000 0 0 0 0 0 (ret tt) (Machine Run.s0 Run.t0) (Machine Run.s1 t1)).
  { eapply (step_run 0 0x80115000 0 0 0 0 0 (ret tt) 0 Run.s0 Run.t0 Run.m0 Run.h0 _ Run.s1 User);
      [reflexivity|reflexivity|vm_compute; reflexivity]. }
  assert (S2 : mstep 0 0x80115000 0 0 0 0 0 (ret tt) (Machine Run.s1 t1) m).
  { unfold m. apply (step_trap 0 0x80115000 0 0 0 0 0 (ret tt) 0 Run.s1 t1 Run.m1 Run.h0 0 0 (Run.KS + 4020) Run.s2 User).
    - unfold t1. apply lookup_insert_eq.
    - vm_compute. reflexivity.
    - vm_compute. reflexivity. }
  assert (R : rtc (mstep 0 0x80115000 0 0 0 0 0 (ret tt)) (Machine Run.s0 Run.t0) m).
  { exact (rtc_l _ _ _ _ S1 (rtc_once _ _ S2)). }
  exists m. split; [exact R|].
  destruct (descriptors_counted 0 0x80115000 0 0 0 0 0 (ret tt) (silent_ret tt) _ m Run.s0_initial R) as (_ & B & C & _).
  assert (E : fds 0 (mc_st m) !! 1%nat = Some (Some 7%nat)) by (vm_compute; reflexivity).
  split; [exact E|]. split; [|apply C].
  refine (proj2 (B 0%nat 1%nat 7%nat _ _ E)); [|unfold m; apply lookup_insert_eq].
  apply alive_spec. vm_compute. reflexivity.
Defined.
