(* ===== verification/FirstProc.v ===== *)
(** The first process: [inituvm] and [userinit] of a kernel that has just
    started, with the pages that they take. *)
From S2P Require Import Prelude Monad Mem Mmu Cstring Kalloc Vm Hw Uvm Space Forkvm FileIface Proc Signal Sysproc Spinlock.
From S2P Require Import Ring Pipe Sleeplock Disk Bio Log Fs FsData FsIcache Digits Kbd Console File Refs Kfile.

Import Monad Proc.

Lemma wp_unbind {S A B} (m : M S A) (f : A -> M S B) Q c s :
  wp (bind m f) Q c s -> wp m (fun a c' s' => wp (f a) Q c' s') c s.
Proof. unfold wp, bind. destruct (m c s); done. Qed.

Section FirstProc.
Variables kend kdata : Z.
Local Abbreviation uvm_ok := (uvm_ok kend).
Local Abbreviation kmem_ok := (kmem_ok kend).
Local Abbreviation page_ok := (page_ok kend).

(** * Writing a page in use *)

(** The allocator does not see a page that is not free. *)
Lemma kmem_ok_write q f k l :
  kmem_ok k l -> q mod PGSIZE = 0 -> q ∉ l -> same_outside q (k_mem k) (f (k_mem k)) -> kmem_ok (set_mem f k) l.
Proof.
  intros (Hch & Hpg & Hnd) Hq Hl Hso. split; [|done]. eapply chain_ext; [exact Hch|]. intros x Hx.
  rewrite Forall_forall in Hpg. apply (same_outside_ld32 q); auto; [now apply (page_aligned kend), Hpg|congruence].
Qed.

(** Nor does a page table of which it is not part. *)
Lemma uvm_ok_write q d m m' l :
  uvm_ok m d l -> data_page m d l q -> same_outside q m m' ->
  uvm_ok m' d l /\ (forall i, 0 <= i < 1024 -> pde_at m' d i = pde_at m d i) /\ (forall va, pte_val m' d va = pte_val m d va).
Proof.
  intros Hok (Hqa & Hql & Hqd & Hqt) Hso. pose proof (um_dir _ _ _ _ Hok) as Hd.
  assert (Epde : forall i, 0 <= i < 1024 -> pde_at m' d i = pde_at m d i) by (intros; now apply (same_outside_pde kend q m m' d l)).
  assert (Epte : forall va, pte_val m' d va = pte_val m d va) by (intros; now apply (same_outside_pte kend q m m' d l)).
  split; [|done]. apply (uvm_ok_ext kend m _ _ l); [done|done| |auto].
  intros va Hva. rewrite Epte. intros Hpr. split; [done|]. now destruct (um_page _ _ _ _ Hok va Hva Hpr) as [_ (_ & Hn & _)].
Qed.

Lemma space_pages_write q d m m' l :
  uvm_ok m d l -> data_page m d l q -> same_outside q m m' -> space_pages m' d = space_pages m d.
Proof.
  intros Hok Hq Hso. destruct (uvm_ok_write q d m m' l Hok Hq Hso) as (_ & Epde & Epte). unfold space_pages.
  now rewrite (tables_ext m m' d 1024 ltac:(lia) Epde), (upages_same m m' d 0 _ Epte).
Qed.

Lemma kept_write q m m' l : q ∈ l -> q mod PGSIZE = 0 -> same_outside q m m' -> kept m l m'.
Proof.
  intros Hl Hq Hso p b Hp Hpl Hb. apply Hso. assert (p <> q) by congruence.
  destruct (pages_apart p q Hp Hq); unfold PGSIZE in *; lia.
Qed.

Lemma kept_refl m l : kept m l m.
Proof. now intros q b. Qed.
Lemma kept_pages_trans m l m1 l1 m2 : kept m l m1 -> kept m1 l1 m2 -> (forall x, x ∈ l1 -> x ∈ l) -> kept m l m2.
Proof. intros H1 H2 Hl q b Hq Hn Hb. rewrite (H2 q b), (H1 q b); auto. Qed.

(** * inituvm *)

(** The address space [d] has one page, [p], with the program in it. *)
Record first_page (d p init sz : Z) (k : kmem) (l : list Z) (k' : kmem) (l' : list Z) : Prop := {
  fp_ext : extends kend d k l k' l';
  fp_pool : space_pages (k_mem k') d ++ l' ≡ₚ space_pages (k_mem k) d ++ l;
  fp_pte va : is_u32 va -> pte_val (k_mem k') d va =
    if within 0 PGSIZE va then Z.lor (Z.lor (V2P p) (Z.lor PTE_W PTE_U)) PTE_P else pte_val (k_mem k) d va;
  fp_page : page_ok p;
  fp_free : p ∈ l;
  fp_data : data_page (k_mem k') d l' p;
  fp_bytes b : 0 <= b < PGSIZE -> ld (k_mem k') (p + b) = if b <? sz then ld (k_mem k) (init + b) else 0
}.

Lemma below_data d k l b : uvm_ok (k_mem k) d l -> kmem_ok k l -> b < kend -> data_page (k_mem k) d l (b - b mod PGSIZE).
Proof.
  intros Hok (_ & Hpg & _) Hb. pose proof (Z.mod_pos_bound b PGSIZE eq_refl) as Hm. set (q := b - b mod PGSIZE).
  assert (Hq : forall p, page_ok p -> q <> p) by (intros p (_ & Hp & _); unfold q; lia).
  split; [unfold q; rewrite Zminus_mod_idemp_r, Z.sub_diag; done|].
  split; [intros Hx; rewrite Forall_forall in Hpg; now apply (Hq q); [apply Hpg|]|].
  split; [apply Hq, (um_dir _ _ _ _ Hok)|]. intros i Hi Hpr. apply Hq, (po_tab _ _ _ _ (um_dir _ _ _ _ Hok) i Hi Hpr).
Qed.

(** Memory below the end of the kernel is left alone. *)
Lemma extends_low d k l k' l' b :
  extends kend d k l k' l' -> uvm_ok (k_mem k) d l -> kmem_ok k l -> b < kend -> ld (k_mem k') b = ld (k_mem k) b.
Proof.
  intros X Hok Hk Hb. apply (ex_same _ _ _ _ _ _ X (b - b mod PGSIZE)); [now apply below_data|].
  pose proof (Z.mod_pos_bound b PGSIZE eq_refl). lia.
Qed.

(** [mappages] of one new page when there is also one for its table. *)
Lemma wp_map_only d a perm f p l k k1 c :
  kmem_ok k (p :: l) -> uvm_ok (k_mem k) d (p :: l) -> LKmem ∉ held c ->
  kmem_ok k1 l -> k_mem k1 = k_mem k -> k_use_lock k1 = k_use_lock k -> same_outside p (k_mem k) (f (k_mem k)) ->
  0 <= a < KERNBASE -> a mod PGSIZE = 0 -> 0 <= perm < PGSIZE -> present (pte_val (k_mem k) d a) = false -> l <> [] ->
  wp (mappages d a PGSIZE (V2P p) perm)
    (fun _ c' k' => c' = c /\ exists l', page_added kend d a perm f k (p :: l) p k' l') c (set_mem f k1).
Proof.
  intros Hk Hok Hlk Hk1 Em Hu Hso Ha Hal Hperm Habs Hl.
  pose (Q := fun (_ : Z) c' k' => c' = c /\ exists l', page_added kend d a perm f k (p :: l) p k' l').
  assert (W := wp_map_new kend d a perm f p l k k1 c (ret 0) (ret 1) Q Hk Hok Hlk Hk1 Em Hu Hso Ha Hal Hperm Habs).
  eapply wp_mono; [eapply wp_unbind; apply W|].
  - intros k' [E _ _ _ _]. now injection E as ->.
  - intros k' l' A. apply wp_ret. split; [done|]. now exists l'.
  - intros r c' k' Hr. cbn beta in Hr. destruct (r <? 0); exact Hr.
Qed.

(** The program is copied into the page. *)
Lemma page_loaded d p init sz k l k' l' :
  kmem_ok k l -> uvm_ok (k_mem k) d l -> p ∈ l -> 0 <= sz < PGSIZE -> init + sz <= kend ->
  page_added kend d 0 (Z.lor PTE_W PTE_U) (fun m => memset m p 0 PGSIZE) k l p k' l' ->
  first_page d p init sz k l (set_mem (fun m => memmove m p init sz) k') l'.
Proof.
  intros Hk Hok Hpl Hsz Hin [X Pool Pte Pg Dt By]. set (m' := memmove (k_mem k') p init sz). pose proof X as [K' U' L' F' D' S'].
  assert (Hso : same_outside p (k_mem k') m').
  { intros b Hb. unfold m'. rewrite ld_memmove by lia. destruct (withinP p sz b); [lia|done]. }
  destruct (uvm_ok_write p d _ m' l' U' Dt Hso) as (U2 & Epde & Epte).
  assert (Hdp : forall q, data_page (k_mem k') d l' q -> data_page m' d l' q).
  { intros q (Q1 & Q2 & Q3 & Q4). split; [done|]. split; [done|]. split; [done|]. intros i Hi. rewrite Epde by done. auto. }
  assert (Hpa : p mod PGSIZE = 0) by now apply (page_aligned kend).
  split; [|cbn [set_mem k_mem]; fold m'; now rewrite (space_pages_write p d (k_mem k') m' l' U' Dt Hso)|intros va Hva; cbn [set_mem k_mem]; fold m'; rewrite Epte; auto
    |done|done|now apply Hdp|].
  - split; [apply (kmem_ok_write p); auto; apply Dt|done|done|done|auto|].
    intros q b Hq Hb. cbn [set_mem k_mem]. fold m'. rewrite Hso; [now apply (S' q)|]. destruct Hq as (Q1 & Q2 & _).
    assert (q <> p) by congruence. destruct (pages_apart q p Q1 Hpa); unfold PGSIZE in *; lia.
  - intros b Hb. cbn [set_mem k_mem]. unfold m'. rewrite ld_memmove by lia.
    destruct (withinP p sz (p + b)), (Z.ltb_spec b sz); try lia.
    + replace (init + (p + b - p)) with (init + b) by lia. apply (extends_low d k l k' l'); auto. lia.
    + rewrite By by lia. rewrite ld_memset by done. now destruct (withinP p PGSIZE (p + b)); [|lia].
Qed.

Lemma wp_inituvm d init sz k l c (Q : unit -> ctx -> kmem -> Prop) :
  kmem_ok k l -> uvm_ok (k_mem k) d l -> LKmem ∉ held c -> (2 <= length l)%nat -> 0 <= sz < PGSIZE -> init + sz <= kend ->
  present (pte_val (k_mem k) d 0) = false ->
  (forall k' p l', first_page d p init sz k l k' l' -> Q tt c k') -> wp (inituvm d init sz) Q c k.
Proof.
  intros Hk Hok Hlk Hlen Hsz Hin Habs HQ. unfold inituvm. rewrite (proj2 (Z.leb_gt PGSIZE sz)) by lia.
  apply wp_bind. eapply wp_kalloc; [done..|]. destruct l as [|p l]; [cbn in Hlen; lia|]. intros k1 Hk1 Em Hu.
  pose proof Hk as (_ & Hpg & _). apply Forall_cons in Hpg as [Hp _]. destruct (page_ok_u32 _ p Hp) as (_ & Hnz & _).
  destruct (Z.eqb_spec p 0); [done|]. unfold fill. apply wp_bind, wp_modify, wp_bind. eapply wp_mono.
  - apply (wp_map_only d 0 (Z.lor PTE_W PTE_U) (fun m => memset m p 0 PGSIZE) p l k k1 c); try done.
    + intros a Ha. rewrite ld_memset by done. destruct (withinP p PGSIZE a); [lia|done].
    + intros ->. cbn in Hlen. lia.
  - intros r c' k' (-> & l' & A). apply wp_modify, (HQ _ p l'), page_loaded; auto. now left.
Qed.

(** * userinit *)

Variables trapret_addr forkret_addr initcode_start initcode_size : Z.
Context {fuel : Fuel}.
#[local] Instance first_ops : FileOps fio := fio_ops kend.
Local Abbreviation c0 := (Ctx [] []).

(** Steps on a state whose parts have names. *)
Lemma wp_first f (Q : unit -> ctx -> ks -> Prop) c km hw q t np ip tk fi fs :
  Q tt c (Kst km hw (f q :: t) np ip tk fi fs) -> wp (pmod 0 f) Q c (Kst km hw (q :: t) np ip tk fi fs).
Proof. done. Qed.

Lemma wp_km {A} (m : M kmem A) (Q : A -> ctx -> ks -> Prop) c km hw t np ip tk fi fs :
  wp m (fun a c' km' => Q a c' (Kst km' hw t np ip tk fi fs)) c km -> wp (inkm m) Q c (Kst km hw t np ip tk fi fs).
Proof. intros H. unfold inkm. now apply wp_zoom. Qed.

(** The stack of a new process: the frame of the trap at its top, under it the
    address to which [forkret] returns, and the context of [swtch]. *)
Definition frame_at (st : Z) : Z := st + KSTACKSIZE - TF_SIZE.
Definition context_at (st : Z) : Z := frame_at st - 4 - CONTEXT_SIZE.

Definition stack_words (m : mem) (st : Z) : Prop :=
  ld32 m (frame_at st - 4) = trapret_addr /\ ld32 m (context_at st + CONTEXT_EIP) = forkret_addr.

(** The process once [allocproc] has found its slot and its stack. *)
Definition embryo (st np : Z) : proc :=
  set_context (context_at st) (set_tf (frame_at st) (set_kstack st (set_pid (s32 (np + 1)) (set_state EMBRYO proc0)))).

Lemma wp_allocpid (Q : Z -> ctx -> ks -> Prop) c km hw t np ip tk fi fs :
  Q (s32 (np + 1)) c (Kst km hw t (s32 (np + 1)) ip tk fi fs) -> wp allocpid Q c (Kst km hw t np ip tk fi fs).
Proof.
  intros HQ. unfold allocpid. cbn [allocpid_from]. apply wp_bind, wp_gets, wp_bind. unfold wp at 1, cas. cbn [nextpid].
  rewrite decide_True by done. now apply wp_ret.
Qed.

Ltac offsets :=
  unfold context_at, frame_at, KSTACKSIZE, PGSIZE, TF_SIZE, CONTEXT_SIZE, CONTEXT_EIP, TF_EIP, TF_CS, TF_DS, TF_ES, TF_SS, TF_ESP, TF_EFLAGS in *; lia.

(** What [allocproc] writes on the stack. *)
Definition stack_init (st : Z) (m : mem) : mem :=
  st32 (memset (st32 m (frame_at st - 4) trapret_addr) (context_at st) 0 CONTEXT_SIZE) (context_at st + CONTEXT_EIP) forkret_addr.

Lemma stack_init_outside st m : same_outside st m (stack_init st m).
Proof.
  intros a Ha. unfold stack_init. rewrite ld_st32_ne by offsets. rewrite ld_memset by done.
  destruct (withinP (context_at st) CONTEXT_SIZE a); [offsets|]. apply ld_st32_ne. offsets.
Qed.

Lemma stack_init_words st m : is_u32 trapret_addr -> is_u32 forkret_addr -> stack_words (stack_init st m) st.
Proof.
  intros Ht Hf. unfold stack_words, stack_init. split; [|now apply ld32_st32_eq].
  rewrite ld32_st32_ne by offsets. transitivity (ld32 (st32 m (frame_at st - 4) trapret_addr) (frame_at st - 4)); [|now apply ld32_st32_eq].
  apply ld32_ext. intros i Hi. rewrite ld_memset by done. destruct (withinP (context_at st) CONTEXT_SIZE (frame_at st - 4 + i)); [offsets|done].
Qed.

Lemma wp_allocproc_first st l km hw t np ip tk fi fs (Q : option nat -> ctx -> ks -> Prop) :
  kmem_ok km (st :: l) -> is_u32 trapret_addr -> is_u32 forkret_addr ->
  (forall km', kmem_ok km' l -> k_use_lock km' = k_use_lock km -> same_outside st (k_mem km) (k_mem km') ->
     stack_words (k_mem km') st -> Q (Some 0%nat) c0 (Kst km' hw (embryo st np :: t) (s32 (np + 1)) ip tk fi fs)) ->
  wp (allocproc trapret_addr forkret_addr) Q c0 (Kst km hw (proc0 :: t) np ip tk fi fs).
Proof.
  intros Hk Ht Hf HQ. pose proof Hk as (_ & Hpg & Hnd). apply Forall_cons in Hpg as [Hp _]. apply NoDup_cons in Hnd as [Hn _].
  destruct (page_ok_u32 _ st Hp) as (_ & Hnz & _). pose proof (page_aligned kend _ Hp) as Ha.
  unfold allocproc. rewrite (eq_refl : seq 0 NPROC = 0%nat :: seq 1 63). cbn [forb]. apply wp_bind, wp_bind.
  unfold wp at 1, cas, pget. cbn [ptable lookup list_lookup default state proc0]. rewrite decide_True by done.
  change (pset 0 (set_state EMBRYO) (Kst km hw (proc0 :: t) np ip tk fi fs)) with (Kst km hw (set_state EMBRYO proc0 :: t) np ip tk fi fs).
  apply wp_bind. unfold allocproc_found. apply wp_bind, wp_allocpid, wp_bind, wp_first, wp_bind, wp_km.
  eapply wp_kalloc; [done|apply not_elem_of_nil|]. intros k1 K1 E1 U1. apply wp_bind, wp_first. destruct (Z.eqb_spec st 0); [done|].
  apply wp_bind, wp_first, wp_bind, wp_km. unfold store. apply wp_modify, wp_bind, wp_first, wp_bind, wp_km.
  unfold fill. apply wp_modify, wp_bind, wp_km, wp_modify, wp_ret, wp_ret, wp_ret.
  change (Kst _ _ _ _ _ _ _ _) with (Kst (set_mem (stack_init st) k1) hw (embryo st np :: t) (s32 (np + 1)) ip tk fi fs).
  apply HQ; [apply (kmem_ok_write st)|..]; cbn [set_mem k_mem k_use_lock]; rewrite ?E1; auto using stack_init_outside, stack_init_words.
Qed.

(** What [userinit] writes in the frame of the trap. *)
Definition UCS : Z := Z.lor (Z.shiftl SEG_UCODE 3) DPL_USER.
Definition UDS : Z := Z.lor (Z.shiftl SEG_UDATA 3) DPL_USER.
Definition tf_init (t : Z) (m : mem) : mem :=
  let m := sts (memset m t 0 TF_SIZE) (t + TF_CS) (le_bytes 2 UCS) in
  let m := sts (sts (sts m (t + TF_DS) (le_bytes 2 UDS)) (t + TF_ES) (le_bytes 2 UDS)) (t + TF_SS) (le_bytes 2 UDS) in
  st32 (st32 (st32 m (t + TF_EFLAGS) FL_IF) (t + TF_ESP) PGSIZE) (t + TF_EIP) 0.

(** The frame of a process that starts in user mode at address 0, with its stack
    at the end of its page and interrupts on. *)
Record user_frame (m : mem) (t : Z) : Prop := {
  uf_eip : ld32 m (t + TF_EIP) = 0;
  uf_esp : ld32 m (t + TF_ESP) = PGSIZE;
  uf_eflags : ld32 m (t + TF_EFLAGS) = FL_IF;
  uf_cs : lds m (t + TF_CS) 2 = le_bytes 2 UCS;
  uf_ds : lds m (t + TF_DS) 2 = le_bytes 2 UDS;
  uf_es : lds m (t + TF_ES) 2 = le_bytes 2 UDS;
  uf_ss : lds m (t + TF_SS) 2 = le_bytes 2 UDS
}.

Lemma ld_sts_ne m a bs b : b < a \/ a + Z.of_nat (length bs) <= b -> ld (sts m a bs) b = ld m b.
Proof. intros H. rewrite ld_sts. destruct (Z.leb_spec a b), (Z.ltb_spec b (a + Z.of_nat (length bs))); cbn [andb]; lia || done. Qed.

Lemma tf_init_outside t m a : a < t \/ t + TF_SIZE <= a -> ld (tf_init t m) a = ld m a.
Proof.
  intros Ha. unfold tf_init. rewrite !ld_st32_ne by offsets. rewrite !ld_sts_ne by (rewrite length_le_bytes; offsets).
  rewrite ld_memset by done. destruct (withinP t TF_SIZE a); [offsets|done].
Qed.

Lemma tf_init_frame t m : user_frame (tf_init t m) t.
Proof.
  assert (D : forall m a b n w, b + 2 <= a \/ a + Z.of_nat n <= b -> lds (sts m a (le_bytes n w)) b 2 = lds m b 2).
  { intros. apply lds_sts_disj. rewrite length_le_bytes. lia. }
  assert (E : forall m a w, lds (sts m a (le_bytes 2 w)) a 2 = le_bytes 2 w) by (intros m' a w; exact (lds_sts_same m' a (le_bytes 2 w))).
  unfold tf_init. split.
  1: now apply ld32_st32_eq.
  1: rewrite ld32_st32_ne by offsets; now apply ld32_st32_eq.
  1: rewrite !ld32_st32_ne by offsets; now apply ld32_st32_eq.
  all: unfold st32; repeat (rewrite D by offsets); apply E.
Qed.

Lemma kept_low m l m' b : kept m l m' -> Forall page_ok l -> b < kend -> ld m' b = ld m b.
Proof.
  intros H Hl Hb. pose proof (Z.mod_pos_bound b PGSIZE eq_refl) as Hm. apply (H (b - b mod PGSIZE)); [..|lia].
  - rewrite Zminus_mod_idemp_r, Z.sub_diag. done.
  - rewrite Forall_forall in Hl. intros Hx. apply Hl in Hx as (_ & Hx & _). lia.
Qed.

(** The memory of the first process: its stack [st] and its page table [d] are
    made of pages of [l]; [l'] is what is left of them. *)
Record first_memory (st d : Z) (k : kmem) (l : list Z) (k' : kmem) (l' : list Z) : Prop := {
  fm_kmem : kmem_ok k' l';
  fm_lock : k_use_lock k' = k_use_lock k;
  fm_kept : kept (k_mem k) l (k_mem k');
  fm_pool : st :: space_pages (k_mem k') d ++ l' ≡ₚ l;
  fm_uvm : uvm_ok (k_mem k') d l';
  fm_user va : 0 <= va < PGSIZE -> PTE_FLAGS (pte_val (k_mem k') d va) = Z.lor (Z.lor PTE_W PTE_U) PTE_P;
  fm_kernel va : is_u32 va -> PGSIZE <= va -> pte_val (k_mem k') d va = kvm_pte kdata va;
  fm_code va : 0 <= va < PGSIZE ->
    ub (k_mem k') d va = if va <? initcode_size then ld (k_mem k) (initcode_start + va) else 0;
  fm_stack : stack_words (k_mem k') st;
  fm_frame : user_frame (k_mem k') (frame_at st)
}.

Lemma stack_data st d k1 l k2 l2 :
  kvm_new kend kdata d k1 l k2 l2 -> st mod PGSIZE = 0 -> st ∉ l -> data_page (k_mem k2) d l2 st.
Proof.
  intros [_ _ P _ _] Ha Hl. rewrite <- P, not_elem_of_cons, not_elem_of_app in Hl. destruct Hl as (Hd & Ht & Hl).
  split; [done|]. split; [done|]. split; [done|]. intros i Hi Hp ->. apply Ht, elem_of_tables. eauto.
Qed.

Lemma first_memory_intro st d p k l k1 k2 l2 k3 l3 :
  kmem_ok k (st :: l) -> same_outside st (k_mem k) (k_mem k1) -> k_use_lock k1 = k_use_lock k -> stack_words (k_mem k1) st ->
  kvm_new kend kdata d k1 l k2 l2 -> first_page d p initcode_start initcode_size k2 l2 k3 l3 ->
  0 <= initcode_size -> initcode_start + initcode_size <= kend ->
  first_memory st d k (st :: l) (set_mem (tf_init (frame_at st)) k3) l3.
Proof.
  intros Hk S1 U1 [W1 W2] N F Hsz Hin. pose proof Hk as (_ & Hpg & Hnd). apply NoDup_cons in Hnd as [Hst Hnd].
  pose proof Hpg as Hpg0. apply Forall_cons in Hpg as [Hp Hpg]. pose proof (page_aligned kend _ Hp) as Ha.
  pose proof (fp_ext _ _ _ _ _ _ _ _ F) as X. pose proof (kvm_new_kept _ _ _ _ _ _ _ _ _ N X) as K13.
  pose proof (ex_data _ _ _ _ _ _ X _ (stack_data st d k1 l k2 l2 N Ha Hst)) as Dst.
  set (m4 := tf_init (frame_at st) (k_mem k3)).
  assert (S4 : same_outside st (k_mem k3) m4) by (intros a Ha'; apply tf_init_outside; offsets).
  destruct (uvm_ok_write st d _ m4 l3 (ex_uvm _ _ _ _ _ _ X) Dst S4) as (U4 & _ & T4).
  assert (K01 : kept (k_mem k) (st :: l) (k_mem k1)) by (apply (kept_write st); [now left|done|done]).
  assert (K03 : kept (k_mem k) (st :: l) (k_mem k3)) by (apply (kept_pages_trans _ _ (k_mem k1) l); [done|done|now right]).
  assert (Hpl : p ∈ l).
  { rewrite <- (kn_pool _ _ _ _ _ _ _ N). right. apply elem_of_app. right. exact (fp_free _ _ _ _ _ _ _ _ F). }
  destruct (pte_entry kend p _ (fp_page _ _ _ _ _ _ _ _ F) (ltac:(done) : 0 <= Z.lor PTE_W PTE_U < PGSIZE)) as (_ & Wa & Wf & _).
  assert (Tu : forall va, 0 <= va < PGSIZE -> pte_val m4 d va = Z.lor (Z.lor (V2P p) (Z.lor PTE_W PTE_U)) PTE_P).
  { intros va Hva. rewrite T4, (fp_pte _ _ _ _ _ _ _ _ F) by (unfold is_u32, PGSIZE in *; lia). now destruct (withinP 0 PGSIZE va); [|lia]. }
  split; cbn [set_mem k_mem]; fold m4.
  - apply (kmem_ok_write st); [apply X|done|apply Dst|done].
  - cbn [set_mem k_use_lock]. rewrite (ex_lock _ _ _ _ _ _ X). destruct (kn_frame _ _ _ _ _ _ _ N) as (_ & -> & _). done.
  - apply (kept_pages_trans _ _ (k_mem k3) (st :: l)); auto. apply (kept_write st); [now left|done|done].
  - rewrite (space_pages_write st d (k_mem k3) m4 l3) by (done || apply X).
    now rewrite (fp_pool _ _ _ _ _ _ _ _ F), (kvm_new_space _ _ _ _ _ _ _ N).
  - done.
  - intros va Hva. rewrite Tu by done. exact Wf.
  - intros va Hu Hva. rewrite T4, (fp_pte _ _ _ _ _ _ _ _ F) by done. destruct (withinP 0 PGSIZE va); [lia|]. exact (kn_pte _ _ _ _ _ _ _ N va Hu).
  - intros va Hva. unfold ub, upage. rewrite Tu by done. unfold upage in Wa. rewrite Wa, Z.mod_small by lia.
    assert (p <> st) by congruence. rewrite S4, (fp_bytes _ _ _ _ _ _ _ _ F) by
      (lia || destruct (pages_apart p st (page_aligned kend _ (fp_page _ _ _ _ _ _ _ _ F)) Ha); unfold PGSIZE in *; lia).
    destruct (Z.ltb_spec va initcode_size); [|done]. rewrite (kept_low (k_mem k1) l); [|exact (proj2 (proj2 (kn_frame _ _ _ _ _ _ _ N)))|done|lia].
    apply (kept_low _ (st :: l)); auto. lia.
  - assert (Wk : forall a, st <= a -> a + 4 <= frame_at st -> ld32 m4 a = ld32 (k_mem k1) a).
    { intros a H1 H2. apply ld32_ext. intros i Hi. unfold m4. rewrite tf_init_outside by offsets. apply (K13 st); auto. offsets. }
    split; rewrite Wk; auto; offsets.
  - apply tf_init_frame.
Qed.

(** The root directory, which becomes the first entry of the inode cache. *)
Definition root_inode : inode := iset_valid false (iset_ref 1 (iset_key ROOTDEV ROOTINO inode0)).

Lemma namei_root cur km hw t np ip tk fi lg sb ft pp con :
  lift cur (FileIface.namei str_root) c0 (Kst km hw t np ip tk fi (Fio (Fsst lg sb (replicate NINODE inode0)) ft pp con)) =
  Ret (Some 0%nat) c0 (Kst km hw t np ip tk fi (Fio (Fsst lg sb (root_inode :: replicate 49 inode0)) ft pp con)).
Proof. reflexivity. Qed.

(** The first process, ready to run. *)
Definition first_proc (st d np : Z) : proc :=
  Proc PGSIZE d st RUNNABLE (s32 (np + 1)) None (frame_at st) (context_at st) None 0 (replicate NOFILE None) (Some 0%nat)
    (str_initcode ++ replicate 7 0) 0 0xffffffff 0 (replicate 32 SIG_DFL) 0.

Lemma wp_userinit km l hw np ip tk fi lg sb ft pp con (Q : unit -> ctx -> ks -> Prop) :
  kmem_ok km l -> (kvm_pages + 3 <= length l)%nat -> kdata_ok kdata -> is_u32 trapret_addr -> is_u32 forkret_addr ->
  0 <= initcode_size < PGSIZE -> initcode_start + initcode_size <= kend ->
  (forall st d km' l', first_memory st d km l km' l' ->
     Q tt c0 (Kst km' hw (first_proc st d np :: replicate 63 proc0) (s32 (np + 1)) (Some 0%nat) tk fi
       (Fio (Fsst lg sb (root_inode :: replicate 49 inode0)) ft pp con))) ->
  wp (userinit kend kdata trapret_addr forkret_addr initcode_start initcode_size) Q c0
    (Kst km hw (replicate NPROC proc0) np ip tk fi (Fio (Fsst lg sb (replicate NINODE inode0)) ft pp con)).
Proof.
  intros Hk Hlen Hkd Ht Hf Hsz Hin HQ. destruct l as [|st l]; [cbn [length] in Hlen; unfold kvm_pages in *; lia|]. cbn [length] in Hlen.
  unfold userinit. change (replicate NPROC proc0) with (proc0 :: replicate 63 proc0). apply wp_bind.
  eapply wp_allocproc_first; [done|done|done|]. intros k1 K1 U1 S1 W1. apply wp_bind, wp_modify. cbn [set_initproc ks_km ks_hw ptable nextpid initproc ticks first ks_fs].
  apply wp_bind, wp_km. eapply wp_mono; [apply (wp_setupkvm kend kdata k1 l c0); [done|apply not_elem_of_nil|done]|].
  intros d c' k2 P. assert (c' = c0) as -> by apply P. destruct (setupkvm_new _ _ _ _ _ _ _ _ P) as [l2 N]; [lia|].
  apply wp_bind, wp_first. destruct (Z.eqb_spec d 0) as [E|_]; [now apply (kvm_new_nz _ _ _ _ _ _ _ N) in E|].
  pose proof (kn_length _ _ _ _ _ _ _ N) as Hl2. apply wp_bind, wp_km. apply (wp_inituvm d _ _ k2 l2).
  { apply (kn_frame _ _ _ _ _ _ _ N). }
  { exact (kn_uvm _ _ _ _ _ _ _ N). }
  { apply not_elem_of_nil. }
  { lia. }
  { done. }
  { done. }
  { rewrite (kn_pte _ _ _ _ _ _ _ N) by done. done. }
  intros k3 p l3 F. apply wp_bind, wp_first, wp_bind, wp_gets. apply wp_bind, wp_km. unfold fill. apply wp_modify.
  do 4 (apply wp_bind; unfold kstore16; apply wp_modify). do 3 (apply wp_bind; unfold kstore, store; apply wp_km, wp_modify).
  apply wp_bind, wp_first, wp_bind, wp_first, wp_bind, wp_first, wp_bind. unfold wp at 1.
  match goal with |- context [lift _ _ _ ?s] => change s with (Kst (set_mem (tf_init (frame_at st)) k3) hw
    (set_cwd None (set_state EMBRYO (set_handlers (replicate 32 0) (first_proc st d np))) :: replicate 63 proc0) (s32 (np + 1)) (Some 0%nat) tk fi
    (Fio (Fsst lg sb (replicate NINODE inode0)) ft pp con)) end.
  rewrite namei_root. apply wp_bind, wp_first, wp_bind, wp_acquire; [apply not_elem_of_nil|].
  apply wp_bind, wp_first, wp_bind, wp_first. eapply wp_release; [reflexivity|].
  apply (HQ st d _ l3). apply (first_memory_intro st d p km l k1 k2 l2 k3 l3); auto; lia.
Qed.

End FirstProc.
