(* ===== verification/Main.v ===== *)
(** main.c: the start of the kernel.  The state is that of the running kernel
    (Kernel.v) with what only the boot code sets up: the devices, the table of
    processors, the interrupt descriptors and the kernel's own page table. *)
From S2P Require Import Prelude Monad Mem Mmu Cstring Kalloc Vm Hw FileIface Proc Signal Sysproc Spinlock.
From S2P Require Import Trap Ring Pipe Sleeplock Disk Ports Boot Ide Bio Log Fs FsData Digits Kbd Console File.
From S2P Require Import Refs Kfile Exec Sysfile RefsFile RefsProc Kernel.

Import Monad Proc.

(** * The page table of the first instructions *)

(** [entrypgdir]: two entries for pages of 4 megabytes. *)
Definition entrypgdir : list Z :=
  let pde := Z.lor (Z.lor (Z.lor 0 PTE_P) PTE_W) PTE_PS in
  aset (aset (replicate NPDENTRIES 0) 0 pde) (Z.shiftr KERNBASE PDXSHIFT) pde.

(** What the processor makes of such an entry, with CR4_PSE on. *)
Definition big_page (pde va : Z) : option Z :=
  if negb (Z.land pde PTE_P =? 0) && negb (Z.land pde PTE_PS =? 0)
  then Some (Z.land pde 0xFFC00000 + Z.land va 0x3FFFFF) else None.

(** * The state *)

Record sys (D : Type) : Type := Sys {
  sy_ks : ks;
  sy_dev : D;
  sy_apicids : list Z;        (* cpus[i].apicid *)
  sy_started : list Z;        (* cpus[i].started *)
  sy_ncpu : Z;
  sy_ioapicid : Z;
  sy_lapic : Z;
  sy_havedisk1 : bool;
  sy_idt : list gatedesc;
  sy_kpgdir : Z
}.
Arguments Sys {D}.
Arguments sy_ks {D}. Arguments sy_dev {D}. Arguments sy_apicids {D}. Arguments sy_started {D}.
Arguments sy_ncpu {D}. Arguments sy_ioapicid {D}. Arguments sy_lapic {D}. Arguments sy_havedisk1 {D}.
Arguments sy_idt {D}. Arguments sy_kpgdir {D}.

Section Views.
Context {D : Type}.
Implicit Types s : sys D.
Definition set_ks v s := Sys v (sy_dev s) (sy_apicids s) (sy_started s) (sy_ncpu s) (sy_ioapicid s) (sy_lapic s) (sy_havedisk1 s) (sy_idt s) (sy_kpgdir s).
Definition set_dev (v : D) s := Sys (sy_ks s) v (sy_apicids s) (sy_started s) (sy_ncpu s) (sy_ioapicid s) (sy_lapic s) (sy_havedisk1 s) (sy_idt s) (sy_kpgdir s).
Definition set_started v s := Sys (sy_ks s) (sy_dev s) (sy_apicids s) v (sy_ncpu s) (sy_ioapicid s) (sy_lapic s) (sy_havedisk1 s) (sy_idt s) (sy_kpgdir s).
Definition set_disk1 v s := Sys (sy_ks s) (sy_dev s) (sy_apicids s) (sy_started s) (sy_ncpu s) (sy_ioapicid s) (sy_lapic s) v (sy_idt s) (sy_kpgdir s).
Definition set_idt v s := Sys (sy_ks s) (sy_dev s) (sy_apicids s) (sy_started s) (sy_ncpu s) (sy_ioapicid s) (sy_lapic s) (sy_havedisk1 s) v (sy_kpgdir s).
Definition set_kpgdir v s := Sys (sy_ks s) (sy_dev s) (sy_apicids s) (sy_started s) (sy_ncpu s) (sy_ioapicid s) (sy_lapic s) (sy_havedisk1 s) (sy_idt s) v.

(** Memory, and a change of it. *)
Definition sy_mem s : mem := k_mem (ks_km (sy_ks s)).
Definition smem (f : mem -> mem) s : sys D := set_ks (set_km (set_mem f (ks_km (sy_ks s))) (sy_ks s)) s.

(** The part that Boot.v is about: memory, the devices and the processors. *)
Definition to_boot s : boot D := Boot (sy_mem s) (sy_dev s) (sy_apicids s) (sy_ncpu s) (sy_ioapicid s) (sy_lapic s).
Definition from_boot (b : boot D) s : sys D :=
  Sys (set_km (set_mem (fun _ => bt_mem b) (ks_km (sy_ks s))) (sy_ks s)) (bt_dev b) (apicids b) (sy_started s) (ncpu b) (ioapicid b) (lapic b)
    (sy_havedisk1 s) (sy_idt s) (sy_kpgdir s).
(** The disk driver before its first request. *)
Definition to_ide s : ide D := MkIde [] [] None (sy_havedisk1 s) (sy_dev s).
Definition from_ide (i : ide D) s : sys D := set_disk1 (havedisk1 i) (set_dev (idev i) s).

Definition inks {A} (m : M ks A) : M (sys D) A := zoom sy_ks set_ks m.
Definition inboot {A} (m : M (boot D) A) : M (sys D) A := zoom to_boot from_boot m.
Definition inide {A} (m : M (ide D) A) : M (sys D) A := zoom to_ide from_ide m.
Definition inregs (f : hw -> hw) : M (sys D) unit := inks (modify (fun k => set_hw (f (ks_hw k)) k)).
End Views.

#[global] Instance sys_devices {D} : HasDev D (sys D) := {| dev := sy_dev; set_devs := set_dev |}.

(** [initlock]: the lock is free. *)
Definition initlock {S} (lk : lock) : M S unit :=
  fun c s => Ret tt (Ctx (filter (fun x => x <> lk) (held c)) (woken c)) s.

(** proc.c and file.c. *)
Definition pinit {S} : M S unit := initlock LPtable.
Definition fileinit {S} : M S unit := initlock LFtable.

(** * main.c *)

Section Main.
Context {D : Type} `{IO D} {fuel : Fuel}.
Abbreviation K := (M (sys D)).

(** Linker symbols: the end of the kernel, its data, the first process's code. *)
Variables kdata kend trapret_addr forkret_addr initcode_start initcode_size : Z.
(** The addresses of [entrypgdir], of [mpenter], of [idt], and of [gdt] of each [struct cpu]. *)
Variables entrypgdir_addr mpenter_addr idt_addr : Z.
Variable gdt_addr : nat -> Z.
(** The addresses in vectors.S, and the machine code of entryother.S. *)
Variables vectors entryother : list Z.
#[local] Instance main_ops : FileOps fio := fio_ops kend.

(** How often a device register is polled. *)
Variable spins : nat.

(** proc.c: interrupts are off until the scheduler turns them on. *)
Definition mycpu : K nat :=
  let* apicid := inboot lapicid in
  let* s := get in
  forb (seq 0 (Z.to_nat (sy_ncpu s)))
    (fun i => if default 0 (sy_apicids s !! i) =? apicid then ret (Some i) else ret None)
    (panic "unknown apicid").

Definition kvmalloc : K unit :=
  let* p := inks (inkm (setupkvm kend kdata)) in
  modify (set_kpgdir p) ;;;
  inregs (switchkvm p).

Definition seginit_cpu : K unit :=
  let* i := mycpu in inregs (seginit (gdt_addr i)).

Definition ioapicinit_print : K unit :=
  let* id := gets sy_ioapicid in
  let* differs := ioapicinit id in
  when differs (inks (kcprintf no_str (bytes "ioapicinit: id isn't equal to ioapicid; not a MP" ++ [10]) [])).

(** console.c and uart.c, with their use of the ports. *)
Definition consoleinit_dev : K unit :=
  initlock LCons ;;;
  inks (incon consoleinit) ;;;
  ioapicenable IRQ_KBD 0.

Definition COM1 : Z := 0x3f8.
Definition uartinit_dev : K unit :=
  out (outb (COM1 + 2) 0) ;;;
  out (outb (COM1 + 3) 0x80) ;;;
  out (outb (COM1 + 0) (115200 / 9600)) ;;;
  out (outb (COM1 + 1) 0) ;;;
  out (outb (COM1 + 3) 0x03) ;;;
  out (outb (COM1 + 4) 0) ;;;
  out (outb (COM1 + 1) 0x01) ;;;
  let* r := io (inb (COM1 + 5)) in
  if r =? 0xFF then ret tt
  else
    let* _ := io (inb (COM1 + 2)) in
    let* _ := io (inb (COM1 + 0)) in
    ioapicenable IRQ_COM1 0 ;;;
    inks (incon (uartinit true)).

Definition tvinit_idt : K unit :=
  modify (set_idt (tvinit vectors)) ;;;
  initlock LTick.

Definition inbcache {A} (m : M bst A) : K A := inks (lift NPROC (infss (inlog (inbio m)))).

(** [while(c->started == 0)]: the other processors run between two looks. *)
Fixpoint wait_started (n : nat) (i : nat) : K unit :=
  fun c s =>
    if negb (default 0 (sy_started s !! i) =? 0) then Ret tt c s
    else
      match n with
      | O => OutOfFuel
      | S n' => Sleep None (woken c) s (fun s' => wait_started n' i (Ctx (held c) []) s')
      end.

Definition AP_CODE : Z := P2V 0x7000.

(** The body of the loop of [startothers]. *)
Definition start_cpu (i : nat) : K unit :=
  let* me := mycpu in
  if (i =? me)%nat then ret tt
  else
    let* stack := inks (inkm kalloc) in
    modify (smem (fun m => st32 m (AP_CODE - 4) (u32 (stack + KSTACKSIZE)))) ;;;
    modify (smem (fun m => st32 m (AP_CODE - 8) mpenter_addr)) ;;;
    modify (smem (fun m => st32 m (AP_CODE - 12) (V2P entrypgdir_addr))) ;;;
    let* id := gets (fun s => default 0 (sy_apicids s !! i)) in
    inboot (lapicstartap id (V2P AP_CODE)) ;;;
    wait_started spins i.

Definition startothers : K unit :=
  modify (smem (fun m => sts m AP_CODE entryother)) ;;;
  let* n := gets sy_ncpu in
  for_ (seq 0 (Z.to_nat n)) start_cpu.

(** Up to the call of [scheduler]. *)
Definition mpmain : K unit :=
  let* i := mycpu in
  let* j := mycpu in
  inks (kcprintf no_str (bytes "cpu%d: starting %d" ++ [10]) [Z.of_nat i; Z.of_nat j]) ;;;
  inregs (idtinit idt_addr) ;;;
  let* i := mycpu in
  modify (fun s => set_started (<[i := 1]> (sy_started s)) s).

Definition mpenter : K unit :=
  let* p := gets sy_kpgdir in
  inregs (switchkvm p) ;;;
  seginit_cpu ;;;
  inboot (lapicinit spins) ;;;
  mpmain.

Definition main : K unit :=
  inks (inkm (kinit1 kend kend (P2V (4 * 1024 * 1024)))) ;;;
  kvmalloc ;;;
  inboot (mpinit spins) ;;;
  inboot (lapicinit spins) ;;;
  seginit_cpu ;;;
  picinit ;;;
  ioapicinit_print ;;;
  consoleinit_dev ;;;
  uartinit_dev ;;;
  pinit ;;;
  tvinit_idt ;;;
  (initlock LBcache ;;; inbcache binit) ;;;
  fileinit ;;;
  (let* n := gets sy_ncpu in initlock LIde ;;; inide (ideinit spins n)) ;;;
  startothers ;;;
  inks (inkm (kinit2 kend (P2V (4 * 1024 * 1024)) (P2V PHYSTOP))) ;;;
  inks (userinit kend kdata trapret_addr forkret_addr initcode_start initcode_size) ;;;
  mpmain.

End Main.
