(* ===== verification/MainProps.v ===== *)
(** The start of the kernel: what [entrypgdir] maps, and that the initialisation
    of each device in [main] returns and leaves memory, the processes and the
    tables of the kernel as they were. *)
From S2P Require Import Prelude Monad Mem Mmu Cstring Kalloc Vm Hw Uvm Space Forkvm FileIface Proc Signal Sysproc Spinlock.
From S2P Require Import Trap Ring Pipe Sleeplock Disk Ports Boot Ide Bio Log Fs FsData Digits Kbd Console ConsoleProps File.
From S2P Require Import Refs Kfile Exec Sysfile RefsFile RefsProc Kernel Main.

Import Monad Proc.

(** * The page table of the first instructions *)

(** [entrypgdir] maps the first four megabytes of memory at 0 and at KERNBASE. *)
Lemma entrypgdir_maps pa :
  0 <= pa < 0x400000 ->
  big_page (aget 0 entrypgdir (PDX pa)) pa = Some pa /\
  big_page (aget 0 entrypgdir (PDX (P2V pa))) (P2V pa) = Some pa.
Proof.
  intros H. assert (E : P2V pa = 512 * 2 ^ 22 + pa) by (unfold P2V, KERNBASE; rewrite u32_small; unfold is_u32; lia). rewrite E.
  assert (P : forall k, 0 <= k < 1024 -> PDX (k * 2 ^ 22 + pa) = k).
  { intros k Hk. unfold PDX, PDXSHIFT. rewrite Z.shiftr_div_pow2 by lia. rewrite Z.div_add_l, Z.div_small by lia.
    change 1023 with (Z.ones 10). rewrite Z.add_0_r, Z.land_ones by lia. apply Z.mod_small. lia. }
  assert (L : forall k, Z.land (k * 2 ^ 22 + pa) 4194303 = pa).
  { intros k. change 4194303 with (Z.ones 22). rewrite Z.land_ones by lia. rewrite Z.add_comm, Z_mod_plus_full. now apply Z.mod_small. }
  assert (G : forall k, k = 0 \/ k = 512 -> big_page (aget 0 entrypgdir (PDX (k * 2 ^ 22 + pa))) (k * 2 ^ 22 + pa) = Some pa).
  { intros k Hk. rewrite P by lia. unfold big_page. rewrite L. now destruct Hk as [-> | ->]. }
  split; [|apply G; now right]. replace pa with (0 * 2 ^ 22 + pa) at 1 2 by lia. apply G. now left.
Qed.

(** * Printing *)

(** The console can print: no processor has panicked and the cursor is on the screen. *)
Definition con_up (s : console) : Prop := panicked s = false /\ cga_ok (co_cga s).

Lemma wp_putc ch c s (Q : unit -> ctx -> console -> Prop) :
  con_up s -> (forall s', con_up s' -> locking s' = locking s -> Q tt c s') -> wp (consputc ch) Q c s.
Proof.
  intros [Hp Hg] HQ. apply wp_consputc; [done..|]. intros g Hg'. apply HQ.
  - split; cbn; [now rewrite sending_panicked|done].
  - unfold sending. now destruct (uart (co_uart s)).
Qed.

Lemma wp_puts l c s (Q : unit -> ctx -> console -> Prop) :
  con_up s -> (forall s', con_up s' -> locking s' = locking s -> Q tt c s') -> wp (for_ l consputc) Q c s.
Proof.
  revert s. induction l as [|ch l IH]; intros s Hs HQ; cbn [for_]; [now apply wp_ret, HQ|].
  apply wp_bind, wp_putc; [done|]. intros s1 H1 L1. apply IH; [done|]. intros s2 H2 L2. apply HQ; [done|congruence].
Qed.

Lemma wp_cprintf_from str n fmt args c s (Q : unit -> ctx -> console -> Prop) :
  (length fmt <= n)%nat -> con_up s -> (forall s', con_up s' -> locking s' = locking s -> Q tt c s') ->
  wp (cprintf_from str fmt args) Q c s.
Proof.
  revert fmt args s. induction n as [|n IH]; intros [|ch fmt] args s Hn Hs HQ; cbn [length cprintf_from] in *; try lia;
    [now apply wp_ret, HQ..|].
  assert (Hrest : forall m fmt' args', (length fmt' <= n)%nat ->
    (forall Q', (forall s', con_up s' -> locking s' = locking s -> Q' tt c s') -> wp m Q' c s) ->
    wp (m ;;; cprintf_from str fmt' args') Q c s).
  { intros m fmt' args' Hl Hm. apply wp_bind, Hm. intros s1 H1 L1. apply IH; [done|done|]. intros s2 H2 L2. apply HQ; [done|congruence]. }
  destruct (negb (ch =? 37)).
  { apply (Hrest (consputc ch)); [lia|]. intros Q' HQ'. now apply wp_putc. }
  destruct fmt as [|d fmt]; [now apply wp_ret, HQ|]. cbn [length] in Hn.
  destruct (d =? 100); [|destruct ((d =? 120) || (d =? 112)); [|destruct (d =? 115); [|destruct (d =? 37)]]].
  - apply Hrest; [lia|]. intros Q' HQ'. now apply wp_puts.
  - apply Hrest; [lia|]. intros Q' HQ'. now apply wp_puts.
  - apply Hrest; [lia|]. intros Q' HQ'. now apply wp_puts.
  - apply (Hrest (consputc 37)); [lia|]. intros Q' HQ'. now apply wp_putc.
  - apply wp_bind, wp_putc; [done|]. intros s1 H1 L1. apply wp_bind, wp_putc; [done|]. intros s2 H2 L2.
    apply IH; [lia|done|]. intros s3 H3 L3. apply HQ; [done|congruence].
Qed.

Lemma wp_cprintf str fmt args c s (Q : unit -> ctx -> console -> Prop) :
  con_up s -> LCons ∉ held c -> (forall s', con_up s' -> locking s' = locking s -> Q tt c s') ->
  wp (Console.cprintf str (Some fmt) args) Q c s.
Proof.
  intros Hs Hc HQ. unfold Console.cprintf. apply wp_bind, wp_gets. destruct (locking s) eqn:El; cbn [when].
  - apply wp_bind, wp_acquire; [done|]. apply wp_bind. apply (wp_cprintf_from _ (length fmt)); [lia|done|].
    intros s' H' L'. eapply wp_release; [reflexivity|]. destruct c. apply HQ; congruence.
  - apply wp_bind, wp_ret, wp_bind. apply (wp_cprintf_from _ (length fmt)); [lia|done|]. intros s' H' L'. apply wp_ret, HQ; congruence.
Qed.

(** The console of the whole state. *)
Definition con_of {D} (s : sys D) : console := io_con (ks_fs (sy_ks s)).
Definition set_scon {D} (v : console) (s : sys D) : sys D :=
  set_ks (set_fs (set_con v (ks_fs (sy_ks s))) (sy_ks s)) s.

Lemma wp_incon {D A} (m : M console A) (Q : A -> ctx -> sys D -> Prop) c s :
  wp m (fun a c' v => woken c' = [] /\ Q a c' (set_scon v s)) c (con_of s) -> wp (inks (incon m)) Q c s.
Proof.
  intros H. unfold inks, incon, lift, inio, zoom, wp in *. cbn. change (io_con (ks_fs (sy_ks s))) with (con_of s).
  destruct (m c (con_of s)) as [a [h w] v| | |]; cbn in *; try done. destruct H as [-> H]. cbn.
  destruct s as [[km hw' t n i tk f fs] d x1 x2 x3 x4 x5 x6 x7 x8]. exact H.
Qed.

Lemma wp_kprint {D} str fmt args (Q : unit -> ctx -> sys D -> Prop) c s :
  con_up (con_of s) -> LCons ∉ held c -> woken c = [] ->
  (forall v, con_up v -> Q tt c (set_scon v s)) -> wp (inks (kcprintf str fmt args)) Q c s.
Proof. intros Hs Hc Hw HQ. apply wp_incon, wp_cprintf; auto. Qed.

(** * What device code leaves alone *)

(** [m] reads and writes device registers only. *)
Class Devices_law (D S : Type) `{HasDev D S} : Prop := {
  dl_get d (s : S) : dev (set_devs d s) = d;
  dl_set d d' (s : S) : set_devs d (set_devs d' s) = set_devs d s;
  dl_same (s : S) : set_devs (dev s) s = s
}.

#[export] Instance boot_law {D} : Devices_law D (boot D).
Proof. split; [done|done|now intros []]. Qed.
#[export] Instance sys_law {D} : Devices_law D (sys D).
Proof. split; [done|done|now intros []]. Qed.
#[export] Instance ide_law {D} : Devices_law D (ide D).
Proof. split; [done|done|now intros []]. Qed.

Definition dev_only {D S A} `{HasDev D S} (m : M S A) : Prop :=
  forall c s, exists a d, m c s = Ret a c (set_devs d s).

Section DevOnly.
Context {D S : Type} `{IO D, Devices_law D S}.

Lemma dev_only_ret {A} (a : A) : dev_only (S := S) (ret a).
Proof. intros c s. exists a, (dev s). now rewrite dl_same. Qed.
Lemma dev_only_gets {A} (f : S -> A) : dev_only (gets f).
Proof. intros c s. exists (f s), (dev s). now rewrite dl_same. Qed.
Lemma dev_only_io {A} (f : D -> A * D) : dev_only (S := S) (io f).
Proof. intros c s. now exists (f (dev s)).1, (f (dev s)).2. Qed.
Lemma dev_only_out f : dev_only (S := S) (out f).
Proof. intros c s. now exists tt, (f (dev s)). Qed.
Lemma dev_only_bind {A B} (m : M S A) (f : A -> M S B) :
  dev_only m -> (forall a, dev_only (f a)) -> dev_only (bind m f).
Proof.
  intros Hm Hf c s. destruct (Hm c s) as (a & d & E). destruct (Hf a c (set_devs d s)) as (b & d' & E').
  exists b, d'. unfold bind. rewrite E. cbn. now rewrite E', dl_set.
Qed.
Lemma dev_only_when b (m : M S unit) : dev_only m -> dev_only (when b m).
Proof. intros Hm. destruct b; [done|apply dev_only_ret]. Qed.
Lemma dev_only_for {B} (l : list B) (f : B -> M S unit) : (forall b, dev_only (f b)) -> dev_only (for_ l f).
Proof. intros Hf. induction l as [|b l IH]; [apply dev_only_ret|]. apply dev_only_bind; auto. Qed.
Lemma dev_only_forb {A B} (l : list B) (f : B -> M S (option A)) k :
  (forall b, dev_only (f b)) -> dev_only k -> dev_only (forb l f k).
Proof.
  intros Hf Hk. induction l as [|b l IH]; [done|]. apply dev_only_bind; [done|]. intros [a|]; [apply dev_only_ret|done].
Qed.

Lemma wp_dev_only {A} (m : M S A) c s (Q : A -> ctx -> S -> Prop) :
  dev_only m -> (forall a d, Q a c (set_devs d s)) -> wp m Q c s.
Proof. intros Hm HQ. destruct (Hm c s) as (a & d & E). unfold wp. rewrite E. apply HQ. Qed.
End DevOnly.

Create HintDb devs.
Ltac dev_steps :=
  repeat first
    [ apply dev_only_ret | apply dev_only_gets | apply dev_only_io | apply dev_only_out
    | solve [auto with devs]
    | apply dev_only_bind; [|intros ?]
    | apply dev_only_when | apply dev_only_for; intros ? | apply dev_only_forb; [intros ?|]
    | lazymatch goal with |- dev_only (if ?b then _ else _) => destruct b end
    | lazymatch goal with |- dev_only (match ?b with _ => _ end) => destruct b end ].

(** * The stages of main *)

Section Boots.
Context {D : Type} `{IO D} {fuel : Fuel}.
Variable spins : nat.

(** The local APIC is mapped at [lap]; [bsp] is the identifier that the processor
    that runs [main] reads from it. *)
Variables lap bsp : Z.
Hypothesis lap_nz : lap <> 0.
Hypothesis lapic_id : forall d, Z.shiftr (mmio_ld (lap + 4 * L_ID) d).1 24 = bsp.

(** Within [n] reads the command is seen to be delivered, the disk to be ready. *)
Fixpoint delivers (n : nat) (d : D) : Prop :=
  match n with
  | O => False
  | S n' => let r := mmio_ld (lap + 4 * ICRLO) d in Z.land r.1 DELIVS = 0 \/ delivers n' r.2
  end.
Hypothesis lapic_delivers : forall d, delivers spins d.
Fixpoint readies (n : nat) (d : D) : Prop :=
  match n with
  | O => False
  | S n' => let r := inb 0x1f7 d in Z.land r.1 (Z.lor IDE_BSY IDE_DRDY) = IDE_DRDY \/ readies n' r.2
  end.
Hypothesis disk_readies : forall d, readies spins d.

Definition c0 : ctx := Ctx [] [].

(** [s'] is [s] but for the devices, the screen and the segment and interrupt
    registers. *)
Definition with_hw (h : hw) (s : sys D) : sys D := set_ks (set_hw h (sy_ks s)) s.
Definition like (s s' : sys D) : Prop :=
  exists d v h b, con_up v /\ h_cr3 h = h_cr3 (ks_hw (sy_ks s)) /\ s' = set_disk1 b (set_dev d (set_scon v (with_hw h s))).

Lemma like_dev d s : con_up (con_of s) -> like s (set_dev d s).
Proof. intros Hc. exists d, (con_of s), (ks_hw (sy_ks s)), (sy_havedisk1 s). split; [done|]. split; [done|]. now destruct s as [[? ? ? ? ? ? ? []]]. Qed.
Lemma like_refl s : con_up (con_of s) -> like s s.
Proof. intros Hc. pose proof (like_dev (sy_dev s) s Hc) as L. now destruct s. Qed.
Lemma like_con v s : con_up v -> like s (set_scon v s).
Proof. intros Hc. exists (sy_dev s), v, (ks_hw (sy_ks s)), (sy_havedisk1 s). split; [done|]. split; [done|]. now destruct s as [[? ? ? ? ? ? ? []]]. Qed.
Lemma like_hw h s : con_up (con_of s) -> h_cr3 h = h_cr3 (ks_hw (sy_ks s)) -> like s (with_hw h s).
Proof. intros Hc E. exists (sy_dev s), (con_of s), h, (sy_havedisk1 s). split; [done|]. split; [done|]. now destruct s as [[? ? ? ? ? ? ? []]]. Qed.
Lemma like_trans s s1 s2 : like s s1 -> like s1 s2 -> like s s2.
Proof.
  intros (d & v & h & b & Hv & Eh & ->) (d' & v' & h' & b' & Hv' & Eh' & ->). exists d', v', h', b'. split; [done|]. split; [exact (eq_trans Eh' Eh)|].
  now destruct s as [[? ? ? ? ? ? ? []]].
Qed.
Lemma like_con_up s s' : like s s' -> con_up (con_of s').
Proof. now intros (d & v & h & b & Hv & _ & ->). Qed.

(** The processor that runs is [me]. *)
Record cpu_is (me : nat) (s : sys D) : Prop := {
  ci_lapic : sy_lapic s = lap;
  ci_ncpu : (me < Z.to_nat (sy_ncpu s))%nat;
  ci_id : default 0 (sy_apicids s !! me) = bsp;
  ci_first i : (i < me)%nat -> default 0 (sy_apicids s !! i) <> bsp
}.
Lemma cpu_is_like me s s' : cpu_is me s -> like s s' -> cpu_is me s'.
Proof. intros [] (d & v & h & b & _ & _ & ->). now split. Qed.

Lemma dev_only_lapicr i : dev_only (lapicr (D := D) i).
Proof. unfold lapicr. dev_steps. Qed.
#[local] Hint Resolve dev_only_lapicr : devs.
Lemma dev_only_lapicw i v : dev_only (lapicw (D := D) i v).
Proof. unfold lapicw. dev_steps. Qed.
#[local] Hint Resolve dev_only_lapicw : devs.

(** [mycpu()]. *)
Lemma wp_mycpu_is me s (Q : nat -> ctx -> sys D -> Prop) :
  cpu_is me s -> (forall d, Q me c0 (set_dev d s)) -> wp (mycpu (D := D)) Q c0 s.
Proof.
  intros [Hl Hn Hi Hf] HQ. unfold mycpu. apply wp_bind. unfold inboot. apply wp_zoom. unfold lapicid.
  apply wp_bind, wp_gets. change (lapic (to_boot s)) with (sy_lapic s). rewrite Hl.
  destruct (Z.eqb_spec lap 0) as [|_]; [done|]. apply wp_bind. unfold lapicr. apply wp_bind, wp_gets. change (lapic (to_boot s)) with (sy_lapic s).
  rewrite Hl. apply wp_io, wp_ret. rewrite lapic_id. set (d := (mmio_ld _ _).2).
  replace (from_boot (set_devs d (to_boot s)) s) with (set_dev d s) by now destruct s as [[[] ? ? ? ? ? ? ?]].
  apply wp_bind, wp_get. cbn [sy_ncpu sy_apicids set_dev].
  assert (G : forall n k, (k + n = Z.to_nat (sy_ncpu s))%nat -> (k <= me)%nat ->
    wp (forb (seq k n) (fun i => if default 0 (sy_apicids s !! i) =? bsp then ret (Some i) else ret None)
         (panic (S := sys D) "unknown apicid")) Q c0 (set_dev d s)).
  { induction n as [|n IH]; intros k Hk Hm; [lia|]. cbn [seq forb]. apply wp_bind.
    destruct (Z.eqb_spec (default 0 (sy_apicids s !! k)) bsp) as [E|E]; apply wp_ret.
    - assert (k = me) as ->; [|apply wp_ret, HQ]. destruct (Nat.lt_ge_cases k me) as [Hlt|]; [|lia]. now apply Hf in Hlt.
    - apply IH; [lia|]. assert (k <> me) by (intros ->; done). lia. }
  apply (G _ 0%nat); lia.
Qed.

Lemma wp_wait_delivered n b (Q : unit -> ctx -> boot D -> Prop) :
  lapic b = lap -> delivers n (bt_dev b) -> (forall d, Q tt c0 (set_devs d b)) -> wp (wait_delivered n) Q c0 b.
Proof.
  revert b. induction n as [|n IH]; intros b Hl Hd HQ; [done|]. cbn [wait_delivered delivers] in *. apply wp_bind.
  unfold lapicr. apply wp_bind, wp_gets. rewrite Hl. apply wp_io. change (dev b) with (bt_dev b).
  set (r := mmio_ld (lap + 4 * ICRLO) (bt_dev b)) in *.
  destruct (Z.eqb_spec (Z.land r.1 DELIVS) 0) as [|Hne]; cbn [negb]; [apply wp_ret, HQ|].
  apply IH; [done|now destruct Hd|]. intros d. rewrite dl_set. apply HQ.
Qed.

Ltac dev_op := apply wp_bind, wp_dev_only; [solve [dev_steps]|intros _ ?; cbn beta; rewrite ?dl_set].

Lemma wp_lapicinit s (Q : unit -> ctx -> sys D -> Prop) :
  sy_lapic s = lap -> (forall d, Q tt c0 (set_dev d s)) -> wp (inboot (lapicinit spins)) Q c0 s.
Proof.
  intros Hl HQ. unfold inboot. apply wp_zoom. set (b := to_boot s).
  assert (HQ' : forall d, Q tt c0 (from_boot (set_devs d b) s)).
  { intros d. specialize (HQ d). now destruct s as [[[] ? ? ? ? ? ? ?]]. }
  assert (Hb : lapic b = lap) by exact Hl. generalize dependent b. clear Hl. intros b HQ' Hb.
  unfold lapicinit. apply wp_bind, wp_gets. rewrite Hb. destruct (Z.eqb_spec lap 0) as [|_]; [done|].
  do 6 dev_op. apply wp_bind, wp_dev_only; [dev_steps|]. intros ver dv. rewrite dl_set. do 7 dev_op.
  apply wp_bind, wp_wait_delivered; [done|apply lapic_delivers|]. intros dw. rewrite dl_set. apply wp_dev_only; [dev_steps|].
  intros [] dx. rewrite dl_set. apply HQ'.
Qed.

(** A stage that returns in a state like the one it began in. *)
Definition stage (m : M (sys D) unit) (s : sys D) : Prop := wp m (fun _ c' s' => c' = c0 /\ like s s') c0 s.

Lemma wp_stage m s (Q : unit -> ctx -> sys D -> Prop) :
  stage m s -> (forall s', like s s' -> Q tt c0 s') -> wp m Q c0 s.
Proof. intros Hm HQ. eapply wp_mono; [exact Hm|]. intros [] c' s' [-> L]. now apply HQ. Qed.

Lemma stage_bind {A} (m : M (sys D) A) (f : A -> M (sys D) unit) s :
  con_up (con_of s) -> (forall Q : A -> ctx -> sys D -> Prop, (forall a s', like s s' -> Q a c0 s') -> wp m Q c0 s) ->
  (forall a s', like s s' -> stage (f a) s') -> stage (bind m f) s.
Proof.
  intros Hc Hm Hf. unfold stage. apply wp_bind, Hm. intros a s' L. eapply wp_stage; [now apply Hf|].
  intros s2 L2. split; [done|]. now apply (like_trans _ s').
Qed.

Lemma wp_dev_like {A} (m : M (sys D) A) s (Q : A -> ctx -> sys D -> Prop) :
  con_up (con_of s) -> dev_only m -> (forall a s', like s s' -> Q a c0 s') -> wp m Q c0 s.
Proof. intros Hc Hm HQ. apply wp_dev_only; [done|]. intros a d. apply HQ. now apply like_dev. Qed.

Lemma stage_dev (m : M (sys D) unit) s : con_up (con_of s) -> dev_only m -> stage m s.
Proof. intros Hc Hm. apply wp_dev_like; auto. Qed.

Lemma stage_lapicinit s : con_up (con_of s) -> sy_lapic s = lap -> stage (inboot (lapicinit spins)) s.
Proof. intros Hc Hl. apply wp_lapicinit; [done|]. intros d. split; [done|]. now apply like_dev. Qed.

Lemma wp_mycpu_like me s (Q : nat -> ctx -> sys D -> Prop) :
  con_up (con_of s) -> cpu_is me s -> (forall s', like s s' -> Q me c0 s') -> wp (mycpu (D := D)) Q c0 s.
Proof. intros Hc Hm HQ. apply (wp_mycpu_is me); [done|]. intros d. apply HQ. now apply like_dev. Qed.

Lemma wp_inregs f s (Q : unit -> ctx -> sys D -> Prop) : Q tt c0 (with_hw (f (ks_hw (sy_ks s))) s) -> wp (inregs f) Q c0 s.
Proof. intros HQ. unfold inregs, inks. now apply wp_zoom, wp_modify. Qed.

Lemma stage_inregs f s : con_up (con_of s) -> (forall h, h_cr3 (f h) = h_cr3 h) -> stage (inregs f) s.
Proof. intros Hc Hf. apply wp_inregs. split; [done|]. now apply like_hw. Qed.

Lemma stage_seginit gdt_addr me s : con_up (con_of s) -> cpu_is me s -> stage (seginit_cpu gdt_addr) s.
Proof.
  intros Hc Hm. apply stage_bind; [done| |].
  - intros Q HQ. apply (wp_mycpu_like me); auto.
  - intros a s' L. apply stage_inregs; [now apply (like_con_up s)|done].
Qed.

Lemma stage_print fmt args s : con_up (con_of s) -> stage (inks (kcprintf no_str fmt args)) s.
Proof. intros Hc. apply wp_kprint; [done|apply not_elem_of_nil|done|]. intros v Hv. split; [done|]. now apply like_con. Qed.

Lemma dev_only_ioapicwrite r v : dev_only (S := sys D) (ioapicwrite r v).
Proof. unfold ioapicwrite. dev_steps. Qed.
#[local] Hint Resolve dev_only_ioapicwrite : devs.
Lemma dev_only_ioapicenable i n : dev_only (S := sys D) (ioapicenable i n).
Proof. unfold ioapicenable. dev_steps. Qed.
#[local] Hint Resolve dev_only_ioapicenable : devs.
Lemma dev_only_ioapicinit id : dev_only (S := sys D) (ioapicinit id).
Proof. unfold ioapicinit, ioapicread. dev_steps. Qed.

Lemma stage_picinit s : con_up (con_of s) -> stage picinit s.
Proof. intros Hc. apply stage_dev; [done|]. unfold picinit. dev_steps. Qed.

Lemma stage_ioapicinit s : con_up (con_of s) -> stage ioapicinit_print s.
Proof.
  intros Hc. unfold ioapicinit_print. apply stage_bind; [done| |].
  { intros Q HQ. apply wp_gets, HQ. now apply like_refl. }
  intros id s1 L1. pose proof (like_con_up _ _ L1) as C1. apply stage_bind; [done| |].
  { intros Q HQ. apply wp_dev_like; [done|apply dev_only_ioapicinit|done]. }
  intros [] s2 L2; cbn [when]; [now apply stage_print, (like_con_up s1)|]. apply wp_ret. split; [done|].
  now apply like_refl, (like_con_up s1).
Qed.

Lemma stage_ret s : con_up (con_of s) -> stage (ret tt) s.
Proof. intros Hc. apply wp_ret. split; [done|]. now apply like_refl. Qed.

Lemma stage_initlock lk s : con_up (con_of s) -> stage (initlock lk) s.
Proof. intros Hc. split; [done|]. now apply like_refl. Qed.

Lemma stage_seq (m m' : M (sys D) unit) s : stage m s -> (forall s', like s s' -> stage m' s') -> stage (m ;;; m') s.
Proof.
  intros Hm Hm'. unfold stage. apply wp_bind. eapply wp_stage; [exact Hm|]. intros s1 L1.
  eapply wp_stage; [now apply Hm'|]. intros s2 L2. split; [done|]. now apply (like_trans _ s1).
Qed.

Lemma stage_consoleinit s : con_up (con_of s) -> stage consoleinit_dev s.
Proof.
  intros Hc. apply stage_seq; [now apply stage_initlock|]. intros s1 L1. pose proof (like_con_up _ _ L1) as C1. apply stage_seq.
  - apply wp_incon, wp_modify. split; [done|]. split; [done|]. apply like_con. exact C1.
  - intros s2 L2. apply stage_dev; [now apply (like_con_up s1)|]. dev_steps.
Qed.

Lemma stage_uartinit s : con_up (con_of s) -> stage uartinit_dev s.
Proof.
  intros Hc. unfold uartinit_dev.
  do 7 (apply stage_seq; [apply stage_dev; [assumption|dev_steps]|]; clear Hc; let s' := fresh "s" in let L := fresh in
    intros s' L; pose proof (like_con_up _ _ L) as Hc; clear L).
  apply stage_bind; [done|intros Q HQ; apply wp_dev_like; [done|dev_steps|done]|]. intros r s8 L8. pose proof (like_con_up _ _ L8) as C8.
  destruct (r =? 0xFF); [now apply stage_ret|].
  apply stage_bind; [done|intros Q HQ; apply wp_dev_like; [done|dev_steps|done]|]. intros _ s9 L9. pose proof (like_con_up _ _ L9) as C9.
  apply stage_bind; [done|intros Q HQ; apply wp_dev_like; [done|dev_steps|done]|]. intros _ s10 L10. pose proof (like_con_up _ _ L10) as C10.
  apply stage_seq; [apply stage_dev; [done|dev_steps]|]. intros s11 L11. pose proof (like_con_up _ _ L11) as C11.
  apply wp_incon. unfold uartinit. cbn [when]. apply wp_bind, wp_modify.
  set (v := set_uart _ _). assert (Hv : con_up v) by exact C11. clearbody v.
  enough (G : forall l v', con_up v' -> wp (for_ l uartputc) (fun (_ : unit) c' (w : console) => woken c' = [] /\ c' = c0 /\ like s11 (set_scon w s11)) c0 v')
    by now apply G.
  induction l as [|ch l IH]; intros v' Hv'; cbn [for_]; [apply wp_ret; split; [done|]; split; [done|]; now apply like_con|].
  apply wp_bind, wp_uartputc, IH. destruct Hv'. split; [now rewrite sending_panicked|now rewrite sending_cga].
Qed.

Lemma like_disk1 b d s : con_up (con_of s) -> like s (set_disk1 b (set_dev d s)).
Proof. intros Hc. exists d, (con_of s), (ks_hw (sy_ks s)), b. split; [done|]. split; [done|]. now destruct s as [[? ? ? ? ? ? ? []]]. Qed.

Lemma wp_idewait_ready n e (i : ide D) (Q : Z -> ctx -> ide D -> Prop) :
  readies n (idev i) -> (forall r d, Q r c0 (set_devs d i)) -> wp (idewait_from n e) Q c0 i.
Proof.
  revert i. induction n as [|n IH]; intros i Hr HQ; [done|]. cbn [idewait_from readies] in *. apply wp_bind, wp_io.
  change (dev i) with (idev i). set (r := inb 0x1f7 (idev i)) in *.
  destruct (Z.eqb_spec (Z.land r.1 (Z.lor IDE_BSY IDE_DRDY)) IDE_DRDY) as [|Hne]; cbn [negb].
  - destruct (_ && _); apply wp_ret, HQ.
  - apply IH; [now destruct Hr|]. intros v d. rewrite dl_set. apply HQ.
Qed.

Lemma dev_only_ioapicenable_ide i n : dev_only (S := ide D) (ioapicenable i n).
Proof. unfold ioapicenable, ioapicwrite. dev_steps. Qed.

(** The driver is [i] but for the device and the flag for the second disk. *)
Definition ide_like (i i' : ide D) : Prop := exists b d, i' = set_havedisk1 b (set_devs d i).

Lemma wp_ideinit n (i : ide D) (Q : unit -> ctx -> ide D -> Prop) :
  (forall i', ide_like i i' -> Q tt c0 i') -> wp (ideinit spins n) Q c0 i.
Proof.
  intros HQ. unfold ideinit. apply wp_bind, wp_dev_only; [apply dev_only_ioapicenable_ide|]. intros _ d1.
  apply wp_bind. unfold idewait. apply wp_idewait_ready; [apply disk_readies|]. intros r d2. rewrite dl_set.
  apply wp_bind, wp_out. rewrite dl_set. generalize (outb 502 (Z.lor 224 (1 ≪ 4)) (dev (set_devs d2 i))). intros d3. apply wp_bind.
  assert (G : forall (l : list Z) d, wp (forb l (fun _ => let* r := io (inb 0x1f7) in
      if negb (r =? 0) then modify (set_havedisk1 true) ;;; ret (Some tt) else ret None) (ret tt))
      (fun _ c' i' => c' = c0 /\ ide_like i i') c0 (set_devs d i)).
  { induction l as [|x l IH]; intros d; cbn [forb]; [apply wp_ret; split; [done|]; exists (havedisk1 i), d; now destruct i|].
    apply wp_bind, wp_bind, wp_io. rewrite dl_set. destruct (negb _); [|apply wp_ret, IH].
    apply wp_bind, wp_modify, wp_ret, wp_ret. split; [done|]. now eexists true, _. }
  eapply wp_mono; [apply G|]. intros _ c' i' (-> & b & d & ->). apply wp_out, HQ. exists b. eexists. now destruct i.
Qed.

Lemma stage_ideinit n s : con_up (con_of s) -> stage (initlock LIde ;;; inide (ideinit spins n)) s.
Proof.
  intros Hc. apply stage_seq; [now apply stage_initlock|]. intros s1 L1. unfold stage, inide. apply wp_zoom, wp_ideinit.
  intros i' (b & d & ->). split; [done|]. pose proof (like_con_up _ _ L1) as C1.
  exact (like_disk1 b d s1 C1).
Qed.

End Boots.
