(* ===== verification/MainBoot.v ===== *)
(** The start of the whole machine: [main] on the first processor, with the other
    processors starting in [mpenter] when [startothers] tells them to, reaches
    the scheduler with memory accounted for and the first process ready. *)
From S2P Require Import Prelude Monad Mem Mmu Cstring Kalloc Vm Hw Uvm Space Forkvm FileIface Proc Signal Sysproc Spinlock.
From S2P Require Import Trap Ring Pipe Sleeplock Disk Ports Boot Ide Bio Log Fs FsData Digits Kbd Console ConsoleProps File.
From S2P Require Import Refs Kfile Exec Sysfile RefsFile RefsProc Kernel FirstProc Main MainProps.

Import Monad Proc.

(** * Code that waits for others *)

(** The outcome ends in [Q] when, wherever it waits, the others can take a step of
    [R], and it goes on after any such step. *)
Inductive ends {S A} (R : S -> S -> Prop) (Q : A -> ctx -> S -> Prop) : outcome S A -> Prop :=
| ends_ret a c s : Q a c s -> ends R Q (Ret a c s)
| ends_wait ch w s k : (exists s', R s s') -> (forall s', R s s' -> ends R Q (k s')) -> ends R Q (Sleep ch w s k).

Section Ends.
Context {S : Type}.
Variable R : S -> S -> Prop.

Lemma ends_then {A B} (f : A -> M S B) Q o :
  ends R (fun a c s => ends R Q (f a c s)) o -> ends R Q (obind o f).
Proof. induction 1 as [a c s H|ch w s k Hex _ IH]; [done|]. now apply ends_wait. Qed.

Lemma ends_mono {A} (Q Q' : A -> ctx -> S -> Prop) o : ends R Q o -> (forall a c s, Q a c s -> Q' a c s) -> ends R Q' o.
Proof. induction 1; intros; [apply ends_ret|apply ends_wait]; auto. Qed.

Lemma wp_ends {A} (m : M S A) Q c s : wp m Q c s -> ends R Q (m c s).
Proof. unfold wp. destruct (m c s); try done. apply ends_ret. Qed.

(** Code that does not wait, and then code that may. *)
Lemma ends_step {A B} (m : M S A) (f : A -> M S B) Q c s :
  wp m (fun a c' s' => ends R Q (f a c' s')) c s -> ends R Q (bind m f c s).
Proof. intros H. apply ends_then. now apply wp_ends. Qed.
End Ends.

(** * Memory that the code of the start writes *)

Section Low.
Variable kend : Z.

(** Only memory below the kernel is written. *)
Definition low_only (m m' : mem) : Prop := forall b, KERNLINK <= b -> ld m' b = ld m b.

Lemma low_only_trans m m1 m2 : low_only m m1 -> low_only m1 m2 -> low_only m m2.
Proof. intros H1 H2 b Hb. now rewrite H2, H1. Qed.

Lemma low_only_sts m a bs : a + Z.of_nat (length bs) <= KERNLINK -> low_only m (sts m a bs).
Proof. intros H b Hb. apply ld_sts_ne. lia. Qed.

Lemma low_word m m' q i : low_only m m' -> KERNLINK <= kend -> page_ok kend q -> 0 <= i < 1024 -> ld32 m' (q + 4 * i) = ld32 m (q + 4 * i).
Proof. intros H Hk (_ & Hq & _) Hi. apply ld32_ext. intros j Hj. apply H. lia. Qed.

Lemma low_kmem k l f : kmem_ok kend k l -> KERNLINK <= kend -> low_only (k_mem k) (f (k_mem k)) -> kmem_ok kend (set_mem f k) l.
Proof.
  intros (Hch & Hpg & Hnd) Hk H. split; [|done]. eapply chain_ext; [exact Hch|]. intros x Hx. rewrite Forall_forall in Hpg.
  replace x with (x + 4 * 0) by lia. apply low_word; auto. lia.
Qed.

Lemma low_uvm m m' d l :
  uvm_ok kend m d l -> KERNLINK <= kend -> low_only m m' ->
  uvm_ok kend m' d l /\ (forall va, pte_val m' d va = pte_val m d va) /\ space_pages m' d = space_pages m d.
Proof.
  intros Hok Hk H. pose proof (um_dir _ _ _ _ Hok) as Hd.
  assert (Epde : forall i, 0 <= i < 1024 -> pde_at m' d i = pde_at m d i) by (intros i Hi; apply low_word; auto; apply Hd).
  assert (Epte : forall va, pte_val m' d va = pte_val m d va).
  { intros va. unfold pte_val. rewrite Epde by apply PDX_range. destruct (present (pde_at m d (PDX va))) eqn:Hp; [|done].
    apply low_word; auto using PTX_range. now destruct (po_tab _ _ _ _ Hd _ (PDX_range va) Hp). }
  split; [|split; [done|]].
  - apply (uvm_ok_ext kend m _ _ l); [done|done| |auto]. intros va Hva. rewrite Epte. intros Hpr. split; [done|].
    now destruct (um_page _ _ _ _ Hok va Hva Hpr) as [_ (_ & Hn & _)].
  - unfold space_pages. now rewrite (tables_ext m m' d 1024 ltac:(lia) Epde), (upages_same m m' d 0 _ Epte).
Qed.
End Low.

(** * The state between the steps of main *)

(** The tables of the kernel that are not in the memory of pages. *)
Record tabs : Type := Tabs {
  t_procs : list proc;
  t_nextpid : Z;
  t_files : list file;
  t_inodes : list inode;
  t_bufs : bst;
  t_idt : list gatedesc;
  t_started : list Z
}.

Definition tabs_of {D} (s : sys D) : tabs :=
  let k := sy_ks s in
  Tabs (ptable k) (nextpid k) (ftable (ks_fs k)) (icache (io_fs (ks_fs k))) (lg_bio (fs_log (io_fs (ks_fs k)))) (sy_idt s) (sy_started s).

Lemma like_tabs {D} (s s' : sys D) : like s s' -> tabs_of s' = tabs_of s.
Proof. now intros (d & v & h & b & _ & _ & ->). Qed.
Lemma like_km {D} (s s' : sys D) : like s s' -> ks_km (sy_ks s') = ks_km (sy_ks s).
Proof. now intros (d & v & h & b & _ & _ & ->). Qed.
Lemma like_cr3 {D} (s s' : sys D) : like s s' -> h_cr3 (ks_hw (sy_ks s')) = h_cr3 (ks_hw (sy_ks s)).
Proof. now intros (d & v & h & b & _ & E & ->). Qed.
Lemma like_kpgdir {D} (s s' : sys D) : like s s' -> sy_kpgdir s' = sy_kpgdir s.
Proof. now intros (d & v & h & b & _ & _ & ->). Qed.

Section Up.
Context {D : Type}.
Variables kend kdata : Z.
(** Memory as the boot loader left it, and the processors of the machine. *)
Variable m0 : mem.
Variables (lap : Z) (ids : list Z).

(** The processors are registered. *)
Record cpus (s : sys D) : Prop := {
  cp_lapic : sy_lapic s = lap;
  cp_ncpu : sy_ncpu s = Z.of_nat (length ids);
  cp_ids : take (length ids) (sy_apicids s) = ids
}.

Lemma cpus_is i id s : NoDup ids -> cpus s -> ids !! i = Some id -> cpu_is lap id i s.
Proof.
  intros Hnd [H1 H2 H3] Hi. assert (E : forall j x, ids !! j = Some x -> sy_apicids s !! j = Some x).
  { intros j x Hj. rewrite <- H3 in Hj. apply lookup_take_Some in Hj. apply Hj. }
  split; [done| | |].
  - rewrite H2, Nat2Z.id. now apply lookup_lt_Some in Hi.
  - now rewrite (E i id).
  - intros j Hj. apply lookup_lt_Some in Hi as Hl. destruct (lookup_lt_is_Some_2 ids j) as [x Hx]; [lia|].
    rewrite (E j x) by done. cbn. intros ->. apply (NoDup_lookup ids j i id) in Hnd; auto. lia.
Qed.

Lemma cpus_like s s' : cpus s -> like s s' -> cpus s'.
Proof. intros [] (d & v & h & b & _ & _ & ->). now split. Qed.

(** [K] is the kernel's page table, [stacks] are the stacks of the other processors,
    [l] is the free list: together they are the pages [pool]. *)
Record up (pool : list Z) (K : Z) (stacks l : list Z) (t : tabs) (s : sys D) : Prop := {
  up_con : con_up (con_of s);
  up_tabs : tabs_of s = t;
  up_kmem : kmem_ok kend (ks_km (sy_ks s)) l;
  up_kpgdir : sy_kpgdir s = K;
  up_cr3 : h_cr3 (ks_hw (sy_ks s)) = V2P K;
  up_uvm : uvm_ok kend (sy_mem s) K l;
  up_pte va : is_u32 va -> pte_val (sy_mem s) K va = kvm_pte kdata va;
  up_pool : stacks ++ space_pages (sy_mem s) K ++ l ≡ₚ pool;
  up_code b : KERNLINK <= b < kend -> ld (sy_mem s) b = ld m0 b
}.

Lemma up_like pool K stacks l t s s' : up pool K stacks l t s -> like s s' -> up pool K stacks l t s'.
Proof.
  intros [] L. pose proof (like_km _ _ L) as E. unfold sy_mem in *. split; unfold sy_mem; rewrite ?E; auto.
  - exact (like_con_up _ _ L).
  - now rewrite (like_tabs s).
  - now rewrite (like_kpgdir s).
  - now rewrite (like_cr3 s).
Qed.

(** A write below the kernel. *)
Lemma up_low pool K stacks l t s f :
  KERNLINK <= kend -> low_only (sy_mem s) (f (sy_mem s)) -> up pool K stacks l t s -> up pool K stacks l t (smem f s).
Proof.
  intros Hk Hlow [Hc Ht Hkm Hkp Hcr Hu Hp Hpool Hcode]. destruct (low_uvm kend _ _ K l Hu Hk Hlow) as (U & Epte & Esp).
  split; [exact Hc|exact Ht|now apply low_kmem|exact Hkp|exact Hcr|exact U| | |]; change (sy_mem (smem f s)) with (f (sy_mem s)).
  - intros va Hva. rewrite Epte. auto.
  - now rewrite Esp.
  - intros b Hb. rewrite Hlow by lia. auto.
Qed.

End Up.

(** * Memory, the kernel's page table and the processors *)

Definition with_km {D} (k : kmem) (s : sys D) : sys D := set_ks (set_km k (sy_ks s)) s.

Lemma wp_inkm_sys {D A} (m : M kmem A) (Q : A -> ctx -> sys D -> Prop) c s :
  wp m (fun a c' k' => Q a c' (with_km k' s)) c (ks_km (sy_ks s)) -> wp (inks (inkm m)) Q c s.
Proof. intros H. unfold inks, inkm. now apply wp_zoom, wp_zoom. Qed.

(** What the firmware leaves in memory: the processor table at [conf], with the
    entries [es], below the end of the kernel at [top]. *)
Record firmware (top : Z) (m : mem) (conf mp : Z) (es : list mpentry) : Prop := {
  fw_ebda : 0 < ebda m /\ KERNBASE + ebda m + 1024 <= top;
  fw_conf : mpconfig m = Some (Some (conf, mp));
  fw_table : table_at m conf es;
  fw_length : le_val (lds m (conf + MPC_length) 2) = sizeof_mpconf + Z.of_nat (length (concat (enc <$> es)));
  fw_mp : mp + sizeof_mp <= top;
  fw_low : 0 <= conf /\ conf + sizeof_mpconf + Z.of_nat (length (concat (enc <$> es))) <= top
}.

Definition fw_ids (es : list mpentry) : list Z := take NCPU (concat (proc_id <$> es)).

Lemma firmware_ext top m m' conf mp es :
  KERNLINK <= top -> top < 4294967280 -> (forall b, b < top -> ld m' b = ld m b) -> firmware top m conf mp es ->
  mpconfig m' = Some (Some (conf, mp)) /\ table_at m' conf es /\
  le_val (lds m' (conf + MPC_length) 2) = sizeof_mpconf + Z.of_nat (length (concat (enc <$> es))) /\
  ld32 m' (conf + MPC_lapicaddr) = ld32 m (conf + MPC_lapicaddr).
Proof.
  intros Hk Ht Hag [[E1 E2] Hc [Hok Htab] Hlen Hmp [Hlo Hhi]]. unfold sizeof_mpconf in *.
  assert (L : forall a n, a + Z.of_nat n <= top -> lds m' a n = lds m a n) by (intros a n Ha; apply lds_ext; intros i Hi; apply Hag; lia).
  split; [|split; [|split]].
  - apply (mpconfig_ext top m); auto; unfold sizeof_mpconf; lia.
  - split; [done|]. rewrite L; [done|unfold sizeof_mpconf; lia].
  - rewrite L; [done|unfold MPC_length; lia].
  - unfold ld32. rewrite L; [done|unfold MPC_lapicaddr; lia].
Qed.

Section Memory.
Context {D : Type}.
Variables kend kdata : Z.
Local Abbreviation c0 := (Ctx [] []).

Definition MEG4 : Z := P2V (4 * 1024 * 1024).
(** The pages that [kinit1] and [kinit2] free. *)
Definition heap1 : list Z := reverse (pages_from (PGROUNDUP kend) (Z.to_nat ((MEG4 - PGROUNDUP kend) / PGSIZE))).
Definition heap2 : list Z := reverse (pages_from MEG4 (Z.to_nat ((P2V PHYSTOP - MEG4) / PGSIZE))).

(** The kernel lies in the first four megabytes, with room behind it. *)
Definition layout : Prop := KERNLINK <= kend /\ kend + 4095 < MEG4 /\ kdata_ok kdata.

Lemma kend_round : layout -> kend <= PGROUNDUP kend <= kend + 4095.
Proof.
  intros (H1 & H2 & _). change MEG4 with 2151677952 in H2. unfold KERNLINK, EXTMEM, KERNBASE in H1.
  rewrite PGROUNDUP_eq by lia. unfold PGSIZE. Z.to_euclidean_division_equations. lia.
Qed.

Lemma wp_kinit1_sys s (Q : unit -> ctx -> sys D -> Prop) :
  layout -> k_freelist (ks_km (sy_ks s)) = 0 ->
  (forall k, kmem_ok kend k heap1 -> k_use_lock k = false -> (forall b, b < kend -> ld (k_mem k) b = ld (sy_mem s) b) -> Q tt c0 (with_km k s)) ->
  wp (inks (inkm (kinit1 kend kend (P2V (4 * 1024 * 1024))))) Q c0 s.
Proof.
  intros HL Hfl HQ. pose proof (kend_round HL) as Hr. destruct HL as (H1 & H2 & _). apply wp_inkm_sys. unfold kinit1. apply wp_bind, wp_modify.
  eapply wp_mono; [apply (freerange_spec kend kend MEG4 [])|].
  - split; [exact Hfl|]. split; constructor.
  - apply not_elem_of_nil.
  - unfold KERNLINK, EXTMEM in *. lia.
  - lia.
  - lia.
  - done.
  - intros p Hp. now apply elem_of_nil in Hp.
  - cbn beta. intros [] c' k (-> & Hk & Hu & Hm). rewrite app_nil_r in Hk. apply HQ; [done|done|]. intros b Hb. apply Hm. lia.
Qed.

Lemma wp_kvmalloc s (Q : unit -> ctx -> sys D -> Prop) :
  layout -> con_up (con_of s) -> kmem_ok kend (ks_km (sy_ks s)) heap1 -> (kvm_pages <= length heap1)%nat ->
  (forall K l s', up kend kdata (sy_mem s) heap1 K [] l (tabs_of s) s' -> (forall b, b < kend -> ld (sy_mem s') b = ld (sy_mem s) b) ->
     k_use_lock (ks_km (sy_ks s')) = k_use_lock (ks_km (sy_ks s)) -> sy_apicids s' = sy_apicids s -> sy_ncpu s' = sy_ncpu s ->
     length heap1 = (kvm_pages + length l)%nat -> Q tt c0 s') ->
  wp (kvmalloc kdata kend) Q c0 s.
Proof.
  intros HL Hc Hk Hlen HQ. destruct HL as (H1 & H2 & Hkd). unfold kvmalloc. apply wp_bind, wp_inkm_sys.
  eapply wp_mono; [apply (wp_setupkvm kend kdata _ heap1 c0); [done|apply not_elem_of_nil|done]|].
  intros K c' k P. assert (c' = c0) as -> by exact (proj1 P). destruct (setupkvm_new _ _ _ _ _ _ _ _ P Hlen) as [l N].
  apply wp_bind, wp_modify, wp_inregs.
  assert (Hlow : forall b, b < kend -> ld (k_mem k) b = ld (sy_mem s) b).
  { intros b Hb. apply (kept_low kend _ heap1); [exact (proj2 (proj2 (kn_frame _ _ _ _ _ _ _ N)))|apply Hk|done]. }
  apply (HQ K l); [|exact Hlow|exact (proj1 (proj2 (kn_frame _ _ _ _ _ _ _ N)))|done|done|exact (kn_length _ _ _ _ _ _ _ N)].
  split; [exact Hc|done|exact (proj1 (kn_frame _ _ _ _ _ _ _ N))|done|done|exact (kn_uvm _ _ _ _ _ _ _ N)|exact (kn_pte _ _ _ _ _ _ _ N)| |].
  - exact (kvm_new_space _ _ _ _ _ _ _ N).
  - intros b Hb. apply Hlow. lia.
Qed.

Lemma up_boot pool m0 K stacks l t (b : boot D) s :
  bt_mem b = sy_mem s -> up kend kdata m0 pool K stacks l t s -> up kend kdata m0 pool K stacks l t (from_boot b s).
Proof.
  intros E U. assert (Ek : sy_ks (from_boot b s) = sy_ks s).
  { unfold from_boot, sy_mem in *. cbn. rewrite E. now destruct s as [[[] ? ? ? ? ? ? ?]]. }
  destruct U. unfold con_of, tabs_of, sy_mem in *. split; unfold con_of, tabs_of, sy_mem; rewrite ?Ek; auto.
Qed.

Lemma wp_mpinit_sys `{IO D} spins conf mp es m0 pool K stacks l t s (Q : unit -> ctx -> sys D -> Prop) :
  layout -> firmware kend m0 conf mp es -> (forall b, b < kend -> ld (sy_mem s) b = ld m0 b) -> (length es < spins)%nat ->
  length (sy_apicids s) = NCPU -> sy_ncpu s = 0 -> up kend kdata m0 pool K stacks l t s ->
  (forall s', up kend kdata m0 pool K stacks l t s' -> ks_km (sy_ks s') = ks_km (sy_ks s) ->
     cpus (ld32 m0 (conf + MPC_lapicaddr)) (fw_ids es) s' -> Q tt c0 s') ->
  wp (inboot (mpinit spins)) Q c0 s.
Proof.
  intros (H1 & H2 & _) F Hm Hsp Ha Hn U HQ. pose proof (fw_low _ _ _ _ _ F) as Hlo. change MEG4 with 2151677952 in H2.
  destruct (firmware_ext kend m0 (sy_mem s) conf mp es) as (E1 & E2 & E3 & E4); [done|lia|done|done|].
  unfold inboot. apply wp_zoom. eapply wp_mono; [apply (mpinit_registers spins es conf mp); try done; lia|].
  intros [] c' b (-> & B1 & B2 & B3 & B4 & B5). cbn [to_boot bt_mem apicids ncpu lapic ioapicid] in *.
  apply HQ; [now apply up_boot|unfold from_boot; cbn; rewrite B5; now destruct s as [[[] ? ? ? ? ? ? ?]]|].
  assert (El : ncpu b = Z.of_nat (length (fw_ids es))).
  { unfold fw_ids. rewrite length_take. lia. }
  split; [cbn; now rewrite B4|done|]. cbn [from_boot sy_apicids]. now rewrite El, Nat2Z.id in B2.
Qed.
End Memory.

(** * The processors *)

Section Processor.
Context {D : Type} {I : IO D}.
Variables (lap id : Z) (i : nat) (spins : nat).
Hypothesis lap_nz : lap <> 0.
Hypothesis reads_id : forall d, Z.shiftr (mmio_ld (lap + 4 * L_ID) d).1 24 = id.
Hypothesis sends : forall d, delivers lap spins d.
Variables (idt_addr : Z) (gdt_addr : nat -> Z).
Local Abbreviation c0 := (Ctx [] []).

(** [mpmain] loads the interrupt table and raises the processor's flag. *)
Lemma wp_mpmain s (Q : unit -> ctx -> sys D -> Prop) :
  con_up (con_of s) -> cpu_is lap id i s ->
  (forall s1, like s s1 -> h_idtr (ks_hw (sy_ks s1)) = h_idtr (idtinit idt_addr (ks_hw (sy_ks s1))) ->
     Q tt c0 (set_started (<[i := 1]> (sy_started s)) s1)) ->
  wp (mpmain idt_addr) Q c0 s.
Proof.
  intros Hc Hi HQ. unfold mpmain.
  apply wp_bind. apply (wp_mycpu_like lap id lap_nz reads_id i); [done|done|]. intros s1 L1. pose proof (like_con_up _ _ L1) as C1.
  apply wp_bind. apply (wp_mycpu_like lap id lap_nz reads_id i); [done|exact (cpu_is_like _ _ _ _ _ Hi L1)|]. intros s2 L2.
  pose proof (like_trans _ _ _ L1 L2) as L. pose proof (like_con_up _ _ L2) as C2.
  apply wp_bind. eapply wp_stage; [now apply stage_print|]. intros s3 L3. pose proof (like_trans _ _ _ L L3) as L03. pose proof (like_con_up _ _ L3) as C3.
  apply wp_bind, wp_inregs. set (h := idtinit idt_addr (ks_hw (sy_ks s3))).
  assert (L4 : like s (with_hw h s3)) by (apply (like_trans _ _ _ L03), like_hw; done).
  apply wp_bind. apply (wp_mycpu_is lap id lap_nz reads_id i); [exact (cpu_is_like _ _ _ _ _ Hi L4)|]. intros d. apply wp_modify.
  assert (L5 : like s (set_dev d (with_hw h s3))) by (apply (like_trans _ _ _ L4), like_dev; exact (like_con_up _ _ L4)).
  replace (sy_started (set_dev d (with_hw h s3))) with (sy_started s) by now destruct L5 as (? & ? & ? & ? & _ & _ & ->).
  apply HQ; [exact L5|reflexivity].
Qed.

(** What another processor does until it runs the scheduler; its registers are its own. *)
Lemma wp_mpenter s h :
  con_up (con_of s) -> cpu_is lap id i s ->
  wp (mpenter idt_addr gdt_addr spins)
    (fun _ c s1 => c = c0 /\ exists s2, like s s2 /\ with_hw (ks_hw (sy_ks s)) s1 = set_started (<[i := 1]> (sy_started s)) s2) c0 (with_hw h s).
Proof.
  intros Hc Hi. set (sh := with_hw (switchkvm (sy_kpgdir s) h) s).
  assert (Ch : con_up (con_of sh)) by exact Hc. assert (Ih : cpu_is lap id i sh) by (destruct Hi; now split).
  unfold mpenter. apply wp_bind, wp_gets, wp_bind, wp_inregs. fold sh.
  apply wp_bind. eapply wp_stage; [now apply (stage_seginit lap id lap_nz reads_id gdt_addr i)|]. intros s2 L2. pose proof (like_con_up _ _ L2) as C2.
  apply wp_bind. eapply wp_stage; [apply (stage_lapicinit spins lap lap_nz sends); [done|exact (ci_lapic _ _ _ _ (cpu_is_like _ _ _ _ _ Ih L2))]|].
  intros s3 L3. pose proof (like_trans _ _ _ L2 L3) as L03.
  apply wp_mpmain; [exact (like_con_up _ _ L3)|exact (cpu_is_like _ _ _ _ _ Ih L03)|]. intros s4 L4 _. split; [done|].
  pose proof (like_trans _ _ _ L03 L4) as (d & v & h' & b & Hv & _ & ->).
  exists (set_disk1 b (set_dev d (set_scon v s))). split; [|].
  - exists d, v, (ks_hw (sy_ks s)), b. split; [done|]. split; [done|]. now destruct s as [[]].
  - destruct L03 as (? & ? & ? & ? & _ & _ & ->). now destruct s as [[]].
Qed.
End Processor.

(** [lapicstartap] writes device registers, and the warm reset vector, which lies
    below the kernel. *)
Lemma wp_lapicstartap {D} `{IO D} id addr (b : boot D) (Q : unit -> ctx -> boot D -> Prop) :
  (forall d m, low_only (bt_mem b) m -> Q tt (Ctx [] []) (Boot m d (apicids b) (ncpu b) (ioapicid b) (lapic b))) ->
  wp (lapicstartap id addr) Q (Ctx [] []) b.
Proof.
  intros HQ. unfold lapicstartap. apply wp_bind, wp_out. set (b1 := set_devs _ b). apply wp_bind, wp_out. set (b2 := set_devs _ b1).
  set (wrv := P2V _). apply wp_bind. unfold store16 at 1. apply wp_modify. apply wp_bind. unfold store16 at 1. apply wp_modify.
  set (b3 := Boot _ _ _ _ _ _).
  assert (Hlow : low_only (bt_mem b) (bt_mem b3)).
  { unfold b3. cbn [bt_mem]. apply (low_only_trans _ (sts (bt_mem b) wrv (le_bytes 2 0))); apply low_only_sts; rewrite length_le_bytes; done. }
  apply wp_dev_only.
  - unfold microdelay. repeat lazymatch goal with
      | |- dev_only (bind _ _) => apply dev_only_bind; [|intros ?]
      | |- dev_only (lapicw _ _) => apply dev_only_lapicw
      | |- dev_only (for_ _ _) => apply dev_only_for; intros ?
      | |- dev_only (ret _) => apply dev_only_ret
      end.
  - intros [] d. apply (HQ d (bt_mem b3)). exact Hlow.
Qed.

(** * Starting the other processors *)

(** The kernel's tables with the flags [st] of the processors. *)
Definition with_started (st : list Z) (t : tabs) : tabs :=
  Tabs (t_procs t) (t_nextpid t) (t_files t) (t_inodes t) (t_bufs t) (t_idt t) st.

Section Start.
Context {D : Type}.
(** The devices as each processor sees them. *)
Variable ios : nat -> IO D.
Variables (kend kdata entrypgdir_addr mpenter_addr idt_addr : Z) (gdt_addr : nat -> Z) (entryother : list Z).
Variables (lap : Z) (ids : list Z) (me spins : nat).
Variables (m0 : mem) (pool : list Z) (K : Z) (tb : tabs).
Local Abbreviation c0 := (Ctx [] []).

(** Each local APIC gives its processor's identifier and delivers what it is asked
    to within [spins] looks; the disk becomes ready within as many. *)
Record platform : Prop := {
  pf_lap : lap <> 0;
  pf_ids : NoDup ids;
  pf_me : (me < length ids)%nat;
  pf_cpus : (length ids <= NCPU)%nat;
  pf_id i id d : ids !! i = Some id -> Z.shiftr (@mmio_ld D (ios i) (lap + 4 * L_ID) d).1 24 = id;
  pf_delivers i d : (i < length ids)%nat -> @delivers D (ios i) lap spins d;
  pf_disk d : @readies D (ios me) spins d;
  pf_spins : (0 < spins)%nat
}.

(** The processor that has been told to start: the first that is not up. *)
Definition awaited (s : sys D) (i : nat) : Prop :=
  i <> me /\ (i < Z.to_nat (sy_ncpu s))%nat /\ default 0 (sy_started s !! i) = 0 /\
  forall j, (j < i)%nat -> j <> me -> default 0 (sy_started s !! j) <> 0.

(** Between two looks at its flag it runs [mpenter], with registers of its own, up
    to the scheduler. *)
Definition others (s s' : sys D) : Prop :=
  exists i h c s1, awaited s i /\ @mpenter D (ios i) idt_addr gdt_addr spins c0 (with_hw h s) = Ret tt c s1 /\
    s' = with_hw (ks_hw (sy_ks s)) s1.

Hypothesis Hpf : platform.
Hypothesis Hlay : layout kend kdata.
Hypothesis Hcode : AP_CODE + Z.of_nat (length entryother) <= KERNLINK.

Lemma awaited_one s i j : awaited s i -> awaited s j -> i = j.
Proof.
  intros (I1 & I2 & I3 & I4) (J1 & J2 & J3 & J4). destruct (Nat.lt_total i j) as [H|[H|H]]; [|done|].
  - now apply J4 in H.
  - now apply I4 in H.
Qed.

Lemma ends_wait_started n i s (Q : unit -> ctx -> sys D -> Prop) :
  (0 < n)%nat -> con_up (con_of s) -> cpus lap ids s -> awaited s i -> (i < length (sy_started s))%nat ->
  (forall s2, like s s2 -> Q tt c0 (set_started (<[i := 1]> (sy_started s)) s2)) ->
  ends others Q (wait_started n i c0 s).
Proof.
  intros Hn Hc Hcp Ha Hl HQ. pose proof Ha as (A1 & A2 & A3 & A4). destruct n as [|n]; [lia|]. cbn [wait_started]. rewrite A3. cbn [Z.eqb negb].
  assert (Hi : (i < length ids)%nat) by now rewrite (cp_ncpu _ _ _ Hcp), Nat2Z.id in A2. destruct (lookup_lt_is_Some_2 ids i Hi) as [id Hid].
  assert (W := fun h => @wp_mpenter D (ios i) lap id i spins (pf_lap Hpf) (fun d => pf_id Hpf i id d Hid)
    (fun d => pf_delivers Hpf i d Hi) idt_addr gdt_addr s h Hc (cpus_is lap ids i id s (pf_ids Hpf) Hcp Hid)).
  apply ends_wait.
  { destruct (wp_inv _ _ _ _ (W (ks_hw (sy_ks s)))) as ([] & c & s1 & E & _). eexists. exists i, (ks_hw (sy_ks s)), c, s1. done. }
  intros s' (j & h & c & s1 & Hj & E & ->). assert (j = i) as -> by exact (awaited_one s j i Hj Ha).
  destruct (wp_ret_inv _ _ _ _ _ _ _ (W h) E) as (_ & s2 & L & E2).
  rewrite E2. destruct n as [|n]; cbn [wait_started]; cbn [sy_started set_started held];
    rewrite list_lookup_insert_eq by done; cbn [default Z.eqb negb]; apply ends_ret, HQ, L.
Qed.

(** The flags when the loop is at processor [i]. *)
Definition flags (i : nat) : list Z := (fun j => if (j <? i)%nat && negb (j =? me)%nat then 1 else 0) <$> seq 0 NCPU.

Lemma flags_lookup i j : (j < NCPU)%nat -> flags i !! j = Some (if (j <? i)%nat && negb (j =? me)%nat then 1 else 0).
Proof. intros H. unfold flags. rewrite list_lookup_fmap, lookup_seq_lt by done. done. Qed.

Lemma flags_me : flags (S me) = flags me.
Proof.
  unfold flags. apply list_fmap_ext. intros _ j _. destruct (Nat.eqb_spec j me) as [->|]; [now rewrite !andb_false_r|].
  now destruct (Nat.ltb_spec j (S me)), (Nat.ltb_spec j me); try lia.
Qed.

Lemma flags_next i : i <> me -> (i < NCPU)%nat -> <[i := 1]> (flags i) = flags (S i).
Proof.
  intros Hi Hn. assert (Hl : forall k, length (flags k) = NCPU) by (intros k; unfold flags; now rewrite length_fmap, length_seq).
  apply list_eq. intros j. destruct (decide (i = j)) as [<-|Hne].
  - rewrite list_lookup_insert_eq, flags_lookup by (now rewrite ?Hl). destruct (Nat.ltb_spec i (S i)), (Nat.eqb_spec i me); done || lia.
  - rewrite list_lookup_insert_ne by done. destruct (Nat.lt_ge_cases j NCPU) as [Hj|Hj].
    + rewrite !flags_lookup by done. now destruct (Nat.ltb_spec j i), (Nat.ltb_spec j (S i)); try lia.
    + rewrite !lookup_ge_None_2; rewrite ?Hl; done.
Qed.

Lemma flags_awaited s i : sy_started s = flags i -> sy_ncpu s = Z.of_nat (length ids) -> i <> me -> (i < length ids)%nat -> awaited s i.
Proof.
  intros Hs Hn Hi Hl. pose proof (pf_cpus Hpf) as Hc. split; [done|]. split; [lia|]. rewrite Hs. split.
  - rewrite flags_lookup by lia. now rewrite Nat.ltb_irrefl.
  - intros j Hj Hm. rewrite flags_lookup by lia. destruct (Nat.ltb_spec j i), (Nat.eqb_spec j me); done || lia.
Qed.

(** A page is taken for a stack. *)
Lemma up_stack p k stacks l t (s : sys D) :
  up kend kdata m0 pool K stacks (p :: l) t s -> kmem_ok kend k l -> k_mem k = sy_mem s ->
  up kend kdata m0 pool K (p :: stacks) l t (with_km k s).
Proof.
  intros [Hc Ht Hkm Hkp Hcr Hu Hp Hpool Hcd] Hk Em.
  split; [exact Hc|exact Ht|exact Hk|exact Hkp|exact Hcr|..]; change (sy_mem (with_km k s)) with (k_mem k); rewrite Em; auto.
  - apply (kept_uvm kend (sy_mem s) K (p :: l)); [done|apply kept_refl|now right].
  - rewrite <- Hpool. rewrite (app_assoc stacks), <- Permutation_middle, <- app_assoc. reflexivity.
Qed.

(** The state at the [i]-th round of the loop. *)
Definition round (stacks l : list Z) (i : nat) (s : sys D) : Prop :=
  up kend kdata m0 pool K stacks l (with_started (flags i) tb) s /\ cpus lap ids s /\ k_use_lock (ks_km (sy_ks s)) = false.

Lemma round_like stacks l i s s' : round stacks l i s -> like s s' -> round stacks l i s'.
Proof.
  intros (U & C & E) L. split; [exact (up_like _ _ _ _ _ _ _ _ _ _ U L)|]. split; [exact (cpus_like _ _ _ _ C L)|].
  now rewrite (like_km _ _ L).
Qed.

Lemma round_low stacks l i s f : low_only (sy_mem s) (f (sy_mem s)) -> round stacks l i s -> round stacks l i (smem f s).
Proof. intros H (U & [] & E). split; [apply up_low; auto; apply Hlay|]. split; [now split|exact E]. Qed.

Lemma round_started stacks l i s : round stacks l i s -> sy_started s = flags i.
Proof. intros (U & _). pose proof (up_tabs _ _ _ _ _ _ _ _ _ U) as E. now injection E. Qed.
Local Abbreviation start := (@start_cpu D (ios me) entrypgdir_addr mpenter_addr spins).

(** The stack and what [entryother.S] finds under its code. *)
Lemma round_args stacks l i s v a : round stacks l i s -> a + 4 <= KERNLINK -> round stacks l i (smem (fun m => st32 m a v) s).
Proof. intros R Ha. apply round_low; [|done]. unfold st32. apply low_only_sts. rewrite length_le_bytes. lia. Qed.

Lemma wp_startap id addr stacks l i s (Q : unit -> ctx -> sys D -> Prop) :
  round stacks l i s -> (forall s', round stacks l i s' -> Q tt c0 s') -> wp (inboot (@lapicstartap D (ios me) id addr)) Q c0 s.
Proof.
  intros R HQ. unfold inboot. apply wp_zoom. apply (@wp_lapicstartap D (ios me)). intros d m Hm. apply HQ.
  replace (from_boot _ s) with (set_dev d (smem (fun _ => m) s)) by now destruct s as [[[] ? ? ? ? ? ? ?]].
  apply (round_like _ _ _ (smem (fun _ => m) s)); [now apply round_low|]. apply like_dev. exact (up_con _ _ _ _ _ _ _ _ _ (proj1 R)).
Qed.

Lemma round_up stacks l i s s2 :
  i <> me -> (i < length ids)%nat -> round stacks l i s -> like s s2 -> round stacks l (S i) (set_started (<[i := 1]> (sy_started s)) s2).
Proof.
  intros Hi Hl R L. pose proof (pf_cpus Hpf) as Hc. destruct (round_like _ _ _ _ _ R L) as ([] & [] & E). rewrite (round_started _ _ _ _ R), flags_next by lia.
  split; [|split; [now split|exact E]]. split; auto.
  change (with_started (flags (S i)) (tabs_of s2) = with_started (flags (S i)) tb). now rewrite up_tabs0.
Qed.

Lemma start_cpu_round i stacks p l s :
  (i < length ids)%nat -> round stacks (p :: l) i s ->
  ends others (fun _ c' s' => c' = c0 /\
    if (i =? me)%nat then round stacks (p :: l) (S i) s' else round (p :: stacks) l (S i) s') (start i c0 s).
Proof.
  intros Hi R. pose proof R as (U & C & E). destruct (lookup_lt_is_Some_2 ids me (pf_me Hpf)) as [id Hid]. unfold start_cpu. apply ends_step.
  apply (@wp_mycpu_like D (ios me) lap id (pf_lap Hpf) (fun d => pf_id Hpf me id d Hid) me);
    [exact (up_con _ _ _ _ _ _ _ _ _ U)|exact (cpus_is lap ids me id s (pf_ids Hpf) C Hid)|].
  intros s1 L1. pose proof (round_like _ _ _ _ _ R L1) as R1. destruct (Nat.eqb_spec i me) as [->|Hne].
  { apply ends_ret. split; [done|]. unfold round in *. now rewrite flags_me. }
  apply ends_step, wp_inkm_sys. eapply wp_kalloc; [exact (up_kmem _ _ _ _ _ _ _ _ _ (proj1 R1))|apply not_elem_of_nil|].
  intros k Hk Em Eu. assert (R2 : round (p :: stacks) l i (with_km k s1)).
  { destruct R1 as (U1 & [] & E1). split; [now apply up_stack|]. split; [now split|]. cbn. congruence. }
  apply ends_step, wp_modify, ends_step, wp_modify, ends_step, wp_modify, ends_step, wp_gets, ends_step.
  eapply wp_startap; [do 3 (apply round_args; [|done]); exact R2|]. intros s3 R3.
  apply ends_wait_started; [exact (pf_spins Hpf)|exact (up_con _ _ _ _ _ _ _ _ _ (proj1 R3))|apply R3| | |].
  - apply flags_awaited; auto; [exact (round_started _ _ _ _ R3)|]. exact (cp_ncpu _ _ _ (proj1 (proj2 R3))).
  - rewrite (round_started _ _ _ _ R3). unfold flags. rewrite length_fmap, length_seq. pose proof (pf_cpus Hpf). lia.
  - intros s4 L4. split; [done|]. now apply round_up.
Qed.

Lemma startothers_loop n i stacks l s :
  (i + n = length ids)%nat -> round stacks l i s -> (n <= length l)%nat ->
  (length stacks + (if (me <? i)%nat then 1 else 0) = i)%nat ->
  ends others (fun _ c' s' => c' = c0 /\ exists stacks' l', round stacks' l' (length ids) s' /\
    S (length stacks') = length ids) (for_ (seq i n) start c0 s).
Proof.
  revert i stacks l s. induction n as [|n IH]; intros i stacks l s Hi R Hl Hst.
  - cbn [seq for_]. apply ends_ret. split; [done|]. exists stacks, l. pose proof (pf_me Hpf). assert (E : length ids = i) by lia. rewrite E in *.
    split; [done|]. destruct (Nat.ltb_spec me i); lia.
  - destruct l as [|p l]; [cbn in Hl; lia|]. cbn [seq for_ length] in *. apply ends_then.
    eapply ends_mono; [apply (start_cpu_round i stacks p l); [lia|done]|]. cbn beta. intros [] c' s' [-> R'].
    destruct (Nat.eqb_spec i me) as [->|Hne].
    + apply (IH _ stacks (p :: l)); [lia|done|cbn; lia|]. destruct (Nat.ltb_spec me me), (Nat.ltb_spec me (S me)); lia.
    + apply (IH _ (p :: stacks) l); [lia|done|lia|]. cbn [length]. destruct (Nat.ltb_spec me i), (Nat.ltb_spec me (S i)); lia.
Qed.

(** [startothers] starts every processor of the table but the one it runs on. *)
Lemma startothers_round l s :
  round [] l 0 s -> (length ids <= length l)%nat ->
  ends others (fun _ c' s' => c' = c0 /\ exists stacks' l', round stacks' l' (length ids) s' /\ S (length stacks') = length ids)
    (@startothers D (ios me) entrypgdir_addr mpenter_addr entryother spins c0 s).
Proof.
  intros R Hl. unfold startothers. apply ends_step, wp_modify, ends_step, wp_gets.
  assert (R' : round [] l 0 (smem (fun m => sts m AP_CODE entryother) s)) by (apply round_low; [now apply low_only_sts|done]).
  rewrite (cp_ncpu _ _ _ (proj1 (proj2 R'))), Nat2Z.id. apply (startothers_loop _ 0 [] l); auto.
Qed.
End Start.

(** * The rest of memory *)

Lemma perm_rest (A B h l p : list Z) : A ++ B ++ l ≡ₚ p -> A ++ B ++ h ++ l ≡ₚ h ++ p.
Proof. intros <-. rewrite (Permutation_app_swap_app B h l), (Permutation_app_swap_app A h). done. Qed.

Section Rest.
Context {D : Type}.
Variables kend kdata : Z.
Hypothesis Hlay : layout kend kdata.
Local Abbreviation c0 := (Ctx [] []).

Lemma heap1_spec p : p ∈ heap1 kend -> p mod PGSIZE = 0 /\ p + PGSIZE <= MEG4.
Proof.
  unfold heap1. rewrite elem_of_reverse, elem_of_pages_from. intros (i & -> & Hi). destruct Hlay as (H1 & H2 & _).
  change MEG4 with 2151677952 in *. unfold KERNLINK, EXTMEM, KERNBASE in H1. rewrite PGROUNDUP_eq in * by lia. unfold PGSIZE in *.
  split; Z.to_euclidean_division_equations; lia.
Qed.

Lemma heap2_spec p : p ∈ heap2 -> p mod PGSIZE = 0 /\ MEG4 <= p.
Proof.
  unfold heap2. rewrite elem_of_reverse, elem_of_pages_from. intros (i & -> & Hi). change MEG4 with (PGSIZE * 525312) in *. split; [|unfold PGSIZE; lia].
  rewrite <- Z.mul_add_distr_l, Z.mul_comm. now apply Z.mod_mul.
Qed.

Lemma heap2_eq : heap2 = reverse (pages_from MEG4 (Z.to_nat ((P2V PHYSTOP - MEG4) / PGSIZE))).
Proof. reflexivity. Qed.

#[local] Opaque heap1 heap2 MEG4.

(** A page table made of pages below four megabytes survives [kinit2]. *)
Lemma kvm_below K m m' l stacks :
  uvm_ok kend m K l -> (forall va, is_u32 va -> pte_val m K va = kvm_pte kdata va) ->
  stacks ++ space_pages m K ++ l ≡ₚ heap1 kend -> (forall a, a < MEG4 -> ld m' a = ld m a) ->
  uvm_ok kend m' K (heap2 ++ l) /\ (forall va, pte_val m' K va = pte_val m K va) /\ space_pages m' K = space_pages m K.
Proof.
  intros Hok Hp Hpool Hm. pose proof (um_dir _ _ _ _ Hok) as Hd.
  assert (Hin : forall x, x ∈ space_pages m K \/ x ∈ l -> x mod PGSIZE = 0 /\ x + PGSIZE <= MEG4).
  { intros x Hx. apply heap1_spec. rewrite <- Hpool. rewrite !elem_of_app. tauto. }
  assert (HK : K ∈ space_pages m K) by now left.
  assert (HT : forall i, 0 <= i < 1024 -> present (pde_at m K i) = true -> pgtab_of (pde_at m K i) ∈ space_pages m K).
  { intros i Hi Hpr. right. rewrite elem_of_app, elem_of_reverse, elem_of_tables. left. eauto. }
  assert (W : forall q i, q ∈ space_pages m K -> 0 <= i < 1024 -> ld32 m' (q + 4 * i) = ld32 m (q + 4 * i)).
  { intros q i Hq Hi. destruct (Hin q) as [_ Hr]; [now left|]. apply ld32_ext. intros j Hj. apply Hm. unfold PGSIZE in Hr. lia. }
  assert (Epde : forall i, 0 <= i < 1024 -> pde_at m' K i = pde_at m K i) by (intros i Hi; now apply W).
  assert (Epte : forall va, pte_val m' K va = pte_val m K va).
  { intros va. unfold pte_val. rewrite Epde by apply PDX_range. destruct (present (pde_at m K (PDX va))) eqn:E; [|done].
    apply W; auto using PTX_range, PDX_range. }
  split; [|split; [done|]].
  - apply (uvm_ok_ext kend m _ _ l); [done|done| |].
    + intros va Hva. rewrite Epte, Hp, kvm_pte_user by (done || unfold is_u32, KERNBASE in *; lia). done.
    + intros x Hx. apply elem_of_app in Hx as [Hx|Hx]; [right|now left]. apply heap2_spec in Hx as [Ha Hr].
      assert (Hne : forall y, y ∈ space_pages m K \/ y ∈ l -> x <> y) by (intros y Hy; destruct (Hin y Hy) as [_ Hyr]; unfold PGSIZE in Hyr; lia).
      split; [done|]. split; [intros Hl; now apply (Hne x); [right|]|]. split; [apply Hne; now left|]. intros i Hi Hpr. apply Hne. left. auto.
  - unfold space_pages. now rewrite (tables_ext m m' K 1024 ltac:(lia) Epde), (upages_same m m' K 0 _ Epte).
Qed.

Lemma wp_kinit2_sys m0 K stacks l t (s : sys D) (Q : unit -> ctx -> sys D -> Prop) :
  up kend kdata m0 (heap1 kend) K stacks l t s ->
  (forall k, up kend kdata m0 (heap2 ++ heap1 kend) K stacks (heap2 ++ l) t (with_km k s) -> k_use_lock k = true -> Q tt c0 (with_km k s)) ->
  wp (inks (inkm (kinit2 kend (P2V (4 * 1024 * 1024)) (P2V PHYSTOP)))) Q c0 s.
Proof.
  intros [Hc Ht Hkm Hkp Hcr Hu Hp Hpool Hcd] HQ. pose proof (kend_round _ _ Hlay) as Hr. destruct Hlay as (H1 & H2 & _). apply wp_inkm_sys. unfold kinit2.
  apply wp_bind. change (P2V (4 * 1024 * 1024)) with MEG4. eapply wp_mono; [apply (freerange_spec kend MEG4 (P2V PHYSTOP) l)|].
  - done.
  - apply not_elem_of_nil.
  - done.
  - lia.
  - done.
  - done.
  - intros p Hl. apply heap1_spec. rewrite <- Hpool, !elem_of_app. now right; right.
  - cbn beta. intros [] c' k (-> & Hk & Hul & Hm). change (PGROUNDUP MEG4) with MEG4 in *. rewrite <- heap2_eq in Hk.
    apply wp_modify.
    destruct (kvm_below K (sy_mem s) (k_mem k) l stacks) as (U & Epte & Esp); auto.
    { intros a Ha. apply Hm. lia. }
    apply HQ; [|done]. split; [exact Hc|exact Ht|exact Hk|exact Hkp|exact Hcr|exact U|..]; change (sy_mem (with_km _ s)) with (k_mem k).
    + intros va Hva. rewrite Epte. auto.
    + rewrite Esp. now apply perm_rest.
    + intros b Hb. rewrite Hm by lia. auto.
Qed.
End Rest.

(** * The tables *)

Definition with_idt (v : list gatedesc) (t : tabs) : tabs :=
  Tabs (t_procs t) (t_nextpid t) (t_files t) (t_inodes t) (t_bufs t) v (t_started t).
Definition with_bufs (v : bst) (t : tabs) : tabs :=
  Tabs (t_procs t) (t_nextpid t) (t_files t) (t_inodes t) v (t_idt t) (t_started t).

Lemma up_mem {D} kend kdata m m0 pool K stacks l t (s : sys D) :
  (forall b, KERNLINK <= b < kend -> ld m b = ld m0 b) -> up kend kdata m pool K stacks l t s -> up kend kdata m0 pool K stacks l t s.
Proof. intros H []. split; auto. intros b Hb. rewrite <- H by done. auto. Qed.

Section Tables.
Context {D : Type} {fuel : Fuel}.
Variables (kend kdata : Z) (m0 : mem) (pool : list Z) (K : Z) (lap : Z) (ids : list Z).
Local Abbreviation c0 := (Ctx [] []).

(** Memory, the tables [t], and the processors, before locks are used. *)
Definition early (l : list Z) (t : tabs) (s : sys D) : Prop :=
  up kend kdata m0 pool K [] l t s /\ cpus lap ids s /\ k_use_lock (ks_km (sy_ks s)) = false.

Lemma early_like l t s s' : early l t s -> like s s' -> early l t s'.
Proof.
  intros (U & C & E) L. split; [exact (up_like _ _ _ _ _ _ _ _ _ _ U L)|]. split; [exact (cpus_like _ _ _ _ C L)|].
  now rewrite (like_km _ _ L).
Qed.

Lemma early_con l t s : early l t s -> con_up (con_of s).
Proof. intros (U & _). exact (up_con _ _ _ _ _ _ _ _ _ U). Qed.

Lemma wp_tvinit vectors l t s (Q : unit -> ctx -> sys D -> Prop) :
  early l t s -> (forall s', early l (with_idt (tvinit vectors) t) s' -> Q tt c0 s') -> wp (tvinit_idt vectors) Q c0 s.
Proof.
  intros ([] & [] & E) HQ. unfold tvinit_idt. apply wp_bind, wp_modify. unfold wp, initlock. apply HQ.
  split; [|split; [now split|exact E]]. split; auto. change (with_idt (tvinit vectors) (tabs_of s) = with_idt (tvinit vectors) t). now rewrite up_tabs0.
Qed.

Definition set_bufs (b : bst) (s : sys D) : sys D :=
  let k := sy_ks s in let f := ks_fs k in let i := io_fs f in
  set_ks (set_fs (set_iofs (Fs.set_log (Log.set_bio b (fs_log i)) i) f) k) s.

Lemma wp_inbcache {A} (m : M bst A) (Q : A -> ctx -> sys D -> Prop) s :
  wp m (fun a c' b => c' = c0 /\ Q a c0 (set_bufs b s)) c0 (lg_bio (fs_log (io_fs (ks_fs (sy_ks s))))) -> wp (inbcache m) Q c0 s.
Proof.
  intros H. unfold inbcache, inks, lift, infss, inio, inlog, inbio, zoom, wp in *. cbn.
  destruct (m c0 (lg_bio (fs_log (io_fs (ks_fs (sy_ks s)))))) as [a c' b| | |]; cbn in *; try done. destruct H as [-> H]. cbn.
  now destruct s as [[km hw' t n i tk f [[]]] d x1 x2 x3 x4 x5 x6 x7 x8].
Qed.

Lemma wp_bcache l t s (Q : unit -> ctx -> sys D -> Prop) :
  early l t s -> length (bufs (t_bufs t)) = S NBUF ->
  (forall b s', lru b (rev (seq 0 NBUF)) -> binit_inv (t_bufs t) NBUF b -> early l (with_bufs b t) s' -> Q tt c0 s') ->
  wp (initlock LBcache ;;; inbcache binit) Q c0 s.
Proof.
  intros ([] & [] & E) Hlen HQ. apply wp_bind. unfold wp at 1, initlock. cbn [held filter list_filter woken]. apply wp_inbcache.
  replace (lg_bio _) with (t_bufs t) by now rewrite <- up_tabs0. eapply wp_mono; [now apply wp_binit|].
  intros [] c' b (-> & Hl & Hb). split; [done|]. apply (HQ b); [done|done|]. split; [|split; [now split|exact E]].
  split; auto. change (with_bufs b (tabs_of s) = with_bufs b t). now rewrite up_tabs0.
Qed.
End Tables.

(** * The first process and the end of main *)

Lemma kept_space kend m d l m' : uvm_ok kend m d l -> kept m l m' -> space_pages m' d = space_pages m d.
Proof.
  intros Hok H. pose proof (um_dir _ _ _ _ Hok) as Hd. unfold space_pages.
  rewrite (tables_ext m m' d 1024 ltac:(lia)) by (intros i Hi; now apply (kept_pde kend m d l)).
  now rewrite (upages_same m m' d 0) by (intros va; now apply (kept_pte kend m d l)).
Qed.

Lemma perm_first (st : Z) (S d K h l l' : list Z) : S ++ K ++ l ≡ₚ h -> st :: d ++ l' ≡ₚ l -> st :: d ++ S ++ K ++ l' ≡ₚ h.
Proof.
  intros <- <-. rewrite (app_assoc S K l'), (Permutation_app_swap_app d (S ++ K) l').
  rewrite (app_assoc S K (st :: _)). apply Permutation_middle.
Qed.

Section Booted.
Context {D : Type} {fuel : Fuel}.
Variables (kend kdata trapret_addr forkret_addr initcode_start initcode_size idt_addr : Z) (vectors : list Z).
Variables (m0 : mem) (ids : list Z).
Local Abbreviation c0 := (Ctx [] []).

(** The state in which a processor enters the scheduler after [main]: all pages
    between the end of the kernel and PHYSTOP belong to the first process (its
    stack [st] and its page table [d]), to the stacks of the other processors, to
    the kernel's page table [K] or to the free list [l]. *)
Record booted (st d K : Z) (stacks l : list Z) (s : sys D) : Prop := {
  bo_pool : st :: space_pages (sy_mem s) d ++ stacks ++ space_pages (sy_mem s) K ++ l ≡ₚ heap2 ++ heap1 kend;
  bo_free : kmem_ok kend (ks_km (sy_ks s)) l;
  bo_locking : k_use_lock (ks_km (sy_ks s)) = true;
  bo_kpgdir : sy_kpgdir s = K /\ h_cr3 (ks_hw (sy_ks s)) = V2P K;
  bo_kernel : uvm_ok kend (sy_mem s) K l /\ forall va, is_u32 va -> pte_val (sy_mem s) K va = kvm_pte kdata va;
  bo_space : uvm_ok kend (sy_mem s) d l;
  bo_user va : 0 <= va < PGSIZE -> PTE_FLAGS (pte_val (sy_mem s) d va) = Z.lor (Z.lor PTE_W PTE_U) PTE_P;
  bo_upper va : is_u32 va -> PGSIZE <= va -> pte_val (sy_mem s) d va = kvm_pte kdata va;
  bo_code va : 0 <= va < PGSIZE -> ub (sy_mem s) d va = if va <? initcode_size then ld m0 (initcode_start + va) else 0;
  bo_stack : stack_words trapret_addr forkret_addr (sy_mem s) st;
  bo_frame : user_frame (sy_mem s) (frame_at st);
  bo_procs : ptable (sy_ks s) = first_proc st d 1 :: replicate 63 proc0;
  bo_init : initproc (sy_ks s) = Some 0%nat;
  bo_files : ftable (ks_fs (sy_ks s)) = replicate NFILE file0;
  bo_inodes : icache (io_fs (ks_fs (sy_ks s))) = root_inode :: replicate 49 inode0;
  bo_cache : lru (lg_bio (fs_log (io_fs (ks_fs (sy_ks s))))) (rev (seq 0 NBUF));
  bo_idt : sy_idt s = tvinit vectors /\ h_idtr (ks_hw (sy_ks s)) = h_idtr (idtinit idt_addr (ks_hw (sy_ks s)));
  bo_cpus i : (i < length ids)%nat -> sy_started s !! i = Some 1;
  bo_stacks : S (length stacks) = length ids
}.

(** The machine of Kernel.v begins in such a state. *)
Lemma booted_initial call_sigret end_sigret st d K stacks l s :
  booted st d K stacks l s ->
  initial kdata kend call_sigret end_sigret (Machine (sy_ks s) {[ 0%nat := child kdata kend call_sigret end_sigret 0 ]}).
Proof.
  intros B. pose proof (bo_procs _ _ _ _ _ _ B) as Ep. pose proof (bo_files _ _ _ _ _ _ B) as Ef.
  assert (Hl : forall p q, ptable (sy_ks s) !! p = Some q -> p = 0%nat /\ q = first_proc st d 1 \/ q = proc0).
  { intros p q. rewrite Ep. destruct p as [|p]; [intros [= <-]; now left|]. intros E. right. now apply lookup_replicate_1 in E as [-> _]. }
  assert (Hf : forall f, fof f (ks_fs (sy_ks s)) = file0).
  { intros f. unfold fof. rewrite Ef. destruct (replicate NFILE file0 !! f) as [y|] eqn:E; [|done]. now apply lookup_replicate_1 in E as [-> _]. }
  assert (Hno : forall q i f, q = first_proc st d 1 \/ q = proc0 -> ofile q !! i <> Some (Some f)).
  { intros q i f Hq E. assert (Eq : ofile q = replicate NOFILE None) by (destruct Hq as [-> | ->]; done). rewrite Eq in E.
    now apply lookup_replicate_1 in E as [? _]. }
  split; cbn [mc_st mc_threads].
  - split.
    + now rewrite Ep.
    + intros p q E. destruct (Hl p q E) as [[_ ->]| ->]; done.
    + now rewrite Ef.
    + intros p q E _ _ i f. apply Hno. destruct (Hl p q E) as [[_ ->]| ->]; auto.
    + intros f _. unfold ftyp. now rewrite Hf.
  - intros f. unfold fref. rewrite Hf, Ep. cbn [total f_ref file0].
    assert (Z0 : forall n, total f (replicate n proc0) = 0) by (induction n as [|n IH]; [done|exact IH]). rewrite Z0. done.
  - intros p (q & E & Hlive). destruct (Hl p q E) as [[-> _]| ->]; [|done]. apply lookup_singleton_eq.
Qed.
End Booted.

(** * The whole of main *)

Section Main.
Context {D : Type} {fuel : Fuel}.
Variable ios : nat -> IO D.
Variables (kdata kend trapret_addr forkret_addr initcode_start initcode_size entrypgdir_addr mpenter_addr idt_addr : Z).
Variables (gdt_addr : nat -> Z) (vectors entryother : list Z) (lap : Z) (ids : list Z) (me spins : nat) (m0 : mem).
Local Abbreviation c0 := (Ctx [] []).
Local Abbreviation early := (early kend kdata m0 (heap1 kend)).
Local Abbreviation others := (others ios idt_addr gdt_addr me spins).

(** The first processor sees the devices through [ios me]. *)
#[local] Instance my_devices : IO D := ios me.

Hypothesis Hpf : platform ios lap ids me spins.
Hypothesis Hlay : layout kend kdata.
Hypothesis Hcode : AP_CODE + Z.of_nat (length entryother) <= KERNLINK.
Hypothesis Htrap : is_u32 trapret_addr /\ is_u32 forkret_addr.
Hypothesis Hinit : 0 <= initcode_size < PGSIZE /\ KERNLINK <= initcode_start /\ initcode_start + initcode_size <= kend.

Lemma ends_stage (m : M (sys D) unit) (f : unit -> M (sys D) unit) K l t s Q :
  early K lap ids l t s -> (con_up (con_of s) -> stage m s) ->
  (forall s', early K lap ids l t s' -> ends others Q (f tt c0 s')) -> ends others Q (bind m f c0 s).
Proof.
  intros E Hm HQ. apply ends_step. eapply wp_stage; [exact (Hm (early_con _ _ _ _ _ _ _ _ _ _ E))|].
  intros s' L. apply HQ. now apply (early_like _ _ _ _ _ _ _ _ _ s).
Qed.

Lemma early_cpu K l t (s : sys D) : early K lap ids l t s -> exists id, ids !! me = Some id /\ cpu_is lap id me s.
Proof.
  intros (_ & C & _). destruct (lookup_lt_is_Some_2 ids me (pf_me _ _ _ _ _ Hpf)) as [id Hid]. exists id. split; [done|].
  exact (cpus_is lap ids me id s (pf_ids _ _ _ _ _ Hpf) C Hid).
Qed.

(** From [lapicinit] to [pinit]. *)
Lemma main_devices K l t s (rest : M (sys D) unit) Q :
  early K lap ids l t s -> (forall s', early K lap ids l t s' -> ends others Q (rest c0 s')) ->
  ends others Q ((inboot (lapicinit spins) ;;; seginit_cpu gdt_addr ;;; picinit ;;; ioapicinit_print ;;; consoleinit_dev ;;;
    uartinit_dev ;;; pinit ;;; rest) c0 s).
Proof.
  intros E HQ. pose proof (pf_me _ _ _ _ _ Hpf) as Hme. pose proof (pf_lap _ _ _ _ _ Hpf) as Hlap.
  eapply ends_stage; [exact E| |].
  { intros Hc. apply (stage_lapicinit spins lap Hlap (fun d => pf_delivers _ _ _ _ _ Hpf me d Hme)); [done|]. apply E. }
  clear E. intros s1 E. eapply ends_stage; [exact E| |].
  { intros Hc. destruct (early_cpu _ _ _ _ E) as (id & Hid & Hi).
    apply (stage_seginit lap id Hlap (fun d => pf_id _ _ _ _ _ Hpf me id d Hid) gdt_addr me); done. }
  clear E. intros s2 E. eapply ends_stage; [exact E|apply stage_picinit|].
  clear E. intros s3 E. eapply ends_stage; [exact E|apply stage_ioapicinit|].
  clear E. intros s4 E. eapply ends_stage; [exact E|apply stage_consoleinit|].
  clear E. intros s5 E. eapply ends_stage; [exact E|apply stage_uartinit|].
  clear E. intros s6 E. eapply ends_stage; [exact E|apply stage_initlock|]. exact HQ.
Qed.

(** From [tvinit] to [ideinit]. *)
Lemma main_tables K l t s (rest : M (sys D) unit) Q :
  early K lap ids l t s -> length (bufs (t_bufs t)) = S NBUF ->
  (forall b s', lru b (rev (seq 0 NBUF)) -> early K lap ids l (with_bufs b (with_idt (tvinit vectors) t)) s' -> ends others Q (rest c0 s')) ->
  ends others Q ((tvinit_idt vectors ;;; (initlock LBcache ;;; inbcache binit) ;;; fileinit ;;;
    (let* n := gets sy_ncpu in initlock LIde ;;; inide (ideinit spins n)) ;;; rest) c0 s).
Proof.
  intros E Hb HQ. apply ends_step. eapply wp_tvinit; [exact E|]. clear E. intros s1 E.
  apply ends_step. eapply wp_bcache; [exact E|exact Hb|]. clear E. intros b s2 Hlru _ E.
  eapply ends_stage; [exact E|apply stage_initlock|]. clear E. intros s3 E.
  eapply ends_stage; [exact E| |intros s4 E4; now apply (HQ b)].
  intros Hc. apply stage_bind; [done|intros P HP; apply wp_gets, HP; now apply like_refl|].
  intros n s' L. apply (stage_ideinit spins (pf_disk _ _ _ _ _ Hpf)). now apply (like_con_up s3).
Qed.
(** What the start of the machine finds: the data of the kernel is zero, but for
    nextpid, which is 1. *)
Record cold (disk : list block) (s : sys D) : Prop := {
  co_con : con_up (con_of s);
  co_free : k_freelist (ks_km (sy_ks s)) = 0;
  co_tabs : tabs_of s =
    Tabs (replicate NPROC proc0) 1 (replicate NFILE file0) (replicate NINODE inode0) (boot_bufs disk) (sy_idt s) (replicate NCPU 0);
  co_ids : length (sy_apicids s) = NCPU;
  co_ncpu : sy_ncpu s = 0
}.

(** The tables when [startothers] is called. *)
Definition set_tabs (b : bst) : tabs :=
  Tabs (replicate NPROC proc0) 1 (replicate NFILE file0) (replicate NINODE inode0) b (tvinit vectors) (replicate NCPU 0).

Local Abbreviation round := (round kend kdata lap ids me m0).
Local Abbreviation flags := (flags me).
Local Abbreviation booted := (booted kend kdata trapret_addr forkret_addr initcode_start initcode_size idt_addr vectors m0 ids).

Lemma heap2_length : (kvm_pages + 3 <= length heap2)%nat.
Proof.
  rewrite heap2_eq, length_reverse. unfold pages_from. rewrite length_fmap, length_zrange.
  change ((P2V PHYSTOP - MEG4) / PGSIZE) with 56320. unfold kvm_pages. lia.
Qed.

#[local] Opaque heap1 heap2 space_pages.

#[local] Instance boot_ops : FileOps fio := fio_ops kend.

(** The state after [userinit], from the state before it. *)
Definition after_userinit (st d : Z) (km : kmem) (s : sys D) : sys D :=
  let k := sy_ks s in let f := ks_fs k in
  set_ks (Kst km (ks_hw k) (first_proc st d 1 :: replicate 63 proc0) 2 (Some 0%nat) (ticks k) (first k)
    (set_iofs (Fsst (fs_log (io_fs f)) (fs_sb (io_fs f)) (root_inode :: replicate 49 inode0)) f)) s.

Lemma flags_all i : (i < length ids)%nat -> <[me := 1]> (flags (length ids)) !! i = Some 1.
Proof.
  intros Hi. pose proof (pf_cpus _ _ _ _ _ Hpf). pose proof (pf_me _ _ _ _ _ Hpf). destruct (decide (me = i)) as [<-|Hne].
  - apply list_lookup_insert_eq. unfold MainBoot.flags. rewrite length_fmap, length_seq. lia.
  - rewrite list_lookup_insert_ne, flags_lookup by (done || lia). destruct (Nat.ltb_spec i (length ids)), (Nat.eqb_spec i me); done || lia.
Qed.

Lemma booted_intro K stacks l b st d km l' (s s1 : sys D) :
  up kend kdata m0 (heap2 ++ heap1 kend) K stacks l (with_started (flags (length ids)) (set_tabs b)) s ->
  k_use_lock (ks_km (sy_ks s)) = true -> lru b (rev (seq 0 NBUF)) -> S (length stacks) = length ids ->
  first_memory kend kdata trapret_addr forkret_addr initcode_start initcode_size st d (ks_km (sy_ks s)) l km l' ->
  like (after_userinit st d km s) s1 -> h_idtr (ks_hw (sy_ks s1)) = h_idtr (idtinit idt_addr (ks_hw (sy_ks s1))) ->
  booted st d K stacks l' (set_started (<[me := 1]> (sy_started s)) s1).
Proof.
  intros [Hc Ht Hkm Hkp Hcr Hu Hp Hpool Hcd] Hul Hb Hst [F1 F2 F3 F4 F5 F6 F7 F8 F9 F10] L Hi. destruct Hinit as (Hsz & Hlo & Hhi).
  assert (Hl : forall x, x ∈ l' -> x ∈ l) by (intros x Hx; rewrite <- F4; right; apply elem_of_app; now right).
  assert (Ek : sy_mem (set_started (<[me := 1]> (sy_started s)) s1) = k_mem km /\ ks_km (sy_ks s1) = km) by (clear - L; destruct L as (? & ? & ? & ? & _ & _ & ->); split; reflexivity).
  destruct Ek as [Em Ek]. pose proof (kept_space kend _ K l _ Hu F3) as Esp. pose proof (um_dir _ _ _ _ Hu) as Hd.
  injection Ht as _ _ Efl _ Ebf Eid Est.
  split; rewrite ?Em; cbn [set_started sy_ks sy_kpgdir sy_idt sy_started]; rewrite ?Ek; auto.
  - unfold sy_mem in *. rewrite Esp. now apply (perm_first st stacks _ _ _ l).
  - congruence.
  - split; [|rewrite (like_cr3 _ _ L); exact Hcr]. rewrite (like_kpgdir _ _ L). exact Hkp.
  - split; [apply (kept_uvm kend (sy_mem s) K l); auto|]. intros va Hva. rewrite (kept_pte kend (sy_mem s) K l) by auto. auto.
  - intros va Hva. rewrite F8 by done. destruct (Z.ltb_spec va initcode_size); [|done]. apply Hcd. lia.
  - clear - L. destruct L as (? & ? & ? & ? & _ & _ & ->). reflexivity.
  - clear - L. destruct L as (? & ? & ? & ? & _ & _ & ->). reflexivity.
  - destruct L as (? & ? & ? & ? & _ & _ & ->). exact Efl.
  - clear - L. destruct L as (? & ? & ? & ? & _ & _ & ->). reflexivity.
  - destruct L as (? & ? & ? & ? & _ & _ & ->). cbn. now rewrite Ebf.
  - split; [|done]. destruct L as (? & ? & ? & ? & _ & _ & ->). exact Eid.
  - intros i. rewrite Est. apply flags_all.
Qed.

Lemma wp_userinit_up K stacks l b (s : sys D) (Q : unit -> ctx -> ks -> Prop) :
  up kend kdata m0 (heap2 ++ heap1 kend) K stacks l (with_started (flags (length ids)) (set_tabs b)) s -> (kvm_pages + 3 <= length l)%nat ->
  (forall st d km l', first_memory kend kdata trapret_addr forkret_addr initcode_start initcode_size st d (ks_km (sy_ks s)) l km l' ->
     Q tt c0 (sy_ks (after_userinit st d km s))) ->
  wp (userinit kend kdata trapret_addr forkret_addr initcode_start initcode_size) Q c0 (sy_ks s).
Proof.
  intros [_ Ht Hkm _ _ _ _ _ _] Hl HQ. destruct Htrap as [Htr Hfr], Hinit as (Hsz & _ & Hhi), Hlay as (_ & _ & Hkd).
  destruct s as [[km hw pt np ip tk fi [[lg sb ic] ft pp con]] dv ai sd nc io la hd idt kp]. unfold tabs_of, with_started, set_tabs in Ht.
  injection Ht as -> -> -> -> Eb -> ->. apply (wp_userinit kend kdata _ _ _ _ km l); auto.
Qed.

(** [userinit] and [mpmain] finish the work. *)
Lemma wp_main_end K stacks l b (s : sys D) :
  up kend kdata m0 (heap2 ++ heap1 kend) K stacks (heap2 ++ l) (with_started (flags (length ids)) (set_tabs b)) s ->
  cpus lap ids s -> k_use_lock (ks_km (sy_ks s)) = true -> lru b (rev (seq 0 NBUF)) -> S (length stacks) = length ids ->
  wp (inks (userinit kend kdata trapret_addr forkret_addr initcode_start initcode_size) ;;; mpmain idt_addr)
    (fun _ c' s' => c' = c0 /\ exists st d l', booted st d K stacks l' s') c0 s.
Proof.
  intros U C Hul Hb Hst. apply wp_bind. unfold inks. apply wp_zoom. apply (wp_userinit_up K stacks (heap2 ++ l) b); [exact U| |].
  { rewrite length_app. pose proof heap2_length as Hh. lia. }
  intros st d km l' F. destruct (lookup_lt_is_Some_2 ids me (pf_me _ _ _ _ _ Hpf)) as [id Hid].
  assert (Hc : con_up (con_of (after_userinit st d km s))) by exact (up_con _ _ _ _ _ _ _ _ _ U).
  assert (C2 : cpus lap ids (after_userinit st d km s)) by (destruct C; now split).
  apply (wp_mpmain lap id me (pf_lap _ _ _ _ _ Hpf) (fun x => pf_id _ _ _ _ _ Hpf me id x Hid));
    [exact Hc|exact (cpus_is lap ids me id _ (pf_ids _ _ _ _ _ Hpf) C2 Hid)|].
  intros s1 L Hi. split; [reflexivity|]. exists st, d, l'. exact (booted_intro K stacks _ b st d km l' s s1 U Hul Hb Hst F L Hi).
Qed.

(** C10: the start of the machine.  On a machine whose firmware describes its
    processors, main() on the first of them, with the others running mpenter()
    when startothers() tells them to, never panics and reaches the scheduler:
    every processor is up; every page from the end of the kernel to PHYSTOP
    belongs to exactly one of the kernel's page table, the stacks, the first
    process and the free list; the kernel's page table, which is loaded, maps
    the kernel and nothing else; the buffer cache is linked up; and process 0
    is ready to run the initial program at address 0 in user mode.  There the
    machine of Kernel.v begins. *)
Theorem main_boots disk conf mp es s :
  cold disk s -> firmware kend m0 conf mp es -> m0 = sy_mem s -> lap = ld32 m0 (conf + MPC_lapicaddr) -> ids = fw_ids es ->
  (length es < spins)%nat -> (kvm_pages + NCPU <= length (heap1 kend))%nat ->
  ends others (fun _ c' s' => c' = c0 /\ exists st d K stacks l, booted st d K stacks l s' /\
      forall call_sigret end_sigret, initial kdata kend call_sigret end_sigret
        (Machine (sy_ks s') {[ 0%nat := child kdata kend call_sigret end_sigret 0 ]}))
    (main kdata kend trapret_addr forkret_addr initcode_start initcode_size entrypgdir_addr mpenter_addr idt_addr
       gdt_addr vectors entryother spins c0 s).
Proof.
  intros [O1 O2 O3 O4 O5] Hfw Em Elap Eids Hsp Hpg. pose proof (pf_cpus _ _ _ _ _ Hpf) as Hcp. unfold main.
  apply ends_step, (wp_kinit1_sys kend kdata); [exact Hlay|exact O2|]. intros k1 K1 U1 B1.
  apply ends_step, (wp_kvmalloc kend kdata); [exact Hlay|exact O1|exact K1|lia|]. intros K l s2 V2 B2 U2 A2 N2 L2.
  assert (B : forall b, b < kend -> ld (sy_mem s2) b = ld m0 b) by (intros b Hb; rewrite B2, Em by exact Hb; exact (B1 b Hb)).
  apply ends_step. eapply (wp_mpinit_sys kend kdata spins conf mp es m0).
  { exact Hlay. } { exact Hfw. } { exact B. } { exact Hsp. } { now rewrite A2. } { now rewrite N2. }
  { apply (up_mem _ _ (sy_mem (with_km k1 s))); [|exact V2]. intros b Hb. rewrite Em. apply B1. lia. }
  intros s3 V3 E3 C3. rewrite <- Elap, <- Eids in C3. apply (main_devices K l (tabs_of s) s3).
  { split; [exact V3|]. split; [exact C3|]. rewrite E3, U2. exact U1. }
  intros s4 E4. apply (main_tables K l (tabs_of s) s4); [exact E4|..].
  { rewrite O3. reflexivity. }
  intros b s5 Hb E5. rewrite O3 in E5. apply ends_then.
  eapply ends_mono; [eapply startothers_round with (tb := set_tabs b) (l := l); [exact Hpf|exact Hlay|exact Hcode|exact E5|lia]|].
  cbn beta. intros [] c' s6 (-> & stacks & l' & (V6 & C6 & U6) & Hst).
  apply ends_step, (wp_kinit2_sys kend kdata Hlay m0 K stacks l' (with_started (flags (length ids)) (set_tabs b)) s6); [exact V6|]. intros k7 V7 U7.
  apply wp_ends. eapply wp_mono; [apply (wp_main_end K stacks l' b); [exact V7|destruct C6; now split|exact U7|exact Hb|exact Hst]|].
  intros [] c' s8 (-> & st & d & l8 & Bo). split; [reflexivity|]. exists st, d, K, stacks, l8. split; [exact Bo|].
  intros call_sigret end_sigret. exact (booted_initial _ _ _ _ _ _ _ _ _ _ _ _ _ _ _ _ _ _ Bo).
Qed.
End Main.

(** * A machine with two processors *)

Module TwoCpus.
Definition LAP : Z := 0xFEE00000.
Definition KEND : Z := 0x80115000.
Definition KDATA : Z := 0x80108000.
(** Both local APICs answer with the number of their processor; the disk is ready. *)
Definition view (i : nat) : IO unit := {|
  inb p d := (if p =? 0x1f7 then IDE_DRDY else 0, d);
  outb _ _ d := d;
  insl _ n d := (replicate (4 * n) 0, d);
  outsl _ _ d := d;
  mmio_ld a d := (if a =? LAP + 4 * L_ID then Z.shiftl (Z.of_nat i) 24 else 0, d);
  mmio_st _ _ d := d
|}.
Definition es : list mpentry := Boot.Machine.entries ++ [MEother MPBUS (replicate 7 0)].
Definition m0 : mem := Boot.Machine.tables 123 MPBUS.
Definition con0 : console :=
  Console false false (Input (replicate 128 0) 0 0 0) (Cga (replicate 2000 0) 0) (Serial false [] []) (Kbd [] 0).
Definition ks0 : ks :=
  Kst (Kmem m0 0 false) (Hw [] (0, 0) 0 0 0 0 0 (0, 0)) (replicate NPROC proc0) 1 None 0 true
    (Fio (Fsst (log0 (boot_bufs [])) (Superblock 0 0 0 0 0 0 0) (replicate NINODE inode0)) (replicate NFILE file0) ∅ con0).
Definition s0 : sys unit := Sys ks0 tt (replicate NCPU 0) (replicate NCPU 0) 0 0 0 false [] 0.

Lemma platform0 : platform view LAP (fw_ids es) 0 10.
Proof.
  split; try (vm_compute; lia || done).
  - apply (bool_decide_unpack _). vm_compute. exact I.
  - intros i id d. change (fw_ids es) with [0; 1]. destruct i as [|[|i]]; intros [= <-]; reflexivity.
Qed.

Lemma firmware0 : firmware KEND m0 (P2V 0x9FC10) (P2V 0x9FC00) es.
Proof.
  split; try (vm_compute; reflexivity).
  - split; vm_compute; done.
  - split; [repeat constructor|vm_compute; reflexivity].
  - vm_compute. done.
  - split; vm_compute; done.
Qed.

Lemma cold0 : cold [] s0.
Proof. split; try reflexivity. split; [reflexivity|]. split; [vm_compute; reflexivity|done]. Qed.
End TwoCpus.

Lemma main_boots_witness :
  ends (others TwoCpus.view 0x80112000 (fun _ => 0x80113000) 0 10)
    (fun _ c' s' => c' = Ctx [] [] /\ sy_started s' !! 1%nat = Some 1 /\ initproc (sy_ks s') = Some 0%nat)
    (@main unit (TwoCpus.view 0) 1%nat TwoCpus.KDATA TwoCpus.KEND 0x80105000 0x80104000 0x80110000 44 0x80109000 0x80103000 0x80112000
       (fun _ => 0x80113000) (replicate 256 0) (replicate 100 0) 10 (Ctx [] []) TwoCpus.s0).
Proof.
  eapply ends_mono.
  - refine (@main_boots unit 1%nat TwoCpus.view TwoCpus.KDATA TwoCpus.KEND 0x80105000 0x80104000 0x80110000 44 0x80109000 0x80103000 0x80112000
      (fun _ => 0x80113000) (replicate 256 0) (replicate 100 0) TwoCpus.LAP (fw_ids TwoCpus.es) 0 10 TwoCpus.m0 TwoCpus.platform0 _ _ _ _
      [] (P2V 0x9FC10) (P2V 0x9FC00) TwoCpus.es TwoCpus.s0 TwoCpus.cold0 TwoCpus.firmware0 _ _ _ _ _).
    + split; [vm_compute; done|]. split; vm_compute; done.
    + vm_compute. done.
    + split; vm_compute; done.
    + split; [|split]; vm_compute; done.
    + reflexivity.
    + vm_compute. reflexivity.
    + reflexivity.
    + vm_compute. lia.
    + apply (bool_decide_unpack _). vm_compute. exact I.
  - cbn beta. intros _ c' s' (-> & st & d & K & stacks & l & B & _). split; [done|]. split; [|apply B].
    apply (bo_cpus _ _ _ _ _ _ _ _ _ _ _ _ _ _ _ _ B). vm_compute. lia.
Defined.
